(* ===== verification/_CoqProject ===== *)
-Q . S2P
Prelude.v
GenUtils.v
StringUtils.v
CNumbers.v
Encode.v
Gtid.v
GtidReader.v
Stmt.v
StmtManager.v
StmtLocal.v
Auth.v
ResultSet.v
QCache.v
LionRouter.v
LionSteps.v
Conn.v
HostGroups.v
SrvSelect.v
ConnPool.v
ResetSteps.v
ReadOnly.v
Tokenizer.v
ProxyProto.v
DataStream.v
Packets.v
ResultOut.v
Login.v
LoginAuth.v
LoginSafe.v
Digest.v
DigestStages.v
DigestText.v
DigestSame.v
QPComment.v
QPTables.v
QPRules.v
QPChain.v
QPStats.v
QPCommand.v
QPCounters.v
QPDigest.v
