(* ===== verification/Prelude.v ===== *)
(** * A verification development for ProxySQL with the LionRouter extension

    ProxySQL sits between MySQL clients and servers.  A query that arrives on a
    session is checked against query rules and tables that choose a hostgroup,
    a server of the hostgroup is chosen, and a connection of the pool of that
    server carries the query; a query cache may answer instead.  The LionRouter
    extension chooses the server from the keys in the text of the query and the
    placement of the data in a TiKV cluster.

    ** Files

    - [Prelude]: outcomes with their monad, machine integers, decimal numbers,
      lists.  [StringUtils] models the string helpers of lib/gen_utils.cpp on
      their buffers ([Escape], [Spaces], [Wild] for mywildcmp), [CNumbers] the
      conversions of the C library, [Tokenizer] lib/c_tokenizer.cpp (tokenizer,
      tokenize, c_split_2).
    - [GenUtils]: the arrays, queues and arithmetic of include/gen_utils.h.
    - [Encode]: length-encoded integers and the native password challenge of
      lib/MySQL_encode.cpp.
    - [Gtid], [GtidReader]: the interval sets and the stream decoder of
      lib/GTID_Server_Data.cpp.
    - [Stmt], [StmtManager], [StmtLocal]: long data, metadata, the shared cache
      and the per-connection tables of lib/MySQL_PreparedStatement.cpp; the
      module [StmtLocal.System] composes them with the handlers of
      lib/MySQL_Session.cpp.
    - [Auth]: the two groups of lib/MySQL_Authentication.cpp.
    - [ResultSet], [QCache]: the images of cached results and the stores of
      lib/Query_Cache.cpp.
    - [LionRouter]: lib/lionrouter.cpp and the branch of lib/Query_Processor.cpp
      that calls it, with the placement document as it is between two loads.
      [LionSteps]: the loads of documents and the threads that read them at the
      same time, access by access, since the code takes no lock there.
    - [Conn], [HostGroups], [SrvSelect], [ConnPool]: backend connections
      (lib/mysql_connection.cpp), hostgroups and servers (lib/MyHGC.cpp,
      lib/MySrvC.cpp, lib/MySrvList.cpp), the choice of a server
      (MyHGC::get_random_MySrvC) and the pool (lib/MySrvConnList.cpp).
      [ResetSteps]: the thread that resets connections, with other threads between
      its steps.
      [ReadOnly]: moving servers between reader and writer hostgroups when the
      monitor reports which are read only.  They share the parts of
      lib/MySQL_HostGroups_Manager.cpp.
    - [QPComment], [QPTables]: the settings in the comment of a query, fast
      routing and the firewall's white list of lib/Query_Processor.cpp.
      [QPRules]: the table of rules, its load from Admin and the copies that the
      threads make; [QPChain]: matching, the chain of rules and
      process_mysql_query; [QPStats]: histories of the threads with the table,
      and the firewall with its tables.
    - [QPCommand], [QPCounters], [QPDigest]: the command of a statement from its
      first words, the counters of commands, and the statistics of digests
      (lib/QP_query_digest_stats.cpp) with the listings that take them away and
      merge them back.
    - [Digest], [DigestStages]: the digest of a query in lib/c_tokenizer.cpp, the
      automaton of its first stage and the stages that compress the result;
      [DigestText] says what the first stage does with a query that is a sequence
      of pieces, [DigestSame] that queries of the same pieces have one digest.
    - [ProxyProto]: the PROXY header and the networks that may send it
      (lib/proxy_protocol_info.cpp).  [DataStream]: the input and output of a
      connection in lib/mysql_data_stream.cpp, from the bytes that recv returns
      (read_from_net) through the queue to packets (buffer2array, with
      compression, fast forward and the PROXY header) and from packets through
      the queue to the bytes given to send (array2buffer,
      generate_compressed_packet, write_to_net), and the blocks that hold result
      sets.
    - [Packets]: the packets that lib/MySQL_Protocol.cpp writes, with a reader of
      the protocol to compare; [ResultOut]: the results of lib/MySQL_ResultSet.cpp
      on their way to the client, and from there into the query cache.
    - [Login]: the connection phase, from the greeting to the decision:
      process_pkt_handshake_response with its parts, COM_CHANGE_USER and the
      handlers of lib/MySQL_Session.cpp that call them.  The users are what the
      class [Login.Accounts] promises; [LoginAuth] shows that [Auth] keeps the
      promise.  [LoginSafe]: what holds of any client.

    ** Conventions

    An operation keeps the name it has in the code and becomes a function from
    the state and its arguments to an [outcome]: [Ok], or [Fault] with what went
    wrong (an access out of bounds, a failed assertion, an exception, a division
    by zero, a loop that does not end).  Objects that the code shares by pointer
    live in an explicit heap, a map from addresses, so that using one after it
    was freed is a fault too.  Bytes and machine integers are [Z], wrapped by
    [u32], [u64], [i32] and [i64] where the code can overflow.  What is locked
    is atomic; where the code gives a lock back in between, the steps are
    separate and theorems quantify over their interleavings.  The clock, random
    numbers, memory that malloc returns, hash functions, zlib, inet_pton, the
    JSON library, what the socket takes and returns and the answers of servers
    are arguments.  Logging, metrics and the SQLite
    tables that only report are left out.

    ** Fuel

    Loops that are not structural take fuel and give [Fault Diverges] when it
    runs out; the wrappers pass enough, and a theorem says so.  A doubling loop
    gets one unit for each bit of its integer ([GenUtils.Arith]); loops over a
    buffer or a string get its length, since every turn consumes a byte
    ([GtidReader], [Tokenizer], [QPTables], [LionRouter],
    [DataStream.read_pkts_loop]); filling the output queue gets its room and the
    number of packets ([DataStream.out_fuel]); a loop over an array gets its
    length, and a binary search one more ([QPTables.bsearch]).  The first stage
    of the digest gets three turns for each character ([Digest.stage_1_fuel]), the
    other stages the length of the buffer; how often they are repeated is an
    argument, and once is enough for a query that fits the limit.

    ** What the theorems show

    - Data structures implement abstract ones under any history of operations:
      arrays lists, credentials finite maps, the query cache a map from keys to
      their last content, long data a map from parameters, the GTID decoder a
      decoder of single bytes, interval sets sets of numbers.
    - Memory stays consistent: histories of the caches, the pool and the
      hostgroups run without a fault, with exact counters and references.
    - Choices are right and possible: the server drawn is online, below its
      limits and drawn with its weight as probability; the connection found
      suits the client best; the store is one of those that serve most keys of
      one placement document, as long as no new one is published meanwhile;
      statements that leave state on a server keep their connection;
      servers are in the hostgroups that the reports of the monitor give them;
      fast routing finds exactly the configured hostgroup.
    - Queries are decided: the chain of rules ends within a bound and gives the
      settings and the hostgroup of an abstract table; the configured rules reach
      every thread; the firewall blocks exactly what its tables do not allow; the
      command of a statement is the one of a grammar.
    - Queries are counted together: below the length from which lists of lists
      can overflow it, the digest is computed in bounds; its first stage replaces
      literals and whole numbers, joins blanks and trims the ends; and queries
      that differ only in these values have the same digest.
    - Statistics are conserved: hits of rules, counters of commands and
      executions of digests, over any interleaving of threads, loads and
      listings.
    - Packets get through: after the first packet and without compression,
      reading delivers the packets that were sent, whole and in order, whatever
      pieces their bytes arrive in, writing sends all of them, and the two
      compose; clients may announce another address exactly when they are in one
      of the configured networks with masks of their family.
    - Results arrive: what a client reads are the columns, rows and status that
      the program was given, in packets numbered without a gap, directly or out
      of the query cache, also when reading pauses; rows are below 16 MB there.
      The answer to a prepare says what is stored.
    - Clients get in as they should: a client that is let in has sent what the
      stored password requires under the plugin in force, within the limits of
      the user and of the server, and no packet makes an assertion fail.
    - Text and bytes survive round trips: GTID sets, credentials, rules, result
      sets.
    - Defects are stated as theorems as well, next to what does hold: they are
      the findings of the manifest.  Where the code misbehaves on a case, the
      theorem about the others has the condition that excludes it, and its comment
      says so.

    ** Not modelled

    Sockets, TLS, threads, the event loops and the state machine of
    MySQL_Session around them; the client library behind a connection; Monitor,
    Cluster, the admin interface, loggers and the other servers, which are I/O
    and SQLite; vendored code.  Of the sessions the handlers of the login, of
    COM_CHANGE_USER and of prepared statements are modelled.  SET statements are
    split by regular expressions of RE2.  The older versions of the digest are
    called by tests only. *)
From stdpp Require Export base tactics numbers list gmap strings fin_maps sorting.
From Stdlib Require Export ZArith Lia.

#[global] Set Default Proof Using "Type".
#[export] Set Default Goal Selector "!".

Declare Scope proxysql_scope.
Delimit Scope proxysql_scope with px.
Open Scope Z_scope.

(** ** Faults

    What the C++ code can do instead of returning: the model never hides an
    undefined behaviour behind a default value.  [OutOfBounds] is an access
    outside an allocated array, [DivByZero] an integer division by zero,
    [Uninitialised] a read of a variable that was never written, [Diverges] a
    loop that does not end, [AssertFail] a failed [assert], [NullPointer] the use
    of a null pointer, [BadShift] a shift by a negative amount or by the width of
    the type, and [Exception] a C++ exception that leaves the
    function. *)
Inductive fault :=
  | OutOfBounds
  | DivByZero
  | Uninitialised
  | Diverges
  | AssertFail
  | NullPointer
  | BadShift
  | Exception.

#[export] Instance fault_eq_dec : EqDecision fault.
Proof. solve_decision. Defined.

(** The result of a fallible computation. *)
Inductive outcome (A : Type) :=
  | Ok (a : A)
  | Fault (f : fault).
Arguments Ok {A} a.
Arguments Fault {A} f.

#[export] Instance outcome_ret : MRet outcome := λ A a, Ok a.
#[export] Instance outcome_bind : MBind outcome := λ A B k m,
  match m with Ok a => k a | Fault f => Fault f end.
#[export] Instance outcome_fmap : FMap outcome := λ A B k m,
  match m with Ok a => Ok (k a) | Fault f => Fault f end.
#[export] Instance outcome_eq_dec `{EqDecision A} : EqDecision (outcome A).
Proof. solve_decision. Defined.

(** An array read: reading past the end is a fault, not a default. *)
Definition read_at {A} (l : list A) (i : Z) : outcome A :=
  if i <? 0 then Fault OutOfBounds
  else match l !! Z.to_nat i with Some x => Ok x | None => Fault OutOfBounds end.

(** An array write. *)
Definition write_at {A} (l : list A) (i : Z) (x : A) : outcome (list A) :=
  if (i <? 0) || (Z.of_nat (length l) <=? i) then Fault OutOfBounds
  else Ok (<[Z.to_nat i := x]> l).

(** ** Machine integers

    A [w]-bit integer is a [Z] in its range; every operation that can leave the
    range is written with the wrap-around of its C type. *)
Definition u8 (x : Z) : Z := x mod 2 ^ 8.
Definition u16 (x : Z) : Z := x mod 2 ^ 16.
Definition u32 (x : Z) : Z := x mod 2 ^ 32.
Definition u64 (x : Z) : Z := x mod 2 ^ 64.
Definition i32 (x : Z) : Z := (x + 2 ^ 31) mod 2 ^ 32 - 2 ^ 31.
Definition i64 (x : Z) : Z := (x + 2 ^ 63) mod 2 ^ 64 - 2 ^ 63.

Abbreviation is_u8 x := (0 <= x < 2 ^ 8) (only parsing).
Abbreviation is_u16 x := (0 <= x < 2 ^ 16) (only parsing).
Abbreviation is_u32 x := (0 <= x < 2 ^ 32) (only parsing).
Abbreviation is_u64 x := (0 <= x < 2 ^ 64) (only parsing).
Abbreviation is_i64 x := (- 2 ^ 63 <= x < 2 ^ 63) (only parsing).

(** ** Bytes

    C memory and C strings are lists of bytes, each a [Z] in [0, 255]. *)
Abbreviation bytes := (list Z) (only parsing).

Definition chr (a : Ascii.ascii) : Z := Z.of_N (Ascii.N_of_ascii a).
Fixpoint str (s : string) : list Z :=
  match s with
  | EmptyString => []
  | String a s' => chr a :: str s'
  end.

Definition is_byte (b : Z) : bool := (0 <=? b) && (b <? 256).
Definition is_bytes (l : list Z) : bool := forallb is_byte l.

(** Little-endian integers, as [memcpy] between an integer and memory on the
    supported targets reads and writes them. *)
Fixpoint le_bytes (n : nat) (v : Z) : list Z :=
  match n with
  | O => []
  | S n' => v mod 256 :: le_bytes n' (v / 256)
  end.
Fixpoint le_value (l : list Z) : Z :=
  match l with
  | [] => 0
  | b :: l' => b + 256 * le_value l'
  end.

(** [isspace] in the C locale. *)
Definition isspace (c : Z) : bool := (c =? 32) || ((9 <=? c) && (c <=? 13)).
(** [isdigit]. *)
Definition isdigit (c : Z) : bool := (48 <=? c) && (c <=? 57).

(** ** Decimal numbers

    [dec n] is what [printf("%lu")] and [std::to_string] write; [digits_value] is
    the number a run of digits denotes. *)
Fixpoint digits (fuel : nat) (n : Z) (acc : list Z) : list Z :=
  match fuel with
  | O => acc
  | S fuel' =>
      let acc' := 48 + n mod 10 :: acc in
      if n <? 10 then acc' else digits fuel' (n / 10) acc'
  end.
Definition dec (n : Z) : list Z := digits 20 n [].
Definition sdec (n : Z) : list Z := if n <? 0 then 45 :: dec (- n) else dec n.

Definition digits_value (ds : list Z) : Z :=
  fold_left (λ v c, v * 10 + (c - 48)) ds 0.

(** The longest prefix of [s] whose characters satisfy [p], and the rest. *)
Fixpoint span (p : Z → bool) (s : list Z) : list Z * list Z :=
  match s with
  | [] => ([], [])
  | c :: s' => if p c then let '(a, b) := span p s' in (c :: a, b) else ([], s)
  end.

(** ** Record updates

    [r <| f := v |>] is [r] with its field [f] replaced.  [Eta R] gives the record
    rebuilt from its own fields, from which the update of one field is derived. *)
Class Eta (R : Type) := eta : R → R.
Class Setter {R T : Type} (proj : R → T) := upd : (T → T) → R → R.

Ltac derive_setter :=
  match goal with
  | |- @Setter ?R ?T ?proj =>
      let g := constr:(λ (f : T → T) (r : R),
        ltac:(let t := eval hnf in (_ : Eta R) in
              let t := eval cbv beta in (t r) in
              lazymatch (eval pattern (proj r) in t) with
              | ?h _ => let u := eval cbv beta in (h (f (proj r))) in exact u
              end)) in
      exact g
  end.
#[export] Hint Extern 1 (Setter _) => derive_setter : typeclass_instances.

Notation "r <| f := v |>" := (upd (proj := f) (λ _, v) r)
  (at level 1, left associativity, f at level 9, v at level 200, format "r  <|  f  :=  v  |>") : proxysql_scope.
Open Scope proxysql_scope.

(** ** Automation *)
Create HintDb px.
Create Rewrite HintDb pxr.


(** Inverts every [outcome] equation of the context whose left side is a
    [match] or a constructor. *)
Ltac inv_ok :=
  repeat match goal with
  | H : Ok _ = Ok _ |- _ => injection H as H; subst
  | H : Ok _ = Fault _ |- _ => discriminate H
  | H : Fault _ = Ok _ |- _ => discriminate H
  | H : mret _ = Ok _ |- _ => injection H as H; subst
  | H : mbind _ ?m = Ok _ |- _ =>
      let E := fresh "E" in destruct m eqn:E; [cbn in H | discriminate H]
  end.

(** Case analysis on the boolean tests of the goal, with the comparison each
    one decides left in the context. *)
Ltac zbool :=
  repeat match goal with
  | H : (_ <? _) = true |- _ => apply Z.ltb_lt in H
  | H : (_ <? _) = false |- _ => apply Z.ltb_ge in H
  | H : (_ <=? _) = true |- _ => apply Z.leb_le in H
  | H : (_ <=? _) = false |- _ => apply Z.leb_gt in H
  | H : (_ =? _) = true |- _ => apply Z.eqb_eq in H
  | H : (_ =? _) = false |- _ => apply Z.eqb_neq in H
  | H : _ && _ = true |- _ => apply andb_true_iff in H as [? ?]
  | H : _ || _ = false |- _ => apply orb_false_iff in H as [? ?]
  | H : negb _ = true |- _ => apply negb_true_iff in H
  | H : negb _ = false |- _ => apply negb_false_iff in H
  end.

Ltac case_test :=
  match goal with
  | |- context [if ?b then _ else _] =>
      let E := fresh "E" in destruct b eqn:E; zbool
  end.

(** Unfolds the machine-integer wraps and leaves linear arithmetic. *)
Ltac wrap_lia :=
  unfold u8, u16, u32, u64, i32, i64 in *;
  try (Z.to_euclidean_division_equations; lia).

(** ** Machine-integer lemmas *)
Lemma u32_small x : 0 <= x < 2 ^ 32 → u32 x = x.
Proof. intros; apply Z.mod_small; lia. Qed.
Lemma u64_small x : 0 <= x < 2 ^ 64 → u64 x = x.
Proof. intros; apply Z.mod_small; lia. Qed.
Lemma u64_add_idemp x y : u64 (u64 x + y) = u64 (x + y).
Proof. apply Zplus_mod_idemp_l. Qed.
Lemma u64_sub_idemp x y : u64 (u64 x - y) = u64 (x - y).
Proof. apply Zminus_mod_idemp_l. Qed.
Lemma u32_sub_idemp x y : u32 (u32 x - y) = u32 (x - y).
Proof. apply Zminus_mod_idemp_l. Qed.
Lemma u32_add_idemp x y : u32 (u32 x + y) = u32 (x + y).
Proof. apply Zplus_mod_idemp_l. Qed.
Lemma u64_u64 x : u64 (u64 x) = u64 x.
Proof. apply Zmod_mod. Qed.
Lemma u16_small x : 0 <= x < 2 ^ 16 → u16 x = x.
Proof. intros; apply Z.mod_small; lia. Qed.
Lemma u8_add_idemp x y : u8 (u8 x + y) = u8 (x + y).
Proof. apply Zplus_mod_idemp_l. Qed.
Lemma u8_small x : 0 <= x < 2 ^ 8 → u8 x = x.
Proof. intros; apply Z.mod_small; lia. Qed.
Lemma u8_range x : 0 <= u8 x < 2 ^ 8.
Proof. apply Z.mod_pos_bound; lia. Qed.
Lemma u16_range x : 0 <= u16 x < 2 ^ 16.
Proof. apply Z.mod_pos_bound; lia. Qed.
Lemma u32_range x : 0 <= u32 x < 2 ^ 32.
Proof. apply Z.mod_pos_bound; lia. Qed.
Lemma u64_range x : 0 <= u64 x < 2 ^ 64.
Proof. apply Z.mod_pos_bound; lia. Qed.
Lemma i64_small x : - 2 ^ 63 <= x < 2 ^ 63 → i64 x = x.
Proof. intros. unfold i64. rewrite Z.mod_small by lia. lia. Qed.
Lemma i32_small x : - 2 ^ 31 <= x < 2 ^ 31 → i32 x = x.
Proof. intros. unfold i32. rewrite Z.mod_small by lia. lia. Qed.

#[export] Hint Resolve u8_range u16_range u32_range u64_range : px.
#[export] Hint Rewrite u32_small u64_small u16_small u8_small i64_small i32_small
  using lia : pxr.

(** ** Byte lemmas *)
Lemma le_bytes_length n v : length (le_bytes n v) = n.
Proof. revert v; induction n; intros; simpl; auto. Qed.

Lemma is_bytes_cons b l : is_bytes (b :: l) = true ↔ 0 <= b < 256 ∧ is_bytes l = true.
Proof.
  unfold is_bytes, is_byte; simpl. rewrite !andb_true_iff, Z.leb_le, Z.ltb_lt. tauto.
Qed.

Lemma is_bytes_app l1 l2 :
  is_bytes (l1 ++ l2) = true ↔ is_bytes l1 = true ∧ is_bytes l2 = true.
Proof. unfold is_bytes. rewrite forallb_app, andb_true_iff. done. Qed.

Lemma le_bytes_is_bytes n v : is_bytes (le_bytes n v) = true.
Proof.
  revert v; induction n as [|n IH]; intros v; simpl; [done|].
  apply is_bytes_cons. split; [apply Z.mod_pos_bound; lia | apply IH].
Qed.

Lemma le_value_bytes n v : le_value (le_bytes n v) = v mod 256 ^ Z.of_nat n.
Proof.
  revert v; induction n as [|n IH]; intros v; cbn [le_bytes le_value].
  - change (256 ^ Z.of_nat 0) with 1. by rewrite Z.mod_1_r.
  - rewrite IH, Nat2Z.inj_succ, Z.pow_succ_r by lia.
    rewrite Z.rem_mul_r by (pose proof (Z.pow_pos_nonneg 256 (Z.of_nat n)); lia). lia.
Qed.

Lemma le_value_bytes_small n v :
  0 <= v < 256 ^ Z.of_nat n → le_value (le_bytes n v) = v.
Proof. intros. rewrite le_value_bytes. by apply Z.mod_small. Qed.

Lemma le_bytes_value l : is_bytes l = true → le_bytes (length l) (le_value l) = l.
Proof.
  induction l as [|b l IH]; [done|]. rewrite is_bytes_cons. intros [Hb Hl]. simpl.
  rewrite (Z.mul_comm 256), Z.mod_add, Z.div_add, Z.mod_small, Z.div_small by lia.
  by rewrite Z.add_0_l, IH.
Qed.

Lemma le_value_range l :
  is_bytes l = true → 0 <= le_value l < 256 ^ Z.of_nat (length l).
Proof.
  induction l as [|b l IH]; [done|]. rewrite is_bytes_cons. intros [Hb Hl].
  specialize (IH Hl). cbn [length le_value]. rewrite Nat2Z.inj_succ, Z.pow_succ_r by lia. lia.
Qed.

#[export] Hint Resolve le_bytes_is_bytes : px.
#[export] Hint Rewrite le_bytes_length : pxr.

(** ** Decimal lemmas *)
Lemma digits_fold fuel n acc :
  0 <= n < 10 ^ Z.of_nat fuel →
  fold_left (λ v c, v * 10 + (c - 48)) (digits fuel n acc) 0 =
  fold_left (λ v c, v * 10 + (c - 48)) acc n.
Proof.
  revert n acc; induction fuel as [|fuel IH]; intros n acc Hn.
  { change (10 ^ Z.of_nat 0) with 1 in Hn. by assert (n = 0) as -> by lia. }
  rewrite Nat2Z.inj_succ, Z.pow_succ_r in Hn by lia. cbn [digits].
  destruct (Z.ltb_spec n 10); cbn [fold_left].
  - f_equal. rewrite Z.mod_small by lia. lia.
  - rewrite IH by (Z.to_euclidean_division_equations; lia). cbn [fold_left]. f_equal.
    Z.to_euclidean_division_equations; lia.
Qed.

Lemma digits_value_dec n : 0 <= n < 10 ^ 20 → digits_value (dec n) = n.
Proof. intros Hn. unfold digits_value, dec. by rewrite digits_fold. Qed.

Lemma digits_isdigit fuel n acc :
  Forall (λ c, isdigit c = true) acc → Forall (λ c, isdigit c = true) (digits fuel n acc).
Proof.
  revert n acc; induction fuel as [|fuel IH]; intros n acc Hacc; [done|]. cbn [digits].
  assert (Forall (λ c, isdigit c = true) (48 + n mod 10 :: acc)).
  { constructor; [|done]. pose proof (Z.mod_pos_bound n 10). unfold isdigit.
    rewrite (proj2 (Z.leb_le _ _)), (proj2 (Z.leb_le _ _)) by lia. done. }
  destruct (n <? 10); auto.
Qed.

Lemma dec_isdigit n : Forall (λ c, isdigit c = true) (dec n).
Proof. apply digits_isdigit. constructor. Qed.

Lemma digits_nonempty fuel n acc : acc ≠ [] → digits fuel n acc ≠ [].
Proof.
  revert n acc; induction fuel as [|fuel IH]; intros n acc Hacc; [done|]. cbn [digits].
  destruct (n <? 10); [done|]. by apply IH.
Qed.

Lemma dec_nonempty n : dec n ≠ [].
Proof.
  assert (H : ∀ fuel, digits (S fuel) n [] ≠ []); [|exact (H 19%nat)]. intros fuel. cbn [digits].
  destruct (n <? 10); [done|]. by apply digits_nonempty.
Qed.

Lemma span_app p a b :
  Forall (λ c, p c = true) a → (∀ c, head b = Some c → p c = false) → span p (a ++ b) = (a, b).
Proof.
  intros Ha Hb. induction Ha as [|c a Hc _ IH]; simpl.
  - destruct b as [|c b]; [done|]. simpl. by rewrite (Hb c eq_refl).
  - by rewrite Hc, IH.
Qed.

Lemma isdigit_range c : isdigit c = true ↔ 48 <= c <= 57.
Proof. unfold isdigit. rewrite andb_true_iff. lia. Qed.

Lemma dec_head n : ∃ c r, dec n = c :: r ∧ 48 <= c <= 57.
Proof.
  pose proof (dec_nonempty n). pose proof (dec_isdigit n) as Hd. destruct (dec n) as [|c r]; [done|].
  apply Forall_cons in Hd as [Hc _]. apply isdigit_range in Hc. eauto.
Qed.

(** ** Array access lemmas *)
Lemma read_at_Some {A} (l : list A) i x :
  read_at l i = Ok x ↔ 0 <= i ∧ l !! Z.to_nat i = Some x.
Proof.
  unfold read_at. case_test; [split; [done | lia]|].
  destruct (l !! Z.to_nat i) eqn:E'; naive_solver.
Qed.

Lemma read_at_ok {A} (l : list A) i :
  0 <= i < Z.of_nat (length l) → ∃ x, read_at l i = Ok x ∧ l !! Z.to_nat i = Some x.
Proof.
  intros Hi. destruct (lookup_lt_is_Some_2 l (Z.to_nat i)) as [x Hx]; [lia|].
  exists x. rewrite read_at_Some. auto with lia.
Qed.

Lemma write_at_ok {A} (l : list A) i x :
  0 <= i < Z.of_nat (length l) → write_at l i x = Ok (<[Z.to_nat i := x]> l).
Proof. intros. unfold write_at. case_test; [apply orb_true_iff in E as [?|?]; zbool; lia | done]. Qed.

Lemma length_snoc {A} (l : list A) x :
  Z.of_nat (length l) + 1 = Z.of_nat (length (l ++ [x])).
Proof. rewrite length_app. simpl. lia. Qed.

(** Writing the next byte of a block that is filled from its start. *)
Lemma write_next {A} (l rest : list A) g x :
  write_at (l ++ g :: rest) (Z.of_nat (length l)) x = Ok ((l ++ [x]) ++ rest).
Proof.
  rewrite write_at_ok by (rewrite length_app; simpl; lia).
  by rewrite Nat2Z.id, insert_app_r_alt, Nat.sub_diag, <- app_assoc by lia.
Qed.

(** ** Lists of objects: the swap-removal the pool arrays use

    [swap_remove i l] is what is left of [l] when its last element replaces
    element [i] ([PtrArray::remove_index_fast]); [None] when [i] is past the
    end. *)
Definition swap_remove {A} (i : nat) (l : list A) : option (A * list A) :=
  x ← l !! i;
  y ← last l;
  Some (x, if decide (i = pred (length l)) then removelast l
           else removelast (<[i := y]> l)).

Lemma removelast_take {A} (l : list A) : removelast l = take (pred (length l)) l.
Proof.
  induction l as [|x l IH]; [done|]. destruct l as [|y l]; [done|].
  change (removelast (x :: y :: l)) with (x :: removelast (y :: l)). rewrite IH. done.
Qed.

Lemma length_removelast {A} (l : list A) : length (removelast l) = pred (length l).
Proof. rewrite removelast_take, length_take. lia. Qed.

Lemma swap_remove_is_Some {A} i (l : list A) :
  (i < length l)%nat → ∃ x l', swap_remove i l = Some (x, l') ∧ l !! i = Some x.
Proof.
  intros Hi. unfold swap_remove. destruct (lookup_lt_is_Some_2 l i Hi) as [x Hx].
  rewrite Hx; simpl. destruct (last l) eqn:E; [simpl; eauto|].
  apply last_None in E; subst; done.
Qed.

Lemma swap_remove_length {A} i (l : list A) x l' :
  swap_remove i l = Some (x, l') → S (length l') = length l.
Proof.
  unfold swap_remove. intros H. destruct (l !! i) eqn:E; [|done]; simpl in H.
  destruct (last l); [|done]; simpl in H. injection H as <- <-.
  apply lookup_lt_Some in E.
  destruct (decide _); rewrite length_removelast, ?length_insert; lia.
Qed.

(** The removed element and what is left are a permutation of the array. *)
Lemma swap_remove_perm {A} i (l : list A) x l' :
  swap_remove i l = Some (x, l') → l ≡ₚ x :: l'.
Proof.
  unfold swap_remove. intros H. destruct (l !! i) as [x0|] eqn:E; [|done]; simpl in H.
  destruct (last l) as [y|] eqn:El; [|done]; simpl in H. injection H as <- <-.
  destruct (last_Some l y) as [Hl _]. destruct (Hl El) as [k ->]. clear Hl El.
  rewrite length_app in *; simpl in *. replace (pred (length k + 1)) with (length k) by lia.
  destruct (decide (i = length k)) as [->|Hne].
  - rewrite removelast_last. rewrite list_lookup_middle in E by done. injection E as <-.
    by rewrite Permutation_app_comm.
  - assert (i < length k)%nat.
    { apply lookup_lt_Some in E. rewrite length_app in E; simpl in E. lia. }
    rewrite insert_app_l, removelast_last by done. rewrite lookup_app_l in E by done.
    rewrite insert_take_drop by done. rewrite <- (take_drop_middle k i x0 E) at 1.
    rewrite <- !app_assoc. simpl. solve_Permutation.
Qed.

Lemma swap_remove_lookup {A} i (l : list A) x l' :
  swap_remove i l = Some (x, l') → l !! i = Some x.
Proof.
  unfold swap_remove. intros H. destruct (l !! i); [|done]; simpl in H.
  destruct (last l); naive_solver.
Qed.

(** What is in front of the removed element does not move. *)
Lemma swap_remove_take {A} i (l : list A) x l' :
  swap_remove i l = Some (x, l') → take i l' = take i l.
Proof.
  unfold swap_remove. intros H. destruct (l !! i) as [x0|] eqn:E; [|done]; simpl in H.
  destruct (last l) as [y|]; [|done]; simpl in H. injection H as <- <-.
  apply lookup_lt_Some in E.
  destruct (decide _) as [->|Hne]; rewrite removelast_take, ?length_insert, take_take, Nat.min_l by lia;
    [done|]. by rewrite take_insert_ge by lia.
Qed.

(** Where the elements that are left were: the last one has moved to position [i]. *)
Lemma swap_remove_positions {A} i (l : list A) x l' j y : swap_remove i l = Some (x, l') → l' !! j = Some y →
  l !! (if decide (j = i) then length l' else j) = Some y.
Proof.
  intros H. pose proof (swap_remove_length _ _ _ _ H) as Hl. revert H. unfold swap_remove. destruct (l !! i) as [x0|] eqn:Hi; [|done].
  cbn [mbind option_bind]. destruct (last l) as [z|] eqn:Hz; [|done]. cbn [mbind option_bind]. intros [= <- <-] Hj.
  rewrite last_lookup in Hz. apply lookup_lt_Some in Hj as Hlt.
  destruct (decide (i = pred (length l))) as [->|Hne]; rewrite removelast_take in *.
  - rewrite decide_False by lia. by rewrite lookup_take_lt in Hj by lia.
  - rewrite length_insert, lookup_take_lt in Hj by lia. destruct (decide (j = i)) as [->|Hji].
    + rewrite list_lookup_insert_eq in Hj by lia. by replace (length _) with (pred (length l)) by lia; simplify_eq.
    + by rewrite list_lookup_insert_ne in Hj.
Qed.

#[export] Hint Resolve swap_remove_perm swap_remove_lookup : px.

(** ** Blocks of memory *)
(** [memcpy] of [src] into a block at offset [off]. *)
Definition blit (dst : list Z) (off : Z) (src : list Z) : outcome (list Z) :=
  if (off <? 0) || (Z.of_nat (length dst) <? off + Z.of_nat (length src)) then Fault OutOfBounds
  else Ok (take (Z.to_nat off) dst ++ src ++ drop (Z.to_nat off + length src) dst).

(** The [n] bytes of a block at offset [off]. *)
Definition slice (src : list Z) (off n : Z) : outcome (list Z) :=
  if (off <? 0) || (n <? 0) || (Z.of_nat (length src) <? off + n) then Fault OutOfBounds
  else Ok (take (Z.to_nat n) (drop (Z.to_nat off) src)).

Lemma slice_ok src off n :
  0 <= off → 0 <= n → off + n <= Z.of_nat (length src) →
  slice src off n = Ok (take (Z.to_nat n) (drop (Z.to_nat off) src)).
Proof.
  intros. unfold slice.
  by rewrite (proj2 (Z.ltb_ge _ _)), (proj2 (Z.ltb_ge _ _)), (proj2 (Z.ltb_ge _ _)) by lia.
Qed.

Lemma blit_ok dst off src :
  0 <= off → off + Z.of_nat (length src) <= Z.of_nat (length dst) →
  blit dst off src = Ok (take (Z.to_nat off) dst ++ src ++ drop (Z.to_nat off + length src) dst).
Proof.
  intros. unfold blit. by rewrite (proj2 (Z.ltb_ge _ _)), (proj2 (Z.ltb_ge _ _)) by lia.
Qed.

(** ** Sums over finite maps *)
Definition map_total `{Countable K} {A} (f : A → Z) (m : gmap K A) : Z :=
  map_fold (λ _ a n, f a + n) 0 m.

Section map_total.
Context `{Countable K} {A : Type}.
Implicit Types (f : A → Z) (m : gmap K A).

Lemma map_total_empty f : map_total f (∅ : gmap K A) = 0.
Proof. apply map_fold_empty. Qed.

Lemma map_total_insert_new f m k a :
  m !! k = None → map_total f (<[k := a]> m) = f a + map_total f m.
Proof. intros Hk. unfold map_total. rewrite map_fold_insert_L; [done|intros; lia|done]. Qed.

Lemma map_total_delete f m k a :
  m !! k = Some a → map_total f (delete k m) = map_total f m - f a.
Proof.
  intros Hk. rewrite <- (insert_delete_id m k a Hk) at 2.
  rewrite map_total_insert_new by apply lookup_delete_eq. lia.
Qed.

Lemma map_total_update f m k a b :
  m !! k = Some a → map_total f (<[k := b]> m) = map_total f m - f a + f b.
Proof.
  intros Hk. rewrite <- insert_delete_eq, map_total_insert_new by apply lookup_delete_eq.
  rewrite (map_total_delete f m k a Hk). lia.
Qed.

Lemma map_total_ext f g m : (∀ k a, m !! k = Some a → f a = g a) → map_total f m = map_total g m.
Proof.
  induction m as [|k a m Hk IH] using map_ind; intros Hfg; [done|].
  rewrite !map_total_insert_new by done. f_equal.
  - apply (Hfg k). by rewrite lookup_insert_eq.
  - apply IH. intros k' a' Hk'. apply (Hfg k'). rewrite lookup_insert_ne; [done|]. intros ->; congruence.
Qed.

Lemma map_total_nonneg f m : (∀ k a, m !! k = Some a → 0 <= f a) → 0 <= map_total f m.
Proof.
  induction m as [|k a m Hk IH] using map_ind; intros Hf; [done|].
  rewrite map_total_insert_new by done.
  pose proof (Hf k a ltac:(by rewrite lookup_insert_eq)).
  assert (0 <= map_total f m); [|lia]. apply IH. intros k' a' Hk'. apply (Hf k').
  rewrite lookup_insert_ne; [done|]. intros ->; congruence.
Qed.

(** A part is at most the whole. *)
Lemma map_total_lookup_le f m k a :
  (∀ k a, m !! k = Some a → 0 <= f a) → m !! k = Some a → f a <= map_total f m.
Proof.
  intros Hf Hk. rewrite <- (insert_delete_id m k a Hk), map_total_insert_new by apply lookup_delete_eq.
  assert (0 <= map_total f (delete k m)); [|lia]. apply map_total_nonneg.
  intros k' a' [_ Hk']%lookup_delete_Some. by apply (Hf k').
Qed.

Lemma map_total_filter_le f (P : K * A → Prop) `{∀ x, Decision (P x)} m :
  (∀ k a, m !! k = Some a → 0 <= f a) → map_total f (filter P m) <= map_total f m.
Proof.
  induction m as [|k a m Hk IH] using map_ind; intros Hf; [by rewrite map_filter_empty|].
  assert (Hf' : ∀ k a, m !! k = Some a → 0 <= f a).
  { intros k' a' Hk'. apply (Hf k'). rewrite lookup_insert_ne; [done|]. intros ->; congruence. }
  specialize (IH Hf'). rewrite (map_total_insert_new f m k a Hk).
  pose proof (Hf k a ltac:(by rewrite lookup_insert_eq)).
  destruct (decide (P (k, a))).
  - rewrite map_filter_insert_True, map_total_insert_new; [lia| |done].
    apply map_lookup_filter_None. by left.
  - rewrite map_filter_insert_False, delete_id by done. lia.
Qed.
End map_total.

(** ** Iteration over [std::map] in the order of the keys *)
Definition in_key_order {V} (m : gmap Z V) : list (Z * V) :=
  omap (λ k, (λ v, (k, v)) <$> m !! k) (merge_sort Z.le (elements (dom m))).

Lemma in_key_order_elem {V} (m : gmap Z V) k v : (k, v) ∈ in_key_order m ↔ m !! k = Some v.
Proof.
  unfold in_key_order. rewrite list_elem_of_omap. split.
  - intros (k' & _ & Hk'). destruct (m !! k') eqn:E; [|done]. by injection Hk' as -> ->.
  - intros Hk. exists k. rewrite Hk. split; [|done].
    rewrite merge_sort_Permutation, elem_of_elements. by apply elem_of_dom_2 in Hk.
Qed.

(** Two maps with the same keys are walked in step. *)
Lemma in_key_order_fmap {V W} (f : V → option W) (m : gmap Z V) (m' : gmap Z W) :
  (∀ k, m' !! k = m !! k ≫= f) → (∀ k v, m !! k = Some v → is_Some (f v)) →
  omap f (in_key_order m).*2 = (in_key_order m').*2.
Proof.
  intros Hm Hf. assert (Hd : dom m' = dom m).
  { apply set_eq. intros k. rewrite !elem_of_dom, Hm. destruct (m !! k) as [v|] eqn:E; [|by split; intros [? [=]]].
    split; [intros _; by eexists|intros _; by eapply Hf]. }
  unfold in_key_order. rewrite Hd. induction (merge_sort Z.le (elements (dom m))) as [|k ks IH]; [done|].
  cbn [omap list_omap]. rewrite Hm. destruct (m !! k) as [v|] eqn:E; [|exact IH].
  cbn [fmap option_fmap option_map list_fmap snd omap list_omap mbind option_bind].
  destruct (Hf k v E) as [w Hw]. rewrite Hw. cbn [fmap option_fmap option_map list_fmap snd].
  by rewrite <- IH.
Qed.

(** Two filters that agree on the list. *)
Lemma list_filter_iff_in {A} (P Q : A → Prop) `{∀ x, Decision (P x), ∀ x, Decision (Q x)} (l : list A) :
  (∀ x, x ∈ l → P x ↔ Q x) → filter P l = filter Q l.
Proof.
  induction l as [|a l IH]; intros Hl; [done|]. rewrite !filter_cons, IH by (intros; apply Hl; by right).
  assert (P a ↔ Q a) by (apply Hl; left). repeat case_decide; tauto.
Qed.

Lemma length_filter_fmap {A B} (f : A → B) (P : B → Prop) `{∀ x, Decision (P x)} (l : list A) :
  length (filter P (f <$> l)) = length (filter (λ x, P (f x)) l).
Proof.
  induction l as [|x l IH]; [done|]. cbn [fmap list_fmap]. rewrite !filter_cons.
  destruct (decide (P (f x))); cbn [length]; by rewrite <- IH.
Qed.
Lemma filter_all {A} (P : A → Prop) `{∀ x, Decision (P x)} (l : list A) : (∀ x, x ∈ l → P x) → filter P l = l.
Proof.
  induction l as [|x l IH]; intros Hl; [done|]. rewrite filter_cons_True by (apply Hl; left).
  rewrite IH; [done|]. intros y Hy. apply Hl. by right.
Qed.
Lemma filter_none {A} (P : A → Prop) `{∀ x, Decision (P x)} (l : list A) : (∀ x, x ∈ l → ¬ P x) → filter P l = [].
Proof.
  induction l as [|x l IH]; intros Hl; [done|]. rewrite filter_cons_False by (apply Hl; left).
  apply IH. intros y Hy. apply Hl. by right.
Qed.
