(* ===== verification/GenUtils.v ===== *)
(** * General utilities (include/gen_utils.h, lib/gen_utils.cpp)

    The growable pointer arrays [PtrArray] and [PtrSizeArray], the bounded
    queue [FixedSizeQueue], the power-of-two rounding their growth relies on,
    the saturating multiplication, the pseudo-random generator, and the string
    helpers the admin interface uses. *)
From S2P Require Import Prelude.

(** ** l_near_pow_2, fastrand, overflow_safe_multiply *)
Module Arith.

(** One turn per call of [while (i < n) i <<= 1]; [None] when the fuel is
    spent.  [i] is a 32-bit unsigned integer. *)
Fixpoint l_near_pow_2_loop (fuel : nat) (n i : Z) : option Z :=
  match fuel with
  | O => None
  | S fuel' => if i <? n then l_near_pow_2_loop fuel' n (u32 (Z.shiftl i 1)) else Some i
  end.

(** 33 turns are enough whenever the loop ends: the 32nd doubling of 1 is 0. *)
Definition l_near_pow_2 (n : Z) : outcome Z :=
  match l_near_pow_2_loop 33 n 1 with
  | None => Fault Diverges
  | Some i => Ok (if i =? 0 then n else i)
  end.

(** [fastrand]: the new seed and the value drawn. *)
Definition fastrand (g_seed : Z) : Z * Z :=
  let s := u32 (214013 * g_seed + 2531011) in
  (s, Z.land (Z.shiftr s 16) 32767).

(** [overflow_safe_multiply<FACTOR, T>] for an unsigned [T] whose largest value
    is [max]; a null or negative factor does not compile. *)
Definition overflow_safe_multiply (FACTOR max val : Z) : Z :=
  if val =? 0 then 0
  else if max / FACTOR <? val then max
  else val * FACTOR.

Lemma l_near_pow_2_loop_mono fuel n i r k :
  l_near_pow_2_loop fuel n i = Some r → l_near_pow_2_loop (k + fuel) n i = Some r.
Proof.
  revert i; induction fuel as [|fuel IH]; intros i H; [done|].
  rewrite Nat.add_succ_r. cbn in *. destruct (i <? n); auto.
Qed.

Lemma l_near_pow_2_loop_pow k fuel n :
  (k <= 31)%nat → 2 ^ Z.of_nat k < n → n <= 2 ^ 31 →
  l_near_pow_2_loop (S fuel) n (2 ^ Z.of_nat k) =
  l_near_pow_2_loop fuel n (2 ^ Z.of_nat (S k)).
Proof.
  intros Hk Hlt Hn. cbn [l_near_pow_2_loop]. case_test; [|lia].
  rewrite Z.shiftl_mul_pow2, Nat2Z.inj_succ, Z.pow_succ_r, Z.mul_comm by lia.
  change (2 ^ 1) with 2. rewrite u32_small; [done|]. lia.
Qed.

Lemma l_near_pow_2_reach k n :
  (k <= 32)%nat → n <= 2 ^ 31 → (∀ j, (j < k)%nat → 2 ^ Z.of_nat j < n) →
  l_near_pow_2_loop 33 n 1 = l_near_pow_2_loop (33 - k) n (2 ^ Z.of_nat k).
Proof.
  intros Hk Hn. induction k as [|k IH]; intros Hj; [done|].
  rewrite IH by (auto with lia). replace (33 - k)%nat with (S (33 - S k)) by lia.
  apply l_near_pow_2_loop_pow; [|apply Hj; lia|done].
  destruct (decide (k <= 31)%nat); [done|]. specialize (Hj 31%nat ltac:(lia)). simpl in Hj. lia.
Qed.

(** The rounding is the least power of two that is at least [n]. *)
Lemma l_near_pow_2_spec n :
  0 <= n <= 2 ^ 31 →
  ∃ k, l_near_pow_2 n = Ok (2 ^ k) ∧ 0 <= k <= 31 ∧ n <= 2 ^ k ∧ (0 < k → 2 ^ (k - 1) < n).
Proof.
  intros Hn.
  assert (∃ k : nat, (k <= 31)%nat ∧ n <= 2 ^ Z.of_nat k ∧
          ∀ j, (j < k)%nat → 2 ^ Z.of_nat j < n) as (k & Hk & Hle & Hmin).
  { destruct (decide (n <= 1)) as [H1|H1].
    { exists O. simpl. split_and!; [lia|lia|intros; lia]. }
    exists (Z.to_nat (Z.log2_up n)). pose proof (Z.log2_up_spec n ltac:(lia)) as [Hlo Hhi].
    pose proof (Z.log2_up_nonneg n).
    assert (Z.log2_up n <= 31) by (apply Z.log2_up_le_pow2; lia).
    rewrite Z2Nat.id by done. split_and!; [lia|lia|]. intros j Hj.
    eapply Z.le_lt_trans; [|exact Hlo]. apply Z.pow_le_mono_r; lia. }
  exists (Z.of_nat k). split_and!; [|lia|lia|done|].
  - unfold l_near_pow_2. rewrite (l_near_pow_2_reach k) by (auto; lia).
    replace (33 - k)%nat with (S (32 - k)) by lia. cbn [l_near_pow_2_loop].
    case_test; [lia|]. case_test; [|done].
    pose proof (Z.pow_pos_nonneg 2 (Z.of_nat k)). lia.
  - intros Hpos. replace (Z.of_nat k - 1) with (Z.of_nat (pred k)) by lia. apply Hmin. lia.
Qed.

Lemma l_near_pow_2_zero fuel n : 0 < n → l_near_pow_2_loop fuel n 0 = None.
Proof.
  intros Hn. induction fuel as [|fuel IH]; [done|]. cbn [l_near_pow_2_loop].
  case_test; [|lia]. rewrite Z.shiftl_0_l. exact IH.
Qed.

(** Above 2^31 the doubled value wraps to zero and the loop never ends, with
    any amount of fuel. *)
Lemma l_near_pow_2_diverges n fuel :
  2 ^ 31 < n → l_near_pow_2_loop fuel n 1 = None.
Proof.
  intros Hn.
  assert (Hd : ∀ d fuel, (d <= 32)%nat → l_near_pow_2_loop fuel n (u32 (2 ^ Z.of_nat (32 - d))) = None).
  { clear fuel. induction d as [|d IH]; intros fuel Hd.
    - by apply l_near_pow_2_zero; lia.
    - destruct fuel as [|fuel]; [done|]. cbn [l_near_pow_2_loop].
      assert (2 ^ Z.of_nat (32 - S d) <= 2 ^ 31) by (apply Z.pow_le_mono_r; lia).
      rewrite (u32_small (2 ^ _)) by lia. case_test; [|lia].
      rewrite Z.shiftl_mul_pow2, <- Z.pow_add_r by lia.
      replace (Z.of_nat (32 - S d) + 1) with (Z.of_nat (32 - d)) by lia. apply IH. lia. }
  exact (Hd 32%nat fuel ltac:(lia)).
Qed.

Lemma fastrand_range g_seed : 0 <= (fastrand g_seed).2 <= 32767.
Proof.
  unfold fastrand; cbn [snd]. change 32767 with (Z.ones 15). rewrite Z.land_ones by lia.
  match goal with |- context [?x mod 2 ^ 15] => pose proof (Z.mod_pos_bound x (2 ^ 15)) end.
  change (Z.ones 15) with (2 ^ 15 - 1). lia.
Qed.

(** The product saturates at the largest value of the type. *)
Lemma overflow_safe_multiply_spec FACTOR max val :
  0 < FACTOR → 0 <= val <= max →
  overflow_safe_multiply FACTOR max val = Z.min (val * FACTOR) max.
Proof.
  intros HF Hv. unfold overflow_safe_multiply. repeat case_test; subst; [lia| |].
  - rewrite Z.min_r; [done|].
    destruct (Z.le_gt_cases max (val * FACTOR)) as [|Hc]; [done|].
    assert (max / FACTOR < val) by done.
    pose proof (Z.mul_succ_div_gt max FACTOR HF). nia.
  - rewrite Z.min_l; [done|]. pose proof (Z.mul_div_le max FACTOR HF). nia.
Qed.

(** [l_near_pow_2] rounds a 32-bit length up to the least power of two that
    holds it as long as the length is at most 2^31; above it the doubled counter
    wraps to zero and the loop runs for ever, whatever the fuel. *)
Theorem l_near_pow_2_total n :
  0 <= n < 2 ^ 32 →
  (n <= 2 ^ 31 → ∃ k, l_near_pow_2 n = Ok (2 ^ k) ∧ 0 <= k <= 31 ∧ n <= 2 ^ k ∧
                      (0 < k → 2 ^ (k - 1) < n)) ∧
  (2 ^ 31 < n → ∀ fuel, l_near_pow_2_loop fuel n 1 = None).
Proof.
  intros Hn. split; intros; [apply l_near_pow_2_spec; lia|by apply l_near_pow_2_diverges].
Qed.

Lemma l_near_pow_2_total_witness :
  (1000 <= 2 ^ 31 → ∃ k, l_near_pow_2 1000 = Ok (2 ^ k) ∧ 0 <= k <= 31 ∧ 1000 <= 2 ^ k ∧
                      (0 < k → 2 ^ (k - 1) < 1000)) ∧
  (2 ^ 31 < 1000 → ∀ fuel, l_near_pow_2_loop fuel 1000 1 = None).
Proof. apply (l_near_pow_2_total 1000). lia. Defined.

End Arith.

(** ** PtrArray, PtrSizeArray

    [pdata] is the allocated block: one cell per slot, [None] for a slot that
    was never written.  [len] and [size] are the fields the code keeps; the
    constructor leaves [size] below the capacity of the block when its argument
    is not a power of two.  [PtrSizeArray] has the same layout with a
    (pointer, size) pair in each cell. *)
Module PtrArray.

Record t (A : Type) := mk { len : Z; size : Z; pdata : list (option A) }.
Arguments mk {A} _ _ _.
Arguments len {A} _.
Arguments size {A} _.
Arguments pdata {A} _.

Definition MIN_ARRAY_LEN : Z := 8.
Definition MIN_ARRAY_DELETE_RATIO : Z := 8.

Section ops.
Context {A : Type}.
Implicit Types (a : t A) (x : A).

(** The new block holds the first [size] cells of the old one. *)
Definition expand (more : Z) a : outcome (t A) :=
  if size a <? u32 (len a + more) then
    new_size ← Arith.l_near_pow_2 (u32 (len a + more));
    Ok (mk (len a) new_size
           (resize (Z.to_nat new_size) None (take (Z.to_nat (size a)) (pdata a))))
  else Ok a.

(** [realloc] to the power of two above the length. *)
Definition shrink a : outcome (t A) :=
  new_size ← Arith.l_near_pow_2 (u32 (len a + 1));
  Ok (mk (len a) new_size (resize (Z.to_nat new_size) None (pdata a))).

Definition create (sz : Z) : outcome (t A) :=
  let a := mk 0 0 [] in
  a ← (if sz =? 0 then Ok a else expand sz a);
  Ok (mk (len a) sz (pdata a)).

Definition reset a : t A := mk 0 0 [].

(** A slot that was never written holds no pointer the caller may use. *)
Definition index (i : Z) a : outcome A :=
  c ← read_at (pdata a) i;
  match c with Some x => Ok x | None => Fault Uninitialised end.

Definition add x a : outcome (t A) :=
  a ← (if len a =? size a then expand 1 a else Ok a);
  d ← write_at (pdata a) (len a) (Some x);
  Ok (mk (u32 (len a + 1)) (size a) d).

(** [memmove(pdata+i, pdata+i+k, n)]: both ranges must lie in the block. *)
Definition memmove_down (i k n : Z) (d : list (option A)) : outcome (list (option A)) :=
  if Z.of_nat (length d) <? i + k + n then Fault OutOfBounds
  else Ok (take (Z.to_nat i) d ++ take (Z.to_nat n) (drop (Z.to_nat (i + k)) d)
           ++ drop (Z.to_nat (i + n)) d).

Definition remove_index (i : Z) a : outcome (A * t A) :=
  r ← index i a;
  let l := u32 (len a - 1) in
  d ← (if i =? l then Ok (pdata a)
       else memmove_down i 1 (u32 (len a - i - 1)) (pdata a));
  a' ← (if (MIN_ARRAY_LEN <? l) && (u32 (l * MIN_ARRAY_DELETE_RATIO) <? size a)
        then shrink (mk l (size a) d) else Ok (mk l (size a) d));
  Ok (r, a').

Definition remove_index_fast (i : Z) a : outcome (A * t A) :=
  r ← index i a;
  let l := u32 (len a - 1) in
  d ← (if i =? l then Ok (pdata a)
       else c ← read_at (pdata a) l; write_at (pdata a) i c);
  Ok (r, mk l (size a) d).

(** The index of the first cell below [len] that holds [x], scanning from [i]. *)
Fixpoint scan `{EqDecision A} (fuel : nat) (i : Z) x a : outcome (option Z) :=
  match fuel with
  | O => Ok None
  | S fuel' =>
      if i <? len a then
        y ← index i a;
        if decide (y = x) then Ok (Some i) else scan fuel' (i + 1) x a
      else Ok None
  end.

Definition remove `{EqDecision A} x a : outcome (bool * t A) :=
  r ← scan (Z.to_nat (len a)) 0 x a;
  match r with
  | Some i => ra ← remove_index i a; Ok (true, ra.2)
  | None => Ok (false, a)
  end.

Definition remove_fast `{EqDecision A} x a : outcome (bool * t A) :=
  r ← scan (Z.to_nat (len a)) 0 x a;
  match r with
  | Some i => ra ← remove_index_fast i a; Ok (true, ra.2)
  | None => Ok (false, a)
  end.

(** *** What an array stands for

    [repr a l]: the cells below [len] hold the elements of [l] and the fields
    agree with the block. *)
Definition repr a (l : list A) : Prop :=
  len a = Z.of_nat (length l) ∧ len a <= size a ∧
  size a <= Z.of_nat (length (pdata a)) ∧ size a <= 2 ^ 31 ∧
  take (length l) (pdata a) = Some <$> l.

Lemma repr_empty : repr (mk 0 0 []) [].

Proof. repeat split; simpl; lia. Qed.

Lemma take_fmap_lookup (d : list (option A)) l (i : nat) y :
  take (length l) d = Some <$> l → l !! i = Some y → d !! i = Some (Some y).
Proof.
  intros Ht Hi. assert (i < length l)%nat by (eapply lookup_lt_Some; eauto).
  rewrite <- (lookup_take_lt d (length l) i) by done.
  by rewrite Ht, list_lookup_fmap, Hi.
Qed.

Lemma index_repr a l (i : nat) x :
  repr a l → l !! i = Some x → index (Z.of_nat i) a = Ok x.
Proof.
  intros (Hlen & _ & _ & _ & Ht) Hi. unfold index.
  destruct (read_at (pdata a) (Z.of_nat i)) as [c|] eqn:E.
  - apply read_at_Some in E as [_ E]. rewrite Nat2Z.id in E.
    rewrite (take_fmap_lookup _ _ _ _ Ht Hi) in E. by injection E as <-.
  - revert E. unfold read_at. case_test; [lia|].
    by rewrite Nat2Z.id, (take_fmap_lookup _ _ _ _ Ht Hi).
Qed.

(** Growing keeps the contents and leaves room for [more] elements. *)
Lemma expand_repr a l more :
  repr a l → 0 <= more → Z.of_nat (length l) + more <= 2 ^ 31 →
  ∃ a', expand more a = Ok a' ∧ repr a' l ∧ len a + more <= size a'.
Proof.
  intros (Hlen & Hls & Hsp & Hs & Ht) Hm Hmax. unfold expand.
  rewrite u32_small by lia. case_test.
  - destruct (Arith.l_near_pow_2_spec (len a + more)) as (k & -> & Hk & Hge & _); [lia|].
    simpl. eexists; split; [done|]. split; [|simpl; lia].
    assert (2 ^ k <= 2 ^ 31) by (apply Z.pow_le_mono_r; lia).
    unfold repr; cbn [len size pdata]. rewrite length_resize. split_and!; try lia.
    rewrite take_resize_le by lia. rewrite resize_le by (rewrite length_take; lia).
    rewrite take_take. by replace (length l `min` Z.to_nat (size a))%nat with (length l) by lia.
  - exists a. repeat split; done || lia.
Qed.

Lemma write_repr a l x :
  repr a l → len a < size a →
  ∃ d, write_at (pdata a) (len a) (Some x) = Ok d ∧
       repr (mk (u32 (len a + 1)) (size a) d) (l ++ [x]).
Proof.
  intros (Hlen & Hls & Hsp & Hs & Ht) Hlt. rewrite write_at_ok by lia. eexists; split; [done|].
  unfold repr; cbn [len size pdata]. rewrite u32_small, length_insert, length_app by lia.
  cbn [length]. split_and!; try lia.
  rewrite Nat.add_1_r, fmap_app, Hlen, Nat2Z.id.
  erewrite take_S_r by (apply list_lookup_insert_eq; lia).
  by rewrite take_insert_ge, Ht by lia.
Qed.

(** Rewriting the cell of a stored element. *)
Lemma set_repr a l (i : nat) x :
  repr a l → (i < length l)%nat →
  ∃ d, write_at (pdata a) (Z.of_nat i) (Some x) = Ok d ∧
       repr (mk (len a) (size a) d) (<[i := x]> l).
Proof.
  intros (Hlen & Hls & Hsp & Hs & Ht) Hi. rewrite write_at_ok by lia. eexists; split; [done|].
  unfold repr; cbn [len size pdata]. rewrite !length_insert, Nat2Z.id. split_and!; try lia.
  rewrite take_insert_lt by done. by rewrite Ht, list_fmap_insert.
Qed.

(** [add] appends, growing the block when it is full. *)
Lemma add_repr a l x :
  repr a l → Z.of_nat (length l) < 2 ^ 31 → ∃ a', add x a = Ok a' ∧ repr a' (l ++ [x]).
Proof.
  intros Hr Hmax. unfold add. pose proof Hr as (Hlen & Hls & _). case_test.
  - destruct (expand_repr a l 1) as (a1 & -> & Hr1 & Hroom); [done|lia|lia|]. simpl.
    pose proof Hr1 as (Hlen1 & _).
    destruct (write_repr a1 l x Hr1) as (d & -> & Hd); [lia|]. simpl. eauto.
  - simpl. destruct (write_repr a l x Hr) as (d & -> & Hd); [lia|]. simpl. eauto.
Qed.

Lemma shrink_repr a l :
  repr a l → Z.of_nat (length l) < 2 ^ 31 → ∃ a', shrink a = Ok a' ∧ repr a' l.
Proof.
  intros (Hlen & Hls & Hsp & Hs & Ht) Hmax. unfold shrink. rewrite u32_small by lia.
  destruct (Arith.l_near_pow_2_spec (len a + 1)) as (k & -> & Hk & Hge & _); [lia|].
  simpl. eexists; split; [done|].
  assert (2 ^ k <= 2 ^ 31) by (apply Z.pow_le_mono_r; lia).
  unfold repr; cbn [len size pdata]. rewrite length_resize. split_and!; try lia.
  by rewrite take_resize_le, resize_le by lia.
Qed.

Lemma memmove_down_take (d : list (option A)) l (i : nat) :
  take (length l) d = Some <$> l → (i < length l)%nat → (length l <= length d)%nat →
  ∃ d', memmove_down (Z.of_nat i) 1 (Z.of_nat (length l) - Z.of_nat i - 1) d = Ok d' ∧
        length d' = length d ∧ take (pred (length l)) d' = Some <$> delete i l.
Proof.
  intros Ht Hi Hd. unfold memmove_down. case_test; [lia|]. eexists; split; [done|].
  replace (Z.to_nat (Z.of_nat i + 1)) with (S i) by lia.
  replace (Z.to_nat (Z.of_nat (length l) - Z.of_nat i - 1)) with (length l - S i)%nat by lia.
  rewrite Nat2Z.id. split.
  - rewrite !length_app, length_drop, !length_take, length_drop. lia.
  - rewrite take_app, length_take, (Nat.min_l i) by lia.
    rewrite (take_ge (take i d)) by (rewrite length_take; lia).
    replace (pred (length l) - i)%nat with (length l - S i)%nat by lia.
    rewrite take_app, length_take, length_drop.
    rewrite (Nat.min_l (length l - S i)) by lia.
    rewrite Nat.sub_diag, take_0, app_nil_r.
    rewrite take_take, Nat.min_id, delete_take_drop, fmap_app, fmap_take, fmap_drop, <- Ht.
    rewrite take_take, Nat.min_l, skipn_firstn_comm by lia. done.
Qed.

Lemma repr_prefix (d : list (option A)) (l : list A) (sz : Z) (l' : list A) :
  take (length l') d = Some <$> l' → (length l' <= length l)%nat →
  Z.of_nat (length l) <= sz → sz <= Z.of_nat (length d) → sz <= 2 ^ 31 →
  repr (mk (Z.of_nat (length l')) sz d) l'.
Proof. intros. repeat split; cbn [len size pdata]; done || lia. Qed.

(** [remove_index] returns the element and closes the gap; the shrinking it may
    do does not lose anything. *)
Lemma remove_index_repr a l (i : nat) x :
  repr a l → l !! i = Some x → Z.of_nat (length l) < 2 ^ 31 →
  ∃ a', remove_index (Z.of_nat i) a = Ok (x, a') ∧ repr a' (delete i l).
Proof.
  intros Hr Hi Hmax. pose proof Hr as (Hlen & Hls & Hsp & Hs & Ht).
  assert (Hil : (i < length l)%nat) by (eapply lookup_lt_Some; eauto).
  unfold remove_index. rewrite (index_repr _ _ _ _ Hr Hi). cbn [mbind outcome_bind].
  rewrite (u32_small (len a - 1)), (u32_small (len a - Z.of_nat i - 1)) by lia.
  assert (∃ d, (if Z.of_nat i =? len a - 1 then Ok (pdata a)
                else memmove_down (Z.of_nat i) 1 (len a - Z.of_nat i - 1) (pdata a)) = Ok d ∧
          repr (mk (len a - 1) (size a) d) (delete i l)) as (d & -> & Hd).
  { replace (len a - 1) with (Z.of_nat (length (delete i l)))
      by (rewrite length_delete by eauto; lia).
    assert (Hlast : pred (length l) = length (delete i l)) by (rewrite length_delete; eauto; lia).
    case_test.
    - eexists; split; [done|]. apply (repr_prefix _ l); try lia.
      rewrite delete_take_drop, (drop_ge l (S i)), app_nil_r by lia.
      rewrite fmap_take, <- Ht, take_take, length_take. f_equal; lia.
    - rewrite Hlen. destruct (memmove_down_take (pdata a) l i) as (d & -> & Hld & Hd); [done|done|lia|].
      eexists; split; [done|]. rewrite Hlast in Hd. apply (repr_prefix _ l); lia || done. }
  cbn [mbind outcome_bind]. case_test.
  - destruct (shrink_repr _ _ Hd) as (a' & -> & Ha'); [|simpl; eauto].
    rewrite length_delete by eauto. lia.
  - simpl. eauto.
Qed.

(** [remove_index_fast] is the swap-removal of the list. *)
Lemma remove_index_fast_repr a l (i : nat) x l' :
  repr a l → swap_remove i l = Some (x, l') → Z.of_nat (length l) < 2 ^ 31 →
  ∃ a', remove_index_fast (Z.of_nat i) a = Ok (x, a') ∧ repr a' l'.
Proof.
  intros Hr Hsw Hmax. pose proof Hr as (Hlen & Hls & Hsp & Hs & Ht).
  pose proof (swap_remove_length _ _ _ _ Hsw) as Hl'.
  pose proof (swap_remove_lookup _ _ _ _ Hsw) as Hi.
  assert (Hil : (i < length l)%nat) by (eapply lookup_lt_Some; eauto).
  unfold remove_index_fast. rewrite (index_repr _ _ _ _ Hr Hi). cbn [mbind outcome_bind].
  rewrite u32_small by lia. replace (len a - 1) with (Z.of_nat (length l')) by lia.
  revert Hsw. unfold swap_remove. rewrite Hi. cbn [mbind option_bind].
  destruct (last l) as [y|] eqn:Ey; cbn [mbind option_bind]; [|done].
  rewrite last_lookup in Ey. intros [= <-].
  destruct (decide (i = pred (length l))) as [Hlast|Hne].
  - rewrite (proj2 (Z.eqb_eq _ _)) by (rewrite length_removelast; lia).
    eexists; split; [done|]. apply (repr_prefix _ l); try lia.
    rewrite !removelast_take, length_take, fmap_take, <- Ht, take_take. f_equal; lia.
  - rewrite (proj2 (Z.eqb_neq _ _)) by (rewrite length_removelast, length_insert; lia).
    destruct (read_at_ok (pdata a) (Z.of_nat (length (removelast (<[i:=y]> l))))) as (c & -> & Hc).
    { rewrite length_removelast, length_insert. lia. }
    rewrite length_removelast, length_insert, Nat2Z.id in Hc.
    rewrite (take_fmap_lookup _ _ _ _ Ht Ey) in Hc. injection Hc as <-. cbn [mbind outcome_bind].
    rewrite write_at_ok by lia. eexists; split; [done|]. rewrite Nat2Z.id.
    apply (repr_prefix _ l); rewrite ?length_insert; try lia.
    rewrite !removelast_take, length_take, !length_insert, fmap_take, list_fmap_insert, <- Ht.
    apply list_eq; intros j.
    destruct (decide (j < pred (length l))%nat) as [Hj|Hj].
    + rewrite !lookup_take_lt by lia. destruct (decide (j = i)) as [->|Hji].
      * rewrite !list_lookup_insert_eq; [done|rewrite length_take; lia|lia].
      * rewrite !list_lookup_insert_ne, lookup_take_lt by lia. done.
    + rewrite !lookup_take_ge by lia. done.
Qed.

Context `{EqDecision A}.

Lemma scan_repr a l x fuel (i : nat) :
  repr a l → (length l - i <= fuel)%nat → (i <= length l)%nat →
  scan fuel (Z.of_nat i) x a =
  Ok ((λ p, Z.of_nat (i + p.1)) <$> list_find (x =.) (drop i l)).
Proof.
  intros Hr. pose proof Hr as (Hlen & _). revert i.
  induction fuel as [|fuel IH]; intros i Hf Hi; cbn [scan].
  { by rewrite drop_ge by lia. }
  case_test; [|by rewrite drop_ge by lia].
  destruct (lookup_lt_is_Some_2 l i) as [y Hy]; [lia|].
  rewrite (index_repr _ _ _ _ Hr Hy), (drop_S _ _ _ Hy). cbn [mbind outcome_bind list_find].
  destruct (decide (y = x)) as [->|Hne].
  - rewrite decide_True by done. simpl. by rewrite Nat.add_0_r.
  - rewrite decide_False by congruence.
    replace (Z.of_nat i + 1) with (Z.of_nat (S i)) by lia. rewrite IH by lia. f_equal.
    destruct (list_find _ (drop (S i) l)) as [[j z]|]; simpl; do 2 f_equal. lia.
Qed.

Lemma scan_all_repr a l x :
  repr a l →
  scan (Z.to_nat (len a)) 0 x a = Ok ((λ p, Z.of_nat p.1) <$> list_find (x =.) l).
Proof.
  intros Hr. pose proof Hr as (Hlen & _).
  exact (scan_repr a l x (Z.to_nat (len a)) 0 Hr ltac:(lia) ltac:(lia)).
Qed.

(** [remove_fast] removes the first occurrence of a pointer, when there is one. *)
Lemma remove_fast_repr a l x :
  repr a l → Z.of_nat (length l) < 2 ^ 31 →
  match list_find (x =.) l with
  | Some (i, _) => ∃ l' a', swap_remove i l = Some (x, l') ∧
      remove_fast x a = Ok (true, a') ∧ repr a' l'
  | None => remove_fast x a = Ok (false, a)
  end.
Proof.
  intros Hr Hmax. unfold remove_fast. rewrite (scan_all_repr _ _ _ Hr). destruct (list_find (x =.) l) as [[i y]|] eqn:E; [|done].
  apply list_find_Some in E as (Hi & -> & _). cbn [fmap option_fmap option_map mbind outcome_bind fst].
  destruct (swap_remove_is_Some i l) as (y' & l' & Hsw & Hi'); [by eapply lookup_lt_Some|].
  rewrite Hi in Hi'; injection Hi' as <-.
  destruct (remove_index_fast_repr a l i y l' Hr Hsw Hmax) as (a' & Hrem & Hr').
  rewrite Hrem. simpl. eauto 10.
Qed.

(** [remove] keeps the order of what is left. *)
Lemma remove_repr a l x :
  repr a l → Z.of_nat (length l) < 2 ^ 31 →
  match list_find (x =.) l with
  | Some (i, _) => ∃ a', remove x a = Ok (true, a') ∧ repr a' (delete i l)
  | None => remove x a = Ok (false, a)
  end.
Proof.
  intros Hr Hmax. unfold remove. rewrite (scan_all_repr _ _ _ Hr). destruct (list_find (x =.) l) as [[i y]|] eqn:E; [|done].
  apply list_find_Some in E as (Hi & -> & _). cbn [fmap option_fmap option_map mbind outcome_bind fst].
  destruct (remove_index_repr a l i y Hr Hi Hmax) as (a' & Hrem & Hr').
  simpl in Hrem |- *. rewrite Hrem. simpl. eauto.
Qed.

(** *** Any history of operations

    The list a [PtrArray] stands for, as an abstract type: each operation with
    its result on lists; [None] when the caller breaks the precondition. *)
Section history.

Inductive op :=
  | Add (x : A)
  | RemoveIndex (i : nat)
  | RemoveIndexFast (i : nat)
  | Remove (x : A)
  | RemoveFast (x : A)
  | Shrink.

Inductive result := Done | Got (x : A) | Found (b : bool).

Definition exec (o : op) a : outcome (result * t A) :=
  match o with
  | Add x => a ← add x a; Ok (Done, a)
  | RemoveIndex i => '(x, a) ← remove_index (Z.of_nat i) a; Ok (Got x, a)
  | RemoveIndexFast i => '(x, a) ← remove_index_fast (Z.of_nat i) a; Ok (Got x, a)
  | Remove x => '(b, a) ← remove x a; Ok (Found b, a)
  | RemoveFast x => '(b, a) ← remove_fast x a; Ok (Found b, a)
  | Shrink => a ← shrink a; Ok (Done, a)
  end.

Definition spec_op (o : op) (l : list A) : option (result * list A) :=
  match o with
  | Add x => Some (Done, l ++ [x])
  | RemoveIndex i => x ← l !! i; Some (Got x, delete i l)
  | RemoveIndexFast i => '(x, l') ← swap_remove i l; Some (Got x, l')
  | Remove x => match list_find (x =.) l with
                | Some (i, _) => Some (Found true, delete i l)
                | None => Some (Found false, l) end
  | RemoveFast x => match list_find (x =.) l with
                    | Some (i, _) => '(_, l') ← swap_remove i l; Some (Found true, l')
                    | None => Some (Found false, l) end
  | Shrink => Some (Done, l)
  end.

Fixpoint exec_all (os : list op) a : outcome (list result * t A) :=
  match os with
  | [] => Ok ([], a)
  | o :: os' => '(r, a) ← exec o a; '(rs, a) ← exec_all os' a; Ok (r :: rs, a)
  end.

Fixpoint spec_all (os : list op) (l : list A) : option (list result * list A) :=
  match os with
  | [] => Some ([], l)
  | o :: os' => '(r, l) ← spec_op o l; '(rs, l) ← spec_all os' l; Some (r :: rs, l)
  end.

Lemma exec_refines o a l r l' :
  repr a l → Z.of_nat (length l) < 2 ^ 31 → spec_op o l = Some (r, l') →
  (length l' <= S (length l))%nat ∧ ∃ a', exec o a = Ok (r, a') ∧ repr a' l'.
Proof.
  intros Hr Hmax. destruct o as [x|i|i|x|x|]; cbn [spec_op exec].
  - intros [= <- <-]. split; [rewrite length_app; simpl; lia|].
    destruct (add_repr a l x Hr Hmax) as (a' & -> & ?). by exists a'.
  - destruct (l !! i) as [x|] eqn:Hx; [|done]. intros [= <- <-].
    split; [rewrite length_delete by eauto; lia|].
    destruct (remove_index_repr a l i x Hr Hx Hmax) as (a' & -> & ?). by exists a'.
  - destruct (swap_remove i l) as [[x l1]|] eqn:Hsw; [|done]. intros [= <- <-].
    pose proof (swap_remove_length _ _ _ _ Hsw). split; [lia|].
    destruct (remove_index_fast_repr a l i x l1 Hr Hsw Hmax) as (a' & -> & ?). by exists a'.
  - pose proof (remove_repr a l x Hr Hmax) as H. destruct (list_find (x =.) l) as [[i y]|] eqn:E.
    + intros [= <- <-]. apply list_find_Some in E as (Hi & _ & _).
      split; [rewrite length_delete by eauto; lia|]. destruct H as (a' & -> & ?). by exists a'.
    + intros [= <- <-]. split; [lia|]. rewrite H. by exists a.
  - pose proof (remove_fast_repr a l x Hr Hmax) as H. destruct (list_find (x =.) l) as [[i y]|] eqn:E.
    + destruct H as (l1 & a' & Hsw & -> & Hr'). rewrite Hsw. intros [= <- <-].
      pose proof (swap_remove_length _ _ _ _ Hsw). split; [lia|]. by exists a'.
    + intros [= <- <-]. split; [lia|]. rewrite H. by exists a.
  - intros [= <- <-]. split; [lia|]. destruct (shrink_repr a l Hr Hmax) as (a' & -> & ?). by exists a'.
Qed.

(** a [PtrArray] implements a list. Any history of appends, ordered and
    swap removals (by index or by pointer) and shrinks that respects the index
    preconditions runs without an out-of-bounds access or a read of an unwritten
    slot, returns what the list operations return, and leaves an array that
    stands for the resulting list -- through every reallocation. *)
Theorem history_refines_list os a l rs l' :
  repr a l → Z.of_nat (length l + length os) <= 2 ^ 31 → spec_all os l = Some (rs, l') →
  ∃ a', exec_all os a = Ok (rs, a') ∧ repr a' l'.
Proof.
  revert a l rs; induction os as [|o os IH]; intros a l rs Hr Hmax; cbn [spec_all exec_all].
  { intros [= <- <-]. by exists a. }
  cbn [length] in Hmax.
  destruct (spec_op o l) as [[r l1]|] eqn:Ho; [|done]. cbn [mbind option_bind].
  destruct (spec_all os l1) as [[rs1 l2]|] eqn:Hos; [|done]. cbn [mbind option_bind]. intros [= <- <-].
  destruct (exec_refines o a l r l1 Hr ltac:(lia) Ho) as (Hlen & a1 & -> & Hr1). cbn [mbind outcome_bind].
  destruct (IH a1 l1 rs1 Hr1 ltac:(lia) Hos) as (a2 & -> & Hr2). by exists a2.
Qed.
End history.
End ops.

Lemma history_refines_list_witness :
  ∃ a', exec_all [Add 1; Add 2; Add 3; RemoveIndexFast 0; Remove 2] (mk 0 0 [])
        = Ok ([Done; Done; Done; Got 1; Found true], a') ∧ repr a' [3].
Proof.
  apply (history_refines_list [Add 1; Add 2; Add 3; RemoveIndexFast 0; Remove 2] (mk 0 0 []) []);
    [apply repr_empty|simpl; lia|reflexivity].
Defined.
End PtrArray.

(** The same block with (pointer, size) cells.  None of its removals shrinks the
    block, and it can drop a range and append a slice of another array. *)
Module PtrSizeArray.
Import PtrArray.

Section ops.
Context {P : Type}.
Abbreviation cell := (P * Z)%type.
Implicit Types (a : t (P * Z)) (l : list (P * Z)).

Definition expand (more : Z) a : outcome (t (P * Z)) := PtrArray.expand more a.

Definition add (p : P) (s : Z) a : outcome (t (P * Z)) :=
  a ← (if len a =? size a then expand 1 a else Ok a);
  d ← write_at (pdata a) (len a) (Some (p, s));
  Ok (mk (u32 (len a + 1)) (size a) d).

Definition remove_index (i : Z) a : outcome ((P * Z) * t (P * Z)) :=
  r ← PtrArray.index i a;
  let l := u32 (len a - 1) in
  d ← (if i =? l then Ok (pdata a)
       else memmove_down i 1 (u32 (len a - i - 1)) (pdata a));
  Ok (r, mk l (size a) d).

Definition remove_index_range (i s : Z) a : outcome (t (P * Z)) :=
  d ← (if i =? u32 (len a - s) then Ok (pdata a)
       else memmove_down i s (u32 (len a - i - s)) (pdata a));
  Ok (mk (u32 (len a - s)) (size a) d).

Definition remove_index_fast (i : Z) a : outcome ((P * Z) * t (P * Z)) :=
  PtrArray.remove_index_fast i a.

(** [for (i=from; i<from+cnt; i++) add( *psa->index(i))] *)
Fixpoint copy_add (psa : t (P * Z)) (from : Z) (cnt : nat) a : outcome (t (P * Z)) :=
  match cnt with
  | O => Ok a
  | S cnt' =>
      c ← PtrArray.index from psa;
      a ← add c.1 c.2 a;
      copy_add psa (from + 1) cnt' a
  end.

Fixpoint total_size_loop (min_size acc : Z) (cells : list (option (P * Z))) : outcome Z :=
  match cells with
  | [] => Ok acc
  | None :: _ => Fault Uninitialised
  | Some (_, s) :: cells' =>
      total_size_loop min_size
        (if min_size <? s then u32 (acc + s) else u32 (acc + min_size)) cells'
  end.

Definition total_size (min_size : Z) a : outcome Z :=
  if Z.of_nat (length (pdata a)) <? len a then Fault OutOfBounds
  else total_size_loop min_size 0 (take (Z.to_nat (len a)) (pdata a)).

Lemma pair_add_repr a l p s :
  repr a l → Z.of_nat (length l) < 2 ^ 31 →
  ∃ a', add p s a = Ok a' ∧ repr a' (l ++ [(p, s)]).
Proof. exact (PtrArray.add_repr a l (p, s)). Qed.

(** Appending a slice appends exactly the cells of the slice, in order. *)
Lemma copy_add_repr psa src a l from cnt :
  repr psa src → repr a l → (from + cnt <= length src)%nat →
  Z.of_nat (length l + cnt) <= 2 ^ 31 →
  ∃ a', copy_add psa (Z.of_nat from) cnt a = Ok a' ∧
        repr a' (l ++ take cnt (drop from src)).
Proof.
  intros Hsrc. revert from a l. induction cnt as [|cnt IH]; intros from a l Hr Hin Hmax.
  { exists a. by rewrite take_0, app_nil_r. }
  destruct (lookup_lt_is_Some_2 src from) as [[p s] Hc]; [lia|].
  cbn [copy_add]. rewrite (index_repr _ _ _ _ Hsrc Hc). cbn [mbind outcome_bind fst snd].
  destruct (pair_add_repr a l p s Hr) as (a1 & -> & Hr1); [lia|]. cbn [mbind outcome_bind].
  replace (Z.of_nat from + 1) with (Z.of_nat (S from)) by lia.
  destruct (IH (S from) a1 (l ++ [(p, s)]) Hr1) as (a' & -> & Hr');
    [lia | rewrite length_app; simpl; lia |].
  exists a'. split; [done|]. rewrite (drop_S _ _ _ Hc). cbn [take].
  by rewrite <- app_assoc in Hr'.
Qed.

(** Dropping a range removes exactly the cells of the range. *)
Lemma remove_index_range_repr a l (i s : nat) :
  repr a l → (i + s <= length l)%nat → Z.of_nat (length l) < 2 ^ 31 →
  ∃ a', remove_index_range (Z.of_nat i) (Z.of_nat s) a = Ok a' ∧
        repr a' (take i l ++ drop (i + s) l).
Proof.
  intros (Hlen & Hls & Hsp & Hs & Ht) Hin Hmax. unfold remove_index_range.
  rewrite (u32_small (len a - Z.of_nat s)), (u32_small (len a - Z.of_nat i - Z.of_nat s)) by lia.
  assert (Hl' : len a - Z.of_nat s = Z.of_nat (length (take i l ++ drop (i + s) l))).
  { rewrite length_app, length_take, length_drop. lia. }
  rewrite Hl'. case_test.
  - eexists; split; [done|]. apply (repr_prefix _ l); try lia.
    rewrite (drop_ge l) by lia. rewrite app_nil_r.
    rewrite fmap_take, <- Ht, take_take, length_take. f_equal; lia.
  - unfold memmove_down. case_test; [lia|]. eexists; split; [done|].
    apply (repr_prefix _ l); rewrite ?length_app, ?length_take, ?length_drop; try lia.
    replace (Z.to_nat (Z.of_nat i + Z.of_nat s)) with (i + s)%nat by lia. rewrite Nat2Z.id.
    replace (Z.to_nat (len a - Z.of_nat i - Z.of_nat s)) with (length l - (i + s))%nat by lia.
    rewrite Nat.min_l by lia. rewrite app_assoc, take_app_le
      by (rewrite length_app, !length_take, length_drop; lia).
    rewrite take_ge by (rewrite length_app, !length_take, length_drop; lia).
    rewrite fmap_app, fmap_take, fmap_drop, <- Ht, take_take, Nat.min_l by lia.
    by rewrite skipn_firstn_comm.
Qed.

Fixpoint sum_sizes (min_size : Z) l : Z :=
  match l with [] => 0 | (_, s) :: l' => Z.max s min_size + sum_sizes min_size l' end.

Lemma sum_sizes_app min_size l1 l2 :
  sum_sizes min_size (l1 ++ l2) = sum_sizes min_size l1 + sum_sizes min_size l2.
Proof. induction l1 as [|[p s] l1 IH]; cbn [app sum_sizes]; [done|]. lia. Qed.

(** The total is the sum of the sizes, each at least [min_size], modulo 2^32. *)
Lemma total_size_repr a l min_size :
  repr a l → total_size min_size a = Ok (u32 (sum_sizes min_size l)).
Proof.
  intros (Hlen & Hls & Hsp & Hs & Ht). unfold total_size. case_test; [lia|].
  rewrite Hlen, Nat2Z.id, Ht. clear.
  assert (H : ∀ acc, total_size_loop min_size (u32 acc) (Some <$> l) =
                     Ok (u32 (acc + sum_sizes min_size l))); [|exact (H 0)].
  induction l as [|[p s] l IH]; intros acc; cbn [fmap list_fmap total_size_loop sum_sizes].
  { by rewrite Z.add_0_r. }
  replace (if min_size <? s then u32 (u32 acc + s) else u32 (u32 acc + min_size))
    with (u32 (acc + Z.max s min_size)).
  - rewrite IH. do 2 f_equal. lia.
  - unfold u32. case_test; rewrite Zplus_mod_idemp_l; f_equal; lia.
Qed.

(** The packet queue moves without loss. Appending a slice of one array to
    another appends exactly its (pointer, size) pairs in order; dropping a range
    keeps exactly what is outside it; and [total_size] is the sum of the sizes,
    each counted at least as [min_size], modulo 2^32. *)
Theorem packets_move psa src a l (from cnt i s : nat) min_size :
  repr psa src → repr a l → (from + cnt <= length src)%nat → (i + s <= length l)%nat →
  Z.of_nat (length l + cnt) < 2 ^ 31 →
  (∃ a', copy_add psa (Z.of_nat from) cnt a = Ok a' ∧ repr a' (l ++ take cnt (drop from src)) ∧
         total_size min_size a' =
         Ok (u32 (sum_sizes min_size l + sum_sizes min_size (take cnt (drop from src))))) ∧
  (∃ a', remove_index_range (Z.of_nat i) (Z.of_nat s) a = Ok a' ∧ repr a' (take i l ++ drop (i + s) l)).
Proof.
  intros Hs Hr H1 H2 Hm. split.
  - destruct (copy_add_repr psa src a l from cnt) as (a' & -> & Hr'); [done..|lia|].
    exists a'. split_and!; [done..|]. by rewrite (total_size_repr _ _ _ Hr'), sum_sizes_app.
  - apply remove_index_range_repr; [done..|lia].
Qed.

End ops.

Lemma packets_move_witness :
  let a := PtrArray.mk 2 2 [Some (10, 4); Some (20, 600)] in
  (∃ a', copy_add a (Z.of_nat 0) 2 a = Ok a' ∧
         repr a' ([(10, 4); (20, 600)] ++ take 2 (drop 0 [(10, 4); (20, 600)])) ∧
         total_size 512 a' =
         Ok (u32 (sum_sizes 512 [(10, 4); (20, 600)] +
                  sum_sizes 512 (take 2 (drop 0 [(10, 4); (20, 600)]))))) ∧
  (∃ a', remove_index_range (Z.of_nat 0) (Z.of_nat 1) a = Ok a' ∧
         repr a' (take 0 [(10, 4); (20, 600)] ++ drop (0 + 1) [(10, 4); (20, 600)])).
Proof.
  apply (packets_move _ [(10, 4); (20, 600)]); try (simpl; lia); repeat split; simpl; lia || done.
Defined.
End PtrSizeArray.

(** ** FixedSizeQueue

    A queue of byte buffers that keeps the [_max_size] most recent ones and
    reuses the block of the buffer it drops when it is large enough.  [data] is
    the whole block ([capacity] bytes), the buffer's contents its first [len]
    bytes. *)
Module FixedSizeQueue.

Record buffer_t := mk_buffer { data : list Z; blen : Z; capacity : Z }.
Record t := mk { max_size : Z; nodes : list buffer_t }.

Definition create (m : Z) : t := mk m [].

Fixpoint pop_until (fuel : nat) (m : Z) (q : list buffer_t) : outcome (list buffer_t) :=
  if Z.of_nat (length q) =? m then Ok q
  else match fuel, q with
       | S fuel', _ :: q' => pop_until fuel' m q'
       | _, _ => Fault Diverges
       end.

Definition set_max_size (m : Z) (q : t) : outcome t :=
  if max_size q =? m then Ok q
  else if m <? Z.of_nat (length (nodes q)) then
    l ← pop_until (length (nodes q)) m (nodes q); Ok (mk m l)
  else Ok (mk m (nodes q)).

(** [fresh n] is what [l_alloc(n)] returns: [n] bytes of unknown contents. *)
Definition push (fresh : Z → list Z) (ALLOC_MEM : bool) (buff : list Z) (q : t) : outcome t :=
  let len := Z.of_nat (length buff) in
  if max_size q =? 0 then Ok q
  else if len =? 0 then Fault AssertFail
  else
    let '(mybuff, rest) :=
      if Z.of_nat (length (nodes q)) =? max_size q
      then match nodes q with b :: l => (b, l) | [] => (mk_buffer [] 0 0, []) end
      else (mk_buffer [] 0 0, nodes q) in
    let mybuff :=
      if ALLOC_MEM then
        let b := if capacity mybuff <? len
                 then mk_buffer (fresh len) (blen mybuff) len else mybuff in
        mk_buffer (buff ++ drop (length buff) (data b)) len (capacity b)
      else mk_buffer buff len len in
    Ok (mk (max_size q) (rest ++ [mybuff])).

Definition contents (q : t) : list (list Z) :=
  (λ b, take (Z.to_nat (blen b)) (data b)) <$> nodes q.

Definition wf (q : t) : Prop :=
  0 <= max_size q ∧ Z.of_nat (length (nodes q)) <= max_size q.

Definition lastn {A} (n : nat) (l : list A) : list A := drop (length l - n) l.

Lemma pop_until_spec m q fuel :
  0 <= m <= Z.of_nat (length q) → (length q <= fuel)%nat →
  pop_until fuel m q = Ok (lastn (Z.to_nat m) q).
Proof.
  revert q; induction fuel as [|fuel IH]; intros q Hm Hf.
  { destruct q; [|simpl in Hf; lia]. cbn in Hm. assert (m = 0) as -> by lia. done. }
  cbn [pop_until]. case_test.
  { unfold lastn. by replace (length q - Z.to_nat m)%nat with 0%nat by lia. }
  destruct q as [|b q]; [exfalso; simpl in *; lia|]. cbn [length] in Hm, E, Hf.
  rewrite IH by lia. unfold lastn. cbn [length].
  by replace (S (length q) - Z.to_nat m)%nat with (S (length q - Z.to_nat m)) by lia.
Qed.

(** The queue holds the [max_size] most recent buffers, whether the memory of
    the dropped one is reused or not. *)
Lemma push_contents fresh ALLOC_MEM buff q :
  wf q → buff ≠ [] →
  ∃ q', push fresh ALLOC_MEM buff q = Ok q' ∧ wf q' ∧ max_size q' = max_size q ∧
        contents q' = lastn (Z.to_nat (max_size q)) (contents q ++ [buff]).
Proof.
  intros (Hm & Hlen) Hne. unfold push. case_test.
  { exists q. rewrite E. split_and!; [done|by split|done|]. simpl.
    destruct q as [m l]; simpl in *. destruct l; [done|simpl in *; lia]. }
  assert (Hpos : 0 < Z.of_nat (length buff)) by (destruct buff; simpl; [done|lia]).
  rewrite (proj2 (Z.eqb_neq (Z.of_nat (length buff)) 0)) by lia.
  destruct q as [m l]; unfold contents in *; cbn [max_size nodes] in *.
  set (p := if Z.of_nat (length l) =? m then _ else _).
  assert (Hp : p.2 = (if Z.of_nat (length l) =? m then tail l else l)).
  { subst p. case_test; [destruct l|]; done. }
  destruct p as [b0 rest]; cbn [snd] in Hp.
  eexists; split; [done|].
  set (b' := if ALLOC_MEM then _ else _).
  assert (Hb : take (Z.to_nat (blen b')) (data b') = buff).
  { subst b'. destruct ALLOC_MEM; cbn [blen data]; rewrite Nat2Z.id;
      [apply take_app_length | by apply take_ge]. }
  unfold wf; cbn [max_size nodes]. rewrite length_app, fmap_app. cbn [length fmap list_fmap].
  rewrite Hb. subst rest. unfold lastn. rewrite length_app, length_fmap. cbn [length].
  destruct (Z.eqb_spec (Z.of_nat (length l)) m) as [El|El].
  - destruct l as [|b l]; cbn [tail length fmap list_fmap] in *; [lia|].
    split_and!; try lia.
    replace (S (length l) + 1 - Z.to_nat m)%nat with 1%nat by lia. done.
  - split_and!; try lia.
    replace (length l + 1 - Z.to_nat m)%nat with 0%nat by lia. done.
Qed.

Fixpoint push_all (fresh : Z → list Z) (ALLOC_MEM : bool) (bufs : list (list Z)) (q : t) : outcome t :=
  match bufs with
  | [] => Ok q
  | b :: r => q ← push fresh ALLOC_MEM b q; push_all fresh ALLOC_MEM r q
  end.

Lemma lastn_lastn {A} n (l k : list A) : lastn n (lastn n l ++ k) = lastn n (l ++ k).
Proof.
  unfold lastn. rewrite !length_app, length_drop.
  replace (length l - (length l - n) + length k - n)%nat with
    ((length l + length k - n) - (length l - n))%nat by lia.
  rewrite <- (drop_app_le l k (length l - n)) by lia. rewrite drop_drop. f_equal. lia.
Qed.

Lemma push_all_contents fresh ALLOC_MEM bufs q :
  wf q → Forall (λ b, b ≠ []) bufs →
  ∃ q', push_all fresh ALLOC_MEM bufs q = Ok q' ∧ wf q' ∧ max_size q' = max_size q ∧
        contents q' = lastn (Z.to_nat (max_size q)) (contents q ++ bufs).
Proof.
  intros Hwf Hb. revert q Hwf. induction Hb as [|b bufs Hne _ IH]; intros q Hwf.
  - exists q. split_and!; [done..|]. destruct Hwf as [Hm Hl]. rewrite app_nil_r. unfold lastn, contents.
    rewrite length_fmap. by replace (length (nodes q) - Z.to_nat (max_size q))%nat with 0%nat by lia.
  - destruct (push_contents fresh ALLOC_MEM b q Hwf Hne) as (q1 & Hp & Hw1 & Hm1 & Hc1).
    cbn [push_all]. rewrite Hp. cbn [mbind outcome_bind].
    destruct (IH q1 Hw1) as (q2 & ? & ? & ? & Hc2). exists q2.
    split_and!; [done..|congruence|]. rewrite Hc2, Hm1, Hc1, lastn_lastn, <- app_assoc. done.
Qed.

(** Lowering the bound drops the oldest buffers and keeps the others. *)
Lemma set_max_size_contents m q :
  wf q → 0 <= m →
  ∃ q', set_max_size m q = Ok q' ∧ wf q' ∧ max_size q' = m ∧
        contents q' = lastn (Z.to_nat m) (contents q).
Proof.
  intros (Hm & Hlen) Hm'. unfold set_max_size, contents, lastn. rewrite length_fmap.
  repeat case_test.
  - exists q. unfold wf. split_and!; try done.
    by replace (length (nodes q) - Z.to_nat m)%nat with 0%nat by lia.
  - rewrite pop_until_spec by lia. simpl. eexists; split; [done|]. unfold wf, lastn; simpl.
    rewrite length_drop, fmap_drop. split_and!; lia || done.
  - eexists; split; [done|]. unfold wf; simpl. split_and!; try lia.
    by replace (length (nodes q) - Z.to_nat m)%nat with 0%nat by lia.
Qed.

(** the queue is a sliding window: whatever was pushed, reusing the memory of
    dropped buffers or not, it holds exactly the [max_size] most recent buffers
    in order; lowering the bound keeps the most recent ones. *)
Theorem queue_is_window fresh ALLOC_MEM bufs m q q' :
  wf q → Forall (λ b, b ≠ []) bufs → 0 <= m →
  push_all fresh ALLOC_MEM bufs q = Ok q' →
  contents q' = lastn (Z.to_nat (max_size q)) (contents q ++ bufs) ∧
  ∃ q'', set_max_size m q' = Ok q'' ∧ wf q'' ∧
         contents q'' = lastn (Z.to_nat m) (contents q').
Proof.
  intros Hwf Hb Hm Hp. destruct (push_all_contents fresh ALLOC_MEM bufs q Hwf Hb) as (q1 & Hq1 & Hw1 & _ & Hc).
  rewrite Hq1 in Hp. injection Hp as <-. split; [done|].
  destruct (set_max_size_contents m q1 Hw1 Hm) as (q2 & ? & ? & _ & ?). eauto.
Qed.

Lemma queue_is_window_witness :
  let q' := mk 2 [mk_buffer [2; 2] 2 2; mk_buffer [3] 1 1] in
  contents q' = lastn 2 (contents (create 2) ++ [[1]; [2; 2]; [3]]) ∧
  ∃ q'', set_max_size 1 q' = Ok q'' ∧ wf q'' ∧ contents q'' = lastn 1 (contents q').
Proof.
  apply (queue_is_window (λ n, replicate (Z.to_nat n) 0) false [[1]; [2; 2]; [3]] 1 (create 2));
    [split; simpl; lia|by repeat constructor|lia|reflexivity].
Defined.

End FixedSizeQueue.
