(* ===== verification/StringUtils.v ===== *)
(** * String helpers (lib/gen_utils.cpp)

    The functions that edit a C string work on its buffer (the bytes of the
    string and the terminating zero), with every read and write checked against
    the bounds of the block; [mywildcmp] and the [std::string] helpers work on
    the bytes of the string. *)
From S2P Require Import Prelude.

(** The C string stored at offset [i] of a buffer. *)
Definition no_nul (s : list Z) : Prop := Forall (λ c, c ≠ 0) s.
Fixpoint cstr (b : list Z) : list Z :=
  match b with
  | [] => []
  | c :: b' => if c =? 0 then [] else c :: cstr b'
  end.
Definition cstr_at (b : list Z) (i : Z) : list Z := cstr (drop (Z.to_nat i) b).

Lemma cstr_app s b : no_nul s → cstr (s ++ 0 :: b) = s.
Proof.
  induction 1 as [|c s Hc _ IH]; [done|]. simpl.
  rewrite (proj2 (Z.eqb_neq c 0) Hc). by rewrite IH.
Qed.

Fixpoint drop_while (p : Z → bool) (s : list Z) : list Z :=
  match s with
  | [] => []
  | c :: s' => if p c then drop_while p s' else s
  end.
(** [s] without its longest suffix of characters in [p]. *)
Definition drop_while_end (p : Z → bool) (s : list Z) : list Z :=
  reverse (drop_while p (reverse s)).

Lemma drop_while_suffix p s : ∃ pre, s = pre ++ drop_while p s ∧ Forall (λ c, p c = true) pre.
Proof.
  induction s as [|c s (pre & Hs & Hp)]; [by exists []|]. simpl. destruct (p c) eqn:E.
  - exists (c :: pre). simpl. rewrite <- Hs. auto.
  - by exists [].
Qed.

Lemma drop_while_head p s c r : drop_while p s = c :: r → p c = false.
Proof.
  induction s as [|d s IH]; simpl; [done|]. destruct (p d) eqn:E; [done|]. by intros [= -> ->].
Qed.

Lemma drop_while_end_snoc p s c :
  drop_while_end p (s ++ [c]) = if p c then drop_while_end p s else s ++ [c].
Proof.
  unfold drop_while_end. rewrite reverse_snoc. simpl. destruct (p c); [done|].
  by rewrite reverse_cons, reverse_involutive.
Qed.

Lemma drop_while_end_prefix p s : ∃ suf, s = drop_while_end p s ++ suf.
Proof.
  unfold drop_while_end. destruct (drop_while_suffix p (reverse s)) as (pre & Hs & _).
  exists (reverse pre). rewrite <- reverse_app, <- Hs. by rewrite reverse_involutive.
Qed.

Lemma drop_while_app p l q :
  Exists (λ c, p c = false) l → drop_while p (l ++ q) = drop_while p l ++ q.
Proof.
  induction l as [|d l IH]; intros Hin; [by apply Exists_nil in Hin|]. simpl.
  destruct (p d) eqn:E; [|done]. apply IH. apply Exists_cons in Hin as [?|?]; [congruence|done].
Qed.

Lemma Exists_reverse_head p (c : Z) r :
  p c = false → Exists (λ c, p c = false) (reverse (c :: r)).
Proof. intros Hc. apply Exists_exists. exists c. split; [apply elem_of_reverse; by left|done]. Qed.

Lemma drop_while_end_cons p c r :
  p c = false → drop_while_end p (c :: r) = c :: drop_while_end p r.
Proof.
  intros Hc. unfold drop_while_end. rewrite reverse_cons.
  assert (Hcase : drop_while p (reverse r ++ [c]) = drop_while p (reverse r) ++ [c]).
  { induction (reverse r) as [|d l IH]; simpl; [by rewrite Hc|]. by destruct (p d). }
  by rewrite Hcase, reverse_snoc.
Qed.

Fixpoint join (sep : list Z) (ws : list (list Z)) : list Z :=
  match ws with
  | [] => []
  | [w] => w
  | w :: ws' => w ++ sep ++ join sep ws'
  end.

(** [strchr]: the offset of the first [c]. *)
Fixpoint strchr (c : Z) (s : list Z) : option nat :=
  match s with
  | [] => None
  | x :: r => if x =? c then Some O else S <$> strchr c r
  end.
Lemma strchr_Some c s l :
  strchr c s = Some l → ∃ a b, s = a ++ c :: b ∧ length a = l ∧ c ∉ a.
Proof.
  revert l; induction s as [|x s IH]; intros l; simpl; [done|].
  destruct (Z.eqb_spec x c) as [->|Hx].
  - intros [= <-]. exists [], s. split_and!; [done..|]. apply not_elem_of_nil.
  - destruct (strchr c s) as [l'|]; [|done]. intros [= <-].
    destruct (IH l' eq_refl) as (a & b & -> & <- & Ha). exists (x :: a), b.
    split_and!; [done..|]. by apply not_elem_of_cons.
Qed.

Lemma strchr_None c s : strchr c s = None → c ∉ s.
Proof.
  induction s as [|x s IH]; simpl; [intros _; apply not_elem_of_nil|].
  destruct (Z.eqb_spec x c) as [->|Hx]; [done|]. destruct (strchr c s); [done|].
  intros _. apply not_elem_of_cons. auto.
Qed.

Lemma strchr_app c a b : c ∉ a → strchr c (a ++ c :: b) = Some (length a).
Proof.
  induction a as [|x a IH]; intros Ha; simpl; [by rewrite Z.eqb_refl|].
  apply not_elem_of_cons in Ha as [? ?]. rewrite (proj2 (Z.eqb_neq x c)) by done. by rewrite IH.
Qed.

(** ** Comparisons that ignore case, in the C locale *)
Definition lower (c : Z) : Z := if (65 <=? c) && (c <=? 90) then c + 32 else c.

(** [strncasecmp(s, lit, strlen(lit)) == 0]. *)
Fixpoint prefix_ci (lit s : list Z) : bool :=
  match lit, s with
  | [], _ => true
  | c :: lit', d :: s' => (lower c =? lower d) && prefix_ci lit' s'
  | _, [] => false
  end.

(** [strcasestr]. *)
Fixpoint strcasestr (s lit : list Z) : bool :=
  prefix_ci lit s || match s with [] => false | _ :: s' => strcasestr s' lit end.

(** [strcasecmp(a, b) == 0]. *)
Definition strcasecmp_eq (a b : list Z) : bool := bool_decide (lower <$> a = lower <$> b).

(** [atoll]. *)
Definition atoll (s : list Z) : Z :=
  let s := drop_while isspace s in
  let '(neg, s) := match s with
                   | c :: r => if c =? 45 then (true, r) else if c =? 43 then (false, r) else (false, s)
                   | [] => (false, s) end in
  let v := digits_value (span isdigit s).1 in
  if neg then - Z.min v (2 ^ 63) else Z.min v (2 ^ 63 - 1).

(** [atoi]. *)
Definition atoi (s : list Z) : Z := i32 (atoll s).

Lemma atoll_dec n : 0 <= n < 2 ^ 63 → atoll (dec n) = n.
Proof.
  intros Hn. destruct (dec_head n) as (c & r & Hd & Hc). pose proof (dec_isdigit n) as Hdig.
  pose proof (digits_value_dec n ltac:(lia)) as Hval. rewrite Hd in *. unfold atoll. cbn [drop_while].
  destruct (isspace c) eqn:E; [unfold isspace in E; lia|].
  rewrite (proj2 (Z.eqb_neq c 45)), (proj2 (Z.eqb_neq c 43)) by lia.
  rewrite <- (app_nil_r (c :: r)), span_app by done. cbn [fst]. rewrite Hval. lia.
Qed.

Lemma atoi_sdec n : - 2 ^ 31 <= n < 2 ^ 31 → atoi (sdec n) = n.
Proof.
  intros Hn. unfold atoi, sdec. destruct (Z.ltb_spec n 0).
  - unfold atoll. cbn [drop_while]. change (isspace 45) with false. cbn match.
    rewrite Z.eqb_refl, <- (app_nil_r (dec (- n))), span_app by (done || apply dec_isdigit). cbn [fst].
    rewrite digits_value_dec, i32_small by lia. lia.
  - rewrite atoll_dec, i32_small by lia. done.
Qed.

Module Escape.

Definition QUOTE : Z := 39.

Fixpoint count_quotes (input : list Z) : Z :=
  match input with
  | [] => 0
  | c :: r => (if c =? QUOTE then 1 else 0) + count_quotes r
  end.

(** The second loop: [j] is the next free position of [o]. *)
Fixpoint escape_loop (input : list Z) (j : Z) (o : list Z) : outcome (list Z) :=
  match input with
  | [] => Ok o
  | c :: r =>
      jo ← (if c =? QUOTE then o' ← write_at o j QUOTE; Ok (j + 1, o') else Ok (j, o));
      o ← write_at jo.2 jo.1 c;
      escape_loop r (jo.1 + 1) o
  end.

(** [malloc n] is a block of [n] bytes of unknown contents.  The result is the
    buffer returned: the input's own when it holds no quote. *)
Definition escape_string_single_quotes (malloc : Z → list Z) (input : list Z)
  : outcome (list Z) :=
  let l := Z.of_nat (length input) in
  let j := count_quotes input in
  if j =? 0 then Ok (input ++ [0])
  else
    o ← write_at (malloc (l + j + 1)) (l + j) 0;
    escape_loop input 0 o.

(** The escaping as SQL defines it: every quote is doubled. *)
Fixpoint escaped (input : list Z) : list Z :=
  match input with
  | [] => []
  | c :: r => if c =? QUOTE then QUOTE :: QUOTE :: escaped r else c :: escaped r
  end.

(** What a SQL lexer reads back from the inside of a quoted literal: [None] when
    the literal ends early, at a quote that is not doubled. *)
Fixpoint unescape (s : list Z) : option (list Z) :=
  match s with
  | [] => Some []
  | c :: r =>
      if c =? QUOTE then
        match r with
        | c' :: r' => if c' =? QUOTE then cons QUOTE <$> unescape r' else None
        | [] => None
        end
      else cons c <$> unescape r
  end.

Lemma escaped_length input :
  Z.of_nat (length (escaped input)) = Z.of_nat (length input) + count_quotes input.
Proof.
  induction input as [|c r IH]; [done|]. cbn [escaped count_quotes length].
  destruct (c =? QUOTE); cbn [length]; lia.
Qed.

Lemma count_quotes_nonneg input : 0 <= count_quotes input.
Proof. induction input as [|c r IH]; simpl; [done|]. destruct (c =? QUOTE); lia. Qed.

Lemma escaped_id input : count_quotes input = 0 → escaped input = input.
Proof.
  induction input as [|c r IH]; [done|]. cbn [escaped count_quotes].
  pose proof (count_quotes_nonneg r). destruct (c =? QUOTE); intros; [lia|].
  rewrite IH; [done|lia].
Qed.

(** The loop fills exactly the part of the block in front of the terminator. *)
Lemma escape_loop_spec input done_ garbage :
  Z.of_nat (length garbage) = Z.of_nat (length (escaped input)) →
  escape_loop input (Z.of_nat (length done_)) (done_ ++ garbage ++ [0]) =
  Ok (done_ ++ escaped input ++ [0]).
Proof.
  revert done_ garbage. induction input as [|c r IH]; intros done_ garbage Hlen.
  { destruct garbage; simpl in *; [done|lia]. }
  cbn [escape_loop escaped] in *. destruct (c =? QUOTE) eqn:Ec.
  - destruct garbage as [|g1 [|g2 garbage]]; cbn [length] in Hlen; try lia.
    cbn [app]. rewrite write_next. cbn [mbind outcome_bind fst snd].
    rewrite (length_snoc done_ QUOTE). cbn [app]. rewrite write_next. cbn [mbind outcome_bind].
    rewrite (length_snoc _ c), IH by lia.
    apply Z.eqb_eq in Ec as ->. by rewrite <- !app_assoc.
  - destruct garbage as [|g1 garbage]; cbn [length] in Hlen; try lia.
    cbn [app mbind outcome_bind fst snd]. rewrite write_next. cbn [mbind outcome_bind].
    rewrite (length_snoc _ c), IH by lia. by rewrite <- !app_assoc.
Qed.

Lemma unescape_escaped input : unescape (escaped input) = Some input.
Proof.
  induction input as [|c r IH]; [done|]. cbn [escaped].
  destruct (c =? QUOTE) eqn:E; cbn [unescape].
  - rewrite Z.eqb_refl, IH. apply Z.eqb_eq in E as ->. done.
  - by rewrite E, IH.
Qed.

(** escaping is safe and loses nothing. For a C string of any contents the
    function writes only inside the block it allocates, what it returns is the
    input with every quote doubled and a terminator, and reading it back between
    quotes, as SQL does, gives the input: no text can end the literal early. *)
Theorem escape_roundtrip malloc input :
  (∀ n, 0 <= n → Z.of_nat (length (malloc n)) = n) → no_nul input →
  ∃ buf, escape_string_single_quotes malloc input = Ok buf ∧
         cstr buf = escaped input ∧ unescape (cstr buf) = Some input.
Proof.
  intros Hm Hn. exists (escaped input ++ [0]).
  assert (Hcs : cstr (escaped input ++ [0]) = escaped input).
  { apply cstr_app. induction Hn as [|c r Hc _ IH]; [constructor|]. cbn [escaped].
    destruct (c =? QUOTE); repeat constructor; done. }
  rewrite Hcs, unescape_escaped. split_and!; [|done..].
  unfold escape_string_single_quotes. pose proof (count_quotes_nonneg input) as Hc.
  destruct (Z.eqb_spec (count_quotes input) 0) as [H0|H0]; [by rewrite escaped_id|].
  set (n := Z.of_nat (length input) + count_quotes input).
  assert (Hlen : length (malloc (n + 1)) = S (Z.to_nat n)) by (specialize (Hm (n + 1)); lia).
  rewrite write_at_ok by lia. cbn [mbind outcome_bind].
  rewrite insert_take_drop, drop_ge by lia.
  exact (escape_loop_spec input [] (take (Z.to_nat n) (malloc (n + 1)))
           ltac:(rewrite length_take, escaped_length; lia)).
Qed.

Lemma escape_roundtrip_witness :
  ∃ buf, escape_string_single_quotes (λ n, replicate (Z.to_nat n) 7) (str "it's") = Ok buf ∧
         cstr buf = escaped (str "it's") ∧ unescape (cstr buf) = Some (str "it's").
Proof.
  apply escape_roundtrip; [intros; rewrite length_replicate; lia|by repeat constructor].
Defined.

End Escape.

Module Spaces.

(** *** remove_spaces *)

(** One turn of [while ( *inp)]: the state is the buffer, the two pointers into
    it and the two flags. *)
Fixpoint remove_spaces_loop (fuel : nat) (buf : list Z) (inp outp : Z)
    (prev_space fns : bool) : outcome (list Z * Z * bool) :=
  match fuel with
  | O => Fault Diverges
  | S fuel' =>
      c ← read_at buf inp;
      if c =? 0 then Ok (buf, outp, prev_space)
      else if isspace c then
        if fns && negb prev_space then
          buf ← write_at buf outp 32;
          remove_spaces_loop fuel' buf (inp + 1) (outp + 1) true fns
        else remove_spaces_loop fuel' buf (inp + 1) outp prev_space fns
      else
        buf ← write_at buf outp c;
        remove_spaces_loop fuel' buf (inp + 1) (outp + 1) false true
  end.

(** The buffer after the call and the length returned. *)
Definition remove_spaces (s : list Z) : outcome (list Z * Z) :=
  r ← remove_spaces_loop (S (length s)) s 0 0 false false;
  let '(buf, outp, prev_space) := r in
  let outp := if (0 <? outp) && prev_space then outp - 1 else outp in
  buf ← write_at buf outp 0;
  Ok (buf, Z.of_nat (length (cstr buf))).

(** The words of a string, its maximal runs of non-space characters, as a scan:
    the completed words and the word in progress. *)
Definition feed (st : list (list Z) * list Z) (c : Z) : list (list Z) * list Z :=
  if isspace c then
    if decide (st.2 = []) then st else (st.1 ++ [st.2], [])
  else (st.1, st.2 ++ [c]).

Definition words (s : list Z) : list (list Z) :=
  let '(ws, cur) := fold_left feed s ([], []) in
  if decide (cur = []) then ws else ws ++ [cur].

(** The state the loop has written after the completed words [ws] and the word
    in progress [cur]. *)
Definition written (ws : list (list Z)) (cur : list Z) : list Z * bool * bool :=
  if decide (cur = []) then
    if decide (ws = []) then ([], false, false) else (join [32] ws ++ [32], true, true)
  else (join [32] (ws ++ [cur]), false, true).

Lemma join_snoc ws w : ws ≠ [] → join [32] (ws ++ [w]) = join [32] ws ++ [32] ++ w.
Proof.
  induction ws as [|x ws IH]; [done|]. intros _. destruct ws as [|y ws]; [done|].
  change (join [32] ((x :: y :: ws) ++ [w])) with (x ++ [32] ++ join [32] ((y :: ws) ++ [w])).
  rewrite IH by done. change (join [32] (x :: y :: ws)) with (x ++ [32] ++ join [32] (y :: ws)).
  by rewrite <- !app_assoc.
Qed.

Lemma join_snoc_char ws cur c :
  join [32] (ws ++ [cur ++ [c]]) = join [32] (ws ++ [cur]) ++ [c].
Proof.
  destruct ws as [|x ws]; [done|]. rewrite !join_snoc by done. by rewrite <- !app_assoc.
Qed.

(** A non-space character extends the word in progress. *)
Lemma written_char ws cur c :
  written ws (cur ++ [c]) = ((written ws cur).1.1 ++ [c], false, true).
Proof.
  unfold written. rewrite decide_False by (by destruct cur).
  destruct (decide (cur = [])) as [->|]; [destruct (decide (ws = [])) as [->|]|];
    rewrite ?join_snoc_char; try done.
  cbn [fst]. by rewrite join_snoc, app_nil_r by done.
Qed.

Lemma take_write (buf : list Z) (o : list Z) x i :
  take (length o) buf = o → (length o < i)%nat → (i <= length buf)%nat →
  ∃ buf', write_at buf (Z.of_nat (length o)) x = Ok buf' ∧
    take (length (o ++ [x])) buf' = o ++ [x] ∧ drop i buf' = drop i buf ∧
    length buf' = length buf.
Proof.
  intros Ht Hi Hb. rewrite write_at_ok by lia. rewrite Nat2Z.id. eexists; split; [done|].
  rewrite length_app, length_insert, drop_insert_lt by lia. cbn [length].
  split_and!; try done. rewrite Nat.add_1_r, (take_S_r _ _ x)
    by (apply list_lookup_insert_eq; lia). by rewrite take_insert_ge, Ht by lia.
Qed.

Lemma read_at_drop (buf : list Z) i c r :
  drop i buf = c :: r → read_at buf (Z.of_nat i) = Ok c ∧ drop (S i) buf = r ∧ (i < length buf)%nat.
Proof.
  intros Hd. assert (Hc : buf !! i = Some c).
  { rewrite <- (Nat.add_0_r i), <- lookup_drop, Hd. done. }
  split_and!.
  - apply read_at_Some. rewrite Nat2Z.id. auto with lia.
  - rewrite (drop_S _ _ _ Hc) in Hd. by injection Hd.
  - by eapply lookup_lt_Some.
Qed.

(** What the loop leaves in the buffer, for every state it can be in: the
    completed words and the word in progress move with the input. *)
Lemma remove_spaces_loop_spec s ws cur buf fuel i tl :
  let st := written ws cur in
  no_nul s → drop i buf = s ++ 0 :: tl → take (length st.1.1) buf = st.1.1 →
  (length st.1.1 <= i)%nat → (length s < fuel)%nat →
  ∃ buf', let st' := uncurry written (fold_left feed s (ws, cur)) in
    remove_spaces_loop fuel buf (Z.of_nat i) (Z.of_nat (length st.1.1)) st.1.2 st.2 =
      Ok (buf', Z.of_nat (length st'.1.1), st'.1.2) ∧
    take (length st'.1.1) buf' = st'.1.1 ∧ (length st'.1.1 < length buf')%nat.
Proof.
  intros st Hs. subst st. revert ws cur buf fuel i.
  induction Hs as [|c s Hc _ IH]; intros ws cur buf fuel i Hd Ht Hi Hf;
    destruct fuel as [|fuel]; try (simpl in Hf; lia);
    destruct (read_at_drop _ _ _ _ Hd) as (Hr & Hd' & Hlt);
    cbn [remove_spaces_loop]; rewrite Hr; cbn [mbind outcome_bind].
  { exists buf. simpl. split_and!; [done|done|lia]. }
  rewrite (proj2 (Z.eqb_neq c 0) Hc). cbn [fold_left]. cbn [length] in Hf.
  replace (Z.of_nat i + 1) with (Z.of_nat (S i)) by lia.
  assert (Hstep : ∀ x, let o := (written ws cur).1.1 in
    ∃ buf', write_at buf (Z.of_nat (length o)) x = Ok buf' ∧
      take (length (o ++ [x])) buf' = o ++ [x] ∧ drop (S i) buf' = s ++ 0 :: tl).
  { intros x o. subst o.
    destruct (take_write buf _ x (S i) Ht) as (b' & -> & ? & Hb' & _); [lia|lia|].
    exists b'. rewrite Hb'. auto. }
  destruct (isspace c) eqn:Esp.
  - destruct (decide (cur = [])) as [->|Hcur].
    + replace (feed (ws, []) c) with (ws, @nil Z) by (unfold feed; by rewrite Esp).
      replace ((written ws []).2 && negb (written ws []).1.2) with false
        by (unfold written; simpl; by destruct (decide (ws = []))).
      apply IH; [done|done|lia|lia].
    + assert (Hfc : feed (ws, cur) c = (ws ++ [cur], [])).
      { unfold feed. rewrite Esp. by rewrite decide_False. }
      assert (Hw : written (ws ++ [cur]) [] = ((written ws cur).1.1 ++ [32], true, true)).
      { unfold written. rewrite decide_True, decide_False, decide_False by (done || by destruct ws).
        done. }
      replace ((written ws cur).2 && negb (written ws cur).1.2) with true
        by (unfold written; by rewrite decide_False).
      destruct (Hstep 32) as (b' & -> & Ht' & Hd''). cbn [mbind outcome_bind]. rewrite Hfc.
      specialize (IH (ws ++ [cur]) [] b' fuel (S i) Hd''). rewrite Hw in IH. cbn [fst snd] in IH.
      replace (Z.of_nat (length (written ws cur).1.1) + 1)
        with (Z.of_nat (length ((written ws cur).1.1 ++ [32]))) by (rewrite length_app; simpl; lia).
      replace (written ws cur).2 with true by (unfold written; by rewrite decide_False).
      apply IH; [done|rewrite length_app; simpl; lia|lia].
  - destruct (Hstep c) as (b' & -> & Ht' & Hd''). cbn [mbind outcome_bind].
    replace (feed (ws, cur) c) with (ws, cur ++ [c]) by (unfold feed; by rewrite Esp).
    specialize (IH ws (cur ++ [c]) b' fuel (S i) Hd''). rewrite written_char in IH.
    cbn [fst snd] in IH.
    replace (Z.of_nat (length (written ws cur).1.1) + 1)
      with (Z.of_nat (length ((written ws cur).1.1 ++ [c]))) by (rewrite length_app; simpl; lia).
    apply IH; [done|rewrite length_app; simpl; lia|lia].
Qed.

Lemma cstr_write (buf o : list Z) :
  no_nul o → take (length o) buf = o → (length o < length buf)%nat →
  ∃ buf', write_at buf (Z.of_nat (length o)) 0 = Ok buf' ∧ cstr buf' = o.
Proof.
  intros Ho Ht Hlt. rewrite write_at_ok by lia. eexists; split; [done|].
  rewrite Nat2Z.id, insert_take_drop, Ht by lia. by apply cstr_app.
Qed.

Lemma feed_no_nul s ws cur :
  no_nul s → Forall no_nul ws → no_nul cur →
  let st := fold_left feed s (ws, cur) in Forall no_nul st.1 ∧ no_nul st.2.
Proof.
  intros Hs. revert ws cur. induction Hs as [|c s Hc _ IH]; intros ws cur Hws Hcur; [done|].
  cbn [fold_left]. destruct (feed (ws, cur) c) as [ws' cur'] eqn:E. apply IH;
    revert E; unfold feed; cbn [fst snd]; repeat case_match; intros [= <- <-]; try done;
    rewrite ?Forall_app; unfold no_nul; rewrite ?Forall_app; auto.
Qed.

Lemma join_no_nul sep ws : no_nul sep → Forall no_nul ws → no_nul (join sep ws).
Proof.
  intros Hsep. induction 1 as [|w ws Hw Hws IH]; [by constructor|].
  destruct ws; [done|]. simpl. unfold no_nul in *. rewrite !Forall_app. auto.
Qed.

Lemma remove_spaces_spec s tl :
  no_nul s →
  ∃ buf', remove_spaces (s ++ 0 :: tl) =
            Ok (buf', Z.of_nat (length (join [32] (words s)))) ∧
          cstr buf' = join [32] (words s).
Proof.
  intros Hs. unfold remove_spaces.
  destruct (remove_spaces_loop_spec s [] [] (s ++ 0 :: tl) (S (length (s ++ 0 :: tl))) 0 tl)
    as (buf & Hloop & Ht & Hlt); [done|done|done|simpl; lia|rewrite length_app; lia|].
  change (written [] []) with (@nil Z, false, false) in Hloop.
  change (Z.of_nat 0) with 0 in Hloop. cbn [fst snd length] in Hloop.
  change (Z.of_nat 0) with 0 in Hloop. rewrite Hloop. cbn [mbind outcome_bind]. clear Hloop.
  destruct (feed_no_nul s [] []) as [Hws Hcur]; [done|constructor|constructor|].
  unfold words. destruct (fold_left feed s ([], [])) as [ws cur]. cbn [uncurry fst snd] in *.
  set (r := join [32] (if decide (cur = []) then ws else ws ++ [cur])).
  assert (Hr : no_nul r).
  { apply join_no_nul; [by repeat constructor|]. destruct (decide _); [done|].
    apply Forall_app. auto. }
  set (st := written ws cur) in *.
  assert ((if (0 <? Z.of_nat (length st.1.1)) && st.1.2 then Z.of_nat (length st.1.1) - 1
                 else Z.of_nat (length st.1.1)) = Z.of_nat (length r) ∧ take (length r) buf = r ∧
                (length r <= length st.1.1)%nat) as (-> & Htr & Hle).
  { subst st r. unfold written in *.
    destruct (decide (cur = [])), (decide (ws = [])); subst; cbn [fst snd] in *;
      rewrite ?andb_false_r; try done.
    rewrite length_app in *. cbn [length] in *.
    rewrite (proj2 (Z.ltb_lt _ _)) by lia. cbn [andb]. split_and!; [lia| |lia].
    apply (f_equal (take (length (join [32] ws)))) in Ht.
    by rewrite take_take, take_app_length, Nat.min_l in Ht by lia. }
  destruct (cstr_write buf r Hr Htr) as (buf' & -> & Hc); [lia|].
  cbn [mbind outcome_bind]. exists buf'. by rewrite Hc.
Qed.

(** *** Trimming in place

    [trim_spaces_in_place] and [trim_spaces_and_quotes_in_place] are the same
    loops over two pairs of character classes: [lead] is stripped at the start,
    [trail] at the end, where the scan never goes below the first character. *)

Fixpoint skip_lead (lead : Z → bool) (fuel : nat) (buf : list Z) (i : Z) : outcome Z :=
  match fuel with
  | O => Fault Diverges
  | S fuel' => c ← read_at buf i; if lead c then skip_lead lead fuel' buf (i + 1) else Ok i
  end.

Fixpoint skip_trail (trail : Z → bool) (fuel : nat) (buf : list Z) (str_ e : Z) : outcome Z :=
  match fuel with
  | O => Fault Diverges
  | S fuel' =>
      if str_ <? e then
        c ← read_at buf e; if trail c then skip_trail trail fuel' buf str_ (e - 1) else Ok e
      else Ok e
  end.

(** The buffer after the call and the offset of the pointer returned. *)
Definition trim_in_place (lead trail : Z → bool) (buf : list Z) : outcome (list Z * Z) :=
  str_ ← skip_lead lead (S (length buf)) buf 0;
  c ← read_at buf str_;
  if c =? 0 then Ok (buf, str_)
  else
    let e := str_ + Z.of_nat (length (cstr_at buf str_)) - 1 in
    e ← skip_trail trail (S (length buf)) buf str_ e;
    buf ← write_at buf (e + 1) 0;
    Ok (buf, str_).

Definition quote_lead (c : Z) : bool := isspace c || (c =? 34) || (c =? 39).
Definition quote_trail (c : Z) : bool := isspace c || (c =? 34) || (c =? 39) || (c =? 59).

Definition trim_spaces_in_place : list Z → outcome (list Z * Z) :=
  trim_in_place isspace isspace.
Definition trim_spaces_and_quotes_in_place : list Z → outcome (list Z * Z) :=
  trim_in_place quote_lead quote_trail.

(** What is left of a string: no prefix in [lead]; of the rest, the first
    character and what remains of the others without a suffix in [trail]. *)
Definition trimmed (lead trail : Z → bool) (s : list Z) : list Z :=
  match drop_while lead s with
  | [] => []
  | c :: r => c :: drop_while_end trail r
  end.

Lemma skip_lead_spec lead s fuel (buf : list Z) i tl :
  lead 0 = false → drop i buf = s ++ 0 :: tl → (length s < fuel)%nat →
  skip_lead lead fuel buf (Z.of_nat i) =
    Ok (Z.of_nat (i + (length s - length (drop_while lead s)))) ∧
  drop (i + (length s - length (drop_while lead s))) buf = drop_while lead s ++ 0 :: tl.
Proof.
  intros H0. revert fuel i. induction s as [|c s IH]; intros fuel i Hd Hf;
    (destruct fuel as [|fuel]; [simpl in Hf; lia|]);
    destruct (read_at_drop _ _ _ _ Hd) as (Hr & Hd' & _); cbn [skip_lead];
    rewrite Hr; cbn [mbind outcome_bind drop_while].
  { rewrite H0. cbn [length]. by rewrite Nat.add_0_r. }
  destruct (lead c) eqn:E.
  - replace (Z.of_nat i + 1) with (Z.of_nat (S i)) by lia. cbn [length] in *.
    destruct (IH fuel (S i) Hd' ltac:(lia)) as [-> Hd''].
    destruct (drop_while_suffix lead s) as (pre & Hs & _). apply (f_equal length) in Hs.
    rewrite length_app in Hs.
    replace (i + (S (length s) - length (drop_while lead s)))%nat
      with (S i + (length s - length (drop_while lead s)))%nat by lia. auto.
  - rewrite Nat.sub_diag, Nat.add_0_r. auto.
Qed.

Lemma skip_trail_spec trail c0 r fuel (buf : list Z) i tl :
  drop i buf = c0 :: r ++ tl → (length r < fuel)%nat →
  skip_trail trail fuel buf (Z.of_nat i) (Z.of_nat (i + length r)) =
  Ok (Z.of_nat (i + length (drop_while_end trail r))).
Proof.
  revert fuel tl. induction r as [|c r IH] using rev_ind; intros fuel tl Hd Hf;
    (destruct fuel as [|fuel]; [lia|]); cbn [skip_trail].
  { case_test; [simpl in *; lia|]. done. }
  rewrite length_app in *. cbn [length] in *. case_test; [|lia].
  assert (Hc : read_at buf (Z.of_nat (i + (length r + 1))) = Ok c).
  { apply read_at_Some. split; [lia|]. rewrite Nat2Z.id, <- lookup_drop, Hd.
    replace (length r + 1)%nat with (S (length r)) by lia. simpl.
    rewrite <- app_assoc, lookup_app_r, Nat.sub_diag by lia. done. }
  rewrite Hc. cbn [mbind outcome_bind]. rewrite drop_while_end_snoc. destruct (trail c).
  - replace (Z.of_nat (i + (length r + 1)) - 1) with (Z.of_nat (i + length r)) by lia.
    apply (IH fuel (c :: tl)); [|lia]. by rewrite <- app_assoc in Hd.
  - by rewrite length_app.
Qed.

(** Both trimming functions return a pointer to the trimmed string and write
    only inside the block. *)
Lemma trim_in_place_spec lead trail s tl :
  no_nul s → lead 0 = false →
  ∃ buf' i, trim_in_place lead trail (s ++ 0 :: tl) = Ok (buf', i) ∧
            cstr_at buf' i = trimmed lead trail s.
Proof.
  intros Hs H0. unfold trim_in_place.
  set (buf := s ++ 0 :: tl). set (k := (length s - length (drop_while lead s))%nat).
  assert (Hfuel : (length s < S (length buf))%nat) by (subst buf; rewrite length_app; lia).
  destruct (skip_lead_spec lead s (S (length buf)) buf 0 tl H0 eq_refl Hfuel) as [Hsk Hd].
  change (Z.of_nat 0) with 0 in Hsk. rewrite Hsk. fold k in Hd |- *. rewrite Nat.add_0_l in *.
  cbn [mbind outcome_bind].
  destruct (drop_while_suffix lead s) as (pre & Hpre & _).
  assert (Hk : k = length pre).
  { subst k. apply (f_equal length) in Hpre. rewrite length_app in Hpre. lia. }
  unfold trimmed. destruct (drop_while lead s) as [|c0 r] eqn:Edw.
  - destruct (read_at_drop _ _ _ _ Hd) as (-> & _ & _). cbn [mbind outcome_bind].
    rewrite Z.eqb_refl. eexists _, _; split; [done|]. unfold cstr_at.
    rewrite Nat2Z.id, Hd. done.
  - assert (Hn : no_nul (c0 :: r)).
    { rewrite Hpre in Hs. apply Forall_app in Hs as [_ Hs]. done. }
    pose proof Hn as [Hc0 Hr]%Forall_cons.
    destruct (read_at_drop _ _ _ _ Hd) as (-> & _ & _). cbn [mbind outcome_bind].
    rewrite (proj2 (Z.eqb_neq c0 0) Hc0).
    assert (Hcs : cstr_at buf (Z.of_nat k) = c0 :: r).
    { unfold cstr_at. rewrite Nat2Z.id, Hd. by apply (cstr_app (c0 :: r)). }
    rewrite Hcs. cbn [length].
    replace (Z.of_nat k + Z.of_nat (S (length r)) - 1) with (Z.of_nat (k + length r)) by lia.
    assert (Hlr : (length r < S (length buf))%nat).
    { subst buf. apply (f_equal length) in Hpre. rewrite length_app in *. simpl in Hpre. lia. }
    rewrite (skip_trail_spec trail c0 r _ buf k (0 :: tl) Hd Hlr). cbn [mbind outcome_bind].
    destruct (drop_while_end_prefix trail r) as (suf & Hsuf).
    set (r' := drop_while_end trail r) in *.
    assert (Hlb : (k + length r' + 1 < length buf)%nat).
    { subst buf. rewrite Hpre, !length_app. cbn [length]. rewrite Hsuf, length_app. lia. }
    rewrite write_at_ok by lia. cbn [mbind outcome_bind]. eexists _, _; split; [done|].
    unfold cstr_at. replace (Z.to_nat (Z.of_nat (k + length r') + 1)) with (k + S (length r'))%nat by lia.
    rewrite Nat2Z.id, drop_insert_ge by lia. rewrite Hd.
    replace (k + S (length r') - k)%nat with (S (length r')) by lia. cbn [app].
    change (<[S (length r'):=0]> (c0 :: r ++ 0 :: tl)) with (c0 :: <[length r':=0]> (r ++ 0 :: tl)).
    rewrite Hsuf at 1. rewrite <- app_assoc, insert_app_r_alt, Nat.sub_diag by lia.
    assert (Hr' : no_nul (c0 :: r')).
    { constructor; [done|]. rewrite Hsuf in Hr. by apply Forall_app in Hr as [? _]. }
    destruct (suf ++ 0 :: tl) as [|g rest] eqn:Eg; [by destruct suf|].
    exact (cstr_app (c0 :: r') rest Hr').
Qed.

(** [remove_spaces] rewrites the C string in place, inside its buffer, to its
    words separated by single spaces, whatever the spaces before, between and
    after them, and returns its new length. *)
Theorem remove_spaces_normalises s tl :
  no_nul s →
  ∃ buf', remove_spaces (s ++ 0 :: tl) = Ok (buf', Z.of_nat (length (join [32] (words s)))) ∧
          cstr buf' = join [32] (words s).
Proof. apply remove_spaces_spec. Qed.

Lemma remove_spaces_normalises_witness :
  ∃ buf', remove_spaces (str "  a  b " ++ [0; 9]) = Ok (buf', Z.of_nat (length (join [32] [str "a"; str "b"]))) ∧
          cstr buf' = join [32] [str "a"; str "b"].
Proof. apply (remove_spaces_normalises (str "  a  b ") [9]). by repeat constructor. Defined.

(** The trimming functions return a pointer to the trimmed string -- leading
    spaces (and quotes) and trailing spaces (and quotes and semicolons) gone,
    the middle untouched -- and access nothing outside the string's block. *)
Theorem trim_functions_correct s tl :
  no_nul s →
  (∃ buf' i, trim_spaces_in_place (s ++ 0 :: tl) = Ok (buf', i) ∧
             cstr_at buf' i = trimmed isspace isspace s) ∧
  (∃ buf' i, trim_spaces_and_quotes_in_place (s ++ 0 :: tl) = Ok (buf', i) ∧
             cstr_at buf' i = trimmed quote_lead quote_trail s).
Proof. intros Hs. split; by apply trim_in_place_spec. Qed.

Lemma trim_functions_correct_witness :
  (∃ buf' i, trim_spaces_in_place (str " a " ++ [0]) = Ok (buf', i) ∧
             cstr_at buf' i = trimmed isspace isspace (str " a ")) ∧
  (∃ buf' i, trim_spaces_and_quotes_in_place (str " a " ++ [0]) = Ok (buf', i) ∧
             cstr_at buf' i = trimmed quote_lead quote_trail (str " a ")).
Proof. apply (trim_functions_correct (str " a ") []). by repeat constructor. Defined.

End Spaces.

(** ** mywildcmp: the SQL LIKE matching of the admin interface *)
Module Wild.

Definition UNDERSCORE : Z := 95.
Definition PERCENT : Z := 37.

(** [p] and [str] are the remaining pattern and subject; the end of a string is
    its terminating zero. *)
Fixpoint mywildcmp (p str : list Z) {struct p} : bool :=
  match p with
  | [] => match str with [] => true | _ :: _ => false end
  | c :: p' =>
      (fix on_str (str : list Z) : bool :=
         if (c =? UNDERSCORE) || (c =? hd 0 str) then
           match str with [] => false | _ :: str' => mywildcmp p' str' end
         else if c =? PERCENT then
           if mywildcmp p' str then true
           else match str with [] => false | _ :: str' => on_str str' end
         else false) str
  end.

(** The matching relation of LIKE: an underscore stands for one character, a
    percent sign for any sequence. *)
Inductive like : list Z → list Z → Prop :=
  | like_end : like [] []
  | like_underscore p c s : like p s → like (UNDERSCORE :: p) (c :: s)
  | like_percent_none p s : like p s → like (PERCENT :: p) s
  | like_percent_more p c s : like (PERCENT :: p) s → like (PERCENT :: p) (c :: s)
  | like_char c p s : c ≠ UNDERSCORE → c ≠ PERCENT → like p s → like (c :: p) (c :: s).
#[local] Hint Constructors like : core.

Lemma mywildcmp_percent p str :
  hd 0 str ≠ PERCENT →
  mywildcmp (PERCENT :: p) str =
  if mywildcmp p str then true
  else match str with [] => false | _ :: str' => mywildcmp (PERCENT :: p) str' end.
Proof.
  intros Hh. destruct str as [|c s]; [done|]. cbn [hd] in Hh. cbn [mywildcmp hd].
  change (PERCENT =? UNDERSCORE) with false.
  rewrite (proj2 (Z.eqb_neq PERCENT c)) by congruence. rewrite Z.eqb_refl. done.
Qed.

(** An accepted subject matches the pattern, whatever the strings. *)
Lemma mywildcmp_sound p str : no_nul p → mywildcmp p str = true → like p str.
Proof.
  intros Hp. revert str. induction Hp as [|c p Hc _ IH]; intros str; [by destruct str|].
  induction str as [|d s IHs]; cbn [mywildcmp hd].
  - rewrite (proj2 (Z.eqb_neq c 0) Hc), orb_false_r. repeat case_test; try done. intros _.
    subst. auto.
  - case_test.
    + intros H. apply orb_true_iff in E as [E|E]; zbool; subst; [auto|].
      destruct (decide (d = UNDERSCORE)) as [->|]; [auto|].
      destruct (decide (d = PERCENT)) as [->|]; auto.
    + case_test; [|done]. subst. case_test; [auto|]. intros Hm. apply like_percent_more, IHs, Hm.
Qed.

(** When the subject holds no percent sign every match is accepted too. *)
Lemma mywildcmp_complete p str :
  no_nul p → Forall (λ c, c ≠ 0 ∧ c ≠ PERCENT) str → like p str → mywildcmp p str = true.
Proof.
  intros Hp Hs Hl. induction Hl as [|p c s Hl IH|p s Hl IH|p c s Hl IH|c p s Hu Hpc Hl IH];
    try done.
  - apply Forall_cons in Hp as [? ?], Hs as [? ?]. cbn [mywildcmp]. rewrite Z.eqb_refl. auto.
  - apply Forall_cons in Hp as [_ Hp]. rewrite mywildcmp_percent, IH; [done|done|done|].
    by destruct Hs as [|? ? []].
  - apply Forall_cons in Hs as [[_ Hc] Hs]. rewrite mywildcmp_percent by done.
    rewrite IH by done. by destruct (mywildcmp p (c :: s)).
  - apply Forall_cons in Hp as [? ?], Hs as [? ?]. cbn [mywildcmp hd].
    rewrite Z.eqb_refl, orb_true_r. auto.
Qed.

(** the wildcard matcher against the LIKE relation. Whatever it accepts
    matches; on a subject without a percent sign it accepts every match; but a
    pattern that begins with a percent sign rejects subjects that begin with one
    although they match. *)
Theorem mywildcmp_correct p s :
  no_nul p →
  (mywildcmp p s = true → like p s) ∧
  (Forall (λ c, c ≠ 0 ∧ c ≠ PERCENT) s → like p s → mywildcmp p s = true) ∧
  (mywildcmp [PERCENT] [PERCENT; 97] = false ∧ like [PERCENT] [PERCENT; 97]).
Proof.
  intros Hp. split_and!; [by apply mywildcmp_sound|by apply mywildcmp_complete|done|].
  by repeat apply like_percent_more; apply like_percent_none, like_end.
Qed.

Lemma mywildcmp_correct_witness :
  (mywildcmp (str "a%c") (str "abc") = true → like (str "a%c") (str "abc")) ∧
  (Forall (λ c, c ≠ 0 ∧ c ≠ PERCENT) (str "abc") → like (str "a%c") (str "abc") →
   mywildcmp (str "a%c") (str "abc") = true) ∧
  (mywildcmp [PERCENT] [PERCENT; 97] = false ∧ like [PERCENT] [PERCENT; 97]).
Proof. apply mywildcmp_correct. by repeat constructor. Defined.

End Wild.

(** ** trim and split_string on std::string *)
Module StdStrings.

Definition blank (c : Z) : bool := (c =? 32) || (c =? 9) || (c =? 10).

(** [find_first_not_of] and [find_last_not_of]: an index, [None] for [npos]. *)
Fixpoint find_first_not_of (p : Z → bool) (s : list Z) : option nat :=
  match s with
  | [] => None
  | c :: s' => if p c then S <$> find_first_not_of p s' else Some O
  end.
Definition find_last_not_of (p : Z → bool) (s : list Z) : option nat :=
  (λ i, pred (length s) - i)%nat <$> find_first_not_of p (reverse s).

Definition trim (s : list Z) : list Z :=
  if decide (length s = O) then s
  else match find_first_not_of blank s, find_last_not_of blank s with
       | Some b, Some e => take (e - b + 1) (drop b s)
       | _, _ => []
       end.

Lemma find_first_not_of_spec p s :
  match find_first_not_of p s with
  | Some i => drop i s = drop_while p s ∧ drop_while p s ≠ [] ∧ (i < length s)%nat
  | None => drop_while p s = []
  end.
Proof.
  induction s as [|c s IH]; [done|]. simpl. destruct (p c) eqn:E.
  - destruct (find_first_not_of p s); simpl; [|done]. destruct IH as (? & ? & ?). auto with lia.
  - simpl. auto with lia.
Qed.

(** [trim] strips both ends. *)
Lemma trim_spec s : trim s = drop_while_end blank (drop_while blank s).
Proof.
  unfold trim. destruct (decide (length s = O)) as [Hl|_]; [by apply nil_length_inv in Hl as ->|].
  unfold find_last_not_of.
  pose proof (find_first_not_of_spec blank s) as H1.
  pose proof (find_first_not_of_spec blank (reverse s)) as H2.
  destruct (find_first_not_of blank s) as [b|]; [|by rewrite H1].
  destruct H1 as (Hb & Hne & Hlb).
  destruct (drop_while_suffix blank s) as (pre & Hpre & _).
  destruct (drop_while blank s) as [|c0 r0] eqn:Ed; [done|].
  apply drop_while_head in Ed as Hc0.
  assert (Hrev : drop_while blank (reverse s) =
                 drop_while blank (reverse (c0 :: r0)) ++ reverse pre).
  { rewrite Hpre, reverse_app. by apply drop_while_app, Exists_reverse_head. }
  destruct (drop_while_end_prefix blank (c0 :: r0)) as (suf & Hsuf).
  rewrite drop_while_end_cons in * by done.
  destruct (find_first_not_of blank (reverse s)) as [e|]; cbn [fmap option_fmap option_map].
  - destruct H2 as (He & _ & Hle). rewrite Hb.
    assert (Hl : length (drop_while blank (reverse (c0 :: r0))) = S (length (drop_while_end blank r0))).
    { rewrite <- (length_reverse (drop_while _ _)). fold (drop_while_end blank (c0 :: r0)).
      by rewrite drop_while_end_cons. }
    apply (f_equal length) in Hb, Hpre, Hrev. rewrite <- He in Hrev.
    rewrite length_app, ?length_drop, ?length_reverse in *.
    replace (pred (length s) - e - b + 1)%nat
      with (length (c0 :: drop_while_end blank r0)) by (cbn [length] in *; lia).
    rewrite Hsuf. apply take_app_length.
  - rewrite Hrev in H2. apply app_nil in H2 as [H2 _].
    pose proof (drop_while_end_cons blank c0 r0 Hc0) as Hd. unfold drop_while_end in Hd at 1.
    rewrite H2 in Hd. done.
Qed.

(** [std::getline] until it fails: [cur] is the token being read. *)
Fixpoint split_loop (delimiter : Z) (cur s : list Z) : list (list Z) :=
  match s with
  | [] => if decide (cur = []) then [] else [cur]
  | c :: s' =>
      if c =? delimiter then cur :: split_loop delimiter [] s'
      else split_loop delimiter (cur ++ [c]) s'
  end.

Definition split_string (s : list Z) (delimiter : Z) : list (list Z) :=
  split_loop delimiter [] s.

Lemma split_loop_token d cur w s :
  Forall (λ c, c ≠ d) w → split_loop d cur (w ++ d :: s) = (cur ++ w) :: split_loop d [] s.
Proof.
  intros Hw. revert cur. induction Hw as [|c w Hc _ IH]; intros cur; simpl.
  - by rewrite Z.eqb_refl, app_nil_r.
  - rewrite (proj2 (Z.eqb_neq c d) Hc), IH. by rewrite <- app_assoc.
Qed.

Lemma split_loop_last d cur w :
  Forall (λ c, c ≠ d) w → cur ++ w ≠ [] → split_loop d cur w = [cur ++ w].
Proof.
  intros Hw. revert cur. induction Hw as [|c w Hc _ IH]; intros cur Hne; simpl.
  - rewrite app_nil_r in *. by rewrite decide_False.
  - rewrite (proj2 (Z.eqb_neq c d) Hc), IH by (rewrite <- app_assoc; by destruct cur).
    by rewrite <- app_assoc.
Qed.

(** Splitting what was joined gives the tokens back, when the last one is not
    empty: an empty last token is not reported. *)
Lemma split_join d ws w :
  Forall (Forall (λ c, c ≠ d)) (ws ++ [w]) → w ≠ [] →
  split_string (join [d] (ws ++ [w])) d = ws ++ [w].
Proof.
  unfold split_string. intros Hws Hw. induction ws as [|x ws IH].
  - apply Forall_cons in Hws as [Hw' _]. by apply (split_loop_last d [] w).
  - apply Forall_cons in Hws as [Hx Hws].
    assert (Hj : join [d] ((x :: ws) ++ [w]) = x ++ d :: join [d] (ws ++ [w])) by (by destruct ws).
    rewrite Hj, split_loop_token by done. by rewrite IH.
Qed.

(** splitting undoes joining. Tokens joined by a delimiter none of them
    contains are given back by [split_string], in order and empty ones included,
    as long as the last one is not empty. *)
Theorem split_string_roundtrip d ws w :
  Forall (Forall (λ c, c ≠ d)) (ws ++ [w]) → w ≠ [] →
  split_string (join [d] (ws ++ [w])) d = ws ++ [w].
Proof. apply split_join. Qed.

Lemma split_string_roundtrip_witness :
  split_string (join [44] ([str "a"; []] ++ [str "b"])) 44 = [str "a"; []] ++ [str "b"].
Proof. apply split_string_roundtrip; [by repeat constructor|done]. Defined.

End StdStrings.
