(* ===== verification/CNumbers.v ===== *)
(** * Numbers as text: strtoull, %lu and hexadecimal formatting

    The conversions of the C library between numbers and text. *)
From S2P Require Import Prelude StringUtils.

Definition hex_val (c : Z) : option Z :=
  if isdigit c then Some (c - 48)
  else if (65 <=? c) && (c <=? 70) then Some (c - 55)
  else if (97 <=? c) && (c <=? 102) then Some (c - 87)
  else None.
Definition digit_of (base c : Z) : option Z := hex_val c ≫= λ d, if d <? base then Some d else None.

(** The value of the digits at the start of a string, on top of [acc]. *)
Fixpoint number_in (base acc : Z) (s : list Z) : Z :=
  match s with
  | [] => acc
  | c :: s' => match digit_of base c with Some d => number_in base (base * acc + d) s' | None => acc end
  end.

Definition ULLONG_MAX : Z := 2 ^ 64 - 1.

(** [strtoull(s, NULL, 0)]: the base is 16 after [0x], 8 after [0], else 10. *)
Definition strtoull (s : list Z) : Z :=
  let s := drop_while isspace s in
  let '(neg, s) := match s with
                   | c :: r => if c =? 45 then (true, r) else if c =? 43 then (false, r) else (false, s)
                   | [] => (false, s) end in
  let v := match s with
           | a :: b :: c :: r =>
               if (a =? 48) && ((b =? 120) || (b =? 88)) && bool_decide (is_Some (hex_val c)) then number_in 16 0 (c :: r)
               else if a =? 48 then number_in 8 0 s else number_in 10 0 s
           | a :: _ => if a =? 48 then number_in 8 0 s else number_in 10 0 s
           | [] => 0
           end in
  if ULLONG_MAX <? v then ULLONG_MAX else if neg then u64 (- v) else v.

(** [%016llX] *)
Definition hex_upper (d : Z) : Z := if d <? 10 then 48 + d else 55 + d.
Fixpoint hex_digits (n : nat) (v : Z) : list Z :=
  match n with O => [] | S n' => hex_digits n' (v / 16) ++ [hex_upper (v mod 16)] end.
(** [sprintf("0x%016llX")] *)
Definition hex16 (v : Z) : list Z := str "0x" ++ hex_digits 16 v.

Lemma digit_of_upper d : 0 <= d < 16 → digit_of 16 (hex_upper d) = Some d ∧ hex_val (hex_upper d) = Some d.
Proof.
  intros Hd. assert (hex_val (hex_upper d) = Some d) as E.
  { unfold hex_val, hex_upper, isdigit. destruct (Z.ltb_spec d 10).
    - rewrite (proj2 (Z.leb_le 48 (48 + d))), (proj2 (Z.leb_le (48 + d) 57)) by lia. cbn. f_equal. lia.
    - rewrite (proj2 (Z.leb_le 48 (55 + d))), (proj2 (Z.leb_gt (55 + d) 57)) by lia.
      rewrite (proj2 (Z.leb_le 65 (55 + d))), (proj2 (Z.leb_le (55 + d) 70)) by lia. cbn. f_equal. lia. }
  unfold digit_of. rewrite E. cbn [mbind option_bind]. by rewrite (proj2 (Z.ltb_lt d 16)) by lia.
Qed.

Lemma number_in_digits n v acc s : 0 <= v → (∀ c r, s = c :: r → digit_of 16 c = None) →
  number_in 16 acc (hex_digits n v ++ s) = acc * 16 ^ Z.of_nat n + v mod 16 ^ Z.of_nat n.
Proof.
  intros Hv Hs. revert v acc s Hv Hs. induction n as [|n IH]; intros v acc s Hv Hs.
  - change (16 ^ Z.of_nat 0) with 1. rewrite Z.mod_1_r, Z.mul_1_r, Z.add_0_r. destruct s as [|c s]; [done|]. cbn [hex_digits app number_in].
    by rewrite (Hs c s eq_refl).
  - cbn [hex_digits]. rewrite <- app_assoc. assert (∀ k m acc t, 0 <= m → (k <= n)%nat →
      number_in 16 acc (hex_digits k m ++ t) = number_in 16 (acc * 16 ^ Z.of_nat k + m mod 16 ^ Z.of_nat k) t) as H.
    { clear. intros k. induction k as [|k IH]; intros m acc t Hm Hk; [change (16 ^ Z.of_nat 0) with 1; by rewrite Z.mod_1_r, Z.mul_1_r, Z.add_0_r|].
      cbn [hex_digits]. rewrite <- app_assoc, IH by (try lia; by apply Z.div_pos). cbn [app number_in].
      rewrite (proj1 (digit_of_upper (m mod 16) (Z.mod_pos_bound m 16 ltac:(lia)))). f_equal.
      rewrite Nat2Z.inj_succ, Z.pow_succ_r by lia. rewrite (Z.rem_mul_r m 16 (16 ^ Z.of_nat k)) by lia. lia. }
    rewrite H by (try lia; by apply Z.div_pos). cbn [app number_in].
    rewrite (proj1 (digit_of_upper (v mod 16) (Z.mod_pos_bound v 16 ltac:(lia)))).
    rewrite Nat2Z.inj_succ, Z.pow_succ_r by lia. rewrite (Z.rem_mul_r v 16 (16 ^ Z.of_nat n)) by lia.
    destruct s as [|c s]; cbn [number_in]; [lia|]. rewrite (Hs c s eq_refl). lia.
Qed.

(** A digest survives the trip through its text. *)
Lemma strtoull_hex16 v : 0 <= v < 2 ^ 64 → strtoull (hex16 v) = v.
Proof.
  intros Hv. unfold strtoull, hex16. change (str "0x") with [48; 120]. cbn [app].
  assert (hex_digits 16 v ≠ []) as Hne by done.
  destruct (hex_digits 16 v) as [|c r] eqn:E; [done|]. assert (is_Some (hex_val c)) as Hc.
  { assert (∀ n v c r, 0 <= v → hex_digits n v = c :: r → is_Some (hex_val c)) as H; [|by apply (H 16%nat v c r); [lia|]].
    clear. intros n. induction n as [|n IH]; intros v c r Hv H; [done|]. cbn in H. destruct (hex_digits n (v / 16)) as [|c' r'] eqn:E.
    - cbn in H. injection H as <- _. exists (v mod 16). apply digit_of_upper, Z.mod_pos_bound. lia.
    - injection H as <- _. apply (IH (v / 16) c' r'); [by apply Z.div_pos | done]. }
  cbv beta iota zeta delta [drop_while]. change (isspace 48) with false. cbv beta iota.
  change (48 =? 45) with false. change (48 =? 43) with false. cbv beta iota. change ((48 =? 48) && ((120 =? 120) || (120 =? 88))) with true. cbn [andb].
  rewrite bool_decide_true by done. rewrite <- E. rewrite <- (app_nil_r (hex_digits 16 v)), number_in_digits by (done || lia).
  change (16 ^ Z.of_nat 16) with (2 ^ 64). rewrite Z.mod_small by lia. unfold ULLONG_MAX. by rewrite (proj2 (Z.ltb_ge _ _)) by lia.
Qed.

Lemma hex_val_nonneg c d : hex_val c = Some d → 0 <= d.
Proof. unfold hex_val, isdigit. repeat case_test; intros [= <-]; lia. Qed.
Lemma number_in_nonneg base acc s : 0 <= base → 0 <= acc → 0 <= number_in base acc s.
Proof.
  intros Hb. revert acc. induction s as [|c s IH]; intros acc Ha; [done|]. cbn [number_in]. unfold digit_of.
  destruct (hex_val c) as [d|] eqn:E; cbn [mbind option_bind]; [|done]. destruct (d <? base); [|done]. apply IH. apply hex_val_nonneg in E. nia.
Qed.
Lemma strtoull_range s : 0 <= strtoull s <= ULLONG_MAX.
Proof.
  unfold strtoull. set (w := drop_while isspace s). clearbody w. cbn zeta.
  set (ns := match w with [] => (false, w) | _ => _ end). destruct ns as [neg t].
  set (v := match t with [] => 0 | _ => _ end).
  assert (0 <= v) as Hv.
  { unfold v. destruct t as [|a [|b [|c t]]]; [done|..]; repeat case_test; apply number_in_nonneg; lia. }
  clearbody v. destruct (Z.ltb_spec ULLONG_MAX v); [unfold ULLONG_MAX; lia|]. destruct neg; [|lia].
  pose proof (u64_range (- v)). unfold ULLONG_MAX. lia.
Qed.

(** [strtoul]-style conversion in base 10, as [%lu] reads it: blanks, a sign,
    digits; a value past the type saturates, a minus sign negates modulo 2^64. *)
Definition scan_lu (s : list Z) : option (Z * list Z) :=
  let s := drop_while isspace s in
  let '(neg, s) := match s with
                   | c :: r => if c =? 45 then (true, r) else if c =? 43 then (false, r) else (false, s)
                   | [] => (false, s) end in
  let '(ds, rest) := span isdigit s in
  match ds with
  | [] => None
  | _ => let v := digits_value ds in
         Some (if 2 ^ 64 <=? v then 2 ^ 64 - 1 else if neg then u64 (- v) else v, rest)
  end.

Lemma scan_lu_dec n rest :
  0 <= n < 2 ^ 64 → (∀ c, head rest = Some c → isdigit c = false) →
  scan_lu (dec n ++ rest) = Some (n, rest).
Proof.
  intros Hn Hrest. destruct (dec_head n) as (c & r & Hd & Hc).
  pose proof (dec_isdigit n) as Hdig. pose proof (digits_value_dec n ltac:(lia)) as Hval.
  rewrite Hd in *. unfold scan_lu. cbn [app drop_while].
  destruct (isspace c) eqn:E; [unfold isspace in E; lia|].
  rewrite (proj2 (Z.eqb_neq c 45)), (proj2 (Z.eqb_neq c 43)) by lia.
  change (c :: (r ++ rest)) with ((c :: r) ++ rest).
  rewrite span_app, Hval by done. by rewrite (proj2 (Z.leb_gt _ _)) by lia.
Qed.
