(* ===== verification/Encode.v ===== *)
(** * Length-encoded integers and password scrambling (lib/MySQL_encode.cpp)

    The two encodings of MySQL's wire protocol the rest of the code builds on:
    integers prefixed by their width, and the challenge-response of the native
    password plugin.  SHA1 comes from OpenSSL: it is a class whose instances give
    a 20-byte digest, and nothing else is assumed of it. *)
From S2P Require Import Prelude.

(** ** Length-encoded integers *)
Module LenEnc.

(** Reads [n] bytes at the start of [p], as [memcpy] does. *)
Definition read_bytes (n : nat) (p : list Z) : outcome (list Z) :=
  if (length p <? n)%nat then Fault OutOfBounds else Ok (take n p).

Definition CPY1 (p : list Z) : outcome Z := le_value <$> read_bytes 1 p.
Definition CPY2 (p : list Z) : outcome Z := le_value <$> read_bytes 2 p.
(** [CPY3] loads four bytes and clears the last one. *)
Definition CPY3 (p : list Z) : outcome Z :=
  (λ b, le_value (<[3%nat := 0]> b)) <$> read_bytes 4 p.
Definition CPY8 (p : list Z) : outcome Z := le_value <$> read_bytes 8 p.

(** The width of the field, 0 for an invalid first byte, and the value written
    to [*len]; [want] says whether [len] is not null. *)
Definition mysql_decode_length (p : list Z) (want : bool) : outcome (Z * option Z) :=
  c ← read_at p 0;
  let value (get : outcome Z) : outcome (option Z) :=
    if want then Some <$> get else Ok None in
  if c <=? 251 then v ← value (CPY1 p); Ok (1, v)
  else if c =? 252 then v ← value (CPY2 (drop 1 p)); Ok (3, v)
  else if c =? 253 then v ← value (CPY3 (drop 1 p)); Ok (4, v)
  else if c =? 254 then v ← value (CPY8 (drop 1 p)); Ok (9, v)
  else Ok (0, None).

(** The width of the field and the prefix byte written to [*hd], if any. *)
Definition mysql_encode_length (len : Z) : Z * option Z :=
  if len <? 251 then (1, None)
  else if len <? 65536 then (3, Some 252)
  else if len <? 16777216 then (4, Some 253)
  else (9, Some 254).

(** The bytes written at [p]; their number is the value returned.  The little
    end of the 64-bit [val] is copied after the prefix. *)
Definition write_encoded_length (val len prefix : Z) : outcome (list Z) :=
  if len =? 1 then Ok [u8 val]
  else b ← read_bytes (Z.to_nat (len - 1)) (le_bytes 8 val); Ok (prefix :: b).

Definition write_encoded_length_and_string (val len prefix : Z) (string_ : list Z)
  : outcome (list Z) :=
  l ← write_encoded_length val len prefix;
  s ← (if val =? 0 then Ok [] else read_bytes (Z.to_nat val) string_);
  Ok (l ++ s).

(** What the callers write for a value: the prefix is the byte the width
    computation left behind. *)
Definition encoded (val : Z) : outcome (list Z) :=
  let '(w, hd) := mysql_encode_length val in
  write_encoded_length val w (default 0 hd).

Lemma read_bytes_app n (b rest : list Z) :
  length b = n → read_bytes n (b ++ rest) = Ok b.
Proof.
  intros <-. unfold read_bytes. rewrite length_app.
  destruct (Nat.ltb_spec (length b + length rest) (length b)); [lia|].
  by rewrite take_app_length.
Qed.

Lemma take_le_bytes (k n : nat) v : (k <= n)%nat → take k (le_bytes n v) = le_bytes k v.
Proof.
  revert n v; induction k as [|k IH]; intros n v Hk; [by rewrite take_0|].
  destruct n as [|n]; [lia|]. simpl. by rewrite IH by lia.
Qed.

Lemma read_le_bytes (k : nat) v : (k <= 8)%nat → read_bytes k (le_bytes 8 v) = Ok (le_bytes k v).
Proof.
  intros Hk. unfold read_bytes. rewrite le_bytes_length.
  destruct (Nat.ltb_spec 8 k); [lia|]. by rewrite take_le_bytes.
Qed.

Lemma read_le_value (n : nat) v rest :
  0 <= v < 256 ^ Z.of_nat n →
  le_value <$> read_bytes n (le_bytes n v ++ rest) = Ok v.
Proof.
  intros Hv. rewrite read_bytes_app by apply le_bytes_length. simpl.
  by rewrite le_value_bytes_small.
Qed.

Lemma CPY3_value v (rest : list Z) :
  0 <= v < 256 ^ 3 → rest ≠ [] → CPY3 (le_bytes 3 v ++ rest) = Ok v.
Proof.
  intros Hv Hne. destruct rest as [|x rest]; [done|]. unfold CPY3.
  change (le_bytes 3 v ++ x :: rest) with (le_bytes 3 v ++ [x] ++ rest).
  rewrite app_assoc, read_bytes_app by (by rewrite length_app, le_bytes_length).
  cbn [fmap outcome_fmap]. f_equal. rewrite <- (le_value_bytes_small 3 v) at 2 by done.
  cbn -[Z.modulo Z.div Z.mul]. lia.
Qed.

Lemma decode_cons c p :
  mysql_decode_length (c :: p) true =
  if c <=? 251 then v ← CPY1 (c :: p); Ok (1, Some v)
  else if c =? 252 then v ← CPY2 p; Ok (3, Some v)
  else if c =? 253 then v ← CPY3 p; Ok (4, Some v)
  else if c =? 254 then v ← CPY8 p; Ok (9, Some v)
  else Ok (0, None).
Proof.
  unfold mysql_decode_length. change (drop 1 (c :: p)) with p.
  rewrite (proj2 (read_at_Some _ _ c)) by done. cbn [mbind outcome_bind].
  by destruct (CPY1 (c :: p)), (CPY2 p), (CPY3 p), (CPY8 p).
Qed.

(** Decoding what was encoded gives the value and the number of bytes it took;
    the three-byte form needs one more readable byte after it. *)
Lemma decode_encoded val rest :
  is_u64 val → rest ≠ [] →
  ∃ b, encoded val = Ok b ∧ Z.of_nat (length b) = (mysql_encode_length val).1 ∧
       mysql_decode_length (b ++ rest) true = Ok (Z.of_nat (length b), Some val).
Proof.
  intros Hv Hr. unfold encoded, mysql_encode_length.
  repeat case_test; cbn [default fst snd]; unfold write_encoded_length.
  - eexists; split; [done|]. split; [done|]. cbn [app length]. rewrite u8_small by lia.
    unfold mysql_decode_length. cbn [read_at]. rewrite (proj2 (read_at_Some _ _ val)) by done.
    cbn [mbind outcome_bind]. rewrite (proj2 (Z.leb_le val 251)) by lia.
    unfold CPY1, read_bytes. cbn -[Z.mul Z.add].
    rewrite take_0. cbn [le_value]. repeat f_equal. lia.
  - change (3 =? 1) with false. change (Z.to_nat (3 - 1)) with 2%nat. rewrite read_le_bytes by lia.
    eexists; split; [done|]. split; [done|].
    cbn [app id length]. rewrite decode_cons. cbn [Z.leb Z.eqb Z.compare Pos.compare Pos.compare_cont Pos.eqb]. unfold CPY2. rewrite read_le_value by lia. done.
  - change (4 =? 1) with false. change (Z.to_nat (4 - 1)) with 3%nat. rewrite read_le_bytes by lia.
    eexists; split; [done|]. split; [done|].
    cbn [app id length]. rewrite decode_cons. cbn [Z.leb Z.eqb Z.compare Pos.compare Pos.compare_cont Pos.eqb]. rewrite CPY3_value by (done || lia). done.
  - change (9 =? 1) with false. change (Z.to_nat (9 - 1)) with 8%nat. rewrite read_le_bytes by lia.
    eexists; split; [done|]. split; [done|].
    cbn [app id length]. rewrite decode_cons. cbn [Z.leb Z.eqb Z.compare Pos.compare Pos.compare_cont Pos.eqb]. unfold CPY8. rewrite read_le_value by lia. done.
Qed.

(** A three-byte field at the very end of the readable memory is read past its
    end. *)
Lemma decode_three_overread val :
  65536 <= val < 16777216 →
  ∃ b, encoded val = Ok b ∧ length b = 4%nat ∧
       mysql_decode_length b true = Fault OutOfBounds.
Proof.
  intros Hv. unfold encoded, mysql_encode_length. repeat case_test; try lia.
  cbn [default fst snd]. unfold write_encoded_length.
  change (4 =? 1) with false. change (Z.to_nat (4 - 1)) with 3%nat. rewrite read_le_bytes by lia.
  eexists; split; [done|]. done.
Qed.

(** length-encoded integers survive the wire. Every 64-bit value is written
    in the number of bytes [mysql_encode_length] announces, and decoding what
    was written gives the value and that number of bytes, when at least one more
    byte of the packet follows. *)
Theorem lenenc_roundtrip val rest :
  is_u64 val → rest ≠ [] →
  ∃ b, encoded val = Ok b ∧ Z.of_nat (length b) = (mysql_encode_length val).1 ∧
       mysql_decode_length (b ++ rest) true = Ok (Z.of_nat (length b), Some val).
Proof. apply decode_encoded. Qed.

Lemma lenenc_roundtrip_witness :
  ∃ b, encoded 70000 = Ok b ∧ Z.of_nat (length b) = (mysql_encode_length 70000).1 ∧
       mysql_decode_length (b ++ [1]) true = Ok (Z.of_nat (length b), Some 70000).
Proof. apply lenenc_roundtrip; [lia|done]. Defined.

(** the three-byte form is decoded with a four-byte load: when the field is
    the last thing in the readable memory the decoder reads past its end, for
    every value the encoder writes in that form. *)
Theorem lenenc_three_overread val :
  65536 <= val < 16777216 →
  ∃ b, encoded val = Ok b ∧ length b = 4%nat ∧ mysql_decode_length b true = Fault OutOfBounds.
Proof. apply decode_three_overread. Qed.

Lemma lenenc_three_overread_witness :
  ∃ b, encoded 70000 = Ok b ∧ length b = 4%nat ∧ mysql_decode_length b true = Fault OutOfBounds.
Proof. apply lenenc_three_overread. lia. Defined.

End LenEnc.

(** ** Password scrambling *)

(** What the code relies on of OpenSSL's SHA1: a digest is 20 bytes. *)
Class Sha1 := {
  sha1 : list Z → list Z;
  sha1_length m : length (sha1 m) = 20%nat;
  sha1_bytes m : is_bytes (sha1 m) = true;
}.

Module Scramble.

Definition SHA_DIGEST_LENGTH : nat := 20.
Definition SCRAMBLE_LENGTH : nat := 20.

(** [sprintf("%02x")] of one byte. *)
Definition hex_digit (n : Z) : Z := if n <? 10 then 48 + n else 87 + n.
Definition hex_byte (a : Z) : list Z := [hex_digit (a / 16); hex_digit (a mod 16)].

(** The string returned for a 20-byte digest; [None] is the null pointer. *)
Definition sha1_pass_hex (sha1_pass : option (list Z)) : outcome (option (list Z)) :=
  match sha1_pass with
  | None => Ok None
  | Some p =>
      b ← LenEnc.read_bytes SHA_DIGEST_LENGTH p;
      Ok (Some (42 :: concat (hex_byte <$> b)))
  end.

Definition decode_char (x : Z) : Z :=
  if (48 <=? x) && (x <=? 57) then x - 48
  else if (65 <=? x) && (x <=? 70) then x - 55
  else if (97 <=? x) && (x <=? 102) then x - 87
  else 0.

Fixpoint unhex_loop (n : nat) (in_ : list Z) : outcome (list Z) :=
  match n with
  | O => Ok []
  | S n' =>
      match in_ with
      | h :: l :: in' =>
          out ← unhex_loop n' in';
          Ok (u8 (Z.land (u8 (decode_char h * 16)) 240 + Z.land (decode_char l) 15) :: out)
      | _ => Fault OutOfBounds
      end
  end.
Definition unhex_pass (in_ : list Z) : outcome (list Z) := unhex_loop SHA_DIGEST_LENGTH in_.

Fixpoint proxy_my_crypt (len : nat) (s1 s2 : list Z) : outcome (list Z) :=
  match len with
  | O => Ok []
  | S len' =>
      match s1, s2 with
      | a :: s1', b :: s2' => r ← proxy_my_crypt len' s1' s2'; Ok (Z.lxor a b :: r)
      | _, _ => Fault OutOfBounds
      end
  end.

(** The loop that makes a random salt printable: [RAND_bytes] succeeded. *)
Definition printable_salt (random : list Z) : list Z :=
  (λ c, let c := if 127 <? c then c - 128 else c in if c =? 0 then 97 else c) <$> random.

Section Scrambling.
Context `{Sha1}.

Definition proxy_compute_sha1_hash (buf : list Z) : list Z := sha1 buf.
Definition proxy_compute_sha1_hash_multi (buf1 buf2 : list Z) : list Z := sha1 (buf1 ++ buf2).

Definition proxy_compute_two_stage_sha1_hash (password : list Z) : list Z * list Z :=
  let hash_stage1 := proxy_compute_sha1_hash password in
  (hash_stage1, proxy_compute_sha1_hash hash_stage1).

(** The client's answer to the challenge [message]. *)
Definition proxy_scramble (message password : list Z) : outcome (list Z) :=
  let '(hash_stage1, hash_stage2) := proxy_compute_two_stage_sha1_hash password in
  m ← LenEnc.read_bytes SCRAMBLE_LENGTH message;
  proxy_my_crypt SCRAMBLE_LENGTH (proxy_compute_sha1_hash_multi m hash_stage2) hash_stage1.

(** The check of the answer [pass_reply] against the stored double hash (in
    hexadecimal): the SHA1 of the password when it is accepted. *)
Definition proxy_scramble_sha1 (pass_reply message sha1_sha1_pass : list Z)
  : outcome (option (list Z)) :=
  hash_stage2 ← unhex_pass sha1_sha1_pass;
  m ← LenEnc.read_bytes SCRAMBLE_LENGTH message;
  let to := proxy_compute_sha1_hash_multi m hash_stage2 in
  hash_stage1 ← proxy_my_crypt SCRAMBLE_LENGTH pass_reply to;
  let hash_stage3 := proxy_compute_sha1_hash hash_stage1 in
  Ok (if decide (hash_stage2 = hash_stage3) then Some hash_stage1 else None).

End Scrambling.

Lemma hex_digit_decode n : 0 <= n < 16 → decode_char (hex_digit n) = n.
Proof.
  intros Hn. unfold hex_digit. destruct (Z.ltb_spec n 10); unfold decode_char;
    repeat case_test; try lia;
    repeat match goal with H : _ && _ = false |- _ => apply andb_false_iff in H as [H|H] end;
    zbool; lia.
Qed.

Lemma land_240 x : 0 <= x < 16 → Z.land (u8 (x * 16)) 240 = x * 16.
Proof.
  intros Hx. rewrite u8_small by lia.
  assert (H : ∀ n : nat, (n < 16)%nat → Z.land (Z.of_nat n * 16) 240 = Z.of_nat n * 16).
  { intros n Hn. do 16 (destruct n as [|n]; [done|]). lia. }
  specialize (H (Z.to_nat x)). rewrite Z2Nat.id in H by lia. apply H. lia.
Qed.

Lemma unhex_hex_loop b rest :
  is_bytes b = true → unhex_loop (length b) (concat (hex_byte <$> b) ++ rest) = Ok b.
Proof.
  induction b as [|a b IH]; [done|]. rewrite is_bytes_cons. intros [Ha Hb].
  cbn [length fmap list_fmap concat app hex_byte unhex_loop]. rewrite IH by done.
  cbn [mbind outcome_bind]. do 2 f_equal.
  pose proof (Z.div_pos a 16). pose proof (Z.div_lt_upper_bound a 16 16).
  pose proof (Z.mod_pos_bound a 16). rewrite !hex_digit_decode by lia.
  rewrite land_240 by lia. change 15 with (Z.ones 4). rewrite Z.land_ones by lia.
  change (2 ^ 4) with 16. rewrite Z.mod_mod, u8_small by (Z.to_euclidean_division_equations; lia).
  Z.to_euclidean_division_equations; lia.
Qed.

(** The hexadecimal form of a digest is read back, past its leading star. *)
Lemma unhex_sha1_pass_hex d :
  is_bytes d = true → length d = SHA_DIGEST_LENGTH →
  ∃ h, sha1_pass_hex (Some d) = Ok (Some (42 :: h)) ∧ unhex_pass h = Ok d.
Proof.
  intros Hb Hl. exists (concat (hex_byte <$> d)). split.
  - unfold sha1_pass_hex, LenEnc.read_bytes. rewrite Hl, Nat.ltb_irrefl. cbn [mbind outcome_bind].
    by rewrite take_ge by lia.
  - unfold unhex_pass. rewrite <- Hl, <- (app_nil_r (concat _)). by apply unhex_hex_loop.
Qed.

Lemma proxy_my_crypt_xor n s1 s2 :
  length s1 = n → length s2 = n → proxy_my_crypt n s1 s2 = Ok (zip_with Z.lxor s1 s2).
Proof.
  revert s1 s2; induction n as [|n IH]; intros [|a s1] [|b s2] H1 H2; try done.
  simpl in *. rewrite IH by lia. done.
Qed.

Lemma zip_lxor_invol s1 s2 :
  length s1 = length s2 → zip_with Z.lxor (zip_with Z.lxor s1 s2) s1 = s2.
Proof.
  revert s2; induction s1 as [|a s1 IH]; intros [|b s2] Hl; try done. simpl in *.
  rewrite IH by lia. f_equal. rewrite (Z.lxor_comm a b), Z.lxor_assoc, Z.lxor_nilpotent.
  apply Z.lxor_0_r.
Qed.

Lemma printable_salt_spec r :
  is_bytes r = true → Forall (λ c, 0 < c <= 127) (printable_salt r).
Proof.
  induction r as [|c r IH]; [constructor|]. rewrite is_bytes_cons. intros [Hc Hr].
  cbn [printable_salt fmap list_fmap]. constructor; [|auto]. cbv zeta.
  destruct (Z.ltb_spec 127 c); case_test; lia.
Qed.

Section Auth.
Context `{Sha1}.

Lemma scramble_digest_lengths m p :
  length (sha1 m) = SCRAMBLE_LENGTH ∧ length (sha1 p) = SCRAMBLE_LENGTH.
Proof. split; apply sha1_length. Qed.

(** The answer computed from the right password is accepted, and the check
    recovers the SHA1 of that password. *)
Lemma scramble_accepted message password h :
  (20 <= length message)%nat →
  sha1_pass_hex (Some (sha1 (sha1 password))) = Ok (Some (42 :: h)) →
  ∃ reply, proxy_scramble message password = Ok reply ∧
           proxy_scramble_sha1 reply message h = Ok (Some (sha1 password)).
Proof.
  intros Hm Hh. unfold proxy_scramble, proxy_scramble_sha1,
    proxy_compute_two_stage_sha1_hash.
  assert (Hread : LenEnc.read_bytes SCRAMBLE_LENGTH message = Ok (take 20 message)).
  { unfold LenEnc.read_bytes, SCRAMBLE_LENGTH.
    destruct (Nat.ltb_spec (length message) 20); [lia|done]. }
  rewrite Hread. cbn [mbind outcome_bind].
  rewrite proxy_my_crypt_xor by apply sha1_length. eexists; split; [done|].
  destruct (unhex_sha1_pass_hex (sha1 (sha1 password))) as (h' & Hh' & Hun);
    [apply sha1_bytes|apply sha1_length|].
  rewrite Hh in Hh'. injection Hh' as <-. rewrite Hun. cbn [mbind outcome_bind].
  unfold proxy_compute_sha1_hash_multi, proxy_compute_sha1_hash.
  rewrite proxy_my_crypt_xor
    by (rewrite ?length_zip_with, !sha1_length; done).
  cbn [mbind outcome_bind]. rewrite zip_lxor_invol by (by rewrite !sha1_length).
  by rewrite decide_True.
Qed.

(** An accepted answer proves knowledge of a preimage of the stored hash: the
    value it carries hashes to it. *)
Lemma scramble_sound reply message h stage1 :
  proxy_scramble_sha1 reply message h = Ok (Some stage1) →
  unhex_pass h = Ok (sha1 stage1).
Proof.
  unfold proxy_scramble_sha1. intros Hs. inv_ok.
  revert Hs. destruct (decide _) as [->|]; [|done]. by intros [= ->].
Qed.

(** native password authentication. With the double hash of a password
    stored in hexadecimal, the answer the client side computes from that
    password is accepted and yields the SHA1 of the password; and an answer is
    accepted only if the value it carries hashes to the stored double hash. *)
Theorem native_auth_correct message password h reply stage1 :
  (20 <= length message)%nat →
  sha1_pass_hex (Some (sha1 (sha1 password))) = Ok (Some (42 :: h)) →
  (∃ r, proxy_scramble message password = Ok r ∧
        proxy_scramble_sha1 r message h = Ok (Some (sha1 password))) ∧
  (proxy_scramble_sha1 reply message h = Ok (Some stage1) → sha1 stage1 = sha1 (sha1 password)).
Proof.
  intros Hm Hh. split; [by apply scramble_accepted|]. intros Hs. apply scramble_sound in Hs.
  destruct (unhex_sha1_pass_hex (sha1 (sha1 password))) as (h' & Hh' & Hun);
    [apply sha1_bytes|apply sha1_length|].
  rewrite Hh in Hh'. injection Hh' as <-. congruence.
Qed.

End Auth.

(** A concrete digest function, to evaluate the definitions with. *)
Definition toy_digest (m : list Z) : list Z := replicate 20 (u8 (foldr Z.add 7 m)).

Lemma toy_digest_bytes m : is_bytes (toy_digest m) = true.
Proof.
  unfold toy_digest. pose proof (u8_range (foldr Z.add 7 m)).
  generalize 20%nat; intros k; induction k as [|n IH]; [done|]. cbn [replicate]. apply is_bytes_cons. split; [lia|done].
Qed.

Definition toy_sha1 : Sha1 := {| sha1 := toy_digest; sha1_length m := length_replicate 20 _;
                                 sha1_bytes := toy_digest_bytes |}.

Lemma native_auth_correct_witness :
  let H := toy_sha1 in let h := concat (hex_byte <$> sha1 (sha1 (str "secret"))) in
  (∃ r, proxy_scramble (replicate 20 5) (str "secret") = Ok r ∧
        proxy_scramble_sha1 r (replicate 20 5) h = Ok (Some (sha1 (str "secret")))) ∧
  (proxy_scramble_sha1 (replicate 20 1) (replicate 20 5) h = Ok (Some (str "x")) →
   sha1 (str "x") = sha1 (sha1 (str "secret"))).
Proof.
  intros H h. apply native_auth_correct; [vm_compute; lia|vm_compute; reflexivity].
Defined.

(** stored hashes and salts. The hexadecimal form of a digest, without its
    star, is read back to the same digest; and the salt sent to the client is
    made of printable non-zero 7-bit characters, whatever the random bytes. *)
Theorem hash_storage_roundtrip d r :
  is_bytes d = true → length d = SHA_DIGEST_LENGTH → is_bytes r = true →
  (∃ h, sha1_pass_hex (Some d) = Ok (Some (42 :: h)) ∧ unhex_pass h = Ok d) ∧
  Forall (λ c, 0 < c <= 127) (printable_salt r).
Proof. intros. split; [by apply unhex_sha1_pass_hex|by apply printable_salt_spec]. Qed.

Lemma hash_storage_roundtrip_witness :
  (∃ h, sha1_pass_hex (Some (replicate 20 200)) = Ok (Some (42 :: h)) ∧
        unhex_pass h = Ok (replicate 20 200)) ∧
  Forall (λ c, 0 < c <= 127) (printable_salt [0; 128; 255]).
Proof. apply hash_storage_roundtrip; reflexivity. Defined.

End Scramble.
