(* ===== verification/Gtid.v ===== *)
(** * GTID tracking (lib/GTID_Server_Data.cpp, include/proxysql_gtid.h)

    [Intervals] is the set of executed transactions of one server: for each
    server UUID a list of intervals.  The stream that fills it is decoded in
    [GtidReader]. *)
From S2P Require Import Prelude.

Module Intervals.

Abbreviation interval := (Z * Z)%type.
Abbreviation gtid_set := (gmap (list Z) (list (Z * Z))).

(** How the first loop of [addGtid] leaves the list of the UUID. *)
Inductive scanned :=
  | Present                          (* return: already in an interval *)
  | Inserted (l : list (Z * Z))      (* return: a new interval before the iterator *)
  | Extended (l : list (Z * Z))      (* break: an interval grew by one *)
  | NotFound.                        (* the loop ended with [flag] set *)

Definition scan_cons (i : Z * Z) (r : scanned) : scanned :=
  match r with
  | Present => Present
  | Inserted l => Inserted (i :: l)
  | Extended l => Extended (i :: l)
  | NotFound => NotFound
  end.

Fixpoint add_scan (t : Z) (l : list (Z * Z)) : scanned :=
  match l with
  | [] => NotFound
  | (a, b) :: r =>
      if (a <=? t) && (t <=? b) then Present
      else if i64 (t + 1) =? a then Extended ((i64 (a - 1), b) :: r)
      else if t =? i64 (b + 1) then Extended ((a, i64 (b + 1)) :: r)
      else if t <? a then Inserted ((t, t) :: (a, b) :: r)
      else scan_cons (a, b) (add_scan t r)
  end.

(** The second loop: the first two neighbours that touch become one interval. *)
Fixpoint merge_first (l : list (Z * Z)) : list (Z * Z) :=
  match l with
  | x :: (y :: r) as l' =>
      if i64 (x.2 + 1) =? y.1 then (x.1, y.2) :: r else x :: merge_first l'
  | _ => l
  end.

Definition add_interval (t : Z) (l : list (Z * Z)) : list (Z * Z) :=
  match add_scan t l with
  | Present => l
  | Inserted l' => l'
  | Extended l' => merge_first l'
  | NotFound => merge_first (l ++ [(t, t)])
  end.

Definition addGtid (gtid : list Z * Z) (gtid_executed : gtid_set) : gtid_set :=
  match gtid_executed !! gtid.1 with
  | None => <[gtid.1 := [(gtid.2, gtid.2)]]> gtid_executed
  | Some l => <[gtid.1 := add_interval gtid.2 l]> gtid_executed
  end.

Definition in_interval (t : Z) (i : Z * Z) : bool := (i.1 <=? t) && (t <=? i.2).

Definition gtid_exists (gtid_executed : gtid_set) (gtid_uuid : list Z) (gtid_trxid : Z) : bool :=
  match gtid_executed !! gtid_uuid with
  | None => false
  | Some l => existsb (in_interval (i64 gtid_trxid)) l
  end.

(** ** The representation invariant

    Intervals are non-empty, increasing, and never touch: between two of them at
    least one transaction is missing.  [lo] is the end of what comes before. *)
Fixpoint ordered (lo : Z) (l : list (Z * Z)) : Prop :=
  match l with
  | [] => True
  | (a, b) :: r => lo + 1 < a ∧ a <= b ∧ b < 2 ^ 63 - 1 ∧ ordered b r
  end.

(** Transaction numbers of MySQL are positive 63-bit integers. *)
Definition valid_trx (t : Z) : Prop := 0 < t < 2 ^ 63 - 1.
Definition wf_intervals (l : list (Z * Z)) : Prop := ordered (-1) l.
Definition wf (s : gtid_set) : Prop := map_Forall (λ _ l, wf_intervals l ∧ l ≠ []) s.

Definition covers (l : list (Z * Z)) (t : Z) : Prop := ∃ i, i ∈ l ∧ in_interval t i = true.

Lemma in_interval_spec t i : in_interval t i = true ↔ i.1 <= t <= i.2.
Proof. unfold in_interval. rewrite andb_true_iff. lia. Qed.

Lemma covers_nil t : covers [] t ↔ False.
Proof. unfold covers. split; [intros (i & Hi & _); by apply elem_of_nil in Hi | done]. Qed.

Lemma covers_cons i l t : covers (i :: l) t ↔ (i.1 <= t <= i.2) ∨ covers l t.
Proof.
  unfold covers. setoid_rewrite elem_of_cons. rewrite <- in_interval_spec. naive_solver.
Qed.

Lemma existsb_covers l t : existsb (in_interval t) l = true ↔ covers l t.
Proof.
  rewrite existsb_exists. unfold covers.
  split; intros (x & Hx & ?); exists x; split; try done; by apply list_elem_of_In.
Qed.

Lemma ordered_weaken lo lo' l : lo' <= lo → ordered lo l → ordered lo' l.
Proof. intros Hlo. destruct l as [|[a b] r]; simpl; [done|]. intuition lia. Qed.

(** A list that satisfies the invariant has no two neighbours to merge. *)
Lemma merge_first_ordered lo l : -2 < lo → ordered lo l → merge_first l = l.
Proof.
  revert lo; induction l as [|[a b] [|[a2 b2] r] IH]; intros lo Hlo; try done.
  intros (? & ? & ? & Hr). pose proof Hr as (? & ? & ? & ?). cbn [merge_first fst snd].
  rewrite i64_small, (proj2 (Z.eqb_neq (b + 1) a2)) by lia. f_equal. by apply (IH b); [lia|].
Qed.

(** Two neighbours that do not touch are left as they are. *)
Lemma merge_first_apart a b a' b' l :
  -1 <= b < 2 ^ 63 - 1 → b + 1 < a' →
  merge_first ((a, b) :: (a', b') :: l) = (a, b) :: merge_first ((a', b') :: l).
Proof.
  intros. cbn [merge_first fst snd]. by rewrite i64_small, (proj2 (Z.eqb_neq (b + 1) a')) by lia.
Qed.

(** The interval that ends just below [t] grows; if it then touches the next
    one, the second loop joins them. *)
Lemma add_scan_grow_up lo a b r t :
  -1 <= lo → lo + 1 < a → a <= b → t < 2 ^ 63 - 1 → t = b + 1 → ordered b r →
  ordered lo (merge_first ((a, b + 1) :: r)) ∧
  (∀ u, covers (merge_first ((a, b + 1) :: r)) u ↔ u = t ∨ covers ((a, b) :: r) u) ∧
  lo + 1 < a.
Proof.
  intros Hlo Hla Hab Hmax -> Hr. destruct r as [|[a2 b2] r].
  { split_and!; cbn [merge_first ordered]; [intuition lia| |lia].
    intros u. rewrite !covers_cons, !covers_nil. simpl. intuition lia. }
  pose proof Hr as (? & ? & ? & Hr').
  destruct (decide (b + 1 + 1 = a2)) as [<-|].
  - cbn [merge_first fst snd]. rewrite i64_small, Z.eqb_refl by lia.
    split_and!; cbn [ordered]; [intuition lia| |lia].
    intros u. rewrite !covers_cons. simpl. intuition lia.
  - rewrite merge_first_apart by lia.
    rewrite (merge_first_ordered b) by (lia || done).
    split_and!; [|intros u; rewrite !covers_cons; simpl; intuition lia|lia].
    cbn [ordered] in *. intuition lia.
Qed.

(** What one call does to the intervals above [lo], when [t] is above them too:
    the invariant is kept and exactly [t] is added. *)
Lemma add_scan_spec lo l t :
  -1 <= lo → lo + 1 < t → t < 2 ^ 63 - 1 → ordered lo l →
  match add_scan t l with
  | Present => covers l t
  | Inserted l' => ordered lo l' ∧ ∀ u, covers l' u ↔ u = t ∨ covers l u
  | Extended l' => ordered lo (merge_first l') ∧ (∀ u, covers (merge_first l') u ↔ u = t ∨ covers l u)
                   ∧ match l' with [] => False | (a, _) :: _ => lo + 1 < a end
  | NotFound => ordered lo (l ++ [(t, t)]) ∧ ∀ u, covers (l ++ [(t, t)]) u ↔ u = t ∨ covers l u
  end.
Proof.
  intros Hlo. revert lo Hlo. induction l as [|[a b] r IH]; intros lo Hlo Ht Hmax Hl.
  { cbn [add_scan app ordered]. split; [intuition lia|].
    intros u. rewrite covers_cons, covers_nil. simpl. intuition lia. }
  destruct Hl as (Hla & Hab & Hb & Hr). cbn [add_scan].
  rewrite (i64_small (t + 1)), (i64_small (b + 1)), (i64_small (a - 1)) by lia.
  destruct (Z.leb_spec a t); cbn [andb].
  1: destruct (Z.leb_spec t b).
  { rewrite covers_cons. simpl. lia. }
  all: destruct (Z.eqb_spec (t + 1) a); [try lia|].
  2: { (* the interval grows downwards *)
    assert (Hr' : ordered lo ((a - 1, b) :: r)) by (cbn [ordered]; intuition lia).
    rewrite (merge_first_ordered lo) by (lia || done). split_and!; [done| |lia].
    intros u. rewrite !covers_cons. simpl. intuition lia. }
  all: destruct (Z.eqb_spec t (b + 1)); [try lia|].
  - by apply add_scan_grow_up.
  - destruct (Z.ltb_spec t a); [lia|].
    specialize (IH b ltac:(lia) ltac:(lia) Hmax Hr).
    destruct (add_scan t r) as [|l'|l'|]; cbn [scan_cons].
    + rewrite covers_cons. auto.
    + destruct IH as [IH1 IH2]. split; [cbn [ordered]; auto|].
      intros u. rewrite !covers_cons, IH2. tauto.
    + destruct IH as (IH1 & IH2 & IH3). destruct l' as [|[a' b'] l']; [done|].
      rewrite merge_first_apart by lia.
      split_and!; [cbn [ordered]; auto| |lia].
      intros u. rewrite !covers_cons, IH2. tauto.
    + destruct IH as [IH1 IH2]. split; [cbn [app ordered]; auto|].
      intros u. cbn [app]. rewrite !covers_cons, IH2. tauto.
  - destruct (Z.ltb_spec t a); [|lia]. split; [cbn [ordered]; intuition lia|].
    intros u. rewrite !covers_cons. simpl. intuition lia.
Qed.

Lemma add_interval_spec l t :
  valid_trx t → wf_intervals l →
  wf_intervals (add_interval t l) ∧ (∀ u, covers (add_interval t l) u ↔ u = t ∨ covers l u).
Proof.
  intros [Ht1 Ht2] Hl. unfold add_interval.
  pose proof (add_scan_spec (-1) l t ltac:(lia) ltac:(lia) Ht2 Hl) as H.
  destruct (add_scan t l) as [|l'|l'|]; [|done|tauto|].
  - split; [done|]. intros u. split; [auto|]. by intros [->|?].
  - destruct H as [H1 H2]. by rewrite (merge_first_ordered (-1)) by done.
Qed.

Lemma add_interval_nonempty l t :
  valid_trx t → wf_intervals l → add_interval t l ≠ [].
Proof.
  intros Ht Hl Hnil. destruct (add_interval_spec l t Ht Hl) as [_ Hc].
  specialize (Hc t). rewrite Hnil, covers_nil in Hc. tauto.
Qed.

Lemma wf_singleton t : valid_trx t → wf_intervals [(t, t)].
Proof. intros [? ?]. unfold wf_intervals; cbn [ordered]. lia. Qed.

(** Recording a transaction keeps the invariant for every server. *)
Lemma addGtid_preserves_wf s uuid t : valid_trx t → wf s → wf (addGtid (uuid, t) s).
Proof.
  intros Ht Hs. unfold addGtid. cbn [fst snd]. destruct (s !! uuid) as [l|] eqn:E.
  - apply map_Forall_insert_2; [|done]. destruct (Hs _ _ E) as [Hl _].
    split; [by apply add_interval_spec | by apply add_interval_nonempty].
  - apply map_Forall_insert_2; [|done]. split; [by apply wf_singleton|done].
Qed.

(** The set answers yes to exactly the recorded transactions. *)
Lemma addGtid_exists s uuid t uuid' t' :
  valid_trx t → - 2 ^ 63 <= t' < 2 ^ 63 → wf s →
  gtid_exists (addGtid (uuid, t) s) uuid' t' = true ↔
  (uuid' = uuid ∧ t' = t) ∨ gtid_exists s uuid' t' = true.
Proof.
  intros Ht Ht' Hs. unfold gtid_exists, addGtid. cbn [fst snd].
  rewrite i64_small by lia.
  destruct (s !! uuid) as [l|] eqn:E.
  - rewrite lookup_insert. case_decide as Hu; [subst uuid'|].
    + rewrite !existsb_covers, E, existsb_covers.
      destruct (Hs _ _ E) as [Hl _]. rewrite (proj2 (add_interval_spec l t Ht Hl)). tauto.
    + split; [auto|]. intros [[-> _]|?]; done.
  - rewrite lookup_insert. case_decide as Hu; [subst uuid'|].
    + rewrite existsb_covers, E, covers_cons, covers_nil. simpl. intuition lia.
    + split; [auto|]. intros [[-> _]|?]; done.
Qed.

(** C40: a GTID set records exactly what it is told. From a well-formed set --
    every list ordered, disjoint and with a gap between neighbours --
    [addGtid] gives a well-formed set, and [gtid_exists] then answers yes for
    the added transaction and for exactly those it answered yes for before. *)
Theorem addGtid_correct s uuid t :
  valid_trx t → wf s →
  wf (addGtid (uuid, t) s) ∧
  ∀ uuid' t', - 2 ^ 63 <= t' < 2 ^ 63 →
    gtid_exists (addGtid (uuid, t) s) uuid' t' = true ↔
    (uuid' = uuid ∧ t' = t) ∨ gtid_exists s uuid' t' = true.
Proof.
  intros Ht Hs. split; [by apply addGtid_preserves_wf|].
  intros uuid' t' Ht'. by apply addGtid_exists.
Qed.

Lemma addGtid_correct_witness :
  let s := addGtid ([97], 5) ∅ in
  wf (addGtid ([97], 6) s) ∧
  ∀ uuid' t', - 2 ^ 63 <= t' < 2 ^ 63 →
    gtid_exists (addGtid ([97], 6) s) uuid' t' = true ↔
    (uuid' = [97] ∧ t' = 6) ∨ gtid_exists s uuid' t' = true.
Proof.
  apply (addGtid_correct (addGtid ([97], 5) ∅) [97] 6); [done|].
  apply addGtid_preserves_wf; done.
Defined.

End Intervals.
