(* ===== verification/GtidReader.v ===== *)
(** * The binlog reader's stream (lib/GTID_Server_Data.cpp, [GTID_Server_Data])

    The receive buffer that [readall] fills and [dump] consumes, the framing of
    its bytes into lines, the two kinds of message ([ST=] bootstrap, [I1]/[I2]
    increments), and the textual form of a GTID set.  The bytes of a fresh
    allocation are given by [malloc]; the socket is the argument of [readall]. *)
From S2P Require Import Prelude StringUtils CNumbers Gtid.
Import Intervals.

(** ** State *)
Record t := mk {
  data : list Z;                 (* the [size] bytes of the allocation *)
  len : Z;
  size : Z;
  pos : Z;
  uuid_server : list Z;          (* char[64] *)
  events_read : Z;
  gtid_executed : gtid_set;
  active : bool
}.

Definition NL : Z := 10.
Definition COMMA : Z := 44.
Definition COLON : Z := 58.
Definition DASH : Z := 45.
Definition EINTR : Z := 4.
Definition EAGAIN : Z := 11.

(** What [read] returns: some bytes, or 0 or -1 with [errno]. *)
Inductive read_result :=
  | Received (bs : list Z)
  | Failed (rc errno : Z).

Section ops.
Context (malloc : Z → list Z).

Definition create : t :=
  mk (malloc 1024) 0 1024 0 (replicate 64 0) 0 ∅ true.

Definition set_buffer (d : list Z) (l sz p : Z) (s : t) : t :=
  mk d l sz p (uuid_server s) (events_read s) (gtid_executed s) (active s).

Definition resize (_s : Z) (s : t) : outcome t :=
  old ← slice (data s) 0 (if size s <? _s then size s else _s);
  data_ ← blit (malloc _s) 0 old;
  Ok (set_buffer data_ (len s) _s (pos s) s).

Definition readall (r : read_result) (s : t) : outcome (bool * t) :=
  s ← (if size s =? len s then resize (u64 (len s * 2)) s else Ok s);
  match r with
  | Received bs =>
      if size s - len s <? Z.of_nat (length bs) then Fault OutOfBounds
      else d ← blit (data s) (len s) bs;
           Ok (true, set_buffer d (len s + Z.of_nat (length bs)) (size s) (pos s) s)
  | Failed rc errno =>
      Ok (negb ((rc =? 0) || ((rc =? -1) && negb (errno =? EINTR) && negb (errno =? EAGAIN))), s)
  end.
End ops.

(** ** Parsing one line *)

(** The successive results of [strtok_r(_, d, _)] on a C string. *)
Fixpoint tokens_from (d : Z) (cur s : list Z) : list (list Z) :=
  match s with
  | [] => if decide (cur = []) then [] else [cur]
  | c :: r =>
      if c =? d then (if decide (cur = []) then tokens_from d [] r else cur :: tokens_from d [] r)
      else tokens_from d (cur ++ [c]) r
  end.
Definition tokens (d : Z) (s : list Z) : list (list Z) := tokens_from d [] s.

(** [sscanf(s, "%lu-%lu", &from, &to)]: what it stores, if anything. *)
Definition sscanf_interval (s : list Z) : option Z * option Z :=
  match scan_lu s with
  | None => (None, None)
  | Some (from, c :: rest) =>
      if c =? DASH then (Some from, fst <$> scan_lu rest) else (Some from, None)
  | Some (from, []) => (Some from, None)
  end.

(** A read of a variable that [sscanf] may have left unset. *)
Definition initialised (o : option Z) : outcome Z :=
  match o with Some v => Ok v | None => Fault Uninitialised end.

(** [std::string s = uuid_server]. *)
Definition uuid_string (u : list Z) : outcome (list Z) :=
  if existsb (λ c, c =? 0) u then Ok (cstr u) else Fault OutOfBounds.

(** The loop that copies a UUID without its dashes, at [*p] on. *)
Fixpoint copy_uuid (subtoken : list Z) (p : Z) (u : list Z) : outcome (list Z) :=
  match subtoken with
  | [] => Ok u
  | c :: r => if c =? DASH then copy_uuid r p u
              else u ← write_at u p c; copy_uuid r (p + 1) u
  end.

(** What the parsing of one line changes. *)
Record parsed := mkp { p_uuid : list Z; p_events : Z; p_set : gtid_set }.

Definition emplace_back (s : list Z) (from to : Z) (g : gtid_set) : gtid_set :=
  <[s := default [] (g !! s) ++ [(i64 from, i64 to)]]> g.

(** The inner loop over the subtokens of one token of the bootstrap. *)
Fixpoint boot_subtokens (j : nat) (l : list (list Z)) (p : parsed) : outcome parsed :=
  match l with
  | [] => Ok p
  | subtoken :: r =>
      p ← (if Nat.odd (S j) then
             u ← copy_uuid subtoken 0 (p_uuid p);
             Ok (mkp u (p_events p) (p_set p))
           else
             let '(f, e) := sscanf_interval subtoken in
             s ← uuid_string (p_uuid p);
             trx_from ← initialised f;
             trx_to ← initialised e;
             Ok (mkp (p_uuid p) (p_events p) (emplace_back s trx_from trx_to (p_set p))));
      boot_subtokens (S j) r p
  end.

Fixpoint boot_tokens (l : list (list Z)) (p : parsed) : outcome parsed :=
  match l with
  | [] => Ok p
  | token :: r => p ← boot_subtokens 0 (tokens COLON token) p; boot_tokens r p
  end.

Definition bootstrap (body : list Z) (p : parsed) : outcome parsed :=
  boot_tokens (tokens COMMA (cstr body)) p.

(** One [I..] message, [msg] being the C string in [rec_msg] and [l] the length
    of the line. Bytes of [rec_msg] past the line are uninitialised. *)
Definition increment (l : Z) (msg : list Z) (p : parsed) : outcome parsed :=
  let add u trx :=
    s ← uuid_string u;
    Ok (mkp u (p_events p + 1) (addGtid (s, i64 trx) (p_set p))) in
  let tag := default 0 (msg !! 1%nat) in
  if tag =? 49 (* '1' *) then
    if l <? 3 then Fault Uninitialised else
    let rest := drop 3 msg in
    match strchr COLON rest with
    | None => Fault OutOfBounds            (* arithmetic on a NULL pointer *)
    | Some ul =>
        u ← blit (p_uuid p) 0 (take ul rest);
        u ← write_at u (Z.of_nat ul) 0;
        add u (atoll (drop (S ul) rest))
    end
  else if tag =? 50 (* '2' *) then
    if l <? 3 then Fault Uninitialised else add (p_uuid p) (atoll (drop 3 msg))
  else add (p_uuid p) 0.

(** The part of [read_next_gtid] after the newline has been found: [line] is the
    [l] bytes before it. *)
Definition handle_line (line : list Z) (p : parsed) : outcome parsed :=
  let l := Z.of_nat (length line) in
  if decide (take 3 line = str "ST=") then bootstrap (drop 3 line) p
  else if 80 <=? l then Fault OutOfBounds  (* [rec_msg[l] = 0] with char rec_msg[80] *)
  else let msg := cstr line in
       if default 0 (head msg) =? 73 (* 'I' *) then increment l msg p else Ok p.

(** [memchr]. *)
Definition memchr (c : Z) (s : list Z) : option nat := strchr c s.

Definition read_next_gtid (s : t) : outcome (bool * t) :=
  if len s =? 0 then Ok (false, s) else
  window ← slice (data s) (pos s) (len s - pos s);
  match memchr NL window with
  | None => Ok (false, s)
  | Some l =>
      p ← handle_line (take l window) (mkp (uuid_server s) (events_read s) (gtid_executed s));
      Ok (true, mk (data s) (len s) (size s) (pos s + Z.of_nat l + 1)
                   (p_uuid p) (p_events p) (p_set p) (active s))
  end.

Fixpoint read_all_gtids (fuel : nat) (s : t) : outcome t :=
  match fuel with
  | O => Fault Diverges
  | S fuel' =>
      '(more, s) ← read_next_gtid s;
      if more : bool then read_all_gtids fuel' s else Ok s
  end.

(** The [memmove] at the end of [dump] and [writeout]. *)
Definition compact (s : t) : outcome t :=
  if len s / 2 <=? pos s then
    rest ← slice (data s) (pos s) (len s - pos s);
    d ← blit (data s) 0 rest;
    Ok (set_buffer d (len s - pos s) (size s) 0 s)
  else Ok s.

Definition dump (s : t) : outcome t :=
  if len s =? 0 then Ok s else
  s ← read_all_gtids (S (Z.to_nat (len s))) s;
  compact s.

(** [rc] is what [write] returned. *)
Definition writeout (rc : Z) (s : t) : outcome (bool * t) :=
  if len s =? 0 then Ok (true, s) else
  if 0 <? rc then
    s ← compact (set_buffer (data s) (len s) (size s) (pos s + rc) s);
    Ok (true, s)
  else Ok (true, s).

(** ** The textual form *)

(** [std::string::insert(pos, "-")]. *)
Definition insert_dash (i : nat) (s : list Z) : outcome (list Z) :=
  if decide (i <= length s)%nat then Ok (take i s ++ [DASH] ++ drop i s) else Fault Exception.

Definition dashed (s : list Z) : outcome (list Z) :=
  s ← insert_dash 8 s;
  s ← insert_dash 13 s;
  s ← insert_dash 18 s;
  insert_dash 23 s.

Fixpoint intervals_text (s : list Z) (l : list (Z * Z)) : list Z :=
  match l with
  | [] => []
  | (a, b) :: r => s ++ sdec a ++ [DASH] ++ sdec b ++ [COMMA] ++ intervals_text s r
  end.

Fixpoint sets_text (l : list (list Z * list (Z * Z))) : outcome (list Z) :=
  match l with
  | [] => Ok []
  | (u, ivs) :: r =>
      s ← dashed u;
      rest ← sets_text r;
      Ok (intervals_text (s ++ [COLON]) ivs ++ rest)
  end.

(** [order] is the iteration order of the hash table. *)
Definition gtid_executed_to_string (order : gtid_set → list (list Z * list (Z * Z))) (g : gtid_set)
  : outcome (list Z) :=
  s ← sets_text (order g);
  Ok (if decide (s = []) then s else removelast s).

(** ** The reference decoder

    A decoder that takes the stream one byte at a time and hands every complete
    line to [handle_line]; [cur] is the line being received. *)
Fixpoint consume (cur s : list Z) (p : parsed) : outcome (parsed * list Z) :=
  match s with
  | [] => Ok (p, cur)
  | c :: r => if c =? NL then p ← handle_line cur p; consume [] r p
              else consume (cur ++ [c]) r p
  end.

(** The bytes received and not yet decoded. *)
Definition window (s : t) : list Z :=
  take (Z.to_nat (len s - pos s)) (drop (Z.to_nat (pos s)) (data s)).
Definition parsed_of (s : t) : parsed := mkp (uuid_server s) (events_read s) (gtid_executed s).

Definition wf (s : t) : Prop :=
  0 <= pos s <= len s ∧ len s <= size s ∧ 0 < size s ∧ size s = Z.of_nat (length (data s)).

(** The bytes [readall] asks the kernel for. *)
Definition room (s : t) : Z := (if size s =? len s then len s * 2 else size s) - len s.

(** What the event loop does with a connection: each entry of [reads] is the
    number of bytes the kernel has ready at that wake-up. *)
Fixpoint run (malloc : Z → list Z) (reads : list nat) (stream : list Z) (s : t)
  : outcome (t * list Z) :=
  match reads with
  | [] => Ok (s, stream)
  | n :: reads' =>
      let k := Nat.min n (Z.to_nat (room s)) in
      match take k stream with
      | [] => run malloc reads' stream s
      | bs => '(_, s) ← readall malloc (Received bs) s;
              s ← dump s;
              run malloc reads' (drop k stream) s
      end
  end.

(** ** Buffer lemmas *)
Lemma length_window s : wf s → length (window s) = Z.to_nat (len s - pos s).
Proof. intros (? & ? & ? & ?). unfold window. rewrite length_take, length_drop. lia. Qed.

(** ** The reference decoder's lemmas *)
Lemma consume_line cur a p : NL ∉ a → consume cur a p = Ok (p, cur ++ a).
Proof.
  revert cur; induction a as [|x a IH]; intros cur Ha; simpl; [by rewrite app_nil_r|].
  apply not_elem_of_cons in Ha as [Hx ?]. rewrite (proj2 (Z.eqb_neq x NL)) by done.
  rewrite IH by done. by rewrite <- app_assoc.
Qed.

Lemma consume_app cur a b p :
  consume cur (a ++ b) p = ('(p, cur) ← consume cur a p; consume cur b p).
Proof.
  revert cur p; induction a as [|x a IH]; intros cur p; [done|]. cbn [app consume].
  destruct (x =? NL); [|apply IH]. destruct (handle_line cur p); [apply IH|done].
Qed.

Lemma consume_first_line a b p :
  NL ∉ a → consume [] (a ++ NL :: b) p = (p ← handle_line a p; consume [] b p).
Proof.
  intros Ha. rewrite consume_app, consume_line by done. cbn [mbind outcome_bind app consume].
  by rewrite Z.eqb_refl.
Qed.

Lemma consume_rest_length cur s p p' cur' :
  consume cur s p = Ok (p', cur') → (length cur' <= length cur + length s)%nat ∧
  (NL ∉ cur → NL ∉ cur').
Proof.
  revert cur p; induction s as [|x s IH]; intros cur p; cbn [consume].
  { intros [= <- <-]. split; [simpl; lia|done]. }
  destruct (Z.eqb_spec x NL) as [|Hx].
  - destruct (handle_line cur p); [|done]. intros Hc. cbn in Hc.
    destruct (IH [] a Hc) as [H1 H2]. split; [simpl in *; lia|]. intros _. apply H2, not_elem_of_nil.
  - intros Hc. destruct (IH _ _ Hc) as [H1 H2]. rewrite length_app in H1. split; [simpl in *; lia|].
    intros Hn. apply H2. rewrite elem_of_app, list_elem_of_singleton. naive_solver.
Qed.

(** ** The framing implements the reference decoder *)
Definition set_parsed (p : parsed) (ps : Z) (s : t) : t :=
  mk (data s) (len s) (size s) ps (p_uuid p) (p_events p) (p_set p) (active s).

Lemma window_slice s : wf s → slice (data s) (pos s) (len s - pos s) = Ok (window s).
Proof. intros (? & ? & ? & ?). apply slice_ok; lia. Qed.

Lemma read_next_gtid_spec s :
  wf s →
  read_next_gtid s =
  match strchr NL (window s) with
  | None => Ok (false, s)
  | Some l => p ← handle_line (take l (window s)) (parsed_of s);
              Ok (true, set_parsed p (pos s + Z.of_nat l + 1) s)
  end.
Proof.
  intros Hs. unfold read_next_gtid. destruct (Z.eqb_spec (len s) 0) as [H0|H0].
  - pose proof (length_window s Hs) as Hw. destruct Hs as ((? & ?) & _).
    replace (len s - pos s) with 0 in Hw by lia. by destruct (window s).
  - rewrite window_slice by done. done.
Qed.

Lemma window_advance s p a b :
  wf s → window s = a ++ NL :: b →
  let s' := set_parsed p (pos s + Z.of_nat (length a) + 1) s in
  wf s' ∧ window s' = b ∧ parsed_of s' = p.
Proof.
  intros Hs Hw s'. pose proof (length_window s Hs) as Hl. pose proof Hs as ((? & ?) & ? & ? & ?).
  rewrite Hw, length_app in Hl. cbn [length] in Hl.
  split_and!; [unfold wf; simpl; lia | | by destruct p].
  assert (Hd : drop (S (length a)) (window s) = b).
  { rewrite Hw. replace (S (length a)) with (length (a ++ [NL])) by (rewrite length_app; simpl; lia).
    by rewrite (assoc (++) a [NL] b), drop_app_length. }
  rewrite <- Hd. unfold window, s'; cbn [pos len data set_parsed].
  rewrite skipn_firstn_comm, drop_drop. f_equal; [lia|]. f_equal. lia.
Qed.

Lemma read_all_gtids_spec fuel s :
  wf s → (length (window s) < fuel)%nat →
  match consume [] (window s) (parsed_of s) with
  | Fault f => read_all_gtids fuel s = Fault f
  | Ok (p, cur) => ∃ s', read_all_gtids fuel s = Ok s' ∧ wf s' ∧ window s' = cur ∧
                         parsed_of s' = p ∧ len s' = len s
  end.
Proof.
  revert s; induction fuel as [|fuel IH]; intros s Hs Hf; [lia|]. cbn [read_all_gtids].
  rewrite read_next_gtid_spec by done. destruct (strchr NL (window s)) as [l|] eqn:E.
  - destruct (strchr_Some _ _ _ E) as (a & b & Hw & <- & Ha).
    rewrite Hw, consume_first_line, take_app_length by done.
    destruct (handle_line a (parsed_of s)) as [p|f]; [|done]. cbn [mbind outcome_bind].
    destruct (window_advance s p a b Hs Hw) as (Hs' & Hw' & Hp').
    rewrite Hw, length_app in Hf. cbn [length] in Hf.
    specialize (IH _ Hs' ltac:(rewrite Hw'; lia)). by rewrite Hw', Hp' in IH.
  - rewrite consume_line by (by apply strchr_None). cbn [mbind outcome_bind]. eauto 10.
Qed.

Lemma compact_spec s :
  wf s → ∃ s', compact s = Ok s' ∧ wf s' ∧ window s' = window s ∧ parsed_of s' = parsed_of s ∧
               len s' <= len s.
Proof.
  intros Hs. unfold compact. destruct (Z.leb_spec (len s / 2) (pos s)); [|by eauto 10 with lia].
  rewrite window_slice by done. cbn [mbind outcome_bind].
  pose proof (length_window s Hs) as Hl. pose proof Hs as ((? & ?) & ? & ? & ?).
  rewrite blit_ok by lia. cbn [mbind outcome_bind]. eexists. split; [done|].
  split_and!.
  - unfold wf; cbn [set_buffer pos len size data]. rewrite !length_app, length_drop. simpl. lia.
  - unfold window at 1; cbn [set_buffer pos len size data]. cbn [Z.to_nat Init.Nat.add].
    rewrite take_0, drop_0. cbn [app]. rewrite Z.sub_0_r, <- Hl. by rewrite take_app_length.
  - done.
  - cbn. lia.
Qed.

Lemma dump_spec s :
  wf s →
  match consume [] (window s) (parsed_of s) with
  | Fault f => dump s = Fault f
  | Ok (p, cur) => ∃ s', dump s = Ok s' ∧ wf s' ∧ window s' = cur ∧ parsed_of s' = p ∧ len s' <= len s
  end.
Proof.
  intros Hs. pose proof (length_window s Hs) as Hl. unfold dump.
  destruct (Z.eqb_spec (len s) 0) as [H0|H0].
  - destruct Hs as ((? & ?) & ?). replace (len s - pos s) with 0 in Hl by lia.
    destruct (window s) as [|] eqn:Hw; [|done]. cbn [consume]. exists s. unfold wf. eauto 10 with lia.
  - pose proof (read_all_gtids_spec (S (Z.to_nat (len s))) s Hs ltac:(destruct Hs; lia)) as H.
    destruct (consume [] (window s) (parsed_of s)) as [[p cur]|f]; [|by rewrite H].
    destruct H as (s1 & -> & Hs1 & <- & <- & Hlen). cbn [mbind outcome_bind].
    destruct (compact_spec s1 Hs1) as (s2 & -> & Hs2 & Hw2 & Hp2 & ?).
    rewrite <- Hw2, <- Hp2. exists s2. split_and!; done || lia.
Qed.

Section stream.
#[local] Set Default Proof Using "All".
Context (malloc : Z → list Z) (malloc_size : ∀ n, 0 <= n → length (malloc n) = Z.to_nat n).

Lemma create_wf : wf (create malloc) ∧ window (create malloc) = [].
Proof. unfold wf, create; cbn [pos len size data]. rewrite malloc_size by lia. repeat split; try lia. Qed.

Lemma resize_spec n s :
  wf s → size s <= n →
  ∃ s', resize malloc n s = Ok s' ∧ wf s' ∧ window s' = window s ∧ parsed_of s' = parsed_of s ∧
        len s' = len s ∧ size s' = n ∧ pos s' = pos s.
Proof.
  intros Hs Hn. pose proof Hs as ((? & ?) & ? & ? & ?). unfold resize.
  assert (Hmin : (if size s <? n then size s else n) = size s)
    by (destruct (Z.ltb_spec (size s) n); lia).
  rewrite Hmin, slice_ok by lia. cbn [mbind outcome_bind].
  change (Z.to_nat 0) with 0%nat. rewrite drop_0, take_ge by lia.
  rewrite blit_ok by (rewrite ?malloc_size; lia). cbn [mbind outcome_bind].
  change (Z.to_nat 0) with 0%nat. rewrite take_0. cbn [app Init.Nat.add].
  eexists. split; [done|]. split_and!; try done.
  - unfold wf; cbn [set_buffer pos len size data].
    rewrite length_app, length_drop, malloc_size by lia. lia.
  - unfold window; cbn [set_buffer pos len size data].
    rewrite drop_app_le by lia. rewrite take_app_le by (rewrite length_drop; lia). done.
Qed.

Lemma readall_spec bs s :
  wf s → len s < 2 ^ 62 → Z.of_nat (length bs) <= room s →
  ∃ s', readall malloc (Received bs) s = Ok (true, s') ∧ wf s' ∧ window s' = window s ++ bs ∧
        parsed_of s' = parsed_of s ∧ len s' = len s + Z.of_nat (length bs).
Proof.
  intros Hs Hl Hroom. unfold readall.
  assert (∃ s1, (if size s =? len s then resize malloc (u64 (len s * 2)) s else Ok s) = Ok s1 ∧
    wf s1 ∧ window s1 = window s ∧ parsed_of s1 = parsed_of s ∧ len s1 = len s ∧
    size s1 - len s = room s) as (s1 & -> & Hs1 & <- & <- & <- & Hr).
  { unfold room. destruct (Z.eqb_spec (size s) (len s)) as [E|E]; [|by eauto 10].
    pose proof Hs as ((? & ?) & ? & ? & ?).
    rewrite u64_small by lia. destruct (resize_spec (len s * 2) s Hs) as (s1 & ? & ? & ? & ? & ? & ? & ?);
      [lia|]. exists s1. split_and!; auto with lia. }
  cbn [mbind outcome_bind]. pose proof Hs1 as ((? & ?) & ? & ? & ?).
  rewrite (proj2 (Z.ltb_ge _ _)) by lia. rewrite blit_ok by lia. cbn [mbind outcome_bind].
  eexists. split; [done|]. split_and!; try done.
  - unfold wf; cbn [set_buffer pos len size data].
    rewrite !length_app, length_drop, length_take. lia.
  - unfold window; cbn [set_buffer pos len size data].
    rewrite (assoc (++)), drop_app_le by (rewrite length_app, length_take; lia).
    rewrite drop_app_le by (rewrite length_take; lia).
    rewrite take_app_le by (rewrite length_app, length_drop, length_take; lia).
    rewrite take_ge by (rewrite length_app, length_drop, length_take; lia).
    f_equal. rewrite skipn_firstn_comm. f_equal. lia.
Qed.

Lemma room_pos s : wf s → 0 < room s.
Proof. intros (? & ? & ? & ?). unfold room. destruct (Z.eqb_spec (size s) (len s)); lia. Qed.

(** One wake-up: the bytes delivered are decoded after what was pending. *)
Lemma receive_spec bs s :
  wf s → len s < 2 ^ 62 → Z.of_nat (length bs) <= room s →
  match consume [] (window s ++ bs) (parsed_of s) with
  | Fault f => ('(_, s) ← readall malloc (Received bs) s; dump s) = Fault f
  | Ok (p, cur) => ∃ s', ('(_, s) ← readall malloc (Received bs) s; dump s) = Ok s' ∧ wf s' ∧
      window s' = cur ∧ parsed_of s' = p ∧ len s' <= len s + Z.of_nat (length bs)
  end.
Proof.
  intros Hs Hl Hr. destruct (readall_spec bs s Hs Hl Hr) as (s1 & -> & Hs1 & Hw & Hp & Hl1).
  cbn [mbind outcome_bind]. rewrite <- Hw, <- Hp, <- Hl1. by apply dump_spec.
Qed.

Definition run_result (reads : list nat) (stream : list Z) (s : t) : Prop :=
  ∃ consumed rest, stream = consumed ++ rest ∧
    (Forall (λ n, (0 < n)%nat) reads → (length stream <= length reads)%nat →
     match consume [] (window s ++ consumed) (parsed_of s) with Ok _ => rest = [] | Fault _ => True end) ∧
    match consume [] (window s ++ consumed) (parsed_of s) with
    | Fault f => run malloc reads stream s = Fault f
    | Ok (p, cur) => ∃ s', run malloc reads stream s = Ok (s', rest) ∧ wf s' ∧
                           window s' = cur ∧ parsed_of s' = p
    end.

Lemma run_refines reads stream s :
  wf s → NL ∉ window s → len s + Z.of_nat (length stream) < 2 ^ 62 → run_result reads stream s.
Proof.
  revert stream s; induction reads as [|n reads IH]; intros stream s Hs Hnl Hb.
  { exists [], stream. rewrite app_nil_r, consume_line by done. split_and!; [done| |by eauto 10].
    intros _ Hlen. destruct stream; [done|]. simpl in Hlen. lia. }
  pose proof (room_pos s Hs) as Hroom.
  set (k := Nat.min n (Z.to_nat (room s))).
  assert (Hst : stream = take k stream ++ drop k stream) by (by rewrite take_drop).
  unfold run_result; cbn [run]; fold k. destruct (take k stream) as [|b bs'] eqn:Hk.
  { destruct (IH stream s Hs Hnl Hb) as (c & r & Hcr & Hall & Hrun).
    exists c, r. split_and!; [done| |done]. intros Hn Hlen. apply Forall_cons in Hn as [Hn Hns].
    destruct stream as [|x stream]; [|destruct k eqn:Hk0; [lia|done]].
    apply Hall; [done|simpl; lia]. }
  rewrite <- Hk. set (bs := take k stream) in *.
  assert (Hbl : (length bs <= k)%nat) by (unfold bs; rewrite length_take; lia).
  pose proof (receive_spec bs s Hs ltac:(lia) ltac:(lia)) as Hrec.
  destruct (consume [] (window s ++ bs) (parsed_of s)) as [[p cur]|f] eqn:Hc.
  2: { exists bs, (drop k stream). rewrite Hc. split_and!; [unfold bs; by rewrite take_drop|done|].
       destruct (readall malloc (Received bs) s) as [[? ?]|]; cbn in Hrec |- *;
         [by rewrite Hrec|congruence]. }
  destruct Hrec as (s' & Hrec & Hs' & Hw' & Hp' & Hl').
  assert (Hlen : length stream = (length bs + length (drop k stream))%nat)
    by (rewrite Hst at 1; fold bs; rewrite Hk, length_app; done).
  destruct (IH (drop k stream) s' Hs') as (c & r & Hcr & Hall & Hrun).
  { rewrite Hw'. destruct (consume_rest_length _ _ _ _ _ Hc) as [_ Hn]. apply Hn, not_elem_of_nil. }
  { lia. }
  rewrite Hw', Hp' in Hall, Hrun.
  assert (Hcc : consume [] (window s ++ bs ++ c) (parsed_of s) = consume cur c p)
    by (rewrite (assoc (++)), consume_app, Hc; done).
  assert (Hcur : consume [] (cur ++ c) p = consume cur c p).
  { rewrite consume_app, consume_line; [done|].
    destruct (consume_rest_length _ _ _ _ _ Hc) as [_ Hn]. apply Hn, not_elem_of_nil. }
  rewrite Hcur in Hall, Hrun.
  exists (bs ++ c), r. rewrite Hcc. split_and!.
  - rewrite <- app_assoc, <- Hcr. unfold bs. by rewrite take_drop.
  - intros Hn Hle. apply Forall_cons in Hn as [Hn Hns]. apply Hall; [done|].
    rewrite Hk in Hlen. simpl in Hlen, Hle. lia.
  - destruct (readall malloc (Received bs) s) as [[b0 s0]|]; cbn in Hrec |- *; [|done].
    by rewrite Hrec.
Qed.
End stream.

(** ** Round trip of the textual form *)

(** Server UUIDs as the binlog reader sends them once the dashes are gone. *)
Definition plain (c : Z) : Prop := c ≠ 0 ∧ c ≠ DASH ∧ c ≠ COLON ∧ c ≠ COMMA.
Definition plain_uuid (u : list Z) : Prop := length u = 32%nat ∧ Forall plain u.
Definition plain_set (g : gtid_set) : Prop :=
  map_Forall (λ u l, plain_uuid u ∧ l ≠ [] ∧ Forall (λ i, 0 <= i.1 < 2 ^ 63 ∧ 0 <= i.2 < 2 ^ 63) l) g.

Lemma tokens_from_word d cur w s :
  d ∉ w → tokens_from d cur (w ++ s) = tokens_from d (cur ++ w) s.
Proof.
  revert cur; induction w as [|c w IH]; intros cur Hw; simpl; [by rewrite app_nil_r|].
  apply not_elem_of_cons in Hw as [Hc Hw]. rewrite (proj2 (Z.eqb_neq c d)) by done.
  rewrite IH by done. by rewrite <- app_assoc.
Qed.

Lemma tokens_join d ws :
  Forall (λ w, w ≠ [] ∧ d ∉ w) ws → tokens d (join [d] ws) = ws.
Proof.
  unfold tokens. induction 1 as [|w ws [Hne Hd] Hws IH]; [done|]. destruct ws as [|w2 ws].
  - cbn [join]. rewrite <- (app_nil_r w) at 1. rewrite tokens_from_word by done. simpl.
    by rewrite decide_False.
  - change (join [d] (w :: w2 :: ws)) with (w ++ d :: join [d] (w2 :: ws)).
    rewrite tokens_from_word by done. cbn [tokens_from app]. rewrite Z.eqb_refl.
    rewrite decide_False by done. f_equal. exact IH.
Qed.

Lemma sscanf_interval_text a b :
  0 <= a < 2 ^ 63 → 0 <= b < 2 ^ 63 →
  sscanf_interval (sdec a ++ [DASH] ++ sdec b) = (Some a, Some b).
Proof.
  intros. unfold sdec. rewrite !(proj2 (Z.ltb_ge _ 0)) by lia. unfold sscanf_interval.
  rewrite scan_lu_dec by (try lia; simpl; intros ? [= <-]; done). cbn [app]. rewrite Z.eqb_refl.
  rewrite <- (app_nil_r (dec b)), scan_lu_dec by (lia || done). done.
Qed.

(** Writing one byte and the rest after it is writing both. *)
Lemma blit_step (u : list Z) (n : nat) c ds :
  (n < length u)%nat →
  take (S n) (<[n := c]> u) ++ ds ++ drop (S n + length ds) (<[n := c]> u) =
  take n u ++ (c :: ds) ++ drop (n + length (c :: ds)) u.
Proof.
  intros Hn. rewrite insert_take_drop by done.
  rewrite (assoc (++) _ [c] _ : take n u ++ c :: drop (S n) u = _).
  rewrite take_app_le by (rewrite length_app, length_take; simpl; lia).
  rewrite take_ge by (rewrite length_app, length_take; simpl; lia).
  rewrite drop_app_ge by (rewrite length_app, length_take; simpl; lia).
  rewrite length_app, length_take, drop_drop, <- !app_assoc. cbn [app length].
  do 4 f_equal. lia.
Qed.

Lemma copy_uuid_spec sub p u :
  0 <= p → p + Z.of_nat (length (filter (λ c, c ≠ DASH) sub)) <= Z.of_nat (length u) →
  copy_uuid sub p u = blit u p (filter (λ c, c ≠ DASH) sub).
Proof.
  revert p u; induction sub as [|c sub IH]; intros p u Hp Hl; cbn [copy_uuid].
  - rewrite blit_ok by done. cbn [filter list_filter app length]. rewrite Nat.add_0_r.
    by rewrite take_drop.
  - rewrite filter_cons in *. destruct (Z.eqb_spec c DASH) as [->|Hc].
    + rewrite decide_False in * by auto. by apply IH.
    + rewrite decide_True in * by done. cbn [length] in Hl. rewrite write_at_ok by lia.
      cbn [mbind outcome_bind]. rewrite IH by (rewrite ?length_insert; lia).
      rewrite !blit_ok by (rewrite ?length_insert; cbn [length]; lia).
      replace (Z.to_nat (p + 1)) with (S (Z.to_nat p)) by lia.
      by rewrite blit_step by lia.
Qed.

Lemma insert_dash_spec i s :
  (i <= length s)%nat →
  ∃ s', insert_dash i s = Ok s' ∧ length s' = S (length s) ∧
        filter (λ c, c ≠ DASH) s' = filter (λ c, c ≠ DASH) s ∧
        (∀ d, d ≠ DASH → d ∉ s → d ∉ s').
Proof.
  intros Hi. unfold insert_dash. rewrite decide_True by done. eexists. split; [done|]. split_and!.
  - rewrite !length_app, length_take, length_drop. simpl. lia.
  - rewrite <- (take_drop i s) at 3. by rewrite !filter_app.
  - intros d Hd Hs. rewrite <- (take_drop i s), elem_of_app in Hs.
    rewrite !elem_of_app, list_elem_of_singleton. naive_solver.
Qed.

Lemma dashed_spec u :
  length u = 32%nat →
  ∃ s, dashed u = Ok s ∧ s ≠ [] ∧ filter (λ c, c ≠ DASH) s = filter (λ c, c ≠ DASH) u ∧
       (∀ d, d ≠ DASH → d ∉ u → d ∉ s).
Proof.
  intros Hu. unfold dashed.
  destruct (insert_dash_spec 8 u) as (s1 & -> & Hl1 & Hf1 & Hd1); [lia|]. cbn [mbind outcome_bind].
  destruct (insert_dash_spec 13 s1) as (s2 & -> & Hl2 & Hf2 & Hd2); [lia|]. cbn [mbind outcome_bind].
  destruct (insert_dash_spec 18 s2) as (s3 & -> & Hl3 & Hf3 & Hd3); [lia|]. cbn [mbind outcome_bind].
  destruct (insert_dash_spec 23 s3) as (s4 & -> & Hl4 & Hf4 & Hd4); [lia|].
  exists s4. split_and!; [done| |congruence|auto]. intros ->. simpl in Hl4. lia.
Qed.

(** The entries of the text, in the order they are written. *)
Definition interval_text (i : Z * Z) : list Z := sdec i.1 ++ [DASH] ++ sdec i.2.
Definition entry (u : list Z) (i : Z * Z) : list Z :=
  match dashed u with
  | Ok s => (s ++ [COLON]) ++ interval_text i
  | Fault _ => []
  end.
Definition flat (l : list (list Z * list (Z * Z))) : list (list Z * (Z * Z)) :=
  x ← l; (λ i, (x.1, i)) <$> x.2.
Definition entries (l : list (list Z * (Z * Z))) : list (list Z) := (λ x, entry x.1 x.2) <$> l.

Fixpoint terminated (ws : list (list Z)) : list Z :=
  match ws with [] => [] | w :: r => w ++ [COMMA] ++ terminated r end.

Lemma terminated_app a b : terminated (a ++ b) = terminated a ++ terminated b.
Proof. induction a as [|w a IH]; [done|]. cbn [app terminated]. by rewrite IH, <- !app_assoc. Qed.

Lemma terminated_join ws : ws ≠ [] → terminated ws = join [COMMA] ws ++ [COMMA].
Proof.
  induction ws as [|w ws IH]; [done|]. intros _. destruct ws as [|w2 ws]; [done|].
  change (join [COMMA] (w :: w2 :: ws)) with (w ++ [COMMA] ++ join [COMMA] (w2 :: ws)).
  cbn [terminated] in *. rewrite IH by done. by rewrite <- !app_assoc.
Qed.

Lemma intervals_text_terminated u s l :
  dashed u = Ok s → intervals_text (s ++ [COLON]) l = terminated (entry u <$> l).
Proof.
  intros Hs. induction l as [|[a b] l IH]; [done|]. cbn [intervals_text fmap list_fmap terminated].
  unfold entry at 1. rewrite Hs, IH. unfold interval_text. cbn [fst snd]. by rewrite <- !app_assoc.
Qed.

Lemma sets_text_spec l :
  Forall (λ x, length x.1 = 32%nat) l → sets_text l = Ok (terminated (entries (flat l))).
Proof.
  induction 1 as [|[u ivs] l Hu _ IH]; [done|]. cbn [sets_text fst] in *.
  destruct (dashed_spec u Hu) as (s & Hs & _). rewrite Hs. cbn [mbind outcome_bind]. rewrite IH.
  cbn [mbind outcome_bind]. rewrite (intervals_text_terminated u s ivs Hs).
  unfold entries, flat. cbn [mbind list_bind]. rewrite fmap_app, terminated_app. do 2 f_equal.
  cbn [fst snd]. by rewrite <- list_fmap_compose.
Qed.

Lemma to_string_entries order g :
  Forall (λ x, length x.1 = 32%nat) (order g) →
  gtid_executed_to_string order g = Ok (join [COMMA] (entries (flat (order g)))).
Proof.
  intros H. unfold gtid_executed_to_string. rewrite sets_text_spec by done. cbn [mbind outcome_bind].
  set (ws := entries _). destruct (decide (ws = [])) as [->|Hne]; [done|].
  rewrite terminated_join by done. rewrite decide_False by (by destruct (join _ _)).
  by rewrite removelast_last.
Qed.

Lemma filter_keep (u : list Z) : Forall plain u → filter (λ c, c ≠ DASH) u = u.
Proof.
  induction 1 as [|c u (_ & Hc & _) _ IH]; [done|]. by rewrite filter_cons_True, IH.
Qed.

Lemma sdec_chars n d : 0 <= n → d ∈ sdec n → 48 <= d <= 57.
Proof.
  intros Hn Hd. unfold sdec in Hd. rewrite (proj2 (Z.ltb_ge n 0)) in Hd by done.
  apply isdigit_range. pose proof (dec_isdigit n) as Hf. rewrite Forall_forall in Hf. by apply Hf.
Qed.

Lemma interval_text_chars i d :
  0 <= i.1 → 0 <= i.2 → d ∈ interval_text i → d = DASH ∨ 48 <= d <= 57.
Proof.
  intros H1 H2. unfold interval_text. rewrite !elem_of_app, list_elem_of_singleton.
  intros [Hd|[Hd|Hd]]; [right|by left|right].
  - exact (sdec_chars _ _ H1 Hd).
  - exact (sdec_chars _ _ H2 Hd).
Qed.

Lemma plain_notin u d : Forall plain u → ¬ plain d → d ∉ u.
Proof. rewrite Forall_forall. intros H Hd Hin. by apply Hd, H. Qed.

(** One entry read back. *)
Lemma entry_parts u i :
  plain_uuid u → 0 <= i.1 → 0 <= i.2 →
  ∃ s, filter (λ c, c ≠ DASH) s = u ∧ tokens COLON (entry u i) = [s; interval_text i] ∧
       entry u i ≠ [] ∧ (COMMA ∉ entry u i) ∧ (0 ∉ entry u i).
Proof.
  intros [Hl Hp] H1 H2. destruct (dashed_spec u Hl) as (s & Hs & Hne & Hf & Hd).
  assert (Hns : ∀ d, d ≠ DASH → (¬ plain d) → d ∉ s)
    by (intros d ? Hpl; apply Hd; [done|by apply plain_notin]).
  assert (Hni : ∀ d, d ≠ DASH → isdigit d = false → d ∉ interval_text i).
  { intros d ? Hdig Hin. destruct (interval_text_chars i d H1 H2 Hin) as [|Hr]; [done|].
    apply isdigit_range in Hr. congruence. }
  assert (He : entry u i = join [COLON] [s; interval_text i])
    by (unfold entry; rewrite Hs; cbn [join]; by rewrite <- app_assoc).
  exists s. split_and!.
  - rewrite Hf. by apply filter_keep.
  - rewrite He. apply tokens_join. repeat constructor; [done| | |].
    + apply Hns; [done|]. by intros (_ & _ & ? & _).
    + unfold interval_text. intros Hn. apply (f_equal length) in Hn.
      rewrite !length_app in Hn. simpl in Hn. lia.
    + by apply Hni.
  - rewrite He. by destruct s.
  - rewrite He. cbn [join]. rewrite !elem_of_app, list_elem_of_singleton.
    intros [Hin|[?|Hin]]; [|done|by apply Hni in Hin].
    apply Hns in Hin; [done..|]. by intros (_ & _ & _ & ?).
  - rewrite He. cbn [join]. rewrite !elem_of_app, list_elem_of_singleton.
    intros [Hin|[?|Hin]]; [|done|by apply Hni in Hin].
    apply Hns in Hin; [done..|]. by intros (? & _).
Qed.

(** The bytes of [uuid_server] while 32-character UUIDs are read into it. *)
Definition uuid_ready (v : list Z) : Prop := ∃ x, length x = 32%nat ∧ v = x ++ replicate 32 0.

Lemma uuid_string_ready u : no_nul u → uuid_string (u ++ replicate 32 0) = Ok u.
Proof.
  intros Hu. unfold uuid_string. change (replicate 32 0) with (0 :: replicate 31 0).
  rewrite existsb_app. cbn [existsb]. rewrite Z.eqb_refl, orb_true_r, cstr_app by done. done.
Qed.

Lemma boot_entry u i p :
  plain_uuid u → 0 <= i.1 < 2 ^ 63 → 0 <= i.2 < 2 ^ 63 → uuid_ready (p_uuid p) →
  boot_subtokens 0 (tokens COLON (entry u i)) p =
  Ok (mkp (u ++ replicate 32 0) (p_events p) (emplace_back u i.1 i.2 (p_set p))).
Proof.
  intros Hu H1 H2 (x & Hx & Hv). pose proof Hu as [Hl Hp].
  destruct (entry_parts u i Hu) as (s & Hf & Ht & _); [lia..|]. rewrite Ht.
  cbn [boot_subtokens Nat.odd Nat.even negb].
  assert (Hlv : length (p_uuid p) = 64%nat) by (rewrite Hv, length_app, length_replicate, Hx; done).
  rewrite copy_uuid_spec by (rewrite ?Hf; lia). rewrite Hf, blit_ok by lia.
  cbn [mbind outcome_bind p_uuid]. unfold interval_text. rewrite sscanf_interval_text by done.
  change (Z.to_nat 0) with 0%nat. rewrite take_0, Hv, Hl. cbn [app Init.Nat.add].
  rewrite drop_app_length' by done.
  rewrite uuid_string_ready by (eapply Forall_impl; [exact Hp|by intros c (? & _)]). done.
Qed.

Definition emplace (g : gtid_set) (x : list Z * (Z * Z)) : gtid_set :=
  emplace_back x.1 x.2.1 x.2.2 g.

Definition good_item (x : list Z * (Z * Z)) : Prop :=
  plain_uuid x.1 ∧ 0 <= x.2.1 < 2 ^ 63 ∧ 0 <= x.2.2 < 2 ^ 63.

Lemma boot_entries l p :
  Forall good_item l → uuid_ready (p_uuid p) →
  ∃ p', boot_tokens (entries l) p = Ok p' ∧ p_set p' = fold_left emplace l (p_set p) ∧
        p_events p' = p_events p.
Proof.
  intros Hl. revert p. induction Hl as [|[u i] l (Hu & H1 & H2) _ IH]; intros p Hp; [by exists p|].
  cbn [entries fmap list_fmap boot_tokens fst snd]. cbn [fst snd] in *.
  rewrite boot_entry by done. cbn [mbind outcome_bind].
  destruct (IH (mkp (u ++ replicate 32 0) (p_events p) (emplace_back u i.1 i.2 (p_set p))))
    as (p' & Hb & Hs & He); [exists u; split; [apply Hu|done]|]. by exists p'.
Qed.

Lemma fold_emplace_same (u : list Z) (ivs pre : list (Z * Z)) (g : gtid_set) :
  Forall (λ i, 0 <= i.1 < 2 ^ 63 ∧ 0 <= i.2 < 2 ^ 63) ivs → default [] (g !! u) = pre →
  (pre ≠ [] → is_Some (g !! u)) → ivs ≠ [] →
  fold_left emplace ((λ i, (u, i)) <$> ivs) g = <[u := pre ++ ivs]> g.
Proof.
  intros Hi. revert pre g. induction Hi as [|[a b] ivs [Ha Hb] Hi IH]; intros pre g Hd Hs Hne; [done|].
  cbn [fmap list_fmap fold_left]. unfold emplace at 2, emplace_back. cbn [fst snd] in *.
  rewrite !i64_small, Hd by lia. destruct ivs as [|iv ivs]; [done|].
  rewrite (IH (pre ++ [(a, b)])).
  - by rewrite insert_insert_eq, <- app_assoc.
  - by rewrite lookup_insert_eq.
  - intros _. rewrite lookup_insert_eq. by eexists.
  - done.
Qed.

Lemma fold_emplace_flat (l : list (list Z * list (Z * Z))) (g : gtid_set) :
  NoDup l.*1 → (∀ u, u ∈ l.*1 → g !! u = None) →
  Forall (λ x, x.2 ≠ [] ∧ Forall (λ i, 0 <= i.1 < 2 ^ 63 ∧ 0 <= i.2 < 2 ^ 63) x.2) l →
  fold_left emplace (flat l) g = list_to_map l ∪ g.
Proof.
  revert g; induction l as [|[u ivs] l IH]; intros g Hnd Hg Hl.
  { cbn. by rewrite (left_id_L ∅ (∪)). }
  apply NoDup_cons in Hnd as [Hu Hnd]. apply Forall_cons in Hl as [[Hne Hi] Hl]. cbn [fst snd] in *.
  unfold flat. cbn [mbind list_bind fst snd]. rewrite fold_left_app.
  assert (Hgu : g !! u = None) by (apply Hg; by left).
  rewrite (fold_emplace_same u ivs []); [|done|by rewrite Hgu|done|done]. cbn [app].
  fold (flat l). rewrite IH; [|done| |done].
  - rewrite list_to_map_cons, <- insert_union_l, insert_union_r; [done|].
    by apply not_elem_of_list_to_map.
  - intros u' Hu'. rewrite lookup_insert_ne by (intros ->; done). apply Hg. by right.
Qed.

(** The order of a hash table's iteration: any enumeration of its entries. *)
Definition enumerates (order : gtid_set → list (list Z * list (Z * Z))) : Prop :=
  ∀ g, order g ≡ₚ map_to_list g.

Lemma enumerates_map order g : enumerates order → list_to_map (order g) = g.
Proof.
  intros H. rewrite (list_to_map_proper (order g) (map_to_list g)).
  - apply list_to_map_to_list.
  - rewrite (H g). apply NoDup_fst_map_to_list.
  - apply H.
Qed.

(** ** Increments *)
Lemma cstr_no_nul s : 0 ∉ s → cstr s = s.
Proof.
  induction s as [|c s IH]; intros Hs; [done|]. apply not_elem_of_cons in Hs as [Hc Hs].
  cbn [cstr]. rewrite (proj2 (Z.eqb_neq c 0)) by auto. by rewrite IH.
Qed.

Lemma sdec_notin n d : 0 <= n → isdigit d = false → d ∉ sdec n.
Proof.
  intros Hn Hd Hin. apply sdec_chars, isdigit_range in Hin; [congruence|done].
Qed.

Definition msg1 (uuid : list Z) (n : Z) : list Z := str "I1=" ++ uuid ++ [COLON] ++ sdec n.
Definition msg2 (n : Z) : list Z := str "I2=" ++ sdec n.

Lemma sdec_length n : 0 <= n < 2 ^ 63 → (length (sdec n) <= 20)%nat.
Proof.
  intros Hn. unfold sdec. rewrite (proj2 (Z.ltb_ge n 0)) by lia. unfold dec.
  assert (H : ∀ fuel m acc, (length (digits fuel m acc) <= fuel + length acc)%nat).
  { induction fuel as [|fuel IH]; intros m acc; [done|]. cbn [digits].
    destruct (m <? 10); [cbn [length]; lia|]. etrans; [apply IH|cbn [length]; lia]. }
  etrans; [apply (H 20%nat)|done].
Qed.

Lemma increment_1 uuid n p :
  length (p_uuid p) = 64%nat → (length uuid <= 55)%nat → (0 ∉ uuid) → (COLON ∉ uuid) → 0 <= n < 2 ^ 63 →
  handle_line (msg1 uuid n) p =
  Ok (mkp (uuid ++ 0 :: drop (S (length uuid)) (p_uuid p)) (p_events p + 1)
          (addGtid (uuid, n) (p_set p))).
Proof.
  intros Hp Hl H0 HC Hn. unfold handle_line, msg1.
  change (str "ST=") with [83; 84; 61]. change (str "I1=") with [73; 49; 61]. cbn [take app]. rewrite decide_False by done.
  pose proof (sdec_length n Hn).
  rewrite (proj2 (Z.leb_gt 80 _)) by (cbn [length]; rewrite !length_app; cbn [length]; lia).
  set (body := uuid ++ [COLON] ++ sdec n).
  assert (Hz : 0 ∉ body).
  { unfold body. rewrite !elem_of_app, list_elem_of_singleton.
    intros [?|[?|Hin]]; [done..|]. apply sdec_notin in Hin; [done|lia|done]. }
  rewrite (cstr_no_nul (_ :: _)) by (by repeat (apply not_elem_of_cons; split; [done|])).
  cbn [head default from_option id Z.eqb Pos.eqb].
  unfold increment. cbn [lookup list_lookup default from_option drop id Z.eqb Pos.eqb].
  rewrite (proj2 (Z.ltb_ge _ 3)) by (cbn [length]; lia).
  rewrite drop_0. unfold body. cbn [app]. rewrite strchr_app by done.
  rewrite take_app_length, blit_ok by lia. cbn [mbind outcome_bind].
  change (Z.to_nat 0) with 0%nat. rewrite take_0. cbn [app Init.Nat.add].
  destruct (drop (length uuid) (p_uuid p)) as [|g rest] eqn:Hd.
  { apply (f_equal length) in Hd. rewrite length_drop in Hd. simpl in Hd. lia. }
  rewrite write_next. cbn [mbind outcome_bind]. rewrite <- app_assoc. cbn [app].
  assert (Hrest : drop (S (length uuid)) (p_uuid p) = rest).
  { replace (S (length uuid)) with (length uuid + 1)%nat by lia. by rewrite <- drop_drop, Hd. }
  unfold uuid_string. rewrite existsb_app. cbn [existsb]. rewrite Z.eqb_refl, orb_true_r.
  rewrite cstr_app by (apply Forall_forall; by intros ? ? ->). cbn [mbind outcome_bind].
  replace (S (length uuid)) with (length (uuid ++ [COLON])) at 1 by (rewrite length_app; simpl; lia).
  change (uuid ++ COLON :: sdec n) with (uuid ++ [COLON] ++ sdec n).
  rewrite (assoc (++) uuid [COLON] (sdec n)), drop_app_length.
  rewrite Hrest. unfold sdec. rewrite (proj2 (Z.ltb_ge n 0)), atoll_dec, i64_small by lia. done.
Qed.

Lemma increment_2 uuid n p rest :
  p_uuid p = uuid ++ 0 :: rest → (0 ∉ uuid) → 0 <= n < 2 ^ 63 →
  handle_line (msg2 n) p = Ok (mkp (p_uuid p) (p_events p + 1) (addGtid (uuid, n) (p_set p))).
Proof.
  intros Hp H0 Hn. unfold handle_line, msg2.
  change (str "ST=") with [83; 84; 61]. change (str "I2=") with [73; 50; 61]. cbn [take app]. rewrite decide_False by done.
  pose proof (sdec_length n Hn).
  rewrite (proj2 (Z.leb_gt 80 _)) by (cbn [length]; lia).
  assert (Hz : 0 ∉ sdec n) by (apply sdec_notin; [lia|done]).
  rewrite (cstr_no_nul (_ :: _)) by (by repeat (apply not_elem_of_cons; split; [done|])).
  cbn [head default from_option id Z.eqb Pos.eqb].
  unfold increment. cbn [lookup list_lookup default from_option drop id Z.eqb Pos.eqb].
  rewrite (proj2 (Z.ltb_ge _ 3)) by (cbn [length]; lia).
  rewrite drop_0, Hp.
  unfold uuid_string. rewrite existsb_app. cbn [existsb]. rewrite Z.eqb_refl, orb_true_r.
  rewrite cstr_app by (apply Forall_forall; by intros ? ? ->). cbn [mbind outcome_bind].
  unfold sdec. rewrite (proj2 (Z.ltb_ge n 0)), atoll_dec, i64_small by lia. done.
Qed.

(** ** Properties *)

(** C39: the receive buffer implements the byte-at-a-time decoder. Whatever the
    sizes of the reads, and across every growth and compaction of the buffer,
    the event loop decodes a prefix of the stream exactly as [consume] does: it
    ends with the same GTID set, UUID and event count, its buffer holds exactly
    the unfinished line, it faults only when a line faults; and when every
    wake-up has data and there are enough of them, nothing of the stream is
    left unread. *)
Theorem run_decodes_stream malloc reads stream s :
  (∀ n, 0 <= n → length (malloc n) = Z.to_nat n) →
  wf s → NL ∉ window s → len s + Z.of_nat (length stream) < 2 ^ 62 →
  run_result malloc reads stream s.
Proof. intros. by apply run_refines. Qed.

Definition zeros (n : Z) : list Z := replicate (Z.to_nat n) 0.
Lemma zeros_length n : 0 <= n → length (zeros n) = Z.to_nat n.
Proof. intros. apply length_replicate. Qed.

Lemma run_decodes_stream_witness :
  run_result zeros [3; 1; 40]%nat (msg1 (str "ab") 7 ++ [NL] ++ msg2 8 ++ [NL] ++ str "I2=") (create zeros).
Proof.
  apply run_decodes_stream; [exact zeros_length|apply create_wf, zeros_length| |reflexivity].
  rewrite (proj2 (create_wf zeros zeros_length)). apply not_elem_of_nil.
Defined.

(** round trip of the textual GTID set. For a set whose UUIDs have 32
    characters, [gtid_executed_to_string] writes it without an exception in
    whatever order the hash table iterates, and a fresh reader that receives the
    text as its [ST=] bootstrap line rebuilds exactly the same set. *)
Theorem bootstrap_roundtrip order g ev :
  enumerates order → plain_set g →
  ∃ text p, gtid_executed_to_string order g = Ok text ∧
            handle_line (str "ST=" ++ text) (mkp (replicate 64 0) ev ∅) = Ok p ∧
            p_set p = g ∧ p_events p = ev.
Proof.
  intros Ho Hg.
  assert (Hall : ∀ u l, (u, l) ∈ order g → plain_uuid u ∧ l ≠ [] ∧
            Forall (λ i, 0 <= i.1 < 2 ^ 63 ∧ 0 <= i.2 < 2 ^ 63) l).
  { intros u l Hin. rewrite (Ho g) in Hin. apply elem_of_map_to_list in Hin. apply (Hg u l Hin). }
  assert (Hgood : Forall good_item (flat (order g))).
  { apply Forall_forall. intros [u i] Hin. unfold flat in Hin.
    apply list_elem_of_bind in Hin as ([u' l] & Hi & Hin). apply list_elem_of_fmap in Hi as (i' & Hi & ?).
    injection Hi as -> ->. destruct (Hall _ _ Hin) as (Hu & _ & Hi). rewrite Forall_forall in Hi.
    split; [done|]. by apply Hi. }
  exists (join [COMMA] (entries (flat (order g)))).
  destruct (boot_entries _ (mkp (replicate 64 0) ev ∅) Hgood) as (p & Hp & Hs & He);
    [by exists (replicate 32 0)|].
  exists p. split_and!; [| | |done].
  - apply to_string_entries, Forall_forall. intros [u l] Hin. apply (Hall _ _ Hin).
  - assert (Hent : Forall (λ w, w ≠ [] ∧ (COMMA ∉ w) ∧ (0 ∉ w)) (entries (flat (order g)))).
    { unfold entries. apply Forall_fmap. eapply Forall_impl; [exact Hgood|]. intros [u i] (Hu & ? & ?). cbn [fst snd] in *.
      destruct (entry_parts u i Hu) as (? & _ & _ & ?); [lia..|done]. }
    unfold handle_line. change (take 3 (str "ST=" ++ ?x)) with (str "ST="). rewrite decide_True by done.
    change (drop 3 (str "ST=" ++ ?x)) with x. unfold bootstrap.
    rewrite cstr_no_nul.
    + rewrite tokens_join; [done|]. eapply Forall_impl; [exact Hent|]. by intros w (? & ? & ?).
    + clear -Hent. induction Hent as [|w ws (_ & _ & Hw) Hws IH]; [apply not_elem_of_nil|].
      destruct ws as [|w2 ws]; [done|]. change (join [COMMA] (w :: w2 :: ws))
        with (w ++ [COMMA] ++ join [COMMA] (w2 :: ws)).
      rewrite !elem_of_app, list_elem_of_singleton. intros [?|[?|?]]; done.
  - rewrite Hs. cbn [p_set]. rewrite fold_emplace_flat.
    + rewrite (enumerates_map order g Ho). apply (right_id_L ∅ (∪)).
    + rewrite (Ho g). apply NoDup_fst_map_to_list.
    + intros. apply lookup_empty.
    + apply Forall_forall. intros [u l] Hin. apply (Hall _ _ Hin).
Qed.

Lemma bootstrap_roundtrip_witness :
  let g := <[replicate 32 97 := [(1, 5); (7, 9)]]> (∅ : gtid_set) in
  ∃ text p, gtid_executed_to_string map_to_list g = Ok text ∧
            handle_line (str "ST=" ++ text) (mkp (replicate 64 0) 0 ∅) = Ok p ∧
            p_set p = g ∧ p_events p = 0.
Proof.
  apply (bootstrap_roundtrip map_to_list); [by intros g|]. apply map_Forall_insert_2; [|done].
  split_and!; [|done|].
  - split; [done|]. repeat constructor; done.
  - repeat constructor; done.
Defined.

(** an [I1=uuid:n] line makes [uuid] the current server and records its
    transaction [n]; the [I2=m] line that follows records [m] for the same
    server; each counts one event. *)
Theorem increments_recorded uuid n m p :
  length (p_uuid p) = 64%nat → (length uuid <= 55)%nat → (0 ∉ uuid) → (COLON ∉ uuid) →
  0 <= n < 2 ^ 63 → 0 <= m < 2 ^ 63 →
  ∃ p1 p2, handle_line (msg1 uuid n) p = Ok p1 ∧ handle_line (msg2 m) p1 = Ok p2 ∧
    p_set p1 = addGtid (uuid, n) (p_set p) ∧
    p_set p2 = addGtid (uuid, m) (addGtid (uuid, n) (p_set p)) ∧
    p_events p2 = p_events p + 2 ∧ length (p_uuid p2) = 64%nat.
Proof.
  intros Hp Hl H0 HC Hn Hm. eexists _, _. rewrite increment_1 by done. split; [done|].
  erewrite (increment_2 uuid m) by done. split; [done|]. cbn [p_set p_events p_uuid].
  split_and!; [done..|lia|]. rewrite length_app. cbn [length]. rewrite length_drop. lia.
Qed.

Lemma increments_recorded_witness :
  ∃ p1 p2, handle_line (msg1 (str "ab") 3) (mkp (replicate 64 0) 0 ∅) = Ok p1 ∧
    handle_line (msg2 4) p1 = Ok p2 ∧
    p_set p1 = addGtid (str "ab", 3) ∅ ∧
    p_set p2 = addGtid (str "ab", 4) (addGtid (str "ab", 3) ∅) ∧
    p_events p2 = 0 + 2 ∧ length (p_uuid p2) = 64%nat.
Proof.
  apply (increments_recorded (str "ab") 3 4 (mkp (replicate 64 0) 0 ∅)); try done.
  - simpl; lia.
  - apply (bool_decide_unpack _). vm_compute. exact I.
  - apply (bool_decide_unpack _). vm_compute. exact I.
Defined.

(** a line of 80 bytes or more that is not a bootstrap overflows [rec_msg]:
    the function writes past its end whatever the bytes are. *)
Theorem long_line_overflows line p :
  take 3 line ≠ str "ST=" → (80 <= length line)%nat → handle_line line p = Fault OutOfBounds.
Proof.
  intros H Hl. unfold handle_line. rewrite decide_False by done.
  by rewrite (proj2 (Z.leb_le 80 _)) by lia.
Qed.

Lemma long_line_overflows_witness :
  handle_line (replicate 80 88) (mkp (replicate 64 0) 0 ∅) = Fault OutOfBounds.
Proof. apply long_line_overflows; [discriminate|vm_compute; lia]. Defined.
