(* ===== verification/Stmt.v ===== *)
(** * Prepared statements: long data and metadata (lib/MySQL_PreparedStatement.cpp)

    [LongData] is the store of the parameters a client sends in pieces;
    [GlobalInfo] the metadata of one statement; the cache that shares it is in
    [StmtManager].  The 64-bit hash and the sizes of the client library's
    structures are arguments. *)
From S2P Require Import Prelude GenUtils StringUtils.

(** ** StmtLongDataHandler

    The array holds pointers to entries that nothing else points to; the model
    keeps each entry in its cell, and the update through the pointer rewrites
    the cell. *)
Module LongData.

Record stmt_long_data_t := mk {
  stmt_id : Z; param_id : Z; data : list Z; size : Z; is_null : bool }.

#[export] Instance stmt_long_data_t_eq_dec : EqDecision stmt_long_data_t.
Proof. solve_decision. Defined.

Abbreviation array := (PtrArray.t stmt_long_data_t).

Definition is_key (sid pid : Z) (d : stmt_long_data_t) : bool :=
  (stmt_id d =? sid) && (param_id d =? pid).

(** The first entry of the key at index [i] or above. *)
Fixpoint find_key (fuel : nat) (i sid pid : Z) (a : array) : outcome (option (Z * stmt_long_data_t)) :=
  match fuel with
  | O => Ok None
  | S fuel' =>
      if i <? PtrArray.len a then
        sld ← PtrArray.index i a;
        if is_key sid pid sld then Ok (Some (i, sld)) else find_key fuel' (i + 1) sid pid a
      else Ok None
  end.

Definition add (_stmt_id _param_id : Z) (_data : list Z) (a : array) : outcome (bool * array) :=
  r ← find_key (Z.to_nat (PtrArray.len a)) 0 _stmt_id _param_id a;
  match r with
  | Some (i, sld) =>
      let sld' := mk (stmt_id sld) (param_id sld) (data sld ++ _data)
                     (u64 (size sld + Z.of_nat (length _data))) (is_null sld) in
      d ← write_at (PtrArray.pdata a) i (Some sld');
      Ok (true, PtrArray.mk (PtrArray.len a) (PtrArray.size a) d)
  | None =>
      a ← PtrArray.add (mk _stmt_id _param_id _data (Z.of_nat (length _data)) false) a;
      Ok (false, a)
  end.

(** The loop of [reset]: the index is not advanced past an entry that was
    swapped in. *)
Fixpoint reset_loop (fuel : nat) (i cnt _stmt_id : Z) (a : array) : outcome (Z * array) :=
  match fuel with
  | O => Fault Diverges
  | S fuel' =>
      if i <? PtrArray.len a then
        sld ← PtrArray.index i a;
        if stmt_id sld =? _stmt_id then
          '(_, a) ← PtrArray.remove_index_fast i a;
          reset_loop fuel' i (cnt + 1) _stmt_id a
        else reset_loop fuel' (i + 1) cnt _stmt_id a
      else Ok (cnt, a)
  end.

Definition reset (_stmt_id : Z) (a : array) : outcome (Z * array) :=
  reset_loop (S (Z.to_nat (PtrArray.len a))) 0 0 _stmt_id a.

(** The data pointer, with what [*_size] and [*_is_null] point to. *)
Definition get (_stmt_id _param_id : Z) (a : array) : outcome (option (list Z * Z * bool)) :=
  r ← find_key (Z.to_nat (PtrArray.len a)) 0 _stmt_id _param_id a;
  Ok match r with Some (_, sld) => Some (data sld, size sld, is_null sld) | None => None end.

(** *** The abstract store: for each (statement, parameter) its bytes *)
Abbreviation store := (gmap (Z * Z) (list Z)).

Definition key (d : stmt_long_data_t) : Z * Z := (stmt_id d, param_id d).

Definition sized (d : stmt_long_data_t) : Prop :=
  size d = Z.of_nat (length (data d)) ∧ is_null d = false.

Definition as_map (l : list stmt_long_data_t) : store := list_to_map ((λ d, (key d, data d)) <$> l).

Definition holds (a : array) (m : store) : Prop :=
  ∃ l, PtrArray.repr a l ∧ NoDup (key <$> l) ∧ Forall sized l ∧ m = as_map l.

Lemma keys_fst l : ((λ d, (key d, data d)) <$> l).*1 = key <$> l.
Proof. by rewrite <- list_fmap_compose. Qed.

Lemma as_map_lookup l k v :
  NoDup (key <$> l) → as_map l !! k = Some v ↔ ∃ d, d ∈ l ∧ key d = k ∧ data d = v.
Proof.
  intros Hnd. unfold as_map. rewrite <- elem_of_list_to_map by (by rewrite keys_fst).
  rewrite list_elem_of_fmap. naive_solver.
Qed.

Lemma as_map_perm l l' : NoDup (key <$> l) → l ≡ₚ l' → as_map l = as_map l'.
Proof. intros Hnd Hp. apply list_to_map_proper; [by rewrite keys_fst|by rewrite Hp]. Qed.

Lemma as_map_none l k : as_map l !! k = None ↔ k ∉ key <$> l.
Proof. unfold as_map. rewrite <- not_elem_of_list_to_map. by rewrite keys_fst. Qed.

Lemma is_key_true sid pid d : is_key sid pid d = true ↔ key d = (sid, pid).
Proof. unfold is_key, key. rewrite andb_true_iff, !Z.eqb_eq. naive_solver. Qed.

Lemma find_key_repr fuel (i : nat) sid pid a l :
  PtrArray.repr a l → (length l - i <= fuel)%nat → (i <= length l)%nat →
  find_key fuel (Z.of_nat i) sid pid a =
  Ok ((λ p, (Z.of_nat (i + p.1), p.2)) <$> list_find (λ d, is_key sid pid d = true) (drop i l)).
Proof.
  intros Hr. pose proof Hr as (Hlen & _). revert i.
  induction fuel as [|fuel IH]; intros i Hf Hi; cbn [find_key].
  { by rewrite drop_ge by lia. }
  destruct (Z.ltb_spec (Z.of_nat i) (PtrArray.len a)); [|by rewrite drop_ge by lia].
  destruct (lookup_lt_is_Some_2 l i) as [y Hy]; [lia|].
  rewrite (PtrArray.index_repr _ _ _ _ Hr Hy), (drop_S _ _ _ Hy). cbn [mbind outcome_bind list_find].
  destruct (is_key sid pid y) eqn:E.
  - rewrite decide_True by done. cbn [fmap option_fmap option_map fst snd]. by rewrite Nat.add_0_r.
  - rewrite decide_False by congruence. replace (Z.of_nat i + 1) with (Z.of_nat (S i)) by lia.
    rewrite IH by lia. f_equal. destruct (list_find _ (drop (S i) l)) as [[j d]|]; [|done].
    cbn [fmap option_fmap option_map fst snd]. do 3 f_equal. simpl. lia.
Qed.

(** The scan finds the entry of the key exactly when the store has the key. *)
Lemma find_key_holds sid pid a (l : list stmt_long_data_t) :
  PtrArray.repr a l → NoDup (key <$> l) →
  match as_map l !! (sid, pid) with
  | Some v => ∃ i d, find_key (Z.to_nat (PtrArray.len a)) 0 sid pid a = Ok (Some (Z.of_nat i, d)) ∧
                     l !! i = Some d ∧ key d = (sid, pid) ∧ data d = v
  | None => find_key (Z.to_nat (PtrArray.len a)) 0 sid pid a = Ok None
  end.
Proof.
  intros Hr Hnd. pose proof Hr as (Hlen & _).
  pose proof (find_key_repr (Z.to_nat (PtrArray.len a)) 0 sid pid a l Hr ltac:(lia) ltac:(lia)) as Hf.
  change (Z.of_nat 0) with 0 in Hf. rewrite drop_0 in Hf.
  destruct (list_find (λ d, is_key sid pid d = true) l) as [[i d]|] eqn:E.
  - apply list_find_Some in E as (Hi & Hk & _). apply is_key_true in Hk.
    rewrite (proj2 (as_map_lookup l (sid, pid) (data d) Hnd)).
    + exists i, d. by rewrite Hf.
    + exists d. split; [by eapply list_elem_of_lookup_2|done].
  - rewrite list_find_None, Forall_forall in E.
    destruct (as_map l !! (sid, pid)) as [v|] eqn:Hv; [|done].
    apply (as_map_lookup l _ _ Hnd) in Hv as (d & Hd & Hk & _).
    destruct (E d Hd). by apply is_key_true.
Qed.

Lemma list_filter_keep sid (l : list stmt_long_data_t) :
  Forall (λ d, stmt_id d ≠ sid) l → filter (λ d, stmt_id d ≠ sid) l = l.
Proof. induction 1 as [|d l Hd _ IH]; [done|]. by rewrite filter_cons_True, IH. Qed.

Lemma list_filter_none sid (l : list stmt_long_data_t) :
  Forall (λ d, stmt_id d ≠ sid) l → filter (λ d, stmt_id d = sid) l = [].
Proof. induction 1 as [|d l Hd _ IH]; [done|]. by rewrite filter_cons_False. Qed.

Lemma reset_loop_repr fuel (i : nat) cnt sid a l :
  PtrArray.repr a l → Z.of_nat (length l) < 2 ^ 31 → (length l - i < fuel)%nat →
  Forall (λ d, stmt_id d ≠ sid) (take i l) →
  ∃ a' l', reset_loop fuel (Z.of_nat i) cnt sid a =
             Ok (cnt + Z.of_nat (length (filter (λ d, stmt_id d = sid) l)), a') ∧
           PtrArray.repr a' l' ∧ l' ≡ₚ filter (λ d, stmt_id d ≠ sid) l.
Proof.
  revert i cnt a l; induction fuel as [|fuel IH]; intros i cnt a l Hr Hmax Hf Hpre; [lia|].
  pose proof Hr as (Hlen & _). cbn [reset_loop].
  destruct (Z.ltb_spec (Z.of_nat i) (PtrArray.len a)).
  2: { rewrite take_ge in Hpre by lia. exists a, l.
       rewrite (list_filter_none sid), (list_filter_keep sid) by done. by rewrite Z.add_0_r. }
  destruct (lookup_lt_is_Some_2 l i) as [y Hy]; [lia|].
  rewrite (PtrArray.index_repr _ _ _ _ Hr Hy). cbn [mbind outcome_bind].
  destruct (Z.eqb_spec (stmt_id y) sid) as [He|He].
  - destruct (swap_remove_is_Some i l) as (x & l1 & Hsw & Hx); [lia|].
    rewrite Hy in Hx. injection Hx as <-.
    destruct (PtrArray.remove_index_fast_repr a l i y l1 Hr Hsw Hmax) as (a1 & -> & Hr1).
    cbn [mbind outcome_bind]. pose proof (swap_remove_length _ _ _ _ Hsw).
    pose proof (swap_remove_perm _ _ _ _ Hsw) as Hp.
    destruct (IH i (cnt + 1) a1 l1 Hr1) as (a' & l' & -> & Hr' & Hl'); [lia|lia| |].
    { by rewrite (swap_remove_take _ _ _ _ Hsw). }
    exists a', l'. rewrite Hp, !filter_cons, decide_True, decide_False by (by auto). cbn [length].
    split_and!; [f_equal; f_equal; lia|done..].
  - replace (Z.of_nat i + 1) with (Z.of_nat (S i)) by lia. apply IH; [done..|lia|].
    rewrite (take_S_r _ _ _ Hy). apply Forall_app. auto.
Qed.

(** *** Any history of long-data commands *)
Inductive op :=
  | Add (sid pid : Z) (d : list Z)
  | Reset (sid : Z)
  | Get (sid pid : Z).

Inductive result :=
  | Appended (b : bool)
  | Count (n : Z)
  | Value (v : option (list Z * Z * bool)).

Definition exec (o : op) (a : array) : outcome (result * array) :=
  match o with
  | Add s p d => '(b, a) ← add s p d a; Ok (Appended b, a)
  | Reset s => '(n, a) ← reset s a; Ok (Count n, a)
  | Get s p => v ← get s p a; Ok (Value v, a)
  end.

Definition of_stmt (s : Z) (kv : Z * Z * list Z) : Prop := kv.1.1 = s.
#[export] Instance of_stmt_dec s kv : Decision (of_stmt s kv).
Proof. unfold of_stmt. apply _. Defined.

Definition spec_op (o : op) (m : store) : result * store :=
  match o with
  | Add s p d => match m !! (s, p) with
                 | Some v => (Appended true, <[(s, p) := v ++ d]> m)
                 | None => (Appended false, <[(s, p) := d]> m)
                 end
  | Reset s => (Count (Z.of_nat (base.size (filter (of_stmt s) m))), filter (λ kv, ¬ of_stmt s kv) m)
  | Get s p => (Value ((λ v, (v, Z.of_nat (length v), false)) <$> m !! (s, p)), m)
  end.

Fixpoint exec_all (os : list op) (a : array) : outcome (list result * array) :=
  match os with
  | [] => Ok ([], a)
  | o :: os' => '(r, a) ← exec o a; '(rs, a) ← exec_all os' a; Ok (r :: rs, a)
  end.
Fixpoint spec_all (os : list op) (m : store) : list result * store :=
  match os with
  | [] => ([], m)
  | o :: os' => let '(r, m) := spec_op o m in let '(rs, m) := spec_all os' m in (r :: rs, m)
  end.

(** The bytes a history can store: the sizes are 64-bit. *)
Definition op_bytes (o : op) : Z := match o with Add _ _ d => Z.of_nat (length d) | _ => 0 end.
Definition stored (m : store) : Z := map_total (λ v, Z.of_nat (length v)) m.

Lemma as_map_cons d l : as_map (d :: l) = <[key d := data d]> (as_map l).
Proof. done. Qed.

Lemma as_map_filter s l :
  NoDup (key <$> l) →
  as_map (filter (λ d, stmt_id d ≠ s) l) = filter (λ kv, ¬ of_stmt s kv) (as_map l) ∧
  base.size (filter (of_stmt s) (as_map l)) = length (filter (λ d, stmt_id d = s) l).
Proof.
  induction l as [|d l IH]; [done|]. rewrite fmap_cons, NoDup_cons. intros [Hd Hnd].
  destruct (IH Hnd) as [IH1 IH2]. rewrite !filter_cons, as_map_cons.
  assert (Hnone : as_map l !! key d = None) by (by apply as_map_none).
  assert (Hof : of_stmt s (key d, data d) ↔ stmt_id d = s) by done.
  destruct (decide (stmt_id d = s)) as [He|He].
  - rewrite decide_False by auto. rewrite map_filter_insert_False by (rewrite Hof; auto).
    rewrite map_filter_insert_True by (by rewrite Hof). rewrite delete_id by done.
    split; [done|]. rewrite map_size_insert_None.
    + cbn [length]. by rewrite IH2.
    + apply map_lookup_filter_None. by left.
  - rewrite decide_True by done. rewrite as_map_cons, IH1.
    rewrite (map_filter_insert_True _ _ (key d)) by (rewrite Hof; auto).
    rewrite (map_filter_insert_False _ _ (key d)) by (rewrite Hof; auto). by rewrite delete_id.
Qed.

Lemma as_map_size l : NoDup (key <$> l) → base.size (as_map l) = length l.
Proof.
  induction l as [|d l IH]; [done|]. rewrite fmap_cons, NoDup_cons. intros [Hd Hnd].
  rewrite as_map_cons, map_size_insert_None by (by apply as_map_none). by rewrite IH.
Qed.

(** Replacing an entry by one of the same key. *)
Lemma as_map_insert l (i : nat) d d' :
  NoDup (key <$> l) → l !! i = Some d → key d' = key d →
  NoDup (key <$> <[i := d']> l) ∧ as_map (<[i := d']> l) = <[key d := data d']> (as_map l).
Proof.
  intros Hnd Hi Hk. pose proof (lookup_lt_Some _ _ _ Hi).
  assert (Hp : l ≡ₚ d :: (take i l ++ drop (S i) l))
    by (rewrite <- (take_drop_middle l i d Hi) at 1; by rewrite Permutation_middle).
  assert (Hp' : <[i := d']> l ≡ₚ d' :: (take i l ++ drop (S i) l))
    by (rewrite insert_take_drop by done; by rewrite Permutation_middle).
  assert (Hnd' : NoDup (key <$> <[i := d']> l)).
  { rewrite list_fmap_insert, Hk, <- list_fmap_insert, list_insert_id; done. }
  split; [done|]. rewrite (as_map_perm _ _ Hnd' Hp'), (as_map_perm _ _ Hnd Hp), !as_map_cons, Hk.
  by rewrite insert_insert_eq.
Qed.

Lemma long_exec_refines o a m :
  holds a m → Z.of_nat (base.size m) < 2 ^ 31 → stored m + op_bytes o < 2 ^ 64 →
  ∃ a', exec o a = Ok ((spec_op o m).1, a') ∧ holds a' (spec_op o m).2.
Proof.
  intros (l & Hr & Hnd & Hs & ->) Hmax Hb. rewrite as_map_size in Hmax by done.
  destruct o as [s p d|s|s p]; cbn [exec spec_op fst snd op_bytes] in *.
  - unfold add. pose proof (find_key_holds s p a l Hr Hnd) as Hf.
    destruct (as_map l !! (s, p)) as [v|] eqn:Hv.
    + destruct Hf as (i & e & -> & Hi & Hk & <-). cbn [mbind outcome_bind].
      destruct (proj1 (Forall_lookup _ l) Hs _ _ Hi) as [Hsz Hnull].
      assert (Hle : Z.of_nat (length (data e)) <= stored (as_map l)).
      { apply (map_total_lookup_le (λ v, Z.of_nat (length v)) _ (s, p)); [intros; lia|done]. }
      rewrite Hsz, u64_small by lia. set (e' := mk _ _ _ _ _).
      destruct (PtrArray.set_repr a l i e' Hr (lookup_lt_Some _ _ _ Hi)) as (d' & -> & Hr').
      cbn [mbind outcome_bind]. eexists. split; [done|].
      destruct (as_map_insert l i e e' Hnd Hi eq_refl) as [Hnd' Hm]. rewrite <- Hk.
      exists (<[i := e']> l). split_and!; [done..| |done].
      apply Forall_insert; [done|]. split; [|done]. unfold e'; cbn [size data]. rewrite length_app. lia.
    + rewrite Hf. cbn [mbind outcome_bind]. set (e := mk _ _ _ _ _).
      destruct (PtrArray.add_repr a l e Hr ltac:(lia)) as (a' & -> & Hr'). cbn [mbind outcome_bind].
      eexists. split; [done|]. apply as_map_none in Hv.
      assert (Hp : l ++ [e] ≡ₚ e :: l) by (by rewrite Permutation_app_comm).
      assert (Hnd' : NoDup (key <$> l ++ [e])) by (rewrite Hp, fmap_cons; by constructor).
      exists (l ++ [e]). rewrite (as_map_perm _ _ Hnd' Hp), as_map_cons.
      split_and!; [done..| |done]. apply Forall_app; split; [done|]. by repeat constructor.
  - pose proof Hr as (Hlen & _).
    destruct (reset_loop_repr (S (Z.to_nat (PtrArray.len a))) 0 0 s a l Hr) as (a' & l' & Hrs & Hr' & Hp);
      [lia|lia|constructor|]. unfold reset. change (Z.of_nat 0) with 0 in Hrs. rewrite Hrs.
    cbn [mbind outcome_bind]. destruct (as_map_filter s l Hnd) as [Hm Hc]. rewrite Hc.
    eexists. split; [done|].
    assert (Hnd1 : NoDup (key <$> filter (λ d, stmt_id d ≠ s) l)).
    { eapply sublist_NoDup; [exact Hnd|]. apply fmap_sublist, sublist_filter. }
    exists l'. split_and!; [done|by rewrite Hp| |].
    + rewrite Hp. apply Forall_forall. intros d [_ Hd]%list_elem_of_filter.
      by apply (proj1 (Forall_forall _ _) Hs).
    + by rewrite <- Hm, (as_map_perm _ _ Hnd1 (symmetry Hp)).
  - unfold get. pose proof (find_key_holds s p a l Hr Hnd) as Hf.
    exists a. split; [|by exists l]. destruct (as_map l !! (s, p)) as [v|].
    + destruct Hf as (i & e & -> & Hi & _ & <-). cbn [mbind outcome_bind fmap option_fmap option_map].
      destruct (proj1 (Forall_lookup _ l) Hs _ _ Hi) as [-> ->]. done.
    + by rewrite Hf.
Qed.

Lemma spec_growth o m :
  (base.size (spec_op o m).2 <= S (base.size m))%nat ∧
  stored (spec_op o m).2 <= stored m + op_bytes o.
Proof.
  assert (Hpos : ∀ (m : store) k v, m !! k = Some v → 0 <= Z.of_nat (length v)) by (intros; lia).
  destruct o as [s p d|s|s p]; cbn [spec_op fst snd op_bytes]; unfold stored.
  - destruct (m !! (s, p)) as [v|] eqn:Hv; cbn [snd].
    + rewrite map_size_insert_Some by (by rewrite Hv). rewrite (map_total_update _ _ _ v) by done.
      rewrite length_app. lia.
    + rewrite map_size_insert_None, map_total_insert_new by done. lia.
  - split; [|rewrite Z.add_0_r; by apply map_total_filter_le, Hpos].
    etrans; [apply map_size_filter|lia].
  - lia.
Qed.

Definition total_bytes (os : list op) : Z := foldr (λ o n, op_bytes o + n) 0 os.

(** the long-data store is a map. Any history of pieces, resets and reads
    behaves as a map from (statement, parameter) to bytes: a piece is appended
    to what the parameter has, a read gives all the pieces in order with their
    exact size, and a reset removes exactly the entries of its statement -- every
    one of them, despite the swap removals during the scan -- and counts them. *)
Theorem long_data_refines_map os a m :
  holds a m → Z.of_nat (base.size m + length os) < 2 ^ 31 → stored m + total_bytes os < 2 ^ 64 →
  ∃ a', exec_all os a = Ok ((spec_all os m).1, a') ∧ holds a' (spec_all os m).2.
Proof.
  revert a m; induction os as [|o os IH]; intros a m Ha Hn Hb; cbn [exec_all spec_all].
  { by exists a. }
  cbn [length total_bytes foldr] in *. fold (total_bytes os) in Hb.
  assert (Hnn : 0 <= total_bytes os).
  { clear. unfold total_bytes. induction os as [|o os IH]; [done|]. cbn [foldr].
    destruct o; cbn [op_bytes]; lia. }
  destruct (long_exec_refines o a m Ha ltac:(lia) ltac:(lia)) as (a1 & -> & Ha1). cbn [mbind outcome_bind].
  destruct (spec_growth o m) as [Hg1 Hg2].
  destruct (spec_op o m) as [r m1]. cbn [fst snd] in *.
  destruct (IH a1 m1 Ha1 ltac:(lia) ltac:(lia)) as (a2 & -> & Ha2). cbn [mbind outcome_bind].
  destruct (spec_all os m1) as [rs m2]. by exists a2.
Qed.

Lemma holds_empty : holds (PtrArray.mk 0 0 []) ∅.
Proof. exists []. split_and!; [apply PtrArray.repr_empty|constructor|constructor|done]. Qed.

Lemma long_data_refines_map_witness :
  ∃ a', exec_all [Add 1 0 [97]; Add 2 0 [98]; Add 1 0 [99]; Get 1 0; Reset 1; Get 1 0] (PtrArray.mk 0 0 [])
        = Ok ([Appended false; Appended false; Appended true; Value (Some ([97; 99], 2, false));
               Count 1; Value None], a') ∧ holds a' {[(2, 0) := [98]]}.
Proof.
  pose proof (long_data_refines_map
    [Add 1 0 [97]; Add 2 0 [98]; Add 1 0 [99]; Get 1 0; Reset 1; Get 1 0] (PtrArray.mk 0 0 []) ∅
    holds_empty ltac:(vm_compute; reflexivity) ltac:(vm_compute; reflexivity)) as H.
  replace (spec_all _ ∅) with
    ([Appended false; Appended false; Appended true; Value (Some ([97; 99], 2, false)); Count 1; Value None],
     {[(2, 0) := [98]]} : store) in H by (vm_compute; reflexivity).
  exact H.
Defined.
End LongData.

(** ** MySQL_STMT_Global_info *)
Module GlobalInfo.

(** [MYSQL_FIELD]: the strings the code duplicates and compares, and the bytes
    of the other members (lengths, type, flags), which it only copies. *)
Record field := mk_field {
  name : option (list Z); org_name : option (list Z); table : option (list Z);
  org_table : option (list Z); db : option (list Z); catalog : option (list Z);
  def : option (list Z); others : list Z }.

(** What the code reads of a backend's [MYSQL_STMT]. *)
Record mysql_stmt := mk_stmt {
  s_stmt_id : Z; param_count : Z; field_count : Z; s_warning_count : Z; s_fields : list field }.

Record t := mk {
  digest_text : option (list Z); hash : Z; username : list Z; schemaname : list Z;
  query : list Z; query_length : Z; ref_count_client : Z; ref_count_server : Z;
  statement_id : Z; num_columns : Z; num_params : Z; warning_count : Z; fields : list field;
  first_comment : option (list Z); total_mem_usage : Z; is_select_NOT_for_update : bool }.

Definition set_refs (c s : Z) (a : t) : t :=
  mk (digest_text a) (hash a) (username a) (schemaname a) (query a) (query_length a) c s
     (statement_id a) (num_columns a) (num_params a) (warning_count a) (fields a)
     (first_comment a) (total_mem_usage a) (is_select_NOT_for_update a).

Definition set_mem (n : Z) (a : t) : t :=
  mk (digest_text a) (hash a) (username a) (schemaname a) (query a) (query_length a)
     (ref_count_client a) (ref_count_server a) (statement_id a) (num_columns a) (num_params a)
     (warning_count a) (fields a) (first_comment a) n (is_select_NOT_for_update a).

Definition set_metadata (params columns : Z) (fs : list field) (a : t) : t :=
  mk (digest_text a) (hash a) (username a) (schemaname a) (query a) (query_length a)
     (ref_count_client a) (ref_count_server a) (statement_id a) columns params
     (warning_count a) fs (first_comment a) (total_mem_usage a) (is_select_NOT_for_update a).

(** *** stmt_compute_hash *)
Definition DEL1 : list Z := str "-ujhtgf76y576574fhYTRDFwdt-".
Definition DEL2 : list Z := str "-8k7jrhtrgJHRgrefgreRFewg6-".
Definition hash_input (user schema query : list Z) : list Z := user ++ DEL1 ++ schema ++ DEL2 ++ query.
Definition stmt_compute_hash (Hash64 : list Z → Z → Z) (user schema query : list Z) : Z :=
  Hash64 (hash_input user schema query) 0.

(** *** The detection of locking reads *)
(** [strncasecmp(q + off, lit, strlen(lit)) == 0], the bytes compared being
    inside the query. *)
Definition casecmp_at (q : list Z) (off : Z) (lit : list Z) : outcome bool :=
  let n := length lit in
  if (off <? 0) || (Z.of_nat (length q) <? off + Z.of_nat n) then Fault OutOfBounds
  else Ok (bool_decide (lower <$> take n (drop (Z.to_nat off) q) = lower <$> lit)).

(** The flag, and whether [select_for_update_or_equivalent] was increased. *)
Definition search_select (q : list Z) : outcome (bool * bool) :=
  let ql := Z.of_nat (length q) in
  if negb (7 <=? ql) then Ok (false, false) else
  select ← casecmp_at q 0 (str "SELECT ");
  if negb select then Ok (false, false) else
  if negb (17 <=? ql) then Ok (true, false) else
  for_update ← casecmp_at q (ql - 11) (str " FOR UPDATE");
  if for_update : bool then Ok (false, true) else
  for_share ← casecmp_at q (ql - 10) (str " FOR SHARE");
  if for_share : bool then Ok (false, true) else
  if negb (25 <=? ql) then Ok (true, false) else
  lock_in ← casecmp_at q (ql - 19) (str " LOCK IN SHARE MODE");
  if lock_in : bool then Ok (false, true) else
  nowait ← casecmp_at q (ql - 7) (str " NOWAIT");
  if nowait : bool then Ok (false, true) else
  skip ← casecmp_at q (ql - 12) (str " SKIP LOCKED");
  if skip : bool then Ok (false, true) else
  let buf := cstr (if 128 <=? ql then drop (Z.to_nat (ql - 128)) q else q) in
  if strcasestr buf (str " FOR ") then
    if strcasestr buf (str " FOR UPDATE ") then Ok (false, true)
    else if strcasestr buf (str " FOR SHARE ") then Ok (false, true)
    else Ok (true, false)
  else Ok (true, false).

(** *** Memory accounting, construction, refresh *)
Section sizes.
(** [sizeof] of the class and of the client library's [MYSQL_BIND] and
    [MYSQL_FIELD], and of a pointer. *)
Context (sizeof_info sizeof_bind sizeof_field sizeof_ptr : Z).

Definition string_size (s : option (list Z)) : Z :=
  match s with Some b => Z.of_nat (length b) + 1 | None => 0 end.

Definition field_size (f : field) : Z :=
  string_size (name f) + string_size (org_name f) + string_size (table f) +
  string_size (org_table f) + string_size (db f) + string_size (catalog f) + string_size (def f).

Definition calculate_mem_usage (a : t) : t :=
  set_mem (u64 (sizeof_info + num_params a * (sizeof_bind + sizeof_ptr)
                + num_columns a * (sizeof_field + sizeof_ptr) + query_length a + 1
                + string_size (Some (username a)) + string_size (Some (schemaname a))
                + string_size (first_comment a) + string_size (digest_text a)
                + foldr (λ f n, field_size f + n) 0 (fields a))) a.

(** The copies of the first [num_columns] fields of the backend's statement. *)
Definition copy_fields (columns : Z) (stmt : mysql_stmt) : outcome (list field) :=
  if Z.of_nat (length (s_fields stmt)) <? columns then Fault OutOfBounds
  else Ok (take (Z.to_nat columns) (s_fields stmt)).

(** The constructor: the object and whether the locking-read counter grew. *)
Definition create (Hash64 : list Z → Z → Z) (id : Z) (u s q : list Z) (fc : option (list Z))
    (stmt : mysql_stmt) (_h : Z) : outcome (t * bool) :=
  sel ← search_select q;
  fs ← copy_fields (u16 (field_count stmt)) stmt;
  Ok (calculate_mem_usage
        (mk None (if _h =? 0 then stmt_compute_hash Hash64 u s q else _h) u s q (Z.of_nat (length q)) 0 0
            id (u16 (field_count stmt)) (u16 (param_count stmt)) (u16 (s_warning_count stmt)) fs fc 0 sel.1),
      sel.2).

Definition names (f : field) : list (option (list Z)) :=
  [name f; org_name f; table f; org_table f; db f; catalog f; def f].

(** One turn of the comparison loop per stored field. *)
Fixpoint compare_fields (stored : list field) (i : nat) (stmt : mysql_stmt) : outcome bool :=
  match stored with
  | [] => Ok false
  | fd :: r =>
      fs ← read_at (s_fields stmt) (Z.of_nat i);
      if bool_decide (names fd = names fs) then compare_fields r (S i) stmt else Ok true
  end.

Definition update_metadata (stmt : mysql_stmt) (a : t) : outcome t :=
  need_refresh ← (if negb (num_params a =? param_count stmt) || negb (num_columns a =? field_count stmt)
                  then Ok true else compare_fields (fields a) 0 stmt);
  if need_refresh : bool then
    let columns := u16 (field_count stmt) in
    fs ← copy_fields columns stmt;
    Ok (calculate_mem_usage (set_metadata (u16 (param_count stmt)) columns fs a))
  else Ok a.

End sizes.

Lemma casecmp_ok q off lit :
  0 <= off → off + Z.of_nat (length lit) <= Z.of_nat (length q) →
  casecmp_at q off lit = Ok (bool_decide (lower <$> take (length lit) (drop (Z.to_nat off) q) = lower <$> lit)).
Proof.
  intros. unfold casecmp_at. by rewrite (proj2 (Z.ltb_ge _ _)), (proj2 (Z.ltb_ge _ _)) by lia.
Qed.

(** [q] ends with [lit], whatever the case of the letters. *)
Definition ends_ci (lit q : list Z) : Prop := ∃ mid suf, q = mid ++ suf ∧ lower <$> suf = lower <$> lit.
Definition starts_ci (lit q : list Z) : Prop := ∃ pre mid, q = pre ++ mid ∧ lower <$> pre = lower <$> lit.

Lemma casecmp_end q lit :
  (length lit <= length q)%nat →
  ∃ b, casecmp_at q (Z.of_nat (length q) - Z.of_nat (length lit)) lit = Ok b ∧ (b = true ↔ ends_ci lit q).
Proof.
  intros Hl. rewrite casecmp_ok by lia. eexists. split; [done|]. rewrite bool_decide_eq_true.
  replace (Z.to_nat _) with (length q - length lit)%nat by lia.
  rewrite take_ge by (rewrite length_drop; lia). split.
  - intros Hs. exists (take (length q - length lit) q), (drop (length q - length lit) q).
    by rewrite take_drop.
  - intros (mid & suf & -> & Hs). apply (f_equal length) in Hs as Hls. rewrite !length_fmap in Hls.
    rewrite length_app, Hls. by rewrite drop_app_length' by lia.
Qed.

Lemma casecmp_start q lit :
  (length lit <= length q)%nat →
  ∃ b, casecmp_at q 0 lit = Ok b ∧ (b = true ↔ starts_ci lit q).
Proof.
  intros Hl. rewrite casecmp_ok by lia. eexists. split; [done|]. rewrite bool_decide_eq_true.
  change (Z.to_nat 0) with 0%nat. rewrite drop_0. split.
  - intros Hs. exists (take (length lit) q), (drop (length lit) q). by rewrite take_drop.
  - intros (pre & mid & -> & Hs). apply (f_equal length) in Hs as Hls. rewrite !length_fmap in Hls.
    by rewrite take_app_length' by lia.
Qed.

Lemma ends_ci_length lit q : ends_ci lit q → (length lit <= length q)%nat.
Proof.
  intros (mid & suf & -> & Hs). apply (f_equal length) in Hs. rewrite !length_fmap in Hs.
  rewrite length_app. lia.
Qed.

Definition locking_suffixes : list (list Z) :=
  [str " FOR UPDATE"; str " FOR SHARE"; str " LOCK IN SHARE MODE"; str " NOWAIT"; str " SKIP LOCKED"].

(** One test of a locking clause at the end of the query: when it is there the
    function has answered. *)
Ltac clause q lit n Hb :=
  let b := fresh "b" in let Hc := fresh "Hc" in
  destruct (casecmp_end q lit) as (b & Hc & Hb); [simpl; lia|];
  change (Z.of_nat (length lit)) with n in Hc; rewrite Hc; cbn [mbind outcome_bind];
  destruct b; [exists false, true; split_and!; done || by vm_compute|].

Lemma search_select_spec q :
  ∃ plain counted, search_select q = Ok (plain, counted) ∧
    (plain = true → counted = false ∧ starts_ci (str "SELECT ") q) ∧
    (starts_ci (str "SELECT ") q → (25 <= length q)%nat →
     (∃ lit, lit ∈ locking_suffixes ∧ ends_ci lit q) → plain = false ∧ counted = true) ∧
    search_select (str "SELECT a FROM t WHERE b=1 FOR UPDATE;") = Ok (true, false).
Proof.
  unfold search_select at 1. destruct (Z.leb_spec 7 (Z.of_nat (length q))); cbn [negb].
  2: { exists false, false. split_and!; [done|done| |by vm_compute]. intros _ ?. lia. }
  destruct (casecmp_start q (str "SELECT ")) as (b & -> & Hb); [simpl; lia|]. cbn [mbind outcome_bind].
  destruct b; cbn [negb].
  2: { exists false, false. split_and!; [done|done| |by vm_compute]. intros Hs. by apply Hb in Hs. }
  pose proof (proj1 Hb eq_refl) as Hsel. clear Hb.
  destruct (Z.leb_spec 17 (Z.of_nat (length q))); cbn [negb].
  2: { exists true, false. split_and!; [done|done| |by vm_compute]. intros _ ?. lia. }
  clause q (str " FOR UPDATE") 11 Hb1.
  clause q (str " FOR SHARE") 10 Hb2.
  destruct (Z.leb_spec 25 (Z.of_nat (length q))); cbn [negb].
  2: { exists true, false. split_and!; [done|done| |by vm_compute]. intros _ ?. lia. }
  clause q (str " LOCK IN SHARE MODE") 19 Hb3.
  clause q (str " NOWAIT") 7 Hb4.
  clause q (str " SKIP LOCKED") 12 Hb5.
  assert (Hnone : ¬ ∃ lit, lit ∈ locking_suffixes ∧ ends_ci lit q).
  { intros (lit & Hin & He). unfold locking_suffixes in Hin.
    rewrite !elem_of_cons, elem_of_nil in Hin.
    destruct Hin as [->|[->|[->|[->|[->|[]]]]]];
      [apply Hb1 in He|apply Hb2 in He|apply Hb3 in He|apply Hb4 in He|apply Hb5 in He]; done. }
  set (buf := cstr _).
  assert (Hout : ∀ b, (λ x : outcome (bool * bool), ∃ plain counted, x = Ok (plain, counted) ∧
    (plain = true → counted = false ∧ starts_ci (str "SELECT ") q) ∧
    (starts_ci (str "SELECT ") q → (25 <= length q)%nat →
     (∃ lit, lit ∈ locking_suffixes ∧ ends_ci lit q) → plain = false ∧ counted = true) ∧
    search_select (str "SELECT a FROM t WHERE b=1 FOR UPDATE;") = Ok (true, false))
    (Ok (b, negb b))).
  { intros b. exists b, (negb b). split_and!; [done|intros ->; done|done|by vm_compute]. }
  destruct (strcasestr buf (str " FOR ")); [|exact (Hout true)].
  destruct (strcasestr buf (str " FOR UPDATE ")); [exact (Hout false)|].
  destruct (strcasestr buf (str " FOR SHARE ")); [exact (Hout false)|exact (Hout true)].
Qed.

(** classification of SELECTs. The constructor never reads outside the query,
    flags a statement as a plain SELECT only if it starts with [SELECT ], and
    never flags one of at least 25 bytes that ends -- in any case -- with one of
    the five locking clauses; every statement it flags as plain leaves the
    locking-read counter alone. A locking read that ends with a semicolon is
    nevertheless flagged as plain. *)
Theorem select_classification q :
  ∃ plain counted, search_select q = Ok (plain, counted) ∧
    (plain = true → counted = false ∧ starts_ci (str "SELECT ") q) ∧
    (starts_ci (str "SELECT ") q → (25 <= length q)%nat →
     (∃ lit, lit ∈ locking_suffixes ∧ ends_ci lit q) → plain = false ∧ counted = true) ∧
    search_select (str "SELECT a FROM t WHERE b=1 FOR UPDATE;") = Ok (true, false).
Proof. apply search_select_spec. Qed.


Section metadata.
Context (sizeof_info sizeof_bind sizeof_field sizeof_ptr : Z).
Abbreviation update := (update_metadata sizeof_info sizeof_bind sizeof_field sizeof_ptr).
Abbreviation calculate := (calculate_mem_usage sizeof_info sizeof_bind sizeof_field sizeof_ptr).

(** The columns and their number agree, and the accounting is up to date. *)
Definition consistent (a : t) : Prop :=
  num_columns a = Z.of_nat (length (fields a)) ∧ a = calculate a.

(** A description of a statement that fits the 16-bit counters. *)
Definition described (stmt : mysql_stmt) : Prop :=
  field_count stmt = Z.of_nat (length (s_fields stmt)) ∧ is_u16 (field_count stmt) ∧ is_u16 (param_count stmt).

Lemma compare_fields_spec stored i stmt :
  (length stored + i <= length (s_fields stmt))%nat →
  compare_fields stored i stmt =
  Ok (negb (bool_decide (names <$> stored = names <$> take (length stored) (drop i (s_fields stmt))))).
Proof.
  revert i; induction stored as [|fd r IH]; intros i Hl; cbn [compare_fields length] in *.
  { by rewrite bool_decide_true. }
  destruct (lookup_lt_is_Some_2 (s_fields stmt) i) as [fs Hfs]; [lia|].
  rewrite (proj2 (read_at_Some _ _ fs)) by (rewrite Nat2Z.id; auto with lia). cbn [mbind outcome_bind].
  rewrite (drop_S _ _ _ Hfs). cbn [take fmap list_fmap].
  destruct (bool_decide_reflect (names fd = names fs)) as [He|He].
  - rewrite IH by lia. do 2 f_equal. apply bool_decide_ext. rewrite He. split; [by intros ->|by intros [= ->]].
  - rewrite bool_decide_false; [done|]. intros Hc. apply He. exact (f_equal (hd []) Hc).
Qed.

Lemma calculate_idem a : calculate (calculate a) = calculate a.
Proof. by destruct a. Qed.

Lemma update_metadata_spec stmt a :
  described stmt → consistent a →
  ∃ a', update stmt a = Ok a' ∧ consistent a' ∧
    num_params a' = param_count stmt ∧ num_columns a' = field_count stmt ∧
    names <$> fields a' = names <$> s_fields stmt ∧
    (statement_id a', hash a', query a', username a', schemaname a', ref_count_client a', ref_count_server a')
    = (statement_id a, hash a, query a, username a, schemaname a, ref_count_client a, ref_count_server a) ∧
    (num_params a = param_count stmt → names <$> fields a = names <$> s_fields stmt → a' = a).
Proof.
  intros (Hfc & Hc16 & Hp16) (Hnc & Hmem). unfold update_metadata.
  set (refreshed := calculate (set_metadata (param_count stmt) (field_count stmt) (s_fields stmt) a)).
  assert (Hcopy : copy_fields (u16 (field_count stmt)) stmt = Ok (s_fields stmt)).
  { unfold copy_fields. rewrite u16_small, (proj2 (Z.ltb_ge _ _)), take_ge by lia. done. }
  assert (Hnew : consistent refreshed) by (split; [exact Hfc|symmetry; apply calculate_idem]).
  destruct (negb (num_params a =? param_count stmt) || negb (num_columns a =? field_count stmt)) eqn:E.
  { cbn [mbind outcome_bind]. rewrite Hcopy. cbn [mbind outcome_bind]. rewrite !u16_small by lia.
    exists refreshed. split_and!; try done. intros Hp Hn. exfalso.
    apply (f_equal length) in Hn. rewrite !length_fmap in Hn.
    apply orb_true_iff in E as [E|E]; zbool; lia. }
  zbool. rewrite compare_fields_spec by lia. rewrite drop_0, take_ge by lia. cbn [mbind outcome_bind].
  case_bool_decide as Hn; cbn [negb].
  - exists a. split_and!; done || lia.
  - rewrite Hcopy. cbn [mbind outcome_bind]. rewrite !u16_small by lia.
    exists refreshed. by split_and!.
Qed.

(** a refresh makes the metadata current. After [update_metadata] the number of
    parameters and columns and the names of the columns are those of the
    statement just prepared, the accounting is exact again, and the identity of
    the statement -- id, hash, text, owner, reference counts -- is untouched. When
    counts and names already agree nothing at all is rewritten, so a change of
    the other column attributes, the type included, goes unnoticed. *)
Theorem update_metadata_current stmt a :
  described stmt → consistent a →
  ∃ a', update stmt a = Ok a' ∧ consistent a' ∧
    num_params a' = param_count stmt ∧ num_columns a' = field_count stmt ∧
    names <$> fields a' = names <$> s_fields stmt ∧
    (statement_id a', hash a', query a', username a', schemaname a', ref_count_client a', ref_count_server a')
    = (statement_id a, hash a, query a, username a, schemaname a, ref_count_client a, ref_count_server a) ∧
    (num_params a = param_count stmt → names <$> fields a = names <$> s_fields stmt → a' = a).
Proof. apply update_metadata_spec. Qed.

End metadata.

Lemma update_metadata_current_witness :
  let f n := mk_field (Some n) None None None None None None [3] in
  let stmt := mk_stmt 1 2 1 0 [f [98]] in
  let a := calculate_mem_usage 208 112 128 8
             (mk None 5 [117] [115] [113] 1 1 1 7 1 2 0 [f [97]] None 0 false) in
  ∃ a', update_metadata 208 112 128 8 stmt a = Ok a' ∧ consistent 208 112 128 8 a' ∧
    num_params a' = 2 ∧ num_columns a' = 1 ∧ names <$> fields a' = names <$> [f [98]] ∧
    (statement_id a', hash a', query a', username a', schemaname a', ref_count_client a', ref_count_server a')
    = (7, 5, [113], [117], [115], 1, 1) ∧
    (num_params a = 2 → names <$> fields a = names <$> [f [98]] → a' = a).
Proof. apply update_metadata_current; repeat split; simpl; lia || done. Defined.
End GlobalInfo.
