(* ===== verification/StmtManager.v ===== *)
(** * The cache of prepared statements (lib/MySQL_PreparedStatement.cpp,
    [MySQL_STMT_Manager_v14])

    Two maps, by id and by hash, hold pointers to the same objects; the objects
    live in an explicit heap, so that a dangling pointer is a fault of the
    model.  The lock makes every operation atomic. *)
From S2P Require Import Prelude Stmt.

Abbreviation info := GlobalInfo.t.
Import GlobalInfo.

(** ** State *)
Record manager := mkm {
  next_statement_id : Z;
  num_stmt_with_ref_client_count_zero : Z;
  num_stmt_with_ref_server_count_zero : Z;
  map_stmt_id_to_info : gmap Z positive;
  map_stmt_hash_to_info : gmap Z positive;
  free_stmt_ids : list Z;                    (* std::stack, top first *)
  c_total : Z;
  s_total : Z;
  last_purge_time : Z;
  select_for_update : Z;                     (* MyHGM->status.select_for_update_or_equivalent *)
  heap : gmap positive GlobalInfo.t
}.

Definition create (now : Z) : manager := mkm 1 0 0 ∅ ∅ [] 0 0 now 0 ∅.

Definition deref (p : positive) (m : manager) : outcome GlobalInfo.t :=
  match heap m !! p with Some a => Ok a | None => Fault OutOfBounds end.

(** Updates of single fields. *)
Definition set_heap (h : gmap positive GlobalInfo.t) (m : manager) : manager :=
  mkm (next_statement_id m) (num_stmt_with_ref_client_count_zero m) (num_stmt_with_ref_server_count_zero m)
      (map_stmt_id_to_info m) (map_stmt_hash_to_info m) (free_stmt_ids m) (c_total m) (s_total m)
      (last_purge_time m) (select_for_update m) h.
Definition set_client (total zero : Z) (m : manager) : manager :=
  mkm (next_statement_id m) zero (num_stmt_with_ref_server_count_zero m)
      (map_stmt_id_to_info m) (map_stmt_hash_to_info m) (free_stmt_ids m) total (s_total m)
      (last_purge_time m) (select_for_update m) (heap m).
Definition set_server (total zero : Z) (m : manager) : manager :=
  mkm (next_statement_id m) (num_stmt_with_ref_client_count_zero m) zero
      (map_stmt_id_to_info m) (map_stmt_hash_to_info m) (free_stmt_ids m) (c_total m) total
      (last_purge_time m) (select_for_update m) (heap m).
Definition set_maps (ids hashes : gmap Z positive) (m : manager) : manager :=
  mkm (next_statement_id m) (num_stmt_with_ref_client_count_zero m) (num_stmt_with_ref_server_count_zero m)
      ids hashes (free_stmt_ids m) (c_total m) (s_total m) (last_purge_time m) (select_for_update m) (heap m).
Definition set_ids (next : Z) (free : list Z) (m : manager) : manager :=
  mkm next (num_stmt_with_ref_client_count_zero m) (num_stmt_with_ref_server_count_zero m)
      (map_stmt_id_to_info m) (map_stmt_hash_to_info m) free (c_total m) (s_total m)
      (last_purge_time m) (select_for_update m) (heap m).
Definition set_purge_time (t : Z) (m : manager) : manager :=
  mkm (next_statement_id m) (num_stmt_with_ref_client_count_zero m) (num_stmt_with_ref_server_count_zero m)
      (map_stmt_id_to_info m) (map_stmt_hash_to_info m) (free_stmt_ids m) (c_total m) (s_total m)
      t (select_for_update m) (heap m).
Definition set_sfu (n : Z) (m : manager) : manager :=
  mkm (next_statement_id m) (num_stmt_with_ref_client_count_zero m) (num_stmt_with_ref_server_count_zero m)
      (map_stmt_id_to_info m) (map_stmt_hash_to_info m) (free_stmt_ids m) (c_total m) (s_total m)
      (last_purge_time m) n (heap m).

(** ** The purge inside [ref_count_client]

    The first loop walks the map in key order and takes the unreferenced
    statements out of the hash map; [torem] is the array of their ids, latest
    first, so [i] is its length minus one. *)
Fixpoint purge_mark (max_purge zero : Z) (es : list (Z * positive)) (torem : list Z) (m : manager)
  : outcome (list Z * manager) :=
  match es with
  | [] => Ok (torem, m)
  | (id, p) :: es' =>
      let i := Z.of_nat (length torem) - 1 in
      if (i =? max_purge - 1) || (i =? i32 zero - 1) then Ok (torem, m)
      else
        a ← deref p m;
        if (ref_count_client a =? 0) && (ref_count_server a =? 0) then
          let m := set_maps (map_stmt_id_to_info m) (delete (hash a) (map_stmt_hash_to_info m)) m in
          let m := set_client (c_total m) (u64 (num_stmt_with_ref_client_count_zero m - 1)) m in
          purge_mark max_purge zero es' (id :: torem) m
        else purge_mark max_purge zero es' torem m
  end.

(** The second loop frees them, last first. *)
Fixpoint purge_free (torem : list Z) (m : manager) : outcome manager :=
  match torem with
  | [] => Ok m
  | id :: r =>
      match map_stmt_id_to_info m !! id with
      | None => Fault OutOfBounds              (* dereference of end() *)
      | Some p =>
          a ← deref p m;
          let m := if ref_count_server a =? 0 then
                     set_ids (next_statement_id m) (id :: free_stmt_ids m)
                       (set_server (s_total m) (u64 (num_stmt_with_ref_server_count_zero m - 1)) m)
                   else m in
          let m := set_maps (delete id (map_stmt_id_to_info m)) (map_stmt_hash_to_info m) m in
          let m := set_server (u64 (s_total m - ref_count_server a)) (num_stmt_with_ref_server_count_zero m) m in
          let m := set_heap (delete p (heap m)) m in
          purge_free r m
      end
  end.

Definition id_le (x y : Z * positive) : Prop := x.1 <= y.1.
#[export] Instance id_le_dec x y : Decision (id_le x y).
Proof. unfold id_le. apply _. Defined.

(** [std::map] iterates in the order of the keys. *)
Definition in_order (ids : gmap Z positive) : list (Z * positive) := merge_sort id_le (map_to_list ids).

Definition purge (ct max_stmts_cache : Z) (m : manager) : outcome manager :=
  let zc := num_stmt_with_ref_client_count_zero m in
  let zs := num_stmt_with_ref_server_count_zero m in
  let map_size := Z.of_nat (size (map_stmt_id_to_info m)) in
  if (last_purge_time m + 1 <? ct) && (u32 max_stmts_cache <? map_size)
     && (map_size / 10 <? zc) && (map_size / 10 <? zs) then
    '(torem, m) ← purge_mark (i32 map_size) zc (in_order (map_stmt_id_to_info m)) [] (set_purge_time ct m);
    purge_free torem m
  else Ok m.

Section ops.
(** The clock and the configured size of the cache, read by the function. *)
Context (ct max_stmts_cache : Z).

(** Note: [free_stmt_ids.push] happens before the entry is erased. *)
Definition ref_count_client (_stmt_id _v : Z) (m : manager) : outcome manager :=
  match map_stmt_id_to_info m !! _stmt_id with
  | None => Ok m
  | Some p =>
      a ← deref p m;
      let zero := num_stmt_with_ref_client_count_zero m in
      let zero := if (GlobalInfo.ref_count_client a =? 0) && (_v =? 1) then u64 (zero - 1)
                  else if (GlobalInfo.ref_count_client a =? 1) && (_v =? -1) then u64 (zero + 1)
                  else zero in
      let m := set_client (u64 (c_total m + _v)) zero m in
      let m := set_heap (<[p := set_refs (i32 (GlobalInfo.ref_count_client a + _v)) (ref_count_server a) a]> (heap m)) m in
      purge ct max_stmts_cache m
  end.
End ops.

Definition ref_count_server (_stmt_id _v : Z) (m : manager) : outcome manager :=
  match map_stmt_id_to_info m !! _stmt_id with
  | None => Ok m
  | Some p =>
      a ← deref p m;
      let zero := num_stmt_with_ref_server_count_zero m in
      let zero := if (GlobalInfo.ref_count_server a =? 0) && (_v =? 1) then u64 (zero - 1)
                  else if (GlobalInfo.ref_count_server a =? 1) && (_v =? -1) then u64 (zero + 1)
                  else zero in
      let m := set_server (u64 (s_total m + _v)) zero m in
      Ok (set_heap (<[p := set_refs (GlobalInfo.ref_count_client a)
                                    (i32 (GlobalInfo.ref_count_server a + _v)) a]> (heap m)) m)
  end.

Definition find_prepared_statement_by_hash (h : Z) (m : manager) : option positive :=
  map_stmt_hash_to_info m !! h.
Definition find_prepared_statement_by_stmt_id (id : Z) (m : manager) : option positive :=
  map_stmt_id_to_info m !! id.

Section add.
Context (sizeof_info sizeof_bind sizeof_field sizeof_ptr : Z) (Hash64 : list Z → Z → Z).

(** The object [new] returns is at an address no live object has. *)
Definition new_address (m : manager) : positive := fresh (dom (heap m)).

(** The last lines: the backend that prepared the statement references it. *)
Definition take_server (p : positive) (m : manager) : outcome manager :=
  a ← deref p m;
  let zero := num_stmt_with_ref_server_count_zero m in
  let zero := if GlobalInfo.ref_count_server a =? 0 then u64 (zero - 1) else zero in
  let m := set_server (u64 (s_total m + 1)) zero m in
  Ok (set_heap (<[p := set_refs (GlobalInfo.ref_count_client a)
                                (i32 (GlobalInfo.ref_count_server a + 1)) a]> (heap m)) m).

Definition add_prepared_statement (u s q : list Z) (fc : option (list Z)) (stmt : mysql_stmt) (m : manager)
  : outcome (positive * manager) :=
  let h := stmt_compute_hash Hash64 u s q in
  '(p, m) ← match map_stmt_hash_to_info m !! h with
    | Some p =>
        a ← deref p m;
        a ← update_metadata sizeof_info sizeof_bind sizeof_field sizeof_ptr stmt a;
        Ok (p, set_heap (<[p := a]> (heap m)) m)
    | None =>
        let '(next_id, m) := match free_stmt_ids m with
          | id :: r => (id, set_ids (next_statement_id m) r m)
          | [] => (next_statement_id m, set_ids (u64 (next_statement_id m + 1)) [] m)
          end in
        '(a, locking) ← GlobalInfo.create sizeof_info sizeof_bind sizeof_field sizeof_ptr Hash64
                          next_id u s q fc stmt h;
        let m := if locking : bool then set_sfu (u64 (select_for_update m + 1)) m else m in
        let p := new_address m in
        let m := set_heap (<[p := a]> (heap m)) m in
        let ids := map_stmt_id_to_info m in let hashes := map_stmt_hash_to_info m in
        (* std::map::insert does not overwrite *)
        let m := set_maps (match ids !! statement_id a with Some _ => ids | None => <[statement_id a := p]> ids end)
                          (match hashes !! hash a with Some _ => hashes | None => <[hash a := p]> hashes end) m in
        let m := set_client (c_total m) (u64 (num_stmt_with_ref_client_count_zero m + 1)) m in
        let m := set_server (s_total m) (u64 (num_stmt_with_ref_server_count_zero m + 1)) m in
        Ok (p, m)
    end;
  m ← take_server p m;
  Ok (p, m).

(** [get_metrics]: c_unique, c_total, stmt_max_stmt_id, cached, s_unique, s_total. *)
Definition get_metrics (m : manager) : Z * Z * Z * Z * Z * Z :=
  let cached := Z.of_nat (size (map_stmt_id_to_info m)) in
  (u64 (cached - num_stmt_with_ref_client_count_zero m), c_total m, next_statement_id m, cached,
   u64 (cached - num_stmt_with_ref_server_count_zero m), s_total m).

(** [get_memory_usage]: the sums over the id map, in [size_t] arithmetic. *)
Definition get_memory_usage (sizeof_manager sizeof_stmt : Z) (m : manager) : Z * Z :=
  let per_ref (a : GlobalInfo.t) := num_params a * sizeof_bind + num_columns a * sizeof_field in
  let objects := omap (λ p, heap m !! p) (map_stmt_id_to_info m) in
  (u64 (sizeof_manager
        + Z.of_nat (size (map_stmt_id_to_info m)) * (8 + sizeof_ptr)
        + Z.of_nat (size (map_stmt_hash_to_info m)) * (8 + sizeof_ptr)
        + Z.of_nat (length (free_stmt_ids m)) * 8
        + map_total (λ a, total_mem_usage a + (GlobalInfo.ref_count_server a * per_ref a + 16)
                          + (GlobalInfo.ref_count_client a * per_ref a + 16)) objects),
   u64 (map_total (λ a, GlobalInfo.ref_count_server a * (sizeof_stmt + 56 + per_ref a)) objects)).
End add.

(** ** The invariant

    [R] lists the statements a purge in progress has taken out of the hash map
    and not yet freed; it is empty between operations. *)
Abbreviation rc := GlobalInfo.ref_count_client.
Abbreviation rs := GlobalInfo.ref_count_server.
Abbreviation ids := map_stmt_id_to_info.
Abbreviation hashes := map_stmt_hash_to_info.

Definition zero_client (a : info) : Z := if rc a =? 0 then 1 else 0.
Definition zero_server (a : info) : Z := if rs a =? 0 then 1 else 0.
Definition refs_ok (a : info) : Prop := 0 <= rc a < 2 ^ 31 ∧ 0 <= rs a < 2 ^ 31.
Definition unreferenced (a : info) : Prop := rc a = 0 ∧ rs a = 0.

Record inv (R : list Z) (m : manager) : Prop := {
  inv_ids id p : ids m !! id = Some p →
    ∃ a, heap m !! p = Some a ∧ statement_id a = id ∧ (id ∉ R → hashes m !! hash a = Some p);
  inv_hashes h p : hashes m !! h = Some p →
    ∃ a, heap m !! p = Some a ∧ hash a = h ∧ (statement_id a ∉ R);
  inv_heap p a : heap m !! p = Some a → ids m !! statement_id a = Some p ∧ refs_ok a;
  inv_nodup : NoDup R;
  inv_R id : id ∈ R → ∃ p a, ids m !! id = Some p ∧ heap m !! p = Some a ∧ unreferenced a;
  inv_range id p : ids m !! id = Some p → 0 < id < next_statement_id m;
  inv_free : NoDup (free_stmt_ids m);
  inv_free_range id : id ∈ free_stmt_ids m → 0 < id < next_statement_id m ∧ ids m !! id = None;
  inv_next : 0 < next_statement_id m;
  inv_c_total : c_total m = u64 (map_total rc (heap m));
  inv_s_total : s_total m = u64 (map_total rs (heap m));
  inv_client : num_stmt_with_ref_client_count_zero m =
               u64 (map_total zero_client (heap m) - Z.of_nat (length R));
  inv_server : num_stmt_with_ref_server_count_zero m = u64 (map_total zero_server (heap m))
}.
Definition wf (m : manager) : Prop := inv [] m.

(** The object of an id is determined by the id. *)
Lemma inv_object R m p a : inv R m → heap m !! p = Some a → ids m !! statement_id a = Some p.
Proof. intros H Hp. by apply (inv_heap R m H) in Hp as [? _]. Qed.

Lemma inv_same_hash R m p a q b :
  inv R m → heap m !! p = Some a → heap m !! q = Some b → (statement_id a ∉ R) → (statement_id b ∉ R) →
  hash a = hash b → p = q.
Proof.
  intros H Ha Hb Ra Rb Hh.
  destruct (inv_ids R m H _ _ (inv_object R m p a H Ha)) as (a' & Ha' & _ & Ka).
  destruct (inv_ids R m H _ _ (inv_object R m q b H Hb)) as (b' & Hb' & _ & Kb).
  rewrite Ha in Ha'. injection Ha' as <-. rewrite Hb in Hb'. injection Hb' as <-.
  specialize (Ka Ra). specialize (Kb Rb). congruence.
Qed.

Lemma inv_create now : wf (create now).
Proof. split; cbn; try done; try apply NoDup_nil_2; intros; by apply elem_of_nil in H. Qed.

(** *** Replacing an object in place *)
Lemma inv_replace R m p a b :
  inv R m → heap m !! p = Some a → statement_id b = statement_id a → hash b = hash a → refs_ok b →
  (statement_id a ∈ R → unreferenced b) →
  inv R (mkm (next_statement_id m)
             (u64 (num_stmt_with_ref_client_count_zero m - zero_client a + zero_client b))
             (u64 (num_stmt_with_ref_server_count_zero m - zero_server a + zero_server b))
             (ids m) (hashes m) (free_stmt_ids m)
             (u64 (c_total m - rc a + rc b)) (u64 (s_total m - rs a + rs b))
             (last_purge_time m) (select_for_update m) (<[p := b]> (heap m))).
Proof.
  intros H Ha Hid Hh Hb HR.
  assert (Hlook : ∀ q c, <[p := b]> (heap m) !! q = Some c →
            ∃ c0, heap m !! q = Some c0 ∧ statement_id c = statement_id c0 ∧ hash c = hash c0 ∧
                  (p = q → c0 = a ∧ c = b) ∧ (p ≠ q → c0 = c)).
  { intros q c. rewrite lookup_insert_Some. intros [[-> ->]|[Hne Hc]]; [exists a|exists c]; naive_solver. }
  assert (Hback : ∀ q c0, heap m !! q = Some c0 → ∃ c, <[p := b]> (heap m) !! q = Some c ∧
            statement_id c = statement_id c0 ∧ hash c = hash c0 ∧ (unreferenced c0 → statement_id c0 ∈ R → unreferenced c)).
  { intros q c0 Hc. destruct (decide (p = q)) as [<-|Hne].
    - exists b. rewrite lookup_insert_eq. rewrite Ha in Hc. injection Hc as <-. auto.
    - exists c0. by rewrite lookup_insert_ne. }
  split; cbn [next_statement_id num_stmt_with_ref_client_count_zero num_stmt_with_ref_server_count_zero
    map_stmt_id_to_info map_stmt_hash_to_info free_stmt_ids c_total s_total heap].
  - intros id q Hq. destruct (inv_ids R m H id q Hq) as (c0 & Hc0 & <- & Hk).
    destruct (Hback q c0 Hc0) as (c & ? & ? & Hhc & _). exists c. by rewrite Hhc.
  - intros h q Hq. destruct (inv_hashes R m H h q Hq) as (c0 & Hc0 & <- & Hk).
    destruct (Hback q c0 Hc0) as (c & ? & Hs & ? & _). exists c. by rewrite Hs.
  - intros q c Hq. destruct (Hlook q c Hq) as (c0 & Hc0 & Hs & _ & Heq & Hne).
    destruct (inv_heap R m H q c0 Hc0) as [Hi Hr]. rewrite Hs. split; [done|].
    destruct (decide (p = q)) as [E|E]; [destruct (Heq E) as [_ ->]; done|by rewrite <- (Hne E)].
  - apply (inv_nodup R m H).
  - intros id Hin. destruct (inv_R R m H id Hin) as (q & c0 & Hq & Hc0 & Hu).
    destruct (Hback q c0 Hc0) as (c & ? & ? & ? & Hk). exists q, c. split_and!; [done..|].
    apply Hk; [done|]. destruct (inv_ids R m H id q Hq) as (c1 & Hc1 & <- & _).
    rewrite Hc0 in Hc1. by injection Hc1 as <-.
  - apply (inv_range R m H).
  - apply (inv_free R m H).
  - apply (inv_free_range R m H).
  - apply (inv_next R m H).
  - rewrite (map_total_update _ _ _ a), (inv_c_total R m H) by done.
    by rewrite <- Z.sub_sub_distr, u64_sub_idemp, Z.sub_sub_distr.
  - rewrite (map_total_update _ _ _ a), (inv_s_total R m H) by done.
    by rewrite <- Z.sub_sub_distr, u64_sub_idemp, Z.sub_sub_distr.
  - rewrite (map_total_update _ _ _ a), (inv_client R m H) by done.
    rewrite <- Z.sub_sub_distr, u64_sub_idemp. f_equal. lia.
  - rewrite (map_total_update _ _ _ a), (inv_server R m H) by done.
    by rewrite <- Z.sub_sub_distr, u64_sub_idemp, Z.sub_sub_distr.
Qed.

(** *** The purge *)
Definition marked (a : info) (m : manager) : manager :=
  let m := set_maps (ids m) (delete (hash a) (hashes m)) m in
  set_client (c_total m) (u64 (num_stmt_with_ref_client_count_zero m - 1)) m.

Lemma inv_mark R m id p a :
  inv R m → ids m !! id = Some p → heap m !! p = Some a → unreferenced a → (id ∉ R) →
  inv (id :: R) (marked a m).
Proof.
  intros H Hp Ha Hu HR.
  assert (Hid : statement_id a = id).
  { destruct (inv_ids R m H id p Hp) as (a' & Ha' & <- & _). congruence. }
  split; cbn [marked set_maps set_client next_statement_id num_stmt_with_ref_client_count_zero
    num_stmt_with_ref_server_count_zero map_stmt_id_to_info map_stmt_hash_to_info free_stmt_ids
    c_total s_total heap].
  - intros id' q Hq. destruct (inv_ids R m H id' q Hq) as (c & Hc & <- & Hk). exists c.
    split_and!; [done..|]. intros [Hne Hni]%not_elem_of_cons. rewrite lookup_delete_ne; [by apply Hk|].
    intros Hh. apply Hne. rewrite <- Hid. f_equal.
    assert (p = q) as <-; [|congruence]. eapply (inv_same_hash R m p a q c); try done. by rewrite Hid.
  - intros h q [Hne Hq]%lookup_delete_Some. destruct (inv_hashes R m H h q Hq) as (c & Hc & <- & Hk).
    exists c. split_and!; [done..|]. rewrite not_elem_of_cons. split; [|done]. intros Hs.
    apply Hne. pose proof (inv_object R m q c H Hc). congruence.
  - apply (inv_heap R m H).
  - constructor; [done|apply (inv_nodup R m H)].
  - intros id' [->|Hin]%elem_of_cons; [by exists p, a|by apply (inv_R R m H)].
  - apply (inv_range R m H).
  - apply (inv_free R m H).
  - apply (inv_free_range R m H).
  - apply (inv_next R m H).
  - apply (inv_c_total R m H).
  - apply (inv_s_total R m H).
  - rewrite (inv_client R m H), u64_sub_idemp. f_equal. cbn [length]. lia.
  - apply (inv_server R m H).
Qed.

(** Everything an operation must not touch when it frees nothing. *)
Definition same_objects (m m' : manager) : Prop :=
  ids m' = ids m ∧ heap m' = heap m ∧ next_statement_id m' = next_statement_id m.

Lemma purge_mark_spec mp zero es R m :
  inv R m → NoDup es.*1 → (∀ id p, (id, p) ∈ es → ids m !! id = Some p ∧ (id ∉ R)) →
  ∃ R' m', purge_mark mp zero es R m = Ok (R', m') ∧ inv R' m' ∧ same_objects m m'.
Proof.
  revert R m; induction es as [|[id p] es IH]; intros R m H Hnd Hes; cbn [purge_mark].
  { exists R, m. by split_and!. }
  apply NoDup_cons in Hnd as [Hni Hnd]. cbn [fst] in Hni.
  case_test; [exists R, m; by split_and!|].
  destruct (Hes id p ltac:(by left)) as [Hp HR].
  destruct (inv_ids R m H id p Hp) as (a & Ha & _ & _).
  unfold deref. rewrite Ha. cbn [mbind outcome_bind].
  destruct ((rc a =? 0) && (rs a =? 0)) eqn:E0; zbool.
  - change (set_client _ _ _) with (marked a m).
    destruct (IH (id :: R) (marked a m)) as (R' & m' & -> & H' & Hs).
    + by apply (inv_mark R m id p).
    + done.
    + intros id' p' Hin. destruct (Hes id' p' ltac:(by right)) as [? ?]. split; [done|].
      apply not_elem_of_cons. split; [|done]. intros ->. apply Hni.
      apply list_elem_of_fmap. by exists (id, p').
    + exists R', m'. by split_and!.
  - destruct (IH R m H Hnd) as (R' & m' & -> & H' & Hs); [|by exists R', m'].
    intros id' p' Hin. apply Hes. by right.
Qed.

(** Freeing the last statement of the list. *)
Definition freed (id : Z) (p : positive) (m : manager) : manager :=
  mkm (next_statement_id m) (num_stmt_with_ref_client_count_zero m)
      (u64 (num_stmt_with_ref_server_count_zero m - 1))
      (delete id (ids m)) (hashes m) (id :: free_stmt_ids m) (c_total m) (u64 (s_total m - 0))
      (last_purge_time m) (select_for_update m) (delete p (heap m)).

Lemma inv_free_step R m id p a :
  inv (id :: R) m → ids m !! id = Some p → heap m !! p = Some a → inv R (freed id p m).
Proof.
  intros H Hp Ha. pose proof (inv_nodup _ m H) as Hnd. apply NoDup_cons in Hnd as [HidR Hnd].
  destruct (inv_R _ m H id ltac:(by left)) as (p' & a' & Hp' & Ha' & Hu & Hus).
  rewrite Hp in Hp'. injection Hp' as <-. rewrite Ha in Ha'. injection Ha' as <-.
  assert (Hid : statement_id a = id).
  { destruct (inv_ids _ m H id p Hp) as (c & Hc & <- & _). congruence. }
  assert (Hne : ∀ id' q, ids m !! id' = Some q → id' ≠ id → q ≠ p).
  { intros id' q Hq Hn ->. destruct (inv_ids _ m H id' p Hq) as (c & Hc & <- & _). congruence. }
  split; cbn [freed next_statement_id num_stmt_with_ref_client_count_zero
    num_stmt_with_ref_server_count_zero map_stmt_id_to_info map_stmt_hash_to_info free_stmt_ids
    c_total s_total heap].
  - intros id' q [Hn Hq]%lookup_delete_Some. destruct (inv_ids _ m H id' q Hq) as (c & Hc & Hs & Hk).
    exists c. rewrite lookup_delete_ne by (intros ->; by eapply Hne).
    split_and!; [done..|]. intros Hni. apply Hk. apply not_elem_of_cons. split; [congruence|done].
  - intros h q Hq. destruct (inv_hashes _ m H h q Hq) as (c & Hc & Hh & [Hn Hni]%not_elem_of_cons).
    exists c. rewrite lookup_delete_ne; [done|]. intros ->. congruence.
  - intros q c [Hn Hc]%lookup_delete_Some. destruct (inv_heap _ m H q c Hc) as [Hi Hr].
    split; [|done]. rewrite lookup_delete_ne; [done|]. intros Hs. congruence.
  - done.
  - intros id' Hin. destruct (inv_R _ m H id' ltac:(by right)) as (q & c & Hq & Hc & Hun).
    assert (id' ≠ id) by (intros ->; done). exists q, c.
    rewrite !lookup_delete_ne; [done| |congruence]. intros ->. by eapply (Hne id').
  - intros id' q [_ Hq]%lookup_delete_Some. by apply (inv_range _ m H id' q).
  - constructor; [|apply (inv_free _ m H)]. intros Hin.
    destruct (inv_free_range _ m H id Hin) as [_ Hc]. congruence.
  - intros id' [->|Hin]%elem_of_cons.
    + split; [by apply (inv_range _ m H id p)|apply lookup_delete_eq].
    + destruct (inv_free_range _ m H id' Hin) as [? ?]. split; [done|].
      rewrite lookup_delete_ne; [done|]. intros ->; congruence.
  - apply (inv_next _ m H).
  - rewrite (map_total_delete _ _ _ a), (inv_c_total _ m H) by done. by rewrite Hu, Z.sub_0_r.
  - rewrite (map_total_delete _ _ _ a), (inv_s_total _ m H) by done.
    by rewrite Hus, !Z.sub_0_r, u64_u64.
  - rewrite (map_total_delete _ _ _ a), (inv_client _ m H) by done. f_equal.
    assert (zero_client a = 1) as -> by (unfold zero_client; by rewrite Hu). cbn [length]. lia.
  - rewrite (map_total_delete _ _ _ a), (inv_server _ m H) by done. rewrite u64_sub_idemp.
    assert (zero_server a = 1) as -> by (unfold zero_server; by rewrite Hus). done.
Qed.

(** Every statement that somebody references survives, unchanged and under its
    own id. *)
Definition keeps_referenced (m m' : manager) : Prop :=
  ∀ id p a, ids m !! id = Some p → heap m !! p = Some a → ¬ unreferenced a →
            ids m' !! id = Some p ∧ heap m' !! p = Some a.

Lemma purge_free_spec R m :
  inv R m → ∃ m', purge_free R m = Ok m' ∧ wf m' ∧ keeps_referenced m m' ∧
                  ids m' ⊆ ids m ∧ heap m' ⊆ heap m ∧ next_statement_id m' = next_statement_id m.
Proof.
  revert m; induction R as [|id R IH]; intros m H; cbn [purge_free].
  { exists m. by split_and!. }
  destruct (inv_R _ m H id ltac:(by left)) as (p & a & Hp & Ha & Hu & Hus). rewrite Hp.
  unfold deref. rewrite Ha. cbn [mbind outcome_bind]. rewrite Hus. cbn [Z.eqb].
  change (set_heap _ _) with (freed id p m).
  pose proof (inv_free_step R m id p a H Hp Ha) as Hf.
  destruct (IH _ Hf) as (m' & -> & Hwf & Hk & Hi & Hh & Hn). exists m'. split_and!; [done..| | | |done].
  - intros id' q c Hq Hc Hnu. apply Hk; [| |done].
    + cbn. rewrite lookup_delete_ne; [done|]. intros <-. rewrite Hp in Hq. injection Hq as <-.
      rewrite Ha in Hc. injection Hc as <-. by apply Hnu.
    + cbn. rewrite lookup_delete_ne; [done|]. intros <-. rewrite Ha in Hc. injection Hc as <-. by apply Hnu.
  - etrans; [exact Hi|]. apply delete_subseteq.
  - etrans; [exact Hh|]. apply delete_subseteq.
Qed.

Lemma in_order_spec (i : gmap Z positive) :
  NoDup (in_order i).*1 ∧ ∀ id p, (id, p) ∈ in_order i → i !! id = Some p.
Proof.
  unfold in_order. pose proof (merge_sort_Permutation id_le (map_to_list i)) as Hp. split.
  - rewrite Hp. apply NoDup_fst_map_to_list.
  - intros id p. rewrite Hp. by rewrite elem_of_map_to_list.
Qed.

Lemma purge_spec ct mx m :
  wf m → ∃ m', purge ct mx m = Ok m' ∧ wf m' ∧ keeps_referenced m m' ∧
               ids m' ⊆ ids m ∧ heap m' ⊆ heap m ∧ next_statement_id m' = next_statement_id m.
Proof.
  intros H. unfold purge. case_test; [|by exists m; split_and!].
  assert (Hpt : wf (set_purge_time ct m)) by (by destruct H; split).
  destruct (in_order_spec (ids m)) as [Hnd Hin].
  destruct (purge_mark_spec (i32 (Z.of_nat (size (ids m)))) (num_stmt_with_ref_client_count_zero m)
              (in_order (ids m)) [] (set_purge_time ct m) Hpt Hnd) as (R & m1 & -> & Hm1 & Hs1 & Hs2 & Hs3).
  { intros id p Hi. split; [by apply Hin|apply not_elem_of_nil]. }
  cbn [mbind outcome_bind]. destruct (purge_free_spec R m1 Hm1) as (m' & -> & Hwf & Hk & Hi & Hh & Hn).
  exists m'. split_and!; [done..| | | |].
  - intros id p a Hp Ha. apply Hk; [by rewrite Hs1|by rewrite Hs2].
  - by rewrite Hs1 in Hi.
  - by rewrite Hs2 in Hh.
  - by rewrite Hn, Hs3.
Qed.

(** *** The operations *)

(** A reference is taken ([v = 1]) or given back ([v = -1]). *)
Definition step_ok (v n : Z) : Prop := (v = 1 ∨ v = -1) ∧ 0 <= n + v < 2 ^ 31.

Lemma zero_change (n v z : Z) :
  step_ok v n → 0 <= n → u64 z = z →
  (if (n =? 0) && (v =? 1) then u64 (z - 1) else if (n =? 1) && (v =? -1) then u64 (z + 1) else z)
  = u64 (z - (if n =? 0 then 1 else 0) + (if n + v =? 0 then 1 else 0)).
Proof.
  intros [Hv Hr] Hn Hz.
  destruct (Z.eqb_spec n 0), (Z.eqb_spec v 1), (Z.eqb_spec n 1), (Z.eqb_spec v (-1)),
    (Z.eqb_spec (n + v) 0); cbn [andb]; try lia; try (f_equal; lia);
    by rewrite ?Z.sub_0_r, ?Z.add_0_r.
Qed.

(** The statement of an id, as both maps see it. *)
Definition stmt_of (id : Z) (m : manager) : option info := p ← ids m !! id; heap m !! p.

Lemma stmt_of_Some m id a :
  wf m → stmt_of id m = Some a ↔ ∃ p, ids m !! id = Some p ∧ heap m !! p = Some a ∧ statement_id a = id.
Proof.
  intros H. unfold stmt_of. destruct (ids m !! id) as [p|] eqn:Hp; cbn [mbind option_bind].
  - destruct (inv_ids _ m H id p Hp) as (c & Hc & Hs & _). split.
    + intros Ha. exists p. split_and!; [done..|congruence].
    + by intros (q & [= <-] & ? & _).
  - split; [done|]. by intros (q & ? & _).
Qed.

(** The manager in which one object has new reference counts. *)
Definition with_refs (p : positive) (a : info) (c s : Z) (m : manager) : manager :=
  let b := set_refs c s a in
  mkm (next_statement_id m)
      (u64 (num_stmt_with_ref_client_count_zero m - zero_client a + zero_client b))
      (u64 (num_stmt_with_ref_server_count_zero m - zero_server a + zero_server b))
      (ids m) (hashes m) (free_stmt_ids m)
      (u64 (c_total m - rc a + rc b)) (u64 (s_total m - rs a + rs b))
      (last_purge_time m) (select_for_update m) (<[p := b]> (heap m)).

Lemma with_refs_wf p a c s m :
  wf m → heap m !! p = Some a → 0 <= c < 2 ^ 31 → 0 <= s < 2 ^ 31 → wf (with_refs p a c s m).
Proof.
  intros. apply inv_replace; try done. intros Hin. by apply elem_of_nil in Hin.
Qed.

Lemma wf_u64 m :
  wf m → u64 (num_stmt_with_ref_client_count_zero m) = num_stmt_with_ref_client_count_zero m ∧
         u64 (num_stmt_with_ref_server_count_zero m) = num_stmt_with_ref_server_count_zero m ∧
         u64 (c_total m) = c_total m ∧ u64 (s_total m) = s_total m.
Proof.
  intros H. rewrite (inv_client _ m H), (inv_server _ m H), (inv_c_total _ m H), (inv_s_total _ m H).
  by rewrite !u64_u64.
Qed.

Lemma ref_count_client_eq ct mx id v m p a :
  wf m → ids m !! id = Some p → heap m !! p = Some a → step_ok v (rc a) →
  ref_count_client ct mx id v m = purge ct mx (with_refs p a (rc a + v) (rs a) m).
Proof.
  intros H Hp Ha Hv. destruct (wf_u64 m H) as (Hz1 & Hz2 & Hc1 & Hc2).
  destruct (inv_heap _ m H p a Ha) as [_ [Hrc Hrs]].
  unfold ref_count_client. rewrite Hp. unfold deref. rewrite Ha. cbn [mbind outcome_bind].
  rewrite zero_change by (done || lia). destruct Hv as [Hv Hr]. rewrite i32_small by lia.
  unfold with_refs, set_client, set_heap, zero_client, zero_server.
  cbn [set_refs GlobalInfo.ref_count_client GlobalInfo.ref_count_server next_statement_id
    num_stmt_with_ref_client_count_zero num_stmt_with_ref_server_count_zero map_stmt_id_to_info
    map_stmt_hash_to_info free_stmt_ids c_total s_total heap last_purge_time select_for_update].
  f_equal. f_equal; [|f_equal; lia|].
  - by rewrite Z.sub_add, Hz2.
  - by rewrite Z.sub_add, Hc2.
Qed.

Lemma ref_count_server_eq id v m p a :
  wf m → ids m !! id = Some p → heap m !! p = Some a → step_ok v (rs a) →
  ref_count_server id v m = Ok (with_refs p a (rc a) (rs a + v) m).
Proof.
  intros H Hp Ha Hv. destruct (wf_u64 m H) as (Hz1 & Hz2 & Hc1 & Hc2).
  destruct (inv_heap _ m H p a Ha) as [_ [Hrc Hrs]].
  unfold ref_count_server. rewrite Hp. unfold deref. rewrite Ha. cbn [mbind outcome_bind].
  rewrite zero_change by (done || lia). destruct Hv as [Hv Hr]. rewrite i32_small by lia.
  unfold with_refs, set_server, set_heap, zero_client, zero_server.
  cbn [set_refs GlobalInfo.ref_count_client GlobalInfo.ref_count_server next_statement_id
    num_stmt_with_ref_client_count_zero num_stmt_with_ref_server_count_zero map_stmt_id_to_info
    map_stmt_hash_to_info free_stmt_ids c_total s_total heap last_purge_time select_for_update].
  f_equal. f_equal; [| |f_equal; lia].
  - by rewrite Z.sub_add, Hz1.
  - by rewrite Z.sub_add, Hc1.
Qed.

(** *** A new statement *)
Definition with_new (id : Z) (b : info) (p : positive) (next : Z) (free : list Z) (m : manager) : manager :=
  mkm next (u64 (num_stmt_with_ref_client_count_zero m + 1)) (u64 (num_stmt_with_ref_server_count_zero m + 1))
      (<[id := p]> (ids m)) (<[hash b := p]> (hashes m)) free (c_total m) (s_total m)
      (last_purge_time m) (select_for_update m) (<[p := b]> (heap m)).

Lemma inv_insert m id b p next free :
  wf m → statement_id b = id → unreferenced b → hashes m !! hash b = None → ids m !! id = None →
  heap m !! p = None → 0 < id < next → next_statement_id m <= next → NoDup free → (id ∉ free) →
  (∀ i, i ∈ free → i ∈ free_stmt_ids m) →
  wf (with_new id b p next free m).
Proof.
  intros H Hid [Hc Hs] Hh Hi Hp Hr Hn Hnd Hnf Hf. unfold wf, with_new.
  split; cbn [next_statement_id num_stmt_with_ref_client_count_zero num_stmt_with_ref_server_count_zero
    map_stmt_id_to_info map_stmt_hash_to_info free_stmt_ids c_total s_total heap].
  - intros id' q [[<- <-]|[Hne Hq]]%lookup_insert_Some.
    + exists b. rewrite !lookup_insert_eq. by split_and!.
    + destruct (inv_ids _ m H id' q Hq) as (c & Hc' & Hs' & Hk). exists c.
      rewrite lookup_insert_ne by (intros ->; congruence). split_and!; [done..|].
      intros HR. specialize (Hk HR). rewrite lookup_insert_ne; [done|]. intros Hx. congruence.
  - intros h q [[<- <-]|[Hne Hq]]%lookup_insert_Some.
    + exists b. rewrite lookup_insert_eq. split_and!; [done..|apply not_elem_of_nil].
    + destruct (inv_hashes _ m H h q Hq) as (c & Hc' & ? & ?). exists c.
      rewrite lookup_insert_ne by (intros ->; congruence). by split_and!.
  - intros q c [[<- <-]|[Hne Hq]]%lookup_insert_Some.
    + rewrite Hid, lookup_insert_eq. split; [done|]. unfold refs_ok. lia.
    + destruct (inv_heap _ m H q c Hq) as [Hi' Hr']. split; [|done].
      rewrite lookup_insert_ne; [done|]. intros Hx. congruence.
  - constructor.
  - intros i Hin. by apply elem_of_nil in Hin.
  - intros id' q [[<- <-]|[Hne Hq]]%lookup_insert_Some; [lia|].
    pose proof (inv_range _ m H id' q Hq). lia.
  - done.
  - intros i Hin. pose proof (inv_free_range _ m H i (Hf i Hin)) as [? ?]. split; [lia|].
    rewrite lookup_insert_ne; [done|]. intros <-. done.
  - lia.
  - rewrite map_total_insert_new, Hc by done. apply (inv_c_total _ m H).
  - rewrite map_total_insert_new, Hs by done. apply (inv_s_total _ m H).
  - rewrite map_total_insert_new, (inv_client _ m H) by done. rewrite u64_add_idemp. f_equal.
    assert (zero_client b = 1) as -> by (unfold zero_client; by rewrite Hc). cbn [length]. lia.
  - rewrite map_total_insert_new, (inv_server _ m H) by done. rewrite u64_add_idemp. f_equal.
    assert (zero_server b = 1) as -> by (unfold zero_server; by rewrite Hs). lia.
Qed.

Lemma take_server_eq p a m :
  wf m → heap m !! p = Some a → rs a + 1 < 2 ^ 31 →
  take_server p m = Ok (with_refs p a (rc a) (rs a + 1) m).
Proof.
  intros H Ha Hr. destruct (wf_u64 m H) as (Hz1 & Hz2 & Hc1 & Hc2).
  destruct (inv_heap _ m H p a Ha) as [_ [Hrc Hrs]].
  unfold take_server, deref. rewrite Ha. cbn [mbind outcome_bind]. rewrite i32_small by lia.
  unfold with_refs, set_server, set_heap, zero_client, zero_server.
  cbn [set_refs GlobalInfo.ref_count_client GlobalInfo.ref_count_server next_statement_id
    num_stmt_with_ref_client_count_zero num_stmt_with_ref_server_count_zero map_stmt_id_to_info
    map_stmt_hash_to_info free_stmt_ids c_total s_total heap last_purge_time select_for_update].
  rewrite (proj2 (Z.eqb_neq (rs a + 1) 0)), !Z.sub_add, Hz1, Hc1, Z.add_0_r by lia.
  f_equal. f_equal; [|f_equal; lia]. destruct (rs a =? 0); [done|]. by rewrite Z.sub_0_r, Hz2.
Qed.

Section add_spec.
Context (sizeof_info sizeof_bind sizeof_field sizeof_ptr : Z) (Hash64 : list Z → Z → Z).
Abbreviation add := (add_prepared_statement sizeof_info sizeof_bind sizeof_field sizeof_ptr Hash64).
Abbreviation consistent := (GlobalInfo.consistent sizeof_info sizeof_bind sizeof_field sizeof_ptr).
Abbreviation calculate := (calculate_mem_usage sizeof_info sizeof_bind sizeof_field sizeof_ptr).

(** The accounting of every cached statement is exact. *)
Definition metadata_ok (m : manager) : Prop := ∀ p a, heap m !! p = Some a → consistent a.

(** What two versions of a statement have in common for life. *)
Definition same_statement (a b : info) : Prop :=
  (statement_id a, hash a, query a, username a, schemaname a)
  = (statement_id b, hash b, query b, username b, schemaname b).

Lemma set_refs_consistent c s a : consistent a → consistent (set_refs c s a).
Proof.
  intros [H1 H2]. split; [done|].
  assert (calculate (set_refs c s a) = set_refs c s (calculate a)) as -> by (by destruct a).
  by rewrite <- H2.
Qed.

(** The statement is already cached: its metadata is refreshed and the backend's
    reference counted. *)
Lemma add_known u s q fc stmt m p a :
  wf m → metadata_ok m → described stmt → hashes m !! stmt_compute_hash Hash64 u s q = Some p →
  heap m !! p = Some a → rs a + 1 < 2 ^ 31 →
  ∃ m' b, add u s q fc stmt m = Ok (p, m') ∧ wf m' ∧ metadata_ok m' ∧
    heap m' = <[p := b]> (heap m) ∧ ids m' = ids m ∧ same_statement b a ∧
    rc b = rc a ∧ rs b = rs a + 1 ∧ next_statement_id m' = next_statement_id m ∧
    num_params b = param_count stmt ∧ names <$> fields b = names <$> s_fields stmt.
Proof.
  intros H Hm Hst Hh Ha Hrs. unfold add_prepared_statement. rewrite Hh. unfold deref at 1. rewrite Ha.
  cbn [mbind outcome_bind].
  destruct (update_metadata_spec sizeof_info sizeof_bind sizeof_field sizeof_ptr stmt a Hst (Hm p a Ha))
    as (a1 & -> & Hc1 & Hp1 & Hn1 & Hf1 & Hsame & _). cbn [mbind outcome_bind].
  injection Hsame as Hid Hhash Hq Hu Hsc Hrc Hrs1.
  destruct (inv_heap _ m H p a Ha) as [Hi [Hr1 Hr2]].
  assert (Hm1 : wf (set_heap (<[p := a1]> (heap m)) m)).
  { pose proof (inv_replace [] m p a a1 H Ha Hid Hhash) as Hrep. destruct (wf_u64 m H) as (Hz1 & Hz2 & Ht1 & Ht2).
    unfold zero_client, zero_server in Hrep. rewrite Hrc, Hrs1, !Z.sub_add, Hz1, Hz2, Ht1, Ht2 in Hrep.
    apply Hrep; [unfold refs_ok; by rewrite Hrc, Hrs1|]. intros Hin. by apply elem_of_nil in Hin. }
  set (m1 := set_heap _ m) in *.
  assert (Ha1 : heap m1 !! p = Some a1) by (cbn; by rewrite lookup_insert_eq).
  rewrite (take_server_eq p a1 m1 Hm1 Ha1) by (by rewrite Hrs1). cbn [mbind outcome_bind].
  eexists _, (set_refs (rc a1) (rs a1 + 1) a1). split; [done|]. split_and!; try done.
  - apply with_refs_wf; try done; lia.
  - intros q' c. cbn. rewrite insert_insert_eq. intros [[_ <-]|[_ Hc]]%lookup_insert_Some; [|by apply (Hm q')].
    by apply set_refs_consistent.
  - cbn. by rewrite insert_insert_eq.
  - unfold same_statement. cbn. congruence.
  - cbn. lia.
Qed.

Lemma create_spec id u s q fc stmt :
  described stmt →
  let h := stmt_compute_hash Hash64 u s q in
  ∃ a locking, GlobalInfo.create sizeof_info sizeof_bind sizeof_field sizeof_ptr Hash64 id u s q fc stmt h
               = Ok (a, locking) ∧
    consistent a ∧ unreferenced a ∧ num_params a = param_count stmt ∧
    names <$> fields a = names <$> s_fields stmt ∧
    (statement_id a, hash a, query a, username a, schemaname a) = (id, h, q, u, s).
Proof.
  intros (Hfc & Hc16 & Hp16) h. unfold GlobalInfo.create.
  destruct (search_select_spec q) as (plain & counted & -> & _). cbn [mbind outcome_bind].
  assert (copy_fields (u16 (field_count stmt)) stmt = Ok (s_fields stmt)) as ->.
  { unfold copy_fields. rewrite u16_small, (proj2 (Z.ltb_ge _ _)), take_ge by lia. done. }
  cbn [mbind outcome_bind]. rewrite !u16_small by lia. eexists _, _. split; [done|].
  assert (Hh : (if h =? 0 then stmt_compute_hash Hash64 u s q else h) = h) by (by destruct (h =? 0)).
  rewrite Hh. by split_and!.
Qed.

(** The hash is unknown: a statement is created under an id nobody uses, taken
    from the freed ones when there are any. *)
Lemma add_new u s q fc stmt m :
  wf m → metadata_ok m → described stmt → hashes m !! stmt_compute_hash Hash64 u s q = None →
  next_statement_id m + 1 < 2 ^ 64 →
  ∃ p m' b, add u s q fc stmt m = Ok (p, m') ∧ wf m' ∧ metadata_ok m' ∧
    heap m !! p = None ∧ heap m' = <[p := b]> (heap m) ∧
    ids m !! statement_id b = None ∧ ids m' = <[statement_id b := p]> (ids m) ∧
    (hash b, query b, username b, schemaname b) = (stmt_compute_hash Hash64 u s q, q, u, s) ∧
    rc b = 0 ∧ rs b = 1 ∧ next_statement_id m' <= next_statement_id m + 1 ∧
    num_params b = param_count stmt ∧ names <$> fields b = names <$> s_fields stmt.
Proof.
  intros H Hm Hst Hh Hnext. unfold add_prepared_statement. rewrite Hh.
  assert (Hid : ∃ id next free,
    (match free_stmt_ids m with
     | id :: r => (id, set_ids (next_statement_id m) r m)
     | [] => (next_statement_id m, set_ids (u64 (next_statement_id m + 1)) [] m) end)
    = (id, set_ids next free m) ∧ ids m !! id = None ∧ 0 < id < next ∧
    next_statement_id m <= next <= next_statement_id m + 1 ∧
    NoDup free ∧ (id ∉ free) ∧ (∀ i, i ∈ free → i ∈ free_stmt_ids m)).
  { pose proof (inv_next _ m H). pose proof (inv_free _ m H) as Hnd.
    destruct (free_stmt_ids m) as [|id r] eqn:Hf.
    - exists (next_statement_id m), (next_statement_id m + 1), []. rewrite u64_small by lia.
      split_and!; try done; try lia; try constructor; try apply not_elem_of_nil.
      destruct (ids m !! next_statement_id m) as [p|] eqn:Hp; [|done].
      pose proof (inv_range _ m H _ _ Hp). lia.
    - apply NoDup_cons in Hnd as [Hni Hnd]. exists id, (next_statement_id m), r.
      pose proof (inv_free_range _ m H id) as Hfr. rewrite Hf in Hfr.
      destruct (Hfr ltac:(by left)) as [? ?]. split_and!; try done; try lia. intros i Hi. by right. }
  destruct Hid as (id & next & free & -> & Hnone & Hrange & Hnx & Hnd & Hnf & Hsub).
  destruct (create_spec id u s q fc stmt Hst) as (a & locking & -> & Hca & [Hrc Hrs] & Hpa & Hfa & Heq).
  injection Heq as Hid Hhash Hq Hu Hs. cbn [mbind outcome_bind].
  set (m1 := if locking : bool then _ else _). set (p := new_address m1).
  assert (Hm1 : heap m1 = heap m ∧ ids m1 = ids m ∧ hashes m1 = hashes m ∧ c_total m1 = c_total m ∧
    s_total m1 = s_total m ∧ last_purge_time m1 = last_purge_time m ∧
    num_stmt_with_ref_client_count_zero m1 = num_stmt_with_ref_client_count_zero m ∧
    num_stmt_with_ref_server_count_zero m1 = num_stmt_with_ref_server_count_zero m ∧
    next_statement_id m1 = next ∧ free_stmt_ids m1 = free) by (unfold m1; by destruct locking).
  destruct Hm1 as (E1 & E2 & E3 & E4 & E5 & E6 & E7 & E8 & E9 & E10).
  assert (Hp : heap m !! p = None).
  { apply not_elem_of_dom. unfold p, new_address. rewrite E1. apply is_fresh. }
  set (m2 := set_sfu (select_for_update m1) (with_new id a p next free m)).
  assert (Hm2 : wf (with_new id a p next free m)).
  { apply inv_insert; try done; [by rewrite Hhash|lia]. }
  match goal with |- context [take_server p ?x] => assert (x = m2) as -> end.
  { cbn [set_heap map_stmt_id_to_info map_stmt_hash_to_info]. rewrite E2, E3, Hid, Hnone, Hhash, Hh.
    unfold m2, with_new, set_sfu, set_server, set_client, set_maps, set_heap.
    cbn [next_statement_id num_stmt_with_ref_client_count_zero num_stmt_with_ref_server_count_zero
      map_stmt_id_to_info map_stmt_hash_to_info free_stmt_ids c_total s_total heap last_purge_time select_for_update].
    by rewrite E1, E4, E5, E6, E7, E8, E9, E10, Hhash. }
  assert (Hwf2 : wf m2) by (by destruct Hm2; split).
  assert (Ha2 : heap m2 !! p = Some a) by (cbn; by rewrite lookup_insert_eq).
  rewrite (take_server_eq p a m2 Hwf2 Ha2) by lia. cbn [mbind outcome_bind].
  exists p, (with_refs p a (rc a) (rs a + 1) m2), (set_refs (rc a) (rs a + 1) a). split; [done|].
  split_and!; try done.
  - apply with_refs_wf; try done; lia.
  - intros q' c. cbn. rewrite insert_insert_eq. intros [[_ <-]|[_ Hc]]%lookup_insert_Some; [|by apply (Hm q')].
    by apply set_refs_consistent.
  - cbn. by rewrite insert_insert_eq.
  - cbn. by rewrite Hid.
  - cbn. by rewrite Hid.
  - cbn. congruence.
  - cbn. lia.
  - cbn. lia.
Qed.
End add_spec.

(** ** Properties of any operation *)
Section history.
Context (sizeof_info sizeof_bind sizeof_field sizeof_ptr : Z) (Hash64 : list Z → Z → Z).
Abbreviation add := (add_prepared_statement sizeof_info sizeof_bind sizeof_field sizeof_ptr Hash64).
Abbreviation metadata_ok := (metadata_ok sizeof_info sizeof_bind sizeof_field sizeof_ptr).

Inductive op :=
  | Add (u s q : list Z) (fc : option (list Z)) (stmt : mysql_stmt)
  | RefClient (ct max_stmts_cache id v : Z)
  | RefServer (id v : Z).

Definition exec (o : op) (m : manager) : outcome manager :=
  match o with
  | Add u s q fc stmt => '(_, m) ← add u s q fc stmt m; Ok m
  | RefClient ct mx id v => ref_count_client ct mx id v m
  | RefServer id v => ref_count_server id v m
  end.

(** What the callers guarantee: descriptions of real statements, references
    taken and given back one at a time, counters inside their types. *)
Definition op_ok (o : op) (m : manager) : Prop :=
  match o with
  | Add u s q fc stmt => described stmt ∧ next_statement_id m + 1 < 2 ^ 64 ∧
                         ∀ p a, heap m !! p = Some a → rs a + 1 < 2 ^ 31
  | RefClient _ _ id v => ∀ a, stmt_of id m = Some a → step_ok v (rc a)
  | RefServer id v => ∀ a, stmt_of id m = Some a → step_ok v (rs a)
  end.

(** The reference counts a cached statement has after the operation. *)
Definition effect (o : op) (a : info) : Z * Z :=
  match o with
  | Add u s q _ _ => (rc a, if hash a =? stmt_compute_hash Hash64 u s q then rs a + 1 else rs a)
  | RefClient _ _ id v => (if statement_id a =? id then rc a + v else rc a, rs a)
  | RefServer id v => (rc a, if statement_id a =? id then rs a + v else rs a)
  end.

Definition survives (o : op) (m m' : manager) : Prop :=
  ∀ id a, stmt_of id m = Some a → effect o a ≠ (0, 0) →
          ∃ b, stmt_of id m' = Some b ∧ same_statement b a ∧ (rc b, rs b) = effect o a.

Lemma stmt_of_heap m id a :
  wf m → stmt_of id m = Some a → ∃ p, ids m !! id = Some p ∧ heap m !! p = Some a ∧ statement_id a = id.
Proof. intros H. by apply stmt_of_Some. Qed.

Lemma stmt_of_intro m p a : ids m !! statement_id a = Some p → heap m !! p = Some a →
  stmt_of (statement_id a) m = Some a.
Proof. intros Hi Ha. unfold stmt_of. by rewrite Hi. Qed.

Lemma with_refs_metadata p a c s m :
  metadata_ok m → heap m !! p = Some a → metadata_ok (with_refs p a c s m).
Proof.
  intros Hm Ha q b. cbn. intros [[<- <-]|[_ Hb]]%lookup_insert_Some; [|by apply (Hm q)].
  apply set_refs_consistent, (Hm p a Ha).
Qed.

(** Changing the counts of one statement leaves the others as they are. *)
Lemma with_refs_stmt p a c s m id b :
  wf m → heap m !! p = Some a → stmt_of id m = Some b →
  stmt_of id (with_refs p a c s m) =
  Some (if statement_id b =? statement_id a then set_refs c s a else b).
Proof.
  intros H Ha Hb. destruct (stmt_of_heap m id b H Hb) as (q & Hq & Hbq & <-).
  unfold stmt_of. cbn. rewrite Hq. cbn [mbind option_bind].
  destruct (Z.eqb_spec (statement_id b) (statement_id a)) as [He|He].
  - pose proof (inv_object _ m p a H Ha) as Hp. rewrite <- He, Hq in Hp. injection Hp as ->.
    by rewrite lookup_insert_eq.
  - rewrite lookup_insert_ne; [done|]. intros ->. congruence.
Qed.

Lemma purge_survives ct mx m m' id b :
  purge ct mx m = Ok m' → wf m → stmt_of id m = Some b → ¬ unreferenced b → stmt_of id m' = Some b.
Proof.
  intros Hp H Hb Hu. destruct (purge_spec ct mx m H) as (m1 & Hm1 & Hwf & Hk & _).
  rewrite Hm1 in Hp. injection Hp as <-. destruct (stmt_of_heap m id b H Hb) as (q & Hq & Hbq & <-).
  destruct (Hk _ _ _ Hq Hbq Hu) as [Hi Hh]. by eapply stmt_of_intro.
Qed.

Lemma stmt_of_unique m p a id b :
  wf m → heap m !! p = Some a → stmt_of id m = Some b → statement_id b = statement_id a → b = a.
Proof.
  intros H Ha Hb He. destruct (stmt_of_heap m id b H Hb) as (q & Hq & Hbq & <-).
  rewrite He, (inv_object _ m p a H Ha) in Hq. injection Hq as <-. congruence.
Qed.

Lemma exec_refs_spec o m p a c s :
  wf m → metadata_ok m → heap m !! p = Some a → 0 <= c < 2 ^ 31 → 0 <= s < 2 ^ 31 →
  (∀ id b, stmt_of id m = Some b →
     effect o b = if statement_id b =? statement_id a then (c, s) else (rc b, rs b)) →
  ∀ m1, m1 = with_refs p a c s m → wf m1 ∧ metadata_ok m1 ∧
    ∀ id b, stmt_of id m = Some b → effect o b ≠ (0, 0) →
      ∃ b', stmt_of id m1 = Some b' ∧ same_statement b' b ∧ (rc b', rs b') = effect o b ∧ ¬ unreferenced b'.
Proof.
  intros H Hm Ha Hc Hs Heff m1 ->. split_and!; [by apply with_refs_wf|by apply with_refs_metadata|].
  intros id b Hb Hne. rewrite (with_refs_stmt p a c s m id b H Ha Hb). rewrite (Heff id b Hb) in *.
  destruct (Z.eqb_spec (statement_id b) (statement_id a)) as [He|He].
  - exists (set_refs c s a). split_and!; [done| |done|intros [Hx Hy]; apply Hne; cbn in Hx, Hy; congruence].
    by rewrite (stmt_of_unique m p a id b H Ha Hb He).
  - exists b. split_and!; [done..|]. intros [Hx Hy]. apply Hne. congruence.
Qed.

Lemma exec_spec o m :
  wf m → metadata_ok m → op_ok o m →
  ∃ m', exec o m = Ok m' ∧ wf m' ∧ metadata_ok m' ∧ survives o m m'.
Proof.
  intros H Hm Hok. destruct o as [u s q fc stmt|ct mx id v|id v]; cbn [exec op_ok] in *.
  - destruct Hok as (Hst & Hnext & Hrs). set (h := stmt_compute_hash Hash64 u s q).
    destruct (hashes m !! h) as [p|] eqn:Hh.
    + destruct (inv_hashes _ m H h p Hh) as (a & Ha & Hha & _).
      destruct (add_known sizeof_info sizeof_bind sizeof_field sizeof_ptr Hash64 u s q fc stmt m p a H Hm Hst Hh Ha (Hrs p a Ha))
        as (m' & b & -> & Hwf & Hmd & Hheap & Hids & Hsame & Hrc & Hrs' & _).
      exists m'. split_and!; [done..|]. intros i c Hc Hne. cbn [effect] in *. fold h in Hne |- *.
      destruct (stmt_of_heap m i c H Hc) as (r & Hr & Hcr & <-).
      destruct (Z.eqb_spec (hash c) h) as [He|He].
      * assert (r = p) as ->.
        { eapply (inv_same_hash [] m); try done; try apply not_elem_of_nil. congruence. }
        rewrite Ha in Hcr. injection Hcr as <-. exists b. split_and!; [|done|congruence].
        unfold stmt_of. rewrite Hids, Hr. cbn [mbind option_bind]. by rewrite Hheap, lookup_insert_eq.
      * exists c. split_and!; [|done|done]. unfold stmt_of. rewrite Hids, Hr. cbn [mbind option_bind].
        rewrite Hheap, lookup_insert_ne; [done|]. intros <-. congruence.
    + destruct (add_new sizeof_info sizeof_bind sizeof_field sizeof_ptr Hash64 u s q fc stmt m H Hm Hst Hh Hnext)
        as (p & m' & b & -> & Hwf & Hmd & Hp & Hheap & Hnone & Hids & _).
      exists m'. split_and!; [done..|]. intros i c Hc Hne. cbn [effect] in *. fold h in Hne |- *.
      destruct (stmt_of_heap m i c H Hc) as (r & Hr & Hcr & <-).
      destruct (Z.eqb_spec (hash c) h) as [He|He].
      { destruct (inv_ids _ m H _ _ Hr) as (c' & Hc' & _ & Hk). rewrite Hcr in Hc'. injection Hc' as <-.
        specialize (Hk (not_elem_of_nil _)). congruence. }
      exists c. split_and!; [|done|done]. unfold stmt_of. rewrite Hids, lookup_insert_ne by congruence.
      rewrite Hr. cbn [mbind option_bind]. rewrite Hheap, lookup_insert_ne; [done|]. congruence.
  - destruct (stmt_of id m) as [a|] eqn:Hid.
    + destruct (stmt_of_heap m id a H Hid) as (p & Hp & Ha & <-). specialize (Hok a eq_refl).
      rewrite (ref_count_client_eq ct mx _ v m p a H Hp Ha Hok).
      destruct (inv_heap _ m H p a Ha) as [_ [Hrc Hrs]].
      destruct (exec_refs_spec (RefClient ct mx (statement_id a) v) m p a (rc a + v) (rs a) H Hm Ha)
        with (m1 := with_refs p a (rc a + v) (rs a) m) as (Hw1 & Hm1 & Hs1); [apply Hok|done| |done|].
      { intros i b Hb. cbn [effect]. destruct (Z.eqb_spec (statement_id b) (statement_id a)) as [He|]; [|done].
        by rewrite (stmt_of_unique m p a i b H Ha Hb He). }
      destruct (purge_spec ct mx _ Hw1) as (m' & Hpu & Hwf & _ & _ & Hsub & _). exists m'.
      split_and!; [done..| |].
      * intros q b Hb. eapply Hm1, lookup_weaken; [exact Hb|exact Hsub].
      * intros i b Hb Hne. destruct (Hs1 i b Hb Hne) as (b' & Hb' & ? & ? & Hu). exists b'.
        split_and!; [|done..]. by eapply purge_survives.
    + unfold ref_count_client, stmt_of in *. destruct (ids m !! id) as [p|] eqn:Hp.
      { destruct (inv_ids _ m H id p Hp) as (a & Ha & _). cbn in Hid. congruence. }
      exists m. split_and!; [done..|]. intros i b Hb Hne. exists b. split_and!; [done..|]. cbn [effect].
      destruct (Z.eqb_spec (statement_id b) id) as [<-|]; [|done].
      destruct (stmt_of_heap m i b H Hb) as (q & ? & _ & <-). congruence.
  - destruct (stmt_of id m) as [a|] eqn:Hid.
    + destruct (stmt_of_heap m id a H Hid) as (p & Hp & Ha & <-). specialize (Hok a eq_refl).
      rewrite (ref_count_server_eq _ v m p a H Hp Ha Hok).
      destruct (inv_heap _ m H p a Ha) as [_ [Hrc Hrs]].
      destruct (exec_refs_spec (RefServer (statement_id a) v) m p a (rc a) (rs a + v) H Hm Ha)
        with (m1 := with_refs p a (rc a) (rs a + v) m) as (Hw1 & Hm1 & Hs1); [done|apply Hok| |done|].
      { intros i b Hb. cbn [effect]. destruct (Z.eqb_spec (statement_id b) (statement_id a)) as [He|]; [|done].
        by rewrite (stmt_of_unique m p a i b H Ha Hb He). }
      eexists. split_and!; [done..|]. intros i b Hb Hne.
      destruct (Hs1 i b Hb Hne) as (b' & ? & ? & ? & _). by exists b'.
    + unfold ref_count_server, stmt_of in *. destruct (ids m !! id) as [p|] eqn:Hp.
      { destruct (inv_ids _ m H id p Hp) as (a & Ha & _). cbn in Hid. congruence. }
      exists m. split_and!; [done..|]. intros i b Hb Hne. exists b. split_and!; [done..|]. cbn [effect].
      destruct (Z.eqb_spec (statement_id b) id) as [<-|]; [|done].
      destruct (stmt_of_heap m i b H Hb) as (q & ? & _ & <-). congruence.
Qed.

(** Where the statements of the new state come from: each was there before, with
    the counts the operation accounts for, or is the one just created. *)
Definition accounted (o : op) (m m' : manager) : Prop :=
  ∀ id b, stmt_of id m' = Some b →
    (∃ a, stmt_of id m = Some a ∧ same_statement b a ∧ (rc b, rs b) = effect o a) ∨
    (stmt_of id m = None ∧ (rc b, rs b) = (0, 1) ∧
     match o with Add u s q _ _ => hash b = stmt_compute_hash Hash64 u s q | _ => False end).

Lemma with_refs_origin p a c s m id b' :
  wf m → heap m !! p = Some a → stmt_of id (with_refs p a c s m) = Some b' →
  ∃ b, stmt_of id m = Some b ∧ b' = if statement_id b =? statement_id a then set_refs c s a else b.
Proof.
  intros H Ha Hb'. destruct (stmt_of id m) as [b|] eqn:Hb.
  - exists b. split; [done|]. rewrite (with_refs_stmt p a c s m id b H Ha Hb) in Hb'. by injection Hb' as <-.
  - unfold stmt_of in *. cbn in Hb'. destruct (ids m !! id) as [q|] eqn:Hq; [|done].
    destruct (inv_ids _ m H id q Hq) as (b & Hbq & _). cbn in Hb. congruence.
Qed.

Lemma stmt_of_sub m m' id b :
  ids m' ⊆ ids m → heap m' ⊆ heap m → stmt_of id m' = Some b → stmt_of id m = Some b.
Proof.
  intros Hi Hh. unfold stmt_of. destruct (ids m' !! id) as [p|] eqn:Hp; [|done]. cbn [mbind option_bind].
  intros Hb. rewrite (lookup_weaken _ _ _ _ Hp Hi). cbn [mbind option_bind]. by eapply lookup_weaken.
Qed.

Lemma add_origin u s q fc stmt m p m' :
  wf m → metadata_ok m → op_ok (Add u s q fc stmt) m → add u s q fc stmt m = Ok (p, m') →
  accounted (Add u s q fc stmt) m m' ∧
  ∃ b, heap m' !! p = Some b ∧ ids m' !! statement_id b = Some p ∧
       hash b = stmt_compute_hash Hash64 u s q.
Proof.
  intros H Hm (Hst & Hnext & Hrs) Hadd. set (h := stmt_compute_hash Hash64 u s q).
  destruct (hashes m !! h) as [p0|] eqn:Hh.
  - destruct (inv_hashes _ m H h p0 Hh) as (a & Ha & Hha & _).
    destruct (add_known sizeof_info sizeof_bind sizeof_field sizeof_ptr Hash64 u s q fc stmt m p0 a H Hm Hst Hh Ha (Hrs p0 a Ha))
      as (m1 & b & Hadd1 & Hwf & _ & Hheap & Hids & Hsame & Hrc & Hrs' & _).
    rewrite Hadd in Hadd1. injection Hadd1 as <- <-. pose proof Hsame as Hsame'. injection Hsame' as Hsid Hsh _ _ _. split.
    + intros i c Hc. left. destruct (stmt_of_heap m' i c Hwf Hc) as (r & Hr & Hcr & <-).
      rewrite Hids in Hr. rewrite Hheap in Hcr. cbn [effect]. fold h.
      apply lookup_insert_Some in Hcr as [[-> <-]|[Hne Hcr]].
      * exists a. rewrite Hsid. rewrite (proj2 (Z.eqb_eq _ _) Hha), Hrc, Hrs'. split_and!; [|exact Hsame|done].
        apply (stmt_of_intro m r); [by apply (inv_object [] m)|done].
      * exists c. split_and!; [by apply (stmt_of_intro m r)|done|].
        destruct (Z.eqb_spec (hash c) h) as [He|]; [|done]. destruct Hne.
        eapply (inv_same_hash [] m); try done; try apply not_elem_of_nil. congruence.
    + exists b. rewrite Hheap, lookup_insert_eq, Hids, Hsid. split_and!; [done| |congruence].
      by apply (inv_object [] m).
  - destruct (add_new sizeof_info sizeof_bind sizeof_field sizeof_ptr Hash64 u s q fc stmt m H Hm Hst Hh Hnext)
      as (p1 & m1 & b & Hadd1 & Hwf & _ & Hp & Hheap & Hnone & Hids & Heq & Hrcb & Hrsb & _).
    rewrite Hadd in Hadd1. injection Hadd1 as <- <-. injection Heq as Hhb _ _ _. split.
    + intros i c Hc. destruct (stmt_of_heap m' i c Hwf Hc) as (r & Hr & Hcr & <-).
      rewrite Hids in Hr. rewrite Hheap in Hcr. cbn [effect]. fold h.
      apply lookup_insert_Some in Hcr as [[<- <-]|[Hne Hcr]].
      * right. split_and!; [unfold stmt_of; by rewrite Hnone|by rewrite Hrcb, Hrsb|done].
      * left. exists c. pose proof (inv_object _ m r c H Hcr) as Hic.
        split_and!; [by apply (stmt_of_intro m r)|done|].
        destruct (Z.eqb_spec (hash c) h) as [He|]; [|done]. exfalso.
        destruct (inv_ids _ m H _ _ Hic) as (c' & Hc' & _ & Hk). rewrite Hcr in Hc'. injection Hc' as <-.
        specialize (Hk (not_elem_of_nil _)). congruence.
    + exists b. rewrite Hheap, lookup_insert_eq, Hids, lookup_insert_eq. done.
Qed.

Lemma with_refs_same m p a i b0 c s :
  wf m → heap m !! p = Some a → stmt_of i m = Some b0 →
  same_statement (if statement_id b0 =? statement_id a then set_refs c s a else b0) b0.
Proof.
  intros H Ha Hb0. destruct (Z.eqb_spec (statement_id b0) (statement_id a)) as [He|]; [|done].
  by rewrite (stmt_of_unique m p a i b0 H Ha Hb0 He).
Qed.

Lemma exec_origin o m m' :
  wf m → metadata_ok m → op_ok o m → exec o m = Ok m' → accounted o m m'.
Proof.
  intros H Hm Hok Hx. destruct o as [u s q fc stmt|ct mx id v|id v]; cbn [exec] in Hx.
  - destruct (add u s q fc stmt m) as [[p m1]|] eqn:Hadd; [|done]. cbn in Hx. injection Hx as <-.
    by eapply add_origin.
  - intros i b Hb. left. destruct (stmt_of id m) as [a|] eqn:Hid.
    + destruct (stmt_of_heap m id a H Hid) as (p & Hp & Ha & <-). specialize (Hok a Hid).
      rewrite (ref_count_client_eq ct mx _ v m p a H Hp Ha Hok) in Hx.
      destruct (inv_heap _ m H p a Ha) as [_ [Hrc Hrs]].
      assert (Hw1 : wf (with_refs p a (rc a + v) (rs a) m)) by (apply with_refs_wf; try done; apply Hok).
      destruct (purge_spec ct mx _ Hw1) as (m2 & Hm2 & _ & _ & Hi & Hh & _).
      rewrite Hx in Hm2. injection Hm2 as <-.
      pose proof (stmt_of_sub _ _ i b Hi Hh Hb) as Hb1.
      destruct (with_refs_origin p a _ _ m i b H Ha Hb1) as (b0 & Hb0 & ->). exists b0. split; [done|]. split; [exact (with_refs_same m p a i b0 _ _ H Ha Hb0)|].
      cbn [effect]. destruct (Z.eqb_spec (statement_id b0) (statement_id a)) as [He|]; [|done].
      by rewrite (stmt_of_unique m p a i b0 H Ha Hb0 He).
    + unfold ref_count_client in Hx. destruct (ids m !! id) as [p|] eqn:Hp.
      { destruct (inv_ids _ m H id p Hp) as (a & Ha & _). unfold stmt_of in Hid. rewrite Hp in Hid.
        cbn in Hid. congruence. }
      injection Hx as <-. exists b. split; [done|]. split; [done|]. cbn [effect].
      destruct (Z.eqb_spec (statement_id b) id) as [<-|]; [|done].
      destruct (stmt_of_heap m i b H Hb) as (q & ? & _ & <-). congruence.
  - intros i b Hb. left. destruct (stmt_of id m) as [a|] eqn:Hid.
    + destruct (stmt_of_heap m id a H Hid) as (p & Hp & Ha & <-). specialize (Hok a Hid).
      rewrite (ref_count_server_eq _ v m p a H Hp Ha Hok) in Hx. injection Hx as <-.
      destruct (with_refs_origin p a _ _ m i b H Ha Hb) as (b0 & Hb0 & ->). exists b0. split; [done|]. split; [exact (with_refs_same m p a i b0 _ _ H Ha Hb0)|].
      cbn [effect]. destruct (Z.eqb_spec (statement_id b0) (statement_id a)) as [He|]; [|done].
      by rewrite (stmt_of_unique m p a i b0 H Ha Hb0 He).
    + unfold ref_count_server in Hx. destruct (ids m !! id) as [p|] eqn:Hp.
      { destruct (inv_ids _ m H id p Hp) as (a & Ha & _). unfold stmt_of in Hid. rewrite Hp in Hid.
        cbn in Hid. congruence. }
      injection Hx as <-. exists b. split; [done|]. split; [done|]. cbn [effect].
      destruct (Z.eqb_spec (statement_id b) id) as [<-|]; [|done].
      destruct (stmt_of_heap m i b H Hb) as (q & ? & _ & <-). congruence.
Qed.

Fixpoint exec_all (os : list op) (m : manager) : outcome manager :=
  match os with
  | [] => Ok m
  | o :: os' => m ← exec o m; exec_all os' m
  end.

(** Every operation of the history is called as its contract says. *)
Fixpoint ops_ok (os : list op) (m : manager) : Prop :=
  match os with
  | [] => True
  | o :: os' => op_ok o m ∧ match exec o m with Ok m' => ops_ok os' m' | Fault _ => True end
  end.

(** the statement cache never corrupts itself. Any history of preparations
    and reference changes from the empty cache -- with purges, id recycling and
    metadata refreshes in between -- runs without touching a freed object and
    ends in a state where the two maps hold the same live objects, each under
    its own id and hash, no freed id is in use, and the totals and the counters
    of unreferenced statements are exact. *)
Theorem cache_never_corrupts os now :
  ops_ok os (create now) → ∃ m, exec_all os (create now) = Ok m ∧ wf m ∧ metadata_ok m.
Proof.
  assert (H : ∀ m, wf m → metadata_ok m → ops_ok os m → ∃ m', exec_all os m = Ok m' ∧ wf m' ∧ metadata_ok m').
  { induction os as [|o os IH]; intros m Hw Hm; cbn [ops_ok exec_all]; [by exists m|].
    intros [Ho Hos]. destruct (exec_spec o m Hw Hm Ho) as (m1 & Hx & Hw1 & Hm1 & _).
    rewrite Hx in *. cbn [mbind outcome_bind]. by apply IH. }
  apply H; [apply inv_create|]. intros p a Ha. cbn in Ha. by rewrite lookup_empty in Ha.
Qed.

(** a referenced statement is never lost. Whatever operation runs -- a purge
    included -- a cached statement that still has a reference afterwards is
    found under the same id with the same text, owner and hash, and its counts
    are exactly the old ones plus what the operation did. *)
Theorem referenced_statement_survives o m :
  wf m → metadata_ok m → op_ok o m →
  ∃ m', exec o m = Ok m' ∧
    ∀ id a, stmt_of id m = Some a → effect o a ≠ (0, 0) →
      ∃ b, stmt_of id m' = Some b ∧ same_statement b a ∧ (rc b, rs b) = effect o a.
Proof. intros. destruct (exec_spec o m) as (m' & ? & _ & _ & ?); [done..|]. by exists m'. Qed.

(** preparing the same query twice gives the same statement. After
    [add_prepared_statement], the hash and the id of the statement lead to the
    same live object, which has the text, schema and user given and one more
    backend reference; a second preparation of the same triple returns that
    object again and creates nothing. *)
Theorem prepare_deduplicates u s q fc stmt m :
  wf m → metadata_ok m → described stmt → next_statement_id m + 1 < 2 ^ 64 →
  (∀ p a, heap m !! p = Some a → rs a + 2 < 2 ^ 31) →
  hashes m !! stmt_compute_hash Hash64 u s q = None →
  ∃ p m1 a m2 b, add u s q fc stmt m = Ok (p, m1) ∧
    stmt_of (statement_id a) m1 = Some a ∧
    find_prepared_statement_by_hash (stmt_compute_hash Hash64 u s q) m1 = Some p ∧
    find_prepared_statement_by_stmt_id (statement_id a) m1 = Some p ∧
    stmt_of (statement_id a) m = None ∧
    (query a, username a, schemaname a) = (q, u, s) ∧ (rc a, rs a) = (0, 1) ∧
    add u s q fc stmt m1 = Ok (p, m2) ∧ dom (ids m2) = dom (ids m1) ∧
    stmt_of (statement_id a) m2 = Some b ∧ same_statement b a ∧ (rc b, rs b) = (0, 2).
Proof.
  intros H Hm Hst Hnext Hrs Hh. set (h := stmt_compute_hash Hash64 u s q) in *.
  destruct (add_new sizeof_info sizeof_bind sizeof_field sizeof_ptr Hash64 u s q fc stmt m H Hm Hst Hh Hnext)
    as (p & m1 & a & Hadd & Hw1 & Hm1 & Hp & Hheap & Hnone & Hids & Heq & Hrca & Hrsa & _).
  injection Heq as Hha Hqa Hua Hsa.
  assert (Ha1 : heap m1 !! p = Some a) by (rewrite Hheap; apply lookup_insert_eq).
  assert (Hi1 : ids m1 !! statement_id a = Some p) by (rewrite Hids; apply lookup_insert_eq).
  assert (Hh1 : hashes m1 !! h = Some p).
  { destruct (inv_ids _ m1 Hw1 _ _ Hi1) as (c & Hc & _ & Hk). rewrite Ha1 in Hc. injection Hc as <-.
    unfold h. rewrite <- Hha. apply Hk, not_elem_of_nil. }
  destruct (add_known sizeof_info sizeof_bind sizeof_field sizeof_ptr Hash64 u s q fc stmt m1 p a Hw1 Hm1 Hst Hh1 Ha1)
    as (m2 & b & Hadd2 & Hw2 & _ & Hheap2 & Hids2 & Hsame & Hrcb & Hrsb & _); [lia|].
  exists p, m1, a, m2, b. split_and!; try done.
  - by eapply stmt_of_intro.
  - unfold stmt_of. by rewrite Hnone.
  - congruence.
  - by rewrite Hrca, Hrsa.
  - by rewrite Hids2.
  - unfold stmt_of. rewrite Hids2, Hi1. cbn [mbind option_bind]. by rewrite Hheap2, lookup_insert_eq.
  - by rewrite Hrcb, Hrsb, Hrca, Hrsa.
Qed.

(** How many cached statements have a client, and a backend, reference. *)
Definition with_clients (m : manager) : Z := map_total (λ a, if rc a =? 0 then 0 else 1) (heap m).
Definition with_servers (m : manager) : Z := map_total (λ a, if rs a =? 0 then 0 else 1) (heap m).

Lemma map_total_split (f g h : info → Z) (x : gmap positive info) :
  (∀ a, f a + g a = h a) → map_total f x + map_total g x = map_total h x.
Proof.
  intros Hs. induction x as [|p a x Hp IH] using map_ind; [done|].
  rewrite !map_total_insert_new by done. specialize (Hs a). lia.
Qed.

Lemma map_total_one (x : gmap positive info) : map_total (λ _, 1) x = Z.of_nat (size x).
Proof.
  induction x as [|p a x Hp IH] using map_ind; [done|].
  rewrite map_total_insert_new, map_size_insert_None by done. lia.
Qed.

(** Both maps have one entry per object. *)
Lemma ids_size m : wf m → size (ids m) = size (heap m).
Proof.
  intros H. rewrite <- !length_map_to_list.
  assert (Hp : (λ x : Z * positive, x.2) <$> map_to_list (ids m) ≡ₚ (λ x : positive * info, x.1) <$> map_to_list (heap m)).
  { apply NoDup_Permutation.
    - apply NoDup_fmap_2_strong; [|apply NoDup_map_to_list]. intros [i p] [j q] Hi Hj.
      cbn [snd]. intros ->. apply elem_of_map_to_list in Hi, Hj.
      destruct (inv_ids _ m H i q Hi) as (a & Ha & <- & _), (inv_ids _ m H j q Hj) as (b & Hb & <- & _).
      congruence.
    - apply NoDup_fst_map_to_list.
    - intros p. rewrite !list_elem_of_fmap. split.
      + intros ([i p'] & -> & Hi). apply elem_of_map_to_list in Hi.
        destruct (inv_ids _ m H i p' Hi) as (a & Ha & _). exists (p', a). by rewrite elem_of_map_to_list.
      + intros ([p' a] & -> & Ha). apply elem_of_map_to_list in Ha.
        exists (statement_id a, p'). rewrite elem_of_map_to_list. split; [done|]. by apply (inv_object [] m). }
  apply Permutation_length in Hp. by rewrite !length_fmap in Hp.
Qed.

(** the reported metrics are exact. In every state of the cache whose totals
    fit 64 bits, [get_metrics] reports the number of cached statements, how many
    have a client and how many have a backend, and the sums of both reference
    counts, although it computes them from running counters. *)
Theorem metrics_exact m :
  wf m → Z.of_nat (size (heap m)) < 2 ^ 64 → map_total rc (heap m) < 2 ^ 64 → map_total rs (heap m) < 2 ^ 64 →
  get_metrics m = (with_clients m, map_total rc (heap m), next_statement_id m, Z.of_nat (size (heap m)),
                   with_servers m, map_total rs (heap m)).
Proof.
  intros H Hsz Hc Hs. unfold get_metrics. rewrite (ids_size m H).
  assert (Hnn : ∀ f : info → Z, (∀ p a, heap m !! p = Some a → 0 <= f a) → 0 <= map_total f (heap m))
    by (intros; by apply map_total_nonneg).
  assert (Hrc : 0 <= map_total rc (heap m)) by (apply Hnn; intros p a Ha; apply (inv_heap _ m H p a Ha)).
  assert (Hrs : 0 <= map_total rs (heap m)) by (apply Hnn; intros p a Ha; apply (inv_heap _ m H p a Ha)).
  assert (Hz1 : map_total zero_client (heap m) + with_clients m = Z.of_nat (size (heap m))).
  { rewrite <- map_total_one. apply map_total_split. intros a. unfold zero_client. by destruct (rc a =? 0). }
  assert (Hz2 : map_total zero_server (heap m) + with_servers m = Z.of_nat (size (heap m))).
  { rewrite <- map_total_one. apply map_total_split. intros a. unfold zero_server. by destruct (rs a =? 0). }
  assert (0 <= map_total zero_client (heap m)) by (apply Hnn; intros; unfold zero_client; by case_test).
  assert (0 <= map_total zero_server (heap m)) by (apply Hnn; intros; unfold zero_server; by case_test).
  assert (0 <= with_clients m) by (apply Hnn; intros; by case_test).
  assert (0 <= with_servers m) by (apply Hnn; intros; by case_test).
  rewrite (inv_client _ m H), (inv_server _ m H), (inv_c_total _ m H), (inv_s_total _ m H).
  cbn [length]. rewrite !Z.sub_0_r, (u64_small (map_total rc _)), (u64_small (map_total rs _)),
    (u64_small (map_total zero_client _)), (u64_small (map_total zero_server _)), !u64_small by lia.
  repeat f_equal; lia.
Qed.
End history.

(** *** Witnesses on a concrete history *)
Definition toy_hash (l : list Z) (seed : Z) : Z := 1 + foldr (λ c n, (c + 31 * n) mod 2 ^ 32) seed l.
Definition toy_stmt : mysql_stmt := mk_stmt 1 1 0 0 [].

Definition toy_history : list op :=
  [Add [97] [98] [99] None toy_stmt; RefClient 10 0 1 1; RefClient 20 0 1 (-1); RefServer 1 (-1);
   Add [97] [98] [100] None toy_stmt; RefClient 30 0 2 1; Add [97] [98] [99] None toy_stmt].

Lemma toy_described : described toy_stmt.
Proof. repeat split; cbn; lia. Qed.

Ltac solve_op :=
  lazymatch goal with
  | |- op_ok (Add _ _ _ _ _) ?m =>
      split_and!; [apply toy_described|reflexivity|
        change (map_Forall (λ (_ : positive) a, rs a + 1 < 2 ^ 31) (heap m));
        apply (bool_decide_unpack _); vm_compute; exact I]
  | |- _ => let Ha := fresh in intros ? Ha; vm_compute in Ha; injection Ha as <-;
            vm_compute; split; [tauto|split; [discriminate|reflexivity]]
  end.

Ltac solve_ops :=
  cbn [ops_ok];
  repeat (split; [solve_op|match goal with |- context [exec ?a ?b ?c ?d ?e ?o ?m] =>
            let r := eval vm_compute in (exec a b c d e o m) in change (exec a b c d e o m) with r end;
          cbn iota]); exact I.

Lemma cache_never_corrupts_witness :
  ∃ m, exec_all 208 112 128 8 toy_hash toy_history (create 0) = Ok m ∧ wf m ∧ metadata_ok 208 112 128 8 m.
Proof. apply cache_never_corrupts. unfold toy_history. solve_ops. Defined.

Abbreviation toy_exec := (exec_all 208 112 128 8 toy_hash).

Lemma toy_metadata_empty : metadata_ok 208 112 128 8 (create 0).
Proof. intros p a Ha. cbn in Ha. by rewrite lookup_empty in Ha. Qed.

(** The state after one preparation. *)
Definition toy_state : manager :=
  match toy_exec [Add [97] [98] [99] None toy_stmt] (create 0) with Ok m => m | Fault _ => create 0 end.

Lemma toy_state_wf : wf toy_state ∧ metadata_ok 208 112 128 8 toy_state.
Proof.
  unfold toy_state.
  destruct (add_new 208 112 128 8 toy_hash [97] [98] [99] None toy_stmt (create 0) (inv_create 0)
    toy_metadata_empty toy_described eq_refl ltac:(cbn; lia)) as (p & m & b & Hadd & Hw & Hm & _).
  cbn [exec_all exec]. rewrite Hadd. by split.
Qed.

Lemma referenced_statement_survives_witness :
  ∃ m', exec 208 112 128 8 toy_hash (RefClient 10 0 1 1) toy_state = Ok m' ∧
    ∀ id a, stmt_of id toy_state = Some a → effect toy_hash (RefClient 10 0 1 1) a ≠ (0, 0) →
      ∃ b, stmt_of id m' = Some b ∧ same_statement b a ∧ (rc b, rs b) = effect toy_hash (RefClient 10 0 1 1) a.
Proof.
  apply (referenced_statement_survives 208 112 128 8 toy_hash (RefClient 10 0 1 1) toy_state);
    [apply toy_state_wf..|solve_op].
Defined.

Lemma prepare_deduplicates_witness :
  ∃ p m1 a m2 b,
    add_prepared_statement 208 112 128 8 toy_hash [97] [98] [99] None toy_stmt (create 0) = Ok (p, m1) ∧
    stmt_of (statement_id a) m1 = Some a ∧
    find_prepared_statement_by_hash (stmt_compute_hash toy_hash [97] [98] [99]) m1 = Some p ∧
    find_prepared_statement_by_stmt_id (statement_id a) m1 = Some p ∧
    stmt_of (statement_id a) (create 0) = None ∧
    (query a, username a, schemaname a) = ([99], [97], [98]) ∧ (rc a, rs a) = (0, 1) ∧
    add_prepared_statement 208 112 128 8 toy_hash [97] [98] [99] None toy_stmt m1 = Ok (p, m2) ∧
    dom (ids m2) = dom (ids m1) ∧
    stmt_of (statement_id a) m2 = Some b ∧ same_statement b a ∧ (rc b, rs b) = (0, 2).
Proof.
  apply (prepare_deduplicates 208 112 128 8 toy_hash [97] [98] [99] None toy_stmt (create 0));
    [apply inv_create|apply toy_metadata_empty|apply toy_described|cbn; lia| |reflexivity].
  intros p a Ha. cbn in Ha. by rewrite lookup_empty in Ha.
Defined.

Lemma metrics_exact_witness :
  get_metrics toy_state = (with_clients toy_state, map_total rc (heap toy_state), next_statement_id toy_state,
    Z.of_nat (size (heap toy_state)), with_servers toy_state, map_total rs (heap toy_state)).
Proof. apply metrics_exact; [apply toy_state_wf|vm_compute; reflexivity..]. Defined.
