(* ===== verification/StmtLocal.v ===== *)
(** * Prepared statements of the connections (lib/MySQL_PreparedStatement.cpp,
    [MySQL_STMTs_local_v14]; the preparation and closing
    handlers of lib/MySQL_Session.cpp)

    Each client session maps the ids it gave out to global ids, each backend
    connection maps global ids to its own handles, and both count references in
    the shared cache.  [System] puts the cache, the sessions and the backend
    connections together and relates the counts to the tables. *)
From S2P Require Import Prelude Stmt StmtManager.
Abbreviation mysql_stmt := GlobalInfo.mysql_stmt.
Abbreviation s_stmt_id := GlobalInfo.s_stmt_id.
Abbreviation statement_id := GlobalInfo.statement_id.

(** ** The tables of one connection *)
Module Local.

Record t := mk {
  is_client : bool;
  free_client_ids : list Z;                          (* std::stack, top first *)
  local_max_stmt_id : Z;
  client_stmt_to_global_ids : gmap Z Z;
  global_stmt_to_client_ids : gmap Z (list Z);       (* multimap: the ids of a key in insertion order *)
  backend_stmt_to_global_ids : gmap Z Z;
  global_stmt_to_backend_ids : gmap Z Z;
  global_stmt_to_backend_stmt : gmap Z Z             (* the value names the MYSQL_STMT handle *)
}.

Definition create (ic : bool) : t := mk ic [] 0 ∅ ∅ ∅ ∅ ∅.

(** [std::map::insert]: an existing key keeps its value. *)
Definition map_insert {V} (k : Z) (v : V) (m : gmap Z V) : gmap Z V :=
  match m !! k with Some _ => m | None => <[k := v]> m end.

Definition backend_insert (global_statement_id : Z) (stmt : mysql_stmt) (l : t) : t :=
  mk (is_client l) (free_client_ids l) (local_max_stmt_id l) (client_stmt_to_global_ids l)
     (global_stmt_to_client_ids l)
     (map_insert (u32 (s_stmt_id stmt)) global_statement_id (backend_stmt_to_global_ids l))
     (map_insert global_statement_id (u32 (s_stmt_id stmt)) (global_stmt_to_backend_ids l))
     (map_insert global_statement_id (s_stmt_id stmt) (global_stmt_to_backend_stmt l)).

(** The parameter has 32 bits although global ids have 64. *)
Definition find_backend_stmt_by_global_id (global_statement_id : Z) (l : t) : option Z :=
  global_stmt_to_backend_stmt l !! u32 global_statement_id.

Definition get_num_backend_stmts (l : t) : Z := Z.of_nat (size (backend_stmt_to_global_ids l)).

Definition find_global_stmt_id_from_client (client_stmt_id : Z) (l : t) : Z :=
  default 0 (client_stmt_to_global_ids l !! client_stmt_id).

Section with_manager.
Context (ct max_stmts_cache : Z).

Definition generate_new_client_stmt_id (global_statement_id : Z) (l : t) (m : manager)
  : outcome (Z * t * manager) :=
  let '(ret, free, top) := match free_client_ids l with
    | id :: r => (id, r, local_max_stmt_id l)
    | [] => let n := u32 (local_max_stmt_id l + 1) in (n, [], n)
    end in
  if ret =? 0 then Fault AssertFail else
  let l := mk (is_client l) free top
    (map_insert ret global_statement_id (client_stmt_to_global_ids l))
    (<[global_statement_id := default [] (global_stmt_to_client_ids l !! global_statement_id) ++ [ret]]>
       (global_stmt_to_client_ids l))
    (backend_stmt_to_global_ids l) (global_stmt_to_backend_ids l) (global_stmt_to_backend_stmt l) in
  m ← ref_count_client ct max_stmts_cache global_statement_id 1 m;
  Ok (ret, l, m).

(** The first occurrence of [x] leaves a list. *)
Fixpoint remove_first (x : Z) (l : list Z) : list Z :=
  match l with
  | [] => []
  | y :: r => if y =? x then r else y :: remove_first x r
  end.

Definition client_close (client_statement_id : Z) (l : t) (m : manager) : outcome (bool * t * manager) :=
  match client_stmt_to_global_ids l !! client_statement_id with
  | None => Ok (false, l, m)
  | Some g =>
      let c2g := delete client_statement_id (client_stmt_to_global_ids l) in
      m ← ref_count_client ct max_stmts_cache g (-1) m;
      let cs := default [] (global_stmt_to_client_ids l !! g) in
      let found := existsb (λ c, c =? client_statement_id) cs in
      Ok (true,
          mk (is_client l)
             (if found then client_statement_id :: free_client_ids l else free_client_ids l)
             (local_max_stmt_id l) c2g
             (if found then <[g := remove_first client_statement_id cs]> (global_stmt_to_client_ids l)
              else global_stmt_to_client_ids l)
             (backend_stmt_to_global_ids l) (global_stmt_to_backend_ids l) (global_stmt_to_backend_stmt l),
          m)
  end.

(** The destructor's two loops, over the keys in order. *)
Fixpoint release_clients (gs : list Z) (m : manager) : outcome manager :=
  match gs with
  | [] => Ok m
  | g :: r => m ← ref_count_client ct max_stmts_cache g (-1) m; release_clients r m
  end.
Fixpoint release_servers (gs : list Z) (m : manager) : outcome manager :=
  match gs with
  | [] => Ok m
  | g :: r => m ← ref_count_server g (-1) m; release_servers r m
  end.

Definition key_le (x y : Z * Z) : Prop := x.1 <= y.1.
#[global] Instance key_le_dec x y : Decision (key_le x y).
Proof. unfold key_le. apply _. Defined.

Definition destroy (l : t) (m : manager) : outcome manager :=
  if is_client l
  then release_clients (merge_sort key_le (map_to_list (client_stmt_to_global_ids l))).*2 m
  else release_servers (merge_sort key_le (map_to_list (global_stmt_to_backend_stmt l))).*1 m.
End with_manager.

(** *** The tables agree with each other *)
Record wf (l : t) : Prop := {
  wf_c2g cid g : client_stmt_to_global_ids l !! cid = Some g ↔
                 cid ∈ default [] (global_stmt_to_client_ids l !! g);
  wf_nodup g : NoDup (default [] (global_stmt_to_client_ids l !! g));
  wf_range cid g : client_stmt_to_global_ids l !! cid = Some g → 0 < cid <= local_max_stmt_id l;
  wf_free : NoDup (free_client_ids l);
  wf_free_range cid : cid ∈ free_client_ids l →
    0 < cid <= local_max_stmt_id l ∧ client_stmt_to_global_ids l !! cid = None;
  wf_max : 0 <= local_max_stmt_id l < 2 ^ 32
}.

Lemma wf_create ic : wf (create ic).
Proof.
  split; cbn; [intros cid g|intros g|intros cid g|constructor|intros cid Hin|lia].
  - rewrite !lookup_empty. cbn. by rewrite elem_of_nil.
  - rewrite lookup_empty. constructor.
  - by rewrite lookup_empty.
  - by apply elem_of_nil in Hin.
Qed.

(** References of one session to a global id. *)
Definition refs (g : Z) (l : t) : Z :=
  map_total (λ g', if g' =? g then 1 else 0) (client_stmt_to_global_ids l).

Lemma remove_first_elem x l y : NoDup l → y ∈ remove_first x l ↔ y ∈ l ∧ y ≠ x.
Proof.
  induction l as [|z l IH]; intros Hnd; cbn [remove_first].
  { rewrite elem_of_nil. tauto. }
  apply NoDup_cons in Hnd as [Hz Hnd]. rewrite elem_of_cons.
  destruct (Z.eqb_spec z x) as [->|Hne]; [|rewrite elem_of_cons, IH by done; naive_solver].
  split; [intros Hy; split; [by right|intros ->; done]|]. naive_solver.
Qed.

Lemma remove_first_nodup x l : NoDup l → NoDup (remove_first x l).
Proof.
  induction l as [|z l IH]; intros Hnd; [done|]. cbn [remove_first].
  apply NoDup_cons in Hnd as [Hz Hnd]. destruct (z =? x); [done|]. constructor; [|by apply IH].
  rewrite remove_first_elem by done. tauto.
Qed.

(** A new client id: not zero, not in use in the session, mapped to the statement. *)
Definition fresh_id (l : t) : Z :=
  match free_client_ids l with id :: _ => id | [] => local_max_stmt_id l + 1 end.

Definition with_client (cid g : Z) (l : t) : t :=
  mk (is_client l) (tail (free_client_ids l))
     (match free_client_ids l with _ :: _ => local_max_stmt_id l | [] => local_max_stmt_id l + 1 end)
     (<[cid := g]> (client_stmt_to_global_ids l))
     (<[g := default [] (global_stmt_to_client_ids l !! g) ++ [cid]]> (global_stmt_to_client_ids l))
     (backend_stmt_to_global_ids l) (global_stmt_to_backend_ids l) (global_stmt_to_backend_stmt l).

Lemma fresh_id_spec l :
  wf l → 0 < fresh_id l ∧ client_stmt_to_global_ids l !! fresh_id l = None ∧
         (fresh_id l ∉ tail (free_client_ids l)) ∧ fresh_id l <= local_max_stmt_id (with_client (fresh_id l) 0 l).
Proof.
  intros H. unfold fresh_id. cbn [with_client local_max_stmt_id].
  pose proof (wf_max l H). pose proof (wf_free l H) as Hnd. pose proof (wf_free_range l H) as Hr.
  destruct (free_client_ids l) as [|id r]; cbn [tail].
  - split_and!; [lia| |apply not_elem_of_nil|lia].
    destruct (client_stmt_to_global_ids l !! (local_max_stmt_id l + 1)) as [g|] eqn:Hg; [|done].
    pose proof (wf_range l H _ _ Hg). lia.
  - apply NoDup_cons in Hnd as [? ?]. destruct (Hr id ltac:(by left)). split_and!; try done; lia.
Qed.

Lemma generate_eq ct mx g l m :
  wf l → local_max_stmt_id l + 1 < 2 ^ 32 →
  generate_new_client_stmt_id ct mx g l m =
  (m' ← ref_count_client ct mx g 1 m; Ok (fresh_id l, with_client (fresh_id l) g l, m')).
Proof.
  intros H Hmax. destruct (fresh_id_spec l H) as (Hpos & Hnone & _). pose proof (wf_max l H).
  unfold generate_new_client_stmt_id, with_client, map_insert, fresh_id in *.
  destruct (free_client_ids l) as [|id r]; cbn [tail].
  - rewrite u32_small by lia. rewrite (proj2 (Z.eqb_neq _ _)) by lia. by rewrite Hnone.
  - rewrite (proj2 (Z.eqb_neq _ _)) by lia. by rewrite Hnone.
Qed.

Lemma with_client_wf g l :
  wf l → local_max_stmt_id l + 1 < 2 ^ 32 → wf (with_client (fresh_id l) g l).
Proof.
  intros H Hmax. destruct (fresh_id_spec l H) as (Hpos & Hnone & Hnf & Hle).
  pose proof (wf_max l H) as Hmx. set (cid := fresh_id l) in *.
  assert (Hgm : local_max_stmt_id l <= local_max_stmt_id (with_client cid g l) <= local_max_stmt_id l + 1)
    by (cbn; destruct (free_client_ids l); lia).
  assert (Hcid : ∀ g', cid ∉ default [] (global_stmt_to_client_ids l !! g')).
  { intros g' Hin. apply (wf_c2g l H) in Hin. congruence. }
  split.
  - intros c g'. cbn [with_client client_stmt_to_global_ids global_stmt_to_client_ids].
    rewrite lookup_insert_Some. destruct (decide (g = g')) as [<-|Hg].
    + rewrite lookup_insert_eq. cbn [default from_option id]. rewrite elem_of_app, list_elem_of_singleton.
      rewrite <- (wf_c2g l H). naive_solver.
    + rewrite lookup_insert_ne by done. rewrite <- (wf_c2g l H).
      split; [intros [[? ?]|[? ?]]; done|]. intros Hc. right. split; [|done]. intros <-. congruence.
  - intros g'. cbn [with_client global_stmt_to_client_ids]. destruct (decide (g = g')) as [<-|Hg].
    + rewrite lookup_insert_eq. cbn [default from_option id]. apply NoDup_app.
      split_and!; [apply (wf_nodup l H)| |apply NoDup_singleton].
      intros x Hx Hx'. apply list_elem_of_singleton in Hx' as ->. by apply (Hcid g).
    + rewrite lookup_insert_ne by done. apply (wf_nodup l H).
  - intros c g'. cbn [with_client client_stmt_to_global_ids].
    intros [[<- _]|[_ Hc]]%lookup_insert_Some; [cbn in *; lia|]. pose proof (wf_range l H c g' Hc). lia.
  - cbn. pose proof (wf_free l H) as Hnd. destruct (free_client_ids l); [done|]. apply NoDup_cons in Hnd as [_ Hnd]. exact Hnd.
  - intros c Hc. cbn [with_client client_stmt_to_global_ids free_client_ids] in *.
    assert (Hc' : c ∈ free_client_ids l) by (destruct (free_client_ids l); [done|by right]).
    destruct (wf_free_range l H c Hc') as [? ?]. split; [lia|]. rewrite lookup_insert_ne; [done|].
    intros <-. done.
  - lia.
Qed.

Lemma with_client_refs g g' l :
  wf l → refs g' (with_client (fresh_id l) g l) = refs g' l + (if g =? g' then 1 else 0).
Proof.
  intros H. destruct (fresh_id_spec l H) as (_ & Hnone & _). unfold refs. cbn.
  rewrite map_total_insert_new by done. lia.
Qed.

(** Closing an id the session has. *)
Definition without_client (cid g : Z) (l : t) : t :=
  mk (is_client l) (cid :: free_client_ids l) (local_max_stmt_id l)
     (delete cid (client_stmt_to_global_ids l))
     (<[g := remove_first cid (default [] (global_stmt_to_client_ids l !! g))]> (global_stmt_to_client_ids l))
     (backend_stmt_to_global_ids l) (global_stmt_to_backend_ids l) (global_stmt_to_backend_stmt l).

Lemma client_close_eq ct mx cid g l m :
  wf l → client_stmt_to_global_ids l !! cid = Some g →
  client_close ct mx cid l m = (m' ← ref_count_client ct mx g (-1) m; Ok (true, without_client cid g l, m')).
Proof.
  intros H Hc. unfold client_close. rewrite Hc.
  assert (existsb (λ c, c =? cid) (default [] (global_stmt_to_client_ids l !! g)) = true) as ->; [|done].
  apply existsb_exists. exists cid. rewrite <- list_elem_of_In, <- (wf_c2g l H). by rewrite Z.eqb_refl.
Qed.

Lemma without_client_wf cid g l :
  wf l → client_stmt_to_global_ids l !! cid = Some g → wf (without_client cid g l).
Proof.
  intros H Hc. split.
  - intros c g'. cbn [without_client client_stmt_to_global_ids global_stmt_to_client_ids].
    rewrite lookup_delete_Some. destruct (decide (g = g')) as [<-|Hg].
    + rewrite lookup_insert_eq. cbn [default from_option id].
      rewrite remove_first_elem by apply (wf_nodup l H). rewrite <- (wf_c2g l H). naive_solver.
    + rewrite lookup_insert_ne by done. rewrite <- (wf_c2g l H). split; [tauto|].
      intros Hc'. split; [|done]. intros <-. congruence.
  - intros g'. cbn [without_client global_stmt_to_client_ids]. destruct (decide (g = g')) as [<-|Hg].
    + rewrite lookup_insert_eq. apply remove_first_nodup, (wf_nodup l H).
    + rewrite lookup_insert_ne by done. apply (wf_nodup l H).
  - intros c g'. cbn [without_client client_stmt_to_global_ids].
    intros [_ Hc']%lookup_delete_Some. by apply (wf_range l H c g').
  - cbn. constructor; [|apply (wf_free l H)]. intros Hin.
    destruct (wf_free_range l H cid Hin). congruence.
  - intros c [->|Hin]%elem_of_cons; cbn.
    + split; [by apply (wf_range l H cid g)|apply lookup_delete_eq].
    + destruct (wf_free_range l H c Hin). split; [done|]. rewrite lookup_delete_ne; [done|]. intros ->; congruence.
  - apply (wf_max l H).
Qed.

Lemma without_client_refs cid g g' l :
  client_stmt_to_global_ids l !! cid = Some g →
  refs g' (without_client cid g l) = refs g' l - (if g =? g' then 1 else 0).
Proof. intros Hc. unfold refs. cbn. by rewrite (map_total_delete _ _ _ g). Qed.

Lemma refs_nonneg g l : 0 <= refs g l.
Proof. apply map_total_nonneg. intros. by case_test. Qed.

Lemma refs_pos cid g l : client_stmt_to_global_ids l !! cid = Some g → 1 <= refs g l.
Proof.
  intros Hc.
  pose proof (map_total_lookup_le (λ g', if g' =? g then 1 else 0) (client_stmt_to_global_ids l) cid g
    ltac:(intros; cbn beta; by case_test) Hc) as Hle. cbn beta in Hle. by rewrite Z.eqb_refl in Hle.
Qed.
End Local.

(** ** The cache with all the connections that use it *)
Module System.

(** *** Counting references abstractly

    [accounts m C B]: every cached statement [g] has exactly [C g] client
    references and at least [B g] backend references, and whatever is referenced
    is cached. *)
Section accounts.
#[local] Set Default Proof Using "All".
Context (sizeof_info sizeof_bind sizeof_field sizeof_ptr : Z) (Hash64 : list Z → Z → Z).
Abbreviation add := (add_prepared_statement sizeof_info sizeof_bind sizeof_field sizeof_ptr Hash64).
Abbreviation metadata_ok := (metadata_ok sizeof_info sizeof_bind sizeof_field sizeof_ptr).
Abbreviation consistent := (GlobalInfo.consistent sizeof_info sizeof_bind sizeof_field sizeof_ptr).
Abbreviation calculate := (GlobalInfo.calculate_mem_usage sizeof_info sizeof_bind sizeof_field sizeof_ptr).
Implicit Types (C B : Z → Z).

Definition accounts (m : manager) C B : Prop :=
  wf m ∧ metadata_ok m ∧ (∀ g, 0 <= C g ∧ 0 <= B g) ∧
  (∀ g a, stmt_of g m = Some a → rc a = C g ∧ B g <= rs a) ∧
  (∀ g, 0 < C g ∨ 0 < B g → is_Some (stmt_of g m)).

Definition upd (f : Z → Z) (g v : Z) : Z → Z := λ g', f g' + (if g =? g' then v else 0).

(** What is still referenced is still cached, under the same id. *)
Definition keeps (m m' : manager) C B : Prop :=
  ∀ g a, 0 < C g ∨ 0 < B g → stmt_of g m = Some a → ∃ b, stmt_of g m' = Some b ∧ same_statement b a.

Lemma accounts_ext m C B C' B' :
  accounts m C B → (∀ g, C' g = C g) → (∀ g, B' g = B g) → accounts m C' B'.
Proof using Type.
  intros (Hw & Hm & Hnn & Hc & Hs) HC HB. split_and!; [done..|intros g|intros g a Ha|intros g Hg].
  - by rewrite HC, HB.
  - rewrite HC, HB. by apply Hc.
  - rewrite HC, HB in Hg. by apply Hs.
Qed.

Lemma stmt_of_id m g a : wf m → stmt_of g m = Some a → statement_id a = g.
Proof using Type. intros H Ha. by apply (stmt_of_Some m g a H) in Ha as (p & _ & _ & ?). Qed.

Lemma accounts_client ct mx g v m C B :
  accounts m C B → is_Some (stmt_of g m) → step_ok v (C g) →
  ∃ m', ref_count_client ct mx g v m = Ok m' ∧ accounts m' (upd C g v) B ∧ keeps m m' (upd C g v) B.
Proof.
  intros (Hw & Hm & Hnn & Hc & Hs) [a0 Ha0] Hv.
  assert (Hok : op_ok (RefClient ct mx g v) m).
  { intros a Ha. by rewrite (proj1 (Hc g a Ha)). }
  destruct (exec_spec sizeof_info sizeof_bind sizeof_field sizeof_ptr Hash64 _ m Hw Hm Hok)
    as (m' & Hx & Hw' & Hm' & Hsv).
  pose proof (exec_origin sizeof_info sizeof_bind sizeof_field sizeof_ptr Hash64 _ m m' Hw Hm Hok Hx) as Hor.
  cbn [exec] in Hx. exists m'. split; [done|].
  assert (Heff : ∀ g' a, stmt_of g' m = Some a → effect Hash64 (RefClient ct mx g v) a = (upd C g v g', rs a)).
  { intros g' a Ha. cbn [effect]. rewrite (stmt_of_id m g' a Hw Ha), (proj1 (Hc g' a Ha)). unfold upd.
    rewrite (Z.eqb_sym g'). destruct (g =? g'); [done|]. by rewrite Z.add_0_r. }
  assert (Hkeep : keeps m m' (upd C g v) B).
  { intros g' a Hg Ha. destruct (Hsv g' a Ha) as (b & Hb & Hsm & _); [|by exists b].
    rewrite (Heff g' a Ha). pose proof (proj2 (Hc g' a Ha)). intros [= ? ?]. lia. }
  split_and!; [split_and!|done]; try done.
  - intros g'. destruct (Hnn g'). split; [|done]. unfold upd. destruct (Z.eqb_spec g g') as [<-|].
    + destruct Hv. lia.
    + lia.
  - intros g' b Hb. destruct (Hor g' b Hb) as [(a & Ha & _ & Hab)|(_ & _ & [])].
    rewrite (Heff g' a Ha) in Hab. injection Hab as -> ->. split; [done|]. apply (Hc g' a Ha).
  - intros g' Hg. assert (is_Some (stmt_of g' m)) as [a Ha].
    { destruct (Z.eqb_spec g g') as [<-|Hne]; [by exists a0|]. apply Hs. unfold upd in Hg.
      by rewrite (proj2 (Z.eqb_neq g g') Hne), Z.add_0_r in Hg. }
    destruct (Hkeep g' a Hg Ha) as (b & ? & _). by exists b.
Qed.

Lemma accounts_server_release g m C B :
  accounts m C B → 0 < B g →
  ∃ m', ref_count_server g (-1) m = Ok m' ∧ accounts m' C (upd B g (-1)) ∧ keeps m m' C (upd B g (-1)).
Proof.
  intros (Hw & Hm & Hnn & Hc & Hs) Hg.
  assert (Hok : op_ok (RefServer g (-1)) m).
  { intros a Ha. pose proof (proj2 (Hc g a Ha)). split; [by right|].
    destruct (proj1 (stmt_of_Some m g a Hw) Ha) as (p & _ & Hp & _). destruct (inv_heap _ m Hw p a Hp) as [_ [? ?]]. lia. }
  destruct (exec_spec sizeof_info sizeof_bind sizeof_field sizeof_ptr Hash64 _ m Hw Hm Hok)
    as (m' & Hx & Hw' & Hm' & Hsv).
  pose proof (exec_origin sizeof_info sizeof_bind sizeof_field sizeof_ptr Hash64 _ m m' Hw Hm Hok Hx) as Hor.
  cbn [exec] in Hx. exists m'. split; [done|].
  assert (Heff : ∀ g' a, stmt_of g' m = Some a →
            effect Hash64 (RefServer g (-1)) a = (C g', rs a + (if g =? g' then -1 else 0))).
  { intros g' a Ha. cbn [effect]. rewrite (stmt_of_id m g' a Hw Ha), (proj1 (Hc g' a Ha)).
    rewrite (Z.eqb_sym g'). destruct (g =? g'); [done|]. by rewrite Z.add_0_r. }
  assert (Hkeep : keeps m m' C (upd B g (-1))).
  { intros g' a Hg' Ha. destruct (Hsv g' a Ha) as (b & Hb & Hsm & _); [|by exists b].
    rewrite (Heff g' a Ha). pose proof (proj2 (Hc g' a Ha)). unfold upd in Hg'.
    intros [= ? ?]. lia. }
  split_and!; [split_and!|done]; try done.
  - intros g'. destruct (Hnn g'). split; [done|]. unfold upd. destruct (Z.eqb_spec g g') as [<-|]; lia.
  - intros g' b Hb. destruct (Hor g' b Hb) as [(a & Ha & _ & Hab)|(_ & _ & [])].
    rewrite (Heff g' a Ha) in Hab. injection Hab as -> ->. split; [done|].
    pose proof (proj2 (Hc g' a Ha)). unfold upd. lia.
  - intros g' Hg'. assert (is_Some (stmt_of g' m)) as [a Ha].
    { apply Hs. unfold upd in Hg'. destruct (Z.eqb_spec g g') ; [subst g'|]; lia. }
    destruct (Hkeep g' a Hg' Ha) as (b & ? & _). by exists b.
Qed.

Lemma accounts_add u s q fc stmt m C B :
  accounts m C B → op_ok (Add u s q fc stmt) m →
  ∃ p m' b, add u s q fc stmt m = Ok (p, m') ∧ heap m' !! p = Some b ∧
    accounts m' C (upd B (statement_id b) 1) ∧ keeps m m' C B.
Proof.
  intros (Hw & Hm & Hnn & Hc & Hs) Hok.
  destruct (exec_spec sizeof_info sizeof_bind sizeof_field sizeof_ptr Hash64 _ m Hw Hm Hok)
    as (m' & Hx & Hw' & Hm' & Hsv).
  cbn [exec] in Hx. destruct (add u s q fc stmt m) as [[p m1]|] eqn:Hadd; [|done].
  cbn in Hx. injection Hx as ->.
  destruct (add_origin sizeof_info sizeof_bind sizeof_field sizeof_ptr Hash64 _ _ _ _ _ m p m' Hw Hm Hok Hadd)
    as (Hor & b & Hb & Hib & Hhb).
  exists p, m', b. split_and!; [done..| |].
  2: { intros g a Hg Ha. destruct (Hsv g a Ha) as (b' & Hb' & Hsm & _); [|by exists b'].
       destruct (Hc g a Ha) as [Hrc Hrs]. cbn [effect]. rewrite Hrc.
       destruct (GlobalInfo.hash a =? _); intros [= ? ?]; pose proof (Hnn g); lia. }
  assert (Hback : ∀ g, stmt_of g m = None → C g = 0 ∧ B g = 0).
  { intros g Hg. destruct (Hnn g). destruct (decide (0 < C g ∨ 0 < B g)) as [Hd|]; [|lia].
    destruct (Hs g Hd). congruence. }
  assert (Hsb : stmt_of (statement_id b) m' = Some b) by (by eapply stmt_of_intro).
  split_and!; try done.
  - intros g. destruct (Hnn g). unfold upd. split; [done|]. case_test; lia.
  - intros g c Hcg. destruct (Hor g c Hcg) as [(a & Ha & Hsame & Hac)|(Hnone & Hc01 & Hhc)].
    + destruct (Hc g a Ha) as [Hrc Hrs]. cbn [effect] in Hac. injection Hac as Hrcc Hrsc. split; [congruence|].
      unfold upd. destruct (Z.eqb_spec (statement_id b) g) as [He|]; [|rewrite Hrsc; case_test; lia].
      assert (c = b) as -> by congruence.
      injection Hsame as _ Hh _ _ _. rewrite Hhb in Hh.
      rewrite (proj2 (Z.eqb_eq _ _) (eq_sym Hh)) in Hrsc. lia.
    + destruct (Hback g Hnone) as [HC HB]. injection Hc01 as -> ->. split; [done|].
      unfold upd. rewrite HB. case_test; lia.
  - intros g Hg. destruct (Z.eqb_spec (statement_id b) g) as [<-|Hne]; [by exists b|].
    unfold upd in Hg. rewrite (proj2 (Z.eqb_neq _ _) Hne), Z.add_0_r in Hg.
    destruct (Hs g Hg) as [a Ha]. destruct (Hc g a Ha) as [Hrc Hrs].
    destruct (Hsv g a Ha) as (b' & Hb' & _); [|by exists b'].
    cbn [effect]. rewrite Hrc. destruct (GlobalInfo.hash a =? _); intros [= ? ?]; pose proof (Hnn g); lia.
Qed.

(** Replacing an object by one with the same identity and counts. *)
Definition set_object (p : positive) (a : info) (m : manager) : manager := set_heap (<[p := a]> (heap m)) m.

Lemma accounts_set_object p a b m C B :
  accounts m C B → heap m !! p = Some a → same_statement b a → rc b = rc a → rs b = rs a → consistent b →
  accounts (set_object p b m) C B ∧ keeps m (set_object p b m) C B.
Proof using Type.
  intros (Hw & Hm & Hnn & Hc & Hs) Ha Hsame Hrc Hrs Hcb.
  pose proof Hsame as Hsame'. injection Hsame' as Hid Hh _ _ _.
  assert (Hw' : wf (set_object p b m)).
  { pose proof (inv_replace [] m p a b Hw Ha Hid Hh) as Hrep. destruct (wf_u64 m Hw) as (Hz1 & Hz2 & Ht1 & Ht2).
    unfold zero_client, zero_server in Hrep. rewrite Hrc, Hrs, !Z.sub_add, Hz1, Hz2, Ht1, Ht2 in Hrep.
    apply Hrep; [unfold refs_ok; rewrite Hrc, Hrs; by apply (inv_heap _ m Hw p a)|].
    intros Hin. by apply elem_of_nil in Hin. }
  assert (Hst : ∀ g c, stmt_of g m = Some c → ∃ c', stmt_of g (set_object p b m) = Some c' ∧
            same_statement c' c ∧ rc c' = rc c ∧ rs c' = rs c).
  { intros g c Hg. apply (stmt_of_Some m g c Hw) in Hg as (q & Hq & Hcq & <-).
    unfold stmt_of. cbn. rewrite Hq. cbn [mbind option_bind]. destruct (decide (p = q)) as [<-|Hne].
    - exists b. rewrite lookup_insert_eq. rewrite Ha in Hcq. by injection Hcq as <-.
    - exists c. by rewrite lookup_insert_ne. }
  assert (Hst' : ∀ g c', stmt_of g (set_object p b m) = Some c' → is_Some (stmt_of g m)).
  { intros g c' Hg. unfold stmt_of in *. cbn in Hg. destruct (ids m !! g) as [q|] eqn:Hq; [|done].
    destruct (inv_ids _ m Hw g q Hq) as (c & Hcq & _). cbn. by exists c. }
  split; [|intros g c _ Hg; destruct (Hst g c Hg) as (c' & ? & ? & _); by exists c'].
  split_and!; try done.
  - intros q c. cbn. intros [[_ <-]|[_ Hq]]%lookup_insert_Some; [done|by apply (Hm q)].
  - intros g c' Hg. destruct (Hst' g c' Hg) as [c Hgc]. destruct (Hst g c Hgc) as (c'' & Hg' & _ & Hrcc & Hrsc).
    rewrite Hg in Hg'. injection Hg' as ->. rewrite Hrcc, Hrsc. by apply Hc.
  - intros g Hg. destruct (Hs g Hg) as [c Hgc]. destruct (Hst g c Hgc) as (c' & ? & _). by exists c'.
Qed.

(** The loops of the destructor give back one reference per entry. *)
Fixpoint count (g : Z) (gs : list Z) : Z :=
  match gs with [] => 0 | g' :: r => (if g' =? g then 1 else 0) + count g r end.

Lemma count_nonneg g gs : 0 <= count g gs.
Proof using Type. induction gs as [|g' gs IH]; cbn [count]; [done|]. case_test; lia. Qed.

Lemma keeps_trans m1 m2 m3 C1 B1 C B :
  keeps m1 m2 C1 B1 → keeps m2 m3 C B → (∀ g, 0 < C g ∨ 0 < B g → 0 < C1 g ∨ 0 < B1 g) → keeps m1 m3 C B.
Proof using Type.
  intros H12 H23 Hle g a Hg Ha. destruct (H12 g a (Hle g Hg) Ha) as (b & Hb & Hab).
  destruct (H23 g b Hg Hb) as (c & Hc & Hbc). exists c. split; [done|]. by unfold same_statement in *; rewrite Hbc.
Qed.

Lemma release_clients_spec ct mx gs m C B :
  accounts m (λ g, C g + count g gs) B → (∀ g, 0 <= C g) →
  ∃ m', Local.release_clients ct mx gs m = Ok m' ∧ accounts m' C B ∧ keeps m m' C B.
Proof.
  revert m; induction gs as [|g gs IH]; intros m Hacc HC; cbn [Local.release_clients].
  { exists m. split_and!; [done|by eapply accounts_ext; [exact Hacc|intros; cbn; lia|done]|].
    intros g a _ Ha. by exists a. }
  pose proof Hacc as (Hw & _ & Hnn & Hc & Hs).
  assert (Hpos : 0 < C g + count g (g :: gs)).
  { cbn [count]. rewrite Z.eqb_refl. pose proof (count_nonneg g gs). specialize (HC g). lia. }
  destruct (Hs g (or_introl Hpos)) as [a Ha].
  assert (Hr : rc a < 2 ^ 31).
  { apply (stmt_of_Some m g a Hw) in Ha as (p & _ & Hp & _). apply (inv_heap _ m Hw p a Hp). }
  rewrite (proj1 (Hc g a Ha)) in Hr.
  destruct (accounts_client ct mx g (-1) m _ B Hacc) as (m1 & -> & Hacc1 & Hk1);
    [by exists a|split; [by right|lia]|].
  cbn [mbind outcome_bind]. destruct (IH m1) as (m2 & -> & Hacc2 & Hk2); [|done|].
  - eapply accounts_ext; [exact Hacc1| |done]. intros g'. unfold upd. cbn [count]. case_test; lia.
  - exists m2. split_and!; [done..|]. eapply keeps_trans; [exact Hk1|exact Hk2|].
    intros g' [Hg'|Hg']; [left|by right]. unfold upd. cbn [count]. pose proof (count_nonneg g' gs). case_test; lia.
Qed.

Lemma release_servers_spec gs m C B :
  accounts m C (λ g, B g + count g gs) → (∀ g, 0 <= B g) →
  ∃ m', Local.release_servers gs m = Ok m' ∧ accounts m' C B ∧ keeps m m' C B.
Proof.
  revert m; induction gs as [|g gs IH]; intros m Hacc HB; cbn [Local.release_servers].
  { exists m. split_and!; [done|by eapply accounts_ext; [exact Hacc|done|intros; cbn; lia]|].
    intros g a _ Ha. by exists a. }
  assert (Hpos : 0 < B g + count g (g :: gs)).
  { cbn [count]. rewrite Z.eqb_refl. pose proof (count_nonneg g gs). specialize (HB g). lia. }
  destruct (accounts_server_release g m C _ Hacc Hpos) as (m1 & -> & Hacc1 & Hk1).
  cbn [mbind outcome_bind]. destruct (IH m1) as (m2 & -> & Hacc2 & Hk2); [|done|].
  - eapply accounts_ext; [exact Hacc1|done|]. intros g'. unfold upd. cbn [count]. case_test; lia.
  - exists m2. split_and!; [done..|]. eapply keeps_trans; [exact Hk1|exact Hk2|].
    intros g' [Hg'|Hg']; [by left|right]. unfold upd. cbn [count]. pose proof (count_nonneg g' gs). case_test; lia.
Qed.
End accounts.

(** *** The system *)
Record system := mk { mgr : manager; sessions : gmap nat Local.t; backends : gmap nat Local.t }.

Definition empty (now : Z) : system := mk (create now) ∅ ∅.

Inductive op :=
  | Connect (sid : nat)
  | ConnectBackend (bid : nat)
  (* COM_STMT_PREPARE: the part under the lock, when the hash is looked up *)
  | Prepare (ct mx : Z) (sid : nat) (u s q : list Z)
  (* a backend has prepared the statement; [again]: to execute it, not for a new client id *)
  | Prepared (ct mx : Z) (sid bid : nat) (u s q : list Z) (fc : option (list Z))
             (stmt : mysql_stmt) (digest_text : option (list Z)) (again : bool)
  | Close (ct mx : Z) (sid : nat) (cid : Z)
  | Disconnect (ct mx : Z) (sid : nat)
  | BackendGone (bid : nat).

(** *** References of all the connections *)
Definition client_refs (ss : gmap nat Local.t) (g : Z) : Z := map_total (Local.refs g) ss.
Definition backend_has (g : Z) (l : Local.t) : Z :=
  match Local.global_stmt_to_backend_stmt l !! g with Some _ => 1 | None => 0 end.
Definition backend_refs (bs : gmap nat Local.t) (g : Z) : Z := map_total (backend_has g) bs.

Lemma count_perm g l l' : l ≡ₚ l' → count g l = count g l'.
Proof. induction 1; cbn [count]; lia. Qed.

Lemma refs_count g l (le : Z * Z → Z * Z → Prop) `{∀ x y, Decision (le x y)} :
  Local.refs g l = count g (merge_sort le (map_to_list (Local.client_stmt_to_global_ids l))).*2.
Proof.
  rewrite (count_perm g _ (map_to_list (Local.client_stmt_to_global_ids l)).*2)
    by (apply fmap_Permutation, merge_sort_Permutation).
  unfold Local.refs, map_total. rewrite map_fold_foldr.
  induction (map_to_list _) as [|[c g'] r IH]; [done|]. cbn [foldr fmap list_fmap count uncurry snd].
  by rewrite IH.
Qed.

Lemma count_nodup g l : NoDup l → count g l = if decide (g ∈ l) then 1 else 0.
Proof.
  induction l as [|x l IH]; intros Hnd; cbn [count]; [by rewrite decide_False by apply not_elem_of_nil|].
  apply NoDup_cons in Hnd as [Hx Hnd]. rewrite IH by done.
  destruct (Z.eqb_spec x g) as [->|Hne].
  - rewrite decide_False by done. rewrite decide_True by (by left). done.
  - destruct (decide (g ∈ l)); [rewrite decide_True by (by right)|rewrite decide_False]; try done.
    rewrite elem_of_cons. naive_solver.
Qed.

Lemma backend_count g l (le : Z * Z → Z * Z → Prop) `{∀ x y, Decision (le x y)} :
  backend_has g l = count g (merge_sort le (map_to_list (Local.global_stmt_to_backend_stmt l))).*1.
Proof.
  rewrite (count_perm g _ (map_to_list (Local.global_stmt_to_backend_stmt l)).*1)
    by (apply fmap_Permutation, merge_sort_Permutation).
  rewrite count_nodup by apply NoDup_fst_map_to_list. unfold backend_has.
  destruct (Local.global_stmt_to_backend_stmt l !! g) as [v|] eqn:Hg.
  - rewrite decide_True; [done|]. apply list_elem_of_fmap. exists (g, v). by rewrite elem_of_map_to_list.
  - rewrite decide_False; [done|]. rewrite list_elem_of_fmap. intros ([g' v] & -> & Hin).
    apply elem_of_map_to_list in Hin. cbn in Hg. congruence.
Qed.
Section exec.
Context (sizeof_info sizeof_bind sizeof_field sizeof_ptr : Z) (Hash64 : list Z → Z → Z).
Abbreviation add := (add_prepared_statement sizeof_info sizeof_bind sizeof_field sizeof_ptr Hash64).
Abbreviation calculate := (GlobalInfo.calculate_mem_usage sizeof_info sizeof_bind sizeof_field sizeof_ptr).

Definition get (n : nat) (m : gmap nat Local.t) : outcome Local.t :=
  match m !! n with Some l => Ok l | None => Fault OutOfBounds end.

(** The part of [handler_rc0_PROCESSING_STMT_PREPARE] that fills in the digest. *)
Definition set_digest_text (d : list Z) (a : info) : info :=
  calculate (GlobalInfo.mk (Some d) (GlobalInfo.hash a) (GlobalInfo.username a) (GlobalInfo.schemaname a)
    (GlobalInfo.query a) (GlobalInfo.query_length a) (rc a) (rs a) (statement_id a)
    (GlobalInfo.num_columns a) (GlobalInfo.num_params a) (GlobalInfo.warning_count a) (GlobalInfo.fields a)
    (GlobalInfo.first_comment a) (GlobalInfo.total_mem_usage a) (GlobalInfo.is_select_NOT_for_update a)).

Definition fill_digest (digest : option (list Z)) (p : positive) (m : manager) : outcome manager :=
  match digest with
  | None => Ok m
  | Some d => a ← deref p m;
              Ok (match GlobalInfo.digest_text a with
                  | None => set_object p (set_digest_text d a) m
                  | Some _ => m end)
  end.

Definition generate (ct mx : Z) (sid : nat) (g : Z) (st : system) : outcome system :=
  l ← get sid (sessions st);
  '(_, l, m) ← Local.generate_new_client_stmt_id ct mx g l (mgr st);
  Ok (mk m (<[sid := l]> (sessions st)) (backends st)).

Definition exec (o : op) (st : system) : outcome system :=
  match o with
  | Connect sid => Ok (mk (mgr st) (<[sid := Local.create true]> (sessions st)) (backends st))
  | ConnectBackend bid => Ok (mk (mgr st) (sessions st) (<[bid := Local.create false]> (backends st)))
  | Prepare ct mx sid u s q =>
      match find_prepared_statement_by_hash (GlobalInfo.stmt_compute_hash Hash64 u s q) (mgr st) with
      | Some p => a ← deref p (mgr st); generate ct mx sid (statement_id a) st
      | None => Ok st
      end
  | Prepared ct mx sid bid u s q fc stmt digest again =>
      '(p, m) ← add u s q fc stmt (mgr st);
      m ← fill_digest digest p m;
      a ← deref p m;
      b ← get bid (backends st);
      let st := mk m (sessions st) (<[bid := Local.backend_insert (statement_id a) stmt b]> (backends st)) in
      if again : bool then Ok st else generate ct mx sid (statement_id a) st
  | Close ct mx sid cid =>
      l ← get sid (sessions st);
      '(_, l, m) ← Local.client_close ct mx cid l (mgr st);
      Ok (mk m (<[sid := l]> (sessions st)) (backends st))
  | Disconnect ct mx sid =>
      l ← get sid (sessions st);
      m ← Local.destroy ct mx l (mgr st);
      Ok (mk m (delete sid (sessions st)) (backends st))
  | BackendGone bid =>
      b ← get bid (backends st);
      m ← Local.destroy 0 0 b (mgr st);
      Ok (mk m (sessions st) (delete bid (backends st)))
  end.

Fixpoint exec_all (os : list op) (st : system) : outcome system :=
  match os with [] => Ok st | o :: r => st ← exec o st; exec_all r st end.

(** New connections are new, the others exist, and the counters have room. *)
Definition op_ok (o : op) (st : system) : Prop :=
  let room sid := ∃ l, sessions st !! sid = Some l ∧ Local.local_max_stmt_id l + 1 < 2 ^ 32 in
  let counters := map_Forall (λ (_ : positive) a, rc a + 1 < 2 ^ 31 ∧ rs a + 1 < 2 ^ 31) (heap (mgr st)) in
  match o with
  | Connect sid => sessions st !! sid = None
  | ConnectBackend bid => backends st !! bid = None
  | Prepare _ _ sid _ _ _ => room sid ∧ counters
  | Prepared _ _ sid bid _ _ _ _ stmt _ _ =>
      room sid ∧ is_Some (backends st !! bid) ∧ counters ∧ GlobalInfo.described stmt ∧
      next_statement_id (mgr st) + 1 < 2 ^ 64
  | Close _ _ sid _ | Disconnect _ _ sid => is_Some (sessions st !! sid)
  | BackendGone bid => is_Some (backends st !! bid)
  end.

Definition wf (st : system) : Prop :=
  accounts sizeof_info sizeof_bind sizeof_field sizeof_ptr (mgr st)
    (client_refs (sessions st)) (backend_refs (backends st)) ∧
  (∀ sid l, sessions st !! sid = Some l → Local.wf l ∧ Local.is_client l = true) ∧
  (∀ bid l, backends st !! bid = Some l → Local.is_client l = false).


#[local] Set Default Proof Using "All".

(** Which ids a step takes away. *)
Definition closes (o : op) (sid : nat) (cid : Z) : Prop :=
  match o with
  | Close _ _ sid' cid' => sid' = sid ∧ cid' = cid
  | Disconnect _ _ sid' => sid' = sid
  | _ => False
  end.

(** An id a session holds keeps leading to the same statement. *)
Definition ids_stay (o : op) (st st' : system) : Prop :=
  ∀ sid l cid g, sessions st !! sid = Some l → Local.client_stmt_to_global_ids l !! cid = Some g →
    ¬ closes o sid cid →
    ∃ l' a b, sessions st' !! sid = Some l' ∧ Local.client_stmt_to_global_ids l' !! cid = Some g ∧
              stmt_of g (mgr st) = Some a ∧ stmt_of g (mgr st') = Some b ∧ same_statement b a.

Lemma client_refs_pos ss sid l cid g :
  ss !! sid = Some l → Local.client_stmt_to_global_ids l !! cid = Some g → 0 < client_refs ss g.
Proof.
  intros Hl Hc. pose proof (Local.refs_pos cid g l Hc).
  pose proof (map_total_lookup_le (Local.refs g) ss sid l ltac:(intros; apply Local.refs_nonneg) Hl).
  unfold client_refs. lia.
Qed.

Lemma client_refs_nonneg ss g : 0 <= client_refs ss g.
Proof. apply map_total_nonneg. intros. apply Local.refs_nonneg. Qed.

Lemma backend_has_nonneg g l : 0 <= backend_has g l.
Proof. unfold backend_has. by destruct (_ !! g). Qed.

Lemma backend_refs_nonneg bs g : 0 <= backend_refs bs g.
Proof. apply map_total_nonneg. intros. apply backend_has_nonneg. Qed.

(** The tables still hold the id and the cache still holds the statement. *)
Lemma ids_stay_intro o st st' B :
  wf st → keeps (mgr st) (mgr st') (client_refs (sessions st')) B →
  (∀ sid l cid g, sessions st !! sid = Some l → Local.client_stmt_to_global_ids l !! cid = Some g →
     ¬ closes o sid cid →
     ∃ l', sessions st' !! sid = Some l' ∧ Local.client_stmt_to_global_ids l' !! cid = Some g) →
  ids_stay o st st'.
Proof.
  intros ((Hw & _ & _ & _ & Hs) & _) Hk Ht sid l cid g Hl Hc Hn.
  destruct (Ht sid l cid g Hl Hc Hn) as (l' & Hl' & Hc').
  destruct (Hs g) as [a Ha]; [left; by eapply client_refs_pos|].
  destruct (Hk g a) as (b & ? & ?); [left; by eapply client_refs_pos|done|]. by exists l', a, b.
Qed.

Lemma refs_update ss sid l l' g :
  ss !! sid = Some l → client_refs (<[sid := l']> ss) g = client_refs ss g - Local.refs g l + Local.refs g l'.
Proof. apply map_total_update. Qed.

Lemma generate_spec ct mx sid g st l :
  wf st → sessions st !! sid = Some l → Local.local_max_stmt_id l + 1 < 2 ^ 32 →
  is_Some (stmt_of g (mgr st)) → client_refs (sessions st) g + 1 < 2 ^ 31 →
  ∃ st', generate ct mx sid g st = Ok st' ∧ wf st' ∧ ids_stay (Connect sid) st st' ∧
    sessions st' = <[sid := Local.with_client (Local.fresh_id l) g l]> (sessions st) ∧
    backends st' = backends st.
Proof.
  intros Hwf Hl Hmax Hg Hr. pose proof Hwf as (Hacc & Hss & Hbs). destruct (Hss sid l Hl) as [Hlw Hlc].
  unfold generate, get. rewrite Hl. cbn [mbind outcome_bind]. rewrite Local.generate_eq by done.
  pose proof (client_refs_nonneg (sessions st) g).
  destruct (accounts_client sizeof_info sizeof_bind sizeof_field sizeof_ptr Hash64 ct mx g 1 (mgr st) _ _ Hacc Hg)
    as (m' & -> & Hacc' & Hk); [split; [by left|lia]|]. cbn [mbind outcome_bind].
  set (l' := Local.with_client (Local.fresh_id l) g l).
  assert (HC : ∀ g', client_refs (<[sid := l']> (sessions st)) g' = upd (client_refs (sessions st)) g 1 g').
  { intros g'. rewrite (refs_update _ _ l) by done. unfold l'. rewrite Local.with_client_refs by done.
    unfold upd. lia. }
  eexists. split; [done|]. refine (conj _ (conj _ (conj eq_refl eq_refl))).
  - refine (conj _ (conj _ _)); cbn [mgr sessions backends].
    + by eapply accounts_ext; [exact Hacc'|exact HC|].
    + intros sid' x [[<- <-]|[_ Hx]]%lookup_insert_Some; [|by apply (Hss sid')].
      split; [by apply Local.with_client_wf|done].
    + done.
  - apply (ids_stay_intro _ _ _ (backend_refs (backends st))); [done| |].
    + intros g' a Hg'. cbn [sessions backends] in Hg'. rewrite HC in Hg'. by apply Hk.
    + intros sid' x cid g' Hx Hc _. cbn [sessions]. destruct (decide (sid = sid')) as [<-|Hne].
      * rewrite lookup_insert_eq. exists l'. split; [done|]. rewrite Hl in Hx. injection Hx as <-.
        cbn. rewrite lookup_insert_ne; [done|]. intros Hf.
        destruct (Local.fresh_id_spec l Hlw) as (_ & Hnone & _). congruence.
      * rewrite lookup_insert_ne by done. by exists x.
Qed.

Lemma close_spec ct mx sid cid st :
  wf st → is_Some (sessions st !! sid) →
  ∃ st', exec (Close ct mx sid cid) st = Ok st' ∧ wf st' ∧ ids_stay (Close ct mx sid cid) st st' ∧
         ∀ l, sessions st' !! sid = Some l → Local.client_stmt_to_global_ids l !! cid = None.
Proof.
  intros Hwf [l Hl]. pose proof Hwf as (Hacc & Hss & Hbs). destruct (Hss sid l Hl) as [Hlw Hlc].
  cbn [exec]. unfold get. rewrite Hl. cbn [mbind outcome_bind].
  destruct (Local.client_stmt_to_global_ids l !! cid) as [g|] eqn:Hc.
  2: { unfold Local.client_close. rewrite Hc. cbn [mbind outcome_bind]. rewrite insert_id by done.
       exists st. destruct st as [m ss bs]. refine (conj eq_refl (conj Hwf (conj _ _))).
       - intros sid' x c g Hx Hcg _. destruct Hacc as (_ & _ & _ & _ & Hs).
         destruct (Hs g) as [a Ha]; [left; by eapply client_refs_pos|]. by exists x, a, a.
       - intros x Hx. cbn in *. congruence. }
  rewrite (Local.client_close_eq ct mx cid g l _ Hlw Hc).
  pose proof (client_refs_pos _ _ _ _ _ Hl Hc) as Hpos.
  destruct Hacc as (Hw & Hm & Hnn & Hcn & Hs). destruct (Hs g) as [a Ha]; [by left|].
  assert (Hr : rc a < 2 ^ 31).
  { apply (stmt_of_Some _ g a Hw) in Ha as (p & _ & Hp & _). apply (inv_heap _ _ Hw p a Hp). }
  rewrite (proj1 (Hcn g a Ha)) in Hr.
  destruct (accounts_client sizeof_info sizeof_bind sizeof_field sizeof_ptr Hash64 ct mx g (-1) (mgr st)
    (client_refs (sessions st)) (backend_refs (backends st))) as (m' & -> & Hacc' & Hk);
    [done|by exists a|split; [by right|lia]|]. cbn [mbind outcome_bind].
  set (l' := Local.without_client cid g l).
  assert (HC : ∀ g', client_refs (<[sid := l']> (sessions st)) g' = upd (client_refs (sessions st)) g (-1) g').
  { intros g'. rewrite (refs_update _ _ l) by done. unfold l'. rewrite Local.without_client_refs by done.
    unfold upd. case_test; lia. }
  eexists. split; [done|]. refine (conj _ (conj _ _)).
  - refine (conj _ (conj _ _)); cbn [mgr sessions backends].
    + by eapply accounts_ext; [exact Hacc'|exact HC|].
    + intros sid' x [[<- <-]|[_ Hx]]%lookup_insert_Some; [|by apply (Hss sid')].
      split; [by apply Local.without_client_wf|done].
    + done.
  - apply (ids_stay_intro _ _ _ (backend_refs (backends st))); [done| |].
    + intros g' b Hg'. cbn [sessions backends] in Hg'. rewrite HC in Hg'. by apply Hk.
    + intros sid' x c g' Hx Hcx Hn. cbn [sessions]. destruct (decide (sid = sid')) as [<-|Hne].
      * rewrite lookup_insert_eq. exists l'. split; [done|]. rewrite Hl in Hx. injection Hx as <-.
        cbn. rewrite lookup_delete_ne; [done|]. intros <-. by apply Hn.
      * rewrite lookup_insert_ne by done. by exists x.
  - intros x. cbn [sessions]. rewrite lookup_insert_eq. intros [= <-]. cbn. apply lookup_delete_eq.
Qed.

Lemma disconnect_spec ct mx sid st :
  wf st → is_Some (sessions st !! sid) →
  ∃ st', exec (Disconnect ct mx sid) st = Ok st' ∧ wf st' ∧ ids_stay (Disconnect ct mx sid) st st'.
Proof.
  intros Hwf [l Hl]. pose proof Hwf as (Hacc & Hss & Hbs). destruct (Hss sid l Hl) as [Hlw Hlc].
  cbn [exec]. unfold get. rewrite Hl. cbn [mbind outcome_bind]. unfold Local.destroy. rewrite Hlc.
  assert (HC : ∀ g, client_refs (sessions st) g = client_refs (delete sid (sessions st)) g +
    count g (merge_sort Local.key_le (map_to_list (Local.client_stmt_to_global_ids l))).*2).
  { intros g. rewrite <- (refs_count g l Local.key_le). unfold client_refs.
    rewrite (map_total_delete _ _ _ l Hl). lia. }
  destruct (release_clients_spec sizeof_info sizeof_bind sizeof_field sizeof_ptr Hash64 ct mx
    (merge_sort Local.key_le (map_to_list (Local.client_stmt_to_global_ids l))).*2 (mgr st)
    (client_refs (delete sid (sessions st))) (backend_refs (backends st))) as (m' & -> & Hacc' & Hk).
  - eapply accounts_ext; [exact Hacc|intros g; symmetry; apply HC|done].
  - intros g. apply client_refs_nonneg.
  - cbn [mbind outcome_bind]. eexists. split; [done|]. split.
    + refine (conj Hacc' (conj _ Hbs)). cbn [sessions]. intros sid' x [_ Hx]%lookup_delete_Some. by apply (Hss sid').
    + eapply ids_stay_intro; [done|exact Hk|]. intros sid' x cid g Hx Hc Hn. exists x. split; [|done].
      cbn [sessions]. rewrite lookup_delete_ne; [done|]. intros <-. by apply Hn.
Qed.

Lemma backend_gone_spec bid st :
  wf st → is_Some (backends st !! bid) →
  ∃ st', exec (BackendGone bid) st = Ok st' ∧ wf st' ∧ ids_stay (BackendGone bid) st st'.
Proof.
  intros Hwf [l Hl]. pose proof Hwf as (Hacc & Hss & Hbs). pose proof (Hbs bid l Hl) as Hlc.
  cbn [exec]. unfold get. rewrite Hl. cbn [mbind outcome_bind]. unfold Local.destroy. rewrite Hlc.
  assert (HB : ∀ g, backend_refs (backends st) g = backend_refs (delete bid (backends st)) g +
    count g (merge_sort Local.key_le (map_to_list (Local.global_stmt_to_backend_stmt l))).*1).
  { intros g. rewrite <- (backend_count g l Local.key_le). unfold backend_refs.
    rewrite (map_total_delete _ _ _ l Hl). lia. }
  destruct (release_servers_spec sizeof_info sizeof_bind sizeof_field sizeof_ptr Hash64
    (merge_sort Local.key_le (map_to_list (Local.global_stmt_to_backend_stmt l))).*1 (mgr st)
    (client_refs (sessions st)) (backend_refs (delete bid (backends st)))) as (m' & -> & Hacc' & Hk).
  - eapply accounts_ext; [exact Hacc|done|intros g; symmetry; apply HB].
  - intros g. apply backend_refs_nonneg.
  - cbn [mbind outcome_bind]. eexists. split; [done|]. split.
    + refine (conj Hacc' (conj Hss _)). cbn [backends]. intros bid' x [_ Hx]%lookup_delete_Some. by apply (Hbs bid').
    + eapply ids_stay_intro; [done|exact Hk|]. intros sid x cid g Hx Hc _. by exists x.
Qed.

Lemma accounts_fewer m C B B' :
  accounts sizeof_info sizeof_bind sizeof_field sizeof_ptr m C B → (∀ g, 0 <= B' g <= B g) →
  accounts sizeof_info sizeof_bind sizeof_field sizeof_ptr m C B'.
Proof.
  intros (Hw & Hm & Hnn & Hc & Hs) HB. split_and!; [done..|intros g|intros g a Ha|intros g Hg].
  - split; [apply Hnn|apply HB].
  - destruct (Hc g a Ha). specialize (HB g). split; [done|lia].
  - apply Hs. specialize (HB g). destruct Hg; [by left|right; lia].
Qed.

Lemma fill_digest_spec d p b m C B :
  accounts sizeof_info sizeof_bind sizeof_field sizeof_ptr m C B → heap m !! p = Some b →
  ∃ m' b', fill_digest d p m = Ok m' ∧ heap m' !! p = Some b' ∧ same_statement b' b ∧
    accounts sizeof_info sizeof_bind sizeof_field sizeof_ptr m' C B ∧ keeps m m' C B.
Proof.
  intros Hacc Hb. assert (Hself : keeps m m C B) by (intros g a _ Ha; by exists a).
  unfold fill_digest. destruct d as [d|]; [|by exists m, b]. unfold deref. rewrite Hb. cbn [mbind outcome_bind].
  destruct (GlobalInfo.digest_text b); [by exists m, b|].
  destruct (accounts_set_object sizeof_info sizeof_bind sizeof_field sizeof_ptr p b (set_digest_text d b) m C B)
    as [Hacc' Hk]; try done.
  { destruct Hacc as (_ & Hm & _). destruct (Hm p b Hb) as [Hn _]. split; [exact Hn|].
    unfold set_digest_text. by rewrite GlobalInfo.calculate_idem. }
  exists (set_object p (set_digest_text d b) m), (set_digest_text d b). split_and!; [done| |done|done|done].
  cbn. apply lookup_insert_eq.
Qed.

Lemma backend_insert_refs bs bid b g stmt g' :
  bs !! bid = Some b →
  0 <= backend_refs (<[bid := Local.backend_insert g stmt b]> bs) g' <= upd (backend_refs bs) g 1 g'.
Proof.
  intros Hb. split; [apply backend_refs_nonneg|]. unfold backend_refs.
  rewrite (map_total_update _ _ _ b) by done. unfold upd, backend_has at 2 3. cbn.
  unfold Local.map_insert.
  destruct (Local.global_stmt_to_backend_stmt b !! g) as [v|] eqn:Hg.
  { destruct (_ !! g'); case_test; lia. }
  destruct (Z.eqb_spec g g') as [<-|Hne].
  - rewrite lookup_insert_eq, Hg. lia.
  - rewrite lookup_insert_ne by done. destruct (_ !! g'); lia.
Qed.

Lemma ids_stay_trans o1 o2 o st st1 st2 :
  ids_stay o1 st st1 → ids_stay o2 st1 st2 →
  (∀ sid cid, ¬ closes o1 sid cid) → (∀ sid cid, ¬ closes o2 sid cid) → ids_stay o st st2.
Proof.
  intros H1 H2 N1 N2 sid l cid g Hl Hc _.
  destruct (H1 sid l cid g Hl Hc (N1 _ _)) as (l1 & a & b & Hl1 & Hc1 & Ha & Hb & Hab).
  destruct (H2 sid l1 cid g Hl1 Hc1 (N2 _ _)) as (l2 & b' & c & Hl2 & Hc2 & Hb' & Hcc & Hbc).
  exists l2, a, c. split_and!; try done. rewrite Hb in Hb'. injection Hb' as <-.
  unfold same_statement in *. by rewrite Hbc.
Qed.

Lemma client_room st g :
  wf st → map_Forall (λ (_ : positive) a, rc a + 1 < 2 ^ 31 ∧ rs a + 1 < 2 ^ 31) (heap (mgr st)) →
  client_refs (sessions st) g + 1 < 2 ^ 31.
Proof.
  intros ((Hw & _ & Hnn & Hc & Hs) & _) Hroom. destruct (Hnn g) as [H0 _].
  destruct (decide (0 < client_refs (sessions st) g)) as [Hpos|]; [|lia].
  destruct (Hs g (or_introl Hpos)) as [a Ha]. rewrite <- (proj1 (Hc g a Ha)).
  apply (stmt_of_Some _ g a Hw) in Ha as (p & _ & Hp & _). apply (Hroom p a Hp).
Qed.

Lemma prepare_spec ct mx sid u s q st :
  wf st → op_ok (Prepare ct mx sid u s q) st →
  ∃ st', exec (Prepare ct mx sid u s q) st = Ok st' ∧ wf st' ∧ ids_stay (Prepare ct mx sid u s q) st st'.
Proof.
  intros Hwf [(l & Hl & Hmax) Hroom]. cbn [exec].
  destruct (find_prepared_statement_by_hash _ _) as [p|] eqn:Hp; unfold find_prepared_statement_by_hash in Hp.
  - pose proof Hwf as ((Hw & _) & _). destruct (inv_hashes _ _ Hw _ p Hp) as (a & Ha & _ & Hi).
    unfold deref. rewrite Ha. cbn [mbind outcome_bind].
    destruct (generate_spec ct mx sid (statement_id a) st l Hwf Hl Hmax) as (st' & Hg & Hw' & Hids & _).
    + exists a. eapply stmt_of_intro; [|exact Ha]. by apply (inv_object [] (mgr st) p a).
    + by apply client_room.
    + exists st'. split_and!; [done..|]. intros sid' x cid g Hx Hc Hn. by eapply Hids.
  - exists st. split_and!; [done..|]. eapply (ids_stay_intro _ _ _ (λ _, 0)); [done| |].
    + intros g a _ Ha. by exists a.
    + intros sid' x cid g Hx Hc _. by exists x.
Qed.

Lemma prepared_first ct mx sid bid u s q fc stmt d again st b :
  wf st → op_ok (Prepared ct mx sid bid u s q fc stmt d again) st → backends st !! bid = Some b →
  ∃ p m1 m2 a, add u s q fc stmt (mgr st) = Ok (p, m1) ∧ fill_digest d p m1 = Ok m2 ∧
    heap m2 !! p = Some a ∧ is_Some (stmt_of (statement_id a) m2) ∧
    let st1 := mk m2 (sessions st) (<[bid := Local.backend_insert (statement_id a) stmt b]> (backends st)) in
    wf st1 ∧ ids_stay (Connect sid) st st1.
Proof.
  intros Hwf (_ & _ & Hroom & Hd & Hnext) Hb. pose proof Hwf as (Hacc & Hss & Hbs).
  destruct (accounts_add sizeof_info sizeof_bind sizeof_field sizeof_ptr Hash64 u s q fc stmt (mgr st) (client_refs (sessions st)) (backend_refs (backends st)) Hacc)
    as (p & m1 & c & Hadd & Hc & Hacc1 & Hk1).
  { split_and!; [done..|]. intros p a Hp. apply (Hroom p a Hp). }
  destruct (fill_digest_spec d p c m1 _ _ Hacc1 Hc) as (m2 & a & Hf & Ha & Hsame & Hacc2 & Hk2).
  assert (Hid : statement_id a = statement_id c) by (by injection Hsame).
  exists p, m1, m2, a. refine (conj Hadd (conj Hf (conj Ha (conj _ (conj _ _))))).
  - apply Hacc2. right. destruct Hacc as (_ & _ & Hnn & _). destruct (Hnn (statement_id a)).
    unfold upd. rewrite Hid, Z.eqb_refl in *. lia.
  - refine (conj _ (conj Hss _)); cbn [mgr sessions backends].
    + eapply accounts_fewer; [exact Hacc2|]. intros g. rewrite <- Hid. by apply backend_insert_refs.
    + intros bid' x [[<- <-]|[_ Hx]]%lookup_insert_Some; [|by apply (Hbs bid')]. exact (Hbs bid b Hb).
  - apply (ids_stay_intro _ _ _ (λ _, 0)); [done| |].
    + intros g x [Hg|Hg] Hx; [|lia]. cbn [sessions] in Hg. destruct (Hk1 g x) as (y & Hy & Hxy); [by left|done|].
      destruct (Hk2 g y) as (z & Hz & Hyz); [by left|done|]. exists z. split; [done|].
      unfold same_statement in *. by rewrite Hyz.
    + intros sid' x cid g Hx Hcg _. by exists x.
Qed.

Lemma prepared_spec ct mx sid bid u s q fc stmt d again st :
  wf st → op_ok (Prepared ct mx sid bid u s q fc stmt d again) st →
  ∃ st', exec (Prepared ct mx sid bid u s q fc stmt d again) st = Ok st' ∧ wf st' ∧
         ids_stay (Prepared ct mx sid bid u s q fc stmt d again) st st'.
Proof.
  intros Hwf Hok. pose proof Hok as ((l & Hl & Hmax) & [b Hb] & Hroom & _).
  destruct (prepared_first _ _ _ _ _ _ _ _ _ _ _ _ b Hwf Hok Hb)
    as (p & m1 & m2 & a & Hadd & Hf & Ha & Hst & Hw1 & Hids).
  cbn [exec]. rewrite Hadd. cbn [mbind outcome_bind]. rewrite Hf. cbn [mbind outcome_bind].
  unfold deref at 1. rewrite Ha. cbn [mbind outcome_bind]. unfold get at 1. rewrite Hb. cbn [mbind outcome_bind].
  destruct again.
  - eexists. split; [done|]. split; [done|]. intros sid' x cid g Hx Hc _. exact (Hids sid' x cid g Hx Hc (λ H, H)).
  - edestruct (generate_spec ct mx sid (statement_id a)) as (st' & Hg & Hw' & Hids' & _);
      [exact Hw1|exact Hl|exact Hmax|exact Hst|exact (client_room st _ Hwf Hroom)|].
    exists st'. split_and!; [done..|]. eapply ids_stay_trans; [exact Hids|exact Hids'|cbn; tauto|cbn; tauto].
Qed.

Lemma system_exec_spec o st :
  wf st → op_ok o st → ∃ st', exec o st = Ok st' ∧ wf st' ∧ ids_stay o st st'.
Proof.
  intros Hwf Hok. destruct o as [sid|bid|ct mx sid u s q|ct mx sid bid u s q fc stmt d again|ct mx sid cid
    |ct mx sid|bid].
  - cbn in Hok. eexists. split; [done|]. pose proof Hwf as (Hacc & Hss & Hbs). split.
    + refine (conj _ (conj _ Hbs)); cbn [sessions mgr backends].
      * eapply accounts_ext; [exact Hacc| |done]. intros g. unfold client_refs.
        rewrite map_total_insert_new by done. unfold Local.refs at 1. cbn. rewrite map_total_empty. lia.
      * intros sid' x [[<- <-]|[_ Hx]]%lookup_insert_Some; [|by apply (Hss sid')].
        split; [apply Local.wf_create|done].
    + apply (ids_stay_intro _ _ _ (λ _, 0)); [done|intros g a _ Ha; by exists a|].
      intros sid' x cid g Hx Hc _. exists x. cbn [sessions]. rewrite lookup_insert_ne by congruence. done.
  - cbn in Hok. eexists. split; [done|]. pose proof Hwf as (Hacc & Hss & Hbs). split.
    + refine (conj _ (conj Hss _)); cbn [sessions mgr backends].
      * eapply accounts_ext; [exact Hacc|done|]. intros g. unfold backend_refs.
        rewrite map_total_insert_new by done. unfold backend_has at 1. cbn. rewrite lookup_empty. lia.
      * intros bid' x [[<- <-]|[_ Hx]]%lookup_insert_Some; [done|by apply (Hbs bid')].
    + apply (ids_stay_intro _ _ _ (λ _, 0)); [done|intros g a _ Ha; by exists a|].
      intros sid' x cid g Hx Hc _. by exists x.
  - by apply prepare_spec.
  - by apply prepared_spec.
  - destruct (close_spec ct mx sid cid st Hwf Hok) as (st' & ? & ? & ? & _). by exists st'.
  - by apply disconnect_spec.
  - by apply backend_gone_spec.
Qed.

Fixpoint ops_ok (os : list op) (st : system) : Prop :=
  match os with
  | [] => True
  | o :: r => op_ok o st ∧ match exec o st with Ok st' => ops_ok r st' | Fault _ => True end
  end.

Lemma exec_all_spec os st :
  wf st → ops_ok os st → ∃ st', exec_all os st = Ok st' ∧ wf st'.
Proof.
  revert st; induction os as [|o os IH]; intros st Hwf Hok; cbn [exec_all]; [by exists st|].
  cbn [ops_ok] in Hok. destruct Hok as [Ho Hos].
  destruct (system_exec_spec o st Hwf Ho) as (st1 & Hx & Hw1 & _). rewrite Hx in *. cbn [mbind outcome_bind].
  by apply IH.
Qed.

Lemma wf_empty now : wf (empty now).
Proof.
  refine (conj _ (conj _ _)).
  - refine (conj _ (conj _ (conj _ (conj _ _)))); cbn [empty mgr sessions backends].
    + apply inv_create.
    + intros p a Ha. cbn in Ha. by rewrite lookup_empty in Ha.
    + intros g. split; [apply client_refs_nonneg|apply backend_refs_nonneg].
    + intros g a Ha. unfold stmt_of in Ha. cbn in Ha. by rewrite lookup_empty in Ha.
    + unfold client_refs, backend_refs. intros g. rewrite !map_total_empty. lia.
  - intros sid l. cbn. by rewrite lookup_empty.
  - intros bid l. cbn. by rewrite lookup_empty.
Qed.

(** C29: in any history of sessions and backend connections that start from an
    empty cache, with counters below their limits, nothing the cache or the
    connections do faults; the client references of every cached statement are
    exactly the client ids that lead to it, its server references are at least
    the backend handles for it (a statement that is prepared again counts once
    more, [reprepared_statement_leaks]), and the id of every client statement and
    of every backend handle is still in the cache, so no purge frees a statement
    a client can execute. *)
Theorem client_ids_stay_valid now os :
  ops_ok os (empty now) →
  ∃ st, exec_all os (empty now) = Ok st ∧
    (∀ g a, stmt_of g (mgr st) = Some a → rc a = client_refs (sessions st) g ∧ backend_refs (backends st) g <= rs a) ∧
    (∀ sid l cid g, sessions st !! sid = Some l → Local.client_stmt_to_global_ids l !! cid = Some g →
       is_Some (stmt_of g (mgr st)) ∧ Local.find_global_stmt_id_from_client cid l = g) ∧
    (∀ bid l g, backends st !! bid = Some l → is_Some (Local.global_stmt_to_backend_stmt l !! g) →
       is_Some (stmt_of g (mgr st))).
Proof.
  intros Hok. destruct (exec_all_spec os (empty now) (wf_empty now) Hok) as (st & Hx & (Hw & Hm & Hnn & Hc & Hs) & Hss & Hbs).
  exists st. split_and!; [done|done| |].
  - intros sid l cid g Hl Hcid. split; [|unfold Local.find_global_stmt_id_from_client; by rewrite Hcid].
    apply Hs. left. by eapply client_refs_pos.
  - intros bid l g Hl [v Hv]. apply Hs. right. unfold backend_refs.
    pose proof (map_total_lookup_le (backend_has g) (backends st) bid l (λ _ l _, backend_has_nonneg g l) Hl) as Hle.
    unfold backend_has in Hle at 1. rewrite Hv in Hle. lia.
Qed.

(** one step of the system never faults, and a client id the step does
    not close stays an id of its session, for the statement of the same global
    id, hash, user, schema and text, whatever is prepared, closed or purged by
    the others; a closed id is gone. *)
Theorem step_keeps_ids o st :
  wf st → op_ok o st →
  ∃ st', exec o st = Ok st' ∧ wf st' ∧ ids_stay o st st' ∧
    match o with
    | Close _ _ sid cid => ∀ l, sessions st' !! sid = Some l → Local.client_stmt_to_global_ids l !! cid = None
    | Disconnect _ _ sid => sessions st' !! sid = None
    | BackendGone bid => backends st' !! bid = None
    | _ => True
    end.
Proof.
  intros Hwf Hok. destruct (system_exec_spec o st Hwf Hok) as (st' & Hx & Hw & Hids). exists st'. split_and!; [done..|].
  destruct o as [| | | |ct mx sid cid|ct mx sid|bid]; try done.
  - destruct (close_spec ct mx sid cid st Hwf Hok) as (st2 & Hx2 & _ & _ & Hgone).
    rewrite Hx in Hx2. injection Hx2 as <-. exact Hgone.
  - cbn in Hok. destruct Hok as [l Hl]. cbn [exec] in Hx. unfold get in Hx. rewrite Hl in Hx. cbn in Hx.
    destruct (Local.destroy _ _ _ _); [|done]. injection Hx as <-. apply lookup_delete_eq.
  - cbn in Hok. destruct Hok as [l Hl]. cbn [exec] in Hx. unfold get in Hx. rewrite Hl in Hx. cbn in Hx.
    destruct (Local.destroy _ _ _ _); [|done]. injection Hx as <-. apply lookup_delete_eq.
Qed.
End exec.

(** ** Runs on concrete inputs *)
Definition q1 : list Z := str "SELECT ?".
Definition toy_run : list op :=
  [Connect 0; Connect 1; ConnectBackend 7; Prepare 10 100 0 [97] [98] q1;
   Prepared 10 100 0 7 [97] [98] q1 None toy_stmt (Some q1) false;
   Prepare 20 100 1 [97] [98] q1; Close 30 100 0 1; Disconnect 40 100 1].
Abbreviation toy := (exec_all 208 112 128 8 toy_hash).

Ltac solve_op :=
  match goal with
  | |- op_ok (Prepare _ _ _ _ _ _) _ => split
  | |- op_ok (Prepared _ _ _ _ _ _ _ _ _ _ _) _ => refine (conj _ (conj _ (conj _ (conj _ _))))
  | |- _ => idtac
  end;
  lazymatch goal with
  | |- GlobalInfo.described _ => exact toy_described
  | |- map_Forall _ _ => apply (bool_decide_unpack _); vm_compute; exact I
  | |- ∃ l, _ => eexists; split; [vm_compute; reflexivity|reflexivity]
  | |- _ => vm_compute; first [reflexivity|eexists; reflexivity]
  end.

Ltac solve_ops :=
  cbn [ops_ok];
  repeat (split; [solve_op|match goal with |- context [exec ?a ?b ?c ?d ?e ?o ?m] =>
            let r := eval vm_compute in (exec a b c d e o m) in change (exec a b c d e o m) with r end;
          cbn iota]); exact I.

Lemma client_ids_stay_valid_witness :
  ∃ st, toy toy_run (empty 0) = Ok st ∧
    (∀ g a, stmt_of g (mgr st) = Some a → rc a = client_refs (sessions st) g ∧ backend_refs (backends st) g <= rs a) ∧
    (∀ sid l cid g, sessions st !! sid = Some l → Local.client_stmt_to_global_ids l !! cid = Some g →
       is_Some (stmt_of g (mgr st)) ∧ Local.find_global_stmt_id_from_client cid l = g) ∧
    (∀ bid l g, backends st !! bid = Some l → is_Some (Local.global_stmt_to_backend_stmt l !! g) →
       is_Some (stmt_of g (mgr st))).
Proof. apply client_ids_stay_valid. unfold toy_run. solve_ops. Defined.

Definition toy_state : system :=
  match toy (take 6 toy_run) (empty 0) with Ok st => st | Fault _ => empty 0 end.

Lemma toy_system_wf : wf 208 112 128 8 toy_state.
Proof.
  destruct (exec_all_spec 208 112 128 8 toy_hash (take 6 toy_run) (empty 0) (wf_empty _ _ _ _ toy_hash 0))
    as (st & Hx & Hw); [unfold toy_run; cbn [take]; solve_ops|].
  unfold toy_state. by rewrite Hx.
Qed.

Lemma step_keeps_ids_witness :
  ∃ st', exec 208 112 128 8 toy_hash (Close 30 100 0 1) toy_state = Ok st' ∧ wf 208 112 128 8 st' ∧
    ids_stay (Close 30 100 0 1) toy_state st' ∧
    ∀ l, sessions st' !! 0%nat = Some l → Local.client_stmt_to_global_ids l !! 1 = None.
Proof.
  apply (step_keeps_ids 208 112 128 8 toy_hash (Close 30 100 0 1) toy_state toy_system_wf). solve_op.
Defined.

(** Two sessions that both missed the hash prepare the statement on the same
    backend connection, one after the other: the second reference of the
    connection is never given back, and nothing holds the statement any more. *)
Definition leaking_run : list op :=
  [Connect 0; Connect 1; ConnectBackend 7;
   Prepared 10 100 0 7 [97] [98] q1 None (GlobalInfo.mk_stmt 1 1 0 0 []) None false;
   Prepared 10 100 1 7 [97] [98] q1 None (GlobalInfo.mk_stmt 2 1 0 0 []) None false;
   Disconnect 11 100 0; Disconnect 11 100 1; BackendGone 7].
Example reprepared_statement_leaks :
  match toy leaking_run (empty 0) with
  | Ok st => (map_to_list (sessions st), map_to_list (backends st),
              (λ x : positive * info, (rc x.2, rs x.2)) <$> map_to_list (heap (mgr st)))
  | Fault _ => ([], [], [])
  end = ([], [], [(0, 1)]).
Proof. vm_compute. reflexivity. Qed.
End System.
