(* ===== verification/Auth.v ===== *)
(** * The users of the proxy (lib/MySQL_Authentication.cpp)

    One group for the frontend users and one for the backend users.  A group
    finds an account by the hash of its name in [bt_map] and lists the accounts
    in [cred_array]; both hold pointers to the same objects, which live in an
    explicit heap, so that a use after [free] is a fault of the model.  The
    lock of a group makes every operation on it atomic. *)
From S2P Require Import Prelude GenUtils StringUtils.

(** ** State *)
Record account := mk_account {
  username : list Z;
  password : list Z;
  sha1_pass : option (list Z);
  clear_text_password : option (list Z);
  default_schema : list Z;
  default_hostgroup : Z;
  use_ssl : bool;
  schema_locked : bool;
  transaction_persistent : bool;
  fast_forward : bool;
  max_connections : Z;
  num_connections_used : Z;
  __frontend : bool;
  __backend : bool;
  __active : bool;
  attributes : list Z;
  comment : list Z
}.

Record group := mk_group {
  bt_map : gmap Z positive;
  cred_array : PtrArray.t positive;
  heap : gmap positive account
}.

Record auth := mk_auth { creds_backends : group; creds_frontends : group }.

Inductive usertype := USERNAME_BACKEND | USERNAME_FRONTEND.
#[export] Instance usertype_eq_dec : EqDecision usertype.
Proof. solve_decision. Defined.

Definition SHA_DIGEST_LENGTH : Z := 20.

(** The arguments of [add] after the user name. *)
Record settings := mk_settings {
  s_password : list Z;
  s_use_ssl : bool;
  s_default_hostgroup : Z;
  s_default_schema : list Z;
  s_schema_locked : bool;
  s_transaction_persistent : bool;
  s_fast_forward : bool;
  s_max_connections : Z;
  s_attributes : list Z;
  s_comment : list Z
}.

(** The JSON library: [None] where it throws, or where [find] reaches [end()]. *)
Class Json := {
  json : Type;
  json_parse : list Z → option json;
  json_find : list Z → json → option json;
  json_get_string : json → option (list Z);
  json_set_string : list Z → list Z → json → json;
  json_erase : list Z → json → json;
  json_dump : json → option (list Z)
}.

Definition empty_group : outcome group :=
  a ← PtrArray.create 0; Ok (mk_group ∅ a ∅).
Definition create : outcome auth :=
  b ← empty_group; f ← empty_group; Ok (mk_auth b f).

Definition creds (u : usertype) (a : auth) : group :=
  match u with USERNAME_BACKEND => creds_backends a | USERNAME_FRONTEND => creds_frontends a end.
Definition set_creds (u : usertype) (g : group) (a : auth) : auth :=
  match u with
  | USERNAME_BACKEND => mk_auth g (creds_frontends a)
  | USERNAME_FRONTEND => mk_auth (creds_backends a) g
  end.

Definition deref (p : positive) (g : group) : outcome account :=
  match heap g !! p with Some a => Ok a | None => Fault OutOfBounds end.
Definition store (p : positive) (a : account) (g : group) : group :=
  mk_group (bt_map g) (cred_array g) (<[p := a]> (heap g)).
Definition free (p : positive) (g : group) : outcome group :=
  match heap g !! p with
  | Some _ => Ok (mk_group (bt_map g) (cred_array g) (delete p (heap g)))
  | None => Fault OutOfBounds
  end.

(** Updates of single fields. *)
Definition set_active (b : bool) (a : account) : account :=
  mk_account (username a) (password a) (sha1_pass a) (clear_text_password a) (default_schema a)
    (default_hostgroup a) (use_ssl a) (schema_locked a) (transaction_persistent a) (fast_forward a)
    (max_connections a) (num_connections_used a) (__frontend a) (__backend a) b (attributes a) (comment a).
Definition set_used (n : Z) (a : account) : account :=
  mk_account (username a) (password a) (sha1_pass a) (clear_text_password a) (default_schema a)
    (default_hostgroup a) (use_ssl a) (schema_locked a) (transaction_persistent a) (fast_forward a)
    (max_connections a) n (__frontend a) (__backend a) (__active a) (attributes a) (comment a).
Definition set_sha1 (s : option (list Z)) (a : account) : account :=
  mk_account (username a) (password a) s (clear_text_password a) (default_schema a)
    (default_hostgroup a) (use_ssl a) (schema_locked a) (transaction_persistent a) (fast_forward a)
    (max_connections a) (num_connections_used a) (__frontend a) (__backend a) (__active a) (attributes a) (comment a).
Definition set_clear (s : option (list Z)) (a : account) : account :=
  mk_account (username a) (password a) (sha1_pass a) s (default_schema a)
    (default_hostgroup a) (use_ssl a) (schema_locked a) (transaction_persistent a) (fast_forward a)
    (max_connections a) (num_connections_used a) (__frontend a) (__backend a) (__active a) (attributes a) (comment a).

Definition ISOLATION : list Z := str "default-transaction_isolation".
Definition isolation_levels : list (list Z) :=
  [str "READ UNCOMMITTED"; str "READ COMMITTED"; str "REPEATABLE READ"; str "SERIALIZABLE"].

Section auth.
(** [Spooky s1 s2 us]: the first word of [Init(s1,s2)], an [Update] per element
    of [us] and [Final]. *)
Context (Spooky : Z → Z → list (list Z) → Z) `{HJ : Json}.

Definition user_hash (u : list Z) : Z := Spooky 1 2 [u].

(** The object of a user name, if the group has one. *)
Definition find (u : list Z) (g : group) : outcome (option (positive * account)) :=
  match bt_map g !! user_hash u with
  | None => Ok None
  | Some p => a ← deref p g; Ok (Some (p, a))
  end.

(** *** [add] *)
Definition dash_to_space (c : Z) : Z := if c =? 45 then 32 else c.

(** What replaces the attributes of a known user. *)
Definition validated (attributes : list Z) : list Z :=
  match attributes with
  | [] => []
  | _ =>
      default []                                   (* the catch block *)
        (valid ← json_parse attributes;
         match json_find ISOLATION valid with
         | None => Some attributes
         | Some v =>
             dti_orig ← json_get_string v;
             let dti := dash_to_space <$> dti_orig in
             let json_rewritten := existsb (λ c, c =? 45) dti_orig in
             let emit (v : json) : option (list Z) :=
               d ← json_dump v; Some (if Z.of_nat (length d) =? 2 then [] else d) in
             if existsb (strcasecmp_eq dti) isolation_levels
             then if json_rewritten then emit (json_set_string ISOLATION dti valid) else Some attributes
             else emit (json_erase ISOLATION valid)
         end)
  end.

(** What a new user gets. *)
Definition parsed (attributes : list Z) : list Z :=
  match attributes with
  | [] => []
  | _ => match json_parse attributes with Some _ => attributes | None => [] end
  end.

(** The assignments common to both branches. *)
Definition configure (s : settings) (a : account) : account :=
  mk_account (username a) (password a) (sha1_pass a) (clear_text_password a) (default_schema a)
    (s_default_hostgroup s) (s_use_ssl s) (s_schema_locked s) (s_transaction_persistent s) (s_fast_forward s)
    (s_max_connections s) (num_connections_used a) (__frontend a) (__backend a) true (attributes a) (comment a).

Definition updated (s : settings) (a : account) : account :=
  let changed := negb (bool_decide (password a = s_password s)) in
  configure s (mk_account (username a)
    (s_password s)
    (if changed then None else sha1_pass a)
    (if changed then None else clear_text_password a)
    (s_default_schema s)
    (default_hostgroup a) (use_ssl a) (schema_locked a) (transaction_persistent a) (fast_forward a)
    (max_connections a) (num_connections_used a) (__frontend a) (__backend a) (__active a)
    (if strcasecmp_eq (attributes a) (s_attributes s) then attributes a else validated (s_attributes s))
    (s_comment s)).

(** [malloc] leaves the two flags of the dump unset: nothing reads them. *)
Definition new_account (fe be : bool) (u : list Z) (s : settings) : account :=
  configure s (mk_account u (s_password s) None None (s_default_schema s) 0 false false false false 0 0
    fe be false (parsed (s_attributes s)) (s_comment s)).

Definition add (u : list Z) (s : settings) (g : group) : outcome group :=
  r ← find u g;
  match r with
  | Some (p, a) => Ok (store p (updated s a) g)
  | None =>
      let p := fresh (dom (heap g)) in
      let g := store p (new_account false false u s) g in
      l ← PtrArray.add p (cred_array g);
      Ok (mk_group (<[user_hash u := p]> (bt_map g)) l (heap g))
  end.

(** *** [del], [reset] *)
Definition del (u : list Z) (g : group) : outcome (bool * group) :=
  r ← find u g;
  match r with
  | None => Ok (false, g)
  | Some (p, _) =>
      '(_, l) ← PtrArray.remove_fast p (cred_array g);
      g ← free p (mk_group (delete (user_hash u) (bt_map g)) l (heap g));
      Ok (true, g)
  end.

(** The map is emptied from its first key on. *)
Fixpoint reset_map (fuel : nat) (g : group) : outcome group :=
  match fuel with
  | O => Fault Diverges
  | S fuel' =>
      match in_key_order (bt_map g) with
      | [] => Ok g
      | (h, p) :: _ => g ← free p (mk_group (delete h (bt_map g)) (cred_array g) (heap g)); reset_map fuel' g
      end
  end.
Fixpoint reset_array (fuel : nat) (a : PtrArray.t positive) : outcome (PtrArray.t positive) :=
  match fuel with
  | O => Fault Diverges
  | S fuel' =>
      if PtrArray.len a =? 0 then Ok a
      else '(_, a) ← PtrArray.remove_index_fast 0 a; reset_array fuel' a
  end.
Definition _reset (g : group) : outcome group :=
  g ← reset_map (S (base.size (bt_map g))) g;
  l ← reset_array (S (Z.to_nat (PtrArray.len (cred_array g)))) (cred_array g);
  Ok (mk_group (bt_map g) l (heap g)).

(** *** Activity flags *)
Fixpoint set_all_inactive_loop (fuel : nat) (i : Z) (g : group) : outcome group :=
  match fuel with
  | O => Ok g
  | S fuel' =>
      if i <? PtrArray.len (cred_array g) then
        p ← PtrArray.index i (cred_array g);
        a ← deref p g;
        set_all_inactive_loop fuel' (i + 1) (store p (set_active false a) g)
      else Ok g
  end.
Definition set_all_inactive (g : group) : outcome group :=
  set_all_inactive_loop (Z.to_nat (PtrArray.len (cred_array g))) 0 g.

(** One pass of the [for] loop: the first inactive account. *)
Fixpoint first_inactive (fuel : nat) (i : Z) (g : group) : outcome (option account) :=
  match fuel with
  | O => Ok None
  | S fuel' =>
      if i <? PtrArray.len (cred_array g) then
        p ← PtrArray.index i (cred_array g);
        a ← deref p g;
        if __active a then first_inactive fuel' (i + 1) g else Ok (Some a)
      else Ok None
  end.
(** After a deletion the loop starts again. *)
Fixpoint remove_inactives_loop (fuel : nat) (g : group) : outcome group :=
  match fuel with
  | O => Fault Diverges
  | S fuel' =>
      r ← first_inactive (Z.to_nat (PtrArray.len (cred_array g))) 0 g;
      match r with
      | None => Ok g
      | Some a => '(_, g) ← del (username a) g; remove_inactives_loop fuel' g
      end
  end.
Definition remove_inactives (g : group) : outcome group :=
  remove_inactives_loop (S (Z.to_nat (PtrArray.len (cred_array g)))) g.

(** *** Credentials of one user *)
Definition set_SHA1 (u : list Z) (sha_pass : option (list Z)) (g : group) : outcome (bool * group) :=
  r ← find u g;
  match r with
  | None => Ok (false, g)
  | Some (p, a) => Ok (true, store p (set_sha1 (take (Z.to_nat SHA_DIGEST_LENGTH) <$> sha_pass) a) g)
  end.
Definition set_clear_text_password (u : list Z) (pw : option (list Z)) (g : group) : outcome (bool * group) :=
  r ← find u g;
  match r with
  | None => Ok (false, g)
  | Some (p, a) => Ok (true, store p (set_clear pw a) g)
  end.
Definition exists_user (u : list Z) (g : group) : bool :=
  match bt_map g !! user_hash u with Some _ => true | None => false end.

(** What [lookup] returns and stores through its arguments. *)
Record found := mk_found {
  f_password : list Z;
  f_use_ssl : bool;
  f_default_hostgroup : Z;
  f_default_schema : list Z;
  f_schema_locked : bool;
  f_transaction_persistent : bool;
  f_fast_forward : bool;
  f_max_connections : Z;
  f_sha1_pass : option (list Z);
  f_attributes : list Z
}.
Definition report (a : account) : found :=
  mk_found (match clear_text_password a with None => password a | Some c => c end)
    (use_ssl a) (default_hostgroup a) (default_schema a) (schema_locked a) (transaction_persistent a)
    (fast_forward a) (max_connections a) (sha1_pass a) (attributes a).
Definition lookup (u : list Z) (g : group) : outcome (option found) :=
  r ← find u g; Ok (match r with Some (_, a) => Some (report a) | None => None end).

(** *** Connection counting *)
Definition increase_frontend_user_connections (u : list Z) (g : group) : outcome (Z * option Z * group) :=
  r ← find u g;
  match r with
  | None => Ok (0, None, g)
  | Some (p, a) =>
      if num_connections_used a <? max_connections a
      then Ok (max_connections a - num_connections_used a, Some (max_connections a),
               store p (set_used (num_connections_used a + 1) a) g)
      else Ok (0, Some (max_connections a), g)
  end.
Definition decrease_frontend_user_connections (u : list Z) (g : group) : outcome group :=
  r ← find u g;
  match r with
  | None => Ok g
  | Some (p, a) =>
      Ok (if 0 <? num_connections_used a then store p (set_used (num_connections_used a - 1) a) g else g)
  end.

(** *** Dump, memory and checksum

    The dump leaves [__active] unset. *)

(** An entry of [dump_all_users]: with [_complete] false only the first four
    fields are set. *)
Record dumped := mk_dumped {
  d_username : list Z;
  d_max_connections : Z;
  d_default_hostgroup : Z;
  d_num_connections_used : Z;
  d_complete : option account
}.
Definition dump_full (frontend : bool) (a : account) : account :=
  mk_account (username a) (password a) None None (default_schema a) (default_hostgroup a) (use_ssl a)
    (schema_locked a) (transaction_persistent a) (fast_forward a) (max_connections a)
    (if frontend then num_connections_used a else 0) frontend (negb frontend) (__active a) (attributes a) (comment a).
Definition dump_entry (frontend complete : bool) (a : account) : dumped :=
  mk_dumped (username a) (max_connections a) (default_hostgroup a)
    (if frontend then num_connections_used a else 0)
    (if complete then Some (dump_full frontend a) else None).

(** The loops over [cred_array]. *)
Fixpoint walk {B} (f : account → B) (fuel : nat) (i : Z) (g : group) : outcome (list B) :=
  match fuel with
  | O => Ok []
  | S fuel' =>
      if i <? PtrArray.len (cred_array g) then
        p ← PtrArray.index i (cred_array g);
        a ← deref p g;
        r ← walk f fuel' (i + 1) g;
        Ok (f a :: r)
      else Ok []
  end.
Definition for_all_users {B} (f : account → B) (g : group) : outcome (list B) :=
  walk f (Z.to_nat (PtrArray.len (cred_array g))) 0 g.

Definition dump_all_users (complete : bool) (a : auth) : outcome (list dumped) :=
  fs ← for_all_users (dump_entry true complete) (creds_frontends a);
  bs ← (if complete then for_all_users (dump_entry false true) (creds_backends a) else Ok []);
  Ok (fs ++ bs).

Definition string_size (s : list Z) : Z := Z.of_nat (length s) + 1.
Definition account_size (sizeof_account : Z) (a : account) : Z :=
  sizeof_account + string_size (username a) + string_size (password a)
  + (match sha1_pass a with Some _ => SHA_DIGEST_LENGTH | None => 0 end)
  + (match clear_text_password a with Some c => string_size c | None => 0 end)
  + string_size (default_schema a) + string_size (comment a) + string_size (attributes a).
Definition group_memory (sizeof_account sizeof_group sizeof_array sizeof_ptr : Z) (g : group) : outcome Z :=
  ns ← for_all_users (account_size sizeof_account) g;
  Ok (foldr Z.add 0 ns + sizeof_group + sizeof_array + PtrArray.size (cred_array g) * sizeof_ptr).
Definition memory_usage (sizeof_account sizeof_group sizeof_array sizeof_ptr : Z) (a : auth) : outcome Z :=
  f ← group_memory sizeof_account sizeof_group sizeof_array sizeof_ptr (creds_frontends a);
  b ← group_memory sizeof_account sizeof_group sizeof_array sizeof_ptr (creds_backends a);
  Ok (u32 (f + b)).

Definition bool_bytes (b : bool) : list Z := [if b then 1 else 0].
Definition int_bytes (n : Z) : list Z := le_bytes 4 (u32 n).
(** The [Update] calls for one account. *)
Definition updates (a : account) : list (list Z) :=
  [bool_bytes (use_ssl a); int_bytes (default_hostgroup a); bool_bytes (schema_locked a);
   bool_bytes (transaction_persistent a); bool_bytes (fast_forward a); int_bytes (max_connections a);
   username a; password a; default_schema a; comment a; attributes a].

Fixpoint hash_loop (accs : list account) (foundany : bool) (acc : list (list Z)) : bool * list (list Z) :=
  match accs with
  | [] => (foundany, acc)
  | a :: r => if 0 <=? default_hostgroup a then hash_loop r true (acc ++ updates a) else hash_loop r foundany acc
  end.
Definition compute_accounts_hash (accs : list account) : Z :=
  match accs with
  | [] => 0
  | _ => let '(foundany, us) := hash_loop accs false [] in if foundany then Spooky 13 4 us else 0
  end.

(** The objects of a group in the order of the hashes. *)
Fixpoint deref_all (ps : list positive) (g : group) : outcome (list account) :=
  match ps with
  | [] => Ok []
  | p :: r => a ← deref p g; l ← deref_all r g; Ok (a :: l)
  end.
Definition _get_runtime_checksum (g : group) : outcome Z :=
  accs ← deref_all (in_key_order (bt_map g)).*2 g; Ok (compute_accounts_hash accs).
Definition get_runtime_checksum (a : auth) : outcome Z :=
  hashB ← _get_runtime_checksum (creds_backends a);
  hashF ← _get_runtime_checksum (creds_frontends a);
  Ok (u64 (hashB + hashF)).

(** The rows another node sends: a cell is [None] for a NULL. *)
Definition row := list (option (list Z)).
Definition cell (i : nat) (r : row) : outcome (option (list Z)) :=
  match r !! i with Some c => Ok c | None => Fault OutOfBounds end.
(** [strcmp] and [atoi] of a NULL pointer. *)
Definition text (i : nat) (r : row) : outcome (list Z) :=
  c ← cell i r; match c with Some s => Ok s | None => Fault OutOfBounds end.
Definition flag (i : nat) (r : row) : outcome bool := s ← text i r; Ok (bool_decide (s = [49])).

Definition create_account_details (r : row) : outcome account :=
  u ← text 0 r;
  pw ← cell 1 r;
  ssl ← flag 2 r;
  hg ← text 3 r;
  schema ← cell 4 r;
  locked ← flag 5 r;
  persistent ← flag 6 r;
  ff ← flag 7 r;
  be ← flag 8 r;
  fe ← flag 9 r;
  mc ← text 10 r;
  attrs ← cell 11 r;
  com ← cell 12 r;
  Ok (mk_account u (default [] pw) None None (default [] schema) (atoi hg) ssl locked persistent ff (atoi mc) 0
        fe be true (default [] attrs) (default [] com)).

(** [std::map::insert]: the first row of a user stays. *)
Definition umap_insert (h : Z) (a : account) (m : gmap Z account) : gmap Z account :=
  match m !! h with Some _ => m | None => <[h := a]> m end.

Fixpoint extract_loop (rows : list row) (b_accs_map f_accs_map : gmap Z account)
  : outcome (gmap Z account * gmap Z account) :=
  match rows with
  | [] => Ok (b_accs_map, f_accs_map)
  | r :: rs =>
      u ← text 0 r;
      be ← flag 8 r;
      b_accs_map ← (if be : bool then a ← create_account_details r; Ok (umap_insert (user_hash u) a b_accs_map)
                    else Ok b_accs_map);
      fe ← flag 9 r;
      f_accs_map ← (if fe : bool then a ← create_account_details r; Ok (umap_insert (user_hash u) a f_accs_map)
                    else Ok f_accs_map);
      extract_loop rs b_accs_map f_accs_map
  end.
Definition extract_accounts_details (rows : list row) : outcome (gmap Z account * gmap Z account) :=
  extract_loop rows ∅ ∅.

Definition get_runtime_checksum_of (rows : list row) : outcome Z :=
  '(b, f) ← extract_accounts_details rows;
  Ok (u64 (compute_accounts_hash (in_key_order b).*2 + compute_accounts_hash (in_key_order f).*2)).
End auth.

(** ** What a group stands for

    [holds g l m]: the map [m] from hashes to accounts is the group, [l] the
    order of the accounts in the array. *)
Section proofs.
Context (Spooky : Z → Z → list (list Z) → Z) `{HJ : Json}.
Abbreviation hash := (user_hash Spooky).
Implicit Types (g : group) (l : list positive) (m : gmap Z account).

Record holds g l m : Prop := {
  h_repr : PtrArray.repr (cred_array g) l;
  h_nodup : NoDup l;
  h_live p : p ∈ l ↔ is_Some (heap g !! p);
  h_map h p : bt_map g !! h = Some p → ∃ a, heap g !! p = Some a ∧ hash (username a) = h;
  h_hash p a : heap g !! p = Some a → bt_map g !! hash (username a) = Some p;
  h_lookup h : m !! h = bt_map g !! h ≫= λ p, heap g !! p
}.

Lemma holds_cases g l m h :
  holds g l m →
  (m !! h = None ∧ bt_map g !! h = None) ∨
  (∃ p a, m !! h = Some a ∧ bt_map g !! h = Some p ∧ heap g !! p = Some a ∧ hash (username a) = h ∧ p ∈ l).
Proof.
  intros H0. pose proof (h_lookup _ _ _ H0 h) as Hm. destruct (bt_map g !! h) as [p|] eqn:Hp; [right|by left].
  destruct (h_map _ _ _ H0 h p Hp) as (a & Ha & Hh). exists p, a. cbn in Hm. rewrite Ha in Hm.
  split_and!; try done. apply (h_live _ _ _ H0). by eexists.
Qed.

Lemma holds_obj g l m p :
  holds g l m → p ∈ l → ∃ a, heap g !! p = Some a ∧ m !! hash (username a) = Some a.
Proof.
  intros H0 Hp. apply (h_live _ _ _ H0) in Hp as [a Ha]. exists a. split; [done|].
  rewrite (h_lookup _ _ _ H0), (h_hash _ _ _ H0 p a Ha). done.
Qed.

Lemma find_spec u g l m :
  holds g l m →
  (m !! hash u = None ∧ bt_map g !! hash u = None ∧ find Spooky u g = Ok None) ∨
  (∃ p a, m !! hash u = Some a ∧ find Spooky u g = Ok (Some (p, a)) ∧ bt_map g !! hash u = Some p ∧
          heap g !! p = Some a ∧ hash (username a) = hash u ∧ p ∈ l).
Proof.
  intros H0. unfold find, deref. destruct (holds_cases g l m (hash u) H0) as [[Hm Hb]|(p & a & Hm & Hb & Ha & Hh & Hp)].
  - left. by rewrite Hb.
  - right. exists p, a. rewrite Hb, Ha. cbn. done.
Qed.

Lemma empty_holds : ∃ g, empty_group = Ok g ∧ holds g [] ∅.
Proof.
  unfold empty_group, PtrArray.create. cbn. eexists; split; [done|].
  split; cbn; [by repeat split; cbn; lia|constructor| | | |].
  - intros p. rewrite lookup_empty, elem_of_nil. split; [done|by intros []].
  - intros h p. by rewrite lookup_empty.
  - intros p a. by rewrite lookup_empty.
  - intros h. by rewrite !lookup_empty.
Qed.

(** Replacing the settings of an account. *)
Lemma store_holds g l m p a a' :
  holds g l m → heap g !! p = Some a → username a' = username a →
  holds (store p a' g) l (<[hash (username a) := a']> m).
Proof.
  intros H0 Ha Hu. pose proof (h_hash _ _ _ H0 p a Ha) as Hb. destruct H0 as [Hr Hn Hl Hm Hh Hk].
  split; cbn [store cred_array bt_map heap]; try done.
  - intros q. rewrite Hl. destruct (decide (p = q)) as [<-|]; [|by rewrite lookup_insert_ne].
    rewrite lookup_insert_eq, Ha. by split; eexists.
  - intros h q Hq. destruct (Hm h q Hq) as (b & Hqb & Hhb). destruct (decide (p = q)) as [<-|].
    + exists a'. rewrite lookup_insert_eq, Hu. rewrite Ha in Hqb. injection Hqb as <-. done.
    + exists b. by rewrite lookup_insert_ne.
  - intros q b. intros [[<- <-]|[_ Hq]]%lookup_insert_Some; [by rewrite Hu|by apply Hh].
  - intros h. destruct (decide (hash (username a) = h)) as [<-|Hne].
    + rewrite lookup_insert_eq, Hb. cbn. by rewrite lookup_insert_eq.
    + rewrite lookup_insert_ne, Hk by done. destruct (bt_map g !! h) as [q|] eqn:Hq; [|done]. cbn.
      rewrite lookup_insert_ne; [done|]. intros <-. destruct (Hm h p Hq) as (b & Hpb & Hhb). congruence.
Qed.

Lemma add_new_holds u g l m a :
  holds g l m → bt_map g !! hash (username a) = None → username a = u → Z.of_nat (length l) < 2 ^ 31 →
  let p := fresh (dom (heap g)) in
  ∃ c, PtrArray.add p (cred_array g) = Ok c ∧
    holds (mk_group (<[hash u := p]> (bt_map g)) c (<[p := a]> (heap g))) (l ++ [p]) (<[hash u := a]> m).
Proof.
  intros H0 Hb <- Hlen p. destruct H0 as [Hr Hn Hl Hm Hh Hk].
  assert (Hp : heap g !! p = None) by (apply not_elem_of_dom, is_fresh).
  assert (Hpl : p ∉ l) by (rewrite Hl, Hp; by intros []).
  destruct (PtrArray.add_repr _ l p Hr Hlen) as (c & -> & Hr'). exists c. split; [done|].
  split; cbn [cred_array bt_map heap]; try done.
  - apply NoDup_app. split_and!; [done| |apply NoDup_singleton]. by intros x Hx ->%list_elem_of_singleton.
  - intros q. rewrite elem_of_app, list_elem_of_singleton, Hl. destruct (decide (p = q)) as [<-|].
    + rewrite lookup_insert_eq. split; [by eexists|by right].
    + rewrite lookup_insert_ne by done. split; [intros [|]; congruence|by left].
  - intros h q. intros [[<- <-]|[_ Hq]]%lookup_insert_Some; [exists a; by rewrite lookup_insert_eq|].
    destruct (Hm h q Hq) as (b & Hqb & Hhb). exists b. rewrite lookup_insert_ne by congruence. done.
  - intros q b. intros [[<- <-]|[_ Hq]]%lookup_insert_Some; [by rewrite lookup_insert_eq|].
    rewrite lookup_insert_ne; [by apply Hh|]. intros He. rewrite He in Hb. rewrite (Hh q b Hq) in Hb. done.
  - intros h. destruct (decide (hash (username a) = h)) as [<-|Hne].
    + rewrite !lookup_insert_eq. cbn. by rewrite lookup_insert_eq.
    + rewrite !lookup_insert_ne, Hk by done. destruct (bt_map g !! h) as [q|] eqn:Hq; [|done]. cbn.
      destruct (Hm h q Hq) as (b & Hqb & _). rewrite lookup_insert_ne; [done|congruence].
Qed.

Lemma remove_holds u g l m p a :
  holds g l m → Z.of_nat (length l) < 2 ^ 31 → bt_map g !! hash u = Some p → heap g !! p = Some a → p ∈ l →
  ∃ c l', PtrArray.remove_fast p (cred_array g) = Ok (true, c) ∧ S (length l') = length l ∧
    holds (mk_group (delete (hash u) (bt_map g)) c (delete p (heap g))) l' (delete (hash u) m).
Proof.
  intros H0 Hlen Hb Ha Hp. destruct H0 as [Hr Hn Hl Hm Hh Hk].
  pose proof (PtrArray.remove_fast_repr _ l p Hr Hlen) as Hrm.
  destruct (list_find (p =.) l) as [[i y]|] eqn:Hf.
  2: { apply list_find_None in Hf. rewrite Forall_forall in Hf. by destruct (Hf p Hp). }
  destruct Hrm as (l' & c & Hsw & -> & Hr'). exists c, l'.
  pose proof (swap_remove_length _ _ _ _ Hsw) as Hlen'. pose proof (swap_remove_perm _ _ _ _ Hsw) as Hperm.
  apply list_find_Some in Hf as (_ & <- & _). split_and!; [done|done|].
  rewrite Hperm in Hn. apply NoDup_cons in Hn as [Hpn Hn'].
  split; cbn [cred_array bt_map heap]; try done.
  - intros q. destruct (decide (p = q)) as [<-|Hne].
    + rewrite lookup_delete_eq. split; [done|by intros []].
    + rewrite lookup_delete_ne, <- Hl, Hperm, elem_of_cons by done. naive_solver.
  - intros h q. intros [Hne Hq]%lookup_delete_Some. destruct (Hm h q Hq) as (b & Hqb & Hhb).
    exists b. rewrite lookup_delete_ne; [done|]. intros <-.
    destruct (Hm _ _ Hb) as (b' & Hb' & Hhb'). congruence.
  - intros q b [Hne Hq]%lookup_delete_Some. rewrite lookup_delete_ne; [by apply Hh|].
    intros He. pose proof (Hh q b Hq) as Hq'. rewrite <- He in Hq'. congruence.
  - intros h. destruct (decide (hash u = h)) as [<-|Hne]; [by rewrite !lookup_delete_eq|].
    rewrite !lookup_delete_ne, Hk by done. destruct (bt_map g !! h) as [q|] eqn:Hq; [|done]. cbn.
    rewrite lookup_delete_ne; [done|]. intros <-.
    destruct (Hm _ _ Hb) as (b1 & Hb1 & Hh1). destruct (Hm _ _ Hq) as (b2 & Hb2 & Hh2). congruence.
Qed.

Lemma del_spec u g l m :
  holds g l m → Z.of_nat (length l) < 2 ^ 31 →
  ∃ g' l', del Spooky u g = Ok (bool_decide (is_Some (m !! hash u)), g') ∧ holds g' l' (delete (hash u) m) ∧
    (length l' <= length l)%nat ∧ (is_Some (m !! hash u) → S (length l') = length l).
Proof.
  intros H0 Hlen. unfold del.
  destruct (find_spec u g l m H0) as [(Hm & Hb & ->)|(p & a & Hm & -> & Hb & Ha & Hh & Hp)];
    cbn [mbind outcome_bind]; rewrite Hm.
  - exists g, l. rewrite bool_decide_false by (by intros []). rewrite delete_id by done.
    split_and!; [done|done|lia|by intros []].
  - destruct (remove_holds u g l m p a H0 Hlen Hb Ha Hp) as (c & l' & -> & Hl' & H').
    cbn [mbind outcome_bind]. unfold free. cbn [heap bt_map cred_array]. rewrite Ha. cbn [mbind outcome_bind].
    eexists _, l'. rewrite bool_decide_true by (by eexists). split_and!; [done|exact H'|lia|done].
Qed.

(** *** The loops over the array *)
Lemma walk_spec {B} (f : account → B) g l m fuel (i : nat) :
  holds g l m → (length l - i <= fuel)%nat → (i <= length l)%nat →
  walk f fuel (Z.of_nat i) g = Ok (f <$> omap (λ p, heap g !! p) (drop i l)).
Proof.
  intros H0. pose proof (h_repr _ _ _ H0) as Hr. pose proof Hr as (Hlen & _). revert i.
  induction fuel as [|fuel IH]; intros i Hf Hi; cbn [walk]; [by rewrite drop_ge by lia|].
  destruct (Z.ltb_spec (Z.of_nat i) (PtrArray.len (cred_array g))); [|by rewrite drop_ge by lia].
  destruct (lookup_lt_is_Some_2 l i) as [p Hp]; [lia|].
  rewrite (PtrArray.index_repr _ _ _ _ Hr Hp), (drop_S _ _ _ Hp). cbn [mbind outcome_bind omap list_omap].
  destruct (holds_obj g l m p H0) as (a & Ha & _); [by eapply list_elem_of_lookup_2|].
  unfold deref. rewrite Ha. cbn [mbind outcome_bind fmap list_fmap].
  replace (Z.of_nat i + 1) with (Z.of_nat (S i)) by lia. by rewrite IH by lia.
Qed.

Definition objects g l : list account := omap (λ p, heap g !! p) l.

Lemma for_all_users_spec {B} (f : account → B) g l m :
  holds g l m → for_all_users f g = Ok (f <$> objects g l).
Proof.
  intros H0. pose proof (h_repr _ _ _ H0) as (Hlen & _). unfold for_all_users.
  change 0 with (Z.of_nat 0). by rewrite (walk_spec f g l m) by (done || lia).
Qed.

Lemma objects_elem g l m a : holds g l m → a ∈ objects g l ↔ m !! hash (username a) = Some a.
Proof.
  intros H0. unfold objects. rewrite list_elem_of_omap. split.
  - intros (p & Hp & Ha). destruct (holds_obj g l m p H0 Hp) as (a' & Ha' & Hm). congruence.
  - intros Ha. destruct (holds_cases g l m (hash (username a)) H0) as [[Hn _]|(p & a' & Hm & Hb & Hh & _ & Hp)]; [congruence|].
    rewrite Ha in Hm. injection Hm as <-. by exists p.
Qed.

Lemma objects_nodup g l m : holds g l m → NoDup (objects g l).
Proof.
  intros H0. unfold objects. pose proof (h_nodup _ _ _ H0) as Hn. pose proof (h_live _ _ _ H0) as Hl.
  assert (Hin : ∀ p, p ∈ l → is_Some (heap g !! p)) by (intros; by apply Hl).
  assert (Hinj : ∀ p q a, heap g !! p = Some a → heap g !! q = Some a → p = q).
  { intros p q a Hp Hq. apply (h_hash _ _ _ H0) in Hp, Hq. congruence. }
  clear H0 Hl.
  induction l as [|p l IH] in Hn, Hin |- *; [constructor|]. apply NoDup_cons in Hn as [Hp Hn]. cbn [omap list_omap].
  destruct (Hin p) as [a Ha]; [by left|]. rewrite Ha. constructor; [|apply IH; [done|intros; apply Hin; by right]].
  rewrite list_elem_of_omap. intros (q & Hq & Hqa). by rewrite (Hinj p q a) in Hp.
Qed.

Lemma objects_perm g l m : holds g l m → objects g l ≡ₚ (map_to_list m).*2.
Proof.
  intros H0. apply NoDup_Permutation.
  - exact (objects_nodup g l m H0).
  - apply NoDup_fmap_2_strong; [|apply NoDup_map_to_list].
    intros [h1 a1] [h2 a2] H1%elem_of_map_to_list H2%elem_of_map_to_list. cbn. intros <-.
    destruct (holds_cases g l m h1 H0) as [[Hn _]|(p & a & Hm1 & _ & _ & Hh1 & _)]; [congruence|].
    destruct (holds_cases g l m h2 H0) as [[Hn _]|(p' & a' & Hm2 & _ & _ & Hh2 & _)]; [congruence|]. congruence.
  - intros a. rewrite (objects_elem g l m a H0), list_elem_of_fmap. split.
    + intros Ha. exists (hash (username a), a). by rewrite elem_of_map_to_list.
    + intros ([h a'] & -> & Ha'). apply elem_of_map_to_list in Ha'. cbn [snd].
      destruct (holds_cases g l m h H0) as [[Hn _]|(p & a & Hm1 & _ & _ & Hh1 & _)]; congruence.
Qed.

Lemma set_all_inactive_loop_spec g l m fuel (i : nat) :
  holds g l m → (length l - i <= fuel)%nat → (i <= length l)%nat →
  ∃ g' m', set_all_inactive_loop fuel (Z.of_nat i) g = Ok g' ∧ holds g' l m' ∧ bt_map g' = bt_map g ∧
    ∀ h p, bt_map g !! h = Some p →
      (p ∈ drop i l → m' !! h = set_active false <$> m !! h) ∧ ((p ∉ drop i l) → m' !! h = m !! h).
Proof.
  revert g m i. induction fuel as [|fuel IH]; intros g m i H0 Hf Hi; cbn [set_all_inactive_loop];
    pose proof (h_repr _ _ _ H0) as Hr; pose proof Hr as (Hlen & _).
  { exists g, m. rewrite drop_ge by lia. split_and!; try done. intros h p _. split; [by intros ?%elem_of_nil|done]. }
  destruct (Z.ltb_spec (Z.of_nat i) (PtrArray.len (cred_array g))).
  2: { exists g, m. rewrite drop_ge by lia. split_and!; try done. intros h p _. split; [by intros ?%elem_of_nil|done]. }
  destruct (lookup_lt_is_Some_2 l i) as [p Hp]; [lia|].
  rewrite (PtrArray.index_repr _ _ _ _ Hr Hp), (drop_S _ _ _ Hp). cbn [mbind outcome_bind].
  destruct (holds_obj g l m p H0) as (a & Ha & Hma); [by eapply list_elem_of_lookup_2|].
  unfold deref. rewrite Ha. cbn [mbind outcome_bind].
  replace (Z.of_nat i + 1) with (Z.of_nat (S i)) by lia.
  destruct (IH (store p (set_active false a) g) (<[hash (username a) := set_active false a]> m) (S i))
    as (g' & m' & -> & H' & Hb' & Hrest); [by eapply store_holds|lia|lia|].
  exists g', m'. split_and!; try done. cbn [store bt_map] in Hrest.
  assert (Hpn : p ∉ drop (S i) l).
  { pose proof (h_nodup _ _ _ H0) as Hn. rewrite <- (take_drop_middle l i p Hp) in Hn.
    apply NoDup_app in Hn as (_ & _ & Hn). by apply NoDup_cons in Hn as [? _]. }
  pose proof (h_hash _ _ _ H0 p a Ha) as Hbp.
  intros h q Hq. destruct (Hrest h q Hq) as [Ht Hf']. rewrite elem_of_cons. destruct (decide (q = p)) as [->|Hne].
  - assert (h = hash (username a)) as ->.
    { destruct (h_map _ _ _ H0 h p Hq) as (b & Hb & <-). congruence. }
    rewrite Hf', lookup_insert_eq, Hma by done. split; [done|tauto].
  - rewrite lookup_insert_ne in Ht, Hf' by (intros He; rewrite <- He in Hq; congruence).
    split; [intros [?|?]; [done|by apply Ht]|intros Hn; apply Hf'; tauto].
Qed.

Lemma set_all_inactive_spec g l m :
  holds g l m → ∃ g', set_all_inactive g = Ok g' ∧ holds g' l (set_active false <$> m).
Proof.
  intros H0. pose proof (h_repr _ _ _ H0) as (Hlen & _). unfold set_all_inactive.
  destruct (set_all_inactive_loop_spec g l m (Z.to_nat (PtrArray.len (cred_array g))) 0 H0)
    as (g' & m' & Hx & H' & Hb & Hm); [lia|lia|]. exists g'. split; [exact Hx|].
  assert (set_active false <$> m = m') as ->; [|done].
  apply map_eq. intros h. rewrite lookup_fmap.
  destruct (holds_cases g l m h H0) as [[Hn Hbn]|(p & a & Ha & Hba & _ & _ & Hp)].
  - rewrite Hn. destruct (holds_cases g' l m' h H') as [[Hn' _]|(p & a & _ & Hba & _)]; [by rewrite Hn'|congruence].
  - rewrite (proj1 (Hm h p Hba)); [done|]. by rewrite drop_0.
Qed.

(** *** Removing the inactive accounts *)
Lemma first_inactive_spec g l m fuel (i : nat) :
  holds g l m → (length l - i <= fuel)%nat → (i <= length l)%nat →
  (first_inactive fuel (Z.of_nat i) g = Ok None ∧
     ∀ p a, p ∈ drop i l → heap g !! p = Some a → __active a = true) ∨
  (∃ p a, first_inactive fuel (Z.of_nat i) g = Ok (Some a) ∧ p ∈ l ∧ heap g !! p = Some a ∧ __active a = false).
Proof.
  intros H0. pose proof (h_repr _ _ _ H0) as Hr. pose proof Hr as (Hlen & _). revert i.
  induction fuel as [|fuel IH]; intros i Hf Hi; cbn [first_inactive].
  { left. rewrite drop_ge by lia. split; [done|]. by intros p a ?%elem_of_nil. }
  destruct (Z.ltb_spec (Z.of_nat i) (PtrArray.len (cred_array g))).
  2: { left. rewrite drop_ge by lia. split; [done|]. by intros p a ?%elem_of_nil. }
  destruct (lookup_lt_is_Some_2 l i) as [p Hp]; [lia|]. pose proof (list_elem_of_lookup_2 _ _ _ Hp) as Hpl.
  rewrite (PtrArray.index_repr _ _ _ _ Hr Hp), (drop_S _ _ _ Hp). cbn [mbind outcome_bind].
  destruct (holds_obj g l m p H0 Hpl) as (a & Ha & _). unfold deref. rewrite Ha. cbn [mbind outcome_bind].
  destruct (__active a) eqn:Hact; [|right; by exists p, a].
  replace (Z.of_nat i + 1) with (Z.of_nat (S i)) by lia.
  destruct (IH (S i)) as [[-> Hall]|(q & b & -> & Hq)]; [lia|lia|left|right; by exists q, b].
  split; [done|]. intros q b [->|Hq]%elem_of_cons Hb; [congruence|by eapply Hall].
Qed.

Definition is_active (kv : Z * account) : Prop := __active kv.2 = true.
#[export] Instance is_active_dec kv : Decision (is_active kv).
Proof. unfold is_active. apply _. Defined.

(** Deleting an inactive account does not change which accounts are active. *)
Lemma filter_active_delete m h a :
  m !! h = Some a → __active a = false → filter is_active (delete h m) = filter is_active m.
Proof.
  intros Hm Ha. rewrite <- (insert_delete_id m h a Hm) at 2.
  rewrite map_filter_insert_False by (unfold is_active; cbn; congruence). by rewrite (delete_id (delete h m)) by apply lookup_delete_eq.
Qed.

Lemma remove_inactives_loop_spec g l m fuel :
  holds g l m → (length l < fuel)%nat → Z.of_nat (length l) < 2 ^ 31 →
  ∃ g' l', remove_inactives_loop Spooky fuel g = Ok g' ∧ holds g' l' (filter is_active m) ∧ (length l' <= length l)%nat.
Proof.
  revert g l m. induction fuel as [|fuel IH]; intros g l m H0 Hf Hlen; [lia|]. cbn [remove_inactives_loop].
  pose proof (h_repr _ _ _ H0) as (Hl & _).
  destruct (first_inactive_spec g l m (Z.to_nat (PtrArray.len (cred_array g))) 0 H0)
    as [[Hx Hall]|(p & a & Hx & Hp & Ha & Hact)]; [lia|lia| |];
    change (Z.of_nat 0) with 0 in Hx; rewrite Hx; cbn [mbind outcome_bind].
  - exists g, l. split_and!; try done. rewrite drop_0 in Hall. rewrite map_filter_id; [done|].
    intros h b Hb. destruct (holds_cases g l m h H0) as [[Hn _]|(p & a & Hma & _ & Ha & _ & Hp)]; [congruence|].
    rewrite Hb in Hma. injection Hma as ->. by apply (Hall p).
  - destruct (holds_obj g l m p H0 Hp) as (b & Hb & Hmb). rewrite Ha in Hb. injection Hb as <-.
    destruct (del_spec (username a) g l m H0 Hlen) as (g1 & l1 & -> & Hg1 & _ & Hs). cbn [mbind outcome_bind].
    assert (S (length l1) = length l) by (apply Hs; by eexists).
    destruct (IH g1 l1 (delete (hash (username a)) m) Hg1) as (g2 & l2 & -> & Hg2 & Hl2); [lia|lia|].
    exists g2, l2. rewrite (filter_active_delete m _ a Hmb Hact) in Hg2. split_and!; [done..|lia].
Qed.

Lemma remove_inactives_spec g l m :
  holds g l m → Z.of_nat (length l) < 2 ^ 31 →
  ∃ g' l', remove_inactives Spooky g = Ok g' ∧ holds g' l' (filter is_active m) ∧ (length l' <= length l)%nat.
Proof.
  intros H0 Hlen. pose proof (h_repr _ _ _ H0) as (Hl & _).
  apply (remove_inactives_loop_spec g l m); [done|lia|done].
Qed.

(** *** Reset *)
Lemma reset_map_spec g fuel :
  (∀ h p, bt_map g !! h = Some p → ∃ a, heap g !! p = Some a ∧ hash (username a) = h) →
  (∀ p a, heap g !! p = Some a → bt_map g !! hash (username a) = Some p) →
  (base.size (bt_map g) < fuel)%nat →
  reset_map fuel g = Ok (mk_group ∅ (cred_array g) ∅).
Proof.
  revert g. induction fuel as [|fuel IH]; intros g Hm Hh Hf; [lia|]. cbn [reset_map].
  destruct (in_key_order (bt_map g)) as [|[h p] r] eqn:E.
  - assert (Hb : bt_map g = ∅).
    { apply map_eq. intros h. rewrite lookup_empty. destruct (bt_map g !! h) as [p|] eqn:Hp; [|done].
      apply in_key_order_elem in Hp. rewrite E in Hp. by apply elem_of_nil in Hp. }
    assert (Hp : heap g = ∅).
    { apply map_eq. intros p. rewrite lookup_empty. destruct (heap g !! p) as [a|] eqn:Hp; [|done].
      apply Hh in Hp. rewrite Hb in Hp. by rewrite lookup_empty in Hp. }
    destruct g as [b c k]. cbn in *. by subst.
  - assert (Hp : bt_map g !! h = Some p) by (apply in_key_order_elem; rewrite E; by left).
    destruct (Hm h p Hp) as (a & Ha & Hha). unfold free. cbn [heap bt_map cred_array]. rewrite Ha.
    cbn [mbind outcome_bind]. rewrite IH; cbn [bt_map heap cred_array]; [done| | |].
    + intros h' q [Hne Hq]%lookup_delete_Some. destruct (Hm h' q Hq) as (b & Hb & Hhb). exists b.
      rewrite lookup_delete_ne; [done|]. intros <-. congruence.
    + intros q b [Hne Hq]%lookup_delete_Some. rewrite lookup_delete_ne; [by apply Hh|].
      intros He. apply Hh in Hq. rewrite <- He in Hq. congruence.
    + assert (base.size (bt_map g) = S (base.size (delete h (bt_map g)))); [|lia].
      rewrite <- (insert_delete_id (bt_map g) h p Hp) at 1. by rewrite map_size_insert_None by apply lookup_delete_eq.
Qed.

Lemma reset_array_spec (c : PtrArray.t positive) l fuel :
  PtrArray.repr c l → (length l < fuel)%nat → Z.of_nat (length l) < 2 ^ 31 →
  ∃ c', reset_array fuel c = Ok c' ∧ PtrArray.repr c' [].
Proof.
  revert c l. induction fuel as [|fuel IH]; intros c l Hr Hf Hlen; [lia|]. cbn [reset_array].
  pose proof Hr as (Hl & _). destruct (Z.eqb_spec (PtrArray.len c) 0) as [Hz|Hz].
  - exists c. split; [done|]. by destruct l; [|cbn in Hl; lia].
  - destruct (swap_remove_is_Some 0 l) as (x & l' & Hsw & _); [destruct l; cbn in *; lia|].
    destruct (PtrArray.remove_index_fast_repr c l 0 x l' Hr Hsw Hlen) as (c' & Hx & Hr').
    change (Z.of_nat 0) with 0 in Hx. rewrite Hx. cbn [mbind outcome_bind].
    pose proof (swap_remove_length _ _ _ _ Hsw). apply (IH c' l'); [done|lia|lia].
Qed.

Lemma reset_spec g l m :
  holds g l m → Z.of_nat (length l) < 2 ^ 31 → ∃ g', _reset g = Ok g' ∧ holds g' [] ∅.
Proof.
  intros H0 Hlen. pose proof (h_repr _ _ _ H0) as Hr. pose proof Hr as (Hl & _). unfold _reset.
  rewrite reset_map_spec; [|apply (h_map _ _ _ H0)|apply (h_hash _ _ _ H0)|lia]. cbn [mbind outcome_bind cred_array].
  destruct (reset_array_spec (cred_array g) l (S (Z.to_nat (PtrArray.len (cred_array g)))) Hr) as (c & -> & Hc);
    [lia|lia|]. cbn [mbind outcome_bind bt_map heap].
  eexists; split; [done|]. split; cbn; [done|constructor| | | |].
  - intros p. rewrite lookup_empty, elem_of_nil. split; [done|by intros []].
  - intros h p. by rewrite lookup_empty.
  - intros p a. by rewrite lookup_empty.
  - intros h. by rewrite !lookup_empty.
Qed.

(** *** The operations and what they do to a map of accounts *)
Inductive op :=
  | Add (t : usertype) (u : list Z) (s : settings)
  | Del (t : usertype) (u : list Z)
  | SetSHA1 (t : usertype) (u : list Z) (sha : option (list Z))
  | SetClear (t : usertype) (u : list Z) (pw : option (list Z))
  | Lookup (t : usertype) (u : list Z)
  | Exists (u : list Z)
  | Increase (u : list Z)
  | Decrease (u : list Z)
  | SetAllInactive (t : usertype)
  | RemoveInactives (t : usertype)
  | Reset (t : usertype).

Inductive result :=
  | Done
  | Bool (b : bool)
  | Found (f : option found)
  | Slots (ret : Z) (mc : option Z).

Definition target (o : op) : usertype :=
  match o with
  | Add t _ _ | Del t _ | SetSHA1 t _ _ | SetClear t _ _ | Lookup t _
  | SetAllInactive t | RemoveInactives t | Reset t => t
  | Exists _ | Increase _ | Decrease _ => USERNAME_FRONTEND
  end.

Definition group_exec (o : op) g : outcome (result * group) :=
  match o with
  | Add _ u s => g ← add Spooky u s g; Ok (Done, g)
  | Del _ u => '(b, g) ← del Spooky u g; Ok (Bool b, g)
  | SetSHA1 _ u sha => '(b, g) ← set_SHA1 Spooky u sha g; Ok (Bool b, g)
  | SetClear _ u pw => '(b, g) ← set_clear_text_password Spooky u pw g; Ok (Bool b, g)
  | Lookup _ u => f ← lookup Spooky u g; Ok (Found f, g)
  | Exists u => Ok (Bool (exists_user Spooky u g), g)
  | Increase u => '(r, mc, g) ← increase_frontend_user_connections Spooky u g; Ok (Slots r mc, g)
  | Decrease u => g ← decrease_frontend_user_connections Spooky u g; Ok (Done, g)
  | SetAllInactive _ => g ← set_all_inactive g; Ok (Done, g)
  | RemoveInactives _ => g ← remove_inactives Spooky g; Ok (Done, g)
  | Reset _ => g ← _reset g; Ok (Done, g)
  end.

Definition exec (o : op) (a : auth) : outcome (result * auth) :=
  '(r, g) ← group_exec o (creds (target o) a); Ok (r, set_creds (target o) g a).

(** The abstract type: a finite map from the hash of the name. *)
Definition spec_add (u : list Z) (s : settings) m : gmap Z account :=
  <[hash u := match m !! hash u with Some a => updated s a | None => new_account false false u s end]> m.

Definition spec_change {B} (u : list Z) (none : B) (f : account → B * account) m : B * gmap Z account :=
  match m !! hash u with
  | None => (none, m)
  | Some a => let '(b, a) := f a in (b, <[hash u := a]> m)
  end.

Definition take_slot (a : account) : result * account :=
  if num_connections_used a <? max_connections a
  then (Slots (max_connections a - num_connections_used a) (Some (max_connections a)),
        set_used (num_connections_used a + 1) a)
  else (Slots 0 (Some (max_connections a)), a).

Definition spec_op (o : op) m : result * gmap Z account :=
  match o with
  | Add _ u s => (Done, spec_add u s m)
  | Del _ u => (Bool (bool_decide (is_Some (m !! hash u))), delete (hash u) m)
  | SetSHA1 _ u sha => spec_change u (Bool false)
      (λ a, (Bool true, set_sha1 (take (Z.to_nat SHA_DIGEST_LENGTH) <$> sha) a)) m
  | SetClear _ u pw => spec_change u (Bool false) (λ a, (Bool true, set_clear pw a)) m
  | Lookup _ u => (Found (report <$> m !! hash u), m)
  | Exists u => (Bool (bool_decide (is_Some (m !! hash u))), m)
  | Increase u => spec_change u (Slots 0 None) take_slot m
  | Decrease u => spec_change u Done
      (λ a, (Done, if 0 <? num_connections_used a then set_used (num_connections_used a - 1) a else a)) m
  | SetAllInactive _ => (Done, set_active false <$> m)
  | RemoveInactives _ => (Done, filter is_active m)
  | Reset _ => (Done, ∅)
  end.

Lemma add_spec u s g l m :
  holds g l m → Z.of_nat (length l) < 2 ^ 31 →
  ∃ g' l', add Spooky u s g = Ok g' ∧ holds g' l' (spec_add u s m) ∧ (length l' <= S (length l))%nat.
Proof.
  intros H0 Hlen. unfold add, spec_add.
  destruct (find_spec u g l m H0) as [(Hm & Hb & ->)|(p & a & Hm & -> & Hb & Ha & Hh & Hp)];
    cbn [mbind outcome_bind]; rewrite Hm.
  - cbn [store bt_map cred_array heap].
    destruct (add_new_holds u g l m (new_account false false u s) H0 Hb eq_refl Hlen) as (c & -> & H').
    cbn [mbind outcome_bind]. eexists _, _. split_and!; [done|exact H'|]. rewrite length_app. cbn. lia.
  - eexists _, l. split_and!; [done| |lia]. rewrite <- Hh. by eapply store_holds.
Qed.

(** An operation that finds an account and changes it in place. *)
Lemma change_spec {B} u (none : B) f g l m :
  holds g l m → (∀ a, username (f a).2 = username a) →
  ∃ g', (r ← find Spooky u g;
         match r with
         | None => Ok (none, g)
         | Some (p, a) => Ok ((f a).1, store p (f a).2 g)
         end) = Ok ((spec_change u none f m).1, g') ∧ holds g' l (spec_change u none f m).2.
Proof.
  intros H0 Hu. unfold spec_change.
  destruct (find_spec u g l m H0) as [(Hm & Hb & ->)|(p & a & Hm & -> & Hb & Ha & Hh & Hp)];
    cbn [mbind outcome_bind]; rewrite Hm; [by exists g|].
  specialize (Hu a). destruct (f a) as [b a'] eqn:E. cbn [fst snd] in *. eexists. split; [done|].
  rewrite <- Hh. by eapply store_holds.
Qed.

Lemma store_same g l m p a : holds g l m → heap g !! p = Some a → store p a g = g.
Proof. intros _ Ha. destruct g as [b c h]. unfold store. cbn in *. by rewrite insert_id. Qed.

Lemma group_exec_spec o g l m :
  holds g l m → Z.of_nat (length l) < 2 ^ 31 →
  ∃ g' l', group_exec o g = Ok ((spec_op o m).1, g') ∧ holds g' l' (spec_op o m).2 ∧ (length l' <= S (length l))%nat.
Proof.
  intros H0 Hlen. destruct o as [t u s|t u|t u sha|t u pw|t u|u|u|u|t|t|t]; cbn [group_exec spec_op fst snd].
  - destruct (add_spec u s g l m H0 Hlen) as (g' & l' & -> & ? & ?). by exists g', l'.
  - destruct (del_spec u g l m H0 Hlen) as (g' & l' & -> & ? & ? & _). exists g', l'. split_and!; [done..|lia].
  - destruct (change_spec u (Bool false) (λ a, (Bool true, set_sha1 (take (Z.to_nat SHA_DIGEST_LENGTH) <$> sha) a))
      g l m H0) as (g' & Hx & H'); [done|]. exists g', l. split_and!; [|done|lia]. rewrite <- Hx. unfold set_SHA1.
    by destruct (find Spooky u g) as [[[p a]|]|].
  - destruct (change_spec u (Bool false) (λ a, (Bool true, set_clear pw a)) g l m H0) as (g' & Hx & H'); [done|].
    exists g', l. split_and!; [|done|lia]. rewrite <- Hx. unfold set_clear_text_password.
    by destruct (find Spooky u g) as [[[p a]|]|].
  - exists g, l. split_and!; [|done|lia]. unfold lookup.
    by destruct (find_spec u g l m H0) as [(-> & _ & ->)|(p & a & -> & -> & _)].
  - exists g, l. split_and!; [|done|lia]. unfold exists_user.
    destruct (find_spec u g l m H0) as [(-> & -> & _)|(p & a & -> & _ & -> & _)].
    + by rewrite bool_decide_false by (by intros []).
    + by rewrite bool_decide_true by (by eexists).
  - destruct (change_spec u (Slots 0 None) take_slot g l m H0) as (g' & Hx & H').
    { intros a. unfold take_slot. by case_test. }
    exists g', l. split_and!; [|done|lia]. rewrite <- Hx. unfold increase_frontend_user_connections.
    destruct (find_spec u g l m H0) as [(_ & _ & ->)|(p & a & _ & -> & _ & Ha & _)]; [done|].
    cbn [mbind outcome_bind]. unfold take_slot. case_test; [done|]. cbn. by rewrite (store_same g l m).
  - destruct (change_spec u Done (λ a, (Done, if 0 <? num_connections_used a
      then set_used (num_connections_used a - 1) a else a)) g l m H0) as (g' & Hx & H').
    { intros a. cbn. by case_test. }
    exists g', l. split_and!; [|done|lia]. rewrite <- Hx. unfold decrease_frontend_user_connections.
    destruct (find_spec u g l m H0) as [(_ & _ & ->)|(p & a & _ & -> & _ & Ha & _)]; [done|].
    cbn [mbind outcome_bind fst snd]. case_test; [done|]. by rewrite (store_same g l m).
  - destruct (set_all_inactive_spec g l m H0) as (g' & -> & H'). exists g', l. split_and!; [done|done|lia].
  - destruct (remove_inactives_spec g l m H0 Hlen) as (g' & l' & -> & H' & ?). exists g', l'. split_and!; [done|done|lia].
  - destruct (reset_spec g l m H0 Hlen) as (g' & -> & H'). exists g', []. split_and!; [done|done|cbn; lia].
Qed.

(** *** Histories *)
Record users := mk_users { u_backends : gmap Z account; u_frontends : gmap Z account }.
Definition no_users : users := mk_users ∅ ∅.
Definition users_of (t : usertype) (us : users) : gmap Z account :=
  match t with USERNAME_BACKEND => u_backends us | USERNAME_FRONTEND => u_frontends us end.
Definition set_users (t : usertype) m (us : users) : users :=
  match t with
  | USERNAME_BACKEND => mk_users m (u_frontends us)
  | USERNAME_FRONTEND => mk_users (u_backends us) m
  end.

Fixpoint exec_all (os : list op) (a : auth) : outcome (list result * auth) :=
  match os with
  | [] => Ok ([], a)
  | o :: os' => '(r, a) ← exec o a; '(rs, a) ← exec_all os' a; Ok (r :: rs, a)
  end.
Fixpoint spec_all (os : list op) (us : users) : list result * users :=
  match os with
  | [] => ([], us)
  | o :: os' => let '(r, m) := spec_op o (users_of (target o) us) in
                let '(rs, us) := spec_all os' (set_users (target o) m us) in (r :: rs, us)
  end.

(** Both groups hold their maps, in arrays of at most [n] accounts. *)
Definition stands_for (a : auth) (us : users) (n : nat) : Prop :=
  ∀ t, ∃ l, holds (creds t a) l (users_of t us) ∧ (length l <= n)%nat.

Lemma exec_all_stands os a us n :
  stands_for a us n → Z.of_nat (n + length os) < 2 ^ 31 →
  ∃ a', exec_all os a = Ok ((spec_all os us).1, a') ∧ stands_for a' (spec_all os us).2 (n + length os).
Proof.
  revert a us n. induction os as [|o os IH]; intros a us n Hs Hn; cbn [exec_all spec_all].
  { exists a. rewrite Nat.add_0_r. done. }
  destruct (Hs (target o)) as (l & Hl & Hln). cbn [length] in Hn.
  destruct (group_exec_spec o (creds (target o) a) l (users_of (target o) us) Hl) as (g' & l' & Hx & Hl' & Hln');
    [lia|].
  unfold exec. rewrite Hx. cbn [mbind outcome_bind]. destruct (spec_op o (users_of (target o) us)) as [r m] eqn:E.
  cbn [fst snd] in *.
  destruct (IH (set_creds (target o) g' a) (set_users (target o) m us) (S n)) as (a' & Hx' & Hs').
  - intros t. destruct (decide (t = target o)) as [->|Hne].
    + exists l'. replace (creds (target o) (set_creds (target o) g' a)) with g' by (by destruct (target o)).
      replace (users_of (target o) (set_users (target o) m us)) with m by (by destruct (target o)). split; [done|lia].
    + destruct (Hs t) as (l1 & Hl1 & Hln1). exists l1. split; [|lia].
      by destruct (target o), t.
  - lia.
  - rewrite Hx'. cbn [mbind outcome_bind]. destruct (spec_all os (set_users (target o) m us)) as [rs us'].
    cbn [fst snd] in *. exists a'. split; [done|]. cbn [length]. by rewrite Nat.add_succ_r.
Qed.

Lemma create_stands : ∃ a, create = Ok a ∧ stands_for a no_users 0.
Proof.
  destruct empty_holds as (g & Hg & Hh). unfold create. rewrite Hg. cbn [mbind outcome_bind].
  eexists. split; [done|]. intros t. exists []. destruct t; done.
Qed.

(** C31: any history of operations on the credentials, from their creation on,
    runs without touching freed or unwritten memory and without an endless
    restart of the removal loop, and returns what the same operations return on
    two finite maps from the hash of the name to the account: additions,
    changes, deletions, look-ups, connection counts, activity marks and resets
    included. *)
Theorem history_refines_users os :
  Z.of_nat (length os) < 2 ^ 31 →
  ∃ a0 a, create = Ok a0 ∧ exec_all os a0 = Ok ((spec_all os no_users).1, a) ∧
    stands_for a (spec_all os no_users).2 (length os).
Proof.
  intros Hn. destruct create_stands as (a0 & Hc & Hs).
  destruct (exec_all_stands os a0 no_users 0 Hs) as (a & Hx & Ha); [cbn; lia|].
  by exists a0, a.
Qed.

(** ** Reloading the users ([ProxySQL_Admin::__refresh_users])

    Every account is marked, the configured ones are added, and what is still
    marked is removed. *)
Fixpoint add_all (us : list (list Z * settings)) g : outcome group :=
  match us with
  | [] => Ok g
  | (u, s) :: r => g ← add Spooky u s g; add_all r g
  end.
Definition refresh (us : list (list Z * settings)) g : outcome group :=
  g ← set_all_inactive g; g ← add_all us g; remove_inactives Spooky g.

Lemma add_all_spec us g l m :
  holds g l m → Z.of_nat (length l + length us) < 2 ^ 31 → NoDup ((λ us, hash us.1) <$> us) →
  ∃ g' l' m', add_all us g = Ok g' ∧ holds g' l' m' ∧ (length l' <= length l + length us)%nat ∧
    (∀ u s, (u, s) ∈ us → m' !! hash u =
       Some (match m !! hash u with Some a => updated s a | None => new_account false false u s end)) ∧
    (∀ h, (h ∉ (λ us, hash us.1) <$> us) → m' !! h = m !! h).
Proof.
  revert g l m. induction us as [|[u s] us IH]; intros g l m H0 Hlen Hnd; cbn [add_all].
  { exists g, l, m. split_and!; try done; [lia|]. by intros ?? ?%elem_of_nil. }
  cbn [length fmap list_fmap fst] in *. apply NoDup_cons in Hnd as [Hu Hnd].
  destruct (add_spec u s g l m H0) as (g1 & l1 & -> & Hg1 & Hl1); [lia|]. cbn [mbind outcome_bind].
  destruct (IH g1 l1 _ Hg1) as (g2 & l2 & m2 & -> & Hg2 & Hl2 & Hin & Hout); [lia|done|].
  exists g2, l2, m2. split_and!; [done..|lia| |].
  - intros u' s' [[= -> ->]|Hus]%elem_of_cons.
    + rewrite Hout by done. unfold spec_add. by rewrite lookup_insert_eq.
    + rewrite (Hin u' s' Hus). unfold spec_add. rewrite lookup_insert_ne; [done|].
      intros He. apply Hu. rewrite He. apply list_elem_of_fmap. by exists (u', s').
  - intros h [Hh Hh']%not_elem_of_cons. rewrite Hout by done. unfold spec_add. by rewrite lookup_insert_ne.
Qed.

Lemma configured_active s a : __active (updated s a) = true.
Proof. done. Qed.

(** after a reload the group has exactly the configured users: a user it
    already knew takes the new settings and keeps its open connections (and the
    derived password forms, when the password is the same); a new user starts
    from scratch; every other account is gone. *)
Theorem refresh_exact us g l m :
  holds g l m → Z.of_nat (length l + length us) < 2 ^ 31 → NoDup ((λ us, hash us.1) <$> us) →
  ∃ g' l' m', refresh us g = Ok g' ∧ holds g' l' m' ∧
    (∀ u s, (u, s) ∈ us → m' !! hash u =
       Some (match m !! hash u with
             | Some a => updated s (set_active false a)
             | None => new_account false false u s end)) ∧
    (∀ u s a, (u, s) ∈ us → m !! hash u = Some a → ∃ b, m' !! hash u = Some b ∧
       password b = s_password s ∧ num_connections_used b = num_connections_used a ∧
       (s_password s = password a → sha1_pass b = sha1_pass a ∧ clear_text_password b = clear_text_password a)) ∧
    (∀ h, (h ∉ (λ us, hash us.1) <$> us) → m' !! h = None).
Proof.
  intros H0 Hlen Hnd. unfold refresh.
  destruct (set_all_inactive_spec g l m H0) as (g1 & -> & Hg1). cbn [mbind outcome_bind].
  destruct (add_all_spec us g1 l _ Hg1 Hlen Hnd) as (g2 & l2 & m2 & -> & Hg2 & Hl2 & Hin & Hout).
  cbn [mbind outcome_bind].
  destruct (remove_inactives_spec g2 l2 m2 Hg2) as (g3 & l3 & -> & Hg3 & _); [lia|].
  assert (Hset : ∀ u s, (u, s) ∈ us → filter is_active m2 !! hash u = Some
    (match m !! hash u with Some a => updated s (set_active false a) | None => new_account false false u s end)).
  { intros u s Hus. apply map_lookup_filter_Some. rewrite (Hin u s Hus), lookup_fmap.
    destruct (m !! hash u); by split. }
  exists g3, l3, (filter is_active m2). split_and!; [done|done|exact Hset| |].
  - intros u s a Hus Ha. specialize (Hset u s Hus). rewrite Ha in Hset. eexists. split; [exact Hset|].
    unfold updated. cbn. split_and!; [done|done|]. intros ->. by rewrite bool_decide_true.
  - intros h Hh. apply map_lookup_filter_None. right. intros a Ha. rewrite Hout, lookup_fmap in Ha by done.
    destruct (m !! h); [|done]. injection Ha as <-. done.
Qed.

(** ** Checksums across nodes *)
Definition bit (b : bool) : list Z := if b then [49] else [48].
(** The row of an entry of the complete dump, in the order of the query. *)
Definition to_row (a : account) : row :=
  Some <$> [username a; password a; bit (use_ssl a); sdec (default_hostgroup a); default_schema a;
   bit (schema_locked a); bit (transaction_persistent a); bit (fast_forward a); bit (__backend a);
   bit (__frontend a); sdec (max_connections a); attributes a; comment a].
Definition int_fields (a : account) : Prop :=
  - 2 ^ 31 <= default_hostgroup a < 2 ^ 31 ∧ - 2 ^ 31 <= max_connections a < 2 ^ 31.

(** What a row keeps of an account. *)
Definition row_account (a : account) : account :=
  mk_account (username a) (password a) None None (default_schema a) (default_hostgroup a) (use_ssl a)
    (schema_locked a) (transaction_persistent a) (fast_forward a) (max_connections a) 0
    (__frontend a) (__backend a) true (attributes a) (comment a).

Lemma flag_bit b i a : to_row a !! i = Some (Some (bit b)) → flag i (to_row a) = Ok b.
Proof. intros Hi. unfold flag, text, cell. rewrite Hi. by destruct b. Qed.

Lemma create_of_row a : int_fields a → create_account_details (to_row a) = Ok (row_account a).
Proof.
  intros [Hh Hm]. unfold create_account_details.
  rewrite (flag_bit (use_ssl a) 2), (flag_bit (schema_locked a) 5), (flag_bit (transaction_persistent a) 6),
    (flag_bit (fast_forward a) 7), (flag_bit (__backend a) 8), (flag_bit (__frontend a) 9) by done.
  cbn. by rewrite !atoi_sdec.
Qed.

Definition insert_row (m : gmap Z account) (a : account) : gmap Z account :=
  umap_insert (hash (username a)) (row_account a) m.

Lemma extract_loop_spec accs b f :
  Forall int_fields accs →
  extract_loop Spooky (to_row <$> accs) b f =
  Ok (foldl insert_row b (filter (λ a, __backend a = true) accs),
      foldl insert_row f (filter (λ a, __frontend a = true) accs)).
Proof.
  revert b f. induction accs as [|a accs IH]; intros b f Hi; [done|]. apply Forall_cons in Hi as [Ha Hi].
  cbn [fmap list_fmap extract_loop]. rewrite (flag_bit (__backend a) 8), (flag_bit (__frontend a) 9), create_of_row by done.
  change (text 0 (to_row a)) with (Ok (username a)). cbn [mbind outcome_bind]. rewrite !filter_cons.
  destruct (__backend a) eqn:Hb, (__frontend a) eqn:Hf; cbn [mbind outcome_bind];
    rewrite IH by done; repeat first [rewrite decide_True by done|rewrite decide_False by done]; done.
Qed.

Lemma foldl_insert accs m h y :
  NoDup ((λ a, hash (username a)) <$> accs) → (∀ a, a ∈ accs → m !! hash (username a) = None) →
  foldl insert_row m accs !! h = Some y ↔
  m !! h = Some y ∨ ∃ a, a ∈ accs ∧ hash (username a) = h ∧ row_account a = y.
Proof.
  revert m. induction accs as [|a accs IH]; intros m Hnd Hm; cbn [foldl].
  { split; [by left|]. intros [?|(a & Ha & _)]; [done|]. by apply elem_of_nil in Ha. }
  cbn [fmap list_fmap] in Hnd. apply NoDup_cons in Hnd as [Ha Hnd].
  assert (Hi : insert_row m a = <[hash (username a) := row_account a]> m).
  { unfold insert_row, umap_insert. by rewrite Hm by (by left). }
  rewrite Hi, IH; [|done|].
  - rewrite lookup_insert_Some. pose proof (Hm a ltac:(by left)) as Hma. split.
    + intros [[[? ?]|[? ?]]|(b & Hb & ? & ?)]; [right; exists a; split; [by left|done]|by left|].
      right. exists b. split; [by right|done].
    + intros [Hs|(b & [->|Hb]%elem_of_cons & <- & <-)]; [|by left; left|right; by exists b].
      left. right. split; [|done]. intros <-. congruence.
  - intros b Hb. rewrite lookup_insert_ne; [apply Hm; by right|]. intros He. apply Ha. rewrite He.
    apply list_elem_of_fmap. by exists b.
Qed.

Lemma hash_loop_fmap (f : account → account) accs b acc :
  (∀ a, updates (f a) = updates a) → (∀ a, default_hostgroup (f a) = default_hostgroup a) →
  hash_loop (f <$> accs) b acc = hash_loop accs b acc.
Proof.
  intros Hu Hh. revert b acc. induction accs as [|a accs IH]; intros b acc; [done|].
  cbn [fmap list_fmap hash_loop]. rewrite Hh, Hu. by rewrite !IH.
Qed.

Lemma compute_fmap (f : account → account) accs :
  (∀ a, updates (f a) = updates a) → (∀ a, default_hostgroup (f a) = default_hostgroup a) →
  compute_accounts_hash Spooky (f <$> accs) = compute_accounts_hash Spooky accs.
Proof.
  intros Hu Hh. destruct accs as [|a accs]; [done|]. unfold compute_accounts_hash.
  by rewrite <- (hash_loop_fmap f (a :: accs)).
Qed.

Lemma deref_all_spec ps g :
  (∀ p, p ∈ ps → is_Some (heap g !! p)) → deref_all ps g = Ok (omap (λ p, heap g !! p) ps).
Proof.
  induction ps as [|p ps IH]; intros Hp; [done|]. cbn [deref_all omap list_omap]. unfold deref.
  destruct (Hp p) as [a Ha]; [by left|]. rewrite Ha. cbn [mbind outcome_bind].
  rewrite IH; [done|]. intros q Hq. apply Hp. by right.
Qed.

Lemma group_checksum_spec g l m :
  holds g l m → _get_runtime_checksum Spooky g = Ok (compute_accounts_hash Spooky (in_key_order m).*2).
Proof.
  intros H0. unfold _get_runtime_checksum. rewrite deref_all_spec.
  - cbn [mbind outcome_bind]. do 2 f_equal.
    apply (in_key_order_fmap (λ p, heap g !! p)); [apply (h_lookup _ _ _ H0)|].
    intros h p Hp. destruct (h_map _ _ _ H0 h p Hp) as (a & Ha & _). by exists a.
  - intros p ([h q] & -> & Hq)%list_elem_of_fmap. apply in_key_order_elem in Hq. cbn.
    destruct (h_map _ _ _ H0 h q Hq) as (a & Ha & _). by exists a.
Qed.

(** The map built from the rows of one group. *)
Lemma rows_map g l m fe accs :
  holds g l m → accs ≡ₚ dump_full fe <$> objects g l →
  foldl insert_row ∅ accs = (λ a, row_account (dump_full fe a)) <$> m.
Proof.
  intros H0 Hp.
  assert (Hkeys : (λ a, hash (username a)) <$> (dump_full fe <$> objects g l) = (λ a, hash (username a)) <$> objects g l).
  { rewrite <- list_fmap_compose. done. }
  assert (Hnd : NoDup ((λ a, hash (username a)) <$> accs)).
  { rewrite Hp, Hkeys. apply NoDup_fmap_2_strong; [|exact (objects_nodup g l m H0)].
    intros a b Ha Hb He. apply (objects_elem g l m _ H0) in Ha, Hb. congruence. }
  apply map_eq. intros h. apply option_eq. intros y. rewrite foldl_insert; [|done|intros; apply lookup_empty].
  rewrite lookup_empty, lookup_fmap, fmap_Some. split.
  - intros [[=]|(a & Ha & <- & <-)]. rewrite Hp in Ha. apply list_elem_of_fmap in Ha as (b & -> & Hb).
    apply (objects_elem g l m _ H0) in Hb. by exists b.
  - intros (a & Ha & ->). right. exists (dump_full fe a). rewrite Hp. split_and!; [|by destruct (holds_cases g l m h H0) as [[? _]|(? & ? & ? & _ & _ & ? & _)]; cbn; congruence|done].
    apply list_elem_of_fmap. exists a. split; [done|]. apply (objects_elem g l m _ H0).
    destruct (holds_cases g l m h H0) as [[? _]|(? & ? & ? & _ & _ & ? & _)]; congruence.
Qed.

(** One side of the rows, as a map and as a checksum. *)
Lemma rows_side g l m fe accs :
  holds g l m → accs ≡ₚ dump_full fe <$> objects g l →
  Ok (compute_accounts_hash Spooky (in_key_order (foldl insert_row ∅ accs)).*2) = _get_runtime_checksum Spooky g.
Proof.
  intros H0 Hp. rewrite (group_checksum_spec g l m H0), (rows_map g l m fe accs H0 Hp). f_equal.
  rewrite <- (in_key_order_fmap (λ a, Some (row_account (dump_full fe a))) m).
  - rewrite <- (compute_fmap (λ a, row_account (dump_full fe a)) (in_key_order m).*2) by done.
    done.
  - intros h. rewrite lookup_fmap. by destruct (m !! h).
  - intros h a _. by eexists.
Qed.

Lemma filter_side (P : account → Prop) `{!∀ x, Decision (P x)} fe g l :
  (∀ a, P (dump_full fe a)) → filter P (dump_full fe <$> objects g l) = dump_full fe <$> objects g l.
Proof.
  intros HP. induction (objects g l) as [|a r IH]; [done|]. cbn [fmap list_fmap].
  by rewrite filter_cons_True, IH by apply HP.
Qed.

Lemma filter_other_side (P : account → Prop) `{!∀ x, Decision (P x)} fe g l :
  (∀ a, ¬ P (dump_full fe a)) → filter P (dump_full fe <$> objects g l) = [].
Proof.
  intros HP. induction (objects g l) as [|a r IH]; [done|]. cbn [fmap list_fmap].
  by rewrite filter_cons_False, IH by apply HP.
Qed.

Lemma omap_complete fe (accs : list account) :
  omap d_complete (dump_entry fe true <$> accs) = dump_full fe <$> accs.
Proof. induction accs as [|a accs IH]; [done|]. cbn [fmap list_fmap omap list_omap dump_entry d_complete]. by rewrite IH. Qed.

(** the complete dump lists every account of both groups exactly once,
    and a node that receives its rows, in whatever order, computes the checksum
    the dumping node has, so two nodes with the same users agree. *)
Theorem dump_checksum_agrees a us n :
  stands_for a us n → (∀ t h x, users_of t us !! h = Some x → int_fields x) →
  ∃ ds, dump_all_users true a = Ok ds ∧
    ds ≡ₚ (dump_entry true true <$> (map_to_list (u_frontends us)).*2)
          ++ (dump_entry false true <$> (map_to_list (u_backends us)).*2) ∧
    ∀ rows, rows ≡ₚ to_row <$> omap d_complete ds →
      get_runtime_checksum_of Spooky rows = get_runtime_checksum Spooky a.
Proof.
  intros Hs Hi. destruct (Hs USERNAME_BACKEND) as (lb & Hb & _). destruct (Hs USERNAME_FRONTEND) as (lf & Hf & _).
  cbn [creds users_of] in *. unfold dump_all_users.
  rewrite (for_all_users_spec _ _ _ _ Hf), (for_all_users_spec _ _ _ _ Hb). cbn [mbind outcome_bind].
  set (F := objects (creds_frontends a) lf) in *. set (B := objects (creds_backends a) lb) in *.
  exists ((dump_entry true true <$> F) ++ (dump_entry false true <$> B)). split_and!; [done| |].
  { unfold F, B. by rewrite (objects_perm _ _ _ Hf), (objects_perm _ _ _ Hb). }
  intros rows Hr. rewrite omap_app, !omap_complete in Hr.
  apply Permutation_map_inv in Hr as (accs & -> & Hp). symmetry in Hp.
  unfold get_runtime_checksum_of, extract_accounts_details.
  change (map to_row accs) with (to_row <$> accs). rewrite extract_loop_spec.
  2: { rewrite Hp. apply Forall_app. split; apply Forall_fmap, Forall_forall; intros x Hx.
       - apply (objects_elem _ _ _ _ Hf) in Hx. exact (Hi USERNAME_FRONTEND _ x Hx).
       - apply (objects_elem _ _ _ _ Hb) in Hx. exact (Hi USERNAME_BACKEND _ x Hx). }
  cbn [mbind outcome_bind]. unfold get_runtime_checksum.
  rewrite <- (rows_side _ _ _ false (filter (λ a, __backend a = true) accs) Hb),
    <- (rows_side _ _ _ true (filter (λ a, __frontend a = true) accs) Hf); [done| |].
  - rewrite Hp, filter_app. unfold F, B.
    rewrite (filter_side _ true), (filter_other_side _ false) by (intros; cbn; done). by rewrite app_nil_r.
  - rewrite Hp, filter_app. unfold F, B.
    rewrite (filter_other_side _ true), (filter_side _ false) by (intros; cbn; done). done.
Qed.

(** the attributes of a new user are stored as they are, whatever
    isolation level they name, and adding the user again with them changes
    nothing; only attributes that differ, in more than the case of the letters,
    from the stored ones go through the validation. *)
Theorem first_attributes_unchecked u s g l m v :
  holds g l m → Z.of_nat (length l) < 2 ^ 31 → m !! hash u = None →
  s_attributes s ≠ [] → json_parse (s_attributes s) = Some v →
  ∃ g1 l1 m1, add Spooky u s g = Ok g1 ∧ holds g1 l1 m1 ∧
    (attributes <$> m1 !! hash u) = Some (s_attributes s) ∧
    (Z.of_nat (length l1) < 2 ^ 31 → ∀ s', ∃ g2 l2 m2, add Spooky u s' g1 = Ok g2 ∧ holds g2 l2 m2 ∧
       (attributes <$> m2 !! hash u) = Some
         (if strcasecmp_eq (s_attributes s) (s_attributes s') then s_attributes s else validated (s_attributes s'))).
Proof.
  intros H0 Hlen Hm Hne Hv. destruct (add_spec u s g l m H0 Hlen) as (g1 & l1 & Hx & H1 & _).
  exists g1, l1, (spec_add u s m). split_and!; [done|done| |].
  - unfold spec_add. rewrite lookup_insert_eq, Hm. cbn. unfold parsed. rewrite Hv. by destruct (s_attributes s).
  - intros Hl1 s'. destruct (add_spec u s' g1 l1 _ H1 Hl1) as (g2 & l2 & Hx2 & H2 & _).
    exists g2, l2, (spec_add u s' (spec_add u s m)). split_and!; [done|done|].
    unfold spec_add at 1. rewrite lookup_insert_eq. unfold spec_add. rewrite lookup_insert_eq, Hm. cbn.
    unfold parsed. rewrite Hv. by destruct (s_attributes s).
Qed.
End proofs.

(** ** Runs on concrete inputs *)
Definition toy_spooky (s1 s2 : Z) (us : list (list Z)) : Z :=
  foldr (λ u h, foldr (λ c n, (c + 131 * n) mod 2 ^ 64) h u) (s1 + 7 * s2) us.
(** Texts stand for themselves, and for the isolation level they name. *)
#[local] Instance toy_json : Json := {|
  json := list Z;
  json_parse := Some;
  json_find _ v := Some v;
  json_get_string := Some;
  json_set_string _ s _ := s;
  json_erase _ _ := [123; 125];
  json_dump := Some
|}.
Definition alice : list Z := str "alice".
Definition bob : list Z := str "bob".
Definition conf (pw attrs : list Z) : settings := mk_settings pw false 1 [] false true false 10 attrs [].
Definition toy_history : list op :=
  [Add USERNAME_FRONTEND alice (conf [1] []); Add USERNAME_FRONTEND bob (conf [2] []); Increase alice;
   SetClear USERNAME_FRONTEND alice (Some [9]); Lookup USERNAME_FRONTEND alice; SetAllInactive USERNAME_FRONTEND;
   Add USERNAME_FRONTEND alice (conf [1] []); RemoveInactives USERNAME_FRONTEND; Exists bob; Increase alice;
   Del USERNAME_BACKEND alice].

Example toy_history_results :
  (a ← create; exec_all toy_spooky toy_history a) ≫= (λ '(rs, _), Ok (drop 8 rs)) =
  Ok [Bool false; Slots 9 (Some 10); Bool false].
Proof. vm_compute. reflexivity. Qed.

Lemma history_refines_users_witness :
  ∃ a0 a, create = Ok a0 ∧
    exec_all toy_spooky toy_history a0 = Ok ((spec_all toy_spooky toy_history no_users).1, a) ∧
    stands_for toy_spooky a (spec_all toy_spooky toy_history no_users).2 (length toy_history).
Proof. apply history_refines_users. vm_compute. reflexivity. Defined.

(** One user, alice, is known. *)
Definition toy_group : group :=
  match (g ← empty_group; add toy_spooky alice (conf [1] []) g) with Ok g => g | Fault _ => mk_group ∅ (PtrArray.mk 0 0 []) ∅ end.
Lemma toy_group_holds : ∃ (l : list positive) (m : gmap Z account), holds toy_spooky toy_group l m ∧ length l = 1%nat ∧ is_Some (m !! user_hash toy_spooky alice).
Proof.
  destruct (empty_holds toy_spooky) as (g0 & Hg & Hh).
  destruct (add_new_holds toy_spooky alice g0 [] ∅ (new_account false false alice (conf [1] [])) Hh)
    as (c & Hadd & H'); [|done|vm_compute; reflexivity|].
  { unfold empty_group in Hg. cbn in Hg. injection Hg as <-. done. }
  unfold toy_group. rewrite Hg. cbn [mbind outcome_bind]. unfold add, find.
  unfold empty_group in Hg. cbn in Hg. injection Hg as <-. cbn [bt_map]. rewrite lookup_empty.
  cbn [mbind outcome_bind store bt_map cred_array heap] in *. rewrite Hadd. cbn [mbind outcome_bind].
  eexists _, _. split_and!; [exact H'|done|]. rewrite lookup_insert_eq. by eexists.
Qed.

Lemma refresh_exact_witness :
  ∃ (l : list positive) (m : gmap Z account), is_Some (m !! user_hash toy_spooky alice) ∧
  ∃ g' l' (m' : gmap Z account), refresh toy_spooky [(alice, conf [3] []); (bob, conf [2] [])] toy_group = Ok g' ∧ holds toy_spooky g' l' m' ∧
    (∀ u s, (u, s) ∈ [(alice, conf [3] []); (bob, conf [2] [])] → m' !! user_hash toy_spooky u =
       Some (match m !! user_hash toy_spooky u with
             | Some a => updated s (set_active false a)
             | None => new_account false false u s end)) ∧
    (∀ u s a, (u, s) ∈ [(alice, conf [3] []); (bob, conf [2] [])] → m !! user_hash toy_spooky u = Some a →
       ∃ b, m' !! user_hash toy_spooky u = Some b ∧
       password b = s_password s ∧ num_connections_used b = num_connections_used a ∧
       (s_password s = password a → sha1_pass b = sha1_pass a ∧ clear_text_password b = clear_text_password a)) ∧
    (∀ h, (h ∉ (λ us : list Z * settings, user_hash toy_spooky us.1) <$> [(alice, conf [3] []); (bob, conf [2] [])]) → m' !! h = None).
Proof.
  destruct toy_group_holds as (l & m & Hh & Hl & Hm). exists l, m. split; [exact Hm|].
  apply (refresh_exact toy_spooky _ toy_group l m Hh).
  - rewrite Hl. vm_compute. reflexivity.
  - apply (bool_decide_unpack _). vm_compute. exact I.
Defined.

Lemma first_attributes_unchecked_witness :
  ∃ (l : list positive) (m : gmap Z account), let s := conf [1] (str "READ-COMMITTED") in
  ∃ g1 l1 (m1 : gmap Z account), add toy_spooky bob s toy_group = Ok g1 ∧ holds toy_spooky g1 l1 m1 ∧ holds toy_spooky toy_group l m ∧
    (attributes <$> m1 !! user_hash toy_spooky bob) = Some (str "READ-COMMITTED") ∧
    validated (str "READ-COMMITTED") = str "READ COMMITTED".
Proof.
  destruct (empty_holds toy_spooky) as (g0 & Hg & Hh).
  destruct toy_group_holds as (l & m & Hh' & Hl & Hm). exists l, m. intros s.
  destruct (first_attributes_unchecked toy_spooky (HJ := toy_json) bob s toy_group l m (str "READ-COMMITTED") Hh')
    as (g1 & l1 & m1 & Hx & H1 & Ha & _).
  - rewrite Hl. reflexivity.
  - destruct (holds_cases toy_spooky toy_group l m (user_hash toy_spooky bob) Hh') as [[? _]|(p & a & _ & Hb & _)]; [done|].
    exfalso. vm_compute in Hb. discriminate Hb.
  - done.
  - reflexivity.
  - exists g1, l1, m1. split; [exact Hx|]. split; [exact H1|]. split; [exact Hh'|]. split; [exact Ha|]. vm_compute. reflexivity.
Defined.

(** The state after the history. *)
Definition toy_auth : auth :=
  match (a ← create; exec_all toy_spooky toy_history a) with
  | Ok (_, a) => a
  | Fault _ => mk_auth (mk_group ∅ (PtrArray.mk 0 0 []) ∅) (mk_group ∅ (PtrArray.mk 0 0 []) ∅)
  end.
Lemma toy_auth_stands :
  stands_for toy_spooky toy_auth (spec_all toy_spooky toy_history no_users).2 (length toy_history).
Proof.
  destruct (create_stands toy_spooky) as (a0 & Hc & Hs).
  destruct (exec_all_stands toy_spooky toy_history a0 no_users 0 Hs) as (a & Hx & Ha); [vm_compute; reflexivity|].
  unfold toy_auth. rewrite Hc. cbn [mbind outcome_bind]. rewrite Hx. exact Ha.
Qed.

Lemma dump_checksum_agrees_witness :
  let us := (spec_all toy_spooky toy_history no_users).2 in
  ∃ ds, dump_all_users true toy_auth = Ok ds ∧
    ds ≡ₚ (dump_entry true true <$> (map_to_list (u_frontends us)).*2)
          ++ (dump_entry false true <$> (map_to_list (u_backends us)).*2) ∧
    ∀ rows, rows ≡ₚ to_row <$> omap d_complete ds →
      get_runtime_checksum_of toy_spooky rows = get_runtime_checksum toy_spooky toy_auth.
Proof.
  apply (dump_checksum_agrees toy_spooky toy_auth _ _ toy_auth_stands).
  assert (Hall : ∀ t, map_Forall (λ _ a, int_fields a) (users_of t (spec_all toy_spooky toy_history no_users).2)).
  { intros t. unfold int_fields. destruct t; apply (bool_decide_unpack _); vm_compute; exact I. }
  intros t h x. apply (Hall t).
Defined.
