(* ===== verification/ResultSet.v ===== *)
(** * Resultsets in the query cache (lib/Query_Cache.cpp)

    A cached resultset is the byte image of its packets, as one kind of client
    receives them: with EOF packets, or with a final OK packet
    (CLIENT_DEPRECATE_EOF).  [scan_resultset] is what [Query_Cache::set]
    computes before storing it, [eof_to_ok_packet] and [ok_to_eof_packet] the
    conversions [Query_Cache::get] applies for the other kind of client. *)
From S2P Require Import Prelude Encode.
Import LenEnc.

(** ** Memory *)

(** [memcpy] of [n] bytes from offset [off] of a block. *)
Definition rd (n off : Z) (b : list Z) : outcome (list Z) :=
  if (off <? 0) || (n <? 0) then Fault OutOfBounds else read_bytes (Z.to_nat n) (drop (Z.to_nat off) b).

(** Sequential writes into a block of [cap] bytes: [out] is what was written. *)
Definition put (cap : Z) (bs out : list Z) : outcome (list Z) :=
  if Z.of_nat (length out + length bs) <=? cap then Ok (out ++ bs) else Fault OutOfBounds.

(** [memcpy] over bytes that are already written. *)
Definition patch (off : Z) (bs b : list Z) : outcome (list Z) :=
  if (off <? 0) || (Z.of_nat (length b) <? off + Z.of_nat (length bs)) then Fault OutOfBounds
  else Ok (take (Z.to_nat off) b ++ bs ++ drop (Z.to_nat off + length bs) b).

(** ** Packet headers *)
Record mysql_hdr := mk_hdr { pkt_length : Z; pkt_id : Z }.
Definition sizeof_hdr : Z := 4.
Definition read_hdr (off : Z) (b : list Z) : outcome mysql_hdr :=
  bs ← rd 4 off b; Ok (mk_hdr (le_value (take 3 bs)) (le_value (drop 3 bs))).
Definition hdr_bytes (h : mysql_hdr) : list Z := le_bytes 3 (pkt_length h) ++ [u8 (pkt_id h)].

(** The loop over the column definitions: the position after them and the last
    header read, unset when there is no column. *)
Fixpoint skip_columns (n : nat) (it : Z) (last : option mysql_hdr) (b : list Z) : outcome (Z * option mysql_hdr) :=
  match n with
  | O => Ok (it, last)
  | S n' => h ← read_hdr it b; skip_columns n' (it + sizeof_hdr + pkt_length h) (Some h) b
  end.

(** The position of the first column definition and their number. *)
Definition column_count (b : list Z) : outcome (Z * Z) :=
  '(w, v) ← mysql_decode_length (drop (Z.to_nat sizeof_hdr) b) true;
  Ok (sizeof_hdr + w, default 0 v).

(** ** What [set] finds in a resultset *)
Record offsets := mk_offsets {
  column_eof_pkt_offset : Z;
  row_eof_pkt_offset : Z;
  ok_pkt_offset : Z
}.

Definition is_final (h : mysql_hdr) (payload0 : Z) : bool := (pkt_length h <? 9) && (payload0 =? 254).

Fixpoint find_final (fuel : nat) (it : Z) (b : list Z) : outcome Z :=
  match fuel with
  | O => Fault Diverges
  | S fuel' =>
      h ← read_hdr it b;
      c ← (if pkt_length h <? 9 then read_at b (it + sizeof_hdr) else Ok 0);
      if is_final h c then Ok it else find_final fuel' (it + sizeof_hdr + pkt_length h) b
  end.

Definition scan_resultset (deprecate_eof_active : bool) (vp : list Z) : outcome (offsets * list Z) :=
  '(it, c_count) ← column_count vp;
  '(it, _) ← skip_columns (Z.to_nat c_count) it None vp;
  '(column_eof, it) ← (if deprecate_eof_active then Ok (0, it)
                       else h ← read_hdr it vp; Ok (it, it + sizeof_hdr + pkt_length h));
  it ← find_final (S (length vp)) it vp;
  let payload := it + sizeof_hdr in
  if deprecate_eof_active then
    let p := payload + 1 in
    '(w1, _) ← mysql_decode_length (drop (Z.to_nat p) vp) false;
    '(w2, _) ← mysql_decode_length (drop (Z.to_nat (p + w1)) vp) false;
    vp ← patch (p + w1 + w2 + 2) [0; 0] vp;
    Ok (mk_offsets column_eof 0 it, vp)
  else
    vp ← patch (payload + 1) [0; 0] vp;
    Ok (mk_offsets column_eof it 0, vp).

(** ** The conversions *)
Definition eof_to_ok_dif : Z := - (sizeof_hdr + 5) + 2.
Definition ok_to_eof_dif : Z := (sizeof_hdr + 5) - 2.

Fixpoint decrement_ids (fuel : nat) (dp vp : Z) (out : list Z) : outcome (list Z) :=
  match fuel with
  | O => Fault Diverges
  | S fuel' =>
      h ← read_hdr dp out;
      out ← patch dp (hdr_bytes (mk_hdr (pkt_length h) (u8 (pkt_id h - 1)))) out;
      let dp := dp + sizeof_hdr + pkt_length h in
      if vp <=? dp then Ok out else decrement_ids fuel' dp vp out
  end.

Definition eof_to_ok_packet (o : offsets) (value : list Z) : outcome (list Z) :=
  let cap := Z.of_nat (length value) + eof_to_ok_dif in
  head ← rd (column_eof_pkt_offset o) 0 value;
  out ← put cap head [];
  h ← read_hdr (column_eof_pkt_offset o) value;
  let it := column_eof_pkt_offset o + sizeof_hdr + pkt_length h in
  let rows_length := row_eof_pkt_offset o - it in
  rows ← rd rows_length it value;
  out ← put cap rows out;
  let it := it + rows_length in
  h ← read_hdr it value;
  out ← put cap (hdr_bytes (mk_hdr 7 (pkt_id h))) out;
  out ← put cap [254; 0; 0] out;
  warnings ← rd 2 (row_eof_pkt_offset o + sizeof_hdr + 1) value;
  status_flags ← rd 2 (row_eof_pkt_offset o + sizeof_hdr + 3) value;
  out ← put cap status_flags out;
  let vp := Z.of_nat (length out) in
  out ← put cap warnings out;
  decrement_ids (S (length out)) (column_eof_pkt_offset o) vp out.

(** The last loop: the rows are copied with the next id until the OK packet. *)
Fixpoint copy_rows (fuel : nat) (cap it : Z) (warnings status_flags value out : list Z) : outcome (list Z) :=
  match fuel with
  | O => Fault Diverges
  | S fuel' =>
      h ← read_hdr it value;
      c ← (if pkt_length h <? 9 then read_at value (it + sizeof_hdr) else Ok 0);
      if is_final h c then
        out ← put cap (hdr_bytes (mk_hdr 5 (u8 (pkt_id h + 1)))) out;
        out ← put cap [254] out;
        out ← put cap warnings out;
        put cap status_flags out
      else
        out ← put cap (hdr_bytes (mk_hdr (pkt_length h) (u8 (pkt_id h + 1)))) out;
        payload ← rd (pkt_length h) (it + sizeof_hdr) value;
        out ← put cap payload out;
        copy_rows fuel' cap (it + sizeof_hdr + pkt_length h) warnings status_flags value out
  end.

Definition ok_to_eof_packet (o : offsets) (value : list Z) : outcome (list Z) :=
  let cap := Z.of_nat (length value) + ok_to_eof_dif in
  let ok_packet := ok_pkt_offset o + sizeof_hdr + 3 in
  status_flags ← rd 2 ok_packet value;
  warnings ← rd 2 (ok_packet + 2) value;
  '(it, c_count) ← column_count value;
  '(it, column_hdr) ← skip_columns (Z.to_nat c_count) it None value;
  head ← rd it 0 value;
  out ← put cap head [];
  column_hdr ← (match column_hdr with Some h => Ok h | None => Fault Uninitialised end);
  out ← put cap (hdr_bytes (mk_hdr 5 (u8 (pkt_id column_hdr + 1)))) out;
  out ← put cap [254] out;
  out ← put cap warnings out;
  out ← put cap status_flags out;
  copy_rows (S (length value)) cap it warnings status_flags value out.

(** What [get] returns for the stored value. *)
Definition deliver (deprecate_eof_active : bool) (o : offsets) (value : list Z) : outcome (list Z) :=
  if deprecate_eof_active && negb (column_eof_pkt_offset o =? 0) then eof_to_ok_packet o value
  else if negb deprecate_eof_active && negb (ok_pkt_offset o =? 0) then ok_to_eof_packet o value
  else Ok value.

(** ** Resultsets *)

(** A resultset as the protocol describes it: the payloads of the column
    definitions and of the rows, the warnings announced by the EOF packet after
    the columns, and the two words of the final packet. *)
Record resultset := mk_resultset {
  columns : list (list Z);
  column_warnings : Z;
  rows : list (list Z);
  warnings : Z;
  status : Z
}.

Definition packet (id : Z) (payload : list Z) : list Z :=
  hdr_bytes (mk_hdr (Z.of_nat (length payload)) id) ++ payload.
Fixpoint packets (id : Z) (ps : list (list Z)) : list Z :=
  match ps with [] => [] | p :: r => packet id p ++ packets (id + 1) r end.

Definition eof_payload (w s : Z) : list Z := 254 :: le_bytes 2 w ++ le_bytes 2 s.
Definition ok_payload (w s : Z) : list Z := 254 :: 0 :: 0 :: le_bytes 2 s ++ le_bytes 2 w.
Definition count_payload (n : Z) : list Z :=
  match encoded n with Ok b => b | Fault _ => [] end.

Definition encode (deprecate_eof : bool) (rs : resultset) : list Z :=
  let count := count_payload (Z.of_nat (length (columns rs))) in
  let eof := eof_payload (warnings rs) (status rs) in
  if deprecate_eof then packets 1 ((count :: columns rs) ++ rows rs ++ [ok_payload (warnings rs) (status rs)])
  else packets 1 ((count :: columns rs) ++ eof_payload (column_warnings rs) (status rs) :: rows rs ++ [eof]).

(** What the protocol guarantees: packets of less than 16 MB, at least one
    column, and no row that looks like the final packet. *)
Definition small (p : list Z) : Prop := Z.of_nat (length p) < 2 ^ 24.
Definition row_ok (p : list Z) : Prop := small p ∧ ∃ c r, p = c :: r ∧ (8 < Z.of_nat (length p) ∨ c ≠ 254).
Record valid (rs : resultset) : Prop := {
  v_columns : Forall small (columns rs);
  v_count : 1 <= Z.of_nat (length (columns rs)) <= 4096;
  v_rows : Forall row_ok (rows rs);
  v_column_warnings : 0 <= column_warnings rs < 2 ^ 16;
  v_warnings : 0 <= warnings rs < 2 ^ 16;
  v_status : 0 <= status rs < 2 ^ 16
}.

(** ** Reading and writing at known places *)
Abbreviation len l := (Z.of_nat (length l)).

Lemma rd_mid a b c n off : off = len a → n = len b → rd n off (a ++ b ++ c) = Ok b.
Proof.
  intros -> ->. unfold rd. rewrite !(proj2 (Z.ltb_ge _ _)) by lia. cbn [orb].
  rewrite !Nat2Z.id, drop_app_length. by apply read_bytes_app.
Qed.

Lemma put_ok cap bs out : len out + len bs <= cap → put cap bs out = Ok (out ++ bs).
Proof. intros H. unfold put. by rewrite (proj2 (Z.leb_le _ _)) by lia. Qed.

Lemma patch_mid a b b' c off : off = len a → length b' = length b → patch off b' (a ++ b ++ c) = Ok (a ++ b' ++ c).
Proof.
  intros -> Hb. unfold patch. rewrite !length_app. rewrite !(proj2 (Z.ltb_ge _ _)) by lia. cbn [orb].
  rewrite Nat2Z.id, take_app_length, Hb. rewrite drop_app_add' by done. by rewrite drop_app_length.
Qed.

Lemma hdr_bytes_length h : length (hdr_bytes h) = 4%nat.
Proof. done. Qed.

Lemma read_hdr_at a h c off :
  off = len a → 0 <= pkt_length h < 2 ^ 24 →
  read_hdr off (a ++ hdr_bytes h ++ c) = Ok (mk_hdr (pkt_length h) (u8 (pkt_id h))).
Proof.
  intros Ho Hl. unfold read_hdr. rewrite (rd_mid a (hdr_bytes h) c) by done. cbn [mbind outcome_bind].
  unfold hdr_bytes. rewrite take_app_length' , drop_app_length' by done.
  rewrite le_value_bytes_small by lia. cbn [le_value]. do 2 f_equal. lia.
Qed.

Lemma read_packet a id p c off :
  off = len a → small p → read_hdr off (a ++ packet id p ++ c) = Ok (mk_hdr (len p) (u8 id)).
Proof.
  intros Ho Hp. unfold packet. rewrite <- app_assoc. rewrite (read_hdr_at a (mk_hdr (len p) id) (p ++ c) off Ho); [done|].
  unfold small in Hp. cbn. lia.
Qed.

Lemma packet_length id p : length (packet id p) = (4 + length p)%nat.
Proof. unfold packet. by rewrite length_app, hdr_bytes_length. Qed.

Lemma packets_app id ps qs : packets id (ps ++ qs) = packets id ps ++ packets (id + len ps) qs.
Proof.
  revert id. induction ps as [|p ps IH]; intros id; cbn [app packets length]; [by rewrite Z.add_0_r|].
  rewrite IH, <- app_assoc. do 3 f_equal. lia.
Qed.

Fixpoint total_length (ps : list (list Z)) : nat := match ps with [] => 0%nat | p :: r => (4 + length p + total_length r)%nat end.
Lemma packets_length id ps : length (packets id ps) = total_length ps.
Proof.
  revert id. induction ps as [|p ps IH]; intros id; [done|]. cbn [packets total_length].
  by rewrite length_app, packet_length, IH.
Qed.
Lemma total_length_app ps qs : total_length (ps ++ qs) = (total_length ps + total_length qs)%nat.
Proof. induction ps as [|p ps IH]; [done|]. cbn [app total_length]. rewrite IH. lia. Qed.

(** ** The scans *)
Definition last_hdr (id : Z) (ps : list (list Z)) (d : option mysql_hdr) : option mysql_hdr :=
  match last ps with Some p => Some (mk_hdr (len p) (u8 (id + len ps - 1))) | None => d end.

Lemma skip_columns_spec ps a id d c off :
  off = len a → Forall small ps →
  skip_columns (length ps) off d (a ++ packets id ps ++ c) = Ok (len (a ++ packets id ps), last_hdr id ps d).
Proof.
  revert a id d off. induction ps as [|p ps IH]; intros a id d off -> Hs; cbn [length skip_columns packets].
  { rewrite app_nil_r. done. }
  apply Forall_cons in Hs as [Hp Hs]. rewrite <- app_assoc, read_packet by done. cbn [mbind outcome_bind pkt_length].
  rewrite (app_assoc a (packet id p)), (IH (a ++ packet id p) (id + 1)).
  - rewrite <- app_assoc. do 2 f_equal. unfold last_hdr. destruct ps as [|q ps]; [cbn; do 3 f_equal; lia|].
    rewrite (last_cons_cons p q ps). destruct (last (q :: ps)) eqn:E; [|by apply last_None in E]. do 3 f_equal. cbn [length]. lia.
  - rewrite length_app, packet_length. unfold sizeof_hdr. lia.
  - done.
Qed.

Lemma count_payload_spec n :
  1 <= n <= 4096 →
  ∃ b, encoded n = Ok b ∧ count_payload n = b ∧ (1 <= length b <= 3)%nat ∧
       ∀ rest, rest ≠ [] → mysql_decode_length (b ++ rest) true = Ok (len b, Some n).
Proof.
  intros Hn. destruct (decode_encoded n [0]) as (b & He & Hl & _); [lia|done|]. exists b.
  assert (Hlen : (mysql_encode_length n).1 = 1 ∨ (mysql_encode_length n).1 = 3).
  { unfold mysql_encode_length. case_test; [by left|]. case_test; [by right|lia]. }
  split_and!; [done|unfold count_payload; by rewrite He|lia|lia|].
  intros rest Hr. destruct (decode_encoded n rest) as (b' & He' & _ & Hd); [lia|done|].
  rewrite He in He'. by injection He' as <-.
Qed.

Lemma column_count_spec n rest :
  1 <= n <= 4096 → rest ≠ [] →
  column_count (packet 1 (count_payload n) ++ rest) = Ok (len (packet 1 (count_payload n)), n).
Proof.
  intros Hn Hr. destruct (count_payload_spec n Hn) as (b & _ & -> & _ & Hd). unfold column_count, packet.
  rewrite <- app_assoc, drop_app_length' by done. rewrite Hd by done. cbn [mbind outcome_bind default from_option id].
  rewrite length_app, hdr_bytes_length. unfold sizeof_hdr. do 3 f_equal. lia.
Qed.

(** The first byte decides between a row and the final packet. *)
Lemma final_byte a id p c off x r :
  off = len a → p = x :: r → read_at (a ++ packet id p ++ c) (off + sizeof_hdr) = Ok x.
Proof.
  intros -> ->. apply read_at_Some. split; [unfold sizeof_hdr; lia|].
  replace (Z.to_nat (len a + sizeof_hdr)) with (length a + 4)%nat by (unfold sizeof_hdr; lia).
  rewrite lookup_app_r by lia. by replace (length a + 4 - length a)%nat with 4%nat by lia.
Qed.

Lemma row_not_final a id p c off :
  off = len a → row_ok p →
  (x ← (if len p <? 9 then read_at (a ++ packet id p ++ c) (off + sizeof_hdr) else Ok 0);
   Ok (is_final (mk_hdr (len p) (u8 id)) x)) = Ok false.
Proof.
  intros Ho (Hs & x & r & Hp & Hne). unfold is_final. cbn [pkt_length]. case_test; [|done].
  rewrite (final_byte a id p c off x r Ho Hp). cbn [mbind outcome_bind andb]. f_equal.
  apply Z.eqb_neq. destruct Hne; [lia|done].
Qed.

Definition final_ok (p : list Z) : Prop := len p < 9 ∧ ∃ r, p = 254 :: r.

Lemma final_is_final a id p c off :
  off = len a → final_ok p →
  (x ← (if len p <? 9 then read_at (a ++ packet id p ++ c) (off + sizeof_hdr) else Ok 0);
   Ok (is_final (mk_hdr (len p) (u8 id)) x)) = Ok true.
Proof.
  intros Ho (Hs & r & Hp). unfold is_final. cbn [pkt_length]. rewrite (proj2 (Z.ltb_lt _ _)) by lia.
  rewrite (final_byte a id p c off 254 r Ho Hp). done.
Qed.

Lemma final_small p : final_ok p → small p.
Proof. intros [? _]. unfold small. lia. Qed.

Lemma find_final_spec rs fin a id c off fuel :
  off = len a → Forall row_ok rs → final_ok fin → (length rs < fuel)%nat →
  find_final fuel off (a ++ packets id (rs ++ [fin]) ++ c) = Ok (len (a ++ packets id rs)).
Proof.
  revert a id off fuel. induction rs as [|p rs IH]; intros a id off fuel -> Hr Hf Hfu;
    (destruct fuel as [|fuel]; [lia|]); cbn [find_final app packets].
  - rewrite !app_nil_r. rewrite read_packet by (done || by apply final_small). cbn [mbind outcome_bind pkt_length].
    pose proof (final_is_final a id fin c (len a) eq_refl Hf) as Hx.
    destruct (if len fin <? 9 then _ else _); [|done]. cbn [mbind outcome_bind] in *. injection Hx as ->. done.
  - apply Forall_cons in Hr as [Hp Hr]. rewrite <- app_assoc, read_packet by (done || apply Hp).
    cbn [mbind outcome_bind pkt_length].
    pose proof (row_not_final a id p (packets (id + 1) (rs ++ [fin]) ++ c) (len a) eq_refl Hp) as Hx.
    destruct (if len p <? 9 then _ else _); [|done]. cbn [mbind outcome_bind] in *. injection Hx as ->.
    rewrite (app_assoc a (packet id p)), (IH (a ++ packet id p) (id + 1)); [by rewrite <- app_assoc| |done|done|cbn in Hfu; lia].
    rewrite length_app, packet_length. unfold sizeof_hdr. lia.
Qed.

(** ** The layout of an encoded resultset *)
Definition head_packets (rs : resultset) : list Z :=
  packets 1 (count_payload (len (columns rs)) :: columns rs).
(** The id of the packet after the column definitions. *)
Definition next_id (rs : resultset) : Z := 2 + len (columns rs).
Definition eof_of (rs : resultset) : list Z := eof_payload (warnings rs) (status rs).
Definition column_eof (rs : resultset) : list Z := eof_payload (column_warnings rs) (status rs).
Definition ok_of (rs : resultset) : list Z := ok_payload (warnings rs) (status rs).

Lemma encode_eof rs :
  encode false rs = head_packets rs ++ packet (next_id rs) (column_eof rs) ++ packets (next_id rs + 1) (rows rs ++ [eof_of rs]).
Proof.
  unfold encode, head_packets, next_id, eof_of. rewrite packets_app. do 2 f_equal. cbn [packets].
  f_equal; [f_equal; cbn [length]; lia|]. f_equal. cbn [length]. lia.
Qed.

Lemma encode_ok rs :
  encode true rs = head_packets rs ++ packets (next_id rs) (rows rs ++ [ok_of rs]).
Proof.
  unfold encode, head_packets, next_id, ok_of. rewrite packets_app. do 2 f_equal. cbn [length]. lia.
Qed.

Lemma eof_final rs : final_ok (eof_of rs).
Proof. split; [reflexivity|by eexists]. Qed.
Lemma ok_final rs : final_ok (ok_of rs).
Proof. split; [reflexivity|by eexists]. Qed.

Lemma head_scan rs rest :
  valid rs → rest ≠ [] →
  column_count (head_packets rs ++ rest) = Ok (len (packet 1 (count_payload (len (columns rs)))), len (columns rs)) ∧
  ∃ l, skip_columns (length (columns rs)) (len (packet 1 (count_payload (len (columns rs))))) None (head_packets rs ++ rest)
       = Ok (len (head_packets rs), Some (mk_hdr l (u8 (next_id rs - 1)))).
Proof.
  intros Hv Hr. destruct (columns rs) as [|c cs] eqn:Ec; [pose proof (v_count rs Hv) as Hc; rewrite Ec in Hc; cbn in Hc; lia|].
  unfold head_packets. rewrite Ec. change (packets 1 (?x :: ?y)) with (packet 1 x ++ packets (1 + 1) y).
  rewrite <- app_assoc. split.
  - apply column_count_spec; [rewrite <- Ec; apply (v_count rs Hv)|]. intros He. apply app_nil in He. tauto.
  - pose proof (v_columns rs Hv) as Hcs. rewrite Ec in Hcs.
    rewrite (skip_columns_spec (c :: cs)) by done. unfold last_hdr.
    destruct (last (c :: cs)) eqn:E; [|by apply last_None in E]. eexists. unfold next_id. by rewrite Ec.
Qed.

Definition clear_warnings (rs : resultset) : resultset := mk_resultset (columns rs) (column_warnings rs) (rows rs) 0 (status rs).

Lemma clear_eof a id rs c :
  patch (len a + sizeof_hdr + 1) [0; 0] (a ++ packet id (eof_of rs) ++ c)
  = Ok (a ++ packet id (eof_of (clear_warnings rs)) ++ c).
Proof.
  assert (H : ∀ w, a ++ packet id (eof_payload w (status rs)) ++ c
    = (a ++ hdr_bytes (mk_hdr 5 id) ++ [254]) ++ le_bytes 2 w ++ le_bytes 2 (status rs) ++ c).
  { intros w. unfold packet, eof_payload. by rewrite <- !app_assoc. }
  unfold eof_of, clear_warnings. cbn [warnings status]. rewrite !H.
  rewrite (patch_mid (a ++ hdr_bytes (mk_hdr 5 id) ++ [254]) (le_bytes 2 (warnings rs)) [0; 0]); [done| |done].
  rewrite length_app. unfold sizeof_hdr. cbn [length app hdr_bytes]. rewrite length_app. cbn. lia.
Qed.

Lemma clear_ok a id rs c :
  patch (len a + sizeof_hdr + 1 + 1 + 1 + 2) [0; 0] (a ++ packet id (ok_of rs) ++ c)
  = Ok (a ++ packet id (ok_of (clear_warnings rs)) ++ c).
Proof.
  assert (H : ∀ w, a ++ packet id (ok_payload w (status rs)) ++ c
    = (a ++ hdr_bytes (mk_hdr 7 id) ++ [254; 0; 0] ++ le_bytes 2 (status rs)) ++ le_bytes 2 w ++ c).
  { intros w. unfold packet, ok_payload. by rewrite <- !app_assoc. }
  unfold ok_of, clear_warnings. cbn [warnings status]. rewrite !H.
  rewrite (patch_mid (a ++ hdr_bytes (mk_hdr 7 id) ++ [254; 0; 0] ++ le_bytes 2 (status rs)) (le_bytes 2 (warnings rs)) [0; 0]);
    [done| |done].
  rewrite !length_app. unfold sizeof_hdr. cbn. lia.
Qed.

(** A zero byte is a length-encoded integer of width one. *)
Lemma decode_zero a b c off :
  off = len a → mysql_decode_length (drop (Z.to_nat off) (a ++ (0 :: b) ++ c)) false = Ok (1, None).
Proof. intros ->. rewrite Nat2Z.id, drop_app_length. done. Qed.

Definition offsets_of (deprecate_eof : bool) (rs : resultset) : offsets :=
  if deprecate_eof
  then mk_offsets 0 0 (len (head_packets rs ++ packets (next_id rs) (rows rs)))
  else mk_offsets (len (head_packets rs))
         (len (head_packets rs ++ packet (next_id rs) (column_eof rs) ++ packets (next_id rs + 1) (rows rs))) 0.

Lemma rows_le id rs : (length rs <= length (packets id rs))%nat.
Proof. rewrite packets_length. induction rs; cbn [length total_length]; lia. Qed.

Lemma scan_fuel a id rs fin : (length rs < S (length (a ++ packets id (rs ++ [fin]))))%nat.
Proof. rewrite length_app. pose proof (rows_le id (rs ++ [fin])) as Hle. rewrite length_app in Hle. lia. Qed.

(** The two counts of the OK packet are one byte wide. *)
Lemma ok_affected_width a id rs c :
  mysql_decode_length (drop (Z.to_nat (len a + sizeof_hdr + 1)) (a ++ packet id (ok_of rs) ++ c)) false = Ok (1, None).
Proof.
  assert (Hp : a ++ packet id (ok_of rs) ++ c
    = (a ++ hdr_bytes (mk_hdr 7 id) ++ [254]) ++ (0 :: [0]) ++ (le_bytes 2 (status rs) ++ le_bytes 2 (warnings rs) ++ c)).
  { unfold packet, ok_of, ok_payload. by rewrite <- !app_assoc. }
  rewrite Hp. apply (decode_zero _ [0]). rewrite length_app. unfold sizeof_hdr. cbn. lia.
Qed.

Lemma ok_insert_id_width a id rs c :
  mysql_decode_length (drop (Z.to_nat (len a + sizeof_hdr + 1 + 1)) (a ++ packet id (ok_of rs) ++ c)) false = Ok (1, None).
Proof.
  assert (Hp : a ++ packet id (ok_of rs) ++ c
    = (a ++ hdr_bytes (mk_hdr 7 id) ++ [254; 0]) ++ (0 :: []) ++ (le_bytes 2 (status rs) ++ le_bytes 2 (warnings rs) ++ c)).
  { unfold packet, ok_of, ok_payload. by rewrite <- !app_assoc. }
  rewrite Hp. apply (decode_zero _ []). rewrite length_app. unfold sizeof_hdr. cbn. lia.
Qed.

Lemma scan_ok_spec rs :
  valid rs → scan_resultset true (encode true rs) = Ok (offsets_of true rs, encode true (clear_warnings rs)).
Proof.
  intros Hv. unfold scan_resultset, offsets_of.
  assert (Hne : packets (next_id rs) (rows rs ++ [ok_of rs]) ≠ []).
  { rewrite packets_app. intros He. apply app_nil in He as [_ He]. done. }
  destruct (head_scan rs _ Hv Hne) as (Hcc & l & Hsk). rewrite encode_ok, Hcc. cbn [mbind outcome_bind].
  rewrite Nat2Z.id, Hsk. cbn [mbind outcome_bind].
  pose proof (find_final_spec (rows rs) (ok_of rs) (head_packets rs) (next_id rs) [] (len (head_packets rs))
    (S (length (head_packets rs ++ packets (next_id rs) (rows rs ++ [ok_of rs])))) eq_refl (v_rows rs Hv) (ok_final rs)) as Hff.
  rewrite !app_nil_r in Hff. rewrite Hff by apply scan_fuel. cbn [mbind outcome_bind].
  rewrite packets_app, (app_assoc (head_packets rs)).
  set (A := head_packets rs ++ packets (next_id rs) (rows rs)). set (id := next_id rs + len (rows rs)).
  change (packets id [ok_of rs]) with (packet id (ok_of rs) ++ []).
  rewrite ok_affected_width. cbn [mbind outcome_bind]. rewrite ok_insert_id_width. cbn [mbind outcome_bind].
  rewrite clear_ok. cbn [mbind outcome_bind]. rewrite encode_ok, packets_app.
  by rewrite (app_assoc (head_packets (clear_warnings rs))).
Qed.

Lemma scan_eof_spec rs :
  valid rs → scan_resultset false (encode false rs) = Ok (offsets_of false rs, encode false (clear_warnings rs)).
Proof.
  intros Hv. unfold scan_resultset, offsets_of.
  assert (Hne : packet (next_id rs) (column_eof rs) ++ packets (next_id rs + 1) (rows rs ++ [eof_of rs]) ≠ []).
  { intros He. apply (f_equal length) in He. rewrite length_app, packet_length in He. cbn in He. lia. }
  destruct (head_scan rs _ Hv Hne) as (Hcc & l & Hsk). rewrite encode_eof, Hcc. cbn [mbind outcome_bind].
  rewrite Nat2Z.id, Hsk. cbn [mbind outcome_bind].
  rewrite read_packet by done. cbn [mbind outcome_bind pkt_length].
  set (B := head_packets rs ++ packet (next_id rs) (column_eof rs)).
  replace (len (head_packets rs) + sizeof_hdr + len (column_eof rs)) with (len B)
    by (unfold B; rewrite length_app, packet_length; unfold sizeof_hdr; lia).
  pose proof (find_final_spec (rows rs) (eof_of rs) B (next_id rs + 1) [] (len B)
    (S (length (B ++ packets (next_id rs + 1) (rows rs ++ [eof_of rs])))) eq_refl (v_rows rs Hv) (eof_final rs)) as Hff.
  rewrite !app_nil_r in Hff. rewrite !(app_assoc (head_packets rs)). fold B. rewrite Hff by apply scan_fuel.
  cbn [mbind outcome_bind]. rewrite packets_app, (app_assoc B).
  set (A := B ++ packets (next_id rs + 1) (rows rs)). set (id := next_id rs + 1 + len (rows rs)).
  change (packets id [eof_of rs]) with (packet id (eof_of rs) ++ []).
  rewrite clear_eof. cbn [mbind outcome_bind]. do 2 f_equal.
  rewrite encode_eof, packets_app. unfold A, B. by rewrite <- !app_assoc.
Qed.

(** ** The conversions are exact *)
Lemma u8_dec id : u8 (u8 (id + 1) - 1) = u8 id.
Proof. unfold u8. rewrite Zminus_mod_idemp_l. f_equal. lia. Qed.
Lemma u8_inc id : u8 (u8 id + 1) = u8 (id + 1).
Proof. unfold u8. by rewrite Zplus_mod_idemp_l. Qed.
Lemma hdr_bytes_u8 n id : hdr_bytes (mk_hdr n (u8 id)) = hdr_bytes (mk_hdr n id).
Proof. unfold hdr_bytes. cbn [pkt_length pkt_id]. unfold u8. by rewrite Zmod_mod. Qed.

Lemma decrement_spec ps a id fuel vp :
  ps ≠ [] → Forall small ps → (length ps <= fuel)%nat →
  vp = len (a ++ packets (id + 1) ps) - 2 →
  decrement_ids fuel (len a) vp (a ++ packets (id + 1) ps) = Ok (a ++ packets id ps).
Proof.
  revert a id fuel. induction ps as [|p ps IH]; intros a id fuel Hne Hs Hf Hvp; [done|].
  destruct fuel as [|fuel]; [cbn in Hf; lia|]. cbn [decrement_ids packets] in *.
  apply Forall_cons in Hs as [Hp Hs]. rewrite read_packet by done. cbn [mbind outcome_bind pkt_length pkt_id].
  rewrite u8_dec, hdr_bytes_u8. unfold packet at 1. rewrite <- app_assoc.
  rewrite (patch_mid a _ (hdr_bytes (mk_hdr (len p) id))) by done. cbn [mbind outcome_bind].
  assert (Hdp : len a + sizeof_hdr + len p = len (a ++ packet id p))
    by (rewrite length_app, packet_length; unfold sizeof_hdr; lia).
  rewrite Hdp, (app_assoc (hdr_bytes _)). fold (packet id p). rewrite (app_assoc a).
  assert (Hvp' : vp = len ((a ++ packet id p) ++ packets (id + 1 + 1) ps) - 2).
  { rewrite Hvp, !length_app, !packet_length. lia. }
  destruct ps as [|q ps].
  - rewrite (proj2 (Z.leb_le _ _)); [by rewrite <- app_assoc|]. rewrite Hvp', (length_app (a ++ packet id p)). cbn [packets length]. lia.
  - rewrite (proj2 (Z.leb_gt _ _)).
    + rewrite IH; [by rewrite <- app_assoc|done|done|cbn in *; lia|done].
    + rewrite Hvp', (length_app (a ++ packet id p)), packets_length. cbn [total_length]. lia.
Qed.

Lemma encode_length_dif rs : len (encode false rs) + eof_to_ok_dif = len (encode true rs).
Proof.
  rewrite encode_eof, encode_ok, !length_app, packet_length, !packets_length, !total_length_app.
  cbn [total_length]. unfold eof_to_ok_dif, sizeof_hdr. cbn. lia.
Qed.

Lemma valid_small rs : valid rs → Forall small (rows rs ++ [ok_of rs]).
Proof.
  intros Hv. apply Forall_app. split; [|by constructor].
  eapply Forall_impl; [apply (v_rows rs Hv)|]. intros p [? _]. done.
Qed.

Lemma eof_words a id rs c :
  rd 2 (len a + sizeof_hdr + 1) (a ++ packet id (eof_of rs) ++ c) = Ok (le_bytes 2 (warnings rs)) ∧
  rd 2 (len a + sizeof_hdr + 3) (a ++ packet id (eof_of rs) ++ c) = Ok (le_bytes 2 (status rs)).
Proof.
  unfold packet, eof_of, eof_payload. rewrite <- !app_assoc. split.
  - change (hdr_bytes ?h ++ (254 :: ?x ++ ?y) ++ c) with (hdr_bytes h ++ [254] ++ x ++ (y ++ c)).
    rewrite (app_assoc (hdr_bytes _)), (app_assoc a). apply rd_mid; [|done].
    rewrite !length_app. unfold sizeof_hdr. cbn. lia.
  - change (hdr_bytes ?h ++ (254 :: ?x ++ ?y) ++ c) with (hdr_bytes h ++ ([254] ++ x) ++ y ++ c).
    rewrite (app_assoc (hdr_bytes _)), (app_assoc a). apply rd_mid; [|done].
    rewrite !length_app. unfold sizeof_hdr. cbn. lia.
Qed.

Ltac len_lia := rewrite ?length_app, ?hdr_bytes_length, ?le_bytes_length; cbn [length]; lia.

Lemma eof_to_ok_spec rs :
  valid rs → eof_to_ok_packet (offsets_of false rs) (encode false rs) = Ok (encode true rs).
Proof.
  intros Hv. unfold eof_to_ok_packet. rewrite encode_length_dif.
  set (cap := len (encode true rs)). cbn [offsets_of column_eof_pkt_offset row_eof_pkt_offset].
  rewrite encode_eof. set (H := head_packets rs). set (k := next_id rs). set (R := packets (k + 1) (rows rs)).
  rewrite packets_app. fold R. change (packets ?i [eof_of rs]) with (packet i (eof_of rs) ++ []).
  set (i := k + 1 + len (rows rs)).
  assert (Hcap : cap = len H + len R + 11).
  { unfold cap. rewrite encode_ok, !length_app, packets_app, length_app. fold k H.
    unfold R. rewrite !packets_length. cbn [total_length]. change (length (ok_of rs)) with 7%nat. lia. }
  pose proof (rd_mid [] H (packet k (column_eof rs) ++ R ++ packet i (eof_of rs) ++ []) (len H) 0 eq_refl eq_refl) as H1.
  cbn [app] in H1. rewrite H1. cbn [mbind outcome_bind].
  rewrite (put_ok cap H) by len_lia. cbn [mbind outcome_bind app].
  rewrite read_packet by done. cbn [mbind outcome_bind pkt_length].
  set (A := H ++ packet k (column_eof rs)).
  replace (H ++ packet k (column_eof rs) ++ R) with (A ++ R) by (unfold A; by rewrite <- app_assoc).
  replace (H ++ packet k (column_eof rs) ++ R ++ packet i (eof_of rs) ++ [])
    with (A ++ R ++ packet i (eof_of rs) ++ []) by (unfold A; by rewrite <- app_assoc).
  replace (len H + sizeof_hdr + len (column_eof rs)) with (len A)
    by (unfold A; rewrite length_app, packet_length; unfold sizeof_hdr; lia).
  replace (len (A ++ R) - len A) with (len R) by (rewrite length_app; lia).
  rewrite (rd_mid A R _ (len R) (len A)) by done. cbn [mbind outcome_bind]. rewrite put_ok by len_lia. cbn [mbind outcome_bind].
  replace (len A + len R) with (len (A ++ R)) by (rewrite length_app; lia).
  rewrite (app_assoc A), read_packet by done. cbn [mbind outcome_bind pkt_id].
  rewrite hdr_bytes_u8, put_ok by len_lia. cbn [mbind outcome_bind].
  rewrite put_ok by len_lia. cbn [mbind outcome_bind].
  destruct (eof_words (A ++ R) i rs []) as [Hw Hst]. rewrite Hw, Hst.
  cbn [mbind outcome_bind]. rewrite put_ok by len_lia. cbn [mbind outcome_bind].
  rewrite put_ok by len_lia. cbn [mbind outcome_bind].
  assert (Hout : ((((H ++ R) ++ hdr_bytes (mk_hdr 7 i)) ++ [254; 0; 0]) ++ le_bytes 2 (status rs)) ++ le_bytes 2 (warnings rs)
    = H ++ packets (k + 1) (rows rs ++ [ok_of rs])).
  { rewrite packets_app. change (packets ?j [ok_of rs]) with (packet j (ok_of rs) ++ []).
    unfold packet, ok_of, ok_payload. rewrite <- !app_assoc. done. }
  rewrite Hout. rewrite encode_ok. fold H k. apply decrement_spec.
  - by destruct (rows rs).
  - by apply valid_small.
  - rewrite !length_app, packets_length, total_length_app. pose proof (rows_le k (rows rs)) as Hle.
    rewrite packets_length in Hle. cbn [length total_length]. lia.
  - rewrite <- Hout, !length_app, !le_bytes_length. lia.
Qed.

Lemma ok_words a id rs c :
  rd 2 (len a + sizeof_hdr + 3) (a ++ packet id (ok_of rs) ++ c) = Ok (le_bytes 2 (status rs)) ∧
  rd 2 (len a + sizeof_hdr + 3 + 2) (a ++ packet id (ok_of rs) ++ c) = Ok (le_bytes 2 (warnings rs)).
Proof.
  unfold packet, ok_of, ok_payload. rewrite <- !app_assoc. split.
  - change (hdr_bytes ?h ++ (254 :: 0 :: 0 :: ?x ++ ?y) ++ c) with (hdr_bytes h ++ [254; 0; 0] ++ x ++ (y ++ c)).
    rewrite (app_assoc (hdr_bytes _)), (app_assoc a). apply rd_mid; [|done].
    rewrite !length_app. unfold sizeof_hdr. cbn. lia.
  - change (hdr_bytes ?h ++ (254 :: 0 :: 0 :: ?x ++ ?y) ++ c) with (hdr_bytes h ++ ([254; 0; 0] ++ x) ++ y ++ c).
    rewrite (app_assoc (hdr_bytes _)), (app_assoc a). apply rd_mid; [|done].
    rewrite !length_app. unfold sizeof_hdr. cbn. lia.
Qed.

Lemma copy_rows_spec ps fin w s a id c out cap fuel :
  Forall row_ok ps → final_ok fin → length w = 2%nat → length s = 2%nat → (length ps < fuel)%nat →
  len out + len (packets 0 ps) + 9 <= cap →
  copy_rows fuel cap (len a) w s (a ++ packets id (ps ++ [fin]) ++ c) out
  = Ok (out ++ packets (id + 1) (ps ++ [254 :: w ++ s])).
Proof.
  revert a id out fuel. induction ps as [|p ps IH]; intros a id out fuel Hr Hf Hw Hs Hfu Hcap;
    (destruct fuel as [|fuel]; [lia|]); cbn [copy_rows app packets length] in *.
  - rewrite !app_nil_r. rewrite read_packet by (done || by apply final_small). cbn [mbind outcome_bind pkt_length pkt_id].
    pose proof (final_is_final a id fin c (len a) eq_refl Hf) as Hx.
    destruct (if len fin <? 9 then _ else _); [|done]. cbn [mbind outcome_bind] in *. injection Hx as ->.
    rewrite !u8_inc, hdr_bytes_u8.
    do 3 (rewrite put_ok by (rewrite ?length_app, ?hdr_bytes_length, ?Hw; cbn [length]; lia); cbn [mbind outcome_bind]).
    rewrite put_ok by (rewrite ?length_app, ?hdr_bytes_length, ?Hw, ?Hs; cbn [length]; lia).
    assert (len (254 :: w ++ s) = 5) as Hl by (cbn [length]; rewrite length_app; lia).
    unfold packet. rewrite Hl, <- !app_assoc. done.
  - apply Forall_cons in Hr as [Hp Hr]. rewrite <- app_assoc, read_packet by (done || apply Hp).
    cbn [mbind outcome_bind pkt_length pkt_id].
    pose proof (row_not_final a id p (packets (id + 1) (ps ++ [fin]) ++ c) (len a) eq_refl Hp) as Hx.
    destruct (if len p <? 9 then _ else _); [|done]. cbn [mbind outcome_bind] in *. injection Hx as ->.
    rewrite u8_inc, hdr_bytes_u8. rewrite length_app, packet_length in Hcap.
    rewrite put_ok by (rewrite hdr_bytes_length; lia). cbn [mbind outcome_bind].
    replace (rd (len p) (len a + sizeof_hdr) (a ++ packet id p ++ packets (id + 1) (ps ++ [fin]) ++ c)) with (Ok p).
    2: { symmetry. unfold packet. rewrite <- app_assoc, (app_assoc a). apply rd_mid; [|done].
         rewrite length_app, hdr_bytes_length. unfold sizeof_hdr. lia. }
    cbn [mbind outcome_bind]. rewrite put_ok by (rewrite length_app, hdr_bytes_length; lia). cbn [mbind outcome_bind].
    replace (len a + sizeof_hdr + len p) with (len (a ++ packet id p))
      by (rewrite length_app, packet_length; unfold sizeof_hdr; lia).
    rewrite (app_assoc a (packet id p)), (IH (a ++ packet id p) (id + 1)); [|done..|lia|].
    + by rewrite <- !app_assoc.
    + rewrite !length_app, hdr_bytes_length. rewrite packets_length in *. lia.
Qed.

(** The form an EOF client gets from the stored OK form. *)
Definition announce (rs : resultset) : resultset :=
  mk_resultset (columns rs) (warnings rs) (rows rs) (warnings rs) (status rs).

Lemma ok_to_eof_spec rs :
  valid rs → ok_to_eof_packet (offsets_of true rs) (encode true rs) = Ok (encode false (announce rs)).
Proof.
  intros Hv. unfold ok_to_eof_packet. cbn [offsets_of ok_pkt_offset].
  set (H := head_packets rs). set (k := next_id rs).
  assert (Hcap : len (encode true rs) + ok_to_eof_dif
    = len H + len (packets 0 (rows rs)) + 18).
  { rewrite encode_ok, length_app, !packets_length, total_length_app. fold H. cbn [total_length].
    change (length (ok_of rs)) with 7%nat. unfold ok_to_eof_dif, sizeof_hdr. lia. }
  rewrite Hcap. set (cap := _ + 18). rewrite encode_ok. fold H k.
  destruct (ok_words (H ++ packets k (rows rs)) (k + len (rows rs)) rs []) as [Hst Hw].
  assert (Hval : H ++ packets k (rows rs ++ [ok_of rs])
    = (H ++ packets k (rows rs)) ++ packet (k + len (rows rs)) (ok_of rs) ++ [])
    by (rewrite packets_app, <- app_assoc; done).
  rewrite Hval at 1. rewrite Hst. cbn [mbind outcome_bind]. rewrite Hval at 1. rewrite Hw. cbn [mbind outcome_bind].
  assert (Hne : packets k (rows rs ++ [ok_of rs]) ≠ []).
  { rewrite packets_app. intros He. apply app_nil in He as [_ He]. done. }
  destruct (head_scan rs _ Hv Hne) as (Hcc & l & Hsk). fold H in Hcc, Hsk. rewrite Hcc. cbn [mbind outcome_bind].
  rewrite Nat2Z.id, Hsk. cbn [mbind outcome_bind].
  pose proof (rd_mid [] H (packets k (rows rs ++ [ok_of rs])) (len H) 0 eq_refl eq_refl) as H1.
  cbn [app] in H1. rewrite H1. cbn [mbind outcome_bind].
  rewrite (put_ok cap H) by (unfold cap; cbn [length]; lia). cbn [mbind outcome_bind app pkt_id].
  rewrite u8_inc, hdr_bytes_u8. replace (next_id rs - 1 + 1) with k by (unfold k; lia).
  do 4 (rewrite put_ok by (unfold cap; len_lia); cbn [mbind outcome_bind]).
  pose proof (copy_rows_spec (rows rs) (ok_of rs) (le_bytes 2 (warnings rs)) (le_bytes 2 (status rs)) H k [] ) as Hcr.
  rewrite app_nil_r in Hcr. rewrite Hcr; [|apply (v_rows rs Hv)|apply ok_final|done|done| |unfold cap; len_lia].
  - rewrite encode_eof. fold (eof_payload (warnings rs) (status rs)). change (head_packets (announce rs)) with H.
    change (next_id (announce rs)) with k. unfold packet, column_eof, announce, eof_of. cbn [column_warnings status warnings rows].
    rewrite <- !app_assoc. done.
  - pose proof (scan_fuel H k (rows rs) (ok_of rs)). lia.
Qed.

Lemma clear_valid rs : valid rs → valid (clear_warnings rs).
Proof. intros [H1 H2 H3 H4 H5 H6]. by split. Qed.

Lemma head_nonempty rs : (len (head_packets rs) =? 0) = false.
Proof. apply Z.eqb_neq. unfold head_packets. rewrite packets_length. cbn [total_length]. lia. Qed.

Lemma deliver_spec d1 d2 rs :
  valid rs →
  deliver d2 (offsets_of d1 rs) (encode d1 rs)
  = Ok (encode d2 (mk_resultset (columns rs) (if d1 then warnings rs else column_warnings rs) (rows rs) (warnings rs) (status rs))).
Proof.
  intros Hv. unfold deliver.
  assert (Hok : (len (head_packets rs ++ packets (next_id rs) (rows rs)) =? 0) = false).
  { apply Z.eqb_neq. pose proof (head_nonempty rs) as Hh. apply Z.eqb_neq in Hh. rewrite length_app. lia. }
  destruct d1, d2; cbn [offsets_of column_eof_pkt_offset ok_pkt_offset andb negb];
    rewrite ?Z.eqb_refl, ?head_nonempty, ?Hok; cbn [andb negb].
  - done.
  - exact (ok_to_eof_spec rs Hv).
  - etrans; [exact (eof_to_ok_spec rs Hv)|done].
  - by destruct rs.
Qed.

(** a cached resultset is delivered intact to every kind of client. The
    offsets [set] computes and the conversions [get] applies never leave the
    buffers, write every byte of the result, and give exactly the packets of the
    same columns and rows, numbered from one without a gap, in the form the
    client asked for, with the final warning count reset to zero; the EOF packet
    after the columns keeps the count it was stored with. *)
Theorem cached_resultset_delivered d1 d2 rs :
  valid rs →
  ∃ o v, scan_resultset d1 (encode d1 rs) = Ok (o, v) ∧
    deliver d2 o v = Ok (encode d2 (mk_resultset (columns rs) (if d1 then 0 else column_warnings rs) (rows rs) 0 (status rs))).
Proof.
  intros Hv. exists (offsets_of d1 rs), (encode d1 (clear_warnings rs)). split.
  - destruct d1; [by apply scan_ok_spec|by apply scan_eof_spec].
  - exact (deliver_spec d1 d2 (clear_warnings rs) (clear_valid rs Hv)).
Qed.

Definition toy_rs : resultset := mk_resultset [[1; 2; 3]; [4]] 5 [[1; 65]; [2; 66; 67]] 3 34.
Lemma toy_valid : valid toy_rs.
Proof.
  split; cbn; try lia; repeat constructor; cbn; try lia; (eexists _, _; split; [done|right; lia]).
Qed.
Example toy_converted :
  deliver true (offsets_of false toy_rs) (encode false toy_rs) = Ok (encode true toy_rs).
Proof. vm_compute. reflexivity. Qed.

Lemma cached_resultset_delivered_witness :
  ∃ o v, scan_resultset true (encode true toy_rs) = Ok (o, v) ∧
    deliver false o v = Ok (encode false (mk_resultset [[1; 2; 3]; [4]] 0 [[1; 65]; [2; 66; 67]] 0 34)).
Proof. exact (cached_resultset_delivered true false toy_rs toy_valid). Defined.
