(* ===== verification/QCache.v ===== *)
(** * The query cache (lib/Query_Cache.cpp)

    [KV_BtreeArray] stores entries under a lock; [Query_Cache] hashes a query to
    one of its 32 stores.  Entries are counted by reference: a lookup takes one
    reference under the lock, and [get] reads the entry and gives the reference
    back after the lock was released, so a reader is a state of its own here,
    and a purge may run in between.  Entries live in an explicit heap: reading
    one that was freed is a fault of the model. *)
From S2P Require Import Prelude GenUtils ResultSet.
From Stdlib Require Import SpecFloat.

(** ** Floating point

    The percentages are computed in IEEE doubles and floats. *)
Module Fp.
Definition double (z : Z) : spec_float := binary_normalize 53 1024 z 0 false.
Definition float (z : Z) : spec_float := binary_normalize 24 128 z 0 false.
(** The doubles nearest to 0.1 and 0.01. *)
Definition tenth : spec_float := S754_finite false 7205759403792794 (-56).
Definition hundredth : spec_float := S754_finite false 5764607523034235 (-59).
(** Conversion of a positive number to an integer type. *)
Definition truncate (f : spec_float) : outcome Z :=
  match f with
  | S754_zero _ => Ok 0
  | S754_finite false m e => Ok (if 0 <=? e then Zpos m * 2 ^ e else Zpos m / 2 ^ (- e))
  | _ => Fault OutOfBounds
  end.
Example tenth_ok : SFdiv 53 1024 (double 1) (double 10) = tenth.
Proof. vm_compute. reflexivity. Qed.
Example hundredth_ok : SFdiv 53 1024 (double 1) (double 100) = hundredth.
Proof. vm_compute. reflexivity. Qed.
End Fp.

Definition EXPIRE_DROPIT : Z := 0.
Definition SHARED_QUERY_CACHE_HASH_TABLES : Z := 32.
Definition DEFAULT_purge_threshold_pct_min : Z := 3.
Definition DEFAULT_purge_threshold_pct_max : Z := 90.

(** ** State *)
Record entry := mk_entry {
  key : Z;
  value : list Z;
  klen : Z;
  elength : Z;
  create_ms : Z;
  expire_ms : Z;
  access_ms : Z;
  refreshing : bool;
  offs : offsets;
  ref_count : Z
}.

Record kv := mk_kv {
  bt_map : gmap Z positive;
  ptrArray : PtrArray.t positive;
  heap : gmap positive entry      (* [freeable_memory] is scratch of [purge_some] *)
}.

(** The global counters; the per-thread ones are flushed on every update. *)
Record stats := mk_stats {
  cntSet : Z; cntGet : Z; cntGetOK : Z;
  num_entries : Z; dataIN : Z; dataOUT : Z;
  cntPurge : Z; size_values : Z; total_freed_memory : Z
}.
Definition no_stats : stats := mk_stats 0 0 0 0 0 0 0 0 0.

Definition new_kv : outcome kv := a ← PtrArray.create 0; Ok (mk_kv ∅ a ∅).

Definition deref (p : positive) (k : kv) : outcome entry :=
  match heap k !! p with Some e => Ok e | None => Fault OutOfBounds end.
Definition store (p : positive) (e : entry) (k : kv) : kv :=
  mk_kv (bt_map k) (ptrArray k) (<[p := e]> (heap k)).
Definition set_map (m : gmap Z positive) (k : kv) : kv := mk_kv m (ptrArray k) (heap k).

Definition set_ref (n : Z) (e : entry) : entry :=
  mk_entry (key e) (value e) (klen e) (elength e) (create_ms e) (expire_ms e) (access_ms e) (refreshing e) (offs e) n.
Definition set_expire (t : Z) (e : entry) : entry :=
  mk_entry (key e) (value e) (klen e) (elength e) (create_ms e) t (access_ms e) (refreshing e) (offs e) (ref_count e).
Definition set_access (t : Z) (e : entry) : entry :=
  mk_entry (key e) (value e) (klen e) (elength e) (create_ms e) (expire_ms e) t (refreshing e) (offs e) (ref_count e).
Definition set_refreshing (e : entry) : entry :=
  mk_entry (key e) (value e) (klen e) (elength e) (create_ms e) (expire_ms e) (access_ms e) true (offs e) (ref_count e).

(** ** KV_BtreeArray *)
Definition cnt (k : kv) : Z := Z.of_nat (base.size (bt_map k)).

Definition count_set (len : Z) (s : stats) : stats :=
  mk_stats (u64 (cntSet s + 1)) (cntGet s) (cntGetOK s) (u64 (num_entries s + 1)) (u64 (dataIN s + len))
    (dataOUT s) (cntPurge s) (u64 (size_values s + len)) (total_freed_memory s).

Definition replace (e : entry) (k : kv) (s : stats) : outcome (kv * stats) :=
  let p := fresh (dom (heap k)) in
  let k := store p (set_ref 1 e) k in
  a ← PtrArray.add p (ptrArray k);
  let k := mk_kv (bt_map k) a (heap k) in
  k ← (match bt_map k !! key e with
       | Some q =>
           o ← deref q k;
           let k := store q (set_ref (u32 (ref_count o - 1)) (set_expire EXPIRE_DROPIT o)) k in
           Ok (set_map (delete (key e) (bt_map k)) k)
       | None => Ok k
       end);
  Ok (set_map (<[key e := p]> (bt_map k)) k, count_set (elength e) s).

(** The hit takes a reference. *)
Definition lookup (kk : Z) (k : kv) (s : stats) : outcome (option positive * kv * stats) :=
  let s := mk_stats (cntSet s) (u64 (cntGet s + 1)) (cntGetOK s) (num_entries s) (dataIN s) (dataOUT s)
             (cntPurge s) (size_values s) (total_freed_memory s) in
  match bt_map k !! kk with
  | Some p => e ← deref p k; Ok (Some p, store p (set_ref (u32 (ref_count e + 1)) e) k, s)
  | None => Ok (None, k, s)
  end.

Fixpoint empty_loop (fuel : nat) (k : kv) : outcome kv :=
  match fuel with
  | O => Fault Diverges
  | S fuel' =>
      match in_key_order (bt_map k) with
      | [] => Ok k
      | (kk, p) :: _ =>
          e ← deref p k;
          empty_loop fuel' (set_map (delete kk (bt_map k)) (store p (set_expire EXPIRE_DROPIT e) k))
      end
  end.
Definition empty (k : kv) : outcome kv := empty_loop (S (base.size (bt_map k))) k.

(** *** [purge_some] *)
Record scanned := mk_scanned { sc_ret : Z; sc_size : Z; access_ms_min : Z; access_ms_max : Z }.

Definition dropped_by_time (now : Z) (e : entry) : bool := (expire_ms e =? EXPIRE_DROPIT) || (expire_ms e <? now).

Definition scan_entry (now : Z) (aggressive : bool) (e : entry) (c : scanned) : scanned :=
  if aggressive then
    mk_scanned (sc_ret c) (sc_size c)
      (if (access_ms_min c =? 0) || (access_ms e <? access_ms_min c) then access_ms e else access_ms_min c)
      (if (access_ms_max c =? 0) || (access_ms_max c <? access_ms e) then access_ms e else access_ms_max c)
  else if dropped_by_time now e
       then mk_scanned (u64 (sc_ret c + 1)) (u64 (sc_size c + elength e)) (access_ms_min c) (access_ms_max c)
       else c.

Fixpoint scan_loop (fuel : nat) (i now : Z) (aggressive : bool) (k : kv) (c : scanned) : outcome scanned :=
  match fuel with
  | O => Ok c
  | S fuel' =>
      if i <? PtrArray.len (ptrArray k) then
        p ← PtrArray.index i (ptrArray k);
        e ← deref p k;
        scan_loop fuel' (i + 1) now aggressive k (scan_entry now aggressive e c)
      else Ok c
  end.

Definition unused (e : entry) : bool := ref_count e <=? 1.

Definition drop_entry (now : Z) (aggressive : bool) (mark : Z) (e : entry) : bool :=
  unused e && (dropped_by_time now e || (aggressive && (access_ms e <? mark))).

Definition free_entry (i : Z) (p : positive) (e : entry) (k : kv) : outcome kv :=
  '(_, a) ← PtrArray.remove_index_fast i (ptrArray k);
  Ok (mk_kv (match bt_map k !! key e with Some _ => delete (key e) (bt_map k) | None => bt_map k end)
        a (delete p (heap k))).

(** A removal puts another entry at the index, which is visited next. *)
Fixpoint sweep_loop (fuel : nat) (i now : Z) (aggressive : bool) (mark : Z) (k : kv) (removed freed : Z)
  : outcome (kv * Z * Z) :=
  match fuel with
  | O => Fault Diverges
  | S fuel' =>
      if i <? PtrArray.len (ptrArray k) then
        p ← PtrArray.index i (ptrArray k);
        e ← deref p k;
        if drop_entry now aggressive mark e
        then k ← free_entry i p e k; sweep_loop fuel' i now aggressive mark k (u64 (removed + 1)) (u64 (freed + elength e))
        else sweep_loop fuel' (i + 1) now aggressive mark k removed freed
      else Ok (k, removed, freed)
  end.

Definition sweep (now : Z) (aggressive : bool) (mark : Z) (k : kv) (s : stats) : outcome (kv * stats) :=
  '(k, removed, freed) ← sweep_loop (S (Z.to_nat (PtrArray.len (ptrArray k)))) 0 now aggressive mark k 0 0;
  Ok (k, mk_stats (cntSet s) (cntGet s) (cntGetOK s) (u64 (num_entries s - removed)) (dataIN s) (dataOUT s)
           (u64 (cntPurge s + removed)) (u64 (size_values s - freed)) (u64 (total_freed_memory s + freed))).

Section sized.
(** The size of an entry with its two pointers and two words. *)
Context (overhead : Z).

Definition get_data_size (s : stats) : Z := u64 (num_entries s * overhead).

Definition lower_mark (c : scanned) : outcome Z :=
  Fp.truncate (SFadd 53 1024 (Fp.double (access_ms_min c))
                 (SFmul 53 1024 (Fp.double (u64 (access_ms_max c - access_ms_min c))) Fp.tenth)).

Definition worth_freeing (c : scanned) (s : stats) : bool :=
  SFltb (SFmul 53 1024 (Fp.double (get_data_size s)) Fp.hundredth) (Fp.double (u64 (sc_size c + sc_ret c * overhead))).

(** The part under the read lock: what the second part will do. *)
Definition purge_plan (now : Z) (aggressive : bool) (k : kv) (s : stats) : outcome (option Z) :=
  c ← scan_loop (Z.to_nat (PtrArray.len (ptrArray k))) 0 now aggressive k (mk_scanned 0 0 0 0);
  if aggressive then m ← lower_mark c; Ok (Some m)
  else Ok (if worth_freeing c s then Some 0 else None).

Definition purge_some (now : Z) (aggressive : bool) (k : kv) (s : stats) : outcome (kv * stats) :=
  plan ← purge_plan now aggressive k s;
  match plan with Some mark => sweep now aggressive mark k s | None => Ok (k, s) end.
End sized.

(** ** Query_Cache *)

(** What [set] stores: the resultset with its offsets. *)
Definition set_entry (d : bool) (hk kl : Z) (vp : list Z) (create curtime expire : Z) : outcome entry :=
  '(o, vp) ← scan_resultset d vp;
  Ok (mk_entry hk vp kl (Z.of_nat (length vp)) create expire curtime false o 0).

(** [get] after the lookup: the entry is read and written without the lock, and
    the reference is given back. *)
Definition fresh_enough (t ttl : Z) (e : entry) : bool := (t <? expire_ms e) && (t <? u64 (create_ms e + ttl)).
Definition wants_refresh (soft t ttl : Z) (e : entry) : bool :=
  negb (soft =? 0) && negb (refreshing e) && (u64 (create_ms e + u64 (ttl * soft) / 100) <=? t).

Definition finish (soft t ttl : Z) (d : bool) (p : positive) (k : kv) (s : stats)
  : outcome (option (list Z) * kv * stats) :=
  e ← deref p k;
  '(r, e, s) ← (if fresh_enough t ttl e then
                  if wants_refresh soft t ttl e then Ok (None, set_refreshing e, s)
                  else
                    v ← deliver d (offs e) (value e);
                    Ok (Some v, if access_ms e <? t then set_access t e else e,
                        mk_stats (cntSet s) (cntGet s) (u64 (cntGetOK s + 1)) (num_entries s) (dataIN s)
                          (u64 (dataOUT s + elength e)) (cntPurge s) (size_values s) (total_freed_memory s))
                else Ok (None, e, s));
  Ok (r, store p (set_ref (u32 (ref_count e - 1)) e) k, s).

Record query_cache := mk_qc { KVs : list kv; qstats : stats; max_memory_size : Z }.

Section qc.
Context (Hash64 : list Z → Z → Z) (overhead : Z).

Definition table_of (hk : Z) : Z := u8 (hk mod SHARED_QUERY_CACHE_HASH_TABLES).

Fixpoint new_kvs (n : nat) : outcome (list kv) :=
  match n with O => Ok [] | S n' => k ← new_kv; r ← new_kvs n'; Ok (k :: r) end.
Definition new_query_cache (max : Z) : outcome query_cache :=
  l ← new_kvs (Z.to_nat SHARED_QUERY_CACHE_HASH_TABLES); Ok (mk_qc l no_stats max).

Definition set (user_hash : Z) (kp vp : list Z) (create curtime expire : Z) (d : bool) (q : query_cache)
  : outcome query_cache :=
  let hk := u64 (Hash64 kp user_hash) in
  e ← set_entry d hk (Z.of_nat (length kp)) vp create curtime expire;
  k ← read_at (KVs q) (table_of hk);
  '(k, s) ← replace e k (qstats q);
  l ← write_at (KVs q) (table_of hk) k;
  Ok (mk_qc l s (max_memory_size q)).

(** [get] without anything in between. *)
Definition get (soft user_hash : Z) (kp : list Z) (t ttl : Z) (d : bool) (q : query_cache)
  : outcome (option (list Z) * query_cache) :=
  let hk := u64 (Hash64 kp user_hash) in
  k ← read_at (KVs q) (table_of hk);
  '(p, k, s) ← lookup hk k (qstats q);
  '(r, k, s) ← (match p with None => Ok (None, k, s) | Some p => finish soft t ttl d p k s end);
  l ← write_at (KVs q) (table_of hk) k;
  Ok (r, mk_qc l s (max_memory_size q)).

Fixpoint flush_loop (l : list kv) : outcome (Z * list kv) :=
  match l with
  | [] => Ok (0, [])
  | k :: r => let n := cnt k in k ← empty k; '(m, r) ← flush_loop r; Ok (u64 (n + m), k :: r)
  end.
Definition flush (q : query_cache) : outcome (Z * query_cache) :=
  '(n, l) ← flush_loop (KVs q); Ok (n, mk_qc l (qstats q) (max_memory_size q)).

Definition get_data_size_total (q : query_cache) : Z :=
  u64 (SHARED_QUERY_CACHE_HASH_TABLES * get_data_size overhead (qstats q) + size_values (qstats q)).

Definition current_used_memory_pct (q : query_cache) : outcome Z :=
  let f24 := Fp.float in
  let pctf := SFdiv 24 128 (SFmul 24 128 (f24 (get_data_size_total q)) (f24 100)) (f24 (max_memory_size q)) in
  if SFltb (f24 100) pctf then Ok 100 else Fp.truncate pctf.

Fixpoint purge_tables (now : Z) (aggressive : bool) (l : list kv) (s : stats) : outcome (list kv * stats) :=
  match l with
  | [] => Ok ([], s)
  | k :: r => '(k, s) ← purge_some overhead now aggressive k s;
              '(r, s) ← purge_tables now aggressive r s; Ok (k :: r, s)
  end.
(** One turn of the purging thread. *)
Definition purge_turn (now : Z) (q : query_cache) : outcome query_cache :=
  curr_pct ← current_used_memory_pct q;
  if curr_pct <? DEFAULT_purge_threshold_pct_min then Ok q
  else '(l, s) ← purge_tables now (DEFAULT_purge_threshold_pct_max <? curr_pct) (KVs q) (qstats q);
       Ok (mk_qc l s (max_memory_size q)).
End qc.

(** ** Readers and purges interleaved *)
Module Store.

(** What of an entry never changes. *)
Definition data (e : entry) : Z * list Z * offsets * Z * Z := (key e, value e, offs e, create_ms e, elength e).

(** A store with its readers: the lookups that hit and did not finish, each with
    the entry as it was then. *)
Record st := mk { skv : kv; sstats : stats; readers : list (positive * entry) }.

Inductive op :=
  | Begin (kk : Z)                                    (* the lookup of [get] *)
  | Finish (n : nat) (soft t ttl : Z) (d : bool)      (* the rest of [get], for a reader *)
  | Replace (e : entry)                               (* [set], once it has built the entry *)
  | Scan (now : Z) (aggressive : bool)                (* [purge_some], under the read lock *)
  | Sweep (now : Z) (aggressive : bool) (mark : Z)    (* [purge_some], under the write lock *)
  | Empty.                                            (* [flush] *)

Definition exec (o : op) (m : st) : outcome st :=
  match o with
  | Begin kk =>
      '(p, k, s) ← lookup kk (skv m) (sstats m);
      match p with
      | Some p => e ← deref p k; Ok (mk k s (readers m ++ [(p, e)]))
      | None => Ok (mk k s (readers m))
      end
  | Finish n soft t ttl d =>
      match readers m !! n with
      | Some (p, _) => '(_, k, s) ← finish soft t ttl d p (skv m) (sstats m); Ok (mk k s (delete n (readers m)))
      | None => Ok m
      end
  | Replace e => '(k, s) ← replace e (skv m) (sstats m); Ok (mk k s (readers m))
  | Scan now aggressive =>
      _ ← scan_loop (Z.to_nat (PtrArray.len (ptrArray (skv m)))) 0 now aggressive (skv m) (mk_scanned 0 0 0 0); Ok m
  | Sweep now aggressive mark => '(k, s) ← sweep now aggressive mark (skv m) (sstats m); Ok (mk k s (readers m))
  | Empty => k ← empty (skv m); Ok (mk k (sstats m) (readers m))
  end.

Fixpoint exec_all (os : list op) (m : st) : outcome st :=
  match os with [] => Ok m | o :: r => m ← exec o m; exec_all r m end.

Definition init : outcome st := k ← new_kv; Ok (mk k no_stats []).

(** The number of readers of an object. *)
Definition nreaders (p : positive) (rs : list (positive * entry)) : Z :=
  Z.of_nat (length (filter (λ r, r.1 = p) rs)).

Definition deliverable (e : entry) : Prop := ∀ d, ∃ v, deliver d (offs e) (value e) = Ok v.

(** The reference counts and the readers: an entry the map leads to has one
    reference more than readers; an entry that was replaced has one less, and is
    marked for removal. *)
Definition counted (rs : list (positive * entry)) (p : positive) (e : entry) : Prop :=
  nreaders p rs <= ref_count e <= nreaders p rs + 1 ∧
  (ref_count e = nreaders p rs → expire_ms e = EXPIRE_DROPIT) ∧
  deliverable e ∧ 0 <= elength e < 2 ^ 32.

Record inv (m : st) (latest : gmap Z (Z * list Z * offsets * Z * Z)) : Prop := {
  i_array : ∃ l, PtrArray.repr (ptrArray (skv m)) l ∧ NoDup l ∧ (∀ p, p ∈ l ↔ is_Some (heap (skv m) !! p)) ∧
            num_entries (sstats m) = u64 (Z.of_nat (length l));
  i_map kk p : bt_map (skv m) !! kk = Some p → ∃ e, heap (skv m) !! p = Some e ∧ key e = kk ∧
               latest !! kk = Some (data e) ∧ ref_count e = nreaders p (readers m) + 1;
  i_count p e : heap (skv m) !! p = Some e → counted (readers m) p e;
  i_readers p e0 : (p, e0) ∈ readers m → ∃ e, heap (skv m) !! p = Some e ∧ data e = data e0;
  i_few : Z.of_nat (length (readers m)) + 1 < 2 ^ 32;
  i_size : size_values (sstats m) = u64 (map_total elength (heap (skv m)))
}.

(** *** Reader counts *)
Lemma nreaders_nonneg p rs : 0 <= nreaders p rs.
Proof. unfold nreaders. lia. Qed.

Lemma nreaders_le p rs : nreaders p rs <= Z.of_nat (length rs).
Proof. unfold nreaders. pose proof (length_filter (λ r : positive * entry, r.1 = p) rs). lia. Qed.

Lemma nreaders_pos p e rs : (p, e) ∈ rs → 1 <= nreaders p rs.
Proof.
  intros Hin. unfold nreaders. assert (Hf : (p, e) ∈ filter (λ r, r.1 = p) rs) by (by apply list_elem_of_filter).
  destruct (filter _ rs); [by apply elem_of_nil in Hf|cbn; lia].
Qed.

Lemma nreaders_zero p rs : (∀ e, (p, e) ∉ rs) → nreaders p rs = 0.
Proof.
  intros Hn. unfold nreaders. destruct (filter (λ r, r.1 = p) rs) as [|[q e] r] eqn:E; [done|].
  assert (Hf : (q, e) ∈ filter (λ r, r.1 = p) rs) by (rewrite E; by left).
  apply list_elem_of_filter in Hf as [Hq Hin]. cbn in Hq. subst q. by apply Hn in Hin.
Qed.

Lemma nreaders_snoc p q e rs : nreaders p (rs ++ [(q, e)]) = nreaders p rs + (if decide (q = p) then 1 else 0).
Proof.
  unfold nreaders. rewrite filter_app, length_app, filter_cons, filter_nil. cbn [fst].
  destruct (decide (q = p)); cbn [length]; lia.
Qed.

Lemma nreaders_delete p q e rs n :
  rs !! n = Some (q, e) → nreaders p (delete n rs) = nreaders p rs - (if decide (q = p) then 1 else 0).
Proof.
  intros Hn. rewrite <- (take_drop_middle rs n (q, e) Hn) at 2. rewrite delete_take_drop. unfold nreaders.
  rewrite !filter_app, !length_app, filter_cons. cbn [fst]. destruct (decide (q = p)); cbn [length]; lia.
Qed.

(** *** The operations keep the invariant *)
Lemma inv_init : ∃ m, init = Ok m ∧ inv m ∅ ∧ readers m = [].
Proof.
  unfold init, new_kv, PtrArray.create. cbn. eexists; split; [done|]. split; [|done].
  split; cbn.
  - exists []. split_and!; [by repeat split; cbn; lia|constructor| |done].
    intros p. rewrite lookup_empty, elem_of_nil. split; [done|by intros []].
  - intros kk p. by rewrite lookup_empty.
  - intros p e. by rewrite lookup_empty.
  - intros p e0. by rewrite elem_of_nil.
  - reflexivity.
  - by rewrite map_total_empty.
Qed.

(** Changing an entry in place: its data stays, and the new counts hold. *)
Lemma inv_store m latest p e e' rs s :
  inv m latest → heap (skv m) !! p = Some e → data e' = data e →
  (∀ q, q ≠ p → nreaders q rs = nreaders q (readers m)) →
  counted rs p e' → ref_count e' - ref_count e = nreaders p rs - nreaders p (readers m) →
  (∀ q e0, (q, e0) ∈ rs → (q, e0) ∈ readers m ∨ (q = p ∧ data e0 = data e)) →
  num_entries s = num_entries (sstats m) → size_values s = size_values (sstats m) →
  Z.of_nat (length rs) + 1 < 2 ^ 32 →
  inv (mk (store p e' (skv m)) s rs) latest.
Proof.
  intros H Hp Hd Hq Hc Hr Hin Hn Hsz Hfew. pose proof Hd as Hd'. injection Hd' as Hk Hv Ho Hcr Hlen.
  split; cbn [skv sstats readers store ptrArray heap bt_map].
  - destruct (i_array _ _ H) as (l & Hrep & Hnd & Hl & Hnum). exists l. split_and!; [done|done| |congruence].
    intros q. rewrite Hl. destruct (decide (p = q)) as [<-|]; [|by rewrite lookup_insert_ne].
    rewrite lookup_insert_eq, Hp. by split; eexists.
  - intros kk q Hmap. destruct (i_map _ _ H kk q Hmap) as (x & Hx & Hkk & Hlat & Href).
    destruct (decide (p = q)) as [<-|Hne].
    + exists e'. rewrite lookup_insert_eq. rewrite Hp in Hx. injection Hx as <-.
      split_and!; [done|congruence|congruence|lia].
    + exists x. rewrite lookup_insert_ne by done. rewrite Hq by done. done.
  - intros q x [[<- <-]|[Hne Hx]]%lookup_insert_Some; [done|].
    unfold counted. rewrite Hq by done. exact (i_count _ _ H q x Hx).
  - intros q e0 Hq0. destruct (Hin q e0 Hq0) as [Hold|[-> Hde]].
    + destruct (i_readers _ _ H q e0 Hold) as (x & Hx & Hdx). destruct (decide (p = q)) as [<-|Hne].
      * exists e'. rewrite lookup_insert_eq. split; [done|]. rewrite Hp in Hx. injection Hx as <-. congruence.
      * exists x. by rewrite lookup_insert_ne.
    + exists e'. rewrite lookup_insert_eq. split; [done|congruence].
  - exact Hfew.
  - rewrite Hsz, (i_size _ _ H), (map_total_update elength _ p e e' Hp). f_equal. lia.
Qed.

Lemma begin_inv m latest kk :
  inv m latest → Z.of_nat (length (readers m)) + 2 < 2 ^ 32 →
  ∃ m', exec (Begin kk) m = Ok m' ∧ inv m' latest ∧
    match bt_map (skv m) !! kk with
    | None => readers m' = readers m
    | Some p => ∃ e, readers m' = readers m ++ [(p, e)] ∧ latest !! kk = Some (data e)
    end.
Proof.
  intros H Hlen. cbn [exec]. unfold lookup. destruct (bt_map (skv m) !! kk) as [p|] eqn:Hmap.
  2: { cbn [mbind outcome_bind]. eexists. split; [done|]. split; [|done]. by destruct H; split. }
  destruct (i_map _ _ H kk p Hmap) as (e & He & Hkk & Hlat & Href). unfold deref. rewrite He.
  cbn [mbind outcome_bind store heap]. rewrite lookup_insert_eq. cbn [mbind outcome_bind].
  destruct (i_count _ _ H p e He) as (Hb & Hz & Hdel & Hl).
  assert (Hu : u32 (ref_count e + 1) = ref_count e + 1).
  { pose proof (nreaders_nonneg p (readers m)). apply u32_small.
    pose proof (nreaders_le p (readers m)). lia. }
  rewrite Hu. eexists. split; [done|]. split.
  - eapply inv_store; [exact H|exact He|done| | | | |done|done|rewrite length_app; cbn; lia].
    + intros q Hq. rewrite nreaders_snoc, decide_False by done. lia.
    + unfold counted. rewrite nreaders_snoc, decide_True by done. cbn. split_and!; [lia|lia|lia|done|lia|lia].
    + rewrite nreaders_snoc, decide_True by done. cbn. lia.
    + intros q e0 [Hin|Hin]%elem_of_app; [by left|]. apply list_elem_of_singleton in Hin. injection Hin as -> ->. by right.
  - eexists. split; [done|]. exact Hlat.
Qed.

Lemma finish_inv m latest n soft t ttl d p e0 :
  inv m latest → readers m !! n = Some (p, e0) →
  ∃ r k s, finish soft t ttl d p (skv m) (sstats m) = Ok (r, k, s) ∧ inv (mk k s (delete n (readers m))) latest ∧
    (r = None ∨ ∃ v, deliver d (offs e0) (value e0) = Ok v ∧ r = Some v).
Proof.
  intros H Hn. pose proof (list_elem_of_lookup_2 _ _ _ Hn) as Hin.
  destruct (i_readers _ _ H p e0 Hin) as (e & He & Hd). unfold finish, deref. rewrite He. cbn [mbind outcome_bind].
  destruct (i_count _ _ H p e He) as (Hb & Hz & Hdel & Hl). pose proof (nreaders_pos p e0 _ Hin) as Hpos.
  assert (Hinv : ∀ e' s, data e' = data e → ref_count e' = ref_count e → expire_ms e' = expire_ms e →
    num_entries s = num_entries (sstats m) → size_values s = size_values (sstats m) →
    inv (mk (store p (set_ref (u32 (ref_count e' - 1)) e') (skv m)) s (delete n (readers m))) latest).
  { intros e' s Hde Hre Hee Hns Hss. pose proof Hde as Hde'. injection Hde' as Hk Hv Ho Hcr Hle.
    assert (Hu : u32 (ref_count e' - 1) = ref_count e - 1).
    { rewrite Hre. apply u32_small. split; [lia|].
      pose proof (nreaders_le p (readers m)). pose proof (i_few _ _ H). lia. }
    rewrite Hu. eapply inv_store; [exact H|exact He|done| | | | |done|done|].
    - intros q Hq. rewrite (nreaders_delete q p e0) by done. rewrite decide_False by done. lia.
    - unfold counted. rewrite (nreaders_delete p p e0), decide_True by done. cbn. rewrite Hee.
      split_and!; [lia|lia| |unfold deliverable; cbn; by rewrite Ho, Hv|lia|lia]. intros Hx. apply Hz. lia.
    - rewrite (nreaders_delete p p e0), decide_True by done. cbn. lia.
    - intros q x Hx. left. rewrite delete_take_drop in Hx. rewrite <- (take_drop_middle _ _ _ Hn).
      apply elem_of_app in Hx as [Hx|Hx]; apply elem_of_app; [by left|right; by right].
    - pose proof (i_few _ _ H). rewrite length_delete by (rewrite Hn; by eexists). lia. }
  injection Hd as Hk Hv Ho Hcr Hle.
  destruct (fresh_enough t ttl e); [destruct (wants_refresh soft t ttl e)|]; cbn [mbind outcome_bind].
  - eexists _, _, _. split; [done|]. split; [by apply Hinv|by left].
  - destruct (Hdel d) as [v Hv']. rewrite Hv'. cbn [mbind outcome_bind].
    eexists _, _, _. split; [done|]. split; [by apply Hinv; try case_test|].
    right. exists v. rewrite <- Ho, <- Hv. done.
  - eexists _, _, _. split; [done|]. split; [by apply Hinv|by left].
Qed.

(** [replace]: the old entry loses the reference of the map. *)
Lemma inv_unlink m latest kk q o :
  inv m latest → bt_map (skv m) !! kk = Some q → heap (skv m) !! q = Some o →
  inv (mk (set_map (delete kk (bt_map (skv m))) (store q (set_ref (ref_count o - 1) (set_expire EXPIRE_DROPIT o)) (skv m)))
         (sstats m) (readers m)) latest.
Proof.
  intros H Hmap Ho. destruct (i_map _ _ H kk q Hmap) as (o' & Ho' & Hkk & Hlat & Href). rewrite Ho in Ho'. injection Ho' as <-.
  set (o1 := set_ref (ref_count o - 1) (set_expire EXPIRE_DROPIT o)).
  split; cbn [skv sstats readers store set_map ptrArray heap bt_map].
  - destruct (i_array _ _ H) as (l & Hrep & Hnd & Hl & Hnum). exists l. split_and!; [done|done| |done].
    intros p. rewrite Hl. destruct (decide (q = p)) as [<-|]; [|by rewrite lookup_insert_ne].
    rewrite lookup_insert_eq, Ho. by split; eexists.
  - intros k2 p [Hne Hp]%lookup_delete_Some. destruct (i_map _ _ H k2 p Hp) as (x & Hx & Hkx & Hlx & Hrx).
    exists x. rewrite lookup_insert_ne; [done|]. intros <-. rewrite Ho in Hx. injection Hx as <-. congruence.
  - intros p x [[<- <-]|[_ Hx]]%lookup_insert_Some; [|exact (i_count _ _ H p x Hx)].
    destruct (i_count _ _ H q o Ho) as (Hb & Hz & Hdel & Hl). unfold counted, o1. cbn.
    split_and!; [lia|lia|done|exact Hdel|lia|lia].
  - intros p e0 Hin. destruct (i_readers _ _ H p e0 Hin) as (x & Hx & Hd).
    destruct (decide (q = p)) as [<-|Hne]; [|exists x; by rewrite lookup_insert_ne].
    exists o1. rewrite lookup_insert_eq. split; [done|]. rewrite Ho in Hx. injection Hx as <-. exact Hd.
  - apply (i_few _ _ H).
  - rewrite (i_size _ _ H), (map_total_update elength _ q o o1 Ho). cbn. f_equal. lia.
Qed.

Lemma inv_link m latest p e a :
  inv m latest → heap (skv m) !! p = None → bt_map (skv m) !! key e = None →
  deliverable e → 0 <= elength e < 2 ^ 32 →
  (∀ l, PtrArray.repr (ptrArray (skv m)) l → PtrArray.repr a (l ++ [p])) →
  inv (mk (mk_kv (<[key e := p]> (bt_map (skv m))) a (<[p := set_ref 1 e]> (heap (skv m))))
         (count_set (elength e) (sstats m)) (readers m)) (<[key e := data e]> latest).
Proof.
  intros H Hp Hk Hdel Hle Ha.
  assert (Hnr : nreaders p (readers m) = 0).
  { apply nreaders_zero. intros e0 Hin. destruct (i_readers _ _ H p e0 Hin) as (x & Hx & _). congruence. }
  split; cbn [skv sstats readers ptrArray heap bt_map count_set num_entries size_values].
  - destruct (i_array _ _ H) as (l & Hrep & Hnd & Hl & Hnum). exists (l ++ [p]).
    assert (Hpl : p ∉ l) by (rewrite Hl, Hp; by intros []). split_and!; [by apply Ha| | |].
    + apply NoDup_app. split_and!; [done| |apply NoDup_singleton]. by intros x Hx ->%list_elem_of_singleton.
    + intros q. rewrite elem_of_app, list_elem_of_singleton, Hl. destruct (decide (p = q)) as [<-|].
      * rewrite lookup_insert_eq. split; [by eexists|by right].
      * rewrite lookup_insert_ne by done. split; [intros [|]; congruence|by left].
    + rewrite Hnum, length_app, u64_add_idemp. f_equal. cbn. lia.
  - intros kk q [[<- <-]|[Hne Hq]]%lookup_insert_Some.
    + exists (set_ref 1 e). rewrite !lookup_insert_eq, Hnr. done.
    + destruct (i_map _ _ H kk q Hq) as (x & Hx & Hkx & Hlx & Hrx). exists x.
      rewrite !lookup_insert_ne by (congruence || done). done.
  - intros q x [[<- <-]|[_ Hx]]%lookup_insert_Some; [|exact (i_count _ _ H q x Hx)].
    unfold counted. cbn. rewrite Hnr. split_and!; [lia|lia|lia|done|lia|lia].
  - intros q e0 Hin. destruct (i_readers _ _ H q e0 Hin) as (x & Hx & Hd). exists x.
    rewrite lookup_insert_ne; [done|congruence].
  - apply (i_few _ _ H).
  - rewrite (i_size _ _ H), u64_add_idemp, map_total_insert_new by done. cbn. f_equal. lia.
Qed.

Lemma replace_inv m latest e :
  inv m latest → deliverable e → 0 <= elength e < 2 ^ 32 → PtrArray.len (ptrArray (skv m)) < 2 ^ 31 →
  ∃ k s, replace e (skv m) (sstats m) = Ok (k, s) ∧ inv (mk k s (readers m)) (<[key e := data e]> latest) ∧
         PtrArray.len (ptrArray k) <= PtrArray.len (ptrArray (skv m)) + 1.
Proof.
  intros H Hdel Hle Hlen. unfold replace. set (p := fresh (dom (heap (skv m)))).
  assert (Hp : heap (skv m) !! p = None) by (apply not_elem_of_dom, is_fresh).
  destruct (i_array _ _ H) as (l & Hrep & _). pose proof Hrep as (Hl & _).
  destruct (PtrArray.add_repr (ptrArray (skv m)) l p Hrep) as (a & Ha & Hra); [lia|].
  assert (Hl1 : PtrArray.len a <= PtrArray.len (ptrArray (skv m)) + 1).
  { destruct Hra as [Hla _]. rewrite Hla, length_app. cbn. lia. }
  assert (Hall : ∀ l', PtrArray.repr (ptrArray (skv m)) l' → PtrArray.repr a (l' ++ [p])).
  { intros l' Hrep'. destruct (PtrArray.add_repr (ptrArray (skv m)) l' p Hrep') as (a' & Ha' & Hra');
      [destruct Hrep' as [Hl' _]; lia|]. congruence. }
  cbn [store ptrArray bt_map heap]. rewrite Ha. cbn [mbind outcome_bind bt_map].
  destruct (bt_map (skv m) !! key e) as [q|] eqn:Hmap.
  - destruct (i_map _ _ H _ q Hmap) as (o & Ho & Hkk & Hlat & Href). assert (Hpq : p ≠ q) by congruence.
    unfold deref. cbn [heap]. rewrite lookup_insert_ne, Ho by done. cbn [mbind outcome_bind].
    assert (Hu : u32 (ref_count o - 1) = ref_count o - 1).
    { pose proof (nreaders_nonneg q (readers m)). pose proof (nreaders_le q (readers m)).
      pose proof (i_few _ _ H). apply u32_small. lia. }
    rewrite Hu. eexists _, _. split; [done|]. split; [|exact Hl1].
    pose proof (inv_unlink m latest (key e) q o H Hmap Ho) as H1.
    apply (inv_link _ _ p e a) in H1; cbn [skv set_map store heap bt_map ptrArray sstats readers] in *; try done.
    + unfold store, set_map. cbn [bt_map ptrArray heap]. rewrite insert_insert_ne by done.
      rewrite insert_delete_eq in *. exact H1.
    + by rewrite lookup_insert_ne.
    + apply lookup_delete_eq.
  - eexists _, _. split; [done|]. split; [|exact Hl1]. by apply inv_link.
Qed.

(** *** The purge *)
Lemma scan_total m latest fuel (i : nat) now aggressive c l :
  inv m latest → PtrArray.repr (ptrArray (skv m)) l → (∀ p, p ∈ l → is_Some (heap (skv m) !! p)) →
  ∃ c', scan_loop fuel (Z.of_nat i) now aggressive (skv m) c = Ok c'.
Proof.
  intros H Hrep Hl. pose proof Hrep as (Hlen & _). revert i c.
  induction fuel as [|fuel IH]; intros i c; cbn [scan_loop]; [by eexists|].
  destruct (Z.ltb_spec (Z.of_nat i) (PtrArray.len (ptrArray (skv m)))); [|by eexists].
  destruct (lookup_lt_is_Some_2 l i) as [p Hp]; [lia|].
  rewrite (PtrArray.index_repr _ _ _ _ Hrep Hp). cbn [mbind outcome_bind].
  destruct (Hl p) as [e He]; [by eapply list_elem_of_lookup_2|]. unfold deref. rewrite He. cbn [mbind outcome_bind].
  replace (Z.of_nat i + 1) with (Z.of_nat (S i)) by lia. apply IH.
Qed.

(** No reader is the last one of an entry that was replaced. *)
Definition readers_safe (rs : list (positive * entry)) (k : kv) : Prop :=
  ∀ p e0 e, (p, e0) ∈ rs → heap k !! p = Some e → ref_count e ≠ 1.

Definition stats_after (s : stats) (removed freed : Z) : stats :=
  mk_stats (cntSet s) (cntGet s) (cntGetOK s) (u64 (num_entries s - removed)) (dataIN s) (dataOUT s)
           (u64 (cntPurge s + removed)) (u64 (size_values s - freed)) (u64 (total_freed_memory s + freed)).

Lemma u64_sub_succ a b c : u64 (a - u64 (b + c)) = u64 (u64 (a - b) - c).
Proof. unfold u64. rewrite Zminus_mod_idemp_r, Zminus_mod_idemp_l. f_equal. lia. Qed.

Lemma inv_free k s rs latest l (i : nat) p e removed freed :
  inv (mk k (stats_after s removed freed) rs) latest → PtrArray.repr (ptrArray k) l → NoDup l →
  (∀ q, q ∈ l ↔ is_Some (heap k !! q)) → num_entries (stats_after s removed freed) = u64 (Z.of_nat (length l)) →
  Z.of_nat (length l) < 2 ^ 31 → l !! i = Some p → heap k !! p = Some e → unused e = true → readers_safe rs k →
  ∃ k' l', free_entry (Z.of_nat i) p e k = Ok k' ∧
    inv (mk k' (stats_after s (u64 (removed + 1)) (u64 (freed + elength e))) rs) latest ∧
    PtrArray.repr (ptrArray k') l' ∧ swap_remove i l = Some (p, l') ∧ heap k' = delete p (heap k).
Proof.
  intros H Hrep Hnd Hl Hnum Hlen Hi He Hun Hsafe.
  destruct (swap_remove_is_Some i l) as (p' & l' & Hsw & Hi'); [by eapply lookup_lt_Some|].
  rewrite Hi in Hi'. injection Hi' as <-.
  destruct (PtrArray.remove_index_fast_repr _ l i p l' Hrep Hsw Hlen) as (a & Ha & Hra).
  unfold free_entry. rewrite Ha. cbn [mbind outcome_bind].
  assert (Hmap : match bt_map k !! key e with Some _ => delete (key e) (bt_map k) | None => bt_map k end
    = delete (key e) (bt_map k)).
  { destruct (bt_map k !! key e) eqn:E; [done|]. by rewrite delete_id. }
  rewrite Hmap. eexists _, l'. split; [done|]. split_and!; [|done|done|done].
  assert (Hnr : nreaders p rs = 0).
  { apply nreaders_zero. intros e0 Hin. apply (Hsafe p e0 e Hin He). unfold unused in Hun.
    destruct (i_count _ _ H p e He) as [Hb _]. cbn [readers] in Hb. pose proof (nreaders_pos p e0 _ Hin). lia. }
  pose proof (swap_remove_perm _ _ _ _ Hsw) as Hperm. pose proof (swap_remove_length _ _ _ _ Hsw) as Hsl.
  rewrite Hperm in Hnd. apply NoDup_cons in Hnd as [Hpn Hnd'].
  split; cbn [skv sstats readers ptrArray heap bt_map].
  - exists l'. split_and!; [done|done| |].
    + intros q. destruct (decide (p = q)) as [<-|Hne].
      * rewrite lookup_delete_eq. split; [done|by intros []].
      * rewrite lookup_delete_ne, <- Hl, Hperm, elem_of_cons by done. naive_solver.
    + cbn [stats_after num_entries] in *. rewrite u64_sub_succ, Hnum. rewrite u64_sub_idemp. f_equal. lia.
  - intros kk q [Hne Hq]%lookup_delete_Some. destruct (i_map _ _ H kk q Hq) as (x & Hx & Hkx & Hrest).
    exists x. cbn [skv] in Hx. rewrite lookup_delete_ne; [done|]. intros <-. rewrite He in Hx. injection Hx as <-. done.
  - intros q x [_ Hx]%lookup_delete_Some. exact (i_count _ _ H q x Hx).
  - intros q e0 Hin. destruct (i_readers _ _ H q e0 Hin) as (x & Hx & Hd). exists x. cbn [skv] in Hx.
    rewrite lookup_delete_ne; [done|]. intros <-. pose proof (nreaders_pos p e0 _ Hin). cbn [readers] in *. lia.
  - apply (i_few _ _ H).
  - pose proof (i_size _ _ H) as Hs. cbn [stats_after size_values sstats skv] in *.
    rewrite u64_sub_succ, Hs, u64_sub_idemp, (map_total_delete elength _ p e He). done.
Qed.

Definition stays (now : Z) (aggressive : bool) (mark : Z) (pe : positive * entry) : Prop :=
  drop_entry now aggressive mark pe.2 = false.
#[export] Instance stays_dec now aggressive mark pe : Decision (stays now aggressive mark pe).
Proof. unfold stays. apply _. Defined.

Lemma sweep_loop_spec now aggressive mark s rs latest fuel k l (i : nat) removed freed :
  inv (mk k (stats_after s removed freed) rs) latest → PtrArray.repr (ptrArray k) l → NoDup l →
  (∀ q, q ∈ l ↔ is_Some (heap k !! q)) → num_entries (stats_after s removed freed) = u64 (Z.of_nat (length l)) →
  Z.of_nat (length l) < 2 ^ 31 → readers_safe rs k → (i <= length l)%nat → (length l - i < fuel)%nat →
  (∀ j p e, (j < i)%nat → l !! j = Some p → heap k !! p = Some e → drop_entry now aggressive mark e = false) →
  ∃ k' removed' freed', sweep_loop fuel (Z.of_nat i) now aggressive mark k removed freed = Ok (k', removed', freed') ∧
    inv (mk k' (stats_after s removed' freed') rs) latest ∧ heap k' = filter (stays now aggressive mark) (heap k) ∧
    PtrArray.len (ptrArray k') <= PtrArray.len (ptrArray k).
Proof.
  revert k l i removed freed. induction fuel as [|fuel IH];
    intros k l i removed freed H Hrep Hnd Hl Hnum Hlen Hsafe Hi Hf Hvis; [lia|].
  cbn [sweep_loop]. pose proof Hrep as (Hll & _). destruct (Z.ltb_spec (Z.of_nat i) (PtrArray.len (ptrArray k))).
  2: { exists k, removed, freed. split_and!; [done|done| |lia]. rewrite map_filter_id; [done|].
       intros p e He. assert (Hp : p ∈ l) by (apply Hl; by eexists). apply list_elem_of_lookup_1 in Hp as [j Hj].
       unfold stays. cbn [snd]. apply (Hvis j p e); [apply lookup_lt_Some in Hj; lia|done|done]. }
  destruct (lookup_lt_is_Some_2 l i) as [p Hp]; [lia|].
  rewrite (PtrArray.index_repr _ _ _ _ Hrep Hp). cbn [mbind outcome_bind].
  destruct (proj1 (Hl p)) as [e He]; [by eapply list_elem_of_lookup_2|]. unfold deref. rewrite He. cbn [mbind outcome_bind].
  destruct (drop_entry now aggressive mark e) eqn:Hdrop.
  - assert (Hun : unused e = true) by (unfold drop_entry in Hdrop; by apply andb_true_iff in Hdrop as [? _]).
    destruct (inv_free k s rs latest l i p e removed freed H Hrep Hnd Hl Hnum Hlen Hp He Hun Hsafe)
      as (k1 & l1 & -> & Hinv1 & Hrep1 & Hsw & Hh1). cbn [mbind outcome_bind].
    pose proof (swap_remove_length _ _ _ _ Hsw) as Hsl. pose proof (swap_remove_perm _ _ _ _ Hsw) as Hperm.
    pose proof Hnd as Hnd1. rewrite Hperm in Hnd1. apply NoDup_cons in Hnd1 as [Hpn1 Hnd1].
    destruct (IH k1 l1 i (u64 (removed + 1)) (u64 (freed + elength e))) as (k2 & r2 & f2 & -> & Hinv2 & Hh2 & Hle2);
      try done; try lia.
    + intros q. rewrite Hh1. destruct (decide (p = q)) as [<-|Hne].
      * rewrite lookup_delete_eq. split; [done|by intros []].
      * rewrite lookup_delete_ne, <- Hl, Hperm, elem_of_cons by done. naive_solver.
    + cbn [stats_after num_entries] in *. rewrite u64_sub_succ, Hnum, u64_sub_idemp. f_equal. lia.
    + intros q e0 x Hin Hx. rewrite Hh1 in Hx. apply lookup_delete_Some in Hx as [_ Hx]. by apply (Hsafe q e0 x).
    + intros j q x Hj Hq Hx. rewrite Hh1 in Hx. apply lookup_delete_Some in Hx as [_ Hx].
      apply (Hvis j q x Hj); [|done]. rewrite <- (lookup_take_lt l i j), <- (swap_remove_take _ _ _ _ Hsw), lookup_take_lt by done.
      done.
    + exists k2, r2, f2. split_and!; [done|done| |].
      * rewrite Hh2, Hh1, map_filter_delete, delete_id; [done|].
        apply map_lookup_filter_None. right. intros x Hx. rewrite He in Hx. injection Hx as <-.
        unfold stays. cbn [snd]. congruence.
      * destruct Hrep1 as (Hl1 & _). lia.
  - replace (Z.of_nat i + 1) with (Z.of_nat (S i)) by lia.
    apply (IH k l (S i)); try done; try lia. intros j q x Hj Hq Hx.
    destruct (decide (j = i)) as [->|Hne]; [congruence|]. apply (Hvis j q x); [lia|done|done].
Qed.

Lemma sweep_inv m latest now aggressive mark :
  inv m latest → readers_safe (readers m) (skv m) → PtrArray.len (ptrArray (skv m)) < 2 ^ 31 →
  ∃ k s, sweep now aggressive mark (skv m) (sstats m) = Ok (k, s) ∧ inv (mk k s (readers m)) latest ∧
    heap k = filter (stays now aggressive mark) (heap (skv m)) ∧
    PtrArray.len (ptrArray k) <= PtrArray.len (ptrArray (skv m)).
Proof.
  intros H Hsafe Hlen. destruct (i_array _ _ H) as (l & Hrep & Hnd & Hl & Hnum). pose proof Hrep as (Hll & _).
  assert (Hnum0 : num_entries (stats_after (sstats m) 0 0) = num_entries (sstats m)).
  { cbn. rewrite Hnum, Z.sub_0_r. apply u64_u64. }
  assert (H0 : inv (mk (skv m) (stats_after (sstats m) 0 0) (readers m)) latest).
  { destruct H as [H1 H2 H3 H4 H5 H6]. split; cbn [skv sstats readers]; try done.
    - rewrite Hnum0. done.
    - cbn. rewrite Z.sub_0_r, H6. apply u64_u64. }
  unfold sweep.
  destruct (sweep_loop_spec now aggressive mark (sstats m) (readers m) latest
    (S (Z.to_nat (PtrArray.len (ptrArray (skv m))))) (skv m) l 0 0 0 H0 Hrep Hnd Hl)
    as (k & r & f & Hx & Hinv & Hh & Hle); [by rewrite Hnum0|lia|done|lia|lia|lia|].
  change (Z.of_nat 0) with 0 in Hx. rewrite Hx. cbn [mbind outcome_bind]. eexists _, _. split_and!; [done|exact Hinv|done|done].
Qed.

(** *** [empty] *)
Lemma empty_inv m latest fuel :
  inv m latest → (base.size (bt_map (skv m)) < fuel)%nat →
  ∃ k, empty_loop fuel (skv m) = Ok k ∧ inv (mk k (sstats m) (readers m)) latest ∧ bt_map k = ∅ ∧
       ptrArray k = ptrArray (skv m).
Proof.
  revert m. induction fuel as [|fuel IH]; intros m H Hf; [lia|]. cbn [empty_loop].
  destruct (in_key_order (bt_map (skv m))) as [|[kk p] r] eqn:E.
  - exists (skv m). split_and!; [done|by destruct m|  |done].
    apply map_eq. intros kk. rewrite lookup_empty. destruct (bt_map (skv m) !! kk) as [p|] eqn:Hp; [|done].
    apply in_key_order_elem in Hp. rewrite E in Hp. by apply elem_of_nil in Hp.
  - assert (Hp : bt_map (skv m) !! kk = Some p) by (apply in_key_order_elem; rewrite E; by left).
    destruct (i_map _ _ H kk p Hp) as (e & He & Hkk & Hlat & Href). unfold deref. rewrite He. cbn [mbind outcome_bind].
    assert (H1 : inv (mk (store p (set_expire EXPIRE_DROPIT e) (skv m)) (sstats m) (readers m)) latest).
    { eapply inv_store; [exact H|exact He|done|done| |cbn; lia|intros; by left|done|done|apply (i_few _ _ H)].
      destruct (i_count _ _ H p e He) as (Hb & Hz & Hdel & Hl). split; [done|]. by split. }
    assert (H2 : inv (mk (set_map (delete kk (bt_map (skv m))) (store p (set_expire EXPIRE_DROPIT e) (skv m)))
      (sstats m) (readers m)) latest).
    { destruct H1 as [Ha Hb Hc Hd Hg Hs]. split; try done. intros k2 q Hq. cbn [skv set_map bt_map store] in Hq.
      apply lookup_delete_Some in Hq as [_ Hq]. by apply (Hb k2 q). }
    destruct (IH _ H2) as (k & Hx & Hinv & Hb & Hpa).
    + cbn [skv set_map bt_map store].
      assert (base.size (bt_map (skv m)) = S (base.size (delete kk (bt_map (skv m))))); [|lia].
      rewrite <- (insert_delete_id (bt_map (skv m)) kk p Hp) at 1. by rewrite map_size_insert_None by apply lookup_delete_eq.
    + exists k. split_and!; [exact Hx|exact Hinv|done|done].
Qed.

(** *** Histories *)
Definition op_ok (o : op) (m : st) : Prop :=
  match o with
  | Begin _ => Z.of_nat (length (readers m)) + 2 < 2 ^ 32
  | Replace e => deliverable e ∧ 0 <= elength e < 2 ^ 32 ∧ PtrArray.len (ptrArray (skv m)) < 2 ^ 31
  | Sweep _ _ _ => readers_safe (readers m) (skv m) ∧ PtrArray.len (ptrArray (skv m)) < 2 ^ 31
  | Finish _ _ _ _ _ | Scan _ _ | Empty => True
  end.

(** The content of the last [set] of a key since the last flush. *)
Definition latest_step (o : op) (latest : gmap Z (Z * list Z * offsets * Z * Z)) :=
  match o with Replace e => <[key e := data e]> latest | Empty => ∅ | _ => latest end.

Lemma exec_inv o m latest :
  inv m latest → op_ok o m → ∃ m', exec o m = Ok m' ∧ inv m' (latest_step o latest).
Proof.
  intros H Hok. destruct o as [kk|n soft t ttl d|e|now agg|now agg mark|]; cbn [latest_step].
  - destruct (begin_inv m latest kk H Hok) as (m' & Hx & H' & _). by exists m'.
  - cbn [exec]. destruct (readers m !! n) as [[p e0]|] eqn:Hn; [|by exists m].
    destruct (finish_inv m latest n soft t ttl d p e0 H Hn) as (r & k & s & -> & H' & _). eexists. split; [done|exact H'].
  - destruct Hok as (Hd & Hl & Hlen). destruct (replace_inv m latest e H Hd Hl Hlen) as (k & s & Hx & H' & _).
    cbn [exec]. rewrite Hx. eexists. split; [done|exact H'].
  - destruct (i_array _ _ H) as (l & Hrep & _ & Hl & _).
    destruct (scan_total m latest (Z.to_nat (PtrArray.len (ptrArray (skv m)))) 0 now agg (mk_scanned 0 0 0 0) l H Hrep)
      as [c Hc]; [intros; by apply Hl|]. cbn [exec]. change (Z.of_nat 0) with 0 in Hc. rewrite Hc. by exists m.
  - destruct Hok as [Hs Hlen]. destruct (sweep_inv m latest now agg mark H Hs Hlen) as (k & s & Hx & H' & _).
    cbn [exec]. rewrite Hx. eexists. split; [done|exact H'].
  - destruct (empty_inv m latest (S (base.size (bt_map (skv m)))) H) as (k & Hx & H' & Hb & _); [lia|].
    cbn [exec]. unfold empty. rewrite Hx. eexists. split; [done|].
    destruct H' as [Ha Hm Hc Hr Hf Hs]. split; try done. intros kk p. cbn [skv]. by rewrite Hb, lookup_empty.
Qed.

Fixpoint ops_ok (os : list op) (m : st) : Prop :=
  match os with
  | [] => True
  | o :: r => op_ok o m ∧ match exec o m with Ok m' => ops_ok r m' | Fault _ => True end
  end.

Lemma cache_exec_all os m latest :
  inv m latest → ops_ok os m →
  ∃ m', exec_all os m = Ok m' ∧ inv m' (foldl (λ l o, latest_step o l) latest os).
Proof.
  revert m latest. induction os as [|o os IH]; intros m latest H Hok; [by exists m|].
  cbn [ops_ok] in Hok. destruct Hok as [Ho Hos]. destruct (exec_inv o m latest H Ho) as (m1 & Hx & H1).
  cbn [exec_all foldl]. rewrite Hx in *. cbn [mbind outcome_bind]. by apply IH.
Qed.

(** *** What a sweep does, whatever the readers *)
Lemma sweep_loop_heap now aggressive mark fuel k l (i : nat) removed freed :
  PtrArray.repr (ptrArray k) l → NoDup l → (∀ q, q ∈ l ↔ is_Some (heap k !! q)) →
  Z.of_nat (length l) < 2 ^ 31 → (i <= length l)%nat → (length l - i < fuel)%nat →
  (∀ j p e, (j < i)%nat → l !! j = Some p → heap k !! p = Some e → drop_entry now aggressive mark e = false) →
  ∃ k' removed' freed', sweep_loop fuel (Z.of_nat i) now aggressive mark k removed freed = Ok (k', removed', freed') ∧
    heap k' = filter (stays now aggressive mark) (heap k) ∧
    ∀ kk, ((∃ p e, heap k !! p = Some e ∧ key e = kk ∧ drop_entry now aggressive mark e = true) →
            bt_map k' !! kk = None) ∧ (bt_map k !! kk = None → bt_map k' !! kk = None).
Proof.
  revert k l i removed freed. induction fuel as [|fuel IH]; intros k l i removed freed Hrep Hnd Hl Hlen Hi Hf Hvis; [lia|].
  cbn [sweep_loop]. pose proof Hrep as (Hll & _). destruct (Z.ltb_spec (Z.of_nat i) (PtrArray.len (ptrArray k))).
  2: { assert (Hall : ∀ p e, heap k !! p = Some e → drop_entry now aggressive mark e = false).
       { intros p e He. assert (Hp : p ∈ l) by (apply Hl; by eexists). apply list_elem_of_lookup_1 in Hp as [j Hj].
         apply (Hvis j p e); [apply lookup_lt_Some in Hj; lia|done|done]. }
       exists k, removed, freed. split_and!; [done|by rewrite map_filter_id|]. intros kk. split; [|done].
       intros (p & e & He & _ & Hd). rewrite (Hall p e He) in Hd. done. }
  destruct (lookup_lt_is_Some_2 l i) as [p Hp]; [lia|].
  rewrite (PtrArray.index_repr _ _ _ _ Hrep Hp). cbn [mbind outcome_bind].
  destruct (proj1 (Hl p)) as [e He]; [by eapply list_elem_of_lookup_2|]. unfold deref. rewrite He. cbn [mbind outcome_bind].
  destruct (drop_entry now aggressive mark e) eqn:Hdrop.
  - destruct (swap_remove_is_Some i l) as (p' & l1 & Hsw & Hi'); [by eapply lookup_lt_Some|].
    rewrite Hp in Hi'. injection Hi' as <-.
    destruct (PtrArray.remove_index_fast_repr _ l i p l1 Hrep Hsw Hlen) as (a & Ha & Hra).
    unfold free_entry. rewrite Ha. cbn [mbind outcome_bind].
    pose proof (swap_remove_length _ _ _ _ Hsw) as Hsl. pose proof (swap_remove_perm _ _ _ _ Hsw) as Hperm.
    pose proof Hnd as Hnd1. rewrite Hperm in Hnd1. apply NoDup_cons in Hnd1 as [Hpn1 Hnd1].
    match goal with |- context [sweep_loop fuel _ _ _ _ ?kk ?r ?f] => set (k1 := kk);
      destruct (IH k1 l1 i r f) as (k2 & r2 & f2 & -> & Hh2 & Hb2) end; subst k1; cbn [heap ptrArray bt_map] in *;
      try done; try lia.
    + intros q. destruct (decide (p = q)) as [<-|Hne].
      * rewrite lookup_delete_eq. split; [done|by intros []].
      * rewrite lookup_delete_ne, <- Hl, Hperm, elem_of_cons by done. naive_solver.
    + intros j q x Hj Hq [_ Hx]%lookup_delete_Some.
      apply (Hvis j q x Hj); [|done]. by rewrite <- (lookup_take_lt l i j), <- (swap_remove_take _ _ _ _ Hsw), lookup_take_lt by done.
    + exists k2, r2, f2. split_and!; [done| |].
      * rewrite Hh2, map_filter_delete, delete_id; [done|].
        apply map_lookup_filter_None. right. intros x Hx. rewrite He in Hx. injection Hx as <-.
        unfold stays. cbn [snd]. congruence.
      * assert (Hdel : ∀ kk, kk = key e ∨ bt_map k !! kk = None → bt_map k2 !! kk = None).
        { intros kk Hkk. apply (proj2 (Hb2 kk)). destruct (bt_map k !! key e) eqn:E; [|destruct Hkk; congruence].
          destruct Hkk as [->|Hn]; [apply lookup_delete_eq|]. rewrite lookup_delete_ne; [done|congruence]. }
        intros kk. split; [|intros Hn; apply Hdel; by right]. intros (q & x & Hx & Hkx & Hd).
        destruct (decide (p = q)) as [<-|Hne]; [apply Hdel; left; congruence|].
        apply (proj1 (Hb2 kk)). exists q, x. by rewrite lookup_delete_ne.
  - replace (Z.of_nat i + 1) with (Z.of_nat (S i)) by lia.
    apply (IH k l (S i)); try done; try lia. intros j q x Hj Hq Hx.
    destruct (decide (j = i)) as [->|Hne]; [congruence|]. apply (Hvis j q x); [lia|done|done].
Qed.

Lemma sweep_heap m latest now aggressive mark :
  inv m latest → PtrArray.len (ptrArray (skv m)) < 2 ^ 31 →
  ∃ k s, sweep now aggressive mark (skv m) (sstats m) = Ok (k, s) ∧
    heap k = filter (stays now aggressive mark) (heap (skv m)) ∧
    ∀ kk p e, heap (skv m) !! p = Some e → key e = kk → drop_entry now aggressive mark e = true → bt_map k !! kk = None.
Proof.
  intros H Hlen. destruct (i_array _ _ H) as (l & Hrep & Hnd & Hl & _). pose proof Hrep as (Hll & _). unfold sweep.
  destruct (sweep_loop_heap now aggressive mark (S (Z.to_nat (PtrArray.len (ptrArray (skv m))))) (skv m) l 0 0 0 Hrep Hnd Hl)
    as (k & r & f & Hx & Hh & Hb); [lia|lia|lia|lia|].
  change (Z.of_nat 0) with 0 in Hx. rewrite Hx. cbn [mbind outcome_bind]. eexists _, _. split_and!; [done|done|].
  intros kk p e He Hk Hd. apply (proj1 (Hb kk)). by exists p, e.
Qed.

(** C30: over any interleaving of lookups, reads, stores, purges and flushes
    in which no purge meets the last reader of a replaced entry
    ([replaced_entry_freed_under_reader] is what happens then), with results that
    can be delivered and fewer readers and entries than their counters hold, nothing
    freed
    is touched; a key leads to the content of the last store of it since the
    last flush or to nothing; an entry being read still has the content it was
    found with; and the counters give the number and the size of the entries
    stored, modulo 2^64. *)
Theorem store_serves_latest os m0 :
  init = Ok m0 → ops_ok os m0 →
  ∃ m, exec_all os m0 = Ok m ∧
    (∀ kk p, bt_map (skv m) !! kk = Some p → ∃ e, heap (skv m) !! p = Some e ∧
       foldl (λ l o, latest_step o l) ∅ os !! kk = Some (data e)) ∧
    (∀ p e0, (p, e0) ∈ readers m → ∃ e, heap (skv m) !! p = Some e ∧ data e = data e0) ∧
    num_entries (sstats m) = u64 (Z.of_nat (base.size (heap (skv m)))) ∧
    size_values (sstats m) = u64 (map_total elength (heap (skv m))).
Proof.
  intros Hi Hok. destruct inv_init as (m1 & Hi1 & H0 & _). rewrite Hi in Hi1. injection Hi1 as <-.
  destruct (cache_exec_all os m0 ∅ H0 Hok) as (m & Hx & H). exists m. split_and!; [done| | | |apply (i_size _ _ H)].
  - intros kk p Hp. destruct (i_map _ _ H kk p Hp) as (e & He & _ & Hl & _). by exists e.
  - apply (i_readers _ _ H).
  - destruct (i_array _ _ H) as (l & Hrep & Hnd & Hl & ->). do 2 f_equal.
    rewrite <- (size_dom (heap (skv m)) (D := gset positive)).
    rewrite <- (size_list_to_set (C := gset positive) l Hnd). f_equal. apply set_eq. intros p.
    by rewrite elem_of_list_to_set, elem_of_dom, Hl.
Qed.

(** what [get] returns is what was cached. A reader that finds the entry
    under the lock and reads it later gets nothing, or the delivery of the
    content the entry had when it was found, which is that of the last store of
    the key. *)
Theorem reader_gets_latest m latest kk :
  inv m latest → Z.of_nat (length (readers m)) + 2 < 2 ^ 32 →
  ∃ m', exec (Begin kk) m = Ok m' ∧ inv m' latest ∧
    match bt_map (skv m) !! kk with
    | None => readers m' = readers m
    | Some p => ∃ e0, readers m' = readers m ++ [(p, e0)] ∧ latest !! kk = Some (data e0) ∧
        ∀ os m2, ops_ok os m' → exec_all os m' = Ok m2 → ∀ n, readers m2 !! n = Some (p, e0) →
          ∀ soft t ttl d, ∃ r k s, finish soft t ttl d p (skv m2) (sstats m2) = Ok (r, k, s) ∧
            (r = None ∨ ∃ v, deliver d (offs e0) (value e0) = Ok v ∧ r = Some v)
    end.
Proof.
  intros H Hlen. destruct (begin_inv m latest kk H Hlen) as (m' & Hx & H' & Hm). exists m'. split_and!; [done|done|].
  destruct (bt_map (skv m) !! kk) as [p|]; [|exact Hm]. destruct Hm as (e0 & Hr & Hl). exists e0. split_and!; [done|done|].
  intros os m2 Hok Hx2 n Hn soft t ttl d. destruct (cache_exec_all os m' latest H' Hok) as (m3 & Hx3 & H3).
  rewrite Hx2 in Hx3. injection Hx3 as <-.
  destruct (finish_inv m2 _ n soft t ttl d p e0 H3 Hn) as (r & k & s & Hf & _ & Hv). by exists r, k, s.
Qed.

Lemma replaced_state m latest e :
  inv m latest → op_ok (Replace e) m →
  ∃ m', exec (Replace e) m = Ok m' ∧ inv m' (<[key e := data e]> latest) ∧ readers m' = readers m ∧
    PtrArray.len (ptrArray (skv m')) <= PtrArray.len (ptrArray (skv m)) + 1 ∧
    (∃ q, bt_map (skv m') !! key e = Some q ∧ heap (skv m') !! q = Some (set_ref 1 e)) ∧
    ∀ p x, bt_map (skv m) !! key e = Some p → heap (skv m) !! p = Some x →
      heap (skv m') !! p = Some (set_ref (ref_count x - 1) (set_expire EXPIRE_DROPIT x)).
Proof.
  intros H (Hd & Hl & Hlen). destruct (replace_inv m latest e H Hd Hl Hlen) as (k & s & Hx & H' & Hle).
  exists (mk k s (readers m)). cbn [exec]. rewrite Hx. split_and!; [done|done|done|exact Hle| |].
  { revert Hx. unfold replace. cbn [store bt_map heap ptrArray].
    set (q := fresh (dom (heap (skv m)))). assert (Hq : heap (skv m) !! q = None) by (apply not_elem_of_dom, is_fresh).
    destruct (PtrArray.add q _) as [a|]; [|done]. cbn [mbind outcome_bind bt_map].
    destruct (bt_map (skv m) !! key e) as [p|] eqn:Hp.
    - destruct (i_map _ _ H _ p Hp) as (x & Hxp & _). unfold deref. cbn [heap].
      rewrite lookup_insert_ne, Hxp by congruence. cbn [mbind outcome_bind]. intros [= <- _].
      exists q. cbn [skv set_map store heap bt_map]. rewrite lookup_insert_eq, lookup_insert_ne, lookup_insert_eq by congruence. done.
    - cbn [mbind outcome_bind]. intros [= <- _]. exists q. cbn [skv set_map store heap bt_map]. by rewrite !lookup_insert_eq. }
  intros p x Hp Hh. destruct (i_map _ _ H _ p Hp) as (x' & Hx' & Hk & _ & Href). rewrite Hh in Hx'. injection Hx' as <-.
  revert Hx. unfold replace. cbn [store bt_map heap ptrArray].
  set (q := fresh (dom (heap (skv m)))). assert (Hq : heap (skv m) !! q = None) by (apply not_elem_of_dom, is_fresh).
  destruct (PtrArray.add q _) as [a|]; [|done]. cbn [mbind outcome_bind bt_map]. rewrite Hp.
  unfold deref. cbn [heap]. rewrite lookup_insert_ne, Hh by congruence. cbn [mbind outcome_bind].
  intros [= <- _]. cbn [skv set_map store heap]. rewrite lookup_insert_eq. do 2 f_equal.
  pose proof (nreaders_nonneg p (readers m)). pose proof (nreaders_le p (readers m)). pose proof (i_few _ _ H).
  apply u32_small. lia.
Qed.

(** a purge frees an entry while it is read. In every state of the
    store, when one client finds an entry nobody else is reading, another
    client stores the same key, and the purge runs before the first client has
    read the entry, the entry is freed, and the read touches freed memory: the
    purge takes a count of one for "not in use", but the last reader of a
    replaced entry is that one. *)
Theorem replaced_entry_freed_under_reader m latest e p now aggressive mark :
  inv m latest → Z.of_nat (length (readers m)) + 2 < 2 ^ 32 → op_ok (Replace e) m →
  PtrArray.len (ptrArray (skv m)) + 1 < 2 ^ 31 → bt_map (skv m) !! key e = Some p → nreaders p (readers m) = 0 →
  ∃ m', exec_all [Begin (key e); Replace e; Sweep now aggressive mark] m = Ok m' ∧
    ∀ soft t ttl d, exec (Finish (length (readers m)) soft t ttl d) m' = Fault OutOfBounds.
Proof.
  intros H Hlen Hok Hsz Hp Hnr. destruct (i_map _ _ H _ p Hp) as (x & Hx & Hk & _ & Href).
  destruct (begin_inv m latest (key e) H Hlen) as (m1 & Hx1 & H1 & Hm1). rewrite Hp in Hm1. destruct Hm1 as (e0 & Hr1 & _).
  assert (Hs1 : skv m1 = store p (set_ref (u32 (ref_count x + 1)) x) (skv m)).
  { revert Hx1. cbn [exec]. unfold lookup, deref. rewrite Hp, Hx. cbn [mbind outcome_bind store heap].
    rewrite lookup_insert_eq. cbn [mbind outcome_bind]. by intros [= <-]. }
  rewrite (u32_small (ref_count x + 1)) in Hs1 by lia.
  assert (Hok1 : op_ok (Replace e) m1) by (cbn in *; rewrite Hs1; exact Hok).
  destruct (replaced_state m1 latest e H1 Hok1) as (m2 & Hx2 & H2 & Hr2 & Hl2 & _ & Hh2).
  rewrite Hs1 in Hl2, Hh2. cbn [store bt_map heap ptrArray] in *. specialize (Hh2 p _ Hp (lookup_insert_eq _ _ _)).
  destruct (sweep_heap m2 _ now aggressive mark H2) as (k & s & Hsw & Hh & _); [lia|].
  exists (mk k s (readers m2)). split.
  - cbn [exec_all]. rewrite Hx1. cbn [mbind outcome_bind]. rewrite Hx2. cbn [mbind outcome_bind exec]. by rewrite Hsw.
  - intros soft t ttl d. cbn [exec readers skv sstats]. rewrite Hr2, Hr1, list_lookup_middle by done.
    assert (Hgone : heap k !! p = None); [|by unfold finish, deref; rewrite Hgone].
    rewrite Hh. apply map_lookup_filter_None. right. intros y Hy. rewrite Hh2 in Hy. injection Hy as <-.
    unfold stays, drop_entry, unused, dropped_by_time. cbn. rewrite (proj2 (Z.leb_le _ 1)) by lia. done.
Qed.

(** purging a replaced entry also removes its successor from the map.
    In every state of the store, when a key is stored again and the purge then
    frees the entry it had before, which nobody is reading, the key leads to
    nothing, however fresh the new content is; the new entry stays in memory
    until it expires. *)
Theorem purge_unlinks_successor m latest e p now mark :
  inv m latest → op_ok (Replace e) m → PtrArray.len (ptrArray (skv m)) + 1 < 2 ^ 31 →
  bt_map (skv m) !! key e = Some p → nreaders p (readers m) = 0 → now <= expire_ms e → 0 < expire_ms e →
  ∃ m1 m2 q, exec (Replace e) m = Ok m1 ∧ bt_map (skv m1) !! key e = Some q ∧
    exec (Sweep now false mark) m1 = Ok m2 ∧ bt_map (skv m2) !! key e = None ∧
    heap (skv m2) !! q = Some (set_ref 1 e).
Proof.
  intros H Hok Hsz Hp Hnr Hnow Hpos. destruct (i_map _ _ H _ p Hp) as (x & Hx & Hk & _ & Href).
  destruct (replaced_state m latest e H Hok) as (m1 & Hx1 & H1 & Hr1 & Hl1 & (q & Hq & Hhq) & Hh1).
  specialize (Hh1 p x Hp Hx).
  destruct (sweep_heap m1 _ now false mark H1) as (k & s & Hsw & Hh & Hb); [lia|].
  exists m1, (mk k s (readers m1)), q. split_and!; [done|done| | |].
  - cbn [exec]. by rewrite Hsw.
  - cbn [skv]. apply (Hb (key e) p _ Hh1); [done|]. unfold drop_entry, unused, dropped_by_time. cbn.
    by rewrite (proj2 (Z.leb_le _ 1)) by lia.
  - cbn [skv]. rewrite Hh. apply map_lookup_filter_Some. split; [done|].
    unfold stays, drop_entry, unused, dropped_by_time, EXPIRE_DROPIT. cbn.
    rewrite (proj2 (Z.eqb_neq (expire_ms e) 0)), (proj2 (Z.ltb_ge (expire_ms e) now)) by lia. done.
Qed.

(** *** Runs on concrete inputs *)
Definition toy_entry (create expire : Z) : entry :=
  mk_entry 7 (encode false (clear_warnings toy_rs)) 3 (Z.of_nat (length (encode false toy_rs)))
    create expire create false (offsets_of false toy_rs) 0.

Example toy_entry_set :
  set_entry false 7 3 (encode false toy_rs) 100 100 200 = Ok (toy_entry 100 200).
Proof. vm_compute. reflexivity. Qed.

Lemma toy_deliverable c x : deliverable (toy_entry c x).
Proof.
  intros d. eexists. exact (deliver_spec false d (clear_warnings toy_rs) (clear_valid toy_rs toy_valid)).
Qed.

Definition reader_ok (k : kv) (r : positive * entry) : Prop :=
  match heap k !! r.1 with Some e => ref_count e ≠ 1 | None => True end.
#[export] Instance reader_ok_dec k r : Decision (reader_ok k r).
Proof. unfold reader_ok. destruct (heap k !! r.1); apply _. Defined.
Lemma readers_safe_list rs k : Forall (reader_ok k) rs → readers_safe rs k.
Proof.
  intros Hall p e0 e Hin He. rewrite Forall_forall in Hall. specialize (Hall _ Hin). unfold reader_ok in Hall.
  cbn [fst] in Hall. by rewrite He in Hall.
Qed.

Definition toy_ops : list op :=
  [Replace (toy_entry 100 200); Begin 7; Begin 7; Replace (toy_entry 110 300); Finish 0 0 120 1000 true;
   Begin 8; Scan 120 true; Finish 0 0 120 1000 false; Sweep 120 false 0; Replace (toy_entry 120 300); Begin 7;
   Finish 0 0 130 1000 true].

Ltac solve_op :=
  lazymatch goal with
  | |- op_ok (Replace _) _ => split; [apply toy_deliverable|split; [vm_compute; by split|vm_compute; reflexivity]]
  | |- op_ok (Sweep _ _ _) _ =>
      split; [apply readers_safe_list, (bool_decide_unpack _); vm_compute; exact I|vm_compute; reflexivity]
  | |- op_ok (Begin _) _ => vm_compute; reflexivity
  | |- _ => exact I
  end.
Ltac solve_ops :=
  cbn [ops_ok];
  repeat (split; [solve_op|match goal with |- context [exec ?o ?m] =>
            let r := eval vm_compute in (exec o m) in change (exec o m) with r end; cbn iota]); exact I.

Definition toy_init : st := mk (mk_kv ∅ (PtrArray.mk 0 0 []) ∅) no_stats [].

Lemma store_serves_latest_witness :
  ∃ m, exec_all toy_ops toy_init = Ok m ∧
    (∀ kk p, bt_map (skv m) !! kk = Some p → ∃ e, heap (skv m) !! p = Some e ∧
       foldl (λ l o, latest_step o l) ∅ toy_ops !! kk = Some (data e)) ∧
    (∀ p e0, (p, e0) ∈ readers m → ∃ e, heap (skv m) !! p = Some e ∧ data e = data e0) ∧
    num_entries (sstats m) = u64 (Z.of_nat (base.size (heap (skv m)))) ∧
    size_values (sstats m) = u64 (map_total elength (heap (skv m))).
Proof. apply (store_serves_latest toy_ops toy_init); [reflexivity|]. unfold toy_ops. solve_ops. Defined.

(** The store after one [set]. *)
Definition toy_store : st := match exec (Replace (toy_entry 100 200)) toy_init with Ok m => m | Fault _ => toy_init end.
Lemma toy_store_inv : inv toy_store (<[7 := data (toy_entry 100 200)]> ∅).
Proof.
  destruct inv_init as (m0 & Hi & H0 & _). injection Hi as <-.
  destruct (exec_inv (Replace (toy_entry 100 200)) toy_init ∅ H0) as (m & Hx & H); [solve_op|].
  unfold toy_store. by rewrite Hx.
Qed.

Lemma reader_gets_latest_witness :
  ∃ m', exec (Begin 7) toy_store = Ok m' ∧ inv m' (<[7 := data (toy_entry 100 200)]> ∅) ∧
    ∃ p e0, bt_map (skv toy_store) !! 7 = Some p ∧ readers m' = readers toy_store ++ [(p, e0)] ∧
        data e0 = data (toy_entry 100 200) ∧
        ∀ os m2, ops_ok os m' → exec_all os m' = Ok m2 → ∀ n, readers m2 !! n = Some (p, e0) →
          ∀ soft t ttl d, ∃ r k s, finish soft t ttl d p (skv m2) (sstats m2) = Ok (r, k, s) ∧
            (r = None ∨ ∃ v, deliver d (offs e0) (value e0) = Ok v ∧ r = Some v).
Proof.
  destruct (reader_gets_latest toy_store _ 7 toy_store_inv) as (m' & Hx & H' & Hm); [vm_compute; reflexivity|].
  exists m'. split; [exact Hx|]. split; [exact H'|].
  destruct (bt_map (skv toy_store) !! 7) as [p|] eqn:Hp; [|exfalso; vm_compute in Hp; discriminate Hp].
  destruct Hm as (e0 & Hr & Hl & Hrest). exists p, e0. split; [done|]. split; [exact Hr|]. split; [|exact Hrest].
  rewrite lookup_insert_eq in Hl. congruence.
Defined.

Lemma replaced_entry_freed_under_reader_witness :
  ∃ m', exec_all [Begin 7; Replace (toy_entry 110 300); Sweep 120 false 0] toy_store = Ok m' ∧
    ∀ soft t ttl d, exec (Finish 0 soft t ttl d) m' = Fault OutOfBounds.
Proof.
  apply (replaced_entry_freed_under_reader toy_store _ (toy_entry 110 300) 1 120 false 0 toy_store_inv);
    [vm_compute; reflexivity|solve_op|vm_compute; reflexivity..].
Defined.

Lemma purge_unlinks_successor_witness :
  ∃ m1 m2 q, exec (Replace (toy_entry 110 300)) toy_store = Ok m1 ∧ bt_map (skv m1) !! 7 = Some q ∧
    exec (Sweep 120 false 0) m1 = Ok m2 ∧ bt_map (skv m2) !! 7 = None ∧
    heap (skv m2) !! q = Some (set_ref 1 (toy_entry 110 300)).
Proof.
  apply (purge_unlinks_successor toy_store _ (toy_entry 110 300) 1 120 0 toy_store_inv);
    [solve_op|vm_compute; reflexivity..|cbn; lia|cbn; lia].
Defined.
End Store.

(** ** The whole cache on a concrete input *)
Definition toy_hash (l : list Z) (seed : Z) : Z := foldr (λ c n, (c + 31 * n) mod 2 ^ 64) seed l.
Definition toy_overhead : Z := 120.
Example cache_run :
  (q ← new_query_cache 1000;
   q ← set toy_hash 1 [65] (encode false toy_rs) 100 100 200 false q;
   '(r1, q) ← get toy_hash 0 1 [65] 110 1000 true q;
   '(r2, q) ← get toy_hash 0 1 [65] 250 1000 true q;
   q ← set toy_hash 1 [65] (encode false toy_rs) 150 150 900 false q;
   pct ← current_used_memory_pct toy_overhead q;
   q ← purge_turn toy_overhead 300 q;
   '(r3, q) ← get toy_hash 0 1 [65] 310 1000 true q;
   '(n, _) ← flush q;
   Ok (r1, r2, pct, r3, n, num_entries (qstats q)))
  = Ok (Some (encode true (clear_warnings toy_rs)), None, 100, None, 0, 1).
Proof. vm_compute. reflexivity. Qed.
