(* ===== verification/LionRouter.v ===== *)
(** * LionRouter (lib/lionrouter.cpp)

    LionRouter sends a query to the TiDB server that runs next to the TiKV
    store holding most of the regions the query touches.  It keeps the
    placement of the servers, read once, and the placement of the regions,
    re-read every 30 seconds into the inactive half of a double buffer; a
    version number tells readers which half to use.  The JSON library, the
    order in which an [unordered_set] is enumerated and the random number are
    parameters; fetching files and URLs is I/O, so the operations take the
    text that was read.  Here a load and an evaluation are single steps;
    [LionSteps] splits them into their writes and reads. *)
From S2P Require Import Prelude StringUtils.

(** ** The JSON library

    [json_at_key] is [operator[]] on a constant value, which asserts that the member
    exists; [json_member] is [operator[]] on a variable, which adds a null member.
    [json_find] gives nothing, that is [end()], for a missing member and for a
    value that is not an object. *)
Class Json (J : Type) := {
  json_parse : list Z → outcome J;
  json_find : J → list Z → option J;
  json_size : J → Z;
  json_at_index : J → Z → outcome J;
  json_at_key : J → list Z → outcome J;
  json_member : J → list Z → outcome J;
  json_values : J → list J;
  json_items : J → list (list Z * J);
  json_get_int : J → outcome Z;
  json_get_string : J → outcome (list Z);
  json_eqb : J → J → bool
}.

(** ** Computations that keep the state they reached when they throw *)
Definition st (S A : Type) : Type := S → S * outcome A.
#[export] Instance st_ret {S} : MRet (st S) := λ A a s, (s, Ok a).
#[export] Instance st_bind {S} : MBind (st S) := λ A B k m s,
  let '(s', o) := m s in match o with Ok a => k a s' | Fault f => (s', Fault f) end.
Definition run {S A} (o : outcome A) : st S A := λ s, (s, o).
Definition modify {S} (f : S → S) : st S () := λ s, (f s, Ok ()).
Fixpoint st_iter {S A} (f : A → st S ()) (l : list A) : st S () :=
  match l with
  | [] => mret ()
  | x :: l' => _ ← f x; st_iter f l'
  end.

(** ** State *)
Record MetaInfo := mk_meta {
  virtual_region_id_map_ : gmap Z Z;
  region_primary_store_id_ : gmap Z Z;
  region_secondary_store_id_ : gmap Z (gset Z)
}.
Definition no_meta : MetaInfo := mk_meta ∅ ∅ ∅.

Record TxnLog := mk_log { log_keys : list Z; region_ids : gset Z; log_store_id : Z }.

(** What the init functions read once. *)
Record Placement := mk_placement {
  tidb2store : gmap (list Z) (list Z);
  store2tidb : gmap (list Z) (list Z);
  tidb2hostgroup : gmap (list Z) Z;
  tikv2storeID : gmap (list Z) Z;
  storeID2tikv : gmap Z (list Z);
  store_ids_ : gset Z
}.

(** The statistics the update thread prints and resets every 5 seconds. *)
Record Stats := mk_stats {
  store_sql_count : gmap Z Z;
  total_transactions : Z;
  cross_partition_transactions : Z;
  store_cross_partition_count : gmap Z Z;
  transaction_details : list TxnLog
}.
Definition no_stats : Stats := mk_stats ∅ 0 0 ∅ [].

Record LionRouter := mk_router {
  placement : Placement;
  stats : Stats;
  meta_info_ : MetaInfo * MetaInfo;
  version_ : Z
}.

Definition new_router : LionRouter := mk_router (mk_placement ∅ ∅ ∅ ∅ ∅ ∅) no_stats (no_meta, no_meta) 0.

Definition REGION_SIZE : Z := 10000.
Definition weight_ : Z := 10.

Definition on_placement (f : Placement → Placement) (r : LionRouter) : LionRouter :=
  mk_router (f (placement r)) (stats r) (meta_info_ r) (version_ r).
Definition on_stats (f : Stats → Stats) (r : LionRouter) : LionRouter :=
  mk_router (placement r) (f (stats r)) (meta_info_ r) (version_ r).

(** The half of the double buffer at index [i]. *)
Definition buffer (i : Z) (b : MetaInfo * MetaInfo) : MetaInfo := if i =? 0 then b.1 else b.2.
Definition set_buffer (i : Z) (m : MetaInfo) (b : MetaInfo * MetaInfo) : MetaInfo * MetaInfo :=
  if i =? 0 then (m, b.2) else (b.1, m).

(** [meta_info_[version_ % 2]], what every reader looks at. *)
Definition active (r : LionRouter) : MetaInfo := buffer (version_ r mod 2) (meta_info_ r).

(** ** Look-ups *)
Definition GetStoreForTidb (r : LionRouter) (tidb : list Z) : list Z :=
  default [] (tidb2store (placement r) !! tidb).
Definition GetStoreForRegion (r : LionRouter) (actual_region_id : Z) : Z :=
  default (-1) (region_primary_store_id_ (active r) !! actual_region_id).
Definition GetStoreIDForTiKV (r : LionRouter) (tikv_ip : list Z) : Z :=
  default (-1) (tikv2storeID (placement r) !! tikv_ip).
Definition GetTiKVForStoreID (r : LionRouter) (store_id : Z) : list Z :=
  default [] (storeID2tikv (placement r) !! store_id).
Definition throw_none {A} (o : option A) : outcome A :=
  match o with Some a => Ok a | None => Fault Exception end.
Definition GetRegionPrimaryStoreId (r : LionRouter) (virtual_region_id : Z) : outcome Z :=
  actual_region_id ← throw_none (virtual_region_id_map_ (active r) !! virtual_region_id);
  throw_none (region_primary_store_id_ (active r) !! actual_region_id).
Definition GetRegionSecondaryStoreId (r : LionRouter) (virtual_region_id : Z) : outcome (gset Z) :=
  actual_region_id ← throw_none (virtual_region_id_map_ (active r) !! virtual_region_id);
  throw_none (region_secondary_store_id_ (active r) !! actual_region_id).
(** The store ids in the order of [std::set]. *)
Definition GetAllStoreIds (r : LionRouter) : list Z := merge_sort Z.le (elements (store_ids_ (placement r))).

(** ** Reading the placement of the servers *)
Section Loading.
Context `{HJ : Json J}.

Definition field_int (v : J) (k : list Z) : outcome Z := w ← json_at_key v k; json_get_int w.

(** One entry of the file; the maps are written in this order, each after its
    value was converted, as C++17 sequences an assignment. *)
Definition init_tidb (kv : list Z * J) : st Placement () :=
  let '(key, value) := kv in
  tikv_ip ← run (v ← json_member value (str "tikv_ip"); json_get_string v);
  _ ← modify (λ p, mk_placement (<[key := tikv_ip]> (tidb2store p)) (<[tikv_ip := key]> (store2tidb p))
                 (tidb2hostgroup p) (tikv2storeID p) (storeID2tikv p) (store_ids_ p));
  hostgroup ← run (v ← json_member value (str "hostgroup"); json_get_int v);
  modify (λ p, mk_placement (tidb2store p) (store2tidb p)
                 (<[key := hostgroup]> (tidb2hostgroup p)) (tikv2storeID p) (storeID2tikv p) (store_ids_ p)).

Definition InitTidb2Store (root : J) : st Placement () := st_iter init_tidb (json_items root).

(** [address.substr(0, address.find(':'))]. *)
Definition host_of_address (address : list Z) : list Z := (span (λ c, negb (c =? 58)) address).1.

Definition load_store (store : J) : st Placement () :=
  store_id ← run (v ← json_at_key store (str "store"); field_int v (str "id"));
  address ← run (v ← json_at_key store (str "store"); w ← json_at_key v (str "address"); json_get_string w);
  let tikv_ip := host_of_address address in
  modify (λ p, mk_placement (tidb2store p) (store2tidb p) (tidb2hostgroup p)
                 (<[tikv_ip := store_id]> (tikv2storeID p)) (<[store_id := tikv_ip]> (storeID2tikv p))
                 ({[store_id]} ∪ store_ids_ p)).

(** The handlers swallow every exception, whatever was loaded before it. *)
Definition catch_exceptions {S} (m : st S ()) : st S () := λ s,
  match m s with
  | (s', Fault Exception) => (s', Ok ())
  | res => res
  end.

Definition UpdateTikv2Store (response : list Z) : st Placement () :=
  catch_exceptions
    (json_data ← run (json_parse (J := J) response);
     stores ← run (json_member json_data (str "stores"));
     st_iter load_store (json_values stores)).

(** ** Reading the placement of the regions *)
Definition secondary_of (leader peer : J) : outcome (option Z) :=
  pid ← json_at_key peer (str "id");
  lid ← json_at_key leader (str "id");
  if negb (json_eqb pid lid) then s ← field_int peer (str "store_id"); Ok (Some s) else Ok None.

Fixpoint secondaries (leader : J) (peers : list J) (acc : gset Z) : outcome (gset Z) :=
  match peers with
  | [] => Ok acc
  | peer :: peers' =>
      s ← secondary_of leader peer;
      secondaries leader peers' (match s with Some s => {[s]} ∪ acc | None => acc end)
  end.

Definition load_region (regions : J) (virtual_id : Z) : st MetaInfo () :=
  region ← run (json_at_index regions virtual_id);
  actual_id ← run (field_int region (str "region_id"));
  _ ← modify (λ m, mk_meta (<[i32 virtual_id := actual_id]> (virtual_region_id_map_ m))
                     (region_primary_store_id_ m) (region_secondary_store_id_ m));
  leader ← run (json_at_key region (str "leader"));
  peers ← run (json_at_key region (str "peers"));
  primary ← run (field_int leader (str "store_id"));
  _ ← modify (λ m, mk_meta (virtual_region_id_map_ m)
                     (<[actual_id := primary]> (region_primary_store_id_ m)) (region_secondary_store_id_ m));
  secondary_store_ids ← run (secondaries leader (json_values peers) ∅);
  modify (λ m, mk_meta (virtual_region_id_map_ m) (region_primary_store_id_ m)
                 (<[actual_id := secondary_store_ids]> (region_secondary_store_id_ m))).

(** The inactive half is cleared and filled; only a complete load moves the
    version on, so that readers switch to it. *)
Definition load_regions (regions : J) : st LionRouter () := λ r,
  let write_index := (version_ r + 1) mod 2 in
  let '(meta_info, o) := st_iter (load_region regions) (seqZ 0 (json_size regions)) no_meta in
  let loaded := set_buffer write_index meta_info (meta_info_ r) in
  match o with
  | Ok _ => (mk_router (placement r) (stats r) loaded ((version_ r + 1) mod 10), Ok ())
  | Fault f => (mk_router (placement r) (stats r) loaded (version_ r), Fault f)
  end.

Definition UpdateRegion2Store (response : list Z) : st LionRouter () :=
  catch_exceptions
    (data ← run (json_parse (J := J) response);
     regions ← run (throw_none (json_find data (str "record_regions")));
     load_regions regions).

End Loading.

(** ** Statistics *)
Definition count_one (k : Z) (m : gmap Z Z) : gmap Z Z := <[k := default 0 (m !! k) + 1]> m.

(** The loop over the keys: the regions and the stores of their leaders. *)
Fixpoint touched (r : LionRouter) (keys : list Z) (partitions stores : gset Z) : outcome (gset Z * gset Z) :=
  match keys with
  | [] => Ok (partitions, stores)
  | key :: keys' =>
      let region_id := Z.quot key REGION_SIZE in
      store ← GetRegionPrimaryStoreId r region_id;
      touched r keys' ({[region_id]} ∪ partitions) ({[store]} ∪ stores)
  end.

(** The counters are reset every few seconds, so that they stay far below the
    range of an [int]. *)
Definition RecordTransactionDetails (keys : list Z) (dst_store_id : Z) : st LionRouter () := λ r,
  let r := on_stats (λ t, mk_stats (store_sql_count t) (total_transactions t + 1) (cross_partition_transactions t)
                            (store_cross_partition_count t) (transaction_details t)) r in
  match touched r keys ∅ ∅ with
  | Fault f => (r, Fault f)
  | Ok (partitions, stores) =>
      if (1 <? Z.of_nat (base.size stores)) then
        (on_stats (λ t, mk_stats (store_sql_count t) (total_transactions t) (cross_partition_transactions t + 1)
                          (count_one dst_store_id (store_cross_partition_count t))
                          (transaction_details t ++ [mk_log keys partitions dst_store_id])) r, Ok ())
      else (r, Ok ())
  end.

(** The part of the update thread's turn that touches the statistics. *)
Definition reset_statistics : LionRouter → LionRouter := on_stats (λ _, no_stats).

(** ** The keys of a query *)

(** [std::string::find] of a string, from the start. *)
Fixpoint find_string (pat s : list Z) : option nat :=
  if bool_decide (take (length pat) s = pat) then Some 0%nat
  else match s with
       | [] => None
       | _ :: s' => S <$> find_string pat s'
       end.

(** [std::stoi] of a run of digits: it throws when the number is not an [int]. *)
Definition stoi (ds : list Z) : outcome Z :=
  if digits_value ds <=? 2 ^ 31 - 1 then Ok (digits_value ds) else Fault Exception.

Definition add_key (k : Z) (keys_set : list Z) : list Z :=
  if bool_decide (k ∈ keys_set) then keys_set else keys_set ++ [k].

(** One turn of the loop: what is left of the list, and the keys. *)
Definition parse_key (key_list keys_set : list Z) : outcome (list Z * list Z) :=
  let s := drop_while isspace key_list in
  let '(ds, s) := span isdigit s in
  keys_set ← match ds with [] => Ok keys_set | _ => key ← stoi ds; Ok (add_key key keys_set) end;
  Ok (drop 1 (drop_while (λ c, negb (c =? 44)) s), keys_set).

Fixpoint parse_keys (fuel : nat) (key_list keys_set : list Z) : outcome (list Z) :=
  match key_list with
  | [] => Ok keys_set
  | _ =>
      match fuel with
      | O => Fault Diverges
      | S fuel' => '(rest, keys_set) ← parse_key key_list keys_set; parse_keys fuel' rest keys_set
      end
  end.

Definition WHERE_IN : list Z := str "WHERE YCSB_KEY IN (".

(** The text between the parenthesis that ends the pattern and the next closing
    one. *)
Definition key_list_of (sql : list Z) : option (list Z) :=
  where_pos ← find_string WHERE_IN sql;
  start_pos ← find_string [40] (drop where_pos sql);
  let inside := drop (where_pos + start_pos + 1) sql in
  end_pos ← find_string [41] inside;
  Some (take end_pos inside).

(** The queries of a client *)
Section Routing.
(** How [std::vector(set.begin(), set.end())] lists an [unordered_set] whose
    elements were inserted in a given order. *)
Context (enumerate : list Z → list Z).

Definition ParseYcsbKey (sql : list Z) : outcome (list Z) :=
  match key_list_of sql with
  | None => Ok []
  | Some key_list => keys_set ← parse_keys (length key_list) key_list []; Ok (enumerate keys_set)
  end.

(** ** Choosing the host *)

(** The replicas a store has of the regions of the keys: leaders and
    followers. *)
Fixpoint count_replicas (r : LionRouter) (store_id : Z) (keys : list Z) (primary_count secondary_count : Z)
  : outcome (Z * Z) :=
  match keys with
  | [] => Ok (primary_count, secondary_count)
  | key :: keys' =>
      let region_id := Z.quot key REGION_SIZE in
      primary_store_id ← GetRegionPrimaryStoreId r region_id;
      secondary_store_ids ← GetRegionSecondaryStoreId r region_id;
      if primary_store_id =? store_id then count_replicas r store_id keys' (primary_count + 1) secondary_count
      else if bool_decide (store_id ∈ secondary_store_ids) then count_replicas r store_id keys' primary_count (secondary_count + 1)
      else count_replicas r store_id keys' primary_count secondary_count
  end.

Record scan_state := mk_scan { best_store_ids : list Z; idx : Z; min_cost : Z }.

Definition consider (r : LionRouter) (keys : list Z) (store_id : Z) (s : scan_state) : outcome scan_state :=
  '(primary_count, secondary_count) ← count_replicas r store_id keys 0 0;
  let cost := - (primary_count * weight_ + secondary_count) in
  if min_cost s =? cost then
    best ← write_at (best_store_ids s) (idx s) store_id; Ok (mk_scan best (idx s + 1) (min_cost s))
  else if cost <? min_cost s then
    best ← write_at (best_store_ids s) 0 store_id; Ok (mk_scan best 1 cost)
  else Ok s.

Fixpoint consider_all (r : LionRouter) (keys stores : list Z) (s : scan_state) : outcome scan_state :=
  match stores with
  | [] => Ok s
  | store_id :: stores' => s ← consider r keys store_id s; consider_all r keys stores' s
  end.

Definition choose (r : LionRouter) (keys : list Z) (random : Z) : outcome Z :=
  let stores := GetAllStoreIds r in
  s ← consider_all r keys stores (mk_scan (repeat 0 (length stores)) 0 0);
  if idx s =? 0 then Fault DivByZero else read_at (best_store_ids s) (Z.rem random (idx s)).

(** From a store to the hostgroup of the TiDB server next to it. *)
Definition host_of_store (r : LionRouter) (best_store_id : Z) : outcome Z :=
  let best_tikv_ip := GetTiKVForStoreID r best_store_id in
  if bool_decide (best_tikv_ip = []) then Fault Exception
  else
    best_tidb_ip ← throw_none (store2tidb (placement r) !! best_tikv_ip);
    throw_none (tidb2hostgroup (placement r) !! best_tidb_ip).

(** [locked] is whether [try_lock] succeeds. *)
Definition EvaluateHost (keys : list Z) (random : Z) (locked : bool) : st LionRouter Z := λ r,
  match choose r keys random with
  | Fault f => (r, Fault f)
  | Ok best_store_id =>
      (_ ← RecordTransactionDetails keys best_store_id;
       hostgroup_id ← (λ r, (r, host_of_store r best_store_id));
       _ ← (if locked then
              modify (on_stats (λ t, mk_stats (count_one best_store_id (store_sql_count t)) (total_transactions t)
                (cross_partition_transactions t) (store_cross_partition_count t) (transaction_details t)))
            else mret ());
       mret hostgroup_id) r
  end.

(** The branch of the query processor that asks LionRouter: a query without
    keys, and any exception, leave the hostgroup undecided. *)
Definition lion_hostgroup (query : list Z) (random : Z) (locked : bool) : st LionRouter Z := λ r,
  match ParseYcsbKey query with
  | Fault Exception => (r, Ok (-1))
  | Fault f => (r, Fault f)
  | Ok keys =>
      if 0 <? Z.of_nat (length keys) then
        match EvaluateHost keys random locked r with
        | (r', Fault Exception) => (r', Ok (-1))
        | res => res
        end
      else (r, Ok (-1))
  end.

End Routing.

(** ** The host that is chosen *)
Section Choice.
Implicit Types (r : LionRouter) (keys : list Z).

(** Both replica tables know the region of the key. *)
Definition leader_of r (key : Z) : outcome Z := GetRegionPrimaryStoreId r (Z.quot key REGION_SIZE).
Definition followers_of r (key : Z) : outcome (gset Z) := GetRegionSecondaryStoreId r (Z.quot key REGION_SIZE).
Definition placed r (key : Z) : Prop :=
  (∃ s, leader_of r key = Ok s) ∧ (∃ ss, followers_of r key = Ok ss).

(** What a store is worth for a key, and for a query. *)
Definition score r (store key : Z) : Z :=
  if bool_decide (leader_of r key = Ok store) then weight_
  else match followers_of r key with
       | Ok ss => if bool_decide (store ∈ ss) then 1 else 0
       | Fault _ => 0
       end.
Definition affinity r keys (store : Z) : Z := foldr Z.add 0 (score r store <$> keys).

(** The stores no other store beats. *)
Definition best_stores r keys : list Z :=
  filter (λ s, Forall (λ s', affinity r keys s' <= affinity r keys s) (GetAllStoreIds r)) (GetAllStoreIds r).

(** Two keys of the query have leaders on different stores. *)
Definition crosses r keys : Prop :=
  Exists (λ k1, Exists (λ k2, leader_of r k1 ≠ leader_of r k2) keys) keys.
#[global] Instance crosses_dec r keys : Decision (crosses r keys).
Proof. unfold crosses. apply _. Defined.

Lemma score_nonneg r store key : 0 <= score r store key.
Proof.
  unfold score, weight_. case_bool_decide; [lia|].
  destruct (followers_of r key); [case_bool_decide|]; lia.
Qed.

Lemma affinity_cons r k keys store : affinity r (k :: keys) store = score r store k + affinity r keys store.
Proof. done. Qed.

Lemma affinity_nonneg r keys store : 0 <= affinity r keys store.
Proof.
  induction keys as [|k keys IH]; [done|]. rewrite affinity_cons.
  pose proof (score_nonneg r store k). lia.
Qed.

Lemma affinity_perm r keys keys' store : keys ≡ₚ keys' → affinity r keys store = affinity r keys' store.
Proof. induction 1; rewrite ?affinity_cons; lia. Qed.

Lemma GetAllStoreIds_elem r s : s ∈ GetAllStoreIds r ↔ s ∈ store_ids_ (placement r).
Proof. unfold GetAllStoreIds. by rewrite merge_sort_Permutation, elem_of_elements. Qed.

Lemma count_replicas_spec r store keys a b :
  Forall (placed r) keys →
  ∃ p q, count_replicas r store keys a b = Ok (p, q) ∧ p * weight_ + q = a * weight_ + b + affinity r keys store.
Proof.
  intros Hp. revert a b. induction Hp as [|k keys [[s Hs] [ss Hss]] _ IH]; intros a b.
  { exists a, b. split; [done | apply Z.add_0_r || (unfold affinity; simpl; lia)]. }
  rewrite affinity_cons. cbn [count_replicas].
  unfold leader_of in Hs. unfold followers_of in Hss. rewrite Hs. cbn [mbind outcome_bind]. rewrite Hss. cbn [mbind outcome_bind].
  unfold score, leader_of, followers_of. rewrite Hs, Hss.
  assert (bool_decide (Ok s = Ok store) = (s =? store)) as ->.
  { destruct (Z.eqb_spec s store) as [->|Hne]; [by apply bool_decide_eq_true_2|].
    apply bool_decide_eq_false_2. congruence. }
  unfold weight_ in *. destruct (s =? store); [|destruct (bool_decide (store ∈ ss))].
  - destruct (IH (a + 1) b) as (p & q & -> & He). exists p, q. split; [done | lia].
  - destruct (IH a (b + 1)) as (p & q & -> & He). exists p, q. split; [done | lia].
  - destruct (IH a b) as (p & q & -> & He). exists p, q. split; [done | lia].
Qed.

(** The scan after the stores [P]: the ties so far fill the front of the array. *)
Definition scanned r keys (P : list Z) (n : nat) (s : scan_state) : Prop :=
  ∃ ties rest m,
    s = mk_scan (ties ++ rest) (Z.of_nat (length ties)) (- m) ∧
    length (ties ++ rest) = n ∧ (length ties <= length P)%nat ∧
    ties = filter (λ s, affinity r keys s = m) P ∧
    Forall (λ s, affinity r keys s <= m) P ∧ (m = 0 ∨ ∃ s, s ∈ P ∧ affinity r keys s = m).

Lemma consider_spec r keys P n s store :
  Forall (placed r) keys → (length P < n)%nat → scanned r keys P n s →
  ∃ s', consider r keys store s = Ok s' ∧ scanned r keys (P ++ [store]) n s'.
Proof.
  intros Hk HP (ties & rest & m & -> & Hn & Hlen & Ht & Hle & Hm).
  unfold consider. destruct (count_replicas_spec r store keys 0 0 Hk) as (p & q & -> & Hpq).
  cbn [mbind outcome_bind]. cbn [min_cost best_store_ids idx].
  replace (p * weight_ + q) with (affinity r keys store) by lia.
  destruct rest as [|x rest].
  { rewrite app_nil_r in Hn. lia. }
  destruct (Z.eqb_spec (- m) (- affinity r keys store)) as [E|E];
    [|destruct (Z.ltb_spec (- affinity r keys store) (- m)) as [Hlt|Hge]].
  - rewrite write_next. cbn [mbind outcome_bind]. eexists. split; [done|].
    exists (ties ++ [store]), rest, m. split_and!.
    + by rewrite <- length_snoc.
    + rewrite <- Hn, !length_app. simpl. lia.
    + rewrite !length_app. simpl. lia.
    + rewrite filter_app, <- Ht, filter_cons_True, filter_nil by lia. done.
    + apply Forall_app. split; [done | repeat constructor; lia].
    + right. exists store. split; [set_solver | lia].
  - rewrite write_at_ok by (rewrite length_app; simpl; lia). cbn [mbind outcome_bind]. eexists. split; [done|].
    exists [store], (tail (ties ++ x :: rest)), (affinity r keys store). split_and!.
    + destruct ties; done.
    + rewrite <- Hn. destruct ties; simpl; lia.
    + rewrite length_app. simpl. lia.
    + rewrite filter_app, filter_cons_True, filter_nil by done.
      assert (filter (λ s, affinity r keys s = affinity r keys store) P = []) as ->; [|done].
      apply elem_of_nil_inv. intros s0 [He Hs0]%list_elem_of_filter.
      rewrite Forall_forall in Hle. apply Hle in Hs0. lia.
    + apply Forall_app. split; [eapply Forall_impl; [exact Hle | simpl; lia] | repeat constructor; lia].
    + right. exists store. split; [set_solver | lia].
  - eexists. split; [done|]. exists ties, (x :: rest), m. split_and!; [done|done|rewrite length_app; lia| | |].
    + rewrite filter_app, <- Ht, filter_cons_False, filter_nil, app_nil_r by lia. done.
    + apply Forall_app. split; [done | repeat constructor; lia].
    + destruct Hm as [->|(s0 & Hs0 & He)]; [by left|]. right. exists s0. split; [set_solver | done].
Qed.

Lemma consider_all_spec r keys stores P n s :
  Forall (placed r) keys → (length P + length stores <= n)%nat → scanned r keys P n s →
  ∃ s', consider_all r keys stores s = Ok s' ∧ scanned r keys (P ++ stores) n s'.
Proof.
  intros Hk. revert P s. induction stores as [|x stores IH]; intros P s Hn Hs.
  { rewrite app_nil_r. eauto. }
  cbn [consider_all length] in *. destruct (consider_spec r keys P n s x Hk) as (s' & -> & Hs'); [lia | done |].
  cbn [mbind outcome_bind]. destruct (IH (P ++ [x]) s') as (s'' & -> & Hs''); [rewrite length_app; simpl; lia | done |].
  rewrite <- app_assoc in Hs''. eauto.
Qed.

(** Once every store is considered, the ties are the best stores. *)
Lemma choose_scan r keys :
  Forall (placed r) keys → GetAllStoreIds r ≠ [] →
  ∃ rest m, consider_all r keys (GetAllStoreIds r)
              (mk_scan (repeat 0 (length (GetAllStoreIds r))) 0 0) =
            Ok (mk_scan (best_stores r keys ++ rest) (Z.of_nat (length (best_stores r keys))) m) ∧
            best_stores r keys ≠ [].
Proof.
  intros Hk Hne. set (l := GetAllStoreIds r) in *.
  destruct (consider_all_spec r keys l [] (length l) (mk_scan (repeat 0 (length l)) 0 0)) as (s' & -> & Hs'); [done|done| |].
  { exists [], (repeat 0 (length l)), 0. split_and!; try done; [by rewrite app_nil_l, List.repeat_length | by left]. }
  destruct Hs' as (ties & rest & m & -> & Hn & _ & Ht & Hle & Hm). simpl in Ht, Hle, Hm.
  assert (Hat : ∃ s, s ∈ l ∧ affinity r keys s = m).
  { destruct Hm as [->|Hm]; [|done]. destruct l as [|s l']; [done|]. exists s. split; [set_solver|].
    inversion Hle as [|? ? Hs _]; subst. pose proof (affinity_nonneg r keys s). lia. }
  assert (Hb : best_stores r keys = ties).
  { rewrite Ht. unfold best_stores. fold l. destruct Hat as (s0 & Hs0 & <-).
    rewrite (list_filter_iff _ (λ s, affinity r keys s0 <= affinity r keys s)).
    - clear -Hle. induction Hle as [|x l Hx _ IH]; [done|]. rewrite !filter_cons, IH.
      repeat case_decide; done || lia.
    - intros s. rewrite !Forall_forall in *. split; [by intros H; apply H|].
      intros Hs s' Hs'. etrans; [by apply Hle | done]. }
  rewrite Hb. exists rest, (- m). split; [done|]. rewrite Ht. destruct Hat as (s0 & Hs0 & Hm0).
  intros Hnil. apply (filter_nil_not_elem_of _ _ s0 Hnil Hm0 Hs0).
Qed.

Lemma choose_spec r keys random :
  0 <= random → Forall (placed r) keys → GetAllStoreIds r ≠ [] →
  ∃ best, best_stores r keys !! Z.to_nat (random mod Z.of_nat (length (best_stores r keys))) = Some best ∧
    choose r keys random = Ok best.
Proof.
  intros Hr Hk Hne. unfold choose.
  destruct (choose_scan r keys Hk Hne) as (rest & m & -> & Hb). cbn [mbind outcome_bind idx best_store_ids].
  set (b := best_stores r keys) in *. assert (0 < Z.of_nat (length b)) by (destruct b; [done | simpl; lia]).
  rewrite (proj2 (Z.eqb_neq _ _)) by lia. rewrite Z.rem_mod_nonneg by lia.
  pose proof (Z.mod_pos_bound random (Z.of_nat (length b))).
  destruct (lookup_lt_is_Some_2 b (Z.to_nat (random mod Z.of_nat (length b)))) as [best Hbest]; [lia|].
  exists best. split; [done|]. apply read_at_Some. split; [lia|]. by apply lookup_app_l_Some.
Qed.

Lemma best_stores_elem r keys s :
  s ∈ best_stores r keys ↔
  s ∈ store_ids_ (placement r) ∧ ∀ s', s' ∈ store_ids_ (placement r) → affinity r keys s' <= affinity r keys s.
Proof.
  unfold best_stores. rewrite list_elem_of_filter, Forall_forall, GetAllStoreIds_elem.
  setoid_rewrite GetAllStoreIds_elem. tauto.
Qed.

(** *** The statistics *)
Lemma touched_spec r keys P S :
  Forall (placed r) keys →
  touched r keys P S = Ok (list_to_set ((λ k, Z.quot k REGION_SIZE) <$> keys) ∪ P,
                           list_to_set (omap (λ k, match leader_of r k with Ok s => Some s | _ => None end) keys) ∪ S).
Proof.
  intros Hk. revert P S. induction Hk as [|k keys [[s Hs] _] _ IH]; intros P S; cbn [touched].
  { f_equal. f_equal; set_solver. }
  cbn [omap list_omap]. rewrite Hs. unfold leader_of in Hs. rewrite Hs. cbn [mbind outcome_bind].
  rewrite IH, fmap_cons. cbn [list_to_set]. f_equal. f_equal; set_solver.
Qed.

(** More than one store leads regions of the query exactly when two keys
    disagree. *)
Lemma crosses_size r keys :
  Forall (placed r) keys →
  (1 <? Z.of_nat (base.size (list_to_set (C := gset Z) (omap (λ k, match leader_of r k with Ok s => Some s | _ => None end) keys)
      ∪ ∅))) = bool_decide (crosses r keys).
Proof.
  intros Hk. set (X := _ ∪ ∅ : gset Z).
  assert (HX : ∀ s, s ∈ X ↔ ∃ k, k ∈ keys ∧ leader_of r k = Ok s).
  { intros s. unfold X. rewrite union_empty_r_L, elem_of_list_to_set, list_elem_of_omap.
    apply exist_proper. intros k. destruct (leader_of r k); naive_solver. }
  assert (Hl : ∀ k, k ∈ keys → ∃ s, leader_of r k = Ok s ∧ s ∈ X).
  { intros k Hin. rewrite Forall_forall in Hk. destruct (Hk k Hin) as [[s Hs] _].
    exists s. split; [done|]. apply HX. eauto. }
  unfold crosses. case_bool_decide as Hc.
  - apply Exists_exists in Hc as (k1 & Hk1 & (k2 & Hk2 & Hne)%Exists_exists).
    destruct (Hl k1 Hk1) as (s1 & E1 & Hs1), (Hl k2 Hk2) as (s2 & E2 & Hs2).
    apply Z.ltb_lt. assert (({[s1; s2]} : gset Z) ⊆ X) as Hsub%subseteq_size by set_solver.
    assert (s1 ≠ s2) by congruence. assert (({[s1]} : gset Z) ## {[s2]}) by set_solver.
    rewrite size_union, !size_singleton in Hsub by done. lia.
  - apply Z.ltb_ge. destruct (set_choose_or_empty X) as [[s Hs]|He].
    + assert (X ⊆ ({[s]} : gset Z)) as Hsub%subseteq_size; [|rewrite size_singleton in Hsub; lia].
      intros s' Hs'. apply HX in Hs as (k & Hk1 & E), Hs' as (k' & Hk2 & E').
      destruct (decide (s' = s)) as [->|Hne]; [set_solver|]. destruct Hc.
      apply Exists_exists. exists k. split; [done|]. apply Exists_exists. exists k'. split; [done | congruence].
    + apply leibniz_equiv in He. rewrite He, size_empty. lia.
Qed.

(** The statistics after a query is routed to [best]. *)
Definition routed_stats r keys best (locked : bool) (t : Stats) : Stats :=
  let crossing := bool_decide (crosses r keys) in
  let found := match host_of_store r best with Ok _ => true | Fault _ => false end in
  mk_stats (if locked && found then count_one best (store_sql_count t) else store_sql_count t)
    (total_transactions t + 1)
    (if crossing then cross_partition_transactions t + 1 else cross_partition_transactions t)
    (if crossing then count_one best (store_cross_partition_count t) else store_cross_partition_count t)
    (if crossing
     then transaction_details t ++ [mk_log keys (list_to_set ((λ k, Z.quot k REGION_SIZE) <$> keys)) best]
     else transaction_details t).

Lemma on_stats_reads r f :
  (∀ k, leader_of (on_stats f r) k = leader_of r k) ∧ (∀ s, host_of_store (on_stats f r) s = host_of_store r s).
Proof. done. Qed.

Lemma touched_on_stats r f keys P S : touched (on_stats f r) keys P S = touched r keys P S.
Proof.
  revert P S. induction keys as [|k keys IH]; intros P S; [done|]. cbn [touched].
  change (GetRegionPrimaryStoreId (on_stats f r)) with (GetRegionPrimaryStoreId r).
  destruct (GetRegionPrimaryStoreId r _); [apply IH | done].
Qed.

Lemma host_of_store_throws r s f : host_of_store r s = Fault f → f = Exception.
Proof.
  unfold host_of_store. case_bool_decide; [by intros [= <-]|].
  destruct (_ !! _) as [ip|]; [|by intros [= <-]]. cbn [throw_none mbind outcome_bind].
  destruct (_ !! ip); [done | by intros [= <-]].
Qed.

Lemma EvaluateHost_chosen r keys random locked best :
  Forall (placed r) keys → choose r keys random = Ok best →
  EvaluateHost keys random locked r = (on_stats (routed_stats r keys best locked) r, host_of_store r best).
Proof.
  intros Hk Hc. unfold EvaluateHost. rewrite Hc.
  assert (Hrec : RecordTransactionDetails keys best r =
    (on_stats (λ t, routed_stats r keys best false t) r, Ok ())).
  { unfold RecordTransactionDetails. rewrite touched_on_stats, (touched_spec r keys ∅ ∅ Hk).
    cbn beta iota. rewrite (crosses_size r keys Hk). unfold on_stats, routed_stats.
    cbn [placement stats meta_info_ version_ andb]. rewrite union_empty_r_L.
    by destruct (bool_decide (crosses r keys)). }
  unfold mbind, st_bind. rewrite Hrec.
  change (host_of_store (on_stats ?f r)) with (host_of_store r).
  unfold routed_stats. destruct (host_of_store r best) as [hg|f]; destruct locked; done.
Qed.

End Choice.

(** C34: for a query whose keys all have a known region, and whatever random
    number is drawn, the query is counted and sent to the hostgroup of the
    TiDB server next to a store that no other store beats: ten points for
    every key whose region it leads, one for every key whose region it
    follows.  Every such store is drawn by some number below the number of
    stores, so that no best store is starved. *)
Theorem evaluate_host_optimal r keys :
  Forall (placed r) keys → store_ids_ (placement r) ≠ ∅ →
  let optimal best := best ∈ store_ids_ (placement r) ∧
    ∀ s, s ∈ store_ids_ (placement r) → affinity r keys s <= affinity r keys best in
  (∀ random locked, 0 <= random → ∃ best, optimal best ∧
     EvaluateHost keys random locked r =
       (on_stats (routed_stats r keys best locked) r, host_of_store r best)) ∧
  (∀ best locked, optimal best → ∃ random,
     0 <= random < Z.of_nat (base.size (store_ids_ (placement r))) ∧
     EvaluateHost keys random locked r =
       (on_stats (routed_stats r keys best locked) r, host_of_store r best)).
Proof.
  intros Hk Hne optimal. assert (Hl : GetAllStoreIds r ≠ []).
  { intros E. apply Hne, set_eq. intros s. rewrite <- GetAllStoreIds_elem, E. set_solver. }
  split.
  - intros random locked Hr. destruct (choose_spec r keys random Hr Hk Hl) as (best & Hb & Hc).
    exists best. split; [|by apply EvaluateHost_chosen].
    apply best_stores_elem. by eapply list_elem_of_lookup_2.
  - intros best locked Hb. apply best_stores_elem in Hb. apply list_elem_of_lookup_1 in Hb as [i Hi].
    assert (Hlt := lookup_lt_Some _ _ _ Hi). exists (Z.of_nat i). split.
    { split; [lia|]. assert (length (best_stores r keys) <= length (GetAllStoreIds r))%nat as Hle by apply length_filter.
      unfold GetAllStoreIds in Hle. rewrite merge_sort_Permutation in Hle. unfold base.size, set_size. simpl. lia. }
    destruct (choose_spec r keys (Z.of_nat i)) as (best' & Hb' & Hc); [lia | done | done |].
    rewrite Z.mod_small, Nat2Z.id, Hi in Hb' by lia. injection Hb' as <-. by apply EvaluateHost_chosen.
Qed.

(** A placement with two regions: store 4 leads both, store 1 follows the first
    and store 7 the second. *)
Definition example_router : LionRouter :=
  mk_router
    (mk_placement ∅ {[str "10.0.0.4" := str "tidb-4"; str "10.0.0.1" := str "tidb-1"]}
       {[str "tidb-4" := 3; str "tidb-1" := 2]} ∅
       {[1 := str "10.0.0.1"; 4 := str "10.0.0.4"]} {[1; 4; 7]})
    no_stats
    (no_meta, mk_meta {[0 := 52; 1 := 58]} {[52 := 4; 58 := 4]} {[52 := {[1]}; 58 := {[7]}]}) 5.

Lemma evaluate_host_optimal_witness :
  (EvaluateHost [10; 10015; 17] 8 true example_router).2 = Ok 3 ∧
  affinity example_router [10; 10015; 17] 4 = 30 ∧ affinity example_router [10; 10015; 17] 1 = 2.
Proof.
  assert (Hk : Forall (placed example_router) [10; 10015; 17]).
  { repeat constructor; (eexists; vm_compute; reflexivity). }
  destruct (evaluate_host_optimal example_router [10; 10015; 17] Hk) as [Hall Hopt]; [by apply (bool_decide_unpack _)|].
  destruct (Hall 8 true) as (best & [Hb Hmax] & E); [lia|].
  split; [|split; reflexivity]. rewrite E.
  assert (best = 1 ∨ best = 4 ∨ best = 7) as Hcases.
  { change (best ∈ ({[1; 4; 7]} : gset Z)) in Hb. set_solver. }
  assert (Hbest := Hmax 4 ltac:(apply (bool_decide_unpack _); vm_compute; exact I)).
  destruct Hcases as [->|[->| ->]]; [|reflexivity|]; vm_compute in Hbest; by destruct Hbest.
Defined.

(** ** Failures *)
Lemma count_replicas_unplaced r store keys a b :
  ¬ Forall (placed r) keys → count_replicas r store keys a b = Fault Exception.
Proof.
  revert a b. induction keys as [|k keys IH]; intros a b Hn; [by destruct Hn|].
  assert (Hthrow : ∀ A (o : option A), (∃ x, throw_none o = Ok x) ∨ throw_none o = Fault Exception).
  { intros A [x|]; [left; by exists x | by right]. }
  rewrite Forall_cons in Hn. cbn [count_replicas].
  unfold placed, leader_of, followers_of in Hn. unfold GetRegionPrimaryStoreId, GetRegionSecondaryStoreId in *.
  set (i := Z.quot k REGION_SIZE) in *. revert Hn IH. generalize (virtual_region_id_map_ (active r) !! i). intros ov Hn IH.
  destruct ov as [actual|]; [|done]. cbn [throw_none mbind outcome_bind] in *.
  destruct (region_primary_store_id_ (active r) !! actual) as [p|]; [|done].
  destruct (region_secondary_store_id_ (active r) !! actual) as [ss|]; [|done].
  cbn [throw_none mbind outcome_bind] in *.
  assert (¬ Forall (λ k, (∃ s, leader_of r k = Ok s) ∧ (∃ ss, followers_of r k = Ok ss)) keys) as Hn' by naive_solver.
  destruct (p =? store); [|destruct (bool_decide _)]; by apply IH.
Qed.

(** a query whose keys name a region LionRouter does not know is not
    counted and raises an exception; without any store (the list of stores
    could not be read) choosing a host divides by zero. *)
Theorem evaluate_host_failures r keys random locked :
  (store_ids_ (placement r) ≠ ∅ → ¬ Forall (placed r) keys →
     EvaluateHost keys random locked r = (r, Fault Exception)) ∧
  (store_ids_ (placement r) = ∅ → EvaluateHost keys random locked r = (r, Fault DivByZero)).
Proof.
  split; unfold EvaluateHost, choose.
  - intros Hne Hk. destruct (GetAllStoreIds r) as [|s l] eqn:E.
    { destruct Hne. apply set_eq. intros s. rewrite <- GetAllStoreIds_elem, E. set_solver. }
    cbn [consider_all]. unfold consider. by rewrite (count_replicas_unplaced r s keys 0 0 Hk).
  - intros He. destruct (GetAllStoreIds r) as [|s l] eqn:E; [done|].
    assert (s ∈ store_ids_ (placement r)) as Hs by (rewrite <- GetAllStoreIds_elem, E; set_solver).
    rewrite He in Hs. set_solver.
Qed.

Lemma evaluate_host_failures_witness :
  EvaluateHost [30000] 8 true example_router = (example_router, Fault Exception) ∧
  EvaluateHost [10] 8 true new_router = (new_router, Fault DivByZero).
Proof.
  split.
  - apply (evaluate_host_failures example_router [30000] 8 true); [by apply (bool_decide_unpack _)|].
    intros H. apply Forall_cons in H as [[[s Hs] _] _]. vm_compute in Hs. discriminate Hs.
  - apply (evaluate_host_failures new_router [10] 8 true). reflexivity.
Defined.

(** ** The double buffer *)
Lemma next_version v : ((v + 1) mod 10) mod 2 = (v + 1) mod 2.
Proof. Z.to_euclidean_division_equations; lia. Qed.
Lemma buffer_set v m b : buffer (v mod 2) (set_buffer (v mod 2) m b) = m.
Proof. unfold buffer, set_buffer. by destruct (_ =? _). Qed.
Lemma buffer_set_other v m b : buffer (v mod 2) (set_buffer ((v + 1) mod 2) m b) = buffer (v mod 2) b.
Proof.
  unfold buffer, set_buffer. destruct (Z.eqb_spec (v mod 2) 0), (Z.eqb_spec ((v + 1) mod 2) 0); try done;
    exfalso; Z.to_euclidean_division_equations; lia.
Qed.

Section RegionUpdates.
Context `{HJ : Json J}.
#[local] Set Default Proof Using "All".

(** What one element of [record_regions] says: the region, the store of its
    leader, and the stores of its followers. *)
Definition region_entry (regions : J) (virtual_id : Z) : outcome (Z * Z * gset Z) :=
  region ← json_at_index regions virtual_id;
  actual_id ← field_int region (str "region_id");
  leader ← json_at_key region (str "leader");
  peers ← json_at_key region (str "peers");
  primary ← field_int leader (str "store_id");
  secondary ← secondaries leader (json_values peers) ∅;
  Ok (actual_id, primary, secondary).

Definition read_regions (response : list Z) : outcome (list (Z * Z * gset Z)) :=
  data ← json_parse (J := J) response;
  regions ← throw_none (json_find data (str "record_regions"));
  mapM (region_entry regions) (seqZ 0 (json_size regions)).

Definition add_region (virtual_id : Z) (e : Z * Z * gset Z) (m : MetaInfo) : MetaInfo :=
  let '(actual_id, primary, secondary) := e in
  mk_meta (<[i32 virtual_id := actual_id]> (virtual_region_id_map_ m))
    (<[actual_id := primary]> (region_primary_store_id_ m))
    (<[actual_id := secondary]> (region_secondary_store_id_ m)).

Fixpoint add_regions (virtual_id : Z) (es : list (Z * Z * gset Z)) (m : MetaInfo) : MetaInfo :=
  match es with
  | [] => m
  | e :: es' => add_regions (virtual_id + 1) es' (add_region virtual_id e m)
  end.
Definition region_table (es : list (Z * Z * gset Z)) : MetaInfo := add_regions 0 es no_meta.

Lemma load_region_spec regions i m :
  match region_entry regions i with
  | Ok e => load_region regions i m = (add_region i e m, Ok ())
  | Fault f => ∃ m', load_region regions i m = (m', Fault f)
  end.
Proof.
  unfold region_entry, load_region, run, modify, mbind, outcome_bind, st_bind, mret, st_ret.
  destruct (json_at_index regions i) as [region|]; [|by eexists].
  destruct (field_int region _) as [actual_id|]; [|by eexists].
  destruct (json_at_key region (str "leader")) as [leader|]; [|by eexists].
  destruct (json_at_key region (str "peers")) as [peers|]; [|by eexists].
  destruct (field_int leader _) as [primary|]; [|by eexists].
  destruct (secondaries _ _ _) as [secondary|]; [done | by eexists].
Qed.

Lemma st_iter_regions regions n i m :
  match mapM (region_entry regions) (seqZ i (Z.of_nat n)) with
  | Ok es => st_iter (load_region regions) (seqZ i (Z.of_nat n)) m = (add_regions i es m, Ok ())
  | Fault f => ∃ m', st_iter (load_region regions) (seqZ i (Z.of_nat n)) m = (m', Fault f)
  end.
Proof.
  revert i m. induction n as [|n IH]; intros i m; [done|].
  rewrite (seqZ_cons i) by lia. replace (Z.pred (Z.of_nat (S n))) with (Z.of_nat n) by lia.
  cbn [mapM st_iter]. unfold mbind, outcome_bind, st_bind, mret, outcome_ret.
  pose proof (load_region_spec regions i m) as Hl.
  destruct (region_entry regions i) as [e|f]; [|destruct Hl as [m' ->]; by exists m'].
  rewrite Hl. specialize (IH (Z.succ i) (add_region i e m)).
  destruct (mapM _ _) as [es|f]; [|exact IH]. cbn [add_regions]. by rewrite Z.add_1_r.
Qed.

Definition same_servers (r r' : LionRouter) : Prop := placement r' = placement r ∧ stats r' = stats r.

(** One response: a readable one is what readers see next, any other leaves
    them where they were. *)
Lemma update_step r response :
  match read_regions response with
  | Ok es => ∃ r', UpdateRegion2Store response r = (r', Ok ()) ∧ same_servers r r' ∧ active r' = region_table es
  | Fault Exception => ∃ r', UpdateRegion2Store response r = (r', Ok ()) ∧ same_servers r r' ∧ active r' = active r
  | Fault f => ∃ r', UpdateRegion2Store response r = (r', Fault f)
  end.
Proof.
  unfold read_regions, UpdateRegion2Store, catch_exceptions, run, mbind, outcome_bind, st_bind.
  destruct (json_parse response) as [data|[]]; try (by eexists).
  destruct (json_find data _) as [regions|]; [|by eexists]. cbn [throw_none].
  unfold load_regions. assert (seqZ 0 (json_size regions) = seqZ 0 (Z.of_nat (Z.to_nat (json_size regions)))) as ->.
  { unfold seqZ. by rewrite Nat2Z.id. }
  pose proof (st_iter_regions regions (Z.to_nat (json_size regions)) 0 no_meta) as Hit.
  destruct (mapM _ _) as [es|f].
  - rewrite Hit. eexists. split; [done|]. split; [done|]. unfold active. cbn [version_ meta_info_].
    by rewrite next_version, buffer_set.
  - destruct Hit as [m' ->]. assert (active (mk_router (placement r) (stats r)
      (set_buffer ((version_ r + 1) mod 2) m' (meta_info_ r)) (version_ r)) = active r).
    { unfold active. cbn [version_ meta_info_]. apply buffer_set_other. }
    destruct f; by eexists.
Qed.

Fixpoint update_all (responses : list (list Z)) : st LionRouter () :=
  match responses with
  | [] => mret ()
  | response :: rs => _ ← UpdateRegion2Store response; update_all rs
  end.

Definition readable (response : list Z) : option (list (Z * Z * gset Z)) :=
  match read_regions response with Ok es => Some es | Fault _ => None end.

Lemma update_all_spec responses r r' :
  update_all responses r = (r', Ok ()) →
  same_servers r r' ∧
  active r' = match last (omap readable responses) with Some es => region_table es | None => active r end.
Proof.
  revert r. induction responses as [|response rs IH]; intros r H.
  { injection H as <-. done. }
  cbn [update_all] in H. unfold mbind, st_bind in H. pose proof (update_step r response) as Hs.
  cbn [omap list_omap]. unfold readable at 1. destruct (read_regions response) as [es|f].
  - destruct Hs as (r1 & E & [Hp Ht] & Ha). rewrite E in H. apply IH in H as [[Hp' Ht'] Ha'].
    split; [split; congruence|]. rewrite last_cons. fold (omap (M := list) readable rs).
    destruct (last _); [done|]. by rewrite Ha', Ha.
  - destruct f; destruct Hs as (r1 & Hs); try (rewrite Hs in H; discriminate H).
    destruct Hs as (E & [Hp Ht] & Ha). rewrite E in H. apply IH in H as [[Hp' Ht'] Ha'].
    split; [split; congruence|]. fold (omap (M := list) readable rs). rewrite Ha'. by destruct (last _).
Qed.

(** Reading the table: the entry of a region is the one at its index. *)
Lemma add_regions_virtual es i m j :
  0 <= i → i + Z.of_nat (length es) <= 2 ^ 31 → 0 <= j →
  virtual_region_id_map_ (add_regions i es m) !! j =
    match (if j <? i then None else es !! Z.to_nat (j - i)) with
    | Some e => Some e.1.1
    | None => virtual_region_id_map_ m !! j
    end.
Proof.
  revert i m. induction es as [|[[a p] ss] es IH]; intros i m Hi Hlen Hj.
  { cbn [add_regions]. rewrite lookup_nil. by destruct (j <? i). }
  cbn [length add_regions add_region] in *. rewrite IH by lia. cbn [virtual_region_id_map_].
  rewrite i32_small by lia. destruct (Z.ltb_spec j (i + 1)), (Z.ltb_spec j i); try lia.
  - by rewrite lookup_insert_ne by lia.
  - replace (Z.to_nat (j - i)) with 0%nat by lia. replace j with i by lia. by rewrite lookup_insert_eq.
  - replace (Z.to_nat (j - i)) with (S (Z.to_nat (j - (i + 1)))) by lia. cbn [lookup list_lookup].
    fold (lookup (M := list (Z * Z * gset Z)) (Z.to_nat (j - (i + 1))) es). destruct (es !! _); [done|].
    by rewrite lookup_insert_ne by lia.
Qed.

Lemma add_regions_replicas es i m a :
  NoDup ((λ e, e.1.1) <$> es) →
  (∀ p ss, (a, p, ss) ∈ es → region_primary_store_id_ (add_regions i es m) !! a = Some p ∧
                             region_secondary_store_id_ (add_regions i es m) !! a = Some ss) ∧
  (a ∉ ((λ e, e.1.1) <$> es) →
     region_primary_store_id_ (add_regions i es m) !! a = region_primary_store_id_ m !! a ∧
     region_secondary_store_id_ (add_regions i es m) !! a = region_secondary_store_id_ m !! a).
Proof.
  revert i m. induction es as [|[[a' p'] ss'] es IH]; intros i m; [by split; [set_solver|]|].
  rewrite fmap_cons, NoDup_cons. intros [Hn Hd]. cbn [fst] in Hn. cbn [add_regions].
  destruct (IH (i + 1) (add_region i (a', p', ss') m) Hd) as [Hin Hout]. clear IH. split.
  - intros p ss [Heq|Hes]%elem_of_cons; [|by apply Hin]. injection Heq as -> -> ->.
    destruct (Hout Hn) as [-> ->]. split; apply lookup_insert_eq.
  - intros [Hne Hni]%not_elem_of_cons. destruct (Hout Hni) as [-> ->]. cbn [fst] in Hne.
    split; by apply lookup_insert_ne.
Qed.

Lemma update_all_total responses r :
  Forall (λ response, ∀ f, read_regions response = Fault f → f = Exception) responses →
  ∃ r', update_all responses r = (r', Ok ()).
Proof.
  intros Hr. revert r. induction Hr as [|response rs Hf _ IH]; intros r; [by eexists|].
  cbn [update_all]. unfold mbind, st_bind. pose proof (update_step r response) as Hs.
  destruct (read_regions response) as [es|f]; [|rewrite (Hf f eq_refl) in Hs]; destruct Hs as (r1 & -> & _); apply IH.
Qed.

Lemma region_table_reads r es :
  active r = region_table es → Z.of_nat (length es) <= 2 ^ 31 → NoDup ((λ e, e.1.1) <$> es) →
  ∀ v, 0 <= v →
  match es !! Z.to_nat v with
  | Some (a, p, ss) => GetRegionPrimaryStoreId r v = Ok p ∧ GetRegionSecondaryStoreId r v = Ok ss ∧ GetStoreForRegion r a = p
  | None => GetRegionPrimaryStoreId r v = Fault Exception ∧ GetRegionSecondaryStoreId r v = Fault Exception
  end.
Proof.
  intros Ha Hlen Hd v Hv. unfold GetRegionPrimaryStoreId, GetRegionSecondaryStoreId, GetStoreForRegion.
  rewrite Ha. unfold region_table. rewrite add_regions_virtual by lia.
  rewrite (proj2 (Z.ltb_ge _ _)), Z.sub_0_r by lia. destruct (es !! Z.to_nat v) as [[[a p] ss]|] eqn:E.
  - destruct (add_regions_replicas es 0 no_meta a Hd) as [Hin _].
    destruct (Hin p ss) as [Hp Hs]; [by eapply list_elem_of_lookup_2|]. cbn. by rewrite Hp, Hs.
  - cbn [no_meta virtual_region_id_map_]. by rewrite lookup_empty.
Qed.

End RegionUpdates.

(** Whatever placement documents arrive, as long as the JSON library only
    raises exceptions, loading them one after the other succeeds and a reader
    between two loads sees one complete document, the last readable one: its regions lead to their
    leaders and followers, and other regions are unknown.  A document that is
    not readable, even from the middle on, changes nothing for them. *)
Theorem region_updates_sequential `{HJ : Json J} (responses : list (list Z)) (r : LionRouter) :
  Forall (λ response, ∀ f, read_regions response = Fault f → f = Exception) responses →
  ∃ r', update_all responses r = (r', Ok ()) ∧ same_servers r r' ∧
  match last (omap readable responses) with
  | None => ∀ v, GetRegionPrimaryStoreId r' v = GetRegionPrimaryStoreId r v ∧
                 GetRegionSecondaryStoreId r' v = GetRegionSecondaryStoreId r v ∧
                 GetStoreForRegion r' v = GetStoreForRegion r v
  | Some es =>
      Z.of_nat (length es) <= 2 ^ 31 → NoDup ((λ e, e.1.1) <$> es) → ∀ v, 0 <= v →
      match es !! Z.to_nat v with
      | Some (a, p, ss) => GetRegionPrimaryStoreId r' v = Ok p ∧ GetRegionSecondaryStoreId r' v = Ok ss ∧ GetStoreForRegion r' a = p
      | None => GetRegionPrimaryStoreId r' v = Fault Exception ∧ GetRegionSecondaryStoreId r' v = Fault Exception
      end
  end.
Proof.
  intros Hr. destruct (update_all_total responses r Hr) as [r' E]. exists r'. split; [done|].
  destruct (update_all_spec _ _ _ E) as [Hs Ha]. split; [done|]. destruct (last _) as [es|].
  - by apply region_table_reads.
  - intros v. unfold GetRegionPrimaryStoreId, GetRegionSecondaryStoreId, GetStoreForRegion. by rewrite Ha.
Qed.

(** A small JSON library for the examples: the text [[n]] parses to the [n]-th
    of three documents, and only scalars compare equal. *)
Module Example.
#[local] Set Warnings "-register-all".
Inductive doc := Num (n : Z) | Arr (l : list doc) | Obj (m : list (list Z * doc)).

Definition lookup_key (m : list (list Z * doc)) (k : list Z) : option doc :=
  snd <$> List.find (λ kv, bool_decide (kv.1 = k)) m.
Definition peer (i s : Z) : doc := Obj [(str "id", Num i); (str "store_id", Num s)].
Definition region (i : Z) (leader : doc) (peers : list doc) : doc :=
  Obj [(str "region_id", Num i); (str "leader", leader); (str "peers", Arr peers)].
Definition two_regions : doc :=
  Obj [(str "record_regions", Arr
    [region 52 (peer 53 4) [peer 53 4; peer 54 1; peer 55 7]; region 58 (peer 60 1) [peer 59 4; peer 60 1]])].
Definition cut_short : doc :=
  Obj [(str "record_regions", Arr [region 52 (peer 53 7) [peer 53 7]; Num 3])].

#[global] Instance doc_json : Json doc := {|
  json_parse t := match t with [1] => Ok two_regions | [2] => Ok cut_short | _ => Fault Exception end;
  json_find v k := match v with Obj m => lookup_key m k | _ => None end;
  json_size v := match v with Arr l => Z.of_nat (length l) | Obj m => Z.of_nat (length m) | Num _ => 1 end;
  json_at_index v i := match v with Arr l => read_at l i | _ => Fault Exception end;
  json_at_key v k := match v with
    | Obj m => match lookup_key m k with Some w => Ok w | None => Fault AssertFail end
    | _ => Fault Exception end;
  json_member v k := match v with Obj m => Ok (default (Num 0) (lookup_key m k)) | _ => Fault Exception end;
  json_values v := match v with Arr l => l | Obj m => snd <$> m | Num _ => [v] end;
  json_items v := match v with Obj m => m | _ => [] end;
  json_get_int v := match v with Num n => Ok n | _ => Fault Exception end;
  json_get_string v := Fault Exception;
  json_eqb v w := match v, w with Num n, Num m => n =? m | _, _ => false end
|}.
End Example.

Lemma region_updates_sequential_witness :
  ∃ r', update_all (J := Example.doc) [[3]; [1]; [2]] new_router = (r', Ok ()) ∧
    GetRegionPrimaryStoreId r' 1 = Ok 1 ∧ GetRegionSecondaryStoreId r' 0 = Ok {[1; 7]}.
Proof.
  destruct (region_updates_sequential (J := Example.doc) [[3]; [1]; [2]] new_router) as (r' & E & _ & Hv).
  { repeat constructor; intros f H; vm_compute in H; congruence. }
  exists r'. split; [exact E|]. 
  assert (Hl : last (omap (readable (J := Example.doc)) [[3]; [1]; [2]]) = Some [(52, 4, {[1; 7]}); (58, 1, {[4]})])
    by (vm_compute; reflexivity).
  rewrite Hl in Hv. specialize (Hv ltac:(vm_compute; discriminate) ltac:(apply (bool_decide_unpack _); vm_compute; exact I)).
  split; [apply (Hv 1 ltac:(lia)) | apply (Hv 0 ltac:(lia))].
Defined.

(** ** The keys of a query *)
Section Keys.

(** One element of the list: blanks, perhaps a number, and whatever follows up
    to the comma. *)
Record item := mk_item { blanks : list Z; number : option Z; junk : list Z }.
Definition item_text (it : item) : list Z :=
  blanks it ++ (match number it with Some k => dec k | None => [] end) ++ junk it.
Definition item_ok (it : item) : Prop :=
  Forall (λ c, isspace c = true) (blanks it) ∧
  (∀ k, number it = Some k → 0 <= k < 10 ^ 20) ∧
  Forall (λ c, c ≠ 44 ∧ c ≠ 41) (junk it) ∧
  (∀ c, head (junk it) = Some c → isdigit c = false ∧ (number it = None → isspace c = false)).
Definition list_text (items : list item) : list Z := join [44] (item_text <$> items).
Definition numbers (items : list item) : list Z := omap number items.

(** A query that starts with [pre] and whose first list of keys has these items. *)
Definition query_text (pre : list Z) (items : list item) (post : list Z) : list Z :=
  pre ++ WHERE_IN ++ list_text items ++ 41 :: post.

Lemma drop_while_all p a b :
  Forall (λ c, p c = true) a → (∀ c, head b = Some c → p c = false) → drop_while p (a ++ b) = b.
Proof.
  intros Ha Hb. induction Ha as [|c a Hc _ IH]; simpl; [|by rewrite Hc].
  destruct b as [|c b]; [done|]. simpl. by rewrite (Hb c eq_refl).
Qed.

Lemma add_key_elem k k' l : k' ∈ add_key k l ↔ k' = k ∨ k' ∈ l.
Proof. unfold add_key. case_bool_decide; set_solver. Qed.
Lemma add_key_NoDup k l : NoDup l → NoDup (add_key k l).
Proof.
  intros Hl. unfold add_key. case_bool_decide as Hk; [done|].
  apply NoDup_app. split_and!; [done | set_solver | apply NoDup_singleton].
Qed.

(** What follows an item in the list. *)
Definition at_comma (rest : list Z) : Prop := ∀ c, head rest = Some c → c = 44.

Lemma parse_key_item it rest acc :
  item_ok it → at_comma rest →
  parse_key (item_text it ++ rest) acc =
    match number it with
    | Some k => if k <=? 2 ^ 31 - 1 then Ok (drop 1 rest, add_key k acc) else Fault Exception
    | None => Ok (drop 1 rest, acc)
    end.
Proof.
  intros (Hb & Hk & Hj & Hh) Hr. unfold parse_key, item_text. rewrite <- !app_assoc.
  set (ds := match number it with Some k => dec k | None => [] end).
  assert (Hhead : ∀ c, head (junk it ++ rest) = Some c → isdigit c = false ∧ (number it = None → isspace c = false)).
  { intros c Hc. destruct (junk it) as [|d j]; [|by apply Hh].
    rewrite app_nil_l in Hc. rewrite (Hr c Hc). by split. }
  rewrite (drop_while_all isspace (blanks it)).
  2: done.
  2: { intros c Hc. subst ds. destruct (number it) as [k|]; [|by apply Hhead].
       destruct (dec_head k) as (d & r & Hd & Hrange). rewrite Hd in Hc. injection Hc as <-.
       unfold isspace. apply orb_false_iff. rewrite andb_false_iff. lia. }
  assert (Hds : Forall (λ c, isdigit c = true) ds) by (subst ds; destruct (number it); [apply dec_isdigit | constructor]).
  rewrite (span_app isdigit ds (junk it ++ rest) Hds) by (intros c Hc; by apply Hhead).
  assert (Hskip : drop_while (λ c, negb (c =? 44)) (junk it ++ rest) = rest).
  { apply drop_while_all.
    - eapply Forall_impl; [exact Hj|]. intros c [Hc _]. by rewrite (proj2 (Z.eqb_neq c 44) Hc).
    - intros c Hc. by rewrite (Hr c Hc). }
  rewrite Hskip. subst ds. destruct (number it) as [k|]; [|done].
  destruct (dec k) as [|d r] eqn:Hd; [by destruct (dec_nonempty k)|]. rewrite <- Hd. unfold stoi.
  rewrite digits_value_dec by (apply Hk; done). by destruct (k <=? 2 ^ 31 - 1).
Qed.

Lemma list_text_cons it items :
  ∃ rest, list_text (it :: items) = item_text it ++ rest ∧ at_comma rest ∧ drop 1 rest = list_text items ∧
    (items ≠ [] → rest ≠ []).
Proof.
  destruct items as [|it2 items]; [exists []; by rewrite app_nil_r|].
  exists (44 :: list_text (it2 :: items)). split_and!; [done | by intros c [= <-] | done | done].
Qed.

Lemma parse_keys_items items acc fuel :
  Forall item_ok items → (length (list_text items) <= fuel)%nat →
  parse_keys fuel (list_text items) acc =
    if bool_decide (Forall (λ k, k <= 2 ^ 31 - 1) (numbers items))
    then Ok (foldl (λ l k, add_key k l) acc (numbers items)) else Fault Exception.
Proof.
  intros Hi. revert acc fuel. induction Hi as [|it items Hit Hi IH]; intros acc fuel Hf.
  { by destruct fuel. }
  destruct (list_text_cons it items) as (rest & E & Hc & Hd & Hne). rewrite E in *.
  pose proof (parse_key_item it rest acc Hit Hc) as Hp.
  destruct (item_text it ++ rest) as [|c s] eqn:Et.
  { apply app_eq_nil in Et as [Et Er]. destruct items; [|by destruct Hne]. unfold numbers. cbn [omap list_omap].
    destruct (number it) as [k|] eqn:En; [|by destruct fuel]. unfold item_text in Et. rewrite En in Et.
    apply app_eq_nil in Et as [_ [Et _]%app_eq_nil]. by destruct (dec_nonempty k). }
  destruct fuel as [|fuel]; [simpl in Hf; lia|]. cbn [parse_keys]. rewrite Hp.
  assert (Hlen : (length (list_text items) <= fuel)%nat).
  { rewrite <- Hd, length_drop. apply (f_equal length) in Et. rewrite length_app in Et. simpl in *.
    destruct rest; simpl in *; lia. }
  unfold numbers. cbn [omap list_omap]. fold (omap (M := list) number items). fold (numbers items).
  destruct (number it) as [k|].
  - destruct (Z.leb_spec k (2 ^ 31 - 1)).
    + cbn [mbind outcome_bind]. rewrite Hd, IH by done. cbn [foldl].
      rewrite (bool_decide_ext (Forall _ (k :: numbers items)) (Forall (λ k, k <= 2 ^ 31 - 1) (numbers items))); [done|].
      rewrite Forall_cons. tauto.
    + cbn [mbind outcome_bind]. rewrite bool_decide_eq_false_2; [done|]. rewrite Forall_cons. lia.
  - cbn [mbind outcome_bind]. by rewrite Hd, IH.
Qed.

Lemma add_keys_spec ks acc :
  NoDup acc → NoDup (foldl (λ l k, add_key k l) acc ks) ∧
  ∀ k, k ∈ foldl (λ l k, add_key k l) acc ks ↔ k ∈ acc ∨ k ∈ ks.
Proof.
  revert acc. induction ks as [|k ks IH]; intros acc Hacc; cbn [foldl]; [set_solver|].
  destruct (IH (add_key k acc) (add_key_NoDup k acc Hacc)) as [Hn Hin]. split; [done|].
  intros k'. rewrite Hin, add_key_elem. set_solver.
Qed.

(** *** Finding the list *)
Lemma find_char c l r : c ∉ l → find_string [c] (l ++ c :: r) = Some (length l).
Proof.
  induction l as [|d l IH]; intros Hc; cbn [app find_string].
  - by rewrite bool_decide_eq_true_2.
  - apply not_elem_of_cons in Hc as [Hne Hc]. rewrite bool_decide_eq_false_2 by (simpl; congruence).
    by rewrite (IH Hc).
Qed.

(** The pattern cannot start inside the text before it and end inside itself. *)
Lemma find_pattern pre s : find_string WHERE_IN pre = None → find_string WHERE_IN (pre ++ WHERE_IN ++ s) = Some (length pre).
Proof.
  assert (Hpat : ∀ i, WHERE_IN !! S i ≠ Some 87).
  { intros i H. assert (Hall : Forall (λ c, c ≠ 87) (tail WHERE_IN)) by (apply (bool_decide_unpack _); vm_compute; exact I).
    apply (Forall_lookup_1 _ _ i 87 Hall); done. }
  induction pre as [|c pre IH]; intros Hn.
  { done. }
  cbn [find_string app] in *. case_bool_decide as Hp; [done|].
  destruct (find_string WHERE_IN pre) eqn:E; [done|]. rewrite bool_decide_eq_false_2; [by rewrite IH|].
  intros Hq. destruct (decide (length WHERE_IN <= S (length pre))%nat) as [Hlen|Hlen].
  - apply Hp. rewrite <- Hq at 2. symmetry. rewrite app_comm_cons. by apply take_app_le.
  - apply (Hpat (length pre)). rewrite <- Hq. rewrite lookup_take by lia.
    change ((c :: pre ++ WHERE_IN ++ s) !! S (length pre)) with ((pre ++ WHERE_IN ++ s) !! length pre).
    rewrite lookup_app_r, Nat.sub_diag, decide_True by lia. done.
Qed.

Lemma list_text_no_paren items : Forall item_ok items → 41 ∉ list_text items.
Proof.
  induction 1 as [|it items (Hb & Hk & Hj & _) _ IH]; [set_solver|].
  assert (41 ∉ item_text it) as Hit.
  { unfold item_text. rewrite !not_elem_of_app. split_and!.
    - intros Hin. rewrite Forall_forall in Hb. apply Hb in Hin. done.
    - destruct (number it) as [k|]; [|set_solver]. intros Hin. pose proof (dec_isdigit k) as Hd.
      rewrite Forall_forall in Hd. apply Hd in Hin. done.
    - intros Hin. rewrite Forall_forall in Hj. by apply Hj in Hin as [_ ?]. }
  destruct items as [|it2 items]; [done|]. change (list_text (it :: it2 :: items))
    with (item_text it ++ 44 :: list_text (it2 :: items)). set_solver.
Qed.

Lemma key_list_of_query pre items post :
  find_string WHERE_IN pre = None → Forall item_ok items →
  key_list_of (query_text pre items post) = Some (list_text items).
Proof.
  intros Hpre Hi. unfold key_list_of, query_text. rewrite find_pattern by done. cbn [mbind option_bind].
  rewrite drop_app_length.
  assert (find_string [40] (WHERE_IN ++ list_text items ++ 41 :: post) = Some 18%nat) as -> by reflexivity.
  cbn [mbind option_bind].
  assert (drop (length pre + 18 + 1) (pre ++ WHERE_IN ++ list_text items ++ 41 :: post) = list_text items ++ 41 :: post) as ->.
  { replace (length pre + 18 + 1)%nat with (length pre + 19)%nat by lia. by rewrite drop_app_add. }
  rewrite find_char by by apply list_text_no_paren. cbn [mbind option_bind]. by rewrite take_app_length.
Qed.

End Keys.

(** reading the keys of a query.  Whatever comes before and after, and
    whatever blanks and text stand around the numbers, the keys of the first
    list after the pattern are read exactly, each once; a number that is not an
    [int] raises an exception, and a query without the pattern has no keys. *)
Theorem parse_ycsb_keys (enumerate : list Z → list Z) (pre : list Z) (items : list item) (post : list Z) :
  (∀ l, enumerate l ≡ₚ l) → find_string WHERE_IN pre = None → Forall item_ok items →
  ParseYcsbKey enumerate pre = Ok [] ∧
  (Forall (λ k, k <= 2 ^ 31 - 1) (numbers items) →
     ∃ keys, ParseYcsbKey enumerate (query_text pre items post) = Ok keys ∧ NoDup keys ∧
             ∀ k, k ∈ keys ↔ k ∈ numbers items) ∧
  (¬ Forall (λ k, k <= 2 ^ 31 - 1) (numbers items) →
     ParseYcsbKey enumerate (query_text pre items post) = Fault Exception).
Proof.
  intros He Hpre Hi. unfold ParseYcsbKey. rewrite (key_list_of_query pre items post Hpre Hi).
  unfold key_list_of. rewrite Hpre. split; [done|]. rewrite parse_keys_items by done. split.
  - intros Hs. rewrite bool_decide_eq_true_2 by done. cbn [mbind outcome_bind].
    destruct (add_keys_spec (numbers items) [] (NoDup_nil_2)) as [Hn Hin].
    eexists. split; [done|]. rewrite (He _). split; [done|]. intros k. rewrite (He _), Hin. set_solver.
  - intros Hs. by rewrite bool_decide_eq_false_2.
Qed.

Definition example_items : list item :=
  [mk_item [] (Some 10) (str " "); mk_item (str " ") (Some 10015) []; mk_item [] None (str "'x'"); mk_item (str "  ") (Some 10) []].

Lemma example_items_ok : Forall item_ok example_items.
Proof.
  unfold example_items, item_ok.
  repeat (apply Forall_cons_2; [refine (conj _ (conj _ (conj _ _)))|]); try apply Forall_nil_2; cbn;
    try (apply (bool_decide_unpack _); vm_compute; exact I); intros c; try done; intros [= <-]; done.
Qed.

Lemma parse_ycsb_keys_witness :
  query_text (str "UPDATE t SET f=1 ") example_items (str ";") =
    str "UPDATE t SET f=1 WHERE YCSB_KEY IN (10 , 10015,'x',  10);" ∧
  ∃ keys, ParseYcsbKey reverse (str "UPDATE t SET f=1 WHERE YCSB_KEY IN (10 , 10015,'x',  10);") = Ok keys ∧
    NoDup keys ∧ ∀ k, k ∈ keys ↔ k ∈ [10; 10015; 10].
Proof.
  split; [reflexivity|].
  apply (parse_ycsb_keys reverse (str "UPDATE t SET f=1 ") example_items (str ";")).
  - intros l. apply reverse_Permutation.
  - reflexivity.
  - apply example_items_ok.
  - repeat constructor; done.
Defined.

(** C7: routing a query from its text.  If every key of the list is an [int]
    whose region is known, the query goes to the hostgroup next to a store that
    is best for the distinct keys of the query, whatever the order in which the
    set of keys is enumerated; without such a host it stays undecided.  Either
    way it is counted once. *)
Theorem query_routed (enumerate : list Z → list Z) (pre : list Z) (items : list item) (post : list Z)
    (r : LionRouter) (random : Z) (locked : bool) :
  (∀ l, enumerate l ≡ₚ l) → find_string WHERE_IN pre = None → Forall item_ok items →
  Forall (λ k, k <= 2 ^ 31 - 1) (numbers items) → numbers items ≠ [] →
  Forall (placed r) (numbers items) → store_ids_ (placement r) ≠ ∅ → 0 <= random →
  ∃ best keys, keys ≡ₚ remove_dups (numbers items) ∧ best ∈ store_ids_ (placement r) ∧
    (∀ s, s ∈ store_ids_ (placement r) →
       affinity r (remove_dups (numbers items)) s <= affinity r (remove_dups (numbers items)) best) ∧
    lion_hostgroup enumerate (query_text pre items post) random locked r =
      (on_stats (routed_stats r keys best locked) r,
       Ok (match host_of_store r best with Ok hg => hg | Fault _ => -1 end)).
Proof.
  intros He Hpre Hi Hint Hne Hpl Hst Hr. unfold lion_hostgroup, ParseYcsbKey.
  rewrite (key_list_of_query pre items post Hpre Hi), parse_keys_items, bool_decide_eq_true_2 by done.
  cbn [mbind outcome_bind]. destruct (add_keys_spec (numbers items) [] (NoDup_nil_2)) as [Hn Hin].
  set (ks := foldl _ _ _) in *. set (keys := enumerate ks).
  assert (Hperm : keys ≡ₚ remove_dups (numbers items)).
  { subst keys. rewrite (He _). apply NoDup_Permutation; [done | apply NoDup_remove_dups|].
    intros k. rewrite Hin, elem_of_remove_dups. set_solver. }
  assert (Hpk : Forall (placed r) keys).
  { rewrite Hperm. apply Forall_forall. intros k Hk. rewrite elem_of_remove_dups in Hk.
    by apply (proj1 (Forall_forall _ _) Hpl). }
  assert (Hlen : 0 < Z.of_nat (length keys)).
  { rewrite Hperm. destruct (numbers items) as [|k l] eqn:E; [done|].
    assert (k ∈ remove_dups (k :: l)) as Hk by (apply elem_of_remove_dups; left).
    destruct (remove_dups (k :: l)); [by apply elem_of_nil in Hk | simpl; lia]. }
  rewrite (proj2 (Z.ltb_lt _ _) Hlen).
  assert (GetAllStoreIds r ≠ []) as Hl.
  { intros E. apply Hst, set_eq. intros s. rewrite <- GetAllStoreIds_elem, E. set_solver. }
  destruct (choose_spec r keys random Hr Hpk Hl) as (best & Hb & Hc).
  apply list_elem_of_lookup_2, best_stores_elem in Hb as [Hb Hmax].
  exists best, keys. split; [done|]. split; [done|]. split.
  { intros s Hs. rewrite <- !(affinity_perm r keys _ _ Hperm). by apply Hmax. }
  rewrite (EvaluateHost_chosen r keys random locked best Hpk Hc).
  destruct (host_of_store r best) as [hg|f] eqn:E; [done|]. by rewrite (host_of_store_throws r best f E).
Qed.

Lemma query_routed_witness :
  (lion_hostgroup reverse (str "SELECT * WHERE YCSB_KEY IN (10 , 10015,'x',  10)") 5 true example_router).2 = Ok 3 ∧
  ∃ best, best ∈ store_ids_ (placement example_router) ∧ affinity example_router [10015; 10] best = 20.
Proof.
  split; [reflexivity|].
  destruct (query_routed reverse (str "SELECT * ") example_items [] example_router 5 true)
    as (best & keys & _ & Hb & Hmax & _).
  - intros l. apply reverse_Permutation.
  - reflexivity.
  - apply example_items_ok.
  - repeat constructor; done.
  - done.
  - repeat constructor; (eexists; vm_compute; reflexivity).
  - by apply (bool_decide_unpack _).
  - lia.
  - exists best. split; [done|]. assert (best = 1 ∨ best = 4 ∨ best = 7) as Hcases.
    { change (best ∈ ({[1; 4; 7]} : gset Z)) in Hb. set_solver. }
    assert (Hbest := Hmax 4 ltac:(apply (bool_decide_unpack _); vm_compute; exact I)).
    destruct Hcases as [->|[->| ->]]; [|reflexivity|]; vm_compute in Hbest; by destruct Hbest.
Defined.
