(* ===== verification/LionSteps.v ===== *)
(** * LionRouter: readers while the placement changes

    lib/lionrouter.cpp takes no lock around the placement of the regions: the
    update thread fills one half of a double buffer, map by map, while sessions
    read the other half, and every look-up loads the version number and reads two
    maps at different moments.  This file splits [UpdateRegion2Store] into its
    writes and the look-ups and [EvaluateHost] into their reads, and says when the
    atomic operations of [LionRouter] are what a reader sees, and what it sees
    otherwise.  Reads and writes of the maps are steps of one sequence: what a
    reader sees of a container that is being changed at that very moment is left
    out, so that the results say when such a race cannot happen. *)
From S2P Require Import Prelude StringUtils LionRouter.

(** ** The update thread *)
Section Writer.
Context `{HJ : Json J}.

(** Where the thread is within [UpdateRegion2Store]: [Clearing] has emptied the
    first [n] maps of the half, [Next] is about to read a region, [Mapped] has
    written its number and [Led] its leader. *)
Inductive writer :=
  | Idle
  | Clearing (n : nat) (write_index : Z) (regions : J)
  | Next (write_index : Z) (regions : J) (virtual_id : Z)
  | Mapped (write_index : Z) (regions : J) (virtual_id : Z) (region : J) (actual_id : Z)
  | Led (write_index : Z) (regions : J) (virtual_id : Z) (leader peers : J) (actual_id : Z).

Record machine := mk_machine { shared : LionRouter; thread : writer }.

(** The half that is being written. *)
Definition half (w : writer) : option Z :=
  match w with
  | Idle => None
  | Clearing _ i _ | Next i _ _ | Mapped i _ _ _ _ | Led i _ _ _ _ _ => Some i
  end.
Definition on_half (i : Z) (f : MetaInfo → MetaInfo) (r : LionRouter) : LionRouter :=
  mk_router (placement r) (stats r) (set_buffer i (f (buffer i (meta_info_ r))) (meta_info_ r)) (version_ r).
Definition clear_map (n : nat) (m : MetaInfo) : MetaInfo :=
  match n with
  | O => mk_meta ∅ (region_primary_store_id_ m) (region_secondary_store_id_ m)
  | S O => mk_meta (virtual_region_id_map_ m) ∅ (region_secondary_store_id_ m)
  | _ => mk_meta (virtual_region_id_map_ m) (region_primary_store_id_ m) ∅
  end.
Definition publish (r : LionRouter) : LionRouter := mk_router (placement r) (stats r) (meta_info_ r) ((version_ r + 1) mod 10).

(** The document is read and the half to write is chosen. *)
Definition begin_load (response : list Z) (r : LionRouter) : outcome writer :=
  data ← json_parse (J := J) response;
  regions ← throw_none (json_find data (str "record_regions"));
  Ok (Clearing 0 ((version_ r + 1) mod 2) regions).
(** One write, with what is computed before it. *)
Definition write_once (w : writer) (r : LionRouter) : outcome machine :=
  match w with
  | Idle => Ok (mk_machine r Idle)
  | Clearing n i regions => Ok (mk_machine (on_half i (clear_map n) r) (if (n <? 2)%nat then Clearing (S n) i regions else Next i regions 0))
  | Next i regions virtual_id =>
      if virtual_id <? json_size regions then
        region ← json_at_index regions virtual_id;
        actual_id ← field_int region (str "region_id");
        Ok (mk_machine (on_half i (λ m, mk_meta (<[i32 virtual_id := actual_id]> (virtual_region_id_map_ m))
                                          (region_primary_store_id_ m) (region_secondary_store_id_ m)) r) (Mapped i regions virtual_id region actual_id))
      else Ok (mk_machine (publish r) Idle)
  | Mapped i regions virtual_id region actual_id =>
      leader ← json_at_key region (str "leader");
      peers ← json_at_key region (str "peers");
      primary ← field_int leader (str "store_id");
      Ok (mk_machine (on_half i (λ m, mk_meta (virtual_region_id_map_ m) (<[actual_id := primary]> (region_primary_store_id_ m))
                                        (region_secondary_store_id_ m)) r) (Led i regions virtual_id leader peers actual_id))
  | Led i regions virtual_id leader peers actual_id =>
      secondary_store_ids ← secondaries leader (json_values peers) ∅;
      Ok (mk_machine (on_half i (λ m, mk_meta (virtual_region_id_map_ m) (region_primary_store_id_ m)
                                        (<[actual_id := secondary_store_ids]> (region_secondary_store_id_ m))) r) (Next i regions (virtual_id + 1)))
  end.
(** Exceptions end the load where it is. *)
Definition caught {A} (m : outcome A) (a : A) : outcome A := match m with Fault Exception => Ok a | _ => m end.

Inductive event := Begin (response : list Z) | Write.
Inductive step : machine → event → machine → Prop :=
  | step_begin r response w : caught (begin_load response r) Idle = Ok w → step (mk_machine r Idle) (Begin response) (mk_machine r w)
  | step_write r w m : w ≠ Idle → caught (write_once w r) (mk_machine r Idle) = Ok m → step (mk_machine r w) Write m.

(** What the thread does, with the states in between. *)
Inductive history : machine → list (event * machine) → Prop :=
  | history_nil m : history m []
  | history_cons m e m' l : step m e m' → history m' l → history m ((e, m') :: l).
Fixpoint state_at (m : machine) (l : list (event * machine)) (k : nat) {struct k} : machine :=
  match k, l with S k', (_, m') :: l' => state_at m' l' k' | _, _ => m end.

(** ** Placement documents *)
(** What readers should see after some documents. *)
Definition table_of (base : MetaInfo) (responses : list (list Z)) : MetaInfo :=
  foldl (λ t response, match readable (J := J) response with Some es => region_table es | None => t end) base responses.
(** The documents whose loads have begun, and those whose loads have ended. *)
Definition begun (l : list (event * machine)) : list (list Z) := omap (λ x, match x.1 with Begin response => Some response | Write => None end) l.
Definition ended (m : machine) (l : list (event * machine)) (k : nat) : list (list Z) :=
  let responses := begun (take k l) in
  match thread (state_at m l k) with Idle => responses | _ => removelast responses end.

End Writer.
Arguments writer J : clear implicits.
Arguments machine J : clear implicits.

(** ** Readers *)
Section Reader.
(** What the reader finds at its [i]-th access. *)
Context (seen : nat → LionRouter).

Definition rd (A : Type) : Type := nat → outcome (A * nat).
#[export] Instance rd_ret : MRet rd := λ A a i, Ok (a, i).
#[export] Instance rd_bind : MBind rd := λ A B k m i, '(a, j) ← m i; k a j.
Definition lift {A} (o : outcome A) : rd A := λ i, a ← o; Ok (a, i).
Definition access : rd LionRouter := λ i, Ok (seen i, S i).

Definition look_up_virtual (virtual_region_id : Z) : rd (Z * Z) :=
  r ← access;
  let read_index := version_ r mod 2 in
  r ← access;
  actual_region_id ← lift (throw_none (virtual_region_id_map_ (buffer read_index (meta_info_ r)) !! virtual_region_id));
  mret (read_index, actual_region_id).
Definition read_primary (virtual_region_id : Z) : rd Z :=
  x ← look_up_virtual virtual_region_id;
  r ← access;
  lift (throw_none (region_primary_store_id_ (buffer x.1 (meta_info_ r)) !! x.2)).
(** [GetRegionSecondaryStoreId] returns a reference into the map. *)
Definition read_secondary (virtual_region_id : Z) : rd (Z * Z) :=
  x ← look_up_virtual virtual_region_id;
  r ← access;
  _ ← lift (throw_none (region_secondary_store_id_ (buffer x.1 (meta_info_ r)) !! x.2));
  mret x.
(** Using the reference: the element may be gone by now. *)
Definition contains (ref : Z * Z) (store_id : Z) : rd bool :=
  r ← access;
  lift (match region_secondary_store_id_ (buffer ref.1 (meta_info_ r)) !! ref.2 with
        | Some s => Ok (bool_decide (store_id ∈ s))
        | None => Fault OutOfBounds
        end).
Definition read_store (actual_region_id : Z) : rd Z :=
  r ← access;
  let read_index := version_ r mod 2 in
  r ← access;
  mret (default (-1) (region_primary_store_id_ (buffer read_index (meta_info_ r)) !! actual_region_id)).

Fixpoint count_steps (store_id : Z) (keys : list Z) (primary_count secondary_count : Z) : rd (Z * Z) :=
  match keys with
  | [] => mret (primary_count, secondary_count)
  | key :: keys' =>
      let region_id := Z.quot key REGION_SIZE in
      primary_store_id ← read_primary region_id;
      secondary_store_ids ← read_secondary region_id;
      if primary_store_id =? store_id then count_steps store_id keys' (primary_count + 1) secondary_count
      else
        b ← contains secondary_store_ids store_id;
        if b : bool then count_steps store_id keys' primary_count (secondary_count + 1) else count_steps store_id keys' primary_count secondary_count
  end.
Definition consider_steps (keys : list Z) (store_id : Z) (s : scan_state) : rd scan_state :=
  '(primary_count, secondary_count) ← count_steps store_id keys 0 0;
  let cost := - (primary_count * weight_ + secondary_count) in
  if min_cost s =? cost then
    best ← lift (write_at (best_store_ids s) (idx s) store_id); mret (mk_scan best (idx s + 1) (min_cost s))
  else if cost <? min_cost s then
    best ← lift (write_at (best_store_ids s) 0 store_id); mret (mk_scan best 1 cost)
  else mret s.
Fixpoint consider_all_steps (keys stores : list Z) (s : scan_state) : rd scan_state :=
  match stores with
  | [] => mret s
  | store_id :: stores' => s ← consider_steps keys store_id s; consider_all_steps keys stores' s
  end.
Definition choose_steps (keys : list Z) (random : Z) : rd Z :=
  r ← access;
  let stores := GetAllStoreIds r in
  s ← consider_all_steps keys stores (mk_scan (repeat 0 (length stores)) 0 0);
  lift (if idx s =? 0 then Fault DivByZero else read_at (best_store_ids s) (Z.rem random (idx s))).
(** The reads of [RecordTransactionDetails]. *)
Fixpoint touched_steps (keys : list Z) (partitions stores : gset Z) : rd (gset Z * gset Z) :=
  match keys with
  | [] => mret (partitions, stores)
  | key :: keys' =>
      let region_id := Z.quot key REGION_SIZE in
      store ← read_primary region_id;
      touched_steps keys' ({[region_id]} ∪ partitions) ({[store]} ∪ stores)
  end.
End Reader.

(** ** Readers for whom nothing moves *)
Section Steady.
Context (seen : nat → LionRouter).

Lemma run_bind {A B} (m : rd A) (k : A → rd B) i : (m ≫= k) i = '(a, j) ← m i; k a j.
Proof. done. Qed.

(** One look-up, as long as the half it reads stays the same. *)
Definition unmoved (i n : nat) : Prop :=
  ∀ j, (i ≤ j < i + n)%nat → buffer (version_ (seen i) mod 2) (meta_info_ (seen j)) = active (seen i).
Lemma look_up_unmoved i v : unmoved i 2 →
  look_up_virtual seen v i = x ← throw_none (virtual_region_id_map_ (active (seen i)) !! v); Ok ((version_ (seen i) mod 2, x), S (S i)).
Proof.
  intros H. unfold look_up_virtual, access, lift. rewrite !run_bind. cbn [mbind outcome_bind]. rewrite run_bind. cbn [mbind outcome_bind].
  rewrite (H (S i)) by lia. destruct (throw_none _); done.
Qed.
Lemma read_primary_unmoved i v : unmoved i 3 → read_primary seen v i = (λ p, (p, (i + 3)%nat)) <$> GetRegionPrimaryStoreId (seen i) v.
Proof.
  intros H. unfold read_primary, GetRegionPrimaryStoreId, access, lift. rewrite run_bind, look_up_unmoved by (intros j Hj; apply H; lia).
  destruct (throw_none (_ !! v)) as [a|]; [|done]. cbn [mbind outcome_bind]. rewrite run_bind. cbn [mbind outcome_bind fst snd].
  rewrite (H (S (S i))) by lia. replace (i + 3)%nat with (S (S (S i))) by lia. by destruct (throw_none _).
Qed.
Lemma read_secondary_unmoved i v store_id : unmoved i 4 →
  (x ← read_secondary seen v; contains seen x store_id) i = (λ s, (bool_decide (store_id ∈ s), (i + 4)%nat)) <$> GetRegionSecondaryStoreId (seen i) v.
Proof.
  intros H. unfold read_secondary, GetRegionSecondaryStoreId, contains, access, lift. rewrite !run_bind, look_up_unmoved by (intros j Hj; apply H; lia).
  destruct (throw_none (_ !! v)) as [a|]; [|done]. cbn [mbind outcome_bind]. rewrite run_bind. cbn [mbind outcome_bind fst snd].
  rewrite (H (S (S i))) by lia. destruct (region_secondary_store_id_ (active (seen i)) !! a) as [s|] eqn:E; [|done]. cbn [throw_none mbind outcome_bind mret rd_ret].
  rewrite run_bind. cbn [mbind outcome_bind mret rd_ret fst snd]. rewrite run_bind. cbn [mbind outcome_bind]. rewrite (H (S (S (S i)))), E by lia.
  by replace (i + 4)%nat with (S (S (S (S i)))) by lia.
Qed.
Lemma read_store_unmoved i a : unmoved i 2 → read_store seen a i = Ok (GetStoreForRegion (seen i) a, (i + 2)%nat).
Proof.
  intros H. unfold read_store, access. rewrite run_bind. cbn [mbind outcome_bind]. rewrite run_bind. cbn [mbind outcome_bind mret rd_ret]. rewrite (H (S i)) by lia.
  by replace (i + 2)%nat with (S (S i)) by lia.
Qed.

(** A whole evaluation, as long as no document is published. *)
Definition agrees {A} (m : rd A) (o : outcome A) : Prop := ∀ i, fst <$> m i = o.
Lemma agrees_ret {A} (a : A) : agrees (mret a) (Ok a).
Proof. by intros i. Qed.
Lemma agrees_lift {A} (o : outcome A) : agrees (lift o) o.
Proof. intros i. unfold lift. by destruct o. Qed.
Lemma agrees_bind {A B} (m : rd A) (k : A → rd B) o (k' : A → outcome B) : agrees m o → (∀ a, agrees (k a) (k' a)) → agrees (m ≫= k) (o ≫= k').
Proof.
  intros Hm Hk i. rewrite run_bind. specialize (Hm i). destruct (m i) as [[a j]|f]; cbn in Hm; rewrite <- Hm; cbn [mbind outcome_bind]; [apply Hk|done].
Qed.
Hint Resolve agrees_ret agrees_lift agrees_bind : px.

Context (r : LionRouter) (steady : ∀ i, version_ (seen i) = version_ r ∧ active (seen i) = active r ∧ placement (seen i) = placement r).
#[local] Set Default Proof Using "steady".
Lemma steady_unmoved i n : unmoved i n.
Proof.
  intros j _. destruct (steady i) as (Hv & Ha & _), (steady j) as (Hv' & Ha' & _). rewrite Ha, <- Ha'. unfold active. by rewrite Hv, Hv'.
Qed.
Hint Resolve steady_unmoved : px.
Lemma primary_agrees v : agrees (read_primary seen v) (GetRegionPrimaryStoreId r v).
Proof.
  intros i. rewrite read_primary_unmoved by auto with px. unfold GetRegionPrimaryStoreId. destruct (steady i) as (_ & -> & _). by destruct (_ ≫= _).
Qed.
Lemma look_up_agrees v : agrees (look_up_virtual seen v) ((λ x, (version_ r mod 2, x)) <$> throw_none (virtual_region_id_map_ (active r) !! v)).
Proof. intros i. rewrite look_up_unmoved by auto with px. destruct (steady i) as (-> & -> & _). by destruct (throw_none _). Qed.
Lemma read_half i : buffer (version_ r mod 2) (meta_info_ (seen i)) = active r.
Proof. destruct (steady i) as (Hv & <- & _). unfold active. by rewrite Hv. Qed.
(** The followers are looked at through the reference, now or never. *)
Lemma secondary_agrees {B} v (b : bool) store_id (k : bool → rd B) (k' : bool → outcome B) : (∀ x, agrees (k x) (k' x)) →
  agrees (x ← read_secondary seen v; if b then k true else y ← contains seen x store_id; k y)
    (s ← GetRegionSecondaryStoreId r v; if b then k' true else k' (bool_decide (store_id ∈ s))).
Proof.
  intros Hk i. unfold read_secondary, GetRegionSecondaryStoreId. rewrite !run_bind. pose proof (look_up_agrees v i) as Hl.
  destruct (throw_none (_ !! v)) as [a|f], (look_up_virtual seen v i) as [[x j]|f']; cbn in Hl; try discriminate Hl; injection Hl as ->; [|done].
  unfold access, lift, contains. cbn [mbind outcome_bind]. rewrite run_bind. cbn [mbind outcome_bind fst snd]. rewrite read_half.
  destruct (region_secondary_store_id_ (active r) !! a) as [s|] eqn:E; [|done]. cbn [throw_none mbind outcome_bind mret rd_ret]. rewrite run_bind. cbn [mbind outcome_bind mret rd_ret].
  destruct b; [apply Hk|]. unfold access, lift. rewrite !run_bind. cbn [mbind outcome_bind fst snd]. rewrite read_half, E. apply Hk.
Qed.
Lemma count_agrees store_id keys p s : agrees (count_steps seen store_id keys p s) (count_replicas r store_id keys p s).
Proof.
  revert p s. induction keys as [|key keys IH]; intros p s; [apply agrees_ret|]. cbn [count_steps count_replicas]. apply agrees_bind; [apply primary_agrees|]. intros q.
  pose proof (secondary_agrees (B := Z * Z) (Z.quot key REGION_SIZE) (q =? store_id) store_id) as H. destruct (q =? store_id).
  - apply (H (λ _, count_steps seen store_id keys (p + 1) s) (λ _, count_replicas r store_id keys (p + 1) s)). auto.
  - apply (H (λ b, if b then count_steps seen store_id keys p (s + 1) else count_steps seen store_id keys p s)
      (λ b, if b then count_replicas r store_id keys p (s + 1) else count_replicas r store_id keys p s)). intros []; auto.
Qed.
Lemma consider_agrees keys store_id s : agrees (consider_steps seen keys store_id s) (consider r keys store_id s).
Proof.
  unfold consider_steps, consider. apply agrees_bind; [apply count_agrees|]. intros [p q]. cbn zeta. destruct (_ =? _); [auto with px|]. destruct (_ <? _); auto with px.
Qed.
Lemma consider_all_agrees keys stores s : agrees (consider_all_steps seen keys stores s) (consider_all r keys stores s).
Proof. revert s. induction stores as [|x stores IH]; intros s; [apply agrees_ret|]. apply agrees_bind; [apply consider_agrees|auto]. Qed.
Lemma choose_agrees keys random : agrees (choose_steps seen keys random) (choose r keys random).
Proof.
  intros i. unfold choose_steps, choose, access. rewrite run_bind. cbn [mbind outcome_bind]. assert (GetAllStoreIds (seen i) = GetAllStoreIds r) as ->.
  { unfold GetAllStoreIds. by destruct (steady i) as (_ & _ & ->). }
  apply agrees_bind; [apply consider_all_agrees|]. intros s. apply agrees_lift.
Qed.
Lemma touched_agrees keys ps ss : agrees (touched_steps seen keys ps ss) (touched r keys ps ss).
Proof. revert ps ss. induction keys as [|key keys IH]; intros ps ss; [apply agrees_ret|]. apply agrees_bind; [apply primary_agrees|auto]. Qed.
End Steady.

(** ** The update thread between readers *)
Section Histories.
Context `{HJ : Json J}.
Implicit Types (m : machine J) (r : LionRouter) (l : list (event * machine J)).

(** *** Documents read one region at a time *)
Lemma mapM_outcome_app {A B} (f : A → outcome B) xs ys : mapM f (xs ++ ys) = a ← mapM f xs; b ← mapM f ys; Ok (a ++ b).
Proof.
  induction xs as [|x xs IH]; cbn [mapM app]; [by destruct (mapM f ys)|]. destruct (f x) as [z|]; [|done]. cbn [mbind outcome_bind].
  rewrite IH. destruct (mapM f xs) as [zs|]; [|done]. cbn [mbind outcome_bind mret outcome_ret]. by destruct (mapM f ys).
Qed.
Lemma entries_snoc (regions : J) v es e : 0 <= v → mapM (region_entry regions) (seqZ 0 v) = Ok es → region_entry regions v = Ok e →
  mapM (region_entry regions) (seqZ 0 (v + 1)) = Ok (es ++ [e]).
Proof. intros Hv Hes He. rewrite seqZ_app, mapM_outcome_app, Hes, (seqZ_cons (0 + v)), Z.add_0_l by lia. cbn [mapM mbind outcome_bind]. by rewrite He. Qed.
Lemma entries_stop (regions : J) v n es f : 0 <= v < n → mapM (region_entry regions) (seqZ 0 v) = Ok es → region_entry regions v = Fault f →
  mapM (region_entry regions) (seqZ 0 n) = Fault f.
Proof.
  intros Hv Hes He. replace n with (v + (n - v)) by lia. rewrite seqZ_app, mapM_outcome_app, Hes by lia. cbn [mbind outcome_bind Z.add].
  rewrite (seqZ_cons v) by lia. cbn [mapM]. by rewrite He.
Qed.
Lemma add_regions_snoc es e i (t : MetaInfo) : add_regions i (es ++ [e]) t = add_region (i + Z.of_nat (length es)) e (add_regions i es t).
Proof.
  revert i t. induction es as [|d es IH]; intros i t; cbn [app add_regions length]; [by rewrite Z.add_0_r|]. rewrite IH. f_equal. lia.
Qed.
Lemma entries_length (regions : J) v es : 0 <= v → mapM (region_entry regions) (seqZ 0 v) = Ok es → Z.of_nat (length es) = v.
Proof.
  intros Hv. assert (∀ vs es, mapM (region_entry regions) vs = Ok es → length es = length vs) as H.
  { clear. induction vs as [|x vs IH]; intros es; cbn [mapM]; [by intros [= <-]|]. intros H. inv_ok. cbn. f_equal. by apply IH. }
  intros E%H. rewrite length_seqZ in E. lia.
Qed.
Lemma region_table_snoc (regions : J) v es e : 0 <= v → mapM (region_entry regions) (seqZ 0 v) = Ok es → region_table (es ++ [e]) = add_region v e (region_table es).
Proof. intros Hv Hes. unfold region_table. rewrite add_regions_snoc, (entries_length _ _ _ Hv Hes). done. Qed.

(** *** A load in progress *)
Definition write_index r : Z := (version_ r + 1) mod 2.
Definition written r : MetaInfo := buffer (write_index r) (meta_info_ r).
Definition regions_of (response : list Z) : outcome J :=
  data ← json_parse (J := J) response; throw_none (json_find data (str "record_regions")).
(** What the half holds when the first [v] regions are in. *)
Definition loaded (regions : J) (v : Z) (t : MetaInfo) : Prop :=
  0 <= v ∧ ∃ es, mapM (region_entry regions) (seqZ 0 v) = Ok es ∧ t = region_table es.
Inductive filling (response : list Z) r : writer J → Prop :=
  | filling_clear n regions : regions_of response = Ok regions → (n ≤ 2)%nat →
      (0 < n → virtual_region_id_map_ (written r) = ∅)%nat → (1 < n → region_primary_store_id_ (written r) = ∅)%nat →
      filling response r (Clearing n (write_index r) regions)
  | filling_next regions v : regions_of response = Ok regions → v <= Z.max 0 (json_size regions) → loaded regions v (written r) →
      filling response r (Next (write_index r) regions v)
  | filling_mapped regions v region a t : regions_of response = Ok regions → v < json_size regions → loaded regions v t →
      json_at_index regions v = Ok region → field_int region (str "region_id") = Ok a →
      written r = mk_meta (<[i32 v := a]> (virtual_region_id_map_ t)) (region_primary_store_id_ t) (region_secondary_store_id_ t) →
      filling response r (Mapped (write_index r) regions v region a)
  | filling_led regions v region a leader peers p t : regions_of response = Ok regions → v < json_size regions → loaded regions v t →
      json_at_index regions v = Ok region → field_int region (str "region_id") = Ok a →
      json_at_key region (str "leader") = Ok leader → json_at_key region (str "peers") = Ok peers → field_int leader (str "store_id") = Ok p →
      written r = mk_meta (<[i32 v := a]> (virtual_region_id_map_ t)) (<[a := p]> (region_primary_store_id_ t)) (region_secondary_store_id_ t) →
      filling response r (Led (write_index r) regions v leader peers a).

Lemma active_on_half f r : active (on_half (write_index r) f r) = active r.
Proof. unfold active, on_half. cbn [version_ meta_info_]. apply buffer_set_other. Qed.
Lemma written_on_half f r : written (on_half (write_index r) f r) = f (written r).
Proof. unfold written, on_half, write_index. cbn [version_ meta_info_]. apply buffer_set. Qed.
Lemma index_on_half i f r : write_index (on_half i f r) = write_index r.
Proof. done. Qed.
Lemma regions_read response regions : regions_of response = Ok regions → read_regions response = mapM (region_entry regions) (seqZ 0 (json_size regions)).
Proof.
  unfold regions_of, read_regions. destruct (json_parse response) as [data|]; [|done]. cbn [mbind outcome_bind]. by destruct (throw_none _) as [x|]; [intros [= ->]|].
Qed.
Lemma begins response r :
  match begin_load response r with Ok w => filling response r w ∧ w ≠ Idle | Fault f => read_regions response = Fault f end.
Proof.
  unfold begin_load, read_regions. destruct (json_parse response) as [data|] eqn:E1; [|done]. cbn [mbind outcome_bind].
  destruct (throw_none _) as [regions|] eqn:E2; [|done]. cbn [mbind outcome_bind]. split; [|done]. apply filling_clear; [|lia..]. unfold regions_of. by rewrite E1.
Qed.
Lemma fault_of (regions : J) response v t f : regions_of response = Ok regions → v < json_size regions → loaded regions v t → region_entry regions v = Fault f →
  read_regions response = Fault f.
Proof. intros Hr Hv (H0 & es & Hes & _) He. rewrite (regions_read _ _ Hr). by eapply entries_stop. Qed.

(** One write leaves what readers see alone, and brings the load one step further
    or ends it; an exception means that the document cannot be read. *)
Lemma writes response r w : filling response r w →
  match write_once w r with
  | Ok m => placement (shared m) = placement r ∧
      (if bool_decide (half (thread m) = None) then ∃ es, read_regions response = Ok es ∧ active (shared m) = region_table es
       else filling response (shared m) (thread m) ∧ active (shared m) = active r)
  | Fault f => read_regions response = Fault f
  end.
Proof.
  destruct 1 as [n regions Hr Hn Hc0 Hc1|regions v Hr Hv Hl|regions v region a t Hr Hv Hl Hi Ha Hw|regions v region a leader peers p t Hr Hv Hl Hi Ha Hle Hpe Hp Hw]; cbn [write_once].
  - split; [done|]. rewrite bool_decide_false by (by destruct (n <? 2)%nat). cbn [shared thread]. split; [|apply active_on_half]. set (r' := on_half _ _ _). change (write_index r) with (write_index r').
    assert (written r' = clear_map n (written r)) as Hw' by apply written_on_half. destruct n as [|[|[|n]]]; [..|lia]; cbn [Nat.ltb Nat.leb].
    + apply filling_clear; rewrite ?Hw'; first [done | lia].
    + apply filling_clear; rewrite ?Hw'; first [done | lia | intros _; apply Hc0; lia].
    + apply filling_next; [done|lia|]. split; [done|]. exists []. split; [done|]. rewrite Hw'. cbn [clear_map]. by rewrite Hc0, Hc1 by lia.
  - destruct Hl as (H0 & es & Hes & Et). destruct (Z.ltb_spec v (json_size regions)) as [Hlt|Hge].
    + destruct (json_at_index regions v) as [region|f] eqn:Ei; [|eapply fault_of; [done|exact Hlt|by split; [|exists es]|unfold region_entry; by rewrite Ei]]. cbn [mbind outcome_bind].
      destruct (field_int region _) as [a|f] eqn:Ea; [|eapply fault_of; [done|exact Hlt|by split; [|exists es]|unfold region_entry; rewrite Ei; cbn [mbind outcome_bind]; by rewrite Ea]]. cbn [mbind outcome_bind].
      split; [done|]. rewrite bool_decide_false by done. cbn [shared thread]. split; [|apply active_on_half]. set (r' := on_half _ _ _). change (write_index r) with (write_index r').
      apply (filling_mapped _ _ regions v region a (written r)); try done; [by split; [|exists es]|]. apply written_on_half.
    + split; [done|]. rewrite bool_decide_true by done. exists es. cbn [shared thread]. split; [|].
      * rewrite (regions_read _ _ Hr). rewrite <- Hes. destruct (Z.max_spec 0 (json_size regions)) as [[? Em]|[? Em]]; rewrite Em in Hv; [by replace v with (json_size regions) by lia|].
        replace v with 0 by lia. unfold seqZ. by replace (Z.to_nat (json_size regions)) with 0%nat by lia.
      * unfold active, publish. cbn [version_ meta_info_]. rewrite next_version. exact Et.
  - destruct (json_at_key region (str "leader")) as [leader|f] eqn:El.
    2: { eapply fault_of; [done..|]. unfold region_entry. by do 3 (rewrite ?Hi, ?Ha, ?El; cbn [mbind outcome_bind]). }
    cbn [mbind outcome_bind]. destruct (json_at_key region (str "peers")) as [peers|f] eqn:Ep.
    2: { eapply fault_of; [done..|]. unfold region_entry. by do 4 (rewrite ?Hi, ?Ha, ?El, ?Ep; cbn [mbind outcome_bind]). }
    cbn [mbind outcome_bind]. destruct (field_int leader _) as [p|f] eqn:E.
    2: { eapply fault_of; [done..|]. unfold region_entry. by do 5 (rewrite ?Hi, ?Ha, ?El, ?Ep, ?E; cbn [mbind outcome_bind]). }
    cbn [mbind outcome_bind]. split; [done|]. rewrite bool_decide_false by done. cbn [shared thread]. split; [|apply active_on_half]. set (r' := on_half _ _ _). change (write_index r) with (write_index r').
    apply (filling_led _ _ regions v region a leader peers p t); try done. unfold r'. rewrite written_on_half, Hw. done.
  - destruct (secondaries leader (json_values peers) ∅) as [s|f] eqn:Es.
    2: { eapply fault_of; [done..|]. unfold region_entry. by do 6 (rewrite ?Hi, ?Ha, ?Hle, ?Hpe, ?Hp, ?Es; cbn [mbind outcome_bind]). }
    cbn [mbind outcome_bind]. split; [done|]. rewrite bool_decide_false by done. cbn [shared thread]. split; [|apply active_on_half]. set (r' := on_half _ _ _). change (write_index r) with (write_index r').
    destruct Hl as (H0 & es & Hes & ->). apply filling_next; [done|lia|]. split; [lia|]. exists (es ++ [(a, p, s)]). split.
    + apply entries_snoc; [done|done|]. unfold region_entry. by do 6 (rewrite ?Hi, ?Ha, ?Hle, ?Hpe, ?Hp, ?Es; cbn [mbind outcome_bind]).
    + unfold r'. rewrite written_on_half, Hw, (region_table_snoc regions v) by done. done.
Qed.

(** *** The invariant of every history *)
Definition seen_so_far (base : MetaInfo) (responses : list (list Z)) m : Prop :=
  active (shared m) = table_of base (match thread m with Idle => responses | _ => removelast responses end) ∧
  (thread m ≠ Idle → ∃ response, last responses = Some response ∧ filling response (shared m) (thread m)).
Definition more (responses : list (list Z)) (e : event) : list (list Z) := match e with Begin response => responses ++ [response] | Write => responses end.

Lemma table_snoc base responses response :
  table_of (J := J) base (responses ++ [response]) = match readable (J := J) response with Some es => region_table es | None => table_of base responses end.
Proof. unfold table_of. by rewrite foldl_app. Qed.
Lemma half_None (w : writer J) : half w = None ↔ w = Idle.
Proof. by destruct w. Qed.
Lemma not_idle (A : Type) (w : writer J) (a b : A) : w ≠ Idle → match w with Idle => a | _ => b end = b.
Proof. by destruct w. Qed.
Lemma step_invariant base responses m e m' : seen_so_far base responses m → step m e m' → seen_so_far base (more responses e) m'.
Proof.
  intros [Ha Hw] Hs. revert Ha Hw. destruct Hs as [r response w Hb|r w mw Hne Hwr]; intros Ha Hw.
  - cbn [shared thread more] in *. pose proof (begins response r) as B. destruct (begin_load response r) as [w'|[]] eqn:E; try discriminate Hb; injection Hb as <-.
    + destruct B as [B Hw']. split; [|intros _; exists response; by rewrite last_snoc]. cbn [shared thread]. by rewrite not_idle, removelast_last, Ha.
    + split; [|done]. cbn [shared thread]. rewrite table_snoc. unfold readable. by rewrite B, Ha.
  - cbn [shared thread] in *. rewrite not_idle in Ha by done. destruct (Hw Hne) as (response & Hl & Hf). pose proof (writes response r w Hf) as W. apply last_Some in Hl as [rs ->]. rewrite removelast_last in Ha. cbn [more].
    destruct (write_once w r) as [m'|[]] eqn:E; try discriminate Hwr; injection Hwr as <-.
    + destruct W as [_ W]. case_bool_decide as Hh.
      * apply half_None in Hh. destruct W as (es & Hes & Hact). split; [|by rewrite Hh]. rewrite Hh, table_snoc. unfold readable. by rewrite Hes.
      * rewrite half_None in Hh. destruct W as [W Hact]. split; [by rewrite not_idle, removelast_last, Hact|]. intros _. exists response. by rewrite last_snoc.
    + split; [|done]. cbn [shared thread]. rewrite table_snoc. unfold readable. by rewrite W.
Qed.

Lemma buffer_apart v i (t : MetaInfo) b : i = 0 ∨ i = 1 → i ≠ v mod 2 → buffer (v mod 2) (set_buffer i t b) = buffer (v mod 2) b.
Proof. intros Hi Hv. pose proof (Z.mod_pos_bound v 2). unfold buffer, set_buffer. destruct (Z.eqb_spec (v mod 2) 0), (Z.eqb_spec i 0); try done; lia. Qed.
Lemma filling_half response r w : filling response r w → half w = Some (write_index r).
Proof. by destruct 1. Qed.
(** What a step leaves alone: the servers, the half that is not written and, unless
    it ends a load, the version. *)
Lemma step_keeps base responses m e m' v : seen_so_far base responses m → step m e m' →
  placement (shared m') = placement (shared m) ∧
  (half (thread m) ≠ Some (v mod 2) → buffer (v mod 2) (meta_info_ (shared m')) = buffer (v mod 2) (meta_info_ (shared m))).
Proof.
  intros [_ Hw] Hs. revert Hw. destruct Hs as [r response w Hb|r w mw Hne Hwr]; intros Hw; [done|]. cbn [shared thread] in *. destruct (Hw Hne) as (response & _ & Hf). rewrite (filling_half _ _ _ Hf).
  assert (∀ f, write_index r ≠ v mod 2 → buffer (v mod 2) (meta_info_ (on_half (write_index r) f r)) = buffer (v mod 2) (meta_info_ r)) as Hb.
  { intros f Hi. apply buffer_apart; [|done]. unfold write_index. pose proof (Z.mod_pos_bound (version_ r + 1) 2). lia. }
  destruct (write_once w r) as [m'|[]] eqn:E; try discriminate Hwr; injection Hwr as <-; [|done].
  destruct Hf; cbn [write_once] in E; inv_ok; try (split; [done|]; intros Hi; apply Hb; congruence).
  destruct (_ <? _); inv_ok; [split; [done|]; intros Hi; apply Hb; congruence|done].
Qed.

(** *** States of a history *)
Lemma history_step m l k : history m l → (k < length l)%nat → ∃ e, step (state_at m l k) e (state_at m l (S k)) ∧ l !! k = Some (e, state_at m l (S k)).
Proof.
  intros H. revert k. induction H as [m|m e m' l Hs Hl IH]; intros k Hk; [cbn in Hk; lia|]. destruct k as [|k]; [by exists e; split; [exact Hs|]|].
  cbn [length] in Hk. destruct (IH k ltac:(lia)) as (e' & Hs' & Hlk). exists e'. split; [exact Hs'|exact Hlk].
Qed.

Lemma history_invariant r l k : history (mk_machine r Idle) l → (k ≤ length l)%nat → seen_so_far (active r) (begun (take k l)) (state_at (mk_machine r Idle) l k).
Proof.
  intros H. set (m := mk_machine r Idle). induction k as [|k IH]; intros Hk; [by split|].
  destruct (history_step m l k H Hk) as (e & Hs & Hl). rewrite (take_S_r _ _ _ Hl). unfold begun. rewrite omap_app. fold (begun (take k l)).
  pose proof (step_invariant _ _ _ _ _ (IH ltac:(lia)) Hs) as Hi. destruct e; cbn [more] in Hi; cbn; [exact Hi|]. by rewrite app_nil_r.
Qed.
Lemma placement_stays r l k : history (mk_machine r Idle) l → (k ≤ length l)%nat → placement (shared (state_at (mk_machine r Idle) l k)) = placement r.
Proof.
  intros H. induction k as [|k IH]; intros Hk; [done|]. destruct (history_step _ l k H Hk) as (e & Hs & _).
  rewrite (proj1 (step_keeps _ _ _ _ _ 0 (history_invariant r l k H ltac:(lia)) Hs)). apply IH. lia.
Qed.
(** Between two moments no load goes on after a document was published, in
    particular if none was published. *)
Definition quiet (m : machine J) l (a b : nat) : Prop :=
  ∀ k, (a ≤ k ≤ b)%nat → version_ (shared (state_at m l k)) = version_ (shared (state_at m l a)) ∨ thread (state_at m l k) = Idle.
Definition unpublished (m : machine J) l (a b : nat) : Prop :=
  ∀ k, (a ≤ k ≤ b)%nat → version_ (shared (state_at m l k)) = version_ (shared (state_at m l a)).
Lemma quiet_half r l a b : history (mk_machine r Idle) l → (b ≤ length l)%nat → quiet (mk_machine r Idle) l a b →
  ∀ k, (a ≤ k ≤ b)%nat → let at_ := state_at (mk_machine r Idle) l in
  buffer (version_ (shared (at_ a)) mod 2) (meta_info_ (shared (at_ k))) = active (shared (at_ a)).
Proof.
  intros H Hb Hq k Hk at_. replace k with (a + (k - a))%nat by lia. assert (a + (k - a) ≤ b)%nat as Hle by lia. clear Hk. revert Hle. induction (k - a)%nat as [|n IH]; intros Hle; [by rewrite Nat.add_0_r|].
  replace (a + S n)%nat with (S (a + n)) by lia. rewrite <- IH by lia. destruct (history_step _ l (a + n) H ltac:(lia)) as (e & Hs & _). fold at_ in Hs.
  pose proof (history_invariant r l (a + n) H ltac:(lia)) as Hi. fold at_ in Hi. apply (step_keeps _ _ _ _ _ _ Hi Hs).
  destruct (decide (half (thread (at_ (a + n)%nat)) = None)) as [->|Hne]; [done|]. rewrite half_None in Hne. destruct (Hq (a + n)%nat ltac:(lia)) as [Hv|]; [|done]. fold at_ in Hv.
  destruct Hi as [_ Hf]. destruct (Hf Hne) as (response & _ & F). rewrite (filling_half _ _ _ F). unfold write_index. rewrite Hv. intros [= E].
  Z.to_euclidean_division_equations. lia.
Qed.
(** How a look-up that is over after [n] accesses, the first at the moment [a],
    looks to its caller. *)
Definition as_if_at {A} (o : outcome A) (n i : nat) : outcome (A * nat) := (λ x, (x, (i + n)%nat)) <$> o.
End Histories.

(** C33: Readers see whole documents, as far as the double buffer protects them.
    Whatever documents arrive, however their loads are cut into single writes and
    wherever the accesses of a reader fall between them: the half that the version
    points to always holds the last readable document whose load has ended.  A
    look-up gives what it would give at its first access, even if a document is
    published meanwhile, as long as no load goes on after that ([quiet]); a whole
    evaluation, with the statistics of its regions, what it would give at once, as
    long as no document is published in between.  [torn_look_up],
    [dangling_followers] and [mixed_documents] show that both conditions are needed. *)
Theorem readers_see_documents `{HJ : Json J} r (l : list (event * machine J)) : history (mk_machine r Idle) l →
  let at_ := state_at (mk_machine r Idle) l in
  (∀ k, (k ≤ length l)%nat → active (shared (at_ k)) = table_of (active r) (ended (mk_machine r Idle) l k)) ∧
  (∀ (when : nat → nat) i, (∀ j j', (j ≤ j')%nat → (when j ≤ when j')%nat) → (when (i + 3)%nat ≤ length l)%nat →
     quiet (mk_machine r Idle) l (when i) (when (i + 3)%nat) →
     let seen j := shared (at_ (when j)) in
     (∀ v, read_primary seen v i = as_if_at (GetRegionPrimaryStoreId (seen i) v) 3 i) ∧
     (∀ v s, (x ← read_secondary seen v; contains seen x s) i = as_if_at ((λ ss, bool_decide (s ∈ ss)) <$> GetRegionSecondaryStoreId (seen i) v) 4 i) ∧
     (∀ a, read_store seen a i = as_if_at (Ok (GetStoreForRegion (seen i) a)) 2 i)) ∧
  (∀ (when : nat → nat) a b, (b ≤ length l)%nat → unpublished (mk_machine r Idle) l a b → (∀ j, (a ≤ when j ≤ b)%nat) →
     let seen j := shared (at_ (when j)) in
     ∀ i keys, (∀ random, fst <$> choose_steps seen keys random i = choose (shared (at_ a)) keys random) ∧
       fst <$> touched_steps seen keys ∅ ∅ i = touched (shared (at_ a)) keys ∅ ∅).
Proof.
  intros H at_. split; [|split].
  - intros k Hk. exact (proj1 (history_invariant r l k H Hk)).
  - intros when i Hm Hb Hq seen. assert (∀ n, (n ≤ 4)%nat → unmoved seen i n) as Hu.
    { intros n Hn j Hj. apply (quiet_half r l (when i) (when (i + 3)%nat)); [done..|]. split; apply Hm; lia. }
    split; [|split].
    + intros v. apply read_primary_unmoved. apply Hu. lia.
    + intros v s. rewrite read_secondary_unmoved by (apply Hu; lia). unfold as_if_at. by destruct (GetRegionSecondaryStoreId _ _).
    + intros a. apply read_store_unmoved, Hu. lia.
  - intros when a b Hb Hu Hw seen i keys.
    assert (∀ j, version_ (seen j) = version_ (shared (at_ a)) ∧ active (seen j) = active (shared (at_ a)) ∧ placement (seen j) = placement (shared (at_ a))) as Hst.
    { intros j. destruct (Hw j) as [Ha Hj]. unfold seen. split; [by apply Hu|]. split; [|unfold at_; by rewrite !placement_stays by (done || lia)].
      pose proof (quiet_half r l a b H Hb ltac:(intros k Hk; left; by apply Hu) (when j) (Hw j)) as Q. cbn zeta in Q. fold at_ in Q. rewrite <- Q. unfold active. do 2 f_equal. exact (Hu (when j) (Hw j)). }
    split; [intros random; by apply choose_agrees|by apply touched_agrees].
Qed.

(** ** The writes of a load make up the operation *)
Section Sequential.
Context `{HJ : Json J}.
(** The thread alone, until the load ends. *)
Fixpoint to_end (n : nat) (m : machine J) : outcome (machine J) :=
  match n with
  | O => Ok m
  | S n' => match thread m with Idle => Ok m | w => m ← caught (write_once w (shared m)) (mk_machine (shared m) Idle); to_end n' m end
  end.
Definition load_in_steps (n : nat) (response : list Z) (r : LionRouter) : outcome (machine J) :=
  w ← caught (begin_load response r) Idle; to_end n (mk_machine r w).

Definition with_half (r : LionRouter) (i : Z) (t : MetaInfo) : LionRouter := mk_router (placement r) (stats r) (set_buffer i t (meta_info_ r)) (version_ r).
Lemma on_with_half r i t f : on_half i f (with_half r i t) = with_half r i (f t).
Proof. unfold on_half, with_half, buffer, set_buffer. cbn. by destruct (i =? 0). Qed.
Lemma with_own_half r i : with_half r i (buffer i (meta_info_ r)) = r.
Proof. destruct r as [p s [b0 b1] v]. unfold with_half, buffer, set_buffer. cbn. by destruct (i =? 0). Qed.
Lemma cleared r i : on_half i (clear_map 2) (on_half i (clear_map 1) (on_half i (clear_map 0) r)) = with_half r i no_meta.
Proof. rewrite <- (with_own_half r i) at 1. by rewrite !on_with_half. Qed.
Lemma to_end_idle n r : to_end n (mk_machine r Idle) = Ok (mk_machine r Idle).
Proof. by destruct n. Qed.

Definition outcome_of (res : LionRouter * outcome ()) : outcome (machine J) := match res with (r, Ok _) => Ok (mk_machine r Idle) | (_, Fault f) => Fault f end.
(** How the loop over the regions ends: with a new version, or in an exception. *)
Definition finish (r : LionRouter) (i : Z) (res : MetaInfo * outcome ()) : LionRouter * outcome () :=
  match res with
  | (t, Ok _) => (publish (with_half r i t), Ok ())
  | (t, Fault Exception) => (with_half r i t, Ok ())
  | (t, Fault f) => (with_half r i t, Fault f)
  end.
Lemma iter_cons {A} (f : A → st MetaInfo ()) x xs t :
  st_iter f (x :: xs) t = match f x t with (t', Ok _) => st_iter f xs t' | (t', Fault e) => (t', Fault e) end.
Proof. cbn [st_iter]. unfold mbind, st_bind. by destruct (f x t) as [t' [[]|e]]. Qed.
Lemma load_region_eq (regions : J) v t :
  load_region regions v t =
    match (region ← json_at_index regions v; a ← field_int region (str "region_id"); Ok (region, a)) with
    | Fault f => (t, Fault f)
    | Ok (region, a) =>
        let t := mk_meta (<[i32 v := a]> (virtual_region_id_map_ t)) (region_primary_store_id_ t) (region_secondary_store_id_ t) in
        match (leader ← json_at_key region (str "leader"); peers ← json_at_key region (str "peers"); p ← field_int leader (str "store_id"); Ok (leader, peers, p)) with
        | Fault f => (t, Fault f)
        | Ok (leader, peers, p) =>
            let t := mk_meta (virtual_region_id_map_ t) (<[a := p]> (region_primary_store_id_ t)) (region_secondary_store_id_ t) in
            match secondaries leader (json_values peers) ∅ with
            | Fault f => (t, Fault f)
            | Ok s => (mk_meta (virtual_region_id_map_ t) (region_primary_store_id_ t) (<[a := s]> (region_secondary_store_id_ t)), Ok ())
            end
        end
    end.
Proof.
  unfold load_region, run, modify, mbind, outcome_bind, st_bind. destruct (json_at_index regions v) as [region|]; [|done].
  destruct (field_int region _) as [a|]; [|done]. destruct (json_at_key region (str "leader")) as [leader|]; [|done].
  destruct (json_at_key region (str "peers")) as [peers|]; [|done]. destruct (field_int leader _) as [p|]; [|done]. by destruct (secondaries _ _ _).
Qed.
Lemma fill_in_steps (r : LionRouter) i (regions : J) k v t : v + Z.of_nat k = Z.max v (json_size regions) →
  to_end (3 * k + 1) (mk_machine (with_half r i t) (Next i regions v)) = outcome_of (finish r i (st_iter (load_region regions) (seqZ v (Z.of_nat k)) t)).
Proof.
  revert v t. induction k as [|k IH]; intros v t Hk.
  { cbn [Nat.mul Nat.add to_end thread shared write_once]. rewrite (proj2 (Z.ltb_ge _ _)) by lia. done. }
  rewrite (seqZ_cons v) by lia. replace (Z.pred (Z.of_nat (S k))) with (Z.of_nat k) by lia. replace (3 * S k + 1)%nat with (S (S (S (3 * k + 1)))) by lia.
  rewrite iter_cons, load_region_eq.
  cbn [to_end thread shared write_once]. rewrite (proj2 (Z.ltb_lt _ _)) by lia.
  destruct (json_at_index regions v) as [region|[]]; cbn [mbind outcome_bind caught]; rewrite ?to_end_idle; try done.
  destruct (field_int region _) as [a|[]]; cbn [mbind outcome_bind caught]; rewrite ?to_end_idle; try done. rewrite on_with_half. cbn [thread shared write_once].
  destruct (json_at_key region (str "leader")) as [leader|[]]; cbn [mbind outcome_bind caught]; rewrite ?to_end_idle; try done.
  destruct (json_at_key region (str "peers")) as [peers|[]]; cbn [mbind outcome_bind caught]; rewrite ?to_end_idle; try done.
  destruct (field_int leader _) as [p|[]]; cbn [mbind outcome_bind caught]; rewrite ?to_end_idle; try done. rewrite on_with_half. cbn [thread shared write_once].
  destruct (secondaries leader _ _) as [s|[]]; cbn [mbind outcome_bind caught]; rewrite ?to_end_idle; try done. rewrite on_with_half. rewrite Z.add_1_r. apply IH. lia.
Qed.
(** Enough steps do what [UpdateRegion2Store] does at once. *)
Theorem update_in_steps response r : ∃ n, load_in_steps n response r = outcome_of (UpdateRegion2Store response r).
Proof.
  unfold load_in_steps, begin_load, UpdateRegion2Store, catch_exceptions, run, mbind, outcome_bind, st_bind.
  destruct (json_parse response) as [data|[]]; try (by exists 0%nat).
  destruct (json_find data (str "record_regions")) as [regions|]; [|by exists 0%nat]. cbn [throw_none caught].
  set (k := Z.to_nat (json_size regions)). exists (S (S (S (3 * k + 1)))). cbn [throw_none to_end thread shared write_once caught mbind outcome_bind Nat.ltb Nat.leb].
  rewrite cleared. rewrite fill_in_steps by lia. unfold load_regions.
  assert (seqZ 0 (Z.of_nat k) = seqZ 0 (json_size regions)) as -> by (unfold seqZ, k; by rewrite Nat2Z.id).
  destruct (st_iter _ _ _) as [t [[]|[]]]; done.
Qed.
End Sequential.

(** ** Concrete histories *)
Section Play.
Context `{HJ : Json J}.
Definition do_step (e : event) (m : machine J) : option (machine J) :=
  match e, thread m with
  | Begin response, Idle => match caught (begin_load response (shared m)) Idle with Ok w => Some (mk_machine (shared m) w) | Fault _ => None end
  | Write, Idle | Begin _, _ => None
  | Write, w => match caught (write_once w (shared m)) (mk_machine (shared m) Idle) with Ok m => Some m | Fault _ => None end
  end.
Fixpoint play (es : list event) (m : machine J) : list (event * machine J) :=
  match es with
  | [] => []
  | e :: es' => match do_step e m with Some m' => (e, m') :: play es' m' | None => [] end
  end.
Lemma play_history es m : history m (play es m).
Proof.
  revert m. induction es as [|e es IH]; intros [r w]; cbn [play]; [apply history_nil|]. destruct (do_step e _) as [m'|] eqn:E; [|apply history_nil].
  apply history_cons; [|apply IH]. unfold do_step in E. destruct e as [response|]; cbn [thread shared] in E.
  - destruct w; try discriminate E. destruct (caught _ _) as [w'|] eqn:Ew; [|discriminate E]. injection E as <-. by apply step_begin.
  - destruct w; try discriminate E; (destruct (caught _ _) as [m1|] eqn:Ew; [|discriminate E]); injection E as <-; by apply step_write.
Qed.
End Play.

(** The second region is on store 7 until the document of two regions is loaded. *)
Definition moving_router : LionRouter :=
  mk_router (placement example_router) no_stats
    (no_meta, mk_meta {[0 := 52; 1 := 58]} {[52 := 4; 58 := 7]} {[52 := {[1]}; 58 := ∅]}) 5.
(** One load, and the start of the next one. *)
Definition moving : list (event * machine Example.doc) := play (Begin [1] :: replicate 10 Write ++ [Begin [1]; Write; Write; Write]) (mk_machine moving_router Idle).
Definition moment (k : nat) : LionRouter := shared (state_at (mk_machine moving_router Idle) moving k).
Definition times (l : list nat) (j : nat) : LionRouter := moment (default 0%nat (l !! j)).

(** A session loads the version, is suspended while a document is published and the
    next load begins, and finds the half that it reads emptied: the look-up throws
    although the region is in the document at every moment. *)
Example torn_look_up :
  Forall (λ k, GetRegionPrimaryStoreId (moment k) 0 = Ok 4) (seq 0 16) ∧ read_primary (times [0; 13; 13]%nat) 0 0%nat = Fault Exception.
Proof. split; [apply (bool_decide_unpack _); vm_compute; exact I|vm_compute; reflexivity]. Qed.
(** The reference to the followers of a region outlives them. *)
Example dangling_followers :
  (x ← read_secondary (times [0; 0; 0; 15]%nat) 0; contains (times [0; 0; 0; 15]%nat) x 1) 0%nat = Fault OutOfBounds.
Proof. vm_compute. reflexivity. Qed.
(** A document that is published while the stores are compared: the store that is
    chosen is the best one in neither document. *)
Example mixed_documents :
  choose (moment 0) [10015] 0 = Ok 7 ∧ choose (moment 11) [10015] 0 = Ok 1 ∧
  fst <$> choose_steps (λ j, moment (if (j <? 8)%nat then 0 else 11)) [10015] 0 0%nat = Ok 4.
Proof. split_and!; vm_compute; reflexivity. Qed.

(** A look-up during which the document is published. *)
Lemma readers_see_documents_witness :
  history (mk_machine moving_router Idle) (take 11 moving) ∧
  read_primary (λ j, shared (state_at (mk_machine moving_router Idle) (take 11 moving) (if (j <? 2)%nat then 0 else 11))) 1 0%nat = Ok (7, 3%nat) ∧
  GetRegionPrimaryStoreId (moment 11) 1 = Ok 1.
Proof.
  assert (history (mk_machine moving_router Idle) (take 11 moving)) as H by exact (play_history (Begin [1] :: replicate 10 Write) _).
  split; [exact H|]. split; [|vm_compute; reflexivity].
  destruct (readers_see_documents moving_router (take 11 moving) H) as (_ & Hl & _). destruct (Hl (λ j, if (j <? 2)%nat then 0%nat else 11%nat) 0%nat) as [Hp _].
  - intros j j' Hj. destruct (Nat.ltb_spec j 2), (Nat.ltb_spec j' 2); lia.
  - vm_compute. lia.
  - intros k [_ Hk]. change (k ≤ 11)%nat in Hk. do 12 (destruct k as [|k]; [vm_compute; first [by left|by right]|]). lia.
  - rewrite (Hp 1). vm_compute. reflexivity.
Defined.
