(* ===== verification/Conn.v ===== *)
(** * Backend connections (lib/mysql_connection.cpp)

    What the connection pool and the sessions look at in a connection: the user
    and schema it authenticated with, the hashes of the session variables that
    were set on it, the flags that pin it to a session, and the transaction state
    the server reported.  The network state machine of the connection and the
    client library behind it are not modelled: the handle of the library is
    reduced to the status fields the code reads, and the texts of the variables
    and options that only travel to the server are left out. *)
From S2P Require Import Prelude StringUtils.

(** ** State *)

(** The fields of the client library's [MYSQL] the code reads. *)
Record mysql_handle := mk_handle {
  server_status : Z;
  last_errno : Z
}.
Definition SERVER_STATUS_IN_TRANS : Z := 1.
Definition SERVER_STATUS_AUTOCOMMIT : Z := 2.
Definition SERVER_STATUS_NO_BACKSLASH_ESCAPES : Z := 512.

(** A string is [None] where the code has a null pointer. *)
Record MySQL_Connection_userinfo := mk_userinfo {
  ui_hash : Z;
  username : option (list Z);
  password : option (list Z);
  schemaname : option (list Z);
  sha1_pass : option (list Z)
}.
Definition new_userinfo : MySQL_Connection_userinfo := mk_userinfo 0 None None None None.

Record MySQL_Connection := mk_conn {
  userinfo : MySQL_Connection_userinfo;
  mysql : option mysql_handle;
  client_flag : Z;
  last_set_autocommit : Z;
  no_backslash_escapes : bool;
  init_connect : option (list Z);
  init_connect_sent : bool;
  var_hash : list Z;
  dynamic_variables_idx : list Z;
  status_flags : Z;
  warning_count : Z;
  unknown_transaction_status : bool;
  auto_increment_delay_token : Z;
  reusable : bool;
  creation_time : Z
}.

Definition SQL_CHARACTER_ACTION : Z := 1.
Definition SQL_NAME_LAST_LOW_WM : Z := 8.
Definition SQL_NAME_LAST_HIGH_WM : Z := 59.

Definition new_connection : MySQL_Connection :=
  mk_conn new_userinfo None 0 (-1) false None false (repeat 0 (Z.to_nat SQL_NAME_LAST_HIGH_WM)) [] 0 0 false 0 false 0.

#[export] Instance MySQL_Connection_eta : Eta MySQL_Connection := λ c,
  mk_conn (userinfo c) (mysql c) (client_flag c) (last_set_autocommit c) (no_backslash_escapes c) (init_connect c)
    (init_connect_sent c) (var_hash c) (dynamic_variables_idx c) (status_flags c) (warning_count c)
    (unknown_transaction_status c) (auto_increment_delay_token c) (reusable c) (creation_time c).

(** The hash of variable [i]; zero when it was never set. *)
Definition hash_at (c : MySQL_Connection) (i : Z) : Z := default 0 (var_hash c !! Z.to_nat i).

(** ** User and schema *)
Definition compute_hash_input (ui : MySQL_Connection_userinfo) : list Z :=
  default [] (username ui) ++ str "-ujhtgf76y576574fhYTRDF345wdt-" ++
  default [] (password ui) ++ default [] (schemaname ui) ++ str "-8k7jrhtrgJHRgrefgreyhtRFewg6-".

(** [SpookyHash::Hash64] is a parameter. *)
Definition compute_hash (Hash64 : list Z → Z → Z) (ui : MySQL_Connection_userinfo) : MySQL_Connection_userinfo :=
  mk_userinfo (Hash64 (compute_hash_input ui) 0) (username ui) (password ui) (schemaname ui) (sha1_pass ui).

(** [set]: a null argument keeps the field. *)
Definition keep_or (new old : option (list Z)) : option (list Z) := match new with Some _ => new | None => old end.
Definition userinfo_set (Hash64 : list Z → Z → Z) (u p s sh1 : option (list Z)) (ui : MySQL_Connection_userinfo) :
  MySQL_Connection_userinfo :=
  compute_hash Hash64
    (mk_userinfo (ui_hash ui) (keep_or u (username ui)) (keep_or p (password ui)) (keep_or s (schemaname ui))
       (keep_or sh1 (sha1_pass ui))).

(** [strncmp(a, b, n) == 0]. *)
Definition strncmp_eq (n : nat) (a b : list Z) : bool := bool_decide (cstr (take n (a ++ [0])) = cstr (take n (b ++ [0]))).

(** [l] is the length of the new name; an empty one selects the default schema. *)
Definition set_schemaname (Hash64 : list Z → Z → Z) (default_schema new : list Z) (l : Z) (ui : MySQL_Connection_userinfo) :
  MySQL_Connection_userinfo * bool :=
  let changed := match schemaname ui with
    | None => true
    | Some s => negb (l =? Z.of_nat (length s)) || negb (strncmp_eq (Z.to_nat l) new s)
    end in
  if changed then
    (compute_hash Hash64 (mk_userinfo (ui_hash ui) (username ui) (password ui)
       (Some (if l =? 0 then default_schema else cstr (take (Z.to_nat l) new))) (sha1_pass ui)), true)
  else (ui, false).

(** ** Choosing a connection to reuse *)
Definition strcmp_eq (a b : option (list Z)) : outcome bool :=
  match a, b with Some a, Some b => Ok (bool_decide (a = b)) | _, _ => Fault NullPointer end.

Definition CLIENT_FOUND_ROWS : Z := 2.
Definition CLIENT_IGNORE_SPACE : Z := 256.
Definition CLIENT_MULTI_STATEMENTS : Z := 65536.
Definition CLIENT_MULTI_RESULTS : Z := 131072.

Definition match_tracked_options (this c : MySQL_Connection) : bool :=
  let same f := Z.land (client_flag this) f =? Z.land (client_flag c) f in
  same CLIENT_FOUND_ROWS && same CLIENT_MULTI_STATEMENTS && same CLIENT_MULTI_RESULTS && same CLIENT_IGNORE_SPACE.

(** The two iterators over the ordered indexes: every index of the server
    connection must appear among those of the client. *)
Fixpoint backend_covered (it_c it_s : list Z) : bool :=
  match it_s with
  | [] => true
  | s :: it_s' =>
      let it_c := drop_while (λ c, c <? s) it_c in
      match it_c with
      | c :: _ => if c =? s then backend_covered it_c it_s' else false
      | [] => false
      end
  end.

Definition low_variables : list Z := seqZ 0 SQL_NAME_LAST_LOW_WM.

Definition requires_CHANGE_USER (this client_conn : MySQL_Connection) : outcome bool :=
  same_user ← strcmp_eq (username (userinfo this)) (username (userinfo client_conn));
  if negb same_user then Ok true
  else if existsb (λ i, (hash_at client_conn i =? 0) && negb (hash_at this i =? 0)) low_variables then Ok true
  else if (length (dynamic_variables_idx client_conn) <? length (dynamic_variables_idx this))%nat then Ok true
  else Ok (negb (backend_covered (dynamic_variables_idx client_conn) (dynamic_variables_idx this))).

Definition reorder_dynamic_variables_idx (c : MySQL_Connection) : MySQL_Connection * Z :=
  let idx := filter (λ i, hash_at c i ≠ 0)
               (seqZ (SQL_NAME_LAST_LOW_WM + 1) (SQL_NAME_LAST_HIGH_WM - (SQL_NAME_LAST_LOW_WM + 1))) in
  (c <| dynamic_variables_idx := idx |>, Z.of_nat (length idx)).

Definition match_low (this client_conn : MySQL_Connection) (acc : Z * Z) (i : Z) : Z * Z :=
  let '(ret, not_matching) := acc in
  if negb (hash_at client_conn i =? 0) && negb (i =? SQL_CHARACTER_ACTION) then
    if hash_at this i =? hash_at client_conn i then (ret + 1, not_matching) else (ret, not_matching + 1)
  else acc.

Fixpoint match_dynamic (this client_conn : MySQL_Connection) (it_c it_s : list Z) (ret not_matching : Z) : Z * Z :=
  match it_c with
  | [] => (ret, not_matching)
  | c :: it_c' =>
      match it_s with
      | [] => (ret, not_matching)
      | _ =>
          let it_s := drop_while (λ s, s <? c) it_s in
          match it_s with
          | s :: _ =>
              if (s =? c) && (hash_at this s =? hash_at client_conn c)
              then match_dynamic this client_conn it_c' it_s (ret + 1) (u32 (not_matching - 2))
              else match_dynamic this client_conn it_c' it_s ret not_matching
          | [] => match_dynamic this client_conn it_c' it_s ret not_matching
          end
      end
  end.

(** The number of matching variables, and the increased [not_matching]. *)
Definition number_of_matching_session_variables (this client_conn : MySQL_Connection) (not_matching : Z) : Z * Z :=
  let '(ret, not_matching) := fold_left (match_low this client_conn) low_variables (0, not_matching) in
  let not_matching := u32 (not_matching + Z.of_nat (length (dynamic_variables_idx client_conn))) in
  let not_matching := u32 (not_matching + Z.of_nat (length (dynamic_variables_idx this))) in
  match_dynamic this client_conn (dynamic_variables_idx client_conn) (dynamic_variables_idx this) ret not_matching.

(** ** Transaction state *)
Definition has_bits (x f : Z) : bool := negb (Z.land x f =? 0).

Definition compute_unknown_transaction_status (c : MySQL_Connection) : MySQL_Connection :=
  match mysql c with
  | None => c
  | Some h =>
      let e := last_errno h in
      if e =? 0 then c <| unknown_transaction_status := false |>
      else if (2000 <=? e) && (e <? 3000) then c
      else if (1000 <=? e) && (e <? 2000) then c <| unknown_transaction_status := true |>
      else if (3000 <=? e) && (e <? 4000) then c <| unknown_transaction_status := true |>
      else c
  end.

Definition IsAutoCommit (c : MySQL_Connection) : bool :=
  match mysql c with
  | None => false
  | Some h =>
      if has_bits (server_status h) SERVER_STATUS_AUTOCOMMIT then negb (last_set_autocommit c =? 0)
      else last_set_autocommit c =? -1
  end.

(** [autocommit_false_is_transaction] is the configuration variable. *)
Definition IsKnownActiveTransaction (autocommit_false_is_transaction : bool) (c : MySQL_Connection) : bool :=
  match mysql c with
  | Some h => has_bits (server_status h) SERVER_STATUS_IN_TRANS
  | None => false
  end || (autocommit_false_is_transaction && negb (IsAutoCommit c)).

Definition IsActiveTransaction (autocommit_false_is_transaction : bool) (c : MySQL_Connection) : bool :=
  match mysql c with
  | None => false
  | Some h =>
      has_bits (server_status h) SERVER_STATUS_IN_TRANS ||
      (negb (last_errno h =? 0) && unknown_transaction_status c) ||
      (autocommit_false_is_transaction && negb (IsAutoCommit c))
  end.

(** ** The flags that pin a connection to its session *)
Definition COMPRESSION : Z := 2.
Definition USER_VARIABLE : Z := 4.
Definition PREPARED_STATEMENT : Z := 8.
Definition LOCK_TABLES : Z := 16.
Definition TEMPORARY_TABLE : Z := 32.
Definition GET_LOCK : Z := 64.
Definition NO_MULTIPLEX : Z := 128.
Definition SQL_LOG_BIN0 : Z := 256.
Definition FOUND_ROWS : Z := 512.
Definition NO_MULTIPLEX_HG : Z := 1024.
Definition HAS_SAVEPOINT : Z := 2048.
Definition HAS_WARNINGS : Z := 4096.

Definition set_status (set : bool) (flag : Z) (c : MySQL_Connection) : MySQL_Connection :=
  c <| status_flags := if set then Z.lor (status_flags c) flag else Z.land (status_flags c) (Z.lnot flag) |>.
Definition get_status (flag : Z) (c : MySQL_Connection) : bool := has_bits (status_flags c) flag.

Definition AutocommitFalse_AndSavepoint (c : MySQL_Connection) : bool :=
  negb (IsAutoCommit c) && get_status HAS_SAVEPOINT c.

Definition pinning_flags : Z :=
  Z.lor USER_VARIABLE (Z.lor PREPARED_STATEMENT (Z.lor LOCK_TABLES (Z.lor TEMPORARY_TABLE (Z.lor GET_LOCK
    (Z.lor NO_MULTIPLEX (Z.lor SQL_LOG_BIN0 (Z.lor FOUND_ROWS (Z.lor NO_MULTIPLEX_HG (Z.lor HAS_SAVEPOINT HAS_WARNINGS))))))))).

Definition MultiplexDisabled (check_delay_token : bool) (c : MySQL_Connection) : bool :=
  has_bits (status_flags c) pinning_flags || (check_delay_token && negb (auto_increment_delay_token c =? 0)).

(** *** Queries on variables that keep the connection shareable *)

(** Removing the first occurrence of a prefix, ignoring case; [None] when there
    is none. *)
Fixpoint remove_ci (pat s : list Z) : option (list Z) :=
  if prefix_ci pat s then Some (drop (length pat) s)
  else match s with [] => None | c :: s' => cons c <$> remove_ci pat s' end.
Fixpoint remove_all_ci (fuel : nat) (pat s : list Z) : outcome (list Z) :=
  match fuel with
  | O => Fault Diverges
  | S fuel' => match remove_ci pat s with Some s' => remove_all_ci fuel' pat s' | None => Ok s end
  end.

(** The successive results of [strtok_r] with delimiters [p]. *)
Fixpoint strtok_from (p : Z → bool) (cur s : list Z) : list (list Z) :=
  match s with
  | [] => match cur with [] => [] | _ => [cur] end
  | c :: r => if p c then match cur with [] => strtok_from p [] r | _ => cur :: strtok_from p [] r end
              else strtok_from p (cur ++ [c]) r
  end.
Definition strtok (p : Z → bool) (s : list Z) : list (list Z) := strtok_from p [] s.

(** A select item without its leading blanks and its alias. *)
Definition select_item (tok : list Z) : list Z := (span (λ c, negb (c =? 32)) (drop_while isspace tok)).1.

Definition IsKeepMultiplexEnabledVariables (keep_multiplexing_variables : list Z) (digest : option (list Z)) : outcome bool :=
  match digest with
  | None => Ok true
  | Some q =>
      if negb (prefix_ci (str "SELECT ") q) then Ok false
      else
        let s := drop 7 q in
        s ← remove_all_ci (S (length s)) (str "@@session.") s;
        s ← remove_all_ci (S (length s)) (str "@@local.") s;
        s ← remove_all_ci (S (length s)) (str "@@") s;
        let items := select_item <$> strtok (λ c, c =? 44) s in
        let keep := strtok (λ c, (c =? 32) || (c =? 44)) keep_multiplexing_variables in
        Ok (forallb (λ it, existsb (λ k, prefix_ci k it) keep) items)
  end.

(** *** What a query does to the flags *)
Record session_view := mk_session {
  qpo_multiplex : option Z;
  locked_on_hostgroup : Z;
  current_hostgroup : Z;
  warning_in_hg : Z;
  client_no_backslash_escapes : option bool
}.
#[export] Instance session_view_eta : Eta session_view := λ s,
  mk_session (qpo_multiplex s) (locked_on_hostgroup s) (current_hostgroup s) (warning_in_hg s)
    (client_no_backslash_escapes s).
Record thread_vars := mk_thread_vars {
  set_query_lock_on_hostgroup : Z;
  keep_multiplexing_variables : list Z
}.

(** The connection, and the session it is bound to, if any. *)
Abbreviation bound := (MySQL_Connection * option session_view)%type.
Definition ProcessQuery_Warnings (q : list Z) (b : bound) : bound :=
  let '(c, s) := b in
  if negb (get_status HAS_WARNINGS c) then
    if 0 <? warning_count c then
      (set_status true HAS_WARNINGS c, (λ s, s <| warning_in_hg := current_hostgroup s |>) <$> s)
    else b
  else
    if strcasecmp_eq q (str "SHOW COUNT(" ++ 42 :: str ") WARNINGS") || strcasecmp_eq q (str "SHOW WARNINGS") then b
    else (set_status false HAS_WARNINGS (c <| warning_count := 0 |>), (λ s, s <| warning_in_hg := -1 |>) <$> s).

Definition has_at (q : list Z) : bool := bool_decide (64 ∈ q).

Definition ProcessQuery_UserVariables (v : thread_vars) (q : list Z) (mul : Z) (b : bound) : outcome bound :=
  let '(c, s) := b in
  if get_status USER_VARIABLE c then Ok b
  else
    let by_text :=
      if negb (mul =? 2) && has_at q then
        keep ← IsKeepMultiplexEnabledVariables (keep_multiplexing_variables v) (Some q);
        Ok (if keep : bool then b else (set_status true USER_VARIABLE c, s))
      else Ok b in
    if prefix_ci (str "SET ") q then
      if set_query_lock_on_hostgroup v =? 0 then by_text
      else if set_query_lock_on_hostgroup v =? 1 then
        match s with
        | None => Fault NullPointer
        | Some s' => if -1 <? locked_on_hostgroup s' then Ok (set_status true USER_VARIABLE c, s) else Ok b
        end
      else Ok b
    else by_text.

Definition ProcessQuery_Savepoint (q : list Z) (c : MySQL_Connection) : outcome MySQL_Connection :=
  if negb (get_status HAS_SAVEPOINT c) then
    match mysql c with
    | None => Ok c
    | Some h =>
        if has_bits (server_status h) SERVER_STATUS_IN_TRANS || negb (has_bits (server_status h) SERVER_STATUS_AUTOCOMMIT)
        then Ok (if prefix_ci (str "SAVEPOINT ") q then set_status true HAS_SAVEPOINT c else c)
        else Ok c
    end
  else
    match mysql c with
    | None => Fault NullPointer
    | Some h =>
        if (has_bits (server_status h) SERVER_STATUS_AUTOCOMMIT && negb (has_bits (server_status h) SERVER_STATUS_IN_TRANS))
           || strcasecmp_eq q (str "COMMIT") || strcasecmp_eq q (str "ROLLBACK")
        then Ok (set_status false HAS_SAVEPOINT c) else Ok c
    end.

Definition ProcessQuery_SetBackslashEscapes (b : bound) : bound :=
  let '(c, s) := b in
  match mysql c with
  | None => b
  | Some h =>
      (c, (λ s, s <| client_no_backslash_escapes :=
             (λ _, has_bits (server_status h) SERVER_STATUS_NO_BACKSLASH_ESCAPES) <$> client_no_backslash_escapes s |>) <$> s)
  end.

(** A flag that a kind of query sets, looked for only while it is not set. *)
Definition flag_when (flag : Z) (test : bool) (c : MySQL_Connection) : MySQL_Connection :=
  if negb (get_status flag c) && test then set_status true flag c else c.

Definition flag_statements (q : list Z) (c : MySQL_Connection) : MySQL_Connection :=
  let c := flag_when PREPARED_STATEMENT (prefix_ci (str "PREPARE ") q) c in
  let c := flag_when TEMPORARY_TABLE (prefix_ci (str "CREATE TEMPORARY TABLE ") q) c in
  let c := flag_when LOCK_TABLES (prefix_ci (str "LOCK TABLE") q) c in
  let c := flag_when LOCK_TABLES (prefix_ci (str "FLUSH TABLES WITH READ LOCK") q) c in
  let c := if get_status LOCK_TABLES c && prefix_ci (str "UNLOCK TABLES") q then set_status false LOCK_TABLES c else c in
  let c := flag_when GET_LOCK (strcasestr q (str "GET_LOCK(")) c in
  flag_when FOUND_ROWS (strcasestr q (str "SQL_CALC_FOUND_ROWS")) c.

Definition ProcessQueryAndSetStatusFlags (v : thread_vars) (digest : option (list Z)) (b : bound) : outcome bound :=
  match digest with
  | None => Ok b
  | Some q =>
      let '(c, s) := b in
      let mul := default (-1) (s ≫= qpo_multiplex) in
      let c := if mul =? 0 then set_status true NO_MULTIPLEX c else if mul =? 1 then set_status false NO_MULTIPLEX c else c in
      b ← ProcessQuery_UserVariables v q mul (ProcessQuery_Warnings q (c, s));
      let '(c, s) := b : bound in
      c ← ProcessQuery_Savepoint q (flag_statements q c);
      Ok (ProcessQuery_SetBackslashEscapes (c, s))
  end.

(** *** Reset, after COM_CHANGE_USER or COM_RESET_CONNECTION *)
Definition reset (now : Z) (c : MySQL_Connection) : MySQL_Connection :=
  let flags := 0 in
  let flags := if get_status NO_MULTIPLEX_HG c then Z.lor flags NO_MULTIPLEX_HG else Z.land flags (Z.lnot NO_MULTIPLEX_HG) in
  let flags := if get_status COMPRESSION c then Z.lor flags COMPRESSION else Z.land flags (Z.lnot COMPRESSION) in
  mk_conn (userinfo c) (mysql c) (client_flag c) (-1) (no_backslash_escapes c) None
    (match init_connect c with Some _ => false | None => init_connect_sent c end)
    (repeat 0 (Z.to_nat SQL_NAME_LAST_HIGH_WM)) [] flags 0 (unknown_transaction_status c) 0 true now.

Definition reduce_auto_increment_delay_token (c : MySQL_Connection) : MySQL_Connection :=
  if auto_increment_delay_token c =? 0 then c else c <| auto_increment_delay_token := auto_increment_delay_token c - 1 |>.

(** ** Lemmas on the ordered indexes *)
Section Ordered.
Abbreviation increasing := (StronglySorted Z.lt).

Lemma drop_below x l :
  increasing l → increasing (drop_while (λ c, c <? x) l) ∧ ∀ y, y ∈ drop_while (λ c, c <? x) l ↔ y ∈ l ∧ x <= y.
Proof.
  induction 1 as [|a l Hl IH Ha]; cbn [drop_while]; [split; [constructor | set_solver]|].
  destruct (Z.ltb_spec a x) as [Hlt|Hge].
  - destruct IH as [IH1 IH2]. split; [done|]. intros y. rewrite IH2, elem_of_cons.
    split; [tauto|]. intros [[->|?] ?]; [lia | done].
  - split; [by constructor|]. intros y. split; [|tauto]. intros Hy. split; [done|].
    apply elem_of_cons in Hy as [->|Hy]; [done|]. rewrite Forall_forall in Ha. apply Ha in Hy. lia.
Qed.

Lemma increasing_head a l y : increasing (a :: l) → y ∈ l → a < y.
Proof. intros [Ha _]%StronglySorted_cons Hy. rewrite Forall_forall in Ha. by apply Ha. Qed.

Lemma backend_covered_spec it_c it_s :
  increasing it_c → increasing it_s → backend_covered it_c it_s = true ↔ ∀ x, x ∈ it_s → x ∈ it_c.
Proof.
  intros Hc Hs. revert it_c Hc. induction it_s as [|s it_s IH]; intros it_c Hc; cbn [backend_covered]; [set_solver|].
  destruct (drop_below s it_c Hc) as [Hd Hin]. pose proof Hs as [_ Hs']%StronglySorted_cons.
  destruct (drop_while _ it_c) as [|c r] eqn:E.
  { split; [done|]. intros H. assert (s ∈ it_c ∧ s <= s) as Hx%Hin by (split; [apply H; left | lia]).
    by apply elem_of_nil in Hx. }
  destruct (Z.eqb_spec c s) as [->|Hne].
  - rewrite (IH Hs' _ Hd). split.
    + intros H x [->|Hx]%elem_of_cons; [by apply Hin; left | by apply Hin, H].
    + intros H x Hx. apply Hin. split; [apply H; by right|]. pose proof (increasing_head _ _ _ Hs Hx). lia.
  - split; [done|]. intros H. assert (s ∈ it_c ∧ s <= s) as Hx%Hin by (split; [apply H; left | lia]).
    apply elem_of_cons in Hx as [->|Hx]; [done|]. pose proof (increasing_head _ _ _ Hd Hx).
    assert (c ∈ c :: r) as [_ Hle]%Hin by left. lia.
Qed.

Lemma match_dynamic_spec this cl it_c it_s ret nm :
  increasing it_c → increasing it_s →
  let k := Z.of_nat (length (filter (λ i, i ∈ it_s ∧ hash_at this i = hash_at cl i) it_c)) in
  match_dynamic this cl it_c it_s ret (u32 nm) = (ret + k, u32 (nm - 2 * k)).
Proof.
  intros Hc. revert it_s ret nm. induction it_c as [|c it_c IH]; intros it_s ret nm Hs; cbn zeta.
  { cbn. by rewrite Z.add_0_r, Z.sub_0_r. }
  pose proof Hc as [_ Hc']%StronglySorted_cons. cbn [match_dynamic].
  destruct it_s as [|s0 it_s0] eqn:Es.
  { rewrite (list_filter_iff _ (λ _, False)) by set_solver. 
    assert (filter (λ _ : Z, False) (c :: it_c) = []) as ->.
    { apply elem_of_nil_inv. intros x [[] _]%list_elem_of_filter. }
    cbn. by rewrite Z.add_0_r, Z.sub_0_r. }
  rewrite <- Es in *. clear Es s0 it_s0.
  destruct (drop_below c it_s Hs) as [Hd Hin]. set (d := drop_while _ it_s) in *.
  assert (Hsame : filter (λ i, i ∈ it_s ∧ hash_at this i = hash_at cl i) it_c =
                  filter (λ i, i ∈ d ∧ hash_at this i = hash_at cl i) it_c).
  { apply list_filter_iff_in. intros x Hx. rewrite Hin. pose proof (increasing_head _ _ _ Hc Hx). intuition lia. }
  rewrite filter_cons, Hsame. specialize (IH Hc' d).
  destruct (decide (c ∈ it_s ∧ hash_at this c = hash_at cl c)) as [[Hm He]|Hn].
  - assert (c ∈ d) as Hcd by (apply Hin; split; [done | lia]). destruct d as [|s r] eqn:Ed; [by apply elem_of_nil in Hcd|].
    assert (s = c) as ->.
    { apply elem_of_cons in Hcd as [->|Hr]; [done|]. pose proof (increasing_head _ _ _ Hd Hr).
      assert (s ∈ s :: r) as [_ Hle]%Hin by left. lia. }
    rewrite Z.eqb_refl, He, Z.eqb_refl. cbn [andb]. rewrite u32_sub_idemp, IH by done. cbn [length].
    rewrite Nat2Z.inj_succ. f_equal; [lia|]. f_equal. lia.
  - destruct d as [|s r] eqn:Ed; [by apply IH|].
    destruct (Z.eqb_spec s c) as [->|]; [|by apply IH].
    destruct (Z.eqb_spec (hash_at this c) (hash_at cl c)) as [He|]; [|by apply IH].
    destruct Hn. split; [|done]. assert (c ∈ c :: r) as [? _]%Hin by left. done.
Qed.

End Ordered.

(** ** Reusing a connection *)
Section Reuse.
Implicit Types (this cl c : MySQL_Connection).

Definition dynamic_variables : list Z :=
  seqZ (SQL_NAME_LAST_LOW_WM + 1) (SQL_NAME_LAST_HIGH_WM - (SQL_NAME_LAST_LOW_WM + 1)).
(** The index list is up to date. *)
Definition indexed c : Prop := dynamic_variables_idx c = dynamic_variables_idx (reorder_dynamic_variables_idx c).1.

Lemma seqZ_increasing m n : StronglySorted Z.lt (seqZ m n).
Proof.
  destruct (decide (0 <= n)) as [Hn|]; [|rewrite seqZ_nil by lia; constructor].
  revert m. pattern n. apply natlike_ind; [by intros; constructor | | done].
  intros k Hk IH m. rewrite seqZ_cons by lia. apply StronglySorted_cons. split.
  - apply Forall_forall. intros x Hx. apply elem_of_seqZ in Hx. lia.
  - by rewrite Z.pred_succ.
Qed.

Lemma filter_increasing (P : Z → Prop) `{∀ x, Decision (P x)} l : StronglySorted Z.lt l → StronglySorted Z.lt (filter P l).
Proof.
  induction 1 as [|a l Hl IH Ha]; [constructor|]. rewrite filter_cons. case_decide; [|done].
  apply StronglySorted_cons. split; [|done]. rewrite Forall_forall in *. intros x [_ Hx]%list_elem_of_filter. by apply Ha.
Qed.

Lemma indexed_spec c :
  indexed c → StronglySorted Z.lt (dynamic_variables_idx c) ∧
  ∀ i, i ∈ dynamic_variables_idx c ↔ i ∈ dynamic_variables ∧ hash_at c i ≠ 0.
Proof.
  intros ->. cbn. split; [apply filter_increasing, seqZ_increasing|].
  intros i. rewrite list_elem_of_filter. fold dynamic_variables. tauto.
Qed.

Lemma increasing_NoDup l : StronglySorted Z.lt l → NoDup l.
Proof.
  induction 1 as [|a l Hl IH Ha]; constructor; [|done]. intros Hin. rewrite Forall_forall in Ha.
  apply Ha in Hin. lia.
Qed.

Lemma match_low_spec this cl l ret nm :
  fold_left (match_low this cl) l (ret, nm) =
    (ret + Z.of_nat (length (filter (λ i, hash_at cl i ≠ 0 ∧ i ≠ SQL_CHARACTER_ACTION ∧ hash_at this i = hash_at cl i) l)),
     nm + Z.of_nat (length (filter (λ i, hash_at cl i ≠ 0 ∧ i ≠ SQL_CHARACTER_ACTION ∧ hash_at this i ≠ hash_at cl i) l))).
Proof.
  revert ret nm. induction l as [|i l IH]; intros ret nm; cbn [fold_left]; [by rewrite !Z.add_0_r|].
  rewrite !filter_cons. unfold match_low at 2.
  destruct (Z.eqb_spec (hash_at cl i) 0), (Z.eqb_spec i SQL_CHARACTER_ACTION),
    (Z.eqb_spec (hash_at this i) (hash_at cl i)); cbn [negb andb]; rewrite IH;
    repeat case_decide; try tauto; cbn [length]; rewrite ?Nat2Z.inj_succ; f_equal; lia.
Qed.

(** The variables both sides have set to the same value, in the range of the
    index lists. *)
Lemma dynamic_counts this cl :
  indexed this → indexed cl →
  let k := length (filter (λ i, i ∈ dynamic_variables_idx this ∧ hash_at this i = hash_at cl i) (dynamic_variables_idx cl)) in
  let c := length (dynamic_variables_idx cl) in
  let s := length (dynamic_variables_idx this) in
  (k <= c)%nat ∧ (k <= s)%nat ∧ (c <= 50)%nat ∧ (s <= 50)%nat ∧
  ((k = c ∧ k = s) ↔ ∀ i, i ∈ dynamic_variables → hash_at this i = hash_at cl i).
Proof.
  intros Ht Hc. apply indexed_spec in Ht as [Hts Ht], Hc as [Hcs Hc]. cbn zeta.
  set (S := dynamic_variables_idx this) in *. set (C := dynamic_variables_idx cl) in *.
  set (K := filter _ C). pose proof (increasing_NoDup _ Hts) as HnS. pose proof (increasing_NoDup _ Hcs) as HnC.
  assert (HK : ∀ i, i ∈ K ↔ i ∈ C ∧ i ∈ S ∧ hash_at this i = hash_at cl i)
    by (intros i; unfold K; rewrite list_elem_of_filter; tauto).
  assert (HnK : NoDup K) by (by apply NoDup_filter).
  assert (H50 : ∀ l, NoDup l → (∀ i, i ∈ l → i ∈ dynamic_variables) → (length l <= 50)%nat).
  { intros l Hl Hin. change 50%nat with (length dynamic_variables). apply submseteq_length.
    by apply NoDup_submseteq. }
  assert (HKC : K ⊆+ C) by (apply NoDup_submseteq; [done|]; intros i Hi; by apply HK in Hi as [? _]).
  assert (HKS : K ⊆+ S) by (apply NoDup_submseteq; [done|]; intros i Hi; by apply HK in Hi as [_ [? _]]).
  split; [by apply submseteq_length|]. split; [by apply submseteq_length|].
  split; [apply H50; [done | intros i Hi; by apply Hc in Hi as [? _]]|].
  split; [apply H50; [done | intros i Hi; by apply Ht in Hi as [? _]]|]. split.
  - intros [HkC HkS] i Hi.
    assert (HpC : K ≡ₚ C) by (apply submseteq_length_Permutation; [done | lia]).
    assert (HpS : K ≡ₚ S) by (apply submseteq_length_Permutation; [done | lia]).
    destruct (decide (hash_at cl i = 0)) as [H0|H0].
    + destruct (decide (hash_at this i = 0)) as [|H1]; [congruence|].
      assert (i ∈ S) as HiS by (by apply Ht). rewrite <- HpS, HpC in HiS. by apply Hc in HiS as [_ ?].
    + assert (i ∈ C) as HiC by (by apply Hc). rewrite <- HpC in HiC. by apply HK in HiC as (_ & _ & ?).
  - intros Heq. assert (HKC' : C ⊆+ K).
    { apply NoDup_submseteq; [done|]. intros i Hi. apply HK. pose proof (proj1 (Hc i) Hi) as [Hd Hne].
      specialize (Heq i Hd). split; [done|]. split; [|done]. apply Ht. by rewrite Heq. }
    assert (HKS' : S ⊆+ K).
    { apply NoDup_submseteq; [done|]. intros i Hi. apply HK. pose proof (proj1 (Ht i) Hi) as [Hd Hne].
      specialize (Heq i Hd). split; [apply Hc; by rewrite <- Heq | done]. }
    apply submseteq_length in HKC, HKS, HKC', HKS'. lia.
Qed.

Lemma change_user_spec this cl u u' :
  username (userinfo this) = Some u → username (userinfo cl) = Some u' → indexed this → indexed cl →
  ∃ change, requires_CHANGE_USER this cl = Ok change ∧
    (change = false ↔
       u = u' ∧ ∀ i, i ∈ low_variables ∨ i ∈ dynamic_variables → hash_at this i ≠ 0 → hash_at cl i ≠ 0).
Proof.
  intros Hu Hu' Ht Hc. apply indexed_spec in Ht as [Hts Ht], Hc as [Hcs Hc].
  unfold requires_CHANGE_USER, strcmp_eq. rewrite Hu, Hu'. cbn [mbind outcome_bind].
  case_bool_decide as Huu; cbn [negb]; [|exists true; naive_solver].
  assert (Hcov : (∀ i, i ∈ dynamic_variables_idx this → i ∈ dynamic_variables_idx cl) ↔
    ∀ i, i ∈ dynamic_variables → hash_at this i ≠ 0 → hash_at cl i ≠ 0).
  { split; intros H i.
    - intros Hi Hn. assert (i ∈ dynamic_variables_idx this) as Hd by (by apply Ht). by apply H, Hc in Hd as [_ ?].
    - intros [Hi Hn]%Ht. apply Hc. split; [done | by apply H]. }
  destruct (existsb _ low_variables) eqn:El.
  { exists true. split; [done|]. split; [done|]. intros [_ H]. apply existsb_exists in El as (i & Hi & Hb).
    apply andb_true_iff in Hb as [Hb1 Hb2]. zbool. apply list_elem_of_In in Hi. by destruct (H i (or_introl Hi)). }
  assert (Hlow : ∀ i, i ∈ low_variables → hash_at this i ≠ 0 → hash_at cl i ≠ 0).
  { intros i Hi Hn H0. assert (existsb (λ i, (hash_at cl i =? 0) && negb (hash_at this i =? 0)) low_variables = true); [|congruence].
    apply existsb_exists. exists i. split; [by apply list_elem_of_In|].
    by rewrite (proj2 (Z.eqb_eq _ _) H0), (proj2 (Z.eqb_neq _ _) Hn). }
  destruct (Nat.ltb_spec (length (dynamic_variables_idx cl)) (length (dynamic_variables_idx this))) as [Hlt|Hge].
  { exists true. split; [done|]. split; [done|]. intros [_ H].
    assert (dynamic_variables_idx this ⊆+ dynamic_variables_idx cl) as Hsub%submseteq_length; [|lia].
    apply NoDup_submseteq; [by apply increasing_NoDup|]. apply Hcov. intros i Hi. apply H. by right. }
  eexists. split; [done|]. rewrite negb_false_iff, backend_covered_spec by done. rewrite Hcov.
  split; [|intros [_ H] i Hi; apply H; by right]. intros H. split; [done|]. intros i [Hi|Hi]; auto.
Qed.

Lemma matching_spec this cl cnt nm :
  indexed this → indexed cl → number_of_matching_session_variables this cl 0 = (cnt, nm) →
  (nm = 0 ↔
     (∀ i, i ∈ low_variables → i ≠ SQL_CHARACTER_ACTION → hash_at cl i ≠ 0 → hash_at this i = hash_at cl i) ∧
     (∀ i, i ∈ dynamic_variables → hash_at this i = hash_at cl i)) ∧
  cnt = Z.of_nat (length (filter (λ i, hash_at cl i ≠ 0 ∧ i ≠ SQL_CHARACTER_ACTION ∧ hash_at this i = hash_at cl i)
                           (low_variables ++ dynamic_variables))).
Proof.
  intros Ht Hc H. destruct (dynamic_counts this cl Ht Hc) as (Hkc & Hks & Hc50 & Hs50 & Hall).
  assert (Hcdef : dynamic_variables_idx cl = filter (λ i, hash_at cl i ≠ 0) dynamic_variables) by exact Hc.
  apply indexed_spec in Ht as [Hts Ht], Hc as [Hcs Hc].
  unfold number_of_matching_session_variables in H. rewrite match_low_spec in H.
  set (F := filter (λ i, hash_at cl i ≠ 0 ∧ i ≠ SQL_CHARACTER_ACTION ∧ hash_at this i ≠ hash_at cl i) low_variables) in *.
  assert (HF : (length F <= 8)%nat) by (unfold F; etrans; [apply length_filter | by vm_compute]).
  rewrite u32_add_idemp, match_dynamic_spec in H by done.
  set (K := filter (λ i, i ∈ dynamic_variables_idx this ∧ _) (dynamic_variables_idx cl)) in *.
  rewrite u32_small in H by lia. injection H as <- <-. split.
  - split.
    + intros H0. assert (length F = 0%nat) as HF0%nil_length_inv by lia. split.
      * intros i Hi Ha Hn. destruct (decide (hash_at this i = hash_at cl i)) as [|Hd]; [done|].
        assert (i ∈ F) as HiF by (by apply list_elem_of_filter). rewrite HF0 in HiF. by apply elem_of_nil in HiF.
      * apply Hall. lia.
    + intros [Hlow Hdyn]. apply Hall in Hdyn. assert (F = []) as ->; [|cbn [length]; lia].
      apply elem_of_nil_inv. intros i [(Hn & Ha & Hd) Hi]%list_elem_of_filter. by apply Hd, Hlow.
  - rewrite filter_app, length_app, Nat2Z.inj_add. do 2 f_equal. unfold K. rewrite Hcdef, list_filter_filter.
    f_equal. apply list_filter_iff_in. intros i Hi. rewrite Ht. split.
    + intros [[_ He] Hn]. split; [done|]. split; [|done]. intros ->. apply elem_of_seqZ in Hi. unfold SQL_CHARACTER_ACTION, SQL_NAME_LAST_LOW_WM in Hi. lia.
    + intros (Hn & _ & He). rewrite He. done.
Qed.

End Reuse.

(** when a free connection can serve a client without COM_CHANGE_USER, and
    when it is a perfect match.  No reset is required exactly if the users are
    the same and every variable set on the connection is also set by the
    client; the number of mismatches is zero exactly if every variable the
    client sets, and every variable of the dynamic range, has the same value on
    both sides.  A connection that passes both tests agrees with the client on
    every tracked variable but the action of the character set. *)
Theorem session_reuse (this client : MySQL_Connection) (u u' : list Z) :
  username (userinfo this) = Some u → username (userinfo client) = Some u' → indexed this → indexed client →
  ∃ change cnt nm,
    requires_CHANGE_USER this client = Ok change ∧
    number_of_matching_session_variables this client 0 = (cnt, nm) ∧
    (change = false ↔
       u = u' ∧ ∀ i, i ∈ low_variables ∨ i ∈ dynamic_variables → hash_at this i ≠ 0 → hash_at client i ≠ 0) ∧
    (nm = 0 ↔
       (∀ i, i ∈ low_variables → i ≠ SQL_CHARACTER_ACTION → hash_at client i ≠ 0 → hash_at this i = hash_at client i) ∧
       (∀ i, i ∈ dynamic_variables → hash_at this i = hash_at client i)) ∧
    cnt = Z.of_nat (length (filter (λ i, hash_at client i ≠ 0 ∧ i ≠ SQL_CHARACTER_ACTION ∧ hash_at this i = hash_at client i)
                             (low_variables ++ dynamic_variables))) ∧
    (change = false → nm = 0 →
       ∀ i, i ∈ low_variables ∨ i ∈ dynamic_variables → i ≠ SQL_CHARACTER_ACTION → hash_at this i = hash_at client i).
Proof.
  intros Hu Hu' Ht Hc. destruct (change_user_spec this client u u' Hu Hu' Ht Hc) as (change & E & Hch).
  destruct (number_of_matching_session_variables this client 0) as [cnt nm] eqn:En.
  destruct (matching_spec this client cnt nm Ht Hc En) as [Hnm Hcnt].
  exists change, cnt, nm. split_and!; try done. intros Hf H0 i Hi Ha.
  apply Hch in Hf as [_ Hset]. apply Hnm in H0 as [Hlow Hdyn]. destruct Hi as [Hi|Hi]; [|by apply Hdyn].
  destruct (decide (hash_at client i = 0)) as [Hz|Hz]; [|by apply Hlow].
  destruct (decide (hash_at this i = 0)) as [|Hnz]; [congruence|]. by destruct (Hset i (or_introl Hi) Hnz).
Qed.

(** Two connections of one user: the backend has the first character set and
    time zone of the client, which also sets an SQL mode. *)
Definition example_conn (modes : list (Z * Z)) : MySQL_Connection :=
  let hashes := foldr (λ kv l, <[Z.to_nat kv.1 := kv.2]> l) (repeat 0 59) modes in
  let c := mk_conn (mk_userinfo 0 (Some (str "app")) None (Some (str "db")) None) None 0 (-1) false None false hashes []
             0 0 false 0 true 0 in
  (reorder_dynamic_variables_idx c).1.

Lemma session_reuse_witness :
  requires_CHANGE_USER (example_conn [(0, 33); (51, 7)]) (example_conn [(0, 33); (51, 7); (46, 5)]) = Ok false ∧
  number_of_matching_session_variables (example_conn [(0, 33); (51, 7)]) (example_conn [(0, 33); (51, 7); (46, 5)]) 0 = (2, 1) ∧
  dynamic_variables_idx (example_conn [(0, 33); (51, 7); (46, 5)]) = [46; 51].
Proof.
  destruct (session_reuse (example_conn [(0, 33); (51, 7)]) (example_conn [(0, 33); (51, 7); (46, 5)]) (str "app") (str "app"))
    as (change & cnt & nm & E1 & E2 & _); try reflexivity.
  rewrite E1, E2. vm_compute in E1, E2. injection E1 as <-. injection E2 as <- <-. split_and!; reflexivity.
Defined.

(** ** Pinning *)
Section Pinning.
Implicit Types (c : MySQL_Connection) (q : list Z).

(** The flag at bit [k]. *)
Definition flag_bit (k : Z) c : bool := Z.testbit (status_flags c) k.

Lemma has_bits_pow2 x k : 0 <= k → has_bits x (2 ^ k) = Z.testbit x k.
Proof.
  intros Hk. unfold has_bits. destruct (Z.testbit x k) eqn:E.
  - apply negb_true_iff, Z.eqb_neq. intros H0. assert (Z.testbit (Z.land x (2 ^ k)) k = true) as Hb.
    { by rewrite Z.land_spec, E, Z.pow2_bits_true. }
    by rewrite H0, Z.bits_0 in Hb.
  - apply negb_false_iff, Z.eqb_eq. apply Z.bits_inj'. intros i Hi. rewrite Z.land_spec, Z.bits_0.
    destruct (decide (i = k)) as [->|]; [by rewrite E|]. by rewrite Z.pow2_bits_false, andb_false_r.
Qed.

Lemma flag_bit_set b j k c :
  0 <= j → 0 <= k → flag_bit k (set_status b (2 ^ j) c) = if k =? j then b else flag_bit k c.
Proof.
  intros Hj Hk. unfold flag_bit, set_status. cbn. destruct (Z.eqb_spec k j) as [->|Hne].
  - destruct b; [rewrite Z.lor_spec, Z.pow2_bits_true by done; apply orb_true_r|].
    by rewrite Z.land_spec, Z.lnot_spec, Z.pow2_bits_true, andb_false_r.
  - destruct b; [by rewrite Z.lor_spec, Z.pow2_bits_false, orb_false_r|].
    by rewrite Z.land_spec, Z.lnot_spec, Z.pow2_bits_false, andb_true_r.
Qed.

Lemma get_status_bit k c : 0 <= k → get_status (2 ^ k) c = flag_bit k c.
Proof. apply has_bits_pow2. Qed.

(** The flags as powers of two. *)
Ltac as_bits :=
  change USER_VARIABLE with (2 ^ 2) in *; change PREPARED_STATEMENT with (2 ^ 3) in *;
  change LOCK_TABLES with (2 ^ 4) in *; change TEMPORARY_TABLE with (2 ^ 5) in *; change GET_LOCK with (2 ^ 6) in *;
  change NO_MULTIPLEX with (2 ^ 7) in *; change FOUND_ROWS with (2 ^ 9) in *;
  change NO_MULTIPLEX_HG with (2 ^ 10) in *; change HAS_SAVEPOINT with (2 ^ 11) in *; change HAS_WARNINGS with (2 ^ 12) in *.

Lemma flag_when_bit j b k c :
  0 <= j → 0 <= k → flag_bit k (flag_when (2 ^ j) b c) = flag_bit k c || ((k =? j) && b).
Proof.
  intros Hj Hk. unfold flag_when. rewrite get_status_bit by done.
  destruct b; rewrite ?andb_true_r, ?andb_false_r, ?orb_false_r; [|done].
  destruct (flag_bit j c) eqn:E; cbn [negb].
  - destruct (Z.eqb_spec k j) as [->|]; [by rewrite E | by rewrite orb_false_r].
  - rewrite flag_bit_set by done. destruct (k =? j); [by rewrite orb_true_r | by rewrite orb_false_r].
Qed.

Lemma flag_when_mysql f b c : mysql (flag_when f b c) = mysql c.
Proof. unfold flag_when. by destruct (_ && _). Qed.

(** What one query does to the flags [flag_statements] is about. *)
Definition pins (k : Z) q : bool :=
  ((k =? 3) && prefix_ci (str "PREPARE ") q) || ((k =? 5) && prefix_ci (str "CREATE TEMPORARY TABLE ") q) ||
  ((k =? 6) && strcasestr q (str "GET_LOCK(")) || ((k =? 9) && strcasestr q (str "SQL_CALC_FOUND_ROWS")).
Definition locks q (locked : bool) : bool :=
  negb (prefix_ci (str "UNLOCK TABLES") q) &&
  (locked || prefix_ci (str "LOCK TABLE") q || prefix_ci (str "FLUSH TABLES WITH READ LOCK") q).

Lemma flag_statements_bit k q c :
  0 <= k →
  flag_bit k (flag_statements q c) =
    if k =? 4 then locks q (flag_bit 4 c) else flag_bit k c || pins k q.
Proof.
  intros Hk. unfold flag_statements. as_bits.
  set (c1 := flag_when (2 ^ 4) _ (flag_when (2 ^ 4) _ _)).
  assert (H1 : ∀ k, 0 <= k → flag_bit k c1 = flag_bit k c || ((k =? 3) && prefix_ci (str "PREPARE ") q) ||
    ((k =? 5) && prefix_ci (str "CREATE TEMPORARY TABLE ") q) || ((k =? 4) && prefix_ci (str "LOCK TABLE") q) ||
    ((k =? 4) && prefix_ci (str "FLUSH TABLES WITH READ LOCK") q)).
  { intros i Hi. unfold c1. by rewrite !flag_when_bit by lia. }
  rewrite !flag_when_bit, get_status_bit by lia. unfold pins, locks.
  set (u := prefix_ci (str "UNLOCK TABLES") q).
  assert (H2 : flag_bit k (if flag_bit 4 c1 && u then set_status false (2 ^ 4) c1 else c1) =
    if k =? 4 then negb u && flag_bit 4 c1 else flag_bit k c1).
  { destruct (flag_bit 4 c1) eqn:E4, u; cbn [andb negb]; rewrite ?flag_bit_set by lia;
      destruct (Z.eqb_spec k 4) as [->|]; rewrite ?E4; done. }
  rewrite H2, !H1 by lia. destruct (Z.eqb_spec k 4) as [->|Hne]; cbn.
  - by rewrite !orb_false_r.
  - by rewrite !orb_false_r, !orb_assoc.
Qed.

Lemma flag_statements_mysql q c : mysql (flag_statements q c) = mysql c.
Proof.
  unfold flag_statements. rewrite !flag_when_mysql.
  destruct (_ && _); cbn; by rewrite !flag_when_mysql.
Qed.

(** *** The loops that strip the variable prefixes end *)
Lemma remove_ci_shorter pat s s' : remove_ci pat s = Some s' → pat ≠ [] → (length s' < length s)%nat.
Proof.
  intros H Hp. revert s' H. induction s as [|d s IH]; intros s' H; cbn [remove_ci] in H.
  - destruct pat; [done|]. by cbn in H.
  - destruct (prefix_ci pat (d :: s)) eqn:E.
    + injection H as <-. destruct pat; [done|]. cbn [length drop]. rewrite length_drop. simpl. lia.
    + destruct (remove_ci pat s) as [r|]; [|done]. injection H as <-. specialize (IH r eq_refl). simpl. lia.
Qed.

Lemma remove_all_ci_total pat s fuel : pat ≠ [] → (length s < fuel)%nat → ∃ s', remove_all_ci fuel pat s = Ok s'.
Proof.
  intros Hp. revert s. induction fuel as [|fuel IH]; intros s Hf; [lia|]. cbn [remove_all_ci].
  destruct (remove_ci pat s) as [s'|] eqn:E; [|by eexists]. apply IH. apply remove_ci_shorter in E; [lia | done].
Qed.

Lemma IsKeep_total keep q : ∃ b, IsKeepMultiplexEnabledVariables keep (Some q) = Ok b.
Proof.
  unfold IsKeepMultiplexEnabledVariables. destruct (negb _); [by eexists|].
  destruct (remove_all_ci_total (str "@@session.") (drop 7 q) (S (length (drop 7 q)))) as [s1 E1]; [done|lia|].
  rewrite E1. cbn [mbind outcome_bind].
  destruct (remove_all_ci_total (str "@@local.") s1 (S (length s1))) as [s2 E2]; [done|lia|]. rewrite E2. cbn [mbind outcome_bind].
  destruct (remove_all_ci_total (str "@@") s2 (S (length s2))) as [s3 E3]; [done|lia|]. rewrite E3. by eexists.
Qed.

(** *** One query *)

(** The bits other than [j], and the handle, are unchanged. *)
Definition only_bit (j : Z) c c' : Prop := mysql c' = mysql c ∧ ∀ k, 0 <= k → k ≠ j → flag_bit k c' = flag_bit k c.

Lemma only_bit_refl j c : only_bit j c c.
Proof. done. Qed.
Lemma only_bit_set b j c c0 : 0 <= j → mysql c0 = mysql c → status_flags c0 = status_flags c → only_bit j c (set_status b (2 ^ j) c0).
Proof.
  intros Hj Hm Hf. split; [done|]. intros k Hk Hne. rewrite flag_bit_set by done.
  rewrite (proj2 (Z.eqb_neq k j)) by done. unfold flag_bit. by rewrite Hf.
Qed.
#[local] Hint Resolve only_bit_refl : px.

(** What comes with a query: what the query processor and the session say, and
    what the server answered. *)
Record turn := mk_turn { text : list Z; multiplex : option Z; locked_on : Z; answer : mysql_handle; warnings : Z }.
Definition arrive (tu : turn) (b : bound) : bound :=
  let '(c, s) := b in
  (c <| mysql := Some (answer tu) |> <| warning_count := warnings tu |>,
   (λ s, s <| qpo_multiplex := multiplex tu |> <| locked_on_hostgroup := locked_on tu |>) <$> s).

(** The query names a variable and is not one of those that only read harmless ones;
    with the newer algorithm, a SET that was not understood locks the session on a
    hostgroup. *)
Definition kept (v : thread_vars) (q : list Z) : bool :=
  match IsKeepMultiplexEnabledVariables (keep_multiplexing_variables v) (Some q) with Ok b => b | Fault _ => false end.
Definition sets_variable (v : thread_vars) (tu : turn) : bool :=
  let named := negb (bool_decide (multiplex tu = Some 2)) && has_at (text tu) && negb (kept v (text tu)) in
  if prefix_ci (str "SET ") (text tu) then
    if set_query_lock_on_hostgroup v =? 0 then named else (set_query_lock_on_hostgroup v =? 1) && (-1 <? locked_on tu)
  else named.
(** The server is in a transaction, or starts one with the next statement. *)
Definition uncommitted (h : mysql_handle) : bool :=
  has_bits (server_status h) SERVER_STATUS_IN_TRANS || negb (has_bits (server_status h) SERVER_STATUS_AUTOCOMMIT).
Definition savepoint_after (tu : turn) (b : bool) : bool :=
  if b then uncommitted (answer tu) && negb (strcasecmp_eq (text tu) (str "COMMIT")) && negb (strcasecmp_eq (text tu) (str "ROLLBACK"))
  else uncommitted (answer tu) && prefix_ci (str "SAVEPOINT ") (text tu).
Definition warned_after (tu : turn) (b : bool) : bool :=
  if b then strcasecmp_eq (text tu) (str "SHOW COUNT(" ++ 42 :: str ") WARNINGS") || strcasecmp_eq (text tu) (str "SHOW WARNINGS") else 0 <? warnings tu.
Definition excluded_after (tu : turn) (b : bool) : bool :=
  if bool_decide (multiplex tu = Some 0) then true else if bool_decide (multiplex tu = Some 1) then false else b.
(** Every flag after a query. *)
Definition bit_after (v : thread_vars) (k : Z) (b : bool) (tu : turn) : bool :=
  if k =? 2 then b || sets_variable v tu else if k =? 4 then locks (text tu) b else if k =? 7 then excluded_after tu b
  else if k =? 11 then savepoint_after tu b else if k =? 12 then warned_after tu b else b || pins k (text tu).

Lemma has_bits_land2 x a b : has_bits x a && negb (has_bits x b) = negb (has_bits x b || negb (has_bits x a)).
Proof. by destruct (has_bits x a), (has_bits x b). Qed.
Lemma warnings_stage q c (s : session_view) :
  ∃ c' s', ProcessQuery_Warnings q (c, Some s) = (c', Some s') ∧ only_bit 12 c c' ∧ locked_on_hostgroup s' = locked_on_hostgroup s ∧
    flag_bit 12 c' = (if flag_bit 12 c then strcasecmp_eq q (str "SHOW COUNT(" ++ 42 :: str ") WARNINGS") || strcasecmp_eq q (str "SHOW WARNINGS") else 0 <? warning_count c).
Proof.
  unfold ProcessQuery_Warnings. as_bits. rewrite get_status_bit by done. destruct (flag_bit 12 c) eqn:E; cbn [negb].
  - destruct (_ || _); (eexists _, _; split; [done|]; split; [by (auto with px || by apply only_bit_set)|]; split; [done|]; rewrite ?flag_bit_set by done; done).
  - destruct (0 <? warning_count c); (eexists _, _; split; [done|]; split; [by (auto with px || by apply only_bit_set)|]; split; [done|]; rewrite ?flag_bit_set by done; done).
Qed.

Lemma uservars_stage v tu c (s : session_view) : locked_on_hostgroup s = locked_on tu →
  ∃ c', ProcessQuery_UserVariables v (text tu) (default (-1) (multiplex tu)) (c, Some s) = Ok (c', Some s) ∧ only_bit 2 c c' ∧
    flag_bit 2 c' = flag_bit 2 c || sets_variable v tu.
Proof.
  intros Hl. unfold ProcessQuery_UserVariables, sets_variable, kept. as_bits. rewrite get_status_bit by done.
  destruct (flag_bit 2 c) eqn:E; [by exists c|].
  assert (Hset : only_bit 2 c (set_status true (2 ^ 2) c)) by by apply only_bit_set.
  destruct (IsKeep_total (keep_multiplexing_variables v) (text tu)) as [keep Hk]. rewrite Hk. cbn [mbind outcome_bind].
  assert ((default (-1) (multiplex tu) =? 2) = bool_decide (multiplex tu = Some 2)) as ->.
  { destruct (multiplex tu) as [m|]; [|done]. cbn. destruct (Z.eqb_spec m 2) as [->|]; [done|]. symmetry. apply bool_decide_eq_false. by intros [= ->]. }
  rewrite Hl. cbn [orb]. set (named := negb _ && _).
  destruct (prefix_ci _ (text tu)); [destruct (_ =? 0); [|destruct (_ =? 1)]|]; cbn [andb];
    try (destruct named, keep; cbn [andb negb]); try (destruct (-1 <? locked_on tu));
    (eexists; split; [done|]; split; [by auto with px|]; rewrite ?flag_bit_set by done; done).
Qed.

Lemma savepoint_stage tu c : mysql c = Some (answer tu) →
  ∃ c', ProcessQuery_Savepoint (text tu) c = Ok c' ∧ only_bit 11 c c' ∧ flag_bit 11 c' = savepoint_after tu (flag_bit 11 c).
Proof.
  intros Hm. unfold ProcessQuery_Savepoint, savepoint_after. rewrite Hm. as_bits. rewrite get_status_bit by done. rewrite has_bits_land2. fold (uncommitted (answer tu)).
  assert (∀ b, only_bit 11 c (set_status b (2 ^ 11) c)) by (intros b; by apply only_bit_set).
  destruct (flag_bit 11 c) eqn:E; cbn [negb].
  - destruct (uncommitted _), (strcasecmp_eq _ (str "COMMIT")), (strcasecmp_eq _ (str "ROLLBACK")); cbn [negb andb orb];
      (eexists; split; [done|]; split; [by auto with px|]; rewrite ?flag_bit_set by done; done).
  - destruct (uncommitted _); [destruct (prefix_ci _ _)|]; (eexists; split; [done|]; split; [by auto with px|]; rewrite ?flag_bit_set by done; done).
Qed.

Lemma multiplex_stage tu c :
  let mul := default (-1) (multiplex tu) in
  let c1 := if mul =? 0 then set_status true NO_MULTIPLEX c else if mul =? 1 then set_status false NO_MULTIPLEX c else c in
  only_bit 7 c c1 ∧ warning_count c1 = warning_count c ∧ flag_bit 7 c1 = excluded_after tu (flag_bit 7 c).
Proof.
  cbn zeta. unfold excluded_after. as_bits. destruct (multiplex tu) as [m|]; [change (default (-1) (Some m)) with m|by split].
  destruct (Z.eqb_spec m 0) as [->|H0]; [split; [by apply only_bit_set|]; split; [done|]; by rewrite flag_bit_set, ?bool_decide_true|].
  rewrite bool_decide_false by congruence. destruct (Z.eqb_spec m 1) as [->|H1]; [split; [by apply only_bit_set|]; split; [done|]; by rewrite flag_bit_set, ?bool_decide_true|].
  rewrite bool_decide_false by congruence. by split.
Qed.

Lemma process_step v tu c (s : session_view) :
  ∃ c' s', ProcessQueryAndSetStatusFlags v (Some (text tu)) (arrive tu (c, Some s)) = Ok (c', Some s') ∧
    ∀ k, 0 <= k → flag_bit k c' = bit_after v k (flag_bit k c) tu.
Proof.
  unfold ProcessQueryAndSetStatusFlags, arrive. cbn [fmap option_fmap option_map]. set (c0 := _ <| warning_count := _ |>). set (s0 := _ <| locked_on_hostgroup := _ |>).
  change (Some s0 ≫= qpo_multiplex) with (multiplex tu). destruct (multiplex_stage tu c0) as (H1 & W1 & B7). set (c1 := if _ =? 0 then _ else _) in *.
  destruct (warnings_stage (text tu) c1 s0) as (c2 & s2 & -> & H2 & L2 & B12). rewrite W1 in B12. change (warning_count c0) with (warnings tu) in B12.
  destruct (uservars_stage v tu c2 s2 L2) as (c3 & -> & H3 & B2). cbn [mbind outcome_bind].
  assert (Hm3 : mysql c3 = Some (answer tu)) by (rewrite (proj1 H3), (proj1 H2), (proj1 H1); done).
  destruct (savepoint_stage tu (flag_statements (text tu) c3)) as (c5 & -> & H5 & B11); [by rewrite flag_statements_mysql|]. cbn [mbind outcome_bind].
  unfold ProcessQuery_SetBackslashEscapes. rewrite (proj1 H5), flag_statements_mysql, Hm3. eexists _, _. split; [done|].
  intros k Hk. unfold bit_after. change (flag_bit k c) with (flag_bit k c0).
  assert (∀ i, 0 <= i → i ≠ 4 → flag_bit i (flag_statements (text tu) c3) = flag_bit i c3 || pins i (text tu)) as F.
  { intros i Hi Hne. rewrite flag_statements_bit by done. by rewrite (proj2 (Z.eqb_neq i 4)). }
  destruct (Z.eqb_spec k 2) as [->|N2]; [rewrite (proj2 H5), F, B2, (proj2 H2), (proj2 H1) by done; apply orb_false_r|].
  destruct (Z.eqb_spec k 4) as [->|N4]; [by rewrite (proj2 H5), flag_statements_bit, (proj2 H3), (proj2 H2), (proj2 H1) by done|].
  destruct (Z.eqb_spec k 7) as [->|N7]; [rewrite (proj2 H5), F, (proj2 H3), (proj2 H2), B7 by done; apply orb_false_r|].
  destruct (Z.eqb_spec k 11) as [->|N11]; [rewrite B11, F, (proj2 H3), (proj2 H2), (proj2 H1) by done; f_equal; apply orb_false_r|].
  rewrite (proj2 H5), F, (proj2 H3) by done.
  destruct (Z.eqb_spec k 12) as [->|N12]; [rewrite B12, (proj2 H1) by done; apply orb_false_r|]. by rewrite (proj2 H2), (proj2 H1).
Qed.

(** A sequence of queries of one session on one connection. *)
Fixpoint process_all (v : thread_vars) (qs : list turn) (b : bound) : outcome bound :=
  match qs with
  | [] => Ok b
  | tu :: qs' => b ← ProcessQueryAndSetStatusFlags v (Some (text tu)) (arrive tu b); process_all v qs' b
  end.

Lemma process_all_bits v qs c (s : session_view) :
  ∃ c' s', process_all v qs (c, Some s) = Ok (c', Some s') ∧ ∀ k, 0 <= k → flag_bit k c' = foldl (bit_after v k) (flag_bit k c) qs.
Proof.
  revert c s. induction qs as [|tu qs IH]; intros c s; cbn [process_all]; [by exists c, s|].
  destruct (process_step v tu c s) as (c1 & s1 & -> & H1). cbn [mbind outcome_bind].
  destruct (IH c1 s1) as (c' & s' & -> & H'). exists c', s'. split; [done|]. intros k Hk. cbn [foldl]. by rewrite H', H1.
Qed.

(** Flags that are only ever set stay; what sets them once is enough. *)
Lemma sticky v k qs b : k ∈ [2; 3; 5; 6; 8; 9; 10] → (b = true ∨ ∃ tu, tu ∈ qs ∧ bit_after v k false tu = true) → foldl (bit_after v k) b qs = true.
Proof.
  intros Hk. assert (∀ tu, bit_after v k true tu = true) as Ht.
  { intros tu. rewrite !elem_of_cons, elem_of_nil in Hk. by destruct Hk as [->|[->|[->|[->|[->|[->|[->|[]]]]]]]]. }
  revert b. induction qs as [|tu qs IH]; intros b H; [destruct H as [->|(tu & H%elem_of_nil & _)]; done|].
  cbn [foldl]. apply IH. destruct H as [->|(tu' & [->|H]%elem_of_cons & E)]; [left; apply Ht| |right; by exists tu'].
  left. destruct b; [apply Ht|done].
Qed.

(** Queries leave the setting of the hostgroup alone. *)
Lemma never_set v b qs : foldl (bit_after v 10) b qs = b.
Proof. revert b. induction qs as [|tu qs IH]; intros b; [done|]. cbn [foldl]. rewrite IH. apply orb_false_r. Qed.
Lemma MultiplexDisabled_bit k t c : k ∈ [2; 3; 4; 5; 6; 7; 8; 9; 10; 11; 12] → flag_bit k c = true → MultiplexDisabled t c = true.
Proof.
  intros Hk Hb. unfold MultiplexDisabled. apply orb_true_iff. left. unfold has_bits. apply negb_true_iff, Z.eqb_neq.
  intros H0. assert (Z.testbit (Z.land (status_flags c) pinning_flags) k = true) as H; [|by rewrite H0, Z.bits_0 in H].
  rewrite Z.land_spec. unfold flag_bit in Hb. rewrite Hb. cbn [andb].
  repeat (apply elem_of_cons in Hk as [->|Hk]; [reflexivity|]). by apply elem_of_nil in Hk.
Qed.

End Pinning.

(** A connection in autocommit mode, outside a transaction. *)
Definition example_pinned : MySQL_Connection :=
  mk_conn new_userinfo (Some (mk_handle 2 0)) 0 (-1) false None false (repeat 0 59) [] 0 0 false 0 true 0.


Definition example_turns : list turn :=
  [mk_turn (str "CREATE TEMPORARY TABLE t (a INT)") None (-1) (mk_handle 2 0) 0; mk_turn (str "lock tables t write") None (-1) (mk_handle 2 0) 1;
   mk_turn (str "unlock tables") None (-1) (mk_handle 2 0) 0; mk_turn (str "SELECT @a:=1") None (-1) (mk_handle 2 0) 0;
   mk_turn (str "SAVEPOINT a") None (-1) (mk_handle 3 0) 0; mk_turn (str "SHOW WARNINGS") (Some 0) (-1) (mk_handle 3 0) 2].
