(* ===== verification/HostGroups.v ===== *)
(** * Hostgroups and servers
    (lib/MySQL_HostGroups_Manager.cpp, lib/MyHGC.cpp, lib/MySrvC.cpp, lib/MySrvList.cpp)

    The manager keeps an array of hostgroups, each with an array of servers, and
    every server two arrays of connections.  Servers and connections are heap
    objects: the arrays hold their addresses, and using an address that is not
    allocated is a fault.  The arrays are the lists [GenUtils.PtrArray]
    implements, removal by index being [swap_remove].  Times are arguments;
    metrics, logging and the SQLite tables are left out. *)
From S2P Require Import Prelude GenUtils StringUtils Conn.

Inductive MySerStatus :=
  | ONLINE
  | SHUNNED
  | OFFLINE_SOFT
  | OFFLINE_HARD
  | SHUNNED_REPLICATION_LAG.
#[export] Instance MySerStatus_eq_dec : EqDecision MySerStatus.
Proof. solve_decision. Defined.

Definition status_is (a b : MySerStatus) : bool := bool_decide (a = b).

(** ** Objects *)

(** [myhgc] is the position of the server's hostgroup in the manager's array,
    [None] where the code has a null pointer. *)
Record MySrvC := mk_srv {
  address : list Z;
  port : Z;
  gtid_port : Z;
  weight : Z;
  status : MySerStatus;
  compression : Z;
  max_connections : Z;
  max_replication_lag : Z;
  use_ssl : Z;
  max_latency_us : Z;
  comment : list Z;
  cur_replication_lag : Z;
  cur_replication_lag_count : Z;
  current_latency_us : Z;
  aws_aurora_current_lag_us : Z;
  connect_ERR : Z;
  max_connections_used : Z;
  time_last_detected_error : Z;
  connect_ERR_at_time_last_detected_error : Z;
  shunned_automatic : bool;
  shunned_and_kill_all_connections : bool;
  myhgc : option nat;
  ConnectionsUsed : list Z;
  ConnectionsFree : list Z
}.
#[export] Instance MySrvC_eta : Eta MySrvC := λ s,
  mk_srv (address s) (port s) (gtid_port s) (weight s) (status s) (compression s) (max_connections s)
    (max_replication_lag s) (use_ssl s) (max_latency_us s) (comment s) (cur_replication_lag s)
    (cur_replication_lag_count s) (current_latency_us s) (aws_aurora_current_lag_us s) (connect_ERR s)
    (max_connections_used s) (time_last_detected_error s) (connect_ERR_at_time_last_detected_error s)
    (shunned_automatic s) (shunned_and_kill_all_connections s) (myhgc s) (ConnectionsUsed s) (ConnectionsFree s).

Definition new_MySrvC (addr : list Z) (p gp w : Z) (st : MySerStatus) (comp max_conns max_lag ssl max_latency_ms : Z)
  (cmt : list Z) : MySrvC :=
  mk_srv addr p gp w st comp max_conns max_lag ssl (u32 (max_latency_ms * 1000)) cmt 0 0 0 0 0 0 0 0 false false None [] [].

Record attributes_t := mk_attributes {
  max_num_online_servers : Z;
  throttle_connections_per_sec : Z;
  attr_monitor_slave_lag_when_null : Z;
  attr_free_connections_pct : Z;
  attr_handle_warnings : Z;
  multiplex : bool;
  attr_connection_warming : bool;
  configured : bool
}.
Definition reset_attributes : attributes_t := mk_attributes 1000000 1000000 (-1) 10 (-1) true false false.

Record servers_defaults_t := mk_defaults { d_weight : Z; d_max_connections : Z; d_use_ssl : Z }.

Record MyHGC := mk_hgc {
  hid : Z;
  num_online_servers : Z;
  current_time_now : Z;
  new_connections_now : Z;
  mysrvs : list Z;
  attributes : attributes_t;
  servers_defaults : servers_defaults_t
}.
#[export] Instance MyHGC_eta : Eta MyHGC := λ g,
  mk_hgc (hid g) (num_online_servers g) (current_time_now g) (new_connections_now g) (mysrvs g) (attributes g)
    (servers_defaults g).
Definition new_MyHGC (_hid : Z) : MyHGC := mk_hgc _hid 0 0 0 [] reset_attributes (mk_defaults (-1) (-1) (-1)).

(** What the pool looks at in a connection besides [Conn.MySQL_Connection]. *)
Record pooled := mk_pooled {
  conn : MySQL_Connection;
  parent : Z;
  idle : bool;
  send_quit : bool;
  conn_errno : Z;
  largest_query_length : Z;
  num_backend_stmts : Z;
  last_time_used : Z
}.
#[export] Instance pooled_eta : Eta pooled := λ c,
  mk_pooled (conn c) (parent c) (idle c) (send_quit c) (conn_errno c) (largest_query_length c) (num_backend_stmts c)
    (last_time_used c).

Record counters := mk_counters {
  myconnpoll_get : Z;
  myconnpoll_get_ok : Z;
  myconnpoll_get_ping : Z;
  myconnpoll_push : Z;
  myconnpoll_destroy : Z;
  myconnpoll_reset : Z;
  server_connections_created : Z;
  server_connections_delayed : Z;
  server_connections_aborted : Z
}.
#[export] Instance counters_eta : Eta counters := λ k,
  mk_counters (myconnpoll_get k) (myconnpoll_get_ok k) (myconnpoll_get_ping k) (myconnpoll_push k) (myconnpoll_destroy k)
    (myconnpoll_reset k) (server_connections_created k) (server_connections_delayed k) (server_connections_aborted k).

Record HGM := mk_hgm {
  MyHostGroups : list MyHGC;
  MyHostGroups_map : gmap Z nat;
  servers : gmap Z MySrvC;
  conns : gmap Z pooled;
  queue : list Z;
  stats : counters;
  shutdown : bool
}.
#[export] Instance HGM_eta : Eta HGM := λ h,
  mk_hgm (MyHostGroups h) (MyHostGroups_map h) (servers h) (conns h) (queue h) (stats h) (shutdown h).

(** The configuration variables the manager reads. *)
Record variables := mk_variables {
  shun_on_failures : Z;
  connect_retries_on_failure : Z;
  shun_recovery_time_sec : Z;
  connect_timeout_server_max : Z;
  default_max_latency_ms : Z;
  unshun_algorithm : Z;
  monitor_enabled : bool;
  monitor_ping_interval : Z;
  monitor_slave_lag_when_null : Z;
  monitor_replication_lag_count : Z;
  monitor_replication_lag_group_by_host : bool;
  monitor_groupreplication_max_transactions_behind_count : Z;
  monitor_writer_is_also_reader : bool;
  threshold_query_length : Z;
  max_stmts_per_connection : Z;
  connpoll_reset_queue_length : Z;
  reset_connection_algorithm : Z;
  connection_warming : bool;
  free_connections_pct : Z;
  throttle_connections_per_sec_to_hostgroup : Z;
  connection_max_age_ms : Z
}.

(** ** The heap *)
Definition get_srv (h : HGM) (p : Z) : outcome MySrvC :=
  match servers h !! p with Some s => Ok s | None => Fault OutOfBounds end.
Definition get_hgc (h : HGM) (i : nat) : outcome MyHGC :=
  match MyHostGroups h !! i with Some g => Ok g | None => Fault OutOfBounds end.
Definition set_srv (p : Z) (s : MySrvC) (h : HGM) : HGM := h <| servers := <[p := s]> (servers h) |>.
Definition set_hgc (i : nat) (g : MyHGC) (h : HGM) : HGM := h <| MyHostGroups := <[i := g]> (MyHostGroups h) |>.

(** [delete conn] *)
Definition delete_conn (c : Z) (h : HGM) : outcome HGM :=
  match conns h !! c with
  | Some _ => Ok (h <| conns := delete c (conns h) |>)
  | None => Fault OutOfBounds
  end.
Fixpoint delete_conns (cs : list Z) (h : HGM) : outcome HGM :=
  match cs with [] => Ok h | c :: cs' => h ← delete_conn c h; delete_conns cs' h end.

(** ** Counting the servers that are online *)
Fixpoint count_online (h : HGM) (ps : list Z) : outcome Z :=
  match ps with
  | [] => Ok 0
  | p :: ps' => s ← get_srv h p; n ← count_online h ps'; Ok (if status_is (status s) ONLINE then n + 1 else n)
  end.

Definition refresh_online_server_count (i : nat) (h : HGM) : outcome HGM :=
  if shutdown h then Ok h
  else g ← get_hgc h i; n ← count_online h (mysrvs g); Ok (set_hgc i (g <| num_online_servers := n |>) h).

Definition set_status (p : Z) (st : MySerStatus) (h : HGM) : outcome HGM :=
  s ← get_srv h p;
  let h := set_srv p (s <| status := st |>) h in
  match myhgc s with Some i => refresh_online_server_count i h | None => Ok h end.

Definition online_servers_within_threshold (g : MyHGC) : bool := num_online_servers g <=? max_num_online_servers (attributes g).

(** ** The array of servers of a hostgroup *)
Definition srvlist_add (i : nat) (p : Z) (h : HGM) : outcome HGM :=
  s ← get_srv h p;
  let h := set_srv p (match myhgc s with None => s <| myhgc := Some i |> | Some _ => s end) h in
  g ← get_hgc h i;
  refresh_online_server_count i (set_hgc i (g <| mysrvs := mysrvs g ++ [p] |>) h).

Fixpoint find_idx (l : list Z) (p : Z) (i : nat) : option nat :=
  match l with [] => None | q :: l' => if q =? p then Some i else find_idx l' p (S i) end.

(** [remove_index_fast] of the element at [i]. *)
Definition array_remove (i : nat) (l : list Z) : outcome (Z * list Z) :=
  match swap_remove i l with Some r => Ok r | None => Fault OutOfBounds end.

(** [remove(s)]: find it, assert that it is there, remove it by index. *)
Definition array_remove_elem (l : list Z) (p : Z) : outcome (list Z) :=
  match find_idx l p 0 with None => Fault AssertFail | Some j => snd <$> array_remove j l end.

Definition srvlist_remove (i : nat) (p : Z) (h : HGM) : outcome HGM :=
  g ← get_hgc h i;
  l ← array_remove_elem (mysrvs g) p;
  refresh_online_server_count i (set_hgc i (g <| mysrvs := l |>) h).

(** ** Hostgroups *)

(** A linear search for few hostgroups, the map for many. *)
Fixpoint find_hid (l : list MyHGC) (_hid : Z) (i : nat) : option nat :=
  match l with [] => None | g :: l' => if hid g =? _hid then Some i else find_hid l' _hid (S i) end.
Definition MyHGC_find (_hid : Z) (h : HGM) : option nat :=
  if (length (MyHostGroups h) <? 100)%nat then find_hid (MyHostGroups h) _hid 0 else MyHostGroups_map h !! _hid.
Definition MyHGC_lookup (_hid : Z) (h : HGM) : nat * HGM :=
  match MyHGC_find _hid h with
  | Some i => (i, h)
  | None =>
      let i := length (MyHostGroups h) in
      let map := match MyHostGroups_map h !! _hid with None => <[_hid := i]> (MyHostGroups_map h) | Some _ => MyHostGroups_map h end in
      (i, h <| MyHostGroups := MyHostGroups h ++ [new_MyHGC _hid] |> <| MyHostGroups_map := map |>)
  end.

(** ** Adding servers *)
Definition default_for (v d hard : Z) : Z := if v =? -1 then (if d =? -1 then hard else d) else v.
Definition update_hg_attrs_server_defaults (s : MySrvC) (d : servers_defaults_t) : MySrvC :=
  s <| weight := default_for (weight s) (d_weight d) 1 |>
    <| max_connections := default_for (max_connections s) (d_max_connections d) 1000 |>
    <| use_ssl := default_for (use_ssl s) (d_use_ssl d) 0 |>.
Definition reset_hg_attrs_server_defaults (s : MySrvC) : MySrvC :=
  s <| weight := -1 |> <| max_connections := -1 |> <| use_ssl := -1 |>.

Definition add (p _hid : Z) (h : HGM) : outcome HGM :=
  let '(i, h) := MyHGC_lookup _hid h in
  s ← get_srv h p;
  g ← get_hgc h i;
  srvlist_add i p (set_srv p (update_hg_attrs_server_defaults s (servers_defaults g)) h).

Definition same_endpoint (s : MySrvC) (addr : list Z) (prt : Z) : bool := bool_decide (address s = addr) && (port s =? prt).

(** The servers of an array that have an endpoint, in order. *)
Fixpoint at_endpoint (h : HGM) (addr : list Z) (prt : Z) (ps : list Z) : outcome (list Z) :=
  match ps with
  | [] => Ok []
  | p :: ps' =>
      s ← get_srv h p; r ← at_endpoint h addr prt ps';
      Ok (if same_endpoint s addr prt then p :: r else r)
  end.

(** The loop leaves the last hostgroup in its variable when none matches. *)
Fixpoint hostgroup_or_last (l : list MyHGC) (_hid : Z) (last : option MyHGC) : option MyHGC :=
  match l with
  | [] => last
  | g :: l' => if hid g =? _hid then Some g else hostgroup_or_last l' _hid (Some g)
  end.
Definition find_server_in_hg (_hid : Z) (addr : list Z) (prt : Z) (h : HGM) : outcome (option Z) :=
  match hostgroup_or_last (MyHostGroups h) _hid None with
  | None => Ok None
  | Some g => l ← at_endpoint h addr prt (mysrvs g); Ok (last l)
  end.

(** [p] is the address of the server object when one is created. *)
Definition create_new_server_in_hg (p _hid : Z) (addr : list Z) (prt w conns_max ssl : Z) (h : HGM) : outcome (HGM * Z) :=
  f ← find_server_in_hg _hid addr prt h;
  match f with
  | None =>
      h ← add p _hid (set_srv p (new_MySrvC addr prt 0 w ONLINE 0 conns_max 0 ssl 0 []) h);
      Ok (h, 0)
  | Some q =>
      s ← get_srv h q;
      if status_is (status s) OFFLINE_HARD then
        let s := reset_hg_attrs_server_defaults s in
        match myhgc s with
        | None => Fault NullPointer
        | Some i =>
            g ← get_hgc h i;
            h ← set_status q ONLINE (set_srv q (update_hg_attrs_server_defaults s (servers_defaults g)) h);
            Ok (h, 0)
        end
      else Ok (h, -1)
  end.

(** [ConnectionsFree->drop_all_connections()]. *)
Definition drop_all_connections (p : Z) (h : HGM) : outcome HGM :=
  s ← get_srv h p;
  delete_conns (ConnectionsFree s) (set_srv p (s <| ConnectionsFree := [] |>) h).

Definition remove_server_in_hg (_hid : Z) (addr : list Z) (prt : Z) (h : HGM) : outcome (HGM * Z) :=
  f ← find_server_in_hg _hid addr prt h;
  match f with
  | None => Ok (h, -1)
  | Some p => h ← set_status p OFFLINE_HARD h; h ← drop_all_connections p h; Ok (h, 0)
  end.

(** Servers that were taken away are deleted when their last connection is gone. *)
Fixpoint purge_array (fuel : nat) (h : HGM) (j : nat) (l : list Z) : outcome (HGM * list Z) :=
  match fuel with
  | O => Fault Diverges
  | S fuel' =>
      match l !! j with
      | None => Ok (h, l)
      | Some p =>
          s ← get_srv h p;
          if status_is (status s) OFFLINE_HARD && bool_decide (ConnectionsUsed s = []) && bool_decide (ConnectionsFree s = []) then
            '(_, l) ← array_remove j l;
            purge_array fuel' (h <| servers := delete p (servers h) |>) j l
          else purge_array fuel' h (S j) l
      end
  end.
Fixpoint purge_loop (n i : nat) (h : HGM) : outcome HGM :=
  match n with
  | O => Ok h
  | S n' =>
      g ← get_hgc h i;
      '(h, l) ← purge_array (S (length (mysrvs g))) h 0 (mysrvs g);
      purge_loop n' (S i) (set_hgc i (g <| mysrvs := l |>) h)
  end.
Definition purge_mysql_servers_table (h : HGM) : outcome HGM := purge_loop (length (MyHostGroups h)) 0 h.

(** ** Health of a server *)

(** Errors that say nothing about the server. *)
Definition ignored_error (e : Z) : bool :=
  ((1048 <=? e) && (e <=? 1052)) || ((1054 <=? e) && (e <=? 1075)) || ((1099 <=? e) && (e <=? 1104)) ||
  ((1106 <=? e) && (e <=? 1113)) || ((1116 <=? e) && (e <=? 1118)) || (e =? 1136) || ((1138 <=? e) && (e <=? 1149)) ||
  (e =? 1007) || (e =? 1008) || (e =? 1044) || (e =? 1045) || (e =? 1120) || (e =? 1203) || (e =? 1226) || (e =? 3118).

(** [t] is the current time.  The status is written without [set_status]. *)
Definition connect_error (v : variables) (p err_num t : Z) (h : HGM) : outcome HGM :=
  s ← get_srv h p;
  let s := s <| connect_ERR := u32 (connect_ERR s + 1) |> in
  let k := stats h in
  let h := h <| stats := k <| server_connections_aborted := server_connections_aborted k + 1 |> |> in
  if ignored_error err_num then Ok (set_srv p s h)
  else if time_last_detected_error s <? t then
    Ok (set_srv p (s <| time_last_detected_error := t |> <| connect_ERR_at_time_last_detected_error := 1 |>) h)
  else if t <? time_last_detected_error s then Ok (set_srv p s h)
  else
    let connect_retries := connect_retries_on_failure v + 1 in
    let max_failures := if connect_retries <? shun_on_failures v then connect_retries else shun_on_failures v in
    let n := u32 (connect_ERR_at_time_last_detected_error s + 1) in
    let s := s <| connect_ERR_at_time_last_detected_error := n |> in
    if u32 max_failures <=? n then
      if status_is (status s) ONLINE
      then Ok (set_srv p (s <| status := SHUNNED |> <| shunned_automatic := true |>) h)
      else Ok (set_srv p s h)
    else Ok (set_srv p s h).

(** [MySrvC::shun_and_killall] *)
Definition srv_shun_and_killall (p : Z) (h : HGM) : outcome HGM :=
  s ← get_srv h p;
  Ok (set_srv p (s <| status := SHUNNED |> <| shunned_automatic := true |> <| shunned_and_kill_all_connections := true |>) h).

(** A shunned server may come back once the waiting time is over and, if its
    connections were to be killed, none is left. *)
Definition may_unshun (s : MySrvC) (t max_wait_sec : Z) : bool :=
  (time_last_detected_error s <? t) && (max_wait_sec <? t - time_last_detected_error s) &&
  (negb (shunned_and_kill_all_connections s) ||
   (shunned_and_kill_all_connections s && bool_decide (ConnectionsUsed s = []) && bool_decide (ConnectionsFree s = []))).

(** [set_status(ONLINE)] and the fields reset after it. *)
Definition unshun (p : Z) (h : HGM) : outcome HGM :=
  h ← set_status p ONLINE h;
  s ← get_srv h p;
  Ok (set_srv p (s <| shunned_automatic := false |> <| shunned_and_kill_all_connections := false |>
                   <| connect_ERR_at_time_last_detected_error := 0 |> <| time_last_detected_error := 0 |>) h).

Fixpoint unshun_first (h : HGM) (addr : list Z) (prt t max_wait_sec : Z) (ps : list Z) : outcome HGM :=
  match ps with
  | [] => Ok h
  | p :: ps' =>
      s ← get_srv h p;
      if status_is (status s) SHUNNED && same_endpoint s addr prt then
        if may_unshun s t max_wait_sec then unshun p h else Ok h
      else unshun_first h addr prt t max_wait_sec ps'
  end.
Fixpoint unshun_loop (n i : nat) (addr : list Z) (prt t max_wait_sec : Z) (skip_hid : option Z) (h : HGM) : outcome HGM :=
  match n with
  | O => Ok h
  | S n' =>
      g ← get_hgc h i;
      if bool_decide (skip_hid = Some (hid g)) then unshun_loop n' (S i) addr prt t max_wait_sec skip_hid h
      else h ← unshun_first h addr prt t max_wait_sec (mysrvs g);
           unshun_loop n' (S i) addr prt t max_wait_sec skip_hid h
  end.
Definition unshun_server_all_hostgroups (addr : list Z) (prt t max_wait_sec : Z) (skip_hid : option Z) (h : HGM) : outcome HGM :=
  unshun_loop (length (MyHostGroups h)) 0 addr prt t max_wait_sec skip_hid h.

(** Visiting every server of an array, or of every hostgroup. *)
Fixpoint each_server (f : Z → HGM → outcome HGM) (ps : list Z) (h : HGM) : outcome HGM :=
  match ps with [] => Ok h | p :: ps' => h ← f p h; each_server f ps' h end.
Fixpoint each_hostgroup (f : Z → HGM → outcome HGM) (n i : nat) (h : HGM) : outcome HGM :=
  match n with
  | O => Ok h
  | S n' => g ← get_hgc h i; h ← each_server f (mysrvs g) h; each_hostgroup f n' (S i) h
  end.

(** The monitor found a host that does not answer pings.  The time [t] of the
    error is pushed into the future each time a server matches; the result
    says whether an online server was shunned. *)
Fixpoint shun_servers (v : variables) (hostname : list Z) (prt : Z) (ps : list Z) (acc : HGM * Z * bool) : outcome (HGM * Z * bool) :=
  match ps with
  | [] => Ok acc
  | p :: ps' =>
      let '(h, t, ret) := acc in
      s ← get_srv h p;
      if same_endpoint s hostname prt then
        let was_online := status_is (status s) ONLINE in
        h ← (if was_online || (status_is (status s) SHUNNED && shunned_automatic s) then set_status p SHUNNED h else Ok h);
        h ← (if was_online || (status_is (status s) SHUNNED && shunned_automatic s) || status_is (status s) OFFLINE_SOFT then
               s ← get_srv h p;
               drop_all_connections p
                 (set_srv p (s <| shunned_automatic := true |> <| shunned_and_kill_all_connections := true |>) h)
             else Ok h);
        let a := shun_recovery_time_sec v in
        let b := Z.quot (monitor_ping_interval v) 1000 in
        let t := if monitor_enabled v && (a <? b) then t + (b - a) else t in
        s ← get_srv h p;
        shun_servers v hostname prt ps' (set_srv p (s <| time_last_detected_error := t |>) h, t, ret || was_online)
      else shun_servers v hostname prt ps' acc
  end.
Fixpoint shun_loop (v : variables) (hostname : list Z) (prt : Z) (n i : nat) (acc : HGM * Z * bool) : outcome (HGM * Z * bool) :=
  match n with
  | O => Ok acc
  | S n' => g ← get_hgc acc.1.1 i; acc ← shun_servers v hostname prt (mysrvs g) acc; shun_loop v hostname prt n' (S i) acc
  end.
Definition shun_and_killall (v : variables) (hostname : list Z) (prt t : Z) (h : HGM) : outcome (HGM * bool) :=
  '(h, _, ret) ← shun_loop v hostname prt (length (MyHostGroups h)) 0 (h, t, false); Ok (h, ret).

Definition set_server_current_latency_us (hostname : list Z) (prt latency : Z) (h : HGM) : outcome HGM :=
  each_hostgroup (λ p h, s ← get_srv h p;
    Ok (if same_endpoint s hostname prt then set_srv p (s <| current_latency_us := latency |>) h else h))
    (length (MyHostGroups h)) 0 h.

(** ** Replication lag *)
Definition get_monitor_slave_lag_when_null (v : variables) (g : MyHGC) : Z :=
  if configured (attributes g) && negb (attr_monitor_slave_lag_when_null (attributes g) =? -1)
  then attr_monitor_slave_lag_when_null (attributes g) else monitor_slave_lag_when_null v.

(** The first server of the hostgroup at the endpoint. *)
Definition lag_of_server (v : variables) (lag : Z) (override : bool) (p : Z) (h : HGM) : outcome HGM :=
  s ← get_srv h p;
  let s := s <| cur_replication_lag := lag |> in
  let h := set_srv p s h in
  if status_is (status s) ONLINE then
    if (0 <=? lag) && (0 <? max_replication_lag s) && (i32 (max_replication_lag s) <? lag) then
      let n := u32 (cur_replication_lag_count s + 1) in
      let h := set_srv p (s <| cur_replication_lag_count := n |>) h in
      if u32 (monitor_replication_lag_count v) <=? n then set_status p SHUNNED_REPLICATION_LAG h else Ok h
    else Ok (set_srv p (s <| cur_replication_lag_count := 0 |>) h)
  else if status_is (status s) SHUNNED_REPLICATION_LAG then
    if (negb override && (lag <=? i32 (max_replication_lag s))) || ((lag =? -2) && override) then
      h ← set_status p ONLINE h;
      s ← get_srv h p;
      Ok (set_srv p (s <| cur_replication_lag_count := 0 |>) h)
    else Ok h
  else Ok h.

Definition replication_lag_action_inner (v : variables) (i : nat) (addr : list Z) (prt lag : Z) (override : bool) (h : HGM) : outcome HGM :=
  g ← get_hgc h i;
  let '(lag, override) :=
    if (lag =? -1) && override then (get_monitor_slave_lag_when_null v g, false) else (lag, override) in
  l ← at_endpoint h addr prt (mysrvs g);
  match l with [] => Ok h | p :: _ => lag_of_server v lag override p h end.

Record replication_lag_server_t := mk_lag_server {
  rls_hostgroup_id : Z; rls_address : list Z; rls_port : Z; rls_lag : Z; rls_override : bool
}.

Fixpoint lag_all_hostgroups (v : variables) (r : replication_lag_server_t) (n i : nat) (h : HGM) : outcome HGM :=
  match n with
  | O => Ok h
  | S n' =>
      h ← replication_lag_action_inner v i (rls_address r) (rls_port r) (rls_lag r) (rls_override r) h;
      lag_all_hostgroups v r n' (S i) h
  end.
Fixpoint replication_lag_action (v : variables) (l : list replication_lag_server_t) (h : HGM) : outcome HGM :=
  match l with
  | [] => Ok h
  | r :: l' =>
      h ← (if monitor_replication_lag_group_by_host v then lag_all_hostgroups v r (length (MyHostGroups h)) 0 h
           else match MyHGC_find (rls_hostgroup_id r) h with
                | None => Fault NullPointer
                | Some i => replication_lag_action_inner v i (rls_address r) (rls_port r) (rls_lag r) (rls_override r) h
                end);
      replication_lag_action v l' h
  end.

Definition group_replication_set_one (v : variables) (addr : list Z) (prt lag_count : Z) (enable : bool) (p : Z) (h : HGM) : outcome HGM :=
  s ← get_srv h p;
  if same_endpoint s addr prt then
    if enable then
      if status_is (status s) SHUNNED_REPLICATION_LAG || status_is (status s) SHUNNED then set_status p ONLINE h else Ok h
    else if status_is (status s) ONLINE then set_status p SHUNNED h
    else if status_is (status s) SHUNNED && (monitor_groupreplication_max_transactions_behind_count v * 2 <=? lag_count)
    then set_status p SHUNNED_REPLICATION_LAG h
    else Ok h
  else Ok h.
Definition group_replication_lag_action_set_server_status (v : variables) (i : option nat) (addr : option (list Z)) (prt lag_count : Z)
  (enable : bool) (h : HGM) : outcome HGM :=
  match i, addr with
  | Some i, Some addr => g ← get_hgc h i; each_server (group_replication_set_one v addr prt lag_count enable) (mysrvs g) h
  | _, _ => Ok h
  end.

(** ** Well-formed states *)
Definition in_hgc (h : HGM) (i : nat) (p : Z) : Prop := ∃ g, MyHostGroups h !! i = Some g ∧ p ∈ mysrvs g.
Definition all_conns (s : MySrvC) : list Z := ConnectionsUsed s ++ ConnectionsFree s.

(** Servers are in exactly one hostgroup, connections in exactly one array of
    their server; the queue of connections to reset holds used ones. *)
Record wf (h : HGM) : Prop := {
  wf_servers i p : in_hgc h i p ↔ ∃ s, servers h !! p = Some s ∧ myhgc s = Some i;
  wf_owned p s : servers h !! p = Some s → ∃ i, myhgc s = Some i;
  wf_arrays i g : MyHostGroups h !! i = Some g → NoDup (mysrvs g);
  wf_map k i : MyHostGroups_map h !! k = Some i ↔ ∃ g, MyHostGroups h !! i = Some g ∧ hid g = k;
  wf_conns p s : servers h !! p = Some s → NoDup (all_conns s) ∧
    ∀ c, c ∈ all_conns s ↔ ∃ k, conns h !! c = Some k ∧ parent k = p;
  wf_parent c k : conns h !! c = Some k → is_Some (servers h !! parent k);
  wf_queue c : c ∈ queue h → ∃ k s, conns h !! c = Some k ∧ servers h !! parent k = Some s ∧ c ∈ ConnectionsUsed s;
  wf_queue_nodup : NoDup (queue h)
}.

(** The cached number of online servers of every hostgroup is right. *)
Definition counted (h : HGM) : Prop :=
  shutdown h = false ∧ ∀ i g, MyHostGroups h !! i = Some g → count_online h (mysrvs g) = Ok (num_online_servers g).

(** What no operation on the health of servers or on connections changes. *)
Definition skeleton_g (g : MyHGC) : Z * list Z * attributes_t * servers_defaults_t :=
  (hid g, mysrvs g, attributes g, servers_defaults g).
Definition skeleton_s (s : MySrvC) : list Z * Z * option nat := (address s, port s, myhgc s).
Definition same_skeleton (h h' : HGM) : Prop :=
  skeleton_g <$> MyHostGroups h' = skeleton_g <$> MyHostGroups h ∧
  MyHostGroups_map h' = MyHostGroups_map h ∧
  (∀ p, skeleton_s <$> (servers h' !! p) = skeleton_s <$> (servers h !! p)) ∧
  shutdown h' = shutdown h.

#[export] Instance same_skeleton_preorder : PreOrder same_skeleton.
Proof.
  split; [done|]. intros h1 h2 h3 (G1 & M1 & S1 & D1) (G2 & M2 & S2 & D2).
  refine (conj _ (conj _ (conj _ _))); congruence.
Qed.

(** Both invariants; [k] says whether the counts are still exact. *)
Definition Inv (k : bool) (h : HGM) : Prop := wf h ∧ (k = true → counted h).

(** An operation that succeeds, keeps the invariant and the skeleton. *)
Definition safe (k : bool) (h : HGM) (r : outcome HGM) : Prop := ∃ h', r = Ok h' ∧ Inv k h' ∧ same_skeleton h h'.

Section Safe.
Context (k : bool).
Implicit Types (h : HGM) (s : MySrvC).

Lemma safe_ok h : Inv k h → safe k h (Ok h).
Proof. intros H. by exists h. Qed.

Lemma safe_bind h r (f : HGM → outcome HGM) :
  safe k h r → (∀ h', Inv k h' → same_skeleton h h' → safe k h' (f h')) → safe k h (r ≫= f).
Proof.
  intros (h' & -> & Hi & Hs) Hf. destruct (Hf h' Hi Hs) as (h2 & E & Hi2 & Hs2). exists h2.
  split; [done|]. split; [done | by etrans].
Qed.

Lemma get_srv_ok h p s : servers h !! p = Some s → get_srv h p = Ok s.
Proof. unfold get_srv. by intros ->. Qed.
Lemma get_hgc_ok h i g : MyHostGroups h !! i = Some g → get_hgc h i = Ok g.
Proof. unfold get_hgc. by intros ->. Qed.

Lemma same_skeleton_srv h h' p s : same_skeleton h h' → servers h !! p = Some s → ∃ s', servers h' !! p = Some s' ∧ skeleton_s s' = skeleton_s s.
Proof.
  intros (_ & _ & S & _) Hp. specialize (S p). rewrite Hp in S. destruct (servers h' !! p) as [s'|]; [|done].
  injection S as ???. exists s'. split; [done|]. unfold skeleton_s. congruence.
Qed.

Lemma same_skeleton_hgc h h' i g : same_skeleton h h' → MyHostGroups h !! i = Some g → ∃ g', MyHostGroups h' !! i = Some g' ∧ skeleton_g g' = skeleton_g g.
Proof.
  intros (G & _) Hi. apply (f_equal (.!! i)) in G. rewrite !list_lookup_fmap, Hi in G.
  destruct (MyHostGroups h' !! i) as [g'|]; [|done]. injection G as ????. exists g'. split; [done|]. unfold skeleton_g. congruence.
Qed.

(** *** Counting *)
Lemma count_online_ext h h' ps :
  (∀ p, p ∈ ps → ∃ s s', servers h !! p = Some s ∧ servers h' !! p = Some s' ∧ status s' = status s) →
  count_online h' ps = count_online h ps.
Proof.
  induction ps as [|p ps IH]; intros Hp; [done|]. cbn [count_online].
  destruct (Hp p) as (s & s' & E & E' & Hs); [left|]. rewrite (get_srv_ok _ _ _ E), (get_srv_ok _ _ _ E').
  cbn [mbind outcome_bind]. rewrite IH by (intros q Hq; apply Hp; by right). by rewrite Hs.
Qed.

Lemma count_online_ok h ps : (∀ p, p ∈ ps → is_Some (servers h !! p)) → ∃ n, count_online h ps = Ok n.
Proof.
  induction ps as [|p ps IH]; intros Hp; [by exists 0|]. cbn [count_online].
  destruct (Hp p) as [s E]; [left|]. rewrite (get_srv_ok _ _ _ E). cbn [mbind outcome_bind].
  destruct IH as [n ->]; [intros q Hq; apply Hp; by right|]. cbn [mbind outcome_bind]. by eexists.
Qed.

(** *** Changing fields of a server *)
Definition same_place s s' : Prop :=
  skeleton_s s' = skeleton_s s ∧ ConnectionsUsed s' = ConnectionsUsed s ∧ ConnectionsFree s' = ConnectionsFree s.

Lemma wf_set_srv h p s s' : wf h → servers h !! p = Some s → same_place s s' → wf (set_srv p s' h).
Proof.
  intros W Hp (Hk & Hu & Hf). assert (Hm : myhgc s' = myhgc s) by (by injection Hk).
  assert (Ha : all_conns s' = all_conns s) by (unfold all_conns; congruence). destruct W. split; cbn; try done.
  - intros i q. change (in_hgc (set_srv p s' h) i q) with (in_hgc h i q). rewrite wf_servers0.
    destruct (decide (q = p)) as [->|]; [|by rewrite lookup_insert_ne].
    rewrite lookup_insert_eq, Hp. split; intros (s0 & [= <-] & E); eexists; (split; [done | congruence]).
  - intros q s0. destruct (decide (q = p)) as [->|]; [|rewrite lookup_insert_ne by done; apply wf_owned0].
    rewrite lookup_insert_eq. intros [= <-]. rewrite Hm. by eapply wf_owned0.
  - intros q s0. destruct (decide (q = p)) as [->|]; [|rewrite lookup_insert_ne by done; apply wf_conns0].
    rewrite lookup_insert_eq. intros [= <-]. rewrite Ha. by apply wf_conns0.
  - intros c x Hc. apply wf_parent0 in Hc. destruct (decide (parent x = p)) as [->|]; [by rewrite lookup_insert_eq|].
    by rewrite lookup_insert_ne.
  - intros c Hc. destruct (wf_queue0 c Hc) as (x & s0 & E1 & E2 & E3). exists x.
    destruct (decide (parent x = p)) as [Hpp|]; [|exists s0; by rewrite lookup_insert_ne].
    exists s'. rewrite Hpp in *. rewrite lookup_insert_eq. assert (s0 = s) as -> by congruence.
    split; [done|]. split; [done|]. by rewrite Hu.
Qed.

Lemma skeleton_set_srv h p s s' : servers h !! p = Some s → skeleton_s s' = skeleton_s s → same_skeleton h (set_srv p s' h).
Proof.
  intros Hp Hk. split_and!; try done. intros q. cbn. destruct (decide (q = p)) as [->|]; [|by rewrite lookup_insert_ne].
  rewrite lookup_insert_eq, Hp. cbn. by rewrite Hk.
Qed.

Lemma counted_set_srv h p s s' :
  wf h → counted h → servers h !! p = Some s → status s' = status s → counted (set_srv p s' h).
Proof.
  intros W [Hd Hc] Hp Hs. split; [done|]. intros i g Hg. cbn in Hg. rewrite <- (Hc i g Hg). apply count_online_ext.
  intros q Hq. assert (∃ s0, servers h !! q = Some s0 ∧ myhgc s0 = Some i) as (s0 & E & _) by (apply (wf_servers h W); by exists g).
  cbn. destruct (decide (q = p)) as [->|]; [|exists s0, s0; by rewrite lookup_insert_ne].
  exists s, s'. by rewrite lookup_insert_eq.
Qed.

Lemma safe_set_srv h p s s' :
  Inv k h → servers h !! p = Some s → same_place s s' → status s' = status s → safe k h (Ok (set_srv p s' h)).
Proof.
  intros [W C] Hp Hpl Hs. eexists. split; [done|]. split; [|eapply skeleton_set_srv; [done|apply Hpl]].
  split; [by eapply wf_set_srv|]. intros Hk. eapply counted_set_srv; eauto.
Qed.

(** *** Status changes *)
Lemma wf_set_hgc h i g g' : wf h → MyHostGroups h !! i = Some g → hid g' = hid g → mysrvs g' = mysrvs g → wf (set_hgc i g' h).
Proof.
  intros W Hg Hh Hm. assert (Hl : ∀ j x, MyHostGroups (set_hgc i g' h) !! j = Some x →
    ∃ y, MyHostGroups h !! j = Some y ∧ hid x = hid y ∧ mysrvs x = mysrvs y).
  { intros j x. cbn. destruct (decide (j = i)) as [->|]; [|rewrite list_lookup_insert_ne by done; eauto].
    rewrite list_lookup_insert_eq by (by eapply lookup_lt_Some). intros [= <-]. eauto. }
  assert (Hl' : ∀ j y, MyHostGroups h !! j = Some y → ∃ x, MyHostGroups (set_hgc i g' h) !! j = Some x ∧ hid x = hid y ∧ mysrvs x = mysrvs y).
  { intros j y Hy. cbn. destruct (decide (j = i)) as [->|]; [|rewrite list_lookup_insert_ne by done; eauto].
    rewrite list_lookup_insert_eq by (by eapply lookup_lt_Some). exists g'. split; [done|]. split; congruence. }
  destruct W. split; try done.
  - intros j p. rewrite <- wf_servers0. split; intros (x & Hx & Hp).
    + apply Hl in Hx as (y & Hy & _ & E). exists y. rewrite <- E. done.
    + apply Hl' in Hx as (y & Hy & _ & E). exists y. rewrite E. done.
  - intros j x Hx. apply Hl in Hx as (y & Hy & _ & ->). by eapply wf_arrays0.
  - intros kk j. change (MyHostGroups_map (set_hgc i g' h)) with (MyHostGroups_map h). rewrite wf_map0. split; intros (x & Hx & Hk).
    + apply Hl' in Hx as (y & Hy & E & _). exists y. split; [done | congruence].
    + apply Hl in Hx as (y & Hy & E & _). exists y. split; [done | congruence].
Qed.

Lemma skeleton_set_hgc h i g g' : MyHostGroups h !! i = Some g → skeleton_g g' = skeleton_g g → same_skeleton h (set_hgc i g' h).
Proof.
  intros Hg Hk. split_and!; try done. cbn. rewrite list_fmap_insert, Hk. apply list_insert_id.
  by rewrite list_lookup_fmap, Hg.
Qed.

Lemma count_online_servers h h' ps : servers h' = servers h → count_online h' ps = count_online h ps.
Proof.
  intros E. induction ps as [|p ps IH]; [done|]. cbn [count_online]. unfold get_srv. rewrite E.
  destruct (servers h !! p); [|done]. cbn [mbind outcome_bind]. by rewrite IH.
Qed.

Lemma mysrvs_allocated h i g p : wf h → MyHostGroups h !! i = Some g → p ∈ mysrvs g → ∃ s, servers h !! p = Some s ∧ myhgc s = Some i.
Proof. intros W Hg Hp. apply (wf_servers h W). by exists g. Qed.

Lemma owner_allocated h p s : wf h → servers h !! p = Some s →
  ∃ i g, myhgc s = Some i ∧ MyHostGroups h !! i = Some g ∧ p ∈ mysrvs g.
Proof.
  intros W Hp. destruct (wf_owned h W p s Hp) as [i Hi].
  destruct (proj2 (wf_servers h W i p)) as (g & Hg & Hin); [by exists s|]. by exists i, g.
Qed.

(** Refreshing the one count that may be wrong. *)
Lemma refresh_spec h i g :
  wf h → MyHostGroups h !! i = Some g →
  (k = true → shutdown h = false ∧
     ∀ j x, j ≠ i → MyHostGroups h !! j = Some x → count_online h (mysrvs x) = Ok (num_online_servers x)) →
  ∃ h', refresh_online_server_count i h = Ok h' ∧ Inv k h' ∧ same_skeleton h h' ∧
    servers h' = servers h ∧ conns h' = conns h ∧ queue h' = queue h.
Proof.
  intros W Hg Hk. unfold refresh_online_server_count. destruct (shutdown h) eqn:Hd.
  { exists h. split; [done|]. split; [|done]. split; [done|]. intros E. by destruct (Hk E). }
  rewrite (get_hgc_ok _ _ _ Hg). cbn [mbind outcome_bind].
  destruct (count_online_ok h (mysrvs g)) as [n Hn].
  { intros q Hq. destruct (mysrvs_allocated h i g q W Hg Hq) as (s & E & _). by exists s. }
  rewrite Hn. cbn [mbind outcome_bind]. eexists. split; [done|]. split; [|split; [by eapply skeleton_set_hgc | done]].
  split; [by eapply wf_set_hgc|]. intros E. destruct (Hk E) as [_ Hc]. split; [done|]. intros j x. cbn.
  rewrite (count_online_servers h) by done. destruct (decide (j = i)) as [->|Hj].
  - rewrite list_lookup_insert_eq by (by eapply lookup_lt_Some). intros [= <-]. done.
  - rewrite list_lookup_insert_ne by done. by apply Hc.
Qed.

Lemma set_status_spec h p s st :
  Inv k h → servers h !! p = Some s →
  ∃ h', set_status p st h = Ok h' ∧ Inv k h' ∧ same_skeleton h h' ∧
    servers h' = <[p := s <| status := st |>]> (servers h) ∧ conns h' = conns h ∧ queue h' = queue h.
Proof.
  intros [W C] Hp. destruct (owner_allocated h p s W Hp) as (i & g & Hi & Hg & Hin).
  unfold set_status. rewrite (get_srv_ok _ _ _ Hp). cbn [mbind outcome_bind]. rewrite Hi.
  destruct (refresh_spec (set_srv p (s <| status := st |>) h) i g) as (h' & E & HI & HS & E1 & E2 & E3).
  - by eapply wf_set_srv.
  - done.
  - intros Hk. destruct (C Hk) as [Hd Hc]. split; [done|]. intros j x Hj Hx. rewrite <- (Hc j x Hx). apply count_online_ext.
    intros q Hq. destruct (mysrvs_allocated h j x q W Hx Hq) as (s0 & E & Hm). exists s0, s0. split; [done|]. split; [|done].
    cbn. rewrite lookup_insert_ne; [done|]. intros <-. congruence.
  - exists h'. split; [done|]. split; [done|]. split; [|done].
    transitivity (set_srv p (s <| status := st |>) h); [by eapply skeleton_set_srv | done].
Qed.

Lemma safe_set_status h p s st : Inv k h → servers h !! p = Some s → safe k h (set_status p st h).
Proof. intros HI Hp. destruct (set_status_spec h p s st HI Hp) as (h' & E & HI' & HS & _). by exists h'. Qed.

(** *** Changing the connections of one server *)
Lemma wf_change_conns h p s s' m q :
  wf h → servers h !! p = Some s → skeleton_s s' = skeleton_s s →
  NoDup (all_conns s') → (∀ c, c ∈ all_conns s' ↔ ∃ x, m !! c = Some x ∧ parent x = p) →
  (∀ c x, parent x ≠ p → m !! c = Some x ↔ conns h !! c = Some x) →
  NoDup q → (∀ c, c ∈ q → (c ∈ queue h ∧ c ∉ all_conns s) ∨ c ∈ ConnectionsUsed s') →
  wf ((set_srv p s' h) <| conns := m |> <| queue := q |>).
Proof.
  intros W Hp Hk Hn Hcs Hm Hq Hqs. assert (Hi : myhgc s' = myhgc s) by (by injection Hk).
  destruct W. split; cbn; try done.
  - intros i r. etrans; [apply wf_servers0|]. destruct (decide (r = p)) as [->|]; [|by rewrite lookup_insert_ne].
    rewrite lookup_insert_eq, Hp. split; intros (s0 & [= <-] & E); eexists; (split; [done | congruence]).
  - intros r s0. destruct (decide (r = p)) as [->|]; [|rewrite lookup_insert_ne by done; apply wf_owned0].
    rewrite lookup_insert_eq. intros [= <-]. rewrite Hi. by eapply wf_owned0.
  - intros r s0. destruct (decide (r = p)) as [->|Hr]; [rewrite lookup_insert_eq; by intros [= <-]|].
    rewrite lookup_insert_ne by done. intros Hs0. destruct (wf_conns0 r s0 Hs0) as [Hn0 Hc0]. split; [done|]. intros c.
    rewrite Hc0. split; intros (x & Hx & <-); exists x; (split; [by apply Hm | done]).
  - intros c x Hx. destruct (decide (parent x = p)) as [->|Hne]; [by rewrite lookup_insert_eq|].
    rewrite lookup_insert_ne by done. apply (wf_parent0 c). by apply Hm.
  - intros c [[Hc Hnc]|Hu]%Hqs.
    + destruct (wf_queue0 c Hc) as (x & s0 & Hx & Hs0 & Hu). exists x, s0.
      assert (parent x ≠ p). { intros E. apply Hnc. apply (wf_conns0 p s Hp). by exists x. }
      rewrite lookup_insert_ne by done. split; [by apply Hm | done].
    + destruct (proj1 (Hcs c)) as (x & Hx & Hpar); [by apply elem_of_app; left|]. exists x, s'.
      by rewrite Hpar, lookup_insert_eq.
Qed.

(** *** Deleting the free connections of a server *)
Lemma delete_conns_spec cs h :
  NoDup cs → (∀ c, c ∈ cs → is_Some (conns h !! c)) →
  ∃ m, delete_conns cs h = Ok (h <| conns := m |>) ∧ ∀ c, m !! c = if decide (c ∈ cs) then None else conns h !! c.
Proof.
  revert h. induction cs as [|c cs IH]; intros h Hn Hc.
  { exists (conns h). split; [by destruct h | done]. }
  apply NoDup_cons in Hn as [Hni Hn]. destruct (Hc c) as [x Hx]; [left|].
  cbn [delete_conns]. unfold delete_conn. rewrite Hx. cbn [mbind outcome_bind].
  destruct (IH (h <| conns := delete c (conns h) |>) Hn) as (m & E & Hm).
  { intros d Hd. cbn. rewrite lookup_delete_ne by (intros ->; done). apply Hc. by right. }
  exists m. split; [done|]. intros d. rewrite Hm. cbn. destruct (decide (d ∈ cs)) as [Hd|Hd].
  - by rewrite decide_True by (by right).
  - destruct (decide (d = c)) as [->|Hdc]; [by rewrite decide_True, lookup_delete_eq by left|].
    rewrite lookup_delete_ne, decide_False; [done| |done]. intros [?|?]%elem_of_cons; done.
Qed.

Lemma drop_all_connections_spec h p s :
  Inv k h → servers h !! p = Some s →
  ∃ m, let h' := (set_srv p (s <| ConnectionsFree := [] |>) h) <| conns := m |> in
    drop_all_connections p h = Ok h' ∧ Inv k h' ∧ same_skeleton h h' ∧
    ∀ c, m !! c = if decide (c ∈ ConnectionsFree s) then None else conns h !! c.
Proof.
  intros [W C] Hp. destruct (wf_conns h W p s Hp) as [Hn Hcs]. apply NoDup_app in Hn as (Hnu & Hni & Hnf).
  unfold drop_all_connections. rewrite (get_srv_ok _ _ _ Hp). cbn [mbind outcome_bind].
  destruct (delete_conns_spec (ConnectionsFree s) (set_srv p (s <| ConnectionsFree := [] |>) h)) as (m & E & Hm).
  { done. } { intros c Hc. destruct (proj1 (Hcs c)) as (x & Hx & _); [by apply elem_of_app; right | by exists x]. }
  exists m. cbn zeta. cbn in Hm. split; [done|].
  assert (HS : same_skeleton h ((set_srv p (s <| ConnectionsFree := [] |>) h) <| conns := m |>)) by (by apply (skeleton_set_srv h p s)).
  split; [|done]. split.
  2: { intros Hk. destruct (counted_set_srv h p s (s <| ConnectionsFree := [] |>) W (C Hk) Hp) as [Hd Hc]; [done|].
       split; [done|]. intros i g Hg. rewrite <- (Hc i g Hg). by apply count_online_servers. }
  apply (wf_change_conns h p s _ m (queue h) W Hp); try done.
  - unfold all_conns. cbn. by rewrite app_nil_r.
  - intros c. unfold all_conns. cbn. rewrite app_nil_r, Hm. split.
    + intros Hc. destruct (proj1 (Hcs c)) as (x & Hx & Hpar); [by apply elem_of_app; left|].
      exists x. by rewrite decide_False by (by apply Hni).
    + destruct (decide (c ∈ ConnectionsFree s)) as [Hf|Hf]; [by intros (x & ? & _)|].
      intros Hx. apply Hcs, elem_of_app in Hx as [?|?]; done.
  - intros c x Hne. rewrite Hm. destruct (decide (c ∈ ConnectionsFree s)) as [Hf|Hf]; [|done]. split; [done|]. intros Hx.
    destruct (proj1 (Hcs c)) as (y & Hy & Hpar); [by apply elem_of_app; right|]. congruence.
  - apply (wf_queue_nodup h W).
  - intros c Hc. destruct (wf_queue h W c Hc) as (x & s0 & Hx & Hs0 & Hu). destruct (decide (parent x = p)) as [Hpp|Hpp].
    + right. cbn. congruence.
    + left. split; [done|]. intros (y & Hy & Hpar)%Hcs. congruence.
Qed.

Lemma safe_drop_all_connections h p s : Inv k h → servers h !! p = Some s → safe k h (drop_all_connections p h).
Proof. intros HI Hp. destruct (drop_all_connections_spec h p s HI Hp) as (m & E & HI' & HS & _). by eexists. Qed.

(** *** Loops over servers *)
Definition allocated h (p : Z) : Prop := is_Some (servers h !! p).
Lemma skeleton_allocated h h' p : same_skeleton h h' → allocated h p → allocated h' p.
Proof. intros HS [s Hs]. destruct (same_skeleton_srv h h' p s HS Hs) as (s' & E & _). by exists s'. Qed.

Lemma skeleton_length h h' : same_skeleton h h' → length (MyHostGroups h') = length (MyHostGroups h).
Proof. intros (E & _). apply (f_equal length) in E. by rewrite !length_fmap in E. Qed.

Lemma safe_each_server (f : Z → HGM → outcome HGM) ps h :
  (∀ p h, Inv k h → allocated h p → safe k h (f p h)) →
  Inv k h → (∀ p, p ∈ ps → allocated h p) → safe k h (each_server f ps h).
Proof.
  intros Hf. revert h. induction ps as [|p ps IH]; intros h HI Hp; [by apply safe_ok|]. cbn [each_server].
  apply safe_bind; [apply Hf; [done | apply Hp; left]|]. intros h' HI' HS. apply IH; [done|].
  intros q Hq. eapply skeleton_allocated; [done|]. apply Hp. by right.
Qed.

(** A loop that visits the hostgroups by position. *)
Lemma safe_hostgroup h i : Inv k h → (i < length (MyHostGroups h))%nat →
  ∃ g, get_hgc h i = Ok g ∧ ∀ p, p ∈ mysrvs g → allocated h p.
Proof.
  intros [W _] [g Hg]%lookup_lt_is_Some. exists g. split; [by apply get_hgc_ok|]. intros p Hp.
  destruct (mysrvs_allocated h i g p W Hg Hp) as (s & E & _). by exists s.
Qed.

Lemma safe_each_hostgroup (f : Z → HGM → outcome HGM) n i h :
  (∀ p h, Inv k h → allocated h p → safe k h (f p h)) →
  Inv k h → (n + i = length (MyHostGroups h))%nat → safe k h (each_hostgroup f n i h).
Proof.
  intros Hf. revert i h. induction n as [|n IH]; intros i h HI Hn; [by apply safe_ok|]. cbn [each_hostgroup].
  destruct (safe_hostgroup h i HI) as (g & E & Hg); [lia|]. rewrite E. cbn [mbind outcome_bind].
  apply safe_bind; [by apply safe_each_server|]. intros h' HI' HS. apply IH; [done|]. rewrite (skeleton_length h h' HS). lia.
Qed.

(** *** The operations on health *)

(** Changing fields other than the status, the place and the arrays. *)
Lemma safe_field h p s s' : Inv k h → servers h !! p = Some s → skeleton_s s' = skeleton_s s →
  ConnectionsUsed s' = ConnectionsUsed s → ConnectionsFree s' = ConnectionsFree s → status s' = status s →
  safe k h (Ok (set_srv p s' h)).
Proof. intros. by eapply safe_set_srv. Qed.

Lemma safe_get_srv h p (f : MySrvC → outcome HGM) :
  allocated h p → (∀ s, servers h !! p = Some s → safe k h (f s)) → safe k h (get_srv h p ≫= f).
Proof. intros [s Hs] Hf. rewrite (get_srv_ok _ _ _ Hs). by apply Hf. Qed.

Lemma safe_unshun h p : Inv k h → allocated h p → safe k h (unshun p h).
Proof.
  intros HI [s Hs]. apply safe_bind; [by eapply safe_set_status|]. intros h' HI' HS.
  apply safe_get_srv; [eapply skeleton_allocated; [done | by exists s]|]. intros s' Hs'. by eapply safe_field.
Qed.

Lemma safe_unshun_first h addr prt t w ps :
  Inv k h → (∀ p, p ∈ ps → allocated h p) → safe k h (unshun_first h addr prt t w ps).
Proof.
  intros HI. induction ps as [|p ps IH]; intros Hp; [by apply safe_ok|]. cbn [unshun_first].
  apply safe_get_srv; [apply Hp; left|]. intros s Hs. destruct (_ && _).
  - destruct (may_unshun s t w); [apply safe_unshun; [done | by exists s] | by apply safe_ok].
  - apply IH. intros q Hq. apply Hp. by right.
Qed.

Lemma safe_unshun_loop n i addr prt t w sk h :
  Inv k h → (n + i = length (MyHostGroups h))%nat → safe k h (unshun_loop n i addr prt t w sk h).
Proof.
  revert i h. induction n as [|n IH]; intros i h HI Hn; [by apply safe_ok|]. cbn [unshun_loop].
  destruct (safe_hostgroup h i HI) as (g & E & Hg); [lia|]. rewrite E. cbn [mbind outcome_bind].
  case_bool_decide; [apply IH; [done | lia]|].
  apply safe_bind; [by apply safe_unshun_first|]. intros h' HI' HS. apply IH; [done|].
  rewrite (skeleton_length h h' HS). lia.
Qed.

Lemma safe_unshun_server_all_hostgroups h addr prt t w sk :
  Inv k h → safe k h (unshun_server_all_hostgroups addr prt t w sk h).
Proof. intros HI. apply safe_unshun_loop; [done | lia]. Qed.

Lemma safe_set_server_current_latency_us h hostname prt l : Inv k h → safe k h (set_server_current_latency_us hostname prt l h).
Proof.
  intros HI. apply safe_each_hostgroup; [|done|lia]. intros p h0 HI0 Ha. apply safe_get_srv; [done|]. intros s Hs.
  destruct (same_endpoint _ _ _); [by eapply safe_field | by apply safe_ok].
Qed.

Lemma safe_group_replication h v i addr prt lag en :
  Inv k h → (∀ j, i = Some j → (j < length (MyHostGroups h))%nat) →
  safe k h (group_replication_lag_action_set_server_status v i addr prt lag en h).
Proof.
  intros HI Hi. unfold group_replication_lag_action_set_server_status. destruct i as [i|]; [|by apply safe_ok].
  destruct addr as [addr|]; [|by apply safe_ok]. destruct (safe_hostgroup h i HI (Hi i eq_refl)) as (g & E & Hg).
  rewrite E. cbn [mbind outcome_bind]. apply safe_each_server; [|done|done].
  intros p h0 HI0 Ha. unfold group_replication_set_one. apply safe_get_srv; [done|]. intros s Hs.
  repeat case_match; (by eapply safe_set_status) || by apply safe_ok.
Qed.

Lemma safe_at_endpoint h addr prt ps : (∀ p, p ∈ ps → allocated h p) →
  ∃ l, at_endpoint h addr prt ps = Ok l ∧
    ∀ p, p ∈ l ↔ p ∈ ps ∧ ∃ s, servers h !! p = Some s ∧ same_endpoint s addr prt = true.
Proof.
  induction ps as [|p ps IH]; intros Hp; [exists []; split; [done|]; set_solver|]. cbn [at_endpoint].
  destruct (Hp p) as [s Hs]; [left|]. rewrite (get_srv_ok _ _ _ Hs). cbn [mbind outcome_bind].
  destruct IH as (l & -> & Hl); [intros q Hq; apply Hp; by right|]. cbn [mbind outcome_bind].
  eexists. split; [done|]. intros q. rewrite elem_of_cons. destruct (same_endpoint s addr prt) eqn:Es.
  - rewrite elem_of_cons, Hl. split; [intros [->|(? & ?)]; eauto|]. intros [[->|?] ?]; auto.
  - rewrite Hl. split; [intros (? & ?); auto|]. intros [[->|?] (s0 & ? & ?)]; [congruence | eauto].
Qed.

(** An update of such fields before the rest. *)
Lemma safe_field_then h p s s' r : Inv k h → servers h !! p = Some s → skeleton_s s' = skeleton_s s →
  ConnectionsUsed s' = ConnectionsUsed s → ConnectionsFree s' = ConnectionsFree s → status s' = status s →
  (Inv k (set_srv p s' h) → servers (set_srv p s' h) !! p = Some s' → safe k (set_srv p s' h) r) → safe k h r.
Proof.
  intros HI Hs Hk Hu Hf Hst Hr. destruct (safe_field h p s s') as (h1 & [= <-] & HI1 & HS1); try done.
  destruct Hr as (h2 & E & HI2 & HS2); [done | cbn; by rewrite lookup_insert_eq|]. exists h2.
  split; [done|]. split; [done | by etrans].
Qed.

Lemma safe_lag_of_server h v lag ov p : Inv k h → allocated h p → safe k h (lag_of_server v lag ov p h).
Proof.
  intros HI Ha. apply safe_get_srv; [done|]. intros s Hs. cbn zeta.
  apply (safe_field_then h p s (s <| cur_replication_lag := lag |>)); try done. intros HI1 Hs1.
  case_match; [case_match|case_match; [case_match|]].
  - match goal with |- context [set_srv p ?s2 (set_srv _ _ _)] => apply (safe_field_then _ p _ s2 _ HI1 Hs1) end; try done.
    intros HI2 Hs2.
    case_match; [by eapply safe_set_status | by apply safe_ok].
  - by eapply safe_field.
  - apply safe_bind; [by eapply safe_set_status|]. intros h2 HI2 HS2.
    apply safe_get_srv; [eapply skeleton_allocated; [done|]; by eexists|]. intros s2 Hs2. by eapply safe_field.
  - by apply safe_ok.
  - by apply safe_ok.
Qed.

Lemma safe_lag_inner h v i addr prt lag ov :
  Inv k h → (i < length (MyHostGroups h))%nat → safe k h (replication_lag_action_inner v i addr prt lag ov h).
Proof.
  intros HI Hi. unfold replication_lag_action_inner. destruct (safe_hostgroup h i HI Hi) as (g & E & Hg).
  rewrite E. cbn [mbind outcome_bind]. destruct (if _ : bool then _ else _) as [lag' ov'].
  destruct (safe_at_endpoint h addr prt (mysrvs g) Hg) as (l & El & Hl). rewrite El. cbn [mbind outcome_bind].
  destruct l as [|p l]; [by apply safe_ok|]. apply safe_lag_of_server; [done|]. apply Hg, Hl. left.
Qed.

Lemma find_hid_spec l x i j : find_hid l x i = Some j → ∃ g, (i ≤ j)%nat ∧ l !! (j - i)%nat = Some g ∧ hid g = x.
Proof.
  revert i. induction l as [|g l IH]; intros i; [done|]. cbn [find_hid]. destruct (Z.eqb_spec (hid g) x) as [<-|].
  - intros [= ->]. exists g. by rewrite Nat.sub_diag.
  - intros (g' & Hij & Hg & Hx)%IH. exists g'. split; [lia|]. by replace (j - i)%nat with (S (j - S i)) by lia.
Qed.
Lemma find_hid_None l x i : find_hid l x i = None ↔ ∀ g, g ∈ l → hid g ≠ x.
Proof.
  revert i. induction l as [|g l IH]; intros i; [split; [intros _ g H; by apply elem_of_nil in H | done]|].
  cbn [find_hid]. destruct (Z.eqb_spec (hid g) x) as [E|E].
  - split; [done|]. intros H. destruct (H g); [left | done].
  - rewrite IH. split; [intros H g' [->|?]%elem_of_cons; auto|]. intros H g' ?. apply H. by right.
Qed.

(** Either search finds the hostgroup with the number, if there is one. *)
Lemma MyHGC_find_spec h x : wf h →
  match MyHGC_find x h with
  | Some i => ∃ g, MyHostGroups h !! i = Some g ∧ hid g = x
  | None => ∀ g, g ∈ MyHostGroups h → hid g ≠ x
  end.
Proof.
  intros W. unfold MyHGC_find. destruct (length (MyHostGroups h) <? 100)%nat.
  - destruct (find_hid _ _ _) as [i|] eqn:E; [|by apply (find_hid_None _ _ 0)].
    apply find_hid_spec in E as (g & _ & Hg & Hx). rewrite Nat.sub_0_r in Hg. by exists g.
  - destruct (MyHostGroups_map h !! x) as [i|] eqn:E; [by apply (wf_map h W)|].
    intros g [i Hg]%list_elem_of_lookup_1 Hx. rewrite (proj2 (wf_map h W x i)) in E; [done | by exists g].
Qed.

Lemma MyHGC_find_lt h x i : wf h → MyHGC_find x h = Some i → (i < length (MyHostGroups h))%nat.
Proof. intros W E. pose proof (MyHGC_find_spec h x W) as H. rewrite E in H. destruct H as (g & Hg & _). by eapply lookup_lt_Some. Qed.

Lemma skeleton_hids h h' : same_skeleton h h' → (hid <$> MyHostGroups h') = (hid <$> MyHostGroups h).
Proof.
  intros (G & _). apply (f_equal (fmap (λ x : Z * list Z * attributes_t * servers_defaults_t, x.1.1.1))) in G.
  rewrite <- !list_fmap_compose in G. exact G.
Qed.
Lemma MyHGC_find_skeleton h h' x : wf h → wf h' → same_skeleton h h' → is_Some (MyHGC_find x h) → is_Some (MyHGC_find x h').
Proof.
  intros W W' HS [i E]. pose proof (MyHGC_find_spec h x W) as H. rewrite E in H. destruct H as (g & Hg & Hx).
  pose proof (MyHGC_find_spec h' x W') as H'. destruct (MyHGC_find x h') as [j|]; [by exists j|]. exfalso.
  destruct (same_skeleton_hgc h h' i g HS Hg) as (g' & Hg' & Hsk). apply (H' g'); [by apply list_elem_of_lookup_2 with i|].
  injection Hsk. congruence.
Qed.

Lemma safe_lag_all h v r n i : Inv k h → (n + i = length (MyHostGroups h))%nat → safe k h (lag_all_hostgroups v r n i h).
Proof.
  revert i h. induction n as [|n IH]; intros i h HI Hn; [by apply safe_ok|]. cbn [lag_all_hostgroups].
  apply safe_bind; [apply safe_lag_inner; [done | lia]|]. intros h' HI' HS. apply IH; [done|].
  rewrite (skeleton_length h h' HS). lia.
Qed.

(** Without grouping by host the reported hostgroups have to exist. *)
Definition known_hostgroups v h (l : list replication_lag_server_t) : Prop :=
  monitor_replication_lag_group_by_host v = false → ∀ r, r ∈ l → is_Some (MyHGC_find (rls_hostgroup_id r) h).

Lemma safe_replication_lag_action h v l : Inv k h → known_hostgroups v h l → safe k h (replication_lag_action v l h).
Proof.
  revert h. induction l as [|r l IH]; intros h HI Hk; [by apply safe_ok|]. cbn [replication_lag_action].
  apply safe_bind.
  - case_match eqn:E; [apply safe_lag_all; [done | lia]|]. destruct (Hk E r) as [i Hi]; [left|]. rewrite Hi.
    apply safe_lag_inner; [done|]. eapply MyHGC_find_lt; [apply HI | done].
  - intros h' HI' HS. apply IH; [done|]. intros E r' Hr. eapply MyHGC_find_skeleton; [apply HI|apply HI'|done|].
    apply Hk; [done | by right].
Qed.

(** *** Shunning a host *)
Lemma safe_shun_servers v hostname prt ps h t ret :
  Inv k h → (∀ p, p ∈ ps → allocated h p) →
  ∃ h' t' ret', shun_servers v hostname prt ps (h, t, ret) = Ok (h', t', ret') ∧ Inv k h' ∧ same_skeleton h h'.
Proof.
  revert h t ret. induction ps as [|p ps IH]; intros h t ret HI Hp; [by exists h, t, ret|]. cbn [shun_servers].
  assert (∀ h' t' ret', Inv k h' → same_skeleton h h' → ∃ h2 t2 ret2,
    shun_servers v hostname prt ps (h', t', ret') = Ok (h2, t2, ret2) ∧ Inv k h2 ∧ same_skeleton h h2) as IH'.
  { intros h' t' ret' HI' HS'. destruct (IH h' t' ret' HI') as (h2 & t2 & ret2 & E & HI2 & HS2).
    { intros q Hq. eapply skeleton_allocated; [done|]. apply Hp. by right. }
    exists h2, t2, ret2. split; [done|]. split; [done | by etrans]. }
  destruct (Hp p) as [s Hs]; [left|]. rewrite (get_srv_ok _ _ _ Hs). cbn [mbind outcome_bind]. clear IH.
  destruct (same_endpoint s hostname prt); [|by apply IH'].
  cbn zeta. set (b1 := status_is (status s) ONLINE || _).
  assert (safe k h (if b1 then set_status p SHUNNED h else Ok h)) as (h1 & -> & HI1 & HS1).
  { destruct b1; [by eapply safe_set_status | by apply safe_ok]. }
  cbn [mbind outcome_bind]. destruct (same_skeleton_srv h h1 p s HS1 Hs) as (s1 & Hs1 & _).
  match goal with |- context [if ?b then get_srv h1 p ≫= ?f else Ok h1] =>
    assert (safe k h1 (if b then get_srv h1 p ≫= f else Ok h1)) as (h2 & -> & HI2 & HS2) end.
  { case_match; [|by apply safe_ok]. rewrite (get_srv_ok _ _ _ Hs1). cbn [mbind outcome_bind].
    apply (safe_field_then h1 p s1 (s1 <| shunned_automatic := true |> <| shunned_and_kill_all_connections := true |>)); try done.
    intros HI2 Hs2. by eapply safe_drop_all_connections. }
  cbn [mbind outcome_bind]. destruct (same_skeleton_srv h1 h2 p s1 HS2 Hs1) as (s2 & Hs2 & _).
  rewrite (get_srv_ok _ _ _ Hs2). cbn [mbind outcome_bind].
  match goal with |- context [set_srv p ?x h2] => destruct (safe_field h2 p s2 x) as (h3 & [= <-] & HI3 & HS3); try done end.
  apply IH'; [done|]. etrans; [done|]. by etrans.
Qed.

Lemma safe_shun_loop v hostname prt n i h t ret :
  Inv k h → (n + i = length (MyHostGroups h))%nat →
  ∃ h' t' ret', shun_loop v hostname prt n i (h, t, ret) = Ok (h', t', ret') ∧ Inv k h' ∧ same_skeleton h h'.
Proof.
  revert i h t ret. induction n as [|n IH]; intros i h t ret HI Hn; [by exists h, t, ret|]. cbn [shun_loop fst].
  destruct (safe_hostgroup h i HI) as (g & E & Hg); [lia|]. rewrite E. cbn [mbind outcome_bind].
  destruct (safe_shun_servers v hostname prt (mysrvs g) h t ret HI Hg) as (h1 & t1 & ret1 & -> & HI1 & HS1).
  cbn [mbind outcome_bind]. destruct (IH (S i) h1 t1 ret1 HI1) as (h2 & t2 & ret2 & E2 & HI2 & HS2).
  { rewrite (skeleton_length h h1 HS1). lia. }
  exists h2, t2, ret2. split; [done|]. split; [done | by etrans].
Qed.

Lemma safe_shun_and_killall v hostname prt t h :
  Inv k h → ∃ h' ret, shun_and_killall v hostname prt t h = Ok (h', ret) ∧ Inv k h' ∧ same_skeleton h h'.
Proof.
  intros HI. unfold shun_and_killall. destruct (safe_shun_loop v hostname prt (length (MyHostGroups h)) 0 h t false HI)
    as (h' & t' & ret & -> & HI' & HS'); [lia|]. by exists h', ret.
Qed.

(** *** Looking servers up *)
Lemma hostgroup_or_last_in l x o g : hostgroup_or_last l x o = Some g → g ∈ l ∨ o = Some g.
Proof.
  revert o. induction l as [|g' l IH]; intros o; [by right|]. cbn [hostgroup_or_last]. destruct (_ =? _).
  - intros [= <-]. left. left.
  - intros [?|[= ->]]%IH; left; [by right | left].
Qed.

Lemma find_server_in_hg_ok h x addr prt : Inv k h →
  ∃ o, find_server_in_hg x addr prt h = Ok o ∧ ∀ p, o = Some p → ∃ s, servers h !! p = Some s ∧ same_endpoint s addr prt = true.
Proof.
  intros [W C]. unfold find_server_in_hg. destruct (hostgroup_or_last _ _ _) as [g|] eqn:Eg; [|by exists None].
  apply hostgroup_or_last_in in Eg as [[i Hg]%list_elem_of_lookup_1|]; [|done].
  destruct (safe_at_endpoint h addr prt (mysrvs g)) as (l & -> & Hl).
  { intros p Hp. destruct (mysrvs_allocated h i g p W Hg Hp) as (s & E & _). by exists s. }
  cbn [mbind outcome_bind]. exists (last l). split; [done|]. intros p (l' & ->)%last_Some.
  apply (Hl p), elem_of_app. right. left.
Qed.

Lemma safe_remove_server_in_hg h x addr prt :
  Inv k h → ∃ h' r, remove_server_in_hg x addr prt h = Ok (h', r) ∧ Inv k h' ∧ same_skeleton h h'.
Proof.
  intros HI. unfold remove_server_in_hg. destruct (find_server_in_hg_ok h x addr prt HI) as (o & -> & Ho).
  cbn [mbind outcome_bind]. destruct o as [p|]; [|by exists h, (-1)]. destruct (Ho p eq_refl) as (s & Hs & _).
  destruct (set_status_spec h p s OFFLINE_HARD HI Hs) as (h1 & -> & HI1 & HS1 & E1 & _).
  cbn [mbind outcome_bind]. destruct (safe_drop_all_connections h1 p (s <| status := OFFLINE_HARD |>) HI1) as (h2 & -> & HI2 & HS2).
  { rewrite E1. by rewrite lookup_insert_eq. }
  exists h2, 0. split; [done|]. split; [done | by etrans].
Qed.

(** *** Adding servers and hostgroups *)
Lemma count_online_nil h : count_online h [] = Ok 0.
Proof. done. Qed.

Lemma MyHGC_lookup_spec h x : Inv k h → ∃ i h' g,
  MyHGC_lookup x h = (i, h') ∧ Inv k h' ∧ servers h' = servers h ∧ conns h' = conns h ∧ queue h' = queue h ∧
  MyHostGroups h' !! i = Some g ∧ hid g = x ∧ (MyHostGroups h !! i = Some g ∨ mysrvs g = []).
Proof.
  intros HI. pose proof (MyHGC_find_spec h x (proj1 HI)) as Hf. unfold MyHGC_lookup. destruct (MyHGC_find x h) as [i|].
  { destruct Hf as (g & Hg & Hx). exists i, h, g. split_and!; auto; apply HI. }
  destruct HI as [W C]. assert (Hm : MyHostGroups_map h !! x = None).
  { destruct (MyHostGroups_map h !! x) as [j|] eqn:E; [|done]. apply (wf_map h W) in E as (g & Hg & Hx).
    by destruct (Hf g); [apply list_elem_of_lookup_2 with j|]. }
  rewrite Hm. eexists _, _, (new_MyHGC x). split; [done|].
  assert (Hl : ∀ j g, (MyHostGroups h ++ [new_MyHGC x]) !! j = Some g ↔
    MyHostGroups h !! j = Some g ∨ (j = length (MyHostGroups h) ∧ g = new_MyHGC x)).
  { intros j g. rewrite lookup_app_Some. split.
    - intros [?|[Hj Hg]]; [by left|]. right. apply list_lookup_singleton_Some in Hg as [Hj' <-]. split; [lia | done].
    - intros [?|[-> ->]]; [by left|]. right. split; [lia|]. by rewrite Nat.sub_diag. }
  split; [|cbn; repeat split; auto; apply Hl; by right]. split.
  - destruct W. split; cbn; try done.
    + intros i p. rewrite <- wf_servers0. split.
      * intros (g & [Hg|[-> ->]]%Hl & Hp); [by exists g | by apply elem_of_nil in Hp].
      * intros (g & Hg & Hp). exists g. split; [apply Hl; by left | done].
    + intros i g [Hg|[-> ->]]%Hl; [by eapply wf_arrays0 | apply NoDup_nil_2].
    + intros y j. destruct (decide (y = x)) as [->|Hy].
      * rewrite lookup_insert_eq. split.
        -- intros [= <-]. exists (new_MyHGC x). split; [apply Hl; by right | done].
        -- intros (g & [Hg|[-> ->]]%Hl & Hx); [|done]. by destruct (Hf g); [apply list_elem_of_lookup_2 with j|].
      * rewrite lookup_insert_ne, wf_map0 by done. split; intros (g & Hg & Hx); exists g.
        -- split; [apply Hl; by left | done].
        -- apply Hl in Hg as [?|[_ ->]]; [done|]. by destruct Hy.
  - intros E. destruct (C E) as [Hd Hc]. split; [done|]. intros i g [Hg|[-> ->]]%Hl; [|done].
    rewrite <- (Hc i g Hg). by apply count_online_servers.
Qed.

(** A server without connections is appended to a hostgroup. *)
Lemma wf_append h p s i g :
  wf h → servers h !! p = None → MyHostGroups h !! i = Some g → myhgc s = Some i → all_conns s = [] →
  wf (set_hgc i (g <| mysrvs := mysrvs g ++ [p] |>) (set_srv p s h)).
Proof.
  intros W Hp Hg Hi Ha. set (g1 := g <| mysrvs := mysrvs g ++ [p] |>).
  assert (Hil : (i < length (MyHostGroups h))%nat) by (by eapply lookup_lt_Some).
  assert (Hl : ∀ j x, <[i := g1]> (MyHostGroups h) !! j = Some x ↔ (j = i ∧ x = g1) ∨ (j ≠ i ∧ MyHostGroups h !! j = Some x)).
  { intros j x. destruct (decide (j = i)) as [->|Hj].
    - rewrite list_lookup_insert_eq by done. split; [intros [= <-]; by left|]. by intros [[_ ->]|[? _]].
    - rewrite list_lookup_insert_ne by done. split; [by right|]. by intros [[? _]|[_ ?]]. }
  assert (Hnp : ∀ j, ¬ in_hgc h j p). { intros j (s0 & E & _)%(wf_servers h W). congruence. }
  assert (Hpar : ∀ c x, conns h !! c = Some x → parent x ≠ p).
  { intros c x Hc <-. apply (wf_parent h W) in Hc as [? ?]. congruence. }
  destruct W. split; cbn; try done.
  - intros j q. unfold in_hgc. cbn. destruct (decide (q = p)) as [->|Hq].
    + rewrite lookup_insert_eq. split.
      * intros (x & [[-> ->]|[Hj Hx]]%Hl & Hin); [by exists s|]. destruct (Hnp j). by exists x.
      * intros (s0 & [= <-] & Hj). exists g1. split; [apply Hl; left; split; [congruence | done]|]. apply elem_of_app. right. left.
    + rewrite lookup_insert_ne by done. rewrite <- wf_servers0. split.
      * intros (x & [[-> ->]|[Hj Hx]]%Hl & Hin); [exists g|by exists x]. split; [done|].
        apply elem_of_app in Hin as [?|?%list_elem_of_singleton]; done.
      * intros (x & Hx & Hin). destruct (decide (j = i)) as [->|Hj]; [exists g1|exists x].
        -- split; [apply Hl; by left|]. apply elem_of_app. left. congruence.
        -- split; [apply Hl; by right | done].
  - intros q s0. destruct (decide (q = p)) as [->|]; [|rewrite lookup_insert_ne by done; apply wf_owned0].
    rewrite lookup_insert_eq. intros [= <-]. by exists i.
  - intros j x [[-> ->]|[Hj Hx]]%Hl; [|by eapply wf_arrays0]. apply NoDup_app. split; [by eapply wf_arrays0|].
    split; [|apply NoDup_singleton]. intros q Hq ->%list_elem_of_singleton. destruct (Hnp i). by exists g.
  - intros y j. rewrite wf_map0. split; intros (x & Hx & Hy).
    + destruct (decide (j = i)) as [->|Hj]; [exists g1; split; [apply Hl; by left | cbn; congruence]|].
      exists x. split; [apply Hl; by right | done].
    + apply Hl in Hx as [[-> ->]|[Hj Hx]]; [by exists g | by exists x].
  - intros q s0. destruct (decide (q = p)) as [->|]; [|rewrite lookup_insert_ne by done; apply wf_conns0].
    rewrite lookup_insert_eq. intros [= <-]. rewrite Ha. split; [apply NoDup_nil_2|]. intros c.
    rewrite elem_of_nil. split; [done|]. intros (x & Hx & E). by apply Hpar in Hx.
  - intros c x Hc. pose proof (Hpar c x Hc). rewrite lookup_insert_ne by done. by apply wf_parent0 in Hc.
  - intros c Hc. destruct (wf_queue0 c Hc) as (x & s0 & E1 & E2 & E3). exists x, s0.
    rewrite lookup_insert_ne; [done|]. intros E. by eapply Hpar.
Qed.

(** A server just allocated, in the array of a hostgroup. *)
Lemma srvlist_add_spec h p s i g :
  Inv k h → servers h !! p = None → myhgc s = None → all_conns s = [] → MyHostGroups h !! i = Some g →
  ∃ h', srvlist_add i p (set_srv p s h) = Ok h' ∧ Inv k h' ∧ servers h' = <[p := s <| myhgc := Some i |>]> (servers h) ∧
    (hid <$> MyHostGroups h') = (hid <$> MyHostGroups h).
Proof.
  intros [W1 C1] Hp Hm Ha Hg. unfold srvlist_add, get_srv, get_hgc. cbn [set_srv servers MyHostGroups]. cbn. rewrite lookup_insert_eq. cbn [mbind outcome_bind]. rewrite Hm. cbn. rewrite Hg. cbn [mbind outcome_bind].
  set (s1 := s <| myhgc := Some i |>). set (g1 := g <| mysrvs := mysrvs g ++ [p] |>).
  match goal with |- context [refresh_online_server_count i ?H] => set (h2 := H) end.
  assert (W2 : wf h2).
  { replace h2 with (set_hgc i g1 (set_srv p s1 h)); [by apply wf_append|]. subst h2. unfold set_hgc, set_srv. cbn. by rewrite insert_insert_eq. }
  assert (Es2 : servers h2 = <[p := s1]> (servers h)) by (subst h2; cbn; by rewrite insert_insert_eq).
  assert (Hg2 : MyHostGroups h2 !! i = Some g1) by (cbn; apply list_lookup_insert_eq; by eapply lookup_lt_Some).
  destruct (refresh_spec h2 i g1 W2 Hg2) as (h3 & E3 & HI3 & HS3 & Es3 & _).
  - intros Hk. destruct (C1 Hk) as [Hd Hc]. split; [done|]. intros j y Hj. cbn. rewrite list_lookup_insert_ne by done.
    intros Hy. rewrite <- (Hc j y Hy). apply count_online_ext. intros q Hq.
    destruct (mysrvs_allocated h j y q W1 Hy Hq) as (s0 & Hs0 & _). exists s0, s0. split; [done|]. split; [|done].
    rewrite Es2, lookup_insert_ne; [done|]. intros <-. congruence.
  - exists h3. split; [done|]. split; [done|]. split; [by rewrite Es3|]. rewrite (skeleton_hids _ _ HS3). cbn. rewrite list_fmap_insert.
    apply list_insert_id. by rewrite list_lookup_fmap, Hg.
Qed.
(** [add] of a server just allocated. *)
Lemma add_server_spec h p s x :
  Inv k h → servers h !! p = None → myhgc s = None → all_conns s = [] →
  ∃ h', add p x (set_srv p s h) = Ok h' ∧ Inv k h' ∧ ∃ s', servers h' !! p = Some s' ∧ status s' = status s ∧
    ∃ i g, myhgc s' = Some i ∧ MyHostGroups h' !! i = Some g ∧ hid g = x.
Proof.
  intros HI Hp Hm Ha. destruct (MyHGC_lookup_spec h x HI) as (i & h1 & g & E & HI1 & Es & _ & _ & Hg & Hx & _).
  assert (E' : MyHGC_lookup x (set_srv p s h) = (i, set_srv p s h1)).
  { revert E. unfold MyHGC_lookup. change (MyHGC_find x (set_srv p s h)) with (MyHGC_find x h).
    destruct (MyHGC_find x h) as [j|]; [by intros [= <- <-]|]. intros [= <- <-]. unfold set_srv. done. }
  unfold add. rewrite E'. unfold get_srv, get_hgc. cbn [set_srv servers MyHostGroups]. cbn. rewrite lookup_insert_eq. cbn [mbind outcome_bind]. rewrite Hg. cbn [mbind outcome_bind].
  set (s1 := update_hg_attrs_server_defaults s (servers_defaults g)).
  replace (set_srv p s1 (set_srv p s h1)) with (set_srv p s1 h1) by (unfold set_srv; cbn; by rewrite insert_insert_eq).
  destruct (srvlist_add_spec h1 p s1 i g) as (h3 & -> & HI3 & Es3 & Eh3); try done; [by rewrite Es|].
  exists h3. split; [done|]. split; [done|]. exists (s1 <| myhgc := Some i |>). rewrite Es3, lookup_insert_eq. split; [done|]. split; [done|].
  assert ((hid <$> MyHostGroups h3) !! i = Some x) as Hi by (rewrite Eh3, list_lookup_fmap, Hg; cbn; by rewrite Hx).
  rewrite list_lookup_fmap in Hi. destruct (MyHostGroups h3 !! i) as [g3|] eqn:Hg3; [|done]. injection Hi as Hi. by exists i, g3.
Qed.

Lemma create_new_server_in_hg_spec h p x addr prt w mc ssl :
  Inv k h → servers h !! p = None →
  ∃ h' r, create_new_server_in_hg p x addr prt w mc ssl h = Ok (h', r) ∧ Inv k h'.
Proof.
  intros HI Hp. unfold create_new_server_in_hg. destruct (find_server_in_hg_ok h x addr prt HI) as (o & -> & Ho).
  cbn [mbind outcome_bind]. destruct o as [q|].
  - destruct (Ho q eq_refl) as (s & Hs & _). rewrite (get_srv_ok _ _ _ Hs). cbn [mbind outcome_bind].
    destruct (status_is _ _); [|by exists h, (-1)]. cbn zeta.
    destruct (owner_allocated h q s (proj1 HI) Hs) as (i & g & Hi & Hg & _).
    change (myhgc (reset_hg_attrs_server_defaults s)) with (myhgc s). rewrite Hi, (get_hgc_ok _ _ _ Hg). cbn [mbind outcome_bind].
    set (s1 := update_hg_attrs_server_defaults _ _).
    destruct (safe_field h q s s1) as (h1 & [= <-] & HI1 & _); try done.
    destruct (safe_set_status (set_srv q s1 h) q s1 ONLINE HI1) as (h2 & -> & HI2 & _); [cbn; by rewrite lookup_insert_eq|].
    by exists h2, 0.
  - destruct (add_server_spec h p (new_MySrvC addr prt 0 w ONLINE 0 mc 0 ssl 0 []) x) as (h1 & -> & HI1 & _); try done. by exists h1, 0.
Qed.

(** *** Purging *)
Definition is_online h (p : Z) : bool := match servers h !! p with Some s => status_is (status s) ONLINE | None => false end.

Lemma count_online_filter h ps : (∀ p, p ∈ ps → allocated h p) →
  count_online h ps = Ok (Z.of_nat (length (filter (λ p, is_online h p = true) ps))).
Proof.
  induction ps as [|p ps IH]; intros Hp; [done|]. cbn [count_online]. destruct (Hp p) as [s Hs]; [left|].
  rewrite (get_srv_ok _ _ _ Hs). cbn [mbind outcome_bind]. rewrite IH by (intros q Hq; apply Hp; by right).
  cbn [mbind outcome_bind]. f_equal. rewrite filter_cons.
  assert (is_online h p = status_is (status s) ONLINE) as Ho by (unfold is_online; by rewrite Hs).
  destruct (decide (is_online h p = true)) as [D|D]; rewrite Ho in D; destruct (status_is _ _); cbn [length]; done || lia.
Qed.

Definition purgeable s : bool :=
  status_is (status s) OFFLINE_HARD && bool_decide (ConnectionsUsed s = []) && bool_decide (ConnectionsFree s = []).
Definition with_array h (i : nat) (l : list Z) : HGM :=
  match MyHostGroups h !! i with Some g => set_hgc i (g <| mysrvs := l |>) h | None => h end.

Lemma with_array_lookup h i l g j x : MyHostGroups h !! i = Some g →
  MyHostGroups (with_array h i l) !! j = Some x ↔
  (j = i ∧ x = g <| mysrvs := l |>) ∨ (j ≠ i ∧ MyHostGroups h !! j = Some x).
Proof.
  intros Hg. unfold with_array. rewrite Hg. cbn. destruct (decide (j = i)) as [->|Hj].
  - rewrite list_lookup_insert_eq by (by eapply lookup_lt_Some). split; [intros [= <-]; by left|]. by intros [[_ ->]|[? _]].
  - rewrite list_lookup_insert_ne by done. split; [by right|]. by intros [[? _]|[_ ?]].
Qed.

Lemma purge_step_wf h i g l l' p s :
  MyHostGroups h !! i = Some g → wf (with_array h i l) → l ≡ₚ p :: l' → servers h !! p = Some s → all_conns s = [] →
  wf (with_array (h <| servers := delete p (servers h) |>) i l').
Proof.
  intros Hg W Hl Hp Ha. set (h' := h <| servers := delete p (servers h) |>).
  pose proof (λ l j x, with_array_lookup h i l g j x Hg) as L.
  assert (L' : ∀ l j x, MyHostGroups (with_array h' i l) !! j = Some x ↔
    (j = i ∧ x = g <| mysrvs := l |>) ∨ (j ≠ i ∧ MyHostGroups h !! j = Some x)) by (intros; by apply (with_array_lookup h')).
  assert (E : ∀ l, servers (with_array h i l) = servers h ∧ conns (with_array h i l) = conns h ∧ queue (with_array h i l) = queue h
    ∧ MyHostGroups_map (with_array h i l) = MyHostGroups_map h) by (intros; unfold with_array; by rewrite Hg).
  assert (E' : ∀ l, servers (with_array h' i l) = delete p (servers h) ∧ conns (with_array h' i l) = conns h ∧
    queue (with_array h' i l) = queue h ∧ MyHostGroups_map (with_array h' i l) = MyHostGroups_map h).
  { intros l0. unfold with_array. change (MyHostGroups h') with (MyHostGroups h). by rewrite Hg. }
  destruct (E l) as (E1 & E2 & E3 & E4), (E' l') as (E1' & E2' & E3' & E4'). clear E E'.
  assert (Hnd : NoDup (p :: l')).
  { rewrite <- Hl. change (NoDup (mysrvs (g <| mysrvs := l |>))). apply (wf_arrays _ W i), L. by left. }
  apply NoDup_cons in Hnd as [Hpl Hnd].
  assert (Hpi : myhgc s = Some i).
  { assert (in_hgc (with_array h i l) i p) as (s0 & Hs0 & Hm)%(wf_servers _ W); [|rewrite E1 in Hs0; congruence].
    eexists. split; [apply L; by left|]. cbn. rewrite Hl. left. }
  assert (Hc0 : ∀ c x, conns h !! c = Some x → parent x ≠ p).
  { intros c x Hx E. destruct (wf_conns _ W p s) as [_ H]; [by rewrite E1|]. rewrite Ha in H.
    apply (elem_of_nil c). apply H. rewrite E2. by exists x. }
  destruct W. split; rewrite ?E1', ?E2', ?E3', ?E4'; rewrite ?E1, ?E2, ?E3, ?E4 in *; try done.
  - intros j q. destruct (decide (q = p)) as [->|Hq].
    + rewrite lookup_delete_eq. split; [|by intros (? & ? & _)]. intros (x & [[-> ->]|[Hj Hx]]%L' & Hin); [done|]. exfalso.
      assert (in_hgc (with_array h i l) j p) as (s0 & Hs0 & Hm)%wf_servers0; [|congruence].
      exists x. split; [apply L; by right | done].
    + rewrite lookup_delete_ne by done. rewrite <- wf_servers0. unfold in_hgc. split.
      * intros (x & [[-> ->]|[Hj Hx]]%L' & Hin).
        -- eexists. split; [apply L; by left|]. cbn. rewrite Hl. by right.
        -- exists x. split; [apply L; by right | done].
      * intros (x & [[-> ->]|[Hj Hx]]%L & Hin).
        -- eexists. split; [apply L'; by left|]. cbn in *. rewrite Hl in Hin. by apply elem_of_cons in Hin as [?|?].
        -- exists x. split; [apply L'; by right | done].
  - intros q s0. rewrite lookup_delete_Some. intros [_ Hs0]. by eapply wf_owned0.
  - intros j x [[-> ->]|[Hj Hx]]%L'; [done|]. apply (wf_arrays0 j). apply L. by right.
  - intros y j. rewrite wf_map0. split; intros (x & [[-> ->]|[Hj Hx]]%L & Hy) || intros (x & [[-> ->]|[Hj Hx]]%L' & Hy).
    + eexists. split; [apply L'; by left | done].
    + exists x. split; [apply L'; by right | done].
    + eexists. split; [apply L; by left | done].
    + exists x. split; [apply L; by right | done].
  - intros q s0. rewrite lookup_delete_Some. intros [_ Hs0]. by apply wf_conns0.
  - intros c x Hx. rewrite lookup_delete_ne; [by eapply wf_parent0|]. intros E. by eapply Hc0.
  - intros c Hc. destruct (wf_queue0 c Hc) as (x & s0 & Hx & Hs0 & Hu). exists x, s0. rewrite lookup_delete_ne; [done|].
    intros E. by eapply Hc0.
Qed.

Lemma purge_step_counted h i g l l' p s :
  MyHostGroups h !! i = Some g → wf (with_array h i l) → l ≡ₚ p :: l' → servers h !! p = Some s → status s = OFFLINE_HARD →
  counted (with_array h i l) → counted (with_array (h <| servers := delete p (servers h) |>) i l').
Proof.
  intros Hg W Hl Hp Hs [Hd Hc]. set (h' := h <| servers := delete p (servers h) |>).
  pose proof (λ j x, with_array_lookup h i l g j x Hg) as L. pose proof (λ j x, with_array_lookup h' i l' g j x Hg) as L'.
  assert (E : servers (with_array h i l) = servers h) by (unfold with_array; by rewrite Hg).
  assert (E' : servers (with_array h' i l') = delete p (servers h)).
  { unfold with_array. change (MyHostGroups h') with (MyHostGroups h). by rewrite Hg. }
  assert (Ho : ∀ q, q ≠ p → is_online (with_array h' i l') q = is_online (with_array h i l) q).
  { intros q Hq. unfold is_online. by rewrite E, E', lookup_delete_ne. }
  assert (Hal : ∀ j x q, MyHostGroups (with_array h i l) !! j = Some x → q ∈ mysrvs x → allocated (with_array h i l) q ∧
    (q ≠ p → allocated (with_array h' i l') q)).
  { intros j x q Hx Hq. destruct (mysrvs_allocated _ j x q W Hx Hq) as (s0 & Hs0 & _). split; [by exists s0|].
    intros Hne. exists s0. rewrite E', lookup_delete_ne by done. congruence. }
  assert (Hi : MyHostGroups (with_array h i l) !! i = Some (g <| mysrvs := l |>)) by (apply L; by left).
  assert (Hnd : NoDup (p :: l')).
  { rewrite <- Hl. change (NoDup (mysrvs (g <| mysrvs := l |>))). by apply (wf_arrays _ W i). }
  apply NoDup_cons in Hnd as [Hpl _].
  split; [unfold with_array; change (MyHostGroups h') with (MyHostGroups h); unfold with_array in Hd; by rewrite Hg in *|].
  intros j x Hx. apply L' in Hx as [[-> ->]|[Hj Hx]].
  - specialize (Hc i _ Hi). cbn [mysrvs] in Hc. cbn in Hc |- *. rewrite count_online_filter in Hc.
    2: { intros q Hq. by eapply (Hal i). }
    rewrite count_online_filter.
    2: { intros q Hq. apply (Hal i _ q Hi); [cbn; rewrite Hl; by right|]. by intros ->. }
    rewrite <- Hc. rewrite Hl, filter_cons_False.
    2: { unfold is_online. rewrite E, Hp. unfold status_is. by rewrite Hs. }
    do 3 f_equal. apply list_filter_iff_in. intros q Hq. rewrite Ho; [done|]. by intros ->.
  - assert (Hx0 : MyHostGroups (with_array h i l) !! j = Some x) by (apply L; by right).
    assert (Hnp : p ∉ mysrvs x).
    { intros Hq. destruct (mysrvs_allocated _ j x p W Hx0 Hq) as (s0 & Hs0 & Hm).
      destruct (mysrvs_allocated _ i _ p W Hi) as (s1 & Hs1 & Hm1); [cbn; rewrite Hl; left|]. congruence. }
    rewrite <- (Hc j x Hx0). rewrite !count_online_filter.
    + do 3 f_equal. apply list_filter_iff_in. intros q Hq. rewrite Ho; [done|]. by intros ->.
    + intros q Hq. by eapply (Hal j).
    + intros q Hq. eapply (Hal j); [done|done|]. by intros ->.
Qed.

(** What is left of the servers when those of a list are purged. *)
Definition left_after h (l : list Z) (q : Z) : option MySrvC :=
  s ← servers h !! q; if bool_decide (q ∈ l) && purgeable s then None else Some s.

Lemma purge_array_spec i g fuel h j l :
  MyHostGroups h !! i = Some g → Inv k (with_array h i l) →
  (∀ p s, p ∈ take j l → servers h !! p = Some s → purgeable s = false) → (j ≤ length l)%nat → (length l - j < fuel)%nat →
  ∃ h' l', purge_array fuel h j l = Ok (h', l') ∧ MyHostGroups h' = MyHostGroups h ∧ Inv k (with_array h' i l') ∧
    ∀ q, servers h' !! q = left_after h l q.
Proof.
  revert h j l. induction fuel as [|fuel IH]; intros h j l Hg HI Hj Hjl Hf; [lia|]. cbn [purge_array].
  destruct (l !! j) as [p|] eqn:Hp.
  2: { apply lookup_ge_None in Hp. exists h, l. split; [done|]. split; [done|]. split; [done|]. intros q. unfold left_after.
       destruct (servers h !! q) as [s|] eqn:Hs; [|done]. cbn. rewrite take_ge in Hj by done.
       case_bool_decide; [|done]. by rewrite (Hj q s). }
  assert (Hjlt : (j < length l)%nat) by (by eapply lookup_lt_Some).
  assert (exists s, servers h !! p = Some s) as [s Hs].
  { destruct (mysrvs_allocated _ i (g <| mysrvs := l |>) p (proj1 HI)) as (s & E & _).
    - apply (with_array_lookup h i l g); [done | by left].
    - by apply list_elem_of_lookup_2 with j.
    - exists s. revert E. unfold with_array. by rewrite Hg. }
  rewrite (get_srv_ok _ _ _ Hs). cbn [mbind outcome_bind]. fold (purgeable s). destruct (purgeable s) eqn:Hpu.
  - destruct (swap_remove_is_Some j l Hjlt) as (p' & l1 & Hsw & Hp'). assert (p' = p) as -> by congruence.
    unfold array_remove. rewrite Hsw. cbn [mbind outcome_bind]. pose proof (swap_remove_perm _ _ _ _ Hsw) as Hl.
    pose proof (swap_remove_length _ _ _ _ Hsw) as Hlen. unfold purgeable in Hpu.
    apply andb_prop in Hpu as [[Hst Hu]%andb_prop Hfr]. apply bool_decide_eq_true in Hst, Hu, Hfr.
    assert (Hnd : NoDup (p :: l1)).
    { rewrite <- Hl. change (NoDup (mysrvs (g <| mysrvs := l |>))).
      apply (wf_arrays _ (proj1 HI) i), (with_array_lookup h i l g); [done | by left]. }
    apply NoDup_cons in Hnd as [Hpl _].
    destruct (IH (h <| servers := delete p (servers h) |>) j l1) as (h' & l' & E & Em & HI' & Hq).
    + done.
    + split; [eapply purge_step_wf; [done|apply HI|done|done|]; unfold all_conns; by rewrite Hu, Hfr|].
      intros Hk. eapply purge_step_counted; [done|apply HI|done|done|done|]. by apply HI.
    + intros q s0 Hq Hs0. cbn in Hs0. apply lookup_delete_Some in Hs0 as [_ Hs0].
      rewrite (swap_remove_take _ _ _ _ Hsw) in Hq. by eapply Hj.
    + lia.
    + lia.
    + exists h', l'. split; [done|]. split; [done|]. split; [done|]. intros q. rewrite Hq. unfold left_after. cbn.
      destruct (decide (q = p)) as [->|Hne].
      * rewrite lookup_delete_eq, Hs. cbn. rewrite bool_decide_true by (rewrite Hl; left).
        unfold purgeable. rewrite Hst, Hu, Hfr. done.
      * rewrite lookup_delete_ne by done. destruct (servers h !! q) as [s0|]; [|done]. cbn.
        rewrite (bool_decide_ext (q ∈ l1) (q ∈ l)); [done|]. rewrite Hl, elem_of_cons. intuition done.
  - apply IH; [done|done| |lia|lia]. intros q s0 Hq Hs0. rewrite (take_S_r l j p Hp) in Hq.
    apply elem_of_app in Hq as [Hq| ->%list_elem_of_singleton]; [by eapply Hj | congruence].
Qed.

Lemma with_array_same h i g : MyHostGroups h !! i = Some g → with_array h i (mysrvs g) = h.
Proof.
  intros Hg. unfold with_array. rewrite Hg. destruct h, g. unfold set_hgc. cbn in *. by rewrite list_insert_id.
Qed.

Lemma purge_loop_spec n i h :
  Inv k h → (n + i = length (MyHostGroups h))%nat →
  (∀ p s j, servers h !! p = Some s → myhgc s = Some j → (j < i)%nat → purgeable s = false) →
  ∃ h', purge_loop n i h = Ok h' ∧ Inv k h' ∧
    ∀ q, servers h' !! q = s ← servers h !! q; if purgeable s then None else Some s.
Proof.
  revert i h. induction n as [|n IH]; intros i h HI Hn Hb.
  { exists h. split; [done|]. split; [done|]. intros q. destruct (servers h !! q) as [s|] eqn:Hs; [|done]. cbn.
    destruct (owner_allocated h q s (proj1 HI) Hs) as (j & g & Hj & Hg & _). apply lookup_lt_Some in Hg.
    rewrite (Hb q s j); [done|done|done|lia]. }
  cbn [purge_loop]. destruct (lookup_lt_is_Some_2 (MyHostGroups h) i) as [g Hg]; [lia|].
  rewrite (get_hgc_ok _ _ _ Hg). cbn [mbind outcome_bind].
  destruct (purge_array_spec i g (S (length (mysrvs g))) h 0 (mysrvs g)) as (h1 & l1 & -> & Em & HI1 & Hq1).
  { done. } { by rewrite with_array_same. } { intros p s Hp. by apply elem_of_nil in Hp. } { lia. } { lia. }
  cbn [mbind outcome_bind].
  assert (Ew : with_array h1 i l1 = set_hgc i (g <| mysrvs := l1 |>) h1) by (unfold with_array; by rewrite Em, Hg).
  rewrite Ew in HI1.
  assert (Hleft : ∀ q s, left_after h (mysrvs g) q = Some s → servers h !! q = Some s ∧ (myhgc s = Some i → purgeable s = false)).
  { intros q s. unfold left_after. destruct (servers h !! q) as [s0|] eqn:Hs0; [|done]. cbn.
    case_bool_decide as Hin; destruct (purgeable s0) eqn:Hpu; cbn; intros [= <-]; split; auto.
    intros Hi. destruct Hin. destruct (owner_allocated h q s0 (proj1 HI) Hs0) as (j & g' & Hj & Hg' & Hin').
    assert (j = i) as -> by congruence. congruence. }
  destruct (IH (S i) (set_hgc i (g <| mysrvs := l1 |>) h1)) as (h' & E & HI' & Hq').
  { done. } { cbn. rewrite length_insert, Em. lia. }
  { intros p s j Hp Hj Hlt. cbn in Hp. rewrite Hq1 in Hp. apply Hleft in Hp as [Hp Hi].
    destruct (decide (j = i)) as [->|Hne]; [by apply Hi|]. apply (Hb p s j); [done|done|lia]. }
  exists h'. split; [done|]. split; [done|]. intros q. rewrite Hq'. cbn. rewrite Hq1. unfold left_after.
  destruct (servers h !! q) as [s|]; [|done]. cbn. case_bool_decide; cbn; destruct (purgeable s) eqn:E'; cbn; by rewrite ?E'.
Qed.

Lemma purge_servers_spec h : Inv k h → ∃ h', purge_mysql_servers_table h = Ok h' ∧ Inv k h' ∧
  ∀ q, servers h' !! q = s ← servers h !! q; if purgeable s then None else Some s.
Proof. intros HI. apply purge_loop_spec; [done|lia|]. intros. lia. Qed.

End Safe.

(** ** Histories *)

(** Direct writes of the status are the operations that skip the count. *)
Inductive op :=
  | OpCreate (p hid : Z) (addr : list Z) (port weight max_conns ssl : Z)
  | OpRemove (hid : Z) (addr : list Z) (port : Z)
  | OpPurge
  | OpLookup (hid : Z)
  | OpStatus (p : Z) (st : MySerStatus)
  | OpUnshun (addr : list Z) (port t max_wait_sec : Z) (skip_hid : option Z)
  | OpShunHost (hostname : list Z) (port t : Z)
  | OpLatency (hostname : list Z) (port latency : Z)
  | OpLag (l : list replication_lag_server_t)
  | OpGroupReplication (hid : Z) (addr : option (list Z)) (port lag_count : Z) (enable : bool)
  | OpConnectError (p err t : Z)
  | OpShunAndKillAll (p : Z).

Definition exec (v : variables) (o : op) (h : HGM) : outcome HGM :=
  match o with
  | OpCreate p x addr prt w mc ssl => fst <$> create_new_server_in_hg p x addr prt w mc ssl h
  | OpRemove x addr prt => fst <$> remove_server_in_hg x addr prt h
  | OpPurge => purge_mysql_servers_table h
  | OpLookup x => Ok (snd (MyHGC_lookup x h))
  | OpStatus p st => set_status p st h
  | OpUnshun addr prt t w sk => unshun_server_all_hostgroups addr prt t w sk h
  | OpShunHost hostname prt t => fst <$> shun_and_killall v hostname prt t h
  | OpLatency hostname prt l => set_server_current_latency_us hostname prt l h
  | OpLag l => replication_lag_action v l h
  | OpGroupReplication x addr prt lag en =>
      group_replication_lag_action_set_server_status v (MyHGC_find x h) addr prt lag en h
  | OpConnectError p err t => connect_error v p err t h
  | OpShunAndKillAll p => srv_shun_and_killall p h
  end.

(** What the callers guarantee: a new object is new, a server in use exists. *)
Definition permitted (v : variables) (h : HGM) (o : op) : Prop :=
  match o with
  | OpCreate p _ _ _ _ _ _ => servers h !! p = None
  | OpStatus p _ | OpConnectError p _ _ | OpShunAndKillAll p => allocated h p
  | OpLag l => known_hostgroups v h l
  | _ => True
  end.
Definition through_set_status (o : op) : bool :=
  match o with OpConnectError _ _ _ | OpShunAndKillAll _ => false | _ => true end.

Inductive history (v : variables) : HGM → list op → HGM → Prop :=
  | history_nil h : history v h [] h
  | history_cons h h1 h2 o l : permitted v h o → exec v o h = Ok h1 → history v h1 l h2 → history v h (o :: l) h2.

Definition init_HGM : HGM := mk_hgm [] ∅ ∅ ∅ [] (mk_counters 0 0 0 0 0 0 0 0 0) false.

Lemma Inv_init k : Inv k init_HGM.
Proof.
  assert (Hn : ∀ i g, MyHostGroups init_HGM !! i = Some g → False) by (intros i g H; cbn in H; by rewrite lookup_nil in H).
  assert (Hs : ∀ p s, servers init_HGM !! p = Some s → False) by (intros p s H; cbn in H; by rewrite lookup_empty in H).
  split; [|intros _; split; [done|]; intros i g H; by destruct (Hn i g)].
  split; try (intros; exfalso; by eauto).
  - intros i p. split; [intros (g & Hg & _) | intros (s & H & _)]; exfalso; eauto.
  - intros x i. split; [done|]. intros (g & Hg & _). exfalso. eauto.
  - intros c H. by apply elem_of_nil in H.
  - apply NoDup_nil_2.
Qed.

Lemma Inv_weaken k h : Inv k h → Inv false h.
Proof. by intros [W _]. Qed.

Lemma safe_direct h p s s' : Inv false h → servers h !! p = Some s → same_place s s' → Inv false (set_srv p s' h).
Proof. intros [W _] Hs Hp. split; [by eapply wf_set_srv | done]. Qed.

Lemma Inv_stats k h x : Inv k h → Inv k (h <| stats := x |>).
Proof.
  intros [[] C]. split; [by split|]. intros Hk. destruct (C Hk) as [Hd Hc]. split; [done|]. intros i g Hg.
  rewrite <- (Hc i g Hg). by apply count_online_servers.
Qed.

Lemma connect_error_wf v p e t h : Inv false h → allocated h p → ∃ h', connect_error v p e t h = Ok h' ∧ Inv false h'.
Proof.
  intros HI [s Hs]. unfold connect_error. rewrite (get_srv_ok _ _ _ Hs). cbn [mbind outcome_bind]. cbn zeta.
  repeat case_match; (eexists; split; [done|]); (apply (safe_direct _ p s); [by apply Inv_stats | done | done]).
Qed.

Lemma exec_Inv k v o h : Inv k h → permitted v h o →
  ∃ h', exec v o h = Ok h' ∧ Inv (k && through_set_status o) h'.
Proof.
  intros HI Hp. destruct o; cbn [exec through_set_status]; rewrite ?andb_true_r, ?andb_false_r.
  - edestruct create_new_server_in_hg_spec as (h' & r & -> & HI'); [done|done|]. by exists h'.
  - edestruct safe_remove_server_in_hg as (h' & r & -> & HI' & _); [done|]. by exists h'.
  - edestruct purge_servers_spec as (h' & -> & HI' & _); [done|]. by exists h'.
  - edestruct MyHGC_lookup_spec as (i & h' & g & E & HI' & _); [done|]. rewrite E. by exists h'.
  - destruct Hp as [s Hs]. edestruct safe_set_status as (h' & -> & HI' & _); [done|done|]. by exists h'.
  - edestruct safe_unshun_server_all_hostgroups as (h' & -> & HI' & _); [done|]. by exists h'.
  - edestruct safe_shun_and_killall as (h' & r & -> & HI' & _); [done|]. by exists h'.
  - edestruct safe_set_server_current_latency_us as (h' & -> & HI' & _); [done|]. by exists h'.
  - edestruct safe_replication_lag_action as (h' & -> & HI' & _); [done|done|]. by exists h'.
  - edestruct safe_group_replication as (h' & -> & HI' & _); [done| |by exists h'].
    intros j Hj. eapply MyHGC_find_lt; [apply HI | done].
  - apply connect_error_wf; [by eapply Inv_weaken | done].
  - destruct Hp as [s Hs]. unfold srv_shun_and_killall. rewrite (get_srv_ok _ _ _ Hs). cbn [mbind outcome_bind].
    eexists. split; [done|]. eapply safe_direct; [by eapply Inv_weaken | done | done].
Qed.

Lemma history_Inv v h l h' k : Inv k h → history v h l h' → Inv (k && forallb through_set_status l) h'.
Proof.
  intros HI H. revert k HI. induction H as [h|h h1 h2 o l Hp He Hl IH]; intros k HI; [by rewrite andb_true_r|].
  destruct (exec_Inv k v o h HI Hp) as (h1' & He' & HI'). rewrite He in He'. injection He' as <-.
  cbn [forallb]. rewrite andb_assoc. by apply IH.
Qed.

Lemma counted_length h i g : wf h → counted h → MyHostGroups h !! i = Some g →
  num_online_servers g = Z.of_nat (length (filter (λ p, is_online h p = true) (mysrvs g))).
Proof.
  intros W [_ Hc] Hg. specialize (Hc i g Hg). rewrite count_online_filter in Hc; [by injection Hc|].
  intros p Hp. destruct (mysrvs_allocated h i g p W Hg Hp) as (s & Hs & _). by exists s.
Qed.

(** C3: Starting without hostgroups, after any history of creations, removals,
    purges, health reports of servers that exist and lag reports of hostgroups that are
    known: no next operation uses an object that is not
    there, every server is in the array of exactly one hostgroup, hostgroups
    have different numbers and the map leads to them.  The number of online
    servers that a hostgroup keeps is only exact as long as every change of
    status went through [set_status]: [connect_error] and [shun_and_killall] of
    a server write it directly, and are excluded from the last part. *)
Theorem online_count_exact v l h :
  history v init_HGM l h →
  (∀ o, permitted v h o → ∃ h', exec v o h = Ok h') ∧
  (∀ p s, servers h !! p = Some s → ∃ i, in_hgc h i p ∧ ∀ j, in_hgc h j p → j = i) ∧
  (∀ i p, in_hgc h i p → allocated h p) ∧
  (∀ x i, MyHostGroups_map h !! x = Some i ↔ ∃ g, MyHostGroups h !! i = Some g ∧ hid g = x) ∧
  (forallb through_set_status l = true → ∀ i g, MyHostGroups h !! i = Some g →
     NoDup (mysrvs g) ∧ num_online_servers g = Z.of_nat (length (filter (λ p, is_online h p = true) (mysrvs g)))).
Proof.
  intros H. assert (Inv (true && forallb through_set_status l) h) as [W C] by (eapply history_Inv; [apply Inv_init | done]).
  split; [|split; [|split; [|split]]].
  - intros o Hp. destruct (exec_Inv false v o h) as (h' & E & _); [by split | done | by exists h'].
  - intros p s Hs. destruct (owner_allocated h p s W Hs) as (i & g & Hi & Hg & Hin). exists i. split; [by exists g|].
    intros j (s' & Hs' & Hj)%(wf_servers h W). congruence.
  - intros i p (s & Hs & _)%(wf_servers h W). by exists s.
  - apply (wf_map h W).
  - intros Hl i g Hg. rewrite Hl in C. split; [by eapply wf_arrays|]. by apply counted_length with i; [|apply C|].
Qed.

(** *** Statuses written directly *)
Lemma stale_count h h' p s s' i g :
  wf h → counted h → servers h !! p = Some s → status s = ONLINE → myhgc s = Some i → MyHostGroups h !! i = Some g →
  MyHostGroups h' = MyHostGroups h → servers h' = <[p := s']> (servers h) → status s' = SHUNNED →
  num_online_servers g = Z.of_nat (length (filter (λ q, is_online h' q = true) (mysrvs g))) + 1.
Proof.
  intros W C Hp Hs Hi Hg Hm Hsv Hs'. rewrite (counted_length h i g W C Hg).
  assert (Hin : p ∈ mysrvs g).
  { destruct (proj2 (wf_servers h W i p)) as (g' & Hg' & Hin); [by exists s|]. congruence. }
  pose proof (wf_arrays h W i g Hg) as Hnd. apply elem_of_Permutation in Hin as [l Hl]. rewrite Hl in Hnd |- *.
  apply NoDup_cons in Hnd as [Hpl _]. rewrite filter_cons_True, filter_cons_False.
  - cbn [length]. rewrite (list_filter_iff_in (λ q, is_online h q = true) (λ q, is_online h' q = true)); [lia|].
    intros q Hq. unfold is_online. rewrite Hsv, lookup_insert_ne; [done|]. by intros ->.
  - unfold is_online. rewrite Hsv, lookup_insert_eq. unfold status_is. by rewrite Hs'.
  - unfold is_online. rewrite Hp. unfold status_is. by rewrite Hs.
Qed.

(** The condition under which [connect_error] shuns. *)
Definition shunning_failure (v : variables) (s : MySrvC) (err t : Z) : Prop :=
  ignored_error err = false ∧ time_last_detected_error s = t ∧ status s = ONLINE ∧
  u32 (Z.min (shun_on_failures v) (connect_retries_on_failure v + 1)) ≤ u32 (connect_ERR_at_time_last_detected_error s + 1).

(** When the connection errors within one second reach the limit,
    [connect_error] shuns an online server, but the number of online servers of
    its hostgroup stays what it was: it is then one too many. *)
Theorem connect_error_leaves_count v p err t h s i g :
  wf h → counted h → servers h !! p = Some s → myhgc s = Some i → MyHostGroups h !! i = Some g →
  shunning_failure v s err t →
  ∃ h' s', connect_error v p err t h = Ok h' ∧ servers h' !! p = Some s' ∧ status s' = SHUNNED ∧ shunned_automatic s' = true ∧
    MyHostGroups h' !! i = Some g ∧
    num_online_servers g = Z.of_nat (length (filter (λ q, is_online h' q = true) (mysrvs g))) + 1.
Proof.
  intros W C Hp Hi Hg (He & Ht & Hs & Hn). unfold connect_error. rewrite (get_srv_ok _ _ _ Hp). cbn [mbind outcome_bind]. cbn zeta.
  rewrite He. cbn. rewrite Ht, Z.ltb_irrefl. cbn.
  assert ((if connect_retries_on_failure v + 1 <? shun_on_failures v then connect_retries_on_failure v + 1 else shun_on_failures v)
    = Z.min (shun_on_failures v) (connect_retries_on_failure v + 1)) as -> by (destruct (Z.ltb_spec (connect_retries_on_failure v + 1) (shun_on_failures v)); lia).
  apply Z.leb_le in Hn. rewrite Hn. cbn. unfold status_is. rewrite Hs, bool_decide_true by done.
  eexists _, _. split; [done|]. cbn. rewrite lookup_insert_eq. split; [done|]. split; [done|]. split; [done|].
  split; [done|]. by eapply stale_count.
Qed.

(** ** Removing a server *)

(** The hostgroup [find_server_in_hg] searches: the one with the number, or
    the last one when no hostgroup has it. *)
Definition searched (h : HGM) (x : Z) (g : MyHGC) : Prop :=
  (g ∈ MyHostGroups h ∧ hid g = x) ∨ ((∀ g', g' ∈ MyHostGroups h → hid g' ≠ x) ∧ last (MyHostGroups h) = Some g).

Lemma hostgroup_or_last_none l x o : (∀ g, g ∈ l → hid g ≠ x) → hostgroup_or_last l x o = match last l with Some g => Some g | None => o end.
Proof.
  revert o. induction l as [|g l IH]; intros o Hl; [done|]. cbn [hostgroup_or_last].
  destruct (Z.eqb_spec (hid g) x) as [E|_]; [by destruct (Hl g); [left|]|].
  rewrite IH by (intros g' Hg'; apply Hl; by right). destruct l as [|g' l]; [done|].
  change (last (g :: g' :: l)) with (last (g' :: l)). by destruct (last (g' :: l)) eqn:E; [|apply last_None in E].
Qed.

Lemma hostgroup_or_last_some l x o g : g ∈ l → hid g = x → ∃ g', hostgroup_or_last l x o = Some g' ∧ g' ∈ l ∧ hid g' = x.
Proof.
  revert o. induction l as [|g0 l IH]; intros o Hg Hx; [by apply elem_of_nil in Hg|]. cbn [hostgroup_or_last].
  destruct (Z.eqb_spec (hid g0) x) as [E|E]; [exists g0; split; [done|]; split; [left | done]|].
  apply elem_of_cons in Hg as [->|Hg]; [done|]. destruct (IH (Some g0) Hg Hx) as (g' & E' & Hin & Hx').
  exists g'. split; [done|]. split; [by right | done].
Qed.

Lemma hid_inj h g g' : wf h → g ∈ MyHostGroups h → g' ∈ MyHostGroups h → hid g = hid g' → g = g'.
Proof.
  intros W [i Hi]%list_elem_of_lookup_1 [j Hj]%list_elem_of_lookup_1 E.
  assert (MyHostGroups_map h !! hid g = Some i) by (apply (wf_map h W); by exists g).
  assert (MyHostGroups_map h !! hid g = Some j) by (apply (wf_map h W); by exists g').
  congruence.
Qed.

Lemma searched_spec h x g : wf h → searched h x g → hostgroup_or_last (MyHostGroups h) x None = Some g.
Proof.
  intros W [[Hg Hx]|[Hn Hl]].
  - destruct (hostgroup_or_last_some _ x None g Hg Hx) as (g' & -> & Hg' & Hx'). f_equal. apply (hid_inj h); congruence.
  - rewrite hostgroup_or_last_none by done. by rewrite Hl.
Qed.

Lemma searched_in h x g : searched h x g → g ∈ MyHostGroups h.
Proof. intros [[? _]|[_ (l & ->)%last_Some]]; [done|]. apply elem_of_app. right. left. Qed.

Lemma find_server_unique h x g p s addr prt :
  wf h → searched h x g → p ∈ mysrvs g → servers h !! p = Some s → same_endpoint s addr prt = true →
  (∀ q s', q ∈ mysrvs g → servers h !! q = Some s' → same_endpoint s' addr prt = true → q = p) →
  find_server_in_hg x addr prt h = Ok (Some p).
Proof.
  intros W Hsr Hp Hs He Hu. unfold find_server_in_hg. rewrite (searched_spec h x g W Hsr).
  apply searched_in in Hsr as [i Hg]%list_elem_of_lookup_1.
  destruct (safe_at_endpoint h addr prt (mysrvs g)) as (l & -> & Hl).
  { intros q Hq. destruct (mysrvs_allocated h i g q W Hg Hq) as (s0 & E & _). by exists s0. }
  cbn [mbind outcome_bind]. destruct (last l) as [q|] eqn:Eq.
  - f_equal. f_equal. apply last_Some in Eq as [l' ->]. destruct (proj1 (Hl q)) as (Hq & s' & Hs' & He'); [|by eapply Hu].
    apply elem_of_app. right. left.
  - apply last_None in Eq as ->. exfalso. apply (elem_of_nil p), Hl. eauto.
Qed.

(** Removing a server takes the one with the endpoint in the hostgroup that
    is searched, marks it [OFFLINE_HARD] and deletes its free connections and
    nothing else; the next purge deletes it exactly when no connection of it is
    in use.  The hostgroup searched is the last one of the manager when no
    hostgroup has the number given. *)
Theorem server_removed h x g p s addr prt :
  wf h → searched h x g → p ∈ mysrvs g → servers h !! p = Some s → same_endpoint s addr prt = true →
  (∀ q s', q ∈ mysrvs g → servers h !! q = Some s' → same_endpoint s' addr prt = true → q = p) →
  ∃ h1 h2, remove_server_in_hg x addr prt h = Ok (h1, 0) ∧
    servers h1 = <[p := s <| status := OFFLINE_HARD |> <| ConnectionsFree := [] |>]> (servers h) ∧
    (∀ c, conns h1 !! c = if decide (c ∈ ConnectionsFree s) then None else conns h !! c) ∧
    purge_mysql_servers_table h1 = Ok h2 ∧ (servers h2 !! p = None ↔ ConnectionsUsed s = []) ∧
    ∀ q s', q ≠ p → servers h !! q = Some s' → servers h2 !! q = if purgeable s' then None else Some s'.
Proof.
  intros W Hsr Hp Hs He Hu. unfold remove_server_in_hg. rewrite (find_server_unique h x g p s) by done. cbn [mbind outcome_bind].
  destruct (set_status_spec false h p s OFFLINE_HARD) as (h0 & -> & HI0 & _ & Es & Ec & _); [by split | done|]. cbn [mbind outcome_bind].
  destruct (drop_all_connections_spec false h0 p (s <| status := OFFLINE_HARD |>) HI0) as (m & -> & HI1 & _ & Hm).
  { by rewrite Es, lookup_insert_eq. }
  cbn [mbind outcome_bind]. match type of HI1 with Inv _ ?H => set (h1 := H) in * end.
  assert (Es1 : servers h1 = <[p := s <| status := OFFLINE_HARD |> <| ConnectionsFree := [] |>]> (servers h)).
  { subst h1. cbn. by rewrite Es, insert_insert_eq. }
  destruct (purge_servers_spec false h1 HI1) as (h2 & E2 & _ & Hq). exists h1, h2. split; [done|]. split; [done|].
  split; [intros c; rewrite <- Ec; apply Hm|]. split; [done|]. rewrite Es1 in Hq. split.
  - rewrite Hq, lookup_insert_eq. cbn. unfold purgeable. cbn. rewrite andb_true_r. case_bool_decide; cbn; done.
  - intros q s' Hqp Hs'. by rewrite Hq, lookup_insert_ne, Hs' by done.
Qed.

(** When no hostgroup has the number given and the last hostgroup has an
    online server with the endpoint, creating the server is refused: it is
    reported as existing and neither it nor its hostgroup is added. *)
Theorem create_in_new_hostgroup_refused h p x g q s addr prt w mc ssl :
  wf h → (∀ g', g' ∈ MyHostGroups h → hid g' ≠ x) → last (MyHostGroups h) = Some g →
  q ∈ mysrvs g → servers h !! q = Some s → same_endpoint s addr prt = true → status s ≠ OFFLINE_HARD →
  (∀ q' s', q' ∈ mysrvs g → servers h !! q' = Some s' → same_endpoint s' addr prt = true → q' = q) →
  create_new_server_in_hg p x addr prt w mc ssl h = Ok (h, -1) ∧ MyHGC_find x h = None.
Proof.
  intros W Hx Hl Hq Hs He Hst Hu. split.
  - unfold create_new_server_in_hg. rewrite (find_server_unique h x g q s) by (done || by right). cbn [mbind outcome_bind].
    rewrite (get_srv_ok _ _ _ Hs). cbn [mbind outcome_bind]. unfold status_is. by rewrite bool_decide_false.
  - pose proof (MyHGC_find_spec h x W) as Hf. destruct (MyHGC_find x h) as [i|]; [|done].
    destruct Hf as (g' & Hg' & E). by destruct (Hx g'); [apply list_elem_of_lookup_2 with i|].
Qed.

(** ** Recovery of shunned servers *)
Definition shunned_at (h : HGM) (addr : list Z) (prt : Z) (q : Z) : bool :=
  match servers h !! q with Some s => status_is (status s) SHUNNED && same_endpoint s addr prt | None => false end.
Definition first_shunned (h : HGM) (addr : list Z) (prt : Z) (ps : list Z) : option Z :=
  head (filter (λ q, shunned_at h addr prt q = true) ps).
Definition recovered (s : MySrvC) : MySrvC :=
  s <| status := ONLINE |> <| shunned_automatic := false |> <| shunned_and_kill_all_connections := false |>
    <| connect_ERR_at_time_last_detected_error := 0 |> <| time_last_detected_error := 0 |>.

Lemma unshun_spec k h p s : Inv k h → servers h !! p = Some s →
  ∃ h', unshun p h = Ok h' ∧ Inv k h' ∧ same_skeleton h h' ∧ servers h' = <[p := recovered s]> (servers h).
Proof.
  intros HI Hs. destruct (safe_unshun k h p HI) as (h' & E & HI' & HS); [by exists s|]. exists h'. split; [done|]. split; [done|]. split; [done|].
  unfold unshun in E. destruct (set_status_spec k h p s ONLINE HI Hs) as (h1 & E1 & _ & _ & Es & _). rewrite E1 in E.
  cbn [mbind outcome_bind] in E. unfold get_srv in E. rewrite Es, lookup_insert_eq in E. cbn [mbind outcome_bind] in E.
  injection E as <-. cbn. by rewrite Es, insert_insert_eq.
Qed.

Lemma unshun_first_spec k h addr prt t w ps :
  Inv k h → (∀ p, p ∈ ps → allocated h p) →
  ∃ h', unshun_first h addr prt t w ps = Ok h' ∧ Inv k h' ∧ same_skeleton h h' ∧
    ∀ q, servers h' !! q = s ← servers h !! q;
      Some (if bool_decide (first_shunned h addr prt ps = Some q) && may_unshun s t w then recovered s else s).
Proof.
  intros HI. induction ps as [|p ps IH]; intros Hp.
  { exists h. split_and!; try done; [by apply HI..|]. intros q. cbn. by destruct (servers h !! q). }
  cbn [unshun_first]. destruct (Hp p) as [s Hs]; [left|]. rewrite (get_srv_ok _ _ _ Hs). cbn [mbind outcome_bind].
  unfold first_shunned. rewrite filter_cons.
  assert (shunned_at h addr prt p = status_is (status s) SHUNNED && same_endpoint s addr prt) as Hc by (unfold shunned_at; by rewrite Hs).
  rewrite <- Hc. destruct (decide (shunned_at h addr prt p = true)) as [D|D].
  2: { destruct (shunned_at h addr prt p); [done|]. apply IH. intros q Hq. apply Hp. by right. }
  rewrite D. cbn [head]. destruct (may_unshun s t w) eqn:Em.
  - destruct (unshun_spec k h p s HI Hs) as (h' & E & HI' & HS & Es). exists h'. split; [done|]. split; [done|]. split; [done|].
    intros q. rewrite Es. destruct (decide (q = p)) as [->|Hq].
    + by rewrite lookup_insert_eq, Hs; cbn; rewrite bool_decide_true, Em.
    + rewrite lookup_insert_ne by done. rewrite bool_decide_false by congruence. by destruct (servers h !! q).
  - exists h. split; [done|]. split; [done|]. split; [done|]. intros q. destruct (servers h !! q) as [s'|] eqn:Hq; [|done]. cbn.
    case_bool_decide as E; [|done]. injection E as <-. rewrite Hs in Hq. injection Hq as <-. by rewrite Em.
Qed.

(** Whether the call brings [q] back, counting hostgroups from position [i]. *)
Definition comes_back (h : HGM) addr prt t w (sk : option Z) (i : nat) (q : Z) (s : MySrvC) : bool :=
  match myhgc s with
  | Some j =>
      match MyHostGroups h !! j with
      | Some g => (i <=? j)%nat && negb (bool_decide (sk = Some (hid g))) &&
                  bool_decide (first_shunned h addr prt (mysrvs g) = Some q) && may_unshun s t w
      | None => false
      end
  | None => false
  end.

Lemma first_shunned_ext h h' addr prt ps :
  (∀ q, q ∈ ps → servers h' !! q = servers h !! q) → first_shunned h' addr prt ps = first_shunned h addr prt ps.
Proof.
  intros Hq. unfold first_shunned. f_equal. apply list_filter_iff_in. intros q Hin. unfold shunned_at. by rewrite Hq.
Qed.

Lemma skeleton_g_eq g g' : skeleton_g g' = skeleton_g g → hid g' = hid g ∧ mysrvs g' = mysrvs g.
Proof. intros H. injection H. auto. Qed.

Lemma unshun_loop_spec k n i addr prt t w sk h :
  Inv k h → (n + i = length (MyHostGroups h))%nat →
  ∃ h', unshun_loop n i addr prt t w sk h = Ok h' ∧ Inv k h' ∧ same_skeleton h h' ∧
    ∀ q, servers h' !! q = s ← servers h !! q; Some (if comes_back h addr prt t w sk i q s then recovered s else s).
Proof.
  revert i h. induction n as [|n IH]; intros i h HI Hn.
  { exists h. split; [done|]. split; [done|]. split; [done|]. intros q. destruct (servers h !! q) as [s|] eqn:Hs; [|done]. cbn.
    unfold comes_back. destruct (owner_allocated h q s (proj1 HI) Hs) as (j & g & -> & Hg & _). rewrite Hg.
    apply lookup_lt_Some in Hg. by replace (i <=? j)%nat with false by (symmetry; apply Nat.leb_gt; lia). }
  cbn [unshun_loop]. destruct (lookup_lt_is_Some_2 (MyHostGroups h) i) as [g Hg]; [lia|].
  rewrite (get_hgc_ok _ _ _ Hg). cbn [mbind outcome_bind].
  assert (Hal : ∀ p, p ∈ mysrvs g → allocated h p).
  { intros p Hp. destruct (mysrvs_allocated h i g p (proj1 HI) Hg Hp) as (s & E & _). by exists s. }
  case_bool_decide as Esk.
  - destruct (IH (S i) h HI) as (h' & E & HI' & HS & Hq); [lia|]. exists h'. split; [done|]. split; [done|]. split; [done|].
    intros q. rewrite Hq. destruct (servers h !! q) as [s|] eqn:Hs; [|done]. cbn. f_equal. unfold comes_back.
    destruct (myhgc s) as [j|]; [|done]. destruct (MyHostGroups h !! j) as [g'|] eqn:Hg'; [|done].
    destruct (decide (j = i)) as [->|Hj].
    + assert (g' = g) as -> by congruence. rewrite (bool_decide_true (sk = Some (hid g))) by done. cbn. by rewrite !andb_false_r.
    + replace (S i <=? j)%nat with (i <=? j)%nat; [done|]. apply eq_true_iff_eq. rewrite !Nat.leb_le. lia.
  - destruct (unshun_first_spec k h addr prt t w (mysrvs g) HI Hal) as (h1 & -> & HI1 & HS1 & Hq1). cbn [mbind outcome_bind].
    destruct (IH (S i) h1 HI1) as (h' & E & HI' & HS & Hq); [rewrite (skeleton_length h h1 HS1); lia|].
    exists h'. split; [done|]. split; [done|]. split; [by etrans|]. intros q. rewrite Hq.
    destruct (servers h !! q) as [s|] eqn:Hs.
    2: { by rewrite Hq1, Hs. }
    destruct (owner_allocated h q s (proj1 HI) Hs) as (j & g' & Hj & Hg' & Hin).
    rewrite Hq1, Hs. cbn. f_equal.
    destruct (same_skeleton_hgc h h1 j g' HS1 Hg') as (g1 & Hg1 & [Eh Em]%skeleton_g_eq).
    destruct (decide (j = i)) as [->|Hji].
    + assert (g' = g) as -> by congruence. unfold comes_back at 2. rewrite Hj, Hg. rewrite Nat.leb_refl, (bool_decide_false (sk = Some (hid g))) by done. cbn.
      set (b := bool_decide _ && _). destruct b; unfold comes_back; cbn [recovered myhgc]; cbn; rewrite Hj, Hg1;
        (replace (match i with O => false | S m' => (i <=? m')%nat end) with false by (destruct i; [done|]; symmetry; apply Nat.leb_gt; lia)); done.
    + assert (Hno : ∀ q', q' ∈ mysrvs g' → first_shunned h addr prt (mysrvs g) ≠ Some q').
      { intros q' Hq' Ef. assert (q' ∈ mysrvs g) as Hq2.
        { unfold first_shunned in Ef. apply head_Some in Ef as [l' El]. apply (list_elem_of_filter (λ q0, shunned_at h addr prt q0 = true)). rewrite El. left. }
        destruct (mysrvs_allocated h j g' q' (proj1 HI) Hg' Hq') as (s1 & Hs1 & Hm1).
        destruct (mysrvs_allocated h i g q' (proj1 HI) Hg Hq2) as (s2 & Hs2 & Hm2). congruence. }
      rewrite (bool_decide_false (first_shunned h addr prt (mysrvs g) = Some q)) by (by apply Hno). cbn [andb].
      unfold comes_back. rewrite Hj, Hg', Hg1, Eh, Em. rewrite (first_shunned_ext h h1).
      * replace (S i <=? j)%nat with (i <=? j)%nat; [done|]. apply eq_true_iff_eq. rewrite !Nat.leb_le. lia.
      * intros q' Hq'. rewrite Hq1. destruct (servers h !! q') as [s'|] eqn:Hs'; [|done]. cbn.
        by rewrite (bool_decide_false (first_shunned h addr prt (mysrvs g) = Some q')) by (by apply Hno).
Qed.

Lemma may_unshun_spec s t w : may_unshun s t w = true ↔
  time_last_detected_error s < t ∧ w < t - time_last_detected_error s ∧ (shunned_and_kill_all_connections s = true → all_conns s = []).
Proof.
  unfold may_unshun, all_conns. rewrite !andb_true_iff, orb_true_iff, !andb_true_iff, !Z.ltb_lt, !bool_decide_eq_true.
  rewrite negb_true_iff. destruct (shunned_and_kill_all_connections s); split.
  - intros ([? ?] & [?|[[_ ->] ->]]); done.
  - intros (? & ? & E). destruct (app_eq_nil _ _ (E eq_refl)). auto.
  - intros ([? ?] & _). done.
  - intros (? & ? & _). auto.
Qed.

(** C38: A shunned server comes back.  Once more than [max_wait_sec] seconds have
    passed since its last error, and no connection is left if all were to be
    killed, the next call for its endpoint puts the first shunned server of
    every hostgroup but the skipped one online and resets its error state;
    before that, and for every other server, nothing changes. *)
Theorem shunned_server_recovers h addr prt t w sk :
  wf h → ∃ h', unshun_server_all_hostgroups addr prt t w sk h = Ok h' ∧
  ∀ i g q s, MyHostGroups h !! i = Some g → q ∈ mysrvs g → servers h !! q = Some s →
    (first_shunned h addr prt (mysrvs g) = Some q → sk ≠ Some (hid g) →
     time_last_detected_error s < t → w < t - time_last_detected_error s →
     (shunned_and_kill_all_connections s = true → all_conns s = []) → servers h' !! q = Some (recovered s)) ∧
    (first_shunned h addr prt (mysrvs g) ≠ Some q ∨ sk = Some (hid g) ∨ t - time_last_detected_error s ≤ Z.max 0 w ∨
     (shunned_and_kill_all_connections s = true ∧ all_conns s ≠ []) → servers h' !! q = Some s).
Proof.
  intros W. destruct (unshun_loop_spec false (length (MyHostGroups h)) 0 addr prt t w sk h) as (h' & E & _ & _ & Hq); [by split|lia|].
  exists h'. split; [done|]. intros i g q s Hg Hin Hs. rewrite Hq, Hs. cbn [mbind option_bind]. unfold comes_back.
  destruct (mysrvs_allocated h i g q W Hg Hin) as (s' & Hs' & Hi). assert (s' = s) as -> by congruence. rewrite Hi, Hg. cbn [andb Nat.leb]. split.
  - intros Hf Hk H1 H2 H3. rewrite bool_decide_false, bool_decide_true by done. cbn [negb andb].
    by rewrite (proj2 (may_unshun_spec s t w)).
  - intros Hno. match goal with |- context [if ?b then _ else _] => destruct b eqn:Eb end; [exfalso|done].
    apply andb_prop in Eb as [[Hk%negb_true_iff Hf]%andb_prop Hm]. apply bool_decide_eq_false in Hk. apply bool_decide_eq_true in Hf.
    apply may_unshun_spec in Hm as (H1 & H2 & H3). destruct Hno as [?|[?|[?|[? ?]]]]; auto; lia.
Qed.

(** ** Witnesses *)
Definition demo_variables : variables :=
  mk_variables 5 10 10 10000 1000 0 true 8000 60 1 false 3 true 524288 20 50 2 false 10 1000000 0.
Definition demo_ops : list op :=
  [OpCreate 1 10 (str "db1") 3306 1 (-1) (-1); OpCreate 2 10 (str "db2") 3306 1 (-1) (-1);
   OpLookup 20; OpCreate 3 20 (str "db1") 3306 1 (-1) (-1); OpShunHost (str "db1") 3306 100].
Fixpoint run (v : variables) (l : list op) (h : HGM) : outcome HGM :=
  match l with [] => Ok h | o :: l' => h ← exec v o h; run v l' h end.
Definition demo_state : HGM := match run demo_variables demo_ops init_HGM with Ok h => h | _ => init_HGM end.

Lemma demo_history : history demo_variables init_HGM demo_ops demo_state.
Proof.
  repeat (eapply history_cons; [first [exact I | vm_compute; reflexivity] | vm_compute; reflexivity |]).
  exact (history_nil _ _).
Qed.
Lemma demo_wf : wf demo_state ∧ counted demo_state.
Proof. destruct (history_Inv demo_variables init_HGM demo_ops demo_state true (Inv_init true) demo_history) as [W C]. split; [done | by apply C]. Qed.

Lemma online_count_exact_witness :
  history demo_variables init_HGM demo_ops demo_state ∧
  ∀ i g, MyHostGroups demo_state !! i = Some g →
     NoDup (mysrvs g) ∧ num_online_servers g = Z.of_nat (length (filter (λ p, is_online demo_state p = true) (mysrvs g))).
Proof.
  split; [exact demo_history|].
  exact (proj2 (proj2 (proj2 (proj2 (online_count_exact demo_variables demo_ops demo_state demo_history)))) eq_refl).
Defined.

Definition demo_srv (p : Z) : MySrvC := match servers demo_state !! p with Some s => s | None => new_MySrvC [] 0 0 0 ONLINE 0 0 0 0 0 [] end.
Definition demo_hg (i : nat) : MyHGC := match MyHostGroups demo_state !! i with Some g => g | None => new_MyHGC 0 end.

(** One failure in the same second is enough when one failure shuns. *)
Definition demo_strict : variables :=
  mk_variables 1 10 10 10000 1000 0 true 8000 60 1 false 3 true 524288 20 50 2 false 10 1000000 0.
Lemma connect_error_leaves_count_witness :
  ∃ h' s', connect_error demo_strict 2 2003 0 demo_state = Ok h' ∧ servers h' !! 2 = Some s' ∧ status s' = SHUNNED ∧
    shunned_automatic s' = true ∧ MyHostGroups h' !! 0%nat = Some (demo_hg 0) ∧
    num_online_servers (demo_hg 0) = Z.of_nat (length (filter (λ q, is_online h' q = true) (mysrvs (demo_hg 0)))) + 1.
Proof.
  refine (connect_error_leaves_count demo_strict 2 2003 0 demo_state (demo_srv 2) 0 (demo_hg 0) (proj1 demo_wf) (proj2 demo_wf) _ _ _ _).
  - vm_compute. reflexivity.
  - vm_compute. reflexivity.
  - vm_compute. reflexivity.
  - refine (conj _ (conj _ (conj _ _))); [vm_compute; reflexivity ..|]. vm_compute. discriminate.
Defined.

(** Hostgroup 30 does not exist; the server of the last hostgroup, 20, is removed. *)
Lemma server_removed_witness :
  ∃ h1 h2, remove_server_in_hg 30 (str "db1") 3306 demo_state = Ok (h1, 0) ∧
    servers h1 = <[3 := (demo_srv 3) <| status := OFFLINE_HARD |> <| ConnectionsFree := [] |>]> (servers demo_state) ∧
    purge_mysql_servers_table h1 = Ok h2 ∧ (servers h2 !! 3 = None ↔ ConnectionsUsed (demo_srv 3) = []).
Proof.
  destruct (server_removed demo_state 30 (demo_hg 1) 3 (demo_srv 3) (str "db1") 3306 (proj1 demo_wf)) as (h1 & h2 & E1 & E2 & _ & E3 & E4 & _).
  - right. split; [|vm_compute; reflexivity]. intros g [i Hg]%list_elem_of_lookup_1.
    destruct i as [|[|i]]; [| |vm_compute in Hg; discriminate]; vm_compute in Hg; injection Hg as <-; vm_compute; discriminate.
  - vm_compute. left.
  - vm_compute. reflexivity.
  - vm_compute. reflexivity.
  - intros q s Hq _ _. vm_compute in Hq. by apply list_elem_of_singleton in Hq.
  - exists h1, h2. exact (conj E1 (conj E2 (conj E3 E4))).
Defined.

Lemma create_in_new_hostgroup_refused_witness :
  create_new_server_in_hg 4 30 (str "db1") 3306 1 (-1) (-1) demo_state = Ok (demo_state, -1) ∧ MyHGC_find 30 demo_state = None.
Proof.
  refine (create_in_new_hostgroup_refused demo_state 4 30 (demo_hg 1) 3 (demo_srv 3) (str "db1") 3306 1 (-1) (-1)
    (proj1 demo_wf) _ _ _ _ _ _ _).
  - intros g [i Hg]%list_elem_of_lookup_1.
    destruct i as [|[|i]]; [| |vm_compute in Hg; discriminate]; vm_compute in Hg; injection Hg as <-; vm_compute; discriminate.
  - vm_compute. reflexivity.
  - vm_compute. left.
  - vm_compute. reflexivity.
  - vm_compute. reflexivity.
  - vm_compute. discriminate.
  - intros q s Hq _ _. vm_compute in Hq. by apply list_elem_of_singleton in Hq.
Defined.

(** The monitor shunned db1 at second 100; at second 200 it comes back in both hostgroups. *)
Lemma shunned_server_recovers_witness :
  ∃ h', unshun_server_all_hostgroups (str "db1") 3306 200 10 None demo_state = Ok h' ∧
    servers h' !! 1 = Some (recovered (demo_srv 1)) ∧ servers h' !! 3 = Some (recovered (demo_srv 3)).
Proof.
  destruct (shunned_server_recovers demo_state (str "db1") 3306 200 10 None (proj1 demo_wf)) as (h' & E & H).
  exists h'. split; [exact E|]. split.
  - refine (proj1 (H 0%nat (demo_hg 0) 1 (demo_srv 1) _ _ _) _ _ _ _ _);
      [vm_compute; reflexivity | vm_compute; left | vm_compute; reflexivity | vm_compute; reflexivity | discriminate
      | vm_compute; reflexivity | vm_compute; reflexivity | intros _; vm_compute; reflexivity].
  - refine (proj1 (H 1%nat (demo_hg 1) 3 (demo_srv 3) _ _ _) _ _ _ _ _);
      [vm_compute; reflexivity | vm_compute; left | vm_compute; reflexivity | vm_compute; reflexivity | discriminate
      | vm_compute; reflexivity | vm_compute; reflexivity | intros _; vm_compute; reflexivity].
Defined.
