(* ===== verification/SrvSelect.v ===== *)
(** * Choosing a server of a hostgroup (lib/MyHGC.cpp, [MyHGC::get_random_MySrvC])

    One pass over the servers collects the candidates in an array of fixed size
    and brings shunned servers back on the way; then the writer of an Aurora
    cluster may be left out, a second pass may bring more servers back, slow
    servers may be filtered out, and one candidate is drawn with the weights as
    probabilities.  The clock and the random numbers are arguments; logging and
    the statistics are left out. *)
From S2P Require Import Prelude GenUtils Gtid Conn HostGroups.

(** What the call reads from the session's thread. *)
Record session_limits := mk_limits {
  aurora_max_lag_ms_only_read_from_replicas : Z;
  min_num_servers_lantency_awareness : Z
}.

(** The arguments of the call; [gtids] is the manager's [gtid_map], whose keys
    address:port are pairs here, with the [active] flag of each entry. *)
Record request := mk_request {
  gtids : gmap (list Z * Z) (bool * Intervals.gtid_set);
  gtid_uuid : list Z;
  gtid_trxid : Z;
  max_lag_ms : Z;
  sess : option session_limits
}.

Definition gtid_exists (rq : request) (s : MySrvC) : bool :=
  match gtids rq !! (address s, port s) with
  | Some (active, set) => active && Intervals.gtid_exists set (gtid_uuid rq) (gtid_trxid rq)
  | None => false
  end.

(** "Consider the host only if not too far." *)
Definition latency_ok (v : variables) (s : MySrvC) : bool :=
  current_latency_us s <? (if max_latency_us s =? 0 then u32 (default_max_latency_ms v * 1000) else max_latency_us s).

(** The transaction is there, or the replica does not lag too much. *)
Definition may_serve (rq : request) (s : MySrvC) : bool :=
  if negb (gtid_trxid rq =? 0) then gtid_exists rq s
  else if 0 <=? max_lag_ms rq then aws_aurora_current_lag_us s / 1000 <=? max_lag_ms rq
  else true.

(** [mysrvcCandidates[num_candidates++]=mysrvc] in an array of [cap] elements. *)
Definition add_candidate (cap : nat) (p : Z) (s : MySrvC) (sum : Z) (cands : list Z) : outcome (Z * list Z) :=
  if (length cands <? cap)%nat then Ok (u32 (sum + weight s), cands ++ [p]) else Fault OutOfBounds.

Definition at_least_one (w : Z) : Z := if w <? 1 then 1 else w.
Definition max_wait (v : variables) : Z :=
  at_least_one (if connect_timeout_server_max v <=? i32 (shun_recovery_time_sec v * 1000)
                then Z.quot (connect_timeout_server_max v) 1000 - 1 else shun_recovery_time_sec v).
Definition desperate_wait (v : variables) : Z :=
  at_least_one (if connect_timeout_server_max v <=? i32 (shun_recovery_time_sec v * 1000)
                then Z.quot (connect_timeout_server_max v) 10000 - 1 else Z.quot (shun_recovery_time_sec v) 10).

(** An online server. *)
Definition visit_online (v : variables) (rq : request) (cap : nat) (p : Z) (s : MySrvC) (h : HGM) (sum : Z) (cands : list Z)
  : outcome (HGM * Z * list Z) :=
  match myhgc s with
  | None => Fault NullPointer
  | Some i =>
      g ← get_hgc h i;
      if online_servers_within_threshold g && (Z.of_nat (length (ConnectionsUsed s)) <? max_connections s) && latency_ok v s then
        if may_serve rq s then '(sum, cands) ← add_candidate cap p s sum cands; Ok (h, sum, cands)
        else if (gtid_trxid rq =? 0) && bool_decide (sess rq = None) then Fault NullPointer
        else Ok (h, sum, cands)
      else Ok (h, sum, cands)
  end.

(** A server just brought back is considered at once. *)
Definition consider_recovered (v : variables) (rq : request) (cap : nat) (p : Z) (h : HGM) (sum : Z) (cands : list Z)
  : outcome (HGM * Z * list Z) :=
  s ← get_srv h p;
  if latency_ok v s && may_serve rq s
  then '(sum, cands) ← add_candidate cap p s sum cands; Ok (h, sum, cands)
  else Ok (h, sum, cands).

(** A shunned server, at time [t]. *)
Definition visit_shunned (v : variables) (rq : request) (cap : nat) (t p : Z) (s : MySrvC) (h : HGM) (sum : Z) (cands : list Z)
  : outcome (HGM * Z * list Z) :=
  if shunned_automatic s && negb (shun_recovery_time_sec v =? 0) && may_unshun s t (max_wait v) then
    h ← unshun p h;
    h ← (if unshun_algorithm v =? 1 then
           match myhgc s with
           | None => Fault NullPointer
           | Some i => g ← get_hgc h i; unshun_server_all_hostgroups (address s) (port s) t (max_wait v) (Some (hid g)) h
           end
         else Ok h);
    consider_recovered v rq cap p h sum cands
  else Ok (h, sum, cands).

(** The first loop; [now p] is the time read for server [p]. *)
Fixpoint collect (v : variables) (rq : request) (cap : nat) (now : Z → Z) (ps : list Z) (h : HGM) (sum : Z) (cands : list Z)
  : outcome (HGM * Z * list Z) :=
  match ps with
  | [] => Ok (h, sum, cands)
  | p :: ps' =>
      s ← get_srv h p;
      '(h, sum, cands) ←
        (if status_is (status s) ONLINE then visit_online v rq cap p s h sum cands
         else if status_is (status s) SHUNNED then visit_shunned v rq cap (now p) p s h sum cands
         else Ok (h, sum, cands));
      collect v rq cap now ps' h sum cands
  end.

(** ** Leaving out the writer of an Aurora cluster *)
Fixpoint total_of (f : MySrvC → Z) (h : HGM) (ps : list Z) (acc : Z) : outcome Z :=
  match ps with [] => Ok acc | p :: ps' => s ← get_srv h p; total_of f h ps' (u32 (acc + f s)) end.

(** The last candidate takes the place of the writer and is not looked at. *)
Fixpoint remove_writers (fuel : nat) (h : HGM) (j : nat) (sum : Z) (cands : list Z) : outcome (Z * list Z) :=
  match fuel with
  | O => Fault Diverges
  | S fuel' =>
      match cands !! j with
      | None => Ok (sum, cands)
      | Some p =>
          s ← get_srv h p;
          if aws_aurora_current_lag_us s =? 0 then
            '(_, cands) ← array_remove j cands;
            remove_writers fuel' h (S j) (u32 (sum - weight s)) cands
          else remove_writers fuel' h (S j) sum cands
      end
  end.

Definition leave_writer_out (rq : request) (h : HGM) (sum : Z) (cands : list Z) : outcome (Z * list Z) :=
  if 0 <? max_lag_ms rq then
    match sess rq with
    | None => Fault NullPointer
    | Some l =>
        let n := u32 (aurora_max_lag_ms_only_read_from_replicas l) in
        if negb (n =? 0) && (n <=? Z.of_nat (length cands)) then
          total ← total_of aws_aurora_current_lag_us h cands 0;
          if negb (total =? 0) then remove_writers (S (length cands)) h 0 sum cands else Ok (sum, cands)
        else Ok (sum, cands)
    end
  else Ok (sum, cands).

(** ** The desperate attempt, at time [t] *)
Fixpoint desperate (v : variables) (rq : request) (cap : nat) (t : Z) (ps : list Z) (h : HGM) (sum : Z) (cands : list Z)
  : outcome (HGM * Z * list Z) :=
  match ps with
  | [] => Ok (h, sum, cands)
  | p :: ps' =>
      s ← get_srv h p;
      '(h, sum, cands) ←
        (if status_is (status s) SHUNNED && shunned_automatic s && (desperate_wait v <? t - time_last_detected_error s) then
           h ← set_status p ONLINE h;
           s ← get_srv h p;
           let s := s <| shunned_automatic := false |> <| connect_ERR_at_time_last_detected_error := 0 |>
                      <| time_last_detected_error := 0 |> in
           consider_recovered v rq cap p (set_srv p s h) sum cands
         else Ok (h, sum, cands));
      desperate v rq cap t ps' h sum cands
  end.

(** ** Latency awareness *)
Fixpoint count_with_latency (h : HGM) (ps : list Z) : outcome nat :=
  match ps with
  | [] => Ok 0%nat
  | p :: ps' => s ← get_srv h p; n ← count_with_latency h ps'; Ok (if current_latency_us s =? 0 then n else S n)
  end.
Fixpoint remove_slow (fuel : nat) (h : HGM) (avg : Z) (j : nat) (cands : list Z) : outcome (list Z) :=
  match fuel with
  | O => Fault Diverges
  | S fuel' =>
      match cands !! j with
      | None => Ok cands
      | Some p =>
          s ← get_srv h p;
          if avg <? current_latency_us s then '(_, cands) ← array_remove j cands; remove_slow fuel' h avg j cands
          else remove_slow fuel' h avg (S j) cands
      end
  end.

Definition latency_awareness (rq : request) (h : HGM) (sum : Z) (cands : list Z) : outcome (Z * list Z) :=
  match sess rq with
  | None => Ok (sum, cands)
  | Some l =>
      let n := min_num_servers_lantency_awareness l in
      if negb (n =? 0) && (n <=? Z.of_nat (length cands)) then
        k ← count_with_latency h cands;
        if (k =? length cands)%nat then
          total ← total_of current_latency_us h cands 0;
          if (length cands =? 0)%nat then Fault DivByZero
          else
            cands ← remove_slow (S (length cands)) h (total / Z.of_nat (length cands)) 0 cands;
            sum ← total_of weight h cands 0;
            Ok (sum, cands)
        else Ok (sum, cands)
      else Ok (sum, cands)
  end.

(** ** The draw *)
Fixpoint draw (h : HGM) (k sum : Z) (cands : list Z) : outcome (option Z) :=
  match cands with
  | [] => Ok None
  | p :: cands' =>
      s ← get_srv h p;
      let sum := u32 (sum + weight s) in
      if k <=? sum then Ok (Some p) else draw h k sum cands'
  end.

(** [r31] is the next value of [rand()], [r15] that of [fastrand()]. *)
Definition pick (r31 r15 : Z) (h : HGM) (sum : Z) (cands : list Z) : outcome (option Z) :=
  if sum =? 0 then Fault DivByZero
  else draw h ((if 32768 <? sum then r31 else r15) mod sum + 1) 0 cands.

Definition capacity (l : nat) : nat := if (32 <? l)%nat then l else 32.

Definition get_random_MySrvC (v : variables) (rq : request) (now : Z → Z) (t r31 r15 : Z) (i : nat) (h : HGM)
  : outcome (HGM * option Z) :=
  g ← get_hgc h i;
  let cap := capacity (length (mysrvs g)) in
  if (length (mysrvs g) =? 0)%nat then Ok (h, None)
  else
    '(h, sum, cands) ← collect v rq cap now (mysrvs g) h 0 [];
    '(sum, cands) ← leave_writer_out rq h sum cands;
    '(h, sum, cands) ← (if sum =? 0 then desperate v rq cap t (mysrvs g) h sum cands else Ok (h, sum, cands));
    if sum =? 0 then Ok (h, None)
    else
      '(sum, cands) ← latency_awareness rq h sum cands;
      o ← pick r31 r15 h sum cands;
      Ok (h, o).

(** ** What one visit does *)
Definition brought_back (v : variables) (t : Z) (s : MySrvC) : bool :=
  status_is (status s) SHUNNED && (shunned_automatic s && negb (shun_recovery_time_sec v =? 0) && may_unshun s t (max_wait v)).
Definition after_visit (v : variables) (t : Z) (s : MySrvC) : MySrvC := if brought_back v t s then recovered s else s.
(** Fit to serve the request: online, near enough, and up to date. *)
Definition fit (v : variables) (rq : request) (s : MySrvC) : bool :=
  status_is (status s) ONLINE && latency_ok v s && may_serve rq s.
(** Taken as a candidate; [room] says that the hostgroup has not too many servers online. *)
Definition taken (v : variables) (rq : request) (t : Z) (room : bool) (s : MySrvC) : bool :=
  fit v rq (after_visit v t s) &&
  (brought_back v t s || (room && (Z.of_nat (length (ConnectionsUsed s)) <? max_connections s))).

(** The request comes from a session wherever the code uses the session. *)
Definition has_session (rq : request) : Prop := sess rq = None → max_lag_ms rq < 0 ∧ gtid_trxid rq = 0.

Definition weight_of (h : HGM) (p : Z) : Z := match servers h !! p with Some s => weight s | None => 0 end.
Definition wsum (h : HGM) (ps : list Z) : Z := foldr (λ p a, weight_of h p + a) 0 ps.

Lemma wsum_app h l l' : wsum h (l ++ l') = wsum h l + wsum h l'.
Proof. unfold wsum. induction l as [|p l IH]; [done|]. cbn. rewrite IH. lia. Qed.
#[export] Instance wsum_perm h : Proper ((≡ₚ) ==> eq) (wsum h).
Proof. induction 1; unfold wsum in *; cbn; lia. Qed.
Lemma wsum_ext h h' l : (∀ p, p ∈ l → weight_of h' p = weight_of h p) → wsum h' l = wsum h l.
Proof.
  intros H. unfold wsum. induction l as [|p l IH]; [done|]. cbn. rewrite H by left.
  rewrite IH; [done|]. intros q Hq. apply H. by right.
Qed.

Lemma capacity_ge l : (l ≤ capacity l)%nat.
Proof. unfold capacity. destruct (Nat.ltb_spec 32 l); lia. Qed.

Section Choice.
Context (k : bool) (v : variables) (rq : request) (i : nat).
Implicit Types (h : HGM) (s : MySrvC) (cands l : list Z).

(** The other servers of the hostgroup stay what they are. *)
Definition frame (ps : list Z) h h' : Prop :=
  ∀ q s, q ∉ ps → servers h !! q = Some s → myhgc s = Some i → servers h' !! q = Some s.

Lemma frame_trans ps qs h1 h2 h3 : frame ps h1 h2 → frame qs h2 h3 → frame (ps ++ qs) h1 h3.
Proof. intros F1 F2 q s [? ?]%not_elem_of_app ? ?. apply F2; [done| |done]. by apply F1. Qed.

(** Candidates are different servers of the hostgroup, and fit. *)
Definition candidates (l : list Z) h cands : Prop :=
  NoDup cands ∧ ∀ q, q ∈ cands → q ∈ l ∧ ∃ s, servers h !! q = Some s ∧ myhgc s = Some i ∧ fit v rq s = true.

Lemma candidates_frame l ps h h' cands : candidates l h cands → frame ps h h' → (∀ q, q ∈ cands → q ∉ ps) → candidates l h' cands.
Proof.
  intros [Hn Hc] F Hd. split; [done|]. intros q Hq. destruct (Hc q Hq) as (Hl & s & Hs & Hi & Hf). split; [done|].
  exists s. split; [apply F; auto | done].
Qed.

Lemma candidates_add l h cands p s :
  candidates l h cands → p ∉ cands → p ∈ l → servers h !! p = Some s → myhgc s = Some i → fit v rq s = true →
  candidates l h (cands ++ [p]) ∧ (length cands < length l)%nat.
Proof.
  intros [Hn Hc] Hp Hl Hs Hi Hf. split.
  - split; [apply NoDup_app; split; [done|]; split; [|apply NoDup_singleton]; intros q Hq ->%list_elem_of_singleton; done|].
    intros q [Hq| ->%list_elem_of_singleton]%elem_of_app; [by apply Hc|]. split; [done|]. by exists s.
  - assert (length (p :: cands) ≤ length l)%nat; [|cbn in *; lia].
    apply submseteq_length, NoDup_submseteq; [by constructor|]. intros q [->|Hq]%elem_of_cons; [done|]. by apply Hc.
Qed.

Lemma add_candidate_ok (l cands : list Z) p s sum :
  (length cands < length l)%nat → add_candidate (capacity (length l)) p s sum cands = Ok (u32 (sum + weight s), cands ++ [p]).
Proof.
  intros Hl. unfold add_candidate. pose proof (capacity_ge (length l)).
  by replace (length cands <? capacity (length l))%nat with true by (symmetry; apply Nat.ltb_lt; lia).
Qed.

Lemma fit_recovered s : fit v rq (recovered s) = latency_ok v s && may_serve rq s.
Proof. done. Qed.
Lemma weight_after t s : weight (after_visit v t s) = weight s ∧ myhgc (after_visit v t s) = myhgc s.
Proof. unfold after_visit. by destruct (brought_back v t s). Qed.

Lemma frame_unshun_all h addr prt t w g :
  Inv k h → MyHostGroups h !! i = Some g →
  ∃ h', unshun_server_all_hostgroups addr prt t w (Some (hid g)) h = Ok h' ∧ Inv k h' ∧ same_skeleton h h' ∧ frame [] h h'.
Proof.
  intros HI Hg. destruct (unshun_loop_spec k (length (MyHostGroups h)) 0 addr prt t w (Some (hid g)) h HI) as (h' & E & HI' & HS & Hq); [lia|].
  exists h'. split; [done|]. split; [done|]. split; [done|]. intros q s _ Hs Hi. rewrite Hq, Hs. cbn [mbind option_bind].
  unfold comes_back. rewrite Hi, Hg, bool_decide_true by done. cbn [andb negb]. by rewrite andb_false_r.
Qed.

(** One visit of the first loop. *)
Definition step_ok (l : list Z) h h' (p : Z) (t : Z) s (added : bool) : Prop :=
  Inv k h' ∧ same_skeleton h h' ∧ frame [p] h h' ∧ servers h' !! p = Some (after_visit v t s) ∧
  (added = true → taken v rq t true s = true).

Lemma frame_set h p s' : frame [p] h (set_srv p s' h).
Proof. intros q s Hq Hs _. cbn. rewrite lookup_insert_ne; [done|]. intros <-. apply Hq. left. Qed.

Lemma visit_online_ok l h p s sum cands g :
  Inv k h → MyHostGroups h !! i = Some g → servers h !! p = Some s → myhgc s = Some i → status s = ONLINE →
  has_session rq → p ∈ l → p ∉ cands → candidates l h cands →
  ∃ b : bool, visit_online v rq (capacity (length l)) p s h sum cands =
    Ok (h, (if b then u32 (sum + weight s) else sum), (if b then cands ++ [p] else cands)) ∧
    b = taken v rq 0 (online_servers_within_threshold g) s ∧ (b = true → candidates l h (cands ++ [p])).
Proof.
  intros HI Hg Hs Hi Hst Hrq Hl Hp Hc. unfold visit_online. rewrite Hi, (get_hgc_ok _ _ _ Hg). cbn [mbind outcome_bind].
  assert (Hbb : brought_back v 0 s = false) by (unfold brought_back, status_is; by rewrite Hst).
  assert (Ho : status_is (status s) ONLINE = true) by (by rewrite Hst).
  unfold taken, after_visit, fit. rewrite Hbb, Ho. cbn [andb orb].
  set (b1 := online_servers_within_threshold g) in *. set (b2 := _ <? max_connections s) in *.
  destruct (latency_ok v s) eqn:El; [|exists false; by rewrite !andb_false_r]. rewrite andb_true_r.
  destruct (may_serve rq s) eqn:Em.
  - destruct (candidates_add l h cands p s) as [Hc' Hlen]; try done.
    { unfold fit, status_is. by rewrite Hst, El, Em. }
    destruct (b1 && b2); [|by exists false]. rewrite add_candidate_ok by done. by exists true.
  - destruct (b1 && b2); [|by exists false]. exists false. cbn [andb]. split; [|done].
    destruct (gtid_trxid rq =? 0) eqn:Eg; [|done]. case_bool_decide as Ess; [|done]. exfalso.
    unfold may_serve in Em. rewrite Eg in Em. cbn [negb] in Em. destruct (Hrq Ess). destruct (Z.leb_spec 0 (max_lag_ms rq)); [lia | done].
Qed.

Lemma consider_recovered_ok l h p s sum cands :
  servers h !! p = Some s → myhgc s = Some i → status s = ONLINE → p ∈ l → p ∉ cands → candidates l h cands →
  consider_recovered v rq (capacity (length l)) p h sum cands =
    Ok (h, (if fit v rq s then u32 (sum + weight s) else sum), (if fit v rq s then cands ++ [p] else cands)) ∧
  (fit v rq s = true → candidates l h (cands ++ [p])).
Proof.
  intros Hs Hi Hst Hl Hp Hc. unfold consider_recovered. rewrite (get_srv_ok _ _ _ Hs). cbn [mbind outcome_bind].
  assert (Ef : fit v rq s = latency_ok v s && may_serve rq s) by (unfold fit, status_is; by rewrite Hst).
  rewrite <- Ef. destruct (fit v rq s) eqn:E; [|done].
  destruct (candidates_add l h cands p s) as [Hc' Hlen]; try done. by rewrite add_candidate_ok.
Qed.

Lemma visit_shunned_ok l h p s t sum cands g :
  Inv k h → MyHostGroups h !! i = Some g → servers h !! p = Some s → myhgc s = Some i → status s = SHUNNED →
  p ∈ l → p ∉ cands → candidates l h cands →
  ∃ h', visit_shunned v rq (capacity (length l)) t p s h sum cands =
    Ok (h', (if taken v rq t true s then u32 (sum + weight s) else sum), (if taken v rq t true s then cands ++ [p] else cands)) ∧
    Inv k h' ∧ same_skeleton h h' ∧ frame [p] h h' ∧ servers h' !! p = Some (after_visit v t s) ∧
    candidates l h' (if taken v rq t true s then cands ++ [p] else cands).
Proof.
  intros HI Hg Hs Hi Hst Hl Hp Hc. unfold visit_shunned.
  assert (Hbb : brought_back v t s = shunned_automatic s && negb (shun_recovery_time_sec v =? 0) && may_unshun s t (max_wait v)).
  { unfold brought_back, status_is. by rewrite Hst. }
  unfold taken, after_visit. rewrite <- Hbb. destruct (brought_back v t s) eqn:Eb.
  2: { exists h. assert (fit v rq s = false) as -> by (unfold fit, status_is; by rewrite Hst). cbn [andb].
       split; [done|]. split; [done|]. split; [done|]. split; [|done]. by intros q. }
  destruct (unshun_spec k h p s HI Hs) as (h1 & -> & HI1 & HS1 & E1). cbn [mbind outcome_bind].
  assert (F1 : frame [p] h h1).
  { intros q s' Hq Hs' _. rewrite E1, lookup_insert_ne; [done|]. intros <-. apply Hq. left. }
  assert (Hs1 : servers h1 !! p = Some (recovered s)) by (by rewrite E1, lookup_insert_eq).
  assert (∃ h2, (if unshun_algorithm v =? 1 then match myhgc s with None => Fault NullPointer | Some i =>
      g ← get_hgc h1 i; unshun_server_all_hostgroups (address s) (port s) t (max_wait v) (Some (hid g)) h1 end else Ok h1) = Ok h2 ∧
      Inv k h2 ∧ same_skeleton h1 h2 ∧ frame [] h1 h2) as (h2 & -> & HI2 & HS2 & F2).
  { destruct (unshun_algorithm v =? 1); [|exists h1; split; [done|]; split; [done|]; split; [done|]; by intros q].
    rewrite Hi. destruct (same_skeleton_hgc h h1 i g HS1 Hg) as (g1 & Hg1 & _). rewrite (get_hgc_ok _ _ _ Hg1). cbn [mbind outcome_bind].
    by apply frame_unshun_all. }
  cbn [mbind outcome_bind]. assert (Hs2 : servers h2 !! p = Some (recovered s)) by (by apply F2; [apply not_elem_of_nil| |]).
  assert (F : frame [p] h h2) by exact (frame_trans [p] [] _ _ _ F1 F2).
  destruct (consider_recovered_ok l h2 p (recovered s) sum cands) as [E Hc2]; try done.
  { eapply candidates_frame; [done|exact F|]. intros q Hq ->%list_elem_of_singleton. done. }
  exists h2. rewrite E. cbn [orb]. rewrite andb_true_r. split; [done|]. split; [done|]. split; [by etrans|]. split; [done|].
  split; [done|]. destruct (fit v rq (recovered s)); [by apply Hc2|].
  eapply candidates_frame; [done|exact F|]. intros q Hq ->%list_elem_of_singleton. done.
Qed.

(** The hostgroup always has room for all its online servers. *)
Definition roomy h : Prop :=
  ∀ h' g, same_skeleton h h' → Inv k h' → MyHostGroups h' !! i = Some g → online_servers_within_threshold g = true.

Lemma roomy_trans h h' : same_skeleton h h' → roomy h → roomy h'.
Proof. intros HS Hr h2 g HS2. apply Hr. by etrans. Qed.

Lemma taken_online t t' b s : status s = ONLINE → taken v rq t b s = taken v rq t' b s.
Proof.
  intros Hst. unfold taken, after_visit. assert (∀ t, brought_back v t s = false) as Hb by (intros; unfold brought_back; by rewrite Hst).
  by rewrite !Hb.
Qed.
Lemma taken_room t b s : taken v rq t b s = true → taken v rq t true s = true.
Proof. unfold taken. intros [-> H]%andb_prop. cbn. destruct (brought_back v t s); [done|]. cbn in *. by apply andb_prop in H as [_ ->]. Qed.

Lemma wsum_frame h h' ps cands : frame ps h h' → (∀ q, q ∈ cands → (q ∉ ps) ∧ ∃ s, servers h !! q = Some s ∧ myhgc s = Some i) →
  wsum h' cands = wsum h cands.
Proof.
  intros F Hc. apply wsum_ext. intros q Hq. destruct (Hc q Hq) as (Hn & s & Hs & Hi). unfold weight_of. by rewrite Hs, (F q s).
Qed.

Definition members (l : list Z) h (ps : list Z) : Prop := ∀ p, p ∈ ps → p ∈ l ∧ ∃ s, servers h !! p = Some s ∧ myhgc s = Some i.

(** A visit: the state after it, and whether the server became a candidate. *)
Lemma visit_ok l h p s t sum cands g :
  Inv k h → MyHostGroups h !! i = Some g → servers h !! p = Some s → myhgc s = Some i → has_session rq →
  p ∈ l → p ∉ cands → candidates l h cands → sum = u32 (wsum h cands) →
  ∃ h' (b : bool), (if status_is (status s) ONLINE then visit_online v rq (capacity (length l)) p s h sum cands
     else if status_is (status s) SHUNNED then visit_shunned v rq (capacity (length l)) t p s h sum cands
     else Ok (h, sum, cands)) = Ok (h', u32 (wsum h' (cands ++ if b then [p] else [])), cands ++ if b then [p] else []) ∧
    Inv k h' ∧ same_skeleton h h' ∧ frame [p] h h' ∧ servers h' !! p = Some (after_visit v t s) ∧
    candidates l h' (cands ++ if b then [p] else []) ∧ (b = true → taken v rq t true s = true) ∧
    (roomy h → taken v rq t true s = true → b = true).
Proof.
  intros HI Hg Hs Hi Hrq Hl Hp Hc Hsum.
  assert (Hw : ∀ h', frame [p] h h' → servers h' !! p = Some (after_visit v t s) → ∀ b : bool,
    (if b then u32 (sum + weight s) else sum) = u32 (wsum h' (cands ++ if b then [p] else []))).
  { intros h' F Hs' b. rewrite wsum_app, (wsum_frame h h' [p] cands F).
    2: { intros q Hq. split; [intros ->%list_elem_of_singleton; done|]. destruct (proj2 Hc q Hq) as (_ & s' & Hs2 & Hi' & _). by exists s'. }
    subst sum. destruct b; [|cbn; by rewrite Z.add_0_r]. rewrite u32_add_idemp. cbn. unfold weight_of. rewrite Hs'.
    destruct (weight_after t s) as [-> _]. by rewrite Z.add_0_r. }
  assert (Hb : ∀ b : bool, (if b then cands ++ [p] else cands) = cands ++ (if b then [p] else [])) by (intros []; [done | by rewrite app_nil_r]).
  destruct (status s) eqn:Hst; cbn [status_is]; unfold status_is; cbn.
  2: { destruct (visit_shunned_ok l h p s t sum cands g) as (h' & -> & HI' & HS' & F & Hs' & Hc'); try done.
       exists h', (taken v rq t true s). rewrite Hb in Hc' |- *. rewrite (Hw h' F Hs'). split_and!; try done; apply HI' || apply HS'. }
  1: { destruct (visit_online_ok l h p s sum cands g) as (b & -> & Eb & Hc'); try done. exists h, b.
       assert (after_visit v t s = s) as Ha by (unfold after_visit, brought_back; by rewrite Hst).
       assert (F : frame [p] h h) by (by intros q). rewrite Ha.
       rewrite (Hw h F) by (by rewrite Ha). rewrite Hb.
       split; [done|]. split; [done|]. split; [done|]. split; [done|]. split; [done|]. split; [destruct b; [by apply Hc' | by rewrite app_nil_r]|].
       rewrite (taken_online 0 t) in Eb by done. split; [intros ->; by eapply taken_room, eq_sym|].
       intros Hr Ht. rewrite Eb. by rewrite (Hr h g). }
  all: exists h, false; rewrite app_nil_r; subst sum; split; [done|]; split; [done|]; split; [done|]; split; [by intros q|];
    assert (after_visit v t s = s) as Ha by (unfold after_visit, brought_back; by rewrite Hst); rewrite Ha;
    split; [done|]; split; [done|]; split; [done|]; intros _; unfold taken; rewrite Ha; unfold fit; by rewrite Hst.
Qed.

Lemma collect_ok now l ps h sum cands g :
  Inv k h → MyHostGroups h !! i = Some g → has_session rq → NoDup ps → members l h ps → (∀ p, p ∈ ps → p ∉ cands) →
  candidates l h cands → sum = u32 (wsum h cands) →
  ∃ h' sel, collect v rq (capacity (length l)) now ps h sum cands = Ok (h', u32 (wsum h' (cands ++ sel)), cands ++ sel) ∧
    Inv k h' ∧ same_skeleton h h' ∧ frame ps h h' ∧ candidates l h' (cands ++ sel) ∧
    (∀ p, p ∈ sel → p ∈ ps) ∧
    ∀ p s, p ∈ ps → servers h !! p = Some s → servers h' !! p = Some (after_visit v (now p) s) ∧
      (p ∈ sel → taken v rq (now p) true s = true) ∧ (roomy h → taken v rq (now p) true s = true → p ∈ sel).
Proof.
  revert h sum cands g. induction ps as [|p ps IH]; intros h sum cands g HI Hg Hrq Hnd Hm Hd Hc Hsum.
  { exists h, []. rewrite app_nil_r. subst sum. split; [done|]. split; [done|]. split; [done|]. split; [by intros q|].
    split; [done|]. split; [done|]. intros p s Hp. by apply elem_of_nil in Hp. }
  apply NoDup_cons in Hnd as [Hpp Hnd]. destruct (Hm p) as (Hl & s & Hs & Hi); [left|].
  cbn [collect]. rewrite (get_srv_ok _ _ _ Hs). cbn [mbind outcome_bind].
  destruct (visit_ok l h p s (now p) sum cands g) as (h1 & b & -> & HI1 & HS1 & F1 & Hs1 & Hc1 & Hb1 & Hb2); try done.
  { apply Hd. left. }
  cbn [mbind outcome_bind]. destruct (same_skeleton_hgc h h1 i g HS1 Hg) as (g1 & Hg1 & _).
  destruct (IH h1 (u32 (wsum h1 (cands ++ if b then [p] else []))) (cands ++ if b then [p] else []) g1)
    as (h2 & sel & -> & HI2 & HS2 & F2 & Hc2 & Hsel & Hps); try done.
  { intros q Hq. destruct (Hm q) as (Hql & s' & Hs' & Hi'); [by right|]. split; [done|]. exists s'. split; [|done].
    apply F1; [|done|done]. by intros ->%list_elem_of_singleton. }
  { intros q Hq [Hqc|Hqp]%elem_of_app; [apply (Hd q); [by right | done]|].
    destruct b; [apply list_elem_of_singleton in Hqp as ->; done | by apply elem_of_nil in Hqp]. }
  exists h2, ((if b then [p] else []) ++ sel). rewrite app_assoc. split; [done|]. split; [done|]. split; [by etrans|].
  split; [exact (frame_trans [p] ps _ _ _ F1 F2)|]. split; [done|]. split.
  { intros q [Hq|Hq]%elem_of_app; [|right; by apply Hsel]. destruct b; [by apply list_elem_of_singleton in Hq as ->; left | by apply elem_of_nil in Hq]. }
  intros q s' [->|Hq]%elem_of_cons Hs'.
  - rewrite Hs in Hs'. injection Hs' as <-. split.
    + apply F2; [done|done|]. by rewrite (proj2 (weight_after (now p) s)).
    + split.
      * intros [Hq|Hq]%elem_of_app; [destruct b; [by apply Hb1 | by apply elem_of_nil in Hq]|]. destruct Hpp. by apply Hsel.
      * intros Hr Ht. rewrite Hb2 by done. apply elem_of_app. left. left.
  - assert (Hne : q ∉ [p]) by (intros ->%list_elem_of_singleton; done).
    destruct (Hm q) as (_ & s2 & Hs2 & Hi2); [by right|]. assert (s2 = s') as -> by congruence.
    destruct (Hps q s' Hq) as (E & E1 & E2); [by apply F1|]. split; [done|]. split.
    + intros [Hqp|Hqs]%elem_of_app; [|by apply E1]. destruct b; [done | by apply elem_of_nil in Hqp].
    + intros Hr Ht. apply elem_of_app. right. apply E2; [by apply (roomy_trans h)|done].
Qed.

(** *** Leaving the writer out *)
Lemma candidates_sub l h cands cands' : candidates l h cands → NoDup cands' → (∀ q, q ∈ cands' → q ∈ cands) → candidates l h cands'.
Proof. intros [_ Hc] Hn Hs. split; [done|]. intros q Hq. by apply Hc, Hs. Qed.

Lemma array_remove_ok (cands : list Z) j p : cands !! j = Some p →
  ∃ cands', array_remove j cands = Ok (p, cands') ∧ cands ≡ₚ p :: cands'.
Proof.
  intros Hj. destruct (swap_remove_is_Some j cands) as (x & c' & E & Hx); [by eapply lookup_lt_Some|].
  assert (x = p) as -> by congruence. exists c'. unfold array_remove. rewrite E. split; [done|]. by eapply swap_remove_perm.
Qed.

Lemma candidates_remove l h cands p cands' : candidates l h cands → cands ≡ₚ p :: cands' → candidates l h cands'.
Proof.
  intros Hc Hp. pose proof (proj1 Hc) as Hn. rewrite Hp in Hn. apply NoDup_cons in Hn as [_ Hn].
  eapply candidates_sub; [done|done|]. intros q Hq. rewrite Hp. by right.
Qed.

Lemma remove_writers_ok l fuel h j sum cands :
  candidates l h cands → sum = u32 (wsum h cands) → (length cands - j < fuel)%nat →
  ∃ cands', remove_writers fuel h j sum cands = Ok (u32 (wsum h cands'), cands') ∧ candidates l h cands' ∧ ∀ q, q ∈ cands' → q ∈ cands.
Proof.
  revert j sum cands. induction fuel as [|fuel IH]; intros j sum cands Hc Hsum Hf; [lia|]. cbn [remove_writers].
  destruct (cands !! j) as [p|] eqn:Hj; [|exists cands; by subst sum].
  pose proof (lookup_lt_Some _ _ _ Hj). destruct (proj2 Hc p) as (_ & s & Hs & _); [by apply list_elem_of_lookup_2 with j|].
  rewrite (get_srv_ok _ _ _ Hs). cbn [mbind outcome_bind]. destruct (_ =? 0); [|apply IH; [done|done|lia]].
  destruct (array_remove_ok cands j p Hj) as (c1 & -> & Hp). cbn [mbind outcome_bind].
  pose proof (Permutation_length Hp) as Hlen. cbn in Hlen.
  destruct (IH (S j) (u32 (sum - weight s)) c1) as (c2 & -> & Hc2 & Hq).
  - by eapply candidates_remove.
  - subst sum. rewrite u32_sub_idemp, Hp. f_equal. change (wsum h (p :: c1)) with (weight_of h p + wsum h c1).
    unfold weight_of. rewrite Hs. lia.
  - lia.
  - exists c2. split; [done|]. split; [done|]. intros q Hq2. rewrite Hp. right. by apply Hq.
Qed.

Lemma total_of_ok f h ps acc : (∀ p, p ∈ ps → allocated h p) → ∃ n, total_of f h ps acc = Ok n.
Proof.
  revert acc. induction ps as [|p ps IH]; intros acc Hp; [by exists acc|]. cbn [total_of].
  destruct (Hp p) as [s Hs]; [left|]. rewrite (get_srv_ok _ _ _ Hs). cbn [mbind outcome_bind]. apply IH. intros q Hq. apply Hp. by right.
Qed.

Lemma candidates_allocated l h cands p : candidates l h cands → p ∈ cands → allocated h p.
Proof. intros [_ Hc] (_ & s & Hs & _)%Hc. by exists s. Qed.

Lemma leave_writer_out_ok l h cands :
  has_session rq → candidates l h cands →
  ∃ cands', leave_writer_out rq h (u32 (wsum h cands)) cands = Ok (u32 (wsum h cands'), cands') ∧ candidates l h cands' ∧
    (∀ q, q ∈ cands' → q ∈ cands) ∧ (max_lag_ms rq ≤ 0 → cands' = cands).
Proof.
  intros Hrq Hc. unfold leave_writer_out. destruct (Z.ltb_spec 0 (max_lag_ms rq)) as [Hlt|]; [|by exists cands].
  destruct (sess rq) as [se|] eqn:Es; [|destruct (Hrq Es); lia]. cbn zeta. destruct (_ && _); [|by exists cands].
  destruct (total_of_ok aws_aurora_current_lag_us h cands 0) as [n ->]; [by intros p; apply (candidates_allocated l)|].
  cbn [mbind outcome_bind]. destruct (negb _); [|by exists cands].
  destruct (remove_writers_ok l (S (length cands)) h 0 (u32 (wsum h cands)) cands Hc eq_refl) as (c' & -> & Hc' & Hq); [lia|].
  exists c'. split; [done|]. split; [done|]. split; [done|]. lia.
Qed.

(** *** The desperate attempt *)
Definition revived s : MySrvC :=
  s <| status := ONLINE |> <| shunned_automatic := false |> <| connect_ERR_at_time_last_detected_error := 0 |> <| time_last_detected_error := 0 |>.
Definition revives (t : Z) s : bool :=
  status_is (status s) SHUNNED && shunned_automatic s && (desperate_wait v <? t - time_last_detected_error s).

Lemma desperate_ok t l ps h sum cands :
  Inv k h → NoDup ps → members l h ps → candidates l h cands → sum = u32 (wsum h cands) →
  ∃ h' sel, desperate v rq (capacity (length l)) t ps h sum cands = Ok (h', u32 (wsum h' (cands ++ sel)), cands ++ sel) ∧
    Inv k h' ∧ same_skeleton h h' ∧ frame ps h h' ∧ candidates l h' (cands ++ sel) ∧
    (∀ p, p ∈ sel → p ∈ ps) ∧
    ∀ p s, p ∈ ps → servers h !! p = Some s → servers h' !! p = Some (if revives t s then revived s else s) ∧
      (p ∈ sel ↔ revives t s = true ∧ fit v rq (revived s) = true).
Proof.
  revert h sum cands. induction ps as [|p ps IH]; intros h sum cands HI Hnd Hm Hc Hsum.
  { exists h, []. rewrite app_nil_r. subst sum. split; [done|]. split; [done|]. split; [done|]. split; [by intros q|].
    split; [done|]. split; [done|]. intros p s Hp. by apply elem_of_nil in Hp. }
  apply NoDup_cons in Hnd as [Hpp Hnd]. destruct (Hm p) as (Hl & s & Hs & Hi); [left|].
  cbn [desperate]. rewrite (get_srv_ok _ _ _ Hs). cbn [mbind outcome_bind]. fold (revives t s).
  assert (Hstep : ∃ h1 (b : bool), (if revives t s then
       h1 ← set_status p ONLINE h; s ← get_srv h1 p;
       consider_recovered v rq (capacity (length l)) p
         (set_srv p (s <| shunned_automatic := false |> <| connect_ERR_at_time_last_detected_error := 0 |>
                       <| time_last_detected_error := 0 |>) h1) sum cands
      else Ok (h, sum, cands)) = Ok (h1, u32 (wsum h1 (cands ++ if b then [p] else [])), cands ++ if b then [p] else []) ∧
    Inv k h1 ∧ same_skeleton h h1 ∧ frame [p] h h1 ∧ servers h1 !! p = Some (if revives t s then revived s else s) ∧
    candidates l h1 (cands ++ if b then [p] else []) ∧ b = revives t s && fit v rq (revived s)).
  { destruct (revives t s) eqn:Er.
    2: { exists h, false. rewrite app_nil_r. subst sum. split; [done|]. split; [done|]. split; [done|]. split; [by intros q|]. done. }
    apply andb_prop in Er as [[Hst%bool_decide_eq_true Hau]%andb_prop Ht].
    assert (Hpc : p ∉ cands).
    { intros Hq. destruct (proj2 Hc p Hq) as (_ & s' & Hs' & _ & Hf). assert (s' = s) as -> by congruence.
      unfold fit in Hf. by rewrite Hst in Hf. }
    destruct (set_status_spec k h p s ONLINE HI Hs) as (h1 & -> & HI1 & HS1 & E1 & _). cbn [mbind outcome_bind].
    assert (Hs1 : servers h1 !! p = Some (s <| status := ONLINE |>)) by (by rewrite E1, lookup_insert_eq).
    rewrite (get_srv_ok _ _ _ Hs1). cbn [mbind outcome_bind]. fold (revived s).
    destruct (safe_field k h1 p _ (revived s) HI1 Hs1) as (h2 & [= <-] & HI2 & HS2); try done.
    assert (E2 : servers (set_srv p (revived s) h1) = <[p := revived s]> (servers h)) by (cbn; by rewrite E1, insert_insert_eq).
    assert (F : frame [p] h (set_srv p (revived s) h1)).
    { intros q s' Hq Hs' _. rewrite E2, lookup_insert_ne; [done|]. intros <-. apply Hq. left. }
    assert (Hs2 : servers (set_srv p (revived s) h1) !! p = Some (revived s)) by (by rewrite E2, lookup_insert_eq).
    assert (Hnp : ∀ q, q ∈ cands → q ∉ [p]) by (intros q Hq ->%list_elem_of_singleton; done).
    assert (Hc2 : candidates l (set_srv p (revived s) h1) cands) by (by eapply candidates_frame).
    destruct (consider_recovered_ok l (set_srv p (revived s) h1) p (revived s) sum cands) as [E3 Hc3]; try done.
    rewrite E3. exists (set_srv p (revived s) h1), (fit v rq (revived s)).
    assert (Hw : wsum (set_srv p (revived s) h1) cands = wsum h cands).
    { eapply wsum_frame; [done|]. intros q Hq. split; [by apply Hnp|]. destruct (proj2 Hc q Hq) as (_ & s' & Hs' & Hi' & _). by exists s'. }
    rewrite wsum_app, Hw. subst sum. split.
    { destruct (fit v rq (revived s)); [|by rewrite Z.add_0_r, app_nil_r]. cbn [wsum foldr]. unfold weight_of. rewrite Hs2.
      by rewrite u32_add_idemp, Z.add_0_r. }
    split; [done|]. split; [by etrans|]. split; [done|]. split; [done|]. split; [|done].
    destruct (fit v rq (revived s)); [by apply Hc3 | by rewrite app_nil_r]. }
  destruct Hstep as (h1 & b & -> & HI1 & HS1 & F1 & Hs1 & Hc1 & Hb). cbn [mbind outcome_bind].
  destruct (IH h1 (u32 (wsum h1 (cands ++ if b then [p] else []))) (cands ++ if b then [p] else []))
    as (h2 & sel & -> & HI2 & HS2 & F2 & Hc2 & Hsel & Hps); try done.
  { intros q Hq. destruct (Hm q) as (Hql & s' & Hs' & Hi'); [by right|]. split; [done|]. exists s'. split; [|done].
    apply F1; [|done|done]. by intros ->%list_elem_of_singleton. }
  exists h2, ((if b then [p] else []) ++ sel). rewrite app_assoc. split; [done|]. split; [done|]. split; [by etrans|].
  split; [exact (frame_trans [p] ps _ _ _ F1 F2)|]. split; [done|]. split.
  { intros q [Hq|Hq]%elem_of_app; [|right; by apply Hsel]. destruct b; [by apply list_elem_of_singleton in Hq as ->; left | by apply elem_of_nil in Hq]. }
  intros q s' [->|Hq]%elem_of_cons Hs'.
  - rewrite Hs in Hs'. injection Hs' as <-. split.
    + apply F2; [done|done|]. by destruct (revives t s).
    + rewrite elem_of_app, <- andb_true_iff, <- Hb. destruct b; [split; [done|]; intros _; left; left|].
      split; [|done]. intros [Hq|Hq]; [by apply elem_of_nil in Hq|]. destruct Hpp. by apply Hsel.
  - assert (Hne : q ∉ [p]) by (intros ->%list_elem_of_singleton; done).
    destruct (Hm q) as (_ & s2 & Hs2 & Hi2); [by right|]. assert (s2 = s') as -> by congruence.
    destruct (Hps q s' Hq) as (E & E1); [by apply F1|]. split; [done|]. rewrite elem_of_app, E1. split; [|by right].
    intros [Hqp|?]; [|done]. destruct b; [done | by apply elem_of_nil in Hqp].
Qed.

(** *** Latency awareness *)
Lemma count_with_latency_ok h ps : (∀ p, p ∈ ps → allocated h p) → ∃ n, count_with_latency h ps = Ok n.
Proof.
  induction ps as [|p ps IH]; intros Hp; [by exists 0%nat|]. cbn [count_with_latency]. destruct (Hp p) as [s Hs]; [left|].
  rewrite (get_srv_ok _ _ _ Hs). cbn [mbind outcome_bind]. destruct IH as [n ->]; [intros q Hq; apply Hp; by right|]. by eexists.
Qed.

Lemma remove_slow_ok l fuel h avg j cands :
  candidates l h cands → (length cands - j < fuel)%nat →
  ∃ cands', remove_slow fuel h avg j cands = Ok cands' ∧ candidates l h cands' ∧ ∀ q, q ∈ cands' → q ∈ cands.
Proof.
  revert j cands. induction fuel as [|fuel IH]; intros j cands Hc Hf; [lia|]. cbn [remove_slow].
  destruct (cands !! j) as [p|] eqn:Hj; [|by exists cands].
  pose proof (lookup_lt_Some _ _ _ Hj). destruct (proj2 Hc p) as (_ & s & Hs & _); [by apply list_elem_of_lookup_2 with j|].
  rewrite (get_srv_ok _ _ _ Hs). cbn [mbind outcome_bind]. destruct (avg <? _); [|apply IH; [done|lia]].
  destruct (array_remove_ok cands j p Hj) as (c1 & -> & Hp). cbn [mbind outcome_bind].
  pose proof (Permutation_length Hp) as Hlen. cbn in Hlen.
  destruct (IH j c1) as (c2 & -> & Hc2 & Hq); [by eapply candidates_remove|lia|].
  exists c2. split; [done|]. split; [done|]. intros q Hq2. rewrite Hp. right. by apply Hq.
Qed.

Lemma total_weight h cands acc : (∀ p, p ∈ cands → allocated h p) → total_of weight h cands (u32 acc) = Ok (u32 (acc + wsum h cands)).
Proof.
  revert acc. induction cands as [|p ps IH]; intros acc Hp; [cbn; by rewrite Z.add_0_r|]. cbn [total_of].
  destruct (Hp p) as [s Hs]; [left|]. rewrite (get_srv_ok _ _ _ Hs). cbn [mbind outcome_bind]. rewrite u32_add_idemp.
  rewrite IH by (intros q Hq; apply Hp; by right). change (wsum h (p :: ps)) with (weight_of h p + wsum h ps).
  unfold weight_of. rewrite Hs. by rewrite Z.add_assoc.
Qed.

Definition latency_aware : Prop := ∃ se, sess rq = Some se ∧ min_num_servers_lantency_awareness se ≠ 0.

Lemma latency_aware_em : latency_aware ∨ ¬ latency_aware.
Proof.
  unfold latency_aware. destruct (sess rq) as [se|]; [|right; by intros (? & ? & _)].
  destruct (decide (min_num_servers_lantency_awareness se = 0)); [right; by intros (? & [= <-] & ?) | left; by exists se].
Qed.

Lemma latency_awareness_ok l h cands :
  candidates l h cands → cands ≠ [] →
  ∃ cands', latency_awareness rq h (u32 (wsum h cands)) cands = Ok (u32 (wsum h cands'), cands') ∧ candidates l h cands' ∧
    (∀ q, q ∈ cands' → q ∈ cands) ∧ (¬ latency_aware → cands' = cands).
Proof.
  intros Hc Hne. unfold latency_awareness. destruct (sess rq) as [se|] eqn:Es; [|by exists cands]. cbn zeta.
  destruct (negb _) eqn:En; [|by exists cands]. assert (Hla : latency_aware).
  { exists se. split; [done|]. intros E. rewrite E in En. done. }
  cbn [andb]. destruct (_ <=? _); [|by exists cands].
  assert (Hal : ∀ p, p ∈ cands → allocated h p) by (intros p; by apply (candidates_allocated l)).
  destruct (count_with_latency_ok h cands Hal) as [n ->]. cbn [mbind outcome_bind]. destruct (_ =? _)%nat; [|by exists cands].
  destruct (total_of_ok current_latency_us h cands 0 Hal) as [m ->]. cbn [mbind outcome_bind].
  destruct (length cands =? 0)%nat eqn:E0; [apply Nat.eqb_eq in E0; by destruct cands|].
  destruct (remove_slow_ok l (S (length cands)) h (m / Z.of_nat (length cands)) 0 cands Hc) as (c' & -> & Hc' & Hq); [lia|].
  cbn [mbind outcome_bind]. change 0 with (u32 0). rewrite total_weight by (intros p; by apply (candidates_allocated l)).
  exists c'. split; [done|]. split; [done|]. split; [done|]. done.
Qed.

(** *** The draw *)
Lemma draw_head h p cands k0 a :
  allocated h p → 0 ≤ weight_of h p → 0 ≤ a → a + weight_of h p < 2 ^ 32 →
  draw h k0 a (p :: cands) = if k0 <=? a + weight_of h p then Ok (Some p) else draw h k0 (a + weight_of h p) cands.
Proof.
  intros [s Hs] Hw Ha Hlt. cbn [draw]. rewrite (get_srv_ok _ _ _ Hs). cbn [mbind outcome_bind]. unfold weight_of in *. rewrite Hs in *.
  rewrite u32_small by lia. done.
Qed.

Definition weights_ok h cands : Prop := ∀ p, p ∈ cands → allocated h p ∧ 0 ≤ weight_of h p.
Lemma weights_ok_cons h p cands : weights_ok h (p :: cands) → (allocated h p ∧ 0 ≤ weight_of h p) ∧ weights_ok h cands.
Proof. intros H. split; [apply H; left|]. intros q Hq. apply H. by right. Qed.
Lemma wsum_nonneg h cands : weights_ok h cands → 0 ≤ wsum h cands.
Proof.
  induction cands as [|p cands IH]; intros H; [done|]. apply weights_ok_cons in H as [[_ Hp] H].
  specialize (IH H). change (wsum h (p :: cands)) with (weight_of h p + wsum h cands). lia.
Qed.
Lemma wsum_ge h cands p : weights_ok h cands → p ∈ cands → weight_of h p ≤ wsum h cands.
Proof.
  induction cands as [|q cands IH]; intros H Hp; [by apply elem_of_nil in Hp|]. apply weights_ok_cons in H as [[_ Hq] H].
  change (wsum h (q :: cands)) with (weight_of h q + wsum h cands). pose proof (wsum_nonneg h cands H).
  apply elem_of_cons in Hp as [->|Hp]; [lia|]. specialize (IH H Hp). lia.
Qed.

Lemma draw_some h cands k0 a :
  weights_ok h cands → 0 ≤ a → a < k0 → k0 ≤ a + wsum h cands → a + wsum h cands < 2 ^ 32 →
  ∃ p, draw h k0 a cands = Ok (Some p) ∧ p ∈ cands ∧ 0 < weight_of h p.
Proof.
  revert a. induction cands as [|p cands IH]; intros a Hw Ha Hk1 Hk2 Hs; [cbn in Hk2; lia|].
  apply weights_ok_cons in Hw as [[Hal Hp] Hw]. pose proof (wsum_nonneg h cands Hw) as Hn.
  change (wsum h (p :: cands)) with (weight_of h p + wsum h cands) in *. rewrite draw_head by (done || lia).
  destruct (Z.leb_spec k0 (a + weight_of h p)) as [Hle|Hgt].
  - exists p. split; [done|]. split; [left | lia].
  - destruct (IH (a + weight_of h p) Hw) as (q & E & Hq & Hpos); [lia..|]. exists q. split; [done|]. split; [by right | done].
Qed.

Lemma draw_in h cands k0 a p : draw h k0 a cands = Ok (Some p) → p ∈ cands.
Proof.
  revert a. induction cands as [|q cands IH]; intros a; [done|]. cbn [draw]. destruct (get_srv h q) as [s|]; [|done].
  cbn [mbind outcome_bind]. destruct (_ <=? _); [intros [= ->]; left | intros ?%IH; by right].
Qed.

Lemma draw_count h cands a p :
  weights_ok h cands → NoDup cands → 0 ≤ a → a + wsum h cands < 2 ^ 32 → p ∈ cands →
  Z.of_nat (length (filter (λ k0, draw h k0 a cands = Ok (Some p)) (seqZ (a + 1) (wsum h cands)))) = weight_of h p.
Proof.
  revert a. induction cands as [|q cands IH]; intros a Hw Hnd Ha Hs Hp; [by apply elem_of_nil in Hp|].
  apply weights_ok_cons in Hw as [[Hal Hq] Hw]. pose proof (wsum_nonneg h cands Hw) as Hn. apply NoDup_cons in Hnd as [Hqc Hnd].
  change (wsum h (q :: cands)) with (weight_of h q + wsum h cands) in *. rewrite seqZ_app by lia. rewrite filter_app, length_app.
  assert (Hin : ∀ k0, k0 ∈ seqZ (a + 1) (weight_of h q) → draw h k0 a (q :: cands) = Ok (Some q)).
  { intros k0 [? ?]%elem_of_seqZ. rewrite draw_head by (done || lia). by rewrite (proj2 (Z.leb_le _ _)) by lia. }
  assert (Hout : ∀ k0, k0 ∈ seqZ (a + 1 + weight_of h q) (wsum h cands) → draw h k0 a (q :: cands) = draw h k0 (a + weight_of h q) cands).
  { intros k0 [? ?]%elem_of_seqZ. rewrite draw_head by (done || lia). by rewrite (proj2 (Z.leb_gt _ _)) by lia. }
  apply elem_of_cons in Hp as [->|Hp].
  - rewrite filter_all by (intros k0 Hk0; by rewrite Hin). rewrite filter_none.
    2: { intros k0 Hk0. rewrite Hout by done. by intros ?%draw_in. }
    cbn [length]. rewrite length_seqZ. lia.
  - rewrite filter_none by (intros k0 Hk0; rewrite Hin by done; intros [= ->]; done).
    rewrite (list_filter_iff_in _ (λ k0, draw h k0 (a + weight_of h q) cands = Ok (Some p))) by (intros k0 Hk0; by rewrite Hout).
    cbn [length Nat.add]. replace (a + 1 + weight_of h q) with (a + weight_of h q + 1) by lia.
    apply IH; [done|done|lia|lia|done].
Qed.

(** *** The whole call *)

(** How a candidate that was [s] became [s'] in the call: it was online with a
    free place, or shunned by the proxy and brought back. *)
Definition origin (now : Z → Z) (t p : Z) s s' : Prop :=
  (status s = ONLINE ∧ s' = s ∧ Z.of_nat (length (ConnectionsUsed s)) < max_connections s) ∨
  (status s = SHUNNED ∧ shunned_automatic s = true ∧
   ((s' = recovered s ∧ may_unshun s (now p) (max_wait v) = true) ∨
    (s' = revived s ∧ desperate_wait v < t - time_last_detected_error s))).

Definition returnable (now : Z → Z) (t p : Z) s : bool :=
  taken v rq (now p) true s || (revives t s && fit v rq (revived s)).

Lemma taken_origin now t p s : taken v rq (now p) true s = true → origin now t p s (after_visit v (now p) s).
Proof.
  unfold taken, after_visit. destruct (brought_back v (now p) s) eqn:Eb.
  - intros _. right. apply andb_prop in Eb as [Hst%bool_decide_eq_true [[Ha _]%andb_prop Hm]%andb_prop]. auto.
  - cbn. intros [Hf Hlt%Z.ltb_lt]%andb_prop. left. unfold fit in Hf. apply andb_prop in Hf as [[Hst%bool_decide_eq_true _]%andb_prop _]. auto.
Qed.

Lemma revived_origin now t p s :
  revives t (after_visit v (now p) s) = true → after_visit v (now p) s = s ∧ origin now t p s (revived s).
Proof.
  unfold after_visit. destruct (brought_back v (now p) s); [done|]. intros H. split; [done|]. right.
  unfold revives in H. apply andb_prop in H as [[Hst%bool_decide_eq_true Ha]%andb_prop Ht%Z.ltb_lt]. auto.
Qed.

Lemma origin_unique_weight now t p s s' : origin now t p s s' → weight s' = weight s.
Proof. intros [(_ & -> & _)|(_ & _ & [[-> _]|[-> _]])]; done. Qed.

Lemma wsum_sub l h cands : (∀ p, p ∈ l → 0 ≤ weight_of h p) → NoDup cands → (∀ p, p ∈ cands → p ∈ l) → 0 ≤ wsum h cands ≤ wsum h l.
Proof.
  intros Hw Hn Hs. assert (cands ⊆+ l) as [r Hr]%submseteq_Permutation by (by apply NoDup_submseteq).
  assert (Hnn : ∀ ps, (∀ p, p ∈ ps → p ∈ l) → 0 ≤ wsum h ps).
  { induction ps as [|p ps IH]; intros Hps; [done|]. change (wsum h (p :: ps)) with (weight_of h p + wsum h ps).
    assert (0 ≤ weight_of h p) by (apply Hw, Hps; left). assert (0 ≤ wsum h ps); [|lia]. apply IH. intros q Hq. apply Hps. by right. }
  rewrite Hr, wsum_app. pose proof (Hnn cands Hs). assert (0 ≤ wsum h r); [|lia]. apply Hnn. intros p Hp. rewrite Hr. apply elem_of_app. by right.
Qed.

Lemma members_hostgroup h g : wf h → MyHostGroups h !! i = Some g → members (mysrvs g) h (mysrvs g).
Proof. intros W Hg p Hp. split; [done|]. by eapply mysrvs_allocated. Qed.

(** The candidates the call ends up with, before the slow ones are left out. *)
Definition outcome_of (now : Z → Z) (t r31 r15 : Z) h h' cands : Prop :=
  get_random_MySrvC v rq now t r31 r15 i h =
  if u32 (wsum h' cands) =? 0 then Ok (h', None)
  else '(sum, cands) ← latency_awareness rq h' (u32 (wsum h' cands)) cands; o ← pick r31 r15 h' sum cands; Ok (h', o).

Lemma selection_spec now t r31 r15 h g :
  Inv k h → MyHostGroups h !! i = Some g → has_session rq →
  ∃ h' cands, outcome_of now t r31 r15 h h' cands ∧ Inv k h' ∧ same_skeleton h h' ∧ candidates (mysrvs g) h' cands ∧
    (∀ p s, p ∈ mysrvs g → servers h !! p = Some s → ∃ s', servers h' !! p = Some s' ∧ weight s' = weight s ∧
      (p ∈ cands → origin now t p s s')) ∧
    (max_lag_ms rq ≤ 0 → roomy h → u32 (wsum h' cands) = 0 →
       ∀ p s, p ∈ mysrvs g → servers h !! p = Some s → returnable now t p s = true → p ∈ cands).
Proof.
  intros HI Hg Hrq. pose proof (members_hostgroup h g (proj1 HI) Hg) as Hm. pose proof (wf_arrays h (proj1 HI) i g Hg) as Hnd.
  assert (Hc0 : candidates (mysrvs g) h []) by (split; [apply NoDup_nil_2|]; intros q Hq; by apply elem_of_nil in Hq).
  unfold outcome_of, get_random_MySrvC. rewrite (get_hgc_ok _ _ _ Hg). cbn [mbind outcome_bind]. cbn zeta.
  destruct (length (mysrvs g) =? 0)%nat eqn:E0.
  { apply Nat.eqb_eq, nil_length_inv in E0. rewrite E0 in *. exists h, []. split; [done|]. split; [done|]. split; [done|]. split; [done|].
    split; [intros p s Hp; by apply elem_of_nil in Hp|]. intros _ _ _ p s Hp. by apply elem_of_nil in Hp. }
  destruct (collect_ok now (mysrvs g) (mysrvs g) h 0 [] g) as (h1 & c1 & -> & HI1 & HS1 & _ & Hc1 & _ & Hps); try done.
  { intros p _ Hp. by apply elem_of_nil in Hp. }
  cbn [mbind outcome_bind app] in *.
  destruct (leave_writer_out_ok (mysrvs g) h1 c1 Hrq Hc1) as (c2 & -> & Hc2 & Hsub & Hsame). cbn [mbind outcome_bind].
  destruct (u32 (wsum h1 c2) =? 0) eqn:Es.
  2: { exists h1, c2. cbn [mbind outcome_bind]. rewrite Es. split; [done|]. split; [done|]. split; [done|]. split; [done|]. split.
       - intros p s Hp Hs. destruct (Hps p s Hp Hs) as (E & Et & _). exists (after_visit v (now p) s). split; [done|].
         split; [apply weight_after|]. intros Hin. apply taken_origin, Et, Hsub, Hin.
       - intros _ _ E. by rewrite E in Es. }
  destruct (same_skeleton_hgc h h1 i g HS1 Hg) as (g1 & Hg1 & [_ Em]%skeleton_g_eq).
  destruct (desperate_ok t (mysrvs g) (mysrvs g) h1 (u32 (wsum h1 c2)) c2) as (h2 & sel & -> & HI2 & HS2 & _ & Hc3 & Hsel & Hps2); try done.
  { rewrite <- Em. by apply members_hostgroup; [apply HI1 |]. }
  cbn [mbind outcome_bind]. exists h2, (c2 ++ sel). split; [done|]. split; [done|]. split; [by etrans|]. split; [done|].
  assert (Hdis : ∀ p, p ∈ c2 → p ∉ sel) by (intros p; apply (proj1 (NoDup_app c2 sel) (proj1 Hc3))). split.
  - intros p s Hp Hs. destruct (Hps p s Hp Hs) as (E & Et & _). destruct (Hps2 p _ Hp E) as (E2 & Hin2).
    destruct (revives t (after_visit v (now p) s)) eqn:Er.
    + destruct (revived_origin now t p s Er) as [Ea Ho]. rewrite Ea in *. exists (revived s). split; [done|]. split; [done|]. done.
    + exists (after_visit v (now p) s). split; [done|]. split; [apply weight_after|]. intros [Hin|Hin]%elem_of_app.
      * apply taken_origin, Et, Hsub, Hin.
      * apply Hin2 in Hin as [? _]. done.
  - intros Hl Hr _ p s Hp Hs Hret. specialize (Hsame Hl) as ->. destruct (Hps p s Hp Hs) as (E & _ & Et).
    destruct (Hps2 p _ Hp E) as (E2 & Hin2). apply elem_of_app. unfold returnable in Hret. apply orb_prop in Hret as [Ht|[Hrv Hf]%andb_prop].
    + left. by apply Et.
    + destruct (brought_back v (now p) s) eqn:Eb.
      * left. apply Et; [done|]. unfold taken, after_visit. rewrite Eb. rewrite orb_true_l, andb_true_r. exact Hf.
      * right. apply Hin2. unfold after_visit. by rewrite Eb.
Qed.

End Choice.

(** The weights of the hostgroup's servers, added up, fit in 32 bits. *)
Definition weights_fit (h : HGM) (g : MyHGC) : Prop :=
  (∀ p, p ∈ mysrvs g → 0 ≤ weight_of h p) ∧ wsum h (mysrvs g) < 2 ^ 32.

Section Theorems.
Context (k : bool) (v : variables) (rq : request) (i : nat).

Lemma candidate_weights h h' g cands :
  (∀ p s, p ∈ mysrvs g → servers h !! p = Some s → ∃ s', servers h' !! p = Some s' ∧ weight s' = weight s) →
  members i (mysrvs g) h (mysrvs g) → weights_fit h g → candidates v rq i (mysrvs g) h' cands →
  weights_ok h' cands ∧ 0 ≤ wsum h' cands < 2 ^ 32.
Proof.
  intros Hs Hm [Hw Ht] Hc. assert (Heq : ∀ p, p ∈ mysrvs g → weight_of h' p = weight_of h p).
  { intros p Hp. destruct (Hm p Hp) as (_ & s & E & _). destruct (Hs p s Hp E) as (s' & E' & Ew). unfold weight_of. by rewrite E, E'. }
  split.
  - intros p Hp. split; [by eapply candidates_allocated|]. destruct (proj2 Hc p Hp) as [Hp' _]. rewrite Heq by done. by apply Hw.
  - assert (0 ≤ wsum h' cands ≤ wsum h' (mysrvs g)) as Hle.
    { apply wsum_sub; [intros p Hp; rewrite Heq by done; by apply Hw | apply Hc |]. intros p Hp. by apply Hc. }
    rewrite (wsum_ext h h' (mysrvs g) Heq) in Hle. lia.
Qed.

Lemma pick_some h' cands r31 r15 :
  weights_ok h' cands → 0 < wsum h' cands < 2 ^ 32 →
  ∃ p, pick r31 r15 h' (wsum h' cands) cands = Ok (Some p) ∧ p ∈ cands ∧ 0 < weight_of h' p.
Proof.
  intros Hw Hs. unfold pick. rewrite (proj2 (Z.eqb_neq _ _)) by lia.
  set (r := if 32768 <? wsum h' cands then r31 else r15). pose proof (Z.mod_pos_bound r (wsum h' cands)).
  apply draw_some; [done|lia..].
Qed.

(** C4: Choosing a server is safe.  For every hostgroup, request, clock and
    random numbers no array is overrun and no object that is gone is used, and
    unless a division by zero stops the call (only when latency awareness is
    on), the invariants of the manager hold afterwards; a server returned
    belongs to the hostgroup, has a positive weight, and in the state left
    behind is online, near enough and up to date for the request; either it was
    online before with a place for one more connection, or it had been shunned
    automatically and the time to wait was over. *)
Theorem selection_sound now t r31 r15 h g :
  Inv k h → MyHostGroups h !! i = Some g → has_session rq → weights_fit h g →
  (get_random_MySrvC v rq now t r31 r15 i h = Fault DivByZero ∧ latency_aware rq) ∨
  ∃ h' o, get_random_MySrvC v rq now t r31 r15 i h = Ok (h', o) ∧ Inv k h' ∧ same_skeleton h h' ∧
    ∀ p, o = Some p → p ∈ mysrvs g ∧ ∃ s s', servers h !! p = Some s ∧ servers h' !! p = Some s' ∧
      fit v rq s' = true ∧ 0 < weight s' ∧ origin v now t p s s'.
Proof.
  intros HI Hg Hrq Hw. destruct (selection_spec k v rq i now t r31 r15 h g HI Hg Hrq) as (h' & cands & E & HI' & HS & Hc & Hps & _).
  unfold outcome_of in E. rewrite E. clear E.
  pose proof (members_hostgroup i h g (proj1 HI) Hg) as Hm.
  destruct (u32 (wsum h' cands) =? 0) eqn:E0.
  { right. exists h', None. split; [done|]. split; [done|]. split; [done|]. intros p. discriminate. }
  assert (Hne : cands ≠ []) by (intros ->; vm_compute in E0; discriminate).
  destruct (latency_awareness_ok v rq i (mysrvs g) h' cands Hc Hne) as (c2 & -> & Hc2 & Hsub & Hla). cbn [mbind outcome_bind].
  assert (Hs' : ∀ p s, p ∈ mysrvs g → servers h !! p = Some s → ∃ s', servers h' !! p = Some s' ∧ weight s' = weight s).
  { intros p s Hp Hs. destruct (Hps p s Hp Hs) as (s' & ? & ? & _). by exists s'. }
  destruct (candidate_weights h h' g c2 Hs' Hm Hw Hc2) as [Hwo Hr]. rewrite u32_small by lia.
  destruct (decide (wsum h' c2 = 0)) as [Ez|Ez].
  - left. rewrite Ez. split; [done|]. destruct (latency_aware_em rq) as [|Hno]; [done|].
    rewrite (Hla Hno) in Ez. rewrite Ez in E0. vm_compute in E0. discriminate.
  - right. destruct (pick_some h' c2 r31 r15 Hwo) as (p & -> & Hp & Hpos); [lia|]. cbn [mbind outcome_bind].
    exists h', (Some p). split; [done|]. split; [done|]. split; [done|]. intros q [= <-].
    destruct (proj2 Hc2 p Hp) as (Hpm & s' & Hs2 & _ & Hf). split; [done|]. destruct (Hm p Hpm) as (_ & s & Hs & _).
    destruct (Hps p s Hpm Hs) as (s3 & Hs3 & _ & Ho). assert (s3 = s') as -> by congruence. exists s, s'.
    split; [done|]. split; [done|]. split; [done|]. split; [unfold weight_of in Hpos; by rewrite Hs2 in Hpos|]. by apply Ho, Hsub.
Qed.

(** C37: A hostgroup with a server fit for the request does not go without one.
    Its servers may all be online at once, their weights add up to an int, the request comes from a session
    without a limit on lag, and latency awareness is off (with it the call may
    divide by zero, [latency_awareness_divides_by_zero]): then, if some server with a
    positive weight is online with a free place, or shunned automatically for
    long enough, the call returns a server. *)
Theorem selection_live now t r31 r15 h g p s :
  Inv k h → MyHostGroups h !! i = Some g → has_session rq → weights_fit h g →
  roomy k i h → max_lag_ms rq ≤ 0 → ¬ latency_aware rq →
  p ∈ mysrvs g → servers h !! p = Some s → 0 < weight s → returnable v rq now t p s = true →
  ∃ h' q, get_random_MySrvC v rq now t r31 r15 i h = Ok (h', Some q).
Proof.
  intros HI Hg Hrq Hw Hroom Hl Hna Hp Hs Hpos Hret.
  destruct (selection_spec k v rq i now t r31 r15 h g HI Hg Hrq) as (h' & cands & E & HI' & HS & Hc & Hps & Hall).
  assert (Hs' : ∀ p s, p ∈ mysrvs g → servers h !! p = Some s → ∃ s', servers h' !! p = Some s' ∧ weight s' = weight s).
  { intros q sq Hq Hsq. destruct (Hps q sq Hq Hsq) as (s' & ? & ? & _). by exists s'. }
  destruct (candidate_weights h h' g cands Hs' (members_hostgroup i h g (proj1 HI) Hg) Hw Hc) as [Hwo Hr].
  assert (Hnz : wsum h' cands ≠ 0).
  { intros Ez. assert (Hin : p ∈ cands) by (apply (Hall Hl Hroom) with s; [by rewrite Ez|done..]).
    pose proof (wsum_ge h' cands p Hwo Hin) as Hge. destruct (Hs' p s Hp Hs) as (s' & Es & Ew). unfold weight_of in Hge. rewrite Es in Hge. lia. }
  unfold outcome_of in E. rewrite u32_small in E by lia. rewrite (proj2 (Z.eqb_neq _ _) Hnz) in E.
  assert (Hne : cands ≠ []) by (intros ->; done).
  destruct (latency_awareness_ok v rq i (mysrvs g) h' cands Hc Hne) as (c2 & El & _ & _ & Hla). rewrite u32_small in El by lia.
  rewrite El in E. rewrite (Hla Hna) in E. cbn [mbind outcome_bind] in E. rewrite u32_small in E by lia.
  destruct (pick_some h' cands r31 r15 Hwo) as (q & Ep & _); [lia|]. rewrite Ep in E. exists h', q. exact E.
Qed.

End Theorems.


(** ** Latency awareness can divide by zero *)

(** Online, with a free place, near enough, and the request asks for nothing else. *)
Definition plain (v : variables) (h : HGM) (i : nat) (g : MyHGC) (p : Z) (s : MySrvC) : Prop :=
  servers h !! p = Some s ∧ status s = ONLINE ∧ myhgc s = Some i ∧
  Z.of_nat (length (ConnectionsUsed s)) < max_connections s ∧ latency_ok v s = true.

Lemma visit_plain v rq h i g p s cap sum cands :
  MyHostGroups h !! i = Some g → online_servers_within_threshold g = true → plain v h i g p s →
  gtid_trxid rq = 0 → max_lag_ms rq < 0 → (length cands < cap)%nat →
  visit_online v rq cap p s h sum cands = Ok (h, u32 (sum + weight s), cands ++ [p]).
Proof.
  intros Hg Ht (Hs & Hst & Hi & Hc & Hl) Hgt Hm Hcap. unfold visit_online. rewrite Hi, (get_hgc_ok _ _ _ Hg). cbn [mbind outcome_bind].
  rewrite Ht, Hl, (proj2 (Z.ltb_lt _ _) Hc). cbn [andb]. unfold may_serve. rewrite Hgt. cbn [Z.eqb negb].
  rewrite (proj2 (Z.leb_gt _ _) Hm). unfold add_candidate. by rewrite (proj2 (Nat.ltb_lt _ _) Hcap).
Qed.

(** With latency awareness, a hostgroup of a fast server of weight 0 and a
    slower one with a positive weight makes the call divide by zero: the slow
    server is left out and the sum of the weights left is 0. *)
Theorem latency_awareness_divides_by_zero v rq now t r31 r15 i h g p1 p2 s1 s2 se :
  MyHostGroups h !! i = Some g → mysrvs g = [p1; p2] → online_servers_within_threshold g = true →
  plain v h i g p1 s1 → plain v h i g p2 s2 → gtid_trxid rq = 0 → max_lag_ms rq < 0 →
  sess rq = Some se → 0 < min_num_servers_lantency_awareness se ≤ 2 →
  weight s1 = 0 → 0 < weight s2 < 2 ^ 32 →
  0 < current_latency_us s1 < current_latency_us s2 → current_latency_us s1 + current_latency_us s2 < 2 ^ 32 →
  get_random_MySrvC v rq now t r31 r15 i h = Fault DivByZero.
Proof.
  intros Hg Hm Ht P1 P2 Hgt Hl Hse Hmin W1 W2 L1 L2. unfold get_random_MySrvC. rewrite (get_hgc_ok _ _ _ Hg). cbn [mbind outcome_bind]. rewrite Hm.
  pose proof (proj1 P1) as Hs1. pose proof (proj1 P2) as Hs2.
  assert (Ho1 : status_is (status s1) ONLINE = true) by (by rewrite (proj1 (proj2 P1))).
  assert (Ho2 : status_is (status s2) ONLINE = true) by (by rewrite (proj1 (proj2 P2))).
  assert (E1 : get_srv h p1 = Ok s1) by (by apply get_srv_ok). assert (E2 : get_srv h p2 = Ok s2) by (by apply get_srv_ok).
  cbn [length Nat.eqb collect]. rewrite E1. cbn [mbind outcome_bind].
  change (capacity 2) with 32%nat. rewrite Ho1, (visit_plain v rq h i g) by (done || cbn; lia). cbn [mbind outcome_bind].
  rewrite E2. cbn [mbind outcome_bind]. rewrite Ho2, (visit_plain v rq h i g) by (done || cbn; lia). cbn [mbind outcome_bind app].
  rewrite W1. change (u32 (0 + 0)) with 0. rewrite Z.add_0_l, u32_small by lia.
  unfold leave_writer_out. rewrite (proj2 (Z.ltb_ge 0 (max_lag_ms rq))) by lia. cbn [mbind outcome_bind].
  assert (N : (weight s2 =? 0) = false) by (apply Z.eqb_neq; lia). rewrite N. cbn [mbind outcome_bind]. rewrite N.
  unfold latency_awareness. rewrite Hse. cbn zeta. rewrite (proj2 (Z.eqb_neq _ 0)) by lia.
  rewrite (proj2 (Z.leb_le _ _)) by (cbn; lia). cbn [negb andb count_with_latency].
  rewrite E1, E2. cbn [mbind outcome_bind]. rewrite !(proj2 (Z.eqb_neq (current_latency_us _) 0)) by lia. cbn [length Nat.eqb total_of].
  rewrite E1. cbn [mbind outcome_bind]. rewrite E2. cbn [mbind outcome_bind].
  rewrite Z.add_0_l, u32_add_idemp, u32_small by lia. cbn [remove_slow lookup list_lookup].
  set (avg := (current_latency_us s1 + current_latency_us s2) / Z.of_nat 2).
  assert (current_latency_us s1 ≤ avg < current_latency_us s2) as [A1 A2].
  { unfold avg. split; [apply Z.div_le_lower_bound | apply Z.div_lt_upper_bound]; lia. }
  rewrite E1. cbn [mbind outcome_bind]. rewrite (proj2 (Z.ltb_ge _ _)) by lia. rewrite E2. cbn [mbind outcome_bind].
  rewrite (proj2 (Z.ltb_lt _ _)) by lia. change (array_remove 1 [p1; p2]) with (Ok (p2, [p1])). cbn [mbind outcome_bind lookup list_lookup].
  cbn [total_of]. rewrite E1. cbn [mbind outcome_bind]. by rewrite W1.
Qed.

(** ** Witnesses *)
Definition demo_request : request := mk_request ∅ [] 0 (-1) (Some (mk_limits 0 0)).

(** The hostgroups of [HostGroups.demo_state]: hostgroup 10 holds db1, shunned at
    second 100, and db2, online; hostgroup 20 holds db1. *)
Lemma demo_weights : weights_fit demo_state (demo_hg 0).
Proof.
  split; [|vm_compute; reflexivity]. intros p Hp. vm_compute in Hp.
  apply elem_of_cons in Hp as [->|Hp]; [vm_compute; discriminate|]. apply list_elem_of_singleton in Hp as ->. vm_compute. discriminate.
Qed.
Lemma demo_session : has_session demo_request.
Proof. intros E. discriminate. Qed.

Lemma selection_sound_witness :
  ∃ h', get_random_MySrvC demo_variables demo_request (λ _, 105) 105 7 7 0 demo_state = Ok (h', Some 2) ∧
    Inv true h' ∧ ∃ s s', servers demo_state !! 2 = Some s ∧ servers h' !! 2 = Some s' ∧
      fit demo_variables demo_request s' = true ∧ 0 < weight s' ∧ origin demo_variables (λ _, 105) 105 2 s s'.
Proof.
  destruct (selection_sound true demo_variables demo_request 0 (λ _, 105) 105 7 7 demo_state (demo_hg 0)) as [[_ (se & Hs & Hn)]|(h' & o & E & HI & _ & H)].
  - split; [exact (proj1 demo_wf) | intros _; exact (proj2 demo_wf)].
  - vm_compute. reflexivity.
  - exact demo_session.
  - exact demo_weights.
  - injection Hs as <-. destruct Hn. reflexivity.
  - exists h'. assert (o = Some 2) as ->.
    { vm_compute in E. injection E as _ <-. reflexivity. }
    split; [exact E|]. split; [exact HI|]. exact (proj2 (H 2 eq_refl)).
Defined.

Lemma demo_roomy : roomy true 0 demo_state.
Proof.
  intros h' g HS [W C] Hg. assert (Hg0 : MyHostGroups demo_state !! 0%nat = Some (demo_hg 0)) by (vm_compute; reflexivity).
  destruct (same_skeleton_hgc demo_state h' 0 _ HS Hg0) as (g' & Hg' & Hk). assert (g' = g) as -> by congruence.
  injection Hk as _ Hm Ha _. unfold online_servers_within_threshold. apply Z.leb_le.
  rewrite (counted_length h' 0 g W (C eq_refl) Hg). rewrite Ha.
  pose proof (length_filter (λ p, is_online h' p = true) (mysrvs g)) as Hl. rewrite Hm in Hl |- *.
  change (length (mysrvs (demo_hg 0))) with 2%nat in Hl. change (max_num_online_servers (attributes (demo_hg 0))) with 1000000. lia.
Qed.

(** At second 200 db1 may come back to hostgroup 10; something is returned for sure. *)
Lemma selection_live_witness :
  ∃ h' q, get_random_MySrvC demo_variables demo_request (λ _, 200) 200 7 7 0 demo_state = Ok (h', Some q).
Proof.
  refine (selection_live true demo_variables demo_request 0 (λ _, 200) 200 7 7 demo_state (demo_hg 0) 1 (demo_srv 1)
    (conj (proj1 demo_wf) (λ _, proj2 demo_wf)) _ demo_session demo_weights demo_roomy _ _ _ _ _ _).
  - vm_compute. reflexivity.
  - vm_compute. discriminate.
  - intros (se & Hs & Hn). injection Hs as <-. destruct Hn. reflexivity.
  - vm_compute. left.
  - vm_compute. reflexivity.
  - vm_compute. reflexivity.
  - vm_compute. reflexivity.
Defined.


(** Two servers with latencies 10 and 30; only the slow one has a weight. *)
Definition demo_lat (p lat w : Z) : MySrvC :=
  (new_MySrvC (str "db") 3306 0 w ONLINE 0 100 0 0 0 []) <| current_latency_us := lat |> <| myhgc := Some 0%nat |>.
Definition demo_two : HGM :=
  init_HGM <| MyHostGroups := [(new_MyHGC 10) <| mysrvs := [1; 2] |>] |> <| servers := <[1 := demo_lat 1 10 0]> {[2 := demo_lat 2 30 5]} |>.
Definition aware_request : request := mk_request ∅ [] 0 (-1) (Some (mk_limits 0 2)).

Lemma latency_awareness_divides_by_zero_witness :
  get_random_MySrvC demo_variables aware_request (λ _, 0) 0 7 7 0 demo_two = Fault DivByZero.
Proof.
  refine (latency_awareness_divides_by_zero demo_variables aware_request (λ _, 0) 0 7 7 0 demo_two
    ((new_MyHGC 10) <| mysrvs := [1; 2] |>) 1 2 (demo_lat 1 10 0) (demo_lat 2 30 5) (mk_limits 0 2) _ _ _ _ _ _ _ _ _ _ _ _ _);
    try (vm_compute; reflexivity).
  1, 2: refine (conj _ (conj _ (conj _ (conj _ _)))); vm_compute; reflexivity.
  all: vm_compute; split; first [reflexivity | discriminate].
Defined.
