(* ===== verification/ConnPool.v ===== *)
(** * The pool of backend connections
    (lib/MySrvConnList.cpp, lib/MySQL_HostGroups_Manager.cpp)

    Connections are taken from the free array of a chosen server or created,
    pushed back, destroyed, queued for a reset, aged out and pinged.  The state
    is the manager of [HostGroups]; the clock, random numbers, the address of a
    new connection and the answers of the backend are arguments. *)
From S2P Require Import Prelude GenUtils StringUtils Gtid Conn HostGroups SrvSelect.

Definition get_conn (h : HGM) (c : Z) : outcome pooled :=
  match conns h !! c with Some x => Ok x | None => Fault OutOfBounds end.
Definition set_conn (c : Z) (x : pooled) (h : HGM) : HGM := h <| conns := <[c := x]> (conns h) |>.

(** ** Searching the free connections of a server for one that suits the client *)
Record search := mk_search { conn_found_idx : option nat; connection_quality_level : Z; number_of_matching : Z }.

(** One connection, at position [k]; the result says whether to stop there. *)
Definition inspect (v : variables) (client_conn this : MySQL_Connection) (k : nat) (r : search) : outcome (search * bool) :=
  let '(mk_search idx level n) := r in
  if match_tracked_options this client_conn then
    let '(level, idx) := if level =? 0 then (1, Some k) else (level, idx) in
    change_user ← requires_CHANGE_USER this client_conn;
    if negb change_user then
      let '(level, idx) := if level =? 1 then (2, Some k) else (level, idx) in
      let '(cnt_match, not_match) := number_of_matching_session_variables this client_conn 0 in
      same_schema ← strcmp_eq (schemaname (userinfo this)) (schemaname (userinfo client_conn));
      let '(cnt_match, not_match) := if same_schema : bool then (cnt_match + 1, not_match) else (cnt_match, u32 (not_match + 1)) in
      if not_match =? 0 then Ok (mk_search (Some k) 3 cnt_match, true)
      else if n <? cnt_match then Ok (mk_search (Some k) level cnt_match, false)
      else Ok (mk_search idx level n, false)
    else
      let level := if (level =? 1) && (reset_connection_algorithm v =? 1) && (connpoll_reset_queue_length v =? 0) then 0 else level in
      Ok (mk_search idx level n, false)
  else Ok (r, false).

Fixpoint get_random_MyConn_inner_search (v : variables) (client_conn : MySQL_Connection) (h : HGM) (cs : list Z) (k : nat) (r : search)
  : outcome search :=
  match cs with
  | [] => Ok r
  | c :: cs' =>
      x ← get_conn h c;
      '(r, found) ← inspect v client_conn (conn x) k r;
      if found : bool then Ok r else get_random_MyConn_inner_search v client_conn h cs' (S k) r
  end.

(** From position [i] to the end, then from the start to [i]. *)
Definition search_from (v : variables) (client_conn : MySQL_Connection) (h : HGM) (cs : list Z) (i : nat) : outcome search :=
  r ← get_random_MyConn_inner_search v client_conn h (drop i cs) i (mk_search None 0 0);
  if connection_quality_level r =? 3 then Ok r
  else get_random_MyConn_inner_search v client_conn h (take i cs) 0 r.

(** ** Taking a connection *)

(** [new MySQL_Connection()] at address [c], for server [p]. *)
Definition fresh_connection (multiplex : bool) (p : Z) : pooled :=
  mk_pooled (Conn.set_status (negb multiplex) NO_MULTIPLEX_HG new_connection) p false true 0 0 0 0.
Definition new_connection_for (c p : Z) (s : MySrvC) (h : HGM) : outcome HGM :=
  match myhgc s with
  | None => Fault NullPointer
  | Some i =>
      g ← get_hgc h i;
      let h := set_conn c (fresh_connection (multiplex (attributes g)) p) h in
      Ok (h <| stats := (stats h) <| server_connections_created := server_connections_created (stats h) + 1 |> |>)
  end.

(** [ConnectionsFree->remove(i)] *)
Definition remove_free (p : Z) (i : nat) (h : HGM) : outcome (Z * HGM) :=
  s ← get_srv h p;
  '(c, l) ← array_remove i (ConnectionsFree s);
  Ok (c, set_srv p (s <| ConnectionsFree := l |>) h).

(** [n] times: remove the first free connection and delete it. *)
Fixpoint drop_first (n : nat) (p : Z) (h : HGM) : outcome HGM :=
  match n with
  | O => Ok h
  | S n' => '(c, h) ← remove_free p 0 h; h ← delete_conn c h; drop_first n' p h
  end.

(** How many free connections make way for a new one: at least one once three
    quarters of [max_connections] are in use. *)
Definition connections_to_free (s : MySrvC) : nat :=
  let conns_free := Z.of_nat (length (ConnectionsFree s)) in
  let conns_used := Z.of_nat (length (ConnectionsUsed s)) in
  let pct_max_connections := u32 (Z.quot (3 * max_connections s) 4) in
  if (1 <=? conns_free) && (pct_max_connections <=? conns_free + conns_used) then
    let n := conns_free + conns_used - pct_max_connections in
    Z.to_nat (Z.min conns_free (if n =? 0 then 1 else n))
  else 0.

(** The settings of the hostgroup take priority over the variables. *)
Definition warming (v : variables) (g : MyHGC) : bool * Z :=
  if configured (attributes g) then (attr_connection_warming (attributes g), attr_free_connections_pct (attributes g))
  else (connection_warming v, HostGroups.free_connections_pct v).
Definition throttle (v : variables) (g : MyHGC) : Z :=
  if configured (attributes g) then throttle_connections_per_sec (attributes g)
  else u32 (throttle_connections_per_sec_to_hostgroup v).
Definition needs_warming (v : variables) (g : MyHGC) (s : MySrvC) : bool :=
  let '(on, pct) := warming v g in
  on && (Z.of_nat (length (ConnectionsFree s) + length (ConnectionsUsed s)) <? u32 (Z.quot (pct * max_connections s) 100)).

(** A random position; [r31] is the next value of [rand()], [r15] of [fastrand()]. *)
Definition random_index (r31 r15 : Z) (l : nat) : nat :=
  Z.to_nat ((if 32768 <? Z.of_nat l then r31 else r15) mod Z.of_nat l).

(** What to do with the outcome of the search. *)
Definition take_found (c p : Z) (r : search) (h : HGM) : outcome (option Z * HGM) :=
  s ← get_srv h p;
  let conns_free := Z.of_nat (length (ConnectionsFree s)) in
  let conns_used := Z.of_nat (length (ConnectionsUsed s)) in
  let found := match conn_found_idx r with
               | None => Fault Uninitialised
               | Some i => '(c, h) ← remove_free p i h; Ok (Some c, h)
               end in
  if connection_quality_level r =? 0 then
    h ← drop_first (connections_to_free s) p h;
    s ← get_srv h p;
    h ← new_connection_for c p s h;
    Ok (Some c, h)
  else if connection_quality_level r =? 1 then
    if (conns_free <? conns_used) && (conns_free / 2 + conns_used / 2 <? max_connections s)
    then h ← new_connection_for c p s h; Ok (Some c, h)
    else found
  else if (connection_quality_level r =? 2) || (connection_quality_level r =? 3) then found
  else Fault AssertFail.

(** [client] is the session's own connection, if it has one; [now] the time in seconds. *)
Definition get_random_MyConn (v : variables) (client : option MySQL_Connection) (ff : bool) (now r31 r15 c p : Z) (h : HGM)
  : outcome (option Z * HGM) :=
  s ← get_srv h p;
  match myhgc s with
  | None => Fault NullPointer
  | Some i =>
      g ← get_hgc h i;
      let l := length (ConnectionsFree s) in
      if negb (l =? 0)%nat && negb ff && negb (needs_warming v g s) then
        let k := random_index r31 r15 l in
        match client with
        | Some client_conn => r ← search_from v client_conn h (ConnectionsFree s) k; take_found c p r h
        | None => '(c, h) ← remove_free p k h; Ok (Some c, h)
        end
      else
        let g := if current_time_now g <? now then g <| current_time_now := now |> <| new_connections_now := 0 |> else g in
        let g := g <| new_connections_now := u32 (new_connections_now g + 1) |> in
        let h := set_hgc i g h in
        if throttle v g <? new_connections_now g then
          Ok (None, h <| stats := (stats h) <| server_connections_delayed := server_connections_delayed (stats h) + 1 |> |>)
        else h ← new_connection_for c p s h; Ok (Some c, h)
  end.

Definition add_used (p c : Z) (h : HGM) : outcome HGM :=
  s ← get_srv h p; Ok (set_srv p (s <| ConnectionsUsed := ConnectionsUsed s ++ [c] |>) h).
Definition update_max_connections_used (p : Z) (h : HGM) : outcome HGM :=
  s ← get_srv h p;
  let n := Z.of_nat (length (ConnectionsUsed s)) in
  Ok (if max_connections_used s <? n then set_srv p (s <| max_connections_used := n |>) h else h).

(** The arguments of a call and what happens outside: addresses, clocks, random numbers. *)
Record call := mk_call {
  c_hid : Z; c_client : option MySQL_Connection; c_ff : bool; c_request : request;
  c_new : Z; c_now : Z; c_clock : Z → Z; c_time : Z; c_rand_srv : Z * Z; c_rand_conn : Z * Z
}.

Definition get_MyConn_from_pool (v : variables) (a : call) (h : HGM) : outcome (option Z * HGM) :=
  let h := h <| stats := (stats h) <| myconnpoll_get := myconnpoll_get (stats h) + 1 |> |> in
  let '(i, h) := MyHGC_lookup (c_hid a) h in
  '(h, o) ← get_random_MySrvC v (c_request a) (c_clock a) (c_time a) (c_rand_srv a).1 (c_rand_srv a).2 i h;
  match o with
  | None => Ok (None, h)
  | Some p =>
      '(oc, h) ← get_random_MyConn v (c_client a) (c_ff a) (c_now a) (c_rand_conn a).1 (c_rand_conn a).2 (c_new a) p h;
      match oc with
      | None => Ok (None, h)
      | Some c =>
          h ← add_used p c h;
          h ← update_max_connections_used p (h <| stats := (stats h) <| myconnpoll_get_ok := myconnpoll_get_ok (stats h) + 1 |> |>);
          Ok (Some c, h)
      end
  end.

(** ** Giving a connection back *)
Definition remove_used (p c : Z) (h : HGM) : outcome HGM :=
  s ← get_srv h p;
  l ← array_remove_elem (ConnectionsUsed s) c;
  Ok (set_srv p (s <| ConnectionsUsed := l |>) h).

(** A client error: the connection cannot be saved. *)
Definition client_error (e : Z) : bool := (2000 <=? e) && (e <? 3000).

Definition destroy_MyConn_from_pool (v : variables) (c : Z) (h : HGM) : outcome HGM :=
  x ← get_conn h c;
  s ← get_srv h (parent x);
  if status_is (status s) ONLINE && send_quit x && (Z.of_nat (length (queue h)) <? connpoll_reset_queue_length v)
     && idle x && negb (client_error (conn_errno x))
  then Ok (h <| queue := queue h ++ [c] |>)
  else
    h ← remove_used (parent x) c h;
    delete_conn c (h <| stats := (stats h) <| myconnpoll_destroy := myconnpoll_destroy (stats h) + 1 |> |>).

Definition add_free (p c : Z) (h : HGM) : outcome HGM :=
  s ← get_srv h p; Ok (set_srv p (s <| ConnectionsFree := ConnectionsFree s ++ [c] |>) h).

Definition push_MyConn_to_pool (v : variables) (c : Z) (h : HGM) : outcome HGM :=
  x ← get_conn h c;
  let h := set_conn c (x <| conn := (conn x) <| auto_increment_delay_token := 0 |> |>) h in
  let h := h <| stats := (stats h) <| myconnpoll_push := myconnpoll_push (stats h) + 1 |> |> in
  s ← get_srv h (parent x);
  h ← remove_used (parent x) c h;
  if u32 (threshold_query_length v) <? largest_query_length x then delete_conn c h
  else if status_is (status s) ONLINE then
    if idle x then
      if u32 (max_stmts_per_connection v) <? num_backend_stmts x then
        h ← add_used (parent x) c h; destroy_MyConn_from_pool v c h
      else add_free (parent x) c h
    else delete_conn c h
  else delete_conn c h.

Fixpoint push_MyConn_to_pool_array (v : variables) (ca : list Z) (h : HGM) : outcome HGM :=
  match ca with [] => Ok h | c :: ca' => h ← push_MyConn_to_pool v c h; push_MyConn_to_pool_array v ca' h end.

(** ** Dropping idle connections *)
Fixpoint drop_while_over (limit : MySrvC → bool) (fuel : nat) (p : Z) (h : HGM) : outcome HGM :=
  s ← get_srv h p;
  if limit s then
    match fuel with
    | O => Fault Diverges
    | S fuel' => '(c, h) ← remove_free p 0 h; h ← delete_conn c h; drop_while_over limit fuel' p h
    end
  else Ok h.

Definition over_max (s : MySrvC) : bool :=
  negb (bool_decide (ConnectionsFree s = [])) &&
  (max_connections s <? Z.of_nat (length (ConnectionsUsed s)) + Z.of_nat (length (ConnectionsFree s))).
Definition over_pct (pct : Z) (s : MySrvC) : bool :=
  Z.quot (pct * max_connections s) 100 <? Z.of_nat (length (ConnectionsFree s)).

(** The age of the connection at position [i] is looked at, but the first one goes. *)
Fixpoint drop_old (fuel : nat) (curtime max_age : Z) (i : nat) (p : Z) (h : HGM) : outcome HGM :=
  match fuel with
  | O => Fault Diverges
  | S fuel' =>
      s ← get_srv h p;
      match ConnectionsFree s !! i with
      | None => Ok h
      | Some c =>
          x ← get_conn h c;
          if creation_time (conn x) + max_age <? curtime then
            '(c, h) ← remove_free p 0 h; h ← delete_conn c h; drop_old fuel' curtime max_age i p h
          else drop_old fuel' curtime max_age (S i) p h
      end
  end.

Definition drop_idle_of (v : variables) (curtime p : Z) (h : HGM) : outcome HGM :=
  s ← get_srv h p;
  h ← (if status_is (status s) ONLINE then Ok h else drop_all_connections p h);
  s ← get_srv h p;
  h ← drop_while_over over_max (length (ConnectionsFree s)) p h;
  match myhgc s with
  | None => Fault NullPointer
  | Some i =>
      g ← get_hgc h i;
      s ← get_srv h p;
      h ← drop_while_over (over_pct (warming v g).2) (length (ConnectionsFree s)) p h;
      if connection_max_age_ms v =? 0 then Ok h
      else
        s ← get_srv h p;
        drop_old (S (length (ConnectionsFree s))) curtime (connection_max_age_ms v * 1000) 0 p h
  end.

Definition drop_all_idle_connections (v : variables) (curtime : Z) (h : HGM) : outcome HGM :=
  each_hostgroup (drop_idle_of v curtime) (length (MyHostGroups h)) 0 h.

(** ** The idle connections that are pinged *)

(** The multimap: entries in the order of their keys, equal keys in the order of insertion. *)
Abbreviation candidate := (Z * (Z * nat))%type.
Fixpoint multimap_insert (e : candidate) (m : list candidate) : list candidate :=
  match m with
  | [] => [e]
  | e' :: m' => if e.1 <? e'.1 then e :: m else e' :: multimap_insert e m'
  end.
Definition consider_idle (num_conn : Z) (e : candidate) (m : list candidate) : list candidate :=
  if Z.of_nat (length m) <? num_conn then multimap_insert e m
  else if num_conn =? 0 then m
  else match last m with
       | Some l => if e.1 <? l.1 then multimap_insert e (removelast m) else m
       | None => m
       end.

Fixpoint idle_of_array (max_last_time_used num_conn p : Z) (h : HGM) (cs : list Z) (k : nat) (m : list candidate) : outcome (list candidate) :=
  match cs with
  | [] => Ok m
  | c :: cs' =>
      x ← get_conn h c;
      idle_of_array max_last_time_used num_conn p h cs' (S k)
        (if negb (last_time_used x =? 0) && (last_time_used x <? max_last_time_used)
         then consider_idle num_conn (last_time_used x, (p, k)) m else m)
  end.
Fixpoint idle_of_servers (max_last_time_used num_conn : Z) (h : HGM) (ps : list Z) (m : list candidate) : outcome (list candidate) :=
  match ps with
  | [] => Ok m
  | p :: ps' =>
      s ← get_srv h p;
      m ← idle_of_array max_last_time_used num_conn p h (ConnectionsFree s) 0 m;
      idle_of_servers max_last_time_used num_conn h ps' m
  end.
Fixpoint idle_of_hostgroups (max_last_time_used num_conn : Z) (h : HGM) (gs : list MyHGC) (m : list candidate) : outcome (list candidate) :=
  match gs with
  | [] => Ok m
  | g :: gs' =>
      m ← idle_of_servers max_last_time_used num_conn h (mysrvs g) m;
      idle_of_hostgroups max_last_time_used num_conn h gs' m
  end.

(** The positions to take from one server's array, in descending order. *)
#[export] Instance nat_ge_dec : RelDecision ge := λ a b, le_dec b a.
Definition indexes_of (p : Z) (m : list candidate) : list nat :=
  merge_sort ge ((λ e : candidate, e.2.2) <$> filter (λ e : candidate, e.2.1 = p) m).

(** Nothing more is moved once [num_conn] connections were. *)
Fixpoint move_idle (num_conn p : Z) (idxs : list nat) (acc : HGM * list Z) : outcome (HGM * list Z) :=
  match idxs with
  | [] => Ok acc
  | k :: idxs' =>
      if num_conn <=? Z.of_nat (length acc.2) then Ok acc
      else
        '(c, h) ← remove_free p k acc.1;
        h ← add_used p c h;
        move_idle num_conn p idxs' (h, acc.2 ++ [c])
  end.
Fixpoint move_all_idle (num_conn : Z) (m : list candidate) (ps : list Z) (acc : HGM * list Z) : outcome (HGM * list Z) :=
  match ps with
  | [] => Ok acc
  | p :: ps' => acc ← move_idle num_conn p (indexes_of p m) acc; move_all_idle num_conn m ps' acc
  end.

(** [order] is the order in which the hash map lists the servers found;
    [hids] is [None] for all hostgroups. *)
Definition get_multiple_idle_connections (v : variables) (order : list Z → list Z) (hid_opt : option Z) (curtime max_last_time_used num_conn : Z)
  (h : HGM) : outcome (HGM * list Z) :=
  h ← drop_all_idle_connections v curtime h;
  m ← idle_of_hostgroups max_last_time_used num_conn h
        (match hid_opt with
         | None => MyHostGroups h
         | Some x => match MyHGC_find x h with Some i => default [] (option_map (λ g, [g]) (MyHostGroups h !! i)) | None => [] end
         end) [];
  '(h, l) ← move_all_idle num_conn m (order (remove_dups ((λ e : candidate, e.2.1) <$> m))) (h, []);
  Ok (h <| stats := (stats h) <| myconnpoll_get_ping := myconnpoll_get_ping (stats h) + Z.of_nat (length l) |> |>, l).

(** ** The thread that resets connections

    It takes the whole queue, starts a COM_CHANGE_USER on every connection and
    polls them.  [start] and [rounds] are the answers of the client library: the
    wait status, zero when finished, and the error flag of a connection.  The
    statuses and flags are in arrays parallel to the one of the connections.  The
    batch is what the thread does while no other thread comes in between; [ResetSteps]
    has its steps one by one, with the other threads in between. *)
Definition reset_conn (now c : Z) (h : HGM) : outcome HGM :=
  x ← get_conn h c; Ok (set_conn c (x <| conn := Conn.reset now (conn x) |> <| num_backend_stmts := 0 |>) h).

Definition increase_reset_counter (h : HGM) : HGM :=
  h <| stats := (stats h) <| myconnpoll_reset := myconnpoll_reset (stats h) + 1 |> |>.

(** The variable [myconn] still holds the previous connection when it is reset. *)
Fixpoint start_reset (start : Z → Z * Z) (now myconn : Z) (cs : list Z) (h : HGM) : outcome (HGM * list Z * list Z) :=
  match cs with
  | [] => Ok (h, [], [])
  | c :: cs' =>
      h ← reset_conn now myconn h;
      '(h, st, rt) ← start_reset start now c cs' (increase_reset_counter h);
      Ok (h, (start c).1 :: st, (start c).2 :: rt)
  end.

Definition array_get (l : list Z) (i : nat) : outcome Z := match l !! i with Some x => Ok x | None => Fault OutOfBounds end.

(** [send_quit=false] and destroy. *)
Definition abandon (v : variables) (c : Z) (h : HGM) : outcome HGM :=
  x ← get_conn h c; destroy_MyConn_from_pool v c (set_conn c (x <| send_quit := false |>) h).

(** Connections that are finished leave the array. *)
Fixpoint settle (v : variables) (again : bool) (now : Z) (fuel i : nat) (ca st rt : list Z) (h : HGM)
  : outcome (HGM * list Z * list Z * list Z) :=
  match fuel with
  | O => Fault Diverges
  | S fuel' =>
      if (i <? length ca)%nat then
        status ← array_get st i;
        if status =? 0 then
          '(c, ca) ← array_remove i ca;
          ret ← array_get rt i;
          h ← (if ret =? 0 then h ← (if again then reset_conn now c h else Ok h); push_MyConn_to_pool v c h
               else abandon v c h);
          s ← array_get st (length ca);
          r ← array_get rt (length ca);
          settle v again now fuel' i ca (<[i := s]> st) (<[i := r]> rt) h
        else settle v again now fuel' (S i) ca st rt h
      else Ok (h, ca, st, rt)
  end.

(** One round of polling: a new status and flag for every connection left. *)
Fixpoint poll (answer : Z → Z * Z → Z * Z) (ca st rt : list Z) : list Z * list Z :=
  match ca, st, rt with
  | c :: ca', s :: st', r :: rt' =>
      let '(st', rt') := poll answer ca' st' rt' in
      ((answer c (s, r)).1 :: st', (answer c (s, r)).2 :: rt')
  | _, _, _ => (st, rt)
  end.
Fixpoint poll_rounds (v : variables) (now : Z) (rounds : list (Z → Z * Z → Z * Z)) (ca st rt : list Z) (h : HGM) : outcome (HGM * list Z) :=
  match rounds with
  | [] => Ok (h, ca)
  | answer :: rounds' =>
      if (length ca =? 0)%nat then Ok (h, ca)
      else
        let '(st, rt) := poll answer ca st rt in
        '(h, ca, st, rt) ← settle v true now (S (length ca)) 0 ca st rt h;
        poll_rounds v now rounds' ca st rt h
  end.
Fixpoint abandon_all (v : variables) (fuel : nat) (ca : list Z) (h : HGM) : outcome HGM :=
  match ca with
  | [] => Ok h
  | _ =>
      match fuel with
      | O => Fault Diverges
      | S fuel' => '(c, ca) ← array_remove 0 ca; h ← abandon v c h; abandon_all v fuel' ca h
      end
  end.

Definition HGCU_batch (v : variables) (start : Z → Z * Z) (rounds : list (Z → Z * Z → Z * Z)) (now : Z) (h : HGM) : outcome HGM :=
  let ca := queue h in
  match last ca with
  | None => Ok h
  | Some myconn =>
      '(h, st, rt) ← start_reset start now myconn ca (h <| queue := [] |>);
      '(h, ca, st, rt) ← settle v false now (S (length ca)) 0 ca st rt h;
      '(h, ca) ← poll_rounds v now rounds ca st rt h;
      abandon_all v (length ca) ca h
  end.

(** ** A connection between two arrays *)
Lemma wf_same h h' :
  MyHostGroups h' = MyHostGroups h → MyHostGroups_map h' = MyHostGroups_map h → servers h' = servers h →
  conns h' = conns h → queue h' = queue h → wf h → wf h'.
Proof.
  destruct h, h'; cbn. intros -> -> -> -> -> []. split; done.
Qed.

Lemma wf_set_conn h c x y : wf h → conns h !! c = Some x → parent y = parent x → wf (set_conn c y h).
Proof.
  intros W Hx Hp. assert (Hl : ∀ d p, (∃ z, <[c := y]> (conns h) !! d = Some z ∧ parent z = p) ↔ ∃ z, conns h !! d = Some z ∧ parent z = p).
  { intros d p. destruct (decide (d = c)) as [->|]; [|by rewrite lookup_insert_ne]. rewrite lookup_insert_eq, Hx.
    split; intros (z & [= <-] & E); eexists; (split; [done | congruence]). }
  destruct W as [? ? ? ? wf_conns0 wf_parent0 wf_queue0 ?]. split; try done.
  - intros p s Hs. destruct (wf_conns0 p s Hs) as [Hn Hc]. split; [done|]. intros d. rewrite Hc. symmetry. apply Hl.
  - intros d z Hz. destruct (proj1 (Hl d (parent z))) as (z' & Hz' & <-); [by exists z|]. by eapply wf_parent0.
  - intros d Hd. destruct (wf_queue0 d Hd) as (z & s & Hz & Hs & Hu).
    destruct (proj2 (Hl d (parent z))) as (z' & Hz' & E); [by exists z|]. exists z', s. by rewrite E.
Qed.

(** Connection [c] of server [p] is in none of its arrays, all else is in order. *)
Definition detached (c p : Z) (h : HGM) : Prop :=
  wf (h <| conns := delete c (conns h) |>) ∧ allocated h p ∧ ∃ x, conns h !! c = Some x ∧ parent x = p.

Lemma detached_same c p h h' :
  MyHostGroups h' = MyHostGroups h → MyHostGroups_map h' = MyHostGroups_map h → servers h' = servers h →
  conns h' = conns h → queue h' = queue h → detached c p h → detached c p h'.
Proof.
  intros E1 E2 E3 E4 E5 (W & Ha & Hx). split; [|by unfold allocated; rewrite E3, E4].
  eapply wf_same; [..|exact W]; cbn; congruence.
Qed.

Lemma detach_new h c p x : wf h → conns h !! c = None → allocated h p → parent x = p → detached c p (set_conn c x h).
Proof.
  intros W Hc Ha Hp. split; [|split; [done|]; exists x; cbn; by rewrite lookup_insert_eq].
  eapply wf_same; [..|exact W]; try done. cbn. by rewrite delete_insert_eq, delete_id.
Qed.

Lemma detached_facts c p h s : detached c p h → servers h !! p = Some s → (c ∉ all_conns s) ∧ c ∉ queue h.
Proof.
  intros (W & _ & x & Hx & Hp) Hs. split.
  - intros Hin. destruct (proj2 (wf_conns _ W p s Hs) c) as [H _]. destruct (H Hin) as (y & Hy & _). cbn in Hy.
    by rewrite lookup_delete_eq in Hy.
  - intros Hq. destruct (wf_queue _ W c Hq) as (y & s0 & Hy & _). cbn in Hy. by rewrite lookup_delete_eq in Hy.
Qed.

Lemma attach h c p s s' :
  detached c p h → servers h !! p = Some s → skeleton_s s' = skeleton_s s →
  all_conns s' ≡ₚ c :: all_conns s → (∀ d, d ∈ ConnectionsUsed s → d ∈ ConnectionsUsed s') → wf (set_srv p s' h).
Proof.
  intros D Hs Hk Hp Hu. destruct (detached_facts c p h s D Hs) as [Hni Hnq]. destruct D as (W & _ & x & Hx & Hpar).
  destruct (wf_conns _ W p s Hs) as [Hn Hc]. cbn in Hc.
  eapply wf_same; [..|apply (wf_change_conns _ p s s' (conns h) (queue h) W Hs Hk)]; try done.
  - rewrite Hp. by constructor.
  - intros d. rewrite Hp, elem_of_cons, Hc. split.
    + intros [->|(y & Hy & E)]; [by exists x|]. apply lookup_delete_Some in Hy as [_ Hy]. by exists y.
    + intros (y & Hy & E). destruct (decide (d = c)) as [->|Hd]; [by left|]. right. exists y. by rewrite lookup_delete_ne.
  - intros d y Hy. cbn. destruct (decide (d = c)) as [->|Hd]; [|by rewrite lookup_delete_ne].
    rewrite lookup_delete_eq. split; [|done]. intros E. congruence.
  - apply (wf_queue_nodup _ W).
  - intros d Hd. destruct (wf_queue _ W d Hd) as (y & s0 & Hy & Hs0 & Hud). cbn in Hy, Hs0.
    destruct (decide (parent y = p)) as [E|E]; [right; apply Hu; congruence|]. left. split; [done|].
    intros (z & Hz & Ez)%Hc. congruence.
Qed.

Lemma detach h c p s s' :
  wf h → servers h !! p = Some s → skeleton_s s' = skeleton_s s → all_conns s ≡ₚ c :: all_conns s' → c ∉ queue h →
  (∀ d, d ∈ ConnectionsUsed s → d ≠ c → d ∈ ConnectionsUsed s') → detached c p (set_srv p s' h).
Proof.
  intros W Hs Hk Hp Hq Hu. destruct (wf_conns _ W p s Hs) as [Hn Hc]. rewrite Hp in Hn. apply NoDup_cons in Hn as [Hni Hn].
  destruct (proj1 (Hc c)) as (x & Hx & Hpar); [rewrite Hp; left|].
  split; [|split; [exists s'; cbn; by rewrite lookup_insert_eq | by exists x]].
  eapply wf_same; [..|apply (wf_change_conns h p s s' (delete c (conns h)) (queue h) W Hs Hk)]; try done.
  - intros d. destruct (decide (d = c)) as [->|Hd].
    + rewrite lookup_delete_eq. split; [done|]. by intros (y & ? & _).
    + rewrite lookup_delete_ne by done. rewrite <- Hc, Hp, elem_of_cons. intuition done.
  - intros d y Hy. destruct (decide (d = c)) as [->|Hd]; [|by rewrite lookup_delete_ne].
    rewrite lookup_delete_eq. split; [done|]. intros E. congruence.
  - apply (wf_queue_nodup _ W).
  - intros d Hd. destruct (wf_queue _ W d Hd) as (y & s0 & Hy & Hs0 & Hud).
    destruct (decide (parent y = p)) as [E|E].
    + right. apply Hu; [congruence|]. by intros ->.
    + left. split; [done|]. intros (z & Hz & Ez)%Hc. congruence.
Qed.

Lemma delete_detached h c p : detached c p h →
  delete_conn c h = Ok (h <| conns := delete c (conns h) |>) ∧ wf (h <| conns := delete c (conns h) |>).
Proof. intros (W & _ & x & Hx & _). unfold delete_conn. by rewrite Hx. Qed.

Lemma find_idx_spec l c i : c ∈ l → ∃ j, find_idx l c i = Some (i + j)%nat ∧ l !! j = Some c.
Proof.
  revert i. induction l as [|d l IH]; intros i Hc; [by apply elem_of_nil in Hc|]. cbn [find_idx].
  destruct (Z.eqb_spec d c) as [->|Hd]; [exists 0%nat; split; [f_equal; lia | done]|].
  apply elem_of_cons in Hc as [->|Hc]; [done|]. destruct (IH (S i) Hc) as (j & E & Hj). exists (S j). split; [rewrite E; f_equal; lia | done].
Qed.
Lemma array_remove_elem_ok (l : list Z) c : c ∈ l → ∃ l', array_remove_elem l c = Ok l' ∧ l ≡ₚ c :: l'.
Proof.
  intros Hc. destruct (find_idx_spec l c 0 Hc) as (j & E & Hj). unfold array_remove_elem. rewrite E.
  destruct (array_remove_ok l j c Hj) as (l' & E' & Hp). rewrite Nat.add_0_l, E'. by exists l'.
Qed.

(** What an operation on one server leaves alone. *)
Definition only_server (p : Z) (h h' : HGM) : Prop :=
  MyHostGroups h' = MyHostGroups h ∧ MyHostGroups_map h' = MyHostGroups_map h ∧ queue h' = queue h ∧ shutdown h' = shutdown h ∧
  (∀ q, q ≠ p → servers h' !! q = servers h !! q) ∧ (∀ c x, parent x ≠ p → conns h' !! c = Some x ↔ conns h !! c = Some x).

Lemma remove_used_ok h c x s :
  wf h → conns h !! c = Some x → servers h !! parent x = Some s → c ∈ ConnectionsUsed s → c ∉ queue h →
  ∃ l, remove_used (parent x) c h = Ok (set_srv (parent x) (s <| ConnectionsUsed := l |>) h) ∧ ConnectionsUsed s ≡ₚ c :: l ∧
    detached c (parent x) (set_srv (parent x) (s <| ConnectionsUsed := l |>) h).
Proof.
  intros W Hx Hs Hu Hq. unfold remove_used. rewrite (get_srv_ok _ _ _ Hs). cbn [mbind outcome_bind].
  destruct (array_remove_elem_ok _ _ Hu) as (l & -> & Hl). cbn [mbind outcome_bind]. exists l. split; [done|]. split; [done|].
  apply (detach h c (parent x) s); try done.
  - unfold all_conns. cbn. by rewrite Hl.
  - intros d Hd Hne. cbn. rewrite Hl in Hd. by apply elem_of_cons in Hd as [?|?].
Qed.

Lemma remove_free_ok h p i c s :
  wf h → servers h !! p = Some s → ConnectionsFree s !! i = Some c →
  ∃ l, remove_free p i h = Ok (c, set_srv p (s <| ConnectionsFree := l |>) h) ∧ ConnectionsFree s ≡ₚ c :: l ∧
    array_remove i (ConnectionsFree s) = Ok (c, l) ∧ detached c p (set_srv p (s <| ConnectionsFree := l |>) h).
Proof.
  intros W Hs Hi. unfold remove_free. rewrite (get_srv_ok _ _ _ Hs). cbn [mbind outcome_bind].
  destruct (array_remove_ok _ _ _ Hi) as (l & E & Hl). rewrite E. cbn [mbind outcome_bind]. exists l. split; [done|]. split; [done|]. split; [done|].
  apply (detach h c p s); try done.
  - unfold all_conns. cbn. rewrite Hl. by rewrite Permutation_middle.
  - intros Hq. destruct (wf_queue h W c Hq) as (x & s0 & Hx & Hs0 & Hu). destruct (wf_conns h W p s Hs) as [Hn Hc].
    destruct (proj1 (Hc c)) as (y & Hy & Hp). { apply elem_of_app. right. rewrite Hl. left. }
    assert (y = x) as -> by congruence. rewrite Hp in Hs0. assert (s0 = s) as -> by congruence.
    apply NoDup_app in Hn as (_ & Hd & _). apply (Hd c Hu). rewrite Hl. left.
Qed.

(** ** What happens to a connection that is given back *)
Inductive verdict := ToFree | ToQueue | Deleted.

(** Worth a reset: everything seems healthy and the queue is not full. *)
Definition worth_reset (v : variables) (h : HGM) (x : pooled) (s : MySrvC) : bool :=
  status_is (status s) ONLINE && send_quit x && (Z.of_nat (length (queue h)) <? connpoll_reset_queue_length v)
  && idle x && negb (client_error (conn_errno x)).
Definition destroy_verdict v h x s : verdict := if worth_reset v h x s then ToQueue else Deleted.
Definition push_verdict v h x s : verdict :=
  if (u32 (threshold_query_length v) <? largest_query_length x) || negb (status_is (status s) ONLINE) || negb (idle x) then Deleted
  else if u32 (max_stmts_per_connection v) <? num_backend_stmts x then destroy_verdict v h x s
  else ToFree.

(** Where a used connection [c] of server [p] is afterwards. *)
Definition settled_as (c p : Z) (vd : verdict) (h h' : HGM) : Prop :=
  only_server p h (h' <| queue := queue h |>) ∧
  ∃ s s', servers h !! p = Some s ∧ servers h' !! p = Some s' ∧ skeleton_s s' = skeleton_s s ∧ status s' = status s ∧
  (∀ d, d ≠ c → conns h' !! d = conns h !! d) ∧
  match vd with
  | ToFree => queue h' = queue h ∧ ConnectionsFree s' = ConnectionsFree s ++ [c] ∧ ConnectionsUsed s ≡ₚ c :: ConnectionsUsed s' ∧
              ∃ x x', conns h !! c = Some x ∧ conns h' !! c = Some x' ∧ conn x' = (conn x) <| auto_increment_delay_token := 0 |>
  | ToQueue => queue h' = queue h ++ [c] ∧ ConnectionsFree s' = ConnectionsFree s ∧ ConnectionsUsed s' ≡ₚ ConnectionsUsed s ∧
               is_Some (conns h' !! c)
  | Deleted => queue h' = queue h ∧ ConnectionsFree s' = ConnectionsFree s ∧ ConnectionsUsed s ≡ₚ c :: ConnectionsUsed s' ∧
               conns h' !! c = None
  end.

(** A connection in use that is not waiting for its reset. *)
Definition in_use (h : HGM) (c : Z) (x : pooled) (s : MySrvC) : Prop :=
  conns h !! c = Some x ∧ servers h !! parent x = Some s ∧ c ∈ ConnectionsUsed s ∧ c ∉ queue h.

Lemma wf_enqueue h c x s : wf h → in_use h c x s → wf (h <| queue := queue h ++ [c] |>).
Proof.
  intros W (Hx & Hs & Hu & Hq). destruct W as [? ? ? ? ? ? Hqq Hqn]. split; try done.
  - intros d [Hd| ->%list_elem_of_singleton]%elem_of_app; [by apply Hqq|]. by exists x, s.
  - cbn. apply NoDup_app. split; [done|]. split; [|apply NoDup_singleton]. intros d Hd ->%list_elem_of_singleton. done.
Qed.

Lemma destroy_ok v h c x s :
  wf h → in_use h c x s →
  ∃ h', destroy_MyConn_from_pool v c h = Ok h' ∧ wf h' ∧ settled_as c (parent x) (destroy_verdict v h x s) h h'.
Proof.
  intros W U. pose proof U as (Hx & Hs & Hu & Hq). unfold destroy_MyConn_from_pool, get_conn. rewrite Hx. cbn [mbind outcome_bind].
  rewrite (get_srv_ok _ _ _ Hs). cbn [mbind outcome_bind]. fold (worth_reset v h x s). unfold destroy_verdict.
  destruct (worth_reset v h x s).
  - eexists. split; [done|]. split; [by eapply wf_enqueue|]. split; [done|]. exists s, s. by split_and!; try done; exists x.
  - destruct (remove_used_ok h c x s W Hx Hs Hu Hq) as (l & -> & Hl & D). cbn [mbind outcome_bind].
    match goal with |- context [delete_conn c ?H] => assert (D' : detached c (parent x) H) by (by eapply detached_same; [..|exact D]) end.
    destruct (delete_detached _ _ _ D') as [-> W']. eexists. split; [done|]. split; [exact W'|]. split.
    + split_and!; try done; cbn.
      * intros q Hne. by rewrite lookup_insert_ne.
      * intros d y Hy. destruct (decide (d = c)) as [->|Hd]; [|by rewrite lookup_delete_ne]. rewrite lookup_delete_eq. split; [done|]. congruence.
    + exists s, (s <| ConnectionsUsed := l |>). cbn. rewrite lookup_insert_eq, lookup_delete_eq. split_and!; try done.
      intros d Hd. by rewrite lookup_delete_ne.
Qed.

Lemma in_use_set h c x s y : in_use h c x s → parent y = parent x → in_use (set_conn c y h) c y s.
Proof. intros (Hx & Hs & Hu & Hq) E. split; [cbn; by rewrite lookup_insert_eq|]. by rewrite E. Qed.

Lemma push_ok v h c x s :
  wf h → in_use h c x s →
  ∃ h', push_MyConn_to_pool v c h = Ok h' ∧ wf h' ∧ settled_as c (parent x) (push_verdict v h x s) h h'.
Proof.
  intros W U. pose proof U as (Hx & Hs & Hu & Hq). unfold push_MyConn_to_pool, get_conn. rewrite Hx. cbn [mbind outcome_bind].
  set (x1 := x <| conn := (conn x) <| auto_increment_delay_token := 0 |> |>).
  match goal with |- context [get_srv ?H (parent x)] => set (h1 := H) end.
  assert (W1 : wf h1). { apply (wf_same (set_conn c x1 h)); try done. by eapply wf_set_conn. }
  assert (U1 : in_use h1 c x1 s). { destruct (in_use_set h c x s x1 U eq_refl) as (A & B & C & D). by split_and!. }
  destruct U1 as (Hx1 & Hs1 & Hu1 & Hq1). change (parent x) with (parent x1). rewrite (get_srv_ok _ _ _ Hs1). cbn [mbind outcome_bind].
  destruct (remove_used_ok h1 c x1 s W1 Hx1 Hs1 Hu1 Hq1) as (l & -> & Hl & D). cbn [mbind outcome_bind].
  set (h2 := set_srv (parent x1) (s <| ConnectionsUsed := l |>) h1) in *.
  assert (Hs2 : servers h2 !! parent x1 = Some (s <| ConnectionsUsed := l |>)) by (cbn; by rewrite lookup_insert_eq).
  assert (Hdel : ∃ h', delete_conn c h2 = Ok h' ∧ wf h' ∧ settled_as c (parent x1) Deleted h h').
  { destruct (delete_detached _ _ _ D) as [-> W']. eexists. split; [done|]. split; [exact W'|]. split.
    - split_and!; try done; cbn.
      + intros q Hne. by rewrite lookup_insert_ne.
      + intros d y Hy. destruct (decide (d = c)) as [->|Hd]; [|by rewrite lookup_delete_ne, lookup_insert_ne].
        rewrite lookup_delete_eq. split; [done|]. intros E. assert (y = x) as -> by congruence. done.
    - exists s, (s <| ConnectionsUsed := l |>). cbn. rewrite lookup_insert_eq, lookup_delete_eq. split_and!; try done.
      intros d Hd. by rewrite lookup_delete_ne, lookup_insert_ne. }
  unfold push_verdict. destruct (_ <? largest_query_length x); [exact Hdel|]. cbn [orb].
  destruct (status_is (status s) ONLINE) eqn:Eo; [|exact Hdel]. destruct (idle x) eqn:Ei; [|exact Hdel]. cbn [negb orb].
  destruct (_ <? num_backend_stmts x).
  - unfold add_used. rewrite (get_srv_ok _ _ _ Hs2). cbn [mbind outcome_bind].
    set (s3 := (s <| ConnectionsUsed := l |>) <| ConnectionsUsed := _ |>). set (h3 := set_srv (parent x1) s3 h2).
    assert (W3 : wf h3).
    { apply (attach h2 c (parent x1) (s <| ConnectionsUsed := l |>)); try done.
      - unfold all_conns. cbn. rewrite <- app_assoc. symmetry. apply Permutation_middle.
      - intros d Hd. cbn in *. apply elem_of_app. by left. }
    assert (U3 : in_use h3 c x1 s3).
    { split; [cbn; by rewrite lookup_insert_eq|]. split; [cbn; by rewrite lookup_insert_eq|]. split; [|done]. cbn. apply elem_of_app. right. left. }
    destruct (destroy_ok v h3 c x1 s3 W3 U3) as (h4 & -> & W4 & S4). exists h4. split; [done|]. split; [done|].
    assert (destroy_verdict v h3 x1 s3 = destroy_verdict v h x s) as Ev by done. rewrite Ev in S4.
    destruct S4 as [(A1 & A2 & A3 & A4 & A5 & A6) (sa & sb & B1 & B2 & B3 & B4 & B5 & B6)].
    assert (sa = s3) as -> by (cbn in B1; rewrite lookup_insert_eq in B1; congruence). split.
    + split_and!; try done.
      * intros q Hne. rewrite A5 by done. cbn. by rewrite !lookup_insert_ne.
      * intros d y Hy. etrans; [by apply A6|]. cbn. destruct (decide (d = c)) as [->|Hd]; [|by rewrite lookup_insert_ne].
        rewrite lookup_insert_eq. split; [intros [= <-]; done|]. intros E. assert (y = x) as -> by congruence. done.
    + exists s, sb. split; [done|]. split; [done|]. split; [done|]. split; [done|]. split.
      { intros d Hd. rewrite B5 by done. cbn. by rewrite lookup_insert_ne. }
      assert (Hp3 : ConnectionsUsed s3 ≡ₚ ConnectionsUsed s) by (cbn; rewrite Hl; symmetry; apply Permutation_cons_append).
      clear Ev. unfold destroy_verdict in *. destruct (worth_reset v h x s).
      * destruct B6 as (C1 & C2 & C3 & C4). split; [done|]. split; [done|]. split; [by rewrite C3 | done].
      * destruct B6 as (C1 & C2 & C3 & C4). split; [done|]. split; [done|]. split; [by rewrite <- C3, Hp3 | done].
  - unfold add_free. rewrite (get_srv_ok _ _ _ Hs2). cbn [mbind outcome_bind].
    set (s3 := (s <| ConnectionsUsed := l |>) <| ConnectionsFree := _ |>). exists (set_srv (parent x1) s3 h2). split; [done|]. split.
    { apply (attach h2 c (parent x1) (s <| ConnectionsUsed := l |>)); try done. unfold all_conns. cbn. by rewrite (app_assoc l), Permutation_app_comm. }
    split.
    + split_and!; try done; cbn.
      * intros q Hne. by rewrite !lookup_insert_ne.
      * intros d y Hy. destruct (decide (d = c)) as [->|Hd]; [|by rewrite lookup_insert_ne].
        rewrite lookup_insert_eq. split; [intros [= <-]; done|]. intros E. assert (y = x) as -> by congruence. done.
    + exists s, s3. split; [done|]. split; [cbn; by rewrite lookup_insert_eq|]. split; [done|]. split; [done|]. split.
      { intros d Hd. cbn. by rewrite lookup_insert_ne. }
      split; [done|]. split; [done|]. split; [done|]. exists x, x1. cbn. by rewrite lookup_insert_eq.
Qed.

(** ** Deleting free connections of one server *)
Record shrunk (p : Z) (s s' : MySrvC) (h h' : HGM) : Prop := {
  sh_wf : wf h';
  sh_only : only_server p h h';
  sh_before : servers h !! p = Some s;
  sh_after : servers h' !! p = Some s';
  sh_same : s' = s <| ConnectionsFree := ConnectionsFree s' |>;
  sh_kept d x : conns h' !! d = Some x ↔ conns h !! d = Some x ∧ (d ∈ ConnectionsFree s → d ∈ ConnectionsFree s');
  sh_sub d : d ∈ ConnectionsFree s' → d ∈ ConnectionsFree s
}.

Lemma only_server_refl p h : only_server p h h.
Proof. by split_and!. Qed.
Lemma only_server_trans p h1 h2 h3 : only_server p h1 h2 → only_server p h2 h3 → only_server p h1 h3.
Proof.
  intros (A1 & A2 & A3 & A4 & A5 & A6) (B1 & B2 & B3 & B4 & B5 & B6). split_and!; try congruence.
  - intros q Hq. by rewrite B5, A5.
  - intros c x Hx. by rewrite B6, A6.
Qed.

Lemma shrunk_refl p s h : wf h → servers h !! p = Some s → shrunk p s s h h.
Proof. intros W Hs. split; try done; [by destruct s | tauto]. Qed.
Lemma shrunk_trans p s1 s2 s3 h1 h2 h3 : shrunk p s1 s2 h1 h2 → shrunk p s2 s3 h2 h3 → shrunk p s1 s3 h1 h3.
Proof.
  intros [A1 A2 A3 A4 A5 A6 A7] [B1 B2 B3 B4 B5 B6 B7]. split; try done.
  - by eapply only_server_trans.
  - rewrite B5, A5. done.
  - intros d x. rewrite B6, A6. split; [intros [[? ?] ?]; auto|]. intros [? H]. split; [split|]; auto.
  - auto.
Qed.

Lemma remove_delete_ok h p i c s :
  wf h → servers h !! p = Some s → ConnectionsFree s !! i = Some c →
  ∃ h1 h2 s', remove_free p i h = Ok (c, h1) ∧ delete_conn c h1 = Ok h2 ∧ shrunk p s s' h h2 ∧
    array_remove i (ConnectionsFree s) = Ok (c, ConnectionsFree s') ∧ ConnectionsFree s ≡ₚ c :: ConnectionsFree s'.
Proof.
  intros W Hs Hi. destruct (remove_free_ok h p i c s W Hs Hi) as (l & -> & Hl & Ha & D).
  destruct (delete_detached _ _ _ D) as [Ed W2]. eexists _, _, (s <| ConnectionsFree := l |>). split; [done|]. split; [exact Ed|].
  destruct D as (_ & _ & x & Hx & Hp). cbn in Hx. split; [|done].
  assert (Hnd : c ∉ l).
  { destruct (wf_conns h W p s Hs) as [Hn _]. unfold all_conns in Hn. apply NoDup_app in Hn as (_ & _ & Hn).
    rewrite Hl in Hn. by apply NoDup_cons in Hn as [? _]. }
  split; [exact W2| |done|cbn; by rewrite lookup_insert_eq|done| |].
  - split_and!; try done; cbn.
    + intros q Hq. by rewrite lookup_insert_ne.
    + intros d y Hy. destruct (decide (d = c)) as [->|Hd]; [|by rewrite lookup_delete_ne]. rewrite lookup_delete_eq.
      split; [done|]. intros E. congruence.
  - intros d y. cbn. rewrite lookup_delete_Some, Hl, elem_of_cons. split.
    + intros [Hne Hy]. split; [done|]. by intros [->|?].
    + intros [? H]. split; [|done]. intros <-. apply Hnd. auto.
  - intros d Hd. cbn in Hd. rewrite Hl. by right.
Qed.

Lemma drop_first_ok n p h s :
  wf h → servers h !! p = Some s → (n ≤ length (ConnectionsFree s))%nat →
  ∃ h' s', drop_first n p h = Ok h' ∧ shrunk p s s' h h' ∧ (length (ConnectionsFree s') + n = length (ConnectionsFree s))%nat.
Proof.
  revert h s. induction n as [|n IH]; intros h s W Hs Hn; [exists h, s; split; [done|]; split; [by apply shrunk_refl | lia]|].
  destruct (lookup_lt_is_Some_2 (ConnectionsFree s) 0) as [c Hc]; [lia|]. cbn [drop_first].
  destruct (remove_delete_ok h p 0 c s W Hs Hc) as (h1 & h2 & s1 & -> & E2 & S1 & _ & Hl). cbn [mbind outcome_bind].
  rewrite E2. cbn [mbind outcome_bind]. apply Permutation_length in Hl. cbn in Hl.
  destruct (IH h2 s1 (sh_wf _ _ _ _ _ S1) (sh_after _ _ _ _ _ S1)) as (h3 & s3 & -> & S2 & Hlen); [lia|].
  exists h3, s3. split; [done|]. split; [by eapply shrunk_trans | lia].
Qed.

Lemma drop_while_over_ok limit fuel p h s :
  wf h → servers h !! p = Some s →
  (∀ s', max_connections s' = max_connections s → limit s' = true → ConnectionsFree s' ≠ []) → (length (ConnectionsFree s) ≤ fuel)%nat →
  ∃ h' s', drop_while_over limit fuel p h = Ok h' ∧ shrunk p s s' h h' ∧ limit s' = false.
Proof.
  revert h s. induction fuel as [|fuel IH]; intros h s W Hs Hlim Hf; cbn [drop_while_over];
    rewrite (get_srv_ok _ _ _ Hs); cbn [mbind outcome_bind]; destruct (limit s) eqn:El;
    try (exists h, s; split; [done|]; split; [by apply shrunk_refl | done]).
  - apply Hlim in El; [|done]. destruct (ConnectionsFree s); [done | cbn in Hf; lia].
  - assert (is_Some (ConnectionsFree s !! 0%nat)) as [c Hc]. { apply Hlim in El; [|done]. by destruct (ConnectionsFree s). }
    destruct (remove_delete_ok h p 0 c s W Hs Hc) as (h1 & h2 & s1 & -> & E2 & S1 & _ & Hl). cbn [mbind outcome_bind].
    rewrite E2. cbn [mbind outcome_bind]. apply Permutation_length in Hl. cbn in Hl.
    destruct (IH h2 s1 (sh_wf _ _ _ _ _ S1) (sh_after _ _ _ _ _ S1)) as (h3 & s3 & -> & S2 & Hlen); [|lia|].
    { intros s' E. apply Hlim. by rewrite E, (sh_same _ _ _ _ _ S1). }
    exists h3, s3. split; [done|]. split; [by eapply shrunk_trans | done].
Qed.

Lemma drop_old_ok fuel curtime age i p h s :
  wf h → servers h !! p = Some s → (length (ConnectionsFree s) - i < fuel)%nat →
  ∃ h' s', drop_old fuel curtime age i p h = Ok h' ∧ shrunk p s s' h h'.
Proof.
  revert i h s. induction fuel as [|fuel IH]; intros i h s W Hs Hf; [lia|]. cbn [drop_old].
  rewrite (get_srv_ok _ _ _ Hs). cbn [mbind outcome_bind]. destruct (ConnectionsFree s !! i) as [c|] eqn:Hc.
  2: { exists h, s. split; [done|]. by apply shrunk_refl. }
  pose proof (lookup_lt_Some _ _ _ Hc). destruct (proj1 (proj2 (wf_conns h W p s Hs) c)) as (x & Hx & _).
  { apply elem_of_app. right. by apply list_elem_of_lookup_2 with i. }
  unfold get_conn. rewrite Hx. cbn [mbind outcome_bind]. destruct (_ <? curtime); [|apply IH; [done|done|lia]].
  destruct (lookup_lt_is_Some_2 (ConnectionsFree s) 0) as [c0 Hc0]; [lia|].
  destruct (remove_delete_ok h p 0 c0 s W Hs Hc0) as (h1 & h2 & s1 & -> & E2 & S1 & _ & Hl). cbn [mbind outcome_bind].
  rewrite E2. cbn [mbind outcome_bind]. apply Permutation_length in Hl. cbn in Hl.
  destruct (IH i h2 s1 (sh_wf _ _ _ _ _ S1) (sh_after _ _ _ _ _ S1)) as (h3 & s3 & -> & S2); [lia|].
  exists h3, s3. split; [done|]. by eapply shrunk_trans.
Qed.

Lemma shrunk_length p s s' h h' : shrunk p s s' h h' → (length (ConnectionsFree s') ≤ length (ConnectionsFree s))%nat.
Proof.
  intros S. apply submseteq_length, NoDup_submseteq; [|apply (sh_sub _ _ _ _ _ S)].
  destruct (wf_conns _ (sh_wf _ _ _ _ _ S) p s' (sh_after _ _ _ _ _ S)) as [Hn _]. by apply NoDup_app in Hn as (_ & _ & Hn).
Qed.
Lemma shrunk_fields p s s' h h' : shrunk p s s' h h' →
  status s' = status s ∧ max_connections s' = max_connections s ∧ ConnectionsUsed s' = ConnectionsUsed s ∧ myhgc s' = myhgc s.
Proof. intros S. rewrite (sh_same _ _ _ _ _ S). done. Qed.

Lemma drop_all_shrunk p s h : wf h → servers h !! p = Some s →
  ∃ h', drop_all_connections p h = Ok h' ∧ shrunk p s (s <| ConnectionsFree := [] |>) h h'.
Proof.
  intros W Hs. destruct (drop_all_connections_spec false h p s) as (m & E & [W' _] & _ & Hm); [by split | done|]. cbn zeta in *.
  eexists. split; [exact E|]. split; [done| |done|cbn; by rewrite lookup_insert_eq|done| |].
  - split_and!; try done; cbn.
    + intros q Hq. by rewrite lookup_insert_ne.
    + intros d x Hx. rewrite Hm. destruct (decide (d ∈ ConnectionsFree s)) as [Hf|]; [|done]. split; [done|]. intros E'.
      destruct (proj1 (proj2 (wf_conns h W p s Hs) d)) as (y & Hy & Hp); [apply elem_of_app; by right|]. congruence.
  - intros d x. cbn. rewrite Hm. destruct (decide (d ∈ ConnectionsFree s)) as [Hf|Hf].
    + split; [done|]. intros [_ H]. by apply H, elem_of_nil in Hf.
    + split; [by split|]. by intros [? _].
  - intros d Hd. by apply elem_of_nil in Hd.
Qed.

(** The limits on the free connections of a server after the idle ones were dropped. *)
Definition within_limits (pct : Z) (s : MySrvC) : Prop :=
  (status s ≠ ONLINE → ConnectionsFree s = []) ∧
  (ConnectionsFree s = [] ∨ Z.of_nat (length (ConnectionsUsed s) + length (ConnectionsFree s)) ≤ max_connections s) ∧
  Z.of_nat (length (ConnectionsFree s)) ≤ Z.quot (pct * max_connections s) 100.

Lemma within_limits_shrunk pct p s s' h h' : shrunk p s s' h h' → within_limits pct s → within_limits pct s'.
Proof.
  intros S (A & B & C). destruct (shrunk_fields _ _ _ _ _ S) as (E1 & E2 & E3 & _). pose proof (shrunk_length _ _ _ _ _ S) as Hl.
  unfold within_limits. rewrite E1, E2, E3. split_and!; [|destruct B as [B|B]|lia].
  - intros Ho. rewrite (A Ho) in Hl. apply nil_length_inv. cbn in Hl. lia.
  - left. rewrite B in Hl. apply nil_length_inv. cbn in Hl. lia.
  - right. lia.
Qed.

Lemma over_max_false s : over_max s = false → ConnectionsFree s = [] ∨ Z.of_nat (length (ConnectionsUsed s) + length (ConnectionsFree s)) ≤ max_connections s.
Proof.
  unfold over_max. case_bool_decide; [by left|]. cbn. intros ?%Z.ltb_ge. right. lia.
Qed.
Lemma over_max_nonempty s : over_max s = true → ConnectionsFree s ≠ [].
Proof. unfold over_max. by case_bool_decide. Qed.

Lemma drop_idle_of_ok v curtime p h s i g :
  wf h → servers h !! p = Some s → myhgc s = Some i → MyHostGroups h !! i = Some g → 0 ≤ max_connections s → 0 ≤ (warming v g).2 →
  ∃ h' s', drop_idle_of v curtime p h = Ok h' ∧ shrunk p s s' h h' ∧ within_limits (warming v g).2 s'.
Proof.
  intros W Hs Hi Hg Hmax Hpct. unfold drop_idle_of. rewrite (get_srv_ok _ _ _ Hs). cbn [mbind outcome_bind].
  assert (∃ h1 s1, (if status_is (status s) ONLINE then Ok h else drop_all_connections p h) = Ok h1 ∧ shrunk p s s1 h h1 ∧
    (status s1 ≠ ONLINE → ConnectionsFree s1 = [])) as (h1 & s1 & -> & S1 & L1).
  { unfold status_is. case_bool_decide as Ho.
    - exists h, s. split; [done|]. split; [by apply shrunk_refl | done].
    - destruct (drop_all_shrunk p s h W Hs) as (h1 & E & S). by eexists _, _. }
  cbn [mbind outcome_bind]. pose proof (sh_after _ _ _ _ _ S1) as Hs1. rewrite (get_srv_ok _ _ _ Hs1). cbn [mbind outcome_bind].
  destruct (drop_while_over_ok over_max (length (ConnectionsFree s1)) p h1 s1) as (h2 & s2 & -> & S2 & L2);
    [apply (sh_wf _ _ _ _ _ S1)|done|intros s' _; apply over_max_nonempty|done|].
  cbn [mbind outcome_bind]. assert (S12 := shrunk_trans _ _ _ _ _ _ _ S1 S2).
  destruct (shrunk_fields _ _ _ _ _ S1) as (_ & _ & _ & E1). rewrite E1, Hi.
  assert (Hg2 : MyHostGroups h2 !! i = Some g) by (by rewrite (proj1 (sh_only _ _ _ _ _ S12))).
  rewrite (get_hgc_ok _ _ _ Hg2). cbn [mbind outcome_bind].
  pose proof (sh_after _ _ _ _ _ S12) as Hs2. rewrite (get_srv_ok _ _ _ Hs2). cbn [mbind outcome_bind].
  assert (Hlim : ∀ s3, max_connections s3 = max_connections s → over_pct (warming v g).2 s3 = true → ConnectionsFree s3 ≠ []).
  { intros s3 E3 Ho%Z.ltb_lt En. rewrite En, E3 in Ho. cbn in Ho. pose proof (Z.quot_pos ((warming v g).2 * max_connections s) 100). nia. }
  destruct (drop_while_over_ok (over_pct (warming v g).2) (length (ConnectionsFree s2)) p h2 s2) as (h3 & s3 & -> & S3 & L3);
    [apply (sh_wf _ _ _ _ _ S12)|done| |done|].
  { intros s' E. apply Hlim. rewrite E. apply (shrunk_fields _ _ _ _ _ S12). }
  cbn [mbind outcome_bind]. assert (S13 := shrunk_trans _ _ _ _ _ _ _ S12 S3).
  assert (L : within_limits (warming v g).2 s3).
  { pose proof (shrunk_length _ _ _ _ _ S3) as Hl3. pose proof (shrunk_length _ _ _ _ _ S2) as Hl2.
    destruct (shrunk_fields _ _ _ _ _ S3) as (A1 & A2 & A3 & _), (shrunk_fields _ _ _ _ _ S2) as (B1 & B2 & B3 & _).
    unfold within_limits. split_and!.
    - rewrite A1, B1. intros Ho. specialize (L1 Ho). rewrite L1 in Hl2. cbn in Hl2. apply nil_length_inv. lia.
    - destruct (over_max_false s2 L2) as [L|L]; [left; rewrite L in Hl3; cbn in Hl3; apply nil_length_inv; lia | right; rewrite A2, A3; lia].
    - by apply Z.ltb_ge in L3. }
  destruct (_ =? 0); [by exists h3, s3|].
  pose proof (sh_after _ _ _ _ _ S13) as Hs3. rewrite (get_srv_ok _ _ _ Hs3). cbn [mbind outcome_bind].
  destruct (drop_old_ok (S (length (ConnectionsFree s3))) curtime (connection_max_age_ms v * 1000) 0 p h3 s3) as (h4 & s4 & -> & S4);
    [apply (sh_wf _ _ _ _ _ S13)|done|lia|].
  exists h4, s4. split; [done|]. split; [by eapply shrunk_trans | by eapply within_limits_shrunk].
Qed.

(** *** All servers of all hostgroups *)
Definition pct_of (v : variables) (h : HGM) (s : MySrvC) : Z :=
  match myhgc s with Some i => match MyHostGroups h !! i with Some g => (warming v g).2 | None => 0 end | None => 0 end.

(** The free connections of the servers in [ps] were trimmed; nothing else changed. *)
Record trimmed (v : variables) (ps : list Z) (h h' : HGM) : Prop := {
  tr_wf : wf h';
  tr_same : MyHostGroups h' = MyHostGroups h ∧ MyHostGroups_map h' = MyHostGroups_map h ∧ queue h' = queue h ∧ shutdown h' = shutdown h;
  tr_other q : q ∉ ps → servers h' !! q = servers h !! q;
  tr_servers p s : p ∈ ps → servers h !! p = Some s → ∃ s', servers h' !! p = Some s' ∧
    s' = s <| ConnectionsFree := ConnectionsFree s' |> ∧ within_limits (pct_of v h s) s';
  tr_conns d x : conns h' !! d = Some x → conns h !! d = Some x
}.

Definition positive_limits (v : variables) (h : HGM) : Prop :=
  (∀ p s, servers h !! p = Some s → 0 ≤ max_connections s) ∧ ∀ i g, MyHostGroups h !! i = Some g → 0 ≤ (warming v g).2.

Lemma drop_idle_trimmed v curtime p h : wf h → positive_limits v h → allocated h p →
  ∃ h', drop_idle_of v curtime p h = Ok h' ∧ trimmed v [p] h h'.
Proof.
  intros W [Hmax Hpct] [s Hs]. destruct (owner_allocated h p s W Hs) as (i & g & Hi & Hg & _).
  destruct (drop_idle_of_ok v curtime p h s i g W Hs Hi Hg (Hmax p s Hs) (Hpct i g Hg)) as (h' & s' & E & S & L).
  exists h'. split; [done|]. destruct S as [S1 (A1 & A2 & A3 & A4 & A5 & _) S3 S4 S5 S6 S7]. split; try done.
  - intros q Hq. apply A5. intros ->. apply Hq. left.
  - intros q s0 ->%list_elem_of_singleton Hs0. assert (s0 = s) as -> by congruence. exists s'. split; [done|]. split; [done|].
    unfold pct_of. by rewrite Hi, Hg.
  - intros d x. rewrite S6. by intros [? _].
Qed.

Lemma trimmed_trans v ps qs h1 h2 h3 :
  trimmed v ps h1 h2 → trimmed v qs h2 h3 → (∀ p, p ∈ ps → p ∉ qs) → trimmed v (ps ++ qs) h1 h3.
Proof.
  intros [A1 (A2 & A3 & A4 & A5) A6 A7 A8] [B1 (B2 & B3 & B4 & B5) B6 B7 B8] Hd. split; try done.
  - split_and!; congruence.
  - intros q [? ?]%not_elem_of_app. by rewrite B6, A6.
  - intros p s Hp Hs. destruct (decide (p ∈ ps)) as [Hin|Hin].
    + destruct (A7 p s Hin Hs) as (s' & Hs' & H). exists s'. by rewrite B6 by (by apply Hd).
    + apply elem_of_app in Hp as [?|Hp]; [done|]. assert (Hs2 : servers h2 !! p = Some s) by (by rewrite A6).
      destruct (B7 p s Hp Hs2) as (s' & Hs' & H). exists s'. split; [done|]. unfold pct_of in *. by rewrite A2 in H.
  - auto.
Qed.

Lemma trimmed_nil v h : wf h → trimmed v [] h h.
Proof. intros W. split; try done. intros p s Hp. by apply elem_of_nil in Hp. Qed.

Lemma trimmed_limits v ps h h' : wf h → trimmed v ps h h' → positive_limits v h → positive_limits v h'.
Proof.
  intros W T [Hm Hp]. pose proof (tr_same _ _ _ _ T) as (Eg & _). split; [|by rewrite Eg]. intros p s Hs.
  destruct (owner_allocated h' p s (tr_wf _ _ _ _ T) Hs) as (i & g & Hi & Hg & Hin). rewrite Eg in Hg.
  destruct (mysrvs_allocated h i g p W Hg Hin) as (s0 & Hs0 & _). specialize (Hm p s0 Hs0). destruct (decide (p ∈ ps)) as [Hps|Hps].
  - destruct (tr_servers _ _ _ _ T p s0 Hps Hs0) as (s' & Hs' & E & _). assert (s' = s) as -> by congruence. by rewrite E.
  - rewrite (tr_other _ _ _ _ T) in Hs by done. congruence.
Qed.

Lemma trimmed_allocated v ps h h' p : trimmed v ps h h' → allocated h p → allocated h' p.
Proof.
  intros T [s Hs]. destruct (decide (p ∈ ps)) as [Hps|Hps].
  - destruct (tr_servers _ _ _ _ T p s Hps Hs) as (s' & Hs' & _). by exists s'.
  - exists s. by rewrite (tr_other _ _ _ _ T).
Qed.

Lemma each_server_trimmed v curtime ps h : wf h → positive_limits v h → NoDup ps → (∀ p, p ∈ ps → allocated h p) →
  ∃ h', each_server (drop_idle_of v curtime) ps h = Ok h' ∧ trimmed v ps h h'.
Proof.
  revert h. induction ps as [|p ps IH]; intros h W L Hn Ha; [exists h; split; [done|]; by apply trimmed_nil|].
  apply NoDup_cons in Hn as [Hp Hn]. cbn [each_server]. destruct (drop_idle_trimmed v curtime p h W L) as (h1 & -> & T1); [apply Ha; left|].
  cbn [mbind outcome_bind]. destruct (IH h1) as (h2 & -> & T2); [apply T1|by eapply trimmed_limits|done| |].
  { intros q Hq. eapply trimmed_allocated; [done|]. apply Ha. by right. }
  exists h2. split; [done|]. apply (trimmed_trans v [p] ps h h1 h2 T1 T2). by intros q ->%list_elem_of_singleton.
Qed.

(** All servers from hostgroup [i] on. *)
Lemma each_hostgroup_trimmed v curtime n i h : wf h → positive_limits v h → (n + i = length (MyHostGroups h))%nat →
  ∃ h', each_hostgroup (drop_idle_of v curtime) n i h = Ok h' ∧ trimmed v (concat (mysrvs <$> drop i (MyHostGroups h))) h h'.
Proof.
  revert i h. induction n as [|n IH]; intros i h W L Hn.
  { exists h. split; [done|]. rewrite drop_ge by lia. by apply trimmed_nil. }
  cbn [each_hostgroup]. destruct (lookup_lt_is_Some_2 (MyHostGroups h) i) as [g Hg]; [lia|]. rewrite (get_hgc_ok _ _ _ Hg). cbn [mbind outcome_bind].
  destruct (each_server_trimmed v curtime (mysrvs g) h W L) as (h1 & -> & T1); [by eapply wf_arrays| |].
  { intros p Hp. destruct (mysrvs_allocated h i g p W Hg Hp) as (s & Hs & _). by exists s. }
  pose proof (tr_same _ _ _ _ T1) as (Eg & _). cbn [mbind outcome_bind].
  destruct (IH (S i) h1) as (h2 & -> & T2); [apply T1|by eapply trimmed_limits|rewrite Eg; lia|].
  exists h2. split; [done|]. rewrite (drop_S _ g i Hg). cbn [fmap list_fmap concat]. rewrite Eg in T2.
  apply (trimmed_trans v _ _ h h1 h2 T1 T2). intros p Hp (l & Hl & Hpl)%list_elem_of_In%in_concat.
  apply list_elem_of_In, list_elem_of_fmap in Hl as (g' & -> & [j Hj]%list_elem_of_lookup_1). rewrite lookup_drop in Hj.
  apply list_elem_of_In in Hpl. destruct (mysrvs_allocated h _ g' p W Hj Hpl) as (s & Hs & E1).
  destruct (mysrvs_allocated h i g p W Hg Hp) as (s' & Hs' & E2). assert (s' = s) as -> by congruence. assert (S i + j = i)%nat by congruence. lia.
Qed.

Definition all_servers (h : HGM) : list Z := concat (mysrvs <$> MyHostGroups h).
Lemma all_servers_spec h p s : wf h → servers h !! p = Some s → p ∈ all_servers h.
Proof.
  intros W Hs. destruct (owner_allocated h p s W Hs) as (i & g & _ & Hg & Hp). apply list_elem_of_In, in_concat.
  exists (mysrvs g). split; apply list_elem_of_In; [|done]. apply list_elem_of_fmap. exists g. split; [done|]. by apply list_elem_of_lookup_2 with i.
Qed.

Lemma drop_all_trimmed v curtime h : wf h → positive_limits v h →
  ∃ h', drop_all_idle_connections v curtime h = Ok h' ∧ trimmed v (all_servers h) h h'.
Proof.
  intros W L. destruct (each_hostgroup_trimmed v curtime (length (MyHostGroups h)) 0 h W L) as (h' & E & T); [lia|].
  exists h'. by rewrite drop_0 in T.
Qed.

(** Dropping the idle connections keeps the pool in order and within its
    limits: no connection in use is touched, servers that are not online keep no
    free connection, and every other server keeps free ones only as long as all
    its connections fit in [max_connections] and the free ones in their share. *)
Theorem idle_connections_trimmed v curtime h :
  wf h → positive_limits v h →
  ∃ h', drop_all_idle_connections v curtime h = Ok h' ∧ wf h' ∧ queue h' = queue h ∧
  ∀ p s, servers h !! p = Some s → ∃ s', servers h' !! p = Some s' ∧
    ConnectionsUsed s' = ConnectionsUsed s ∧ ConnectionsFree s' ⊆ ConnectionsFree s ∧
    (∀ c x, c ∈ all_conns s' → conns h' !! c = Some x → conns h !! c = Some x) ∧
    (status s ≠ ONLINE → ConnectionsFree s' = []) ∧
    (ConnectionsFree s' = [] ∨ Z.of_nat (length (ConnectionsUsed s') + length (ConnectionsFree s')) ≤ max_connections s) ∧
    Z.of_nat (length (ConnectionsFree s')) ≤ Z.quot (pct_of v h s * max_connections s) 100.
Proof.
  intros W L. destruct (drop_all_trimmed v curtime h W L) as (h' & E & T). exists h'. split; [done|]. split; [apply T|]. split; [apply T|].
  intros p s Hs. destruct (tr_servers _ _ _ _ T p s (all_servers_spec h p s W Hs) Hs) as (s' & Hs' & Es & L1 & L2 & L3).
  exists s'. split; [done|]. assert (ConnectionsUsed s' = ConnectionsUsed s) as Eu by (by rewrite Es).
  assert (status s' = status s) as Et by (by rewrite Es). assert (max_connections s' = max_connections s) as Em by (by rewrite Es).
  rewrite Et, Em in *. split; [done|]. split.
  - intros c Hc. assert (Hin : c ∈ all_conns s') by (apply elem_of_app; by right).
    apply (wf_conns _ (tr_wf _ _ _ _ T) p s' Hs') in Hin as (x & Hx & Hp). apply (tr_conns _ _ _ _ T) in Hx.
    assert (c ∈ all_conns s) as [Hu|?]%elem_of_app by (apply (wf_conns _ W p s Hs); by exists x); [|done].
    destruct (wf_conns _ (tr_wf _ _ _ _ T) p s' Hs') as [Hn _]. apply NoDup_app in Hn as (_ & Hd & _). rewrite Eu in Hd. by destruct (Hd c Hu).
  - split; [|done]. intros c x _. apply (tr_conns _ _ _ _ T).
Qed.

(** With a young connection in front of an old one, the age limit deletes
    the young one and keeps the old one. *)
Theorem max_age_drops_wrong_connection curtime age p h s young old x y :
  wf h → servers h !! p = Some s → ConnectionsFree s = [young; old] → conns h !! young = Some x → conns h !! old = Some y →
  curtime ≤ creation_time (conn x) + age → creation_time (conn y) + age < curtime →
  ∃ h' s', drop_old 3 curtime age 0 p h = Ok h' ∧ servers h' !! p = Some s' ∧ ConnectionsFree s' = [old] ∧
    conns h' !! young = None ∧ conns h' !! old = Some y.
Proof.
  intros W Hs Hf Hx Hy Hyoung Hold. cbn [drop_old]. rewrite (get_srv_ok _ _ _ Hs). cbn [mbind outcome_bind]. rewrite Hf. cbn [lookup list_lookup].
  unfold get_conn. rewrite Hx. cbn [mbind outcome_bind]. rewrite (proj2 (Z.ltb_ge _ _)) by lia.
  cbn [mbind outcome_bind lookup list_lookup]. rewrite Hy. cbn [mbind outcome_bind].
  rewrite (proj2 (Z.ltb_lt _ _)) by lia.
  assert (Hc : ConnectionsFree s !! 0%nat = Some young) by (by rewrite Hf).
  destruct (remove_delete_ok h p 0 young s W Hs Hc) as (h1 & h2 & s1 & -> & E2 & S1 & Ea & _). cbn [mbind outcome_bind]. rewrite E2. cbn [mbind outcome_bind].
  rewrite Hf in Ea. change (array_remove 0 [young; old]) with (Ok (young, [old])) in Ea. injection Ea as Ef. pose proof (sh_after _ _ _ _ _ S1) as Hs1.
  rewrite (get_srv_ok _ _ _ Hs1). cbn [mbind outcome_bind]. rewrite <- Ef. cbn [lookup list_lookup].
  destruct (wf_conns h W p s Hs) as [Hn _]. apply NoDup_app in Hn as (_ & _ & Hn). rewrite Hf in Hn. apply NoDup_cons in Hn as [Hne _].
  exists h2, s1. split; [done|]. split; [done|]. split; [done|]. split.
  - destruct (conns h2 !! young) as [z|] eqn:Ez; [|done]. apply (sh_kept _ _ _ _ _ S1) in Ez as [_ Hk]. rewrite <- Ef, Hf in Hk.
    exfalso. apply Hne, Hk. left.
  - apply (sh_kept _ _ _ _ _ S1). split; [done|]. intros _. rewrite <- Ef. left.
Qed.

(** ** Choosing a server leaves the connections alone *)
Definition arrays (h : HGM) (q : Z) : option (list Z * list Z) := option_map (λ s, (ConnectionsUsed s, ConnectionsFree s)) (servers h !! q).
Definition keeps (h h' : HGM) : Prop := conns h' = conns h ∧ queue h' = queue h ∧ ∀ q, arrays h' q = arrays h q.
#[export] Instance keeps_preorder : PreOrder keeps.
Proof. split; [done|]. intros h1 h2 h3 (A1 & A2 & A3) (B1 & B2 & B3). split_and!; [congruence..|]. intros q. by rewrite B3. Qed.

Lemma keeps_set_srv h p s s' : servers h !! p = Some s → ConnectionsUsed s' = ConnectionsUsed s → ConnectionsFree s' = ConnectionsFree s →
  keeps h (set_srv p s' h).
Proof.
  intros Hs Hu Hf. split_and!; try done. intros q. unfold arrays. cbn. destruct (decide (q = p)) as [->|]; [|by rewrite lookup_insert_ne].
  rewrite lookup_insert_eq, Hs. cbn. by rewrite Hu, Hf.
Qed.

Lemma get_srv_inv h p s : get_srv h p = Ok s → servers h !! p = Some s.
Proof. unfold get_srv. by destruct (servers h !! p) as [s'|]; [intros [= ->]|]. Qed.

(** Splits [x ≫= f = Ok y]. *)
Lemma bind_ok {A B} (x : outcome A) (f : A → outcome B) y : x ≫= f = Ok y → ∃ a, x = Ok a ∧ f a = Ok y.
Proof. destruct x as [a|]; [by exists a | done]. Qed.

Lemma keeps_refresh i h h' : refresh_online_server_count i h = Ok h' → keeps h h'.
Proof.
  unfold refresh_online_server_count. destruct (shutdown h); [by intros [= <-]|].
  intros (g & _ & (n & _ & [= <-])%bind_ok)%bind_ok. done.
Qed.
Lemma keeps_set_status p st h h' : HostGroups.set_status p st h = Ok h' → keeps h h'.
Proof.
  intros (s & Hs%get_srv_inv & H)%bind_ok. transitivity (set_srv p (s <| status := st |>) h); [by eapply keeps_set_srv|].
  destruct (myhgc s); [by eapply keeps_refresh | by injection H as <-].
Qed.
Lemma keeps_unshun p h h' : unshun p h = Ok h' → keeps h h'.
Proof.
  intros (h1 & H1%keeps_set_status & (s & Hs%get_srv_inv & [= <-])%bind_ok)%bind_ok. etrans; [done|]. by eapply keeps_set_srv.
Qed.
Lemma keeps_unshun_first addr prt t w ps h h' : unshun_first h addr prt t w ps = Ok h' → keeps h h'.
Proof.
  induction ps as [|p ps IH]; [by intros [= <-]|]. cbn [unshun_first]. intros (s & _ & H)%bind_ok.
  destruct (_ && _); [|auto]. destruct (may_unshun _ _ _); [by eapply keeps_unshun | by injection H as <-].
Qed.
Lemma keeps_unshun_all n i addr prt t w sk h h' : unshun_loop n i addr prt t w sk h = Ok h' → keeps h h'.
Proof.
  revert i h. induction n as [|n IH]; intros i h; [by intros [= <-]|]. cbn [unshun_loop]. intros (g & _ & H)%bind_ok.
  destruct (bool_decide _); [by eapply IH|]. apply bind_ok in H as (h1 & H1%keeps_unshun_first & H%IH). by etrans.
Qed.

Lemma keeps_add_candidate cap p s (h : HGM) sum cands r : (r0 ← add_candidate cap p s sum cands; let '(a, b) := r0 in Ok (h, a, b)) = Ok r → r.1.1 = h.
Proof. unfold add_candidate. destruct (_ <? _)%nat; [|done]. by intros [= <-]. Qed.
Lemma keeps_consider v rq cap p h sum cands r : consider_recovered v rq cap p h sum cands = Ok r → r.1.1 = h.
Proof.
  intros (s & _ & H)%bind_ok. destruct (_ && _); [by eapply keeps_add_candidate | by injection H as <-].
Qed.
Lemma keeps_online v rq cap p s h sum cands r : visit_online v rq cap p s h sum cands = Ok r → r.1.1 = h.
Proof.
  unfold visit_online. destruct (myhgc s); [|done]. intros (g & _ & H)%bind_ok.
  repeat case_match; try done; first [by eapply keeps_add_candidate | by injection H as <-].
Qed.
Lemma keeps_shunned v rq cap t p s h sum cands r : visit_shunned v rq cap t p s h sum cands = Ok r → keeps h r.1.1.
Proof.
  unfold visit_shunned. destruct (_ && _); [|by intros [= <-]]. intros (h1 & H1%keeps_unshun & (h2 & H2 & H3%keeps_consider)%bind_ok)%bind_ok.
  rewrite H3. etrans; [done|]. destruct (_ =? 1); [|by injection H2 as ->]. destruct (myhgc s); [|done].
  apply bind_ok in H2 as (g & _ & H2). by eapply keeps_unshun_all.
Qed.
Lemma keeps_collect v rq cap now ps h sum cands r : collect v rq cap now ps h sum cands = Ok r → keeps h r.1.1.
Proof.
  revert h sum cands. induction ps as [|p ps IH]; intros h sum cands; [by intros [= <-]|]. cbn [collect].
  intros (s & _ & ([[h1 sum1] c1] & H1 & H)%bind_ok)%bind_ok. apply IH in H. etrans; [|exact H].
  destruct (status_is (status s) ONLINE); [apply keeps_online in H1; cbn in H1; by subst h1|].
  destruct (status_is _ _); [by apply keeps_shunned in H1 | by injection H1 as -> _ _].
Qed.
Lemma keeps_desperate v rq cap t ps h sum cands r : desperate v rq cap t ps h sum cands = Ok r → keeps h r.1.1.
Proof.
  revert h sum cands. induction ps as [|p ps IH]; intros h sum cands; [by intros [= <-]|]. cbn [desperate].
  intros (s & _ & ([[h1 sum1] c1] & H1 & H)%bind_ok)%bind_ok. apply IH in H. etrans; [|exact H].
  destruct (_ && _); [|by injection H1 as -> _ _].
  apply bind_ok in H1 as (h2 & H2%keeps_set_status & (s2 & Hs2%get_srv_inv & H1%keeps_consider)%bind_ok). cbn in H1. rewrite H1.
  etrans; [done|]. by eapply keeps_set_srv.
Qed.
Lemma keeps_select v rq now t r31 r15 i h h' o : get_random_MySrvC v rq now t r31 r15 i h = Ok (h', o) → keeps h h'.
Proof.
  intros (g & _ & H)%bind_ok. cbn zeta in H. destruct (_ =? 0)%nat; [by injection H as <- _|].
  apply bind_ok in H as ([[h1 s1] c1] & H1%keeps_collect & ([s2 c2] & _ & ([[h2 s3] c3] & H2 & H)%bind_ok)%bind_ok). cbn in H1.
  assert (keeps h h2) as K.
  { etrans; [done|]. destruct (s2 =? 0); [by apply keeps_desperate in H2 | by injection H2 as -> _ _]. }
  destruct (s3 =? 0); [by injection H as <- _|]. apply bind_ok in H as ([? ?] & _ & (o' & _ & [= <- _])%bind_ok). done.
Qed.

(** ** The search *)

(** User and schema are known. *)
Definition named (c : MySQL_Connection) : Prop := is_Some (username (userinfo c)) ∧ is_Some (schemaname (userinfo c)).

(** How well a connection suits the client: 0 not at all, 1 after COM_CHANGE_USER,
    2 after some SET or a change of schema, 3 as it is; and the number of matches. *)
Definition grade (client this : MySQL_Connection) : Z * Z :=
  if match_tracked_options this client then
    match requires_CHANGE_USER this client with
    | Ok false =>
        let '(cnt, nm) := number_of_matching_session_variables this client 0 in
        if bool_decide (schemaname (userinfo this) = schemaname (userinfo client))
        then ((if nm =? 0 then 3 else 2), cnt + 1) else ((if u32 (nm + 1) =? 0 then 3 else 2), cnt)
    | _ => (1, 0)
    end
  else (0, 0).

(** With the reset algorithm 1 and no queue, a connection that needs COM_CHANGE_USER is not reused. *)
Definition no_reuse (v : variables) : bool := (reset_connection_algorithm v =? 1) && (connpoll_reset_queue_length v =? 0).

Definition step_search (v : variables) (k : nat) (j : Z * Z) (r : search) : search * bool :=
  let '(mk_search idx level n) := r in
  if j.1 =? 0 then (r, false)
  else if j.1 =? 1 then
    let '(level, idx) := if level =? 0 then (1, Some k) else (level, idx) in
    (mk_search idx (if (level =? 1) && no_reuse v then 0 else level) n, false)
  else if j.1 =? 2 then
    let '(level, idx) := if (level =? 0) || (level =? 1) then (2, Some k) else (level, idx) in
    if n <? j.2 then (mk_search (Some k) level j.2, false) else (mk_search idx level n, false)
  else (mk_search (Some k) 3 j.2, true).

Lemma strcmp_eq_ok a b : is_Some a → is_Some b → ∃ r, strcmp_eq a b = Ok r ∧ r = bool_decide (a = b).
Proof.
  intros [x ->] [y ->]. eexists. split; [done|]. apply bool_decide_ext. split; congruence.
Qed.

Lemma requires_CHANGE_USER_ok this client : is_Some (username (userinfo this)) → is_Some (username (userinfo client)) →
  ∃ b, requires_CHANGE_USER this client = Ok b.
Proof.
  intros H1 H2. unfold requires_CHANGE_USER. destruct (strcmp_eq_ok _ _ H1 H2) as (r & -> & _). cbn [mbind outcome_bind].
  destruct (negb r); [eauto|]. destruct (existsb _ _); [eauto|]. destruct (_ <? _)%nat; eauto.
Qed.

Lemma inspect_grade v client this k r : named client → named this → inspect v client this k r = Ok (step_search v k (grade client this) r).
Proof.
  intros [Hcu Hcs] [Htu Hts]. destruct r as [idx level n]. unfold inspect, step_search, grade. destruct (match_tracked_options this client); [|done].
  destruct (requires_CHANGE_USER_ok this client Htu Hcu) as [b ->]. cbn [mbind outcome_bind].
  destruct (strcmp_eq_ok _ _ Hts Hcs) as (b' & E & ->).
  destruct (level =? 0) eqn:E0, b; cbn [negb Z.eqb orb fst snd]; unfold no_reuse; rewrite ?andb_assoc; try done; rewrite E;
    destruct (number_of_matching_session_variables this client 0) as [cnt nm]; cbn [mbind outcome_bind]; case_bool_decide;
    repeat (case_match; cbn in *; try done); congruence.
Qed.

(** The connections at positions from [k] on, with their grades. *)
Fixpoint graded (client : MySQL_Connection) (h : HGM) (cs : list Z) (k : nat) : list (nat * (Z * Z)) :=
  match cs with
  | [] => []
  | c :: cs' => (k, match conns h !! c with Some x => grade client (conn x) | None => (0, 0) end) :: graded client h cs' (S k)
  end.

Lemma graded_spec client h cs k e : e ∈ graded client h cs k ↔
  ∃ i c, cs !! i = Some c ∧ e = ((k + i)%nat, match conns h !! c with Some x => grade client (conn x) | None => (0, 0) end).
Proof.
  revert k. induction cs as [|c cs IH]; intros k; cbn [graded].
  - rewrite elem_of_nil. split; [done|]. intros (i & c & H & _). by rewrite lookup_nil in H.
  - rewrite elem_of_cons, IH. split.
    + intros [->|(i & d & Hi & ->)]; [exists 0%nat, c; by rewrite Nat.add_0_r | exists (S i), d; split; [done|]; by rewrite <- Nat.add_succ_comm].
    + intros ([|i] & d & Hi & ->); [left; injection Hi as ->; by rewrite Nat.add_0_r | right; exists i, d; split; [done|]; by rewrite <- Nat.add_succ_comm].
Qed.

Lemma grade_range client this : 0 ≤ (grade client this).1 ≤ 3 ∧ 0 ≤ (grade client this).2.
Proof.
  unfold grade. destruct (match_tracked_options this client); [|cbn; lia]. destruct (requires_CHANGE_USER this client) as [[]|]; cbn; try lia.
  destruct (number_of_matching_session_variables this client 0) as [cnt nm] eqn:E.
  assert (0 ≤ cnt).
  { revert E. unfold number_of_matching_session_variables.
    assert (∀ l a, 0 ≤ a.1 → 0 ≤ (fold_left (match_low this client) l a).1) as Hlow.
    { induction l as [|i l IH]; intros a Ha; [done|]. cbn. apply IH. unfold match_low. destruct a as [x y]. repeat case_match; cbn in *; lia. }
    specialize (Hlow low_variables (0, 0)). destruct (fold_left _ _ _) as [ret nm0]. cbn in Hlow.
    assert (∀ lc ls ret nm, 0 ≤ ret → 0 ≤ (match_dynamic this client lc ls ret nm).1) as Hdyn.
    { induction lc as [|c lc IH]; intros ls ret0 nm1 Hr; [done|]. cbn. repeat case_match; cbn; try done; apply IH; lia. }
    intros E. match type of E with match_dynamic _ _ ?a ?b ?c ?d = _ => specialize (Hdyn a b c d) end. rewrite E in Hdyn. cbn in Hdyn. lia. }
  case_bool_decide; case_match; cbn; lia.
Qed.

(** What the search knows after the positions in [seen], none of them perfect. *)
Definition knows (v : variables) (seen : list (nat * (Z * Z))) (r : search) : Prop :=
  let '(mk_search idx level n) := r in
  (∀ e, e ∈ seen → e.2.1 ≠ 3) ∧ 0 ≤ n ∧
  ((level = 2 ∧ (∃ k, idx = Some k ∧ (k, (2, n)) ∈ seen) ∧ ∀ e, e ∈ seen → e.2.1 = 2 → e.2.2 ≤ n) ∨
   ((∀ e, e ∈ seen → e.2.1 ≠ 2) ∧ n = 0 ∧ level = (if no_reuse v then 0 else 1) ∧ ∃ k c, idx = Some k ∧ (k, (1, c)) ∈ seen) ∨
   ((∀ e, e ∈ seen → e.2.1 = 0) ∧ n = 0 ∧ level = 0)).

Lemma step_knows v seen k j r : knows v seen r → 0 ≤ j.1 ≤ 3 → 0 ≤ j.2 →
  match step_search v k j r with
  | (r', true) => r' = mk_search (Some k) 3 j.2 ∧ j.1 = 3
  | (r', false) => knows v (seen ++ [(k, j)]) r'
  end.
Proof.
  destruct r as [idx level n], j as [g c]. intros (H3 & Hn & Hr) Hg Hc. cbn in Hg, Hc. unfold step_search. cbn [fst snd].
  assert (Hin : ∀ e, e ∈ seen ++ [(k, (g, c))] ↔ e ∈ seen ∨ e = (k, (g, c))) by (intros e; by rewrite elem_of_app, list_elem_of_singleton).
  assert (Hne : g ≠ 3 → ∀ e, e ∈ seen ++ [(k, (g, c))] → e.2.1 ≠ 3) by (intros ? e [?| ->]%Hin; [by apply H3 | done]).
  destruct (Z.eqb_spec g 0) as [->|G0]; [|destruct (Z.eqb_spec g 1) as [->|G1]; [|destruct (Z.eqb_spec g 2) as [->|G2]]].
  - split; [by apply Hne|]. split; [done|]. destruct Hr as [(-> & (k0 & -> & Hk) & Hm)|[(H2 & -> & -> & k0 & c0 & -> & Hk)|(H0 & -> & ->)]].
    + left. split; [done|]. split; [exists k0; split; [done|]; apply Hin; by left|]. intros e [?| ->]%Hin; [by apply Hm | done].
    + right. left. split; [intros e [?| ->]%Hin; [by apply H2 | done]|]. split; [done|]. split; [done|]. exists k0, c0. split; [done|]. apply Hin. by left.
    + right. right. split; [|done]. intros e [?| ->]%Hin; [by apply H0 | done].
  - destruct Hr as [(-> & (k0 & -> & Hk) & Hm)|Hr].
    + cbn. split; [by apply Hne|]. split; [done|]. left. split; [done|]. split; [exists k0; split; [done|]; apply Hin; by left|].
      intros e [?| ->]%Hin; [by apply Hm | done].
    + assert (∃ idx', (let '(level, idx) := if level =? 0 then (1, Some k) else (level, idx) in
        (mk_search idx (if (level =? 1) && no_reuse v then 0 else level) n, false)) =
        (mk_search idx' (if no_reuse v then 0 else 1) n, false) ∧ ∃ k0 c0, idx' = Some k0 ∧ (k0, (1, c0)) ∈ seen ++ [(k, (1, c))]) as (idx' & E & Hk).
      { destruct Hr as [(_ & _ & -> & k0 & c0 & -> & Hk)|(_ & _ & ->)].
        - destruct (no_reuse v); cbn; [exists (Some k) | exists (Some k0)]; (split; [done|]);
            [exists k, c | exists k0, c0]; (split; [done|]); apply Hin; auto.
        - exists (Some k). cbn. split; [by destruct (no_reuse v)|]. exists k, c. split; [done|]. apply Hin. by right. }
      destruct (if level =? 0 then _ else _) as [l0 i0]. injection E as E1 E2. rewrite E1, E2. cbn.
      split; [by apply Hne|]. split; [done|]. right. left. split.
      { intros e [?| ->]%Hin; [|done]. destruct Hr as [(H2 & _)|(H0 & _)]; [by apply H2|]. by rewrite (H0 e). }
      split; [by destruct Hr as [(_ & -> & _)|(_ & -> & _)]|]. done.
  - assert (Hmax : (level = 2 ∧ (∃ k0, idx = Some k0 ∧ (k0, (2, n)) ∈ seen) ∧ ∀ e, e ∈ seen → e.2.1 = 2 → e.2.2 ≤ n) ∨
      ((level =? 0) || (level =? 1) = true ∧ n = 0 ∧ ∀ e, e ∈ seen → e.2.1 ≠ 2)).
    { destruct Hr as [?|[(? & ? & -> & _)|(H0 & ? & ->)]]; [by left|right..].
      - split; [by destruct (no_reuse v)|]. done.
      - split; [done|]. split; [done|]. intros e He. by rewrite (H0 e He). }
    clear Hr. destruct Hmax as [(-> & (k0 & -> & Hk) & Hm)|(-> & -> & Hno)]; cbn [Z.eqb orb]; destruct (Z.ltb_spec n c) as [Hlt|Hge] || destruct (Z.ltb_spec 0 c) as [Hlt|Hge];
      (split; [by apply Hne|]); (split; [lia|]); left; (split; [done|]).
    + split; [exists k; split; [done|]; apply Hin; by right|]. intros e [He| ->]%Hin E; [specialize (Hm e He E); lia | cbn; lia].
    + split; [exists k0; split; [done|]; apply Hin; by left|]. intros e [He| ->]%Hin E; [by apply Hm | cbn; lia].
    + split; [exists k; split; [done|]; apply Hin; by right|]. intros e [He| ->]%Hin E; [by destruct (Hno e He) | cbn; lia].
    + assert (c = 0) as -> by lia. split; [exists k; split; [done|]; apply Hin; by right|]. intros e [He| ->]%Hin E; [by destruct (Hno e He) | cbn; lia].
  - split; [done | lia].
Qed.

Definition all_named (h : HGM) (cs : list Z) : Prop := ∀ c, c ∈ cs → ∃ x, conns h !! c = Some x ∧ named (conn x).

Lemma inner_search_spec v client h cs k seen r :
  named client → all_named h cs → knows v seen r →
  ∃ r', get_random_MyConn_inner_search v client h cs k r = Ok r' ∧
    (knows v (seen ++ graded client h cs k) r' ∨ ∃ k' c, r' = mk_search (Some k') 3 c ∧ (k', (3, c)) ∈ graded client h cs k).
Proof.
  intros Hcl. revert k seen r. induction cs as [|c cs IH]; intros k seen r Hn Hk; [exists r; split; [done|]; left; by rewrite app_nil_r|].
  destruct (Hn c) as (x & Hx & Hxn); [left|]. cbn [get_random_MyConn_inner_search graded]. unfold get_conn. rewrite Hx. cbn [mbind outcome_bind].
  rewrite inspect_grade by done. cbn [mbind outcome_bind]. set (j := grade client (conn x)).
  destruct (grade_range client (conn x)) as [Hg1 Hg2]. pose proof (step_knows v seen k j r Hk Hg1 Hg2) as Hs.
  destruct (step_search v k j r) as [r1 []].
  - destruct Hs as [-> Hj]. eexists. split; [done|]. right. exists k, j.2. split; [done|]. destruct j as [g m]. cbn in *. subst g. left.
  - destruct (IH (S k) (seen ++ [(k, j)]) r1) as (r' & E & H); [intros d Hd; apply Hn; by right|done|]. exists r'. split; [done|].
    rewrite <- app_assoc in H. destruct H as [H|(k' & c' & -> & H)]; [by left|]. right. exists k', c'. split; [done|]. by right.
Qed.

Lemma knows_perm v seen seen' r : seen ≡ₚ seen' → knows v seen r → knows v seen' r.
Proof. intros E. destruct r as [idx level n]. unfold knows. by setoid_rewrite E. Qed.

Lemma graded_app client h l l' k : graded client h (l ++ l') k = graded client h l k ++ graded client h l' (k + length l)%nat.
Proof.
  revert k. induction l as [|c l IH]; intros k; cbn [app graded length]; [by rewrite Nat.add_0_r|]. by rewrite IH, Nat.add_succ_comm.
Qed.

Definition grade_at (client : MySQL_Connection) (h : HGM) (cs : list Z) (k : nat) : Z * Z :=
  match cs !! k with Some c => match conns h !! c with Some x => grade client (conn x) | None => (0, 0) end | None => (0, 0) end.

(** The result names a connection of the best grade, and of grade 2 one with the most matches. *)
Definition best_found (v : variables) (client : MySQL_Connection) (h : HGM) (cs : list Z) (r : search) : Prop :=
  let g := grade_at client h cs in
  let '(mk_search idx level n) := r in
  (level = 3 ∧ ∃ k, idx = Some k ∧ g k = (3, n) ∧ (k < length cs)%nat) ∨
  ((∀ k, (g k).1 ≠ 3) ∧
   ((level = 2 ∧ (∃ k, idx = Some k ∧ g k = (2, n) ∧ (k < length cs)%nat) ∧ ∀ k, (g k).1 = 2 → (g k).2 ≤ n) ∨
    ((∀ k, (g k).1 ≠ 2) ∧
     ((level = (if no_reuse v then 0 else 1) ∧ ∃ k c, idx = Some k ∧ g k = (1, c) ∧ (k < length cs)%nat) ∨
      ((∀ k, (g k).1 = 0) ∧ level = 0))))).

Lemma graded_at client h cs k j : (k, j) ∈ graded client h cs 0 ↔ (k < length cs)%nat ∧ j = grade_at client h cs k.
Proof.
  rewrite graded_spec. unfold grade_at. split.
  - intros (i0 & c & Hc & [= -> ->]). rewrite Hc. split; [by eapply lookup_lt_Some | done].
  - intros [[c Hc]%lookup_lt_is_Some_2 ->]. exists k, c. by rewrite Hc.
Qed.

Lemma knows_best v client h cs r :
  knows v (graded client h cs 0) r ∨ (∃ k c, r = mk_search (Some k) 3 c ∧ (k, (3, c)) ∈ graded client h cs 0) → best_found v client h cs r.
Proof.
  assert (Hq : ∀ (P : Z * Z → Prop), P (0, 0) → (∀ e, e ∈ graded client h cs 0 → P e.2) → ∀ k, P (grade_at client h cs k)).
  { intros P P0 HP k. destruct (decide (k < length cs)%nat) as [Hk|Hk]; [apply (HP (k, grade_at client h cs k)); by apply graded_at|].
    unfold grade_at. by rewrite (lookup_ge_None_2 cs k) by lia. }
  destruct r as [idx level n]. intros [(H3 & Hn0 & Hr)|(k' & c & [= -> -> ->] & [Hk Hj]%graded_at)]; [right|left; split; [done|]; by exists k'].
  split; [by apply (Hq (λ j, j.1 ≠ 3))|]. destruct Hr as [(-> & (k & -> & [Hk Hj]%graded_at) & Hm)|[(H2 & -> & -> & k & c & -> & [Hk Hj]%graded_at)|(H0 & -> & ->)]].
  - left. split; [done|]. split; [by exists k|]. intros k1 E. apply (Hq (λ j, j.1 = 2 → j.2 ≤ n)); [done|by intros e He; apply Hm|done].
  - right. split; [by apply (Hq (λ j, j.1 ≠ 2))|]. left. split; [done|]. by exists k, c.
  - right. split; [apply (Hq (λ j, j.1 ≠ 2)); [done|]; intros e He; by rewrite (H0 e He)|]. right. split; [by apply (Hq (λ j, j.1 = 0)) | done].
Qed.

Lemma graded_split client h cs i : (i ≤ length cs)%nat →
  graded client h cs 0 = graded client h (take i cs) 0 ++ graded client h (drop i cs) i.
Proof. intros Hi. rewrite <- (take_drop i cs) at 1. rewrite graded_app. by rewrite length_take, Nat.min_l by lia. Qed.

(** The search for a free connection finds the best one, wherever it starts:
    one that can be used as it is if there is any; else, among those that need
    no COM_CHANGE_USER, one with the most matching variables; else one that
    needs it, unless the configuration forbids that. *)
Theorem search_finds_best v client h cs i :
  named client → all_named h cs → (i ≤ length cs)%nat →
  ∃ r, search_from v client h cs i = Ok r ∧ best_found v client h cs r.
Proof.
  intros Hcl Hn Hi. unfold search_from.
  assert (Hsub : ∀ l, (∀ c, c ∈ l → c ∈ cs) → all_named h l) by (intros l Hl c Hc; apply Hn, Hl, Hc).
  assert (K0 : knows v [] (mk_search None 0 0)).
  { split; [intros e He; by apply elem_of_nil in He|]. split; [done|]. right. right. split; [|done]. intros e He. by apply elem_of_nil in He. }
  destruct (inner_search_spec v client h (drop i cs) i [] _ Hcl (Hsub _ (λ c Hc, subseteq_drop i cs c Hc)) K0) as (r1 & -> & Hr1).
  cbn [mbind outcome_bind app] in *. destruct Hr1 as [Hk1|(k & c & -> & Hk)].
  - destruct r1 as [idx level n] eqn:Er. assert (level ≠ 3) as H3.
    { destruct Hk1 as (_ & _ & [(-> & _)|[(_ & _ & -> & _)|(_ & _ & ->)]]); [done|by destruct (no_reuse v)|done]. }
    cbn [connection_quality_level]. rewrite (proj2 (Z.eqb_neq _ _) H3).
    destruct (inner_search_spec v client h (take i cs) 0 _ _ Hcl (Hsub _ (λ c Hc, subseteq_take i cs c Hc)) Hk1) as (r2 & -> & Hr2).
    exists r2. split; [done|]. apply knows_best. rewrite (graded_split client h cs i Hi). destruct Hr2 as [Hk2|(k & c & -> & Hk)].
    + left. eapply knows_perm; [apply Permutation_app_comm | done].
    + right. exists k, c. split; [done|]. apply elem_of_app. by left.
  - eexists. split; [done|]. apply knows_best. right. exists k, c. split; [done|]. rewrite (graded_split client h cs i Hi).
    apply elem_of_app. by right.
Qed.

(** ** Taking a connection out *)

(** [d] was taken out for server [p], new at address [c0] or one of its free ones. *)
Record taken_out (c0 p : Z) (s : MySrvC) (h h' : HGM) (d : Z) : Prop := {
  to_detached : detached d p h';
  to_skeleton : same_skeleton h h';
  to_queue : queue h' = queue h;
  to_other q : q ≠ p → servers h' !! q = servers h !! q;
  to_server : ∃ s', servers h' !! p = Some s' ∧ s' = s <| ConnectionsFree := ConnectionsFree s' |> ∧ ConnectionsFree s' ⊆ ConnectionsFree s;
  to_conns e x : e ≠ d → conns h' !! e = Some x → conns h !! e = Some x;
  to_what : (d = c0 ∧ ∃ b, conns h' !! d = Some (fresh_connection b p)) ∨ (d ∈ ConnectionsFree s ∧ conns h' !! d = conns h !! d)
}.

Lemma shrunk_skeleton p s s' h h' : shrunk p s s' h h' → same_skeleton h h'.
Proof.
  intros [_ (A1 & A2 & _ & A4 & A5 & _) Hs Hs' E _ _]. split_and!; try done; [by rewrite A1|]. intros q.
  destruct (decide (q = p)) as [->|]; [|by rewrite A5]. rewrite Hs, Hs', E. done.
Qed.

Lemma new_taken c0 p s s1 h h1 : shrunk p s s1 h h1 → conns h !! c0 = None →
  ∃ h', new_connection_for c0 p s1 h1 = Ok h' ∧ taken_out c0 p s h h' c0.
Proof.
  intros S Hc. pose proof (sh_wf _ _ _ _ _ S) as W1. pose proof (sh_after _ _ _ _ _ S) as Hs1.
  destruct (owner_allocated h1 p s1 W1 Hs1) as (i & g & Hi & Hg & _). unfold new_connection_for.
  rewrite Hi, (get_hgc_ok _ _ _ Hg). cbn [mbind outcome_bind]. cbn zeta. eexists. split; [done|].
  assert (Hc1 : conns h1 !! c0 = None).
  { destruct (conns h1 !! c0) as [x|] eqn:E; [|done]. apply (sh_kept _ _ _ _ _ S) in E as [E _]. congruence. }
  split; cbn.
  - eapply detached_same; [..|apply (detach_new h1 c0 p (fresh_connection (multiplex (attributes g)) p) W1 Hc1)]; try done. by exists s1.
  - exact (shrunk_skeleton _ _ _ _ _ S).
  - apply (sh_only _ _ _ _ _ S).
  - intros q Hq. by apply (sh_only _ _ _ _ _ S).
  - exists s1. split; [done|]. split; [apply (sh_same _ _ _ _ _ S)|]. intros d. apply (sh_sub _ _ _ _ _ S).
  - intros e x He. rewrite lookup_insert_ne by done. intros Hx. by apply (sh_kept _ _ _ _ _ S) in Hx as [? _].
  - left. split; [done|]. rewrite lookup_insert_eq. eauto.
Qed.

Lemma free_taken c0 p s h k c : wf h → servers h !! p = Some s → ConnectionsFree s !! k = Some c →
  ∃ h', remove_free p k h = Ok (c, h') ∧ taken_out c0 p s h h' c.
Proof.
  intros W Hs Hk. destruct (remove_free_ok h p k c s W Hs Hk) as (l & -> & Hl & _ & D). eexists. split; [done|]. split; try done.
  - by eapply skeleton_set_srv.
  - intros q Hq. cbn. by rewrite lookup_insert_ne.
  - exists (s <| ConnectionsFree := l |>). cbn. rewrite lookup_insert_eq. split; [done|]. split; [done|]. intros d Hd. rewrite Hl. by right.
  - right. split; [by apply list_elem_of_lookup_2 with k | done].
Qed.

Lemma connections_to_free_le s : (connections_to_free s ≤ length (ConnectionsFree s))%nat.
Proof. unfold connections_to_free. destruct (_ && _); lia. Qed.

Lemma take_found_ok v client c0 p s h r : wf h → servers h !! p = Some s → conns h !! c0 = None → best_found v client h (ConnectionsFree s) r →
  ∃ d h', take_found c0 p r h = Ok (Some d, h') ∧ taken_out c0 p s h h' d.
Proof.
  intros W Hs Hc Hr. unfold take_found. rewrite (get_srv_ok _ _ _ Hs). cbn [mbind outcome_bind]. cbn zeta. destruct r as [idx level n]. cbn [connection_quality_level conn_found_idx].
  assert (Hfound : ∀ k, idx = Some k → (k < length (ConnectionsFree s))%nat → ∃ d h',
    match idx with Some i => '(c, h) ← remove_free p i h; Ok (Some c, h) | None => Fault Uninitialised end = Ok (Some d, h') ∧ taken_out c0 p s h h' d).
  { intros k -> [c Hk]%lookup_lt_is_Some_2. destruct (free_taken c0 p s h k c W Hs Hk) as (h' & -> & T). by exists c, h'. }
  assert (Hcreate : ∃ h', new_connection_for c0 p s h = Ok h' ∧ taken_out c0 p s h h' c0) by (apply (new_taken c0 p s s h h); [by apply shrunk_refl | done]).
  assert (Hclean : ∃ d h', (h ← drop_first (connections_to_free s) p h; s ← get_srv h p; h ← new_connection_for c0 p s h; Ok (Some c0, h)) = Ok (Some d, h') ∧ taken_out c0 p s h h' d).
  { destruct (drop_first_ok (connections_to_free s) p h s W Hs (connections_to_free_le s)) as (h1 & s1 & -> & S & _). cbn [mbind outcome_bind].
    rewrite (get_srv_ok _ _ _ (sh_after _ _ _ _ _ S)). cbn [mbind outcome_bind].
    destruct (new_taken c0 p s s1 h h1 S Hc) as (h2 & -> & T). by exists c0, h2. }
  assert (Hone : ∀ k, idx = Some k → (k < length (ConnectionsFree s))%nat → ∃ d h',
    (if (Z.of_nat (length (ConnectionsFree s)) <? Z.of_nat (length (ConnectionsUsed s))) &&
        (Z.of_nat (length (ConnectionsFree s)) / 2 + Z.of_nat (length (ConnectionsUsed s)) / 2 <? max_connections s)
     then h ← new_connection_for c0 p s h; Ok (Some c0, h)
     else match idx with Some i => '(c, h) ← remove_free p i h; Ok (Some c, h) | None => Fault Uninitialised end) = Ok (Some d, h') ∧ taken_out c0 p s h h' d).
  { intros k Hi Hk. destruct (_ && _); [|by eapply Hfound]. destruct Hcreate as (h' & -> & T). by exists c0, h'. }
  destruct Hr as [(-> & k & Hi & _ & Hk)|(_ & [(-> & (k & Hi & _ & Hk) & _)|(_ & [(-> & k & c & Hi & _ & Hk)|(_ & ->)])])].
  - by eapply Hfound.
  - by eapply Hfound.
  - destruct (no_reuse v); [exact Hclean | by eapply Hone].
  - exact Hclean.
Qed.

Lemma taken_out_hgc c0 p s h h' d i g : taken_out c0 p s (set_hgc i g h) h' d → (∃ g0, MyHostGroups h !! i = Some g0 ∧ skeleton_g g = skeleton_g g0) → taken_out c0 p s h h' d.
Proof.
  intros [] (g0 & Hg0 & Hk). split; try done. etrans; [by eapply skeleton_set_hgc | done].
Qed.

Lemma get_random_MyConn_ok v client ff now r31 r15 c0 p h s :
  wf h → servers h !! p = Some s → conns h !! c0 = None → 0 ≤ r31 → 0 ≤ r15 →
  (∀ cl, client = Some cl → named cl ∧ all_named h (ConnectionsFree s)) →
  ∃ o h', get_random_MyConn v client ff now r31 r15 c0 p h = Ok (o, h') ∧
    match o with
    | Some d => taken_out c0 p s h h' d
    | None => wf h' ∧ same_skeleton h h' ∧ keeps h h' ∧ servers h' = servers h
    end.
Proof.
  intros W Hs Hc0 Hr1 Hr2 Hcl. unfold get_random_MyConn. rewrite (get_srv_ok _ _ _ Hs). cbn [mbind outcome_bind].
  destruct (owner_allocated h p s W Hs) as (i & g & Hi & Hg & _). rewrite Hi, (get_hgc_ok _ _ _ Hg). cbn [mbind outcome_bind]. cbn zeta.
  destruct (negb (length (ConnectionsFree s) =? 0)%nat && negb ff && negb (needs_warming v g s)) eqn:Ecase.
  - apply andb_prop in Ecase as [[Hl%negb_true_iff _]%andb_prop _]. apply Nat.eqb_neq in Hl.
    set (k := random_index r31 r15 (length (ConnectionsFree s))).
    assert (Hk : (k < length (ConnectionsFree s))%nat).
    { unfold k, random_index. set (r := if 32768 <? _ then r31 else r15).
      pose proof (Z.mod_pos_bound r (Z.of_nat (length (ConnectionsFree s)))). lia. }
    destruct client as [cl|].
    + destruct (Hcl cl eq_refl) as [Hn Ha]. destruct (search_finds_best v cl h (ConnectionsFree s) k Hn Ha) as (r & -> & Hb); [lia|]. cbn [mbind outcome_bind].
      destruct (take_found_ok v cl c0 p s h r W Hs Hc0 Hb) as (d & h' & E & T). by exists (Some d), h'.
    + destruct (lookup_lt_is_Some_2 _ _ Hk) as [c Hc]. destruct (free_taken c0 p s h k c W Hs Hc) as (h' & -> & T). by exists (Some c), h'.
  - set (g1 := if current_time_now g <? now then _ else g). set (g2 := g1 <| new_connections_now := _ |>).
    assert (Hsk : skeleton_g g2 = skeleton_g g) by (unfold g2, g1; by destruct (_ <? now)).
    assert (W2 : wf (set_hgc i g2 h)) by (eapply wf_set_hgc; [done|done|injection Hsk; auto|injection Hsk; auto]).
    destruct (throttle v g2 <? new_connections_now g2).
    + eexists None, _. split; [done|]. split; [by eapply wf_same; [..|exact W2]|]. split; [by eapply skeleton_set_hgc | done].
    + destruct (new_taken c0 p s s (set_hgc i g2 h) (set_hgc i g2 h)) as (h' & -> & T); [by apply shrunk_refl|done|].
      exists (Some c0), h'. split; [done|]. eapply taken_out_hgc; [done|]. by exists g.
Qed.

Lemma add_used_ok c0 p s h h' d : taken_out c0 p s h h' d →
  ∃ s' h2, add_used p d h' = Ok h2 ∧ wf h2 ∧ queue h2 = queue h ∧ conns h2 = conns h' ∧ (d ∉ all_conns s') ∧
    s' = s <| ConnectionsFree := ConnectionsFree s' |> ∧ ConnectionsFree s' ⊆ ConnectionsFree s ∧
    servers h2 !! p = Some (s' <| ConnectionsUsed := ConnectionsUsed s' ++ [d] |>) ∧ ∀ q, q ≠ p → servers h2 !! q = servers h !! q.
Proof.
  intros T. destruct (to_server _ _ _ _ _ _ T) as (s' & Hs' & Es & Hsub). exists s'. unfold add_used. rewrite (get_srv_ok _ _ _ Hs').
  cbn [mbind outcome_bind]. eexists. split; [done|]. pose proof (to_detached _ _ _ _ _ _ T) as D. split.
  { apply (attach h' d p s'); try done.
    - unfold all_conns. cbn. rewrite <- app_assoc. symmetry. apply Permutation_middle.
    - intros e He. cbn. apply elem_of_app. by left. }
  split; [apply (to_queue _ _ _ _ _ _ T)|]. split; [done|]. split; [by apply (detached_facts d p h' s' D)|]. split; [done|]. split; [done|].
  split; [cbn; by rewrite lookup_insert_eq|]. intros q Hq. cbn. rewrite lookup_insert_ne by done. by apply (to_other _ _ _ _ _ _ T).
Qed.

Lemma update_max_ok p h s : wf h → servers h !! p = Some s →
  ∃ n, let s' := s <| max_connections_used := n |> in
  update_max_connections_used p h = Ok (set_srv p s' h) ∧ wf (set_srv p s' h).
Proof.
  intros W Hs. unfold update_max_connections_used. rewrite (get_srv_ok _ _ _ Hs). cbn [mbind outcome_bind]. cbn zeta.
  destruct (_ <? _).
  - eexists. split; [done|]. by eapply wf_set_srv.
  - exists (max_connections_used s). assert (s <| max_connections_used := max_connections_used s |> = s) as -> by (by destruct s).
    assert (set_srv p s h = h) as ->; [|done]. destruct h. unfold set_srv. cbn in *. by rewrite insert_id.
Qed.

(** The pool as seen by a caller: [o] is the connection handed out. *)
Definition handed_out (h h' : HGM) (new c : Z) : Prop :=
  (∀ q s, servers h !! q = Some s → c ∉ ConnectionsUsed s) ∧
  ∃ p s s', servers h !! p = Some s ∧ servers h' !! p = Some s' ∧ ConnectionsUsed s' = ConnectionsUsed s ++ [c] ∧
    (c = new ∨ (c ∈ ConnectionsFree s ∧ c ∉ ConnectionsFree s')) ∧
    (status s = ONLINE → Z.of_nat (length (ConnectionsUsed s')) ≤ max_connections s) ∧
    ∀ q, q ≠ p → arrays h' q = arrays h q.

(** What a call needs: a new address, named connections in the pool, weights that can be added up. *)
Definition call_ok (a : call) (h : HGM) : Prop :=
  conns h !! c_new a = None ∧ has_session (c_request a) ∧ 0 ≤ (c_rand_conn a).1 ∧ 0 ≤ (c_rand_conn a).2 ∧
  (∀ g, g ∈ MyHostGroups h → hid g = c_hid a → weights_fit h g) ∧
  (∀ cl, c_client a = Some cl → named cl) ∧ ∀ p s, servers h !! p = Some s → all_named h (ConnectionsFree s).

Lemma arrays_eq h h' q s : (∀ q, arrays h' q = arrays h q) → servers h' !! q = Some s →
  ∃ s0, servers h !! q = Some s0 ∧ ConnectionsUsed s = ConnectionsUsed s0 ∧ ConnectionsFree s = ConnectionsFree s0.
Proof.
  intros E Hs. specialize (E q). unfold arrays in E. rewrite Hs in E. destruct (servers h !! q) as [s0|]; [|done].
  injection E as E1 E2. by exists s0.
Qed.

Lemma get_MyConn_ok v a h :
  wf h → call_ok a h →
  (get_MyConn_from_pool v a h = Fault DivByZero ∧ latency_aware (c_request a)) ∨
  ∃ o h', get_MyConn_from_pool v a h = Ok (o, h') ∧ wf h' ∧ queue h' = queue h ∧
    match o with
    | Some c => handed_out h h' (c_new a) c ∧ ∀ e x, e ≠ c → conns h' !! e = Some x → conns h !! e = Some x
    | None => conns h' = conns h ∧ ∀ q, arrays h' q = arrays h q
    end.
Proof.
  intros W (Hnew & Hses & Hr1 & Hr2 & Hw & Hcl & Hnamed). unfold get_MyConn_from_pool. cbn zeta.
  match goal with |- context [MyHGC_lookup (c_hid a) ?H] => set (h0 := H) end.
  assert (W0 : wf h0) by (by apply (wf_same h)).
  destruct (MyHGC_lookup_spec false h0 (c_hid a)) as (i & h1 & g & -> & [W1 _] & Es1 & Ec1 & Eq1 & Hg & Hid & Hold); [by split|].
  assert (Hfit : weights_fit h1 g).
  { assert (Hwo : ∀ p, weight_of h1 p = weight_of h p) by (intros p; unfold weight_of; by rewrite Es1). destruct Hold as [Hold|Hnil].
    - destruct (Hw g) as [A B]; [by apply list_elem_of_lookup_2 with i|done|]. split; [intros p Hp; rewrite Hwo; by apply A|].
      rewrite (wsum_ext h h1); [done|]. intros; apply Hwo.
    - split; [intros p; rewrite Hnil; by intros ?%elem_of_nil|]. rewrite Hnil. done. }
  destruct (selection_sound false v (c_request a) i (c_clock a) (c_time a) (c_rand_srv a).1 (c_rand_srv a).2 h1 g) as [[-> Hla]|(h2 & o & E2 & [W2 _] & _ & Hsel)];
    [by split|done|done|done|by left|right].
  rewrite E2. cbn [mbind outcome_bind]. apply keeps_select in E2 as (Kc & Kq & Ka).
  assert (Ka' : ∀ q, arrays h2 q = arrays h q) by (intros q; rewrite Ka; unfold arrays; by rewrite Es1).
  assert (Kq' : queue h2 = queue h) by (rewrite Kq; by rewrite Eq1). assert (Kc' : conns h2 = conns h) by (rewrite Kc; by rewrite Ec1).
  destruct o as [p|]; [|by exists None, h2]. destruct (Hsel p eq_refl) as (_ & s1 & s2 & Hs1 & Hs2 & _ & _ & Ho).
  assert (Hs : servers h !! p = Some s1) by (by rewrite <- Hs1, Es1).
  destruct (arrays_eq h h2 p s2 Ka' Hs2) as (s0 & Hs0 & Eu & Ef). assert (s0 = s1) as -> by congruence.
  destruct (get_random_MyConn_ok v (c_client a) (c_ff a) (c_now a) (c_rand_conn a).1 (c_rand_conn a).2 (c_new a) p h2 s2 W2 Hs2)
    as (oc & h3 & -> & H3); [by rewrite Kc'|done|done| |].
  { intros cl Hc. split; [by apply Hcl|]. intros c Hin. rewrite Ef in Hin. rewrite Kc'. by apply (Hnamed p s1 Hs). }
  cbn [mbind outcome_bind]. destruct oc as [c|].
  2: { destruct H3 as (W3 & _ & (Kc3 & Kq3 & Ka3) & _). exists None, h3. split; [done|]. split; [done|]. split; [congruence|]. split; [congruence|]. intros q. by rewrite Ka3. }
  destruct (add_used_ok _ _ _ _ _ _ H3) as (s3 & h4 & -> & W4 & Q4 & C4 & Hni & Es3 & Hsub & Hs4 & Ho4). cbn [mbind outcome_bind].
  set (s4 := s3 <| ConnectionsUsed := ConnectionsUsed s3 ++ [c] |>) in *.
  match goal with |- context [update_max_connections_used p ?H] => set (h5 := H) end.
  destruct (update_max_ok p h5 s4) as (n & -> & W6); [by apply (wf_same h4)|done|]. cbn [mbind outcome_bind].
  eexists (Some c), _. split; [done|]. split; [done|]. split; [cbn; congruence|].
  assert (Eu3 : ConnectionsUsed s3 = ConnectionsUsed s1) by (rewrite Es3; exact Eu).
  assert (Hnu : ∀ q s, servers h !! q = Some s → c ∉ ConnectionsUsed s).
  { intros q s Hq Hin. destruct (to_what _ _ _ _ _ _ H3) as [[-> _]|[Hf _]].
    - destruct (proj1 (proj2 (wf_conns h W q s Hq) (c_new a))) as (x & Hx & _); [apply elem_of_app; by left|]. congruence.
    - rewrite Ef in Hf. destruct (wf_conns h W q s Hq) as [Hn Hc]. destruct (wf_conns h W p s1 Hs) as [Hn1 Hc1].
      destruct (proj1 (Hc c)) as (x & Hx & <-); [apply elem_of_app; by left|]. destruct (proj1 (Hc1 c)) as (y & Hy & Hp); [apply elem_of_app; by right|].
      assert (x = y) as <- by congruence. assert (s = s1) as -> by congruence. apply NoDup_app in Hn as (_ & Hd & _). by apply (Hd c). }
  assert (Hkept : ∀ e x, e ≠ c → conns h4 !! e = Some x → conns h !! e = Some x) by (intros e x He; rewrite C4, <- Kc'; by apply (to_conns _ _ _ _ _ _ H3)).
  split; [|exact Hkept]. split; [done|]. exists p, s1, (s4 <| max_connections_used := n |>). split; [done|]. split; [cbn; by rewrite lookup_insert_eq|].
  split; [cbn; congruence|]. split; [|split].
  - destruct (to_what _ _ _ _ _ _ H3) as [[-> _]|[Hf _]]; [by left|right]. rewrite Ef in Hf. split; [done|]. cbn.
    intros Hin. apply Hni, elem_of_app. by right.
  - intros Hon. cbn. rewrite length_app, Eu3. cbn. destruct Ho as [(_ & _ & Hlt)|(Hsh & _)]; [lia | congruence].
  - intros q Hq. unfold arrays. cbn. rewrite lookup_insert_ne, Ho4 by done. apply Ka'.
Qed.

(** C1: A connection is never handed out twice.  Taking a connection from the
    pool keeps the pool in order and gives either nothing or one connection, new
    or until then free, that nobody was using; afterwards it is used, and
    a server that was online has not more used connections than it may have.
    Only latency awareness can make the call fail, with a division by zero. *)
Theorem connection_handed_out_once v a h :
  wf h → call_ok a h →
  (get_MyConn_from_pool v a h = Fault DivByZero ∧ latency_aware (c_request a)) ∨
  ∃ o h', get_MyConn_from_pool v a h = Ok (o, h') ∧ wf h' ∧ queue h' = queue h ∧
    match o with Some c => handed_out h h' (c_new a) c | None => ∀ q, arrays h' q = arrays h q end.
Proof.
  intros W C. destruct (get_MyConn_ok v a h W C) as [?|(o & h' & E & W' & Q & H)]; [by left|right]. exists o, h'. do 3 (split; [done|]). destruct o; apply H.
Qed.

(** C2: Giving a connection back settles where it goes.  [push_MyConn_to_pool]
    and [destroy_MyConn_from_pool] never fail for a connection in use that is not
    waiting for its reset; the pool stays in order, and the connection ends up
    free, queued for a reset, or deleted exactly as its state and its server's
    say, while every other connection and server is left alone. *)
Theorem connection_given_back v h c x s :
  wf h → in_use h c x s →
  (∃ h', push_MyConn_to_pool v c h = Ok h' ∧ wf h' ∧ settled_as c (parent x) (push_verdict v h x s) h h') ∧
  (∃ h', destroy_MyConn_from_pool v c h = Ok h' ∧ wf h' ∧ settled_as c (parent x) (destroy_verdict v h x s) h h').
Proof. intros W U. split; [by apply push_ok | by apply destroy_ok]. Qed.

(** ** The oldest idle connections *)
Section Oldest.
Context (N : Z).
Abbreviation key := (fst : candidate → Z).

Lemma multimap_insert_perm e m : multimap_insert e m ≡ₚ e :: m.
Proof.
  induction m as [|e' m IH]; [done|]. cbn [multimap_insert]. destruct (_ <? _); [done|]. rewrite IH. apply Permutation_swap.
Qed.
Abbreviation ordered := (StronglySorted (λ a b : candidate, a.1 ≤ b.1)).
Lemma multimap_insert_sorted e m : ordered m → ordered (multimap_insert e m).
Proof.
  induction m as [|e' m IH]; intros Hs; [constructor; [done | constructor]|]. cbn [multimap_insert].
  apply StronglySorted_cons in Hs as [Hf Hs]. destruct (Z.ltb_spec e.1 e'.1).
  - constructor; [by constructor|]. constructor; [lia|]. eapply Forall_impl; [exact Hf|]. cbn. lia.
  - constructor; [by apply IH|]. rewrite multimap_insert_perm. constructor; [lia | done].
Qed.

Lemma ordered_removelast m l : ordered (m ++ [l]) → ordered m ∧ ∀ e, e ∈ m → e.1 ≤ l.1.
Proof.
  induction m as [|e m IH]; intros Hs; [split; [constructor|]; intros e He; by apply elem_of_nil in He|].
  cbn in Hs. apply StronglySorted_cons in Hs as [Hf Hs]. destruct (IH Hs) as [H1 H2]. rewrite Forall_app in Hf. destruct Hf as [Hf1 Hf2].
  split; [by constructor|]. intros e' [->|?]%elem_of_cons; [by inversion Hf2 | auto].
Qed.

(** [m] holds the oldest of the entries in [seen]. *)
Definition oldest (seen m : list candidate) : Prop :=
  ordered m ∧ Z.of_nat (length m) ≤ Z.max 0 N ∧
  ∃ rest, seen ≡ₚ m ++ rest ∧ (∀ e r, e ∈ m → r ∈ rest → e.1 ≤ r.1) ∧ (rest ≠ [] → Z.of_nat (length m) = Z.max 0 N).

Lemma consider_oldest seen m e : 0 ≤ N → oldest seen m → oldest (e :: seen) (consider_idle N e m).
Proof.
  intros HN (Hs & Hl & rest & Hp & Ho & Hr). unfold consider_idle. destruct (Z.ltb_spec (Z.of_nat (length m)) N) as [Hlt|Hge].
  { assert (rest = []) as -> by (destruct rest; [done|]; exfalso; specialize (Hr ltac:(done)); lia).
    split; [by apply multimap_insert_sorted|]. split; [rewrite multimap_insert_perm; cbn [length]; lia|].
    exists []. rewrite multimap_insert_perm, Hp. split; [done|]. split; [|done]. intros a b _ Hb. by apply elem_of_nil in Hb. }
  assert (Hkeep : (∀ a, a ∈ m → a.1 ≤ e.1) → oldest (e :: seen) m).
  { intros He. split; [done|]. split; [done|]. exists (e :: rest). split; [rewrite Hp; apply Permutation_middle|]. split; [|intros _; lia].
    intros a b Ha [->|Hb]%elem_of_cons; auto. }
  destruct (Z.eqb_spec N 0) as [->|Hn0].
  { apply Hkeep. intros a Ha. destruct m; [by apply elem_of_nil in Ha | cbn in Hl; lia]. }
  destruct (last m) as [l|] eqn:El; [|apply last_None in El as ->; cbn in Hge; lia]. apply last_Some in El as [m' ->].
  destruct (ordered_removelast m' l Hs) as [Hs' Hle]. rewrite length_app in *. cbn [length] in *.
  destruct (Z.ltb_spec e.1 l.1) as [Hlt|Hge'].
  - rewrite removelast_last. split; [by apply multimap_insert_sorted|]. split; [rewrite multimap_insert_perm; cbn [length]; lia|].
    exists (l :: rest). split; [rewrite multimap_insert_perm, Hp; cbn; by rewrite <- app_assoc|]. split; [|intros _; rewrite multimap_insert_perm; cbn [length]; lia].
    assert (Hlr : ∀ r, r ∈ rest → l.1 ≤ r.1) by (intros r Hr'; apply Ho; [apply elem_of_app; right; left | done]).
    intros a b. rewrite multimap_insert_perm. intros [->|Ha]%elem_of_cons [->|Hb]%elem_of_cons.
    + lia.
    + specialize (Hlr b Hb). lia.
    + by apply Hle.
    + apply Ho; [apply elem_of_app; by left | done].
  - apply Hkeep. intros a [Ha| ->%list_elem_of_singleton]%elem_of_app; [specialize (Hle a Ha); lia | lia].
Qed.

Lemma oldest_perm seen seen' m : seen ≡ₚ seen' → oldest seen m → oldest seen' m.
Proof. intros E (? & ? & rest & Hp & ?). split; [done|]. split; [done|]. exists rest. by rewrite <- E. Qed.
End Oldest.

(** *** The entries that are considered *)
Definition idle_since (mx : Z) (x : pooled) : bool := negb (last_time_used x =? 0) && (last_time_used x <? mx).

Fixpoint entries_of (mx p : Z) (h : HGM) (cs : list Z) (k : nat) : list candidate :=
  match cs with
  | [] => []
  | c :: cs' =>
      match conns h !! c with
      | Some x => if idle_since mx x then [(last_time_used x, (p, k))] else []
      | None => []
      end ++ entries_of mx p h cs' (S k)
  end.
Definition free_of (h : HGM) (p : Z) : list Z := match servers h !! p with Some s => ConnectionsFree s | None => [] end.
Definition entries (mx : Z) (h : HGM) (ps : list Z) : list candidate := concat ((λ p, entries_of mx p h (free_of h p) 0) <$> ps).

Lemma entries_of_spec mx p h cs k e : e ∈ entries_of mx p h cs k ↔
  ∃ i c x, cs !! i = Some c ∧ conns h !! c = Some x ∧ idle_since mx x = true ∧ e = (last_time_used x, (p, (k + i)%nat)).
Proof.
  revert k. induction cs as [|c cs IH]; intros k; cbn [entries_of].
  - rewrite elem_of_nil. split; [done|]. intros (i & c & x & H & _). by rewrite lookup_nil in H.
  - rewrite elem_of_app, IH. split.
    + intros [He|(i & d & x & Hi & H)].
      * destruct (conns h !! c) as [x|] eqn:Hx; [|by apply elem_of_nil in He]. destruct (idle_since mx x) eqn:Ei; [|by apply elem_of_nil in He].
        apply list_elem_of_singleton in He as ->. exists 0%nat, c, x. by rewrite Nat.add_0_r.
      * exists (S i), d, x. by rewrite <- Nat.add_succ_comm.
    + intros ([|i] & d & x & Hi & Hx & Hid & ->).
      * left. injection Hi as ->. rewrite Hx, Hid, Nat.add_0_r. left.
      * right. exists i, d, x. by rewrite <- Nat.add_succ_comm.
Qed.

Lemma entries_of_NoDup mx p h cs k : NoDup (snd <$> entries_of mx p h cs k).
Proof.
  revert k. induction cs as [|c cs IH]; intros k; [apply NoDup_nil_2|]. cbn [entries_of]. rewrite fmap_app. apply NoDup_app. split.
  - repeat case_match; apply NoDup_singleton || apply NoDup_nil_2.
  - split; [|apply IH]. intros a Ha (e & -> & (i & d & x & _ & _ & _ & ->)%entries_of_spec)%list_elem_of_fmap.
    repeat case_match; cbn in Ha; [apply list_elem_of_singleton in Ha; injection Ha; lia|by apply elem_of_nil in Ha..].
Qed.

Lemma entries_spec mx h ps e : e ∈ entries mx h ps ↔ ∃ p, p ∈ ps ∧ e ∈ entries_of mx p h (free_of h p) 0.
Proof.
  unfold entries. rewrite list_elem_of_In, in_concat. split.
  - intros (l & Hl & He). apply list_elem_of_In, list_elem_of_fmap in Hl as (p & -> & Hp). exists p. split; [done|]. by apply list_elem_of_In.
  - intros (p & Hp & He). eexists. split; [|apply list_elem_of_In; exact He]. apply list_elem_of_In, list_elem_of_fmap. by exists p.
Qed.

Lemma entries_NoDup mx h ps : NoDup ps → NoDup (snd <$> entries mx h ps).
Proof.
  induction ps as [|p ps IH]; intros Hn; [apply NoDup_nil_2|]. apply NoDup_cons in Hn as [Hp Hn].
  unfold entries. cbn [fmap list_fmap concat]. rewrite fmap_app. apply NoDup_app. split; [apply entries_of_NoDup|]. split; [|by apply IH].
  intros a (e & -> & He)%list_elem_of_fmap (e' & E & He')%list_elem_of_fmap. apply entries_of_spec in He as (i & c & x & _ & _ & _ & ->).
  apply entries_spec in He' as (q & Hq & He'). apply entries_of_spec in He' as (j & d & y & _ & _ & _ & ->). injection E as -> _. done.
Qed.

Lemma idle_of_array_ok N mx p h cs k seen m : 0 ≤ N → (∀ c, c ∈ cs → is_Some (conns h !! c)) → oldest N seen m →
  ∃ m', idle_of_array mx N p h cs k m = Ok m' ∧ oldest N (entries_of mx p h cs k ++ seen) m'.
Proof.
  intros HN. revert k seen m. induction cs as [|c cs IH]; intros k seen m Hc Ho; [by exists m|]. cbn [idle_of_array entries_of].
  destruct (Hc c) as [x Hx]; [left|]. unfold get_conn. rewrite Hx. cbn [mbind outcome_bind]. fold (idle_since mx x).
  destruct (IH (S k) ((if idle_since mx x then [(last_time_used x, (p, k))] else []) ++ seen)
    (if idle_since mx x then consider_idle N (last_time_used x, (p, k)) m else m)) as (m' & E & H).
  - intros d Hd. apply Hc. by right.
  - destruct (idle_since mx x); [by apply consider_oldest | done].
  - exists m'. split; [done|]. eapply oldest_perm; [|exact H]. rewrite !app_assoc. apply Permutation_app_tail, Permutation_app_comm.
Qed.

Lemma idle_of_servers_ok N mx h ps seen m : wf h → 0 ≤ N → (∀ p, p ∈ ps → allocated h p) → oldest N seen m →
  ∃ m', idle_of_servers mx N h ps m = Ok m' ∧ oldest N (entries mx h ps ++ seen) m'.
Proof.
  intros W HN. revert seen m. induction ps as [|p ps IH]; intros seen m Ha Ho; [by exists m|]. cbn [idle_of_servers].
  destruct (Ha p) as [s Hs]; [left|]. rewrite (get_srv_ok _ _ _ Hs). cbn [mbind outcome_bind].
  destruct (idle_of_array_ok N mx p h (ConnectionsFree s) 0 seen m HN) as (m1 & -> & H1); [|done|].
  { intros c Hc. destruct (proj1 (proj2 (wf_conns h W p s Hs) c)) as (x & Hx & _); [apply elem_of_app; by right | by exists x]. }
  cbn [mbind outcome_bind]. destruct (IH _ m1 (λ q Hq, Ha q ltac:(by right)) H1) as (m2 & E & H2). exists m2. split; [done|].
  eapply oldest_perm; [|exact H2]. assert (free_of h p = ConnectionsFree s) as <- by (unfold free_of; by rewrite Hs).
  unfold entries. cbn [fmap list_fmap concat].
  rewrite !app_assoc. apply Permutation_app_tail, Permutation_app_comm.
Qed.

Lemma idle_of_hostgroups_ok N mx h gs seen m : wf h → 0 ≤ N → (∀ g, g ∈ gs → g ∈ MyHostGroups h) → oldest N seen m →
  ∃ m', idle_of_hostgroups mx N h gs m = Ok m' ∧ oldest N (entries mx h (concat (mysrvs <$> gs)) ++ seen) m'.
Proof.
  intros W HN. revert seen m. induction gs as [|g gs IH]; intros seen m Hg Ho; [by exists m|]. cbn [idle_of_hostgroups].
  destruct (idle_of_servers_ok N mx h (mysrvs g) seen m W HN) as (m1 & -> & H1); [|done|].
  { intros p Hp. assert (g ∈ MyHostGroups h) as [i Hi]%list_elem_of_lookup_1 by (apply Hg; left).
    destruct (mysrvs_allocated h i g p W Hi Hp) as (s & Hs & _). by exists s. }
  cbn [mbind outcome_bind]. destruct (IH _ m1 (λ q Hq, Hg q ltac:(by right)) H1) as (m2 & E & H2). exists m2. split; [done|].
  eapply oldest_perm; [|exact H2]. cbn [fmap list_fmap concat]. unfold entries. rewrite fmap_app, concat_app.
  rewrite !app_assoc. apply Permutation_app_tail, Permutation_app_comm.
Qed.

(** *** Moving them *)

(** The connections [L] went from free to used; nothing else changed. *)
Record moved (L : list Z) (h h' : HGM) : Prop := {
  mv_wf : wf h';
  mv_conns : conns h' = conns h;
  mv_queue : queue h' = queue h;
  mv_nodup : NoDup L;
  mv_none p : servers h !! p = None → servers h' !! p = None;
  mv_servers p s : servers h !! p = Some s → ∃ s' l, servers h' !! p = Some s' ∧ ConnectionsUsed s' = ConnectionsUsed s ++ l ∧
    ConnectionsFree s ≡ₚ l ++ ConnectionsFree s' ∧ l ⊆ L;
  mv_each c : c ∈ L → ∃ p s s', servers h !! p = Some s ∧ c ∈ ConnectionsFree s ∧ servers h' !! p = Some s' ∧ c ∈ ConnectionsUsed s'
}.

Lemma moved_nil h : wf h → moved [] h h.
Proof.
  intros W. split; try done; [apply NoDup_nil_2| |].
  - intros p s Hs. exists s, []. by rewrite app_nil_r.
  - intros c Hc. by apply elem_of_nil in Hc.
Qed.

(** A connection is in one array only. *)
Lemma used_not_free h p q s t c : wf h → servers h !! p = Some s → servers h !! q = Some t →
  c ∈ ConnectionsUsed s → c ∈ ConnectionsFree t → False.
Proof.
  intros W Hs Ht Hu Hf. destruct (wf_conns h W p s Hs) as [Hn Hc]. destruct (wf_conns h W q t Ht) as [_ Hc'].
  destruct (proj1 (Hc c)) as (x & Hx & <-); [apply elem_of_app; by left|].
  destruct (proj1 (Hc' c)) as (y & Hy & <-); [apply elem_of_app; by right|].
  assert (x = y) as <- by congruence. assert (s = t) as <- by congruence. apply NoDup_app in Hn as (_ & Hd & _). by apply (Hd c).
Qed.

Lemma moved_trans L1 L2 h1 h2 h3 : moved L1 h1 h2 → moved L2 h2 h3 → moved (L1 ++ L2) h1 h3.
Proof.
  intros [A1 A2 A3 A4 A0 A5 A6] [B1 B2 B3 B4 B0 B5 B6]. split; [done|congruence|congruence| |auto| |].
  - apply NoDup_app. split; [done|]. split; [|done]. intros c (p & s & s' & _ & _ & Hs' & Hu)%A6 (q & t & _ & Ht & Hf & _)%B6.
    exact (used_not_free h2 p q s' t c A1 Hs' Ht Hu Hf).
  - intros p s (s2 & l & H2 & E2 & P2 & S2)%A5. destruct (B5 p s2 H2) as (s3 & l' & H3 & E3 & P3 & S3).
    exists s3, (l ++ l'). split; [done|]. split; [by rewrite E3, E2, app_assoc|]. split; [rewrite P2, P3; by rewrite app_assoc|].
    intros c [Hc|Hc]%elem_of_app; apply elem_of_app; auto.
  - intros c [Hc|Hc]%elem_of_app.
    + destruct (A6 c Hc) as (p & s & s2 & Hs & Hf & H2 & Hu). destruct (B5 p s2 H2) as (s3 & l & H3 & E3 & _).
      exists p, s, s3. split; [done|]. split; [done|]. split; [done|]. rewrite E3. apply elem_of_app. by left.
    + destruct (B6 c Hc) as (p & s2 & s3 & H2 & Hf & H3 & Hu). destruct (servers h1 !! p) as [s|] eqn:Hs; [|specialize (A0 p Hs); congruence].
      destruct (A5 p s Hs) as (s2' & l & H2' & _ & P2 & _). assert (s2' = s2) as -> by congruence.
      exists p, s, s3. split; [done|]. split; [rewrite P2; apply elem_of_app; by right | done].
Qed.

Lemma move_one h p s k c :
  wf h → servers h !! p = Some s → ConnectionsFree s !! k = Some c →
  ∃ h1 h2 s', remove_free p k h = Ok (c, h1) ∧ add_used p c h1 = Ok h2 ∧ moved [c] h h2 ∧ servers h2 !! p = Some s' ∧
    take k (ConnectionsFree s') = take k (ConnectionsFree s) ∧ ∀ q, q ≠ p → servers h2 !! q = servers h !! q.
Proof.
  intros W Hs Hk. destruct (remove_free_ok h p k c s W Hs Hk) as (l & -> & Hl & Ha & D). set (s1 := s <| ConnectionsFree := l |>) in *.
  set (h1 := set_srv p s1 h) in *. set (s2 := s1 <| ConnectionsUsed := ConnectionsUsed s1 ++ [c] |>).
  assert (Hs1 : servers h1 !! p = Some s1) by (cbn; by rewrite lookup_insert_eq).
  assert (Hs2 : servers (set_srv p s2 h1) !! p = Some s2) by (cbn; by rewrite lookup_insert_eq).
  assert (Ho : ∀ q, q ≠ p → servers (set_srv p s2 h1) !! q = servers h !! q) by (intros q Hq; cbn; by rewrite !lookup_insert_ne).
  exists h1, (set_srv p s2 h1), s2. split; [done|]. split; [unfold add_used; by rewrite (get_srv_ok _ _ _ Hs1)|]. split.
  2: { split; [done|]. split; [|done]. unfold array_remove in Ha. destruct (swap_remove k (ConnectionsFree s)) as [r|] eqn:E; [|done].
    injection Ha as ->. by eapply swap_remove_take. }
  split; [|done|done|apply NoDup_singleton| | |].
  - apply (attach h1 c p s1); try done.
    + unfold all_conns. cbn. rewrite <- app_assoc. symmetry. apply Permutation_middle.
    + intros d Hd. apply elem_of_app. by left.
  - intros q Hq. rewrite Ho; [done|]. intros ->. congruence.
  - intros q t Ht. destruct (decide (q = p)) as [->|Hq].
    + assert (t = s) as -> by congruence. exists s2, [c]. by rewrite Hl.
    + exists t, []. rewrite app_nil_r, Ho by done. split; [done|]. split; [done|]. split; [done|]. apply list_subseteq_nil.
  - intros d ->%list_elem_of_singleton. exists p, s, s2. split; [done|]. split; [rewrite Hl; left|]. split; [done|]. apply elem_of_app. right. left.
Qed.

Abbreviation descending := (StronglySorted (λ a b : nat, (b < a)%nat)).

Lemma move_idle_ok N p idxs h0 h acc s0 s :
  moved acc h0 h → servers h0 !! p = Some s0 → servers h !! p = Some s → descending idxs →
  (∀ k, k ∈ idxs → take (S k) (ConnectionsFree s) = take (S k) (ConnectionsFree s0) ∧ (k < length (ConnectionsFree s0))%nat) →
  Z.of_nat (length acc + length idxs) ≤ N →
  ∃ h' l, move_idle N p idxs (h, acc) = Ok (h', acc ++ l) ∧ moved (acc ++ l) h0 h' ∧
    Forall2 (λ k c, ConnectionsFree s0 !! k = Some c) idxs l ∧ ∀ q, q ≠ p → servers h' !! q = servers h !! q.
Proof.
  revert h acc s. induction idxs as [|k idxs IH]; intros h acc s M Hs0 Hs Hd Hk HN.
  { exists h, []. rewrite app_nil_r. by split_and!. }
  apply StronglySorted_cons in Hd as [Hlt Hd]. rewrite Forall_forall in Hlt. cbn [length] in HN. cbn [move_idle].
  rewrite (proj2 (Z.leb_gt _ _)) by (cbn [snd]; lia). cbn [fst snd].
  destruct (Hk k) as [Ht Hlen]; [left|]. destruct (lookup_lt_is_Some_2 _ _ Hlen) as [c Hc].
  assert (Hc' : ConnectionsFree s !! k = Some c).
  { rewrite <- (lookup_take_lt _ (S k)) by lia. rewrite Ht. by rewrite lookup_take_lt by lia. }
  destruct (move_one h p s k c (mv_wf _ _ _ M) Hs Hc') as (h1 & h2 & s2 & -> & E2 & M2 & Hs2 & Ht2 & Ho). cbn [mbind outcome_bind]. rewrite E2. cbn [mbind outcome_bind].
  destruct (IH h2 (acc ++ [c]) s2) as (h' & l & E & M' & F & Ho'); [by eapply moved_trans|done|done|done| |rewrite length_app; cbn [length]; lia|].
  - intros j Hj. destruct (Hk j) as [Htj ?]; [by right|]. split; [|done]. specialize (Hlt j Hj).
    rewrite <- Htj. replace (S j) with (S j `min` k)%nat by lia. by rewrite <- !take_take, Ht2.
  - exists h', (c :: l). rewrite E. rewrite <- app_assoc in *. split; [done|]. split; [done|]. split; [by constructor|]. intros q Hq. by rewrite Ho', Ho.
Qed.

(** Candidates of different servers are different candidates. *)
Lemma length_by_server (ps : list Z) (m : list candidate) : NoDup ps →
  (length (concat ((λ p, indexes_of p m) <$> ps)) ≤ length m)%nat.
Proof.
  intros Hn. assert (Hl : ∀ p, length (indexes_of p m) = length (filter (λ e : candidate, e.2.1 = p) m)).
  { intros p. unfold indexes_of. by rewrite merge_sort_Permutation, length_fmap. }
  rewrite length_concat. transitivity (sum_list ((λ p, length (filter (λ e : candidate, e.2.1 = p) m)) <$> ps)).
  { apply Nat.eq_le_incl. f_equal. rewrite <- list_fmap_compose. apply list_fmap_ext. intros i p _. apply Hl. }
  clear Hl. induction m as [|e m IH]; [by induction ps; [|apply NoDup_cons in Hn as [_ Hn]; auto]|].
  transitivity (S (sum_list ((λ p, length (filter (λ e : candidate, e.2.1 = p) m)) <$> ps))); [|cbn [length]; lia].
  clear IH. induction ps as [|p ps IH]; [cbn; lia|]. apply NoDup_cons in Hn as [Hp Hn]. cbn [fmap list_fmap sum_list].
  destruct (decide (e.2.1 = p)) as [E|E].
  - rewrite filter_cons_True by done. cbn [length]. apply le_n_S, Nat.add_le_mono_l. apply Nat.eq_le_incl. f_equal.
    apply list_fmap_ext. intros i q Hq. rewrite filter_cons_False; [done|]. rewrite E. intros ->. apply Hp. by apply list_elem_of_lookup_2 with i.
  - rewrite filter_cons_False by done. specialize (IH Hn). lia.
Qed.

Lemma indexes_of_spec p m k : k ∈ indexes_of p m ↔ (p, k) ∈ snd <$> m.
Proof.
  unfold indexes_of. rewrite merge_sort_Permutation, list_elem_of_fmap, list_elem_of_fmap. split.
  - intros (e & -> & [<- He]%list_elem_of_filter). exists e. by destruct e as [? []].
  - intros ([t [q j]] & [= <- <-] & He). exists (t, (p, k)). split; [done|]. by apply list_elem_of_filter.
Qed.

Lemma indexes_of_descending p m : NoDup (snd <$> m) → descending (indexes_of p m).
Proof.
  intros Hn. assert (Hnd : NoDup (indexes_of p m)).
  { unfold indexes_of. rewrite merge_sort_Permutation. induction m as [|e m IH]; [apply NoDup_nil_2|]. apply NoDup_cons in Hn as [He Hn].
    destruct (decide (e.2.1 = p)) as [<-|E]; [|rewrite filter_cons_False by done; auto]. rewrite filter_cons_True by done. cbn [fmap list_fmap].
    apply NoDup_cons. split; [|auto]. intros (e' & E & [E' Hin]%list_elem_of_filter)%list_elem_of_fmap. apply He, list_elem_of_fmap.
    exists e'. split; [|done]. destruct e as [? []], e' as [? []]. cbn in *. congruence. }
  assert (Hs : StronglySorted ge (indexes_of p m)).
  { apply StronglySorted_merge_sort; [intros a b c; lia | intros a b; lia]. }
  induction Hs as [|k l Hs IH Hf]; [constructor|]. apply NoDup_cons in Hnd as [Hk Hnd]. constructor; [auto|].
  rewrite Forall_forall in *. intros j Hj. specialize (Hf j Hj). assert (j ≠ k) by (by intros ->). lia.
Qed.

Lemma move_all_idle_ok N m ps h0 h acc :
  moved acc h0 h → NoDup ps → NoDup (snd <$> m) → Z.of_nat (length acc + length (concat ((λ p, indexes_of p m) <$> ps))) ≤ N →
  (∀ p, p ∈ ps → servers h !! p = servers h0 !! p ∧ allocated h0 p) →
  (∀ p k, (p, k) ∈ snd <$> m → (k < length (free_of h0 p))%nat) →
  ∃ h' L, move_all_idle N m ps (h, acc) = Ok (h', acc ++ L) ∧ moved (acc ++ L) h0 h' ∧
    length L = length (concat ((λ p, indexes_of p m) <$> ps)) ∧
    ∀ c, c ∈ L ↔ ∃ p k, p ∈ ps ∧ (p, k) ∈ snd <$> m ∧ free_of h0 p !! k = Some c.
Proof.
  intros M Hn Hm. revert h acc M Hn. induction ps as [|p ps IH]; intros h acc M Hn HN Hs Hlen.
  { exists h, []. rewrite app_nil_r. split; [done|]. split; [done|]. split; [done|]. intros c. split; [by intros ?%elem_of_nil|].
    intros (p & k & Hp & _). by apply elem_of_nil in Hp. }
  apply NoDup_cons in Hn as [Hp Hn]. cbn [fmap list_fmap concat] in *. rewrite length_app in *. cbn [move_all_idle].
  destruct (Hs p) as [Esp [s Hsp]]; [left|]. assert (Hf : free_of h0 p = ConnectionsFree s) by (unfold free_of; by rewrite Hsp).
  destruct (move_idle_ok N p (indexes_of p m) h0 h acc s s) as (h1 & l & -> & M1 & F & Ho); [done|done|congruence|by apply indexes_of_descending| |lia|].
  { intros k Hk%indexes_of_spec. split; [done|]. rewrite <- Hf. by apply Hlen. }
  cbn [mbind outcome_bind]. pose proof (Forall2_length _ _ _ F) as El.
  destruct (IH h1 (acc ++ l) M1 Hn) as (h' & L & E & M2 & EL & HL); [rewrite length_app; lia| |done|].
  { intros q Hq. rewrite Ho by (by intros ->). apply Hs. by right. }
  exists h', (l ++ L). rewrite E, app_assoc. split; [done|]. split; [done|]. rewrite length_app, EL, El. split; [done|].
  intros c. rewrite elem_of_app, HL. split.
  - intros [[j Hj]%list_elem_of_lookup_1|(q & k & Hq & H)]; [|exists q, k; split; [by right | done]].
    destruct (Forall2_lookup_r _ _ _ _ _ F Hj) as (k & Hk & Hc). exists p, k. split; [left|]. rewrite Hf. split; [|done].
    apply indexes_of_spec. by apply list_elem_of_lookup_2 with j.
  - intros (q & k & [->|Hq]%elem_of_cons & Hk & Hc); [left|right; by exists q, k].
    apply indexes_of_spec in Hk as [j Hj]%list_elem_of_lookup_1. destruct (Forall2_lookup_l _ _ _ _ _ F Hj) as (c' & Hc' & E').
    rewrite Hf in Hc. assert (c' = c) as -> by congruence. by apply list_elem_of_lookup_2 with j.
Qed.

Lemma length_covers (ps : list Z) (m : list candidate) : NoDup (snd <$> m) → (∀ e, e ∈ m → e.2.1 ∈ ps) →
  (length m ≤ length (concat ((λ p, indexes_of p m) <$> ps)))%nat.
Proof.
  intros Hn Hc. rewrite <- (length_fmap snd m).
  assert (length (concat ((λ p, indexes_of p m) <$> ps)) = length (concat ((λ p, pair p <$> indexes_of p m) <$> ps))) as ->.
  { clear. induction ps as [|p ps IH]; [done|]. cbn [fmap list_fmap concat]. rewrite !length_app, IH. f_equal. symmetry. apply length_fmap. }
  apply submseteq_length, NoDup_submseteq; [done|]. intros [p k] Hpk. apply list_elem_of_In, in_concat.
  exists (pair p <$> indexes_of p m). split; apply list_elem_of_In.
  - apply list_elem_of_fmap. exists p. split; [done|]. apply list_elem_of_fmap in Hpk as (e & E & He).
    specialize (Hc e He). rewrite <- E in Hc. exact Hc.
  - apply list_elem_of_fmap. exists k. split; [done|]. by apply indexes_of_spec.
Qed.

Lemma NoDup_concat {A} (ls : list (list A)) :
  (∀ i l, ls !! i = Some l → NoDup l) →
  (∀ i j l l' x, ls !! i = Some l → ls !! j = Some l' → x ∈ l → x ∈ l' → i = j) → NoDup (concat ls).
Proof.
  induction ls as [|l ls IH]; intros H1 H2; [apply NoDup_nil_2|]. cbn [concat]. apply NoDup_app. split; [by apply (H1 0%nat)|]. split.
  - intros x Hx (l' & Hl' & Hx')%list_elem_of_In%in_concat. apply list_elem_of_In, list_elem_of_lookup_1 in Hl' as [j Hj].
    apply list_elem_of_In in Hx'. by specialize (H2 0%nat (S j) l l' x eq_refl Hj Hx Hx').
  - apply IH; [intros i; apply (H1 (S i))|]. intros i j a b x Ha Hb Hxa Hxb.
    specialize (H2 (S i) (S j) a b x Ha Hb Hxa Hxb). lia.
Qed.

Lemma all_servers_NoDup h : wf h → NoDup (all_servers h).
Proof.
  intros W. apply NoDup_concat.
  - intros i l (g & -> & Hg)%list_lookup_fmap_Some. by eapply wf_arrays.
  - intros i j l l' p (g & -> & Hg)%list_lookup_fmap_Some (g' & -> & Hg')%list_lookup_fmap_Some Hp Hp'.
    destruct (mysrvs_allocated h i g p W Hg Hp) as (s & Hs & E1). destruct (mysrvs_allocated h j g' p W Hg' Hp') as (s' & Hs' & E2).
    congruence.
Qed.

(** Connection [c] is free and was last used before [mx]. *)
Definition idle_free (mx : Z) (h : HGM) (c t : Z) : Prop :=
  ∃ p s x, servers h !! p = Some s ∧ c ∈ ConnectionsFree s ∧ conns h !! c = Some x ∧ idle_since mx x = true ∧ last_time_used x = t.

Lemma idle_free_entry mx h c t : wf h → idle_free mx h c t ↔
  ∃ p k, (t, (p, k)) ∈ entries mx h (all_servers h) ∧ free_of h p !! k = Some c.
Proof.
  intros W. split.
  - intros (p & s & x & Hs & [k Hk]%list_elem_of_lookup_1 & Hx & Hi & <-). exists p, k.
    assert (Hf : free_of h p = ConnectionsFree s) by (unfold free_of; by rewrite Hs). split; [|by rewrite Hf].
    apply entries_spec. exists p. split; [by eapply all_servers_spec|]. apply entries_of_spec. exists k, c, x. by rewrite Hf.
  - intros (p & k & (q & _ & (i & d & x & Hi & Hx & Hid & [= -> -> ->])%entries_of_spec)%entries_spec & Hc).
    cbn in Hc. assert (d = c) as -> by congruence. unfold free_of in Hc. destruct (servers h !! q) as [s|] eqn:Hs; [|done].
    exists q, s, x. split; [done|]. split; [by apply list_elem_of_lookup_2 with i | done].
Qed.

(** The oldest idle connections are the ones to ping.  After dropping what the
    limits drop, [get_multiple_idle_connections] takes at most [num_conn] connections, each
    once, and moves them from free to used; each of them was idle, none of those left was idle
    for longer, and idle ones are left only when [num_conn] were taken. *)
Theorem oldest_idle_taken v order curtime mx N h :
  wf h → positive_limits v h → 0 ≤ N → (∀ l, order l ≡ₚ l) →
  ∃ h1 h' L, drop_all_idle_connections v curtime h = Ok h1 ∧
    get_multiple_idle_connections v order None curtime mx N h = Ok (h', L) ∧ moved L h1 h' ∧ Z.of_nat (length L) ≤ N ∧
    (∀ c, c ∈ L → ∃ t, idle_free mx h1 c t) ∧
    ∀ d t, idle_free mx h1 d t → d ∉ L → Z.of_nat (length L) = N ∧ ∀ c t', c ∈ L → idle_free mx h1 c t' → t' ≤ t.
Proof.
  intros W Lim HN Hord. destruct (drop_all_trimmed v curtime h W Lim) as (h1 & E1 & T). pose proof (tr_wf _ _ _ _ T) as W1.
  unfold get_multiple_idle_connections. rewrite E1. cbn [mbind outcome_bind].
  destruct (idle_of_hostgroups_ok N mx h1 (MyHostGroups h1) [] [] W1 HN) as (m & -> & Hs & Hl & rest & Hp & Ho & Hr); [done| |].
  { split; [constructor|]. split; [cbn; lia|]. exists []. split; [done|]. split; [|done]. intros e r He. by apply elem_of_nil in He. }
  cbn [mbind outcome_bind]. rewrite app_nil_r in Hp. fold (all_servers h1) in Hp.
  assert (Hnd : NoDup (snd <$> (m ++ rest))). { rewrite <- Hp. by apply entries_NoDup, all_servers_NoDup. }
  assert (Hm : NoDup (snd <$> m)) by (rewrite fmap_app in Hnd; by apply NoDup_app in Hnd as [? _]).
  set (ps := order (remove_dups ((λ e : candidate, e.2.1) <$> m))).
  assert (Hps : ∀ p, p ∈ ps ↔ ∃ e, e ∈ m ∧ e.2.1 = p).
  { intros p. unfold ps. rewrite Hord, elem_of_remove_dups, list_elem_of_fmap. split; intros (e & A & B); by exists e. }
  assert (Hpick : ∀ p k, (p, k) ∈ snd <$> m → ∃ t c, (t, (p, k)) ∈ m ∧ free_of h1 p !! k = Some c ∧ idle_free mx h1 c t).
  { intros p k ([t [q j]] & [= <- <-] & He)%list_elem_of_fmap. assert (Hin : (t, (p, k)) ∈ entries mx h1 (all_servers h1)).
    { rewrite Hp. apply elem_of_app. by left. }
    pose proof Hin as (q & _ & (i & c & x & Hc & _ & _ & [= -> -> ->])%entries_of_spec)%entries_spec. exists (last_time_used x), c.
    split; [done|]. split; [done|]. apply idle_free_entry; [done|]. by exists q, i. }
  assert (Hlp : NoDup ps) by (unfold ps; rewrite Hord; apply NoDup_remove_dups).
  pose proof (length_by_server ps m Hlp). pose proof (length_covers ps m Hm (λ e He, proj2 (Hps e.2.1) (ex_intro _ e (conj He eq_refl)))).
  destruct (move_all_idle_ok N m ps h1 h1 []) as (h' & L & E & M & EL & HL); [by apply moved_nil|done|done|cbn [length]; lia| | |].
  { intros p (e & He & <-)%Hps. split; [done|]. destruct (Hpick e.2.1 e.2.2) as (t & c & _ & Hc & _).
    { apply list_elem_of_fmap. exists e. by destruct e as [? []]. }
    unfold free_of in Hc. destruct (servers h1 !! e.2.1) as [s|] eqn:Hse; [by exists s | done]. }
  { intros p k Hpk. destruct (Hpick p k Hpk) as (t & c & _ & Hc & _). by eapply lookup_lt_Some. }
  fold ps. rewrite E. cbn [app] in *. cbn [mbind outcome_bind]. eexists h1, _, L. split; [done|]. split; [done|].
  assert (Hidle : ∀ c t, c ∈ L → idle_free mx h1 c t → ∃ e, e ∈ m ∧ e.1 = t).
  { intros c t (p & k & _ & Hpk & Hc)%HL Hid. destruct (Hpick p k Hpk) as (t1 & c' & He & Hc' & Hid'). assert (c' = c) as -> by congruence.
    exists (t1, (p, k)). split; [done|]. destruct Hid as (_ & _ & x & _ & _ & Hx & _ & <-), Hid' as (_ & _ & x' & _ & _ & Hx' & _ & <-).
    cbn. congruence. }
  split; [by destruct M as [A1 A2 A3 A4 A0 A5 A6]; split; [by eapply wf_same; [..|exact A1]|..]|]. split; [lia|]. split.
  - intros c (p & k & _ & Hpk & Hc)%HL. destruct (Hpick p k Hpk) as (t & c' & _ & Hc' & Hid). exists t. by assert (c' = c) as <- by congruence.
  - intros d t Hd HdL. pose proof Hd as (p & k & He & Hc)%idle_free_entry; [|done]. rewrite Hp in He. apply elem_of_app in He as [He|He].
    + exfalso. apply HdL, HL. exists p, k. split; [apply Hps; by exists (t, (p, k))|]. split; [|done]. apply list_elem_of_fmap. by exists (t, (p, k)).
    + split; [rewrite EL; assert (rest ≠ []) as Hne by (intros ->; by apply elem_of_nil in He); specialize (Hr Hne); lia|].
      intros c t' HcL (e & Hem & <-)%(Hidle c t' HcL). by apply (Ho e (t, (p, k))).
Qed.

(** ** Every queued connection is settled *)

(** A connection that was reset, and is used but not queued. *)
Definition clean_use (h : HGM) (c : Z) : Prop := ∃ x s, in_use h c x s ∧ num_backend_stmts x = 0.

(** What a step of the thread keeps: [ca] are the connections still waiting. *)
Record waiting (ca : list Z) (h : HGM) : Prop := {
  wt_wf : wf h;
  wt_queue : queue h = [];
  wt_nodup : NoDup ca;
  wt_clean c : c ∈ ca → clean_use h c
}.

(** Where the connection is once the thread is done with it. *)
Definition done_with (c : Z) (h : HGM) : Prop :=
  conns h !! c = None ∨ ∃ p s, servers h !! p = Some s ∧ c ∈ ConnectionsFree s.

(** Only the connections [l] were touched: the others are where they were. *)
Definition step_of (l : list Z) (h h' : HGM) : Prop :=
  (∀ d, d ∉ l → conns h' !! d = conns h !! d) ∧
  ∀ p s, servers h !! p = Some s → ∃ s', servers h' !! p = Some s' ∧
    (∀ d, d ∉ l → (d ∈ ConnectionsUsed s' ↔ d ∈ ConnectionsUsed s) ∧ (d ∈ ConnectionsFree s' ↔ d ∈ ConnectionsFree s)).

Lemma step_of_refl l h : step_of l h h.
Proof. split; [done|]. intros p s Hs. by exists s. Qed.
Lemma step_of_trans l1 l2 l h1 h2 h3 : step_of l1 h1 h2 → step_of l2 h2 h3 → l1 ⊆ l → l2 ⊆ l → step_of l h1 h3.
Proof.
  intros [A1 A2] [B1 B2] S1 S2. split; [intros d Hd; rewrite B1, A1; auto|]. intros p s (s2 & H2 & F2)%A2.
  destruct (B2 p s2 H2) as (s3 & H3 & F3). exists s3. split; [done|]. intros d Hd. destruct (F2 d), (F3 d); [auto..|]. split; by etrans.
Qed.
Lemma step_of_set c y h : step_of [c] h (set_conn c y h).
Proof.
  split; [|intros p s Hs; by exists s]. intros d Hd. cbn. rewrite lookup_insert_ne; [done|]. intros <-. apply Hd. left.
Qed.
Lemma settled_step c p vd h h' : settled_as c p vd h h' → step_of [c] h h'.
Proof.
  intros [(_ & _ & _ & _ & Ho & _) (s & s' & Hs & Hs' & _ & _ & Hc & Hvd)].
  split; [intros d [Hd _]%not_elem_of_cons; by apply Hc|]. intros q t Ht.
  destruct (decide (q = p)) as [->|Hq]; [|exists t; split; [by rewrite Ho | done]].
  assert (t = s) as -> by congruence. exists s'. split; [done|]. intros d Hd%not_elem_of_cons.
  destruct vd.
  - destruct Hvd as (_ & -> & Hu & _). rewrite Hu, elem_of_app, elem_of_cons, list_elem_of_singleton. tauto.
  - destruct Hvd as (_ & -> & Hu & _). by rewrite Hu.
  - destruct Hvd as (_ & -> & Hu & _). rewrite Hu, elem_of_cons. tauto.
Qed.

Lemma waiting_step c ca h h' : wf h' → queue h' = [] → step_of [c] h h' → waiting (c :: ca) h → waiting ca h'.
Proof.
  intros W' Hq [Hc Hs] [W Q N C]. apply NoDup_cons in N as [Hni N]. split; [done|done|done|]. intros d Hd.
  assert (d ∉ [c]) as Hne by (intros ->%list_elem_of_singleton; done). destruct (C d) as (x & s & (Hx & Hsx & Hu & _) & Hn); [by right|].
  destruct (Hs _ _ Hsx) as (s' & Hs' & H). exists x, s'. split; [|done]. split; [by rewrite Hc|]. split; [done|]. split; [by apply H|].
  rewrite Hq. apply not_elem_of_nil.
Qed.
Lemma done_step l d h h' : step_of l h h' → d ∉ l → done_with d h → done_with d h'.
Proof.
  intros [Hc Hs] Hne [E|(p & s & Hp & Hf)]; [left; by rewrite Hc|right]. destruct (Hs p s Hp) as (s' & Hs' & H). exists p, s'.
  split; [done|]. by apply H.
Qed.

(** The three things the thread does to a connection. *)
Lemma reset_conn_ok now c h x s : wf h → in_use h c x s →
  ∃ h' x', reset_conn now c h = Ok h' ∧ wf h' ∧ queue h' = queue h ∧ step_of [c] h h' ∧ in_use h' c x' s ∧ num_backend_stmts x' = 0.
Proof.
  intros W U. pose proof U as (Hx & _). unfold reset_conn, get_conn. rewrite Hx. cbn [mbind outcome_bind].
  eexists _, _. split; [done|]. split; [by eapply wf_set_conn|]. split; [done|]. split; [apply step_of_set|].
  split; [by eapply in_use_set | done].
Qed.

Lemma abandon_any v c h x s : wf h → in_use h c x s →
  ∃ h', abandon v c h = Ok h' ∧ wf h' ∧ queue h' = queue h ∧ step_of [c] h h' ∧ conns h' !! c = None.
Proof.
  intros W U. pose proof U as (Hx & _). unfold abandon, get_conn. rewrite Hx. cbn [mbind outcome_bind]. set (y := x <| send_quit := false |>).
  destruct (destroy_ok v (set_conn c y h) c y s) as (h' & E & W' & S); [by eapply wf_set_conn|by eapply in_use_set|].
  assert (destroy_verdict v (set_conn c y h) y s = Deleted) as Ev.
  { unfold destroy_verdict, worth_reset. cbn. by rewrite andb_false_r. }
  rewrite Ev in S. exists h'. split; [done|].
  assert (step_of [c] h h') as Hst by (eapply step_of_trans; [apply step_of_set|by eapply settled_step|reflexivity..]).
  by destruct S as [_ (s1 & s2 & _ & _ & _ & _ & _ & Hq & _ & _ & Hn)].
Qed.
Lemma abandon_ok v c ca h : waiting (c :: ca) h →
  ∃ h', abandon v c h = Ok h' ∧ waiting ca h' ∧ step_of [c] h h' ∧ conns h' !! c = None.
Proof.
  intros T. pose proof T as [W Q _ C]. destruct (C c) as (x & s & U & _); [left|]. destruct (abandon_any v c h x s W U) as (h' & E & W' & Q' & S & N).
  exists h'. split; [done|]. split; [|done]. eapply waiting_step; [done| |done|done]. by rewrite Q'.
Qed.

Lemma push_any v c h : wf h → clean_use h c →
  ∃ h', push_MyConn_to_pool v c h = Ok h' ∧ wf h' ∧ queue h' = queue h ∧ step_of [c] h h' ∧ done_with c h'.
Proof.
  intros W (x & s & U & Hn). destruct (push_ok v h c x s W U) as (h' & E & W' & S). exists h'. split; [done|]. split; [done|]. pose proof (settled_step _ _ _ _ _ S) as Hst.
  destruct S as [_ (s1 & s2 & _ & Hs2 & _ & _ & _ & Hvd)]. revert Hvd. unfold push_verdict.
  assert ((u32 (max_stmts_per_connection v) <? num_backend_stmts x) = false) as ->.
  { apply Z.ltb_ge. rewrite Hn. unfold u32. apply Z.mod_pos_bound. lia. }
  destruct (_ || _).
  - intros (Hq & _ & _ & Hc). split; [done|]. split; [done | by left].
  - intros (Hq & Hf & _). split; [done|]. split; [done|]. right. exists (parent x), s2. split; [done|]. rewrite Hf. apply elem_of_app. right. left.
Qed.
Lemma push_clean_ok v c ca h : waiting (c :: ca) h →
  ∃ h', push_MyConn_to_pool v c h = Ok h' ∧ waiting ca h' ∧ step_of [c] h h' ∧ done_with c h'.
Proof.
  intros T. destruct (push_any v c h (wt_wf _ _ T)) as (h' & E & W' & Q' & S & D); [apply (wt_clean _ _ T); left|].
  exists h'. split; [done|]. split; [|done]. eapply waiting_step; [done| |done|done]. rewrite Q'. apply (wt_queue _ _ T).
Qed.

(** The statuses and flags belong to the connections at the same positions. *)
Definition aligned (fs fr : Z → Z) (ca st rt : list Z) : Prop :=
  (length ca ≤ length st)%nat ∧ (length ca ≤ length rt)%nat ∧
  ∀ j c, ca !! j = Some c → st !! j = Some (fs c) ∧ rt !! j = Some (fr c).

Lemma array_get_ok (l : list Z) i x : l !! i = Some x → array_get l i = Ok x.
Proof. unfold array_get. by intros ->. Qed.

Lemma aligned_remove fs fr i ca st rt c ca' x y :
  aligned fs fr ca st rt → array_remove i ca = Ok (c, ca') → st !! length ca' = Some x → rt !! length ca' = Some y →
  aligned fs fr ca' (<[i := x]> st) (<[i := y]> rt).
Proof.
  unfold array_remove. destruct (swap_remove i ca) as [r|] eqn:E; [|done]. intros (Hl1 & Hl2 & Ha) [= ->] Hx Hy.
  pose proof (swap_remove_length _ _ _ _ E). unfold aligned. rewrite !length_insert. split; [lia|]. split; [lia|]. intros j d Hj.
  pose proof (swap_remove_positions _ _ _ _ _ _ E Hj) as Hd. apply Ha in Hd as [H1 H2]. apply lookup_lt_Some in Hj.
  destruct (decide (j = i)) as [->|Hne].
  - rewrite !list_lookup_insert_eq by lia. split; congruence.
  - by rewrite !list_lookup_insert_ne.
Qed.

Lemma waiting_perm ca ca' h : ca ≡ₚ ca' → waiting ca h → waiting ca' h.
Proof. intros E [W Q N C]. split; [done|done|by rewrite <- E|]. intros c Hc. apply C. by rewrite E. Qed.

(** One pass over the array: the connections that are finished are settled. *)
Lemma settle_ok v again now fs fr fuel i ca st rt h :
  waiting ca h → aligned fs fr ca st rt → (length ca - i < fuel)%nat → (∀ j c, (j < i)%nat → ca !! j = Some c → fs c ≠ 0) →
  ∃ h' ca' st' rt', settle v again now fuel i ca st rt h = Ok (h', ca', st', rt') ∧ waiting ca' h' ∧ aligned fs fr ca' st' rt' ∧
    ca' ⊆ ca ∧ step_of ca h h' ∧ (length ca' ≤ length ca)%nat ∧
    ∀ c, c ∈ ca → if decide (fs c = 0) then ((c ∉ ca') ∧ done_with c h' ∧ (fr c ≠ 0 → conns h' !! c = None)) else (c ∈ ca').
Proof.
  revert i ca st rt h. induction fuel as [|fuel IH]; intros i ca st rt h T A Hf Hi; [lia|]. cbn [settle].
  destruct (Nat.ltb_spec i (length ca)) as [Hlt|Hge].
  2: { exists h, ca, st, rt. split; [done|]. split; [done|]. split; [done|]. split; [done|]. split; [apply step_of_refl|]. split; [done|].
    intros c Hc. pose proof Hc as [j Hj]%list_elem_of_lookup_1. pose proof (lookup_lt_Some _ _ _ Hj). rewrite decide_False; [done|]. apply (Hi j); [lia | done]. }
  destruct (lookup_lt_is_Some_2 ca i Hlt) as [c Hc]. pose proof A as (Hl1 & Hl2 & Ha). destruct (Ha i c Hc) as [Hs Hr].
  rewrite (array_get_ok _ _ _ Hs). cbn [mbind outcome_bind]. destruct (Z.eqb_spec (fs c) 0) as [H0|H0].
  - destruct (array_remove_ok ca i c Hc) as (ca1 & E1 & P1). rewrite E1. cbn [mbind outcome_bind]. rewrite (array_get_ok _ _ _ Hr). cbn [mbind outcome_bind].
    assert (T1 : waiting (c :: ca1) h) by (by eapply waiting_perm).
    assert (∃ h1, (if fr c =? 0 then h ← (if again then reset_conn now c h else Ok h); push_MyConn_to_pool v c h else abandon v c h) = Ok h1 ∧
      waiting ca1 h1 ∧ step_of [c] h h1 ∧ done_with c h1 ∧ (fr c ≠ 0 → conns h1 !! c = None)) as (h1 & -> & T2 & S1 & D1 & N1).
    { destruct (Z.eqb_spec (fr c) 0) as [Hr0|Hr0].
      - assert (∃ h1, (if again then reset_conn now c h else Ok h) = Ok h1 ∧ waiting (c :: ca1) h1 ∧ step_of [c] h h1) as (h1 & -> & T2 & S1).
        { destruct again; [|exists h; split; [done|]; split; [done | apply step_of_refl]]. destruct (wt_clean _ _ T1 c) as (x & s & U & _); [left|].
          destruct (reset_conn_ok now c h x s (wt_wf _ _ T1) U) as (h1 & x1 & E & W & Q & S & U1 & N1). exists h1. split; [done|]. split; [|done].
          rewrite (wt_queue _ _ T1) in Q. destruct (waiting_step c ca1 h h1 W Q S T1) as [_ _ _ C]. split; [done|done|apply (wt_nodup _ _ T1)|].
          intros d [->|Hd]%elem_of_cons; [by exists x1, s | auto]. }
        cbn [mbind outcome_bind]. destruct (push_clean_ok v c ca1 h1 T2) as (h2 & E2 & T3 & S2 & D). exists h2. split; [done|]. split; [done|].
        split; [eapply step_of_trans; [done|done|reflexivity..]|]. split; [done|]. by intros ?.
      - destruct (abandon_ok v c ca1 h T1) as (h1 & E & T2 & S & N). exists h1. split; [done|]. split; [done|]. split; [done|]. split; [by left | done]. }
    cbn [mbind outcome_bind]. pose proof (Permutation_length P1) as HL. cbn [length] in HL.
    destruct (lookup_lt_is_Some_2 st (length ca1)) as [x Hx]; [lia|]. destruct (lookup_lt_is_Some_2 rt (length ca1)) as [y Hy]; [lia|].
    rewrite (array_get_ok _ _ _ Hx), (array_get_ok _ _ _ Hy). cbn [mbind outcome_bind].
    destruct (IH i ca1 (<[i := x]> st) (<[i := y]> rt) h1) as (h' & ca' & st' & rt' & E & T3 & A3 & Sub & S3 & L3 & D3);
      [done|by eapply aligned_remove|lia| |].
    { intros j d Hj Hd. apply (Hi j); [done|]. unfold array_remove in E1. destruct (swap_remove i ca) as [r|] eqn:Er; [|done].
      injection E1 as ->. pose proof (swap_remove_positions _ _ _ _ _ _ Er Hd) as H. by rewrite decide_False in H by lia. }
    exists h', ca', st', rt'. split; [done|]. split; [done|]. split; [done|]. assert (Hsub1 : ca1 ⊆ ca) by (intros d Hd; rewrite P1; by right).
    split; [by etrans|]. split; [eapply step_of_trans; [done|done| |done]; intros d ->%list_elem_of_singleton; rewrite P1; left|]. split; [lia|].
    pose proof (wt_nodup _ _ T1) as [Hni _]%NoDup_cons. intros d. rewrite P1. intros [->|Hd]%elem_of_cons; [|by apply D3].
    rewrite decide_True by done. split; [by intros ?%Sub|]. split; [by eapply done_step|]. intros Hr0. rewrite (proj1 S3) by done. auto.
  - apply IH; [done|done|lia|]. intros j d Hj Hd. destruct (decide (j = i)) as [->|]; [congruence|]. apply (Hi j); [lia | done].
Qed.

Lemma poll_aligned answer fs fr ca st rt st' rt' : aligned fs fr ca st rt → poll answer ca st rt = (st', rt') →
  aligned (λ c, (answer c (fs c, fr c)).1) (λ c, (answer c (fs c, fr c)).2) ca st' rt'.
Proof.
  revert st rt st' rt'. induction ca as [|c ca IH]; intros st rt st' rt' (Hl1 & Hl2 & Ha) E.
  { split; [cbn; lia|]. split; [cbn; lia|]. intros j c Hj. by rewrite lookup_nil in Hj. }
  destruct (Ha 0%nat c) as [Hs Hr]; [done|]. destruct st as [|s0 st]; [done|]. destruct rt as [|r0 rt]; [done|].
  injection Hs as ->. injection Hr as ->. cbn [poll] in E. destruct (poll answer ca st rt) as [st1 rt1] eqn:E1. injection E as <- <-.
  destruct (IH st rt st1 rt1) as (L1 & L2 & A); [|done|].
  - split; [cbn in Hl1; lia|]. split; [cbn in Hl2; lia|]. intros j d. apply (Ha (S j)).
  - split; [cbn; lia|]. split; [cbn; lia|]. intros [|j] d Hj; [by injection Hj as ->|]. by apply A.
Qed.

Lemma poll_rounds_ok v now rounds fs fr ca st rt h : waiting ca h → aligned fs fr ca st rt →
  ∃ h' ca', poll_rounds v now rounds ca st rt h = Ok (h', ca') ∧ waiting ca' h' ∧ ca' ⊆ ca ∧ step_of ca h h' ∧
    ∀ c, c ∈ ca → c ∉ ca' → done_with c h'.
Proof.
  revert fs fr ca st rt h. induction rounds as [|answer rounds IH]; intros fs fr ca st rt h T A; cbn [poll_rounds].
  { exists h, ca. split; [done|]. split; [done|]. split; [done|]. split; [apply step_of_refl|]. by intros c ? []. }
  destruct (_ =? 0)%nat. { exists h, ca. split; [done|]. split; [done|]. split; [done|]. split; [apply step_of_refl|]. by intros c ? []. }
  destruct (poll answer ca st rt) as [st1 rt1] eqn:E1. pose proof (poll_aligned _ _ _ _ _ _ _ _ A E1) as A1.
  destruct (settle_ok v true now _ _ (S (length ca)) 0 ca st1 rt1 h T A1) as (h2 & ca2 & st2 & rt2 & -> & T2 & A2 & Sub2 & S2 & _ & D2); [lia|lia|].
  cbn [mbind outcome_bind]. destruct (IH _ _ _ _ _ _ T2 A2) as (h3 & ca3 & E3 & T3 & Sub3 & S3 & D3). exists h3, ca3. split; [done|].
  split; [done|]. split; [by etrans|]. split; [eapply step_of_trans; [done|done|reflexivity|done]|]. intros c Hc Hn.
  destruct (decide (c ∈ ca2)) as [H2|H2]; [by apply D3|]. specialize (D2 c Hc). destruct (decide _); [|done].
  eapply done_step; [done|done|apply D2].
Qed.

Lemma abandon_all_ok v fuel ca h : waiting ca h → (length ca ≤ fuel)%nat →
  ∃ h', abandon_all v fuel ca h = Ok h' ∧ waiting [] h' ∧ step_of ca h h' ∧ ∀ c, c ∈ ca → conns h' !! c = None.
Proof.
  revert ca h. induction fuel as [|fuel IH]; intros [|c ca] h T Hf; try (cbn in Hf; lia);
    try (exists h; split; [done|]; split; [done|]; split; [apply step_of_refl|]; by intros c ?%elem_of_nil).
  destruct (array_remove_ok (c :: ca) 0 c eq_refl) as (ca1 & E1 & P1). cbn [abandon_all]. rewrite E1. cbn [mbind outcome_bind].
  destruct (abandon_ok v c ca1 h) as (h1 & -> & T1 & S1 & N1); [by eapply waiting_perm|]. cbn [mbind outcome_bind].
  pose proof (Permutation_length P1) as HL. cbn [length] in HL, Hf. destruct (IH ca1 h1 T1) as (h2 & -> & T2 & S2 & N2); [lia|].
  exists h2. split; [done|]. split; [done|]. split.
  - eapply step_of_trans; [done|done| |]; intros d Hd; rewrite P1; [apply list_elem_of_singleton in Hd as ->; left | by right].
  - intros d. rewrite P1. intros [->|Hd]%elem_of_cons; [|auto]. destruct (decide (c ∈ ca1)); [auto|]. by rewrite (proj1 S2).
Qed.

(** A used connection that is not queued. *)
Definition plain_use (h : HGM) (c : Z) : Prop := ∃ x s, in_use h c x s.

Lemma in_use_step c d h h' x s : step_of [c] h h' → queue h' = [] → servers h' = servers h → d ≠ c → in_use h d x s → in_use h' d x s.
Proof.
  intros [Hc _] Hq Es Hne (Hx & Hs & Hu & _). split; [rewrite Hc; [done|]; by intros ->%list_elem_of_singleton|]. rewrite Es. split; [done|].
  split; [done|]. rewrite Hq. apply not_elem_of_nil.
Qed.

Lemma start_reset_ok start now l my cs h : wf h → queue h = [] → my ∈ l → cs ⊆ l → (∀ d, d ∈ l → plain_use h d) →
  ∃ h', start_reset start now my cs h = Ok (h', (λ c, (start c).1) <$> cs, (λ c, (start c).2) <$> cs) ∧ wf h' ∧ queue h' = [] ∧ step_of l h h' ∧
    (∀ d, d ∈ l → plain_use h' d) ∧ ∀ d, d ∈ l → clean_use h d ∨ (cs ≠ [] ∧ d ∈ my :: removelast cs) → clean_use h' d.
Proof.
  revert my h. induction cs as [|c cs IH]; intros my h W Q Hmy Hcs Hu.
  { exists h. split; [done|]. split; [done|]. split; [done|]. split; [apply step_of_refl|]. split; [done|]. by intros d _ [?|[]]. }
  cbn [start_reset]. destruct (Hu my Hmy) as (x & s & U). destruct (reset_conn_ok now my h x s W U) as (h1 & x1 & E1 & W1 & Q1 & S1 & U1 & N1).
  rewrite E1. cbn [mbind outcome_bind]. set (h2 := increase_reset_counter h1).
  assert (Es1 : servers h1 = servers h).
  { unfold reset_conn, get_conn in E1. rewrite (proj1 U) in E1. cbn [mbind outcome_bind] in E1. by injection E1 as <-. }
  assert (K : ∀ d, d ∈ l → (d = my ∧ in_use h2 d x1 s) ∨ (d ≠ my ∧ ∀ y t, in_use h d y t → in_use h2 d y t)).
  { intros d Hd. destruct (decide (d = my)) as [->|Hne]; [by left|right]. split; [done|]. intros y t Ut.
    apply (in_use_step my d h h1 y t S1); [by rewrite Q1|done..]. }
  destruct (IH c h2) as (h3 & -> & W3 & Q3 & S3 & P3 & C3); [by apply (wf_same h1)|cbn; by rewrite Q1|apply Hcs; left|intros d Hd; apply Hcs; by right| |].
  { intros d Hd. destruct (K d Hd) as [[-> ?]|[_ H]]; [by exists x1, s|]. destruct (Hu d Hd) as (y & t & Ut). exists y, t. by apply H. }
  cbn [mbind outcome_bind]. exists h3. split; [done|]. split; [done|]. split; [done|]. split.
  { eapply step_of_trans; [exact S1|exact S3| |done]. by intros d ->%list_elem_of_singleton. }
  split; [done|]. intros d Hd Hcase. apply C3; [done|]. destruct (K d Hd) as [[-> ?]|[Hne H]]; [left; by exists x1, s|].
  destruct Hcase as [(y & t & Ut & Hn)|[_ Hin]]; [left; exists y, t; split; [by apply H | done]|].
  apply elem_of_cons in Hin as [?|Hin]; [done|]. right. destruct cs as [|c' cs]; [by apply elem_of_nil in Hin|]. split; [done|]. exact Hin.
Qed.

(** C32: The thread that resets connections leaves none behind, when no other thread
    uses the pool meanwhile (for the steps between those of other threads see
    [ResetSteps]).  Whatever the
    backends answer and however often it polls, it empties the queue, and every
    connection that was queued is afterwards free in its server's pool or
    deleted - deleted when the reset could not even be started - while no other
    connection is touched and the pool stays in order. *)
Theorem queued_connections_settled v start rounds now h :
  wf h → ∃ h', HGCU_batch v start rounds now h = Ok h' ∧ wf h' ∧ queue h' = [] ∧ step_of (queue h) h h' ∧
    ∀ c, c ∈ queue h → done_with c h' ∧ ((start c).1 = 0 → (start c).2 ≠ 0 → conns h' !! c = None).
Proof.
  intros W. unfold HGCU_batch. destruct (last (queue h)) as [my|] eqn:El.
  2: { apply last_None in El. rewrite El. exists h. split; [done|]. split; [done|]. split; [done|]. split; [apply step_of_refl|]. by intros c ?%elem_of_nil. }
  assert (Hmy : my ∈ queue h) by (apply last_Some in El as [k ->]; apply elem_of_app; right; left).
  set (h0 := h <| queue := [] |>). assert (W0 : wf h0).
  { destruct W as [? ? ? ? ? ? ? ?]. split; try done; [by intros c ?%elem_of_nil | apply NoDup_nil_2]. }
  assert (U0 : ∀ d, d ∈ queue h → plain_use h0 d).
  { intros d Hd. destruct (wf_queue h W d Hd) as (x & s & Hx & Hs & Hu). exists x, s. split; [done|]. split; [done|]. split; [done|]. apply not_elem_of_nil. }
  destruct (start_reset_ok start now (queue h) my (queue h) h0 W0 eq_refl Hmy ltac:(reflexivity) U0) as (h1 & -> & W1 & Q1 & S1 & _ & C1). cbn [mbind outcome_bind].
  assert (T1 : waiting (queue h) h1).
  { split; [done|done|apply (wf_queue_nodup h W)|]. intros d Hd. apply C1; [done|]. right. split; [by intros E; rewrite E in Hd; apply elem_of_nil in Hd|].
    apply last_Some in El as [k Ek]. rewrite Ek in *. rewrite removelast_last. apply elem_of_cons. apply elem_of_app in Hd as [?|Hd]; [by right|].
    left. by apply list_elem_of_singleton in Hd. }
  assert (A1 : aligned (λ c, (start c).1) (λ c, (start c).2) (queue h) ((λ c, (start c).1) <$> queue h) ((λ c, (start c).2) <$> queue h)).
  { split; [by rewrite length_fmap|]. split; [by rewrite length_fmap|]. intros j c Hj. by rewrite !list_lookup_fmap, Hj. }
  destruct (settle_ok v false now _ _ (S (length (queue h))) 0 _ _ _ h1 T1 A1) as (h2 & ca2 & st2 & rt2 & -> & T2 & A2 & Sub2 & S2 & _ & D2); [lia|lia|].
  cbn [mbind outcome_bind]. destruct (poll_rounds_ok v now rounds _ _ ca2 st2 rt2 h2 T2 A2) as (h3 & ca3 & -> & T3 & Sub3 & S3 & D3). cbn [mbind outcome_bind].
  destruct (abandon_all_ok v (length ca3) ca3 h3 T3) as (h4 & -> & T4 & S4 & N4); [done|].
  exists h4. split; [done|]. split; [apply (wt_wf _ _ T4)|]. split; [apply (wt_queue _ _ T4)|].
  assert (S03 : step_of ca2 h2 h4) by (eapply step_of_trans; [done|done|reflexivity|done]). split.
  { assert (S02 : step_of (queue h) h0 h2) by (eapply step_of_trans; [done|done|reflexivity..]).
    eapply (step_of_trans _ _ _ h0); [exact S02|exact S03|reflexivity|done]. }
  intros c Hc. specialize (D2 c Hc). cbn beta in D2. destruct (decide ((start c).1 = 0)) as [H0|H0].
  - destruct D2 as (Hn & D & N). split; [by eapply done_step|]. intros _ Hr. rewrite (proj1 S03) by done. auto.
  - split; [|done]. destruct (decide (c ∈ ca3)) as [H3|H3]; [left; auto|]. apply (done_step ca3 c h3 h4 S4 H3). by apply D3.
Qed.

(** ** Witnesses *)

(** Puts connection [c] into an array of its server. *)
Definition place (used : bool) (c : Z) (x : pooled) (h : HGM) : HGM :=
  match servers h !! parent x with
  | None => h
  | Some s =>
      set_srv (parent x) (if used then s <| ConnectionsUsed := ConnectionsUsed s ++ [c] |>
                          else s <| ConnectionsFree := ConnectionsFree s ++ [c] |>) (set_conn c x h)
  end.
Lemma wf_place used c x h : wf h → conns h !! c = None → wf (place used c x h).
Proof.
  intros W Hc. unfold place. destruct (servers h !! parent x) as [s|] eqn:Hs; [|done].
  apply (attach (set_conn c x h) c (parent x) s); [apply detach_new; [done|done|by exists s|done]|done|by destruct used| |].
  - unfold all_conns. destruct used; cbn.
    + rewrite <- app_assoc. symmetry. apply Permutation_middle.
    + by rewrite app_assoc, Permutation_app_comm.
  - intros d Hd. destruct used; [apply elem_of_app; by left | done].
Qed.

Definition demo_named (schema : string) (created : Z) : MySQL_Connection :=
  new_connection <| userinfo := mk_userinfo 0 (Some (str "app")) None (Some (str schema)) None |> <| creation_time := created |>.
Definition demo_pooled (schema : string) (created used : Z) : pooled := mk_pooled (demo_named schema created) 2 true true 0 0 0 used.

(** Server db2 has three free connections, two in use, one of these queued. *)
Definition demo_young : HGM :=
  place false 102 (demo_pooled "crm" 0 100) (place false 101 (demo_pooled "crm" 1000 300) demo_state).
Definition demo_busy : HGM :=
  place true 105 (demo_pooled "shop" 0 0) (place true 104 (demo_pooled "shop" 0 0) (place false 103 (demo_pooled "shop" 0 200) demo_young)).
Definition demo_pool : HGM := demo_busy <| queue := queue demo_busy ++ [105] |>.

Lemma demo_young_wf : wf demo_young.
Proof. apply wf_place; [apply wf_place; [exact (proj1 demo_wf)|]|]; vm_compute; reflexivity. Qed.
Lemma demo_busy_wf : wf demo_busy.
Proof. apply wf_place; [apply wf_place; [apply wf_place; [exact demo_young_wf|]|]|]; vm_compute; reflexivity. Qed.

Lemma demo_pool_wf : wf demo_pool.
Proof.
  apply (wf_enqueue demo_busy 105 (demo_pooled "shop" 0 0) ((demo_srv 2) <| ConnectionsUsed := [104; 105] |> <| ConnectionsFree := [101; 102; 103] |>) demo_busy_wf).
  split; [vm_compute; reflexivity|]. split; [vm_compute; reflexivity|].
  split; apply (bool_decide_unpack _); vm_compute; exact I.
Qed.

Definition all_positive (v : variables) (h : HGM) : bool :=
  forallb (λ e : Z * MySrvC, 0 <=? max_connections e.2) (map_to_list (servers h)) && forallb (λ g, 0 <=? (warming v g).2) (MyHostGroups h).
Lemma all_positive_spec v h : all_positive v h = true → positive_limits v h.
Proof.
  intros [H1 H2]%andb_prop. rewrite forallb_forall in H1, H2. split.
  - intros p s Hs. apply Z.leb_le, (H1 (p, s)), list_elem_of_In, elem_of_map_to_list. done.
  - intros i g Hg. apply Z.leb_le, H2, list_elem_of_In. by apply list_elem_of_lookup_2 with i.
Qed.

Lemma idle_connections_trimmed_witness :
  ∃ h', drop_all_idle_connections demo_variables 0 demo_pool = Ok h' ∧ wf h' ∧ queue h' = [105].
Proof.
  destruct (idle_connections_trimmed demo_variables 0 demo_pool demo_pool_wf) as (h' & E & W & Q & _).
  - apply all_positive_spec. vm_compute. reflexivity.
  - exists h'. split; [exact E|]. split; [exact W|]. exact Q.
Defined.

Lemma oldest_idle_taken_witness :
  ∃ h1 h' L, drop_all_idle_connections demo_variables 0 demo_pool = Ok h1 ∧
    get_multiple_idle_connections demo_variables (λ l, l) None 0 1000 2 demo_pool = Ok (h', L) ∧ moved L h1 h' ∧ Z.of_nat (length L) ≤ 2.
Proof.
  destruct (oldest_idle_taken demo_variables (λ l, l) 0 1000 2 demo_pool demo_pool_wf) as (h1 & h' & L & E1 & E & M & Hl & _).
  - apply all_positive_spec. vm_compute. reflexivity.
  - lia.
  - intros l. reflexivity.
  - exists h1, h', L. split; [exact E1|]. split; [exact E|]. split; [exact M | exact Hl].
Defined.

Lemma max_age_drops_wrong_connection_witness :
  ∃ h' s', drop_old 3 1500 1000 0 2 demo_young = Ok h' ∧ servers h' !! 2 = Some s' ∧ ConnectionsFree s' = [102] ∧ conns h' !! 101 = None.
Proof.
  destruct (max_age_drops_wrong_connection 1500 1000 2 demo_young ((demo_srv 2) <| ConnectionsFree := [101; 102] |>) 101 102
    (demo_pooled "crm" 1000 300) (demo_pooled "crm" 0 100) demo_young_wf) as (h' & s' & E & Hs & Hf & Hn & _);
    [vm_compute; reflexivity..|vm_compute; discriminate|vm_compute; reflexivity|].
  exists h', s'. split; [exact E|]. split; [exact Hs|]. split; [exact Hf | exact Hn].
Defined.

Lemma search_finds_best_witness :
  ∃ r, search_from demo_variables (demo_named "shop" 0) demo_pool [101; 102; 103] 1 = Ok r ∧
    best_found demo_variables (demo_named "shop" 0) demo_pool [101; 102; 103] r.
Proof.
  apply (search_finds_best demo_variables (demo_named "shop" 0) demo_pool [101; 102; 103] 1).
  - split; eexists; reflexivity.
  - intros c Hc. repeat (apply elem_of_cons in Hc as [->|Hc]; [eexists; split; [vm_compute; reflexivity | split; eexists; reflexivity]|]).
    exact (False_ind _ (not_elem_of_nil _ Hc)).
  - cbn [length]. lia.
Defined.

Lemma connection_given_back_witness :
  ∃ h1 h2, push_MyConn_to_pool demo_variables 104 demo_pool = Ok h1 ∧ destroy_MyConn_from_pool demo_variables 104 demo_pool = Ok h2 ∧
    settled_as 104 2 ToFree demo_pool h1 ∧ settled_as 104 2 ToQueue demo_pool h2.
Proof.
  destruct (connection_given_back demo_variables demo_pool 104 (demo_pooled "shop" 0 0)
    ((demo_srv 2) <| ConnectionsUsed := [104; 105] |> <| ConnectionsFree := [101; 102; 103] |>) demo_pool_wf)
    as [(h1 & E1 & _ & S1) (h2 & E2 & _ & S2)].
  - split; [vm_compute; reflexivity|]. split; [vm_compute; reflexivity|].
    split; apply (bool_decide_unpack _); vm_compute; exact I.
  - exists h1, h2. split; [exact E1|]. split; [exact E2|]. split; [exact S1 | exact S2].
Defined.

Definition demo_call : call := mk_call 10 (Some (demo_named "shop" 0)) false demo_request 106 0 (λ _, 0) 0 (7, 7) (0, 0).
Lemma connection_handed_out_once_witness :
  (get_MyConn_from_pool demo_variables demo_call demo_pool = Fault DivByZero ∧ latency_aware demo_request) ∨
  ∃ o h', get_MyConn_from_pool demo_variables demo_call demo_pool = Ok (o, h') ∧ wf h'.
Proof.
  destruct (connection_handed_out_once demo_variables demo_call demo_pool demo_pool_wf) as [H|(o & h' & E & W & _)].
  - split; [vm_compute; reflexivity|]. split; [exact demo_session|]. split; [done|]. split; [done|]. split.
    + intros g Hg Hid. cbn in Hid. apply list_elem_of_lookup_1 in Hg as [i Hi].
      assert (g = demo_hg 0) as ->.
      { destruct i as [|[|[|i]]]; vm_compute in Hi; [injection Hi as <-; vm_compute; reflexivity|injection Hi as <-; discriminate Hid|discriminate Hi|discriminate Hi]. }
      destruct demo_weights as [A B]. split; [|vm_compute; reflexivity].
      intros p Hp. change (mysrvs (demo_hg 0)) with [1; 2] in Hp.
      repeat (apply elem_of_cons in Hp as [->|Hp]; [vm_compute; discriminate|]). exact (False_ind _ (not_elem_of_nil _ Hp)).
    + split; [intros cl [= <-]; split; eexists; reflexivity|]. intros p s Hs.
      assert (all_named demo_pool [101; 102; 103]) as N.
      { intros c Hc. repeat (apply elem_of_cons in Hc as [->|Hc]; [eexists; split; [vm_compute; reflexivity | split; eexists; reflexivity]|]).
        exact (False_ind _ (not_elem_of_nil _ Hc)). }
      assert (forallb (λ e : Z * MySrvC, bool_decide (ConnectionsFree e.2 = [] ∨ ConnectionsFree e.2 = [101; 102; 103])) (map_to_list (servers demo_pool)) = true) as F
        by (vm_compute; reflexivity).
      rewrite forallb_forall in F. specialize (F (p, s) (proj1 (list_elem_of_In _ _) (proj2 (elem_of_map_to_list _ _ _) Hs))).
      apply (proj1 (bool_decide_eq_true _)) in F. cbn [snd] in F. destruct F as [F|F]; rewrite F; [|exact N].
      intros c Hc. exact (False_ind _ (not_elem_of_nil _ Hc)).
  - left. exact H.
  - right. exists o, h'. split; [exact E | exact W].
Defined.

Lemma queued_connections_settled_witness :
  ∃ h', HGCU_batch demo_variables (λ _, (0, 0)) [] 0 demo_pool = Ok h' ∧ wf h' ∧ queue h' = [] ∧ done_with 105 h'.
Proof.
  destruct (queued_connections_settled demo_variables (λ _, (0, 0)) [] 0 demo_pool demo_pool_wf) as (h' & E & W & Q & _ & D).
  exists h'. split; [exact E|]. split; [exact W|]. split; [exact Q|]. apply D. apply (bool_decide_unpack _). vm_compute. exact I.
Defined.
