(* ===== verification/ResetSteps.v ===== *)
(** * The thread that resets connections, between the other threads

    HGCU_thread_run of lib/MySQL_HostGroups_Manager.cpp takes connections out of
    the queue one by one and gives each back with a call that locks the hostgroups
    for itself.  [ConnPool.HGCU_batch] is what it does when nothing else happens
    meanwhile.  Here every access to the queue or the pool is a step, and the other
    threads may do anything in between that leaves the connections alone which the
    thread holds: [batch_in_steps] joins the two, [resets_interleaved] says what
    holds whatever the other threads do. *)
From stdpp Require Import relations.
From S2P Require Import Prelude Conn HostGroups SrvSelect ConnPool.

(** ** The steps *)
Section Steps.
Context (v : variables).

(** Where the thread is: waiting for the queue, taking more out of it, starting
    the resets of [todo], settling the connections that are finished, between two
    rounds of polling, and deleting those that are left.  [myconn], the arrays and
    the index are its variables. *)
Inductive stage :=
  | Waiting
  | Taking (myconn : Z) (ca : list Z)
  | Starting (myconn : Z) (todo ca st rt : list Z)
  | Settling (again : bool) (i : nat) (ca st rt : list Z)
  | Between (ca st rt : list Z)
  | Leaving (ca : list Z).
(** What the client library answers for a connection, and whether a second has passed. *)
Record answers := mk_answers { answer : Z → Z * Z → Z * Z; late : bool; time : Z }.

Definition thread_step (a : answers) (th : stage) (h : HGM) : outcome (stage * HGM) :=
  match th with
  | Waiting => Ok (match queue h with [] => (Waiting, h) | c :: q => (Taking c [c], h <| queue := q |>) end)
  | Taking my ca => Ok (match queue h with [] => (Starting my ca ca [] [], h) | c :: q => (Taking c (ca ++ [c]), h <| queue := q |>) end)
  | Starting my todo ca st rt =>
      match todo with
      | [] => Ok (Settling false 0 ca st rt, h)
      | c :: todo' =>
          h ← reset_conn (time a) my h;
          Ok (Starting c todo' ca (st ++ [(answer a c (0, 0)).1]) (rt ++ [(answer a c (0, 0)).2]), increase_reset_counter h)
      end
  | Settling again i ca st rt =>
      if (i <? length ca)%nat then
        status ← array_get st i;
        if status =? 0 then
          '(c, ca) ← array_remove i ca;
          ret ← array_get rt i;
          h ← (if ret =? 0 then h ← (if again then reset_conn (time a) c h else Ok h); push_MyConn_to_pool v c h
               else abandon v c h);
          s ← array_get st (length ca);
          r ← array_get rt (length ca);
          Ok (Settling again i ca (<[i := s]> st) (<[i := r]> rt), h)
        else Ok (Settling again (S i) ca st rt, h)
      else Ok (Between ca st rt, h)
  | Between ca st rt =>
      if (length ca =? 0)%nat || late a then Ok (Leaving ca, h)
      else let '(st, rt) := poll (answer a) ca st rt in Ok (Settling true 0 ca st rt, h)
  | Leaving ca =>
      match ca with
      | [] => Ok (Waiting, h)
      | _ => '(c, ca) ← array_remove 0 ca; h ← abandon v c h; Ok (Leaving ca, h)
      end
  end.
(** The connections that the thread holds. *)
Definition mine (th : stage) : list Z :=
  match th with
  | Waiting => []
  | Taking _ ca | Starting _ _ ca _ _ | Settling _ _ ca _ _ | Between ca _ _ | Leaving ca => ca
  end.

(** What other threads do: the pool stays in order, and the connections [l] stay in
    use, out of the queue and as they are. *)
Definition others (l : list Z) (h h' : HGM) : Prop :=
  wf h' ∧ ∀ c x s, c ∈ l → in_use h c x s → ∃ s', in_use h' c x s'.
Inductive turn : stage * HGM → stage * HGM → Prop :=
  | turn_own a th h th' h' : thread_step a th h = Ok (th', h') → turn (th, h) (th', h')
  | turn_other th h h' : others (mine th) h h' → turn (th, h) (th, h').
Definition own (x y : stage * HGM) : Prop := ∃ a, thread_step a x.1 x.2 = Ok y.

(** ** Without other threads *)
Lemma own_step a th h y : thread_step a th h = Ok y → own (th, h) y.
Proof. intros E. by exists a. Qed.
Lemma own_take q : ∀ my ca h, queue h = q → rtc own (Taking my ca, h) (Starting (default my (last q)) (ca ++ q) (ca ++ q) [] [], h <| queue := [] |>).
Proof.
  induction q as [|c q IH]; intros my ca h Hq.
  - apply rtc_once, (own_step (mk_answers (λ _ x, x) false 0)). cbn. rewrite Hq, app_nil_r. do 2 f_equal. destruct h; cbn in *; by subst.
  - eapply rtc_l; [apply (own_step (mk_answers (λ _ x, x) false 0)); cbn; by rewrite Hq|]. specialize (IH c (ca ++ [c]) (h <| queue := q |>) eq_refl). rewrite <- app_assoc in IH.
    replace (default my (last (c :: q))) with (default c (last q)); [exact IH|]. rewrite last_cons. by destruct (last q).
Qed.
Lemma own_start start now todo : ∀ my ca st rt h h' st' rt', start_reset start now my todo h = Ok (h', st', rt') →
  rtc own (Starting my todo ca st rt, h) (Settling false 0 ca (st ++ st') (rt ++ rt'), h').
Proof.
  induction todo as [|c todo IH]; intros my ca st rt h h' st' rt'; cbn [start_reset].
  - intros [= <- <- <-]. rewrite !app_nil_r. apply rtc_once, (own_step (mk_answers (λ _ x, x) false 0)). done.
  - destruct (reset_conn now my h) as [h1|] eqn:E; [|done]. cbn [mbind outcome_bind]. destruct (start_reset _ _ _ _ _) as [[[h2 st2] rt2]|] eqn:E2; [|done]. cbn [mbind outcome_bind]. intros [= <- <- <-].
    eapply rtc_l; [apply (own_step (mk_answers (λ c _, start c) false now)); cbn; by rewrite E|]. specialize (IH c ca (st ++ [(start c).1]) (rt ++ [(start c).2]) _ _ _ _ E2). by rewrite <- !app_assoc in IH.
Qed.
Lemma own_settle again now fuel : ∀ i ca st rt h h' ca' st' rt', settle v again now fuel i ca st rt h = Ok (h', ca', st', rt') →
  rtc own (Settling again i ca st rt, h) (Between ca' st' rt', h').
Proof.
  induction fuel as [|fuel IH]; intros i ca st rt h h' ca' st' rt'; cbn [settle]; [done|]. set (a := mk_answers (λ _ x, x) false now).
  destruct (i <? length ca)%nat eqn:Ei; [|intros [= <- <- <- <-]; apply rtc_once, (own_step a); cbn [thread_step]; by rewrite Ei]. destruct (array_get st i) as [s0|] eqn:Es; [|done]. cbn [mbind outcome_bind].
  destruct (s0 =? 0) eqn:E0; [|intros E; eapply rtc_l; [apply (own_step a); cbn [thread_step]; rewrite Ei, Es; cbn [mbind outcome_bind]; by rewrite E0|by apply IH]].
  destruct (array_remove i ca) as [[c ca1]|] eqn:Er; [|done]. cbn [mbind outcome_bind]. destruct (array_get rt i) as [r0|] eqn:Et; [|done]. cbn [mbind outcome_bind].
  destruct (if r0 =? 0 then _ else _) as [h1|] eqn:Eh; [|done]. cbn [mbind outcome_bind]. destruct (array_get st (length ca1)) as [s1|] eqn:Es1; [|done]. cbn [mbind outcome_bind].
  destruct (array_get rt (length ca1)) as [r1|] eqn:Et1; [|done]. cbn [mbind outcome_bind]. intros E. eapply rtc_l; [|by apply IH]. apply (own_step a). cbn [thread_step]. rewrite Ei, Es. cbn [mbind outcome_bind]. rewrite E0, Er. cbn [mbind outcome_bind].
  rewrite Et. cbn [mbind outcome_bind] in Eh |- *. change (time a) with now. rewrite Eh. cbn [mbind outcome_bind]. rewrite Es1. cbn [mbind outcome_bind]. by rewrite Et1.
Qed.
Lemma own_rounds now rounds : ∀ ca st rt h h' ca', poll_rounds v now rounds ca st rt h = Ok (h', ca') → ∃ st' rt', rtc own (Between ca st rt, h) (Between ca' st' rt', h').
Proof.
  induction rounds as [|reply rounds IH]; intros ca st rt h h' ca'; cbn [poll_rounds]; [intros [= <- <-]; by exists st, rt|]. destruct (length ca =? 0)%nat eqn:El; [intros [= <- <-]; by exists st, rt|].
  destruct (poll reply ca st rt) as [st1 rt1] eqn:Ep. destruct (settle v true now _ 0 ca st1 rt1 h) as [[[[h1 ca1] st2] rt2]|] eqn:Es; [|done]. cbn [mbind outcome_bind]. intros E.
  destruct (IH _ _ _ _ _ _ E) as (st' & rt' & R). exists st', rt'. eapply rtc_l; [apply (own_step (mk_answers reply false now)); cbn [thread_step late]; rewrite El; cbn [orb answer]; by rewrite Ep|]. etrans; [by eapply own_settle|done].
Qed.
Lemma own_leave fuel : ∀ ca h h', abandon_all v fuel ca h = Ok h' → rtc own (Leaving ca, h) (Waiting, h').
Proof.
  induction fuel as [|fuel IH]; intros [|c ca] h h'; cbn [abandon_all]; try done; [intros [= <-]; apply rtc_once, (own_step (mk_answers (λ _ x, x) false 0)); done..|].
  destruct (array_remove 0 (c :: ca)) as [[d ca1]|] eqn:Er; [|done]. cbn [mbind outcome_bind]. destruct (abandon v d h) as [h1|] eqn:Ea; [|done]. cbn [mbind outcome_bind]. intros E.
  eapply rtc_l; [apply (own_step (mk_answers (λ _ x, x) false 0)); cbn [thread_step]; rewrite Er; cbn [mbind outcome_bind]; by rewrite Ea|by apply IH].
Qed.
(** The batch of [ConnPool] is what the thread does alone. *)
Lemma batch_in_steps start rounds now h h' : HGCU_batch v start rounds now h = Ok h' → rtc own (Waiting, h) (Waiting, h').
Proof.
  unfold HGCU_batch. destruct (queue h) as [|c q] eqn:Eq; [intros [= <-]; apply rtc_refl|]. destruct (last (c :: q)) as [my|] eqn:El; [|by apply last_None in El].
  destruct (start_reset _ _ _ _ _) as [[[h1 st] rt]|] eqn:E1; [|done]. cbn [mbind outcome_bind]. destruct (settle _ _ _ _ _ _ _ _ _) as [[[[h2 ca] st2] rt2]|] eqn:E2; [|done]. cbn [mbind outcome_bind].
  destruct (poll_rounds _ _ _ _ _ _ _) as [[h3 ca3]|] eqn:E3; [|done]. cbn [mbind outcome_bind]. intros E4. destruct (own_rounds _ _ _ _ _ _ _ _ E3) as (st3 & rt3 & R3).
  eapply rtc_l; [apply (own_step (mk_answers (λ _ x, x) false 0)); cbn; by rewrite Eq|]. etrans; [by apply (own_take q)|].
  assert (default c (last q) = my) as -> by (rewrite last_cons in El; by destruct (last q); injection El). etrans; [eapply (own_start _ _ (c :: q)); exact E1|].
  etrans; [eapply own_settle; exact E2|]. etrans; [exact R3|]. eapply rtc_l; [|by eapply own_leave]. apply (own_step (mk_answers (λ _ x, x) true 0)). cbn. by rewrite orb_true_r.
Qed.

(** ** With other threads *)
(** The connections that were reset, or will be before they are given back. *)
Definition ready (th : stage) (h : HGM) : Prop :=
  match th with
  | Waiting => True
  | Taking my ca => last ca = Some my
  | Starting my todo ca st rt =>
      my ∈ ca ∧ todo ⊆ ca ∧ (length st + length todo = length ca)%nat ∧ (length rt + length todo = length ca)%nat ∧
      ∀ d, d ∈ ca → clean_use h d ∨ (todo ≠ [] ∧ d ∈ my :: removelast todo)
  | Settling _ _ ca st rt | Between ca st rt => (length ca ≤ length st)%nat ∧ (length ca ≤ length rt)%nat ∧ ∀ d, d ∈ ca → clean_use h d
  | Leaving _ => True
  end.
Record held (th : stage) (h : HGM) : Prop := {
  hd_wf : wf h;
  hd_nodup : NoDup (mine th);
  hd_use c : c ∈ mine th → plain_use h c;
  hd_ready : ready th h
}.

Lemma clean_plain h c : clean_use h c → plain_use h c.
Proof. intros (x & s & U & _). by exists x, s. Qed.
(** What a step does not touch stays in use. *)
Lemma use_kept l h h' d x s : step_of l h h' → queue h' = queue h → d ∉ l → in_use h d x s → ∃ s', in_use h' d x s'.
Proof.
  intros [Hc Hs] Hq Hd (Hx & Hp & Hu & Hn). destruct (Hs _ _ Hp) as (s' & Hs' & H). exists s'. split; [by rewrite Hc|]. split; [done|]. split; [by apply H|by rewrite Hq].
Qed.
Lemma plain_kept l h h' d : step_of l h h' → queue h' = queue h → d ∉ l → plain_use h d → plain_use h' d.
Proof. intros S Q D (x & s & U). destruct (use_kept l h h' d x s S Q D U) as (s' & U'). by exists x, s'. Qed.
Lemma clean_kept l h h' d : step_of l h h' → queue h' = queue h → d ∉ l → clean_use h d → clean_use h' d.
Proof. intros S Q D (x & s & U & N). destruct (use_kept l h h' d x s S Q D U) as (s' & U'). by exists x, s'. Qed.
(** Other threads leave it in order. *)
Lemma held_others th h h' : held th h → others (mine th) h h' → held th h'.
Proof.
  intros [W N U R] [W' K]. assert (∀ d, d ∈ mine th → clean_use h d → clean_use h' d) as Hc.
  { intros d Hd (x & s & Ud & Hn). destruct (K d x s Hd Ud) as (s' & U'). by exists x, s'. }
  split; [done|done| |].
  - intros c Hc'. destruct (U c Hc') as (x & s & Ud). destruct (K c x s Hc' Ud) as (s' & U'). by exists x, s'.
  - destruct th as [|my ca|my todo ca st rt|again i ca st rt|ca st rt|ca]; try done; cbn in *.
    + destruct R as (R1 & R2 & R3 & R4 & R5). do 4 (split; [done|]). intros d Hd. destruct (R5 d Hd); [left; auto|by right].
    + destruct R as (R1 & R2 & R3). do 2 (split; [done|]). auto.
    + destruct R as (R1 & R2 & R3). do 2 (split; [done|]). auto.
Qed.
(** A step of the thread: it succeeds, touches only what it holds, takes at most the
    head of the queue, and what it does not hold any more is free or deleted. *)
Definition step_ok (a : answers) (th : stage) (h : HGM) : Prop :=
  ∃ th' h', thread_step a th h = Ok (th', h') ∧ held th' h' ∧ step_of (mine th) h h' ∧
    (queue h' = queue h ∨ ∃ c, queue h = c :: queue h' ∧ c ∈ mine th') ∧ ∀ c, c ∈ mine th → c ∈ mine th' ∨ done_with c h'.
Lemma move_ok a th h th' : thread_step a th h = Ok (th', h) → mine th' = mine th → held th h → ready th' h → step_ok a th h.
Proof.
  intros E M [W N U R] R'. exists th', h. split; [done|]. split; [split; rewrite ?M; done|]. split; [apply step_of_refl|]. split; [by left|]. intros c Hc. left. by rewrite M.
Qed.
Lemma take_ok a th h c q ca : thread_step a th h = Ok (Taking c ca, h <| queue := q |>) → ca = mine th ++ [c] → queue h = c :: q → held th h → step_ok a th h.
Proof.
  intros E -> Hq [W N U R]. exists (Taking c (mine th ++ [c])), (h <| queue := q |>). split; [done|].
  pose proof (wf_queue_nodup h W) as Nq. rewrite Hq in Nq. apply NoDup_cons in Nq as [Nc Nq].
  assert (c ∉ mine th) as Hni. { intros Hc. destruct (U c Hc) as (x & s & _ & _ & _ & H). apply H. rewrite Hq. left. }
  split; [split|].
  - destruct W as [? ? ? ? ? ? Hqq ?]. split; try done. intros d Hd. apply Hqq. rewrite Hq. by right.
  - cbn. apply NoDup_app. split; [done|]. split; [by intros d Hd ->%list_elem_of_singleton|apply NoDup_singleton].
  - intros d [Hd| ->%list_elem_of_singleton]%elem_of_app.
    + destruct (U d Hd) as (x & s & U1 & U2 & U3 & U4). exists x, s. do 3 (split; [done|]). intros H. apply U4. rewrite Hq. by right.
    + destruct (wf_queue h W c) as (x & s & H1 & H2 & H3); [rewrite Hq; left|]. by exists x, s.
  - cbn. by rewrite last_snoc.
  - split; [split; [done|]; intros p s Hp; by exists s|]. split; [right; exists c; split; [done|cbn; apply elem_of_app; right; left]|]. intros d Hd. left. cbn. apply elem_of_app. by left.
Qed.
Lemma start_ok a my c todo ca st rt h : held (Starting my (c :: todo) ca st rt) h → step_ok a (Starting my (c :: todo) ca st rt) h.
Proof.
  intros [W N U (R1 & R2 & R3 & R4 & R5)]. cbn in *. destruct (U my R1) as (x & s & Um). destruct (reset_conn_ok (time a) my h x s W Um) as (h1 & x1 & E1 & W1 & Q1 & S1 & U1 & N1).
  assert (∀ d, d ∈ ca → plain_use (increase_reset_counter h1) d) as HU.
  { intros d Hd. change (plain_use h1 d). destruct (decide (d = my)) as [->|Hne]; [by exists x1, s|]. apply (plain_kept [my] h); [done|done|by intros ->%list_elem_of_singleton|auto]. }
  eexists _, _. split; [cbn [thread_step]; rewrite E1; done|]. split; [split; cbn; [by apply (wf_same h1)|done|exact HU|]|].
  - split; [apply R2; left|]. split; [intros d Hd; apply R2; by right|]. rewrite !length_app. cbn [length] in *. split; [lia|]. split; [lia|]. intros d Hd. change (clean_use (increase_reset_counter h1) d) with (clean_use h1 d).
    destruct (decide (d = my)) as [->|Hne]; [left; by exists x1, s|]. destruct (R5 d Hd) as [Hc|[_ Hin]]; [left; apply (clean_kept [my] h); [done|done|by intros ->%list_elem_of_singleton|done]|].
    apply elem_of_cons in Hin as [|Hin]; [done|]. right. destruct todo as [|c' todo]; [by apply elem_of_nil in Hin|]. split; [done|exact Hin].
  - split; [|split; [by left|]].
    + destruct S1 as [A B]. split; cbn; [intros d Hd; apply A; by intros ->%list_elem_of_singleton|]. intros p t Hp. destruct (B p t Hp) as (t' & Ht & H). exists t'. split; [done|]. intros d Hd. apply H. by intros ->%list_elem_of_singleton.
    + intros d Hd. by left.
Qed.
(** The two ways to give a connection back. *)
Lemma give_back_ok a (again : bool) c ret ca1 h : wf h → (∀ d, d ∈ c :: ca1 → clean_use h d) → NoDup (c :: ca1) →
  ∃ h1, (if ret =? 0 then h ← (if again then reset_conn (time a) c h else Ok h); push_MyConn_to_pool v c h else abandon v c h) = Ok h1 ∧
    wf h1 ∧ queue h1 = queue h ∧ step_of [c] h h1 ∧ (∀ d, d ∈ ca1 → clean_use h1 d) ∧ done_with c h1.
Proof.
  intros W C [Hni N]%NoDup_cons. assert (∀ h1, queue h1 = queue h → step_of [c] h h1 → ∀ d, d ∈ ca1 → clean_use h1 d) as Hrest.
  { intros h1 Q S d Hd. apply (clean_kept [c] h); [done|done|by intros ->%list_elem_of_singleton|apply C; by right]. }
  destruct (Z.eqb_spec ret 0) as [_|_].
  - assert (∃ h1, (if again then reset_conn (time a) c h else Ok h) = Ok h1 ∧ wf h1 ∧ queue h1 = queue h ∧ step_of [c] h h1 ∧ clean_use h1 c) as (h1 & -> & W1 & Q1 & S1 & C1).
    { destruct again; [|exists h; split; [done|]; split; [done|]; split; [done|]; split; [apply step_of_refl|apply C; left]]. destruct (C c) as (x & s & U & _); [left|].
      destruct (reset_conn_ok (time a) c h x s W U) as (h1 & x1 & E & W1 & Q & S & U1 & N1). exists h1. do 4 (split; [done|]). by exists x1, s. }
    cbn [mbind outcome_bind]. destruct (push_any v c h1 W1 C1) as (h2 & -> & W2 & Q2 & S2 & D). exists h2. split; [done|]. split; [done|].
    assert (queue h2 = queue h) as Q by congruence. assert (step_of [c] h h2) as S by (eapply step_of_trans; [done|done|reflexivity..]). split; [done|]. split; [done|]. split; [by apply Hrest|done].
  - destruct (C c) as (x & s & U & _); [left|]. destruct (abandon_any v c h x s W U) as (h1 & -> & W1 & Q1 & S1 & D). exists h1. do 4 (split; [done|]). split; [by apply Hrest|by left].
Qed.
Lemma settling_ok a again i ca st rt h : held (Settling again i ca st rt) h → step_ok a (Settling again i ca st rt) h.
Proof.
  intros H. pose proof H as [W N U (R1 & R2 & R3)]. cbn in *. destruct (i <? length ca)%nat eqn:Ei; [|apply (move_ok _ _ _ (Between ca st rt)); [cbn [thread_step]; by rewrite Ei|done|done|done]].
  pose proof Ei as Hi. apply Nat.ltb_lt in Hi. destruct (lookup_lt_is_Some_2 st i) as [s0 Hs]; [lia|]. destruct (s0 =? 0) eqn:E0;
    [|apply (move_ok _ _ _ (Settling again (S i) ca st rt)); [cbn [thread_step]; rewrite Ei, (array_get_ok _ _ _ Hs); cbn [mbind outcome_bind]; by rewrite E0|done|done|done]].
  destruct (lookup_lt_is_Some_2 ca i Hi) as [c Hc]. destruct (array_remove_ok ca i c Hc) as (ca1 & E1 & P1). destruct (lookup_lt_is_Some_2 rt i) as [r0 Hr]; [lia|].
  pose proof (Permutation_length P1) as HL. cbn [length] in HL. destruct (lookup_lt_is_Some_2 st (length ca1)) as [x Hx]; [lia|]. destruct (lookup_lt_is_Some_2 rt (length ca1)) as [y Hy]; [lia|].
  assert (NoDup (c :: ca1)) as N1 by (by rewrite <- P1). destruct (give_back_ok a again c r0 ca1 h W) as (h1 & E2 & W1 & Q1 & S1 & C1 & D1); [intros d Hd; apply R3; by rewrite P1|done|].
  exists (Settling again i ca1 (<[i := x]> st) (<[i := y]> rt)), h1. split.
  { cbn [thread_step]. rewrite Ei, (array_get_ok _ _ _ Hs). cbn [mbind outcome_bind]. rewrite E0, E1. cbn [mbind outcome_bind]. rewrite (array_get_ok _ _ _ Hr). cbn [mbind outcome_bind] in E2 |- *. rewrite E2. cbn [mbind outcome_bind].
    rewrite (array_get_ok _ _ _ Hx), (array_get_ok _ _ _ Hy). done. }
  split; [split; cbn; [done|by apply NoDup_cons in N1 as [_ ?]|intros d Hd; by apply clean_plain, C1|rewrite !length_insert; split; [lia|]; split; [lia|exact C1]]|].
  split; [eapply step_of_trans; [apply step_of_refl|exact S1|reflexivity|intros d ->%list_elem_of_singleton; cbn; rewrite P1; left]|]. split; [by left|]. intros d Hd. cbn in *. rewrite P1 in Hd. apply elem_of_cons in Hd as [->|Hd]; [by right|by left].
Qed.
Lemma leaving_ok a ca h : held (Leaving ca) h → step_ok a (Leaving ca) h.
Proof.
  intros H. pose proof H as [W N U _]. cbn in *. destruct ca as [|c ca]; [by apply (move_ok _ _ _ Waiting)|].
  destruct (array_remove_ok (c :: ca) 0 c eq_refl) as (ca1 & E1 & P1). destruct (U c) as (x & s & Uc); [left|]. destruct (abandon_any v c h x s W Uc) as (h1 & E2 & W1 & Q1 & S1 & D1).
  assert (NoDup (c :: ca1)) as N1 by (by rewrite <- P1). apply NoDup_cons in N1 as [Hni N1]. exists (Leaving ca1), h1. split; [cbn [thread_step]; rewrite E1; cbn [mbind outcome_bind]; by rewrite E2|].
  split; [split; cbn; [done|done| |done]|].
  - intros d Hd. apply (plain_kept [c] h); [done|done|by intros ->%list_elem_of_singleton|apply U; rewrite P1; by right].
  - split; [eapply step_of_trans; [apply step_of_refl|exact S1|reflexivity|intros d ->%list_elem_of_singleton; left]|]. split; [by left|]. intros d Hd. cbn in *. rewrite P1 in Hd. apply elem_of_cons in Hd as [->|Hd]; [right; by left|by left].
Qed.
Lemma poll_lengths (f : Z → Z * Z → Z * Z) ca : ∀ st rt st' rt', poll f ca st rt = (st', rt') → length st' = length st ∧ length rt' = length rt.
Proof.
  induction ca as [|c ca IH]; intros [|s st] [|r rt] st' rt'; cbn [poll]; try (by intros [= <- <-]). destruct (poll f ca st rt) as [st1 rt1] eqn:E. intros [= <- <-]. destruct (IH _ _ _ _ E). cbn. lia.
Qed.
Lemma every_step_ok a th h : held th h → step_ok a th h.
Proof.
  intros H. pose proof H as [W N U R]. destruct th as [|my ca|my todo ca st rt|again i ca st rt|ca st rt|ca].
  - destruct (queue h) as [|c q] eqn:Eq; [apply (move_ok _ _ _ Waiting); [cbn; by rewrite Eq|done..]|]. apply (take_ok a _ h c q [c]); [cbn; by rewrite Eq|done..].
  - destruct (queue h) as [|c q] eqn:Eq; [|apply (take_ok a _ h c q (ca ++ [c])); [cbn; by rewrite Eq|done..]]. apply (move_ok _ _ _ (Starting my ca ca [] [])); [cbn; by rewrite Eq|done|done|]. cbn in *.
    apply last_Some in R as [k ->]. split; [apply elem_of_app; right; left|]. split; [done|]. split; [done|]. split; [done|]. intros d Hd. right. split; [by destruct k|]. rewrite removelast_last. apply elem_of_cons.
    apply elem_of_app in Hd as [?| ->%list_elem_of_singleton]; [by right|by left].
  - destruct todo as [|c todo]; [|by apply start_ok]. apply (move_ok _ _ _ (Settling false 0 ca st rt)); [done|done|done|]. cbn in *. destruct R as (_ & _ & R3 & R4 & R5). split; [lia|]. split; [lia|]. intros d Hd. by destruct (R5 d Hd) as [|[? _]].
  - by apply settling_ok.
  - destruct ((length ca =? 0)%nat || late a) eqn:E; [apply (move_ok _ _ _ (Leaving ca)); [cbn [thread_step]; by rewrite E|done|done|done]|]. destruct (poll (answer a) ca st rt) as [st1 rt1] eqn:Ep. pose proof (poll_lengths _ _ _ _ _ _ Ep).
    apply (move_ok _ _ _ (Settling true 0 ca st1 rt1)); [cbn [thread_step]; rewrite E; by rewrite Ep|done|done|]. cbn in *. destruct R as (? & ? & ?). split; [lia|]. split; [lia|done].
  - by apply leaving_ok.
Qed.
(** However the steps of the thread and those of the others interleave, from the
    moment it waits: what it holds stays in use and out of the queue, and its next
    step is as [step_ok] says, whatever the library answers. *)
Theorem resets_interleaved h0 th h : wf h0 → rtc turn (Waiting, h0) (th, h) → held th h ∧ ∀ a, step_ok a th h.
Proof.
  intros W R. assert (held th h) as H; [|split; [done|intros a; by apply every_step_ok]].
  assert (held Waiting h0) as H0 by (split; [done|apply NoDup_nil_2|by intros c ?%elem_of_nil|done]).
  apply (rtc_ind_r (λ y, held y.1 y.2) (Waiting, h0)) in R; [exact R|exact H0|]. intros [th1 h1] [th2 h2] _ T H1. cbn in *. inversion T as [a ? ? ? ? E|? ? ? K]; subst.
  - destruct (every_step_ok a th1 h1 H1) as (th3 & h3 & E3 & H3 & _). congruence.
  - by eapply held_others.
Qed.

(** Sessions that give back a connection of their own, or take one out, are such
    other threads. *)
Lemma settled_others c p vd l h h' : wf h' → settled_as c p vd h h' → c ∉ l → others l h h'.
Proof.
  intros W' S Hc. pose proof (settled_step _ _ _ _ _ S) as [S1 S2]. split; [done|]. intros d x s Hd (Hx & Hp & Hu & Hq).
  assert (d ∉ [c]) as Hne by (by intros ->%list_elem_of_singleton). destruct (S2 _ _ Hp) as (s' & Hs' & H). exists s'. split; [by rewrite S1|]. split; [done|]. split; [by apply H|].
  destruct S as [_ (s1 & s2 & _ & _ & _ & _ & _ & Hvd)]. destruct vd; destruct Hvd as (-> & _); try done. intros [?|?]%elem_of_app; done.
Qed.
Lemma push_others c x s l h h' : wf h → in_use h c x s → c ∉ l → push_MyConn_to_pool v c h = Ok h' → others l h h'.
Proof. intros W U Hc E. destruct (push_ok v h c x s W U) as (h1 & E1 & W1 & S1). assert (h1 = h') as -> by congruence. by eapply settled_others. Qed.
Lemma destroy_others c x s l h h' : wf h → in_use h c x s → c ∉ l → destroy_MyConn_from_pool v c h = Ok h' → others l h h'.
Proof. intros W U Hc E. destruct (destroy_ok v h c x s W U) as (h1 & E1 & W1 & S1). assert (h1 = h') as -> by congruence. by eapply settled_others. Qed.
Lemma get_others call l h o h' : wf h → call_ok call h → get_MyConn_from_pool v call h = Ok (o, h') → others l h h'.
Proof.
  intros W C E. destruct (get_MyConn_ok v call h W C) as [[E' _]|(o1 & h1 & E1 & W1 & Q1 & H)]; [congruence|]. rewrite E in E1. injection E1 as <- <-. split; [done|]. intros d x s _ (Hx & Hp & Hu & Hq).
  assert (∃ s', servers h' !! parent x = Some s' ∧ d ∈ ConnectionsUsed s' ∧ conns h' !! d = Some x) as (s' & Hs' & Hu' & Hx'); [|by exists s'; rewrite <- Q1 in Hq].
  assert (∀ s', servers h' !! parent x = Some s' → d ∈ ConnectionsUsed s' → (∀ y, conns h' !! d = Some y → conns h !! d = Some y) → conns h' !! d = Some x) as Hconn.
  { intros s' Hs' Hin Hk. destruct (proj1 (proj2 (wf_conns h' W1 _ _ Hs') d)) as (y & Hy & _); [apply elem_of_app; by left|]. rewrite Hy. specialize (Hk y Hy). congruence. }
  destruct o as [c|].
  - destruct H as [(Hnu & p & s1 & s2 & Hs1 & Hs2 & Eu & _ & _ & Ho) Hk]. assert (d ≠ c) as Hne by (intros ->; by eapply Hnu).
    destruct (decide (parent x = p)) as [Ep|Ep].
    + exists s2. rewrite Ep in *. assert (d ∈ ConnectionsUsed s2) as Hin by (rewrite Eu; apply elem_of_app; left; congruence). split; [done|]. split; [done|]. apply (Hconn s2); [congruence|done|]. intros y. by apply Hk.
    + specialize (Ho _ Ep). unfold arrays in Ho. rewrite Hp in Ho. destruct (servers h' !! parent x) as [s'|] eqn:Es; [|done]. injection Ho as Eu' _. exists s'. split; [done|]. split; [by rewrite Eu'|].
      apply (Hconn s'); [done|by rewrite Eu'|]. intros y. by apply Hk.
  - destruct H as [Hc Ha]. specialize (Ha (parent x)). unfold arrays in Ha. rewrite Hp in Ha. destruct (servers h' !! parent x) as [s'|] eqn:Es; [|done]. injection Ha as Eu' _. exists s'. split; [done|]. split; [by rewrite Eu'|by rewrite Hc].
Qed.

(** The thread gets on: between two rounds it has only so many steps to do. *)
Definition work (th : stage) : nat :=
  match th with
  | Waiting => 0
  | Leaving ca => 1 + length ca
  | Between ca _ _ => 2 + length ca
  | Settling _ i ca _ _ => 3 + length ca + (length ca - i)
  | Starting _ todo ca _ _ => 4 + 2 * length ca + length todo
  | Taking _ ca => 5 + 3 * length ca
  end.
Lemma steps_end a th h th' h' : thread_step a th h = Ok (th', h') → (work th' < work th)%nat ∨ queue h ≠ [] ∨ th = Waiting ∨ late a = false ∧ ∃ c ca st rt, th = Between (c :: ca) st rt.
Proof.
  destruct th as [|my ca|my todo ca st rt|again i ca st rt|ca st rt|ca]; cbn [thread_step].
  - auto.
  - destruct (queue h) eqn:E; [|right; by left]. intros [= <- <-]. left. cbn. lia.
  - destruct todo as [|c todo]; [intros [= <- <-]; left; cbn; lia|]. destruct (reset_conn _ _ _); [|done]. cbn [mbind outcome_bind]. intros [= <- <-]. left. cbn. lia.
  - destruct (i <? length ca)%nat eqn:Ei; [|intros [= <- <-]; left; cbn; lia]. apply Nat.ltb_lt in Ei. destruct (array_get st i) as [s0|]; [|done]. cbn [mbind outcome_bind]. destruct (s0 =? 0); [|intros [= <- <-]; left; cbn; lia].
    destruct (lookup_lt_is_Some_2 ca i Ei) as [c Hc]. destruct (array_remove_ok ca i c Hc) as (ca1 & -> & P1). apply Permutation_length in P1. cbn [length] in P1. cbn [mbind outcome_bind].
    destruct (array_get rt i); [|done]. cbn [mbind outcome_bind]. destruct (if _ =? 0 then _ else _); [|done]. cbn [mbind outcome_bind]. destruct (array_get st _); [|done]. cbn [mbind outcome_bind]. destruct (array_get rt _); [|done]. cbn [mbind outcome_bind].
    intros [= <- <-]. left. cbn. lia.
  - destruct ca as [|c ca]; [intros [= <- <-]; left; cbn; lia|]. destruct (late a); [intros [= <- <-]; left; cbn; lia|]. intros _. do 3 right. split; [done|]. by eexists _, _, _, _.
  - destruct ca as [|c ca]; [intros [= <- <-]; left; cbn; lia|]. destruct (array_remove_ok (c :: ca) 0 c eq_refl) as (ca1 & -> & P1). apply Permutation_length in P1. cbn [length] in P1. cbn [mbind outcome_bind].
    destruct (abandon _ _ _); [|done]. cbn [mbind outcome_bind]. intros [= <- <-]. left. cbn. lia.
Qed.
End Steps.
