(* ===== verification/ReadOnly.v ===== *)
(** * Readers and writers (lib/MySQL_HostGroups_Manager.cpp)

    The monitor reports which servers are read only.  A pair of a writer and a
    reader hostgroup says where such servers belong; the manager keeps for every
    endpoint the servers that stand for it in the hostgroups of these pairs, and
    moves them when what is reported has changed ([read_only_action_v2]).

    [read_only_moves] says that the servers end where the reports say and that the
    nodes that are kept stay the servers in the hostgroups, so that they need not
    be built again.  The rows of the SQLite tables are arguments. *)
From S2P Require Import Prelude StringUtils HostGroups.

(** ** The nodes of an endpoint *)
Record Node := mk_node { srv : Z; reader_hostgroup_id : Z; writer_hostgroup_id : Z }.
#[export] Instance Node_eq_dec : EqDecision Node.
Proof. solve_decision. Defined.
Inductive Type_ := WRITER | READER.
#[export] Instance Type_eq_dec : EqDecision Type_.
Proof. solve_decision. Defined.
(** [mapping] is an array of two vectors. *)
Record HostGroup_Server_Mapping := mk_mapping { writers : list Node; readers : list Node; readonly_flag : Z }.
Definition new_mapping : HostGroup_Server_Mapping := mk_mapping [] [] 1.
Definition get (t : Type_) (m : HostGroup_Server_Mapping) : list Node := match t with WRITER => writers m | READER => readers m end.
Definition put (t : Type_) (l : list Node) (m : HostGroup_Server_Mapping) : HostGroup_Server_Mapping :=
  match t with WRITER => mk_mapping l (readers m) (readonly_flag m) | READER => mk_mapping (writers m) l (readonly_flag m) end.
Definition add_node (t : Type_) (n : Node) (m : HostGroup_Server_Mapping) : HostGroup_Server_Mapping := put t (get t m ++ [n]) m.
Definition set_readonly_flag (val : Z) (m : HostGroup_Server_Mapping) : HostGroup_Server_Mapping := mk_mapping (writers m) (readers m) val.
Definition get_hostgroup_id (t : Type_) (n : Node) : Z := match t with WRITER => writer_hostgroup_id n | READER => reader_hostgroup_id n end.
Definition srv_id (hostname : list Z) (prt : Z) : list Z := hostname ++ str ":::" ++ sdec prt.
#[global] Arguments srv_id : simpl never.

Abbreviation mappings := (gmap (list Z) HostGroup_Server_Mapping).

Section Moves.
(** Where [new] puts a server. *)
Context (new : HGM → Z).

(** The first server of an array that was taken away from the endpoint. *)
Fixpoint find_offline (h : HGM) (s : MySrvC) (ps : list Z) : outcome (option Z) :=
  match ps with
  | [] => Ok None
  | p :: ps' => q ← get_srv h p; if same_endpoint q (address s) (port s) && status_is (status q) OFFLINE_HARD then Ok (Some p) else find_offline h s ps'
  end.
(** The server comes back with the settings of [s]. *)
Definition with_settings (s q : MySrvC) : MySrvC :=
  q <| gtid_port := gtid_port s |> <| weight := weight s |> <| compression := compression s |> <| max_connections := max_connections s |>
    <| max_replication_lag := max_replication_lag s |> <| use_ssl := use_ssl s |> <| max_latency_us := max_latency_us s |> <| comment := comment s |>.
Definition insert_HGM (hostgroup_id p : Z) (h : HGM) : outcome (HGM * Z) :=
  let '(i, h) := MyHGC_lookup hostgroup_id h in
  g ← get_hgc h i;
  s ← get_srv h p;
  f ← find_offline h s (mysrvs g);
  match f with
  | Some q => o ← get_srv h q; h ← set_status q ONLINE (set_srv q (with_settings s o) h); Ok (h, q)
  | None =>
      let r := new h in
      h ← srvlist_add i r (set_srv r (new_MySrvC (address s) (port s) (gtid_port s) (weight s) (status s) (compression s) (max_connections s)
        (max_replication_lag s) (use_ssl s) (max_latency_us s / 1000) (comment s)) h);
      Ok (h, r)
  end.
(** The address of the hostgroup is read for the log. *)
Definition remove_HGM (p : Z) (h : HGM) : outcome HGM :=
  s ← get_srv h p;
  match myhgc s with
  | None => Fault NullPointer
  | Some i => _ ← get_hgc h i; h ← set_status p OFFLINE_HARD h; drop_all_connections p h
  end.

Definition same_pair (a b : Node) : bool := (reader_hostgroup_id a =? reader_hostgroup_id b) && (writer_hostgroup_id a =? writer_hostgroup_id b).
Fixpoint append_nodes (dest : Type_) (append : list Node) (h : HGM) (m : HostGroup_Server_Mapping) : outcome (HGM * HostGroup_Server_Mapping) :=
  match append with
  | [] => Ok (h, m)
  | n :: append' =>
      s ← get_srv h (srv n);
      h ← (if status_is (status s) SHUNNED || status_is (status s) SHUNNED_REPLICATION_LAG then set_status (srv n) ONLINE h else Ok h);
      '(h, p) ← insert_HGM (get_hostgroup_id dest n) (srv n) h;
      append_nodes dest append' h (add_node dest (mk_node p (reader_hostgroup_id n) (writer_hostgroup_id n)) m)
  end.
Definition copy_if_not_exists (dest src : Type_) (h : HGM) (m : HostGroup_Server_Mapping) : outcome (HGM * HostGroup_Server_Mapping) :=
  if bool_decide (dest = src) then Fault AssertFail
  else append_nodes dest (filter (λ n, existsb (same_pair n) (get dest m) = false) (get src m)) h m.
(** [remove] by index: the last node takes its place. *)
Definition remove (t : Type_) (index : nat) (h : HGM) (m : HostGroup_Server_Mapping) : outcome (HGM * HostGroup_Server_Mapping) :=
  match get t m !! index with
  | None => Fault AssertFail
  | Some n =>
      h ← remove_HGM (srv n) h;
      let l := get t m in
      let l := match last l with Some b => if (index + 1 =? length l)%nat then l else <[index := b]> l | None => l end in
      Ok (h, put t (removelast l) m)
  end.
Fixpoint remove_nodes (l : list Node) (h : HGM) : outcome HGM :=
  match l with [] => Ok h | n :: l' => h ← remove_HGM (srv n) h; remove_nodes l' h end.
Definition clear (t : Type_) (h : HGM) (m : HostGroup_Server_Mapping) : outcome (HGM * HostGroup_Server_Mapping) :=
  h ← remove_nodes (get t m) h; Ok (h, put t [] m).

(** ** What was reported *)
Record read_only_server_t := mk_ros { ros_hostname : list Z; ros_port : Z; ros_readonly : Z }.
(** Readers become writers. *)
Definition to_writer (v : variables) (h : HGM) (m : HostGroup_Server_Mapping) : outcome (HGM * HostGroup_Server_Mapping) :=
  '(h, m) ← copy_if_not_exists WRITER READER h m;
  if monitor_writer_is_also_reader v then Ok (h, m) else clear READER h m.
(** A reader whose pair has no writer. *)
Definition missing_writer (m : HostGroup_Server_Mapping) : bool :=
  existsb (λ r, negb (existsb (λ w, writer_hostgroup_id r =? writer_hostgroup_id w) (writers m))) (readers m).
(** The result says whether the tables have to be written again. *)
Definition act (v : variables) (read_only : Z) (h : HGM) (m : HostGroup_Server_Mapping) : outcome (HGM * HostGroup_Server_Mapping * bool) :=
  let is_writer := negb (bool_decide (writers m = [])) in
  if read_only =? 0 then
    if negb is_writer then '(h, m) ← to_writer v h m; Ok (h, m, true)
    else if negb (readonly_flag m =? 0) then
      if missing_writer m then '(h, m) ← to_writer v h m; Ok (h, m, true)
      else Ok (h, set_readonly_flag 0 m, false)
    else Ok (h, m, false)
  else if read_only =? 1 then
    if is_writer then '(h, m) ← copy_if_not_exists READER WRITER h m; '(h, m) ← clear WRITER h m; Ok (h, m, true)
    else Ok (h, m, false)
  else Fault AssertFail.
Fixpoint act_all (v : variables) (l : list read_only_server_t) (h : HGM) (M : mappings) (update : bool) : outcome (HGM * mappings * bool) :=
  match l with
  | [] => Ok (h, M, update)
  | r :: l' =>
      let id := srv_id (ros_hostname r) (ros_port r) in
      match M !! id with
      | None => act_all v l' h M update
      | Some m => '(h, m, u) ← act v (ros_readonly r) h m; act_all v l' h (<[id := m]> M) (update || u)
      end
  end.
Definition read_only_action_v2 (v : variables) (l : list read_only_server_t) (h : HGM) (M : mappings) : outcome (HGM * mappings) :=
  '(h, M, update) ← act_all v l h M false;
  if (update : bool) then h ← purge_mysql_servers_table h; Ok (h, M) else Ok (h, M).
End Moves.

(** ** Building the nodes *)
(** A row: hostname, port, is_writer, status, reader, writer, mem_pointer. *)
Record mapping_row := mk_row { f_hostname : list Z; f_port : list Z; f_is_writer : option (list Z); f_status : list Z; f_reader : list Z; f_writer : list Z; f_mem : list Z }.
Definition row_id (r : mapping_row) : list Z := f_hostname r ++ str ":::" ++ f_port r.
Definition row_type (r : mapping_row) : Type_ := match f_is_writer r with Some (49 :: _) => WRITER | _ => READER end.
Definition row_node (r : mapping_row) : Node := mk_node (atoll (f_mem r)) (u32 (atoi (f_reader r))) (u32 (atoi (f_writer r))).
Definition add_row (M : mappings) (r : mapping_row) : mappings :=
  let id := row_id r in <[id := add_node (row_type r) (row_node r) (default new_mapping (M !! id))]> M.
(** The checksums of the two tables tell whether something changed. *)
Definition update_hostgroup_manager_mappings (saved current : Z * Z) (rows : list mapping_row) (M : mappings) : mappings * (Z * Z) :=
  if negb (saved.1 =? current.1) || negb (saved.2 =? current.2) then (foldl add_row ∅ rows, current) else (M, saved).

(** ** Where the servers are *)
Definition live (s : MySrvC) : bool := negb (status_is (status s) OFFLINE_HARD).
(** The endpoint of a server, its hostgroup and whether it was taken away. *)
Definition view (h : HGM) (p : Z) : option (list Z * Z * bool) :=
  s ← servers h !! p; i ← myhgc s; x ← (hid <$> MyHostGroups h) !! i; Some (srv_id (address s) (port s), x, live s).
Section View.
Context (k : bool).
Implicit Types (h : HGM) (s : MySrvC).
Lemma view_server h p s : Inv k h → servers h !! p = Some s → ∃ x, view h p = Some (srv_id (address s) (port s), x, live s).
Proof.
  intros [W _] Hs. destruct (owner_allocated h p s W Hs) as (i & g & Hi & Hg & _). exists (hid g). unfold view. rewrite Hs. cbn. rewrite Hi. cbn. by rewrite list_lookup_fmap, Hg.
Qed.
Lemma view_inv h p id x b : view h p = Some (id, x, b) → ∃ s i, servers h !! p = Some s ∧ srv_id (address s) (port s) = id ∧ live s = b ∧ myhgc s = Some i ∧ (hid <$> MyHostGroups h) !! i = Some x.
Proof.
  unfold view. destruct (servers h !! p) as [s|] eqn:Hs; [|done]. cbn. destruct (myhgc s) as [i|] eqn:Hi; [|done]. cbn. destruct ((hid <$> MyHostGroups h) !! i) as [y|] eqn:Hy; [|done]. intros [= <- <- <-]. by exists s, i.
Qed.
Lemma view_same h h' q : same_skeleton h h' → (status <$> servers h' !! q) = (status <$> servers h !! q) → view h' q = view h q.
Proof.
  intros HS Hst. pose proof (skeleton_hids _ _ HS) as Hh. destruct HS as (_ & _ & Hs & _). specialize (Hs q). unfold view, live. rewrite Hh.
  destruct (servers h !! q) as [s|], (servers h' !! q) as [s'|]; try done. cbn in *. injection Hs as E1 E2 E3. injection Hst as E4. by rewrite E1, E2, E3, E4.
Qed.
Lemma set_status_view h p s st : Inv k h → servers h !! p = Some s →
  ∃ h', set_status p st h = Ok h' ∧ Inv k h' ∧ same_skeleton h h' ∧ servers h' = <[p := s <| status := st |>]> (servers h) ∧
    (∀ q, q ≠ p → view h' q = view h q) ∧ ∀ id x b, view h p = Some (id, x, b) → view h' p = Some (id, x, negb (status_is st OFFLINE_HARD)).
Proof.
  intros HI Hs. destruct (set_status_spec k h p s st HI Hs) as (h' & E & HI' & HS & Es & _). exists h'. split; [done|]. split; [done|]. split; [done|]. split; [done|]. split.
  - intros q Hq. apply view_same; [done|]. by rewrite Es, lookup_insert_ne.
  - intros id x b. unfold view. rewrite Hs, Es, lookup_insert_eq, (skeleton_hids _ _ HS). cbn. destruct (myhgc s) as [i|]; [|done]. cbn. destruct ((hid <$> MyHostGroups h) !! i); [|done]. by intros [= <- <- _].
Qed.
Lemma drop_all_view h p s : Inv k h → servers h !! p = Some s → ∃ h', drop_all_connections p h = Ok h' ∧ Inv k h' ∧ ∀ q, view h' q = view h q.
Proof.
  intros HI Hs. destruct (drop_all_connections_spec k h p s HI Hs) as (m & E & HI' & HS & _). eexists. split; [exact E|]. split; [done|]. intros q. apply view_same; [done|]. cbn.
  destruct (decide (q = p)) as [->|Hq]; [by rewrite lookup_insert_eq, Hs|by rewrite lookup_insert_ne].
Qed.
Lemma lookup_view h x : Inv k h → ∃ i h' g, MyHGC_lookup x h = (i, h') ∧ Inv k h' ∧ servers h' = servers h ∧ MyHostGroups h' !! i = Some g ∧ hid g = x ∧ ∀ q, view h' q = view h q.
Proof.
  intros HI. destruct (MyHGC_lookup_spec k h x HI) as (i & h' & g & E & HI' & Es & _ & _ & Hg & Hx & _). exists i, h', g. do 5 (split; [done|]). intros q. unfold view. rewrite Es.
  destruct (servers h !! q) as [s|] eqn:Hs; [|done]. cbn. destruct (owner_allocated h q s (proj1 HI) Hs) as (j & g' & Hj & Hg' & _). rewrite Hj. cbn. revert E. unfold MyHGC_lookup. destruct (MyHGC_find x h); [by intros [= <- <-]|].
  intros [= <- <-]. cbn. by rewrite fmap_app, lookup_app_l by (rewrite length_fmap; by eapply lookup_lt_Some).
Qed.

(** *** Bringing a server to a hostgroup *)
Lemma find_offline_spec h s ps : (∀ p, p ∈ ps → allocated h p) → ∃ r, find_offline h s ps = Ok r ∧
  ∀ q, r = Some q → q ∈ ps ∧ ∃ o, servers h !! q = Some o ∧ same_endpoint o (address s) (port s) = true ∧ status o = OFFLINE_HARD.
Proof.
  induction ps as [|p ps IH]; intros Hp; cbn [find_offline]; [by exists None|]. destruct (Hp p) as [o Ho]; [left|]. rewrite (get_srv_ok _ _ _ Ho). cbn [mbind outcome_bind].
  destruct (same_endpoint o (address s) (port s) && status_is (status o) OFFLINE_HARD) eqn:E.
  - apply andb_true_iff in E as [E1 E2]. apply bool_decide_eq_true in E2. exists (Some p). split; [done|]. intros q [= <-]. split; [left|]. by exists o.
  - destruct IH as (r & -> & H); [intros q Hq; apply Hp; by right|]. exists r. split; [done|]. intros q Hq. destruct (H q Hq) as [? ?]. split; [by right|done].
Qed.
Lemma endpoint_eq o a n : same_endpoint o a n = true → address o = a ∧ port o = n.
Proof. unfold same_endpoint. rewrite andb_true_iff, bool_decide_eq_true, Z.eqb_eq. done. Qed.
(** [p] was not a server of the endpoint before, and is one in the hostgroup [x] now. *)
Definition moved_in (h h' : HGM) (p : Z) (id : list Z) (x : Z) : Prop :=
  view h' p = Some (id, x, true) ∧ (∀ q, q ≠ p → view h' q = view h q) ∧ (∀ i y, view h p ≠ Some (i, y, true)).
Lemma insert_view new x p id y b h : (∀ h, servers h !! new h = None) → Inv k h → view h p = Some (id, y, b) → b = true →
  ∃ h' r, insert_HGM new x p h = Ok (h', r) ∧ Inv k h' ∧ moved_in h h' r id x.
Proof.
  intros Hnew HI Hv ->. destruct (view_inv _ _ _ _ _ Hv) as (s & j & Hs & Hid & Hl & _ & _). unfold insert_HGM. destruct (lookup_view h x HI) as (i & h1 & g & -> & HI1 & Es1 & Hg & Hx & Hv1).
  rewrite (get_hgc_ok _ _ _ Hg). cbn [mbind outcome_bind]. rewrite (get_srv_ok h1 p s) by (by rewrite Es1). cbn [mbind outcome_bind].
  destruct (find_offline_spec h1 s (mysrvs g)) as (r & -> & Hr). { intros q Hq. destruct (mysrvs_allocated h1 i g q (proj1 HI1) Hg Hq) as (o & Ho & _). by exists o. }
  cbn [mbind outcome_bind]. destruct r as [q|].
  - destruct (Hr q eq_refl) as (Hq & o & Ho & Hep & Hst). apply endpoint_eq in Hep as [Ea Ep]. destruct (mysrvs_allocated h1 i g q (proj1 HI1) Hg Hq) as (o' & Ho' & Hi). assert (o' = o) as -> by congruence.
    rewrite (get_srv_ok _ _ _ Ho). cbn [mbind outcome_bind]. set (o1 := with_settings s o). destruct (safe_field k h1 q o o1) as (h2 & E2 & HI2 & HS2); try done. injection E2 as <-.
    destruct (set_status_view (set_srv q o1 h1) q o1 ONLINE HI2) as (h3 & -> & HI3 & _ & _ & Hne & Heq); [cbn; by rewrite lookup_insert_eq|]. cbn [mbind outcome_bind]. exists h3, q. split; [done|]. split; [done|].
    assert (∀ z, view (set_srv q o1 h1) z = view h1 z) as Hsv. { intros z. apply view_same; [done|]. cbn. destruct (decide (z = q)) as [->|Hz]; [by rewrite lookup_insert_eq, Ho|by rewrite lookup_insert_ne]. }
    assert (view h1 q = Some (id, x, false)) as Hvq. { unfold view. rewrite Ho. cbn. rewrite Hi. cbn. rewrite list_lookup_fmap, Hg. cbn. unfold live. by rewrite Hst, Ea, Ep, Hid, Hx. }
    split; [eapply Heq; by rewrite Hsv|]. split; [intros z Hz; by rewrite Hne, Hsv, Hv1|]. rewrite <- Hv1, Hvq. done.
  - set (r := new h1). set (s1 := new_MySrvC _ _ _ _ _ _ _ _ _ _ _). destruct (srvlist_add_spec k h1 r s1 i g HI1 (Hnew h1)) as (h3 & -> & HI3 & Es3 & Eh3); try done. cbn [mbind outcome_bind].
    exists h3, r. split; [done|]. split; [done|]. split; [|split].
    + unfold view. rewrite Es3, lookup_insert_eq, Eh3. cbn. rewrite list_lookup_fmap, Hg. cbn. rewrite Hid, Hx. unfold live in *. cbn. by rewrite Hl.
    + intros q Hq. unfold view. rewrite Es3, lookup_insert_ne, Eh3 by done. apply Hv1.
    + intros id' y'. rewrite <- Hv1. unfold view, r. by rewrite Hnew.
Qed.
Lemma remove_view h p id x b : Inv k h → view h p = Some (id, x, b) →
  ∃ h', remove_HGM p h = Ok h' ∧ Inv k h' ∧ view h' p = Some (id, x, false) ∧ ∀ q, q ≠ p → view h' q = view h q.
Proof.
  intros HI Hv. destruct (view_inv _ _ _ _ _ Hv) as (s & i & Hs & Hid & Hl & Hi & Hg). unfold remove_HGM. rewrite (get_srv_ok _ _ _ Hs). cbn [mbind outcome_bind]. rewrite Hi.
  rewrite list_lookup_fmap in Hg. destruct (MyHostGroups h !! i) as [g|] eqn:Eg; [|done]. rewrite (get_hgc_ok _ _ _ Eg). cbn [mbind outcome_bind].
  destruct (set_status_view h p s OFFLINE_HARD HI Hs) as (h1 & -> & HI1 & _ & Es1 & Hne & Heq). cbn [mbind outcome_bind].
  destruct (drop_all_view h1 p (s <| status := OFFLINE_HARD |>) HI1) as (h2 & -> & HI2 & Hv2); [by rewrite Es1, lookup_insert_eq|]. exists h2. split; [done|]. split; [done|]. split; [by rewrite Hv2, (Heq id x b)|]. intros q Hq. by rewrite Hv2, Hne.
Qed.
(** A purge takes away what was not live. *)
Lemma purge_array_groups fuel : ∀ h j l h' l', purge_array fuel h j l = Ok (h', l') → MyHostGroups h' = MyHostGroups h.
Proof.
  induction fuel as [|fuel IH]; intros h j l h' l'; cbn [purge_array]; [done|]. destruct (l !! j) as [p|]; [|by intros [= <- _]].
  destruct (get_srv h p); [|done..]. cbn [mbind outcome_bind]. destruct (_ && _); [|apply IH]. destruct (array_remove j l) as [[q l1]|]; [|done..]. cbn [mbind outcome_bind]. by intros ->%IH.
Qed.
Lemma purge_loop_hids n : ∀ i h h', purge_loop n i h = Ok h' → (hid <$> MyHostGroups h') = (hid <$> MyHostGroups h).
Proof.
  induction n as [|n IH]; intros i h h'; cbn [purge_loop]; [by intros [= <-]|]. unfold get_hgc at 1. destruct (MyHostGroups h !! i) as [g|] eqn:Hg; [|done]. cbn [mbind outcome_bind].
  destruct (purge_array _ h 0 _) as [[h1 l1]|] eqn:E; [|done..]. cbn [mbind outcome_bind]. intros ->%IH. unfold set_hgc. cbn. rewrite (purge_array_groups _ _ _ _ _ _ E), list_fmap_insert. cbn. apply list_insert_id. by rewrite list_lookup_fmap, Hg.
Qed.
Lemma purged_views h h' : Inv k h → purge_mysql_servers_table h = Ok h' → ∀ q i x, view h' q = Some (i, x, true) ↔ view h q = Some (i, x, true).
Proof.
  intros HI E q i x. destruct (purge_servers_spec k h HI) as (h2 & E2 & _ & Hs). assert (h2 = h') as -> by congruence. unfold view, live. rewrite Hs, (purge_loop_hids _ _ _ _ E). destruct (servers h !! q) as [s|]; [|done]. cbn.
  destruct (purgeable s) eqn:Hp; [|done]. unfold purgeable in Hp. apply andb_prop in Hp as [[Hst _]%andb_prop _]. split; [done|]. cbn. destruct (myhgc s); [|done]. cbn. destruct (_ !! _); [|done]. cbn. by rewrite Hst.
Qed.
End View.

(** ** The nodes and the hostgroups agree *)
Definition node_pair (n : Node) : Z * Z := (writer_hostgroup_id n, reader_hostgroup_id n).
Definition nodes (M : mappings) (id : list Z) (t : Type_) : list Node := match M !! id with Some m => get t m | None => [] end.
(** The nodes of an endpoint are its servers in the hostgroups of the configured pairs. *)
Definition accurate (repl : list (Z * Z)) (h : HGM) (M : mappings) : Prop :=
  ∀ id t n, n ∈ nodes M id t ↔ node_pair n ∈ repl ∧ view h (srv n) = Some (id, get_hostgroup_id t n, true).
(** No hostgroup has two roles. *)
Definition distinct (repl : list (Z * Z)) : Prop := NoDup ((fst <$> repl) ++ (snd <$> repl)).

Lemma NoDup_fmap_inj {A B} (f : A → B) l a b : NoDup (f <$> l) → a ∈ l → b ∈ l → f a = f b → a = b.
Proof.
  intros H [i Hi]%list_elem_of_lookup_1 [j Hj]%list_elem_of_lookup_1 E. assert (i = j) as -> by (eapply NoDup_lookup; [exact H| |]; rewrite list_lookup_fmap, ?Hi, ?Hj; cbn; [done|by rewrite E]). congruence.
Qed.
Lemma distinct_role repl t t' n n' : distinct repl → node_pair n ∈ repl → node_pair n' ∈ repl → get_hostgroup_id t n = get_hostgroup_id t' n' → t = t' ∧ node_pair n = node_pair n'.
Proof.
  intros (H1 & H12 & H2)%NoDup_app Hn Hn'. destruct t, t'; cbn; intros E.
  - split; [done|]. by apply (NoDup_fmap_inj fst repl).
  - exfalso. apply (H12 (writer_hostgroup_id n)); [by apply (list_elem_of_fmap_2 fst) in Hn|]. rewrite E. by apply (list_elem_of_fmap_2 snd) in Hn'.
  - exfalso. apply (H12 (writer_hostgroup_id n')); [by apply (list_elem_of_fmap_2 fst) in Hn'|]. rewrite <- E. by apply (list_elem_of_fmap_2 snd) in Hn.
  - split; [done|]. by apply (NoDup_fmap_inj snd repl).
Qed.
Lemma get_put t t' l m : get t (put t' l m) = if decide (t = t') then l else get t m.
Proof. by destruct t, t'. Qed.
Lemma nodes_insert M id m id' t : nodes (<[id := m]> M) id' t = if decide (id' = id) then get t m else nodes M id' t.
Proof. unfold nodes. case_decide as E; [subst; by rewrite lookup_insert_eq|by rewrite lookup_insert_ne]. Qed.
Lemma node_eta n : n = mk_node (srv n) (reader_hostgroup_id n) (writer_hostgroup_id n).
Proof. by destruct n. Qed.

Section Accurate.
Context (k : bool) (repl : list (Z * Z)) (is_distinct : distinct repl) (new : HGM → Z) (new_fresh : ∀ h, servers h !! new h = None) (M : mappings) (id : list Z).
Abbreviation exact h m := (accurate repl h (<[id := m]> M)).
Lemma accurate_views h h' N : (∀ q i x, view h q = Some (i, x, true) ↔ view h' q = Some (i, x, true)) → accurate repl h N → accurate repl h' N.
Proof. intros Hv H i t n. rewrite <- Hv. apply H. Qed.
Lemma accurate_moved_in h h' p t n m : node_pair n ∈ repl → moved_in h h' p id (get_hostgroup_id t n) → exact h m →
  exact h' (add_node t (mk_node p (reader_hostgroup_id n) (writer_hostgroup_id n)) m).
Proof using is_distinct.
  intros Hn (Hp & Hne & Hno) H id' t' n'. specialize (H id' t' n'). rewrite nodes_insert in H |- *. unfold add_node. rewrite get_put. destruct (decide (srv n' = p)) as [<-|Hq].
  - rewrite Hp. assert (n' ∉ (if decide (id' = id) then get t' m else nodes M id' t')) as Hold by (intros Hin; apply H in Hin as [_ Hv]; by apply (Hno id' (get_hostgroup_id t' n'))).
    split.
    + case_decide as Ei; [|done]. subst id'. case_decide as Et; [|done]. subst t'. intros [?|Hin]%elem_of_app; [done|]. apply list_elem_of_singleton in Hin. rewrite Hin. unfold node_pair. cbn. split; [exact Hn|]. by destruct t.
    + intros [Hn' [= -> E]]. destruct (distinct_role repl t t' n n' is_distinct Hn Hn' E) as [-> Ep]. rewrite !decide_True by done. apply elem_of_app. right. apply list_elem_of_singleton. rewrite (node_eta n'). injection Ep as -> ->. done.
  - rewrite (Hne (srv n') Hq), <- H. case_decide as Ei; [|done]. case_decide as Et; [|done]. subst t'. rewrite elem_of_app, list_elem_of_singleton. split; [|by left]. intros [?| ->]; done.
Qed.
(** Copying nodes. *)
Lemma append_ok dest src app : dest ≠ src → ∀ h m, Inv k h → exact h m →
  (∀ n, n ∈ app → node_pair n ∈ repl ∧ view h (srv n) = Some (id, get_hostgroup_id src n, true)) →
  ∃ h' m', append_nodes new dest app h m = Ok (h', m') ∧ Inv k h' ∧ exact h' m' ∧ get src m' = get src m ∧ readonly_flag m' = readonly_flag m ∧
    (node_pair <$> get dest m') = (node_pair <$> get dest m) ++ (node_pair <$> app).
Proof using is_distinct new_fresh.
  intros Hds. induction app as [|n app IH]; intros h m HI Hex Happ; cbn [append_nodes]; [exists h, m; rewrite app_nil_r; done|].
  destruct (Happ n) as [Hn Hv]; [left|]. destruct (view_inv _ _ _ _ _ Hv) as (s & i & Hs & _ & Hl & _). rewrite (get_srv_ok _ _ _ Hs). cbn [mbind outcome_bind].
  assert (∃ h1, (if status_is (status s) SHUNNED || status_is (status s) SHUNNED_REPLICATION_LAG then set_status (srv n) ONLINE h else Ok h) = Ok h1 ∧ Inv k h1 ∧ ∀ q, view h1 q = view h q) as (h1 & -> & HI1 & Hv1).
  { case_match; [|by exists h]. destruct (set_status_view k h (srv n) s ONLINE HI Hs) as (h1 & -> & HI1 & _ & _ & Hne & Heq). exists h1. split; [done|]. split; [done|]. intros q. destruct (decide (q = srv n)) as [->|Hq]; [|by apply Hne]. by rewrite (Heq _ _ _ Hv), Hv. }
  cbn [mbind outcome_bind]. destruct (insert_view k new (get_hostgroup_id dest n) (srv n) id (get_hostgroup_id src n) true h1 new_fresh HI1) as (h2 & p & -> & HI2 & Hm); [by rewrite Hv1|done|]. cbn [mbind outcome_bind].
  assert (exact h1 m) as Hex1 by (apply (accurate_views h); [intros q i' x; by rewrite Hv1|done]).
  destruct (IH h2 (add_node dest (mk_node p (reader_hostgroup_id n) (writer_hostgroup_id n)) m) HI2) as (h' & m' & -> & HI' & Hex' & Es & Ef & Ep).
  - by apply (accurate_moved_in h1).
  - intros n' Hn'. destruct (Happ n') as [? Hv']; [by right|]. split; [done|]. destruct Hm as (_ & Hne & Hno). rewrite Hne, Hv1; [done|]. intros E. apply (Hno id (get_hostgroup_id src n')). by rewrite <- E, Hv1.
  - exists h', m'. split; [done|]. split; [done|]. split; [done|]. split; [rewrite Es; unfold add_node; by rewrite get_put, decide_False|]. split; [rewrite Ef; by destruct dest|].
    rewrite Ep. unfold add_node. rewrite get_put, decide_True, fmap_app, <- app_assoc by done. by cbn.
Qed.
Lemma remove_nodes_ok l : ∀ h, Inv k h → (∀ n, n ∈ l → ∃ x b, view h (srv n) = Some (id, x, b)) →
  ∃ h', remove_nodes l h = Ok h' ∧ Inv k h' ∧ ∀ q i x, view h' q = Some (i, x, true) ↔ view h q = Some (i, x, true) ∧ q ∉ srv <$> l.
Proof.
  induction l as [|n l IH]; intros h HI Hl; cbn [remove_nodes]; [exists h; split; [done|]; split; [done|]; intros q i x; split; [intros E; split; [done|apply not_elem_of_nil]|by intros [? _]]|].
  destruct (Hl n) as (x & b & Hv); [left|]. destruct (remove_view k h (srv n) id x b HI Hv) as (h1 & -> & HI1 & Hd & Hne). cbn [mbind outcome_bind].
  destruct (IH h1 HI1) as (h' & -> & HI' & Hv').
  { intros n' Hn'. destruct (decide (srv n' = srv n)) as [->|Hq]; [by exists x, false|]. rewrite Hne by done. apply Hl. by right. }
  exists h'. split; [done|]. split; [done|]. intros q i y. rewrite Hv', fmap_cons, not_elem_of_cons. destruct (decide (q = srv n)) as [->|Hq]; [rewrite Hd; naive_solver|]. rewrite Hne by done. naive_solver.
Qed.
Lemma clear_nodes_ok t h m : Inv k h → exact h m → ∃ h', clear t h m = Ok (h', put t [] m) ∧ Inv k h' ∧ exact h' (put t [] m).
Proof using is_distinct.
  intros HI H. assert (∀ n, n ∈ get t m ↔ node_pair n ∈ repl ∧ view h (srv n) = Some (id, get_hostgroup_id t n, true)) as Hm by (intros n; specialize (H id t n); by rewrite nodes_insert, decide_True in H).
  destruct (remove_nodes_ok (get t m) h HI) as (h' & E & HI' & Hv). { intros n [_ Hn]%Hm. by exists (get_hostgroup_id t n), true. }
  exists h'. unfold clear. rewrite E. split; [done|]. split; [done|]. intros id' t' n'. rewrite Hv. specialize (H id' t' n'). rewrite nodes_insert in H |- *. rewrite get_put. split.
  - intros Hn'. assert (n' ∈ (if decide (id' = id) then get t' m else nodes M id' t')) as Hin by (case_decide; [case_decide; [by apply elem_of_nil in Hn'|done]|done]). apply H in Hin as [Hr Hv']. split; [done|]. split; [done|].
    intros (n & Es & [Hr' Hn]%Hm)%list_elem_of_fmap_1. rewrite Es, Hn in Hv'. injection Hv' as <- E'. destruct (distinct_role repl t t' n n' is_distinct Hr' Hr E') as [<- _]. rewrite !decide_True in Hn' by done. by apply elem_of_nil in Hn'.
  - intros (Hr & Hn' & Hnot). assert (n' ∈ (if decide (id' = id) then get t' m else nodes M id' t')) as Hin by by apply H. case_decide as Ei; [|done]. case_decide as Et; [|done]. subst t'. exfalso. apply Hnot. by apply list_elem_of_fmap_2.
Qed.
End Accurate.

(** ** What the reports mean *)
(** The pairs in which an endpoint is a writer and in which it is a reader, and whether
    it was settled as a writer before. *)
Definition roles : Type := gset (Z * Z) * gset (Z * Z) * Z.
Definition roles_of (m : HostGroup_Server_Mapping) : roles := (list_to_set (node_pair <$> writers m), list_to_set (node_pair <$> readers m), readonly_flag m).
(** A server that is read only leaves the writers; one that is not becomes a writer of
    all its pairs, unless it was settled, or is a writer wherever it is a reader. *)
Definition settle (also_reader : bool) (read_only : Z) (x : roles) : roles :=
  let '(W, R, flag) := x in
  let writer := (W ∪ R, if also_reader then R else ∅, flag) in
  if read_only =? 1 then (if bool_decide (W = ∅) then x else (∅, R ∪ W, flag))
  else if bool_decide (W = ∅) then writer
  else if flag =? 0 then x
  else if bool_decide (set_map (D := gset Z) fst R ⊆ set_map (D := gset Z) fst W) then (W, R, 0) else writer.
Definition settle_all (also_reader : bool) (l : list read_only_server_t) (id : list Z) (x : roles) : roles :=
  foldl (λ x r, if bool_decide (srv_id (ros_hostname r) (ros_port r) = id) then settle also_reader (ros_readonly r) x else x) x l.
Definition readable (l : list read_only_server_t) : Prop := Forall (λ r, ros_readonly r = 0 ∨ ros_readonly r = 1) l.

Definition pair_set (l : list Node) : gset (Z * Z) := list_to_set (node_pair <$> l).
Lemma same_pair_spec a b : same_pair a b = true ↔ node_pair a = node_pair b.
Proof. unfold same_pair, node_pair. rewrite andb_true_iff, !Z.eqb_eq. split; [by intros [-> ->]|by intros [= -> ->]]. Qed.
Lemma pair_set_empty l : pair_set l = ∅ ↔ l = [].
Proof. unfold pair_set. destruct l as [|n l]; [done|]. split; [|done]. cbn. set_solver. Qed.
Lemma elem_of_pair_set p l : p ∈ pair_set l ↔ ∃ n, n ∈ l ∧ node_pair n = p.
Proof. unfold pair_set. rewrite elem_of_list_to_set, list_elem_of_fmap. naive_solver. Qed.
Lemma pair_set_copied dest src : pair_set dest ∪ pair_set (filter (λ n, existsb (same_pair n) dest = false) src) = pair_set dest ∪ pair_set src.
Proof.
  apply set_eq. intros p. rewrite !elem_of_union, !elem_of_pair_set. split.
  - intros [?|(n & [_ Hn]%list_elem_of_filter & <-)]; [by left|right; by exists n].
  - intros [?|(n & Hn & <-)]; [by left|]. destruct (existsb (same_pair n) dest) eqn:E.
    + apply existsb_exists in E as (d & Hd & E). apply list_elem_of_In in Hd. apply same_pair_spec in E. left. by exists d.
    + right. exists n. split; [by apply list_elem_of_filter|done].
Qed.
Lemma missing_spec m : missing_writer m = negb (bool_decide (set_map (D := gset Z) fst (pair_set (readers m)) ⊆ set_map (D := gset Z) fst (pair_set (writers m)))).
Proof.
  apply Bool.eq_iff_eq_true. rewrite negb_true_iff, bool_decide_eq_false. unfold missing_writer. rewrite existsb_exists. split.
  - intros (r & Hr & E) Hsub. apply negb_true_iff in E. apply list_elem_of_In in Hr. assert (writer_hostgroup_id r ∈ set_map (D := gset Z) fst (pair_set (writers m))) as Hw.
    { apply Hsub. apply elem_of_map. exists (node_pair r). split; [done|]. apply elem_of_pair_set. by exists r. }
    apply elem_of_map in Hw as (p & E1 & (w & Hw & <-)%elem_of_pair_set). assert (existsb (λ w, writer_hostgroup_id r =? writer_hostgroup_id w) (writers m) = true) as E2; [|congruence].
    apply existsb_exists. exists w. split; [by apply list_elem_of_In|]. apply Z.eqb_eq. exact E1.
  - intros Hsub. destruct (existsb (λ r, negb (existsb (λ w, writer_hostgroup_id r =? writer_hostgroup_id w) (writers m))) (readers m)) eqn:E; [by apply existsb_exists in E|]. destruct Hsub. intros x (p & -> & (r & Hr & <-)%elem_of_pair_set)%elem_of_map.
    assert (negb (existsb (λ w, writer_hostgroup_id r =? writer_hostgroup_id w) (writers m)) = false) as E2.
    { destruct (negb _) eqn:E2; [|done]. rewrite (proj2 (existsb_exists _ _)) in E; [done|]. exists r. split; [by apply list_elem_of_In|done]. }
    apply negb_false_iff, existsb_exists in E2 as (w & Hw & E3%Z.eqb_eq). apply elem_of_map. exists (node_pair w). split; [exact E3|]. apply elem_of_pair_set. exists w. split; [by apply list_elem_of_In|done].
Qed.

Section Settle.
Context (k : bool) (repl : list (Z * Z)) (is_distinct : distinct repl) (new : HGM → Z) (new_fresh : ∀ h, servers h !! new h = None) (v : variables).
Lemma copy_nodes_ok dest src h M id m : dest ≠ src → Inv k h → accurate repl h (<[id := m]> M) →
  ∃ h' m', copy_if_not_exists new dest src h m = Ok (h', m') ∧ Inv k h' ∧ accurate repl h' (<[id := m']> M) ∧ get src m' = get src m ∧ readonly_flag m' = readonly_flag m ∧ pair_set (get dest m') = pair_set (get dest m) ∪ pair_set (get src m).
Proof using is_distinct new_fresh.
  intros Hds HI Hex. unfold copy_if_not_exists. rewrite bool_decide_false by done. set (app := filter _ _).
  destruct (append_ok k repl is_distinct new new_fresh M id dest src app Hds h m HI Hex) as (h' & m' & -> & HI' & Hex' & Es & Ef & Ep).
  { intros n [_ Hn]%list_elem_of_filter. apply (Hex id src n). by rewrite nodes_insert, decide_True. }
  exists h', m'. split; [done|]. split; [done|]. split; [done|]. split; [done|]. split; [done|]. rewrite <- pair_set_copied. unfold pair_set at 1. rewrite Ep, list_to_set_app_L. done.
Qed.
Lemma to_writer_ok h M id m : Inv k h → accurate repl h (<[id := m]> M) →
  ∃ h' m', to_writer new v h m = Ok (h', m') ∧ Inv k h' ∧ accurate repl h' (<[id := m']> M) ∧
    roles_of m' = (pair_set (writers m) ∪ pair_set (readers m), if monitor_writer_is_also_reader v then pair_set (readers m) else ∅, readonly_flag m).
Proof using is_distinct new_fresh.
  intros HI Hex. unfold to_writer. destruct (copy_nodes_ok WRITER READER h M id m) as (h1 & m1 & -> & HI1 & Hex1 & Es & Ef & Ep); [done..|]. cbn [mbind outcome_bind]. cbn [get] in Es, Ep. unfold roles_of, pair_set in *.
  destruct (monitor_writer_is_also_reader v); [exists h1, m1; by rewrite Ep, Es, Ef|]. destruct (clear_nodes_ok k repl is_distinct M id READER h1 m1 HI1 Hex1) as (h2 & -> & HI2 & Hex2). eexists _, _. split; [done|]. split; [done|]. split; [done|]. cbn. by rewrite Ep, Ef.
Qed.
Lemma act_ok ro h M id m : ro = 0 ∨ ro = 1 → Inv k h → accurate repl h (<[id := m]> M) →
  ∃ h' m' u, act new v ro h m = Ok (h', m', u) ∧ Inv k h' ∧ accurate repl h' (<[id := m']> M) ∧ roles_of m' = settle (monitor_writer_is_also_reader v) ro (roles_of m).
Proof using is_distinct new_fresh.
  intros Hro HI Hex. unfold act, settle, roles_of at 2. fold (pair_set (writers m)) (pair_set (readers m)). rewrite (bool_decide_ext _ _ (pair_set_empty (writers m))).
  destruct (to_writer_ok h M id m HI Hex) as (hw & mw & Ew & HIw & Hexw & Erw). destruct Hro as [-> | ->]; cbn [Z.eqb].
  - destruct (bool_decide (writers m = [])); cbn [negb]; [rewrite Ew; cbn [mbind outcome_bind]; by eexists _, _, _|]. destruct (readonly_flag m =? 0); cbn [negb]; [by eexists _, _, _|]. rewrite missing_spec.
    destruct (bool_decide (_ ⊆ _)); cbn [negb]; [|rewrite Ew; cbn [mbind outcome_bind]; by eexists _, _, _]. eexists _, _, _. split; [done|]. split; [done|]. split; [|done]. intros id' t n. rewrite nodes_insert. specialize (Hex id' t n). rewrite nodes_insert in Hex. by destruct t.
  - change (1 =? 0) with false. cbn iota. destruct (bool_decide (writers m = [])); cbn [negb]; [by eexists _, _, _|].
    destruct (copy_nodes_ok READER WRITER h M id m) as (h1 & m1 & -> & HI1 & Hex1 & Es & Ef & Ep); [done..|]. cbn [mbind outcome_bind]. destruct (clear_nodes_ok k repl is_distinct M id WRITER h1 m1 HI1 Hex1) as (h2 & -> & HI2 & Hex2). cbn [mbind outcome_bind].
    eexists _, _, _. split; [done|]. split; [done|]. split; [done|]. cbn [get] in *. unfold roles_of, pair_set in *. cbn. by rewrite Ep, Ef.
Qed.
Lemma act_all_ok l : readable l → ∀ h M u, Inv k h → accurate repl h M →
  ∃ h' M' u', act_all new v l h M u = Ok (h', M', u') ∧ Inv k h' ∧ accurate repl h' M' ∧ ∀ id, roles_of <$> M' !! id = settle_all (monitor_writer_is_also_reader v) l id <$> (roles_of <$> M !! id).
Proof using is_distinct new_fresh.
  intros Hl. induction Hl as [|r l Hr Hl IH]; intros h M u HI Hex; cbn [act_all]; [exists h, M, u; split; [done|]; split; [done|]; split; [done|]; intros id; by destruct (M !! id)|].
  set (id := srv_id (ros_hostname r) (ros_port r)). destruct (M !! id) as [m|] eqn:Em.
  - destruct (act_ok (ros_readonly r) h M id m Hr HI) as (h1 & m1 & u1 & -> & HI1 & Hex1 & E1); [by rewrite insert_id|]. cbn [mbind outcome_bind]. destruct (IH h1 (<[id := m1]> M) (u || u1) HI1 Hex1) as (h' & M' & u' & -> & HI' & Hex' & E').
    exists h', M', u'. split; [done|]. split; [done|]. split; [done|]. intros id'. rewrite E'. unfold settle_all at 2. cbn [foldl]. fold id. case_bool_decide as Ei; [subst id'; rewrite lookup_insert_eq, Em; cbn; by rewrite E1|by rewrite lookup_insert_ne].
  - destruct (IH h M u HI Hex) as (h' & M' & u' & -> & HI' & Hex' & E'). exists h', M', u'. split; [done|]. split; [done|]. split; [done|]. intros id'. rewrite E'. unfold settle_all at 2. cbn [foldl]. fold id. case_bool_decide as Ei; [subst id'; by rewrite Em|done].
Qed.
Lemma action_ok l h M : readable l → Inv k h → accurate repl h M →
  ∃ h' M', read_only_action_v2 new v l h M = Ok (h', M') ∧ Inv k h' ∧ accurate repl h' M' ∧ ∀ id, roles_of <$> M' !! id = settle_all (monitor_writer_is_also_reader v) l id <$> (roles_of <$> M !! id).
Proof using is_distinct new_fresh.
  intros Hl HI Hex. unfold read_only_action_v2. destruct (act_all_ok l Hl h M false HI Hex) as (h1 & M1 & u & -> & HI1 & Hex1 & E1). cbn [mbind outcome_bind]. destruct u; [|by exists h1, M1].
  destruct (purge_servers_spec k h1 HI1) as (h2 & Ep & HI2 & _); rewrite Ep. cbn [mbind outcome_bind]. exists h2, M1. split; [done|]. split; [done|]. split; [|done]. apply (accurate_views repl h1); [|done].
  intros q i x. symmetry. by apply (purged_views k h1 h2).
Qed.
End Settle.

(** ** The rows of the tables *)
Lemma elem_of_add_row M r id t n : n ∈ nodes (add_row M r) id t ↔ n ∈ nodes M id t ∨ (row_id r = id ∧ row_type r = t ∧ row_node r = n).
Proof.
  unfold add_row, add_node. rewrite nodes_insert, get_put. case_decide as Ei; [subst id|naive_solver].
  assert (∀ t, get t (default new_mapping (M !! row_id r)) = nodes M (row_id r) t) as Hd by (intros t'; unfold nodes; destruct (M !! row_id r); [done|by destruct t']).
  rewrite !Hd. case_decide as Et; [subst t|naive_solver]. rewrite elem_of_app, list_elem_of_singleton. naive_solver.
Qed.
Lemma rows_mapped rows id t n : ∀ M, n ∈ nodes (foldl add_row M rows) id t ↔ n ∈ nodes M id t ∨ ∃ r, r ∈ rows ∧ row_id r = id ∧ row_type r = t ∧ row_node r = n.
Proof.
  induction rows as [|r rows IH]; intros M; cbn [foldl].
  - split; [by left|]. intros [?|(r & Hr & _)]; [done|]. by apply elem_of_nil in Hr.
  - rewrite IH, elem_of_add_row. setoid_rewrite elem_of_cons. naive_solver.
Qed.
(** The rows list exactly the servers of the hostgroups of the pairs. *)
Definition rows_exact (repl : list (Z * Z)) (h : HGM) (rows : list mapping_row) : Prop :=
  ∀ id t n, (∃ r, r ∈ rows ∧ row_id r = id ∧ row_type r = t ∧ row_node r = n) ↔ node_pair n ∈ repl ∧ view h (srv n) = Some (id, get_hostgroup_id t n, true).
Lemma rebuilt_accurate repl h rows : rows_exact repl h rows → accurate repl h (foldl add_row ∅ rows).
Proof. intros H id t n. rewrite rows_mapped, <- (H id t n). unfold nodes. rewrite lookup_empty, elem_of_nil. naive_solver. Qed.

(** ** The servers end where the reports say *)
(** C5: When a round of reports is handled nothing dangles, the hostgroups stay well
    formed, the nodes that are kept are again exactly the servers of the hostgroups of
    the pairs, whether they were built again from the tables or not, and every endpoint
    has the roles that its reports give, one after another. *)
Theorem read_only_moves k repl new v saved current rows l h M0 :
  Inv k h → distinct repl → (∀ h, servers h !! new h = None) → readable l →
  (if bool_decide (saved = current) then accurate repl h M0 else rows_exact repl h rows) →
  let M := (update_hostgroup_manager_mappings saved current rows M0).1 in
  ∃ h' M', read_only_action_v2 new v l h M = Ok (h', M') ∧ Inv k h' ∧ accurate repl h' M' ∧
    ∀ id, roles_of <$> M' !! id = settle_all (monitor_writer_is_also_reader v) l id <$> (roles_of <$> M !! id).
Proof.
  intros HI Hd Hnew Hl Hrows M. apply (action_ok k repl Hd new Hnew v l h M Hl HI). unfold M, update_hostgroup_manager_mappings. case_bool_decide as E.
  - subst. by rewrite !Z.eqb_refl.
  - assert ((negb (saved.1 =? current.1) || negb (saved.2 =? current.2)) = true) as ->; [|by apply rebuilt_accurate].
    apply not_false_is_true. rewrite orb_false_iff, !negb_false_iff, !Z.eqb_eq. intros [E1 E2]. apply E. by apply injective_projections.
Qed.

Lemma settle_all_app b l1 l2 id x : settle_all b (l1 ++ l2) id x = settle_all b l2 id (settle_all b l1 id x).
Proof. apply foldl_app. Qed.
Lemma settle_all_silent b l id x : Forall (λ r, srv_id (ros_hostname r) (ros_port r) ≠ id) l → settle_all b l id x = x.
Proof. unfold settle_all. induction 1 as [|r l Hr _ IH]; [done|]. cbn [foldl]. by rewrite bool_decide_false. Qed.
Lemma settle_no_writers b x : (settle b 1 x).1.1 = ∅.
Proof. destruct x as [[W R] f]. unfold settle. cbn. by case_bool_decide. Qed.

(** C6: No server of an endpoint whose last report said that it is read only is left in
    a writer hostgroup, so that no query for a writer is sent to it. *)
Theorem read_only_not_written k repl new v l1 r l2 h M :
  Inv k h → distinct repl → (∀ h, servers h !! new h = None) → readable (l1 ++ r :: l2) → accurate repl h M →
  ros_readonly r = 1 → Forall (λ r', srv_id (ros_hostname r') (ros_port r') ≠ srv_id (ros_hostname r) (ros_port r)) l2 →
  ∃ h' M', read_only_action_v2 new v (l1 ++ r :: l2) h M = Ok (h', M') ∧
    ∀ w x p s, (w, x) ∈ repl → servers h' !! p = Some s → srv_id (address s) (port s) = srv_id (ros_hostname r) (ros_port r) →
      (hid <$> (i ← myhgc s; MyHostGroups h' !! i)) = Some w → status s = OFFLINE_HARD.
Proof.
  intros HI Hd Hnew Hl Hacc Hr Hl2. destruct (action_ok k repl Hd new Hnew v _ h M Hl HI Hacc) as (h' & M' & E & HI' & Hacc' & Hroles). exists h', M'. split; [done|].
  intros w x p s Hw Hs Hid Hhg. set (id := srv_id (ros_hostname r) (ros_port r)) in *. destruct (decide (status s = OFFLINE_HARD)) as [?|Hlive]; [done|exfalso].
  assert (view h' p = Some (id, w, true)) as Hv.
  { unfold view, live, status_is. rewrite Hs. cbn. destruct (myhgc s) as [i|]; [|done]. cbn in *. rewrite list_lookup_fmap, Hhg. cbn. by rewrite Hid, bool_decide_false. }
  assert (mk_node p x w ∈ nodes M' id WRITER) as Hin by (apply Hacc'; done). specialize (Hroles id). unfold nodes in Hin. destruct (M' !! id) as [m'|]; [|by apply elem_of_nil in Hin].
  destruct (M !! id) as [m|]; [|done]. cbn in Hroles. injection Hroles as Hroles. rewrite settle_all_app in Hroles. unfold settle_all at 1 in Hroles. cbn [foldl] in Hroles.
  fold id in Hroles. rewrite bool_decide_true in Hroles by done. rewrite Hr in Hroles. apply (f_equal (λ x : roles, x.1.1)) in Hroles.
  change (foldl _ ?y l2) with (settle_all (monitor_writer_is_also_reader v) l2 id y) in Hroles. rewrite settle_all_silent in Hroles by done.
  rewrite settle_no_writers in Hroles. apply pair_set_empty in Hroles. cbn [get] in Hin. rewrite Hroles in Hin. by apply elem_of_nil in Hin.
Qed.

(** ** Witnesses *)
(** A check for the rows: they name servers of the pairs, and each such server is named. *)
Definition row_ok (repl : list (Z * Z)) (h : HGM) (r : mapping_row) : bool :=
  bool_decide (node_pair (row_node r) ∈ repl) && bool_decide (view h (srv (row_node r)) = Some (row_id r, get_hostgroup_id (row_type r) (row_node r), true)).
Definition row_of (rows : list mapping_row) (id : list Z) (t : Type_) (n : Node) : bool :=
  existsb (λ r, bool_decide (row_id r = id) && bool_decide (row_type r = t) && bool_decide (row_node r = n)) rows.
Definition listed (repl : list (Z * Z)) (h : HGM) (rows : list mapping_row) (p : Z) : bool :=
  match view h p with
  | Some (id, x, true) => forallb (λ y : Z * Z, forallb (λ t, let n := mk_node p y.2 y.1 in negb (get_hostgroup_id t n =? x) || row_of rows id t n) [WRITER; READER]) repl
  | _ => true
  end.
Definition check_rows (repl : list (Z * Z)) (h : HGM) (rows : list mapping_row) : bool :=
  forallb (row_ok repl h) rows && forallb (listed repl h rows) (map_to_list (servers h)).*1.
Lemma check_rows_exact repl h rows : check_rows repl h rows = true → rows_exact repl h rows.
Proof.
  intros [Hok Hall]%andb_prop id t n. rewrite forallb_forall in Hok. rewrite forallb_forall in Hall. split.
  - intros (r & Hr & <- & <- & <-). apply list_elem_of_In in Hr. apply Hok in Hr. apply andb_prop in Hr as [H1%bool_decide_eq_true H2%bool_decide_eq_true]. done.
  - intros [Hn Hv]. destruct (view_inv _ _ _ _ _ Hv) as (s & _ & Hs & _). assert (listed repl h rows (srv n) = true) as Hl.
    { apply Hall, list_elem_of_In, list_elem_of_fmap. exists (srv n, s). split; [done|]. by apply elem_of_map_to_list. }
    unfold listed in Hl. rewrite Hv in Hl. rewrite forallb_forall in Hl. apply list_elem_of_In in Hn. specialize (Hl _ Hn). cbn in Hl.
    rewrite <- (node_eta n), !andb_true_iff in Hl. assert (row_of rows id t n = true) as Hr by (destruct t; cbn in Hl; rewrite Z.eqb_refl in Hl; by destruct Hl as (? & ? & _)).
    apply existsb_exists in Hr as (r & Hr & [[H1%bool_decide_eq_true H2%bool_decide_eq_true]%andb_prop H3%bool_decide_eq_true]%andb_prop). exists r. split; [by apply list_elem_of_In|done].
Qed.
Definition demo_rows : list mapping_row :=
  [mk_row (str "db1") (str "3306") (Some (str "1")) (str "0") (str "20") (str "10") (str "1"); mk_row (str "db1") (str "3306") (Some (str "0")) (str "0") (str "20") (str "10") (str "3");
   mk_row (str "db2") (str "3306") (Some (str "1")) (str "0") (str "20") (str "10") (str "2")].
Definition demo_reports : list read_only_server_t := [mk_ros (str "db2") 3306 1; mk_ros (str "db1") 3306 0; mk_ros (str "db9") 3306 1].
Definition demo_new (h : HGM) : Z := fresh (dom (servers h)).
Lemma demo_new_fresh h : servers h !! demo_new h = None.
Proof. apply not_elem_of_dom. unfold demo_new. apply (is_fresh (dom (servers h))). Qed.
Lemma demo_readable : readable demo_reports.
Proof. unfold readable, demo_reports. rewrite !Forall_cons, Forall_nil. cbn. auto 10. Qed.
Lemma demo_distinct : distinct [(10, 20)].
Proof. by apply (bool_decide_unpack _). Qed.
Lemma read_only_moves_witness :
  ∃ h' M', read_only_action_v2 demo_new demo_variables demo_reports demo_state (foldl add_row ∅ demo_rows) = Ok (h', M') ∧ accurate [(10, 20)] h' M' ∧
    roles_of <$> M' !! str "db2:::3306" = Some (∅, {[ (10, 20) ]}, 1) ∧ roles_of <$> M' !! str "db1:::3306" = Some ({[ (10, 20) ]}, {[ (10, 20) ]}, 0).
Proof.
  destruct (read_only_moves true [(10, 20)] demo_new demo_variables (0, 0) (1, 1) demo_rows demo_reports demo_state ∅) as (h' & M' & E & _ & Ha & Hr).
  - split; [apply demo_wf|intros _; apply demo_wf].
  - exact demo_distinct.
  - exact demo_new_fresh.
  - exact demo_readable.
  - rewrite bool_decide_false by done. apply check_rows_exact. vm_compute. reflexivity.
  - exists h', M'. split; [exact E|]. split; [exact Ha|]. rewrite !Hr. split; vm_compute; reflexivity.
Defined.
Lemma read_only_not_written_witness :
  ∃ h' M', read_only_action_v2 demo_new demo_variables demo_reports demo_state (foldl add_row ∅ demo_rows) = Ok (h', M') ∧
    ∀ p s, servers h' !! p = Some s → srv_id (address s) (port s) = str "db2:::3306" → (hid <$> (i ← myhgc s; MyHostGroups h' !! i)) = Some 10 → status s = OFFLINE_HARD.
Proof.
  destruct (read_only_not_written true [(10, 20)] demo_new demo_variables [] (mk_ros (str "db2") 3306 1) (tail demo_reports) demo_state (foldl add_row ∅ demo_rows)) as (h' & M' & E & H).
  - split; [apply demo_wf|intros _; apply demo_wf].
  - exact demo_distinct.
  - exact demo_new_fresh.
  - exact demo_readable.
  - apply rebuilt_accurate, check_rows_exact. vm_compute. reflexivity.
  - reflexivity.
  - by apply (bool_decide_unpack _).
  - exists h', M'. split; [exact E|]. intros p s Hs Hid. apply (H 10 20 p s); [left|exact Hs|]. rewrite Hid. vm_compute. reflexivity.
Defined.
