(* ===== verification/Tokenizer.v ===== *)
(** * The string tokenizer (lib/c_tokenizer.cpp)

    [tokenizer] copies the string, [tokenize] returns the next field between
    delimiters.  The state is what is left of the copy, [None] when there is
    nothing left.  The development uses the tokenizer the way the program does,
    in the mode that ignores empty fields. *)
From S2P Require Import Prelude StringUtils.

Definition is_delim (d : list Z) (c : Z) : bool := bool_decide (c ∈ d).

(** An empty string is not even copied. *)
Definition tokenizer (s : list Z) : option (list Z) := if bool_decide (s = []) then None else Some s.

(** [strpbrk] finds the end of the field, [strspn] the start of the next one. *)
Fixpoint tokenize (is_ignore_empties : bool) (d : list Z) (fuel : nat) (next : option (list Z))
  : outcome (option (list Z) * option (list Z)) :=
  match next with
  | None => Ok (None, None)
  | Some s =>
      let '(current, rest) := span (λ c, negb (is_delim d c)) s in
      match rest with
      | _ :: rest =>
          let next := if is_ignore_empties then drop_while (is_delim d) rest else rest in
          if is_ignore_empties && bool_decide (current = []) then
            match fuel with O => Fault Diverges | S fuel' => tokenize is_ignore_empties d fuel' (Some next) end
          else Ok (Some current, Some next)
      | [] => if is_ignore_empties && bool_decide (current = []) then Ok (None, None) else Ok (Some current, None)
      end
  end.

(** It calls itself at most once: the fields that follow do not start with a delimiter. *)
Definition next_token (d : list Z) (t : option (list Z)) : outcome (option (list Z) * option (list Z)) := tokenize true d 1 t.

(** [for (token = tokenize(&tok); token; token = tokenize(&tok))] *)
Fixpoint tokens_loop (d : list Z) (fuel : nat) (t : option (list Z)) : outcome (list (list Z)) :=
  '(token, t) ← next_token d t;
  match token with
  | None => Ok []
  | Some w => match fuel with O => Fault Diverges | S fuel' => ws ← tokens_loop d fuel' t; Ok (w :: ws) end
  end.
Definition tokens (d s : list Z) : outcome (list (list Z)) := tokens_loop d (length s) (tokenizer s).

(** [c_split_2]: the first two fields, empty when they are missing. *)
Definition c_split_2 (s d : list Z) : outcome (list Z * list Z) :=
  ws ← tokens d s; Ok (default [] (ws !! 0%nat), default [] (ws !! 1%nat)).

(** ** The fields of a string *)
Fixpoint split (d s : list Z) : list (list Z) :=
  match s with
  | [] => [[]]
  | c :: s' =>
      if is_delim d c then [] :: split d s'
      else match split d s' with w :: ws => (c :: w) :: ws | [] => [[c]] end
  end.
Definition fields (d s : list Z) : list (list Z) := filter (λ w, w ≠ []) (split d s).

Lemma split_app d a b : Forall (λ c, is_delim d c = false) a →
  split d (a ++ b) = match split d b with w :: ws => (a ++ w) :: ws | [] => [a] end.
Proof.
  induction a as [|c a IH]; intros H; [cbn; by destruct b as [|? ?]; cbn; [|destruct (is_delim _ _), (split d b)]|].
  inversion H; subst. cbn [app split]. rewrite IH by done. rewrite H2. by destruct (split d b).
Qed.
Lemma split_nonempty d s : split d s ≠ [].
Proof. destruct s as [|c s]; [done|]. cbn. destruct (is_delim d c); [done|]. by destruct (split d s). Qed.

Lemma fields_nil d : fields d [] = [].
Proof. done. Qed.
Lemma fields_delim d c s : is_delim d c = true → fields d (c :: s) = fields d s.
Proof. intros H. unfold fields. cbn [split]. rewrite H. by rewrite filter_cons_False by (intros []; done). Qed.
Lemma fields_drop d s : fields d (drop_while (is_delim d) s) = fields d s.
Proof.
  induction s as [|c s IH]; [done|]. cbn [drop_while]. destruct (is_delim d c) eqn:E; [|done]. by rewrite IH, fields_delim.
Qed.

Lemma fields_word d w s : w ≠ [] → Forall (λ c, is_delim d c = false) w → (s = [] ∨ ∃ c s', s = c :: s' ∧ is_delim d c = true) →
  fields d (w ++ s) = w :: fields d s.
Proof.
  intros Hne Hw Hs. unfold fields. rewrite split_app by done. destruct Hs as [->|(c & s' & -> & Hc)].
  - cbn [split]. rewrite app_nil_r. by rewrite filter_cons_True.
  - cbn [split]. rewrite Hc, app_nil_r, filter_cons_True by done. done.
Qed.

(** A string is a word followed by nothing or a delimiter. *)
Lemma span_word d s cur rest : span (λ c, negb (is_delim d c)) s = (cur, rest) →
  s = cur ++ rest ∧ Forall (λ c, is_delim d c = false) cur ∧ (rest = [] ∨ ∃ c r, rest = c :: r ∧ is_delim d c = true).
Proof.
  revert cur rest. induction s as [|c s IH]; intros cur rest; cbn [span]; [intros [= <- <-]; split; [done|]; split; [constructor | by left]|].
  destruct (is_delim d c) eqn:E; cbn [negb].
  - intros [= <- <-]. split; [done|]. split; [constructor|]. right. by exists c, s.
  - destruct (span _ s) as [a b]. intros [= <- <-]. destruct (IH a b eq_refl) as (-> & Hf & Hr). split; [done|]. split; [by constructor | done].
Qed.

(** What is left after a call: the rest of the fields. *)
Definition left_of (d : list Z) (t : option (list Z)) : list (list Z) := match t with Some s => fields d s | None => [] end.
Definition size_of (t : option (list Z)) : nat := match t with Some s => length s | None => 0 end.

Lemma drop_while_length p (s : list Z) : (length (drop_while p s) ≤ length s)%nat.
Proof. induction s as [|c s IH]; [done|]. cbn. destruct (p c); cbn; lia. Qed.

Lemma tokenize_clean d fuel s : (∀ c r, s = c :: r → is_delim d c = false) →
  ∃ t, tokenize true d fuel (Some s) = Ok (head (fields d s), t) ∧ left_of d t = tail (fields d s) ∧ (s ≠ [] → (size_of t < length s)%nat).
Proof.
  intros Hc. destruct fuel; cbn [tokenize]; destruct (span _ s) as [cur rest] eqn:E; apply span_word in E as (-> & Hw & Hr);
    (destruct (decide (cur = [])) as [->|Hne];
     [destruct Hr as [->|(c & r & -> & Hd)]; [exists None; split; [done|]; split; [done|]; done | by rewrite (Hc c r eq_refl) in Hd]|]);
    (rewrite fields_word by done; destruct Hr as [->|(c & r & -> & Hd)];
     [rewrite (bool_decide_false (cur = [])) by done; exists None; split; [done|]; split; [done|]; intros _; rewrite app_nil_r; by destruct cur; [|cbn; lia]
     |rewrite (bool_decide_false (cur = [])) by done; eexists; split; [done|]; split; [cbn [left_of tail]; by rewrite fields_drop, fields_delim|];
      intros _; cbn; rewrite length_app; cbn; pose proof (drop_while_length (is_delim d) r); lia]).
Qed.

Lemma tokenize_delim d fuel c s : is_delim d c = true →
  tokenize true d (S fuel) (Some (c :: s)) = tokenize true d fuel (Some (drop_while (is_delim d) s)).
Proof. intros H. cbn [tokenize span]. by rewrite H. Qed.

Lemma next_token_spec d t : ∃ t', next_token d t = Ok (head (left_of d t), t') ∧ left_of d t' = tail (left_of d t) ∧
  (head (left_of d t) ≠ None → (size_of t' < size_of t)%nat).
Proof.
  destruct t as [s|]; [|exists None; done]. unfold next_token. destruct s as [|c s]; [exists None; done|]. cbn [left_of].
  destruct (is_delim d c) eqn:Ec.
  - rewrite tokenize_delim by done.
    destruct (tokenize_clean d 0 (drop_while (is_delim d) s)) as (t & E & Hl & Hs); [intros a r; apply drop_while_head|].
    exists t. rewrite E, Hl, fields_drop, fields_delim by done.
    split; [done|]. split; [done|]. intros Hh. cbn [size_of length]. pose proof (drop_while_length (is_delim d) s).
    destruct (decide (drop_while (is_delim d) s = [])) as [En|Hn]; [|specialize (Hs Hn); lia].
    exfalso. apply Hh. rewrite <- fields_drop, En. done.
  - destruct (tokenize_clean d 1 (c :: s)) as (t & E & Hl & Hs); [intros a r [= <- <-]; done|]. exists t. rewrite E. split; [done|].
    split; [done|]. intros _. by apply Hs.
Qed.

Lemma tokens_loop_spec d fuel t : (size_of t ≤ fuel)%nat → tokens_loop d fuel t = Ok (left_of d t).
Proof.
  revert t. induction fuel as [|fuel IH]; intros t Hf; cbn [tokens_loop]; destruct (next_token_spec d t) as (t' & -> & Hl & Hs);
    cbn [mbind outcome_bind]; destruct (left_of d t) as [|w ws] eqn:E; try done.
  - specialize (Hs ltac:(done)). lia.
  - specialize (Hs ltac:(done)). cbn [head]. rewrite IH by lia. by rewrite Hl.
Qed.

(** The loop ends and visits exactly the non-empty fields, in order. *)
Theorem tokens_spec d s : tokens d s = Ok (fields d s).
Proof.
  unfold tokens, tokenizer. case_bool_decide as E; [by subst|]. by rewrite tokens_loop_spec.
Qed.

(** ** Joining and splitting *)
Lemma fields_join d c ws : is_delim d c = true → Forall (λ w, w ≠ [] ∧ Forall (λ x, is_delim d x = false) w) ws →
  fields d (join [c] ws) = ws.
Proof.
  intros Hc. induction ws as [|w ws IH]; intros Hw; [done|]. inversion Hw as [|? ? [Hne Hf] Hw']; subst. destruct ws as [|w' ws].
  - cbn [join]. rewrite <- (app_nil_r w) at 1. rewrite fields_word; [done|done|done|by left].
  - change (join [c] (w :: w' :: ws)) with (w ++ [c] ++ join [c] (w' :: ws)). rewrite fields_word; [|done|done|right; by eexists _, _].
    cbn [app]. rewrite fields_delim, IH; done.
Qed.
