(* ===== verification/ProxyProto.v ===== *)
(** * The PROXY protocol (lib/proxy_protocol_info.cpp)

    The header that a load balancer sends in front of a connection, and the list
    of networks whose clients may send one.  [inet_pton] is an argument. *)
From S2P Require Import Prelude StringUtils CNumbers Tokenizer.

Definition INET6_ADDRSTRLEN : Z := 46.

(** ** The header *)
Record ProxyProtocolInfo := mk_info {
  source_address : list Z; destination_address : list Z; proxy_address : list Z;
  source_port : Z; destination_port : Z; proxy_port : Z
}.
Definition new_info : ProxyProtocolInfo := mk_info [] [] [] 0 0 0.

(** [%s]: blanks are skipped; the word and what follows it. *)
Definition scan_s (s : list Z) : option (list Z * list Z) :=
  match span (λ c, negb (isspace c)) (drop_while isspace s) with
  | ([], _) => None
  | (w, rest) => Some (w, rest)
  end.
(** [%s] into an array of [INET6_ADDRSTRLEN+1] bytes, the terminator included. *)
Definition scan_address (s : list Z) : outcome (option (list Z * list Z)) :=
  match scan_s s with
  | None => Ok None
  | Some (w, rest) => if INET6_ADDRSTRLEN <? Z.of_nat (length w) then Fault OutOfBounds else Ok (Some (w, rest))
  end.
(** The result of [sscanf(s, "PROXY %*s %s %s %hu %hu\r\n", ...)] when it is 4. *)
Definition scan_header (s : list Z) : outcome (option (list Z * list Z * Z * Z)) :=
  if negb (bool_decide (take 5 s = str "PROXY")) then Ok None
  else
    match scan_s (drop 5 s) with
    | None => Ok None
    | Some (_, s) =>
        src ← scan_address s;
        match src with
        | None => Ok None
        | Some (src, s) =>
            dst ← scan_address s;
            match dst with
            | None => Ok None
            | Some (dst, s) =>
                match scan_lu s with
                | None => Ok None
                | Some (sp, s) =>
                    match scan_lu s with
                    | None => Ok None
                    | Some (dp, _) => Ok (Some (src, dst, u16 sp, u16 dp))
                    end
                end
            end
        end
    end.
(** What the members hold after a failure does not matter to the callers. *)
Definition parseProxyProtocolHeader (packet : list Z) (this : ProxyProtocolInfo) : outcome (option ProxyProtocolInfo) :=
  let temp_buffer := packet ++ [0] in
  if Z.of_nat (length packet) <? 15 then Ok None
  else if negb (bool_decide (take 5 temp_buffer = str "PROXY")) then Ok None
  else if negb (bool_decide (take 1 (drop 5 temp_buffer) = str " ")) then Ok None
  else if bool_decide (take 4 (drop 6 temp_buffer) = str "TCP4") || bool_decide (take 4 (drop 6 temp_buffer) = str "TCP6")
          || bool_decide (take 7 (drop 6 temp_buffer) = str "UNKNOWN") then
    r ← scan_header (cstr temp_buffer);
    Ok (match r with
        | Some (src, dst, sp, dp) => Some (mk_info src dst (proxy_address this) sp dp (proxy_port this))
        | None => None
        end)
  else Ok None.

(** ** Networks *)
Inductive family := AF_INET | AF_INET6.
#[export] Instance family_eq_dec : EqDecision family.
Proof. solve_decision. Defined.
(** A socket address: its family, if it is one of the two, and its bytes. *)
Record sockaddr := mk_sockaddr { sa_family : option family; sa_bytes : list Z }.

(** [sscanf(s, "%[^/]/%hhu", addr_str, &mask)] when it is 2, [addr_str] having
    [INET6_ADDRSTRLEN] bytes. *)
Definition scan_subnet (s : list Z) : outcome (option (list Z * Z)) :=
  match span (λ c, negb (c =? 47)) s with
  | ([], _) => Ok None
  | (a, rest) =>
      if INET6_ADDRSTRLEN <=? Z.of_nat (length a) then Fault OutOfBounds
      else
        match rest with
        | _ :: rest => Ok (match scan_lu rest with Some (m, _) => Some (a, u8 m) | None => None end)
        | [] => Ok None
        end
  end.

Fixpoint be_value (l : list Z) : Z := match l with [] => 0 | b :: l' => b * 256 ^ Z.of_nat (length l') + be_value l' end.
Fixpoint be_bytes (n : nat) (v : Z) : list Z := match n with O => [] | S n' => u8 (Z.shiftr v (8 * Z.of_nat n')) :: be_bytes n' v end.

(** [ntohl] and [htonl] convert between the bytes and the number. *)
Definition network_v4 (subnet_addr : list Z) (mask : Z) : outcome (list Z) :=
  if (32 - mask <? 0) || (32 <=? 32 - mask) then Fault BadShift
  else Ok (be_bytes 4 (Z.land (be_value subnet_addr) (u32 (Z.shiftl 4294967295 (32 - mask)))) ++ replicate 12 0).
Fixpoint network_v6 (addr : list Z) (bits_left : Z) : list Z :=
  match addr with
  | [] => []
  | a :: addr' =>
      if 8 <=? bits_left then a :: network_v6 addr' (bits_left - 8)
      else if 0 <? bits_left then Z.land a (Z.shiftl 255 (8 - bits_left)) :: network_v6 addr' 0
      else 0 :: network_v6 addr' bits_left
  end.
(** The comparison of two arrays of 16 bytes under the mask. *)
Definition same_network (network_addr client_addr_int : list Z) (mask : Z) : outcome bool :=
  let bytes_to_compare := mask / 8 in
  let remaining_bits := mask mod 8 in
  a ← slice network_addr 0 bytes_to_compare;
  b ← slice client_addr_int 0 bytes_to_compare;
  if negb (bool_decide (a = b)) then Ok false
  else if 0 <? remaining_bits then
    let mask_byte := u8 (Z.shiftl 255 (8 - remaining_bits)) in
    x ← read_at network_addr bytes_to_compare;
    y ← read_at client_addr_int bytes_to_compare;
    Ok (Z.land x mask_byte =? Z.land y mask_byte)
  else Ok true.

Section Networks.
(** The bytes of the address that a text stands for. *)
Context (inet_pton : family → list Z → option (list Z)).

Definition is_in_network (client_addr : sockaddr) (subnet_mask : list Z) : outcome bool :=
  match sa_family client_addr with
  | None => Ok false
  | Some f =>
      r ← scan_subnet subnet_mask;
      match r with
      | None => Ok false
      | Some (addr_str, mask) =>
          match inet_pton f addr_str with
          | None => Ok false
          | Some subnet_addr =>
              network_addr ← match f with AF_INET => network_v4 subnet_addr mask | AF_INET6 => Ok (network_v6 subnet_addr mask) end;
              same_network network_addr (sa_bytes client_addr ++ replicate (16 - length (sa_bytes client_addr)) 0) mask
          end
      end
  end.
(** [strtok] gives the non-empty fields. *)
Fixpoint any_subnet (client_addr : sockaddr) (ts : list (list Z)) : outcome bool :=
  match ts with
  | [] => Ok false
  | token :: ts' => b ← is_in_network client_addr token; if b : bool then Ok true else any_subnet client_addr ts'
  end.
Definition is_client_in_any_subnet (client_addr : sockaddr) (subnet_list : list Z) : outcome bool :=
  any_subnet client_addr (fields (str ",") subnet_list).

Definition is_valid_subnet (subnet : list Z) : outcome bool :=
  match subnet with
  | [] => Ok false
  | _ =>
      if bool_decide (strchr 47 subnet = None) then Ok false
      else
        let f := match strchr 58 subnet with Some _ => AF_INET6 | None => AF_INET end in
        r ← scan_subnet subnet;
        Ok (match r with
            | None => false
            | Some (addr_str, mask) =>
                if (mask <? 0) || (128 <? mask) then false else bool_decide (is_Some (inet_pton f addr_str))
            end)
  end.
Fixpoint all_valid (ts : list (list Z)) : outcome bool :=
  match ts with
  | [] => Ok true
  | token :: ts' => b ← is_valid_subnet token; if b : bool then all_valid ts' else Ok false
  end.
Definition is_valid_subnet_list (subnet_list : option (list Z)) : outcome bool :=
  match subnet_list with
  | None | Some [] => Ok false
  | Some l => all_valid (fields (str ",") l)
  end.
End Networks.

(** ** Bits *)
(** The bits of an address, the most significant first. *)
Definition bit (l : list Z) (i : nat) : bool := Z.testbit (default 0 (l !! (i / 8)%nat)) (7 - Z.of_nat (i mod 8)).
Definition is_addr (l : list Z) : Prop := Forall (λ b, 0 <= b < 256) l.

Lemma byte_testbit_high x j : 0 <= x < 256 → 8 <= j → Z.testbit x j = false.
Proof.
  intros Hx Hj. destruct (Z.eq_dec x 0) as [->|Hn]; [apply Z.bits_0|].
  apply Z.bits_above_log2; [lia|]. assert (Z.log2 x < 8); [|lia]. apply Z.log2_lt_pow2; lia.
Qed.
Lemma byte_ext x y : 0 <= x < 256 → 0 <= y < 256 → (∀ j, 0 <= j < 8 → Z.testbit x j = Z.testbit y j) → x = y.
Proof.
  intros Hx Hy H. apply Z.bits_inj'. intros j Hj. destruct (decide (j < 8)); [by apply H|]. by rewrite !byte_testbit_high by lia.
Qed.
Lemma bit_cons_low b l i : (i < 8)%nat → bit (b :: l) i = Z.testbit b (7 - Z.of_nat i).
Proof. intros Hi. unfold bit. by rewrite Nat.div_small, Nat.mod_small by lia. Qed.
Lemma bit_cons_high b l i : bit (b :: l) (8 + i) = bit l i.
Proof.
  unfold bit. replace (8 + i)%nat with (i + 1 * 8)%nat by lia. rewrite Nat.div_add, Nat.Div0.mod_add, Nat.add_1_r by lia. done.
Qed.
Lemma bytes_eq_bits l l' : is_addr l → is_addr l' → length l = length l' →
  (l = l' ↔ ∀ i, (i < 8 * length l)%nat → bit l i = bit l' i).
Proof.
  intros Hl. revert l'. induction Hl as [|b l Hb Hl IH]; intros [|b' l'] Hl' Hlen; [split; [done|]; done|done|done|]. inversion Hl' as [|? ? Hb' Hl'']; subst. cbn [length] in *.
  split; [by intros ->|]. intros H. f_equal.
  - apply byte_ext; [done..|]. intros j Hj. specialize (H (Z.to_nat (7 - j)) ltac:(lia)). rewrite !bit_cons_low in H by lia.
    by replace (7 - Z.of_nat (Z.to_nat (7 - j))) with j in H by lia.
  - apply IH; [done|lia|]. intros i Hi. specialize (H (8 + i)%nat ltac:(lia)). by rewrite !bit_cons_high in H.
Qed.
Lemma bit_take l k i : (i < 8 * k)%nat → bit (take k l) i = bit l i.
Proof. intros Hi. unfold bit. rewrite lookup_take_lt; [done|]. apply Nat.Div0.div_lt_upper_bound. lia. Qed.
Lemma mask_byte r j : 0 < r < 8 → 0 <= j < 8 → Z.testbit (u8 (Z.shiftl 255 (8 - r))) j = (8 - r <=? j).
Proof.
  intros Hr Hj. assert (r = 1 ∨ r = 2 ∨ r = 3 ∨ r = 4 ∨ r = 5 ∨ r = 6 ∨ r = 7) as Hc by lia.
  assert (j = 0 ∨ j = 1 ∨ j = 2 ∨ j = 3 ∨ j = 4 ∨ j = 5 ∨ j = 6 ∨ j = 7) as Hd by lia.
  by destruct_or! Hc; destruct_or! Hd; subst.
Qed.

Lemma same_network_spec n c mask : is_addr n → is_addr c → length n = 16%nat → length c = 16%nat → 0 <= mask <= 128 →
  ∃ b, same_network n c mask = Ok b ∧ (b = true ↔ ∀ i, Z.of_nat i < mask → bit n i = bit c i).
Proof.
  intros Hn Hc Ln Lc Hm. unfold same_network. set (k := mask / 8). set (r := mask mod 8).
  assert (mask = 8 * k + r) as Hmk by (apply Z.div_mod; lia). assert (0 <= r < 8) as Hr by (apply Z.mod_pos_bound; lia).
  rewrite !slice_ok by lia. cbn [mbind outcome_bind]. rewrite !drop_0. set (kk := Z.to_nat k).
  assert (take kk n = take kk c ↔ ∀ i, (i < 8 * kk)%nat → bit n i = bit c i) as Htake.
  { rewrite bytes_eq_bits by (rewrite ?length_take; try apply Forall_take; try done; lia). rewrite length_take, Ln, Nat.min_l by lia.
    split; intros H i Hi; specialize (H i Hi); by rewrite ?bit_take in * by done. }
  case_bool_decide as Ht; cbn [negb].
  2: { exists false. split; [done|]. split; [done|]. intros H. contradict Ht. apply Htake. intros i Hi. apply H. lia. }
  apply proj1 in Htake as Hlow. specialize (Hlow Ht). destruct (Z.ltb_spec 0 r) as [Hr0|Hr0].
  2: { exists true. split; [done|]. split; [|done]. intros _ i Hi. apply Hlow. lia. }
  destruct (read_at_ok n k) as (x & -> & Hx); [lia|]. cbn [mbind outcome_bind]. destruct (read_at_ok c k) as (y & -> & Hy); [lia|]. cbn [mbind outcome_bind].
  eexists. split; [done|]. rewrite Z.eqb_eq. fold kk in Hx, Hy.
  pose proof (Forall_lookup_1 _ _ _ _ Hn Hx) as Bx. pose proof (Forall_lookup_1 _ _ _ _ Hc Hy) as By. cbn in Bx, By.
  assert (∀ l v i, l !! kk = Some v → (i < 8)%nat → bit l (8 * kk + i) = Z.testbit v (7 - Z.of_nat i)) as Hbit.
  { intros l v i Hv Hi. unfold bit. rewrite (Nat.mul_comm 8), Nat.add_comm. rewrite Nat.div_add, Nat.Div0.mod_add by lia.
    by rewrite Nat.div_small, Nat.mod_small, Nat.add_0_l, Hv by lia. }
  split.
  - intros E i Hi. destruct (decide (i < 8 * kk)%nat) as [Hlt|Hge]; [by apply Hlow|].
    replace i with (8 * kk + (i - 8 * kk))%nat by lia. rewrite (Hbit _ _ _ Hx), (Hbit _ _ _ Hy) by lia. set (j := 7 - _).
    apply (f_equal (λ z, Z.testbit z j)) in E. rewrite !Z.land_spec, mask_byte, (proj2 (Z.leb_le _ _)), !andb_true_r in E by lia. done.
  - intros H. apply Z.bits_inj'. intros j Hj. rewrite !Z.land_spec. destruct (decide (j < 8)) as [Hj8|]; [|by rewrite (byte_testbit_high x), (byte_testbit_high y) by lia].
    rewrite mask_byte by lia. destruct (Z.leb_spec (8 - r) j); [|by rewrite !andb_false_r]. f_equal.
    specialize (H (8 * kk + Z.to_nat (7 - j))%nat ltac:(lia)). rewrite (Hbit _ _ _ Hx), (Hbit _ _ _ Hy) in H by lia.
    by replace (7 - Z.of_nat (Z.to_nat (7 - j))) with j in H by lia.
Qed.

Lemma be_value_range l : is_addr l → 0 <= be_value l < 2 ^ (8 * Z.of_nat (length l)).
Proof.
  induction 1 as [|b l Hb Hl IH]; [done|]. cbn [be_value length]. replace (256 ^ Z.of_nat (length l)) with (2 ^ (8 * Z.of_nat (length l))) by (by rewrite Z.pow_mul_r by lia).
  replace (8 * Z.of_nat (S (length l))) with (8 + 8 * Z.of_nat (length l)) by lia. rewrite Z.pow_add_r by lia. change (2 ^ 8) with 256. nia.
Qed.
Lemma be_value_bit l i : is_addr l → (i < 8 * length l)%nat → Z.testbit (be_value l) (8 * Z.of_nat (length l) - 1 - Z.of_nat i) = bit l i.
Proof.
  intros Hl. revert i. induction Hl as [|b l Hb Hl IH]; intros i Hi; [cbn in Hi; lia|]. cbn [length] in *.
  pose proof (be_value_range l Hl) as HW. cbn [be_value]. replace (256 ^ Z.of_nat (length l)) with (2 ^ (8 * Z.of_nat (length l))) by (by rewrite Z.pow_mul_r by lia).
  set (L := 8 * Z.of_nat (length l)) in *. destruct (decide (i < 8)%nat) as [H8|H8].
  - rewrite bit_cons_low by done. replace (8 * Z.of_nat (S (length l)) - 1 - Z.of_nat i) with (7 - Z.of_nat i + L) by lia.
    rewrite <- Z.div_pow2_bits by lia. rewrite Z.div_add_l by lia. by rewrite Z.div_small, Z.add_0_r by lia.
  - destruct (Nat.le_exists_sub 8 i ltac:(lia)) as (i' & -> & _). rewrite (Nat.add_comm i'), bit_cons_high, <- IH by lia.
    rewrite <- (Z.mod_pow2_bits_low _ L) by lia. rewrite Z.add_comm, Z.mod_add, Z.mod_small by lia. f_equal. lia.
Qed.
Lemma be_bytes_length n v : length (be_bytes n v) = n.
Proof. induction n as [|n IH]; cbn; [done|by rewrite IH]. Qed.
Lemma be_bytes_addr n v : is_addr (be_bytes n v).
Proof. induction n as [|n IH]; cbn; constructor; [apply u8_range|done]. Qed.
Lemma be_bytes_bit n v i : (i < 8 * n)%nat → bit (be_bytes n v) i = Z.testbit v (8 * Z.of_nat n - 1 - Z.of_nat i).
Proof.
  revert i. induction n as [|n IH]; intros i Hi; [lia|]. cbn [be_bytes]. destruct (decide (i < 8)%nat) as [H8|H8].
  - rewrite bit_cons_low by done. unfold u8. rewrite Z.mod_pow2_bits_low, Z.shiftr_spec by lia. f_equal. lia.
  - destruct (Nat.le_exists_sub 8 i ltac:(lia)) as (i' & -> & _). rewrite (Nat.add_comm i'), bit_cons_high, IH by lia. f_equal. lia.
Qed.
Lemma bit_app_l l l' i : (i < 8 * length l)%nat → bit (l ++ l') i = bit l i.
Proof. intros Hi. unfold bit. rewrite lookup_app_l; [done|]. apply Nat.Div0.div_lt_upper_bound. lia. Qed.

Lemma network_v4_spec net mask : is_addr net → length net = 4%nat → 1 <= mask <= 32 →
  ∃ n, network_v4 net mask = Ok n ∧ is_addr n ∧ length n = 16%nat ∧ ∀ i, Z.of_nat i < mask → bit n i = bit net i.
Proof.
  intros Hn Ln Hm. unfold network_v4. rewrite (proj2 (Z.ltb_ge _ _)), (proj2 (Z.leb_gt _ _)) by lia. cbn [orb]. eexists. split; [done|].
  split; [apply Forall_app; split; [apply be_bytes_addr|]; by apply Forall_replicate|]. split; [rewrite length_app, be_bytes_length; done|].
  intros i Hi. rewrite bit_app_l by (rewrite be_bytes_length; lia). rewrite be_bytes_bit, Z.land_spec by lia. rewrite <- (be_value_bit net i) by (done || lia).
  rewrite Ln. set (j := 8 * Z.of_nat 4 - 1 - Z.of_nat i). unfold u32. rewrite Z.mod_pow2_bits_low, Z.shiftl_spec by lia.
  change 4294967295 with (Z.ones 32). by rewrite Z.ones_spec_low, andb_true_r by lia.
Qed.
Lemma network_v6_spec net mask : is_addr net → 0 <= mask →
  is_addr (network_v6 net mask) ∧ length (network_v6 net mask) = length net ∧ ∀ i, Z.of_nat i < mask → bit (network_v6 net mask) i = bit net i.
Proof.
  intros Hn. revert mask. induction Hn as [|a net Ha Hn IH]; intros mask Hm; [by split; [constructor|]|]. cbn [network_v6].
  destruct (Z.leb_spec 8 mask) as [H8|H8]; [|destruct (Z.ltb_spec 0 mask) as [H0|H0]].
  - destruct (IH (mask - 8)) as (IH1 & IH2 & IH3); [lia|]. split; [by constructor|]. split; [cbn; by rewrite IH2|]. intros i Hi.
    destruct (decide (i < 8)%nat); [by rewrite !bit_cons_low|]. destruct (Nat.le_exists_sub 8 i ltac:(lia)) as (i' & -> & _).
    rewrite (Nat.add_comm i'), !bit_cons_high. apply IH3. lia.
  - destruct (IH 0) as (IH1 & IH2 & _); [done|]. split.
    { constructor; [|done]. assert (0 <= Z.land a (Z.shiftl 255 (8 - mask))) by (apply Z.land_nonneg; lia).
      split; [done|]. destruct (Z.eq_dec (Z.land a (Z.shiftl 255 (8 - mask))) 0) as [->|Hne]; [done|].
      apply Z.log2_lt_pow2 with (b := 8); [lia|]. pose proof (Z.log2_land a (Z.shiftl 255 (8 - mask)) ltac:(lia) ltac:(apply Z.shiftl_nonneg; lia)) as Hlog.
      assert (Z.log2 a < 8); [|lia]. destruct (Z.eq_dec a 0) as [->|]; [done|]. apply Z.log2_lt_pow2; lia. }
    split; [cbn; by rewrite IH2|]. intros i Hi. rewrite !bit_cons_low, Z.land_spec, Z.shiftl_spec by lia. change 255 with (Z.ones 8).
    by rewrite Z.ones_spec_low, andb_true_r by lia.
  - destruct (IH mask) as (IH1 & IH2 & _); [done|]. split; [by constructor|]. split; [cbn; by rewrite IH2|]. lia.
Qed.

(** ** Membership *)
Definition addr_len (f : family) : nat := match f with AF_INET => 4 | AF_INET6 => 16 end.
(** The textual form of a network, and what [inet_pton] can be given. *)
Definition subnet_text (e : list Z * Z) : list Z := e.1 ++ 47 :: dec e.2.
Definition plain_addr (s : list Z) : Prop := s ≠ [] ∧ (47 ∉ s) ∧ (44 ∉ s) ∧ Z.of_nat (length s) < INET6_ADDRSTRLEN.

Lemma scan_subnet_text e : plain_addr e.1 → 0 <= e.2 < 256 → scan_subnet (subnet_text e) = Ok (Some e).
Proof.
  destruct e as [s m]. cbn [fst snd]. intros (Hne & Hs & _ & Hl) Hm. unfold scan_subnet, subnet_text. cbn [fst snd].
  rewrite span_app; [|apply Forall_forall; intros c Hc; apply negb_true_iff, Z.eqb_neq; intros ->; done|by intros ? [= <-]].
  destruct s as [|c s]; [done|]. rewrite (proj2 (Z.leb_gt _ _)) by lia. rewrite <- (app_nil_r (dec m)), scan_lu_dec by (done || lia).
  unfold u8. by rewrite Z.mod_small.
Qed.

Section Membership.
Context (inet_pton : family → list Z → option (list Z)).
(** [inet_pton] gives as many bytes as an address of the family has. *)
Context (pton_addr : ∀ f s a, inet_pton f s = Some a → is_addr a ∧ length a = addr_len f).

(** The client's address has the first bits of the network's. *)
Definition in_network (client : sockaddr) (e : list Z * Z) : Prop :=
  ∃ f net, (sa_family client = Some f) ∧ inet_pton f e.1 = Some net ∧ ∀ i, Z.of_nat i < e.2 → bit (sa_bytes client) i = bit net i.
Definition client_ok (client : sockaddr) : Prop :=
  ∀ f, sa_family client = Some f → is_addr (sa_bytes client) ∧ length (sa_bytes client) = addr_len f.
(** Masks within the width of the client's family. *)
Definition mask_ok (client : sockaddr) (e : list Z * Z) : Prop :=
  match sa_family client with Some f => is_Some (inet_pton f e.1) → 1 <= e.2 <= 8 * Z.of_nat (addr_len f) | None => True end.

Lemma is_in_network_spec client e : client_ok client → plain_addr e.1 → 0 <= e.2 < 256 → mask_ok client e →
  ∃ b, is_in_network inet_pton client (subnet_text e) = Ok b ∧ (b = true ↔ in_network client e).
Proof using pton_addr.
  intros Hc He Hm Hmask. unfold is_in_network, in_network, mask_ok in *. destruct (sa_family client) as [f|] eqn:Ef.
  2: { exists false. split; [done|]. split; [done|]. by intros (f & net & ? & _). }
  rewrite scan_subnet_text by done. destruct e as [s m]. cbn [mbind outcome_bind fst snd] in *. destruct (inet_pton f s) as [net|] eqn:En.
  2: { exists false. split; [done|]. split; [done|]. intros (f' & net & [= <-] & ? & _). congruence. }
  destruct (pton_addr _ _ _ En) as [Hn Ln]. destruct (Hc f Ef) as [Hca Lc]. specialize (Hmask ltac:(done)).
  set (c16 := sa_bytes client ++ replicate (16 - length (sa_bytes client)) 0).
  assert (∃ n16, match f with AF_INET => network_v4 net m | AF_INET6 => Ok (network_v6 net m) end = Ok n16 ∧ is_addr n16 ∧ length n16 = 16%nat ∧
    ∀ i, Z.of_nat i < m → bit n16 i = bit net i) as (n16 & -> & Hn16 & Ln16 & Hbits).
  { destruct f; cbn in *; [by apply network_v4_spec; [done|done|lia]|]. destruct (network_v6_spec net m) as (? & ? & ?); [done|lia|]. eexists. split; [done|]. split; [done|]. split; [lia|done]. }
  cbn [mbind outcome_bind].
  destruct (same_network_spec n16 c16 m) as (b & -> & Hb); [done|apply Forall_app; split; [done|by apply Forall_replicate]|done| | |].
  { unfold c16. rewrite length_app, length_replicate. destruct f; cbn in *; lia. }
  { destruct f; cbn in *; lia. }
  exists b. split; [done|]. rewrite Hb.
  assert (∀ i, Z.of_nat i < m → bit c16 i = bit (sa_bytes client) i) as Hc16 by (intros i Hi; apply bit_app_l; rewrite Lc; lia). split.
  - intros H. exists f, net. split; [done|]. split; [done|]. intros i Hi. by rewrite <- Hc16, <- H, Hbits.
  - intros (f' & net' & [= <-] & Hnet & H) i Hi. rewrite En in Hnet. injection Hnet as <-. by rewrite Hbits, Hc16, H.
Qed.
Lemma any_subnet_spec client es : client_ok client → Forall (λ e, plain_addr e.1 ∧ 0 <= e.2 < 256 ∧ mask_ok client e) es →
  ∃ b, any_subnet inet_pton client (subnet_text <$> es) = Ok b ∧ (b = true ↔ Exists (in_network client) es).
Proof using pton_addr.
  intros Hc. induction 1 as [|e es (He & Hm & Hk) Hes IH]; [exists false; split; [done|]; by rewrite Exists_nil|].
  cbn [fmap list_fmap any_subnet]. destruct (is_in_network_spec client e Hc He Hm Hk) as (b & -> & Hb). cbn [mbind outcome_bind]. destruct b.
  - exists true. split; [done|]. rewrite Exists_cons. split; [intros _; left; by apply Hb|done].
  - destruct IH as (b & -> & IH). exists b. split; [done|]. rewrite Exists_cons, IH. split; [by right|]. intros [H|H]; [|done]. by apply Hb in H.
Qed.

(** C28: A client may send a PROXY header exactly when its address is in one of
    the networks: for a list of networks in CIDR notation, of both families and
    in any order, the check says yes if and only if the first bits of the
    client's address, as many as the mask says, are those of a network of its
    family.  The masks of the networks of its family have to be at least 1 and at
    most the width of its addresses; [bad_masks_accepted] is about others. *)
Theorem subnets_exact client es : client_ok client → Forall (λ e, plain_addr e.1 ∧ 0 <= e.2 < 256 ∧ mask_ok client e) es →
  ∃ b, is_client_in_any_subnet inet_pton client (join [44] (subnet_text <$> es)) = Ok b ∧ (b = true ↔ Exists (in_network client) es).
Proof using pton_addr.
  intros Hc Hes. unfold is_client_in_any_subnet. rewrite (fields_join (str ",") 44); [by apply any_subnet_spec|done|].
  rewrite Forall_fmap. apply (Forall_impl _ _ _ Hes). intros [s m] ((Hne & _ & Hs & _) & _). cbn in *. split; [by destruct s|].
  unfold subnet_text. cbn. apply Forall_app. split.
  - apply Forall_forall. intros c Hin. apply bool_decide_false. intros ->%list_elem_of_singleton. done.
  - constructor; [done|]. apply (Forall_impl _ _ _ (dec_isdigit m)). intros c Hd%isdigit_range. apply bool_decide_false. rewrite list_elem_of_singleton. unfold chr. cbn. lia.
Qed.
End Membership.

(** A concrete [inet_pton] for one textual address. *)
Definition one_address (f : family) (s : list Z) : option (list Z) :=
  if bool_decide (f = AF_INET ∧ s = str "192.168.1.0") then Some [192; 168; 1; 0] else None.
Lemma subnets_exact_witness :
  ∃ b, is_client_in_any_subnet one_address (mk_sockaddr (Some AF_INET) [192; 168; 1; 10]) (join [44] (subnet_text <$> [(str "192.168.1.0", 24)])) = Ok b ∧
    (b = true ↔ Exists (in_network one_address (mk_sockaddr (Some AF_INET) [192; 168; 1; 10])) [(str "192.168.1.0", 24)]).
Proof.
  apply subnets_exact.
  - intros f s a. unfold one_address. case_bool_decide as E; [|done]. intros [= <-]. destruct E as [-> _]. split; [apply (bool_decide_unpack (Forall (λ b, 0 <= b < 256) _)); vm_compute; exact I|done].
  - intros f [= <-]. split; [apply (bool_decide_unpack (Forall (λ b, 0 <= b < 256) _)); vm_compute; exact I|done].
  - constructor; [|constructor]. split; [split; [done|]; split; [by apply (bool_decide_unpack _)|]; split; [by apply (bool_decide_unpack _)|done]|]. split; [done|].
    intros _. done.
Defined.
Example subnets_ex :
  is_client_in_any_subnet one_address (mk_sockaddr (Some AF_INET) [192; 168; 1; 10]) (str "2001:db8::/32,192.168.1.0/24") = Ok true ∧
  is_client_in_any_subnet one_address (mk_sockaddr (Some AF_INET) [192; 168; 2; 10]) (str "192.168.1.0/24") = Ok false.
Proof. by vm_compute. Qed.
(** A mask of 0, or one that is valid for the other family only, is accepted by
    the check of the list and shifts by 32 or by a negative number. *)
Example bad_masks_accepted :
  is_valid_subnet_list one_address (Some (str "192.168.1.0/0,192.168.1.0/64")) = Ok true ∧
  is_client_in_any_subnet one_address (mk_sockaddr (Some AF_INET) [10; 0; 0; 1]) (str "192.168.1.0/0") = Fault BadShift ∧
  is_client_in_any_subnet one_address (mk_sockaddr (Some AF_INET) [10; 0; 0; 1]) (str "192.168.1.0/64") = Fault BadShift.
Proof. by vm_compute. Qed.

(** ** Headers *)
Definition is_word (w : list Z) : Prop := w ≠ [] ∧ Forall (λ c, isspace c = false ∧ c ≠ 0) w.
Definition header_text (proto src dst : list Z) (sp dp : Z) : list Z :=
  str "PROXY" ++ 32 :: proto ++ 32 :: src ++ 32 :: dst ++ 32 :: dec sp ++ 32 :: dec dp ++ [13; 10].

Lemma scan_s_word w s : is_word w → (∀ c, head s = Some c → isspace c = true) → scan_s (32 :: w ++ s) = Some (w, s).
Proof.
  intros [Hne Hw] Hs. unfold scan_s. destruct w as [|c w]; [done|]. cbn [drop_while app]. change (isspace 32) with true. cbn [drop_while].
  pose proof (Forall_inv Hw) as [Hc _]. cbn in Hc. rewrite Hc. change (c :: w ++ s) with ((c :: w) ++ s).
  rewrite span_app; [done| |intros d Hd; by rewrite (Hs d Hd)]. apply (Forall_impl _ _ _ Hw). by intros d [-> _].
Qed.

Lemma scan_address_word w s : is_word w → (∀ c, head s = Some c → isspace c = true) → Z.of_nat (length w) <= INET6_ADDRSTRLEN →
  scan_address (32 :: w ++ s) = Ok (Some (w, s)).
Proof. intros Hw Hs Hl. unfold scan_address. rewrite scan_s_word by done. by rewrite (proj2 (Z.ltb_ge _ _)). Qed.
Lemma scan_lu_word n s : 0 <= n < 65536 → (∀ c, head s = Some c → isspace c = true) → scan_lu (32 :: dec n ++ s) = Some (n, s).
Proof.
  intros Hn Hs. transitivity (scan_lu (dec n ++ s)); [done|]. apply scan_lu_dec; [lia|]. intros c Hc%Hs.
  unfold isspace in Hc. unfold isdigit. destruct (Z.leb_spec 48 c), (Z.leb_spec c 57); try done. zbool. lia.
Qed.
Lemma scan_header_text proto src dst sp dp : is_word proto → is_word src → is_word dst →
  Z.of_nat (length src) <= INET6_ADDRSTRLEN → Z.of_nat (length dst) <= INET6_ADDRSTRLEN → 0 <= sp < 65536 → 0 <= dp < 65536 →
  scan_header (header_text proto src dst sp dp) = Ok (Some (src, dst, sp, dp)).
Proof.
  intros Hp Hs Hd Ls Ld Hsp Hdp. unfold scan_header, header_text. rewrite take_app_length' by done. rewrite bool_decide_true by done.
  cbn [negb]. rewrite drop_app_length' by done.
  rewrite scan_s_word by (done || by intros c [= <-]). rewrite scan_address_word by (done || by intros c [= <-]). cbn [mbind outcome_bind].
  rewrite scan_address_word by (done || by intros c [= <-]). cbn [mbind outcome_bind]. rewrite scan_lu_word by (done || by intros c [= <-]).
  rewrite scan_lu_word by (done || by intros c [= <-]). unfold u16. by rewrite !Z.mod_small.
Qed.
Lemma header_cstr proto src dst sp dp : is_word proto → is_word src → is_word dst →
  cstr (header_text proto src dst sp dp ++ [0]) = header_text proto src dst sp dp.
Proof.
  intros Hp Hs Hd. apply cstr_app. unfold header_text, no_nul.
  assert (∀ w, is_word w → Forall (λ c, c ≠ 0) w) as Hw by (intros w [_ H]; apply (Forall_impl _ _ _ H); by intros ? [_ ?]).
  assert (∀ n, Forall (λ c, c ≠ 0) (dec n)) as Hn by (intros n; apply (Forall_impl _ _ _ (dec_isdigit n)); intros c ?%isdigit_range; lia).
  repeat (first [apply Forall_app; split|apply Forall_cons; split]); auto.
Qed.

(** The PROXY header that a load balancer writes is read back: for a
    protocol that is TCP4 or TCP6, addresses that are words of at most 46 bytes
    and 16-bit ports, parsing the header gives its fields and keeps the members
    that are set elsewhere. *)
Theorem header_read_back proto src dst sp dp this : proto = str "TCP4" ∨ proto = str "TCP6" → is_word src → is_word dst →
  Z.of_nat (length src) <= INET6_ADDRSTRLEN → Z.of_nat (length dst) <= INET6_ADDRSTRLEN → 0 <= sp < 65536 → 0 <= dp < 65536 →
  parseProxyProtocolHeader (header_text proto src dst sp dp) this =
    Ok (Some (mk_info src dst (proxy_address this) sp dp (proxy_port this))).
Proof.
  intros Hp Hs Hd Ls Ld Hsp Hdp.
  assert (is_word proto) as Hproto by (destruct Hp as [-> | ->]; split; try done; repeat constructor; done).
  unfold parseProxyProtocolHeader. rewrite header_cstr, scan_header_text by done. cbn [mbind outcome_bind].
  rewrite (proj2 (Z.ltb_ge _ _)).
  2: { unfold header_text. repeat (rewrite length_app || cbn [length]). destruct Hp as [-> | ->]; cbn; lia. }
  destruct Hp as [-> | ->]; reflexivity.
Qed.
Lemma header_read_back_witness :
  parseProxyProtocolHeader (header_text (str "TCP4") (str "10.0.0.1") (str "10.0.0.2") 56324 6033) new_info =
    Ok (Some (mk_info (str "10.0.0.1") (str "10.0.0.2") [] 56324 6033 0)).
Proof.
  apply (header_read_back (str "TCP4") (str "10.0.0.1") (str "10.0.0.2") 56324 6033 new_info); try done; try (by left);
    (split; [done|]; repeat constructor; done).
Defined.
(** An address of more than 46 bytes overflows the array it is scanned into. *)
Example long_address_overflows :
  parseProxyProtocolHeader (header_text (str "TCP6") (replicate 47 65) (str "::1") 1 2) new_info = Fault OutOfBounds.
Proof. by vm_compute. Qed.
