(* ===== verification/DataStream.v ===== *)
(** * Data streams (lib/mysql_data_stream.cpp)

    The input and output queues of a connection, the packets that are cut out of
    the bytes that arrive, with or without compression, and the packets that are
    written out.  The socket's answers are arguments, and so are malloc and zlib;
    TLS is left out. *)
From S2P Require Import Prelude StringUtils Tokenizer ProxyProto.

(** ** Queues *)
Record queue := mk_queue {
  buffer : list Z; size : Z; head : Z; tail : Z; partial : Z;
  pkt_ptr : option (list Z);     (* the packet under way: an allocation of [pkt_size] bytes *)
  pkt_size : Z
}.
#[export] Instance queue_eta : Eta queue := λ q,
  mk_queue (buffer q) (size q) (head q) (tail q) (partial q) (pkt_ptr q) (pkt_size q).
Definition QUEUE_T_DEFAULT_SIZE : Z := 32768.
Definition queue_init (malloc : Z → list Z) (s : Z) : queue := mk_queue (malloc s) s 0 0 0 None 0.
Definition queue_available (q : queue) : Z := size q - head q.
Definition queue_data (q : queue) : Z := head q - tail q.
(** The copy is a [memcpy], modelled as one that reads everything before it
    writes; the two regions can overlap (see [queue_zero_overlaps]). *)
Definition queue_zero (q : queue) : outcome queue :=
  b ← if tail q =? 0 then Ok (buffer q)
      else x ← slice (buffer q) (tail q) (head q - tail q); blit (buffer q) 0 x;
  Ok (mk_queue b (size q) (head q - tail q) 0 (partial q) (pkt_ptr q) (pkt_size q)).
Definition queue_r (n : Z) (q : queue) : queue :=
  let t := tail q + n in
  if t =? head q then (q <| head := 0 |>) <| tail := 0 |> else q <| tail := t |>.
Definition queue_w (n : Z) (q : queue) : queue := q <| head := head q + n |>.
(** The bytes that are read from and written to a queue. *)
Definition peek (q : queue) (n : Z) : outcome (list Z) := slice (buffer q) (tail q) n.
Definition put (bs : list Z) (q : queue) : outcome queue := b ← blit (buffer q) (head q) bs; Ok (q <| buffer := b |>).

(** [mysql_hdr]: the length of the payload and the sequence number. *)
Definition hdr_length (h : list Z) : Z := le_value (take 3 h).
Definition hdr_id (h : list Z) : Z := default 0 (h !! 3%nat).
Definition header (len id : Z) : list Z := le_bytes 3 len ++ le_bytes 1 id.

(** ** Streams *)
(** An entry of [PSarrayIN]: the size of the allocation and the bytes in it. *)
Record block := mk_block { cap : Z; bytes_of : list Z }.
Record stream := mk_stream {
  queueIN : queue; queueOUT : queue; pkts_recv : Z; pkts_sent : Z;
  PSarrayIN : list block; PSarrayOUT : list (list Z);
  CompPktIN : list Z; CompPktIN_size : Z; CompPktIN_partial : Z;
  pkt_sid : Z; compression : bool; compression_pkt_id : Z;
  active : bool; unhealthy : bool; session_fast_forward : bool; mirror : bool;
  client_auth_ok : bool;         (* DSS==STATE_CLIENT_AUTH_OK *)
  client_compress : bool;        (* CLIENT_COMPRESS in server_capabilities *)
  compression_min_length : Z;
  addr : option (list Z); addr_port : Z; client_addr : option sockaddr; PROXY_info : option ProxyProtocolInfo
}.
#[export] Instance stream_eta : Eta stream := λ s,
  mk_stream (queueIN s) (queueOUT s) (pkts_recv s) (pkts_sent s) (PSarrayIN s) (PSarrayOUT s) (CompPktIN s) (CompPktIN_size s) (CompPktIN_partial s)
    (pkt_sid s) (compression s) (compression_pkt_id s) (active s) (unhealthy s) (session_fast_forward s) (mirror s) (client_auth_ok s)
    (client_compress s) (compression_min_length s) (addr s) (addr_port s) (client_addr s) (PROXY_info s).
Definition shut_soft (s : stream) : stream := s <| active := false |>.
Definition add_in (c : Z) (bs : list Z) (s : stream) : stream := s <| PSarrayIN := PSarrayIN s ++ [mk_block c bs] |>.

(** ** Reading from the socket *)
(** What [recv] returns: some bytes, 0 at the end of the stream, or -1 with
    [errno]. *)
Inductive recv_result := Received (bs : list Z) | Failed (rc errno : Z).
Definition EINTR : Z := 4.
Definition EAGAIN : Z := 11.
Definition rc_of (r : recv_result) : Z := match r with Received bs => Z.of_nat (length bs) | Failed rc _ => rc end.
(** [recv(fd, queue_w_ptr(queueIN)+off, n, 0)]: at most [n] bytes, written where
    the program says. *)
Definition recv_at (off n : Z) (r : recv_result) (q : queue) : outcome queue :=
  match r with
  | Received bs => if n <? Z.of_nat (length bs) then Fault OutOfBounds else b ← blit (buffer q) (head q + off) bs; Ok (q <| buffer := b |>)
  | Failed _ _ => Ok q
  end.
(** The two calls of [recv] for the first packet: [r1] answers the first one,
    [r2] the second. *)
Definition recv_first (r1 r2 : recv_result) (q : queue) : outcome (Z * recv_result * queue) :=
  q ← recv_at 0 4 r1 q;
  if rc_of r1 =? 4 then
    h ← slice (buffer q) 0 4;
    q ← recv_at 4 (hdr_length h) r2 q;
    Ok (4 + rc_of r2, r2, q)
  else Ok (rc_of r1, r1, q).
Definition retry (r : recv_result) : bool :=
  match r with Failed rc errno => (rc =? -1) && ((errno =? EINTR) || (errno =? EAGAIN)) | Received _ => false end.
(** [read_from_net] on a connection without TLS; [pollin] and [pollhup] are the
    bits of [revents]. *)
Definition read_from_net (pollin pollhup : bool) (r1 r2 : recv_result) (s : stream) : outcome (Z * stream) :=
  if pollhup && negb pollin then Ok (-1, shut_soft s)
  else if negb pollin then Ok (0, s)
  else
    '(r, last, q) ← if negb (pkts_recv s =? 0) || negb (partial (queueIN s) =? 0)
                    then q ← recv_at 0 (queue_available (queueIN s)) r1 (queueIN s); Ok (rc_of r1, r1, q)
                    else recv_first r1 r2 (queueIN s);
    let s := s <| queueIN := q |> in
    if r <? 1 then
      let s := if (r =? 0) || ((r =? -1) && negb (retry last)) then shut_soft s else s in
      Ok (r, if pollhup then shut_soft s else s)
    else Ok (r, s <| queueIN := queue_w r q |>).

(** ** Packets out of the queue *)
Definition RESULTSET_BUFLEN_DS_16K : Z := 16000.
Section Input.
Context (malloc : Z → list Z).
(** zlib: [uncompress(dest, &destLen, source)] with the bytes it writes, if it
    succeeds. *)
Context (uncompress : Z → list Z → option (list Z)).
Context (inet_pton : family → list Z → option (list Z)).

(** A block of its own for the bytes that are in the queue. *)
Definition new_block (c : Z) (s : stream) : outcome stream :=
  let n := queue_data (queueIN s) in
  bs ← peek (queueIN s) n;
  Ok (add_in c bs (s <| queueIN := queue_r n (queueIN s) |>)).
(** The branch of [buffer2array] for fast forward. *)
Definition fast_forward (s : stream) : outcome (Z * stream) :=
  let s := if pkts_recv s =? 0 then s <| pkts_recv := 1 |> else s in
  let n := queue_data (queueIN s) in
  s ← if RESULTSET_BUFLEN_DS_16K <=? n then new_block n s
      else
        match last (PSarrayIN s) with
        | None => new_block RESULTSET_BUFLEN_DS_16K s
        | Some b =>
            if RESULTSET_BUFLEN_DS_16K <? Z.of_nat (length (bytes_of b)) + n then new_block RESULTSET_BUFLEN_DS_16K s
            else
              bs ← peek (queueIN s) n;
              if cap b <? Z.of_nat (length (bytes_of b)) + n then Fault OutOfBounds
              else Ok ((s <| PSarrayIN := removelast (PSarrayIN s) ++ [mk_block (cap b) (bytes_of b ++ bs)] |>)
                         <| queueIN := queue_r n (queueIN s) |>)
        end;
  Ok (n, s <| queueIN := (queueIN s) <| pkt_size := 0 |> |>).

(** The header of a packet moves from the queue into the new packet. *)
Definition start_packet (s : stream) : outcome (Z * stream) :=
  h ← peek (queueIN s) 4;
  let n := hdr_length h + 4 in
  p ← blit (malloc n) 0 h;
  let q := queue_r 4 (queueIN s) in
  Ok (4, (s <| pkt_sid := hdr_id h |>) <| queueIN := ((q <| pkt_size := n |>) <| pkt_ptr := Some p |>) <| partial := 4 |> |>).
Definition start_compressed (s : stream) : outcome (Z * stream) :=
  h ← peek (queueIN s) 4;
  let q := queue_r 4 (queueIN s) in
  let n := hdr_length h + 4 + 3 in
  p ← blit (malloc n) 0 h;
  l ← peek q 3;
  p ← blit p 4 l;
  let q := queue_r 3 q in
  Ok (7, ((s <| pkt_sid := hdr_id h |>) <| compression_pkt_id := hdr_id h |>)
           <| queueIN := ((q <| pkt_size := n |>) <| pkt_ptr := Some p |>) <| partial := 7 |> |>).
(** Bytes of the queue move into the packet. *)
Definition fill_packet (s : stream) : outcome (Z * stream) :=
  let q := queueIN s in
  if (0 <? pkt_size q) && negb (queue_data q =? 0) then
    let b := if pkt_size q - partial q <? queue_data q then pkt_size q - partial q else queue_data q in
    bs ← peek q b;
    p ← match pkt_ptr q with Some p => blit p (partial q) bs | None => Fault NullPointer end;
    Ok (b, s <| queueIN := ((queue_r b q) <| pkt_ptr := Some p |>) <| partial := partial q + b |> |>)
  else Ok (0, s).

(** *** PROXY headers *)
(** The loop that looks for CR LF from the 8th byte on: the offset after it. *)
Fixpoint find_delimiter (fuel : nat) (b : list Z) (i h : Z) : outcome (option Z) :=
  match fuel with
  | O => Ok None
  | S fuel' =>
      if i <? h - 1 then
        x ← read_at b i; y ← read_at b (i + 1);
        if (x =? 13) && (y =? 10) then Ok (Some (i + 2)) else find_delimiter fuel' b (i + 1) h
      else Ok None
  end.
Definition accept_proxy (networks : list Z) (s : stream) : outcome bool :=
  if bool_decide (networks = str "*") then Ok true
  else match client_addr s with Some c => is_client_in_any_subnet inet_pton c networks | None => Ok false end.
Definition take_proxy_header (networks : list Z) (b : Z) (s : stream) : outcome (Z * stream) :=
  let s := s <| queueIN := queue_r b (queueIN s) |> in
  accept ← accept_proxy networks s;
  s ← if accept : bool then
        text ← slice (buffer (queueIN s)) 0 b;
        info ← parseProxyProtocolHeader text new_info;
        Ok (match info with
            | Some i =>
                let i := mk_info (source_address i) (destination_address i) (match addr s with Some a => take 46 a | None => [] end)
                           (source_port i) (destination_port i) (addr_port s) in
                ((s <| PROXY_info := Some i |>) <| addr := Some (source_address i) |>) <| addr_port := source_port i |>
            | None => s
            end)
      else Ok s;
  Ok (b, (s <| pkts_recv := pkts_recv s + 1 |>) <| queueIN := ((queueIN s) <| pkt_size := 0 |>) <| pkt_ptr := None |> |>).
Definition is_proxy_header (s : stream) : outcome bool :=
  if (pkts_recv s =? 0) && (tail (queueIN s) =? 0) && (7 <? head (queueIN s)) then
    x ← slice (buffer (queueIN s)) 0 6; Ok (bool_decide (x = str "PROXY "))
  else Ok false.

(** *** Compressed packets *)
(** The packets of an uncompressed payload, from [progress] on. *)
Fixpoint unpack (fuel : nat) (data : list Z) (progress : Z) (s : stream) : outcome stream :=
  match fuel with
  | O => if progress <? Z.of_nat (length data) then Fault Diverges else Ok s
  | S fuel' =>
      let left := Z.of_nat (length data) - progress in
      if 0 <? left then
        if CompPktIN_partial s =? 0 then
          if left <? 4 then Fault AssertFail
          else
            h ← slice data progress 4;
            let n := hdr_length h + 4 in
            if n <=? left then
              bs ← slice data progress n;
              unpack fuel' data (progress + n) (add_in n bs (s <| CompPktIN_size := n |>))
            else
              bs ← slice data progress left;
              p ← blit (malloc n) 0 bs;
              unpack fuel' data (progress + left) (((s <| CompPktIN_size := n |>) <| CompPktIN := p |>) <| CompPktIN_partial := left |>)
        else
          let want := CompPktIN_size s - CompPktIN_partial s in
          if want <=? left then
            bs ← slice data progress want;
            p ← blit (CompPktIN s) (CompPktIN_partial s) bs;
            unpack fuel' data (progress + want) (add_in (CompPktIN_size s) p (s <| CompPktIN_partial := 0 |>))
          else
            bs ← slice data progress left;
            p ← blit (CompPktIN s) (CompPktIN_partial s) bs;
            unpack fuel' data (progress + left) ((s <| CompPktIN := p |>) <| CompPktIN_partial := CompPktIN_partial s + left |>)
      else Ok s
  end.
(** The payload of a compressed packet, or [None] when the stream is shut: an
    allocation of the size that the packet announces, whatever zlib writes.  When
    zlib fails and the bytes look like a small packet they are used as they are,
    followed by what else is in the allocation. *)
Definition payload_of (p : list Z) : outcome (option (list Z)) :=
  l ← slice p 4 3;
  let n := le_value l in
  let data := drop 7 p in
  if n =? 0 then Ok (Some data)
  else
    match uncompress n data with
    | Some bs => dest ← blit (malloc n) 0 bs; Ok (Some dest)
    | None =>
        dest ← blit (malloc n) 0 data;
        u9 ← read_at p 9; u8_ ← (if u9 =? 0 then read_at p 8 else Ok 1);
        u7 ← (if u8_ =? 0 then read_at p 7 else Ok (-1));
        if (u9 =? 0) && (u8_ =? 0) && (Z.of_nat (length data) =? u7) then Ok (Some dest) else Ok None
    end.

(** The packet is complete. *)
Definition end_packet (s : stream) : outcome stream :=
  let q := queueIN s in
  let done_ (s : stream) := (s <| pkts_recv := pkts_recv s + 1 |>) <| queueIN := (q <| pkt_size := 0 |>) <| pkt_ptr := None |> |> in
  if (0 <? pkt_size q) && (pkt_size q =? partial q) then
    match pkt_ptr q with
    | None => Fault NullPointer
    | Some p =>
        if compression s then
          data ← payload_of p;
          match data with
          | None => Ok (shut_soft s)
          | Some data => s ← unpack (S (length data)) data 0 s; Ok (done_ s)
          end
        else Ok (done_ (add_in (pkt_size q) p s))
    end
  else Ok s.

Definition buffer2array (networks : list Z) (s : stream) : outcome (Z * stream) :=
  let n := queue_data (queueIN s) in
  if n =? 0 then Ok (0, s)
  else
    q ← if (pkt_size (queueIN s) =? 0) && (n <? 4) then queue_zero (queueIN s) else Ok (queueIN s);
    let s := s <| queueIN := q |> in
    if session_fast_forward s then fast_forward s
    else if compression s then
      '(r1, s) ← (if (pkt_size (queueIN s) =? 0) && (7 <=? queue_data (queueIN s)) then start_compressed s else Ok (0, s));
      '(r2, s) ← fill_packet s;
      s ← end_packet s; Ok (r1 + r2, s)
    else if (pkt_size (queueIN s) =? 0) && (4 <=? queue_data (queueIN s)) then
      proxy ← is_proxy_header s;
      if proxy : bool then
        d ← find_delimiter (Z.to_nat (head (queueIN s))) (buffer (queueIN s)) 7 (head (queueIN s));
        match d with
        | Some b => take_proxy_header networks b s
        | None => Ok (0, s <| unhealthy := true |>)
        end
      else
        '(r1, s) ← start_packet s;
        '(r2, s) ← fill_packet s;
        s ← end_packet s; Ok (r1 + r2, s)
    else
      '(r2, s) ← fill_packet s;
      s ← end_packet s; Ok (r2, s).
Fixpoint read_pkts_loop (fuel : nat) (networks : list Z) (s : stream) : outcome stream :=
  '(r, s) ← buffer2array networks s;
  if r =? 0 then Ok s else match fuel with O => Fault Diverges | S fuel' => read_pkts_loop fuel' networks s end.
(** Every turn that returns something takes it out of the queue. *)
Definition read_pkts (networks : list Z) (s : stream) : outcome stream := read_pkts_loop (Z.to_nat (queue_data (queueIN s))) networks s.
End Input.

(** ** The bytes in a queue *)
Definition window (q : queue) : list Z := take (Z.to_nat (queue_data q)) (drop (Z.to_nat (tail q)) (buffer q)).
Definition wfq (q : queue) : Prop := Z.of_nat (length (buffer q)) = size q ∧ 0 <= tail q <= head q ∧ head q <= size q.

Lemma window_length q : wfq q → Z.of_nat (length (window q)) = queue_data q.
Proof. intros (Hl & Ht & Hh). unfold window, queue_data. rewrite length_take, length_drop. lia. Qed.
Lemma peek_spec q n : wfq q → 0 <= n <= queue_data q → peek q n = Ok (take (Z.to_nat n) (window q)).
Proof.
  intros (Hl & Ht & Hh) Hn. unfold peek, window, queue_data in *. rewrite slice_ok by lia. f_equal. rewrite take_take. f_equal. lia.
Qed.
Lemma queue_r_spec q n : wfq q → 0 <= n <= queue_data q →
  wfq (queue_r n q) ∧ window (queue_r n q) = drop (Z.to_nat n) (window q) ∧ size (queue_r n q) = size q ∧ queue_data (queue_r n q) = queue_data q - n ∧
  (queue_data (queue_r n q) = 0 → tail (queue_r n q) = 0).
Proof.
  intros (Hl & Ht & Hh) Hn. unfold queue_r, window, queue_data in *. destruct (Z.eqb_spec (tail q + n) (head q)) as [E|E]; cbn.
  - split; [split; [done|cbn; lia]|]. split; [|split; [done|split; lia]]. symmetry. apply drop_ge. rewrite length_take, length_drop. lia.
  - split; [split; [done|cbn; lia]|]. split; [|split; [done|]; split; lia].
    rewrite skipn_firstn_comm, drop_drop. f_equal; [lia|]. f_equal. lia.
Qed.
Lemma queue_r_keeps q n : pkt_ptr (queue_r n q) = pkt_ptr q ∧ pkt_size (queue_r n q) = pkt_size q ∧ partial (queue_r n q) = partial q.
Proof. unfold queue_r. by destruct (_ =? _). Qed.
Lemma put_spec q bs : wfq q → Z.of_nat (length bs) <= queue_available q →
  ∃ b, blit (buffer q) (head q) bs = Ok b ∧ wfq ((q <| buffer := b |>) <| head := head q + Z.of_nat (length bs) |>) ∧
    window ((q <| buffer := b |>) <| head := head q + Z.of_nat (length bs) |>) = window q ++ bs.
Proof.
  intros (Hl & Ht & Hh) Hb. unfold queue_available in Hb. rewrite blit_ok by lia. eexists. split; [done|].
  split; [split; [cbn; rewrite !length_app, length_take, length_drop; lia|cbn; lia]|]. unfold window, queue_data. cbn.
  rewrite drop_app_le by (rewrite length_take; lia).
  set (t := Z.to_nat (tail q)). set (h := Z.to_nat (head q)).
  replace (Z.to_nat (head q + Z.of_nat (length bs) - tail q)) with ((h - t) + length bs)%nat by lia.
  replace (Z.to_nat (head q - tail q)) with (h - t)%nat by lia.
  rewrite skipn_firstn_comm, app_assoc, take_app_le by (rewrite length_app, length_take, length_drop; lia).
  rewrite take_app_ge by (rewrite length_take, length_drop; lia).
  rewrite length_take, length_drop. f_equal. rewrite (take_ge bs) by lia. done.
Qed.

(** ** Packets *)
Definition is_packet (p : list Z) : Prop := (4 <= length p)%nat ∧ Z.of_nat (length p) = hdr_length p + 4.
Definition bytes_ok (l : list Z) : Prop := Forall (λ b, 0 <= b < 256) l.
(** The packets at the start of a string of bytes, and what is left. *)
Fixpoint cut (fuel : nat) (s : list Z) : list (list Z) * list Z :=
  match fuel with
  | O => ([], s)
  | S fuel' =>
      if bool_decide (length s < 4)%nat then ([], s)
      else
        let n := Z.to_nat (hdr_length s + 4) in
        if bool_decide (length s < n)%nat then ([], s)
        else let '(ps, r) := cut fuel' (drop n s) in (take n s :: ps, r)
  end.
Definition packets (s : list Z) : list (list Z) * list Z := cut (length s) s.
(** The start of a packet that is not complete. *)
Definition incomplete (s : list Z) : Prop := (length s < 4)%nat ∨ Z.of_nat (length s) < hdr_length s + 4.

Lemma bytes_is_bytes l : bytes_ok l ↔ is_bytes l = true.
Proof.
  unfold bytes_ok. induction l as [|b l IH]; [by split|]. rewrite Forall_cons, is_bytes_cons, IH. done.
Qed.
Lemma hdr_length_range h : bytes_ok h → 0 <= hdr_length h < 2 ^ 24.
Proof.
  intros H. unfold hdr_length. assert (bytes_ok (take 3 h)) as Ht by by apply Forall_take. apply bytes_is_bytes in Ht.
  pose proof (le_value_range _ Ht) as Hr. rewrite length_take in Hr. split; [lia|]. eapply Z.lt_le_trans; [apply Hr|].
  change (2 ^ 24) with (256 ^ 3). apply Z.pow_le_mono_r; lia.
Qed.
Lemma hdr_length_app a b : (3 <= length a)%nat → hdr_length (a ++ b) = hdr_length a.
Proof. intros Ha. unfold hdr_length. by rewrite take_app_le. Qed.
Lemma hdr_length_take n s : (3 <= n)%nat → hdr_length (take n s) = hdr_length s.
Proof. intros Hn. unfold hdr_length. rewrite take_take. by rewrite Nat.min_l. Qed.
Lemma incomplete_cut fuel s : incomplete s → cut fuel s = ([], s).
Proof.
  intros Hi. destruct fuel as [|fuel]; [done|]. cbn. case_bool_decide; [done|]. rewrite bool_decide_true; [done|]. destruct Hi; lia.
Qed.
Lemma cut_packet fuel p s : is_packet p → cut (S fuel) (p ++ s) = let '(ps, r) := cut fuel s in (p :: ps, r).
Proof.
  intros [H4 Hp]. cbn. rewrite length_app, bool_decide_false by lia. rewrite hdr_length_app, <- Hp, Nat2Z.id by lia.
  rewrite bool_decide_false by lia. by rewrite take_app_length, drop_app_length.
Qed.
Lemma packets_concat ps r : Forall is_packet ps → incomplete r → packets (concat ps ++ r) = (ps, r).
Proof.
  intros Hps Hr. unfold packets. assert (length ps ≤ length (concat ps ++ r))%nat as Hf.
  { rewrite length_app. induction Hps as [|p ps [H4 _] Hps IH]; cbn; [lia|]. rewrite length_app. lia. }
  revert Hf. generalize (length (concat ps ++ r)). induction Hps as [|p ps Hp Hps IH]; intros n Hn; [by apply incomplete_cut|].
  destruct n as [|n]; [cbn in Hn; lia|]. cbn [concat]. rewrite <- app_assoc, cut_packet by done. rewrite IH by (cbn in Hn; lia). done.
Qed.

(** ** Input without compression *)
Section Plain.
Context (malloc : Z → list Z) (uncompress : Z → list Z → option (list Z)) (inet_pton : family → list Z → option (list Z)).
Context (malloc_size : ∀ n, 0 <= n → Z.of_nat (length (malloc n)) = n).

(** The bytes that arrived and are not in a complete packet yet. *)
Definition under_way (q : queue) : list Z := if pkt_size q =? 0 then [] else take (Z.to_nat (partial q)) (default [] (pkt_ptr q)).
Definition pending (s : stream) : list Z := under_way (queueIN s) ++ window (queueIN s).
Definition packet_ok (q : queue) : Prop :=
  pkt_size q = 0 ∨ (∃ p, pkt_ptr q = Some p ∧ Z.of_nat (length p) = pkt_size q ∧ 4 <= partial q <= pkt_size q ∧
    pkt_size q = hdr_length (take (Z.to_nat (partial q)) p) + 4).
Definition plain_ok (s : stream) : Prop :=
  wfq (queueIN s) ∧ size (queueIN s) = QUEUE_T_DEFAULT_SIZE ∧ packet_ok (queueIN s) ∧ bytes_ok (pending s) ∧
  compression s = false ∧ session_fast_forward s = false ∧ 0 < pkts_recv s ∧
  (queue_data (queueIN s) = 0 → tail (queueIN s) = 0).
(** Nothing is left to do before more bytes arrive. *)
Definition settled (s : stream) : Prop :=
  tail (queueIN s) = 0 ∧ (if pkt_size (queueIN s) =? 0 then queue_data (queueIN s) < 4 else queue_data (queueIN s) = 0 ∧ partial (queueIN s) < pkt_size (queueIN s)).

Lemma settled_incomplete s : plain_ok s → settled s → incomplete (pending s).
Proof.
  intros (Hw & Hs & Hp & _) [Ht Hset]. pose proof (window_length _ Hw) as Hl. unfold pending, under_way. destruct (Z.eqb_spec (pkt_size (queueIN s)) 0) as [E|E].
  - left. cbn. lia.
  - destruct Hset as [H0 Hlt]. right. destruct Hp as [Hp|(p & Ep & Lp & Hpart & Hsz)]; [done|]. rewrite Ep. cbn [default from_option id].
    rewrite (nil_length_inv (window (queueIN s))) by lia. rewrite app_nil_r, <- Hsz, length_take. lia.
Qed.

(** *** The parts of [buffer2array] *)
Lemma start_packet_spec s : plain_ok s → pkt_size (queueIN s) = 0 → 4 <= queue_data (queueIN s) →
  ∃ s', start_packet malloc s = Ok (4, s') ∧ plain_ok s' ∧ pending s' = pending s ∧ PSarrayIN s' = PSarrayIN s ∧
    pkt_size (queueIN s') ≠ 0 ∧ queue_data (queueIN s') = queue_data (queueIN s) - 4.
Proof using malloc_size.
  intros (Hw & Hs & Hp & Hb & Hc & Hf & Hr & Ht0) E0 H4. unfold start_packet. rewrite peek_spec by (done || lia). cbn [mbind outcome_bind].
  set (w := window (queueIN s)) in *. pose proof (window_length _ Hw) as Hl. fold w in Hl. set (h := take (Z.to_nat 4) w).
  assert (length h = 4%nat) as Lh by (unfold h; rewrite length_take; lia).
  assert (pending s = w) as Epend by (unfold pending, under_way; by rewrite E0).
  assert (bytes_ok h) as Bh by (apply Forall_take; by rewrite <- Epend). pose proof (hdr_length_range h Bh) as Hh.
  set (n := hdr_length h + 4). pose proof (malloc_size n ltac:(lia)) as Lm. rewrite blit_ok by lia. cbn [mbind outcome_bind]. rewrite Lh. eexists. split; [done|].
  set (p := take (Z.to_nat 0) (malloc n) ++ h ++ drop (Z.to_nat 0 + 4) (malloc n)).
  assert (take (Z.to_nat 4) p = h) as Ep by (unfold p; rewrite take_0; cbn [app]; rewrite take_app_le by (rewrite Lh; done); apply take_ge; by rewrite Lh).
  assert (Z.of_nat (length p) = n) as Lp by (unfold p; rewrite !length_app, length_take, length_drop, Lh; lia).
  destruct (queue_r_spec (queueIN s) 4 Hw ltac:(lia)) as (Hw' & Ew & Es & Ed & Et). set (q := queue_r 4 (queueIN s)) in *.
  set (s' := upd (proj := queueIN) _ _).
  assert (queueIN s' = ((q <| pkt_size := n |>) <| pkt_ptr := Some p |>) <| partial := 4 |>) as Eq by done.
  assert (pending s' = pending s) as Epend'.
  { unfold pending at 1, under_way. rewrite Eq. cbn [pkt_size partial pkt_ptr upd]. rewrite (proj2 (Z.eqb_neq n 0)) by lia.
    change (window (((q <| pkt_size := n |>) <| pkt_ptr := Some p |>) <| partial := 4 |>)) with (window q).
    transitivity (take (Z.to_nat 4) p ++ window q); [done|]. rewrite Ep, Ew, Epend. apply take_drop. }
  split; [|split; [done|split; [done|split]]].
  - split; [exact Hw'|]. split; [by rewrite Eq; cbn; rewrite Es|]. split; [|split; [|done]].
    + right. exists p. rewrite Eq. cbn. split; [done|]. split; [done|]. split; [lia|]. unfold n. f_equal. by rewrite Ep.
    + by rewrite Epend'.
  - rewrite Eq. cbn. lia.
  - rewrite Eq. done.
Qed.

Lemma fill_packet_spec s : plain_ok s →
  ∃ r s', fill_packet s = Ok (r, s') ∧ plain_ok s' ∧ pending s' = pending s ∧ PSarrayIN s' = PSarrayIN s ∧ pkt_size (queueIN s') = pkt_size (queueIN s) ∧
    0 <= r ∧ queue_data (queueIN s') = queue_data (queueIN s) - r ∧
    (0 < pkt_size (queueIN s) → 0 < queue_data (queueIN s) → partial (queueIN s) < pkt_size (queueIN s) → 0 < r).
Proof.
  intros Hok. pose proof Hok as (Hw & Hs & Hp & Hb & Hc & Hf & Hr & Ht0). unfold fill_packet. pose proof (window_length _ Hw) as Hl.
  destruct (andb _ _) eqn:E.
  2: { exists 0, s. split; [done|]. split; [done|]. split; [done|]. split; [done|]. split; [done|]. split; [done|]. split; [lia|].
       intros ? ? ?. apply andb_false_iff in E as [E|E]; [zbool; lia|]. apply negb_false_iff, Z.eqb_eq in E. lia. }
  apply andb_true_iff in E as [Esz Ed]. apply negb_true_iff in Ed. zbool.
  destruct Hp as [Hp|(p & Ep & Lp & Hpart & Hsz)]; [lia|]. set (q := queueIN s) in *. set (b := if _ <? _ then _ else _).
  assert (0 <= b <= queue_data q ∧ partial q + b <= pkt_size q ∧ (b = queue_data q ∨ partial q + b = pkt_size q)) as (Hbd & Hbp & Hor).
  { unfold b. case_test; lia. }
  rewrite peek_spec by done. cbn [mbind outcome_bind]. rewrite Ep. set (bs := take (Z.to_nat b) (window q)).
  assert (Z.of_nat (length bs) = b) as Lb by (unfold bs; rewrite length_take; lia).
  rewrite blit_ok by lia. cbn [mbind outcome_bind]. eexists _, _. split; [done|]. set (p' := take _ p ++ bs ++ drop _ p).
  destruct (queue_r_spec q b Hw Hbd) as (Hw' & Ew & Es & Ed' & Et'). destruct (queue_r_keeps q b) as (_ & Ek & _).
  set (s' := upd (proj := queueIN) _ s).
  assert (queueIN s' = ((queue_r b q) <| pkt_ptr := Some p' |>) <| partial := partial q + b |>) as Eq by done.
  assert (take (Z.to_nat (partial q + b)) p' = take (Z.to_nat (partial q)) p ++ bs) as Etake.
  { unfold p'. rewrite app_assoc, take_app_le by (rewrite length_app, length_take; lia). apply take_ge. rewrite length_app, length_take. lia. }
  assert (pending s' = pending s) as Epend.
  { unfold pending, under_way. rewrite Eq. cbn [pkt_size partial pkt_ptr upd]. fold q. rewrite Ek, (proj2 (Z.eqb_neq (pkt_size q) 0)), Ep by lia. cbn [default from_option id].
    rewrite Etake. change (window (((queue_r b q) <| pkt_ptr := Some p' |>) <| partial := partial q + b |>)) with (window (queue_r b q)).
    rewrite Ew, <- app_assoc. f_equal. apply take_drop. }
  split.
  { split; [exact Hw'|]. split; [by rewrite Eq; cbn; rewrite Es|]. split; [|split; [by rewrite Epend|]; split; [done|]; split; [done|]; split; [done|]].
    - right. exists p'. rewrite Eq. cbn. rewrite Ek. split; [done|]. split; [unfold p'; rewrite !length_app, length_take, length_drop; lia|]. split; [lia|].
      rewrite Etake, hdr_length_app by (rewrite length_take; lia). done.
    - rewrite Eq. cbn. exact Et'. }
  split; [done|]. split; [done|]. split; [rewrite Eq; cbn; by rewrite Ek|]. split; [lia|]. split; [rewrite Eq; exact Ed'|]. intros ? ? ?. unfold b. case_test; lia.
Qed.

Lemma end_packet_spec s : plain_ok s →
  ∃ s', end_packet malloc uncompress s = Ok s' ∧ plain_ok s' ∧ queue_data (queueIN s') = queue_data (queueIN s) ∧ tail (queueIN s') = tail (queueIN s) ∧
    ((s' = s ∧ (pkt_size (queueIN s) = 0 ∨ partial (queueIN s) < pkt_size (queueIN s))) ∨
     (∃ p, is_packet p ∧ pending s = p ++ pending s' ∧ PSarrayIN s' = PSarrayIN s ++ [mk_block (Z.of_nat (length p)) p] ∧ pkt_size (queueIN s') = 0)).
Proof.
  intros Hok. pose proof Hok as (Hw & Hs & Hp & Hb & Hc & Hf & Hr & Ht0). unfold end_packet. destruct (andb _ _) eqn:E.
  2: { exists s. split; [done|]. split; [done|]. split; [done|]. split; [done|]. left. split; [done|].
       destruct Hp as [Hp|(p & Ep & Lp & Hpart & Hsz)]; [by left|]. right. apply andb_false_iff in E as [E|E]; zbool; lia. }
  apply andb_true_iff in E as [Esz Ed]. zbool. destruct Hp as [Hp|(p & Ep & Lp & Hpart & Hsz)]; [lia|]. rewrite Ep, Hc. eexists. split; [done|].
  set (q := queueIN s) in *. set (s' := upd (proj := queueIN) _ _). assert (queueIN s' = (q <| pkt_size := 0 |>) <| pkt_ptr := None |>) as Eq by done.
  rewrite take_ge in Hsz by lia.
  assert (pending s = p ++ pending s') as Epend.
  { unfold pending, under_way. rewrite Eq. fold q. rewrite (proj2 (Z.eqb_neq (pkt_size q) 0)), Ep by lia. cbn [default from_option id]. by rewrite take_ge by lia. }
  split; [|split; [done|split; [done|]]].
  - split; [exact Hw|]. split; [done|]. split; [by left|]. split; [|split; [done|split; [done|split; [|done]]]].
    + rewrite Epend in Hb. by apply Forall_app in Hb as [_ Hb].
    + cbn. lia.
  - right. exists p. split; [split; lia|]. split; [done|]. split; [|done]. cbn. by rewrite Lp.
Qed.

(** No packet is complete and still in the queue. *)
Definition open_packet (q : queue) : Prop := pkt_size q = 0 ∨ partial q < pkt_size q.
(** What a turn of [buffer2array] does to the packets. *)
Definition turn (s s' : stream) : Prop :=
  (pending s' = pending s ∧ PSarrayIN s' = PSarrayIN s) ∨
  (∃ p, is_packet p ∧ pending s = p ++ pending s' ∧ PSarrayIN s' = PSarrayIN s ++ [mk_block (Z.of_nat (length p)) p]).

Lemma queue_zero_spec s : plain_ok s →
  ∃ q, queue_zero (queueIN s) = Ok q ∧ plain_ok (s <| queueIN := q |>) ∧ pending (s <| queueIN := q |>) = pending s ∧ tail q = 0 ∧
    queue_data q = queue_data (queueIN s) ∧ pkt_size q = pkt_size (queueIN s) ∧ partial q = partial (queueIN s).
Proof.
  intros (Hw & Hs & Hp & Hb & Hc & Hf & Hr & Ht0). unfold queue_zero. pose proof Hw as (Hl & Ht & Hh). set (q := queueIN s) in *.
  assert (∃ b, (if tail q =? 0 then Ok (buffer q) else x ← slice (buffer q) (tail q) (head q - tail q); blit (buffer q) 0 x) = Ok b ∧
    length b = length (buffer q) ∧ take (Z.to_nat (queue_data q)) b = window q) as (b & -> & Lb & Eb).
  { unfold window, queue_data. destruct (Z.eqb_spec (tail q) 0) as [E|E].
    - exists (buffer q). split; [done|]. split; [done|]. by rewrite E, drop_0.
    - rewrite slice_ok by lia. cbn [mbind outcome_bind]. set (x := take _ (drop _ _)).
      assert (length x = Z.to_nat (head q - tail q)) as Lx by (unfold x; rewrite length_take, length_drop; lia).
      rewrite blit_ok by lia. eexists. split; [done|]. rewrite take_0. cbn [app]. split; [rewrite length_app, length_drop; lia|].
      rewrite take_app_le by lia. apply take_ge. lia. }
  cbn [mbind outcome_bind]. eexists. split; [done|]. set (q' := mk_queue _ _ _ _ _ _ _).
  assert (queue_data q' = queue_data q) as Ed by (unfold queue_data; cbn; lia).
  assert (window q' = window q) as Ew by (unfold window at 1; rewrite Ed; cbn [tail q' buffer]; by rewrite drop_0).
  assert (pending (s <| queueIN := q' |>) = pending s) as Ep by (unfold pending; change (queueIN (s <| queueIN := q' |>)) with q'; by rewrite Ew).
  split; [|by split_and!]. split; [split; [cbn; lia|cbn; lia]|]. split; [done|]. split; [exact Hp|]. split; [by rewrite Ep|]. by split_and!.
Qed.

Lemma fill_and_end s : plain_ok s →
  ∃ r s', (('(r2, s) ← fill_packet s; s ← end_packet malloc uncompress s; Ok (r2, s)) : outcome (Z * stream)) = Ok (r, s') ∧ plain_ok s' ∧ open_packet (queueIN s') ∧
    0 <= r ∧ queue_data (queueIN s') = queue_data (queueIN s) - r ∧ turn s s' ∧
    (0 < pkt_size (queueIN s) → 0 < queue_data (queueIN s) → partial (queueIN s) < pkt_size (queueIN s) → 0 < r).
Proof.
  intros Hok. destruct (fill_packet_spec s Hok) as (r & s1 & -> & Hok1 & Ep & Ea & Ek & Hr & Ed & Hpos). cbn [mbind outcome_bind].
  destruct (end_packet_spec s1 Hok1) as (s2 & -> & Hok2 & Ed2 & Et2 & Hcase). cbn [mbind outcome_bind]. exists r, s2. split; [done|]. split; [done|].
  destruct Hcase as [[-> Ho]|(p & Hp & Epp & Eaa & E0)].
  - split; [exact Ho|]. split; [done|]. split; [lia|]. split; [left; by rewrite Ep, Ea|done].
  - split; [by left|]. split; [done|]. split; [lia|]. split; [right; exists p; rewrite <- Ep, <- Ea; done|done].
Qed.

Lemma buffer2array_spec networks s : plain_ok s → open_packet (queueIN s) →
  ∃ r s', buffer2array malloc uncompress inet_pton networks s = Ok (r, s') ∧ plain_ok s' ∧ open_packet (queueIN s') ∧
    0 <= r ∧ queue_data (queueIN s') = queue_data (queueIN s) - r ∧ turn s s' ∧ (r = 0 → settled s').
Proof using malloc_size.
  intros Hok Ho. pose proof Hok as (Hw & Hs & Hp & Hb & Hc & Hf & Hr & Ht0). pose proof Hw as (Hl & Ht & Hh). unfold buffer2array.
  assert (turn s s) as Hturn by by left. destruct (Z.eqb_spec (queue_data (queueIN s)) 0) as [E0|E0].
  { exists 0, s. split; [done|]. split; [done|]. split; [done|]. split; [done|]. split; [lia|]. split; [done|]. intros _. split; [by apply Ht0|].
    destruct (Z.eqb_spec (pkt_size (queueIN s)) 0); [lia|]. destruct Ho; [done|]. done. }
  assert (0 < queue_data (queueIN s)) as Hpos by (unfold queue_data in *; lia).
  set (zero := (pkt_size (queueIN s) =? 0) && (queue_data (queueIN s) <? 4)).
  assert (∃ q, (if zero then queue_zero (queueIN s) else Ok (queueIN s)) = Ok q ∧ plain_ok (s <| queueIN := q |>) ∧ pending (s <| queueIN := q |>) = pending s ∧
    (zero = true → tail q = 0) ∧ queue_data q = queue_data (queueIN s) ∧ pkt_size q = pkt_size (queueIN s) ∧ partial q = partial (queueIN s)) as (q & -> & Hok1 & Ep1 & Htz & Ed1 & Ek1 & Epp1).
  { destruct zero.
    - destruct (queue_zero_spec s Hok) as (q & -> & ? & ? & ? & ? & ? & ?). by exists q.
    - exists (queueIN s). by destruct s. }
  cbn [mbind outcome_bind]. set (s1 := s <| queueIN := q |>) in *. assert (queueIN s1 = q) as Eq1 by done. assert (PSarrayIN s1 = PSarrayIN s) as Ea1 by done.
  change (session_fast_forward s1) with (session_fast_forward s). change (compression s1) with (compression s). rewrite Hf, Hc, Eq1, Ek1, Ed1.
  assert (∀ s', turn s1 s' → turn s s') as Htrans by (intros s'; unfold turn; by rewrite Ep1, Ea1).
  destruct (Z.eqb_spec (pkt_size (queueIN s)) 0) as [Ek|Ek]; [destruct (Z.leb_spec 4 (queue_data (queueIN s))) as [E4|E4]|]; cbn [andb].
  - assert (is_proxy_header s1 = Ok false) as ->.
    { unfold is_proxy_header. by rewrite (proj2 (Z.eqb_neq _ _)) by (change (pkts_recv s1) with (pkts_recv s); lia). }
    cbn [mbind outcome_bind]. destruct (start_packet_spec s1 Hok1) as (s2 & -> & Hok2 & Ep2 & Ea2 & Ek2 & Ed2); [rewrite Eq1; lia..|]. cbn [mbind outcome_bind].
    destruct (fill_and_end s2 Hok2) as (r & s3 & E & Hok3 & Ho3 & Hr3 & Ed3 & Ht3 & _).
    destruct (fill_packet s2) as [[r2 s2']|]; [|done]. cbn [mbind outcome_bind] in E |- *. destruct (end_packet malloc uncompress s2') as [s3'|]; [|done]. cbn [mbind outcome_bind] in E |- *.
    injection E as -> ->. exists (4 + r), s3. split; [done|]. split; [done|]. split; [done|]. split; [lia|]. split; [rewrite Ed3, Ed2, Eq1; lia|].
    split; [|lia]. apply Htrans. unfold turn in *. by rewrite Ep2, Ea2 in Ht3.
  - exists 0, s1. unfold fill_packet, end_packet. rewrite Eq1, Ek1, Ek. cbn [Z.ltb Z.compare andb mbind outcome_bind]. rewrite Eq1, Ek1, Ek. cbn [Z.ltb Z.compare andb mbind outcome_bind].
    split; [done|]. split; [done|]. split; [left; lia|]. split; [done|]. split; [lia|]. split; [by left|]. intros _. unfold settled.
    rewrite Eq1, Ek1, Ek, Ed1. split; [|done]. apply Htz. unfold zero. by rewrite (proj2 (Z.ltb_lt _ _)).
  - destruct (fill_and_end s1 Hok1) as (r & s3 & -> & Hok3 & Ho3 & Hr3 & Ed3 & Ht3 & Hpos3). exists r, s3. split; [done|]. split; [done|]. split; [done|].
    split; [done|]. split; [rewrite Ed3, Eq1; lia|]. split; [by apply Htrans|]. intros ->. exfalso. rewrite Eq1, Ek1, Ed1, Epp1 in Hpos3.
    destruct Hp as [?|(p & ? & ? & ? & ?)]; [done|]. destruct Ho as [?|?]; [done|]. lia.
Qed.

(** *** Reading *)
Definition whole (p : list Z) : block := mk_block (Z.of_nat (length p)) p.
(** Some packets went from the bytes that were pending to the array. *)
Definition delivered (s s' : stream) (ps : list (list Z)) : Prop :=
  Forall is_packet ps ∧ pending s = concat ps ++ pending s' ∧ PSarrayIN s' = PSarrayIN s ++ (whole <$> ps).
Lemma turn_delivered s s' : turn s s' → ∃ ps, delivered s s' ps.
Proof.
  intros [[Hp Ha]|(p & Hp & Hpp & Ha)]; [exists []; split; [done|]; split; [done|]; by rewrite app_nil_r|].
  exists [p]. split; [by constructor|]. split; [cbn; by rewrite app_nil_r|done].
Qed.
Lemma delivered_trans s1 s2 s3 ps qs : delivered s1 s2 ps → delivered s2 s3 qs → delivered s1 s3 (ps ++ qs).
Proof.
  intros (Hp & Hpp & Ha) (Hq & Hqq & Hb). split; [by apply Forall_app|]. split; [by rewrite Hpp, Hqq, concat_app, app_assoc|].
  by rewrite Hb, Ha, fmap_app, app_assoc.
Qed.
Lemma read_pkts_spec networks s : plain_ok s → open_packet (queueIN s) →
  ∃ s' ps, read_pkts malloc uncompress inet_pton networks s = Ok s' ∧ plain_ok s' ∧ open_packet (queueIN s') ∧ settled s' ∧ delivered s s' ps.
Proof using malloc_size.
  unfold read_pkts. intros Hok Ho. assert (queue_data (queueIN s) <= Z.of_nat (Z.to_nat (queue_data (queueIN s)))) as Hf by lia. revert Hf.
  generalize (Z.to_nat (queue_data (queueIN s))). intros fuel. revert s Hok Ho. induction fuel as [|fuel IH]; intros s Hok Ho Hf; cbn [read_pkts_loop];
    destruct (buffer2array_spec networks s Hok Ho) as (r & s1 & -> & Hok1 & Ho1 & Hr & Ed & Ht & Hset); cbn [mbind outcome_bind];
    destruct (turn_delivered _ _ Ht) as [ps Hps];
    assert (0 <= queue_data (queueIN s1)) by (destruct Hok1 as ((_ & ? & _) & _); unfold queue_data; lia); destruct (Z.eqb_spec r 0) as [->|Hr0];
    try (exists s1, ps; split; [done|]; split; [done|]; split; [done|]; split; [by apply Hset|done]).
  - lia.
  - destruct (IH s1 Hok1 Ho1) as (s2 & qs & E & Hok2 & Ho2 & Hs2 & Hqs); [lia|]. exists s2, (ps ++ qs). split; [done|]. split; [done|]. split; [done|].
    split; [done|]. by eapply delivered_trans.
Qed.

Lemma read_from_net_spec bs r2 s : plain_ok s → open_packet (queueIN s) → bytes_ok bs → bs ≠ [] → Z.of_nat (length bs) <= queue_available (queueIN s) →
  ∃ s', read_from_net true false (Received bs) r2 s = Ok (Z.of_nat (length bs), s') ∧ plain_ok s' ∧ open_packet (queueIN s') ∧
    PSarrayIN s' = PSarrayIN s ∧ pending s' = pending s ++ bs.
Proof.
  intros (Hw & Hs & Hp & Hb & Hc & Hf & Hr & Ht0) Ho Hbs Hne Hl. unfold read_from_net. cbn [andb negb].
  rewrite (proj2 (Z.eqb_neq (pkts_recv s) 0)) by lia. cbn [negb orb recv_at]. rewrite (proj2 (Z.ltb_ge _ _)) by done. rewrite Z.add_0_r.
  destruct (put_spec _ bs Hw Hl) as (b & -> & Hw' & Ew). cbn [mbind outcome_bind rc_of]. rewrite (proj2 (Z.ltb_ge (Z.of_nat (length bs)) 1)) by (destruct bs; [done|cbn; lia]).
  eexists. split; [reflexivity|]. set (s' := upd (proj := queueIN) _ _).
  assert (queueIN s' = ((queueIN s) <| buffer := b |>) <| head := head (queueIN s) + Z.of_nat (length bs) |>) as Eq by done.
  assert (pending s' = pending s ++ bs) as Epend by (unfold pending; rewrite Eq, Ew, app_assoc; done).
  split; [|split; [exact Ho|done]]. split; [by rewrite Eq|]. split; [done|]. split; [exact Hp|]. split; [rewrite Epend; by apply Forall_app|].
  split; [done|]. split; [done|]. split; [done|]. rewrite Eq. unfold queue_data. cbn. destruct Hw as (_ & ? & _). destruct bs; [done|cbn [length]; lia].
Qed.

(** A socket with bytes that arrive in pieces of any size; every turn of the
    thread reads what there is room for and takes the packets. *)
Fixpoint receive (networks : list Z) (reads : list nat) (waiting : list Z) (s : stream) : outcome (stream * list Z) :=
  match reads with
  | [] => Ok (s, waiting)
  | n :: reads' =>
      let k := Nat.min (S n) (Nat.min (Z.to_nat (queue_available (queueIN s))) (length waiting)) in
      let answer := match take k waiting with [] => Failed (-1) EAGAIN | bs => Received bs end in
      '(_, s) ← read_from_net true false answer (Failed (-1) EAGAIN) s;
      s ← read_pkts malloc uncompress inet_pton networks s;
      receive networks reads' (drop k waiting) s
  end.
Lemma settled_room s : plain_ok s → settled s → 0 < queue_available (queueIN s).
Proof.
  intros (Hw & Hs & _) [Ht Hset]. unfold queue_available, queue_data in *. rewrite Hs. unfold QUEUE_T_DEFAULT_SIZE. destruct Hw as (_ & ? & _).
  destruct (_ =? 0); lia.
Qed.
Lemma receive_delivers networks reads waiting s : plain_ok s → open_packet (queueIN s) → settled s → bytes_ok waiting →
  ∃ s' rest consumed ps, receive networks reads waiting s = Ok (s', rest) ∧ plain_ok s' ∧ settled s' ∧ waiting = consumed ++ rest ∧
    Forall is_packet ps ∧ pending s ++ consumed = concat ps ++ pending s' ∧ PSarrayIN s' = PSarrayIN s ++ (whole <$> ps) ∧
    (length rest ≤ length waiting - length reads)%nat.
Proof using malloc_size.
  revert waiting s. induction reads as [|n reads IH]; intros waiting s Hok Ho Hset Hb.
  { exists s, waiting, [], []. split; [done|]. split; [done|]. split; [done|]. split; [done|]. split; [done|]. split; [by rewrite app_nil_r|]. split; [by rewrite app_nil_r|cbn; lia]. }
  cbn [receive]. pose proof (settled_room s Hok Hset) as Hroom. set (k := Nat.min _ _).
  destruct (decide (waiting = [])) as [->|Hw].
  { replace (take k ([] : list Z)) with ([] : list Z) by (by destruct k). replace (drop k ([] : list Z)) with ([] : list Z) by (by destruct k).
    assert (read_from_net true false (Failed (-1) EAGAIN) (Failed (-1) EAGAIN) s = Ok (-1, s)) as ->.
    { destruct Hok as (_ & _ & _ & _ & _ & _ & Hr & _). unfold read_from_net. cbn [andb negb]. rewrite (proj2 (Z.eqb_neq (pkts_recv s) 0)) by lia. cbn. by destruct s. }
    cbn [mbind outcome_bind]. destruct (read_pkts_spec networks s Hok Ho) as (s1 & ps & -> & Hok1 & Ho1 & Hset1 & Hp & Hpp & Ha). cbn [mbind outcome_bind].
    destruct (IH [] s1 Hok1 Ho1 Hset1 ltac:(constructor)) as (s2 & rest & consumed & qs & E & Hok2 & Hs2 & Ew & Hq & Hqq & Hb2 & Hlen).
    exists s2, rest, consumed, (ps ++ qs). split; [done|]. split; [done|]. split; [done|]. split; [done|]. split; [by apply Forall_app|].
    split; [by rewrite Hpp, concat_app, <- !app_assoc, Hqq|]. split; [by rewrite Hb2, Ha, fmap_app, app_assoc|]. cbn in *. lia. }
  assert (0 < k)%nat as Hk by (unfold k; destruct waiting; [done|cbn [length]; lia]). assert (k ≤ length waiting)%nat as Hkl by (unfold k; lia).
  assert (Z.of_nat k <= queue_available (queueIN s)) as Hkr by (unfold k; lia). clearbody k.
  assert (length (take k waiting) = k) as Lk by (rewrite length_take; lia).
  destruct (take k waiting) as [|x xs] eqn:Et; [cbn in Lk; lia|]. rewrite <- (take_drop k waiting), Et in Hb. apply Forall_app in Hb as [Hb1 Hb2].
  destruct (read_from_net_spec (x :: xs) (Failed (-1) EAGAIN) s Hok Ho Hb1) as (s1 & -> & Hok1 & Ho1 & Ea1 & Ep1); [done|by rewrite Lk|]. cbn [mbind outcome_bind].
  destruct (read_pkts_spec networks s1 Hok1 Ho1) as (s2 & ps & -> & Hok2 & Ho2 & Hset2 & Hp & Hpp & Ha). cbn [mbind outcome_bind].
  destruct (IH (drop k waiting) s2 Hok2 Ho2 Hset2 Hb2) as (s3 & rest & consumed & qs & E & Hok3 & Hs3 & Ew & Hq & Hqq & Hb3 & Hlen).
  exists s3, rest, ((x :: xs) ++ consumed), (ps ++ qs). split; [done|]. split; [done|]. split; [done|].
  split; [rewrite <- app_assoc, <- Ew, <- Et; by rewrite take_drop|]. split; [by apply Forall_app|].
  split; [rewrite app_assoc, <- Ep1, Hpp, concat_app, <- !app_assoc; by f_equal|]. split; [by rewrite Hb3, Ha, Ea1, fmap_app, app_assoc|].
  rewrite length_drop in Hlen. cbn [length]. lia.
Qed.

(** A stream whose first packet has arrived, with nothing under way. *)
Definition ready (s : stream) : Prop := plain_ok s ∧ open_packet (queueIN s) ∧ settled s ∧ pending s = [].

(** C11: The packets that were sent are the packets that arrive.  The stream does
    not compress, use TLS or forward without looking, and is past the first
    packet of its connection, with nothing under way ([ready]).  For any packets
    and the start of another one, however the bytes are split over the reads and
    whatever is left in the queue in between, reading delivers exactly the
    packets, whole and in order, and keeps the bytes that follow for later; no
    access is out of bounds, and there is room for more bytes, so that enough
    reads take everything in. *)
Theorem packets_framed networks reads ps r s : ready s → Forall is_packet ps → incomplete r → bytes_ok (concat ps ++ r) →
  (length (concat ps ++ r) ≤ length reads)%nat →
  ∃ s', receive networks reads (concat ps ++ r) s = Ok (s', []) ∧ PSarrayIN s' = PSarrayIN s ++ (whole <$> ps) ∧ pending s' = r.
Proof using malloc_size.
  intros (Hok & Ho & Hset & Hpend) Hps Hr Hb Hlen.
  destruct (receive_delivers networks reads (concat ps ++ r) s Hok Ho Hset Hb) as (s' & rest & consumed & qs & E & Hok' & Hset' & Ew & Hqs & Epp & Ea & Hl).
  destruct rest as [|]; [|cbn in Hl; lia]. rewrite app_nil_r in Ew. subst consumed. rewrite Hpend in Epp. cbn [app] in Epp.
  pose proof (packets_concat ps r Hps Hr) as H1. rewrite Epp, packets_concat in H1 by (done || by apply settled_incomplete). injection H1 as Hqs' Hr'. subst qs r.
  exists s'. split; [exact E|]. split; [exact Ea|done].
Qed.
End Plain.

(** A stream that waits for its second packet. *)
Definition waiting_stream : stream :=
  mk_stream (queue_init (λ n, replicate (Z.to_nat n) 0) QUEUE_T_DEFAULT_SIZE) (queue_init (λ n, replicate (Z.to_nat n) 0) QUEUE_T_DEFAULT_SIZE)
    1 0 [] [] [] 0 0 0 false 0 true false false false false false 0 None 0 None None.
Lemma waiting_ready : ready waiting_stream.
Proof.
  assert (wfq (queueIN waiting_stream)) as Hw.
  { split; [|split; cbn; unfold QUEUE_T_DEFAULT_SIZE; lia]. cbn -[replicate]. rewrite length_replicate. unfold QUEUE_T_DEFAULT_SIZE. lia. }
  assert (pending waiting_stream = []) as Hp by done.
  split; [split; [exact Hw|]; split; [done|]; split; [by left|]; split; [rewrite Hp; constructor|]; by split_and!|].
  split; [by left|]. split; [by split|done].
Qed.
Lemma packets_framed_witness :
  ∃ s', receive (λ n, replicate (Z.to_nat n) 0) (λ _ _, None) (λ _ _, None) [] (replicate 15 2%nat) (concat [[1;0;0;0;14]; [1;0;0;0;3]] ++ [5;0;0]) waiting_stream
      = Ok (s', []) ∧
    PSarrayIN s' = [] ++ (whole <$> [[1;0;0;0;14]; [1;0;0;0;3]]) ∧ pending s' = [5;0;0].
Proof.
  apply (packets_framed (λ n, replicate (Z.to_nat n) 0) (λ _ _, None) (λ _ _, None)).
  - intros n Hn. rewrite length_replicate. lia.
  - exact waiting_ready.
  - constructor; [split; [cbn; lia|reflexivity]|]. constructor; [split; [cbn; lia|reflexivity]|constructor].
  - left. cbn. lia.
  - apply (bool_decide_unpack (Forall (λ b, 0 <= b < 256) _)). vm_compute. exact I.
  - cbn. lia.
Defined.

(** ** Output *)
Definition MAX_COMPRESSED_PACKET_SIZE : Z := 10 * 1024 * 1024.
Section Output.
(** zlib: [compress(dest, &destLen, source)], if the result fits [destLen]. *)
Context (compress : Z → list Z → option (list Z)).

(** The loop that counts the packets to take: how many, their size, and the size
    of the last one. *)
Fixpoint count_packets (ps : list (list Z)) (i total last : Z) : Z * Z * Z :=
  match ps with
  | p :: ps' => if total <? MAX_COMPRESSED_PACKET_SIZE then count_packets ps' (i + 1) (u32 (total + Z.of_nat (length p))) (Z.of_nat (length p)) else (i, total, last)
  | [] => (i, total, last)
  end.
(** The loop that takes them out. *)
Fixpoint take_packets (ps : list (list Z)) (total sourceLen : Z) (source : list Z) : outcome (list Z * list (list Z)) :=
  if total <? sourceLen then
    match ps with
    | p :: ps' => take_packets ps' (u32 (total + Z.of_nat (length p))) sourceLen (source ++ p)
    | [] => Fault OutOfBounds
    end
  else Ok (source, ps).
(** One compressed packet: its header, the length of the data and the data. *)
Definition compressed (source : list Z) (id : Z) : outcome (list Z) :=
  let n := Z.of_nat (length source) in
  match compress (u32 (n * 120) / 100 + 12) source with
  | None => Fault AssertFail
  | Some dest => Ok (header (Z.of_nat (length dest)) id ++ le_bytes 3 n ++ dest)
  end.
Definition set_out_packet (p : list Z) (s : stream) : stream :=
  s <| queueOUT := ((queueOUT s) <| pkt_size := Z.of_nat (length p) |>) <| pkt_ptr := Some p |> |>.
Definition generate_compressed_packet (s : stream) : outcome stream :=
  let '(i, total, last) := count_packets (PSarrayOUT s) 0 0 0 in
  let total := if (2 <=? i) && (MAX_COMPRESSED_PACKET_SIZE <? total) then u32 (total - last) else total in
  if total <=? MAX_COMPRESSED_PACKET_SIZE then
    '(source, rest) ← take_packets (PSarrayOUT s) 0 total [];
    let id := u8 (compression_pkt_id s + 1) in
    p ← compressed source id;
    Ok (set_out_packet p ((s <| PSarrayOUT := rest |>) <| compression_pkt_id := id |>))
  else
    match PSarrayOUT s with
    | [] => Fault OutOfBounds
    | p2 :: rest =>
        let len1 := MAX_COMPRESSED_PACKET_SIZE / 2 in
        let id1 := u8 (compression_pkt_id s + 1) in
        let id2 := u8 (id1 + 1) in
        a ← slice p2 0 len1;
        d1 ← compressed a id1;
        b ← slice p2 len1 (Z.of_nat (length p2) - len1);
        d2 ← compressed b id2;
        Ok (set_out_packet (d1 ++ d2) ((s <| PSarrayOUT := rest |>) <| compression_pkt_id := id2 |>))
    end.

(** Compression starts, if it was agreed, after the packet that ends the
    handshake. *)
Definition after_auth (s : stream) : stream :=
  let s := s <| client_auth_ok := false |> in
  if client_compress s then if negb (compression_min_length s =? 0) then s <| compression := true |> else s
  else (s <| compression_min_length := 0 |>) <| compression := false |>.
(** The next packet, if there is one; [idx] packets were taken. *)
Definition next_packet (idx : nat) (s : stream) : outcome (option (nat * stream)) :=
  if partial (queueOUT s) =? 0 then
    if bool_decide (idx < length (PSarrayOUT s))%nat then
      if compression s then s ← generate_compressed_packet s; Ok (Some (idx, s))
      else
        match PSarrayOUT s !! idx with
        | None => Fault OutOfBounds
        | Some p =>
            let s := set_out_packet p s in
            Ok (Some (S idx, if client_auth_ok s && bool_decide (S idx = length (PSarrayOUT s)) then after_auth s else s))
        end
    else Ok None
  else Ok (Some (idx, s)).
(** As many bytes of the packet as there is room for. *)
Definition copy_out (s : stream) : outcome (Z * stream) :=
  let q := queueOUT s in
  let b := if pkt_size q - partial q <? queue_available q then pkt_size q - partial q else queue_available q in
  bs ← match pkt_ptr q with Some p => slice p (partial q) b | None => if b =? 0 then Ok [] else Fault NullPointer end;
  q ← put bs q;
  let q := (queue_w b q) <| partial := partial q + b |> in
  if partial q =? pkt_size q then
    Ok (b, (s <| queueOUT := (q <| pkt_ptr := None |>) <| partial := 0 |> |>) <| pkts_sent := pkts_sent s + 1 |>)
  else Ok (b, s <| queueOUT := q |>).
Fixpoint array2buffer_loop (fuel : nat) (idx : nat) (ret : Z) (s : stream) : outcome (Z * stream) :=
  let exit := Ok (ret, s <| PSarrayOUT := drop idx (PSarrayOUT s) |>) in
  if queue_available (queueOUT s) =? 0 then exit
  else
    n ← next_packet idx s;
    match n with
    | None => exit
    | Some (idx, s) =>
        '(b, s) ← copy_out s;
        match fuel with O => Fault Diverges | S fuel' => array2buffer_loop fuel' idx b s end
    end.
(** Every turn fills room in the queue or takes an empty packet. *)
Definition out_fuel (s : stream) : nat := Z.to_nat (queue_available (queueOUT s)) + length (PSarrayOUT s).
Definition array2buffer (s : stream) : outcome (Z * stream) :=
  if mirror s then Ok (0, s <| PSarrayOUT := [] |>)
  else array2buffer_loop (out_fuel s) 0 0 s.
Fixpoint array2buffer_full_loop (fuel : nat) (s : stream) : outcome stream :=
  '(r, s) ← array2buffer s;
  if r =? 0 then Ok s else match fuel with O => Fault Diverges | S fuel' => array2buffer_full_loop fuel' s end.
Definition array2buffer_full (s : stream) : outcome stream := array2buffer_full_loop (out_fuel s) s.

(** [write_to_net] without TLS, when [send] returns [bytes_io]; also the bytes
    that were sent.  [pollout] is the bit of [revents], set as well when the
    stream is not polled. *)
Definition write_to_net (pollout : bool) (bytes_io : Z) (s : stream) : outcome (Z * list Z * stream) :=
  let n := queue_data (queueOUT s) in
  if n =? 0 then Ok (0, [], s)
  else if bytes_io <? 0 then Ok (bytes_io, [], if pollout then shut_soft s else s)
  else
    bs ← peek (queueOUT s) bytes_io;
    Ok (bytes_io, bs, s <| queueOUT := queue_r bytes_io (queueOUT s) |>).
End Output.

(** ** Result sets in one block *)
Definition resultset2buffer (resultset_length : Z) (malloc : Z → list Z) (resultset : list block) : outcome (list Z) :=
  let fix copy (bs : list block) (l : Z) (mybuff : list Z) : outcome (list Z) :=
    match bs with
    | [] => Ok mybuff
    | b :: bs' => mybuff ← blit mybuff l (bytes_of b); copy bs' (l + Z.of_nat (length (bytes_of b))) mybuff
    end in
  copy resultset 0 (malloc resultset_length).
Definition RESULTSET_BUFLEN_DS_1M : Z := 1000 * 1024.
(** The block that takes a packet of [l] bytes, [left] bytes before the end of the
    data: the one that is being filled, if it has room, or a new one; and the
    result set with the block that had no room. *)
Definition block_for (left l : Z) (buff : option block) (resultset : list block) : block * list block :=
  let bl := if RESULTSET_BUFLEN_DS_1M <=? left then RESULTSET_BUFLEN_DS_1M else RESULTSET_BUFLEN_DS_16K in
  let fresh := mk_block (if bl <? l then l else bl) [] in
  match buff with
  | Some b => if cap b - Z.of_nat (length (bytes_of b)) <? l then (fresh, resultset ++ [b]) else (b, resultset)
  | None => (fresh, resultset)
  end.
Fixpoint buffer2resultset_loop (fuel : nat) (data : list Z) (ptr_ : Z) (buff : option block) (resultset : list block) : outcome (list block) :=
  let sz := Z.of_nat (length data) in
  if ptr_ <? sz then
    match fuel with
    | O => Fault Diverges
    | S fuel' =>
        h ← slice data ptr_ 4;
        let l := hdr_length h + 4 in
        let '(b, resultset) := block_for (sz - ptr_) l buff resultset in
        p ← slice data ptr_ l;
        buffer2resultset_loop fuel' data (ptr_ + l) (Some (mk_block (cap b) (bytes_of b ++ p))) resultset
    end
  else Ok (match buff with Some b => resultset ++ [b] | None => resultset end).
(** Every packet has at least its header. *)
Definition buffer2resultset (data : list Z) (resultset : list block) : outcome (list block) :=
  buffer2resultset_loop (length data) data 0 None resultset.

(** ** Output without compression *)
Section PlainOutput.
Context (compress : Z → list Z → option (list Z)).

(** The bytes that are still to be sent, [idx] packets of the array being taken
    out already. *)
Definition rest_of_packet (q : queue) : list Z := if partial q =? 0 then [] else drop (Z.to_nat (partial q)) (default [] (pkt_ptr q)).
Definition to_send_from (idx : nat) (s : stream) : list Z :=
  window (queueOUT s) ++ rest_of_packet (queueOUT s) ++ concat (drop idx (PSarrayOUT s)).
Definition to_send (s : stream) : list Z := to_send_from 0 s.
Definition out_packet_ok (q : queue) : Prop :=
  partial q = 0 ∨ (∃ p, pkt_ptr q = Some p ∧ Z.of_nat (length p) = pkt_size q ∧ 0 < partial q < pkt_size q).
Definition out_ok (s : stream) : Prop :=
  wfq (queueOUT s) ∧ size (queueOUT s) = QUEUE_T_DEFAULT_SIZE ∧ out_packet_ok (queueOUT s) ∧ compression s = false ∧ mirror s = false ∧ client_auth_ok s = false ∧
  (queue_data (queueOUT s) = 0 → tail (queueOUT s) = 0).
Definition out_measure (idx : nat) (s : stream) : nat := Z.to_nat (queue_available (queueOUT s)) + (length (PSarrayOUT s) - idx).
(** Either the queue is full or everything is in it. *)
Definition flushed (s : stream) : Prop := queue_available (queueOUT s) = 0 ∨ (partial (queueOUT s) = 0 ∧ PSarrayOUT s = []).

Lemma window_put q bs b n : wfq q → Z.of_nat (length bs) <= queue_available q → blit (buffer q) (head q) bs = Ok b → n = Z.of_nat (length bs) →
  wfq (queue_w n (q <| buffer := b |>)) ∧ window (queue_w n (q <| buffer := b |>)) = window q ++ bs.
Proof. intros Hw Hl Eb ->. destruct (put_spec q bs Hw Hl) as (b' & E & ? & ?). rewrite Eb in E. injection E as <-. done. Qed.

(** The copy of a packet of which [partial] bytes are gone. *)
Lemma copy_out_spec idx s p : wfq (queueOUT s) → size (queueOUT s) = QUEUE_T_DEFAULT_SIZE → compression s = false → mirror s = false → client_auth_ok s = false →
  pkt_ptr (queueOUT s) = Some p → Z.of_nat (length p) = pkt_size (queueOUT s) → 0 <= partial (queueOUT s) <= pkt_size (queueOUT s) → 0 < queue_available (queueOUT s) →
  (queue_data (queueOUT s) = 0 → tail (queueOUT s) = 0) →
  ∃ b s', copy_out s = Ok (b, s') ∧ out_ok s' ∧ PSarrayOUT s' = PSarrayOUT s ∧ 0 <= b ∧
    to_send_from idx s' = window (queueOUT s) ++ drop (Z.to_nat (partial (queueOUT s))) p ++ concat (drop idx (PSarrayOUT s)) ∧
    queue_available (queueOUT s') = queue_available (queueOUT s) - b ∧ (partial (queueOUT s) < pkt_size (queueOUT s) → 0 < b).
Proof.
  intros Hw Hsz Hc Hm Ha Ep Lp Hpart Hav Hz. unfold copy_out. set (q := queueOUT s) in *. set (b := if _ <? _ then _ else _).
  assert (0 <= b <= queue_available q ∧ partial q + b <= pkt_size q ∧ (partial q < pkt_size q → 0 < b)) as (Hb1 & Hb2 & Hb3) by (unfold b; case_test; lia).
  rewrite Ep, slice_ok by lia. cbn [mbind outcome_bind]. set (bs := take (Z.to_nat b) _).
  assert (Z.of_nat (length bs) = b) as Lb by (unfold bs; rewrite length_take, length_drop; lia).
  unfold put. destruct (put_spec q bs Hw ltac:(lia)) as (bf & Ebf & _). rewrite Ebf. cbn [mbind outcome_bind].
  destruct (window_put q bs bf b Hw ltac:(lia) Ebf ltac:(lia)) as [Hw' Ew']. set (q1 := queue_w b (q <| buffer := bf |>)) in *.
  set (q2 := q1 <| partial := _ |>). assert (q2 = q1 <| partial := partial q + b |>) as Eq2 by done. clearbody q2.
  assert (queue_data (q1 <| partial := partial q + b |>) = 0 → tail q1 = 0) as Hzero.
  { unfold queue_data. cbn. destruct Hw as (_ & ? & _). intros H0. apply Hz. unfold queue_data. lia. }
  replace (partial q2) with (partial q + b) by (by rewrite Eq2). replace (pkt_size q2) with (pkt_size q) by (by rewrite Eq2). subst q2.
  assert (bs ++ drop (Z.to_nat (partial q + b)) p = drop (Z.to_nat (partial q)) p) as Ebs.
  { unfold bs. rewrite <- (take_drop (Z.to_nat b) (drop (Z.to_nat (partial q)) p)) at 2. rewrite drop_drop. f_equal. f_equal. lia. }
  destruct (Z.eqb_spec (partial q + b) (pkt_size q)) as [E|E]; eexists _, _; (split; [done|]).
  - set (s' := upd (proj := pkts_sent) _ _). set (q2 := ((q1 <| partial := partial q + b |>) <| pkt_ptr := None |>) <| partial := 0 |>).
    assert (queueOUT s' = q2) as Eq by done. split.
    { split; [exact Hw'|]. split; [done|]. split; [by left|]. by split_and!. }
    split; [done|]. split; [lia|]. split; [|split; [rewrite Eq; unfold queue_available; cbn; lia|exact Hb3]].
    unfold to_send_from, rest_of_packet. rewrite Eq. change (window q2) with (window q1). rewrite Ew'. cbn [partial q2 upd]. cbn [Z.eqb app].
    rewrite <- Ebs. rewrite (drop_ge p) by lia. by rewrite app_nil_r, <- app_assoc.
  - set (s' := upd (proj := queueOUT) _ s). set (q2 := q1 <| partial := partial q + b |>). assert (queueOUT s' = q2) as Eq by done. split.
    { split; [exact Hw'|]. split; [done|]. split; [|by split_and!]. right. exists p. rewrite Eq. cbn. split; [done|]. split; [done|]. lia. }
    split; [done|]. split; [lia|]. split; [|split; [rewrite Eq; unfold queue_available; cbn; lia|exact Hb3]].
    unfold to_send_from, rest_of_packet. rewrite Eq. change (window q2) with (window q1). rewrite Ew'. change (partial q2) with (partial q + b). change (pkt_ptr q2) with (pkt_ptr q).
    rewrite (proj2 (Z.eqb_neq (partial q + b) 0)), Ep by lia. cbn [default from_option id]. rewrite <- Ebs. by rewrite <- !app_assoc.
Qed.

(** A turn of the loop. *)
Lemma out_turn idx s : out_ok s → 0 < queue_available (queueOUT s) →
  (next_packet compress idx s = Ok None ∧ partial (queueOUT s) = 0 ∧ drop idx (PSarrayOUT s) = []) ∨
  (∃ idx' s1 b s2, next_packet compress idx s = Ok (Some (idx', s1)) ∧ copy_out s1 = Ok (b, s2) ∧ out_ok s2 ∧ 0 <= b ∧
    to_send_from idx' s2 = to_send_from idx s ∧ (out_measure idx' s2 < out_measure idx s)%nat ∧ PSarrayOUT s2 = PSarrayOUT s).
Proof.
  intros (Hw & Hsz & Hp & Hc & Hm & Ha & Hz) Hav. unfold next_packet. destruct (Z.eqb_spec (partial (queueOUT s)) 0) as [E0|E0].
  - case_bool_decide as Hi.
    2: { left. split; [done|]. split; [done|]. apply drop_ge. lia. }
    right. rewrite Hc. destruct (lookup_lt_is_Some_2 _ _ Hi) as [p Ep]. rewrite Ep. set (s1 := set_out_packet p s).
    change (client_auth_ok s1) with (client_auth_ok s). rewrite Ha. cbn [andb].
    destruct (copy_out_spec (S idx) s1 p) as (b & s2 & E & Hok2 & Ea2 & Hb & Ets & Eav & Hpos); try done; [cbn; rewrite E0; lia|].
    exists (S idx), s1, b, s2. split; [done|]. split; [done|]. split; [done|]. split; [done|].
    split; [|split; [unfold out_measure; rewrite Ea2, Eav; change (PSarrayOUT s1) with (PSarrayOUT s); change (queueOUT s1) with (((queueOUT s) <| pkt_size := Z.of_nat (length p) |>) <| pkt_ptr := Some p |>); unfold queue_available in *; cbn; lia|done]].
    rewrite Ets. unfold to_send_from, rest_of_packet. rewrite E0. cbn [Z.eqb app]. change (window (queueOUT s1)) with (window (queueOUT s)).
    change (partial (queueOUT s1)) with (partial (queueOUT s)). rewrite E0, drop_0. change (PSarrayOUT s1) with (PSarrayOUT s). f_equal.
    by rewrite (drop_S _ _ _ Ep).
  - right. destruct Hp as [?|(p & Ep & Lp & Hpart)]; [done|].
    destruct (copy_out_spec idx s p) as (b & s2 & E & Hok2 & Ea2 & Hb & Ets & Eav & Hpos); try done; [lia|].
    exists idx, s, b, s2. split; [done|]. split; [done|]. split; [done|]. split; [done|]. split; [|split; [|done]].
    + rewrite Ets. unfold to_send_from, rest_of_packet. by rewrite (proj2 (Z.eqb_neq _ 0)), Ep.
    + unfold out_measure. rewrite Ea2, Eav. specialize (Hpos ltac:(lia)). lia.
Qed.

Lemma array2buffer_loop_spec fuel idx ret s : out_ok s → (out_measure idx s ≤ fuel)%nat →
  ∃ r s', array2buffer_loop compress fuel idx ret s = Ok (r, s') ∧ out_ok s' ∧ to_send s' = to_send_from idx s ∧ flushed s' ∧
    (out_fuel s' ≤ out_measure idx s)%nat ∧ (r = ret ∨ (out_fuel s' < out_measure idx s)%nat).
Proof.
  revert idx ret s. induction fuel as [|fuel IH]; intros idx ret s Hok Hf; cbn [array2buffer_loop];
    set (s' := s <| PSarrayOUT := drop idx (PSarrayOUT s) |>);
    assert (out_ok s' ∧ to_send s' = to_send_from idx s ∧ out_fuel s' = out_measure idx s) as (Hok' & Ets & Em)
      by (split; [exact Hok|]; split; [done|]; unfold out_fuel, out_measure; change (PSarrayOUT s') with (drop idx (PSarrayOUT s)); by rewrite length_drop);
    (destruct (Z.eqb_spec (queue_available (queueOUT s)) 0) as [E|E];
      [exists ret, s'; split; [done|]; split; [done|]; split; [done|]; split; [by left|]; split; [lia|by left]|]);
    assert (0 < queue_available (queueOUT s)) as Hav by (destruct Hok as ((_ & ? & ?) & _); unfold queue_available in *; lia);
    (destruct (out_turn idx s Hok Hav) as [(-> & E0 & Ed)|(idx' & s1 & b & s2 & -> & E2 & Hok2 & Hb & Ets2 & Hm2 & Ea2)]; cbn [mbind outcome_bind];
      [exists ret, s'; split; [done|]; split; [done|]; split; [done|]; split; [right; split; [exact E0|exact Ed]|]; split; [lia|by left]|]);
    rewrite E2; cbn [mbind outcome_bind]; [lia|].
  destruct (IH idx' b s2 Hok2 ltac:(lia)) as (r & s3 & E3 & Hok3 & Ets3 & Hfl & Hm3 & _). exists r, s3. split; [done|]. split; [done|].
  split; [by rewrite Ets3, Ets2|]. split; [done|]. split; [lia|right; lia].
Qed.
Lemma array2buffer_spec s : out_ok s →
  ∃ r s', array2buffer compress s = Ok (r, s') ∧ out_ok s' ∧ to_send s' = to_send s ∧ flushed s' ∧ (r = 0 ∨ (out_fuel s' < out_fuel s)%nat).
Proof.
  intros Hok. unfold array2buffer. pose proof Hok as (_ & _ & _ & _ & -> & _). assert (out_measure 0 s = out_fuel s) as Em by (unfold out_measure, out_fuel; lia).
  destruct (array2buffer_loop_spec (out_fuel s) 0 0 s Hok) as (r & s' & E & Hok' & Ets & Hfl & _ & Hm); [lia|]. exists r, s'. rewrite Em in Hm. by split_and!.
Qed.
Lemma array2buffer_full_spec s : out_ok s →
  ∃ s', array2buffer_full compress s = Ok s' ∧ out_ok s' ∧ to_send s' = to_send s ∧ flushed s'.
Proof.
  unfold array2buffer_full. enough (∀ fuel s, out_ok s → (out_fuel s ≤ fuel)%nat →
    ∃ s', array2buffer_full_loop compress fuel s = Ok s' ∧ out_ok s' ∧ to_send s' = to_send s ∧ flushed s') as H by (intros Hok; by apply H).
  clear s. intros fuel.
  induction fuel as [|fuel IH]; intros s Hok Hf; cbn [array2buffer_full_loop]; destruct (array2buffer_spec s Hok) as (r & s1 & -> & Hok1 & Ets & Hfl & Hm);
    cbn [mbind outcome_bind]; (destruct (Z.eqb_spec r 0) as [E|E]; [by exists s1|]); (destruct Hm as [?|Hm]; [done|]); [lia|].
  destruct (IH s1 Hok1 ltac:(lia)) as (s2 & E2 & Hok2 & Ets2 & Hfl2). exists s2. split; [done|]. split; [done|]. split; [by rewrite Ets2, Ets|done].
Qed.
Lemma write_to_net_spec pollout n s : out_ok s → 0 <= n <= queue_data (queueOUT s) →
  ∃ r w s', write_to_net pollout n s = Ok (r, w, s') ∧ out_ok s' ∧ w ++ to_send s' = to_send s ∧ Z.of_nat (length w) = n ∧ PSarrayOUT s' = PSarrayOUT s.
Proof.
  intros (Hw & Hsz & Hp & Hc & Hm & Ha & Hz) Hn. unfold write_to_net. destruct (Z.eqb_spec (queue_data (queueOUT s)) 0) as [E|E].
  { exists 0, [], s. split; [done|]. split; [by split_and!|]. split; [done|]. split; [cbn; lia|done]. }
  rewrite (proj2 (Z.ltb_ge n 0)) by lia. rewrite peek_spec by done. cbn [mbind outcome_bind]. eexists _, _, _. split; [done|].
  destruct (queue_r_spec (queueOUT s) n Hw Hn) as (Hw' & Ew & Es & Ed & Et). destruct (queue_r_keeps (queueOUT s) n) as (E1 & E2 & E3).
  set (q := queue_r n (queueOUT s)) in *. set (s' := s <| queueOUT := q |>). assert (queueOUT s' = q) as Eq by done. split.
  { split; [by rewrite Eq|]. split; [by rewrite Eq, Es|]. split; [rewrite Eq; unfold out_packet_ok; rewrite E1, E2, E3; exact Hp|]. split; [done|]. split; [done|]. split; [done|]. by rewrite Eq. }
  split; [|split; [pose proof (window_length _ Hw); rewrite length_take; lia|done]]. unfold to_send, to_send_from, rest_of_packet. rewrite Eq, Ew, E1, E3.
  change (PSarrayOUT s') with (PSarrayOUT s). rewrite app_assoc. f_equal. apply take_drop.
Qed.

(** *** Histories of the output *)
(** The session adds a packet, the packets are moved to the queue, and the socket
    takes at most [n] bytes. *)
Inductive out_step := Push (p : list Z) | Flush | Send (n : nat).
Definition push_out (p : list Z) (s : stream) : stream := s <| PSarrayOUT := PSarrayOUT s ++ [p] |>.
Fixpoint send_all (steps : list out_step) (s : stream) : outcome (list Z * stream) :=
  match steps with
  | [] => Ok ([], s)
  | Push p :: steps' => send_all steps' (push_out p s)
  | Flush :: steps' => s ← array2buffer_full compress s; send_all steps' s
  | Send n :: steps' =>
      '(_, w, s) ← write_to_net true (Z.min (Z.of_nat n) (queue_data (queueOUT s))) s;
      '(w', s) ← send_all steps' s;
      Ok (w ++ w', s)
  end.
Definition pushed (steps : list out_step) : list (list Z) := omap (λ st, match st with Push p => Some p | _ => None end) steps.

Lemma to_send_push p s : to_send (push_out p s) = to_send s ++ p.
Proof.
  unfold to_send, to_send_from. rewrite !drop_0. change (queueOUT (push_out p s)) with (queueOUT s). change (PSarrayOUT (push_out p s)) with (PSarrayOUT s ++ [p]).
  rewrite concat_app. cbn. by rewrite app_nil_r, !app_assoc.
Qed.
Lemma send_all_spec steps s : out_ok s →
  ∃ w s', send_all steps s = Ok (w, s') ∧ out_ok s' ∧ w ++ to_send s' = to_send s ++ concat (pushed steps).
Proof.
  revert s. induction steps as [|[p| |n] steps IH]; intros s Hok; cbn [send_all].
  - exists [], s. split; [done|]. split; [done|]. by rewrite app_nil_r.
  - destruct (IH (push_out p s)) as (w & s' & E & Hok' & Ew); [exact Hok|]. exists w, s'. split; [done|]. split; [done|].
    rewrite Ew, to_send_push. cbn. by rewrite <- app_assoc.
  - destruct (array2buffer_full_spec s Hok) as (s1 & -> & Hok1 & Ets & _). cbn [mbind outcome_bind].
    destruct (IH s1 Hok1) as (w & s' & E & Hok' & Ew). exists w, s'. split; [done|]. split; [done|]. by rewrite Ew, Ets.
  - assert (0 <= queue_data (queueOUT s)) by (destruct Hok as ((_ & ? & _) & _); unfold queue_data; lia).
    destruct (write_to_net_spec true (Z.min (Z.of_nat n) (queue_data (queueOUT s))) s Hok) as (r & w & s1 & -> & Hok1 & Ew1 & _); [lia|]. cbn [mbind outcome_bind].
    destruct (IH s1 Hok1) as (w' & s' & -> & Hok' & Ew'). cbn [mbind outcome_bind]. exists (w ++ w'), s'. split; [done|]. split; [done|].
    by rewrite <- app_assoc, Ew', app_assoc, Ew1.
Qed.
(** Turns of the thread, each of which sends at least a byte if there is one. *)
Definition turns (ns : list nat) : list out_step := concat ((λ n, [Flush; Send (S n)]) <$> ns).
Lemma turns_send ns s : out_ok s → (length (to_send s) ≤ length ns)%nat →
  ∃ w s', send_all (turns ns) s = Ok (w, s') ∧ out_ok s' ∧ w = to_send s ∧ to_send s' = [].
Proof.
  revert s. induction ns as [|n ns IH]; intros s Hok Hl.
  { exists [], s. split; [done|]. split; [done|]. destruct (to_send s) as [|]; [done|cbn in Hl; lia]. }
  cbn [turns concat fmap list_fmap app send_all]. destruct (array2buffer_full_spec s Hok) as (s1 & -> & Hok1 & Ets & Hfl). cbn [mbind outcome_bind].
  assert (0 <= queue_data (queueOUT s1)) by (destruct Hok1 as ((_ & ? & _) & _); unfold queue_data; lia).
  destruct (write_to_net_spec true (Z.min (Z.of_nat (S n)) (queue_data (queueOUT s1))) s1 Hok1) as (r & w & s2 & -> & Hok2 & Ew2 & Lw & _); [lia|]. cbn [mbind outcome_bind].
  assert (length (to_send s2) ≤ length ns)%nat as Hl2.
  { rewrite <- Ets, <- Ew2, length_app in Hl. cbn [length] in Hl. destruct (decide (to_send s1 = [])) as [E|E].
    - rewrite E in Ew2. apply app_eq_nil in Ew2 as [_ ->]. cbn. lia.
    - assert (0 < queue_data (queueOUT s1)); [|lia]. destruct Hok1 as (Hw1 & Hsz1 & Hp1 & _ & _ & _ & Hz1). pose proof Hw1 as (_ & Ht1 & _).
      destruct Hfl as [Hfl|[Hf0 Hfa]].
      + destruct (Z.eq_dec (queue_data (queueOUT s1)) 0) as [E0|]; [|lia]. specialize (Hz1 E0). unfold queue_available, queue_data, QUEUE_T_DEFAULT_SIZE in *. lia.
      + unfold to_send, to_send_from, rest_of_packet in E. rewrite Hf0, Hfa in E. cbn in E. rewrite app_nil_r in E. pose proof (window_length _ Hw1) as Hlw.
        destruct (window (queueOUT s1)); [done|cbn in Hlw; lia]. }
  destruct (IH s2 Hok2 Hl2) as (w' & s3 & E & Hok3 & -> & E3). unfold turns in E. rewrite E. cbn [mbind outcome_bind]. exists (w ++ to_send s2), s3.
  split; [done|]. split; [done|]. split; [by rewrite Ew2|done].
Qed.

(** The bytes on the wire are the packets, in order.  Over any history of
    packets added, moved to the queue and sent in pieces of any size, what was
    sent and what is still held are together the packets that were added; and
    once nothing is added any more, turns of the thread in which the socket takes
    at least a byte send everything. *)
Theorem output_sends_packets steps ns s : out_ok s → to_send s = [] → (length (concat (pushed steps)) ≤ length ns)%nat →
  ∃ w s1 w' s2, send_all steps s = Ok (w, s1) ∧ w ++ to_send s1 = concat (pushed steps) ∧
    send_all (turns ns) s1 = Ok (w', s2) ∧ w ++ w' = concat (pushed steps) ∧ to_send s2 = [].
Proof.
  intros Hok E0 Hl. destruct (send_all_spec steps s Hok) as (w & s1 & E1 & Hok1 & Ew). rewrite E0 in Ew. cbn [app] in Ew.
  assert (length (to_send s1) ≤ length ns)%nat as Hl1 by (rewrite <- Ew, length_app in Hl; lia).
  destruct (turns_send ns s1 Hok1 Hl1) as (w' & s2 & E2 & _ & -> & E3). by exists w, s1, (to_send s1), s2.
Qed.
End PlainOutput.
Lemma output_sends_packets_witness :
  ∃ w s1 w' s2, send_all (λ _ _, None) [Push [1;0;0;0;14]; Flush; Send 3; Push [1;0;0;1;14]] waiting_stream = Ok (w, s1) ∧
    w ++ to_send s1 = concat (pushed [Push [1;0;0;0;14]; Flush; Send 3; Push [1;0;0;1;14]]) ∧
    send_all (λ _ _, None) (turns (replicate 12 0%nat)) s1 = Ok (w', s2) ∧
    w ++ w' = concat (pushed [Push [1;0;0;0;14]; Flush; Send 3; Push [1;0;0;1;14]]) ∧ to_send s2 = [].
Proof.
  apply output_sends_packets.
  - split; [exact (proj1 (proj1 waiting_ready))|]. split; [done|]. split; [by left|]. by split_and!.
  - done.
  - cbn. lia.
Defined.

(** ** From one stream to another *)
Lemma packet_prefix qs ps x : Forall is_packet qs → Forall is_packet ps → concat qs ++ x = concat ps → qs `prefix_of` ps.
Proof.
  intros Hq. revert ps. induction Hq as [|q qs Hq Hqs IH]; intros ps Hp E; [by apply prefix_nil|]. destruct Hp as [|p ps Hp Hps].
  - destruct Hq as [H4 _]. cbn in E. apply (f_equal length) in E. rewrite !length_app in E. cbn in E. lia.
  - cbn in E. rewrite <- app_assoc in E. assert (length q = length p) as El.
    { destruct Hq as [Hq4 Hq], Hp as [Hp4 Hp]. apply (f_equal hdr_length) in E. rewrite !hdr_length_app in E by lia. lia. }
    apply app_inj_1 in E as [-> E]; [|done]. apply prefix_cons. by apply IH.
Qed.
Lemma settled_open s : settled s → open_packet (queueIN s).
Proof. unfold settled, open_packet. intros [_ H]. destruct (Z.eqb_spec (pkt_size (queueIN s)) 0); [by left|right; lia]. Qed.

(** C10: Packets travel from one stream to another.  Neither side compresses,
    uses TLS or forwards without looking, and the receiving one is past the first
    packet of its connection, with nothing under way ([ready]).  Whatever is
    added, flushed and sent on one side and however the bytes are read on the
    other, the packets that have arrived are the first ones that were added; once
    nothing is added any more, enough turns of the two threads deliver all of
    them, whole, in order and once. *)
Theorem packets_travel compress malloc uncompress inet_pton networks steps ns reads1 reads2 s r :
  (∀ n, 0 <= n → Z.of_nat (length (malloc n)) = n) →
  out_ok s → to_send s = [] → ready r → Forall is_packet (pushed steps) → bytes_ok (concat (pushed steps)) →
  (length (concat (pushed steps)) ≤ length ns)%nat → (length (concat (pushed steps)) ≤ length reads2)%nat →
  ∃ w s1 r1 rest qs w' s2 r2,
    send_all compress steps s = Ok (w, s1) ∧ receive malloc uncompress inet_pton networks reads1 w r = Ok (r1, rest) ∧
    PSarrayIN r1 = PSarrayIN r ++ (whole <$> qs) ∧ qs `prefix_of` pushed steps ∧
    send_all compress (turns ns) s1 = Ok (w', s2) ∧ receive malloc uncompress inet_pton networks reads2 (rest ++ w') r1 = Ok (r2, []) ∧
    PSarrayIN r2 = PSarrayIN r ++ (whole <$> pushed steps) ∧ to_send s2 = [] ∧ pending r2 = [].
Proof.
  intros Hmalloc Hok E0 (Hrok & Hro & Hrset & Hrp) Hps Hb Hns Hreads.
  destruct (send_all_spec compress steps s Hok) as (w & s1 & E1 & Hok1 & Ew). rewrite E0 in Ew. cbn [app] in Ew.
  assert (length (to_send s1) ≤ length ns)%nat as Hl1 by (rewrite <- Ew, length_app in Hns; lia).
  destruct (turns_send compress ns s1 Hok1 Hl1) as (w' & s2 & E2 & _ & -> & E3).
  rewrite <- Ew in Hb. apply Forall_app in Hb as [Hbw Hbt].
  destruct (receive_delivers malloc uncompress inet_pton Hmalloc networks reads1 w r Hrok Hro Hrset Hbw) as (r1 & rest & c1 & qs & F1 & Hr1 & Hset1 & Ew1 & Hqs & Ep1 & Ea1 & _).
  assert (bytes_ok (rest ++ to_send s1)) as Hb2 by (apply Forall_app; split; [|done]; rewrite Ew1 in Hbw; by apply Forall_app in Hbw as [_ ?]).
  destruct (receive_delivers malloc uncompress inet_pton Hmalloc networks reads2 (rest ++ to_send s1) r1 Hr1 (settled_open _ Hset1) Hset1 Hb2)
    as (r2 & rest2 & c2 & qs2 & F2 & Hr2 & Hset2 & Ew2 & Hqs2 & Ep2 & Ea2 & Hl2).
  assert (rest2 = []) as ->.
  { apply nil_length_inv. rewrite length_app in Hl2. rewrite <- Ew, Ew1, !length_app in Hreads. lia. }
  rewrite app_nil_r in Ew2. subst c2. rewrite Hrp in Ep1. cbn [app] in Ep1.
  assert (concat (qs ++ qs2) ++ pending r2 = concat (pushed steps)) as Eall.
  { by rewrite concat_app, <- app_assoc, <- Ep2, app_assoc, <- Ep1, app_assoc, <- Ew1, Ew. }
  pose proof (packets_concat (qs ++ qs2) (pending r2) ltac:(by apply Forall_app) (settled_incomplete _ Hr2 Hset2)) as H1.
  rewrite Eall in H1. pose proof (packets_concat (pushed steps) [] Hps ltac:(left; cbn; lia)) as H2. rewrite app_nil_r, H1 in H2. injection H2 as Eqs Ep.
  exists w, s1, r1, rest, qs, (to_send s1), s2, r2. split; [done|]. split; [done|]. split; [done|]. split; [by exists qs2|].
  split; [done|]. split; [done|]. split; [|done]. by rewrite Ea2, Ea1, <- Eqs, fmap_app, app_assoc.
Qed.
Lemma waiting_out_ok : out_ok waiting_stream.
Proof. split; [exact (proj1 (proj1 waiting_ready))|]. split; [done|]. split; [by left|]. by split_and!. Qed.
Lemma packets_travel_witness :
  let steps := [Push [1;0;0;0;14]; Flush; Send 3; Push [1;0;0;1;14]] in
  ∃ w s1 r1 rest qs w' s2 r2,
    send_all (λ _ _, None) steps waiting_stream = Ok (w, s1) ∧
    receive (λ n, replicate (Z.to_nat n) 0) (λ _ _, None) (λ _ _, None) [] [1%nat] w waiting_stream = Ok (r1, rest) ∧
    PSarrayIN r1 = [] ++ (whole <$> qs) ∧ qs `prefix_of` pushed steps ∧
    send_all (λ _ _, None) (turns (replicate 12 0%nat)) s1 = Ok (w', s2) ∧
    receive (λ n, replicate (Z.to_nat n) 0) (λ _ _, None) (λ _ _, None) [] (replicate 10 2%nat) (rest ++ w') r1 = Ok (r2, []) ∧
    PSarrayIN r2 = [] ++ (whole <$> pushed steps) ∧ to_send s2 = [] ∧ pending r2 = [].
Proof.
  apply packets_travel.
  - intros n Hn. rewrite length_replicate. lia.
  - exact waiting_out_ok.
  - done.
  - exact waiting_ready.
  - constructor; [split; [cbn; lia|reflexivity]|]. constructor; [split; [cbn; lia|reflexivity]|constructor].
  - apply (bool_decide_unpack (Forall (λ b, 0 <= b < 256) _)). vm_compute. exact I.
  - cbn. lia.
  - cbn. lia.
Defined.

(** ** The first packet *)
(** The first packet is read without a check of the room in the queue.  For
    any answers that [recv] can give, the two reads stay in the buffer of the
    queue exactly as long as what the second one delivers fits behind the header;
    a header that announces more lets the peer write past the buffer. *)
Theorem first_packet_bounds malloc h bs : (∀ n, 0 <= n → Z.of_nat (length (malloc n)) = n) → length h = 4%nat → Z.of_nat (length bs) <= hdr_length h →
  let q := queue_init malloc QUEUE_T_DEFAULT_SIZE in
  if bool_decide (Z.of_nat (length bs) <= QUEUE_T_DEFAULT_SIZE - 4) then
    ∃ q', recv_first (Received h) (Received bs) q = Ok (4 + Z.of_nat (length bs), Received bs, q') ∧ window (queue_w (4 + Z.of_nat (length bs)) q') = h ++ bs
  else recv_first (Received h) (Received bs) q = Fault OutOfBounds.
Proof.
  intros Hm Lh Hb q. pose proof (Hm QUEUE_T_DEFAULT_SIZE ltac:(unfold QUEUE_T_DEFAULT_SIZE; lia)) as Lm. fold (buffer q) in Lm.
  assert (QUEUE_T_DEFAULT_SIZE = 32768) as Es by done. unfold recv_first. cbn [recv_at rc_of]. rewrite Lh. cbn [Z.of_nat Pos.of_succ_nat Z.ltb Z.compare Pos.compare Pos.compare_cont].
  change (head q + 0) with 0. change (buffer q) with (malloc QUEUE_T_DEFAULT_SIZE) in *. set (m := malloc QUEUE_T_DEFAULT_SIZE) in *.
  rewrite blit_ok by lia. cbn [mbind outcome_bind Z.eqb]. rewrite take_0, Lh. cbn [app]. set (m1 := h ++ drop _ m).
  assert (length m1 = length m) as L1 by (unfold m1; rewrite length_app, length_drop; lia).
  change (4 <? Z.of_nat 4) with false. change (Z.of_nat 4 =? 4) with true. cbv iota. cbn [mbind outcome_bind].
  change (buffer (q <| buffer := m1 |>)) with m1. change (head (q <| buffer := m1 |>) + 4) with 4. rewrite slice_ok by lia. cbn [mbind outcome_bind].
  rewrite drop_0. replace (take (Z.to_nat 4) m1) with h by (unfold m1; rewrite take_app_le by (rewrite Lh; done); symmetry; apply take_ge; by rewrite Lh).
  rewrite (proj2 (Z.ltb_ge _ _)) by lia.
  case_bool_decide as Hfit.
  - rewrite blit_ok by lia. cbn [mbind outcome_bind]. eexists. split; [done|]. unfold window, queue_data. cbn.
    rewrite drop_0, Z.sub_0_r. unfold m1. rewrite (take_app_le h) by (rewrite Lh; done). rewrite (take_ge h) by (rewrite Lh; done).
    rewrite app_assoc, take_app_le by (rewrite length_app; lia). apply take_ge. rewrite length_app. lia.
  - unfold blit. rewrite orb_true_intro; [done|]. right. apply Z.ltb_lt. lia.
Qed.
Lemma first_packet_bounds_witness :
  let q := queue_init (λ n, replicate (Z.to_nat n) 0) QUEUE_T_DEFAULT_SIZE in
  if bool_decide (Z.of_nat (length [1]) <= QUEUE_T_DEFAULT_SIZE - 4) then
    ∃ q', recv_first (Received [1;0;0;0]) (Received [1]) q = Ok (4 + Z.of_nat (length [1]), Received [1], q') ∧
      window (queue_w (4 + Z.of_nat (length [1])) q') = [1;0;0;0] ++ [1]
  else recv_first (Received [1;0;0;0]) (Received [1]) q = Fault OutOfBounds.
Proof.
  apply (first_packet_bounds (λ n, replicate (Z.to_nat n) 0) [1;0;0;0] [1]).
  - intros n Hn. rewrite length_replicate. lia.
  - done.
  - vm_compute. done.
Defined.

(** ** Fast forward *)
(** Every block has room for at least 16000 bytes, as the ones that fast forward
    itself allocates have. *)
Definition roomy (b : block) : Prop := Z.of_nat (length (bytes_of b)) <= cap b ∧ RESULTSET_BUFLEN_DS_16K <= cap b.
Lemma new_block_spec c s : wfq (queueIN s) → queue_data (queueIN s) <= c →
  ∃ s', new_block c s = Ok s' ∧ wfq (queueIN s') ∧ queue_data (queueIN s') = 0 ∧ PSarrayIN s' = PSarrayIN s ++ [mk_block c (window (queueIN s))].
Proof.
  intros Hw Hc. unfold new_block. assert (0 <= queue_data (queueIN s)) by (destruct Hw as (_ & ? & _); unfold queue_data; lia).
  rewrite peek_spec by (done || lia). cbn [mbind outcome_bind]. eexists. split; [done|]. destruct (queue_r_spec (queueIN s) (queue_data (queueIN s)) Hw ltac:(lia)) as (Hw' & _ & _ & Ed & _).
  split; [exact Hw'|]. split; [cbn in *; lia|]. pose proof (window_length _ Hw). cbn. rewrite take_ge by lia. done.
Qed.

(** Fast forward moves bytes, not packets.  All the bytes of the queue go to
    the end of the array, in order, to the last block if it has room for them and
    to a new one otherwise; the queue is empty then, and the blocks keep room for
    16000 bytes, which is what the next turn relies on when it appends. *)
Theorem fast_forward_moves s : wfq (queueIN s) → Forall roomy (PSarrayIN s) →
  ∃ s', fast_forward s = Ok (queue_data (queueIN s), s') ∧ queue_data (queueIN s') = 0 ∧ wfq (queueIN s') ∧ pkt_size (queueIN s') = 0 ∧
    concat (bytes_of <$> PSarrayIN s') = concat (bytes_of <$> PSarrayIN s) ++ window (queueIN s) ∧ Forall roomy (PSarrayIN s').
Proof.
  intros Hw Hb. unfold fast_forward. set (s0 := if pkts_recv s =? 0 then _ else s).
  assert (queueIN s0 = queueIN s ∧ PSarrayIN s0 = PSarrayIN s) as [Eq Ea] by (unfold s0; by case_test).
  pose proof (window_length _ Hw) as Hl. set (n := queue_data (queueIN s)) in *. rewrite Eq. fold n.
  assert (0 <= n) as Hn by lia. clearbody s0.
  assert (∀ c, n <= c → RESULTSET_BUFLEN_DS_16K <= c → ∃ s', (s ← new_block c s0; Ok (n, s <| queueIN := (queueIN s) <| pkt_size := 0 |> |>)) = Ok (n, s') ∧
    queue_data (queueIN s') = 0 ∧ wfq (queueIN s') ∧ pkt_size (queueIN s') = 0 ∧
    concat (bytes_of <$> PSarrayIN s') = concat (bytes_of <$> PSarrayIN s) ++ window (queueIN s) ∧ Forall roomy (PSarrayIN s')) as Hnew.
  { intros c Hc H16. destruct (new_block_spec c s0) as (s1 & -> & Hw1 & Ed1 & Ea1); [by rewrite Eq|by rewrite Eq|]. cbn [mbind outcome_bind]. eexists. split; [done|].
    split; [exact Ed1|]. split; [exact Hw1|]. split; [done|]. change (PSarrayIN (s1 <| queueIN := _ |>)) with (PSarrayIN s1). rewrite Ea1, Eq, Ea.
    split; [by rewrite fmap_app, concat_app; cbn; rewrite app_nil_r|]. apply Forall_app. split; [done|]. constructor; [|constructor]. split; cbn; lia. }
  destruct (Z.leb_spec RESULTSET_BUFLEN_DS_16K n) as [E|E]; [by apply Hnew|]. rewrite Ea.
  destruct (last (PSarrayIN s)) as [b|] eqn:El; [|apply Hnew; lia]. destruct (Z.ltb_spec RESULTSET_BUFLEN_DS_16K (Z.of_nat (length (bytes_of b)) + n)) as [E2|E2]; [apply Hnew; lia|].
  rewrite peek_spec by (done || lia). cbn [mbind outcome_bind]. rewrite (take_ge (window _)) by lia.
  apply last_Some in El as [bs Ebs]. rewrite Ebs in Hb |- *. apply Forall_app in Hb as [Hbs Hb]. inversion Hb as [|? ? [Hb1 Hb2] _]; subst.
  rewrite (proj2 (Z.ltb_ge _ _)) by lia. cbn [mbind outcome_bind]. eexists. split; [done|].
  destruct (queue_r_spec (queueIN s) n Hw ltac:(lia)) as (Hw' & _ & _ & Ed & _). rewrite removelast_last. cbn -[queue_r queue_data wfq]. rewrite ?Eq.
  split; [change (queue_data (queue_r n (queueIN s)) = 0); lia|]. split; [exact Hw'|]. split; [done|].
  split; [rewrite !fmap_app, !concat_app; cbn; by rewrite !app_nil_r, app_assoc|]. apply Forall_app. split; [done|]. constructor; [|constructor].
  split; cbn; [rewrite length_app; lia|done].
Qed.
Definition forwarding_stream : stream :=
  (waiting_stream <| queueIN := mk_queue [7;1;2;3] 4 4 1 0 None 0 |>) <| PSarrayIN := [mk_block 16000 [9]] |>.
Lemma fast_forward_moves_witness :
  ∃ s', fast_forward forwarding_stream = Ok (3, s') ∧ queue_data (queueIN s') = 0 ∧ wfq (queueIN s') ∧ pkt_size (queueIN s') = 0 ∧
    concat (bytes_of <$> PSarrayIN s') = [9] ++ [1;2;3] ∧ Forall roomy (PSarrayIN s').
Proof.
  apply (fast_forward_moves forwarding_stream).
  - split; [done|]. split; cbn; lia.
  - constructor; [|constructor]. split; vm_compute; done.
Defined.

(** ** Result sets as one block *)
Definition stored (bs : list block) : list Z := concat (bytes_of <$> bs).
Definition fits (b : block) : Prop := Z.of_nat (length (bytes_of b)) <= cap b.
Lemma block_for_spec left l buff rs : 0 <= l → from_option fits True buff →
  ∃ b bs, block_for left l buff rs = (b, rs ++ bs) ∧ stored bs ++ bytes_of b = from_option bytes_of [] buff ∧ Forall fits bs ∧ Z.of_nat (length (bytes_of b)) + l <= cap b.
Proof.
  intros Hl Hb. unfold block_for. set (bl := if RESULTSET_BUFLEN_DS_1M <=? left then _ else _). destruct buff as [b|]; cbn [from_option] in *.
  - destruct (Z.ltb_spec (cap b - Z.of_nat (length (bytes_of b))) l) as [E|E].
    + eexists _, [b]. split; [done|]. cbn. split; [by rewrite !app_nil_r|]. split; [by repeat constructor|]. case_test; lia.
    + exists b, []. rewrite app_nil_r. split; [done|]. split; [done|]. split; [constructor|lia].
  - eexists _, []. rewrite app_nil_r. split; [done|]. split; [done|]. split; [constructor|]. cbn. case_test; lia.
Qed.
Lemma buffer2resultset_loop_spec fuel done_ ps buff rs : Forall is_packet ps → (length ps ≤ fuel)%nat → from_option fits True buff →
  ∃ bs, buffer2resultset_loop fuel (done_ ++ concat ps) (Z.of_nat (length done_)) buff rs = Ok (rs ++ bs) ∧
    stored bs = from_option bytes_of [] buff ++ concat ps ∧ (Forall fits rs → Forall fits (rs ++ bs)).
Proof.
  intros Hps. revert fuel done_ buff rs. induction Hps as [|p ps Hp Hps IH]; intros fuel done_ buff rs Hf Hb.
  { destruct fuel; cbn [buffer2resultset_loop concat]; rewrite app_nil_r, Z.ltb_irrefl;
      (destruct buff as [b|]; [exists [b]|exists []]); (split; [by rewrite ?app_nil_r|]; split; [by cbn; rewrite ?app_nil_r|]; intros Hrs; apply Forall_app; split; [done|by repeat constructor]). }
  destruct fuel as [|fuel]; [cbn in Hf; lia|]. pose proof Hp as [H4 Hlen]. cbn [buffer2resultset_loop concat].
  rewrite !length_app. rewrite (proj2 (Z.ltb_lt _ _)) by lia. rewrite slice_ok by (rewrite ?length_app; lia). cbn [mbind outcome_bind].
  rewrite Nat2Z.id, drop_app_length. replace (hdr_length (take (Z.to_nat 4) (p ++ concat ps)) + 4) with (Z.of_nat (length p))
    by (rewrite hdr_length_take, hdr_length_app by (lia || done); lia).
  destruct (block_for_spec (Z.of_nat (length done_ + (length p + length (concat ps))) - Z.of_nat (length done_)) (Z.of_nat (length p)) buff rs)
    as (b & bs0 & -> & Ebs & Hbs & Hroom); [lia|done|].
  rewrite slice_ok by (rewrite ?length_app; lia). cbn [mbind outcome_bind]. rewrite !Nat2Z.id, drop_app_length, take_app_length.
  destruct (IH fuel (done_ ++ p) (Some (mk_block (cap b) (bytes_of b ++ p))) (rs ++ bs0)) as (bs & E & Es & Hfit).
  { cbn in Hf. lia. }
  { cbn [from_option]. unfold fits. cbn. rewrite length_app. lia. }
  rewrite <- app_assoc, length_app, Nat2Z.inj_add in E. rewrite E. exists (bs0 ++ bs). split; [by rewrite app_assoc|]. split.
  - unfold stored in *. rewrite fmap_app, concat_app, Es. cbn [from_option bytes_of]. by rewrite <- app_assoc, <- Ebs, <- app_assoc.
  - intros Hrs. rewrite app_assoc. apply Hfit. by apply Forall_app.
Qed.
Lemma resultset2buffer_spec l malloc bs : Z.of_nat (length (malloc l)) = l → l = Z.of_nat (length (stored bs)) → resultset2buffer l malloc bs = Ok (stored bs).
Proof.
  intros Hm Hl. unfold resultset2buffer. set (copy := fix copy (bs : list block) (l : Z) (mybuff : list Z) : outcome (list Z) := _).
  assert (∀ bs pre post, length post = length (stored bs) → copy bs (Z.of_nat (length pre)) (pre ++ post) = Ok (pre ++ stored bs)) as H.
  { clear. intros bs. induction bs as [|b bs IH]; intros pre post Hp.
    - apply nil_length_inv in Hp as ->. done.
    - unfold stored in Hp. cbn in Hp. rewrite length_app in Hp. cbn [copy]. rewrite blit_ok by (rewrite ?length_app; lia). cbn [mbind outcome_bind].
      rewrite Nat2Z.id, take_app_length, drop_app_add, app_assoc. replace (Z.of_nat (length pre) + _) with (Z.of_nat (length (pre ++ bytes_of b))) by (rewrite length_app; lia).
      fold copy. rewrite IH by (rewrite length_drop; unfold stored; lia). unfold stored. cbn. by rewrite <- app_assoc. }
  apply (H bs [] (malloc l)). lia.
Qed.

(** A result set survives being flattened and cut again, as the query cache
    does with it.  The bytes of any packets are cut into blocks without an access
    out of bounds, no block is filled past its size, and copying the blocks into
    one buffer of the right length gives the same bytes. *)
Theorem resultset_roundtrip malloc ps : (∀ n, 0 <= n → Z.of_nat (length (malloc n)) = n) → Forall is_packet ps →
  ∃ bs, buffer2resultset (concat ps) [] = Ok bs ∧ Forall fits bs ∧ resultset2buffer (Z.of_nat (length (concat ps))) malloc bs = Ok (concat ps).
Proof.
  intros Hm Hps. assert (length ps ≤ length (concat ps))%nat as Hf.
  { induction Hps as [|p ps [H4 _] _ IH]; cbn; [lia|]. rewrite length_app. lia. }
  destruct (buffer2resultset_loop_spec (length (concat ps)) [] ps None [] Hps Hf I) as (bs & E & Es & Hfit). cbn [app] in *.
  cbn [from_option app] in Es. exists bs. split; [exact E|]. split; [apply Hfit; constructor|]. rewrite <- Es. apply resultset2buffer_spec; [apply Hm; lia|done].
Qed.
Lemma resultset_roundtrip_witness :
  ∃ bs, buffer2resultset (concat [[1;0;0;1;2];[5;0;0;2;254;0;0;2;0]]) [] = Ok bs ∧ Forall fits bs ∧
    resultset2buffer (Z.of_nat (length (concat [[1;0;0;1;2];[5;0;0;2;254;0;0;2;0]]))) (λ n, replicate (Z.to_nat n) 0) bs = Ok (concat [[1;0;0;1;2];[5;0;0;2;254;0;0;2;0]]).
Proof.
  apply (resultset_roundtrip (λ n, replicate (Z.to_nat n) 0)).
  - intros n Hn. rewrite length_replicate. lia.
  - constructor; [split; [cbn; lia|reflexivity]|]. constructor; [split; [cbn; lia|reflexivity]|constructor].
Defined.

(** ** Corner cases *)
Section Corners.
Local Definition zeros (n : Z) : list Z := replicate (Z.to_nat n) 0.
Local Definition fresh_stream : stream := waiting_stream <| pkts_recv := 0 |>.
Local Definition compressing : stream := waiting_stream <| compression := true |>.
Local Definition no_zlib (n : Z) (bs : list Z) : option (list Z) := None.
Local Definition no_addr (f : family) (bs : list Z) : option (list Z) := None.

(** The header of the first packet arrives alone: the second [recv] fails with
    EAGAIN, its -1 is added to the 4 bytes, and the fourth byte of the header,
    which is in the buffer, is not counted. *)
Example first_header_alone :
  (('(r, s) ← read_from_net true false (Received [5;0;0;1]) (Failed (-1) EAGAIN) fresh_stream; Ok (r, window (queueIN s), active s)) : outcome _)
  = Ok (3, [5;0;0], true).
Proof. by vm_compute. Qed.

(** A compressed packet whose payload ends inside the header of a packet: the
    assertion fails. *)
Example compressed_header_split :
  ((s ← (('(_, s) ← read_from_net true false (Received [2;0;0;0;0;0;0;1;0]) (Failed (-1) EAGAIN) compressing; Ok s) : outcome stream);
    read_pkts zeros no_zlib no_addr [] s) : outcome stream) = Fault AssertFail.
Proof. by vm_compute. Qed.

(** zlib fails, and the bytes look like one packet with a one byte length: they are
    used, but with the length that the compressed packet announced, here 9 for 5
    bytes; the rest is what the allocation held. *)
Example compressed_fallback_length :
  payload_of zeros no_zlib [5;0;0;0; 9;0;0; 5;0;0;0;14] = Ok (Some [5;0;0;0;14;0;0;0;0]).
Proof. by vm_compute. Qed.

(** A compressed packet that leaves six bytes at the end of the queue: there is no
    header yet, the bytes are not moved to the front, there is no room, [recv] is
    asked for nothing and what it returns is taken for the end of the stream. *)
Example compressed_no_room :
  let bs := [243;127;0;0; 0;0;0] ++ [239;127;0;0] ++ replicate (Z.to_nat 32751) 1 ++ [9;0;0;1;0;0] in
  (('(_, s) ← read_from_net true false (Received bs) (Failed (-1) EAGAIN) compressing;
    s ← read_pkts zeros no_zlib no_addr [] s;
    '(r, s') ← read_from_net true false (Received []) (Failed (-1) EAGAIN) s;
    Ok (length (PSarrayIN s), queue_available (queueIN s), queue_data (queueIN s), active s, r, active s')) : outcome _)
  = Ok (1%nat, 0, 6, true, 0, false).
Proof. by vm_compute. Qed.

(** The last byte of a packet and three bytes of the next one arrive together: the
    three bytes move by one place, with [memcpy]. *)
Example queue_zero_overlaps :
  ((s ← (('(_, s) ← read_from_net true false (Received [1;0;0;0]) (Failed (-1) EAGAIN) waiting_stream; Ok s) : outcome stream);
    s ← read_pkts zeros no_zlib no_addr [] s;
    '(_, s) ← read_from_net true false (Received [14;1;0;0]) (Failed (-1) EAGAIN) s;
    '(_, s) ← buffer2array zeros no_zlib no_addr [] s;
    Ok (pkt_size (queueIN s), tail (queueIN s), queue_data (queueIN s))) : outcome _) = Ok (0, 1, 3).
Proof. by vm_compute. Qed.
End Corners.
