(* ===== verification/Packets.v ===== *)
(** * Packets for the client (lib/MySQL_Protocol.cpp)

    The packets that the program writes itself: end of a result, errors, OK,
    column counts and definitions, rows, and the answer to a prepare.  The fields
    of [proto] are the parts of the data stream and the session that these
    functions look at; what malloc returns is an argument. *)
From S2P Require Import Prelude Encode ResultSet.
Import LenEnc.

(** ** State *)
Inductive mysql_data_stream_status :=
  | STATE_NOT_INITIALIZED | STATE_NOT_CONNECTED | STATE_SERVER_HANDSHAKE | STATE_CLIENT_HANDSHAKE | STATE_CLIENT_AUTH_OK | STATE_SSL_INIT
  | STATE_SLEEP | STATE_SLEEP_MULTI_PACKET | STATE_CLIENT_COM_QUERY | STATE_READY | STATE_QUERY_SENT_DS | STATE_QUERY_SENT_NET
  | STATE_COLUMN_COUNT | STATE_COLUMN_DEFINITION | STATE_ROW | STATE_EOF1 | STATE_EOF2 | STATE_OK | STATE_ERR
  | STATE_READING_COM_STMT_PREPARE_RESPONSE | STATE_MARIADB_BEGIN | STATE_MARIADB_CONNECTING | STATE_MARIADB_PING | STATE_MARIADB_SET_NAMES
  | STATE_MARIADB_INITDB | STATE_MARIADB_QUERY | STATE_MARIADB_GENERIC | STATE_MARIADB_END | STATE_END.
Inductive proxysql_session_type :=
  | PROXYSQL_SESSION_MYSQL | PROXYSQL_SESSION_ADMIN | PROXYSQL_SESSION_STATS | PROXYSQL_SESSION_SQLITE
  | PROXYSQL_SESSION_CLICKHOUSE | PROXYSQL_SESSION_MYSQL_EMU | PROXYSQL_SESSION_NONE.

(** Bits of the protocol, from the header of the client library. *)
Definition SERVER_STATUS_IN_TRANS : Z := 1.
Definition SERVER_STATUS_AUTOCOMMIT : Z := 2.
Definition SERVER_STATUS_CURSOR_EXISTS : Z := 64.
Definition SERVER_STATUS_NO_BACKSLASH_ESCAPES : Z := 512.
Definition SERVER_SESSION_STATE_CHANGED : Z := 16384.
Definition CLIENT_SESSION_TRACKING : Z := 8388608.
Definition CLIENT_DEPRECATE_EOF : Z := 16777216.
Definition has_flag (flags bit : Z) : bool := negb (Z.land flags bit =? 0).

(** The options of the connection of the client. *)
Record conn := mk_conn { client_flag : Z; no_backslash_escapes : bool }.
(** [gtid_buf] is the text before its terminator. *)
Record proto := mk_proto {
  mirror : bool; session_fast_forward : bool; session_type : proxysql_session_type; autocommit : bool;
  have_affected_rows : bool; affected_rows : Z; last_insert_id : Z;   (* of CurrentQuery *)
  gtid_hid : Z; gtid_buf : list Z;
  client_session_track_gtid : bool;                                    (* mysql_thread___client_session_track_gtid *)
  myconn : option conn;
  DSS : mysql_data_stream_status; pkt_sid : Z; PSarrayOUT : list (list Z)
}.
#[export] Instance proto_eta : Eta proto := λ p,
  mk_proto (mirror p) (session_fast_forward p) (session_type p) (autocommit p) (have_affected_rows p) (affected_rows p) (last_insert_id p)
    (gtid_hid p) (gtid_buf p) (client_session_track_gtid p) (myconn p) (DSS p) (pkt_sid p) (PSarrayOUT p).
Definition add_out (pkt : list Z) (p : proto) : proto := p <| PSarrayOUT := PSarrayOUT p ++ [pkt] |>.

(** The 24 bits of a length in [mysql_hdr]. *)
Definition u24 (x : Z) : Z := x mod 2 ^ 24.

(** A string with its length in front. *)
Definition lenenc_size (s : list Z) : Z := (mysql_encode_length (Z.of_nat (length s))).1 + Z.of_nat (length s).
Definition lenenc_string (s : list Z) : outcome (list Z) :=
  let n := Z.of_nat (length s) in
  let '(w, hd) := mysql_encode_length n in
  write_encoded_length_and_string n w (default 0 hd) s.
Fixpoint lenenc_strings (ss : list (list Z)) : outcome (list Z) :=
  match ss with
  | [] => Ok []
  | s :: ss' => b ← lenenc_string s; bs ← lenenc_strings ss'; Ok (b ++ bs)
  end.

(** The status word: sessions of Admin do not use backslashes, and neither do
    clients that said so. *)
Definition status_of (status : Z) (p : proto) : Z :=
  let s := match session_type p with
           | PROXYSQL_SESSION_SQLITE | PROXYSQL_SESSION_ADMIN | PROXYSQL_SESSION_STATS => Z.lor status SERVER_STATUS_NO_BACKSLASH_ESCAPES
           | _ => status
           end in
  match myconn p with
  | Some c => if no_backslash_escapes c then Z.lor s SERVER_STATUS_NO_BACKSLASH_ESCAPES else s
  | None => s
  end.

Section Generate.
Context (malloc : Z → list Z).

(** A block of [size] bytes of which the first ones are written. *)
Definition make (size : Z) (bs : list Z) : outcome (list Z) := blit (malloc size) 0 bs.

(** ** Packets of one kind *)
Definition eof_bytes (sequence_id warnings status : Z) (p : proto) : list Z :=
  hdr_bytes (mk_hdr 5 sequence_id) ++ 254 :: le_bytes 2 warnings ++ le_bytes 2 (status_of status p).
(** The packet, if one was made, and the state. *)
Definition generate_pkt_EOF (send : bool) (sequence_id warnings status : Z) (p : proto) : outcome (option (list Z) * proto) :=
  if mirror p then Ok (None, p)
  else
    pkt ← make 9 (eof_bytes sequence_id warnings status p);
    let p := p <| pkt_sid := sequence_id |> in
    if send then
      let d := match DSS p with STATE_COLUMN_DEFINITION => STATE_EOF1 | STATE_ROW => STATE_EOF2 | d => d end in
      Ok (Some pkt, (add_out pkt p) <| DSS := d |>)
    else Ok (Some pkt, p).

Definition generate_pkt_ERR (send : bool) (sequence_id error_code : Z) (sql_state : list Z) (sql_message : option (list Z)) (p : proto)
  : outcome (option (list Z) * proto) :=
  if mirror p then Ok (None, p)
  else
    let msg := default [] sql_message in
    let pkt_length := u24 (1 + 2 + 1 + 5 + Z.of_nat (length msg)) in
    st ← slice sql_state 0 5;
    pkt ← make (pkt_length + 4) (hdr_bytes (mk_hdr pkt_length sequence_id) ++ 255 :: le_bytes 2 error_code ++ 35 :: st ++ msg);
    let p := p <| pkt_sid := sequence_id |> in
    if send then
      let p := add_out pkt p in
      match DSS p with
      | STATE_CLIENT_HANDSHAKE | STATE_QUERY_SENT_DS | STATE_QUERY_SENT_NET | STATE_ERR => Ok (Some pkt, p <| DSS := STATE_ERR |>)
      | STATE_OK => Ok (Some pkt, p)
      | STATE_SLEEP => if session_fast_forward p then Ok (Some pkt, p) else Fault AssertFail
      | _ => Fault AssertFail
      end
    else Ok (Some pkt, p).

Definition generate_one_byte_pkt (b : Z) (p : proto) : outcome proto :=
  let sequence_id := u8 (pkt_sid p + 1) in
  pkt ← make 6 (hdr_bytes (mk_hdr 2 sequence_id) ++ [1; u8 b]);
  Ok ((add_out pkt p) <| pkt_sid := sequence_id |>).

(** Whether the GTID of the last statement is announced. *)
Definition tracks_gtid (p : proto) : bool :=
  match myconn p with
  | Some c => has_flag (client_flag c) CLIENT_SESSION_TRACKING && client_session_track_gtid p && (0 <=? gtid_hid p)
  | None => false
  end.
Definition generate_pkt_OK (send : bool) (sequence_id affected insert_id status warnings : Z) (msg : option (list Z)) (eof_identifier : bool) (p : proto)
  : outcome (option (list Z) * proto) :=
  if mirror p then Ok (None, p)
  else
    let m := default [] msg in
    let msg_len := Z.of_nat (length m) in
    let track := tracks_gtid p in
    let gtid_len := if track then u8 (Z.of_nat (length (gtid_buf p))) else 0 in
    let len1 := u24 (1 + (mysql_encode_length affected).1 + (mysql_encode_length insert_id).1 + 2 + 2 + msg_len) in
    let len2 := if negb (msg_len =? 0) then u24 (len1 + (mysql_encode_length msg_len).1) else len1 in
    let pkt_length := if track then u24 (len2 + (if msg_len =? 0 then 1 else 0) + (mysql_encode_length gtid_len).1 + gtid_len + 4) else len2 in
    a ← encoded affected;
    i ← encoded insert_id;
    let p := match session_type p with
             | PROXYSQL_SESSION_MYSQL => ((p <| have_affected_rows := true |>) <| affected_rows := affected |>) <| last_insert_id := insert_id |>
             | _ => p
             end in
    let st := status_of status p in
    let st := if gtid_len =? 0 then Z.ldiff st SERVER_SESSION_STATE_CHANGED else st in
    m' ← (if negb (msg_len =? 0) then lenenc_string m else Ok []);
    g ← (if track then
           g ← (if gtid_len =? 0 then Ok [] else g ← slice (gtid_buf p) 0 gtid_len; Ok ([u8 (u8 (gtid_len + 2) + 2); 3; u8 (gtid_len + 2); 0; gtid_len] ++ g));
           Ok ((if msg_len =? 0 then [0] else []) ++ g)
         else Ok []);
    pkt ← make (pkt_length + 4) (hdr_bytes (mk_hdr pkt_length sequence_id) ++ (if eof_identifier then 254 else 0) :: a ++ i ++ le_bytes 2 st ++ le_bytes 2 warnings ++ m' ++ g);
    let p := p <| pkt_sid := sequence_id |> in
    if send then
      let p := add_out pkt p in
      match DSS p with
      | STATE_CLIENT_HANDSHAKE | STATE_QUERY_SENT_DS | STATE_QUERY_SENT_NET => Ok (Some pkt, p <| DSS := STATE_OK |>)
      | STATE_OK => Ok (Some pkt, p)
      | STATE_ROW => if eof_identifier then Ok (Some pkt, p <| DSS := STATE_EOF2 |>) else Fault AssertFail
      | _ => Fault AssertFail
      end
    else Ok (Some pkt, p).

(** ** Column definitions *)
(** [MYSQL_FIELD]: strings with their lengths. *)
Record MYSQL_FIELD := mk_field {
  catalog : list Z; db : list Z; table : list Z; org_table : list Z; name : list Z; org_name : list Z;
  charsetnr : Z; flength : Z; ftype : Z; fflags : Z; decimals : Z
}.
Definition field_names (f : MYSQL_FIELD) : list (list Z) := [catalog f; db f; table f; org_table f; name f; org_name f].
Definition field_tail (f : MYSQL_FIELD) : list Z :=
  12 :: le_bytes 2 (charsetnr f) ++ le_bytes 4 (flength f) ++ u8 (ftype f) :: le_bytes 2 (fflags f) ++ [u8 (decimals f); 0; 0].
Definition sum_sizes (ss : list (list Z)) : Z := foldr (λ s n, lenenc_size s + n) 0 ss.
(** The packet of a definition; [defvalue] is the default value for
    COM_FIELD_LIST, with the length that is announced for it. *)
Definition field_packet (sequence_id : Z) (f : MYSQL_FIELD) (defvalue : option (Z * list Z)) : outcome (list Z) :=
  let d := match defvalue with Some (l, s) => (mysql_encode_length l).1 + Z.of_nat (length s) | None => 0 end in
  let pkt_length := u24 (u24 (sum_sizes (field_names f) + 1 + 2 + 4 + 1 + 2 + 1 + 2) + d) in
  ns ← lenenc_strings (field_names f);
  dv ← match defvalue with
       | Some (l, s) => let '(w, hd) := mysql_encode_length l in write_encoded_length_and_string (Z.of_nat (length s)) w (default 0 hd) s
       | None => Ok []
       end;
  make (pkt_length + 4) (hdr_bytes (mk_hdr pkt_length sequence_id) ++ ns ++ field_tail f ++ dv).
(** [generate_pkt_field] without a [MySQL_ResultSet]; the catalog is def. *)
Definition generate_pkt_field (send : bool) (sequence_id : Z) (f : MYSQL_FIELD) (defvalue : option (Z * list Z)) (p : proto)
  : outcome (option (list Z) * proto) :=
  if mirror p then Ok (None, p)
  else
    pkt ← field_packet sequence_id (mk_field (str "def") (db f) (table f) (org_table f) (name f) (org_name f) (charsetnr f) (flength f) (ftype f) (fflags f) (decimals f)) defvalue;
    Ok (Some pkt, if send then add_out pkt p else p).
Definition count_packet (sequence_id count : Z) : outcome (list Z) :=
  let w := (mysql_encode_length count).1 in
  c ← encoded count;
  make (w + 4) (hdr_bytes (mk_hdr w sequence_id) ++ c).

(** ** Rows *)
Fixpoint row_bytes (fs : list (option (list Z))) : outcome (list Z) :=
  match fs with
  | [] => Ok []
  | f :: fs' => b ← match f with Some s => lenenc_string s | None => Ok [251] end; bs ← row_bytes fs'; Ok (b ++ bs)
  end.
Definition row_length (fs : list (option (list Z))) : Z := foldr (λ f n, match f with Some s => lenenc_size s | None => 1 end + n) 0 fs.
Definition generate_pkt_row (send : bool) (sequence_id : Z) (fs : list (option (list Z))) (p : proto) : outcome (list Z * proto) :=
  let pkt_length := u24 (row_length fs) in
  bs ← row_bytes fs;
  pkt ← make (pkt_length + 4) (hdr_bytes (mk_hdr pkt_length sequence_id) ++ bs);
  Ok (pkt, if send then add_out pkt p else p).

(** *** Rows in the buffer of a result *)
Definition RESULTSET_BUFLEN : Z := 16300.
(** [buffer] holds the bytes that are used; it is null after the last flush. *)
Record MySQL_ResultSet := mk_result {
  sid : Z; buffer : option (list Z); rs_out : list (list Z);
  num_fields : Z; num_rows : Z; resultset_size : Z;
  deprecate_eof_active : bool; transfer_started : bool; resultset_completed : bool;
  with_myprot : bool                                         (* myprot is not null *)
}.
#[export] Instance result_eta : Eta MySQL_ResultSet := λ r,
  mk_result (sid r) (buffer r) (rs_out r) (num_fields r) (num_rows r) (resultset_size r) (deprecate_eof_active r) (transfer_started r) (resultset_completed r) (with_myprot r).
Definition buffer_used (rs : MySQL_ResultSet) : Z := Z.of_nat (length (default [] (buffer rs))).
Definition buffer_to_PSarrayOut (_last : bool) (rs : MySQL_ResultSet) : MySQL_ResultSet :=
  if buffer_used rs =? 0 then rs
  else (rs <| rs_out := rs_out rs ++ [default [] (buffer rs)] |>) <| buffer := if _last then None else Some [] |>.
Definition append (bs : list Z) (rs : MySQL_ResultSet) : outcome MySQL_ResultSet :=
  match buffer rs with Some b => Ok (rs <| buffer := Some (b ++ bs) |>) | None => Fault NullPointer end.
Definition has_room (n : Z) (rs : MySQL_ResultSet) : bool := n <=? u32 (RESULTSET_BUFLEN - buffer_used rs).
(** A packet goes to the buffer, to the next one, or in a block of its own. *)
Definition place (pkt : list Z) (rs : MySQL_ResultSet) : outcome MySQL_ResultSet :=
  let n := Z.of_nat (length pkt) in
  let rs := if has_room n rs then rs else buffer_to_PSarrayOut false rs in
  if has_room n rs then append pkt rs else Ok (rs <| rs_out := rs_out rs ++ [pkt] |>).

Definition MAX_PAYLOAD : Z := 16777215.
(** The loop that cuts a large row: the whole packet is in [pkt]. *)
Fixpoint cut_loop (fuel : nat) (pkt : list Z) (left copied pid : Z) (out : list (list Z)) : outcome (Z * list (list Z)) :=
  if MAX_PAYLOAD + 4 <=? left then
    match fuel with
    | O => Fault Diverges
    | S fuel' =>
        bs ← slice pkt (4 + copied) MAX_PAYLOAD;
        pkt2 ← make (MAX_PAYLOAD + 4) (hdr_bytes (mk_hdr MAX_PAYLOAD pid) ++ bs);
        cut_loop fuel' pkt (left - MAX_PAYLOAD) (copied + MAX_PAYLOAD) (u8 (pid + 1)) (out ++ [pkt2])
    end
  else
    bs ← slice pkt (4 + copied) (left - 4);
    pkt2 ← make left (hdr_bytes (mk_hdr (left - 4) pid) ++ bs);
    Ok (pid, out ++ [pkt2]).
(** Columns of the text protocol, or a row of the binary protocol as it is. *)
Inductive row_data := Text (fs : list (option (list Z))) | Raw (bs : list Z).
(** The sequence id, the length that is reported, and the result; [None] for a
    mirror session, where the function returns [true]. *)
Definition generate_pkt_row3 (sequence_id : Z) (d : row_data) (p : proto) (rs : MySQL_ResultSet) : outcome (Z * option Z * MySQL_ResultSet) :=
  if mirror p then Ok (1, None, rs)
  else
    let rowlen := match d with Text fs => row_length fs | Raw bs => Z.of_nat (length bs) end in
    let size := u32 (rowlen + 4) in
    bs ← match d with Text fs => row_bytes fs | Raw bs => Ok bs end;
    if size <? MAX_PAYLOAD + 4 then
      pkt ← make size (hdr_bytes (mk_hdr rowlen sequence_id) ++ bs);
      rs ← place pkt rs;
      Ok (sequence_id, Some size, rs)
    else
      let rs := buffer_to_PSarrayOut false rs in
      pkt ← blit (malloc size) 4 bs;
      '(pid, out) ← cut_loop (Z.to_nat (size / MAX_PAYLOAD)) pkt size 0 sequence_id [];
      Ok (pid, Some (u32 (size + (pid - sequence_id) * 4)), rs <| rs_out := rs_out rs ++ out |>).

(** ** The answer to a prepare *)
Record stmt_info := mk_stmt_info {
  statement_id : Z; num_columns : Z; num_params : Z; warning_count : Z; fields : list MYSQL_FIELD
}.
Definition param_field : MYSQL_FIELD := mk_field (str "def") [] [] [] (str "?") [] 63 0 253 128 0.
Fixpoint send_fields (id : Z) (fs : list MYSQL_FIELD) (p : proto) : outcome (Z * proto) :=
  match fs with
  | [] => Ok (id, p)
  | f :: fs' => '(_, p) ← generate_pkt_field true id f None p; send_fields (u8 (id + 1)) fs' p
  end.
(** Definitions, and the EOF packet after them unless the client does without. *)
Definition send_definitions (id setStatus : Z) (fs : list MYSQL_FIELD) (p : proto) : outcome (Z * proto) :=
  '(id, p) ← send_fields id fs p;
  let deprecate := match myconn p with Some c => has_flag (client_flag c) CLIENT_DEPRECATE_EOF | None => false end in
  if deprecate then Ok (id, p)
  else '(_, p) ← generate_pkt_EOF true id 0 setStatus p; Ok (u8 (id + 1), p).
(** What FindOneActiveTransaction returns, a hostgroup or -1, is stored in an
    unsigned variable. *)
Definition prepare_status (active_trx : Z) (p : proto) : Z :=
  (if 0 <=? u32 active_trx then SERVER_STATUS_IN_TRANS else 0) + (if autocommit p then SERVER_STATUS_AUTOCOMMIT else 0).
Definition generate_STMT_PREPARE_RESPONSE (sequence_id : Z) (info : stmt_info) (_stmt_id active_trx : Z) (p : proto) : outcome proto :=
  let id := if negb (_stmt_id =? 0) then _stmt_id else statement_id info in
  okpack ← make 16 (hdr_bytes (mk_hdr 12 sequence_id) ++ 0 :: le_bytes 4 id ++ le_bytes 2 (num_columns info) ++ le_bytes 2 (num_params info) ++ 0 :: le_bytes 2 (warning_count info));
  let p := add_out okpack p in
  let sid := u8 (sequence_id + 1) in
  let st := prepare_status active_trx p in
  '(sid, p) ← (if negb (num_params info =? 0) then send_definitions sid st (replicate (Z.to_nat (num_params info)) param_field) p else Ok (sid, p));
  '(_, p) ← (if negb (num_columns info =? 0) then
               if Z.of_nat (length (fields info)) <? num_columns info then Fault OutOfBounds
               else send_definitions sid st (take (Z.to_nat (num_columns info)) (fields info)) p
             else Ok (sid, p));
  Ok p.
End Generate.

(** ** What a client reads *)
(** The protocol's own grammar, for comparison: integers, strings, the NULL of a
    text row, a definition. *)
Definition read_lenenc (s : list Z) : option (Z * list Z) :=
  match s with
  | [] => None
  | c :: r =>
      let word (n : nat) := if bool_decide (length r < n)%nat then None else Some (le_value (take n r), drop n r) in
      if c <? 251 then Some (c, r) else if c =? 252 then word 2%nat else if c =? 253 then word 3%nat else if c =? 254 then word 8%nat else None
  end.
Definition read_string (s : list Z) : option (list Z * list Z) :=
  '(n, r) ← read_lenenc s;
  if Z.of_nat (length r) <? n then None else Some (take (Z.to_nat n) r, drop (Z.to_nat n) r).
Fixpoint read_strings (n : nat) (s : list Z) : option (list (list Z) * list Z) :=
  match n with
  | O => Some ([], s)
  | S n' => '(x, r) ← read_string s; '(xs, r) ← read_strings n' r; Some (x :: xs, r)
  end.
Fixpoint read_row (n : nat) (s : list Z) : option (list (option (list Z)) * list Z) :=
  match n with
  | O => Some ([], s)
  | S n' =>
      '(x, r) ← match s with
                | c :: r => if c =? 251 then Some (None, r) else '(x, r) ← read_string s; Some (Some x, r)
                | [] => None
                end;
      '(xs, r) ← read_row n' r; Some (x :: xs, r)
  end.
Definition read_definition (s : list Z) : option MYSQL_FIELD :=
  '(ns, r) ← read_strings 6 s;
  match ns, r with
  | [a; b; c; d; e; f], 12 :: c0 :: c1 :: l0 :: l1 :: l2 :: l3 :: t :: f0 :: f1 :: dec_ :: 0 :: 0 :: [] =>
      Some (mk_field a b c d e f (le_value [c0; c1]) (le_value [l0; l1; l2; l3]) t (le_value [f0; f1]) dec_)
  | _, _ => None
  end.

Lemma read_lenenc_encoded v : is_u64 v → ∃ b, encoded v = Ok b ∧ Z.of_nat (length b) = (mysql_encode_length v).1 ∧
  (∀ r, read_lenenc (b ++ r) = Some (v, r)) ∧ hd 0 b ≠ 251.
Proof.
  intros Hv. unfold encoded, mysql_encode_length.
  assert (∀ n pre, (n <= 8)%nat → 0 <= v < 256 ^ Z.of_nat n → (pre = 252 ∧ n = 2%nat ∨ pre = 253 ∧ n = 3%nat ∨ pre = 254 ∧ n = 8%nat) →
    ∃ b, write_encoded_length v (Z.of_nat n + 1) pre = Ok b ∧ Z.of_nat (length b) = Z.of_nat n + 1 ∧ (∀ r, read_lenenc (b ++ r) = Some (v, r)) ∧ hd 0 b ≠ 251) as H.
  { intros n pre Hn Hr Hpre. unfold write_encoded_length. rewrite (proj2 (Z.eqb_neq _ 1)) by lia. rewrite Z.add_simpl_r, Nat2Z.id, read_le_bytes by done.
    cbn [mbind outcome_bind]. eexists. split; [done|]. cbn [length hd]. rewrite le_bytes_length. split; [lia|]. split; [|lia]. intros r.
    cbn [app read_lenenc]. assert (∀ n', n = n' → (if bool_decide (length (le_bytes n v ++ r) < n')%nat then None else Some (le_value (take n' (le_bytes n v ++ r)), drop n' (le_bytes n v ++ r))) = Some (v, r)) as Hw.
    { intros n' <-. rewrite length_app, le_bytes_length, bool_decide_false by lia. rewrite take_app_length', drop_app_length' by (by rewrite le_bytes_length). by rewrite le_value_bytes_small. }
    destruct Hpre as [[-> ->]|[[-> ->]|[-> ->]]]; exact (Hw _ eq_refl). }
  repeat case_test; cbn [default fst id].
  - eexists. split; [done|]. split; [done|]. rewrite u8_small by lia. split; [|cbn; lia]. intros r. cbn. by rewrite (proj2 (Z.ltb_lt _ _)).
  - apply (H 2%nat); lia.
  - apply (H 3%nat); lia.
  - apply (H 8%nat); lia.
Qed.
Lemma lenenc_string_ok s : is_u64 (Z.of_nat (length s)) → ∃ b, lenenc_string s = Ok b ∧ Z.of_nat (length b) = lenenc_size s ∧
  (∀ r, read_string (b ++ r) = Some (s, r)) ∧ hd 0 b ≠ 251.
Proof.
  intros Hs. destruct (read_lenenc_encoded _ Hs) as (b & Eb & Lb & Hr & Hh). unfold lenenc_string, lenenc_size, encoded in *.
  destruct (mysql_encode_length (Z.of_nat (length s))) as [w pre]. cbn [fst] in *. unfold write_encoded_length_and_string. rewrite Eb. cbn [mbind outcome_bind].
  assert ((if Z.of_nat (length s) =? 0 then Ok [] else read_bytes (Z.to_nat (Z.of_nat (length s))) s) = Ok s) as ->.
  { destruct s as [|x s]; [done|]. rewrite (proj2 (Z.eqb_neq _ 0)) by (cbn [length]; lia). rewrite Nat2Z.id. rewrite <- (app_nil_r (x :: s)) at 2. by apply read_bytes_app. }
  cbn [mbind outcome_bind]. exists (b ++ s). split; [done|]. split; [rewrite length_app; lia|]. split.
  - intros r. unfold read_string. rewrite <- app_assoc, Hr. cbn [mbind option_bind]. rewrite length_app, (proj2 (Z.ltb_ge _ _)) by lia. by rewrite Nat2Z.id, take_app_length, drop_app_length.
  - destruct b as [|c b]; [|done]. pose proof (Hr []) as H. done.
Qed.
Lemma lenenc_strings_ok ss : Forall (λ s, is_u64 (Z.of_nat (length s))) ss → ∃ b, lenenc_strings ss = Ok b ∧ Z.of_nat (length b) = sum_sizes ss ∧
  ∀ r, read_strings (length ss) (b ++ r) = Some (ss, r).
Proof.
  induction 1 as [|s ss Hs Hss IH]; [by exists []|]. destruct (lenenc_string_ok s Hs) as (b & E & L & Hr & _). destruct IH as (bs & Es & Ls & Hrs).
  cbn [lenenc_strings]. rewrite E. cbn [mbind outcome_bind]. rewrite Es. cbn [mbind outcome_bind]. exists (b ++ bs). split; [done|].
  split; [rewrite length_app; cbn [sum_sizes foldr]; fold (sum_sizes ss); lia|]. intros r. cbn [length read_strings]. rewrite <- app_assoc, Hr. cbn [mbind option_bind].
  rewrite Hrs. done.
Qed.
Lemma row_bytes_ok fs : Forall (λ f, is_u64 (Z.of_nat (length (default [] f)))) fs → ∃ b, row_bytes fs = Ok b ∧ Z.of_nat (length b) = row_length fs ∧
  ∀ r, read_row (length fs) (b ++ r) = Some (fs, r).
Proof.
  induction 1 as [|f fs Hf Hfs IH]; [by exists []|]. destruct IH as (bs & Es & Ls & Hrs).
  assert (∃ b, match f with Some s => lenenc_string s | None => Ok [251] end = Ok b ∧ Z.of_nat (length b) = match f with Some s => lenenc_size s | None => 1 end ∧
    ∀ r, match b ++ r with c :: r1 => if c =? 251 then Some (None, r1) else '(x, r2) ← read_string (b ++ r); Some (Some x, r2) | [] => None end = Some (f, r)) as (b & E & L & Hr).
  { destruct f as [s|]; [|by exists [251]]. destruct (lenenc_string_ok s Hf) as (b & E & L & Hr & Hh). exists b. split; [done|]. split; [done|]. intros r.
    destruct b as [|c b]; [cbn in L; unfold lenenc_size, mysql_encode_length in L; revert L; repeat case_test; cbn [fst]; lia|]. cbn [hd] in Hh.
    change ((if c =? 251 then Some (None, b ++ r) else '(x, r) ← read_string ((c :: b) ++ r); Some (Some x, r)) = Some (Some s, r)).
    by rewrite (proj2 (Z.eqb_neq c 251)), Hr by done. }
  cbn [row_bytes]. rewrite E. cbn [mbind outcome_bind]. rewrite Es. cbn [mbind outcome_bind]. exists (b ++ bs). split; [done|].
  split; [rewrite length_app; cbn [row_length foldr]; fold (row_length fs); lia|]. intros r. cbn [length read_row]. rewrite <- app_assoc.
  specialize (Hr (bs ++ r)). destruct (b ++ bs ++ r) as [|c r']; [done|]. destruct (c =? 251).
  - injection Hr as <- ->. cbn [mbind option_bind]. by rewrite Hrs.
  - destruct (read_string _) as [[x r'']|]; [|done]. cbn [mbind option_bind] in *. injection Hr as <- ->. cbn [mbind option_bind]. by rewrite Hrs.
Qed.

(** ** The packets say what they should *)
Section Read.
Context (malloc : Z → list Z) (malloc_size : ∀ n, 0 <= n → Z.of_nat (length (malloc n)) = n).

Lemma make_exact n bs : n = Z.of_nat (length bs) → make malloc n bs = Ok bs.
Proof using malloc_size.
  intros ->. unfold make. pose proof (malloc_size (Z.of_nat (length bs)) ltac:(lia)). rewrite blit_ok by lia. f_equal.
  rewrite take_0, drop_ge by lia. cbn. by rewrite app_nil_r.
Qed.
Lemma make_packet id payload n : n = Z.of_nat (length payload) → make malloc (n + 4) (hdr_bytes (mk_hdr n id) ++ payload) = Ok (packet id payload).
Proof using malloc_size. intros ->. rewrite make_exact by (rewrite length_app; cbn [length]; rewrite hdr_bytes_length; lia). done. Qed.

Definition definition_ok (f : MYSQL_FIELD) : Prop :=
  Forall (λ s, is_u64 (Z.of_nat (length s))) (field_names f) ∧ sum_sizes (field_names f) + 13 < 2 ^ 24 ∧
  is_u16 (charsetnr f) ∧ is_u32 (flength f) ∧ is_u8 (ftype f) ∧ is_u16 (fflags f) ∧ is_u8 (decimals f).
Definition definition_payload (f : MYSQL_FIELD) : list Z := default [] (match lenenc_strings (field_names f) with Ok ns => Some (ns ++ field_tail f) | Fault _ => None end).

Lemma field_packet_spec seq f : definition_ok f →
  field_packet malloc seq f None = Ok (packet seq (definition_payload f)) ∧ read_definition (definition_payload f) = Some f ∧ small (definition_payload f).
Proof using malloc_size.
  intros (Hn & Hsz & Hc & Hl & Ht & Hf & Hd). destruct (lenenc_strings_ok _ Hn) as (ns & E & L & Hr). unfold field_packet, definition_payload. rewrite E.
  cbn [mbind outcome_bind default from_option id]. assert (Z.of_nat (length (field_tail f)) = 13) as Lt by done.
  assert (0 <= sum_sizes (field_names f)) as H0 by lia. unfold u24. rewrite Z.add_0_r, Zmod_mod, Z.mod_small by lia. rewrite app_nil_r. split; [|split].
  - apply make_packet. rewrite length_app. lia.
  - unfold read_definition. change 6%nat with (length (field_names f)). rewrite (Hr (field_tail f)). cbn [mbind option_bind field_names].
    destruct f as [a b c d e g ch fl ty ff de]. unfold field_tail. cbn [charsetnr flength ftype fflags decimals] in *.
    change (Some (mk_field a b c d e g (le_value (le_bytes 2 ch)) (le_value (le_bytes 4 fl)) (u8 ty) (le_value (le_bytes 2 ff)) (u8 de)) = Some (mk_field a b c d e g ch fl ty ff de)).
    rewrite !le_value_bytes_small, !u8_small by lia. done.
  - unfold small. rewrite length_app. lia.
Qed.

(** *** Rows *)
(** What a result has written so far. *)
Definition written (rs : MySQL_ResultSet) : list Z := concat (rs_out rs) ++ default [] (buffer rs).
Definition result_ok (rs : MySQL_ResultSet) : Prop := ∃ b, buffer rs = Some b ∧ Z.of_nat (length b) <= RESULTSET_BUFLEN.

Lemma flush_spec rs : result_ok rs → let rs' := buffer_to_PSarrayOut false rs in
  written rs' = written rs ∧ buffer rs' = Some [] ∧ result_ok rs'.
Proof.
  intros (b & Eb & Lb). unfold buffer_to_PSarrayOut, written, buffer_used. rewrite Eb. cbn [default from_option id]. destruct (Z.eqb_spec (Z.of_nat (length b)) 0) as [E|E].
  - assert (b = []) as -> by (by apply nil_length_inv; lia). rewrite Eb. split; [done|]. split; [done|]. by exists [].
  - cbn. split; [by rewrite concat_app; cbn; rewrite !app_nil_r|]. split; [done|]. by exists [].
Qed.
Lemma append_spec pkt rs : result_ok rs → has_room (Z.of_nat (length pkt)) rs = true →
  ∃ rs', append pkt rs = Ok rs' ∧ written rs' = written rs ++ pkt ∧ result_ok rs' ∧ rs' = rs <| buffer := buffer rs' |>.
Proof.
  intros (b & Eb & Lb) Hr. unfold append, has_room, buffer_used in *. rewrite Eb in *. cbn [default from_option id] in *. unfold RESULTSET_BUFLEN in *.
  rewrite u32_small in Hr by lia. apply Z.leb_le in Hr. eexists. split; [done|]. unfold written. rewrite Eb. cbn. split; [by rewrite app_assoc|]. split; [|done].
  exists (b ++ pkt). split; [done|]. rewrite length_app. unfold RESULTSET_BUFLEN. lia.
Qed.
(** The other fields of a result. *)
Definition same_fields (rs rs' : MySQL_ResultSet) : Prop := rs' = (rs <| buffer := buffer rs' |>) <| rs_out := rs_out rs' |>.
Lemma place_spec pkt rs : result_ok rs → ∃ rs', place pkt rs = Ok rs' ∧ written rs' = written rs ++ pkt ∧ result_ok rs' ∧ same_fields rs rs'.
Proof.
  intros Hok. unfold place. destruct (flush_spec rs Hok) as (Ew & Eb & Hok'). set (rs0 := buffer_to_PSarrayOut false rs) in *.
  assert (same_fields rs rs0) as Hs0 by (unfold same_fields, rs0, buffer_to_PSarrayOut; case_test; by destruct rs).
  destruct (has_room _ rs) eqn:E1.
  - rewrite E1. destruct (append_spec pkt rs Hok E1) as (rs' & E & Ew' & Hok1 & Es). exists rs'. split; [done|]. split; [done|]. split; [done|].
    unfold same_fields. rewrite Es at 1. rewrite Es. by destruct rs.
  - destruct (has_room _ rs0) eqn:E2.
    + destruct (append_spec pkt rs0 Hok' E2) as (rs' & E & Ew' & Hok1 & Es). exists rs'. split; [done|]. split; [by rewrite Ew', Ew|]. split; [done|].
      unfold same_fields in *. rewrite Es at 1. rewrite Hs0. rewrite Es. by destruct rs, rs'.
    + eexists. split; [done|]. unfold written in *. cbn. rewrite Eb in *. cbn in *. rewrite concat_app. cbn. rewrite !app_nil_r in *. split; [by rewrite Ew|].
      split; [exists []; split; [exact Eb|done]|]. unfold same_fields in *. rewrite Hs0. cbn. by destruct rs.
Qed.

Lemma packets_u8 ps a : packets (u8 a) ps = packets a ps.
Proof.
  revert a. induction ps as [|q ps IH]; intros a; [done|]. cbn [packets]. unfold packet. rewrite hdr_bytes_u8. f_equal.
  rewrite <- (IH (u8 a + 1)), u8_inc. apply IH.
Qed.
(** A payload in pieces, as the protocol wants large ones: every piece but the last
    is as large as possible, and the last one is smaller. *)
Definition pieces (payload : list Z) (cs : list (list Z)) (l : list Z) : Prop :=
  concat cs ++ l = payload ∧ Forall (λ c, Z.of_nat (length c) = MAX_PAYLOAD) cs ∧ Z.of_nat (length l) < MAX_PAYLOAD.

Lemma cut_loop_spec fuel h payload left copied pid out : length h = 4%nat → is_u8 pid → 0 <= copied <= Z.of_nat (length payload) →
  left = 4 + (Z.of_nat (length payload) - copied) → left < MAX_PAYLOAD * (Z.of_nat fuel + 1) + 4 →
  ∃ cs l ps, cut_loop malloc fuel (h ++ payload) left copied pid out = Ok (u8 (pid + Z.of_nat (length cs)), out ++ ps) ∧
    concat ps = packets pid (cs ++ [l]) ∧ pieces (drop (Z.to_nat copied) payload) cs l.
Proof using malloc_size.
  intros Hh. revert left copied pid out. induction fuel as [|fuel IH]; intros left copied pid out Hp Hc -> Hf; cbn [cut_loop];
    destruct (Z.leb_spec (MAX_PAYLOAD + 4) (4 + (Z.of_nat (length payload) - copied))) as [E|E]; unfold MAX_PAYLOAD in *; try lia.
  1, 3: rewrite slice_ok by (rewrite ?length_app; lia); cbn [mbind outcome_bind]; set (l := take _ _);
    assert (l = drop (Z.to_nat copied) payload) as El
      by (unfold l; rewrite drop_app_ge by lia; rewrite Hh; replace (Z.to_nat (4 + copied) - 4)%nat with (Z.to_nat copied) by lia; apply take_ge; rewrite length_drop; lia);
    assert (Z.of_nat (length l) = Z.of_nat (length payload) - copied) as Ll by (rewrite El, length_drop; lia); clearbody l;
    replace (4 + (Z.of_nat (length payload) - copied) - 4) with (Z.of_nat (length l)) by lia; replace (4 + (Z.of_nat (length payload) - copied)) with (Z.of_nat (length l) + 4) by lia;
    rewrite make_packet by done; cbn [mbind outcome_bind]; exists [], l, [packet pid l]; cbn [length]; rewrite Z.add_0_r, u8_small by done;
    (split; [done|]; split; [done|]; split; [by rewrite El|]; split; [constructor|unfold MAX_PAYLOAD; lia]).
  rewrite slice_ok by (rewrite ?length_app; lia). cbn [mbind outcome_bind]. set (c := take _ _).
  assert (c = take (Z.to_nat 16777215) (drop (Z.to_nat copied) payload)) as Ec.
  { unfold c. rewrite drop_app_ge by lia. rewrite Hh. by replace (Z.to_nat (4 + copied) - 4)%nat with (Z.to_nat copied) by lia. }
  assert (Z.of_nat (length c) = 16777215) as Lc by (rewrite Ec, length_take, length_drop; lia). clearbody c. rewrite make_packet by done. cbn [mbind outcome_bind].
  destruct (IH (4 + (Z.of_nat (length payload) - copied) - 16777215) (copied + 16777215) (u8 (pid + 1)) (out ++ [packet pid c])) as (cs & l & ps & E2 & Eps & Hcat & Hcs & Hl); [apply u8_range|lia..|].
  exists (c :: cs), l, (packet pid c :: ps). split; [|split; [|split; [|split; [by constructor|done]]]].
  - transitivity (cut_loop malloc fuel (h ++ payload) (4 + (Z.of_nat (length payload) - copied) - 16777215) (copied + 16777215) (u8 (pid + 1)) (out ++ [packet pid c])); [done|].
    rewrite E2, <- app_assoc. cbn [app length]. do 2 f_equal. rewrite u8_add_idemp. f_equal. lia.
  - cbn [concat app packets]. by rewrite Eps, packets_u8.
  - cbn [concat]. rewrite <- app_assoc, Hcat, Ec. replace (Z.to_nat (copied + 16777215)) with (Z.to_nat copied + Z.to_nat 16777215)%nat by lia.
    rewrite <- drop_drop. apply take_drop.
Qed.

(** The bytes of a row before they become packets. *)
Definition payload_of_row (d : row_data) (payload : list Z) : Prop :=
  match d with Text fs => row_bytes fs = Ok payload ∧ row_length fs = Z.of_nat (length payload) | Raw bs => payload = bs end.
Lemma row3_spec seq d payload p rs : mirror p = false → result_ok rs → is_u8 seq → payload_of_row d payload → Z.of_nat (length payload) < 2 ^ 32 - 4 →
  ∃ cs l rs' len, generate_pkt_row3 malloc seq d p rs = Ok (u8 (seq + Z.of_nat (length cs)), Some len, rs') ∧
    pieces payload cs l ∧ written rs' = written rs ++ packets seq (cs ++ [l]) ∧ result_ok rs' ∧ same_fields rs rs' ∧
    len = u32 (Z.of_nat (length payload) + 4 + (u8 (seq + Z.of_nat (length cs)) - seq) * 4).
Proof using malloc_size.
  intros Hm Hok Hseq Hd Hlen. unfold generate_pkt_row3. rewrite Hm.
  assert ((match d with Text fs => row_length fs | Raw bs => Z.of_nat (length bs) end) = Z.of_nat (length payload)) as -> by (destruct d; [by destruct Hd|by rewrite Hd]).
  assert ((match d with Text fs => row_bytes fs | Raw bs => Ok bs end) = Ok payload) as -> by (destruct d; [by destruct Hd|by rewrite Hd]).
  rewrite u32_small by lia. cbn [mbind outcome_bind]. destruct (Z.ltb_spec (Z.of_nat (length payload) + 4) (MAX_PAYLOAD + 4)) as [E|E].
  - rewrite make_packet by done. cbn [mbind outcome_bind]. destruct (place_spec (packet seq payload) rs Hok) as (rs' & -> & Ew & Hok' & Hs). cbn [mbind outcome_bind].
    exists [], payload, rs', (Z.of_nat (length payload) + 4). cbn [length app packets]. rewrite Z.add_0_r, u8_small, app_nil_r by done. split; [done|].
    split; [split; [done|split; [constructor|lia]]|]. split; [done|]. split; [done|]. split; [done|].
    rewrite Z.sub_diag, Z.mul_0_l, Z.add_0_r, u32_small by lia. done.
  - destruct (flush_spec rs Hok) as (Ew & Eb & Hok'). set (rs0 := buffer_to_PSarrayOut false rs) in *.
    assert (same_fields rs rs0) as Hs0 by (unfold same_fields, rs0, buffer_to_PSarrayOut; case_test; by destruct rs).
    pose proof (malloc_size (Z.of_nat (length payload) + 4) ltac:(lia)) as Lm. set (m := malloc _) in *. rewrite blit_ok by lia. cbn [mbind outcome_bind].
    rewrite (drop_ge m) by lia. rewrite app_nil_r. assert (length (take (Z.to_nat 4) m) = 4%nat) as Lh by (rewrite length_take; lia).
    destruct (cut_loop_spec (Z.to_nat ((Z.of_nat (length payload) + 4) / MAX_PAYLOAD)) (take (Z.to_nat 4) m) payload (Z.of_nat (length payload) + 4) 0 seq [])
      as (cs & l & ps & -> & Eps & Hpc); [done|done|lia|lia|unfold MAX_PAYLOAD; pose proof (Z.mod_pos_bound (Z.of_nat (length payload) + 4) 16777215 ltac:(lia));
        pose proof (Z.div_mod (Z.of_nat (length payload) + 4) 16777215 ltac:(lia)); pose proof (Z.div_pos (Z.of_nat (length payload) + 4) 16777215 ltac:(lia) ltac:(lia)); lia|].
    cbn [mbind outcome_bind app]. rewrite drop_0 in Hpc. eexists cs, l, _, _. split; [done|]. split; [done|]. unfold written in *. cbn [rs_out buffer upd]. 
    split; [|split; [|split]].
    + transitivity (concat (rs_out rs0 ++ ps) ++ default [] (buffer rs0)); [done|]. rewrite Eb in *. cbn [default from_option id] in *. rewrite concat_app, !app_nil_r in *. by rewrite Ew, Eps.
    + exists []. split; [exact Eb|done].
    + unfold same_fields in *. rewrite Hs0. cbn. by destruct rs.
    + done.
Qed.
Lemma pieces_length seq payload cs l : pieces payload cs l → Z.of_nat (length (packets seq (cs ++ [l]))) = Z.of_nat (length payload) + 4 + 4 * Z.of_nat (length cs).
Proof.
  intros (Hcat & _ & _). rewrite packets_length, total_length_app. cbn [total_length]. assert (total_length cs = length (concat cs) + 4 * length cs)%nat as ->.
  { clear. induction cs as [|c cs IH]; cbn; [lia|]. rewrite length_app. lia. }
  rewrite <- Hcat, length_app. lia.
Qed.
(** The length that is reported is that of the packets while their numbers do not
    wrap; a row whose packets do is counted 1024 bytes short. *)
Lemma row3_length seq payload cs l : is_u8 seq → pieces payload cs l → Z.of_nat (length (packets seq (cs ++ [l]))) < 2 ^ 32 →
  (seq + Z.of_nat (length cs) < 256 → u32 (Z.of_nat (length payload) + 4 + (u8 (seq + Z.of_nat (length cs)) - seq) * 4) = Z.of_nat (length (packets seq (cs ++ [l])))) ∧
  (256 <= seq + Z.of_nat (length cs) < 512 →
     u32 (Z.of_nat (length payload) + 4 + (u8 (seq + Z.of_nat (length cs)) - seq) * 4) = u32 (Z.of_nat (length (packets seq (cs ++ [l]))) - 1024)).
Proof.
  intros Hs Hp Hl. rewrite (pieces_length seq payload cs l Hp) in *. split; intros H.
  - rewrite u8_small, u32_small by lia. lia.
  - unfold u8. replace ((seq + Z.of_nat (length cs)) mod 2 ^ 8) with (seq + Z.of_nat (length cs) - 2 ^ 8) by (apply (Z.mod_unique_pos _ (2 ^ 8) 1); lia). apply (f_equal u32). lia.
Qed.

(** *** The answer to a prepare *)
Definition read_eof (s : list Z) : option Z := match s with [254; _; _; s0; s1] => Some (le_value [s0; s1]) | _ => None end.
(** [n] definitions, and the EOF packet after them unless the client does without;
    the status in it. *)
Definition read_definitions (deprecate : bool) (n : nat) (ps : list (list Z)) : option (list MYSQL_FIELD * option Z * list (list Z)) :=
  match n with
  | O => Some ([], None, ps)
  | _ =>
      fs ← mapM read_definition (take n ps);
      if bool_decide (length fs = n) then
        if deprecate then Some (fs, None, drop n ps)
        else match drop n ps with e :: r => s ← read_eof e; Some (fs, Some s, r) | [] => None end
      else None
  end.
(** The statement that a client learns about. *)
Record prepared := mk_prepared { p_id : Z; p_warnings : Z; p_params : list MYSQL_FIELD; p_columns : list MYSQL_FIELD; p_status : option Z }.
Definition read_prepare (deprecate : bool) (ps : list (list Z)) : option prepared :=
  match ps with
  | [0; i0; i1; i2; i3; c0; c1; a0; a1; 0; w0; w1] :: ps' =>
      '(params, s1, r) ← read_definitions deprecate (Z.to_nat (le_value [a0; a1])) ps';
      '(columns, s2, r) ← read_definitions deprecate (Z.to_nat (le_value [c0; c1])) r;
      match r with [] => Some (mk_prepared (le_value [i0; i1; i2; i3]) (le_value [w0; w1]) params columns (match s2 with None => s1 | _ => s2 end)) | _ => None end
  | _ => None
  end.

(** The same session, some packets later. *)
Definition same_session (p p' : proto) : Prop :=
  mirror p' = mirror p ∧ session_type p' = session_type p ∧ autocommit p' = autocommit p ∧ myconn p' = myconn p.
Definition out_grown (id : Z) (ps : list (list Z)) (p p' : proto) : Prop :=
  same_session p p' ∧ concat (PSarrayOUT p') = concat (PSarrayOUT p) ++ packets id ps.
Lemma out_grown_app id ps qs p1 p2 p3 : out_grown id ps p1 p2 → out_grown (u8 (id + Z.of_nat (length ps))) qs p2 p3 → out_grown id (ps ++ qs) p1 p3.
Proof.
  intros [(H1 & H2 & H3 & H4) E1] [(G1 & G2 & G3 & G4) E2]. split; [split; [by rewrite G1|split; [by rewrite G2|split; [by rewrite G3|by rewrite G4]]]|].
  by rewrite E2, E1, packets_u8, packets_app, app_assoc.
Qed.
Lemma add_out_grown id payload p : out_grown id [payload] p (add_out (packet id payload) p).
Proof. split; [done|]. change (PSarrayOUT (add_out (packet id payload) p)) with (PSarrayOUT p ++ [packet id payload]). by rewrite concat_app. Qed.
Definition def_field (f : MYSQL_FIELD) : MYSQL_FIELD :=
  mk_field (str "def") (db f) (table f) (org_table f) (name f) (org_name f) (charsetnr f) (flength f) (ftype f) (fflags f) (decimals f).
Lemma send_fields_spec id fs p : is_u8 id → mirror p = false → Forall (λ f, definition_ok (def_field f)) fs →
  ∃ p', send_fields malloc id fs p = Ok (u8 (id + Z.of_nat (length fs)), p') ∧ out_grown id ((λ f, definition_payload (def_field f)) <$> fs) p p'.
Proof using malloc_size.
  intros Hid Hm Hfs. revert id p Hid Hm. induction Hfs as [|f fs Hf Hfs IH]; intros id p Hid Hm; cbn [send_fields].
  - exists p. cbn [length]. rewrite Z.add_0_r, u8_small by done. split; [done|]. split; [done|]. cbn. by rewrite app_nil_r.
  - unfold generate_pkt_field. rewrite Hm. fold (def_field f). rewrite (proj1 (field_packet_spec id (def_field f) Hf)). cbn [mbind outcome_bind].
    destruct (IH (u8 (id + 1)) (add_out (packet id (definition_payload (def_field f))) p)) as (p' & -> & Hg); [apply u8_range|done|]. exists p'.
    split; [rewrite u8_add_idemp; do 2 f_equal; f_equal; cbn [length]; lia|]. apply (out_grown_app id [definition_payload (def_field f)] _ p (add_out (packet id (definition_payload (def_field f))) p)); [apply add_out_grown|done].
Qed.
Definition deprecates (p : proto) : bool := match myconn p with Some c => has_flag (client_flag c) CLIENT_DEPRECATE_EOF | None => false end.
Definition block_payloads (st : Z) (fs : list MYSQL_FIELD) (p : proto) : list (list Z) :=
  ((λ f, definition_payload (def_field f)) <$> fs) ++ (if deprecates p then [] else [eof_payload 0 (status_of st p)]).
Lemma send_definitions_spec id st fs p : is_u8 id → mirror p = false → Forall (λ f, definition_ok (def_field f)) fs →
  ∃ p', send_definitions malloc id st fs p = Ok (u8 (id + Z.of_nat (length (block_payloads st fs p))), p') ∧ out_grown id (block_payloads st fs p) p p'.
Proof using malloc_size.
  intros Hid Hm Hfs. unfold send_definitions, block_payloads. destruct (send_fields_spec id fs p Hid Hm Hfs) as (p1 & -> & Hg). cbn [mbind outcome_bind].
  pose proof Hg as [(Hm1 & Hst & Ha & Hc) _]. unfold deprecates. rewrite Hc. rewrite length_app, length_fmap. destruct (match myconn p with Some c => _ | None => false end).
  - exists p1. cbn [length]. rewrite Nat.add_0_r, app_nil_r. done.
  - unfold generate_pkt_EOF. rewrite Hm1, Hm, make_exact by done. cbn [mbind outcome_bind length]. eexists. split.
    + do 2 f_equal. rewrite u8_add_idemp. f_equal. lia.
    + eapply out_grown_app; [exact Hg|]. rewrite length_fmap. split; [done|]. set (i := u8 (id + Z.of_nat (length fs))).
      assert (eof_bytes i 0 st p1 = packet i (eof_payload 0 (status_of st p))) as -> by (unfold eof_bytes, status_of; by rewrite Hst, Hc).
      change (PSarrayOUT (upd (proj := DSS) _ _)) with (PSarrayOUT p1 ++ [packet i (eof_payload 0 (status_of st p))]). by rewrite concat_app.
Qed.
Lemma read_block st fs p r : is_u16 (status_of st p) → Forall (λ f, definition_ok (def_field f)) fs →
  read_definitions (deprecates p) (length fs) ((if bool_decide (fs = []) then [] else block_payloads st fs p) ++ r)
  = Some (def_field <$> fs, if bool_decide (fs = []) then None else if deprecates p then None else Some (status_of st p), r).
Proof using malloc_size.
  intros Hst Hfs. destruct fs as [|f fs]; [done|]. rewrite !bool_decide_false by done. set (gs := f :: fs) in *. unfold block_payloads.
  unfold read_definitions. destruct (length gs) as [|n] eqn:En; [done|]. rewrite <- En. clear n En.
  assert (length ((λ f, definition_payload (def_field f)) <$> gs) = length gs) as Lg by apply length_fmap.
  rewrite <- app_assoc, take_app_length', drop_app_length' by (symmetry; exact Lg).
  assert (mapM read_definition ((λ f, definition_payload (def_field f)) <$> gs) = Some (def_field <$> gs)) as ->.
  { apply mapM_Some. clear Lg. induction Hfs as [|g gs' Hg Hgs IH]; constructor; [|exact IH]. by apply (field_packet_spec 0 (def_field g) Hg). }
  cbn [mbind option_bind]. rewrite length_fmap, bool_decide_true by done. destruct (deprecates p); [done|]. cbn [app].
  change (read_eof (eof_payload 0 (status_of st p))) with (Some (le_value (le_bytes 2 (status_of st p)))). rewrite le_value_bytes_small by (cbn; lia). done.
Qed.

(** The first packet of the answer. *)
Definition prepare_ok (id columns params warnings : Z) : list Z := 0 :: le_bytes 4 id ++ le_bytes 2 columns ++ le_bytes 2 params ++ 0 :: le_bytes 2 warnings.
Lemma read_prepare_ok d i c a w ps : is_u32 i → is_u16 c → is_u16 a → is_u16 w →
  read_prepare d (prepare_ok i c a w :: ps) =
    ('(params, s1, r) ← read_definitions d (Z.to_nat a) ps; '(columns, s2, r) ← read_definitions d (Z.to_nat c) r;
     match r with [] => Some (mk_prepared i w params columns (match s2 with None => s1 | _ => s2 end)) | _ => None end).
Proof.
  intros Hi Hc Ha Hw.
  transitivity ('(params, s1, r) ← read_definitions d (Z.to_nat (le_value (le_bytes 2 a))) ps; '(columns, s2, r) ← read_definitions d (Z.to_nat (le_value (le_bytes 2 c))) r;
    match r with [] => Some (mk_prepared (le_value (le_bytes 4 i)) (le_value (le_bytes 2 w)) params columns (match s2 with None => s1 | _ => s2 end)) | _ => None end); [done|].
  by rewrite !le_value_bytes_small.
Qed.
Lemma prepare_status_bit trx p : Z.testbit (status_of (prepare_status trx p) p) 0 = true.
Proof.
  unfold prepare_status, status_of. rewrite (proj2 (Z.leb_le 0 (u32 trx))) by apply u32_range. destruct (session_type p), (myconn p) as [[? []]|], (autocommit p); done.
Qed.
(** What comes after the first packet. *)
Definition definitions_of (st : Z) (fs : list MYSQL_FIELD) (p : proto) : list (list Z) := if bool_decide (fs = []) then [] else block_payloads st fs p.
Lemma maybe_send st s fs q n : is_u8 s → mirror q = false → n = Z.of_nat (length fs) → Forall (λ f, definition_ok (def_field f)) fs →
  ∃ q', (if negb (n =? 0) then send_definitions malloc s st fs q else Ok (s, q)) = Ok (u8 (s + Z.of_nat (length (definitions_of st fs q))), q') ∧
    out_grown s (definitions_of st fs q) q q'.
Proof using malloc_size.
  unfold definitions_of. intros Hs Hmq -> Hf. destruct fs as [|f fs].
  - exists q. rewrite !bool_decide_true by done. change (Z.of_nat (length (@nil (list Z)))) with 0. rewrite Z.add_0_r, u8_small by done.
    split; [done|]. split; [done|]. cbn [packets]. by rewrite app_nil_r.
  - rewrite bool_decide_false by done. rewrite (proj2 (Z.eqb_neq _ 0)) by (cbn [length]; lia). by apply send_definitions_spec.
Qed.
Lemma params_ok n : Forall (λ f, definition_ok (def_field f)) (replicate n param_field).
Proof. apply Forall_replicate. split; [repeat first [constructor; cbn; lia|constructor; [cbn; lia|]|constructor]|]. split; [by vm_compute|]. cbn. lia. Qed.

(** C15: A client that prepares a statement learns what the program knows of it.
    The packets of the answer are numbered without a gap; a reader of the protocol
    finds in them the id that was given, the warnings, one definition for every
    parameter and every column as it is stored, and nothing else, with EOF packets
    or without as it asked; and when there is one, its status says that a
    transaction is active, whether there is one or not. *)
Theorem prepare_read_back seq info id trx p : is_u8 seq → mirror p = false →
  is_u16 (num_params info) → num_columns info = Z.of_nat (length (fields info)) → is_u16 (num_columns info) → is_u16 (warning_count info) →
  0 <= id < 2 ^ 32 → is_u32 (statement_id info) → Forall (λ f, definition_ok (def_field f)) (fields info) → is_u16 (status_of (prepare_status trx p) p) →
  ∃ p' payloads st, generate_STMT_PREPARE_RESPONSE malloc seq info id trx p = Ok p' ∧ concat (PSarrayOUT p') = concat (PSarrayOUT p) ++ packets seq payloads ∧
    read_prepare (deprecates p) payloads = Some (mk_prepared (if id =? 0 then statement_id info else id) (warning_count info)
      (replicate (Z.to_nat (num_params info)) param_field) (def_field <$> fields info) st) ∧
    (∀ s, st = Some s → Z.testbit s 0 = true).
Proof using malloc_size.
  intros Hseq Hm Hpa Hco Hcr Hwa Hid Hsid Hfs Hst. unfold generate_STMT_PREPARE_RESPONSE. set (i := if negb (id =? 0) then id else statement_id info).
  assert (i = if id =? 0 then statement_id info else id) as Ei by (unfold i; by destruct (id =? 0)). assert (is_u32 i) as Hi by (unfold i; by destruct (id =? 0)).
  change (0 :: le_bytes 4 i ++ _) with (prepare_ok i (num_columns info) (num_params info) (warning_count info)). set (ok := prepare_ok _ _ _ _).
  rewrite (make_exact 16 (hdr_bytes (mk_hdr 12 seq) ++ ok)) by done. change (hdr_bytes (mk_hdr 12 seq) ++ ok) with (packet seq ok). cbn [mbind outcome_bind].
  set (p0 := add_out (packet seq ok) p). set (st := prepare_status trx p) in *. change (prepare_status trx p0) with st.
  set (params := replicate (Z.to_nat (num_params info)) param_field). pose proof (params_ok (Z.to_nat (num_params info))) as Hpf. fold params in Hpf.
  destruct (maybe_send st (u8 (seq + 1)) params p0 (num_params info)) as (p1 & -> & Hg1); [apply u8_range|done|unfold params; rewrite length_replicate; lia|done|]. cbn [mbind outcome_bind].
  rewrite (proj2 (Z.ltb_ge _ _)) by lia. assert (firstn (Z.to_nat (num_columns info)) (fields info) = fields info) as -> by (apply firstn_all2; lia). change (definitions_of st params p0) with (definitions_of st params p) in *.
  set (sid1 := u8 (u8 (seq + 1) + _)) in *. pose proof Hg1 as [(Em1 & Es1 & Ea1 & Ec1) _].
  destruct (maybe_send st sid1 (fields info) p1 (num_columns info)) as (p2 & -> & Hg2); [apply u8_range|by rewrite Em1|done|done|]. cbn [mbind outcome_bind].
  assert (definitions_of st (fields info) p1 = definitions_of st (fields info) p) as Eb by (unfold definitions_of, block_payloads, deprecates, status_of; rewrite Es1, Ec1; done). rewrite Eb in Hg2.
  eexists p2, _, _. split; [done|].
  split; [exact (proj2 (out_grown_app seq [ok] _ p p0 p2 (add_out_grown seq ok p) (out_grown_app _ _ _ p0 p1 p2 Hg1 Hg2)))|].
  cbn [app]. unfold ok. rewrite read_prepare_ok by done. unfold definitions_of.
  replace (Z.to_nat (num_params info)) with (length params) by (unfold params; by rewrite length_replicate).
  rewrite (read_block st params p) by done. cbn [mbind option_bind]. rewrite Hco, Nat2Z.id. rewrite <- (app_nil_r (if bool_decide (fields info = []) then _ else _)).
  rewrite (read_block st (fields info) p) by done. cbn [mbind option_bind]. rewrite Ei. split.
  - do 2 f_equal. unfold params. apply fmap_replicate.
  - intros s E. assert (s = status_of st p) as ->; [|apply prepare_status_bit]. revert E. repeat case_bool_decide; destruct (deprecates p); by intros [= <-].
Qed.
End Read.

Definition a_field : MYSQL_FIELD := mk_field (str "def") (str "d") (str "t") (str "t") (str "a") (str "a") 33 11 3 0 0.
Lemma a_field_ok : definition_ok (def_field a_field).
Proof. split; [repeat first [constructor; cbn; lia|constructor; [cbn; lia|]|constructor]|]. split; [by vm_compute|]. cbn. lia. Qed.
Definition a_proto : proto :=
  mk_proto false false PROXYSQL_SESSION_MYSQL true false 0 0 (-1) [] false (Some (mk_conn 0 false)) STATE_QUERY_SENT_NET 0 [].
Lemma prepare_read_back_witness :
  let info := mk_stmt_info 7 1 2 0 [a_field] in
  ∃ p' payloads st, generate_STMT_PREPARE_RESPONSE (λ n, replicate (Z.to_nat n) 0) 1 info 3 (-1) a_proto = Ok p' ∧
    concat (PSarrayOUT p') = concat (PSarrayOUT a_proto) ++ packets 1 payloads ∧
    read_prepare (deprecates a_proto) payloads = Some (mk_prepared (if 3 =? 0 then statement_id info else 3) (warning_count info)
      (replicate (Z.to_nat (num_params info)) param_field) (def_field <$> fields info) st) ∧
    (∀ s, st = Some s → Z.testbit s 0 = true).
Proof.
  intros info. apply (prepare_read_back (λ n, replicate (Z.to_nat n) 0)); try (split; cbn; lia); try done.
  - intros n Hn. rewrite length_replicate. lia.
  - constructor; [exact a_field_ok|constructor].
Defined.
