(* ===== verification/ResultOut.v ===== *)
(** * Results on their way to the client (lib/MySQL_ResultSet.cpp)

    [MySQL_ResultSet] turns the columns and rows that the client library returns
    into packets, in a buffer of 16300 bytes or in blocks of their own.  The
    answers of the client library (columns, rows, status, errors) are
    arguments. *)
From S2P Require Import Prelude Encode StringUtils DataStream ResultSet Packets.
Import LenEnc.

(** ** Operations *)
(** What the server says about the transaction, and the warnings of the backend
    connection, if there is one. *)
Record server := mk_server { active_trx : Z; server_status : Z; server_deprecates_eof : bool; backend_warnings : option Z }.
Definition set_status (sv : server) (p : proto) : Z :=
  let s := (if active_trx sv =? 0 then 0 else SERVER_STATUS_IN_TRANS) + (if autocommit p then SERVER_STATUS_AUTOCOMMIT else 0) in
  u16 (Z.ldiff (Z.lor s (Z.ldiff (server_status sv) SERVER_STATUS_AUTOCOMMIT)) SERVER_STATUS_CURSOR_EXISTS).
Definition count_size (n : Z) (rs : MySQL_ResultSet) : MySQL_ResultSet := rs <| resultset_size := u64 (resultset_size rs + n) |>.
Definition next_sid (rs : MySQL_ResultSet) : MySQL_ResultSet := rs <| sid := u8 (sid rs + 1) |>.
Definition complete (rs : MySQL_ResultSet) : MySQL_ResultSet := rs <| resultset_completed := true |>.
(** A block that is added as it is. *)
Definition add_block (pkt : list Z) (rs : MySQL_ResultSet) : MySQL_ResultSet := rs <| rs_out := rs_out rs ++ [pkt] |>.

Section Result.
Context (malloc : Z → list Z).

(** [generate_pkt_EOF] into the buffer: the room is not looked at. *)
Definition eof_to_buffer (id warnings status : Z) (p : proto) (rs : MySQL_ResultSet) : outcome (proto * MySQL_ResultSet) :=
  if mirror p then Ok (p, rs)
  else if RESULTSET_BUFLEN <? buffer_used rs + 9 then Fault OutOfBounds
  else rs ← append (eof_bytes id warnings status p) rs; Ok (p <| pkt_sid := id |>, rs).
Definition add_eof (suppress_warning_count : bool) (sv : server) (p : proto) (rs : MySQL_ResultSet) : outcome (proto * MySQL_ResultSet) :=
  if with_myprot rs then
    let st := set_status sv p in
    let warning_count := if suppress_warning_count then 0 else default 0 (backend_warnings sv) in
    let rs := buffer_to_PSarrayOut false rs in
    if deprecate_eof_active rs then
      '(pkt, p) ← generate_pkt_OK malloc false (sid rs) 0 0 st (u16 warning_count) None true p;
      match pkt with
      | None => Fault Uninitialised
      | Some pkt => Ok (p, complete (next_sid (count_size (Z.of_nat (length pkt)) (add_block pkt rs))))
      end
    else
      '(p, rs) ← eof_to_buffer (sid rs) (u16 warning_count) st p rs;
      Ok (p, complete (next_sid (buffer_to_PSarrayOut false (count_size 9 rs))))
  else Ok (p, complete rs).
(** The code, the SQL state and the text of the error are arguments. *)
Definition add_err (code : Z) (state msg : list Z) (p : proto) (rs : MySQL_ResultSet) : outcome (proto * MySQL_ResultSet) :=
  if with_myprot rs then
    let rs := buffer_to_PSarrayOut false rs in
    '(pkt, p) ← generate_pkt_ERR malloc false (sid rs) (u16 code) state (Some msg) p;
    match pkt with
    | None => Fault Uninitialised
    | Some pkt => Ok (p, complete (count_size (Z.of_nat (length pkt)) (next_sid (add_block pkt rs))))
    end
  else Ok (p, complete rs).
Definition remove_last_eof (rs : MySQL_ResultSet) : MySQL_ResultSet :=
  match last (rs_out rs) with
  | Some pkt => if Z.of_nat (length pkt) =? 9 then (rs <| rs_out := removelast (rs_out rs) |>) <| sid := u8 (sid rs - 1) |> else rs
  | None => rs
  end.

(** A packet that is made for the buffer; in a mirror session the function that
    makes it returns at once, and its size is not set. *)
Definition put_packet (pkt : outcome (list Z)) (p : proto) (rs : MySQL_ResultSet) : outcome MySQL_ResultSet :=
  if mirror p then Fault Uninitialised
  else pkt ← pkt; rs ← place pkt rs; Ok (next_sid (count_size (Z.of_nat (length pkt)) rs)).
Fixpoint put_fields (com_field_list : bool) (wild : option (list Z)) (fs : list MYSQL_FIELD) (p : proto) (rs : MySQL_ResultSet) : outcome MySQL_ResultSet :=
  match fs with
  | [] => Ok rs
  | f :: fs' =>
      rs ← (if negb com_field_list then put_packet (field_packet malloc (sid rs) f None) p rs
            else if match wild with None => true | Some w => Wild.mywildcmp w (name f) end then
              let f := mk_field (str "def") (db f) (table f) (org_table f) (name f) (org_name f) (charsetnr f) (flength f) (ftype f) (fflags f) (decimals f) in
              put_packet (field_packet malloc (sid rs) f (Some (4, str "null"))) p rs
            else Ok rs);
      put_fields com_field_list wild fs' p rs
  end.
Definition init (com_field_list : bool) (wild : option (list Z)) (fs : list MYSQL_FIELD) (sv : server) (p : proto) (rs : MySQL_ResultSet)
  : outcome (proto * MySQL_ResultSet) :=
  let rs := mk_result (if with_myprot rs then u8 (pkt_sid p + 1) else 0) (Some []) (rs_out rs) (Z.of_nat (length fs)) 0 0 (deprecate_eof_active rs) false false (with_myprot rs) in
  if negb (with_myprot rs) then Ok (p, rs)
  else
    rs ← (if negb com_field_list then put_packet (count_packet malloc (sid rs) (num_fields rs)) p rs else Ok rs);
    rs ← put_fields com_field_list wild fs p rs;
    let rs := rs <| deprecate_eof_active := match myconn p with Some c => has_flag (client_flag c) CLIENT_DEPRECATE_EOF | None => false end |> in
    let rs := if RESULTSET_BUFLEN <=? buffer_used rs + 9 then buffer_to_PSarrayOut false rs else rs in
    if negb (deprecate_eof_active rs) && negb com_field_list then add_eof (server_deprecates_eof sv) sv p rs else Ok (p, rs).

Definition count_row (n : Z) (rs : MySQL_ResultSet) : MySQL_ResultSet := (count_size n (next_sid rs)) <| num_rows := u64 (num_rows rs + 1) |>.
(** A row of the text protocol. *)
Definition add_row (fs : list (option (list Z))) (p : proto) (rs : MySQL_ResultSet) : outcome (Z * MySQL_ResultSet) :=
  if with_myprot rs then
    '(s, n, rs) ← generate_pkt_row3 malloc (sid rs) (Text fs) p rs;
    let n := default 0 n in
    Ok (n, count_row n (rs <| sid := s |>))
  else let n := u32 (row_length fs) in Ok (n, count_row n rs).
(** A row of the binary protocol. *)
Definition add_row_binary (bs : list Z) (p : proto) (rs : MySQL_ResultSet) : outcome (Z * MySQL_ResultSet) :=
  if with_myprot rs then
    '(s, n, rs) ← generate_pkt_row3 malloc (sid rs) (Raw bs) p rs;
    let n := default 0 n in
    Ok (n, count_row n (rs <| sid := s |>))
  else Fault NullPointer.

(** *** Rows of prepared statements *)
(** The bytes that [add_row2] writes, and the next sequence id. *)
Fixpoint row2_loop (fuel : nat) (row : list Z) (left copied pid : Z) : outcome (list Z * Z) :=
  if MAX_PAYLOAD <=? left then
    match fuel with
    | O => Fault Diverges
    | S fuel' =>
        b ← slice row copied MAX_PAYLOAD;
        '(bs, pid') ← row2_loop fuel' row (left - MAX_PAYLOAD) (copied + MAX_PAYLOAD) (u8 (pid + 1));
        Ok (hdr_bytes (mk_hdr MAX_PAYLOAD pid) ++ b ++ bs, pid')
    end
  else
    b ← slice row copied left;
    Ok (hdr_bytes (mk_hdr left pid) ++ b, u8 (pid + 1)).
Definition row2_bytes (pid : Z) (row : list Z) : outcome (list Z * Z) :=
  let length_ := Z.of_nat (length row) in
  if length_ <? MAX_PAYLOAD + 4 then Ok (hdr_bytes (mk_hdr length_ pid) ++ row, u8 (pid + 1))
  else row2_loop (Z.to_nat (length_ / MAX_PAYLOAD)) row (u32 length_) 0 pid.
Definition add_row2 (row : list Z) (off : Z) (blk : list Z) (rs : MySQL_ResultSet) : outcome (list Z * MySQL_ResultSet) :=
  '(bs, pid) ← row2_bytes (sid rs) row;
  blk ← blit blk off bs;
  Ok (blk, (rs <| num_rows := u64 (num_rows rs + 1) |>) <| sid := pid |>).
(** What the callers reserve for a row. *)
Definition row_room (row : list Z) : Z :=
  let n := Z.of_nat (length row) in n + (if MAX_PAYLOAD <? n then n / MAX_PAYLOAD * 4 else 0) + 4.
Definition MAXBUFFSTMT : Z := 12 * 1024 * 1024.
Fixpoint add_all (rows : list (list Z)) (off : Z) (blk : list Z) (rs : MySQL_ResultSet) : outcome (list Z * MySQL_ResultSet) :=
  match rows with
  | [] => Ok (blk, rs)
  | r :: rows' => '(blk, rs) ← add_row2 r off blk rs; add_all rows' (off + row_room r) blk rs
  end.
(** The small rows that fit in one block: their size. *)
Fixpoint small_rows (rows : list (list Z)) (tmp : Z) : Z :=
  match rows with
  | [] => tmp
  | r :: rows' => if tmp + Z.of_nat (length r) <? MAXBUFFSTMT then small_rows rows' (tmp + Z.of_nat (length r) + 4) else tmp
  end.
Fixpoint add_until (rows : list (list Z)) (tmp2 size : Z) (blk : list Z) (rs : MySQL_ResultSet) : outcome (list Z * list (list Z) * MySQL_ResultSet) :=
  if tmp2 <? size then
    match rows with
    | [] => Fault NullPointer
    | r :: rows' => '(blk, rs) ← add_row2 r tmp2 blk rs; add_until rows' (tmp2 + Z.of_nat (length r) + 4) size blk rs
    end
  else Ok (blk, rows, rs).
Definition finish_block (blk : list Z) (rs : MySQL_ResultSet) : MySQL_ResultSet := count_size (Z.of_nat (length blk)) (add_block blk rs).
Fixpoint send_blocks (fuel : nat) (rows : list (list Z)) (rs : MySQL_ResultSet) : outcome MySQL_ResultSet :=
  match rows with
  | [] => Ok rs
  | r :: rows' =>
      match fuel with
      | O => Fault Diverges
      | S fuel' =>
          if MAXBUFFSTMT <=? Z.of_nat (length r) then
            '(blk, rs) ← add_row2 r 0 (malloc (u32 (row_room r))) rs;
            send_blocks fuel' rows' (finish_block blk rs)
          else
            let size := small_rows rows 0 in
            if size =? 0 then Fault Diverges
            else
              '(blk, rest, rs) ← add_until rows 0 size (malloc (u32 size)) rs;
              send_blocks fuel' rest (finish_block blk rs)
      end
  end.
Definition total_room (rows : list (list Z)) : Z := foldr (λ r n, row_room r + n) 0 rows.
Definition send_rows (rows : list (list Z)) (rs : MySQL_ResultSet) : outcome MySQL_ResultSet :=
  let rs := buffer_to_PSarrayOut false rs in
  if bool_decide (rows = []) then Ok rs
  else if total_room rows <? MAXBUFFSTMT then
    '(blk, rs) ← add_all rows 0 (malloc (total_room rows)) rs; Ok (finish_block blk rs)
  else send_blocks (length rows) rows rs.
(** [err] is what mysql_stmt_errno and its companions say, if it is not 0. *)
Definition init_with_stmt (rows : list (list Z)) (err : option (Z * list Z * list Z)) (sv : server) (p : proto) (rs : MySQL_ResultSet) : outcome (proto * MySQL_ResultSet) :=
  if negb (with_myprot rs) then Fault NullPointer
  else
  rs ← send_rows rows rs;
  match err with
  | Some (code, state, msg) => add_err code state msg p rs
  | None => add_eof false sv p rs
  end.
End Result.

(** The blocks that are handed over, and whether the result is complete. *)
Definition get_resultset (rs : MySQL_ResultSet) : bool * list (list Z) * MySQL_ResultSet :=
  let rs := rs <| transfer_started := true |> in
  if with_myprot rs then (resultset_completed rs, rs_out rs, rs <| rs_out := [] |>) else (resultset_completed rs, [], rs).

(** ** Large payloads *)
(** The protocol's rule for a payload: packets that are full, and one that is
    not. *)
Fixpoint split_loop (n : nat) (s : list Z) : list (list Z) :=
  match n with
  | O => [s]
  | S n' => if Z.of_nat (length s) <? MAX_PAYLOAD then [s] else take (Z.to_nat MAX_PAYLOAD) s :: split_loop n' (drop (Z.to_nat MAX_PAYLOAD) s)
  end.
Definition split_payload (s : list Z) : list (list Z) := split_loop (Z.to_nat (Z.of_nat (length s) / MAX_PAYLOAD)) s.

Lemma div_payload n : 0 <= n → MAX_PAYLOAD * (n / MAX_PAYLOAD) <= n < MAX_PAYLOAD * (n / MAX_PAYLOAD) + MAX_PAYLOAD ∧ 0 <= n / MAX_PAYLOAD.
Proof. intros Hn. unfold MAX_PAYLOAD. pose proof (Z.mod_pos_bound n 16777215 ltac:(lia)). pose proof (Z.div_mod n 16777215 ltac:(lia)). split; [lia|apply Z.div_pos; lia]. Qed.
Lemma pieces_split s cs l : pieces s cs l → split_payload s = cs ++ [l].
Proof.
  unfold split_payload. destruct (div_payload (Z.of_nat (length s)) ltac:(lia)) as [Hd H0].
  assert (Z.of_nat (length s) < MAX_PAYLOAD * (Z.of_nat (Z.to_nat (Z.of_nat (length s) / MAX_PAYLOAD)) + 1)) as Hn by (unfold MAX_PAYLOAD in *; lia). revert Hn. clear Hd H0.
  generalize (Z.to_nat (Z.of_nat (length s) / MAX_PAYLOAD)). intros n. revert s n. induction cs as [|c cs IH]; intros s n Hn (Hcat & Hcs & Hl); cbn [concat app] in *.
  - subst s. destruct n; cbn [split_loop]; [done|]. by rewrite (proj2 (Z.ltb_lt _ _)).
  - inversion Hcs as [|? ? Hc Hcs']; subst. rewrite <- app_assoc in *. rewrite length_app in Hn. destruct n as [|n]; [unfold MAX_PAYLOAD in *; lia|]. cbn [split_loop].
    rewrite length_app, (proj2 (Z.ltb_ge _ _)) by lia. rewrite take_app_length', drop_app_length' by (unfold MAX_PAYLOAD in *; lia). f_equal.
    apply IH; [unfold MAX_PAYLOAD in *; lia|done].
Qed.
Lemma split_pieces s : ∃ cs l, pieces s cs l.
Proof.
  remember (length s) as n eqn:En. revert s En. induction n as [n IH] using lt_wf_ind. intros s ->. destruct (Z.ltb_spec (Z.of_nat (length s)) MAX_PAYLOAD) as [E|E].
  - exists [], s. split; [done|]. split; [constructor|done].
  - destruct (IH (length (drop (Z.to_nat MAX_PAYLOAD) s)) ltac:(rewrite length_drop; unfold MAX_PAYLOAD in *; lia) _ eq_refl) as (cs & l & Hcat & Hcs & Hl).
    exists (take (Z.to_nat MAX_PAYLOAD) s :: cs), l. split; [cbn; by rewrite <- app_assoc, Hcat, take_drop|]. split; [|done]. constructor; [|done]. rewrite length_take. unfold MAX_PAYLOAD in *. lia.
Qed.
Lemma concat_split s : concat (split_payload s) = s.
Proof. destruct (split_pieces s) as (cs & l & Hp). rewrite (pieces_split _ _ _ Hp), concat_app. cbn. rewrite app_nil_r. apply Hp. Qed.
Lemma split_small s : Z.of_nat (length s) < MAX_PAYLOAD → split_payload s = [s].
Proof. intros Hs. apply (pieces_split s [] s). split; [done|]. split; [constructor|done]. Qed.

(** ** Rows of prepared statements *)
Lemma row2_loop_spec fuel row left copied pid cs l : is_u8 pid → 0 <= copied → left = Z.of_nat (length row) - copied → 0 <= left < MAX_PAYLOAD * (Z.of_nat fuel + 1) →
  pieces (drop (Z.to_nat copied) row) cs l → row2_loop fuel row left copied pid = Ok (packets pid (cs ++ [l]), u8 (pid + Z.of_nat (length (cs ++ [l])))).
Proof.
  revert left copied pid cs. induction fuel as [|fuel IH]; intros left copied pid cs Hp Hc -> Hf (Hcat & Hcs & Hl); cbn [row2_loop];
    pose proof (f_equal length Hcat) as Hlen; rewrite length_app, length_drop in Hlen; (destruct cs as [|c cs]; cbn [concat app length] in *;
    [rewrite (proj2 (Z.leb_gt _ _)) by lia; rewrite slice_ok by lia; cbn [mbind outcome_bind]; rewrite take_ge by (rewrite length_drop; lia); rewrite <- Hcat; cbn [packets]; unfold packet;
     rewrite app_nil_r; do 4 f_equal; f_equal; lia|inversion Hcs as [|? ? Hc1 Hcs']; subst; rewrite length_app in Hlen]).
  - unfold MAX_PAYLOAD in *. lia.
  - rewrite (proj2 (Z.leb_le _ _)) by lia. rewrite slice_ok by (unfold MAX_PAYLOAD in *; lia). cbn [mbind outcome_bind].
    rewrite <- app_assoc in Hcat. assert (take (Z.to_nat MAX_PAYLOAD) (drop (Z.to_nat copied) row) = c) as -> by (rewrite <- Hcat; apply take_app_length'; lia).
    rewrite (IH _ (copied + MAX_PAYLOAD) (u8 (pid + 1)) cs); [|apply u8_range|unfold MAX_PAYLOAD; lia|lia|unfold MAX_PAYLOAD in *; lia|].
    + cbn [mbind outcome_bind packets]. unfold packet. rewrite Hc1, packets_u8, <- app_assoc. do 2 f_equal. rewrite u8_add_idemp. f_equal. lia.
    + split; [|split; [done|done]]. rewrite Z2Nat.inj_add, <- drop_drop, <- Hcat by (unfold MAX_PAYLOAD; lia). rewrite drop_app_length' by lia. done.
Qed.

(** A row whose length is read back as it was written: not one of the four that
    the test for large rows lets through. *)
Definition fine_row (row : list Z) : Prop := Z.of_nat (length row) < 2 ^ 31 ∧ (Z.of_nat (length row) < MAX_PAYLOAD ∨ MAX_PAYLOAD + 4 <= Z.of_nat (length row)).
Lemma row2_bytes_spec pid row : is_u8 pid → fine_row row →
  row2_bytes pid row = Ok (packets pid (split_payload row), u8 (pid + Z.of_nat (length (split_payload row)))) ∧
  Z.of_nat (length (packets pid (split_payload row))) = row_room row.
Proof.
  intros Hp [Hlen Hf]. unfold row2_bytes, row_room. destruct (split_pieces row) as (cs & l & Hpc). rewrite (pieces_split _ _ _ Hpc). pose proof Hpc as (Hcat & Hcs & Hl).
  assert (Z.of_nat (length (concat cs)) = MAX_PAYLOAD * Z.of_nat (length cs)) as Lcs by (clear -Hcs; unfold MAX_PAYLOAD in *; induction Hcs as [|c cs Hc Hcs IH]; cbn [concat length]; [done|]; rewrite length_app; lia).
  pose proof (f_equal length Hcat) as Hl2. rewrite length_app in Hl2. assert (total_length cs = length (concat cs) + 4 * length cs)%nat as Et
    by (clear; induction cs as [|c cs IH]; cbn; [lia|]; rewrite length_app; lia).
  rewrite packets_length, total_length_app. cbn [total_length]. destruct Hf as [Hf|Hf].
  - assert (cs = []) as -> by (destruct cs; [done|cbn [length] in Lcs; unfold MAX_PAYLOAD in *; lia]). cbn [concat app] in Hcat. subst l. rewrite !(proj2 (Z.ltb_lt _ _)) by lia.
    rewrite (proj2 (Z.ltb_ge MAX_PAYLOAD _)) by lia. cbn [app packets length total_length]. unfold packet. rewrite app_nil_r. split; [done|lia].
  - rewrite (proj2 (Z.ltb_ge _ _)), (proj2 (Z.ltb_lt MAX_PAYLOAD _)) by lia. rewrite u32_small by lia. destruct (div_payload (Z.of_nat (length row)) ltac:(lia)) as [Hd H0]. split.
    + apply row2_loop_spec; [done|lia|lia|unfold MAX_PAYLOAD in *; lia|by rewrite drop_0].
    + assert (Z.of_nat (length row) / MAX_PAYLOAD = Z.of_nat (length cs)) as ->; [|lia]. unfold MAX_PAYLOAD in *. lia.
Qed.
Definition row_packets (rows : list (list Z)) : list (list Z) := concat (split_payload <$> rows).
(** The counters after some rows. *)
Definition counted (rows : list (list Z)) (rs : MySQL_ResultSet) : MySQL_ResultSet :=
  (rs <| num_rows := u64 (num_rows rs + Z.of_nat (length rows)) |>) <| sid := u8 (sid rs + Z.of_nat (length (row_packets rows))) |>.
Lemma counted_cons row rows rs : counted rows (counted [row] rs) = counted (row :: rows) rs.
Proof.
  transitivity ((rs <| num_rows := u64 (u64 (num_rows rs + 1) + Z.of_nat (length rows)) |>)
    <| sid := u8 (u8 (sid rs + Z.of_nat (length (row_packets [row]))) + Z.of_nat (length (row_packets rows))) |>); [by destruct rs|].
  rewrite u8_add_idemp, u64_add_idemp. unfold counted.
  replace (sid rs + Z.of_nat (length (row_packets [row])) + Z.of_nat (length (row_packets rows))) with (sid rs + Z.of_nat (length (row_packets (row :: rows))))
    by (unfold row_packets; cbn [fmap list_fmap concat]; rewrite app_nil_r, length_app; lia).
  by replace (num_rows rs + 1 + Z.of_nat (length rows)) with (num_rows rs + Z.of_nat (length (row :: rows))) by (cbn [length]; lia).
Qed.
Lemma row_packets_cons row rows : row_packets (row :: rows) = split_payload row ++ row_packets rows.
Proof. done. Qed.
Lemma counted_nil rs : is_u8 (sid rs) → 0 <= num_rows rs < 2 ^ 64 → counted [] rs = rs.
Proof. intros Hs Hn. unfold counted. cbn [length row_packets concat fmap list_fmap]. rewrite !Z.add_0_r, u8_small, u64_small by done. by destruct rs. Qed.
Lemma row_room_pos row : 4 <= row_room row.
Proof. unfold row_room. destruct (div_payload (Z.of_nat (length row)) ltac:(lia)). case_test; lia. Qed.
Lemma total_room_packets rows pid : Forall fine_row rows → is_u8 pid → Z.of_nat (length (packets pid (row_packets rows))) = total_room rows.
Proof.
  intros Hr Hp. rewrite packets_length. induction Hr as [|row rows Hrow Hrows IH]; [done|]. rewrite row_packets_cons, total_length_app. cbn [total_room foldr]. fold (total_room rows).
  destruct (row2_bytes_spec pid row Hp Hrow) as [_ <-]. rewrite packets_length. lia.
Qed.
(** A block whose first bytes are written. *)
Definition filled (done_ : list Z) (n : Z) (blk : list Z) : Prop := ∃ rest, blk = done_ ++ rest ∧ Z.of_nat (length rest) = n.
Lemma add_row2_spec row done_ n blk rs : is_u8 (sid rs) → fine_row row → filled done_ n blk → row_room row <= n →
  ∃ blk', add_row2 row (Z.of_nat (length done_)) blk rs = Ok (blk', counted [row] rs) ∧ filled (done_ ++ packets (sid rs) (split_payload row)) (n - row_room row) blk'.
Proof.
  intros Hs Hr (rest & -> & Hn) Hroom. destruct (row2_bytes_spec (sid rs) row Hs Hr) as [E L]. unfold add_row2. rewrite E. cbn [mbind outcome_bind].
  rewrite blit_ok by (rewrite ?length_app; lia). cbn [mbind outcome_bind]. rewrite Nat2Z.id, take_app_length. eexists. split.
  - f_equal. f_equal. unfold counted. cbn [length row_packets concat fmap list_fmap]. by rewrite app_nil_r.
  - eexists. rewrite app_assoc. split; [done|]. rewrite length_drop, length_app. lia.
Qed.
Lemma sid_counted rows rs : is_u8 (sid (counted rows rs)).
Proof. apply u8_range. Qed.
Lemma packets_sid rows ps rs : packets (sid (counted rows rs)) ps = packets (sid rs + Z.of_nat (length (row_packets rows))) ps.
Proof. apply packets_u8. Qed.
Lemma filled_row row rows done_ n blk rs :
  filled ((done_ ++ packets (sid rs) (split_payload row)) ++ packets (sid (counted [row] rs)) (row_packets rows)) n blk →
  filled (done_ ++ packets (sid rs) (row_packets (row :: rows))) n blk.
Proof.
  rewrite packets_sid, (row_packets_cons row rows), packets_app, <- app_assoc. unfold row_packets at 1. cbn [fmap list_fmap concat]. by rewrite app_nil_r.
Qed.
Lemma done_length row rs (done_ : list Z) : is_u8 (sid rs) → fine_row row →
  Z.of_nat (length done_) + row_room row = Z.of_nat (length (done_ ++ packets (sid rs) (split_payload row))).
Proof. intros Hs Hr. destruct (row2_bytes_spec (sid rs) row Hs Hr) as [_ <-]. rewrite length_app. lia. Qed.
Definition counters_ok (rs : MySQL_ResultSet) : Prop := is_u8 (sid rs) ∧ 0 <= num_rows rs < 2 ^ 64.
Lemma counters_counted rows rs : counters_ok (counted rows rs).
Proof. split; [apply u8_range|apply u64_range]. Qed.
Lemma add_all_rows rows done_ n blk rs : counters_ok rs → Forall fine_row rows → filled done_ n blk → total_room rows <= n →
  ∃ blk', add_all rows (Z.of_nat (length done_)) blk rs = Ok (blk', counted rows rs) ∧ filled (done_ ++ packets (sid rs) (row_packets rows)) (n - total_room rows) blk'.
Proof.
  intros Hs Hr. revert done_ n blk rs Hs. induction Hr as [|row rows Hrow Hrows IH]; intros done_ n blk rs Hs Hf Hn; cbn [add_all].
  - exists blk. rewrite (counted_nil rs) by apply Hs. cbn. rewrite app_nil_r, Z.sub_0_r. done.
  - cbn [total_room foldr] in *. fold (total_room rows) in *. assert (0 <= total_room rows) by (clear; induction rows as [|r rows IH]; cbn; [lia|]; pose proof (row_room_pos r); fold (total_room rows); lia).
    destruct (add_row2_spec row done_ n blk rs (proj1 Hs) Hrow Hf ltac:(lia)) as (blk1 & -> & Hf1). cbn [mbind outcome_bind].
    rewrite (done_length row rs done_ (proj1 Hs) Hrow). destruct (IH _ _ blk1 (counted [row] rs) (counters_counted _ _) Hf1 ltac:(lia)) as (blk2 & -> & Hf2).
    exists blk2. rewrite counted_cons. split; [done|]. apply filled_row. by replace (n - (row_room row + total_room rows)) with (n - row_room row - total_room rows) by lia.
Qed.
Lemma total_room_nonneg rows : 0 <= total_room rows.
Proof. induction rows as [|r rows IH]; cbn [total_room foldr]; [lia|]. pose proof (row_room_pos r). fold (total_room rows). lia. Qed.
Lemma row_room_small row : Z.of_nat (length row) < MAXBUFFSTMT → row_room row = Z.of_nat (length row) + 4.
Proof. intros H. unfold row_room, MAXBUFFSTMT, MAX_PAYLOAD in *. rewrite (proj2 (Z.ltb_ge _ _)) by lia. lia. Qed.
Lemma small_rows_spec rows tmp : 0 <= tmp → ∃ chunk rest, rows = chunk ++ rest ∧ small_rows rows tmp = tmp + total_room chunk ∧
  Forall (λ r, Z.of_nat (length r) < MAXBUFFSTMT) chunk ∧ (tmp < MAXBUFFSTMT + 4 → small_rows rows tmp < MAXBUFFSTMT + 4) ∧
  (∀ r, rows !! 0%nat = Some r → tmp + Z.of_nat (length r) < MAXBUFFSTMT → chunk ≠ []).
Proof.
  revert tmp. induction rows as [|r rows IH]; intros tmp Ht; cbn [small_rows].
  { exists [], []. cbn. split; [done|]. split; [lia|]. split; [constructor|]. split; [done|done]. }
  destruct (Z.ltb_spec (tmp + Z.of_nat (length r)) MAXBUFFSTMT) as [E|E].
  - destruct (IH (tmp + Z.of_nat (length r) + 4) ltac:(lia)) as (chunk & rest & -> & E2 & Hc & Hb & _). exists (r :: chunk), rest. split; [done|].
    cbn [total_room foldr]. fold (total_room chunk). rewrite row_room_small by lia. split; [lia|]. split; [constructor; [lia|done]|]. split; [intros; lia|done].
  - exists [], (r :: rows). cbn [total_room foldr]. split; [done|]. split; [lia|]. split; [constructor|]. split; [lia|]. intros r' [= <-]. lia.
Qed.
Lemma add_until_spec chunk rest done_ n blk rs : counters_ok rs → Forall fine_row chunk → Forall (λ r, Z.of_nat (length r) < MAXBUFFSTMT) chunk → filled done_ n blk → total_room chunk <= n →
  ∃ blk', add_until (chunk ++ rest) (Z.of_nat (length done_)) (Z.of_nat (length done_) + total_room chunk) blk rs = Ok (blk', rest, counted chunk rs) ∧
    filled (done_ ++ packets (sid rs) (row_packets chunk)) (n - total_room chunk) blk'.
Proof.
  intros Hs Hr. revert done_ n blk rs Hs. induction Hr as [|row rows Hrow Hrows IH]; intros done_ n blk rs Hs Hsm Hf Hn; cbn [app total_room foldr] in *.
  - exists blk. rewrite (counted_nil rs) by apply Hs. rewrite Z.add_0_r, Z.sub_0_r. cbn. rewrite app_nil_r. split; [|done].
    destruct rest; cbn [add_until]; by rewrite Z.ltb_irrefl.
  - fold (total_room rows) in *. inversion Hsm as [|? ? Hsm1 Hsm2]; subst. pose proof (total_room_nonneg rows). pose proof (row_room_pos row). cbn [add_until].
    rewrite (proj2 (Z.ltb_lt _ _)) by lia. destruct (add_row2_spec row done_ n blk rs (proj1 Hs) Hrow Hf ltac:(lia)) as (blk1 & -> & Hf1). cbn [mbind outcome_bind].
    replace (Z.of_nat (length done_) + Z.of_nat (length row) + 4) with (Z.of_nat (length done_) + row_room row) by (rewrite row_room_small by done; lia).
    rewrite Z.add_assoc, (done_length row rs done_ (proj1 Hs) Hrow).
    destruct (IH _ _ blk1 (counted [row] rs) (counters_counted _ _) Hsm2 Hf1 ltac:(lia)) as (blk2 & -> & Hf2).
    exists blk2. rewrite counted_cons. split; [done|]. apply filled_row. by replace (n - (row_room row + total_room rows)) with (n - row_room row - total_room rows) by lia.
Qed.

Section Statement.
Context (malloc : Z → list Z) (malloc_size : ∀ n, 0 <= n → Z.of_nat (length (malloc n)) = n).

(** What a step of sending does to the bytes and the counters. *)
Definition sent (rows : list (list Z)) (rs rs' : MySQL_ResultSet) : Prop :=
  counters_ok rs' ∧ buffer rs' = Some [] ∧ concat (rs_out rs') = concat (rs_out rs) ++ packets (sid rs) (row_packets rows) ∧
  sid rs' = sid (counted rows rs) ∧ num_rows rs' = num_rows (counted rows rs) ∧ with_myprot rs' = with_myprot rs ∧ deprecate_eof_active rs' = deprecate_eof_active rs.
Lemma finish_sent rows blk rs : buffer rs = Some [] → filled (packets (sid rs) (row_packets rows)) 0 blk → sent rows rs (finish_block blk (counted rows rs)).
Proof.
  intros Hb (rest & -> & Hn). assert (rest = []) as -> by (apply nil_length_inv; lia). rewrite app_nil_r. split; [exact (counters_counted rows rs)|]. split; [exact Hb|].
  split; [|done]. change (rs_out (finish_block (packets (sid rs) (row_packets rows)) (counted rows rs))) with (rs_out rs ++ [packets (sid rs) (row_packets rows)]).
  rewrite concat_app. cbn [concat]. by rewrite app_nil_r.
Qed.
Lemma sent_app rows1 rows2 rs1 rs2 rs3 : sent rows1 rs1 rs2 → sent rows2 rs2 rs3 → sent (rows1 ++ rows2) rs1 rs3.
Proof.
  intros (Hc1 & Hb1 & Ho1 & Hs1 & Hn1 & Hm1 & Hd1) (Hc2 & Hb2 & Ho2 & Hs2 & Hn2 & Hm2 & Hd2).
  assert (row_packets (rows1 ++ rows2) = row_packets rows1 ++ row_packets rows2) as Erp by (unfold row_packets; by rewrite fmap_app, concat_app).
  split; [done|]. split; [done|]. split; [|split; [|split; [|split; [by rewrite Hm2, Hm1|by rewrite Hd2, Hd1]]]].
  - by rewrite Ho2, Ho1, Hs1, packets_sid, <- app_assoc, Erp, packets_app.
  - rewrite Hs2. change (u8 (sid rs2 + Z.of_nat (length (row_packets rows2))) = u8 (sid rs1 + Z.of_nat (length (row_packets (rows1 ++ rows2))))).
    rewrite Hs1. change (sid (counted rows1 rs1)) with (u8 (sid rs1 + Z.of_nat (length (row_packets rows1)))). rewrite u8_add_idemp, Erp, length_app. f_equal. lia.
  - rewrite Hn2. change (u64 (num_rows rs2 + Z.of_nat (length rows2)) = u64 (num_rows rs1 + Z.of_nat (length (rows1 ++ rows2)))).
    rewrite Hn1. change (num_rows (counted rows1 rs1)) with (u64 (num_rows rs1 + Z.of_nat (length rows1))). rewrite u64_add_idemp, length_app. f_equal. lia.
Qed.
Lemma fresh_block n : 0 <= n → filled [] n (malloc n).
Proof using malloc_size. intros Hn. exists (malloc n). split; [done|by apply malloc_size]. Qed.
Lemma send_blocks_spec fuel rows rs : counters_ok rs → buffer rs = Some [] → Forall fine_row rows → (length rows ≤ fuel)%nat →
  ∃ rs', send_blocks malloc fuel rows rs = Ok rs' ∧ sent rows rs rs'.
Proof using malloc_size.
  revert rows rs. induction fuel as [|fuel IH]; intros rows rs Hc Hb Hr Hf; (destruct rows as [|r rows]; cbn [send_blocks];
    [exists rs; split; [done|]; split; [done|]; split; [done|]; rewrite counted_nil by apply Hc; cbn; by rewrite app_nil_r|cbn [length] in Hf; try lia]).
  inversion Hr as [|? ? Hr1 Hr2]; subst. destruct (Z.leb_spec MAXBUFFSTMT (Z.of_nat (length r))) as [E|E].
  - pose proof Hr1 as [Hlt _]. assert (0 <= row_room r < 2 ^ 32) as Hroom.
    { pose proof (row_room_pos r). unfold row_room. destruct (div_payload (Z.of_nat (length r)) ltac:(lia)). unfold MAX_PAYLOAD in *. case_test; lia. }
    rewrite u32_small by lia.
    destruct (add_row2_spec r [] (row_room r) (malloc (row_room r)) rs (proj1 Hc) Hr1 (fresh_block (row_room r) ltac:(lia)) ltac:(lia)) as (blk & E2 & Hfl). change (Z.of_nat (length (@nil Z))) with 0 in E2. cbn [app] in Hfl.
    rewrite E2. cbn [mbind outcome_bind]. rewrite Z.sub_diag in Hfl.
    assert (sent [r] rs (finish_block blk (counted [r] rs))) as Hsent by (apply finish_sent; [done|]; unfold row_packets; cbn [fmap list_fmap concat]; by rewrite app_nil_r).
    destruct (IH rows (finish_block blk (counted [r] rs))) as (rs' & E3 & Hs3); [apply Hsent|apply Hsent|done|lia|]. exists rs'. split; [done|]. exact (sent_app [r] rows _ _ _ Hsent Hs3).
  - destruct (small_rows_spec (r :: rows) 0 ltac:(lia)) as (chunk & rest & Ech & Esz & Hsm & Hbd & Hne). specialize (Hbd ltac:(unfold MAXBUFFSTMT; lia)). specialize (Hne r eq_refl ltac:(lia)).
    rewrite Esz, Z.add_0_l in *. assert (0 < total_room chunk) as Hpos by (destruct chunk as [|c chunk]; [done|]; cbn [total_room foldr]; pose proof (row_room_pos c); pose proof (total_room_nonneg chunk); fold (total_room chunk); lia).
    rewrite (proj2 (Z.eqb_neq _ 0)) by lia. rewrite u32_small by (unfold MAXBUFFSTMT in *; lia). rewrite Ech in Hr |- *. apply Forall_app in Hr as [Hrc Hrr].
    destruct (add_until_spec chunk rest [] (total_room chunk) (malloc (total_room chunk)) rs Hc Hrc Hsm (fresh_block (total_room chunk) ltac:(lia)) ltac:(lia)) as (blk & E2 & Hfl). change (Z.of_nat (length (@nil Z))) with 0 in E2. cbn [app] in Hfl. rewrite Z.add_0_l in E2.
    rewrite E2. cbn [mbind outcome_bind]. rewrite Z.sub_diag in Hfl. pose proof (finish_sent chunk blk rs Hb Hfl) as Hsent.
    destruct (IH rest (finish_block blk (counted chunk rs))) as (rs' & E3 & Hs3); [apply Hsent|apply Hsent|done| |].
    { apply (f_equal length) in Ech. rewrite length_app in Ech. cbn [length] in Ech. destruct chunk; [done|]. cbn [length] in Ech. lia. }
    exists rs'. split; [done|]. exact (sent_app chunk rest _ _ _ Hsent Hs3).
Qed.

(** C14: The rows of a prepared statement reach the client as they are.  Whatever
    their number and sizes, up to 2 GB a row, and whether they share one block, go
    in blocks of up to 12 MB or alone, the bytes added to the result are the
    packets of the rows, cut as the protocol demands, numbered without a gap
    modulo 256; every block is filled exactly, and the loops end.  Only the rows
    of four lengths are excluded, which are sent wrong (see [misframed_row]). *)
Theorem statement_rows_sent rows rs : result_ok rs → counters_ok rs → Forall fine_row rows →
  ∃ rs', send_rows malloc rows rs = Ok rs' ∧ written rs' = written rs ++ packets (sid rs) (row_packets rows) ∧
    concat (row_packets rows) = concat rows ∧ sid rs' = u8 (sid rs + Z.of_nat (length (row_packets rows))) ∧ num_rows rs' = u64 (num_rows rs + Z.of_nat (length rows)).
Proof using malloc_size.
  intros Hok Hc Hr. unfold send_rows. destruct (flush_spec rs Hok) as (Ew & Eb & Hok'). set (rs0 := buffer_to_PSarrayOut false rs) in *.
  assert (sid rs0 = sid rs ∧ num_rows rs0 = num_rows rs) as [Es En] by (unfold rs0, buffer_to_PSarrayOut; by case_test).
  assert (counters_ok rs0) as Hc0 by (unfold counters_ok; by rewrite Es, En).
  assert (concat (row_packets rows) = concat rows) as Ecc by (clear; induction rows as [|r rows IH]; [done|]; rewrite row_packets_cons, concat_app, concat_split, IH; done).
  assert (∃ rs', (if bool_decide (rows = []) then Ok rs0 else if total_room rows <? MAXBUFFSTMT then '(blk, rs) ← add_all rows 0 (malloc (total_room rows)) rs0; Ok (finish_block blk rs)
    else send_blocks malloc (length rows) rows rs0) = Ok rs' ∧ sent rows rs0 rs') as (rs' & -> & (_ & Eb' & Eo & Es' & En' & _)).
  { case_bool_decide as E0; [subst rows; exists rs0; split; [done|]; split; [done|]; split; [done|]; rewrite (counted_nil rs0) by apply Hc0; cbn; by rewrite app_nil_r|].
    destruct (total_room rows <? MAXBUFFSTMT); [|by apply send_blocks_spec].
    pose proof (total_room_nonneg rows). destruct (add_all_rows rows [] (total_room rows) (malloc (total_room rows)) rs0 Hc0 Hr (fresh_block (total_room rows) ltac:(lia)) ltac:(lia)) as (blk & E & Hf).
    change (Z.of_nat (length (@nil Z))) with 0 in E. rewrite E. cbn [mbind outcome_bind app] in *. eexists. split; [done|]. apply finish_sent; [done|]. by rewrite Z.sub_diag in Hf. }
  exists rs'. split; [done|]. unfold written in *. rewrite Eb', Eb in *. cbn [default from_option] in *. change (@id (list Z) []) with (@nil Z) in *. rewrite !app_nil_r in *.
  split; [by rewrite Eo, Ew, Es|]. split; [done|]. split; [by rewrite Es', <- Es|by rewrite En', <- En].
Qed.
End Statement.
Lemma statement_rows_sent_witness :
  ∃ rs', send_rows (λ n, replicate (Z.to_nat n) 0) [[0;0;7]; [0;0;8;9]] (mk_result 5 (Some [1;2]) [] 1 0 0 false false false true) = Ok rs' ∧
    written rs' = [1;2] ++ packets 5 (row_packets [[0;0;7]; [0;0;8;9]]) ∧ concat (row_packets [[0;0;7]; [0;0;8;9]]) = [0;0;7] ++ [0;0;8;9] ++ [] ∧
    sid rs' = u8 (5 + Z.of_nat (length (row_packets [[0;0;7]; [0;0;8;9]]))) ∧ num_rows rs' = u64 (0 + Z.of_nat (length [[0;0;7]; [0;0;8;9]])).
Proof.
  apply (statement_rows_sent (λ n, replicate (Z.to_nat n) 0)).
  - intros n Hn. rewrite length_replicate. lia.
  - exists [1;2]. split; [done|]. cbn. unfold RESULTSET_BUFLEN. lia.
  - split; cbn; lia.
  - constructor; [split; [cbn; lia|left; cbn; unfold MAX_PAYLOAD; lia]|]. constructor; [split; [cbn; lia|left; cbn; unfold MAX_PAYLOAD; lia]|constructor].
Defined.
(** A row of 16777216 to 16777218 bytes is taken for a small one: the 24 bits of its
    header say 0 to 2, and what is reserved for it has four bytes more than what is
    written. *)
Lemma misframed_row pid row : MAX_PAYLOAD < Z.of_nat (length row) < MAX_PAYLOAD + 4 →
  ∃ bs pid', row2_bytes pid row = Ok (bs, pid') ∧ bs = hdr_bytes (mk_hdr (Z.of_nat (length row) - 2 ^ 24) pid) ++ row ∧ row_room row = Z.of_nat (length bs) + 4.
Proof.
  intros H. unfold row2_bytes. rewrite (proj2 (Z.ltb_lt _ _)) by lia. eexists _, _. split; [done|].
  split.
  - f_equal. revert H. generalize (Z.of_nat (length row)). unfold MAX_PAYLOAD. intros n Hn. assert (n = 16777216 ∨ n = 16777217 ∨ n = 16777218) as [->|[->| ->]] by lia; done.
  - rewrite length_app, hdr_bytes_length. unfold row_room. rewrite (proj2 (Z.ltb_lt _ _)) by lia.
    destruct (div_payload (Z.of_nat (length row)) ltac:(lia)).
    assert (Z.of_nat (length row) / MAX_PAYLOAD = 1) as -> by (unfold MAX_PAYLOAD in *; lia). lia.
Qed.

(** ** Results of the text protocol *)
Section TextResult.
Context (malloc : Z → list Z) (malloc_size : ∀ n, 0 <= n → Z.of_nat (length (malloc n)) = n).

(** A result that has grown by [k] rows and by the packets with these payloads. *)
Definition grown (k : Z) (ps : list (list Z)) (rs rs' : MySQL_ResultSet) : Prop :=
  result_ok rs' ∧ is_u8 (sid rs') ∧ written rs' = written rs ++ packets (sid rs) ps ∧ sid rs' = u8 (sid rs + Z.of_nat (length ps)) ∧
  resultset_size rs' = u64 (resultset_size rs + Z.of_nat (length (packets (sid rs) ps))) ∧
  with_myprot rs' = with_myprot rs ∧ deprecate_eof_active rs' = deprecate_eof_active rs ∧ num_rows rs' = u64 (num_rows rs + k).
Lemma grown_app k l ps qs rs1 rs2 rs3 : grown k ps rs1 rs2 → grown l qs rs2 rs3 → grown (k + l) (ps ++ qs) rs1 rs3.
Proof.
  intros (Ho1 & Hu1 & Hw1 & Hs1 & Hz1 & Hm1 & Hd1 & Hn1) (Ho2 & Hu2 & Hw2 & Hs2 & Hz2 & Hm2 & Hd2 & Hn2).
  assert (packets (sid rs2) qs = packets (sid rs1 + Z.of_nat (length ps)) qs) as Ep by (rewrite Hs1; apply packets_u8).
  split; [done|]. split; [done|]. split; [by rewrite Hw2, Hw1, Ep, packets_app, app_assoc|]. split; [|split; [|split; [by rewrite Hm2|split; [by rewrite Hd2|rewrite Hn2, Hn1, u64_add_idemp; f_equal; lia]]]].
  - rewrite Hs2, Hs1, u8_add_idemp, length_app. f_equal. lia.
  - rewrite Hz2, Hz1, u64_add_idemp, Ep, packets_app, length_app. f_equal. lia.
Qed.
Definition sizes_ok (rs : MySQL_ResultSet) : Prop := is_u8 (sid rs) ∧ 0 <= resultset_size rs < 2 ^ 64 ∧ 0 <= num_rows rs < 2 ^ 64.
Lemma grown_nil rs : result_ok rs → sizes_ok rs → grown 0 [] rs rs.
Proof. intros Hok (Hs & Hz & Hn). unfold grown. cbn [packets length]. rewrite app_nil_r, !Z.add_0_r, u8_small, !u64_small by done. done. Qed.
Lemma grown_flush k ps rs rs' : grown k ps rs rs' → grown k ps rs (buffer_to_PSarrayOut false rs').
Proof.
  intros (Ho & Hu & Hw & Hs & Hz & Hm & Hd & Hn). destruct (flush_spec rs' Ho) as (Ew & _ & Ho'). unfold grown. rewrite Ew. set (rs1 := buffer_to_PSarrayOut false rs') in *.
  assert (sid rs1 = sid rs' ∧ resultset_size rs1 = resultset_size rs' ∧ with_myprot rs1 = with_myprot rs' ∧ deprecate_eof_active rs1 = deprecate_eof_active rs' ∧ num_rows rs1 = num_rows rs')
    as (-> & -> & -> & -> & ->) by (unfold rs1, buffer_to_PSarrayOut; by case_test). done.
Qed.
Lemma grown_sizes k ps rs rs' : grown k ps rs rs' → sizes_ok rs'.
Proof. intros (_ & Hs & _ & _ & Hz & _ & _ & Hn). unfold sizes_ok. rewrite Hz, Hn. split; [done|]. split; apply u64_range. Qed.

Lemma count_packet_spec seq n : is_u64 n → count_packet malloc seq n = Ok (packet seq (count_payload n)).
Proof using malloc_size.
  intros Hn. destruct (read_lenenc_encoded n Hn) as (b & E & L & _). unfold count_packet, count_payload. rewrite E. cbn [mbind outcome_bind]. by apply make_packet.
Qed.
Lemma put_packet_spec pkt payload p rs : mirror p = false → result_ok rs → sizes_ok rs → pkt = Ok (packet (sid rs) payload) →
  ∃ rs', put_packet pkt p rs = Ok rs' ∧ grown 0 [payload] rs rs'.
Proof.
  intros Hm Hok (Hs & Hz & Hn) ->. unfold put_packet. rewrite Hm. cbn [mbind outcome_bind]. destruct (place_spec (packet (sid rs) payload) rs Hok) as (rs1 & -> & Ew & Hok1 & Es). cbn [mbind outcome_bind].
  eexists. split; [done|]. set (rs2 := next_sid _). assert (written rs2 = written rs1) as Ew2 by done. unfold grown. rewrite Ew2, Ew. cbn [packets length]. rewrite app_nil_r.
  split; [exact Hok1|]. split; [apply u8_range|]. split; [done|]. 
  assert (sid rs1 = sid rs ∧ resultset_size rs1 = resultset_size rs ∧ with_myprot rs1 = with_myprot rs ∧ deprecate_eof_active rs1 = deprecate_eof_active rs ∧ num_rows rs1 = num_rows rs)
    as (E1 & E2 & E3 & E4 & E5) by (unfold same_fields in Es; by rewrite Es).
  split; [change (u8 (sid rs1 + 1) = u8 (sid rs + 1)); by rewrite E1|]. split; [|split; [done|split; [done|by rewrite Z.add_0_r, u64_small]]].
  change (u64 (resultset_size rs1 + Z.of_nat (length (packet (sid rs) payload))) = u64 (resultset_size rs + Z.of_nat (length (packet (sid rs) payload)))). by rewrite E2.
Qed.
Lemma put_fields_spec fs p rs : mirror p = false → result_ok rs → sizes_ok rs → Forall definition_ok fs →
  ∃ rs', put_fields malloc false None fs p rs = Ok rs' ∧ grown 0 (definition_payload <$> fs) rs rs'.
Proof using malloc_size.
  intros Hm Hok Hs Hfs. revert rs Hok Hs. induction Hfs as [|f fs Hf Hfs IH]; intros rs Hok Hs; cbn [put_fields].
  - exists rs. split; [done|]. by apply grown_nil.
  - cbn [negb]. destruct (put_packet_spec (field_packet malloc (sid rs) f None) (definition_payload f) p rs Hm Hok Hs) as (rs1 & -> & Hg1); [by apply field_packet_spec|]. cbn [mbind outcome_bind].
    destruct (IH rs1) as (rs2 & -> & Hg2); [apply Hg1|by apply (grown_sizes _ _ _ _ Hg1)|]. exists rs2. split; [done|]. exact (grown_app 0 0 [definition_payload f] _ _ _ _ Hg1 Hg2).
Qed.

(** The final packet of a result, and the status in it. *)
Definition final_status (deprecate : bool) (sv : server) (p : proto) : Z :=
  let s := status_of (set_status sv p) p in if deprecate then Z.ldiff s SERVER_SESSION_STATE_CHANGED else s.
Definition warnings_of (suppress : bool) (sv : server) : Z := u16 (if suppress then 0 else default 0 (backend_warnings sv)).
Definition final_payload (deprecate suppress : bool) (sv : server) (p : proto) : list Z :=
  (if deprecate then ok_payload else eof_payload) (warnings_of suppress sv) (final_status deprecate sv p).

Lemma OK_packet seq status warnings p : mirror p = false → tracks_gtid p = false →
  ∃ p', generate_pkt_OK malloc false seq 0 0 status warnings None true p = Ok (Some (packet seq (ok_payload warnings (Z.ldiff (status_of status p) SERVER_SESSION_STATE_CHANGED))), p').
Proof using malloc_size.
  intros Hm Ht. unfold generate_pkt_OK. rewrite Hm, Ht. eexists. cbn [default from_option].
  change (Z.of_nat (length (id (@nil Z)))) with 0. change (Z.of_nat (length (@nil Z))) with 0. cbn [Z.eqb negb].
  change (encoded 0) with (Ok [0]). cbn [mbind outcome_bind].
  assert (∀ p', session_type p' = session_type p → myconn p' = myconn p → status_of status p' = status_of status p) as Hst by (intros p' E1 E2; unfold status_of; by rewrite E1, E2).
  rewrite Hst by (destruct p as [? ? [] ? ? ? ? ? ? ? ? ? ? ?]; done). change (u24 (1 + (mysql_encode_length 0).1 + (mysql_encode_length 0).1 + 2 + 2 + 0)) with 7.
  cbn [app]. rewrite app_nil_r. fold (ok_payload warnings (Z.ldiff (status_of status p) SERVER_SESSION_STATE_CHANGED)). rewrite (make_packet malloc malloc_size) by done. reflexivity.
Qed.
Lemma add_eof_spec suppress sv p rs : mirror p = false → tracks_gtid p = false → with_myprot rs = true → result_ok rs → sizes_ok rs →
  ∃ p' rs', add_eof malloc suppress sv p rs = Ok (p', rs') ∧ grown 0 [final_payload (deprecate_eof_active rs) suppress sv p] rs rs' ∧ resultset_completed rs' = true ∧
    buffer rs' = Some [] ∧ (deprecate_eof_active rs = false → p' = p <| pkt_sid := sid rs |>).
Proof using malloc_size.
  intros Hm Ht Hw Hok (Hs & Hsz & Hnr). unfold add_eof. rewrite Hw. destruct (flush_spec rs Hok) as (Ew & Eb & Hok1). set (rs1 := buffer_to_PSarrayOut false rs) in *.
  assert (sid rs1 = sid rs ∧ resultset_size rs1 = resultset_size rs ∧ with_myprot rs1 = with_myprot rs ∧ deprecate_eof_active rs1 = deprecate_eof_active rs ∧ num_rows rs1 = num_rows rs)
    as (E1 & E2 & E3 & E4 & E5) by (unfold rs1, buffer_to_PSarrayOut; by case_test). rewrite E1, E4. unfold final_payload, final_status, warnings_of.
  destruct (deprecate_eof_active rs) eqn:Ed.
  - destruct (OK_packet (sid rs) (set_status sv p) (u16 (if suppress then 0 else default 0 (backend_warnings sv))) p Hm Ht) as (p' & ->). cbn [mbind outcome_bind].
    eexists p', _. split; [reflexivity|]. set (payload := ok_payload _ _). set (rs2 := complete _).
    assert (written rs2 = written rs ++ packet (sid rs) payload) as Ew2.
    { unfold written in *. change (rs_out rs2) with (rs_out rs1 ++ [packet (sid rs) payload]). change (buffer rs2) with (buffer rs1). rewrite Eb in *. cbn [default from_option] in *.
      rewrite concat_app. cbn [concat]. rewrite <- Ew. change (@id (list Z) []) with (@nil Z). by rewrite !app_nil_r. }
    split; [|split; [done|split; [exact Eb|done]]]. split; [exists []; split; [exact Eb|done]|]. split; [apply u8_range|]. cbn [packets length]. rewrite app_nil_r. split; [done|].
    split; [change (u8 (sid rs1 + 1) = u8 (sid rs + 1)); by rewrite E1|]. split; [change (u64 (resultset_size rs1 + Z.of_nat (length (packet (sid rs) payload))) = u64 (resultset_size rs + Z.of_nat (length (packet (sid rs) payload)))); by rewrite E2|].
    split; [exact E3|]. split; [rewrite Ed; exact E4|rewrite Z.add_0_r, u64_small by done; exact E5].
  - unfold eof_to_buffer. rewrite Hm. unfold buffer_used. rewrite Eb. cbn [default from_option]. change (@id (list Z) []) with (@nil Z). change (RESULTSET_BUFLEN <? Z.of_nat (length (@nil Z)) + 9) with false. cbv iota.
    unfold append. rewrite Eb. cbn [app mbind outcome_bind]. eexists _, _. split; [reflexivity|].
    set (payload := eof_payload _ _). assert (eof_bytes (sid rs) (u16 (if suppress then 0 else default 0 (backend_warnings sv))) (set_status sv p) p = packet (sid rs) payload) as -> by done.
    set (rs2 := rs1 <| buffer := Some (packet (sid rs) payload) |>). set (rs3 := complete _).
    assert (rs3 = complete (next_sid ((count_size 9 rs2 <| rs_out := rs_out rs1 ++ [packet (sid rs) payload] |>) <| buffer := Some [] |>))) as E3' by done. rewrite E3'. clear rs3 E3'.
    set (rs3 := complete _). assert (written rs3 = written rs ++ packet (sid rs) payload) as Ew2.
    { unfold written in *. change (rs_out rs3) with (rs_out rs1 ++ [packet (sid rs) payload]). change (buffer rs3) with (Some (@nil Z)). rewrite Eb in *. cbn [default from_option] in *.
      rewrite concat_app. cbn [concat]. rewrite <- Ew. change (@id (list Z) []) with (@nil Z). by rewrite !app_nil_r. }
    split; [|done]. split; [by exists []|]. split; [apply u8_range|]. cbn [packets length]. rewrite app_nil_r. split; [done|].
    split; [change (u8 (sid rs1 + 1) = u8 (sid rs + 1)); by rewrite E1|]. split; [change (u64 (resultset_size rs1 + 9) = u64 (resultset_size rs + Z.of_nat (length (packet (sid rs) payload)))); rewrite E2; f_equal; rewrite packet_length; cbn; lia|].
    split; [exact E3|]. split; [rewrite Ed; exact E4|rewrite Z.add_0_r, u64_small by done; exact E5].
Qed.

Lemma grown_deprecate d k ps rs rs' : grown k ps rs rs' → grown k ps (rs <| deprecate_eof_active := d |>) (rs' <| deprecate_eof_active := d |>).
Proof. intros (Ho & Hu & Hw & Hs & Hz & Hm & Hd & Hn). exact (conj Ho (conj Hu (conj Hw (conj Hs (conj Hz (conj Hm (conj eq_refl Hn))))))). Qed.
(** The result as [init] starts it. *)
Definition started (n : Z) (p : proto) (rs : MySQL_ResultSet) : MySQL_ResultSet :=
  mk_result (u8 (pkt_sid p + 1)) (Some []) (rs_out rs) n 0 0 (match myconn p with Some c => has_flag (client_flag c) CLIENT_DEPRECATE_EOF | None => false end) false false true.
Definition head_payloads (fs : list MYSQL_FIELD) : list (list Z) := count_payload (Z.of_nat (length fs)) :: (definition_payload <$> fs).
Lemma init_spec fs sv p rs : mirror p = false → tracks_gtid p = false → with_myprot rs = true → is_u64 (Z.of_nat (length fs)) → Forall definition_ok fs →
  let rs0 := started (Z.of_nat (length fs)) p rs in
  ∃ p' rs', init malloc false None fs sv p rs = Ok (p', rs') ∧ (p' = p ∨ ∃ i, p' = p <| pkt_sid := i |>) ∧
    grown 0 (head_payloads fs ++ (if deprecate_eof_active rs0 then [] else [final_payload false (server_deprecates_eof sv) sv p])) rs0 rs'.
Proof using malloc_size.
  intros Hm Ht Hw Hn Hfs rs0. unfold init. rewrite Hw. cbn [negb]. set (rs1 := mk_result _ _ _ _ _ _ _ _ _ _).
  assert (result_ok rs1 ∧ sizes_ok rs1) as (Hok1 & Hs1) by (split; [by exists []|split; [apply u8_range|cbn; lia]]).
  destruct (put_packet_spec (count_packet malloc (sid rs1) (num_fields rs1)) (count_payload (Z.of_nat (length fs))) p rs1 Hm Hok1 Hs1) as (rs2 & E2 & Hg2); [by apply count_packet_spec|].
  rewrite E2. cbn [mbind outcome_bind]. destruct (put_fields_spec fs p rs2 Hm) as (rs3 & E3 & Hg3); [apply Hg2|by apply (grown_sizes _ _ _ _ Hg2)|done|]. rewrite E3. cbn [mbind outcome_bind].
  pose proof (grown_deprecate (deprecate_eof_active rs0) _ _ _ _ (grown_app _ _ _ _ _ _ _ Hg2 Hg3)) as Hg. cbn [app] in Hg. rewrite Z.add_0_l in Hg.
  change (rs1 <| deprecate_eof_active := deprecate_eof_active rs0 |>) with rs0 in Hg.
  change (match myconn p with Some c => has_flag (client_flag c) CLIENT_DEPRECATE_EOF | None => false end) with (deprecate_eof_active rs0).
  set (rs4 := rs3 <| deprecate_eof_active := _ |>) in *. set (rs5 := if RESULTSET_BUFLEN <=? _ then _ else rs4).
  assert (grown 0 (head_payloads fs) rs0 rs5) as Hg5 by (unfold rs5; case_test; [by apply grown_flush|done]). pose proof Hg5 as (Hok5 & _ & _ & _ & _ & Hw5 & Hd5 & _). rewrite Hd5.
  destruct (deprecate_eof_active rs0) eqn:Ed; cbn [negb andb].
  - exists p, rs5. split; [done|]. split; [by left|]. by rewrite app_nil_r.
  - destruct (add_eof_spec (server_deprecates_eof sv) sv p rs5 Hm Ht Hw5 Hok5 (grown_sizes _ _ _ _ Hg5)) as (p' & rs6 & E6 & Hg6 & _ & _ & Hp6). rewrite Hd5 in *.
    exists p', rs6. split; [done|]. split; [right; exists (sid rs5); by apply Hp6|]. exact (grown_app 0 0 _ _ _ _ _ Hg5 Hg6).
Qed.

(** *** Rows *)
Definition row_payload (r : list (option (list Z))) : list Z := match row_bytes r with Ok b => b | Fault _ => [] end.
Definition row_fits (r : list (option (list Z))) : Prop := Forall (λ f, is_u64 (Z.of_nat (length (default [] f)))) r.
Lemma row_payload_spec r : row_fits r → payload_of_row (Text r) (row_payload r) ∧ Z.of_nat (length (row_payload r)) = row_length r ∧ read_row (length r) (row_payload r) = Some (r, []).
Proof.
  intros Hr. destruct (row_bytes_ok r Hr) as (b & E & L & Hread). unfold row_payload, payload_of_row. rewrite E. split; [done|]. split; [done|].
  rewrite <- (app_nil_r b). apply Hread.
Qed.
Lemma add_row_spec r p rs : mirror p = false → with_myprot rs = true → result_ok rs → sizes_ok rs → row_fits r → row_length r < MAX_PAYLOAD →
  ∃ n rs', add_row malloc r p rs = Ok (n, rs') ∧ grown 1 [row_payload r] rs rs'.
Proof using malloc_size.
  intros Hm Hw Hok (Hs & Hz & Hn) Hr Hl. destruct (row_payload_spec r Hr) as (Hp & Lp & _). unfold add_row. rewrite Hw.
  destruct (row3_spec malloc malloc_size (sid rs) (Text r) (row_payload r) p rs Hm Hok Hs Hp ltac:(unfold MAX_PAYLOAD in *; lia)) as (cs & l & rs1 & n & -> & Hpc & Ew & Hok1 & Hsf & Hlen).
  pose proof (pieces_split _ _ _ Hpc) as E. rewrite split_small in E by lia. rewrite <- E in *. assert (cs = []) as -> by (destruct cs as [|c [|? ?]]; [done|done..]). cbn [app] in *. injection E as <-.
  cbn [mbind outcome_bind length default from_option] in *. rewrite Z.add_0_r in *. rewrite u8_small by done. eexists _, _. split; [reflexivity|].
  assert (resultset_size rs1 = resultset_size rs ∧ with_myprot rs1 = with_myprot rs ∧ deprecate_eof_active rs1 = deprecate_eof_active rs ∧ num_rows rs1 = num_rows rs)
    as (E2 & E3 & E4 & E5) by (unfold same_fields in Hsf; by rewrite Hsf).
  assert (n = Z.of_nat (length (packets (sid rs) [row_payload r]))) as ->.
  { rewrite Hlen, (u8_small (sid rs) Hs), Z.sub_diag. cbn [packets]. rewrite app_nil_r, packet_length, u32_small; unfold MAX_PAYLOAD in *; lia. }
  clear Hlen.
  split; [exact Hok1|]. split; [apply u8_range|]. split; [exact Ew|]. split; [done|].
  split; [change (u64 (resultset_size rs1 + Z.of_nat (length (packets (sid rs) [row_payload r]))) = u64 (resultset_size rs + Z.of_nat (length (packets (sid rs) [row_payload r])))); by rewrite E2|].
  split; [exact E3|]. split; [exact E4|]. change (u64 (num_rows rs1 + 1) = u64 (num_rows rs + 1)). by rewrite E5.
Qed.
Fixpoint add_rows (rows : list (list (option (list Z)))) (p : proto) (rs : MySQL_ResultSet) : outcome MySQL_ResultSet :=
  match rows with [] => Ok rs | r :: rows' => '(_, rs) ← add_row malloc r p rs; add_rows rows' p rs end.
Lemma add_rows_spec rows p rs : mirror p = false → with_myprot rs = true → result_ok rs → sizes_ok rs → Forall (λ r, row_fits r ∧ row_length r < MAX_PAYLOAD) rows →
  ∃ rs', add_rows rows p rs = Ok rs' ∧ grown (Z.of_nat (length rows)) (row_payload <$> rows) rs rs'.
Proof using malloc_size.
  intros Hm Hw Hok Hs Hr. revert rs Hw Hok Hs. induction Hr as [|r rows [Hr1 Hr2] Hrows IH]; intros rs Hw Hok Hs; cbn [add_rows].
  - exists rs. split; [done|]. by apply grown_nil.
  - destruct (add_row_spec r p rs Hm Hw Hok Hs Hr1 Hr2) as (n & rs1 & -> & Hg1). cbn [mbind outcome_bind]. pose proof Hg1 as (Hok1 & _ & _ & _ & _ & Hw1 & _).
    destruct (IH rs1) as (rs2 & -> & Hg2); [by rewrite Hw1|done|by apply (grown_sizes _ _ _ _ Hg1)|]. exists rs2. split; [done|].
    replace (Z.of_nat (length (r :: rows))) with (1 + Z.of_nat (length rows)) by (cbn [length]; lia). exact (grown_app 1 _ [row_payload r] _ _ _ _ Hg1 Hg2).
Qed.

(** *** A whole result *)
(** The state machine of the connection gives control back whenever the server has
    no row ready, the client has too much to take in or enough was read; the session
    then hands the packets over that are complete, once the result has outgrown
    mysql-threshold_resultset_size. *)
Definition pause (threshold : Z) (out : list (list Z)) (rs : MySQL_ResultSet) : list (list Z) * MySQL_ResultSet :=
  if threshold <? resultset_size rs then let '(_, blocks, rs) := get_resultset rs in (out ++ blocks, rs) else (out, rs).
(** The rows that are read between the pauses. *)
Fixpoint read_rows (threshold : Z) (turns : list (list (list (option (list Z))))) (out : list (list Z)) (p : proto) (rs : MySQL_ResultSet)
  : outcome (list (list Z) * MySQL_ResultSet) :=
  match turns with
  | [] => Ok (out, rs)
  | rows :: turns' =>
      rs ← add_rows rows p rs;
      let '(out, rs) := pause threshold out rs in
      read_rows threshold turns' out p rs
  end.
(** ASYNC_USE_RESULT_START and _CONT: the columns, the rows with the pauses between
    them, and the end, without its warnings after SHOW WARNINGS; with what was handed
    over before the end. *)
Definition send_text (show_warnings : bool) (threshold : Z) (fs : list MYSQL_FIELD) (turns : list (list (list (option (list Z))))) (rows : list (list (option (list Z))))
  (sv : server) (p : proto) (rs : MySQL_ResultSet) : outcome (proto * list (list Z) * MySQL_ResultSet) :=
  '(p, rs) ← init malloc false None fs sv p rs;
  '(out, rs) ← read_rows threshold turns [] p rs;
  rs ← add_rows rows p rs;
  '(p, rs) ← add_eof malloc show_warnings sv p rs;
  Ok (p, out, rs).
(** The result with what was handed over before. *)
Definition restored (out : list (list Z)) (rs : MySQL_ResultSet) : MySQL_ResultSet := rs <| rs_out := out ++ rs_out rs |>.
Lemma written_restored out rs : written (restored out rs) = concat out ++ written rs.
Proof. unfold written, restored. cbn. by rewrite concat_app, app_assoc. Qed.
Lemma grown_restored out k ps rs rs' : grown k ps rs rs' → grown k ps (restored out rs) (restored out rs').
Proof.
  intros (Ho & Hu & Hw & Hs & Hz & Hm & Hd & Hn). split; [exact Ho|]. split; [exact Hu|]. split; [by rewrite !written_restored, Hw, app_assoc|]. exact (conj Hs (conj Hz (conj Hm (conj Hd Hn)))).
Qed.
Lemma pause_grown threshold out rs out' rs' k ps rs0 : with_myprot rs = true → pause threshold out rs = (out', rs') →
  grown k ps rs0 (restored out rs) → grown k ps rs0 (restored out' rs') ∧ with_myprot rs' = true ∧ (resultset_size rs <= threshold → out' = out ∧ rs' = rs).
Proof.
  intros Hw. unfold pause. destruct (Z.ltb_spec threshold (resultset_size rs)) as [Hlt|Hge].
  - unfold get_resultset. change (with_myprot (rs <| transfer_started := true |>)) with (with_myprot rs). rewrite Hw. intros [= <- <-] Hg. split; [|split; [done|lia]].
    destruct Hg as (Ho & Hu & Hwr & Hs & Hz & Hm & Hd & Hn). split; [exact Ho|]. split; [exact Hu|]. split; [|exact (conj Hs (conj Hz (conj Hm (conj Hd Hn))))].
    rewrite written_restored in Hwr |- *. rewrite <- Hwr. unfold written. cbn. by rewrite concat_app, app_assoc.
  - by intros [= <- <-].
Qed.
Lemma grown_written k ps rs rs' : grown k ps rs rs' → (length (written rs) ≤ length (written rs'))%nat.
Proof. intros (_ & _ & -> & _). rewrite length_app. lia. Qed.
(** What is read with pauses, from a result of a length that is right. *)
Definition sized (out : list (list Z)) (rs : MySQL_ResultSet) : Prop := resultset_size rs = u64 (Z.of_nat (length (written (restored out rs)))).
Lemma grown_sized k ps out rs rs' : sized out rs → grown k ps (restored out rs) (restored out rs') → sized out rs'.
Proof.
  intros Hs (_ & _ & Hw & _ & Hz & _). unfold sized. rewrite Hw, length_app. change (resultset_size rs' = u64 (resultset_size rs + Z.of_nat (length (packets (sid rs) ps)))) in Hz.
  rewrite Hz, Hs, u64_add_idemp. f_equal. change (sid (restored out rs)) with (sid rs). lia.
Qed.
Lemma u64_below n : 0 <= n → u64 n <= n.
Proof. intros Hn. unfold u64. apply Z.mod_le; lia. Qed.
Lemma read_rows_spec threshold turns out p rs : mirror p = false → with_myprot rs = true → result_ok rs → sizes_ok rs → sized out rs →
  Forall (λ r, row_fits r ∧ row_length r < MAX_PAYLOAD) (concat turns) →
  ∃ out' rs', read_rows threshold turns out p rs = Ok (out', rs') ∧ grown (Z.of_nat (length (concat turns))) (row_payload <$> concat turns) (restored out rs) (restored out' rs') ∧
    with_myprot rs' = true ∧ sized out' rs' ∧ (Z.of_nat (length (written (restored out' rs'))) <= threshold → out' = out).
Proof using malloc_size.
  intros Hm. revert out rs. induction turns as [|rows turns IH]; intros out rs Hw Hok Hs Hz Hr; cbn [read_rows concat].
  - exists out, rs. split; [done|]. split; [by apply grown_nil|]. done.
  - cbn [concat] in Hr. apply Forall_app in Hr as [Hr1 Hr2]. destruct (add_rows_spec rows p rs Hm Hw Hok Hs Hr1) as (rs1 & -> & Hg1). cbn [mbind outcome_bind].
    assert (with_myprot rs1 = true) as Hw1 by (destruct Hg1 as (_ & _ & _ & _ & _ & E & _); by rewrite E). apply (grown_restored out) in Hg1. pose proof (grown_sized _ _ _ _ _ Hz Hg1) as Hz1.
    destruct (pause threshold out rs1) as [out2 rs2] eqn:Ep. destruct (pause_grown _ _ _ _ _ _ _ _ Hw1 Ep Hg1) as (Hg2 & Hw2 & Hsame).
    assert (sized out2 rs2) as Hz2. { destruct Hg2 as (_ & _ & Hwr & _ & Hsz & _). destruct Hg1 as (_ & _ & Hwr1 & _ & Hsz1 & _). unfold sized. rewrite Hwr, <- Hwr1, <- Hz1. change (resultset_size rs2) with (resultset_size (restored out2 rs2)). by rewrite Hsz, <- Hsz1. }
    destruct (IH out2 rs2 Hw2 ltac:(apply Hg2) ltac:(by apply (grown_sizes _ _ _ _ Hg2)) Hz2 Hr2) as (out3 & rs3 & E3 & Hg3 & Hw3 & Hz3 & Hout3). exists out3, rs3. split; [done|].
    rewrite length_app, fmap_app, Nat2Z.inj_add. split; [exact (grown_app _ _ _ _ _ _ _ Hg2 Hg3)|]. split; [done|]. split; [done|]. intros Hle.
    rewrite Hout3 by done. apply Hsame. rewrite Hz1. pose proof (u64_below (Z.of_nat (length (written (restored out rs1)))) ltac:(lia)). pose proof (grown_written _ _ _ _ Hg3).
    assert (written (restored out2 rs2) = written (restored out rs1)) as Ew by (destruct Hg2 as (_ & _ & -> & _), Hg1 as (_ & _ & -> & _); done). rewrite Ew in *. lia.
Qed.
(** The result as the protocol describes it. *)
Definition client_deprecates (p : proto) : bool := match myconn p with Some c => has_flag (client_flag c) CLIENT_DEPRECATE_EOF | None => false end.
Definition described (show_warnings : bool) (fs : list MYSQL_FIELD) (rows : list (list (option (list Z)))) (sv : server) (p : proto) : resultset :=
  mk_resultset (definition_payload <$> fs) (warnings_of (server_deprecates_eof sv) sv) (row_payload <$> rows) (warnings_of show_warnings sv) (final_status (client_deprecates p) sv p).
Lemma send_text_spec sw threshold fs turns rows sv p rs : mirror p = false → tracks_gtid p = false → with_myprot rs = true → pkt_sid p = 0 → rs_out rs = [] →
  is_u64 (Z.of_nat (length fs)) → Forall definition_ok fs → Forall (λ r, row_fits r ∧ row_length r < MAX_PAYLOAD) (concat turns ++ rows) →
  let all := encode (client_deprecates p) (described sw fs (concat turns ++ rows) sv p) in
  ∃ p' out rs', send_text sw threshold fs turns rows sv p rs = Ok (p', out, rs') ∧ concat (out ++ rs_out rs') = all ∧ buffer rs' = Some [] ∧
    resultset_completed rs' = true ∧ with_myprot rs' = true ∧ num_rows rs' = u64 (Z.of_nat (length (concat turns ++ rows))) ∧ resultset_size rs' = u64 (Z.of_nat (length all)) ∧
    (Z.of_nat (length all) <= threshold → out = []).
Proof using malloc_size.
  intros Hm Ht Hw H0 Hout Hn Hfs Hrows all. apply Forall_app in Hrows as [Hr1 Hr2]. unfold send_text. destruct (init_spec fs sv p rs Hm Ht Hw Hn Hfs) as (p1 & rs1 & -> & Hp1 & Hg1). cbn [mbind outcome_bind].
  set (rs0 := started _ p rs) in *. change (deprecate_eof_active rs0) with (client_deprecates p) in Hg1.
  assert (mirror p1 = false ∧ tracks_gtid p1 = false ∧ ∀ d, final_payload d sw sv p1 = final_payload d sw sv p) as (Hm1 & Ht1 & Hf1) by (destruct Hp1 as [->|[i ->]]; done).
  assert (written rs0 = []) as Ew0 by (unfold written; cbn; by rewrite Hout). assert (sid rs0 = 1) as Es0 by (cbn; by rewrite H0).
  apply (grown_restored []) in Hg1. assert (sized [] rs1) as Hz1 by (eapply grown_sized; [|exact Hg1]; unfold sized; by rewrite written_restored, Ew0).
  pose proof Hg1 as (Hok1 & _ & _ & _ & _ & Hw1 & Hd1 & _).
  destruct (read_rows_spec threshold turns [] p1 rs1 Hm1 Hw1 Hok1 (grown_sizes _ _ _ _ Hg1) Hz1 Hr1) as (out & rsm & -> & Hgm & Hwm & Hzm & Hnone). cbn [mbind outcome_bind].
  destruct (add_rows_spec rows p1 rsm Hm1 Hwm ltac:(apply Hgm) ltac:(by apply (grown_sizes _ _ _ _ Hgm)) Hr2) as (rs2 & -> & Hg2). cbn [mbind outcome_bind].
  pose proof Hg2 as (Hok2 & _ & _ & _ & _ & Hw2 & Hd2 & _). destruct (add_eof_spec sw sv p1 rs2 Hm1 Ht1) as (p3 & rs3 & -> & Hg3 & Hc & Hb & _); [by rewrite Hw2|done|by apply (grown_sizes _ _ _ _ Hg2)|]. cbn [mbind outcome_bind].
  assert (deprecate_eof_active rs2 = client_deprecates p) as Ed. { rewrite Hd2. destruct Hgm as (_ & _ & _ & _ & _ & _ & E & _). change (deprecate_eof_active rsm) with (deprecate_eof_active (restored out rsm)). by rewrite E. }
  rewrite Hf1, Ed in Hg3. apply (grown_restored out) in Hg2, Hg3.
  pose proof (grown_app _ _ _ _ _ _ _ Hg1 (grown_app _ _ _ _ _ _ _ Hgm (grown_app _ _ _ _ _ _ _ Hg2 Hg3))) as (Hok3 & _ & Hw3 & _ & Hz3 & Hm3 & _ & Hn3).
  assert (written (restored [] rs0) = []) as Ew0' by (by rewrite written_restored, Ew0). rewrite Ew0', app_nil_l in Hw3. change (sid (restored [] rs0)) with (sid rs0) in Hw3, Hz3. rewrite Es0 in Hw3, Hz3. cbn [concat app] in Hw3.
  match type of Hw3 with _ = ?x => assert (x = all) as Eall end.
  { unfold all, encode, described, head_payloads. cbn [columns ResultSet.rows warnings status column_warnings]. rewrite length_fmap, fmap_app. unfold final_payload. destruct (client_deprecates p); by rewrite <- ?app_assoc. }
  rewrite Eall in Hw3, Hz3. change (resultset_size rs3 = u64 (0 + Z.of_nat (length all))) in Hz3.
  assert (concat (out ++ rs_out rs3) = written (restored out rs3)) as Eo by (rewrite written_restored, concat_app; unfold written; rewrite Hb; cbn; by rewrite app_nil_r).
  exists p3, out, rs3. split; [done|]. rewrite Eo. split; [done|]. split; [done|]. split; [done|]. split; [exact Hm3|]. split; [|split; [done|]].
  - change (num_rows rs3) with (num_rows (restored out rs3)). rewrite Hn3. change (num_rows (restored [] rs0)) with 0. rewrite length_app. f_equal. lia.
  - intros Hle. apply Hnone. rewrite <- Hw3 in Hle. pose proof (grown_written _ _ _ _ Hg2). pose proof (grown_written _ _ _ _ Hg3). lia.
Qed.

(** C13: A result reaches the client as the protocol says, if each of its rows fits
    in one packet, that is below 16 MB, and each definition, and if the client does not
    track GTIDs and the session is no mirror.  The column count, the definitions, the rows
    and the end that are handed over, in the pauses between rows and at the end, are
    the packets of the result with these columns and rows, numbered from one without
    a gap, with an EOF packet after the columns or without one as the client asked,
    whatever is put in the buffer and whatever in blocks of its own; the client reads
    back every definition and every value, a NULL included; and the length and the
    number of rows that are kept are those of the bytes. *)
Theorem text_result_sent sw threshold fs turns rows sv p rs : mirror p = false → tracks_gtid p = false → with_myprot rs = true → pkt_sid p = 0 → rs_out rs = [] →
  is_u64 (Z.of_nat (length fs)) → Forall definition_ok fs → Forall (λ r, row_fits r ∧ row_length r < MAX_PAYLOAD) (concat turns ++ rows) →
  ∃ p' out rs' blocks rs'', send_text sw threshold fs turns rows sv p rs = Ok (p', out, rs') ∧ get_resultset rs' = (true, blocks, rs'') ∧
    concat (out ++ blocks) = encode (client_deprecates p) (described sw fs (concat turns ++ rows) sv p) ∧ rs_out rs'' = [] ∧
    resultset_size rs' = u64 (Z.of_nat (length (concat (out ++ blocks)))) ∧ num_rows rs' = u64 (Z.of_nat (length (concat turns ++ rows))) ∧
    Forall (λ f, read_definition (definition_payload f) = Some f) fs ∧ Forall (λ r, read_row (length r) (row_payload r) = Some (r, [])) (concat turns ++ rows).
Proof using malloc_size.
  intros Hm Ht Hw H0 Hout Hn Hfs Hrows. destruct (send_text_spec sw threshold fs turns rows sv p rs Hm Ht Hw H0 Hout Hn Hfs Hrows) as (p' & out & rs' & E & Eo & Hb & Hc & Hw' & Hnr & Hsz & _).
  exists p', out, rs', (rs_out rs'), ((rs' <| transfer_started := true |>) <| rs_out := [] |>). split; [done|].
  split; [unfold get_resultset; change (with_myprot (rs' <| transfer_started := true |>)) with (with_myprot rs'); rewrite Hw'; change (resultset_completed (rs' <| transfer_started := true |>)) with (resultset_completed rs'); by rewrite Hc|].
  split; [done|]. split; [done|]. split; [by rewrite Eo|]. split; [done|]. split.
  - eapply Forall_impl; [exact Hfs|]. intros f Hf. by apply (field_packet_spec malloc malloc_size 0 f Hf).
  - eapply Forall_impl; [exact Hrows|]. intros r [Hr _]. by apply row_payload_spec.
Qed.

(** ** Through the query cache *)
Lemma below_bits n a : 0 <= n → 0 <= a → (0 <= a < 2 ^ n ↔ Z.land a (Z.ones n) = a).
Proof. intros Hn Ha. rewrite Z.land_ones by done. split; [intros; by apply Z.mod_small|]. intros <-. apply Z.mod_pos_bound. lia. Qed.
Lemma lor_below n a b : 0 <= n → 0 <= a < 2 ^ n → 0 <= b < 2 ^ n → 0 <= Z.lor a b < 2 ^ n.
Proof.
  intros Hn Ha Hb. assert (0 <= Z.lor a b) by (apply Z.lor_nonneg; lia). apply below_bits; [done|done|]. rewrite Z.land_lor_distr_l.
  by rewrite (proj1 (below_bits n a Hn (proj1 Ha)) Ha), (proj1 (below_bits n b Hn (proj1 Hb)) Hb).
Qed.
Lemma ldiff_below n a b : 0 <= n → 0 <= a < 2 ^ n → 0 <= b → 0 <= Z.ldiff a b < 2 ^ n.
Proof.
  intros Hn Ha Hb. assert (0 <= Z.ldiff a b) by (apply Z.ldiff_nonneg; lia). apply below_bits; [done|done|].
  rewrite Z.ldiff_land, <- Z.land_assoc, (Z.land_comm (Z.lnot b)), Z.land_assoc. by rewrite (proj1 (below_bits n a Hn (proj1 Ha)) Ha).
Qed.
Lemma final_status_word d sv p : 0 <= final_status d sv p < 2 ^ 16.
Proof.
  unfold final_status, status_of. assert (0 <= set_status sv p < 2 ^ 16) as Hs by apply u16_range. assert (0 <= SERVER_STATUS_NO_BACKSLASH_ESCAPES < 2 ^ 16) as Hb by done.
  set (s := match session_type p with PROXYSQL_SESSION_SQLITE => _ | _ => _ end). assert (0 <= s < 2 ^ 16) as Hs1 by (unfold s; destruct (session_type p); try done; by apply lor_below).
  set (s2 := match myconn p with Some c => _ | None => s end). assert (0 <= s2 < 2 ^ 16) as Hs2 by (unfold s2; destruct (myconn p); [case_match; [by apply lor_below|done]|done]).
  destruct d; [by apply ldiff_below|done].
Qed.
Lemma lenenc_first s b : lenenc_string s = Ok b → Z.of_nat (length s) < 2 ^ 24 → ∃ c r, b = c :: r ∧ c ≠ 254.
Proof.
  intros Eb Hs. unfold lenenc_string, mysql_encode_length, write_encoded_length_and_string in Eb. revert Eb.
  assert (∀ w pre, w ≠ 1 → pre ≠ 254 → (l ← write_encoded_length (Z.of_nat (length s)) w pre; x ← (if Z.of_nat (length s) =? 0 then Ok [] else read_bytes (Z.to_nat (Z.of_nat (length s))) s); Ok (l ++ x)) = Ok b →
    ∃ c r, b = c :: r ∧ c ≠ 254) as H.
  { intros w pre Hw Hp. unfold write_encoded_length. rewrite (proj2 (Z.eqb_neq w 1)) by done. destruct (read_bytes _ (le_bytes 8 _)) as [x|]; [|done]. cbn [mbind outcome_bind].
    destruct (if _ =? 0 then _ else _) as [y|]; [|done]. intros [= <-]. by eexists _, _. }
  destruct (Z.ltb_spec (Z.of_nat (length s)) 251) as [E1|E1]; [|destruct (Z.ltb_spec (Z.of_nat (length s)) 65536) as [E2|E2]; [by apply H|rewrite (proj2 (Z.ltb_lt _ _)) by lia; by apply H]].
  unfold write_encoded_length. cbn [Z.eqb Pos.eqb mbind outcome_bind]. destruct (if _ =? 0 then _ else _) as [x|]; [|done]. intros [= <-]. eexists _, _. split; [done|]. rewrite u8_small; lia.
Qed.
Lemma row_payload_ok r : r ≠ [] → row_fits r → row_length r < MAX_PAYLOAD → row_ok (row_payload r).
Proof.
  intros Hne Hr Hl. destruct (row_payload_spec r Hr) as ((E & _) & L & _). split; [unfold small; unfold MAX_PAYLOAD in *; lia|]. destruct r as [|f r]; [done|]. cbn [row_bytes row_length foldr] in *. fold (row_length r) in *.
  assert (0 <= row_length r) by (clear; induction r as [|[s|] r IH]; cbn [row_length foldr]; [lia| |]; fold (row_length r); [unfold lenenc_size, mysql_encode_length; repeat case_test; cbn [fst]; lia|lia]).
  destruct f as [s|].
  - destruct (lenenc_string s) as [b|] eqn:Eb; [|done]. destruct (lenenc_first s b Eb) as (c & rest & -> & Hc).
    { unfold lenenc_size, mysql_encode_length, MAX_PAYLOAD in *. revert Hl. repeat case_test; cbn [fst]; lia. }
    cbn [mbind outcome_bind] in E. destruct (row_bytes r) as [bs|]; [|done]. injection E as E. rewrite <- E. exists c, (rest ++ bs). split; [done|by right].
  - cbn [mbind outcome_bind] in E. destruct (row_bytes r) as [bs|]; [|done]. injection E as E. rewrite <- E. exists 251, bs. split; [done|]. right. lia.
Qed.
Lemma described_valid sw fs rows sv p : 1 <= Z.of_nat (length fs) <= 4096 → Forall definition_ok fs → Forall (λ r, r ≠ [] ∧ row_fits r ∧ row_length r < MAX_PAYLOAD) rows → valid (described sw fs rows sv p).
Proof using malloc_size.
  intros Hn Hfs Hrows. split; cbn [described columns ResultSet.rows warnings status column_warnings].
  - apply Forall_fmap. eapply Forall_impl; [exact Hfs|]. intros f Hf. by apply (field_packet_spec malloc malloc_size 0 f Hf).
  - by rewrite length_fmap.
  - apply Forall_fmap. eapply Forall_impl; [exact Hrows|]. intros r (H1 & H2 & H3). by apply row_payload_ok.
  - apply u16_range.
  - apply u16_range.
  - apply final_status_word.
Qed.

(** C12: A result that goes through the query cache arrives as it left, but for its
    warnings, if it has at most 4096 columns, each of its rows and definitions is below
    16 MB, the client does not track GTIDs, the session is no mirror, and nothing was
    handed over before its end, which is so if it does not exceed
    mysql-threshold_resultset_size.
    What is handed over for one client is copied into one buffer of the length that
    was counted, exactly filled; the cache finds its packets in it; and what the
    cache delivers to a client of either kind are the packets of the same columns,
    the same rows and the same status, with no warnings. *)
Theorem result_cached sw threshold fs turns rows sv p rs d2 : mirror p = false → tracks_gtid p = false → with_myprot rs = true → pkt_sid p = 0 → rs_out rs = [] →
  let all := concat turns ++ rows in
  1 <= Z.of_nat (length fs) <= 4096 → Forall definition_ok fs → Forall (λ r, r ≠ [] ∧ row_fits r ∧ row_length r < MAX_PAYLOAD) all →
  Z.of_nat (length (encode (client_deprecates p) (described sw fs all sv p))) <= threshold < 2 ^ 32 →
  ∃ p' rs' buf o v, send_text sw threshold fs turns rows sv p rs = Ok (p', [], rs') ∧
    resultset2buffer (u32 (resultset_size rs')) malloc (whole <$> (get_resultset rs').1.2) = Ok buf ∧
    scan_resultset (client_deprecates p) buf = Ok (o, v) ∧
    deliver d2 o v = Ok (encode d2 (mk_resultset (definition_payload <$> fs) (if client_deprecates p then 0 else warnings_of (server_deprecates_eof sv) sv)
                                      (row_payload <$> all) 0 (final_status (client_deprecates p) sv p))).
Proof using malloc_size.
  intros Hm Ht Hw H0 Hout all Hn Hfs Hrows Hlen. assert (Forall (λ r, row_fits r ∧ row_length r < MAX_PAYLOAD) all) as Hrows' by (eapply Forall_impl; [exact Hrows|]; by intros r (_ & ?)).
  destruct (send_text_spec sw threshold fs turns rows sv p rs Hm Ht Hw H0 Hout ltac:(lia) Hfs Hrows') as (p' & out & rs' & E & Eo & Hb & Hc & Hw' & Hnr & Hsz & Hnone).
  fold all in Eo, Hsz, Hnone. rewrite Hnone in E, Eo by lia. cbn [app] in Eo.
  pose proof (described_valid sw fs all sv p Hn Hfs Hrows) as Hv. set (d1 := client_deprecates p) in *. set (R := described sw fs all sv p) in *.
  exists p', rs', (encode d1 R), (offsets_of d1 R), (encode d1 (clear_warnings R)). split; [done|].
  split; [|split; [destruct d1; [by apply scan_ok_spec|by apply scan_eof_spec]|exact (deliver_spec d1 d2 (clear_warnings R) (clear_valid R Hv))]].
  unfold get_resultset. change (with_myprot (rs' <| transfer_started := true |>)) with (with_myprot rs'). rewrite Hw'. cbn [fst snd].
  change (rs_out (rs' <| transfer_started := true |>)) with (rs_out rs'). rewrite Hsz, u64_small, u32_small by lia.
  assert (stored (whole <$> rs_out rs') = encode d1 R) as Es by (rewrite <- Eo; unfold stored; rewrite <- list_fmap_compose; f_equal; apply list_fmap_id).
  rewrite <- Es at 2. apply resultset2buffer_spec; [apply malloc_size; lia|by rewrite Es].
Qed.
End TextResult.
Definition toy_field : MYSQL_FIELD := mk_field (str "def") [] [] [] [97] [] 33 15 253 1 31.
Definition toy_proto : proto := mk_proto false false PROXYSQL_SESSION_MYSQL true false 0 0 (-1) [] false (Some (mk_conn CLIENT_DEPRECATE_EOF false)) STATE_SLEEP 0 [].
Definition toy_server : server := mk_server 0 2 false (Some 1).
Definition toy_result : MySQL_ResultSet := mk_result 0 None [] 0 0 0 false false false true.
Lemma toy_field_ok : definition_ok toy_field.
Proof. split; [repeat first [constructor; cbn; lia|constructor; [cbn; lia|]|constructor]|]. split; [vm_compute; done|]. cbn. lia. Qed.
Definition toy_malloc (n : Z) : list Z := replicate (Z.to_nat n) 0.
Lemma toy_malloc_size n : 0 <= n → Z.of_nat (length (toy_malloc n)) = n.
Proof. intros Hn. unfold toy_malloc. rewrite length_replicate. lia. Qed.
(** With a threshold of 20 bytes the columns and the first row, which does not fit in
    the buffer, are handed over in the pause that follows. *)
Definition toy_turns : list (list (list (option (list Z)))) := [[[Some (replicate (Z.to_nat 20000) 7)]]; []].
Lemma text_result_sent_witness :
  ∃ p' out rs' blocks rs'', send_text toy_malloc false 20 [toy_field] toy_turns [[Some [49]]; [None]] toy_server toy_proto toy_result = Ok (p', out, rs') ∧ get_resultset rs' = (true, blocks, rs'') ∧
    concat (out ++ blocks) = encode true (described false [toy_field] (concat toy_turns ++ [[Some [49]]; [None]]) toy_server toy_proto) ∧ rs_out rs'' = [] ∧
    resultset_size rs' = u64 (Z.of_nat (length (concat (out ++ blocks)))) ∧ num_rows rs' = u64 3 ∧
    Forall (λ f, read_definition (definition_payload f) = Some f) [toy_field] ∧ Forall (λ r, read_row (length r) (row_payload r) = Some (r, [])) (concat toy_turns ++ [[Some [49]]; [None]]).
Proof.
  apply (text_result_sent toy_malloc toy_malloc_size false); try done.
  - constructor; [exact toy_field_ok|constructor].
  - repeat (constructor; [split; [constructor; [vm_compute; split; congruence|constructor]|by vm_compute]|]). constructor.
Defined.
Example toy_pause : match send_text toy_malloc false 20 [toy_field] toy_turns [[Some [49]]; [None]] toy_server toy_proto toy_result with
  | Ok (_, out, rs) => ((λ b, Z.of_nat (length b)) <$> out, (λ b, Z.of_nat (length b)) <$> rs_out rs) = ([32; 20007], [11; 11]) | Fault _ => False end.
Proof. vm_compute. reflexivity. Qed.
Lemma result_cached_witness :
  ∃ p' rs' buf o v, send_text toy_malloc false 1000 [toy_field] [[[Some [49]]]; []] [[None]] toy_server toy_proto toy_result = Ok (p', [], rs') ∧
    resultset2buffer (u32 (resultset_size rs')) toy_malloc (whole <$> (get_resultset rs').1.2) = Ok buf ∧
    scan_resultset true buf = Ok (o, v) ∧
    deliver false o v = Ok (encode false (mk_resultset (definition_payload <$> [toy_field]) 0 (row_payload <$> [[Some [49]]; [None]]) 0 (final_status true toy_server toy_proto))).
Proof.
  apply (result_cached toy_malloc toy_malloc_size false 1000 [toy_field] [[[Some [49]]]; []] [[None]]); try done.
  - constructor; [exact toy_field_ok|constructor].
  - constructor; [|constructor; [|constructor]]; (split; [done|]; split; [constructor; [cbn; lia|constructor]|by vm_compute]).
Defined.

(** The end of the columns already marks the result as complete, when an EOF packet
    is sent for it. *)
Example complete_before_rows : option_map (λ x, resultset_completed x.2)
  (match init (λ n, replicate (Z.to_nat n) 0) false None [toy_field] toy_server (toy_proto <| myconn := Some (mk_conn 0 false) |>) toy_result with Ok x => Some x | Fault _ => None end) = Some true.
Proof. by vm_compute. Qed.
(** The last packet of a row of 16 MB or more can be as short as the final packet and
    begin with the same byte: the cache takes it for the end of the result, and
    writes the count of warnings into it. *)
Example short_piece_taken_for_end :
  let head_ := packets 1 [count_payload 1; definition_payload toy_field; final_payload false false toy_server toy_proto] in
  let piece := packet 5 [254; 65; 66; 67; 68] in
  let buf := head_ ++ piece ++ packet 6 (final_payload false false toy_server toy_proto) in
  match scan_resultset false buf with
  | Ok (o, v) => row_eof_pkt_offset o = Z.of_nat (length head_) ∧ v = head_ ++ packet 5 [254; 0; 0; 67; 68] ++ packet 6 (final_payload false false toy_server toy_proto)
  | Fault _ => False
  end.
Proof. vm_compute. by split. Qed.
