(* ===== verification/Login.v ===== *)
(** * Logging in (lib/MySQL_Protocol.cpp, lib/MySQL_Session.cpp)

    The packets of the connection phase: the greeting, the request to switch the
    authentication plugin, the response of the client
    ([process_pkt_handshake_response] with its parts PPHR_1 to PPHR_7) and
    COM_CHANGE_USER.

    The users are what [Accounts] promises ([Auth] keeps the promise, see
    [LoginAuth]); SHA256, sha256_crypt_r, RE2, JSON, the table of character sets,
    LDAP and the users of ClickHouse are arguments.  A packet is the block that was
    read, so that looking for the end of a string beyond it is a fault. *)
From S2P Require Import Prelude StringUtils Encode ResultSet Packets Conn Auth.
Import LenEnc Scramble.

(** ** What logging in asks of the users *)
(** The connections that an account may still open, and counting one more. *)
Definition free_slots (x : option account) : Z :=
  match x with Some a => if num_connections_used a <? Auth.max_connections a then Auth.max_connections a - num_connections_used a else 0 | None => 0 end.
Definition counted (a : account) : account := if num_connections_used a <? Auth.max_connections a then set_used (num_connections_used a + 1) a else a.
Class Accounts (T : Type) := {
  acc_key : list Z → Z;
  acc_valid : T → Prop;
  acc_at : T → usertype → Z → option account;
  acc_lookup : usertype → list Z → T → outcome (option found);
  acc_exists : list Z → T → outcome bool;
  acc_set_SHA1 : usertype → list Z → option (list Z) → T → outcome T;
  acc_set_clear : usertype → list Z → option (list Z) → T → outcome T;
  acc_increase : list Z → T → outcome (Z * option Z * T);
  acc_decrease : list Z → T → outcome T;
  acc_lookup_ok t ut u : acc_valid t → acc_lookup ut u t = Ok (report <$> acc_at t ut (acc_key u));
  acc_exists_ok t u : acc_valid t → acc_exists u t = Ok (bool_decide (is_Some (acc_at t USERNAME_FRONTEND (acc_key u))));
  acc_set_SHA1_ok t ut u x : acc_valid t → ∃ t', acc_set_SHA1 ut u x t = Ok t' ∧ acc_valid t' ∧
    ∀ ut' k, acc_at t' ut' k = (if bool_decide (ut' = ut ∧ k = acc_key u) then set_sha1 (take 20 <$> x) else id) <$> acc_at t ut' k;
  acc_set_clear_ok t ut u x : acc_valid t → ∃ t', acc_set_clear ut u x t = Ok t' ∧ acc_valid t' ∧
    ∀ ut' k, acc_at t' ut' k = (if bool_decide (ut' = ut ∧ k = acc_key u) then set_clear x else id) <$> acc_at t ut' k;
  acc_increase_ok t u : acc_valid t → ∃ r t', acc_increase u t = Ok (r, t') ∧ acc_valid t' ∧ r.1 = free_slots (acc_at t USERNAME_FRONTEND (acc_key u)) ∧
    ∀ ut' k, acc_at t' ut' k = (if bool_decide (ut' = USERNAME_FRONTEND ∧ k = acc_key u) then counted else id) <$> acc_at t ut' k;
  acc_decrease_ok t u : acc_valid t → ∃ t', acc_decrease u t = Ok t' ∧ acc_valid t'
}.

(** What the code relies on of SHA256. *)
Class Sha256 := { sha256 : list Z → list Z; sha256_length m : length (sha256 m) = 32%nat }.

(** ** Data *)
Inductive proxysql_auth_plugins := AUTH_UNKNOWN_PLUGIN | AUTH_MYSQL_NATIVE_PASSWORD | AUTH_MYSQL_CLEAR_PASSWORD | AUTH_MYSQL_CACHING_SHA2_PASSWORD.
#[export] Instance plugins_eq_dec : EqDecision proxysql_auth_plugins.
Proof. solve_decision. Defined.
Definition is_plugin (a b : proxysql_auth_plugins) : bool := bool_decide (a = b).
Definition plugin_name (a : proxysql_auth_plugins) : list Z :=
  match a with
  | AUTH_MYSQL_NATIVE_PASSWORD => str "mysql_native_password"
  | AUTH_MYSQL_CLEAR_PASSWORD => str "mysql_clear_password"
  | AUTH_MYSQL_CACHING_SHA2_PASSWORD => str "caching_sha2_password"
  | AUTH_UNKNOWN_PLUGIN => []
  end.
#[export] Instance session_type_eq_dec : EqDecision proxysql_session_type.
Proof. solve_decision. Defined.
Definition is_session (a b : proxysql_session_type) : bool := bool_decide (a = b).
Definition ADMIN_HOSTGROUP : Z := -2.
Definition STATS_HOSTGROUP : Z := -3.

(** Capabilities, from the header of the client library. *)
Definition CLIENT_LONG_FLAG : Z := 4.
Definition CLIENT_CONNECT_WITH_DB : Z := 8.
Definition CLIENT_COMPRESS : Z := 32.
Definition CLIENT_SSL : Z := 2048.
Definition CLIENT_RESERVED : Z := 16384.
Definition CLIENT_SECURE_CONNECTION : Z := 32768.
Definition CLIENT_MULTI_STATEMENTS : Z := 65536.
Definition CLIENT_MULTI_RESULTS : Z := 131072.
Definition CLIENT_PS_MULTI_RESULTS : Z := 262144.
Definition CLIENT_PLUGIN_AUTH : Z := 524288.
Definition CLIENT_PLUGIN_AUTH_LENENC_CLIENT_DATA : Z := 2097152.
Definition CLIENT_REMEMBER_OPTIONS : Z := 2147483648.
(** The names of the client library for its first flags. *)
Definition CLIENT_MYSQL : Z := 1.

(** Indexes of session variables. *)
Definition SQL_CHARACTER_SET : Z := 0.
Definition SQL_CHARACTER_SET_RESULTS : Z := 3.
Definition SQL_CHARACTER_SET_CONNECTION : Z := 4.
Definition SQL_CHARACTER_SET_CLIENT : Z := 5.
Definition SQL_COLLATION_CONNECTION : Z := 7.
Definition SQL_ISOLATION_LEVEL : Z := 9.

(** The variables of the thread. *)
Record thread_vars := mk_thread_vars {
  enable_client_deprecate_eof : bool; have_compress : bool; have_ssl : bool; default_plugin : proxysql_auth_plugins;
  server_version : list Z; monitor_username : list Z; monitor_password : list Z; thread_default_schema : list Z
}.
Inductive session_status :=
  | CONNECTING_CLIENT | CONNECTING_SERVER | LDAP_AUTH_CLIENT | PINGING_SERVER | WAITING_CLIENT_DATA | WAITING_SERVER_DATA | PROCESSING_QUERY
  | CHANGING_SCHEMA | CHANGING_CHARSET | SETTING_CHARSET | CHANGING_AUTOCOMMIT | CHANGING_USER_CLIENT | CHANGING_USER_SERVER
  | RESETTING_CONNECTION | SETTING_INIT_CONNECT | SETTING_LDAP_USER_VARIABLE | SETTING_ISOLATION_LEVEL | SETTING_TRANSACTION_READ
  | SETTING_SESSION_TRACK_GTIDS | SETTING_MULTI_STMT | FAST_FORWARD | PROCESSING_STMT_PREPARE | PROCESSING_STMT_EXECUTE | SETTING_VARIABLE
  | SETTING_MULTIPLE_VARIABLES | SETTING_SET_NAMES | SHOW_WARNINGS | SETTING_NEXT_ISOLATION_LEVEL | SETTING_NEXT_TRANSACTION_READ
  | session_status___NONE.

(** [MyProt_tmp_auth_vars]; the block of the password ends with a zero that is not
    counted, and [auth_plugin] is what follows in the packet. *)
Record MyProt_tmp_auth_vars := mk_vars {
  user : list Z; db : option (list Z); pass : list Z; pass_len : Z; v_password : option (list Z);
  auth_plugin : option (list Z); charset : Z; capabilities : Z; max_pkt : Z; v_ret_use_ssl : bool
}.
#[export] Instance vars_eta : Eta MyProt_tmp_auth_vars := λ v,
  mk_vars (user v) (db v) (pass v) (pass_len v) (v_password v) (auth_plugin v) (charset v) (capabilities v) (max_pkt v) (v_ret_use_ssl v).
Definition new_vars : MyProt_tmp_auth_vars := mk_vars [] None [] 0 None None 0 0 0 false.

(** An LDAP plugin: the password and the settings of a user with the name of the
    backend user, and the connections that the user may still open. *)
Record ldap_plugin := mk_ldap { ldap_lookup : list Z → list Z → option (found * option (list Z)); ldap_increase : list Z → Z }.
(** What surrounds the code: variables, memory, hashes, libraries, the users of
    ClickHouse, and the addresses of the client. *)
Class World := {
  env : thread_vars;
  malloc : Z → list Z;
  Hash64 : list Z → Z → Z;
  charset_known : Z → bool;
  default_charset_nr : option Z;
  FullMatch : list Z → list Z → bool;
  sha256_crypt : list Z → list Z → list Z;
  ldap : option ldap_plugin;
  clickhouse_lookup : list Z → option found;
  clickhouse_increase : list Z → Z;
  client_addr : list Z;
  peer_addr : list Z
}.

Section Login.
Context {T : Type} `{W : World}.

(** The parts of the data stream, the connection, the session and the protocol
    object of a client, with the users. *)
Record login := mk_login {
  prot : proto;
  encrypted : bool; switching_auth_stage : Z; switching_auth_type : proxysql_auth_plugins; switching_auth_sent : proxysql_auth_plugins;
  auth_in_progress : Z; tmp_charset : Z; x509_subject_alt_name : option (list Z);
  sent_auth_plugin_id : proxysql_auth_plugins; auth_plugin_id : proxysql_auth_plugins;
  scramble_buff : list Z; max_allowed_pkt : Z; server_capabilities : Z; compression_min_length : Z;
  ui : MySQL_Connection_userinfo; fe_username : option (list Z);
  default_hostgroup : Z; default_schema : option (list Z); user_attributes : option (list Z); schema_locked : bool;
  transaction_persistent : bool; user_max_connections : Z; default_charset : Z; use_ssl : bool; use_ldap_auth : bool;
  change_user_auth_switch : bool; sess_status : session_status; client_values : gmap Z (list Z);
  max_connections_reached : bool; client_authenticated : bool;
  accounts : T
}.
#[export] Instance login_eta : Eta login := λ s,
  mk_login (prot s) (encrypted s) (switching_auth_stage s) (switching_auth_type s) (switching_auth_sent s) (auth_in_progress s) (tmp_charset s)
    (x509_subject_alt_name s) (sent_auth_plugin_id s) (auth_plugin_id s) (scramble_buff s) (max_allowed_pkt s) (server_capabilities s)
    (compression_min_length s) (ui s) (fe_username s) (default_hostgroup s) (default_schema s) (user_attributes s) (schema_locked s)
    (transaction_persistent s) (user_max_connections s) (default_charset s) (use_ssl s) (use_ldap_auth s) (change_user_auth_switch s)
    (sess_status s) (client_values s) (max_connections_reached s) (client_authenticated s) (accounts s).
Implicit Types (s : login) (v : MyProt_tmp_auth_vars).

(** ** Session variables of the client *)
Definition get_value (idx : Z) s : option (list Z) := client_values s !! idx.
Definition set_values (idxs : list Z) (value : list Z) s : login := s <| client_values := foldr (λ i m, <[i := value]> m) (client_values s) idxs |>.
(** [client_set_value]; the hashes are those of [Conn]. *)
Definition client_set_value (idx : Z) (value : list Z) s : login :=
  let s :=
    if idx =? SQL_CHARACTER_ACTION then
      match get_value SQL_CHARACTER_SET s with
      | Some c =>
          if bool_decide (value = str "1") then set_values [SQL_CHARACTER_SET_RESULTS; SQL_CHARACTER_SET_CLIENT; SQL_CHARACTER_SET_CONNECTION; SQL_COLLATION_CONNECTION] c s
          else if bool_decide (value = str "2") then
            set_values [SQL_CHARACTER_SET_CONNECTION; SQL_COLLATION_CONNECTION] [] (set_values [SQL_CHARACTER_SET_RESULTS; SQL_CHARACTER_SET_CLIENT] c s)
          else s
      | None => s
      end
    else s in
  set_values [idx] value s.
Definition CONNECT_START : Z := 3.
Definition set_charset (c action : Z) s : login := client_set_value SQL_CHARACTER_ACTION (dec action) (client_set_value SQL_CHARACTER_SET (dec c) s).
(** The character set that a client announces. *)
Definition announce_charset (c : Z) s : login :=
  let s := set_charset c CONNECT_START s in
  foldl (λ s i, client_set_value i (dec c) s) s [SQL_CHARACTER_SET_RESULTS; SQL_CHARACTER_SET_CLIENT; SQL_CHARACTER_SET_CONNECTION; SQL_COLLATION_CONNECTION].

(** ** Packets of the server *)
(** A block of zeros with [bs] at its start. *)
Definition zeroed (size : Z) (bs : list Z) : outcome (list Z) := blit (replicate (Z.to_nat size) 0) 0 bs.
Definition sent (pkt : list Z) s : login :=
  s <| prot := (add_out pkt (prot s)) <| DSS := STATE_SERVER_HANDSHAKE |> |> <| sess_status := CONNECTING_CLIENT |>.
Definition generate_pkt_auth_switch_request s : outcome login :=
  let pkt_id := if change_user_auth_switch s then 1 else if encrypted s then 3 else 2 in
  let t := switching_auth_type s in
  let n := Z.of_nat (length (plugin_name t)) in
  pkt_length ← match t with
               | AUTH_MYSQL_NATIVE_PASSWORD | AUTH_MYSQL_CACHING_SHA2_PASSWORD => Ok (1 + (n + 1) + 20 + 1)
               | AUTH_MYSQL_CLEAR_PASSWORD => Ok (1 + (n + 1) + 1)
               | AUTH_UNKNOWN_PLUGIN => Fault AssertFail
               end;
  scr ← match t with AUTH_MYSQL_CLEAR_PASSWORD => Ok [] | _ => read_bytes 20 (scramble_buff s) end;
  pkt ← zeroed (pkt_length + 4) (hdr_bytes (mk_hdr pkt_length pkt_id) ++ 254 :: plugin_name t ++ 0 :: scr);
  Ok ((sent pkt s) <| switching_auth_sent := t |>).

Definition with_flag (b : bool) (flag c : Z) : Z := if b then Z.lor c flag else Z.ldiff c flag.
(** What is offered to the client. *)
Definition offered_capabilities (caps : Z) : Z :=
  let caps := with_flag (have_compress env) CLIENT_COMPRESS caps in
  let caps := with_flag (have_ssl env || is_plugin (default_plugin env) AUTH_MYSQL_CACHING_SHA2_PASSWORD) CLIENT_SSL caps in
  let caps := Z.lor caps CLIENT_LONG_FLAG in
  let caps := Z.lor caps (Z.lor (Z.lor CLIENT_MYSQL CLIENT_PLUGIN_AUTH) CLIENT_RESERVED) in
  with_flag (enable_client_deprecate_eof env) CLIENT_DEPRECATE_EOF caps.
Definition extended_capabilities (deprecate_eof_active : bool) : Z :=
  let caps := foldr Z.lor 0 [CLIENT_MULTI_RESULTS; CLIENT_MULTI_STATEMENTS; CLIENT_PS_MULTI_RESULTS; CLIENT_PLUGIN_AUTH; CLIENT_SESSION_TRACKING; CLIENT_REMEMBER_OPTIONS] in
  if deprecate_eof_active && enable_client_deprecate_eof env then Z.lor caps CLIENT_DEPRECATE_EOF else caps.
(** [random] are the 20 bytes of [RAND_bytes], [collation] the number of the default collation. *)
Definition generate_pkt_initial_handshake (caps thread_id collation : Z) (random : list Z) (deprecate_eof_active : bool) s : outcome login :=
  match default_plugin env with
  | AUTH_MYSQL_NATIVE_PASSWORD | AUTH_MYSQL_CACHING_SHA2_PASSWORD =>
      let name := plugin_name (default_plugin env) in
      let pkt_length := u24 (1 + (Z.of_nat (length (server_version env)) + 1) + 4 + 8 + 1 + 2 + 1 + 2 + 3 + 10 + 12 + 1 + (Z.of_nat (length name) + 1)) in
      let salt := printable_salt random in
      let caps := offered_capabilities caps in
      pkt ← zeroed (pkt_length + 4) (hdr_bytes (mk_hdr pkt_length 0) ++ 10 :: server_version env ++ 0 :: le_bytes 4 thread_id ++ take 8 salt ++
             0 :: le_bytes 2 caps ++ u8 collation :: le_bytes 2 SERVER_STATUS_AUTOCOMMIT ++ le_bytes 2 (Z.shiftr (extended_capabilities deprecate_eof_active) 16) ++
             21 :: replicate 10 0 ++ drop 8 salt ++ 0 :: name);
      Ok ((sent pkt s) <| scramble_buff := salt |> <| server_capabilities := caps |> <| sent_auth_plugin_id := default_plugin env |>)
  | _ => Fault AssertFail
  end.

(** ** Reading the packets of the client *)
Definition CPY4 (p : list Z) : outcome Z := b ← read_bytes 4 p; Ok (le_value b).
(** [strlen] with the string it passes over. *)
Fixpoint scan_string (p : list Z) : outcome (list Z) :=
  match p with
  | [] => Fault OutOfBounds
  | c :: p' => if c =? 0 then Ok [] else w ← scan_string p'; Ok (c :: w)
  end.
(** [strncmp(p, lit, strlen(lit)) == 0]. *)
Fixpoint begins_with (lit p : list Z) : outcome bool :=
  match lit with
  | [] => Ok true
  | c :: lit' => match p with [] => Fault OutOfBounds | d :: p' => if c =? d then begins_with lit' p' else Ok false end
  end.
(** [memcmp(a, b, n) == 0]. *)
Definition same_bytes (n : nat) (a b : list Z) : outcome bool := x ← read_bytes n a; y ← read_bytes n b; Ok (bool_decide (x = y)).
Definition set_client_flag (c : Z) s : login :=
  s <| prot := (prot s) <| myconn := (λ o, Packets.mk_conn c (Packets.no_backslash_escapes o)) <$> myconn (prot s) |> |>.
Definition the_client_flag s : outcome Z := match myconn (prot s) with Some o => Ok (Packets.client_flag o) | None => Fault NullPointer end.

(** ** The response of the client *)
Context `{HA : Accounts T, HS : Sha1, HS2 : Sha256, HJ : Json}.
(** [PPHR_1]: authentication has started; the packet is the answer to a request. *)
Definition PPHR_1 (p : list Z) (len : Z) v s : outcome (bool * MyProt_tmp_auth_vars * login) :=
  let s := if switching_auth_stage s =? 1 then s <| switching_auth_stage := 2 |> else s in
  let s := if switching_auth_stage s =? 4 then s <| switching_auth_stage := 5 |> else s in
  let s := s <| auth_in_progress := 0 |> in
  let v := v <| user := default [] (Conn.username (ui s)) |> in
  if len =? 5 then Ok (false, v, s)
  else
    let s := s <| auth_plugin_id := switching_auth_type s |> in
    n ← (if is_plugin (auth_plugin_id s) AUTH_MYSQL_NATIVE_PASSWORD then Ok (len - 4) else w ← scan_string p; Ok (Z.of_nat (length w)));
    b ← slice p 0 n;
    flags ← the_client_flag s;
    Ok (true, v <| pass := b ++ [0] |> <| pass_len := n |> <| db := Conn.schemaname (ui s) |> <| charset := tmp_charset s |> <| capabilities := flags |>, s).

(** The character set of a client, or the default one. *)
Definition charset_or_default (c : Z) : outcome Z := if c =? 0 then match default_charset_nr with Some n => Ok n | None => Fault AssertFail end else Ok c.
(** [PPHR_2]: the first response, or the request for TLS. *)
Definition response_length (caps : Z) (p : list Z) : outcome (Z * list Z) :=
  if has_flag caps CLIENT_PLUGIN_AUTH_LENENC_CLIENT_DATA then
    '(w, n) ← mysql_decode_length p true;
    match n with Some n => Ok (u32 n, drop (Z.to_nat w) p) | None => Fault Uninitialised end
  else if has_flag caps CLIENT_SECURE_CONNECTION then n ← read_at p 0; Ok (n, drop 1 p)
  else w ← scan_string p; Ok (Z.of_nat (length w), p).
Definition PPHR_2 (p : list Z) (len : Z) v s : outcome (bool * MyProt_tmp_auth_vars * login) :=
  caps ← CPY4 p;
  let caps := if has_flag caps CLIENT_MULTI_STATEMENTS then Z.lor caps CLIENT_MULTI_RESULTS else caps in
  let caps := if enable_client_deprecate_eof env then caps else Z.ldiff caps CLIENT_DEPRECATE_EOF in
  let s := set_client_flag caps s in
  max ← CPY4 (drop 4 p);
  let s := s <| max_allowed_pkt := max |> in
  cs ← read_at p 8;
  let v := v <| capabilities := caps |> <| max_pkt := max |> <| charset := cs |> in
  if negb (encrypted s) && (len =? 36) then Ok (false, v, s <| encrypted := true |>)
  else
    cs ← charset_or_default cs;
    let s := s <| tmp_charset := cs |> in
    let v := v <| charset := cs |> in
    let p := drop 32 p in
    u ← scan_string p;
    let v := v <| user := u |> in
    '(n, p) ← response_length caps (drop (S (length u)) p);
    if Z.of_nat (length p) <? n then Ok (false, v, s)
    else
      b ← slice p 0 n;
      let p := drop (Z.to_nat n) p in
      let '(d, p) := if has_flag caps CLIENT_CONNECT_WITH_DB then (Some (cstr p), drop (S (length (cstr p))) p) else (None, p) in
      let n := match last b with Some 0 => n - 1 | _ => n end in
      let pl := if negb (bool_decide (p = [])) && has_flag caps CLIENT_PLUGIN_AUTH then Some p else None in
      Ok (true, v <| pass := b ++ [0] |> <| pass_len := n |> <| db := d |> <| auth_plugin := pl |>, s).

(** [PPHR_3]: the plugin of the client. *)
Definition detect_plugin (name : list Z) s : outcome proxysql_auth_plugins :=
  native ← begins_with (plugin_name AUTH_MYSQL_NATIVE_PASSWORD) name;
  if (native : bool) then Ok AUTH_MYSQL_NATIVE_PASSWORD
  else
    clear_ ← begins_with (plugin_name AUTH_MYSQL_CLEAR_PASSWORD) name;
    if (clear_ : bool) then Ok AUTH_MYSQL_CLEAR_PASSWORD
    else
      sha2 ← begins_with (plugin_name AUTH_MYSQL_CACHING_SHA2_PASSWORD) name;
      if (sha2 : bool) then
        match sent_auth_plugin_id s with
        | AUTH_MYSQL_NATIVE_PASSWORD => Ok AUTH_UNKNOWN_PLUGIN
        | AUTH_MYSQL_CACHING_SHA2_PASSWORD => Ok AUTH_MYSQL_CACHING_SHA2_PASSWORD
        | _ => Fault AssertFail
        end
      else Ok AUTH_UNKNOWN_PLUGIN.
Definition PPHR_3 v s : outcome login :=
  match auth_plugin v with
  | None => Ok (s <| auth_plugin_id := AUTH_MYSQL_NATIVE_PASSWORD |>)
  | Some name => if is_plugin (auth_plugin_id s) AUTH_UNKNOWN_PLUGIN then i ← detect_plugin name s; Ok (s <| auth_plugin_id := i |>) else Ok s
  end.

(** Whether the user is asked about; unknown users may be those of LDAP. *)
Definition user_exists v s : outcome bool :=
  match ldap with
  | Some _ => if is_session (session_type (prot s)) PROXYSQL_SESSION_CLICKHOUSE then Ok true else acc_exists (user v) (accounts s)
  | None => Ok true
  end.
Definition remember_user v s : login := s <| ui := userinfo_set Hash64 (Some (user v)) None (db v) None (ui s) |>.
Definition PPHR_4auth0 v s : outcome (bool * login) :=
  if switching_auth_stage s =? 0 then
    let s := s <| switching_auth_stage := 1 |> <| auth_in_progress := 1 |> in
    e ← user_exists v s;
    s ← generate_pkt_auth_switch_request (s <| switching_auth_type := if (e : bool) then AUTH_MYSQL_NATIVE_PASSWORD else AUTH_MYSQL_CLEAR_PASSWORD |>);
    Ok (false, remember_user v s)
  else Ok (true, s).
Definition PPHR_4auth1 v s : outcome (bool * login) :=
  if bool_decide (is_Some ldap) && (switching_auth_stage s =? 0) then
    e ← user_exists v s;
    if (e : bool) then Ok (true, s)
    else
      s ← generate_pkt_auth_switch_request (s <| switching_auth_type := AUTH_MYSQL_CLEAR_PASSWORD |> <| switching_auth_stage := 1 |> <| auth_in_progress := 1 |>);
      Ok (false, remember_user v s)
  else Ok (true, s).
(** Which requests to switch are made before the password is looked at. *)
Definition may_switch v s : outcome (bool * login) :=
  match sent_auth_plugin_id s, auth_plugin_id s with
  | AUTH_MYSQL_NATIVE_PASSWORD, AUTH_UNKNOWN_PLUGIN => PPHR_4auth0 v s
  | AUTH_MYSQL_NATIVE_PASSWORD, AUTH_MYSQL_NATIVE_PASSWORD => PPHR_4auth1 v s
  | AUTH_MYSQL_NATIVE_PASSWORD, AUTH_MYSQL_CLEAR_PASSWORD => Ok (true, s)
  | AUTH_MYSQL_NATIVE_PASSWORD, AUTH_MYSQL_CACHING_SHA2_PASSWORD => Fault AssertFail
  | AUTH_MYSQL_CACHING_SHA2_PASSWORD, (AUTH_UNKNOWN_PLUGIN | AUTH_MYSQL_NATIVE_PASSWORD) => PPHR_4auth0 v s
  | AUTH_MYSQL_CACHING_SHA2_PASSWORD, AUTH_MYSQL_CLEAR_PASSWORD => Ok (true, s)
  | AUTH_MYSQL_CACHING_SHA2_PASSWORD, AUTH_MYSQL_CACHING_SHA2_PASSWORD =>
      if (auth_in_progress s =? 0) && (switching_auth_stage s =? 0) then Ok (true, s) else Fault AssertFail
  | _, _ => Fault AssertFail
  end.

(** *** Checking the password *)
Definition known_session s : bool :=
  match session_type (prot s) with
  | PROXYSQL_SESSION_MYSQL | PROXYSQL_SESSION_SQLITE | PROXYSQL_SESSION_ADMIN | PROXYSQL_SESSION_STATS => true
  | _ => false
  end.
Definition set_ui_sha1 (x : option (list Z)) s : login :=
  s <| ui := mk_userinfo (ui_hash (ui s)) (Conn.username (ui s)) (Conn.password (ui s)) (Conn.schemaname (ui s)) x |>.
(** The SHA1 of a password that was proved is kept for the backends. *)
Definition learn_sha1 (u : list Z) (known : option (list Z)) (stage1 : list Z) s : outcome login :=
  acc ← (match known with None => acc_set_SHA1 USERNAME_FRONTEND u (Some stage1) (accounts s) | Some _ => Ok (accounts s) end);
  hx ← sha1_pass_hex (Some stage1);
  Ok (set_ui_sha1 hx (s <| accounts := acc |>)).
(** Whether the double SHA1 of [clear] is the stored one. *)
Definition double_hash_matches (clear stored : list Z) : outcome bool :=
  hx ← sha1_pass_hex (Some (sha1 (sha1 clear)));
  Ok (match hx with Some h => strcasecmp_eq h stored | None => false end).
(** [PPHR_6auth2]: the fast path of caching_sha2_password. *)
Definition sha2_response (password scr : list Z) : list Z :=
  let a := sha256 password in zip_with Z.lxor a (sha256 (sha256 a ++ scr)).
Definition PPHR_6auth2 (password : list Z) v s : outcome bool :=
  if known_session s then scr ← read_bytes 20 (scramble_buff s); same_bytes 32 (sha2_response password scr) (pass v)
  else Ok false.
(** [PPHR_7auth1] and [PPHR_7auth2]: the password is stored as a double SHA1. *)
Definition PPHR_7auth1 (f : found) v s : outcome (bool * login) :=
  if known_session s then
    r ← proxy_scramble_sha1 (pass v) (scramble_buff s) (drop 1 (f_password f) ++ [0]);
    match r with Some stage1 => s ← learn_sha1 (user v) (f_sha1_pass f) stage1 s; Ok (true, s) | None => Ok (false, s) end
  else Ok (false, s).
Definition PPHR_7auth2 (f : found) v s : outcome (bool * login) :=
  if known_session s then
    clear_ ← slice (pass v) 0 (pass_len v);
    b ← double_hash_matches clear_ (f_password f);
    if (b : bool) then s ← learn_sha1 (user v) (f_sha1_pass f) (sha1 clear_) s; Ok (true, s) else Ok (false, s)
  else Ok (false, s).
(** What follows the last dollar. *)
Fixpoint after_last_dollar (w : list Z) : option (list Z) :=
  match w with
  | [] => None
  | c :: w' => match after_last_dollar w' with Some r => Some r | None => if c =? 36 then Some w' else None end
  end.
(** The salt of a stored caching_sha2_password hash, and the comparison with it. *)
Definition crypt_salt (stored : list Z) : list Z :=
  str "$5$rounds=" ++ dec (atoll (take 3 (drop 3 stored)) * 1000) ++ str "$" ++ take 20 (drop 7 stored).
Definition crypt_matches (clear_ stored : list Z) : outcome bool :=
  match after_last_dollar (sha256_crypt clear_ (crypt_salt stored)) with
  | Some h => Ok (bool_decide (h = drop 27 stored))
  | None => Fault AssertFail
  end.
Definition one_byte (b : Z) s : outcome login := p ← generate_one_byte_pkt malloc b (prot s); Ok (s <| prot := p |>).
(** [PPHR_sha2full]: the client is asked for the password itself; the password
    that the session keeps is returned. *)
Definition PPHR_sha2full (f : found) (passformat : proxysql_auth_plugins) v s : outcome (bool * list Z * login) :=
  if switching_auth_stage s =? 0 then
    s ← one_byte 4 s;
    Ok (false, f_password f, s <| switching_auth_type := auth_plugin_id s |> <| switching_auth_stage := 4 |> <| auth_in_progress := 1 |>)
  else if switching_auth_stage s =? 5 then
    b ← match passformat with
        | AUTH_MYSQL_NATIVE_PASSWORD => c ← slice (pass v) 0 (pass_len v); double_hash_matches c (f_password f)
        | AUTH_MYSQL_CACHING_SHA2_PASSWORD => if Z.of_nat (length (f_password f)) =? 70 then crypt_matches (cstr (pass v)) (f_password f) else Fault AssertFail
        | _ => Fault AssertFail
        end;
    if (b : bool) && known_session s then
      acc ← acc_set_clear USERNAME_FRONTEND (user v) (Some (cstr (pass v))) (accounts s);
      Ok (b, cstr (pass v), s <| accounts := acc |>)
    else Ok (b, f_password f, s)
  else Fault AssertFail.

Definition is_crypt (password : list Z) : bool := (Z.of_nat (length password) =? 70) && prefix_ci (str "$A$0") password.
Definition check_clear (password : list Z) v s : outcome (bool * login) :=
  match auth_plugin_id s with
  | AUTH_MYSQL_NATIVE_PASSWORD => r ← proxy_scramble (scramble_buff s) password; b ← same_bytes 20 r (pass v); Ok (b, s)
  | AUTH_MYSQL_CLEAR_PASSWORD => Ok (bool_decide (password = cstr (pass v)), s)
  | AUTH_MYSQL_CACHING_SHA2_PASSWORD =>
      if switching_auth_stage s =? 5 then Ok (bool_decide (password = cstr (pass v)), s)
      else
        b ← PPHR_6auth2 password v s;
        if (b : bool) && (switching_auth_stage s =? 0) then s ← one_byte 3 s; Ok (b, s) else Ok (b, s)
  | AUTH_UNKNOWN_PLUGIN => Fault AssertFail
  end.
(** Whether the response fits the stored password, with the password to keep. *)
Definition check_password (f : found) v s : outcome (bool * list Z * login) :=
  let password := f_password f in
  if pass_len v =? 0 then Ok (bool_decide (password = []), password, s)
  else if is_plugin (auth_plugin_id s) AUTH_MYSQL_CACHING_SHA2_PASSWORD && is_crypt password then PPHR_sha2full f AUTH_MYSQL_CACHING_SHA2_PASSWORD v s
  else if bool_decide (head password = Some 42) then
    match auth_plugin_id s with
    | AUTH_MYSQL_NATIVE_PASSWORD => '(b, s) ← PPHR_7auth1 f v s; Ok (b, password, s)
    | AUTH_MYSQL_CLEAR_PASSWORD => '(b, s) ← PPHR_7auth2 f v s; Ok (b, password, s)
    | AUTH_MYSQL_CACHING_SHA2_PASSWORD => PPHR_sha2full f AUTH_MYSQL_NATIVE_PASSWORD v s
    | AUTH_UNKNOWN_PLUGIN => Fault AssertFail
    end
  else '(b, s) ← check_clear password v s; Ok (b, password, s).

(** *** The settings of the user *)
Definition settings_of (f : found) (fast : bool) s : login :=
  s <| default_hostgroup := f_default_hostgroup f |> <| default_schema := Some (f_default_schema f) |> <| user_attributes := Some (f_attributes f) |>
    <| schema_locked := f_schema_locked f |> <| transaction_persistent := f_transaction_persistent f |>
    <| prot := (prot s) <| session_fast_forward := fast |> |> <| user_max_connections := f_max_connections f |>.
Definition PPHR_5passwordTrue (f : found) s : login :=
  settings_of f (is_session (session_type (prot s)) PROXYSQL_SESSION_MYSQL && f_fast_forward f) s.
(** The monitor may log in to the admin interfaces. *)
Definition PPHR_5passwordFalse_0 v s : outcome (bool * MyProt_tmp_auth_vars * login) :=
  if bool_decide (user v = monitor_username env) then
    r ← proxy_scramble (scramble_buff s) (monitor_password env);
    b ← same_bytes 20 r (pass v);
    if (b : bool) then
      Ok (true, v <| v_password := Some (monitor_password env) |>,
        s <| default_hostgroup := STATS_HOSTGROUP |> <| default_schema := Some (str "main") |> <| schema_locked := false |> <| transaction_persistent := false |>
          <| prot := (prot s) <| session_fast_forward := false |> |> <| user_max_connections := 0 |>)
    else Ok (false, v, s)
  else Ok (false, v, s).
(** LDAP: the plugin checks the password and names the backend user.  The SHA1 of
    the password is not known here, and zeros are stored in its place. *)
Definition PPHR_5passwordFalse_auth2 v s : outcome (bool * MyProt_tmp_auth_vars * login) :=
  match ldap with
  | None => Ok (false, v, s)
  | Some l =>
      let s := s <| use_ldap_auth := true |> in
      match ldap_lookup l (user v) (cstr (pass v)) with
      | None => Ok (false, v, s)
      | Some (f, backend) =>
          let v := v <| v_password := Some (f_password f) |> <| v_ret_use_ssl := f_use_ssl f |> in
          let s := settings_of f (f_fast_forward f) s in
          if bool_decide (f_password f = cstr (pass v)) then
            match backend with
            | None => Ok (false, v, s)
            | Some b =>
                r ← acc_lookup USERNAME_BACKEND b (accounts s);
                match r with
                | None => Ok (false, v <| v_password := None |>, s)
                | Some g =>
                    let v := v <| v_password := Some (f_password g) |> <| v_ret_use_ssl := f_use_ssl g |> in
                    let s := settings_of g (f_fast_forward g) s in
                    let s := s <| ui := userinfo_set Hash64 (Some b) None None None (ui s) |> in
                    s ← learn_sha1 b (match f_sha1_pass g with Some x => Some x | None => f_sha1_pass f end) (replicate 20 0) s;
                    Ok (true, v, s <| fe_username := Some (user v) |>)
                end
            end
          else Ok (false, v, s)
      end
  end.
(** Whether the session needs TLS, whatever becomes of the login. *)
Definition PPHR_SetConnAttrs v s : login :=
  let s := announce_charset (charset v) s in
  let s := if has_flag (capabilities v) CLIENT_COMPRESS && has_flag (server_capabilities s) CLIENT_COMPRESS then s <| compression_min_length := 50 |> else s in
  if v_ret_use_ssl v then s <| use_ssl := true |> else s.

(** *** The attributes of the user *)
Definition SPIFFE : list Z := str "spiffe://".
(** A user with a SPIFFE id needs a certificate with that name. *)
Definition spiffe_matches (wanted : list Z) (name : option (list Z)) : bool :=
  match name with
  | None => false
  | Some n =>
      match wanted with
      | 33 :: regex => if negb (bool_decide (regex = [])) then FullMatch n regex else false
      | _ => strncmp_eq (length SPIFFE) wanted SPIFFE && bool_decide (wanted = n)
      end
  end.
Definition set_isolation (j : json) s : outcome login :=
  match json_find ISOLATION j with
  | None => Ok s
  | Some x => match json_get_string x with Some w => Ok (client_set_value SQL_ISOLATION_LEVEL w s) | None => Fault Exception end
  end.
(** The attributes as JSON, when there are any. *)
Definition attributes_json s : outcome (option json) :=
  match user_attributes s with
  | None | Some [] => Ok None
  | Some a => match json_parse a with Some j => Ok (Some j) | None => Fault Exception end
  end.
Definition verify_user_attributes s : outcome (bool * login) :=
  j ← attributes_json s;
  match j with
  | None => Ok (true, s)
  | Some j =>
      ok ← match json_find (str "spiffe_id") j with
           | None => Ok true
           | Some x => match json_get_string x with Some w => Ok (spiffe_matches w (x509_subject_alt_name s)) | None => Fault Exception end
           end;
      s ← set_isolation j s;
      Ok (ok, s)
  end.
Definition user_attributes_has_spiffe s : outcome bool :=
  j ← attributes_json s; Ok (match j with Some j => bool_decide (is_Some (json_find (str "spiffe_id") j)) | None => false end).

(** *** The whole response *)
Definition lookup_frontend (u : list Z) s : outcome (option found) :=
  if is_session (session_type (prot s)) PROXYSQL_SESSION_CLICKHOUSE then Ok (clickhouse_lookup u) else acc_lookup USERNAME_FRONTEND u (accounts s).
Definition do_auth v s : outcome (bool * MyProt_tmp_auth_vars * login) :=
  if charset_known (charset v) then
    let s := s <| default_charset := charset v |> in
    r ← lookup_frontend (user v) s;
    match r with
    | Some f =>
        let v := v <| v_ret_use_ssl := f_use_ssl f |> in
        '(b, pw, s) ← check_password f v (PPHR_5passwordTrue f s);
        Ok (b, v <| v_password := Some pw |>, s)
    | None =>
        match session_type (prot s) with
        | PROXYSQL_SESSION_ADMIN | PROXYSQL_SESSION_STATS | PROXYSQL_SESSION_SQLITE => PPHR_5passwordFalse_0 v s
        | _ => if is_plugin (auth_plugin_id s) AUTH_MYSQL_CLEAR_PASSWORD then PPHR_5passwordFalse_auth2 v s else Ok (false, v, s)
        end
    end
  else Ok (false, v, s).
Definition set_ui_user (u p : option (list Z)) s : login :=
  s <| ui := mk_userinfo (ui_hash (ui s)) u p (Conn.schemaname (ui s)) (Conn.sha1_pass (ui s)) |>.
Definition rehash s : login := s <| ui := userinfo_set Hash64 None None None None (ui s) |>.
Definition choose_schema (d : list Z) s : login := s <| ui := (set_schemaname Hash64 (thread_default_schema env) d (Z.of_nat (length d)) (ui s)).1 |>.
Definition set_DSS (d : mysql_data_stream_status) s : login := s <| prot := (prot s) <| DSS := d |> |>.
(** The name is kept when it was set before. *)
Definition kept_name v s : option (list Z) := match Conn.username (ui s) with Some u => Some u | None => Some (user v) end.
(** What follows the decision. *)
Definition finish (b : bool) v s : outcome (bool * login) :=
  let s := PPHR_SetConnAttrs v s in
  if b then
    match v_password v with
    | None => Fault NullPointer
    | Some pw =>
        let s := set_ui_user (kept_name v s) (Some pw) (set_DSS STATE_CLIENT_HANDSHAKE s) in
        let s := match db v with Some d => choose_schema d s | None => s end in
        verify_user_attributes (rehash s)
    end
  else
    let s := set_ui_user (kept_name v s) (if pass_len v =? 0 then Conn.password (ui s) else Some []) s in
    Ok (false, rehash s).
Definition process_pkt_handshake_response (pkt : list Z) s : outcome (bool * login) :=
  let s := s <| auth_plugin_id := AUTH_UNKNOWN_PLUGIN |> in
  let len := Z.of_nat (length pkt) in
  hd ← read_bytes 4 pkt;
  id ← read_at hd 3;
  let p := drop 4 pkt in
  init_db ← (if id =? 0 then c ← read_at p 0; Ok (c =? 2) else Ok false);
  if (init_db : bool) then Ok (false, s)
  else
    '(go, v, s) ← match Conn.username (ui s) with
                  | Some _ => PPHR_1 p len new_vars s
                  | None =>
                      '(go, v, s) ← PPHR_2 p len new_vars s;
                      if (go : bool) then s ← PPHR_3 v s; '(go, s) ← may_switch v s; Ok (go, v, s) else Ok (false, v, s)
                  end;
    if (go : bool) then '(b, v, s) ← do_auth v s; finish b v s else Ok (false, s).

(** *** The other checks of passwords *)
(** The SHA1 response for a stored double hash. *)
Definition check_native_hash (f : found) (u response : list Z) s : outcome (bool * login) :=
  r ← proxy_scramble_sha1 response (scramble_buff s) (drop 1 (f_password f) ++ [0]);
  match r with Some stage1 => s ← learn_sha1 u (f_sha1_pass f) stage1 s; Ok (true, s) | None => Ok (false, s) end.
Definition process_pkt_auth_swich_response (pkt : list Z) s : outcome (bool * login) :=
  if negb (Z.of_nat (length pkt) =? 24) then Ok (false, s)
  else
    let u := default [] (Conn.username (ui s)) in
    let response := drop 4 pkt ++ replicate 108 0 in
    r ← lookup_frontend u s;
    match r with
    | None => Ok (false, s)
    | Some f =>
        if bool_decide (head (f_password f) = Some 42) then check_native_hash f u response s
        else x ← proxy_scramble (scramble_buff s) (f_password f); b ← same_bytes 20 x response; Ok (b, s)
    end.
(** The plugin that COM_CHANGE_USER names. *)
Definition named_plugin (name : list Z) : outcome proxysql_auth_plugins :=
  native ← begins_with (plugin_name AUTH_MYSQL_NATIVE_PASSWORD) name;
  if (native : bool) then Ok AUTH_MYSQL_NATIVE_PASSWORD
  else
    clear_ ← begins_with (plugin_name AUTH_MYSQL_CLEAR_PASSWORD) name;
    if (clear_ : bool) then Ok AUTH_MYSQL_CLEAR_PASSWORD
    else sha2 ← begins_with (plugin_name AUTH_MYSQL_CACHING_SHA2_PASSWORD) name; Ok (if (sha2 : bool) then AUTH_MYSQL_CACHING_SHA2_PASSWORD else AUTH_UNKNOWN_PLUGIN).
Definition verify_user_pass (f : found) (u response : list Z) (n : Z) (name : list Z) s : outcome (bool * login) :=
  id ← named_plugin name;
  let s := s <| auth_plugin_id := id |> in
  let password := f_password f in
  if bool_decide (head password = Some 42) then
    match id with
    | AUTH_MYSQL_NATIVE_PASSWORD =>
        match session_type (prot s) with PROXYSQL_SESSION_MYSQL | PROXYSQL_SESSION_SQLITE => check_native_hash f u response s | _ => Ok (false, s) end
    | _ =>
        if known_session s then
          clear_ ← slice response 0 n;
          b ← double_hash_matches clear_ password;
          if (b : bool) then s ← learn_sha1 u (f_sha1_pass f) (sha1 clear_) s; Ok (true, s) else Ok (false, s)
        else Ok (false, s)
    end
  else
    match id with
    | AUTH_MYSQL_NATIVE_PASSWORD => x ← proxy_scramble (scramble_buff s) password; b ← same_bytes 20 x response; Ok (b, s)
    | AUTH_MYSQL_CLEAR_PASSWORD => Ok (strncmp_eq (length password) password response, s)
    | _ => Ok (false, s)
    end.

(** ** COM_CHANGE_USER *)
(** What follows when the password was right; [rest] follows the schema. *)
Definition user_changed (rest : list Z) s : outcome (bool * login) :=
  cs ← (if (2 <? length rest)%nat then b ← read_bytes 2 rest; Ok (le_value b) else Ok 0);
  cs ← charset_or_default cs;
  if negb (charset_known cs) then Ok (false, s)
  else
    let s := s <| default_charset := cs |> in
    spiffe ← user_attributes_has_spiffe s;
    if (spiffe : bool) then Ok (false, s)
    else
      j ← attributes_json s;
      s ← match j with Some j => set_isolation j s | None => Ok s end;
      Ok (true, announce_charset cs s).
Definition process_pkt_COM_CHANGE_USER (pkt : list Z) s : outcome (bool * login) :=
  _ ← read_bytes 4 pkt;
  let p := drop 5 pkt in
  u ← scan_string p;
  let p := drop (S (length u)) p in
  n ← read_at p 0;
  let p := drop 1 p in
  b ← slice p 0 n;
  response ← blit (replicate 128 0) 0 b;
  let p := drop (Z.to_nat n) p in
  d ← scan_string p;
  let rest := drop (S (length d)) p in
  flags ← the_client_flag s;
  let name := if (2 <? length rest)%nat && has_flag flags CLIENT_PLUGIN_AUTH then drop 2 rest else str "mysql_native_password" ++ [0] in
  let n := match last b with Some 0 => n - 1 | _ => n end in
  r ← lookup_frontend u s;
  let s := s <| default_hostgroup := match r with Some f => f_default_hostgroup f | None => -1 end |>
    <| transaction_persistent := match r with Some f => f_transaction_persistent f | None => true end |>
    <| user_attributes := f_attributes <$> r |> in
  '(ok, s) ← match r with
             | None => Ok (false, s)
             | Some f =>
                 if n =? 0 then
                   if bool_decide (f_password f = []) then Ok (true, s)
                   else
                     s ← generate_pkt_auth_switch_request (s <| switching_auth_type := AUTH_MYSQL_NATIVE_PASSWORD |> <| change_user_auth_switch := true |>);
                     Ok (false, s <| ui := userinfo_set Hash64 (Some u) None (Some d) None (ui s) |>)
                 else verify_user_pass f u response n name s
             end;
  if (ok : bool) then
    let s := choose_schema d (set_ui_user (Some u) (f_password <$> r) (set_DSS STATE_CLIENT_HANDSHAKE s)) in
    user_changed rest (rehash s)
  else Ok (false, rehash (set_ui_user (Some u) (Some []) s)).

(** ** The session *)
Definition name_of s : list Z := default [] (Conn.username (ui s)).
Definition begins (pre w : list Z) : bool := strncmp_eq (length pre) w pre.
Definition next_id s : Z := u8 (pkt_sid (prot s) + 1).
Definition send_err (id code : Z) (state msg : list Z) s : outcome login :=
  '(_, p) ← generate_pkt_ERR malloc true id code state (Some msg) (prot s); Ok (s <| prot := p |>).
Definition send_ok (id : Z) s : outcome login := '(_, p) ← generate_pkt_OK malloc true id 0 0 2 0 None false (prot s); Ok (s <| prot := p |>).
Definition using_password s : list Z := match Conn.password (ui s) with Some _ => str "YES" | None => str "NO" end.
Definition WrongCredentials s : outcome login :=
  let s := set_DSS STATE_QUERY_SENT_NET s in
  s ← match Conn.username (ui s) with
      | Some u => send_err (next_id s) 1045 (str "28000")
          (str "ProxySQL Error: Access denied for user '" ++ u ++ str "'@'" ++ client_addr ++ str "' (using password: " ++ using_password s ++ str ")") s
      | None => Ok s
      end;
  Ok (set_DSS STATE_SLEEP s).
(** Which kind of session may use the hostgroup of the user. *)
Definition may_enter s : bool :=
  match session_type (prot s) with
  | PROXYSQL_SESSION_ADMIN | PROXYSQL_SESSION_STATS => default_hostgroup s <? 0
  | PROXYSQL_SESSION_CLICKHOUSE => default_hostgroup s =? 0
  | PROXYSQL_SESSION_MYSQL | PROXYSQL_SESSION_SQLITE => 0 <=? default_hostgroup s
  | _ => false
  end || (negb (encrypted s) && begins (monitor_username env) (name_of s)).
(** The number of connections that the user may open, this one included, and the
    number that is reported. *)
Definition take_user_slot s : outcome (Z * Z * login) :=
  match session_type (prot s) with
  | PROXYSQL_SESSION_SQLITE => Ok (1, 0, s)
  | PROXYSQL_SESSION_MYSQL =>
      if use_ldap_auth s then Ok (match ldap with Some l => ldap_increase l (default [] (fe_username s)) | None => 0 end, 0, s)
      else '(free_users, used, acc) ← acc_increase (name_of s) (accounts s); Ok (free_users, default 0 used, s <| accounts := acc |>)
  | PROXYSQL_SESSION_CLICKHOUSE => Ok (clickhouse_increase (name_of s), 0, s)
  | _ => Fault AssertFail
  end.
Definition user_session s : bool :=
  match session_type (prot s) with PROXYSQL_SESSION_MYSQL | PROXYSQL_SESSION_CLICKHOUSE | PROXYSQL_SESSION_SQLITE => true | _ => false end.
(** Users that may only connect locally. *)
Definition only_locally s : bool :=
  ((default_hostgroup s =? ADMIN_HOSTGROUP) && bool_decide (name_of s = str "admin"))
  || ((default_hostgroup s =? STATS_HOSTGROUP) && bool_decide (name_of s = str "stats"))
  || ((default_hostgroup s <? 0) && bool_decide (name_of s = str "monitor")).
Definition is_local (a : list Z) : bool := bool_decide (a = str "127.0.0.1") || bool_decide (a = str "localhost") || bool_decide (a = str "::1").
Definition let_in s : login := set_DSS STATE_CLIENT_AUTH_OK (s <| sess_status := WAITING_CLIENT_DATA |>).
(** The limits, the hostgroup and TLS; the result says whether the credentials
    count as wrong and, for the cache of hosts, whether the handshake failed. *)
Definition admit_client (is_encrypted : bool) s : outcome (login * bool * option bool) :=
  let s := if is_session (session_type (prot s)) PROXYSQL_SESSION_ADMIN && ((default_hostgroup s <? 0) || begins (monitor_username env) (name_of s)) &&
              (default_hostgroup s =? STATS_HOSTGROUP)
           then s <| prot := (prot s) <| session_type := PROXYSQL_SESSION_STATS |> |> else s in
  s ← match Conn.schemaname (ui s) with
      | Some _ => Ok s
      | None =>
          match default_schema s with
          | None => Fault NullPointer
          | Some d =>
              let d := if is_session (session_type (prot s)) PROXYSQL_SESSION_CLICKHOUSE && bool_decide (d = []) then str "default" else d in
              Ok (choose_schema d (s <| default_schema := Some d |>))
          end
      end;
  '(free_users, used, s) ← (if negb (max_connections_reached s) && user_session s then take_user_slot (s <| client_authenticated := true |>) else Ok (1, 0, s));
  if max_connections_reached s || (free_users <=? 0) then
    let s := set_DSS STATE_QUERY_SENT_NET (s <| client_authenticated := false |>) in
    s ← (if max_connections_reached s then send_err (next_id s) 1040 (str "08004") (str "Too many connections") s
         else send_err 2 1226 (str "42000")
           (str "User '" ++ name_of s ++ str "' has exceeded the 'max_user_connections' resource (current value: " ++ sdec used ++ str ")") s);
    Ok (set_DSS STATE_SLEEP s, true, Some true)
  else if only_locally s then
    if is_local peer_addr then s ← send_ok (next_id s) s; Ok (let_in s, false, Some false)
    else s ← send_err (next_id s) 1040 (str "42000") (str "User '" ++ name_of s ++ str "' can only connect locally") s; Ok (s, false, Some true)
  else
    let id := if change_user_auth_switch s then 3 else next_id s in
    let s := s <| change_user_auth_switch := false |> in
    if use_ssl s && negb is_encrypted then
      s ← send_err id 1045 (str "28000") (str "ProxySQL Error: Access denied for user '" ++ name_of s ++ str "' (using password: " ++ using_password s ++ str "). SSL is required") s;
      Ok (s, true, Some true)
    else s ← send_ok id s; Ok (let_in s, false, Some false).
(** [handler___status_CONNECTING_CLIENT___STATE_SERVER_HANDSHAKE]: more is
    awaited, TLS is started, or the login is decided. *)
Definition handler_SERVER_HANDSHAKE (pkt : list Z) s : outcome (login * bool * option bool) :=
  let is_encrypted := encrypted s in
  '(ok, s) ← process_pkt_handshake_response pkt s;
  if negb ok && negb (auth_in_progress s =? 0) then Ok (s, false, None)
  else if negb ok && negb is_encrypted && encrypted s then Ok (set_DSS STATE_SSL_INIT s, false, None)
  else if (ok : bool) && may_enter s then admit_client is_encrypted s
  else s ← WrongCredentials s; Ok (s, true, Some true).
(** What [reset] and [init] of the session do to these parts of it. *)
Definition restart s : login :=
  s <| default_hostgroup := -1 |> <| transaction_persistent := false |> <| client_values := ∅ |>
    <| prot := (prot s) <| autocommit := true |> <| gtid_hid := -1 |> <| gtid_buf := [] |> |>.
(** [handler___status_WAITING_CLIENT_DATA___STATE_SLEEP___MYSQL_COM_CHANGE_USER]. *)
Definition handler_CHANGE_USER (pkt : list Z) s : outcome (login * bool) :=
  match session_type (prot s) with
  | PROXYSQL_SESSION_MYSQL | PROXYSQL_SESSION_SQLITE =>
      let s := restart s in
      s ← (if client_authenticated s && negb (use_ldap_auth s) then acc ← acc_decrease (name_of s) (accounts s); Ok (s <| accounts := acc |>) else Ok s);
      '(ok, s) ← process_pkt_COM_CHANGE_USER pkt (s <| client_authenticated := false |>);
      if (ok : bool) then
        s ← send_ok 1 s;
        '(_, _, acc) ← acc_increase (name_of s) (accounts s);
        Ok (set_DSS STATE_SLEEP (s <| sess_status := WAITING_CLIENT_DATA |> <| client_authenticated := true |> <| accounts := acc |>), false)
      else if change_user_auth_switch s then Ok (set_DSS STATE_SERVER_HANDSHAKE (s <| sess_status := CONNECTING_CLIENT |>), false)
      else
        s ← send_err 2 1045 (str "28000") (str "ProxySQL Error: Access denied for user '" ++ name_of s ++ str "'@'" ++ client_addr ++ str "' (using password: " ++ using_password s ++ str ")")
              (set_DSS STATE_QUERY_SENT_NET s);
        Ok (s, true)
  | _ => Ok (s <| prot := (prot s) <| gtid_hid := -1 |> |>, false)
  end.
End Login.
