(* ===== verification/LoginAuth.v ===== *)
(** * The users of the login are those of [Auth]

    The two groups of lib/MySQL_Authentication.cpp keep what [Login.Accounts]
    promises: the operations that logging in calls succeed on well-formed groups and
    change the account of the user and nothing else. *)
From S2P Require Import Prelude GenUtils StringUtils Auth Login.

Section Instance_.
Context (Spooky : Z → Z → list (list Z) → Z) `{HJ : Json}.
Abbreviation hash := (user_hash Spooky).
Implicit Types (a : auth) (g : group).

Definition at_ (a : auth) (t : usertype) (k : Z) : option account := bt_map (creds t a) !! k ≫= λ p, heap (creds t a) !! p.
Definition well_formed (a : auth) : Prop := ∀ t, ∃ l m, holds Spooky (creds t a) l m.
(** An operation of one of the two groups. *)
Definition on_group {B} (t : usertype) (f : group → outcome (B * group)) (a : auth) : outcome auth := '(_, g) ← f (creds t a); Ok (set_creds t g a).
Definition increase (u : list Z) (a : auth) : outcome (Z * option Z * auth) :=
  '(n, m, g) ← increase_frontend_user_connections Spooky u (creds USERNAME_FRONTEND a); Ok (n, m, set_creds USERNAME_FRONTEND g a).
Definition decrease (u : list Z) (a : auth) : outcome auth :=
  g ← decrease_frontend_user_connections Spooky u (creds USERNAME_FRONTEND a); Ok (set_creds USERNAME_FRONTEND g a).

Lemma holds_at a t l m k : holds Spooky (creds t a) l m → m !! k = at_ a t k.
Proof. intros H. apply (h_lookup _ _ _ _ H). Qed.
Lemma creds_set t t' g a : creds t' (set_creds t g a) = if decide (t' = t) then g else creds t' a.
Proof. by destruct t, t'. Qed.
Lemma set_well_formed a t g l m : well_formed a → holds Spooky g l m → well_formed (set_creds t g a).
Proof. intros Ha Hg t'. rewrite creds_set. case_decide; [by exists l, m|apply Ha]. Qed.
Lemma look_up a t u : well_formed a → lookup Spooky u (creds t a) = Ok (report <$> at_ a t (hash u)).
Proof.
  intros Ha. destruct (Ha t) as (l & m & H). rewrite <- (holds_at _ _ _ _ _ H). unfold lookup.
  by destruct (find_spec Spooky u _ l m H) as [(-> & _ & ->)|(p & x & -> & -> & _)].
Qed.
Lemma exists_at a u : well_formed a → exists_user Spooky u (creds USERNAME_FRONTEND a) = bool_decide (is_Some (at_ a USERNAME_FRONTEND (hash u))).
Proof.
  intros Ha. destruct (Ha USERNAME_FRONTEND) as (l & m & H). rewrite <- (holds_at _ _ _ _ _ H). unfold exists_user.
  destruct (find_spec Spooky u _ l m H) as [(-> & -> & _)|(p & x & -> & _ & -> & _)]; [by rewrite bool_decide_false by (by intros [])|by rewrite bool_decide_true by (by eexists)].
Qed.
(** Changing the account of a user. *)
Definition change (u : list Z) (F : account → account) (g : group) : group := match find Spooky u g with Ok (Some (p, x)) => store p (F x) g | _ => g end.
Lemma change_holds u F g l m : holds Spooky g l m → (∀ x, username (F x) = username x) → ∃ m', holds Spooky (change u F g) l m'.
Proof.
  intros H HF. unfold change. destruct (find_spec Spooky u _ _ _ H) as [(_ & _ & ->)|(p & x & Hm & -> & Hb & Hx & Hh & _)]; [by exists m|].
  eexists. apply (store_holds Spooky g l m p x (F x)); [done|done|by rewrite HF].
Qed.
Lemma change_at u F g l m k : holds Spooky g l m →
  bt_map (change u F g) !! k ≫= (λ p, heap (change u F g) !! p) = (if bool_decide (k = hash u) then F else id) <$> (bt_map g !! k ≫= λ p, heap g !! p).
Proof.
  intros H. unfold change. destruct (find_spec Spooky u _ _ _ H) as [(_ & Hb & ->)|(p & x & Hm & -> & Hb & Hx & Hh & _)].
  { case_bool_decide as E; [by rewrite E, Hb|by rewrite option_fmap_id]. }
  cbn [bt_map heap store]. case_bool_decide as E; [rewrite E, Hb; cbn; by rewrite lookup_insert_eq, Hx|]. rewrite option_fmap_id. destruct (bt_map g !! k) as [q|] eqn:Eq; [cbn|done].
  apply lookup_insert_ne. intros ->. destruct (h_map _ _ _ _ H k q Eq) as (y & Hy & Hk). congruence.
Qed.
Lemma changed a t u F : well_formed a → (∀ x, username (F x) = username x) →
  let a' := set_creds t (change u F (creds t a)) a in
  well_formed a' ∧ ∀ t' k, at_ a' t' k = (if bool_decide (t' = t ∧ k = hash u) then F else id) <$> at_ a t' k.
Proof.
  intros Ha HF. destruct (Ha t) as (l & m & H). destruct (change_holds u F _ _ _ H HF) as (m' & H'). split; [by eapply set_well_formed|]. intros t' k. unfold at_. rewrite creds_set. case_decide as E.
  - subst t'. rewrite (change_at _ _ _ _ _ _ H). f_equal. by case_bool_decide as E; [rewrite E, bool_decide_true by done|rewrite bool_decide_false by (by intros [])].
  - rewrite bool_decide_false by (by intros []). by rewrite option_fmap_id.
Qed.
(** An operation that finds the account and changes it. *)
Lemma on_group_changed a t u F f : well_formed a → (∀ x, username (F x) = username x) →
  (∀ g, f g = (r ← find Spooky u g; match r with None => Ok (false, g) | Some (p, x) => Ok (true, store p (F x) g) end)) →
  ∃ a', on_group t f a = Ok a' ∧ well_formed a' ∧ ∀ t' k, at_ a' t' k = (if bool_decide (t' = t ∧ k = hash u) then F else id) <$> at_ a t' k.
Proof.
  intros Ha HF Hf. exists (set_creds t (change u F (creds t a)) a). split; [|by apply changed]. unfold on_group, change. rewrite Hf. destruct (Ha t) as (l & m & H).
  by destruct (find_spec Spooky u _ _ _ H) as [(_ & _ & ->)|(p & x & _ & -> & _)].
Qed.
Lemma increase_ok a u : well_formed a → ∃ r a', increase u a = Ok (r, a') ∧ well_formed a' ∧ r.1 = free_slots (at_ a USERNAME_FRONTEND (hash u)) ∧
  ∀ t' k, at_ a' t' k = (if bool_decide (t' = USERNAME_FRONTEND ∧ k = hash u) then counted else id) <$> at_ a t' k.
Proof.
  intros Ha. pose proof (Ha USERNAME_FRONTEND) as (l & m & H).
  destruct (changed a USERNAME_FRONTEND u counted Ha) as [Hv Hat]. { intros x. unfold counted. by destruct (_ <? _). }
  unfold increase, increase_frontend_user_connections. unfold at_ at 1.
  unfold change in Hv, Hat. destruct (find_spec Spooky u _ _ _ H) as [(_ & Hb & Ef)|(p & x & Hm & Ef & Hb & Hx & Hh & Hp)]; rewrite Ef in Hv, Hat |- *; cbn [mbind outcome_bind].
  { eexists (_, _), _. split; [done|]. split; [done|]. by rewrite Hb. }
  rewrite Hb. cbn [mbind option_bind]. rewrite Hx. unfold counted at 1 in Hv. unfold counted at 1 in Hat. unfold free_slots. destruct (num_connections_used x <? Auth.max_connections x).
  - by eexists (_, _), _.
  - rewrite (store_same Spooky _ l m) in Hv, Hat by done. by eexists (_, _), _.
Qed.
Lemma decrease_ok a u : well_formed a → ∃ a', decrease u a = Ok a' ∧ well_formed a'.
Proof.
  intros Ha. pose proof (Ha USERNAME_FRONTEND) as (l & m & H). unfold decrease, decrease_frontend_user_connections.
  destruct (find_spec Spooky u _ _ _ H) as [(_ & Hb & ->)|(p & x & Hm & -> & Hb & Hx & Hh & Hp)]; cbn [mbind outcome_bind]; (eexists; split; [done|]); [by eapply set_well_formed|].
  destruct (0 <? num_connections_used x); [|by eapply set_well_formed].
  eapply set_well_formed; [done|]. apply (store_holds Spooky _ l m p x (set_used _ x) H Hx). done.
Qed.
#[export] Program Instance auth_accounts : Accounts auth := {|
  acc_key := hash; acc_valid := well_formed; acc_at := at_;
  acc_lookup t u a := lookup Spooky u (creds t a);
  acc_exists u a := Ok (exists_user Spooky u (creds USERNAME_FRONTEND a));
  acc_set_SHA1 t u x := on_group t (set_SHA1 Spooky u x);
  acc_set_clear t u x := on_group t (set_clear_text_password Spooky u x);
  acc_increase := increase; acc_decrease := decrease
|}.
Next Obligation. intros. by apply look_up. Qed.
Next Obligation. intros. cbn beta. by rewrite exists_at. Qed.
Next Obligation. intros. by apply on_group_changed. Qed.
Next Obligation. intros. by apply on_group_changed. Qed.
Next Obligation. intros. by apply increase_ok. Qed.
Next Obligation. intros. by apply decrease_ok. Qed.
End Instance_.
