(* ===== verification/LoginSafe.v ===== *)
(** * Logging in is safe

    [login_never_aborts]: no client can make an assertion of the login fail,
    whatever packets it sends and whatever other threads do to the users in
    between.  [login_needs_password]: who gets in has sent what the stored password
    requires. *)
From S2P Require Import Prelude StringUtils Encode ResultSet Packets Conn Auth Login LoginAuth.
Import LenEnc Scramble.

(** ** Results with a property and no failed assertion *)
Definition runs {A} (m : outcome A) (Q : A → Prop) : Prop := match m with Ok a => Q a | Fault f => f ≠ AssertFail end.
Lemma runs_bind {A B} (m : outcome A) (k : A → outcome B) Q : runs m (λ a, runs (k a) Q) → runs (m ≫= k) Q.
Proof. by destruct m. Qed.
Lemma runs_mono {A} (m : outcome A) (P Q : A → Prop) : runs m P → (∀ a, P a → Q a) → runs m Q.
Proof. destruct m; cbn; auto. Qed.
Lemma runs_via {A B} (m : outcome A) (k : A → outcome B) P Q : runs m P → (∀ a, P a → runs (k a) Q) → runs (m ≫= k) Q.
Proof. destruct m; cbn; auto. Qed.
Lemma runs_if {A} (b : bool) (m n : outcome A) Q : (b = true → runs m Q) → (b = false → runs n Q) → runs (if b then m else n) Q.
Proof. destruct b; auto. Qed.
(** Readers of memory can only be out of bounds. *)
Definition reads {A} (m : outcome A) : Prop := runs m (λ _, True).
Lemma reads_Ok {A} (a : A) : reads (Ok a).
Proof. exact I. Qed.
Lemma reads_step {A B} (m : outcome A) (k : A → outcome B) Q : reads m → (∀ a, runs (k a) Q) → runs (m ≫= k) Q.
Proof. destruct m; cbn; auto. Qed.
Lemma read_bytes_reads n p : reads (read_bytes n p).
Proof. unfold read_bytes. by case_match. Qed.
Lemma read_at_reads (p : list Z) i : reads (read_at p i).
Proof. unfold read_at. repeat (case_match; try done). Qed.
Lemma slice_reads p i n : reads (slice p i n).
Proof. unfold slice. by case_match. Qed.
Lemma blit_reads p i b : reads (blit p i b).
Proof. unfold blit. by case_match. Qed.
Lemma scan_string_reads p : reads (scan_string p).
Proof. unfold reads. induction p as [|c p IH]; [done|]. cbn [scan_string]. destruct (c =? 0); [done|]. apply runs_bind. eapply runs_mono; [exact IH|done]. Qed.
Lemma begins_with_reads lit p : reads (begins_with lit p).
Proof. revert p. induction lit as [|c lit IH]; intros [|d p]; try done. cbn [begins_with]. destruct (c =? d); [apply IH|done]. Qed.
Lemma same_bytes_reads n a b : reads (same_bytes n a b).
Proof. unfold same_bytes. apply reads_step; [apply read_bytes_reads|]. intros x. by apply reads_step; [apply read_bytes_reads|]. Qed.
Lemma CPY4_reads p : reads (CPY4 p).
Proof. unfold CPY4. by apply reads_step; [apply read_bytes_reads|]. Qed.
Lemma fmap_reads {A B} (f : A → B) (m : outcome A) : reads m → reads (f <$> m).
Proof. by destruct m. Qed.
Create HintDb login.
#[export] Hint Resolve reads_Ok read_bytes_reads read_at_reads slice_reads blit_reads scan_string_reads begins_with_reads same_bytes_reads CPY4_reads : login.
Lemma mysql_decode_length_reads p want : reads (mysql_decode_length p want).
Proof.
  unfold mysql_decode_length. apply reads_step; [auto with login|]. intros c.
  assert (∀ m : outcome Z, reads m → reads (if want then Some <$> m else Ok None)) as Hv by (intros m Hm; destruct want; [by apply fmap_reads|exact I]).
  unfold CPY1, CPY2, CPY3, CPY8. repeat (match goal with |- context [if ?b then _ else _] => match b with want => fail 1 | _ => destruct b end end; [by apply reads_step; [apply Hv, fmap_reads; auto with login|]|]). done.
Qed.
Lemma my_crypt_reads n a b : reads (proxy_my_crypt n a b).
Proof. revert a b. induction n as [|n IH]; intros [|x a] [|y b]; try done. cbn [proxy_my_crypt]. by apply reads_step; [apply IH|]. Qed.
Lemma unhex_reads n p : reads (unhex_loop n p).
Proof. revert p. induction n as [|n IH]; intros [|h [|l p]]; try done. cbn [unhex_loop]. by apply reads_step; [apply IH|]. Qed.
Lemma sha1_pass_hex_reads x : reads (sha1_pass_hex x).
Proof. destruct x as [x|]; [|done]. cbn [sha1_pass_hex]. by apply reads_step; [auto with login|]. Qed.
Section Sha.
Context `{Sha1}.
Lemma proxy_scramble_reads m w : reads (proxy_scramble m w).
Proof. unfold proxy_scramble, proxy_compute_two_stage_sha1_hash. apply reads_step; [auto with login|]. intros x. apply my_crypt_reads. Qed.
Lemma proxy_scramble_sha1_reads r m w : reads (proxy_scramble_sha1 r m w).
Proof.
  unfold proxy_scramble_sha1, unhex_pass. apply reads_step; [apply unhex_reads|]. intros x. apply reads_step; [auto with login|]. intros y. by apply reads_step; [apply my_crypt_reads|].
Qed.
Lemma double_hash_reads a b : reads (double_hash_matches a b).
Proof. unfold double_hash_matches. by apply reads_step; [apply sha1_pass_hex_reads|]. Qed.
End Sha.
#[export] Hint Resolve mysql_decode_length_reads my_crypt_reads sha1_pass_hex_reads proxy_scramble_reads proxy_scramble_sha1_reads double_hash_reads : login.

Section Safe.
Context {T : Type} `{W : World} `{HA : Accounts T} `{HS : Sha1, HS2 : Sha256, HJ : Json}.
Implicit Types (s : @login T) (v : MyProt_tmp_auth_vars).

(** ** What most steps keep *)
Record kept s s' : Prop := {
  k_stage : switching_auth_stage s' = switching_auth_stage s;
  k_type : switching_auth_type s' = switching_auth_type s;
  k_progress : auth_in_progress s' = auth_in_progress s;
  k_plugin : auth_plugin_id s' = auth_plugin_id s;
  k_sent : sent_auth_plugin_id s' = sent_auth_plugin_id s;
  k_encrypted : encrypted s' = encrypted s;
  k_conn : is_Some (myconn (prot s)) → is_Some (myconn (prot s'));
  k_name : is_Some (Conn.username (ui s)) → is_Some (Conn.username (ui s'));
  k_users : acc_valid (accounts s) → acc_valid (accounts s')
}.
Lemma kept_refl s : kept s s.
Proof. by split. Qed.
Lemma kept_trans s1 s2 s3 : kept s1 s2 → kept s2 s3 → kept s1 s3.
Proof. intros [] []. split; (congruence || auto). Qed.
Hint Resolve kept_refl : login.
Ltac by_fields := split; cbn; auto.
Lemma set_values_kept l w s : kept s (set_values l w s).
Proof. by_fields. Qed.
Lemma client_set_value_kept i w s : kept s (client_set_value i w s).
Proof.
  unfold client_set_value. eapply kept_trans; [|apply set_values_kept]. destruct (i =? SQL_CHARACTER_ACTION); [|apply kept_refl]. destruct (get_value SQL_CHARACTER_SET s); [|apply kept_refl].
  destruct (bool_decide (w = str "1")); [apply set_values_kept|]. destruct (bool_decide (w = str "2")); [|apply kept_refl]. eapply kept_trans; apply set_values_kept.
Qed.
Lemma announce_charset_kept c s : kept s (announce_charset c s).
Proof. unfold announce_charset, set_charset. cbn [foldl]. do 5 (eapply kept_trans; [|apply client_set_value_kept]). apply client_set_value_kept. Qed.
Lemma conn_attrs_kept v s : kept s (PPHR_SetConnAttrs v s).
Proof. unfold PPHR_SetConnAttrs. eapply kept_trans; [apply announce_charset_kept|]. destruct (_ && _), (v_ret_use_ssl v); by_fields. Qed.
Lemma rehash_kept s : kept s (rehash s).
Proof. by_fields. Qed.
Lemma choose_schema_kept d s : kept s (choose_schema d s).
Proof. split; cbn; auto. unfold set_schemaname. by repeat case_match. Qed.
Lemma client_set_value_prot i w s : prot (client_set_value i w s) = prot s.
Proof. unfold client_set_value. destruct (i =? SQL_CHARACTER_ACTION); [|reflexivity]. destruct (get_value SQL_CHARACTER_SET s); [|reflexivity]. destruct (bool_decide (w = str "1")); [reflexivity|]. by destruct (bool_decide (w = str "2")). Qed.
Lemma set_isolation_kept j s : runs (set_isolation j s) (λ s', kept s s' ∧ prot s' = prot s).
Proof.
  unfold set_isolation. destruct (json_find ISOLATION j) as [x|]; [|by split; [apply kept_refl|]].
  destruct (json_get_string x) as [w|]; [|done]. split; [apply client_set_value_kept|apply client_set_value_prot].
Qed.
Lemma attributes_json_reads s : reads (attributes_json s).
Proof. unfold attributes_json. by repeat case_match. Qed.
Lemma verify_kept s : runs (verify_user_attributes s) (λ '(_, s'), kept s s' ∧ prot s' = prot s).
Proof.
  unfold verify_user_attributes. apply reads_step; [apply attributes_json_reads|]. intros [j|]; [|by split; [apply kept_refl|]].
  apply reads_step; [destruct (json_find (str "spiffe_id") j) as [x|]; [by destruct (json_get_string x)|done]|]. intros ok. eapply runs_via; [apply set_isolation_kept|]. by intros s'.
Qed.
Lemma settings_kept f b s : kept s (settings_of f b s).
Proof. by_fields. Qed.
Lemma learn_sha1_kept u k h s : acc_valid (accounts s) → runs (learn_sha1 u k h s) (kept s).
Proof.
  intros HI. unfold learn_sha1. apply (runs_via _ _ acc_valid).
  - destruct k; [done|]. destruct (acc_set_SHA1_ok (accounts s) USERNAME_FRONTEND u (Some h) HI) as (t & -> & Ht & _). done.
  - intros t Ht. apply reads_step; [apply sha1_pass_hex_reads|]. intros x. by_fields.
Qed.
Lemma one_byte_kept b s : runs (one_byte b s) (kept s).
Proof.
  unfold one_byte, generate_one_byte_pkt. apply runs_bind. apply reads_step; [apply blit_reads|]. intros pkt. cbn. by_fields.
Qed.
(** A request to switch asks for a known plugin. *)
Lemma auth_switch_kept s : switching_auth_type s ≠ AUTH_UNKNOWN_PLUGIN → runs (generate_pkt_auth_switch_request s) (kept s).
Proof.
  intros Ht. unfold generate_pkt_auth_switch_request. apply reads_step; [by destruct (switching_auth_type s)|]. intros n. apply reads_step; [destruct (switching_auth_type s); auto with login|]. intros scr.
  apply reads_step; [apply blit_reads|]. intros pkt. by_fields.
Qed.

(** ** The invariant *)
Definition base s : Prop := acc_valid (accounts s) ∧ is_Some (myconn (prot s)) ∧ sent_auth_plugin_id s ≠ AUTH_UNKNOWN_PLUGIN ∧ sent_auth_plugin_id s ≠ AUTH_MYSQL_CLEAR_PASSWORD.
(** The next packet of the client is awaited. *)
Definition waiting s : Prop :=
  base s ∧
  match Conn.username (ui s) with
  | None => switching_auth_stage s = 0 ∧ auth_in_progress s = 0
  | Some _ => switching_auth_type s ≠ AUTH_UNKNOWN_PLUGIN ∧ (switching_auth_type s = AUTH_MYSQL_CACHING_SHA2_PASSWORD → switching_auth_stage s = 4)
  end.
(** The response can be judged. *)
Definition ready s : Prop :=
  base s ∧ auth_in_progress s = 0 ∧ auth_plugin_id s ≠ AUTH_UNKNOWN_PLUGIN ∧
  (auth_plugin_id s = AUTH_MYSQL_CACHING_SHA2_PASSWORD → switching_auth_stage s = 0 ∨ switching_auth_stage s = 5).
(** It was judged, or the client was asked for the password itself. *)
Definition judged s (b : bool) s' : Prop :=
  base s' ∧ encrypted s' = encrypted s ∧
  (auth_in_progress s' ≠ 0 → b = false ∧ switching_auth_type s' = AUTH_MYSQL_CACHING_SHA2_PASSWORD ∧ switching_auth_stage s' = 4).
Lemma base_kept s s' : base s → kept s s' → base s'.
Proof. intros (H1 & H2 & H3) []. unfold base. rewrite k_sent0. auto. Qed.
Lemma ready_kept s s' : ready s → kept s s' → ready s'.
Proof. intros (Hb & H) K. pose proof (base_kept _ _ Hb K). destruct K. unfold ready. by rewrite k_progress0, k_plugin0, k_stage0. Qed.
Lemma judged_kept s s' b : ready s → kept s s' → judged s b s'.
Proof. intros (Hb & Hp & _) K. split; [by eapply base_kept|]. destruct K. split; [done|]. by rewrite k_progress0, Hp. Qed.
Lemma judged_then s b s1 s2 : judged s b s1 → kept s1 s2 → judged s b s2.
Proof. intros (Hb & He & H) K. split; [by eapply base_kept|]. destruct K. split; [congruence|]. by rewrite k_progress0, k_type0, k_stage0. Qed.
Lemma judged_from s s1 b s2 : kept s s1 → judged s1 b s2 → judged s b s2.
Proof. intros K (Hb & He & H). split; [done|]. destruct K. split; [congruence|done]. Qed.

(** The documented behaviour of sha256_crypt_r, and a character set that exists. *)
Context (crypt_has_dollar : ∀ key salt, after_last_dollar (sha256_crypt key salt) ≠ None) (default_exists : is_Some default_charset_nr).

Lemma learned v s u k h : ready s → runs (learn_sha1 u k h s) (λ s', judged s true s').
Proof. intros Hr. eapply runs_mono; [apply learn_sha1_kept, Hr|]. intros s' K. by apply judged_kept. Qed.
Lemma asked_for_password f pf v s : ready s → auth_plugin_id s = AUTH_MYSQL_CACHING_SHA2_PASSWORD →
  (pf = AUTH_MYSQL_NATIVE_PASSWORD ∨ pf = AUTH_MYSQL_CACHING_SHA2_PASSWORD ∧ is_crypt (f_password f) = true) →
  runs (PPHR_sha2full f pf v s) (λ '(b, _, s'), judged s b s').
Proof using crypt_has_dollar.
  intros Hr Hid Hpf. unfold PPHR_sha2full. destruct Hr as (Hb & Hp & Hu & Hst). destruct (Hst Hid) as [-> | ->]; cbn [Z.eqb].
  - eapply runs_via; [apply one_byte_kept|]. intros s' K. pose proof (base_kept _ _ Hb K). destruct K. split; [done|]. cbn. split; [done|]. intros _. by rewrite k_plugin0.
  - change (5 =? 0) with false. change (5 =? 5) with true. cbn iota. apply reads_step.
    + destruct Hpf as [-> | [-> Hc]]; [apply reads_step; [auto with login|]; intros c; apply double_hash_reads|]. apply andb_prop in Hc as [-> _]. unfold crypt_matches. specialize (crypt_has_dollar (cstr (pass v)) (crypt_salt (f_password f))). by destruct (after_last_dollar _).
    + intros b. destruct (b && known_session s).
      * destruct (acc_set_clear_ok (accounts s) USERNAME_FRONTEND (user v) (Some (cstr (pass v))) (proj1 Hb)) as (t & -> & Ht & _). cbn. split; [by destruct Hb as (_ & ?)|]. by cbn.
      * split; [done|]. by cbn.
Qed.
Lemma native_checked f v s : ready s → runs (PPHR_7auth1 f v s) (λ '(b, s'), judged s b s').
Proof.
  intros Hr. unfold PPHR_7auth1. destruct (known_session s); [|by apply judged_kept]. apply reads_step; [auto with login|]. intros [h|]; [|by apply judged_kept].
  eapply runs_via; [by apply learned|]. by intros s'.
Qed.
Lemma hash_checked f v s : ready s → runs (PPHR_7auth2 f v s) (λ '(b, s'), judged s b s').
Proof.
  intros Hr. unfold PPHR_7auth2. destruct (known_session s); [|by apply judged_kept]. apply reads_step; [auto with login|]. intros c. apply reads_step; [auto with login|].
  intros [|]; [|by apply judged_kept]. eapply runs_via; [by apply learned|]. by intros s'.
Qed.
Lemma clear_checked w v s : ready s → runs (check_clear w v s) (λ '(b, s'), judged s b s').
Proof.
  intros Hr. unfold check_clear. destruct (auth_plugin_id s) eqn:Hid; [by destruct Hr as (_ & _ & ? & _)| | |].
  - apply reads_step; [auto with login|]. intros r. apply reads_step; [auto with login|]. intros b. by apply judged_kept.
  - by apply judged_kept.
  - destruct (switching_auth_stage s =? 5); [by apply judged_kept|]. unfold PPHR_6auth2. apply reads_step; [destruct (known_session s); [apply reads_step; [auto with login|]; intros scr; apply same_bytes_reads|done]|].
    intros b. destruct (b && (switching_auth_stage s =? 0)) eqn:E; [|by apply judged_kept]. eapply runs_via; [apply one_byte_kept|]. intros s' K. by apply judged_kept.
Qed.
Lemma password_checked f v s : ready s → runs (check_password f v s) (λ '(b, _, s'), judged s b s').
Proof using crypt_has_dollar.
  intros Hr. unfold check_password. destruct (pass_len v =? 0); [by apply judged_kept|]. destruct (is_plugin (auth_plugin_id s) AUTH_MYSQL_CACHING_SHA2_PASSWORD && is_crypt (f_password f)) eqn:E.
  - apply andb_prop in E as [E1%bool_decide_eq_true E2]. apply asked_for_password; [done|done|by right].
  - destruct (bool_decide (head (f_password f) = Some 42)).
    + destruct (auth_plugin_id s) eqn:Hid; [by destruct Hr as (_ & _ & ? & _)| | |].
      * eapply runs_via; [by apply native_checked|]. by intros [b s'].
      * eapply runs_via; [by apply hash_checked|]. by intros [b s'].
      * apply asked_for_password; [done|done|by left].
    + eapply runs_via; [by apply clear_checked|]. by intros [b s'].
Qed.
Lemma monitor_checked v s : ready s → runs (PPHR_5passwordFalse_0 v s) (λ '(b, v', s'), judged s b s' ∧ (b = true → is_Some (v_password v'))).
Proof.
  intros Hr. unfold PPHR_5passwordFalse_0. destruct (bool_decide _); [|by split; [apply judged_kept|]]. apply reads_step; [auto with login|]. intros r. apply reads_step; [auto with login|].
  intros [|]; (split; [apply judged_kept; [done|by_fields]|]); [by eexists|done].
Qed.
Lemma ldap_checked v s : ready s → runs (PPHR_5passwordFalse_auth2 v s) (λ '(b, v', s'), judged s b s' ∧ (b = true → is_Some (v_password v'))).
Proof.
  intros Hr. unfold PPHR_5passwordFalse_auth2. destruct ldap as [l|]; [|by split; [apply judged_kept|]]. destruct (ldap_lookup _ _ _) as [[f b]|]; [|by split; [apply judged_kept; [|by_fields]|]].
  set (s1 := settings_of f (f_fast_forward f) _). assert (kept s s1) as K1 by by_fields. destruct (bool_decide _); [|by split; [apply judged_kept|]].
  destruct b as [b|]; [|by split; [apply judged_kept|]]. rewrite acc_lookup_ok by apply (ready_kept _ _ Hr K1). cbn [mbind outcome_bind]. destruct (report <$> _) as [g|]; [|by split; [apply judged_kept|]].
  set (s2 := _ <| ui := _ |>). assert (kept s s2) as K2 by (eapply kept_trans; [exact K1|]; by_fields). eapply runs_via; [by eapply learned, ready_kept|]. intros s' Hj. split; [|by eexists].
  eapply judged_from; [exact K2|]. eapply judged_then; [exact Hj|]. by_fields.
Qed.
Lemma judges v s : ready s → runs (do_auth v s) (λ '(b, v', s'), judged s b s' ∧ (b = true → is_Some (v_password v'))).
Proof using crypt_has_dollar.
  intros Hr. unfold do_auth. destruct (charset_known (charset v)); [|by split; [apply judged_kept|]]. set (s1 := s <| default_charset := charset v |>). assert (kept s s1) as K1 by by_fields.
  pose proof (ready_kept _ _ Hr K1) as Hr1. assert (∃ r, lookup_frontend (user v) s1 = Ok r) as [r ->]. { unfold lookup_frontend. destruct (is_session _ _); [by eexists|]. rewrite acc_lookup_ok by apply Hr1. by eexists. }
  cbn [mbind outcome_bind]. destruct r as [f|].
  - set (s2 := PPHR_5passwordTrue f s1). assert (kept s s2) as K2 by (eapply kept_trans; [exact K1|]; apply settings_kept). eapply runs_via; [by apply password_checked, (ready_kept s)|].
    intros [[b pw] s'] Hj. split; [by eapply judged_from|]. by eexists.
  - assert (∀ m, runs m (λ '(b, v', s'), judged s1 b s' ∧ (b = true → is_Some (v_password v'))) → runs m (λ '(b, v', s'), judged s b s' ∧ (b = true → is_Some (v_password v')))) as Hm.
    { intros m Hm. eapply runs_mono; [exact Hm|]. intros [[b v'] s'] [Hj ?]. split; [by eapply judged_from|done]. }
    destruct (session_type (prot s1)); try (by apply Hm, monitor_checked); (destruct (is_plugin _ _); [by apply Hm, ldap_checked|]; split; [by apply judged_kept|done]).
Qed.
Lemma kept_name_Some v s : is_Some (kept_name v s).
Proof. unfold kept_name. by destruct (Conn.username (ui s)). Qed.
Lemma finishes b v s : (b = true → is_Some (v_password v)) →
  runs (finish b v s) (λ '(b', s'), kept s s' ∧ is_Some (Conn.username (ui s')) ∧ (b' = true → b = true ∧ DSS (prot s') = STATE_CLIENT_HANDSHAKE)).
Proof.
  intros Hb. unfold finish. set (s1 := PPHR_SetConnAttrs v s). pose proof (conn_attrs_kept v s) as K1. fold s1 in K1. destruct b.
  - destruct (Hb eq_refl) as [pw ->]. set (s2 := set_ui_user _ _ _). assert (kept s1 s2) as K2 by (by_fields; intros _; apply kept_name_Some).
    assert (is_Some (Conn.username (ui s2))) as Hn by apply kept_name_Some.
    set (s3 := match db v with Some d => choose_schema d s2 | None => s2 end). assert (kept s2 s3) as K3 by (subst s3; destruct (db v); [apply choose_schema_kept|apply kept_refl]).
    assert (DSS (prot s3) = STATE_CLIENT_HANDSHAKE) as HD by (subst s3; by destruct (db v)). eapply runs_mono; [exact (verify_kept (rehash s3))|]. intros [b' s'] [K4 HD']. cbn in HD'.
    assert (kept s1 (rehash s3)) as K5 by (eapply kept_trans; [exact K2|]; eapply kept_trans; [exact K3|]; apply rehash_kept).
    split; [eapply kept_trans; [exact K1|]; eapply kept_trans; [exact K5|exact K4]|]. split; [|by rewrite HD']. apply (k_name _ _ K4), (k_name _ _ (rehash_kept s3)), (k_name _ _ K3), Hn.
  - set (s2 := set_ui_user _ _ _). assert (kept s1 s2) as K2 by (by_fields; intros _; apply kept_name_Some). split; [eapply kept_trans; [exact K1|]; eapply kept_trans; [exact K2|]; apply rehash_kept|].
    split; [|done]. apply (k_name _ _ (rehash_kept s2)), kept_name_Some.
Qed.

(** ** One packet *)
Lemma answer_read p len v s u : waiting s → Conn.username (ui s) = Some u →
  runs (PPHR_1 p len v s) (λ '(go, v', s'), base s' ∧ encrypted s' = encrypted s ∧ auth_in_progress s' = 0 ∧ (go = true → ready s')).
Proof.
  intros (Hb & Hw) Hu. rewrite Hu in Hw. destruct Hw as [Ht Hst]. unfold PPHR_1.
  set (s1 := if switching_auth_stage s =? 1 then _ else s). set (s2 := if switching_auth_stage s1 =? 4 then _ else s1). set (s3 := s2 <| auth_in_progress := 0 |>).
  assert (base s3 ∧ encrypted s3 = encrypted s ∧ switching_auth_type s3 = switching_auth_type s ∧ (switching_auth_stage s = 4 → switching_auth_stage s3 = 5)) as (Hb3 & He3 & Ht3 & H5).
  { subst s3 s2 s1. destruct (Z.eqb_spec (switching_auth_stage s) 1) as [E|E]; [|destruct (Z.eqb_spec (switching_auth_stage s) 4)]; (split; [exact Hb|]); cbn; split_and!; try done; by rewrite E. }
  destruct (len =? 5); [by split_and!|]. set (s4 := s3 <| auth_plugin_id := _ |>). apply reads_step; [destruct (is_plugin _ _); [done|apply reads_step; [auto with login|done]]|]. intros n. apply reads_step; [auto with login|]. intros b.
  unfold the_client_flag. destruct Hb3 as (Hv & [o Ho] & Hs). change (myconn (prot s4)) with (myconn (prot s3)). rewrite Ho. cbn [mbind outcome_bind runs].
  assert (base s4) as Hb4 by (split; [exact Hv|]; split; [by exists o|exact Hs]). split; [exact Hb4|]. split; [exact He3|]. split; [done|]. intros _. split; [exact Hb4|]. split; [done|]. change (auth_plugin_id s4) with (switching_auth_type s3). change (switching_auth_stage s4) with (switching_auth_stage s3). rewrite Ht3. split; [exact Ht|]. intros E. right. auto.
Qed.
Lemma first_read p len v s :
  runs (PPHR_2 p len v s) (λ '(go, v', s'), kept (s <| encrypted := encrypted s' |>) s' ∧ ui s' = ui s ∧ (go = true → encrypted s' = encrypted s)).
Proof using default_exists.
  unfold PPHR_2. apply reads_step; [auto with login|]. intros caps. set (c2 := if enable_client_deprecate_eof env then _ else _). apply reads_step; [auto with login|]. intros mx. apply reads_step; [auto with login|]. intros cs.
  set (s1 := (set_client_flag c2 s) <| max_allowed_pkt := mx |>).
  assert (∀ e, kept (s <| encrypted := e |>) (s1 <| encrypted := e |>)) as K by (intros e; by_fields; unfold set_client_flag; cbn; by destruct (myconn (prot s))).
  destruct (negb (encrypted s1) && (len =? 36)); [split; [exact (K true)|by split]|]. apply reads_step. { unfold charset_or_default. destruct default_exists as [n ->]. by destruct (cs =? 0). }
  intros cs'. set (s2 := s1 <| tmp_charset := cs' |>). assert (kept (s <| encrypted := encrypted s2 |>) s2) as K2 by (eapply kept_trans; [exact (K (encrypted s1))|]; by_fields).
  apply reads_step; [auto with login|]. intros u. apply reads_step.
  { unfold response_length. destruct (has_flag _ CLIENT_PLUGIN_AUTH_LENENC_CLIENT_DATA); [apply reads_step; [auto with login|]; intros [w [n|]]; done|]. destruct (has_flag _ CLIENT_SECURE_CONNECTION); (apply reads_step; [auto with login|done]). }
  intros [n p']. destruct (Z.of_nat (length p') <? n); [split; [exact K2|by split]|]. apply reads_step; [auto with login|]. intros b. destruct (has_flag c2 CLIENT_CONNECT_WITH_DB); (split; [exact K2|by split]).
Qed.
Lemma plugin_detected v s : sent_auth_plugin_id s ≠ AUTH_UNKNOWN_PLUGIN → sent_auth_plugin_id s ≠ AUTH_MYSQL_CLEAR_PASSWORD → auth_plugin_id s = AUTH_UNKNOWN_PLUGIN →
  runs (PPHR_3 v s) (λ s', ∃ i, s' = s <| auth_plugin_id := i |> ∧ (sent_auth_plugin_id s = AUTH_MYSQL_NATIVE_PASSWORD → i ≠ AUTH_MYSQL_CACHING_SHA2_PASSWORD)).
Proof.
  intros H1 H2 Hid. unfold PPHR_3. destruct (auth_plugin v) as [name|]; [|by exists AUTH_MYSQL_NATIVE_PASSWORD]. rewrite Hid. cbn [is_plugin]. change (is_plugin AUTH_UNKNOWN_PLUGIN AUTH_UNKNOWN_PLUGIN) with true. cbn iota.
  apply (runs_via _ _ (λ i, sent_auth_plugin_id s = AUTH_MYSQL_NATIVE_PASSWORD → i ≠ AUTH_MYSQL_CACHING_SHA2_PASSWORD)); [|intros i Hi; by exists i].
  unfold detect_plugin. apply reads_step; [auto with login|]. intros [|]; [done|]. apply reads_step; [auto with login|]. intros [|]; [done|]. apply reads_step; [auto with login|]. intros [|]; [|done].
  by destruct (sent_auth_plugin_id s).
Qed.
Lemma asked_to_switch v s t : base s → (t = AUTH_MYSQL_NATIVE_PASSWORD ∨ t = AUTH_MYSQL_CLEAR_PASSWORD) → switching_auth_type s = t →
  runs (generate_pkt_auth_switch_request s) (λ s', waiting (remember_user v s') ∧ encrypted s' = encrypted s).
Proof.
  intros Hb Ht Hty. eapply runs_mono; [apply auth_switch_kept; rewrite Hty; by destruct Ht as [-> | ->]|]. intros s' K. split; [|apply K].
  split; [eapply base_kept; [exact Hb|]; eapply kept_trans; [exact K|]; by_fields|]. cbn. rewrite (k_type _ _ K), Hty. by destruct Ht as [-> | ->].
Qed.
Lemma switched v s : base s → switching_auth_stage s = 0 → auth_in_progress s = 0 → (sent_auth_plugin_id s = AUTH_MYSQL_NATIVE_PASSWORD → auth_plugin_id s ≠ AUTH_MYSQL_CACHING_SHA2_PASSWORD) →
  runs (may_switch v s) (λ '(go, s'), encrypted s' = encrypted s ∧ if (go : bool) then ready s' else waiting s').
Proof.
  intros Hb Hst Hp Hid. assert (reads (user_exists v s) ∧ ∀ s', base s' → reads (user_exists v s')) as [_ He].
  { assert (∀ s', base s' → reads (user_exists v s')) as H; [|by split; [apply H|]]. intros s' Hb'. unfold user_exists. destruct ldap; [|done]. destruct (is_session _ _); [done|]. by rewrite acc_exists_ok by apply Hb'. }
  assert (runs (PPHR_4auth0 v s) (λ '(go, s'), encrypted s' = encrypted s ∧ if (go : bool) then ready s' else waiting s')) as H0.
  { unfold PPHR_4auth0. rewrite Hst. cbn [Z.eqb]. apply reads_step; [by apply He|]. intros e. eapply runs_via; [eapply (asked_to_switch v _ (if e then _ else _)); [exact Hb| |reflexivity]; destruct e; auto|].
    intros s' [Hw HE]. by split. }
  unfold may_switch. pose proof Hb as (Hv & Hc & Hs1 & Hs2). assert (∀ s', kept s s' → auth_plugin_id s = AUTH_MYSQL_NATIVE_PASSWORD ∨ auth_plugin_id s = AUTH_MYSQL_CLEAR_PASSWORD ∨ auth_plugin_id s = AUTH_MYSQL_CACHING_SHA2_PASSWORD → ready s') as Hr.
  { intros s' K Hi. eapply ready_kept; [|exact K]. split; [done|]. split; [done|]. split; [by destruct Hi as [-> | [-> | ->]]|auto]. }
  destruct (sent_auth_plugin_id s) eqn:Hs; [done| |done|]; destruct (auth_plugin_id s) eqn:Hi; try done; try (split; [done|]; apply Hr; [apply kept_refl|auto]).
  - unfold PPHR_4auth1. destruct (bool_decide (is_Some ldap) && (switching_auth_stage s =? 0)); [|split; [done|]; apply Hr; [apply kept_refl|auto]].
    apply reads_step; [by apply He|]. intros [|]; [split; [done|]; apply Hr; [apply kept_refl|auto]|].
    eapply runs_via; [eapply (asked_to_switch v _ AUTH_MYSQL_CLEAR_PASSWORD); [exact Hb|by right|reflexivity]|]. intros s' [Hw HE]. by split.
  - by exfalso; apply Hid.
  - rewrite Hp, Hst. cbn. split; [done|]. apply Hr; [apply kept_refl|auto].
Qed.
Definition processed s (b : bool) s' : Prop :=
  base s' ∧ (auth_in_progress s' ≠ 0 → b = false ∧ waiting s') ∧ (encrypted s' ≠ encrypted s → waiting s') ∧ (b = true → DSS (prot s') = STATE_CLIENT_HANDSHAKE).
Lemma decided v s s0 : ready s → encrypted s = encrypted s0 → runs ('(b, v, s) ← do_auth v s; finish b v s) (λ '(b, s'), processed s0 b s').
Proof using crypt_has_dollar.
  intros Hr He. eapply runs_via; [by apply judges|]. intros [[b v'] s1] [Hj Hpw]. eapply runs_mono; [by apply finishes|]. intros [b' s'] (K & Hn & Hd).
  pose proof (judged_then _ _ _ _ Hj K) as (Hb & He' & Hp). split; [exact Hb|]. split; [|split; [congruence|by intros [_ ?]%Hd]].
  intros H. destruct (Hp H) as (-> & Ht & Hst). split; [destruct b'; [by destruct (Hd eq_refl)|done]|]. split; [exact Hb|]. destruct (Conn.username (ui s')); [|by destruct Hn]. by rewrite Ht, Hst.
Qed.
Lemma processes pkt s : waiting s → runs (process_pkt_handshake_response pkt s) (λ '(b, s'), processed s b s').
Proof using crypt_has_dollar default_exists.
  intros Hw. pose proof Hw as [Hb Hn]. unfold process_pkt_handshake_response. set (s1 := s <| auth_plugin_id := AUTH_UNKNOWN_PLUGIN |>). assert (waiting s1) as Hw1 by exact Hw.
  assert (∀ s', base s' → encrypted s' = encrypted s → auth_in_progress s' = 0 → processed s false s') as Hstop by (intros s' H1 H2 H3; split; [done|]; split; [by rewrite H3|]; split; [by rewrite H2|done]).
  assert (∀ s', waiting s' → processed s false s') as Hwait by (intros s' H; split; [apply H|by split_and!]).
  apply reads_step; [auto with login|]. intros hd. apply reads_step; [auto with login|]. intros id. apply reads_step; [destruct (id =? 0); [apply reads_step; [auto with login|done]|done]|].
  intros [|]; [by apply Hwait|]. change (ui s1) with (ui s). destruct (Conn.username (ui s)) as [u|] eqn:Hu.
  - eapply runs_via; [by eapply answer_read|]. intros [[go v] s2] (Hb2 & He2 & Hp2 & Hr). destruct go; [|by apply Hstop]. apply decided; [auto|done].
  - eapply (runs_via _ _ (λ '(go, v, s'), if (go : bool) then ready s' ∧ encrypted s' = encrypted s else processed s false s')).
    + eapply runs_via; [apply first_read|]. intros [[go v] s2] (K & Hui & He). destruct Hn as [Hst Hp].
      assert (switching_auth_stage s2 = 0 ∧ auth_in_progress s2 = 0) as [Hst2 Hp2] by (destruct K; cbn in *; by rewrite k_stage0, k_progress0).
      assert (base s2) as Hb2 by (eapply base_kept; [|exact K]; exact Hb). destruct go; [specialize (He eq_refl)|by apply Hwait; split; [done|]; rewrite Hui; change (ui s1) with (ui s); rewrite Hu].
      eapply runs_via; [apply plugin_detected; [apply Hb2|apply Hb2|by rewrite (k_plugin _ _ K)]|]. intros s3 (i & -> & Hi). eapply runs_via; [by apply switched|]. intros [[|] s4] [He4 H4].
      * split; [done|]. rewrite He4. exact He.
      * by apply Hwait.
    + intros [[[|] v] s2]; [|done]. intros [Hr He]. by apply decided.
Qed.

(** ** The session *)
Lemma send_ok_reads id s : DSS (prot s) = STATE_CLIENT_HANDSHAKE → reads (send_ok id s).
Proof.
  intros Hd. unfold send_ok. apply reads_step; [|by intros [? ?]]. unfold generate_pkt_OK. destruct (mirror (prot s)); [exact I|]. apply reads_step; [exact I|]. intros a. apply reads_step; [exact I|]. intros i.
  apply reads_step; [exact I|]. intros m. apply reads_step; [destruct (tracks_gtid (prot s)); [|exact I]; apply reads_step; [destruct (_ =? 0); [exact I|apply reads_step; [auto with login|done]]|done]|]. intros g.
  apply reads_step; [apply blit_reads|]. intros pkt. destruct (session_type (prot s)); cbn; by rewrite Hd.
Qed.
Lemma send_err_reads id c st m s : DSS (prot s) = STATE_CLIENT_HANDSHAKE ∨ DSS (prot s) = STATE_QUERY_SENT_NET → reads (send_err id c st m s).
Proof.
  intros Hd. unfold send_err. apply reads_step; [|by intros [? ?]]. unfold generate_pkt_ERR. destruct (mirror (prot s)); [exact I|]. apply reads_step; [auto with login|]. intros b. apply reads_step; [apply blit_reads|]. intros pkt.
  cbn. by destruct Hd as [-> | ->].
Qed.
Lemma wrong_reads s : reads (WrongCredentials s).
Proof. unfold WrongCredentials. apply reads_step; [|done]. destruct (Conn.username _); [apply send_err_reads; by right|done]. Qed.
Lemma slot_reads s : acc_valid (accounts s) → user_session s = true → runs (take_user_slot s) (λ '(_, _, s'), prot s' = prot s).
Proof.
  intros HI Hs. unfold take_user_slot, user_session in *. destruct (session_type (prot s)); try done. destruct (use_ldap_auth s); [done|]. destruct (acc_increase_ok (accounts s) (name_of s) HI) as ([n o] & t & -> & _). done.
Qed.
Lemma admits e s : base s → DSS (prot s) = STATE_CLIENT_HANDSHAKE → reads (admit_client e s).
Proof.
  intros Hb Hd. unfold admit_client. set (s1 := if _ && (default_hostgroup s =? STATS_HOSTGROUP) then _ else s). assert (acc_valid (accounts s1) ∧ DSS (prot s1) = STATE_CLIENT_HANDSHAKE) as [Hv1 Hd1] by (subst s1; destruct (_ && _); split; try done; apply Hb).
  apply (runs_via _ _ (λ s2, acc_valid (accounts s2) ∧ DSS (prot s2) = STATE_CLIENT_HANDSHAKE)).
  { destruct (Conn.schemaname (ui s1)); [done|]. by destruct (default_schema s1). }
  intros s2 [Hv2 Hd2]. apply (runs_via _ _ (λ '(_, _, s3), DSS (prot s3) = STATE_CLIENT_HANDSHAKE)).
  { destruct (negb (max_connections_reached s2) && user_session s2) eqn:E; [|done]. apply andb_prop in E as [_ E]. eapply runs_mono; [by apply slot_reads|]. intros [[n o] s3]. by intros ->. }
  intros [[n o] s3] Hd3. destruct (max_connections_reached s3 || (n <=? 0)).
  { apply reads_step; [|done]. cbn. destruct (max_connections_reached s3); apply send_err_reads; by right. }
  destruct (only_locally s3). { destruct (is_local peer_addr); (apply reads_step; [apply send_ok_reads || apply send_err_reads; auto|done]). }
  destruct (use_ssl _ && negb e); (apply reads_step; [apply send_ok_reads || apply send_err_reads; auto|done]).
Qed.
(** The packets of a client, before each of which other threads may have changed
    the users, up to the decision. *)
Fixpoint conversation (l : list (T * list Z)) s : outcome (@login T * bool * option bool) :=
  match l with
  | [] => Ok (s, false, None)
  | (t, pkt) :: l' =>
      '(s, wrong, decision) ← handler_SERVER_HANDSHAKE pkt (s <| accounts := t |>);
      match decision with Some _ => Ok (s, wrong, decision) | None => conversation l' s end
  end.
Lemma one_packet pkt s : waiting s → runs (handler_SERVER_HANDSHAKE pkt s) (λ '(s', _, decision), decision = None → waiting s').
Proof using crypt_has_dollar default_exists.
  intros Hw. unfold handler_SERVER_HANDSHAKE. eapply runs_via; [by apply processes|]. intros [b s1] (Hb & Hp & He & Hd).
  destruct (negb b && negb (auth_in_progress s1 =? 0)) eqn:E1. { apply andb_prop in E1 as [_ E1]. apply negb_true_iff, Z.eqb_neq in E1. intros _. by apply Hp. }
  destruct (negb b && negb (encrypted s) && encrypted s1) eqn:E2. { apply andb_prop in E2 as [[_ E2]%andb_prop E3]. intros _. apply negb_true_iff in E2. apply He. congruence. }
  assert (∀ m : outcome (@login T * bool * option bool), reads m → (∀ r, m = Ok r → r.2 ≠ None) → runs m (λ '(s', _, decision), decision = None → waiting s')) as Hm.
  { intros [[[s2 w] d]|f] H1 H2; [|exact H1]. intros ->. by destruct (H2 _ eq_refl). }
  destruct (b && may_enter s1) eqn:E3; apply Hm.
  - apply admits; [done|]. apply Hd. by apply andb_prop in E3 as [-> _].
  - intros r. unfold admit_client. intros Hr. inv_ok. repeat match goal with H : context [match ?x with _ => _ end] |- _ => destruct x end; inv_ok; done.
  - apply reads_step; [apply wrong_reads|done].
  - intros r Hr. by inv_ok.
Qed.
(** A connection that was just accepted. *)
Definition new_connection s : Prop :=
  acc_valid (accounts s) ∧ is_Some (myconn (prot s)) ∧ Conn.username (ui s) = None ∧ switching_auth_stage s = 0 ∧ auth_in_progress s = 0.
Lemma greeted caps tid coll random dep s s' : new_connection s → generate_pkt_initial_handshake caps tid coll random dep s = Ok s' → waiting s'.
Proof.
  intros (Hv & Hc & Hn & Hst & Hp). unfold generate_pkt_initial_handshake. destruct (default_plugin env) eqn:Hd; try done; intros H; inv_ok; (split; [split; [exact Hv|]; split; [exact Hc|]; cbn; first [done | by rewrite Hd]|]); cbn; by rewrite Hn.
Qed.

(** C9: Whatever packets a client sends after the greeting, and whatever other threads
    do to the users meanwhile, no assertion of the login fails, up to the decision;
    sha256_crypt_r is relied on for the dollar before the hash, and the configured
    character set must exist. *)
Theorem login_never_aborts caps tid coll random dep s0 s l : new_connection s0 → generate_pkt_initial_handshake caps tid coll random dep s0 = Ok s →
  Forall (λ x, acc_valid x.1) l → conversation l s ≠ Fault AssertFail.
Proof using crypt_has_dollar default_exists.
  intros H0 Hg Hl. pose proof (greeted _ _ _ _ _ _ _ H0 Hg) as Hw. clear Hg H0 s0. assert (reads (conversation l s)) as H; [|intros E; by rewrite E in H]. revert s Hw. induction Hl as [|[t pkt] l Ht Hl IH]; intros s Hw; [exact I|].
  cbn [conversation]. cbn in Ht. eapply runs_via; [apply one_packet; destruct Hw as [(_ & Hb) Hw]; split; [by split|exact Hw]|]. intros [[s1 w] [d|]] H1; [exact I|]. apply IH. auto.
Qed.

(** ** Who gets in *)
(** The connections counted for every user and their limits stay. *)
Definition limits (a : account) : Z * Z := (num_connections_used a, Auth.max_connections a).
Definition counts_kept (t t' : T) : Prop := acc_valid t' ∧ ∀ k, limits <$> acc_at t' USERNAME_FRONTEND k = limits <$> acc_at t USERNAME_FRONTEND k.
Lemma counts_changed t t' ut u (F : account → account) : acc_valid t' → (∀ a, limits (F a) = limits a) →
  (∀ ut' k, acc_at t' ut' k = (if bool_decide (ut' = ut ∧ k = acc_key u) then F else id) <$> acc_at t ut' k) → counts_kept t t'.
Proof. intros Hv HF H. split; [done|]. intros k. rewrite H. destruct (acc_at t _ k); [cbn|done]. f_equal. by case_bool_decide. Qed.
(** What the later steps leave alone. *)
Record same s s' : Prop := {
  s_session : session_type (prot s') = session_type (prot s);
  s_scramble : scramble_buff s' = scramble_buff s;
  s_x509 : x509_subject_alt_name s' = x509_subject_alt_name s;
  s_full : max_connections_reached s' = max_connections_reached s;
  s_hostgroup : default_hostgroup s' = default_hostgroup s;
  s_attributes : user_attributes s' = user_attributes s;
  s_ssl : use_ssl s' = use_ssl s;
  s_name : Conn.username (ui s') = Conn.username (ui s);
  s_counts : acc_valid (accounts s) → counts_kept (accounts s) (accounts s')
}.
Lemma counts_refl t : acc_valid t → counts_kept t t.
Proof. by split. Qed.
Hint Resolve counts_refl : core.
Lemma same_refl s : same s s.
Proof. by split. Qed.
Lemma same_trans s1 s2 s3 : same s1 s2 → same s2 s3 → same s1 s3.
Proof. intros [] []. split; try congruence. intros H. destruct (s_counts0 H) as [H1 E1], (s_counts1 H1) as [H2 E2]. split; [done|]. intros k. by rewrite E2. Qed.
Hint Resolve same_refl : login.
Lemma set_values_same l w s : same s (set_values l w s).
Proof. by_fields. Qed.
Lemma client_set_value_same i w s : same s (client_set_value i w s).
Proof.
  unfold client_set_value. eapply same_trans; [|apply set_values_same]. destruct (i =? SQL_CHARACTER_ACTION); [|apply same_refl]. destruct (get_value SQL_CHARACTER_SET s); [|apply same_refl].
  destruct (bool_decide (w = str "1")); [apply set_values_same|]. destruct (bool_decide (w = str "2")); [|apply same_refl]. eapply same_trans; apply set_values_same.
Qed.
Lemma announce_charset_same c s : same s (announce_charset c s).
Proof. unfold announce_charset, set_charset. cbn [foldl]. do 5 (eapply same_trans; [|apply client_set_value_same]). apply client_set_value_same. Qed.
Lemma learn_sha1_same u k h s s' : learn_sha1 u k h s = Ok s' → same s s'.
Proof.
  unfold learn_sha1. intros H. inv_ok. by_fields. intros Hv. destruct k; [injection E as <-; by apply counts_refl|].
  destruct (acc_set_SHA1_ok (accounts s) USERNAME_FRONTEND u (Some h) Hv) as (t & E' & Ht & Hat). rewrite E' in E. injection E as <-. by apply (counts_changed _ _ USERNAME_FRONTEND u (set_sha1 (take 20 <$> Some h))).
Qed.
Lemma one_byte_same b s s' : one_byte b s = Ok s' → same s s'.
Proof. unfold one_byte, generate_one_byte_pkt. intros H. inv_ok. by_fields. Qed.
Lemma set_isolation_same j s s' : set_isolation j s = Ok s' → same s s'.
Proof. unfold set_isolation. destruct (json_find _ _) as [x|]; [|by intros [= <-]]. destruct (json_get_string x); [|done]. intros [= <-]. apply client_set_value_same. Qed.
Lemma verify_same s b s' : verify_user_attributes s = Ok (b, s') → same s s'.
Proof. unfold verify_user_attributes. intros H. inv_ok. destruct a as [j|]; inv_ok; [by eapply set_isolation_same|apply same_refl]. Qed.

(** The client was asked for the password itself. *)
Definition in_clear (plugin : proxysql_auth_plugins) (full : bool) : Prop :=
  plugin = AUTH_MYSQL_CLEAR_PASSWORD ∨ plugin = AUTH_MYSQL_CACHING_SHA2_PASSWORD ∧ full = true.
(** The stored password is the password itself, for the plugin. *)
Definition stored_clear (plugin : proxysql_auth_plugins) (stored : list Z) : Prop :=
  head stored ≠ Some 42 ∧ (plugin = AUTH_MYSQL_CACHING_SHA2_PASSWORD → is_crypt stored = false).
(** Which responses, of [n] bytes and a zero, fit a stored password, for the plugin
    in force; [full] says that caching_sha2_password asked for the password itself. *)
Inductive fits (plugin : proxysql_auth_plugins) (full : bool) (scr stored response : list Z) (n : Z) : Prop :=
  | fits_empty : n = 0 → stored = [] → fits plugin full scr stored response n
  | fits_native : plugin = AUTH_MYSQL_NATIVE_PASSWORD → stored_clear plugin stored → (20 <= length response)%nat → proxy_scramble scr stored = Ok (take 20 response) →
      fits plugin full scr stored response n
  | fits_native_hash h stage1 : plugin = AUTH_MYSQL_NATIVE_PASSWORD → stored = 42 :: h → unhex_pass (h ++ [0]) = Ok (sha1 stage1) →
      (∃ m, read_bytes 20 scr = Ok m ∧ proxy_my_crypt 20 response (sha1 (m ++ sha1 stage1)) = Ok stage1) → fits plugin full scr stored response n
  | fits_clear : in_clear plugin full → stored_clear plugin stored → stored = cstr response → fits plugin full scr stored response n
  | fits_hash c : in_clear plugin full → head stored = Some 42 → slice response 0 n = Ok c → double_hash_matches c stored = Ok true → fits plugin full scr stored response n
  | fits_sha2 m : plugin = AUTH_MYSQL_CACHING_SHA2_PASSWORD → full = false → stored_clear plugin stored → read_bytes 20 scr = Ok m →
      read_bytes 32 (sha2_response stored m) = read_bytes 32 response → fits plugin full scr stored response n
  | fits_crypt : plugin = AUTH_MYSQL_CACHING_SHA2_PASSWORD → full = true → is_crypt stored = true → crypt_matches (cstr response) stored = Ok true →
      fits plugin full scr stored response n.
Lemma fits_other_plugin plugin full full' scr stored response n : plugin ≠ AUTH_MYSQL_CACHING_SHA2_PASSWORD →
  fits plugin full scr stored response n → fits plugin full' scr stored response n.
Proof.
  intros Hp. assert (in_clear plugin full → in_clear plugin full') as Hc by (intros [?|[? _]]; [by left|done]).
  destruct 1; [by apply fits_empty|by apply fits_native|by eapply fits_native_hash|apply fits_clear; auto|eapply fits_hash; eauto|done|done].
Qed.
Lemma same_bytes_inv n a b : same_bytes n a b = Ok true → read_bytes n a = read_bytes n b ∧ (n ≤ length b)%nat.
Proof.
  unfold same_bytes. intros H. inv_ok. case_bool_decide; [subst|done]. split; [congruence|]. revert E0. unfold read_bytes. destruct (Nat.ltb_spec (length b) n); [done|]. intros _. lia.
Qed.
Lemma my_crypt_length n a b r : proxy_my_crypt n a b = Ok r → length r = n.
Proof. revert a b r. induction n as [|n IH]; intros [|x a] [|y b] r; cbn [proxy_my_crypt]; try (by intros [= <-]); try done. intros H. inv_ok. cbn. f_equal. by eapply IH. Qed.
Lemma scramble_read scr w r : proxy_scramble scr w = Ok r → length r = 20%nat.
Proof.
  unfold proxy_scramble, proxy_compute_two_stage_sha1_hash. destruct (read_bytes _ scr) as [m|]; [|done]. cbn [mbind outcome_bind]. apply my_crypt_length.
Qed.
Lemma native_hash_fits v s f r : proxy_scramble_sha1 (pass v) (scramble_buff s) (drop 1 (f_password f) ++ [0]) = Ok (Some r) → head (f_password f) = Some 42 →
  fits AUTH_MYSQL_NATIVE_PASSWORD (switching_auth_stage s =? 5) (scramble_buff s) (f_password f) (pass v) (pass_len v).
Proof.
  intros H Hh. destruct (f_password f) as [|c h]; [done|]. injection Hh as ->. change (drop 1 (42 :: h)) with h in H. pose proof (scramble_sound _ _ _ _ H) as Hu. apply (fits_native_hash _ _ _ _ _ _ h r); [done|done|done|].
  unfold proxy_scramble_sha1 in H. rewrite Hu in H. cbn [mbind outcome_bind] in H. change SCRAMBLE_LENGTH with 20%nat in H. destruct (read_bytes 20 (scramble_buff s)) as [m|] eqn:Em; [|done]. cbn [mbind outcome_bind] in H.
  unfold proxy_compute_sha1_hash_multi, proxy_compute_sha1_hash in H. destruct (proxy_my_crypt 20 (pass v) (sha1 (m ++ sha1 r))) as [x|] eqn:Ex; [|done]. cbn [mbind outcome_bind] in H. destruct (decide _); [|done]. injection H as ->. by exists m.
Qed.
Lemma read_bytes_ok n p : (n <= length p)%nat → read_bytes n p = Ok (take n p).
Proof. intros. unfold read_bytes. by rewrite (proj2 (Nat.ltb_ge _ _)). Qed.
(** What holds of a result, if there is one. *)
Definition gives {A} (m : outcome A) (Q : A → Prop) : Prop := ∀ a, m = Ok a → Q a.
Lemma gives_step {A B} (m : outcome A) (k : A → outcome B) Q : (∀ a, m = Ok a → gives (k a) Q) → gives (m ≫= k) Q.
Proof. destruct m as [a|f]; [|by intros _ b]. intros H b Hb. by apply (H a). Qed.
Lemma gives_Ok {A} (a : A) (Q : A → Prop) : Q a → gives (Ok a) Q.
Proof. by intros H b [= <-]. Qed.
Lemma gives_fault {A} f (Q : A → Prop) : gives (Fault f) Q.
Proof. by intros b. Qed.
Lemma gives_mono {A} (m : outcome A) (P Q : A → Prop) : gives m P → (∀ a, P a → Q a) → gives m Q.
Proof. intros H HPQ a Ha. auto. Qed.
Lemma gives_via {A B} (m : outcome A) (k : A → outcome B) P Q : gives m P → (∀ a, P a → gives (k a) Q) → gives (m ≫= k) Q.
Proof. intros Hm Hk. apply gives_step. intros a Ha. apply Hk. by apply Hm. Qed.
Definition fitting f v s : Prop := fits (auth_plugin_id s) (switching_auth_stage s =? 5) (scramble_buff s) (f_password f) (pass v) (pass_len v).
Definition judged_fit f v s (b : bool) s' : Prop := same s s' ∧ (b = true → fitting f v s).
Lemma full_fits f pf v s : auth_plugin_id s = AUTH_MYSQL_CACHING_SHA2_PASSWORD →
  (pf = AUTH_MYSQL_NATIVE_PASSWORD → head (f_password f) = Some 42) → (pf = AUTH_MYSQL_CACHING_SHA2_PASSWORD → is_crypt (f_password f) = true) →
  gives (PPHR_sha2full f pf v s) (λ '(b, _, s'), judged_fit f v s b s').
Proof.
  intros Hid Hnat Hpf. unfold PPHR_sha2full. destruct (_ =? 0); [apply gives_step; intros s1 H1; apply gives_Ok; split; [|done]; eapply same_trans; [by eapply one_byte_same|by_fields]|].
  destruct (switching_auth_stage s =? 5) eqn:E5; [|apply gives_fault]. apply gives_step. intros b Hb. assert (b = true → fitting f v s) as Hfit.
  { intros ->. unfold fitting. rewrite Hid, E5. destruct pf; try done.
    - destruct (slice (pass v) 0 (pass_len v)) as [c|] eqn:Hc; [|done]. apply (fits_hash _ _ _ _ _ _ c); [by right|by apply Hnat|done|done].
    - destruct (_ =? 70); [|done]. by apply fits_crypt; [..|apply Hpf|]. }
  destruct (b && known_session s); [apply gives_step; intros acc Hacc|]; (apply gives_Ok; split; [by_fields|done]).
  intros Hv. destruct (acc_set_clear_ok (accounts s) USERNAME_FRONTEND (user v) (Some (cstr (pass v))) Hv) as (t & E' & Ht & Hat). rewrite E' in Hacc. injection Hacc as <-.
  by apply (counts_changed _ _ USERNAME_FRONTEND (user v) (set_clear (Some (cstr (pass v))))).
Qed.
Lemma learned_fits u k h f v s : fitting f v s → gives (s ← learn_sha1 u k h s; Ok (true, s)) (λ '(b, s'), judged_fit f v s b s').
Proof. intros Hf. apply gives_step. intros s1 H1. apply gives_Ok. split; [by eapply learn_sha1_same|done]. Qed.
Lemma clear_fits f v s : stored_clear (auth_plugin_id s) (f_password f) → gives (check_clear (f_password f) v s) (λ '(b, s'), judged_fit f v s b s').
Proof.
  unfold check_clear, judged_fit, fitting. intros Hst. destruct (auth_plugin_id s) eqn:Hid; [apply gives_fault| | |].
  - apply gives_step. intros r Hr. apply gives_step. intros b Hb. apply gives_Ok. split; [apply same_refl|]. intros ->. destruct (same_bytes_inv _ _ _ Hb) as [E Hl]. apply fits_native; [done|done|done|]. rewrite Hr. f_equal.
    rewrite !read_bytes_ok, take_ge in E by (rewrite ?(scramble_read _ _ _ Hr); lia). by injection E.
  - apply gives_Ok. split; [apply same_refl|]. intros ?%bool_decide_eq_true. by apply fits_clear; [left|..].
  - destruct (switching_auth_stage s =? 5) eqn:E5. { apply gives_Ok. split; [apply same_refl|]. intros ?%bool_decide_eq_true. by apply fits_clear; [right|..]. }
    apply gives_step. intros b Hb.
    assert (b = true → fits AUTH_MYSQL_CACHING_SHA2_PASSWORD false (scramble_buff s) (f_password f) (pass v) (pass_len v)) as Hf.
    { intros ->. unfold PPHR_6auth2 in Hb. destruct (known_session s); [|done]. destruct (read_bytes 20 (scramble_buff s)) as [m|] eqn:Em; [|done]. cbn [mbind outcome_bind] in Hb. by apply (fits_sha2 _ _ _ _ _ _ m); [..|apply same_bytes_inv in Hb as [? _]]. }
    destruct (b && _); [|by apply gives_Ok]. apply gives_step. intros s1 H1. apply gives_Ok. split; [by eapply one_byte_same|done].
Qed.
Lemma hash_fits f v s : head (f_password f) = Some 42 → auth_plugin_id s = AUTH_MYSQL_CLEAR_PASSWORD → gives (PPHR_7auth2 f v s) (λ '(b, s'), judged_fit f v s b s').
Proof.
  intros Hh Hid. unfold PPHR_7auth2. destruct (known_session s); [|by apply gives_Ok; split; [apply same_refl|]].
  apply gives_step. intros c Hc. apply gives_step. intros [|] Hd; [|by apply gives_Ok; split; [apply same_refl|]]. apply learned_fits. unfold fitting. rewrite Hid. by apply (fits_hash _ _ _ _ _ _ c); [left|..].
Qed.
Lemma native_fits f v s : head (f_password f) = Some 42 → auth_plugin_id s = AUTH_MYSQL_NATIVE_PASSWORD → gives (PPHR_7auth1 f v s) (λ '(b, s'), judged_fit f v s b s').
Proof.
  intros Hh Hid. unfold PPHR_7auth1. destruct (known_session s); [|by apply gives_Ok; split; [apply same_refl|]].
  apply gives_step. intros [h|] Hr; [|by apply gives_Ok; split; [apply same_refl|]]. apply learned_fits. unfold fitting. rewrite Hid. by eapply native_hash_fits.
Qed.
Lemma checked_fits f v s : gives (check_password f v s) (λ '(b, _, s'), judged_fit f v s b s').
Proof.
  unfold check_password. destruct (Z.eqb_spec (pass_len v) 0) as [E|_]; [apply gives_Ok; split; [apply same_refl|]; intros H%bool_decide_eq_true; by apply fits_empty|].
  destruct (is_plugin _ _ && is_crypt _) eqn:E. { apply andb_prop in E as [E1%bool_decide_eq_true E2]. by apply full_fits. } case_bool_decide as Hh.
  - destruct (auth_plugin_id s) eqn:Hid; [apply gives_fault| | |by apply full_fits].
    + eapply gives_via with (P := λ '(b, s'), judged_fit f v s b s'); [by apply native_fits|]. intros [b s1] H1. by apply gives_Ok.
    + eapply gives_via with (P := λ '(b, s'), judged_fit f v s b s'); [by apply hash_fits|]. intros [b s1] H1. by apply gives_Ok.
  - eapply gives_via; [apply clear_fits; split; [done|]; intros Hid; by rewrite Hid in E|]. intros [b s1] H1. by apply gives_Ok.
Qed.

(** What the certificate of the client must say. *)
Definition certificate_ok (attributes : list Z) (name : option (list Z)) : Prop :=
  attributes = [] ∨ ∃ j, json_parse attributes = Some j ∧ ∀ x, json_find (str "spiffe_id") j = Some x → ∃ w, json_get_string x = Some w ∧ spiffe_matches w name = true.
Lemma verified s a : user_attributes s = Some a → gives (verify_user_attributes s) (λ '(b, s'), same s s' ∧ (b = true → certificate_ok a (x509_subject_alt_name s))).
Proof.
  intros Ha [b s'] H. split; [by eapply verify_same|]. intros ->. revert H. unfold verify_user_attributes, attributes_json. rewrite Ha. destruct a as [|c a]; [by left|]. right. destruct (json_parse (c :: a)) as [j|]; [|done]. cbn [mbind outcome_bind] in *.
  exists j. split; [done|]. intros x Hx. rewrite Hx in H. destruct (json_get_string x) as [w|]; [|done]. cbn [mbind outcome_bind] in H. exists w. split; [done|]. destruct (set_isolation j s); [|done]. by injection H as -> _.
Qed.
Lemma finish_gives b v s a : user_attributes s = Some a →
  gives (finish b v s) (λ '(b', s'), b' = true → b = true ∧ certificate_ok a (x509_subject_alt_name s) ∧ (v_ret_use_ssl v = true → use_ssl s' = true) ∧ default_hostgroup s' = default_hostgroup s ∧
    max_connections_reached s' = max_connections_reached s ∧ session_type (prot s') = session_type (prot s) ∧ Conn.username (ui s') = kept_name v s ∧
    (acc_valid (accounts s) → counts_kept (accounts s) (accounts s'))).
Proof.
  intros Ha. unfold finish. set (s1 := PPHR_SetConnAttrs v s).
  assert (∃ u, same (s <| use_ssl := u |>) s1 ∧ (v_ret_use_ssl v = true → use_ssl s1 = true)) as (u & S1 & Hssl).
  { subst s1. unfold PPHR_SetConnAttrs. pose proof (announce_charset_same (charset v) s) as A. destruct A. generalize dependent (announce_charset (charset v) s). intros s0 **. exists (if v_ret_use_ssl v then true else use_ssl s). destruct (_ && _), (v_ret_use_ssl v); (split; [split; cbn; first [congruence | assumption]|done]). }
  destruct b; [|by apply gives_Ok]. destruct (v_password v) as [pw|]; [|apply gives_fault]. set (s2 := set_ui_user _ _ _). set (s3 := match db v with Some d => choose_schema d s2 | None => s2 end).
  assert (Conn.username (ui s3) = kept_name v s1 ∧ session_type (prot s3) = session_type (prot s1) ∧ x509_subject_alt_name s3 = x509_subject_alt_name s1 ∧ max_connections_reached s3 = max_connections_reached s1 ∧
    default_hostgroup s3 = default_hostgroup s1 ∧ user_attributes s3 = user_attributes s1 ∧ use_ssl s3 = use_ssl s1 ∧ accounts s3 = accounts s1) as (H1 & H2 & H3 & H4 & H5 & H6 & H7 & H8).
  { subst s3. destruct (db v); [|done]. split; [|done]. cbn. unfold set_schemaname. by destruct (match _ with Some _ => _ | None => _ end). }
  pose proof (s_session _ _ S1) as Q1. pose proof (s_x509 _ _ S1) as Q2. pose proof (s_full _ _ S1) as Q3. pose proof (s_hostgroup _ _ S1) as Q4. pose proof (s_attributes _ _ S1) as Q5. pose proof (s_name _ _ S1) as Q6. cbn in Q1, Q2, Q3, Q4, Q5, Q6. intros [b' s'] H ->. destruct (verified (rehash s3) a ltac:(cbn; congruence) _ H) as [R Hc]. specialize (Hc eq_refl). cbn in Hc. split; [done|]. rewrite H3, Q2 in Hc.
  split; [exact Hc|]. split; [intros Hv; rewrite (s_ssl _ _ R); cbn; rewrite H7; auto|]. split; [rewrite (s_hostgroup _ _ R); cbn; congruence|]. split; [rewrite (s_full _ _ R); cbn; congruence|]. split; [rewrite (s_session _ _ R); cbn; congruence|].
  split; [rewrite (s_name _ _ R); cbn; rewrite H1; unfold kept_name; by rewrite Q6|]. intros Hv. destruct (s_counts _ _ S1 Hv) as [V1 C1]. cbn in C1. change (accounts (_ <| use_ssl := u |>)) with (accounts s) in C1.
  pose proof (s_counts _ _ R) as C2. cbn in C2. rewrite H8 in C2. destruct (C2 V1) as [V2 C3]. split; [done|]. intros k. by rewrite C3.
Qed.
(** What reading the packet leaves alone. *)
Record unread s s' : Prop := {
  u_users : accounts s' = accounts s; u_session : session_type (prot s') = session_type (prot s); u_scramble : scramble_buff s' = scramble_buff s;
  u_x509 : x509_subject_alt_name s' = x509_subject_alt_name s; u_full : max_connections_reached s' = max_connections_reached s; u_name : Conn.username (ui s') = Conn.username (ui s)
}.
Lemma unread_answer p len v s : gives (PPHR_1 p len v s) (λ '(go, v', s'), unread s s' ∧ user v' = default [] (Conn.username (ui s)) ∧
  (go = true → auth_plugin_id s' = switching_auth_type s ∧ (switching_auth_stage s = 4 → switching_auth_stage s' = 5))).
Proof.
  unfold PPHR_1. set (s1 := if switching_auth_stage s =? 1 then _ else s). set (s2 := if switching_auth_stage s1 =? 4 then _ else s1).
  assert (unread s s2 ∧ switching_auth_type s2 = switching_auth_type s ∧ (switching_auth_stage s = 4 → switching_auth_stage s2 = 5)) as ([] & Ht & Hst).
  { subst s2 s1. destruct (Z.eqb_spec (switching_auth_stage s) 1) as [E|E], (Z.eqb_spec (switching_auth_stage s) 4) as [E'|E']; cbn; rewrite ?E, ?E'; cbn; (split; [by split|]); split; try done; intros; lia. }
  destruct (len =? 5). { apply gives_Ok. cbn. rewrite u_name0. split; [by split|done]. } apply gives_step. intros n _. apply gives_step. intros b _. apply gives_step. intros fl _. apply gives_Ok. cbn. rewrite u_name0. split; [by split|done].
Qed.
Lemma unread_first p len v s : gives (PPHR_2 p len v s) (λ '(go, v', s'), unread s s' ∧ switching_auth_stage s' = switching_auth_stage s ∧ (go = true → encrypted s' = encrypted s)).
Proof.
  unfold PPHR_2. apply gives_step. intros caps _. apply gives_step. intros mx _. apply gives_step. intros cs _. destruct (negb _ && _); [apply gives_Ok; by split|]. apply gives_step. intros cs' _. apply gives_step. intros u _. apply gives_step. intros [n q] _.
  destruct (_ <? n); [apply gives_Ok; by split|]. apply gives_step. intros b _. destruct (has_flag _ CLIENT_CONNECT_WITH_DB); apply gives_Ok; by split.
Qed.
Lemma unread_plugin v s : gives (PPHR_3 v s) (λ s', unread s s' ∧ switching_auth_stage s' = switching_auth_stage s ∧ encrypted s' = encrypted s).
Proof. unfold PPHR_3. destruct (auth_plugin v); [|by apply gives_Ok; split]. destruct (is_plugin _ _); [apply gives_step; intros i _|]; by apply gives_Ok; split. Qed.
Lemma switch_or_go v s : gives (may_switch v s) (λ '(go, s'), go = true → s' = s).
Proof.
  assert (gives (PPHR_4auth0 v s) (λ '(go, s'), go = true → s' = s)) as H0. { unfold PPHR_4auth0. destruct (_ =? 0); [|by apply gives_Ok]. apply gives_step. intros e _. apply gives_step. intros s1 _. by apply gives_Ok. }
  assert (gives (PPHR_4auth1 v s) (λ '(go, s'), go = true → s' = s)) as H1. { unfold PPHR_4auth1. destruct (_ && _); [|by apply gives_Ok]. apply gives_step. intros [|] _; [by apply gives_Ok|]. apply gives_step. intros s1 _. by apply gives_Ok. }
  unfold may_switch. destruct (sent_auth_plugin_id s), (auth_plugin_id s); first [apply gives_fault | by apply gives_Ok | done | destruct (_ && _); [by apply gives_Ok|apply gives_fault]].
Qed.

(** The client answers a request of the server: to switch the plugin or, with
    caching_sha2_password, for the password itself. *)
Definition answering s : bool := bool_decide (is_Some (Conn.username (ui s))).
(** The response that is judged and the plugin it is judged with: in an answer the
    one that was asked for, in the first packet the one that the packet names. *)
Definition responded (pkt : list Z) s v (plugin : proxysql_auth_plugins) : Prop :=
  let s := s <| auth_plugin_id := AUTH_UNKNOWN_PLUGIN |> in let len := Z.of_nat (length pkt) in
  if answering s then plugin = switching_auth_type s ∧ ∃ s', PPHR_1 (drop 4 pkt) len new_vars s = Ok (true, v, s')
  else ∃ s' s'', PPHR_2 (drop 4 pkt) len new_vars s = Ok (true, v, s') ∧ PPHR_3 v s' = Ok s'' ∧ plugin = auth_plugin_id s''.
(** The account of the user and what is asked of its client. *)
Definition entitled s v (plugin : proxysql_auth_plugins) (full : bool) (a : account) : Prop :=
  acc_at (accounts s) USERNAME_FRONTEND (acc_key (user v)) = Some a ∧ fits plugin full (scramble_buff s) (f_password (report a)) (pass v) (pass_len v) ∧
  certificate_ok (f_attributes (report a)) (x509_subject_alt_name s).
(** What the session goes by. *)
Definition entered s v (a : account) s' : Prop :=
  default_hostgroup s' = f_default_hostgroup (report a) ∧ (f_use_ssl (report a) = true → use_ssl s' = true) ∧ max_connections_reached s' = max_connections_reached s ∧
  session_type (prot s') = session_type (prot s) ∧ Conn.username (ui s') = Some (user v) ∧ counts_kept (accounts s) (accounts s').
Lemma judged_entitled v s : ldap = None → acc_valid (accounts s) → session_type (prot s) = PROXYSQL_SESSION_MYSQL → default (user v) (Conn.username (ui s)) = user v →
  gives ('(b, v, s) ← do_auth v s; finish b v s) (λ '(b, s'), b = true → ∃ a, entitled s v (auth_plugin_id s) (switching_auth_stage s =? 5) a ∧ entered s v a s').
Proof.
  intros Hl Hv Hs Hn. unfold do_auth. destruct (charset_known (charset v)).
  - apply gives_step. intros [[b1 v1] s1] H1. unfold lookup_frontend in H1. change (prot (s <| default_charset := charset v |>)) with (prot s) in H1. change (accounts (s <| default_charset := charset v |>)) with (accounts s) in H1. rewrite Hs in H1. cbn [is_session] in H1.
    change (is_session PROXYSQL_SESSION_MYSQL PROXYSQL_SESSION_CLICKHOUSE) with false in H1. cbn iota in H1. rewrite acc_lookup_ok in H1 by done. cbn [mbind outcome_bind] in H1.
    destruct (acc_at (accounts s) USERNAME_FRONTEND (acc_key (user v))) as [a|] eqn:Ha; cbn [fmap option_fmap option_map] in H1.
    + set (s2 := PPHR_5passwordTrue _ _) in H1. set (v2 := v <| v_ret_use_ssl := _ |>) in H1. destruct (check_password (report a) v2 s2) as [[[b2 pw] s3]|] eqn:E; [|done]. cbn [mbind outcome_bind] in H1. injection H1 as <- <- <-.
      destruct (checked_fits _ _ _ _ E) as [S Hf]. intros [b' s'] H ->. destruct (finish_gives b2 _ s3 (f_attributes (report a)) ltac:(rewrite (s_attributes _ _ S); done) _ H eq_refl) as (-> & Hc & Hssl & Hhg & Hfull & Hst & Hname & Hcounts).
      exists a. split; [split; [exact Ha|]; split; [exact (Hf eq_refl)|]; by rewrite (s_x509 _ _ S) in Hc|].
      split; [rewrite Hhg; apply S|]. split; [exact Hssl|]. split; [rewrite Hfull; apply S|]. split; [rewrite Hst; apply S|]. destruct (s_counts _ _ S Hv) as [V3 C3]. destruct (Hcounts V3) as [V4 C4].
      split; [|split; [done|]; intros k; rewrite C4; apply C3]. rewrite Hname. unfold kept_name. rewrite (s_name _ _ S). change (Conn.username (ui s2)) with (Conn.username (ui s)).
      change (user _) with (user v). by destruct (Conn.username (ui s)); cbn in *; f_equal.
    + assert (b1 = false) as ->. { revert H1. unfold PPHR_5passwordFalse_auth2. rewrite Hl. by destruct (is_plugin _ _); intros [= <- _ _]. }
      unfold finish. by apply gives_Ok.
  - apply gives_step. intros [[b1 v1] s1] [= <- <- <-]. unfold finish. by apply gives_Ok.
Qed.
Lemma unread_trans s1 s2 s3 : unread s1 s2 → unread s2 s3 → unread s1 s3.
Proof. intros [] []. split; congruence. Qed.
Lemma entitled_unread s s1 v p f a : unread s s1 → entitled s1 v p f a → entitled s v p f a.
Proof. intros [] (H1 & H2 & H3). unfold entitled. by rewrite <- u_users0, <- u_scramble0, <- u_x510. Qed.
Lemma go_entitled v s s1 : ldap = None → acc_valid (accounts s) → session_type (prot s) = PROXYSQL_SESSION_MYSQL → unread s s1 →
  (Conn.username (ui s) = None ∨ user v = default [] (Conn.username (ui s))) →
  gives ('(b, v, s) ← do_auth v s1; finish b v s) (λ '(b, s'), b = true → ∃ a, entitled s v (auth_plugin_id s1) (switching_auth_stage s1 =? 5) a ∧ entered s v a s').
Proof.
  intros Hl Hv Hs U Hn. pose proof U as []. eapply gives_mono; [apply judged_entitled; [done|by rewrite u_users0|by rewrite u_session0|]|].
  - rewrite u_name0. destruct Hn as [-> | ->]; [done|]. by destruct (Conn.username (ui s)).
  - intros [b s'] H Hb. destruct (H Hb) as (a & He & E1 & E2 & E3 & E4 & E5 & E6). exists a. split; [by eapply entitled_unread|]. split; [done|]. split; [done|]. split; [congruence|]. split; [congruence|]. split; [done|]. by rewrite <- u_users0.
Qed.
Lemma process_entitled pkt s : ldap = None → waiting s → session_type (prot s) = PROXYSQL_SESSION_MYSQL →
  gives (process_pkt_handshake_response pkt s) (λ '(b, s'), b = true → ∃ v plugin a, responded pkt s v plugin ∧ entitled s v plugin (answering s) a ∧ entered s v a s').
Proof.
  intros Hl [[Hv _] Hw] Hs. unfold process_pkt_handshake_response, responded, answering. set (s0 := s <| auth_plugin_id := AUTH_UNKNOWN_PLUGIN |>). change (ui s0) with (ui s).
  assert (unread s s0) as U0 by by_fields. apply gives_step. intros hd _. apply gives_step. intros id _. apply gives_step. intros [|] _; [by apply gives_Ok|]. destruct (Conn.username (ui s)) as [u|] eqn:Hu.
  - rewrite bool_decide_true by done. apply gives_step. intros [[go v] s1] H1. destruct (unread_answer _ _ _ _ _ H1) as (U & Huser & Hgo). destruct go; [|by apply gives_Ok]. destruct (Hgo eq_refl) as [Hid Hst].
    eapply gives_mono; [apply (go_entitled v s s1); [done|done|done|by eapply unread_trans|right; by rewrite Huser; change (ui s0) with (ui s); rewrite Hu]|].
    intros [b s'] H Hb. destruct (H Hb) as (a & (Ha & Hf & Hc) & He). exists v, (auth_plugin_id s1), a. split; [split; [done|by exists s1]|]. split; [|done]. split; [done|]. split; [|done].
    destruct (decide (auth_plugin_id s1 = AUTH_MYSQL_CACHING_SHA2_PASSWORD)) as [E|E]; [|by eapply fits_other_plugin]. rewrite Hst in Hf; [done|]. rewrite Hid in E. by apply Hw.
  - rewrite bool_decide_false by (by intros []). apply gives_step. intros [[go v] s1] H1. destruct go; [|by apply gives_Ok]. destruct (PPHR_2 (drop 4 pkt) (Z.of_nat (length pkt)) new_vars s0) as [[[[|] v2] s2]|] eqn:E2; [|done|done]. cbn [mbind outcome_bind] in H1.
    destruct (unread_first _ _ _ _ _ E2) as (U2 & St2 & _). destruct (PPHR_3 v2 s2) as [s3|] eqn:E3; [|done]. cbn [mbind outcome_bind] in H1. destruct (unread_plugin _ _ _ E3) as (U3 & St3 & _).
    destruct (may_switch v2 s3) as [[go s4]|] eqn:E4; [|done]. cbn [mbind outcome_bind] in H1. injection H1 as -> -> ->. rewrite (switch_or_go _ _ _ E4 eq_refl).
    eapply gives_mono; [apply (go_entitled v s s3); [done|done|done| |by left]|]. { eapply unread_trans; [|exact U3]. by eapply unread_trans. }
    intros [b s'] H Hb. destruct (H Hb) as (a & Ha & ?). exists v, (auth_plugin_id s3), a. split; [by exists s2, s3|]. split; [|done]. rewrite St3, St2 in Ha. change (switching_auth_stage s0) with (switching_auth_stage s) in Ha. by rewrite (proj1 Hw) in Ha.
Qed.
(** The connection is counted, below the limit of the user. *)
Definition slot_taken (t t' : T) (u : list Z) : Prop :=
  0 < free_slots (acc_at t USERNAME_FRONTEND (acc_key u)) ∧ acc_at t' USERNAME_FRONTEND (acc_key u) = counted <$> acc_at t USERNAME_FRONTEND (acc_key u).
Lemma slot_gives s : ldap = None → acc_valid (accounts s) → session_type (prot s) = PROXYSQL_SESSION_MYSQL →
  gives (take_user_slot s) (λ '(n, _, s'), s' = s <| accounts := accounts s' |> ∧ (0 < n → slot_taken (accounts s) (accounts s') (name_of s))).
Proof.
  intros Hl Hv Hs. unfold take_user_slot. rewrite Hs, Hl. destruct (use_ldap_auth s); [apply gives_Ok; split; [by destruct s|lia]|].
  apply gives_step. intros [[n o] t] H. apply gives_Ok. split; [done|]. intros Hn. destruct (acc_increase_ok (accounts s) (name_of s) Hv) as (r & t' & E & _ & Hr & Hat). rewrite E in H. injection H as -> ->.
  split; [by rewrite <- Hr|]. cbn. by rewrite Hat, bool_decide_true.
Qed.
Lemma send_ok_keeps id s : gives (send_ok id s) (λ s', ui s' = ui s ∧ accounts s' = accounts s).
Proof. intros s'. unfold send_ok. intros H. by inv_ok; destruct a; inv_ok. Qed.
Lemma admitted_gives e s : ldap = None → acc_valid (accounts s) → session_type (prot s) = PROXYSQL_SESSION_MYSQL →
  gives (admit_client e s) (λ '(s', _, d), d = Some false → max_connections_reached s = false ∧ (0 <= default_hostgroup s → use_ssl s = true → e = true) ∧ name_of s' = name_of s ∧
    slot_taken (accounts s) (accounts s') (name_of s)).
Proof.
  intros Hl Hv Hs. unfold admit_client. rewrite Hs. change (is_session PROXYSQL_SESSION_MYSQL PROXYSQL_SESSION_ADMIN) with false. cbn [andb].
  apply (gives_via _ _ (λ s2, max_connections_reached s2 = max_connections_reached s ∧ default_hostgroup s2 = default_hostgroup s ∧ use_ssl s2 = use_ssl s ∧ Conn.username (ui s2) = Conn.username (ui s) ∧
    session_type (prot s2) = PROXYSQL_SESSION_MYSQL ∧ accounts s2 = accounts s)).
  { destruct (Conn.schemaname (ui s)); [by apply gives_Ok|]. destruct (default_schema s); [|apply gives_fault]. apply gives_Ok. cbn. unfold set_schemaname. by destruct (match _ with Some _ => _ | None => _ end). }
  intros s2 (F2 & H2 & L2 & N2 & S2 & A2). assert (name_of s2 = name_of s) as N2' by (unfold name_of; by rewrite N2).
  apply (gives_via _ _ (λ '(n, _, s3), max_connections_reached s3 = max_connections_reached s ∧ default_hostgroup s3 = default_hostgroup s ∧ use_ssl s3 = use_ssl s ∧ Conn.username (ui s3) = Conn.username (ui s) ∧
    (max_connections_reached s = false → 0 < n → slot_taken (accounts s) (accounts s3) (name_of s)))).
  { destruct (negb _ && user_session s2) eqn:E; [|apply gives_Ok; split_and!; try done; intros F; unfold user_session in E; by rewrite F2, S2, F in E].
    set (s2' := s2 <| client_authenticated := true |>). eapply gives_mono; [apply (slot_gives s2'); [done|by rewrite <- A2 in Hv|done]|]. intros [[n o] s3] [-> Hn]. change (name_of s2') with (name_of s2) in Hn. change (accounts s2') with (accounts s2) in Hn.
    rewrite A2, N2' in Hn. by split_and!. }
  intros [[n o] s3] (F3 & H3 & L3 & N3 & T3). destruct (max_connections_reached s3 || (n <=? 0)) eqn:E. { apply gives_step. intros s4 _. by apply gives_Ok. } apply orb_false_iff in E as [E En%Z.leb_gt]. rewrite F3 in E. specialize (T3 E En).
  assert (∀ id s3' s4, ui s3' = ui s3 → accounts s3' = accounts s3 → send_ok id s3' = Ok s4 → name_of (let_in s4) = name_of s ∧ slot_taken (accounts s) (accounts (let_in s4)) (name_of s)) as Hok.
  { intros id s3' s4 E1 E2 H. destruct (send_ok_keeps _ _ _ H) as [E3 E4]. unfold name_of, let_in. cbn. by rewrite E3, E4, E1, E2, N3. }
  destruct (only_locally s3) eqn:El.
  - destruct (is_local peer_addr); [|apply gives_step; intros s4 _; by apply gives_Ok]. apply gives_step. intros s4 H4. apply gives_Ok. intros _. split; [done|]. split; [|by eapply (Hok _ s3 s4)].
    intros Hhg. exfalso. unfold only_locally in El. rewrite H3 in El. change ADMIN_HOSTGROUP with (-2) in El. change STATS_HOSTGROUP with (-3) in El. destruct (Z.eqb_spec (default_hostgroup s) (-2)), (Z.eqb_spec (default_hostgroup s) (-3)), (Z.ltb_spec (default_hostgroup s) 0); try lia; done.
  - change (use_ssl (s3 <| change_user_auth_switch := false |>)) with (use_ssl s3). destruct (use_ssl s3 && negb e) eqn:Es; (apply gives_step; intros s4 H4; apply gives_Ok); [done|]. intros _. split; [done|]. split; [|by eapply Hok in H4].
    intros _ Hssl. rewrite L3, Hssl in Es. by destruct e.
Qed.

(** C8: A client of a MySQL session that is let in has sent, in its first packet or as
    an answer, a response that fits the stored password of the account it named, for
    the plugin in force: the password itself only if the plugin asked for it, the one
    whose double SHA1 is stored if that is what is stored, what the plugin makes of
    the password, or of the stored hash, and the challenge otherwise.  Its certificate
    bears the SPIFFE id of the account if there is one.  Neither the limit of all
    connections was reached nor that of the account, for which the connection is
    counted, and the connection was encrypted if the account requires it; a negative
    hostgroup only opens to the monitor.  LDAP users are excluded. *)
Theorem login_needs_password pkt s s' w : waiting s → ldap = None → session_type (prot s) = PROXYSQL_SESSION_MYSQL →
  handler_SERVER_HANDSHAKE pkt s = Ok (s', w, Some false) →
  ∃ v plugin a, responded pkt s v plugin ∧ entitled s v plugin (answering s) a ∧ name_of s' = user v ∧
    max_connections_reached s = false ∧ num_connections_used a < Auth.max_connections a ∧
    num_connections_used <$> acc_at (accounts s') USERNAME_FRONTEND (acc_key (user v)) = Some (num_connections_used a + 1) ∧
    let hg := f_default_hostgroup (report a) in (0 <= hg → f_use_ssl (report a) = true → encrypted s = true) ∧ (0 <= hg ∨ begins (monitor_username env) (user v) = true).
Proof.
  intros Hw Hl Hs H. pose proof Hw as [[Hv _] _]. unfold handler_SERVER_HANDSHAKE in H. destruct (process_pkt_handshake_response pkt s) as [[b s1]|] eqn:E; [|done]. cbn [mbind outcome_bind] in H.
  destruct (negb b && negb (auth_in_progress s1 =? 0)); [done|]. destruct (negb b && negb (encrypted s) && encrypted s1); [done|]. destruct (b && may_enter s1) eqn:Em; [|destruct (WrongCredentials s1); done].
  apply andb_prop in Em as [-> Em]. destruct (process_entitled pkt s Hl Hw Hs _ E eq_refl) as (v & plugin & a & Hr & He & Hhg & Hssl & Hfull & Hst & Hname & Hv1 & Hk). assert (session_type (prot s1) = PROXYSQL_SESSION_MYSQL) as Hs1 by congruence.
  destruct (admitted_gives _ _ Hl Hv1 Hs1 _ H eq_refl) as (H1 & H2 & H3 & Hfree & Hcount). assert (name_of s1 = user v) as Hn1 by (unfold name_of; by rewrite Hname). rewrite Hn1 in Hfree, Hcount.
  exists v, plugin, a. split; [done|]. split; [done|]. split; [congruence|]. split; [congruence|].
  specialize (Hk (acc_key (user v))). rewrite (proj1 He) in Hk. destruct (acc_at (accounts s1) _ _) as [a1|]; [|done]. injection Hk as Eu Em1. cbn [free_slots fmap option_fmap option_map] in Hfree, Hcount. rewrite Eu, Em1 in Hfree.
  destruct (Z.ltb_spec (num_connections_used a) (Auth.max_connections a)); [|lia]. split; [done|]. rewrite Hcount. split; [cbn; unfold counted; rewrite Eu, Em1, (proj2 (Z.ltb_lt _ _)) by done; done|].
  cbn. rewrite Hhg in H2. split; [auto|].
  unfold may_enter in Em. rewrite Hs1, Hhg, Hn1 in Em. destruct (Z.leb_spec 0 (f_default_hostgroup (report a))); [by left|]. cbn in Em. apply andb_prop in Em as [_ Em]. by right.
Qed.
End Safe.

(** ** Runs on concrete inputs *)
#[local] Instance toy_json : Json := {|
  json := list Z; json_parse := Some; json_find _ _ := None; json_get_string := Some; json_set_string _ s _ := s; json_erase _ v := v; json_dump := Some
|}.
#[local] Instance toy_hash1 : Sha1 := toy_sha1.
#[local] Instance toy_hash2 : Sha256 := {| sha256 m := replicate 31 (foldr (λ c n, (c + 31 * n) mod 256) 7 m) ++ [Z.of_nat (length m) mod 256]; sha256_length m := eq_refl |}.
#[local] Instance toy_world : World := {|
  env := mk_thread_vars true false false AUTH_MYSQL_CACHING_SHA2_PASSWORD (str "8.0.11") (str "monitor") (str "monitor") (str "information_schema");
  malloc n := replicate (Z.to_nat n) 0;
  Hash64 b seed := toy_spooky seed 0 [b];
  charset_known n := n <? 256; default_charset_nr := Some 33; FullMatch _ _ := false; sha256_crypt key salt := salt ++ 36 :: key;
  ldap := None; clickhouse_lookup _ := None; clickhouse_increase _ := 0; client_addr := str "10.0.0.1"; peer_addr := str "10.0.0.1"
|}.
#[local] Instance toy_accounts : Accounts auth := auth_accounts toy_spooky.
Lemma toy_users_valid : acc_valid toy_auth.
Proof. intros t. destruct (toy_auth_stands t) as (l & H & _). by eexists l, _. Qed.
(** A client that was accepted, before the greeting. *)
Definition toy_proto : proto := mk_proto false false PROXYSQL_SESSION_MYSQL true false 0 0 (-1) [] false (Some (Packets.mk_conn 0 false)) STATE_NOT_CONNECTED 1 [].
Definition toy_client : @login auth :=
  mk_login toy_proto false 0 AUTH_UNKNOWN_PLUGIN AUTH_UNKNOWN_PLUGIN 0 0 None AUTH_UNKNOWN_PLUGIN AUTH_UNKNOWN_PLUGIN [] 0 0 0 new_userinfo None (-1) None None false true 0 0 false false false
    CONNECTING_CLIENT ∅ false false toy_auth.
Definition toy_greeting : outcome login := generate_pkt_initial_handshake 0 1 33 (seqZ 1 20) true toy_client.
Definition toy_greeted : @login auth := match toy_greeting with Ok s => s | Fault _ => toy_client end.
Definition toy_caps : Z := foldr Z.lor 0 [CLIENT_SECURE_CONNECTION; CLIENT_PLUGIN_AUTH].
(** The first packet of a client. *)
Definition toy_response (u plugin response : list Z) : list Z :=
  let body := le_bytes 4 toy_caps ++ le_bytes 4 16777216 ++ 33 :: replicate 23 0 ++ u ++ 0 :: Z.of_nat (length response) :: response ++ plugin ++ [0] in
  hdr_bytes (mk_hdr (Z.of_nat (length body)) 1) ++ body.
(** The response of alice, whose password is known by now. *)
Definition alice_native : list Z := match proxy_scramble (scramble_buff toy_greeted) [9] with Ok r => toy_response alice (plugin_name AUTH_MYSQL_NATIVE_PASSWORD) r | Fault _ => [] end.
Definition alice_sha2 (pw : list Z) : list Z := toy_response alice (plugin_name AUTH_MYSQL_CACHING_SHA2_PASSWORD) (sha2_response pw (scramble_buff toy_greeted)).
Example toy_logins :
  ((λ p, (λ '(s, _, d), (DSS (prot s), d)) <$> handler_SERVER_HANDSHAKE p toy_greeted) <$> [alice_sha2 [9]; alice_sha2 [8]; alice_native]) =
  [Ok (STATE_CLIENT_AUTH_OK, Some false); Ok (STATE_SLEEP, Some true); Ok (STATE_SERVER_HANDSHAKE, None)].
Proof. vm_compute. reflexivity. Qed.
Definition alice_answer : list Z := match proxy_scramble (scramble_buff toy_greeted) [9] with Ok r => hdr_bytes (mk_hdr 20 3) ++ r | Fault _ => [] end.
Lemma login_never_aborts_witness :
  conversation [(toy_auth, alice_native); (toy_auth, alice_answer)] toy_greeted ≠ Fault AssertFail ∧
  ((λ '(s, _, d), (DSS (prot s), d)) <$> conversation [(toy_auth, alice_native); (toy_auth, alice_answer)] toy_greeted) = Ok (STATE_CLIENT_AUTH_OK, Some false).
Proof.
  split; [|vm_compute; reflexivity]. apply (login_never_aborts) with (caps := 0) (tid := 1) (coll := 33) (random := seqZ 1 20) (dep := true) (s0 := toy_client).
  - intros key salt. cbn. clear. induction salt as [|c salt IH]; cbn; [destruct (after_last_dollar key); done|]. by destruct (after_last_dollar _).
  - by eexists.
  - split; [exact toy_users_valid|]. split; [by eexists|done].
  - vm_compute. reflexivity.
  - repeat constructor; exact toy_users_valid.
Defined.
Lemma login_needs_password_witness :
  ∃ s' w, handler_SERVER_HANDSHAKE (alice_sha2 [9]) toy_greeted = Ok (s', w, Some false) ∧
  ∃ v plugin a, responded (alice_sha2 [9]) toy_greeted v plugin ∧ entitled toy_greeted v plugin (answering toy_greeted) a ∧ name_of s' = user v ∧
    max_connections_reached toy_greeted = false ∧ num_connections_used a < Auth.max_connections a ∧
    num_connections_used <$> acc_at (accounts s') USERNAME_FRONTEND (acc_key (user v)) = Some (num_connections_used a + 1) ∧
    let hg := f_default_hostgroup (report a) in (0 <= hg → f_use_ssl (report a) = true → encrypted toy_greeted = true) ∧ (0 <= hg ∨ begins (monitor_username env) (user v) = true).
Proof.
  eexists _, _. split; [vm_compute; reflexivity|]. eapply login_needs_password; [|done|done|vm_compute; reflexivity].
  apply (greeted 0 1 33 (seqZ 1 20) true toy_client); [|vm_compute; reflexivity]. split; [exact toy_users_valid|]. split; [by eexists|done].
Defined.
