(* ===== verification/Digest.v ===== *)
(** * The digest of a query, first stage (lib/c_tokenizer.cpp)

    The digest replaces the values in the text of a query, so that statements that
    differ only in them are counted together.  The first stage copies the query
    to a buffer: an automaton replaces string literals, numbers and NULL by a
    question mark, drops comments and joins spaces.  Pointers into the query and
    into the buffer are positions, [None] is a null pointer; characters are bytes.
    The operations that compress the buffer are in [DigestStages]. *)
From S2P Require Import Prelude StringUtils.

(** ** Characters *)
Definition is_normal_char (c : Z) : bool :=
  (97 <=? c) && (c <=? 122) || (65 <=? c) && (c <=? 90) || (48 <=? c) && (c <=? 57) || (c =? 36) || (c =? 95).
Definition is_token_char (c : Z) : bool := negb (is_normal_char c).
Definition is_space_char (c : Z) : bool := (c =? 32) || (c =? 9) || (c =? 10) || (c =? 13).
Definition is_digit_char (c : Z) : bool := (48 <=? c) && (c <=? 57).
Definition is_hex_char (c : Z) : bool := (48 <=? c) && (c <=? 57) || (97 <=? c) && (c <=? 102) || (65 <=? c) && (c <=? 70).
Definition is_arithmetic_op (op : Z) : bool := (op =? 43) || (op =? 45) || (op =? 42) || (op =? 47) || (op =? 37).

(** ** State *)
Record options := mk_options {
  lowercase : bool; replace_null : bool; replace_number : bool; keep_comment : bool; grouping_limit : Z; groups_grouping_limit : Z
}.
(** The two limits are variables of type int, which this file declares with a
    type of one byte. *)
Definition i8 (x : Z) : Z := (x + 2 ^ 7) mod 2 ^ 8 - 2 ^ 7.
Definition get_options (lower null no_digits keep : bool) (limit groups_limit : Z) : options :=
  mk_options lower null no_digits keep (i8 limit) (i8 groups_limit).

Inductive p_st := st_no_mark_found | st_cmnt_type_1 | st_cmnt_type_2 | st_cmnt_type_3 | st_literal_string | st_literal_number | st_replace_null.
#[export] Instance p_st_eq_dec : EqDecision p_st.
Proof. solve_decision. Defined.
(** [res] is the buffer; [res_init_pos] is its start, 0. *)
Record shared_st := mk_shared {
  gl_c_offset : Z; q_cur_pos : Z; res : list Z; res_it_init_pos : Z; res_cur_pos : Z; res_pre_pos : Z;
  st : p_st; prev_char : Z; keep_prev_char : bool; will_copy : bool   (* copy_next_char *)
}.
#[export] Instance shared_eta : Eta shared_st := λ s,
  mk_shared (gl_c_offset s) (q_cur_pos s) (res s) (res_it_init_pos s) (res_cur_pos s) (res_pre_pos s) (st s) (prev_char s) (keep_prev_char s) (will_copy s).
(** With the comment that is being read, [cur_cmd_cmnt], and the first one. *)
Record cmnt_type_1_st := mk_cmnt {
  is_cmd : bool; cur_cmd_cmnt_len : Z; fst_cmnt_end : bool; fst_cmnt_len : Z; cur_cmd_cmnt : list Z; fst_cmnt : option (list Z)
}.
#[export] Instance cmnt_eta : Eta cmnt_type_1_st := λ c,
  mk_cmnt (is_cmd c) (cur_cmd_cmnt_len c) (fst_cmnt_end c) (fst_cmnt_len c) (cur_cmd_cmnt c) (fst_cmnt c).
Record literal_string_st := mk_literal_string { delim_num : bool; delim_char : Z; q_start_pos : Z }.
#[export] Instance literal_string_eta : Eta literal_string_st := λ l, mk_literal_string (delim_num l) (delim_char l) (q_start_pos l).
Record literal_digit_st := mk_literal_digit { first_digit : bool; start_pos : option Z }.
#[export] Instance literal_digit_eta : Eta literal_digit_st := λ l, mk_literal_digit (first_digit l) (start_pos l).
Record stage_1_st := mk_stage_1 {
  cmnt : cmnt_type_1_st; literal_str : literal_string_st; literal_digit : literal_digit_st; pre_it_pos : option Z; new_end_pos : option Z
}.
#[export] Instance stage_1_eta : Eta stage_1_st := λ t, mk_stage_1 (cmnt t) (literal_str t) (literal_digit t) (pre_it_pos t) (new_end_pos t).

Definition FIRST_COMMENT_MAX_LENGTH : Z := 1024.
Definition init_shared_st (buf : list Z) : shared_st := mk_shared 0 0 buf 0 0 0 st_no_mark_found 0 false false.
(** [cmd] is what the global buffer holds. *)
Definition init_stage_1_st (cmd : list Z) : stage_1_st :=
  mk_stage_1 (mk_cmnt false 0 false 0 cmd None) (mk_literal_string false 0 0) (mk_literal_digit true None) None None.
Definition get_digest_max_len (max_query_length len : Z) : Z := if max_query_length <? len then max_query_length else len.

(** Writes at the current position of the buffer and moves it. *)
Definition put (c : Z) (s : shared_st) : outcome shared_st :=
  b ← write_at (res s) (res_cur_pos s) c; Ok ((s <| res := b |>) <| res_cur_pos := res_cur_pos s + 1 |>).
Definition skip (n : Z) (s : shared_st) : shared_st := s <| q_cur_pos := q_cur_pos s + n |>.

(** Conjunction that stops at the first test that fails. *)
Notation "m &&? n" := (mbind (M := outcome) (λ b : bool, if b then n else Ok false) m) (at level 60, right associativity) : proxysql_scope.
Definition to_space (c : Z) : Z := if is_space_char c then 32 else c.

Section Stage1.
Context (opts : options) (q : list Z) (d_max_len : Z) (malloc : Z → list Z).
Let q_len : Z := Z.of_nat (length q).

Definition q_at (s : shared_st) (k : Z) : outcome Z := read_at q (q_cur_pos s + k).
Definition q_is (s : shared_st) (k : Z) (p : Z → bool) : outcome bool := c ← q_at s k; Ok (p c).

(** ** The states *)
Definition get_next_st (s : shared_st) : outcome p_st :=
  c1 ← Ok (q_cur_pos s <? d_max_len - 1) &&? q_is s 0 (Z.eqb 47) &&? q_is s 1 (Z.eqb 42);
  if (c1 : bool) then Ok st_cmnt_type_1
  else
    c ← q_at s 0;
    if c =? 35 then Ok st_cmnt_type_2
    else
      c3 ← Ok ((q_cur_pos s <? d_max_len - 2) && (c =? 45)) &&? q_is s 1 (Z.eqb 45) &&? q_is s 2 is_space_char;
      if (c3 : bool) then Ok (if negb (prev_char s =? 45) || (q_cur_pos s =? 0) then st_cmnt_type_3 else st_no_mark_found)
      else if (c =? 39) || (c =? 34) then Ok st_literal_string
      else if is_token_char (prev_char s) && is_digit_char c then Ok st_literal_number
      else if is_token_char (prev_char s) && ((c =? 110) || (c =? 78)) && replace_null opts then Ok st_replace_null
      else Ok st_no_mark_found.
Definition inc_proc_pos (s : shared_st) : outcome shared_st :=
  c ← q_at s 0;
  Ok (skip 1 (if negb (keep_prev_char s) then s <| prev_char := c |> else s <| keep_prev_char := false |>)).
Definition copy_next_char (s : shared_st) : outcome shared_st :=
  c ← q_at s 0;
  s ← put (if negb (lowercase opts) then to_space c else if is_space_char c then 32 else lower c) s;
  inc_proc_pos s.

(** *** Comments between slashes and stars *)
(** The initial mark; [true] when the query ends with it. *)
Definition cmnt_1_begin (s : shared_st) (c : cmnt_type_1_st) : outcome (bool * shared_st * cmnt_type_1_st) :=
  mark ← Ok (q_cur_pos s <=? q_len - 2) &&? q_is s 0 (Z.eqb 47) &&? q_is s 1 (Z.eqb 42);
  if (mark : bool) then
    let c := c <| cur_cmd_cmnt_len := 0 |> in
    cmd ← Ok (negb (q_cur_pos s =? q_len - 2)) &&? q_is s 2 (Z.eqb 33);
    let c := if (cmd : bool) then c <| is_cmd := true |> else c in
    c ← (if keep_comment opts then
           c0 ← q_at s 0; c1 ← q_at s 1;
           b ← write_at (cur_cmd_cmnt c) 0 c0; b ← write_at b 1 c1;
           Ok ((c <| cur_cmd_cmnt := b |>) <| cur_cmd_cmnt_len := 2 |>)
         else Ok c);
    let s := skip (if is_cmd c then 3 else 2) s in
    Ok (q_len - 1 <=? q_cur_pos s, s, c)
  else Ok (false, s, c).
Definition cmnt_1_copied (c : cmnt_type_1_st) : bool := is_cmd c || keep_comment opts.
Definition cmnt_1_copy (ch : Z) (c : cmnt_type_1_st) : outcome cmnt_type_1_st :=
  if cmnt_1_copied c && (cur_cmd_cmnt_len c <? FIRST_COMMENT_MAX_LENGTH - 1) then
    b ← write_at (cur_cmd_cmnt c) (cur_cmd_cmnt_len c) ch; Ok ((c <| cur_cmd_cmnt := b |>) <| cur_cmd_cmnt_len := cur_cmd_cmnt_len c + 1 |>)
  else Ok c.
(** The first comment of the query. *)
Definition cmnt_1_first (ch : Z) (ends : bool) (c : cmnt_type_1_st) : outcome cmnt_type_1_st :=
  if fst_cmnt_end c then Ok c
  else
    c ← (if fst_cmnt_len c <? FIRST_COMMENT_MAX_LENGTH - 1 then
           b ← match fst_cmnt c with Some b => Ok b | None => write_at (malloc FIRST_COMMENT_MAX_LENGTH) (FIRST_COMMENT_MAX_LENGTH - 1) 0 end;
           b ← write_at b (fst_cmnt_len c) (to_space ch);
           Ok ((c <| fst_cmnt := Some b |>) <| fst_cmnt_len := fst_cmnt_len c + 1 |>)
         else Ok c);
    if ends then
      let n := if 2 <=? fst_cmnt_len c then fst_cmnt_len c - 2 else fst_cmnt_len c in
      match fst_cmnt c with
      | None => Fault NullPointer
      | Some b => b ← write_at b n 0; Ok (((c <| fst_cmnt := Some b |>) <| fst_cmnt_len := n |>) <| fst_cmnt_end := true |>)
      end
    else Ok c.
(** The length of the mark at the start of a command, and whether there is
    something after it. *)
Fixpoint annotation (n : nat) (b : list Z) (i : Z) : outcome (Z * bool) :=
  match n with
  | O => Ok (i, false)
  | S n' =>
      ch ← read_at b i;
      if (ch =? 47) || (ch =? 42) || (ch =? 33) || (ch =? 32) || is_digit_char ch then annotation n' b (i + 1) else Ok (i, true)
  end.
Definition space_unless (s : shared_st) : outcome shared_st :=
  l ← read_at (res s) (res_cur_pos s - 1);
  if negb (l =? 32) && negb (res_cur_pos s =? d_max_len) then put 32 s else Ok s.
(** The text of a command goes to the digest. *)
Definition cmnt_1_command (s : shared_st) (c : cmnt_type_1_st) : outcome (shared_st * cmnt_type_1_st) :=
  if cmnt_1_copied c then
    b ← write_at (cur_cmd_cmnt c) (cur_cmd_cmnt_len c) 0;
    '(s, b) ← (if 2 <=? cur_cmd_cmnt_len c then
                 let len := if keep_comment opts then cur_cmd_cmnt_len c else cur_cmd_cmnt_len c - 2 in
                 b ← write_at b len 0;
                 '(annot, some) ← annotation (Z.to_nat len) b 0;
                 if (some : bool) then
                   let free := d_max_len - res_cur_pos s in
                   let size := if keep_comment opts then len else len - annot in
                   let n := if size <? free then size else free in
                   src ← slice b (if keep_comment opts then 0 else annot) n;
                   r ← blit (res s) (res_cur_pos s) src;
                   s ← space_unless ((s <| res := r |>) <| res_cur_pos := res_cur_pos s + n |>);
                   Ok (s, b)
                 else Ok (s, b)
               else Ok (s, b));
    Ok (s, ((c <| cur_cmd_cmnt := b |>) <| is_cmd := false |>) <| cur_cmd_cmnt_len := 0 |>)
  else Ok (s, c).
Definition process_cmnt_type_1 (s : shared_st) (c : cmnt_type_1_st) : outcome (p_st * shared_st * cmnt_type_1_st) :=
  '(over, s, c) ← cmnt_1_begin s c;
  if (over : bool) then Ok (st_no_mark_found, s, c)
  else
    ch ← q_at s 0;
    let ends := (prev_char s =? 42) && (ch =? 47) in
    c ← cmnt_1_copy ch c;
    c ← cmnt_1_first ch ends c;
    if ends then
      '(s, c) ← cmnt_1_command s c;
      s ← (if negb (res_cur_pos s =? 0) && negb (res_cur_pos s =? d_max_len) then space_unless s else Ok s);
      Ok (st_no_mark_found, skip 1 (s <| prev_char := 32 |>), c <| is_cmd := false |>)
    else Ok (st_cmnt_type_1, s, c).

(** *** Comments up to the end of the line *)
Definition line_end (s : shared_st) (stay : p_st) : outcome (p_st * shared_st) :=
  c ← q_at s 0;
  if (c =? 10) || (c =? 13) || (q_cur_pos s =? q_len - 1) then Ok (st_no_mark_found, skip 1 (s <| prev_char := 32 |>)) else Ok (stay, s).
Definition process_cmnt_type_2 (s : shared_st) : outcome (p_st * shared_st) :=
  mark ← q_is s 0 (Z.eqb 35) &&? Ok (q_cur_pos s <=? q_len - 2);
  let s := if (mark : bool) then skip 1 s else s in
  if mark && (q_cur_pos s =? q_len - 2) then Ok (st_no_mark_found, s) else line_end s st_cmnt_type_2.
Definition process_cmnt_type_3 (s : shared_st) : outcome (p_st * shared_st) :=
  mark ← Ok (q_cur_pos s <=? q_len - 4) &&? q_is s 0 (Z.eqb 45) &&? q_is s 1 (Z.eqb 45) &&? q_is s 2 is_space_char;
  let s := if (mark : bool) then skip 3 s else s in
  if mark && (q_cur_pos s =? q_len - 4) then Ok (st_no_mark_found, s) else line_end s st_cmnt_type_3.

(** *** Values *)
(** Goes back to the start of the value and replaces it. *)
Definition place_mark (pos : Z) (s : shared_st) : outcome shared_st :=
  s ← put 63 (s <| res_cur_pos := pos |>); Ok (s <| prev_char := 63 |>).
Definition process_literal_string (s : shared_st) (l : literal_string_st) : outcome (p_st * shared_st * literal_string_st) :=
  c ← q_at s 0;
  if negb (delim_num l) then Ok (st_literal_string, s, mk_literal_string true c (q_cur_pos s))
  else if (q_start_pos l + 1 <? q_cur_pos s) &&
          ((prev_char s =? 92) && (c =? 92) || (prev_char s =? 92) && (c =? delim_char l) || (prev_char s =? delim_char l) && (c =? delim_char l)) then
    Ok (st_literal_string, (s <| keep_prev_char := true |>) <| prev_char := 88 |>, l)
  else
    let last := q_len =? q_cur_pos s + 1 in
    closes ← Ok (c =? delim_char l) &&? (if last then Ok true else q_is s 1 (λ n, negb (n =? delim_char l)));
    if (closes : bool) then
      s ← place_mark (res_pre_pos s) s;
      if last then Ok (st_literal_string, s <| will_copy := false |>, l)
      else Ok (st_no_mark_found, skip 1 (s <| prev_char := 0 |>), mk_literal_string false 0 0)
    else Ok (st_literal_string, s, l).
(** Whether the text from [f] is a number, [n] characters of it. *)
Fixpoint digit_string_loop (n : nat) (b : list Z) (f i : Z) (is_hex : bool) : outcome bool :=
  match n with
  | O => Ok true
  | S n' =>
      c ← read_at b f;
      p ← (if 0 <? f then read_at b (f - 1) else Ok 0);
      let is_float := (c =? 46) || (lower c =? 101) || (0 <? f) && (lower p =? 101) && ((c =? 43) || (c =? 45)) in
      if (0 <? f) && (i =? 1) && (p =? 48) && ((c =? 120) || (c =? 88)) then digit_string_loop n' b (f + 1) (i + 1) true
      else if negb is_hex && negb (is_digit_char c) && negb is_float then Ok false
      else if is_hex && negb (is_hex_char c) then Ok false
      else digit_string_loop n' b (f + 1) (i + 1) is_hex
  end.
Definition is_digit_string_2 (b : list Z) (f t : Z) : outcome bool :=
  if f =? t then c ← read_at b f; Ok (is_digit_char c)
  else if t <? f then Fault OutOfBounds
  else digit_string_loop (Z.to_nat (t - f)) b f 0 false.
Definition process_literal_digit (s : shared_st) (l : literal_digit_st) : outcome (p_st * shared_st * literal_digit_st) :=
  c ← q_at s 0;
  '(s, l) ← (if first_digit l && is_token_char (prev_char s) && is_digit_char c then
               b ← write_at (res s) (res_cur_pos s) c; Ok (s <| res := b |>, mk_literal_digit false (Some (res_pre_pos s)))
             else Ok (s, l));
  let is_float_char := (c =? 46) || (lower (prev_char s) =? 101) && ((c =? 45) || (c =? 43)) in
  let last := q_len =? q_cur_pos s + 1 in
  if is_token_char c && negb is_float_char || last then
    match start_pos l with
    | None => Fault NullPointer
    | Some p =>
        number ← is_digit_string_2 (res s) p (res_cur_pos s);
        s ← (if (number : bool) then place_mark p s else Ok s);
        if number && negb (is_token_char c) && last then Ok (st_literal_number, s <| will_copy := false |>, l)
        else Ok (st_no_mark_found, s, mk_literal_digit false None)
    end
  else Ok (st_literal_number, s, l).
Definition is_letter (u : Z) (c : Z) : bool := (c =? u) || (c =? u + 32).
Definition process_replace_null (s : shared_st) : outcome (p_st * shared_st) :=
  let left := q_len - q_cur_pos s in
  null_found ← Ok (4 <=? left) &&? q_is s 0 (is_letter 78) &&? q_is s 1 (is_letter 85) &&? q_is s 2 (is_letter 76) &&? q_is s 3 (is_letter 76)
               &&? (if 4 <? left then q_is s 4 is_token_char else Ok true);
  if (null_found : bool) then s ← place_mark (res_pre_pos s) s; Ok (st_no_mark_found, skip 4 s)
  else s ← copy_next_char s; Ok (st_no_mark_found, s).

(** ** The loop *)
(** What follows a state that goes on. *)
Definition consume (s : shared_st) : outcome shared_st := if will_copy s then copy_next_char s else inc_proc_pos s.
Definition next_or (r : p_st * shared_st) (t : stage_1_st) : outcome (p_st * shared_st * stage_1_st) :=
  let '(cur, s) := r in
  match cur with
  | st_no_mark_found => Ok (cur, s <| will_copy := true |>, t)
  | _ => s ← consume s; Ok (cur, s, t)
  end.
Definition no_mark (s : shared_st) (t : stage_1_st) : outcome (p_st * shared_st * stage_1_st) :=
  let s := s <| res_pre_pos := res_cur_pos s |> in
  cur ← get_next_st s;
  match cur with
  | st_no_mark_found =>
      c ← q_at s 0;
      if (res_cur_pos s =? 0) && is_space_char c then Ok (cur, skip 1 s, t)
      else if is_space_char (prev_char s) && is_space_char c then
        l ← read_at (res s) (res_cur_pos s - 1);
        let s := if negb (is_space_char l) then s <| res_cur_pos := res_cur_pos s + 1 |> else s in
        b ← write_at (res s) (res_cur_pos s) 32;
        Ok (cur, skip 1 ((s <| prev_char := 32 |>) <| res := b |>), t)
      else s ← copy_next_char s; Ok (cur, s, t)
  | _ => Ok (cur, s, t)
  end.
(** One turn of the loop. *)
Definition stage_1_step (cur : p_st) (s : shared_st) (t : stage_1_st) : outcome (p_st * shared_st * stage_1_st) :=
  match cur with
  | st_no_mark_found => no_mark s t
  | st_cmnt_type_1 => '(cur, s, c) ← process_cmnt_type_1 (s <| will_copy := false |>) (cmnt t); next_or (cur, s) (t <| cmnt := c |>)
  | st_cmnt_type_2 => r ← process_cmnt_type_2 (s <| will_copy := false |>); next_or r t
  | st_cmnt_type_3 => r ← process_cmnt_type_3 (s <| will_copy := false |>); next_or r t
  | st_literal_string => '(cur, s, l) ← process_literal_string (s <| will_copy := false |>) (literal_str t); next_or (cur, s) (t <| literal_str := l |>)
  | st_literal_number =>
      '(cur, s, l) ← process_literal_digit (s <| will_copy := true |>) (literal_digit t);
      next_or (cur, s) (t <| literal_digit := match cur with st_no_mark_found => l <| first_digit := true |> | _ => l end |>)
  | st_replace_null => r ← process_replace_null s; next_or r t
  end.
Fixpoint stage_1_loop (fuel : nat) (cur : p_st) (s : shared_st) (t : stage_1_st) : outcome (p_st * shared_st * stage_1_st) :=
  if (res_cur_pos s <=? d_max_len - 1) && (q_cur_pos s <? q_len) then
    match fuel with
    | O => Fault Diverges
    | S fuel' => '(cur, s, t) ← stage_1_step cur s t; stage_1_loop fuel' cur s t
    end
  else Ok (cur, s, t).
(** Three turns for a character are enough. *)
Definition stage_1_fuel : nat := 3 * length q + 3.
Definition stage_1_parsing (s : shared_st) (t : stage_1_st) : outcome (shared_st * stage_1_st) :=
  let s := match new_end_pos t with Some e => (s <| res_cur_pos := e |>) <| res_pre_pos := e |> | None => s end in
  s ← (if negb (res_it_init_pos s =? 0) then c ← read_at (res s) (res_pre_pos s - 1); Ok (s <| prev_char := c |>) else Ok s);
  '(cur, s, t) ← stage_1_loop stage_1_fuel (st s) s t;
  b ← write_at (res s) (res_cur_pos s) 0;
  let s := (s <| res := b |>) <| st := cur |> in
  let new_end := match cur with st_literal_number => Some (res_cur_pos s) | _ => None end in
  Ok (s, (t <| pre_it_pos := Some (res_cur_pos s) |>) <| new_end_pos := new_end |>).
End Stage1.

(** ** The first stage stays in its buffers and ends *)
Lemma read_in {A} (l : list A) i : 0 <= i < Z.of_nat (length l) → ∃ x, read_at l i = Ok x.
Proof. intros H. destruct (read_at_ok l i H) as (x & E & _). by exists x. Qed.
Lemma write_in {A} (l : list A) i x : 0 <= i < Z.of_nat (length l) → ∃ l', write_at l i x = Ok l' ∧ length l' = length l.
Proof. intros H. rewrite write_at_ok by done. eexists. split; [done|]. apply length_insert. Qed.
Lemma annotation_ok n b i : 0 <= i → i + Z.of_nat n <= Z.of_nat (length b) → ∃ j some, annotation n b i = Ok (j, some) ∧ i <= j <= i + Z.of_nat n ∧ (some = true → j < i + Z.of_nat n).
Proof.
  revert i. induction n as [|n IH]; intros i Hi Hn; cbn [annotation]; [exists i, false; split; [done|split; [lia|done]]|].
  destruct (read_in b i) as [c ->]; [lia|]. cbn [mbind outcome_bind]. case_test.
  - destruct (IH (i + 1)) as (j & some & -> & Hj & Hs); [lia|lia|]. exists j, some. split; [done|]. split; [lia|]. intros E'. specialize (Hs E'). lia.
  - exists i, true. split; [done|]. split; [lia|]. lia.
Qed.
Lemma digit_string_ok n b f i hex : 0 <= f → f + Z.of_nat n <= Z.of_nat (length b) → ∃ r, digit_string_loop n b f i hex = Ok r.
Proof.
  revert f i hex. induction n as [|n IH]; intros f i hex Hf Hn; cbn [digit_string_loop]; [eauto|].
  destruct (read_in b f) as [c ->]; [lia|]. cbn [mbind outcome_bind].
  assert (∃ p, (if 0 <? f then read_at b (f - 1) else Ok 0) = Ok p) as [p ->] by (case_test; [apply read_in; lia|eauto]). cbn [mbind outcome_bind].
  repeat (case_match; try (eexists; reflexivity); try (apply IH; lia)).
Qed.

(** A conjunction of tests that do not fault. *)
Lemma and_ok m n b : m = Ok b → (b = true → ∃ c, n = Ok c) → ∃ r, (m &&? n) = Ok r ∧ (r = true → b = true ∧ n = Ok true).
Proof. intros -> Hn. cbn. destruct b; [|by exists false]. destruct Hn as [c ->]; [done|]. exists c. by destruct c. Qed.

Section Stage1Safe.
Context (opts : options) (q : list Z) (malloc : Z → list Z).
Context (malloc_size : ∀ n, 0 <= n → Z.of_nat (length (malloc n)) = n) (no_keep : keep_comment opts = false).
Abbreviation q_len := (Z.of_nat (length q)).

Lemma q_at_ok s k : 0 <= q_cur_pos s + k < q_len → ∃ c, q_at q s k = Ok c ∧ q !! Z.to_nat (q_cur_pos s + k) = Some c.
Proof. apply read_at_ok. Qed.

(** Positions: the buffer has room for the query and a terminator, and what was written is not
    longer than what was read. *)
Definition shape (s : shared_st) : Prop :=
  q_len + 1 <= Z.of_nat (length (res s)) ∧ 0 <= res_pre_pos s <= res_cur_pos s ∧ res_cur_pos s <= q_len ∧ res_cur_pos s <= q_cur_pos s <= q_len + 1 ∧ res_it_init_pos s = 0.
Definition cmnt_ok (c : cmnt_type_1_st) : Prop :=
  Z.of_nat (length (cur_cmd_cmnt c)) = FIRST_COMMENT_MAX_LENGTH ∧ 0 <= cur_cmd_cmnt_len c < FIRST_COMMENT_MAX_LENGTH ∧ 0 <= fst_cmnt_len c < FIRST_COMMENT_MAX_LENGTH ∧
  match fst_cmnt c with Some b => Z.of_nat (length b) = FIRST_COMMENT_MAX_LENGTH | None => fst_cmnt_len c = 0 end.
(** At the mark of a comment, or behind it. *)
Definition at_mark (s : shared_st) : Prop := q_cur_pos s < q_len - 1 ∧ q !! Z.to_nat (q_cur_pos s) = Some 47 ∧ q !! Z.to_nat (q_cur_pos s + 1) = Some 42.
Definition in_cmnt (s : shared_st) (c : cmnt_type_1_st) : Prop :=
  res_cur_pos s + 2 <= q_cur_pos s ∧ (is_cmd c = true → res_cur_pos s + cur_cmd_cmnt_len c + 3 <= q_cur_pos s).
Definition at_digit (s : shared_st) : Prop :=
  res_pre_pos s = res_cur_pos s ∧ is_token_char (prev_char s) = true ∧ ∃ c, q !! Z.to_nat (q_cur_pos s) = Some c ∧ is_digit_char c = true.
Definition state_ok (cur : p_st) (s : shared_st) (t : stage_1_st) : Prop :=
  match cur with st_cmnt_type_1 => at_mark s ∧ is_cmd (cmnt t) = false ∨ in_cmnt s (cmnt t) | _ => is_cmd (cmnt t) = true → q_len - 1 <= q_cur_pos s end ∧
  match cur with
  | st_literal_number => if first_digit (literal_digit t) then at_digit s else start_pos (literal_digit t) = Some (res_pre_pos s) ∧ res_pre_pos s < res_cur_pos s
  | _ => literal_digit t = mk_literal_digit true None
  end.
Definition inv (cur : p_st) (s : shared_st) (t : stage_1_st) : Prop := shape s ∧ cmnt_ok (cmnt t) ∧ state_ok cur s t.
(** Every turn makes this smaller. *)
Definition measure (cur : p_st) (s : shared_st) (t : stage_1_st) : Z :=
  3 * (q_len - q_cur_pos s) + match cur with st_no_mark_found => 1 | st_literal_number => if first_digit (literal_digit t) then 0 else 2 | _ => 0 end.

Lemma put_char_ok c s : 0 <= res_cur_pos s < Z.of_nat (length (res s)) →
  ∃ b, put c s = Ok ((s <| res := b |>) <| res_cur_pos := res_cur_pos s + 1 |>) ∧ length b = length (res s).
Proof. intros H. unfold put. destruct (write_in (res s) (res_cur_pos s) c H) as (b & -> & E). eauto. Qed.
Lemma inc_ok s : 0 <= q_cur_pos s < q_len → ∃ p k, inc_proc_pos q s = Ok (skip 1 ((s <| prev_char := p |>) <| keep_prev_char := k |>)).
Proof.
  intros H. unfold inc_proc_pos. destruct (q_at_ok s 0) as (c & -> & _); [lia|]. cbn [mbind outcome_bind]. destruct s as [g qc r ri rc rp s0 pc [] wc]; cbn; [exists pc, false|exists c, false]; done.
Qed.
(** Copying keeps to the buffer, whichever character it is. *)
Lemma copy_ok s : 0 <= q_cur_pos s < q_len → 0 <= res_cur_pos s < Z.of_nat (length (res s)) →
  ∃ b p k, copy_next_char opts q s = Ok (skip 1 ((((s <| res := b |>) <| res_cur_pos := res_cur_pos s + 1 |>) <| prev_char := p |>) <| keep_prev_char := k |>)) ∧ length b = length (res s).
Proof.
  intros H Hr. unfold copy_next_char. destruct (q_at_ok s 0) as (c & -> & _); [lia|]. cbn [mbind outcome_bind].
  destruct (put_char_ok (if negb (lowercase opts) then to_space c else if is_space_char c then 32 else lower c) s Hr) as (b & -> & E). cbn [mbind outcome_bind].
  destruct (inc_ok ((s <| res := b |>) <| res_cur_pos := res_cur_pos s + 1 |>)) as (p & k & ->); [done|]. eauto.
Qed.

Lemma begin_ok s c : q_cur_pos s < q_len → shape s → cmnt_ok c → at_mark s ∧ is_cmd c = false ∨ in_cmnt s c →
  ∃ over k c', cmnt_1_begin opts q s c = Ok (over, skip k s, c') ∧ shape (skip k s) ∧ cmnt_ok c' ∧ in_cmnt (skip k s) c' ∧
    if (over : bool) then 0 < k ∧ q_len - 1 <= q_cur_pos s + k else 0 <= k ∧ q_cur_pos s + k < q_len.
Proof using no_keep.
  intros Hq (Hr & Hp & Hc & Hqc) (Hb & Hl & Hf & Hfb) Hm. unfold cmnt_1_begin. rewrite no_keep.
  assert (∃ mark, (Ok (q_cur_pos s <=? q_len - 2) &&? q_is q s 0 (Z.eqb 47) &&? q_is q s 1 (Z.eqb 42)) = Ok mark ∧ (mark = true → q_cur_pos s <= q_len - 2) ∧ (at_mark s → mark = true)) as (mark & -> & Hmark & Hat).
  { unfold q_is. cbn [mbind outcome_bind]. destruct (Z.leb_spec (q_cur_pos s) (q_len - 2)) as [E|E].
    - destruct (q_at_ok s 0) as (c0 & -> & E0); [lia|]. destruct (q_at_ok s 1) as (c1 & -> & E1); [lia|]. cbn [mbind outcome_bind]. rewrite Z.add_0_r in E0.
      destruct (47 =? c0) eqn:Ec; cbn; (eexists; split; [done|]; split; [done|]); intros (_ & A & B); rewrite A in E0; rewrite B in E1; injection E0 as <-; injection E1 as <-; done.
    - exists false. split; [done|]. split; [done|]. intros (A & _). lia. }
  cbn [mbind outcome_bind]. destruct mark.
  - specialize (Hmark eq_refl).
    assert (∃ cmd, (Ok (negb (q_cur_pos s =? q_len - 2)) &&? q_is q s 2 (Z.eqb 33)) = Ok cmd) as (cmd & Ecmd).
    { cbn. destruct (Z.eqb_spec (q_cur_pos s) (q_len - 2)) as [E|E]; cbn; [eauto|]. unfold q_is. destruct (q_at_ok s 2) as (c2 & -> & _); [lia|]. cbn. eauto. }
    cbn [mbind outcome_bind] in Ecmd. rewrite Ecmd. cbn [mbind outcome_bind]. set (c' := if cmd then _ else _). assert (cmnt_ok c' ∧ cur_cmd_cmnt_len c' = 0) as [Hc' Hl'] by (unfold c'; destruct cmd; (split; [split; [done|]; split; [cbn; done|done]|done])).
    set (k := if is_cmd c' then 3 else 2). assert (2 <= k <= 3 ∧ (is_cmd c' = true → k = 3)) as [Hk Hk3] by (unfold k; destruct (is_cmd c'); lia).
    exists (q_len - 1 <=? q_cur_pos s + k), k, c'. split; [done|]. split; [split; [done|]; split; [done|]; split; [done|]; cbn; lia|]. split; [done|]. split.
    + clearbody k c'. unfold in_cmnt. rewrite Hl'. cbn. split; [lia|]. intros E. specialize (Hk3 E). lia.
    + destruct (Z.leb_spec (q_len - 1) (q_cur_pos s + k)); lia.
  - exists false, 0, c. assert (skip 0 s = s) as -> by (destruct s; unfold skip; cbn; by rewrite Z.add_0_r). split; [done|]. split; [done|]. split; [done|].
    split; [|lia]. destruct Hm as [[Ha _]|Hi]; [|done]. by specialize (Hat Ha).
Qed.
Lemma copy_cmnt_ok ch c : cmnt_ok c → ∃ c', cmnt_1_copy opts ch c = Ok c' ∧ cmnt_ok c' ∧ is_cmd c' = is_cmd c ∧ cur_cmd_cmnt_len c <= cur_cmd_cmnt_len c' <= cur_cmd_cmnt_len c + 1 ∧ (is_cmd c = false → c' = c).
Proof using no_keep.
  intros (Hb & Hl & Hf & Hfb). unfold cmnt_1_copy, cmnt_1_copied. rewrite no_keep, orb_false_r. destruct (is_cmd c) eqn:Ei; cbn [andb].
  - destruct (Z.ltb_spec (cur_cmd_cmnt_len c) (FIRST_COMMENT_MAX_LENGTH - 1)) as [E|E].
    + destruct (write_in (cur_cmd_cmnt c) (cur_cmd_cmnt_len c) ch) as (b & -> & Eb); [lia|]. cbn. eexists. split; [done|]. split; [split; [cbn; lia|]; split; [cbn; lia|done]|]. split; [done|]. cbn. split; [lia|done].
    + exists c. split; [done|]. split; [done|]. split; [done|]. split; [lia|done].
  - exists c. split; [done|]. split; [done|]. split; [done|]. split; [lia|done].
Qed.
Lemma first_cmnt_ok ch ends c : cmnt_ok c → ∃ c', cmnt_1_first malloc ch ends c = Ok c' ∧ cmnt_ok c' ∧ is_cmd c' = is_cmd c ∧ cur_cmd_cmnt_len c' = cur_cmd_cmnt_len c ∧ cur_cmd_cmnt c' = cur_cmd_cmnt c.
Proof using malloc_size.
  intros (Hb & Hl & Hf & Hfb). unfold cmnt_1_first. destruct (fst_cmnt_end c); [by exists c|].
  assert (∃ c1, (if fst_cmnt_len c <? FIRST_COMMENT_MAX_LENGTH - 1 then
      b ← match fst_cmnt c with Some b => Ok b | None => write_at (malloc FIRST_COMMENT_MAX_LENGTH) (FIRST_COMMENT_MAX_LENGTH - 1) 0 end;
      b ← write_at b (fst_cmnt_len c) (to_space ch); Ok ((c <| fst_cmnt := Some b |>) <| fst_cmnt_len := fst_cmnt_len c + 1 |>) else Ok c) = Ok c1 ∧
    cmnt_ok c1 ∧ is_cmd c1 = is_cmd c ∧ cur_cmd_cmnt_len c1 = cur_cmd_cmnt_len c ∧ cur_cmd_cmnt c1 = cur_cmd_cmnt c ∧ 0 < fst_cmnt_len c1) as (c1 & -> & (Hb1 & Hl1 & Hf1 & Hfb1) & E1 & E2 & E3 & Hpos).
  { destruct (Z.ltb_spec (fst_cmnt_len c) (FIRST_COMMENT_MAX_LENGTH - 1)) as [E|E].
    - assert (∃ b, match fst_cmnt c with Some b => Ok b | None => write_at (malloc FIRST_COMMENT_MAX_LENGTH) (FIRST_COMMENT_MAX_LENGTH - 1) 0 end = Ok b ∧ Z.of_nat (length b) = FIRST_COMMENT_MAX_LENGTH) as (b & -> & Eb).
      { destruct (fst_cmnt c) as [b|]; [by exists b|]. pose proof (malloc_size FIRST_COMMENT_MAX_LENGTH ltac:(done)) as Hm.
        destruct (write_in (malloc FIRST_COMMENT_MAX_LENGTH) (FIRST_COMMENT_MAX_LENGTH - 1) 0) as (b & -> & Eb); [rewrite Hm; done|]. exists b. split; [done|]. by rewrite Eb. }
      cbn [mbind outcome_bind]. destruct (write_in b (fst_cmnt_len c) (to_space ch)) as (b' & -> & Eb'); [lia|]. cbn. eexists. split; [done|].
      split; [split; [done|]; split; [done|]; split; cbn; [lia|by rewrite Eb']|]. do 3 (split; [done|]). cbn. lia.
    - exists c. unfold FIRST_COMMENT_MAX_LENGTH in *. split; [done|]. split; [done|]. do 3 (split; [done|]). lia. }
  cbn [mbind outcome_bind]. destruct ends; [|exists c1; split; [done|]; split; [done|]; done].
  set (n := if 2 <=? fst_cmnt_len c1 then _ else _). assert (0 <= n <= fst_cmnt_len c1) as Hn by (unfold n; case_test; lia).
  destruct (fst_cmnt c1) as [b|]; [|lia]. destruct (write_in b n 0) as (b' & -> & Eb'); [lia|]. cbn. eexists. split; [done|].
  split; [split; [cbn; by rewrite E3|]; split; [cbn; lia|]; split; cbn; [lia|by rewrite Eb']|]. done.
Qed.
Lemma space_ok s : 0 < res_cur_pos s <= q_len → q_len + 1 <= Z.of_nat (length (res s)) →
  ∃ b r, space_unless q_len s = Ok ((s <| res := b |>) <| res_cur_pos := r |>) ∧ length b = length (res s) ∧ res_cur_pos s <= r <= res_cur_pos s + 1 ∧ r <= q_len.
Proof.
  intros Hr Hl. unfold space_unless. destruct (read_in (res s) (res_cur_pos s - 1)) as (l & ->); [lia|]. cbn [mbind outcome_bind].
  destruct (negb (l =? 32) && negb (res_cur_pos s =? q_len)) eqn:E.
  - zbool. destruct (put_char_ok 32 s) as (b & -> & Eb); [lia|]. exists b, (res_cur_pos s + 1). split; [done|]. split; [done|]. lia.
  - exists (res s), (res_cur_pos s). split; [by destruct s|]. split; [done|]. lia.
Qed.
Lemma command_ok s c : 0 <= res_cur_pos s < q_len → q_len + 1 <= Z.of_nat (length (res s)) → cmnt_ok c →
  ∃ b r c', cmnt_1_command opts q_len s c = Ok ((s <| res := b |>) <| res_cur_pos := r |>, c') ∧ length b = length (res s) ∧ cmnt_ok c' ∧ is_cmd c' = false ∧
    res_cur_pos s <= r <= q_len ∧ (is_cmd c = false → r = res_cur_pos s) ∧ (is_cmd c = true → r <= res_cur_pos s + Z.max 0 (cur_cmd_cmnt_len c - 1)).
Proof using no_keep.
  intros Hr Hlen (Hb & Hl & Hf & Hfb). unfold cmnt_1_command, cmnt_1_copied. rewrite no_keep, orb_false_r.
  assert (s = (s <| res := res s |>) <| res_cur_pos := res_cur_pos s |>) as Es by (by destruct s).
  destruct (is_cmd c) eqn:Ei; [|exists (res s), (res_cur_pos s), c; split; [by rewrite <- Es|]; split; [done|]; split; [done|]; split; [done|]; split; [lia|done]].
  destruct (write_in (cur_cmd_cmnt c) (cur_cmd_cmnt_len c) 0) as (b & -> & Eb); [lia|]. cbn [mbind outcome_bind].
  set (len := cur_cmd_cmnt_len c) in *. destruct (Z.leb_spec 2 len) as [E2|E2]; [|cbn [mbind outcome_bind]; exists (res s), (res_cur_pos s); eexists; split; [by rewrite <- Es|];
    split; [done|]; split; [split; [cbn; lia|]; split; [done|done]|]; split; [done|]; split; [lia|]; split; [done|]; lia].
  destruct (write_in b (len - 2) 0) as (b2 & -> & Eb2); [lia|]. cbn [mbind outcome_bind].
  destruct (annotation_ok (Z.to_nat (len - 2)) b2 0) as (j & some & -> & Hj & Hs); [lia|lia|]. cbn [mbind outcome_bind]. destruct some.
  - specialize (Hs eq_refl). set (n := if len - 2 - j <? q_len - res_cur_pos s then _ else _). assert (0 < n <= len - 2 - j ∧ n <= q_len - res_cur_pos s) as [Hn Hn2] by (unfold n; case_test; lia).
    rewrite slice_ok by lia. cbn [mbind outcome_bind]. set (src := take _ _). assert (Z.of_nat (length src) = n) as Lsrc by (unfold src; rewrite length_take, length_drop; lia).
    rewrite blit_ok by lia. cbn [mbind outcome_bind]. set (r := take _ _ ++ _). assert (length r = length (res s)) as Lr by (unfold r; rewrite !length_app, length_take, length_drop; lia).
    destruct (space_ok ((s <| res := r |>) <| res_cur_pos := res_cur_pos s + n |>)) as (b3 & r3 & -> & Eb3 & Hr3 & Hr4); [cbn; lia|cbn; lia|]. cbn [mbind outcome_bind].
    change (res ((s <| res := r |>) <| res_cur_pos := res_cur_pos s + n |>)) with r in Eb3. change (res_cur_pos ((s <| res := r |>) <| res_cur_pos := res_cur_pos s + n |>)) with (res_cur_pos s + n) in Hr3.
    exists b3, r3. eexists. split; [done|]. split; [congruence|]. split; [split; [cbn; lia|]; split; [done|done]|]. split; [done|]. split; [lia|]. split; [done|]. lia.
  - cbn [mbind outcome_bind]. exists (res s), (res_cur_pos s). eexists. split; [by rewrite <- Es|]. split; [done|]. split; [split; [cbn; lia|]; split; [done|done]|]. split; [done|]. split; [lia|]. split; [done|]. lia.
Qed.

(** What a turn leaves: the invariant, and a smaller measure. *)
Definition step_ok (before : Z) (r : outcome (p_st * shared_st * stage_1_st)) : Prop := ∃ cur s t, r = Ok (cur, s, t) ∧ inv cur s t ∧ measure cur s t < before.
(** A state that is left. *)
Lemma leave_ok before s t : shape s → cmnt_ok (cmnt t) → (is_cmd (cmnt t) = true → q_len - 1 <= q_cur_pos s) → literal_digit t = mk_literal_digit true None →
  3 * (q_len - q_cur_pos s) + 1 < before → step_ok before (next_or opts q (st_no_mark_found, s) t).
Proof. intros Hs Hc Hi Hl Hb. eexists _, _, _. split; [done|]. split; [split; [exact Hs|]; split; [done|]; split; done|done]. Qed.
(** A state that goes on without copying. *)
Lemma stay_ok before cur s t : cur ≠ st_no_mark_found → will_copy s = false → shape s → q_cur_pos s < q_len → cmnt_ok (cmnt t) →
  (∀ p k, state_ok cur (skip 1 ((s <| prev_char := p |>) <| keep_prev_char := k |>)) t) →
  3 * (q_len - q_cur_pos s) - 1 < before → step_ok before (next_or opts q (cur, s) t).
Proof.
  intros Hcur Hw (Hr & Hp & Hc & Hq) Hlt Hc1 Hst Hb. unfold step_ok, next_or, consume. rewrite Hw. destruct (inc_ok s) as (p & k & ->); [lia|]. cbn [mbind outcome_bind].
  exists cur, (skip 1 ((s <| prev_char := p |>) <| keep_prev_char := k |>)), t. split; [by destruct cur|]. split.
  - split; [split; [done|]; split; [done|]; split; [done|]; cbn; lia|]. split; [done|apply Hst].
  - unfold measure. cbn. destruct cur; try done; try lia. destruct (first_digit (literal_digit t)); lia.
Qed.

Lemma cmnt_1_ok s t : shape s → q_cur_pos s < q_len → res_cur_pos s < q_len → cmnt_ok (cmnt t) → literal_digit t = mk_literal_digit true None →
  at_mark s ∧ is_cmd (cmnt t) = false ∨ in_cmnt s (cmnt t) → step_ok (3 * (q_len - q_cur_pos s)) (stage_1_step opts q q_len malloc st_cmnt_type_1 s t).
Proof using malloc_size no_keep.
  intros Hs Hq Hr Hc Hl Hm. unfold stage_1_step, process_cmnt_type_1. set (s0 := s <| will_copy := false |>).
  destruct (begin_ok s0 (cmnt t) Hq Hs Hc Hm) as (over & k & c & -> & Hs1 & Hc1 & Hin & Hov). cbn [mbind outcome_bind]. destruct over.
  { apply leave_ok; [done|done|intros _; exact (proj2 Hov)|done|]. cbn in *. lia. }
  destruct Hov as [Hk Hk2]. change (q_cur_pos s0) with (q_cur_pos s) in Hk2. destruct Hs1 as (Hlen & Hp & Hrc & Hqc). destruct Hin as [Hin1 Hin2].
  destruct (q_at_ok (skip k s0) 0) as (ch & -> & _); [cbn in *; lia|]. cbn [mbind outcome_bind]. set (ends := _ && _).
  destruct (copy_cmnt_ok ch c Hc1) as (c2 & -> & Hc2 & Ei2 & El2 & _). cbn [mbind outcome_bind].
  destruct (first_cmnt_ok ch ends c2 Hc2) as (c3 & -> & Hc3 & Ei3 & El3 & _). cbn [mbind outcome_bind]. destruct ends.
  - destruct (command_ok (skip k s0) c3) as (b & r & c4 & -> & Lb & Hc4 & Ei4 & Hr4 & Hr5 & Hr6); [cbn in *; lia|done|done|]. cbn [mbind outcome_bind].
    change (length (res (skip k s0))) with (length (res s)) in *.
    set (s1 := (_ <| res := b |>) <| res_cur_pos := r |>). change (res_cur_pos (skip k s0)) with (res_cur_pos s) in *. change (q_cur_pos (skip k s0)) with (q_cur_pos s + k) in *.
    assert (r + 1 <= q_cur_pos s + k) as Hr1.
    { rewrite Ei3, Ei2 in *. destruct (is_cmd c); [specialize (Hin2 eq_refl); specialize (Hr6 eq_refl); rewrite El3 in Hr6; lia|specialize (Hr5 eq_refl); lia]. }
    assert (∃ b2 r2, (if negb (res_cur_pos s1 =? 0) && negb (res_cur_pos s1 =? q_len) then space_unless q_len s1 else Ok s1) = Ok ((s1 <| res := b2 |>) <| res_cur_pos := r2 |>) ∧
      length b2 = length b ∧ r <= r2 <= r + 1 ∧ r2 <= q_len) as (b2 & r2 & -> & Lb2 & Hr2 & Hr3).
    { change (res_cur_pos s1) with r. destruct (negb (r =? 0) && negb (r =? q_len)) eqn:E; [|exists b, r; split; [done|]; split; [done|]; lia].
      zbool. destruct (space_ok s1) as (b2 & r2 & -> & E2 & H2 & H3); [cbn; lia|cbn; lia|]. exists b2, r2. done. }
    cbn [mbind outcome_bind]. apply leave_ok; [|done|done|done|cbn; lia]. split; [cbn; lia|]. split; [cbn; cbn in Hp; lia|]. split; [cbn; lia|]. cbn in Hqc |- *. lia.
  - apply stay_ok; [done|done|done|cbn in *; lia|done| |cbn in *; lia]. intros p k'. split; [|exact Hl]. right. unfold in_cmnt. cbn. rewrite Ei3, Ei2, El3. cbn in *. split; [lia|].
    intros E. specialize (Hin2 E). lia.
Qed.
Lemma line_end_ok before s t stay : stay = st_cmnt_type_2 ∨ stay = st_cmnt_type_3 → will_copy s = false → shape s → q_cur_pos s < q_len → cmnt_ok (cmnt t) →
  (is_cmd (cmnt t) = true → q_len - 1 <= q_cur_pos s) → literal_digit t = mk_literal_digit true None → 3 * (q_len - q_cur_pos s) - 1 < before →
  step_ok before (r ← line_end q s stay; next_or opts q r t).
Proof.
  intros Hst Hw Hs Hq Hc Hi Hl Hb. pose proof Hs as (Hr & Hp & Hrc & Hqc). unfold line_end. destruct (q_at_ok s 0) as (c & -> & _); [lia|]. cbn [mbind outcome_bind].
  case_match; cbn [mbind outcome_bind].
  - apply leave_ok; [split; [done|]; split; [done|]; split; [done|]; cbn; lia|done|cbn; intros E; specialize (Hi E); lia|done|cbn; lia].
  - apply stay_ok; [by destruct Hst; subst|done|done|done|done| |done]. intros p k. destruct Hst; subst; (split; [cbn; intros E; specialize (Hi E); lia|done]).
Qed.
Lemma mark_2 s : q_cur_pos s < q_len → 0 <= q_cur_pos s → ∃ b, (q_is q s 0 (Z.eqb 35) &&? Ok (q_cur_pos s <=? q_len - 2)) = Ok b ∧ (b = true → q_cur_pos s <= q_len - 2).
Proof.
  intros Hq H0. unfold q_is. destruct (q_at_ok s 0) as (c & -> & _); [lia|]. cbn [mbind outcome_bind]. destruct (35 =? c); eexists; (split; [done|]); intros E; zbool; [lia|done].
Qed.
Lemma mark_3 s : q_cur_pos s < q_len → 0 <= q_cur_pos s →
  ∃ b, (Ok (q_cur_pos s <=? q_len - 4) &&? q_is q s 0 (Z.eqb 45) &&? q_is q s 1 (Z.eqb 45) &&? q_is q s 2 is_space_char) = Ok b ∧ (b = true → q_cur_pos s <= q_len - 4).
Proof.
  intros Hq H0. cbn [mbind outcome_bind]. destruct (Z.leb_spec (q_cur_pos s) (q_len - 4)) as [E|E]; [|by exists false].
  unfold q_is. destruct (q_at_ok s 0) as (c & -> & _); [lia|]. destruct (q_at_ok s 1) as (c1 & -> & _); [lia|]. destruct (q_at_ok s 2) as (c2 & -> & _); [lia|]. cbn [mbind outcome_bind].
  destruct (45 =? c); cbn [mbind outcome_bind]; [destruct (45 =? c1)|]; cbn [mbind outcome_bind]; by eexists.
Qed.
Lemma skip_shape s k : shape s → 0 <= k → q_cur_pos s + k <= q_len + 1 → shape (skip k s).
Proof. intros (Hr & Hp & Hc & Hq) Hk Hle. split; [done|]. split; [done|]. split; [done|]. cbn. lia. Qed.
Lemma cmnt_line_ok stay s t : stay = st_cmnt_type_2 ∨ stay = st_cmnt_type_3 → shape s → q_cur_pos s < q_len → cmnt_ok (cmnt t) →
  (is_cmd (cmnt t) = true → q_len - 1 <= q_cur_pos s) → literal_digit t = mk_literal_digit true None →
  step_ok (3 * (q_len - q_cur_pos s)) (stage_1_step opts q q_len malloc stay s t).
Proof.
  intros Hst Hs Hq Hc Hi Hl. set (s0 := s <| will_copy := false |>). assert (shape s0) as Hs0 by done. pose proof Hs as (_ & Hp & _ & Hqc).
  assert (∀ mark n, 0 < n → (mark = true → q_cur_pos s <= q_len - n - 1) →
    step_ok (3 * (q_len - q_cur_pos s)) (r ← (if mark && (q_cur_pos (if mark then skip n s0 else s0) =? q_len - n - 1) then Ok (st_no_mark_found, if mark then skip n s0 else s0)
      else line_end q (if mark then skip n s0 else s0) stay); next_or opts q r t)) as H.
  { intros mark n Hn Hm. destruct mark; cbn [andb]; [specialize (Hm eq_refl)|].
    - case_match; cbn [mbind outcome_bind].
      + apply leave_ok; [apply skip_shape; [done|lia|cbn; lia]|done|cbn; intros E; specialize (Hi E); lia|done|cbn; lia].
      + apply line_end_ok; [done|done|apply skip_shape; [done|lia|cbn; lia]|cbn; lia|done|cbn; intros E; specialize (Hi E); lia|done|cbn; lia].
    - apply line_end_ok; done || (cbn; lia). }
  destruct Hst; subst; unfold stage_1_step; fold s0.
  - unfold process_cmnt_type_2. destruct (mark_2 s0) as (b & -> & Hb); [done|cbn; lia|]. cbn [mbind outcome_bind].
    specialize (H b 1 ltac:(lia)). replace (q_len - 1 - 1) with (q_len - 2) in H by lia. by apply H.
  - unfold process_cmnt_type_3. destruct (mark_3 s0) as (b & -> & Hb); [done|cbn; lia|]. cbn [mbind outcome_bind].
    specialize (H b 3 ltac:(lia)). replace (q_len - 3 - 1) with (q_len - 4) in H by lia. by apply H.
Qed.

Lemma place_ok pos s : 0 <= pos < Z.of_nat (length (res s)) →
  ∃ b, place_mark pos s = Ok (((s <| res := b |>) <| res_cur_pos := pos + 1 |>) <| prev_char := 63 |>) ∧ length b = length (res s).
Proof. intros H. unfold place_mark. destruct (put_char_ok 63 (s <| res_cur_pos := pos |>)) as (b & -> & E); [cbn; lia|]. cbn [mbind outcome_bind]. by exists b. Qed.
Lemma string_ok s t : shape s → q_cur_pos s < q_len → res_cur_pos s < q_len → cmnt_ok (cmnt t) →
  (is_cmd (cmnt t) = true → q_len - 1 <= q_cur_pos s) → literal_digit t = mk_literal_digit true None →
  step_ok (3 * (q_len - q_cur_pos s)) (stage_1_step opts q q_len malloc st_literal_string s t).
Proof.
  intros Hs Hq Hr Hc Hi Hl. unfold stage_1_step, process_literal_string. set (s0 := s <| will_copy := false |>). pose proof Hs as (Hlen & Hp & Hrc & Hqc).
  assert (∀ s1 l, shape s1 → q_cur_pos s1 = q_cur_pos s → will_copy s1 = false → step_ok (3 * (q_len - q_cur_pos s)) (next_or opts q (st_literal_string, s1) (t <| literal_str := l |>))) as Hstay.
  { intros s1 l Hs1 E1 Ew. apply stay_ok; [done|done|done|lia|done| |lia]. intros p k. split; [cbn; intros E; specialize (Hi E); lia|exact Hl]. }
  destruct (q_at_ok s0 0) as (c & -> & _); [cbn; lia|]. cbn [mbind outcome_bind].
  case_match; cbn [mbind outcome_bind]; [by apply Hstay|]. case_match; cbn [mbind outcome_bind]; [by apply Hstay|].
  set (last := q_len =? q_cur_pos s0 + 1).
  assert (∃ b, (Ok (c =? delim_char (literal_str t)) &&? (if last then Ok true else q_is q s0 1 (λ n, negb (n =? delim_char (literal_str t))))) = Ok b) as (closes & Ec).
  { cbn [mbind outcome_bind]. case_match; [|eauto]. destruct last eqn:El; [eauto|]. unfold last in El. zbool. change (q_cur_pos s0) with (q_cur_pos s) in El. unfold q_is. destruct (q_at_ok s0 1) as (c1 & -> & _); [cbn; lia|]. cbn. eauto. }
  cbn [mbind outcome_bind] in Ec. rewrite Ec. cbn [mbind outcome_bind]. destruct closes; [|by apply Hstay].
  destruct (place_ok (res_pre_pos s0) s0) as (b & -> & Lb); [cbn; lia|]. cbn [mbind outcome_bind]. change (res_pre_pos s0) with (res_pre_pos s). change (length (res s0)) with (length (res s)) in Lb.
  set (s1 := (_ <| prev_char := 63 |>)).
  destruct last eqn:El; unfold last in El; zbool; change (q_cur_pos s0) with (q_cur_pos s) in El.
  - (* the last character *)
    unfold next_or. cbn [mbind outcome_bind consume will_copy]. set (s2 := s1 <| will_copy := false |>). unfold step_ok, consume. change (will_copy s2) with false. cbn iota.
    destruct (inc_ok s2) as (p & k & ->); [cbn; lia|]. cbn [mbind outcome_bind]. eexists _, _, _. split; [done|]. split; [|unfold measure; cbn; lia].
    split; [split; [cbn; lia|]; split; [cbn; lia|]; split; [cbn; lia|]; cbn; lia|]. split; [done|]. split; [cbn; intros E; specialize (Hi E); lia|exact Hl].
  - apply leave_ok; [|done|cbn; intros E; specialize (Hi E); lia|exact Hl|cbn; lia]. split; [cbn; lia|]. split; [cbn; lia|]. split; [cbn; lia|]. cbn. lia.
Qed.
Lemma null_ok s t : shape s → q_cur_pos s < q_len → res_cur_pos s < q_len → cmnt_ok (cmnt t) →
  (is_cmd (cmnt t) = true → q_len - 1 <= q_cur_pos s) → literal_digit t = mk_literal_digit true None →
  step_ok (3 * (q_len - q_cur_pos s)) (stage_1_step opts q q_len malloc st_replace_null s t).
Proof.
  intros Hs Hq Hr Hc Hi Hl. unfold stage_1_step, process_replace_null. pose proof Hs as (Hlen & Hp & Hrc & Hqc). cbn zeta.
  assert (∃ b, (Ok (4 <=? q_len - q_cur_pos s) &&? q_is q s 0 (is_letter 78) &&? q_is q s 1 (is_letter 85) &&? q_is q s 2 (is_letter 76) &&? q_is q s 3 (is_letter 76)
               &&? (if 4 <? q_len - q_cur_pos s then q_is q s 4 is_token_char else Ok true)) = Ok b ∧ (b = true → 4 <= q_len - q_cur_pos s)) as (b & Eb & Hb).
  { cbn [mbind outcome_bind]. destruct (Z.leb_spec 4 (q_len - q_cur_pos s)) as [E|E]; [|by exists false]. unfold q_is.
    destruct (q_at_ok s 0) as (c0 & -> & _); [lia|]. destruct (q_at_ok s 1) as (c1 & -> & _); [lia|]. destruct (q_at_ok s 2) as (c2 & -> & _); [lia|]. destruct (q_at_ok s 3) as (c3 & -> & _); [lia|].
    cbn [mbind outcome_bind]. destruct (is_letter 78 c0); [|by exists false]. destruct (is_letter 85 c1); [|by exists false]. destruct (is_letter 76 c2); [|by exists false]. destruct (is_letter 76 c3); [|by exists false].
    destruct (Z.ltb_spec 4 (q_len - q_cur_pos s)); [|by eexists]. destruct (q_at_ok s 4) as (c4 & -> & _); [lia|]. by eexists. }
  rewrite Eb. cbn [mbind outcome_bind]. destruct b.
  - specialize (Hb eq_refl). destruct (place_ok (res_pre_pos s) s) as (b & -> & Lb); [lia|]. cbn [mbind outcome_bind].
    apply leave_ok; [|done|cbn; intros E; specialize (Hi E); lia|done|cbn; lia]. split; [cbn; lia|]. split; [cbn; lia|]. split; [cbn; lia|]. cbn. lia.
  - destruct (copy_ok s) as (b & p & k & -> & Lb); [lia|lia|]. cbn [mbind outcome_bind].
    apply leave_ok; [|done|cbn; intros E; specialize (Hi E); lia|done|cbn; lia]. split; [cbn; lia|]. split; [cbn; lia|]. split; [cbn; lia|]. cbn. lia.
Qed.
Lemma is_digit_string_ok b f t : 0 <= f <= t → t < Z.of_nat (length b) → ∃ r, is_digit_string_2 b f t = Ok r.
Proof.
  intros Hf Ht. unfold is_digit_string_2. case_test; [destruct (read_in b f) as [c ->]; [lia|]; cbn; eauto|]. case_test; [lia|]. apply digit_string_ok; lia.
Qed.
Lemma digit_is_not_token c : is_digit_char c = true → is_token_char c = false.
Proof. unfold is_digit_char, is_token_char, is_normal_char. intros H. apply andb_true_iff in H as [H1 H2]. rewrite H1, H2. by rewrite !orb_true_r. Qed.
(** The copy that follows a digit. *)
Lemma digit_stays before s t : shape s → q_cur_pos s < q_len → res_cur_pos s < q_len → cmnt_ok (cmnt t) → (is_cmd (cmnt t) = true → q_len - 1 <= q_cur_pos s) →
  literal_digit t = mk_literal_digit false (Some (res_pre_pos s)) → will_copy s = true → 3 * (q_len - q_cur_pos s) - 1 < before →
  step_ok before (next_or opts q (st_literal_number, s) t).
Proof.
  intros (Hlen & Hp & Hrc & Hqc) Hq Hr Hc Hi Hl Hw Hb. unfold step_ok, next_or, consume. rewrite Hw. destruct (copy_ok s) as (b & pc & k & -> & Lb); [lia|lia|]. cbn [mbind outcome_bind].
  eexists _, _, _. split; [done|]. split; [|unfold measure; rewrite Hl; cbn; lia].
  split; [split; [cbn; lia|]; split; [cbn; lia|]; split; [cbn; lia|]; cbn; lia|]. split; [done|]. split; [cbn; intros E; specialize (Hi E); lia|]. rewrite Hl. cbn. split; [done|]. lia.
Qed.
(** The first digit is noted. *)
Lemma digit_begin s t c : shape s → q_cur_pos s < q_len → res_cur_pos s < q_len → state_ok st_literal_number s t → q !! Z.to_nat (q_cur_pos s) = Some c →
  ∃ b, (if first_digit (literal_digit t) && is_token_char (prev_char s) && is_digit_char c then
       b ← write_at (res s) (res_cur_pos s) c; Ok (s <| res := b |>, mk_literal_digit false (Some (res_pre_pos s))) else Ok (s, literal_digit t))
     = Ok (s <| res := b |>, mk_literal_digit false (Some (res_pre_pos s))) ∧ length b = length (res s) ∧
    if first_digit (literal_digit t) then res_pre_pos s = res_cur_pos s ∧ is_digit_char c = true ∧ b !! Z.to_nat (res_cur_pos s) = Some c else res_pre_pos s < res_cur_pos s.
Proof.
  intros (Hlen & Hp & Hrc & Hqc) Hq Hr [_ Hst] Ec. destruct (first_digit (literal_digit t)) eqn:Ef.
  - destruct Hst as (Epre & Hpt & c' & Ec' & Hd). rewrite Ec' in Ec. injection Ec as ->. rewrite Hpt, Hd. cbn [andb].
    rewrite write_at_ok by lia. cbn [mbind outcome_bind]. eexists. split; [done|]. split; [by rewrite length_insert|]. split; [done|]. split; [done|]. apply list_lookup_insert_eq. lia.
  - destruct Hst as (Ep & Hp2). exists (res s). cbn [andb]. split; [|done]. f_equal. f_equal; [by destruct s|]. destruct (literal_digit t). cbn in *. by subst.
Qed.
Lemma digit_ok s t : shape s → q_cur_pos s < q_len → res_cur_pos s < q_len → cmnt_ok (cmnt t) → state_ok st_literal_number s t →
  step_ok (measure st_literal_number s t) (stage_1_step opts q q_len malloc st_literal_number s t).
Proof.
  intros Hs Hq Hr Hc Hst. pose proof Hst as [Hi _]. unfold stage_1_step, process_literal_digit. set (s0 := s <| will_copy := true |>). pose proof Hs as (Hlen & Hp & Hrc & Hqc).
  destruct (q_at_ok s0 0) as (c & -> & Hcq); [cbn; lia|]. cbn [mbind outcome_bind]. change (q_cur_pos s0 + 0) with (q_cur_pos s + 0) in Hcq. rewrite Z.add_0_r in Hcq.
  destruct (digit_begin s0 t c Hs Hq Hr Hst Hcq) as (b & -> & Lb & Hfirst). cbn [mbind outcome_bind]. change (length (res s0)) with (length (res s)) in Lb.
  change (res_pre_pos s0) with (res_pre_pos s) in *. change (res_cur_pos s0) with (res_cur_pos s) in *.
  set (s1 := s0 <| res := b |>). assert (shape s1) as Hs1 by (split; [cbn; lia|done]).
  assert (3 * (q_len - q_cur_pos s) - 1 < measure st_literal_number s t) as Hmeas by (unfold measure; case_match; lia).
  set (float := (c =? 46) || _). change (q_cur_pos s1) with (q_cur_pos s). destruct (is_token_char c && negb float || (q_len =? q_cur_pos s + 1)) eqn:Eend.
  - cbn [start_pos mbind outcome_bind]. change (res s1) with b. change (res_cur_pos s1) with (res_cur_pos s).
    destruct (is_digit_string_ok b (res_pre_pos s) (res_cur_pos s)) as (number & En); [lia|lia|]. rewrite En. cbn [mbind outcome_bind].
    assert (first_digit (literal_digit t) = true → number && negb (is_token_char c) && (q_len =? q_cur_pos s + 1) = true) as Hlast.
    { intros Ef. rewrite Ef in Hfirst. destruct Hfirst as (Epre & Hd & Eb). rewrite (digit_is_not_token c Hd) in Eend |- *. cbn in Eend. rewrite Eend. cbn [negb]. rewrite !andb_true_r.
      unfold is_digit_string_2 in En. rewrite Epre, Z.eqb_refl in En. rewrite (proj2 (read_at_Some b _ c)) in En by (split; [lia|done]). cbn in En. congruence. }
    destruct number.
    + destruct (place_ok (res_pre_pos s) s1) as (b2 & -> & Lb2); [cbn; lia|]. cbn [mbind outcome_bind]. change (length (res s1)) with (length b) in Lb2.
      set (s2 := (_ <| prev_char := 63 |>)). destruct (true && negb (is_token_char c) && (q_len =? q_cur_pos s + 1)) eqn:El.
      * cbn [mbind outcome_bind]. unfold next_or, step_ok, consume. cbn [will_copy]. set (s3 := s2 <| will_copy := false |>). change (will_copy s3) with false. cbn iota.
        destruct (inc_ok s3) as (pc & k & ->); [cbn; lia|]. cbn [mbind outcome_bind]. eexists _, _, _. split; [done|]. split; [|unfold measure at 1; cbn; lia].
        split; [split; [cbn; lia|]; split; [cbn; lia|]; split; [cbn; lia|]; cbn; lia|]. split; [done|]. split; [cbn; intros E; specialize (Hi E); lia|]. cbn. split; [done|lia].
      * cbn [mbind outcome_bind]. destruct (first_digit (literal_digit t)) eqn:Ef; [by specialize (Hlast eq_refl)|].
        apply leave_ok; [|done|cbn; intros E; specialize (Hi E); lia|done|unfold measure; rewrite Ef; cbn; lia]. split; [cbn; lia|]. split; [cbn; lia|]. split; [cbn; lia|]. cbn. lia.
    + cbn [mbind outcome_bind andb]. destruct (first_digit (literal_digit t)) eqn:Ef; [by specialize (Hlast eq_refl)|].
      apply leave_ok; [exact Hs1|done|exact Hi|done|unfold measure; rewrite Ef; cbn; lia].
  - cbn [mbind outcome_bind]. apply digit_stays; [exact Hs1|done|done|done|exact Hi|done|done|exact Hmeas].
Qed.

Lemma q_is_ok s k p : 0 <= q_cur_pos s + k < q_len → ∃ c, q !! Z.to_nat (q_cur_pos s + k) = Some c ∧ q_is q s k p = Ok (p c).
Proof. intros H. unfold q_is. destruct (q_at_ok s k H) as (c & -> & E). by exists c. Qed.
Lemma get_next_ok s : 0 <= q_cur_pos s < q_len → ∃ cur, get_next_st opts q q_len s = Ok cur ∧ (cur = st_cmnt_type_1 → at_mark s) ∧
  (cur = st_literal_number → is_token_char (prev_char s) = true ∧ ∃ c, q !! Z.to_nat (q_cur_pos s) = Some c ∧ is_digit_char c = true).
Proof.
  intros Hq. unfold get_next_st.
  destruct (and_ok (Ok (q_cur_pos s <? q_len - 1)) (q_is q s 0 (Z.eqb 47) &&? q_is q s 1 (Z.eqb 42)) _ eq_refl) as (b1 & -> & Hb1).
  { intros E. zbool. destruct (q_is_ok s 0 (Z.eqb 47)) as (c0 & _ & ->); [lia|]. destruct (q_is_ok s 1 (Z.eqb 42)) as (c1 & _ & ->); [lia|].
    destruct (and_ok (Ok (47 =? c0)) (Ok (42 =? c1)) _ eq_refl) as (b & -> & _); eauto. }
  cbn [mbind outcome_bind]. destruct b1.
  { exists st_cmnt_type_1. split; [done|]. split; [|done]. intros _. destruct (Hb1 eq_refl) as [E1 E2]. zbool. split; [done|].
    destruct (q_is_ok s 0 (Z.eqb 47)) as (c0 & H0 & E0); [lia|]. destruct (q_is_ok s 1 (Z.eqb 42)) as (c1 & H1 & E3); [lia|]. rewrite E0 in E2. cbn [mbind outcome_bind] in E2.
    destruct (Z.eqb_spec 47 c0); [subst c0|done]. rewrite E3 in E2. destruct (Z.eqb_spec 42 c1); [subst c1|done]. rewrite Z.add_0_r in H0. done. }
  destruct (q_at_ok s 0) as (c & -> & H0); [lia|]. rewrite Z.add_0_r in H0. cbn [mbind outcome_bind]. case_match; [by exists st_cmnt_type_2|].
  destruct (and_ok (Ok ((q_cur_pos s <? q_len - 2) && (c =? 45))) (q_is q s 1 (Z.eqb 45) &&? q_is q s 2 is_space_char) _ eq_refl) as (b3 & E3 & _).
  { intros E. zbool. destruct (q_is_ok s 1 (Z.eqb 45)) as (c1 & _ & ->); [lia|]. destruct (q_is_ok s 2 is_space_char) as (c2 & _ & ->); [lia|].
    destruct (and_ok (Ok (45 =? c1)) (Ok (is_space_char c2)) _ eq_refl) as (b & -> & _); eauto. }
  cbn [mbind outcome_bind] in E3 |- *. rewrite E3. cbn [mbind outcome_bind]. destruct b3; [eexists; split; [done|]; destruct (negb (prev_char s =? 45) || (q_cur_pos s =? 0)); by split|].
  destruct ((c =? 39) || (c =? 34)); [by exists st_literal_string|].
  destruct (is_token_char (prev_char s) && is_digit_char c) eqn:Ed; [apply andb_true_iff in Ed as [E1 E2]; exists st_literal_number; split; [done|]; split; [done|]; eauto|].
  clear. case_match; [by exists st_replace_null|by exists st_no_mark_found].
Qed.
Lemma no_mark_ok s t : shape s → q_cur_pos s < q_len → res_cur_pos s < q_len → cmnt_ok (cmnt t) → state_ok st_no_mark_found s t →
  step_ok (measure st_no_mark_found s t) (stage_1_step opts q q_len malloc st_no_mark_found s t).
Proof.
  intros Hs Hq Hr Hc [Hi Hl]. unfold stage_1_step, no_mark. set (s0 := s <| res_pre_pos := res_cur_pos s |>). pose proof Hs as (Hlen & Hp & Hrc & Hqc).
  assert (shape s0) as Hs0 by (split; [done|]; split; [cbn; lia|done]). destruct (get_next_ok s0) as (cur & -> & H1 & H5); [cbn; lia|]. cbn [mbind outcome_bind].
  assert (∀ s', shape s' → q_cur_pos s' = q_cur_pos s + 1 → step_ok (measure st_no_mark_found s t) (Ok (st_no_mark_found, s', t))) as Hmove.
  { intros s' Hs' E. eexists _, _, _. split; [done|]. split; [|unfold measure; lia]. split; [done|]. split; [done|]. split; [|done]. intros E'. specialize (Hi E'). lia. }
  destruct cur as [| | | | | |].
  2: { eexists _, _, _. split; [done|]. split; [|unfold measure; cbn; lia]. split; [done|]. split; [done|]. split; [|done]. left. split; [by apply H1|].
       destruct (is_cmd (cmnt t)); [|done]. specialize (Hi eq_refl). destruct (H1 eq_refl) as (E & _). cbn in E. lia. }
  5: { eexists _, _, _. split; [done|]. split; [|unfold measure; rewrite Hl; cbn; lia]. split; [done|]. split; [done|]. split; [exact Hi|]. rewrite Hl. cbn. split; [done|]. by apply H5. }
  2-5: eexists _, _, _; (split; [done|]); (split; [|unfold measure; cbn; lia]); (split; [done|]); (split; [done|]); (split; [exact Hi|exact Hl]).
  destruct (q_at_ok s0 0) as (c & -> & _); [cbn; lia|]. cbn [mbind outcome_bind].
  destruct ((res_cur_pos s0 =? 0) && is_space_char c) eqn:E0; [apply Hmove; [by apply skip_shape; [|lia|cbn; lia]|done]|]. destruct (is_space_char (prev_char s0) && is_space_char c) eqn:E1.
  - apply andb_true_iff in E1 as [_ E1]. rewrite E1, andb_true_r in E0. zbool. change (res_cur_pos s0) with (res_cur_pos s) in *.
    destruct (read_in (res s0) (res_cur_pos s - 1)) as (l & ->); [cbn; lia|]. cbn [mbind outcome_bind].
    set (s1 := if negb (is_space_char l) then _ else _).
    assert (res s1 = res s ∧ res_pre_pos s1 = res_cur_pos s ∧ q_cur_pos s1 = q_cur_pos s ∧ res_cur_pos s <= res_cur_pos s1 <= res_cur_pos s + 1 ∧ res_it_init_pos s1 = res_it_init_pos s) as (A1 & A2 & A3 & A4 & A5)
      by (unfold s1; destruct (negb (is_space_char l)); (split; [done|]; split; [done|]; split; [done|]; cbn; lia)).
    clearbody s1. destruct (write_in (res s1) (res_cur_pos s1) 32) as (b & -> & Lb); [rewrite A1; lia|]. cbn [mbind outcome_bind]. rewrite A1 in Lb.
    apply Hmove; [|cbn; by rewrite A3]. split; [cbn; lia|]. split; [cbn; lia|]. split; [cbn; lia|]. cbn. lia.
  - destruct (copy_ok s0) as (b & p & k & -> & Lb); [cbn; lia|cbn; lia|]. cbn [mbind outcome_bind]. change (length (res s0)) with (length (res s)) in Lb.
    apply Hmove; [|done]. split; [cbn; lia|]. split; [cbn; lia|]. split; [cbn; lia|]. cbn. lia.
Qed.

(** A turn keeps the invariant. *)
Lemma step_inv cur s t : inv cur s t → q_cur_pos s < q_len → res_cur_pos s < q_len → step_ok (measure cur s t) (stage_1_step opts q q_len malloc cur s t).
Proof using malloc_size no_keep.
  intros (Hs & Hc & Hst) Hq Hr. pose proof Hst as [Hi Hl]. destruct cur.
  - by apply no_mark_ok.
  - unfold measure. rewrite Z.add_0_r. by apply cmnt_1_ok.
  - unfold measure. rewrite Z.add_0_r. apply cmnt_line_ok; auto.
  - unfold measure. rewrite Z.add_0_r. apply cmnt_line_ok; auto.
  - unfold measure. rewrite Z.add_0_r. by apply string_ok.
  - by apply digit_ok.
  - unfold measure. rewrite Z.add_0_r. by apply null_ok.
Qed.
Lemma loop_ok fuel cur s t : inv cur s t → measure cur s t <= Z.of_nat fuel →
  ∃ cur' s' t', stage_1_loop opts q q_len malloc fuel cur s t = Ok (cur', s', t') ∧ inv cur' s' t' ∧ q_len <= q_cur_pos s'.
Proof using malloc_size no_keep.
  revert cur s t. induction fuel as [|fuel IH]; intros cur s t Hinv Hm; pose proof Hinv as ((_ & _ & _ & Hqc) & _); cbn [stage_1_loop];
    (destruct (Z.ltb_spec (q_cur_pos s) q_len) as [Hq|Hq]; [|rewrite andb_false_r; exists cur, s, t; done]); rewrite (proj2 (Z.leb_le _ _)) by lia; cbn [andb].
  - unfold measure in Hm. destruct cur; try lia. destruct (first_digit (literal_digit t)); lia.
  - destruct (step_inv cur s t Hinv Hq ltac:(lia)) as (cur' & s' & t' & -> & Hinv' & Hm'). cbn [mbind outcome_bind]. apply IH; [done|lia].
Qed.
(** What the first stage leaves when the whole query fits: the query is read, the
    buffer is terminated, and a number at its end is still marked. *)
Definition staged (s : shared_st) (t : stage_1_st) : Prop :=
  q_len + 1 <= Z.of_nat (length (res s)) ∧ 0 <= res_cur_pos s <= q_len ∧ res s !! Z.to_nat (res_cur_pos s) = Some 0 ∧ q_len <= q_cur_pos s ∧ res_it_init_pos s = 0 ∧
  pre_it_pos t = Some (res_cur_pos s) ∧ cmnt_ok (cmnt t) ∧
  match st s with
  | st_literal_number => ∃ p, start_pos (literal_digit t) = Some p ∧ 0 <= p < res_cur_pos s ∧ new_end_pos t = Some (res_cur_pos s)
  | _ => start_pos (literal_digit t) = None ∧ new_end_pos t = None
  end.
Lemma stage_1_safe buf cmd : q_len + 1 <= Z.of_nat (length buf) → Z.of_nat (length cmd) = FIRST_COMMENT_MAX_LENGTH →
  ∃ s t, stage_1_parsing opts q q_len malloc (init_shared_st buf) (init_stage_1_st cmd) = Ok (s, t) ∧ staged s t.
Proof using malloc_size no_keep.
  intros Hb Hc. unfold stage_1_parsing. cbn [new_end_pos init_stage_1_st init_shared_st res_it_init_pos Z.eqb negb mbind outcome_bind st].
  destruct (loop_ok (stage_1_fuel q) st_no_mark_found (init_shared_st buf) (init_stage_1_st cmd)) as (cur & s & t & -> & (Hs & Hcm & Hst) & Hq).
  - split; [split; [exact Hb|]; split; [cbn; lia|]; split; [cbn; lia|]; cbn; lia|]. split; [|by split]. split; [exact Hc|]. by cbn.
  - unfold measure, stage_1_fuel. cbn. lia.
  - cbn [mbind outcome_bind]. pose proof Hs as (Hlen & Hp & Hrc & Hqc). rewrite write_at_ok by lia. cbn [mbind outcome_bind]. eexists _, _. split; [done|].
    assert (res_cur_pos s <= q_len) as Hrc2 by lia. split; [cbn; rewrite length_insert; lia|]. split; [cbn; lia|]. split; [cbn; apply list_lookup_insert_eq; lia|]. split; [cbn; lia|]. split; [cbn; lia|].
    split; [done|]. split; [done|]. destruct Hst as [_ Hst]. cbn. destruct cur; cbn in *; [by rewrite Hst..| |by rewrite Hst].
    destruct (first_digit (literal_digit t)); [|exists (res_pre_pos s); split; [by apply Hst|]; split; [lia|done]].
    destruct Hst as (_ & _ & c & Hcq & _). apply lookup_lt_Some in Hcq. lia.
Qed.
End Stage1Safe.
