(* ===== verification/DigestStages.v ===== *)
(** * The digest of a query, compression (lib/c_tokenizer.cpp)

    The stages after the first one work in the buffer: they take spaces and signs
    away, join lists of values and then lists of such lists, and clean the end.
    When the buffer was too small for the query, the first stage goes on behind
    what is left, and the stages are repeated. *)
From S2P Require Import Prelude StringUtils Digest.

(** [stage_2_st], [stage_3_st] and [stage_4_st] have the same fields. *)
Record compress_st := mk_compress { it_pos : option Z; c_offset : Z }.
Definition init_compress_st : compress_st := mk_compress None 0.

(** ** Positions in the buffer *)
Definition at_pos (s : shared_st) (p : Z) : outcome Z := read_at (res s) p.
Definition is_at (s : shared_st) (p : Z) (c : Z) : outcome bool := x ← at_pos s p; Ok (x =? c).
(** Writes to the end of what is kept. *)
Definition emit (c : Z) (s : shared_st) : outcome shared_st :=
  b ← write_at (res s) (res_pre_pos s) c; Ok ((s <| res := b |>) <| res_pre_pos := res_pre_pos s + 1 |>).
Definition move (n : Z) (s : shared_st) : shared_st := s <| res_cur_pos := n |>.
Definition drop_char (s : shared_st) : shared_st := move (res_cur_pos s + 1) s.
Definition keep_char (s : shared_st) : outcome shared_st := c ← at_pos s (res_cur_pos s); s ← emit c s; Ok (drop_char s).
Fixpoint emit_all (cs : list Z) (s : shared_st) : outcome shared_st :=
  match cs with [] => Ok s | c :: cs' => s ← emit c s; emit_all cs' s end.

Definition get_stage_digest_end (s : shared_st) (t : stage_1_st) : Z :=
  match st s, start_pos (literal_digit t) with
  | st_literal_number, Some p => p - 1
  | _, _ => res_cur_pos s - 1
  end.
Definition set_stage_next_start_pos (digest_end : Z) (next : option Z) (s : shared_st) : shared_st :=
  let n := match next with Some n => if negb (res_it_init_pos s =? 0) && (0 <=? n) && (n <? digest_end) then n else 0 | None => 0 end in
  (s <| res_cur_pos := n |>) <| res_pre_pos := n |>.
(** The digits of a number that was not read to its end are moved behind. *)
Fixpoint move_digits (n : nat) (f : Z) (s : shared_st) : outcome shared_st :=
  match n with
  | O => Ok s
  | S n' => c ← at_pos s f; s ← emit c s; move_digits n' (f + 1) (drop_char s)
  end.
Definition terminate (s : shared_st) : outcome shared_st := b ← write_at (res s) (res_pre_pos s) 0; Ok (s <| res := b |>).
Definition end_compression_stage_it (digest_end : Z) (s : shared_st) (t : stage_1_st) : outcome (shared_st * stage_1_st * option Z) :=
  let pos := Some (res_pre_pos s) in
  match start_pos (literal_digit t), new_end_pos t with
  | Some p, Some e =>
      if digest_end =? p - 1 then
        s ← move_digits (Z.to_nat (e - p)) p s; s ← terminate s;
        Ok (s, (t <| literal_digit := ((literal_digit t) <| start_pos := pos |>) |>) <| new_end_pos := Some (res_pre_pos s) |>, pos)
      else s ← terminate s; Ok (s, t, pos)
  | _, _ => s ← terminate s; Ok (s, t, pos)
  end.
(** The end of a stage. *)
Definition end_stage (digest_end : Z) (s : shared_st) (t : stage_1_st) : outcome (shared_st * stage_1_st * compress_st) :=
  let c := digest_end - res_pre_pos s + 1 in
  '(s, t, pos) ← end_compression_stage_it digest_end s t;
  Ok (move (res_pre_pos s) s, t, mk_compress pos (if 0 <? c then c else 0)).

Section Stages.
Context (opts : options) (t : stage_1_st) (digest_end : Z).

(** ** Spaces, signs and digits *)
Definition before (n : Z) (s : shared_st) : outcome Z := if n - 1 <? res_cur_pos s then at_pos s (res_cur_pos s - n) else Ok 48.
Definition sign_dropped (l rc : Z) : bool := is_token_char l && negb (l =? 63) && negb (l =? 41) && ((rc =? 63) || (rc =? 32)).
Definition stage_2_step (s : shared_st) : outcome shared_st :=
  c ← at_pos s (res_cur_pos s);
  if c =? 32 then
    lc ← before 1 s; rc ← at_pos s (res_cur_pos s + 1);
    if (lc =? 40) || (rc =? 41) then Ok (drop_char s)
    else if is_arithmetic_op lc && (rc =? 63) || (lc =? 44) || (rc =? 44) then
      llc ← before 2 s;
      if keep_comment opts && ((llc =? 42) && (lc =? 47)) then keep_char s else Ok (drop_char s)
    else if is_arithmetic_op rc && (lc =? 63) && is_token_char lc then Ok (drop_char s)
    else keep_char s
  else if (c =? 43) || (c =? 45) then
    llc ← before 2 s; lc ← before 1 s; rc ← at_pos s (res_cur_pos s + 1);
    if (if lc =? 32 then is_normal_char llc || sign_dropped llc rc else sign_dropped lc rc) then Ok (drop_char s) else keep_char s
  else if replace_number opts && is_digit_char c then
    s ← (if 0 <? res_pre_pos s then l ← at_pos s (res_pre_pos s - 1); if negb (l =? 63) then emit 63 s else Ok s else Ok s);
    Ok (drop_char s)
  else keep_char s.
Fixpoint stage_2_loop (fuel : nat) (s : shared_st) : outcome shared_st :=
  if res_cur_pos s <=? digest_end then match fuel with O => Fault Diverges | S fuel' => s ← stage_2_step s; stage_2_loop fuel' s end else Ok s.

(** ** Lists of values *)
(** Whether the kept text ends with a list that was shortened. *)
Definition pack_found (s : shared_st) : outcome bool :=
  is_at s (res_pre_pos s - 1) 46 &&? is_at s (res_pre_pos s - 2) 46 &&? is_at s (res_pre_pos s - 3) 46 &&? is_at s (res_pre_pos s - 4) 44.
(** Values and commas from [pos]; whether a last value was found. *)
Fixpoint values_after (fuel : nat) (s : shared_st) (pos : Z) : outcome (Z * bool) :=
  if pos <? digest_end then
    match fuel with
    | O => Fault Diverges
    | S fuel' =>
        more ← is_at s pos 63 &&? is_at s (pos + 1) 44;
        if (more : bool) then values_after fuel' s (pos + 2)
        else last ← is_at s pos 63 &&? is_at s (pos + 1) 41; Ok (if (last : bool) then (pos + 1, true) else (pos, false))
    end
  else Ok (pos, false).
(** Values that follow such a list are skipped; [true] when the loop ends. *)
Definition skip_values (s : shared_st) : outcome (shared_st * bool) :=
  c ← at_pos s (res_cur_pos s);
  '(n, is_last) ← values_after (length (res s)) s (if c =? 44 then res_cur_pos s + 1 else res_cur_pos s);
  let s := if (res_cur_pos s + 1 <? n) || is_last then move n s else s in
  match start_pos (literal_digit t) with
  | Some _ => if digest_end <=? n then c ← at_pos s n; Ok (s, is_digit_char c) else Ok (s, false)
  | None => Ok (s, false)
  end.
(** The values from [pos], their number, and what follows: 2 for a last value
    before a bracket, 1 for something else, 0 for the end of the digest. *)
Fixpoint pattern_loop (fuel : nat) (s : shared_st) (pos len : Z) : outcome (Z * Z * Z) :=
  if pos <? digest_end then
    match fuel with
    | O => Fault Diverges
    | S fuel' =>
        more ← is_at s pos 63 &&? is_at s (pos + 1) 44;
        if (more : bool) then pattern_loop fuel' s (pos + 2) (len + 1)
        else last ← is_at s (pos + 1) 41; Ok (pos, len, if (last : bool) then 2 else 1)
    end
  else Ok (pos, len, 0).
Definition values (n : Z) : list Z := concat (replicate (Z.to_nat n) [63; 44]).
Definition dots : list Z := [46; 46; 46].
Definition shorten (s : shared_st) : outcome shared_st :=
  '(pos, len, broken) ← pattern_loop (length (res s)) s (res_cur_pos s) 0;
  let f_len := if broken =? 2 then len * 2 + 1 else len * 2 in
  if grouping_limit opts * 2 + 3 <=? f_len then
    s ← emit_all (if len <=? grouping_limit opts then values len else values (grouping_limit opts) ++ (if 0 <=? grouping_limit opts then dots else [])) s;
    Ok (move (if broken =? 2 then pos + 1 else pos - 1) s)
  else s ← emit_all (values len) s; Ok (move pos s).
Definition min_pattern (s : shared_st) : outcome bool :=
  let p := res_cur_pos s in
  is_at s p 63 &&? is_at s (p + 1) 44 &&? is_at s (p + 2) 63 &&? (c ← at_pos s (p + 3); Ok ((c =? 44) || (c =? 41))).
(** One turn: the state, whether a bracket is open, and whether the loop ends. *)
Definition stage_3_step (s : shared_st) (group_candidate : bool) : outcome (shared_st * bool * bool) :=
  '(s, over) ← (if group_candidate && (4 <? res_pre_pos s) then
                  found ← pack_found s;
                  if found && (1 <=? digest_end - res_cur_pos s) then skip_values s else Ok (s, false)
                else Ok (s, false));
  if (over : bool) then Ok (s, group_candidate, true)
  else
    let cur_char := res_cur_pos s in
    s ← (if group_candidate && (res_cur_pos s <? digest_end - grouping_limit opts * 2) then
           min ← min_pattern s;
           l ← at_pos s (cur_char - 1);
           if negb (is_arithmetic_op l) && min then shorten s else keep_char s
         else keep_char s);
    c ← at_pos s cur_char;
    Ok (s, if c =? 40 then true else if c =? 41 then false else group_candidate, false).
Fixpoint stage_3_loop (fuel : nat) (s : shared_st) (group_candidate : bool) : outcome shared_st :=
  if res_cur_pos s <=? digest_end then
    match fuel with
    | O => Fault Diverges
    | S fuel' => '(s, g, over) ← stage_3_step s group_candidate; if (over : bool) then Ok s else stage_3_loop fuel' s g
    end
  else Ok s.

(** ** Lists of lists *)
Definition group_size : Z := 1 + grouping_limit opts * 2 + 3 + 1.
Definition group_char (i : Z) : Z :=
  if i =? 0 then 40 else if i =? group_size - 1 then 41
  else if i <=? grouping_limit opts * 2 then (if i mod 2 =? 1 then 63 else 44) else 46.
Fixpoint group_loop (n : nat) (s : shared_st) (pos i : Z) : outcome bool :=
  match n with
  | O => Ok true
  | S n' => same ← is_at s (pos + i) (group_char i); if (same : bool) then group_loop n' s pos (i + 1) else Ok false
  end.
Definition is_group_pattern (s : shared_st) (pos : Z) : outcome bool := group_loop (Z.to_nat group_size) s pos 0.
(** With the comma after it. *)
Definition group_pattern_size : Z := group_size + 1.
(** The lists from [pos] after one that was shortened. *)
Fixpoint groups_after (fuel : nat) (s : shared_st) (pos : Z) : outcome Z :=
  if pos + (group_pattern_size - 2) <=? digest_end then
    match fuel with
    | O => Fault Diverges
    | S fuel' =>
        g ← is_group_pattern s pos;
        if (g : bool) then groups_after fuel' s (if pos + (group_pattern_size - 1) =? digest_end then pos + group_pattern_size - 1 else pos + group_pattern_size)
        else Ok pos
    end
  else Ok pos.
(** The lists from [pos], and their number. *)
Fixpoint groups_loop (fuel : nat) (s : shared_st) (pos found : Z) : outcome (Z * Z) :=
  if pos + (group_pattern_size - 2) <=? digest_end then
    match fuel with
    | O => Fault Diverges
    | S fuel' =>
        g ← is_group_pattern s pos;
        if (g : bool) then
          comma ← is_at s (pos + group_pattern_size - 1) 44;
          groups_loop fuel' s (if (comma : bool) then pos + group_pattern_size else pos + group_pattern_size - 1) (found + 1)
        else Ok (pos, found)
    end
  else Ok (pos, found).
Definition groups_kept : Z := group_pattern_size * groups_grouping_limit opts.
Definition shorten_groups (s : shared_st) : outcome shared_st :=
  let start := res_cur_pos s in
  '(pos, found) ← groups_loop (length (res s)) s start 0;
  if groups_grouping_limit opts <? found then
    src ← slice (res s) start groups_kept;
    b ← blit (res s) (res_pre_pos s) src;
    s ← emit_all dots ((s <| res := b |>) <| res_pre_pos := res_pre_pos s + groups_kept |>);
    Ok (move pos s)
  else Ok s.
Inductive turn := Continue | Break | Go.
(** What happens after lists that were shortened. *)
Definition skip_groups (s : shared_st) : outcome (shared_st * turn) :=
  c ← at_pos s (res_cur_pos s);
  pos ← groups_after (length (res s)) s (if (c =? 44) || (c =? 32) then res_cur_pos s + 1 else res_cur_pos s);
  Ok (if res_cur_pos s + 1 <? pos then (move (pos - 1) s, Continue) else if digest_end <=? pos then (s, Break) else (s, Go)).
Definition stage_4_step (s : shared_st) : outcome (shared_st * bool) :=
  '(s, turn) ← (if 5 <? res_pre_pos s then
                  found ← pack_found s &&? is_at s (res_pre_pos s - 5) 41;
                  if (found : bool) then skip_groups s else Ok (s, Go)
                else Ok (s, Go));
  match turn with
  | Continue => Ok (s, false)
  | Break => Ok (s, true)
  | Go =>
      let p := res_cur_pos s in
      start ← Ok (p <=? digest_end - group_pattern_size * (groups_grouping_limit opts + 1) + 2) &&? is_at s p 40 &&? is_at s (p + 1) 63 &&? is_at s (p + 2) 44;
      s ← (if (start : bool) then shorten_groups s else Ok s);
      if digest_end <? res_cur_pos s then Ok (s, true) else s ← keep_char s; Ok (s, false)
  end.
Fixpoint stage_4_loop (fuel : nat) (s : shared_st) : outcome shared_st :=
  if res_cur_pos s <=? digest_end then
    match fuel with
    | O => Fault Diverges
    | S fuel' => '(s, over) ← stage_4_step s; if (over : bool) then Ok s else stage_4_loop fuel' s
    end
  else Ok s.
End Stages.

(** ** The stages *)
Definition stage_2_parsing (opts : options) (s : shared_st) (t : stage_1_st) (c : compress_st) : outcome (shared_st * stage_1_st * compress_st) :=
  let digest_end := get_stage_digest_end s t in
  let next := option_map (λ p, p - (gl_c_offset s - c_offset c) - (5 + 1)) (it_pos c) in
  s ← stage_2_loop opts digest_end (length (res s)) (set_stage_next_start_pos digest_end next s);
  end_stage digest_end s t.
Definition stage_3_parsing (opts : options) (s : shared_st) (t : stage_1_st) (c : compress_st) : outcome (shared_st * stage_1_st * compress_st) :=
  if grouping_limit opts =? 0 then Ok (s, t, c)
  else
    let digest_end := get_stage_digest_end s t in
    let next := option_map (λ p, p - (gl_c_offset s - c_offset c) - (grouping_limit opts * 2 + 7 + 1)) (it_pos c) in
    s ← stage_3_loop opts t digest_end (length (res s)) (set_stage_next_start_pos digest_end next s) false;
    end_stage digest_end s t.
Definition stage_4_parsing (opts : options) (s : shared_st) (t : stage_1_st) (c : compress_st) : outcome (shared_st * stage_1_st * compress_st) :=
  if (groups_grouping_limit opts =? 0) || (grouping_limit opts =? 0) then Ok (s, t, c)
  else
    let digest_end := get_stage_digest_end s t in
    let next := option_map (λ p, p - group_pattern_size opts * (groups_grouping_limit opts + 2)) (it_pos c) in
    s ← stage_4_loop opts digest_end (length (res s)) (set_stage_next_start_pos digest_end next s);
    end_stage digest_end s t.

(** The last position that is not a space or a semicolon, but not before the first. *)
Fixpoint trim (n : nat) (b : list Z) (f : Z) : outcome Z :=
  match n with
  | O => Ok f
  | S n' => if 0 <? f then c ← read_at b f; if (c =? 32) || (c =? 59) then trim n' b (f - 1) else Ok f else Ok f
  end.
Definition final_stage (d_max_len : Z) (s : shared_st) (t : stage_1_st) : outcome shared_st :=
  b ← match start_pos (literal_digit t), st s with
      | Some p, st_literal_number =>
          if d_max_len <=? res_cur_pos s then
            c ← at_pos s p;
            if is_digit_char c then b ← write_at (res s) p 63; write_at b (p + 1) 0 else Ok (res s)
          else Ok (res s)
      | _, _ => Ok (res s)
      end;
  f ← trim (length b) b (res_cur_pos s - 1);
  b ← write_at b (f + 1) 0;
  Ok (move (f + 1) (s <| res := b |>)).

Section Digest.
Context (opts : options) (q : list Z) (malloc : Z → list Z) (max_query_length : Z).
Let q_len : Z := Z.of_nat (length q).

Fixpoint digest_loop (fuel : nat) (d_max_len : Z) (s : shared_st) (t : stage_1_st) (c2 c3 c4 : compress_st) : outcome (shared_st * stage_1_st) :=
  match fuel with
  | O => Fault Diverges
  | S fuel' =>
      '(s, t) ← stage_1_parsing opts q d_max_len malloc s t;
      '(s, t, c2) ← stage_2_parsing opts s t c2;
      '(s, t, c3) ← stage_3_parsing opts s t c3;
      '(s, t, c4) ← stage_4_parsing opts s t c4;
      let off := default 0 (pre_it_pos t) - res_cur_pos s in
      let s := s <| gl_c_offset := off |> in
      if (q_len <=? q_cur_pos s) || (d_max_len <=? res_cur_pos s) || (off =? 0) then Ok (s, t)
      else digest_loop fuel' d_max_len ((s <| res_it_init_pos := res_cur_pos s |>) <| res_pre_pos := res_cur_pos s |>) t c2 c3 c4
  end.
(** The buffer with the digest, and the first comment. *)
Definition mysql_query_digest_and_first_comment_2 (fuel : nat) (buf : option (list Z)) (cmd : list Z) : outcome (list Z * option (list Z)) :=
  let d_max_len := get_digest_max_len max_query_length q_len in
  let r := match buf with Some b => b | None => malloc (d_max_len + 1) end in
  '(s, t) ← digest_loop fuel d_max_len (init_shared_st r) (init_stage_1_st cmd) init_compress_st init_compress_st init_compress_st;
  s ← final_stage d_max_len s t;
  Ok (res s, fst_cmnt (cmnt t)).
End Digest.
(** The text before the terminator. *)
Definition c_text (b : list Z) : list Z := fst (span (λ c, negb (c =? 0)) b).

(** ** The stages stay in the buffer and end *)
(** Only the buffer and the two positions change. *)
Definition moved (s : shared_st) (b : list Z) (c p : Z) : shared_st := ((s <| res := b |>) <| res_cur_pos := c |>) <| res_pre_pos := p |>.
Definition rest (s s' : shared_st) : Prop := s' = moved s (res s') (res_cur_pos s') (res_pre_pos s') ∧ length (res s') = length (res s).
Lemma rest_refl s : rest s s.
Proof. split; [by destruct s|done]. Qed.
Lemma rest_trans s1 s2 s3 : rest s1 s2 → rest s2 s3 → rest s1 s3.
Proof. intros [E1 L1] [E2 L2]. split; [|congruence]. rewrite E2 at 1. by rewrite E1. Qed.
Lemma rest_moved s b c p : length b = length (res s) → rest s (moved s b c p).
Proof. done. Qed.
Lemma rest_fields s s' : rest s s' → st s' = st s ∧ res_it_init_pos s' = res_it_init_pos s ∧ q_cur_pos s' = q_cur_pos s.
Proof. intros [-> _]. done. Qed.
Abbreviation room s := (Z.of_nat (length (res s))).

Lemma at_ok s p : 0 <= p < room s → ∃ c, at_pos s p = Ok c.
Proof. apply read_in. Qed.
Lemma is_at_ok s p c : 0 <= p < room s → ∃ b, is_at s p c = Ok b.
Proof. intros H. unfold is_at. destruct (at_ok s p H) as [x ->]. cbn. eauto. Qed.
Lemma and_total m n : (∃ b, m = Ok b) → (∃ c, n = Ok c) → ∃ r, (m &&? n) = Ok r.
Proof. intros [b ->] [c ->]. cbn. destruct b; eauto. Qed.
Lemma emit_ok c s : 0 <= res_pre_pos s < room s → ∃ s', emit c s = Ok s' ∧ rest s s' ∧ res_pre_pos s' = res_pre_pos s + 1 ∧ res_cur_pos s' = res_cur_pos s.
Proof.
  intros H. unfold emit. destruct (write_in (res s) (res_pre_pos s) c H) as (b & -> & L). cbn [mbind outcome_bind].
  exists (moved s b (res_cur_pos s) (res_pre_pos s + 1)). split; [f_equal; by destruct s|]. split; [by apply rest_moved|done].
Qed.
Lemma emit_all_ok cs s : 0 <= res_pre_pos s → res_pre_pos s + Z.of_nat (length cs) <= room s →
  ∃ s', emit_all cs s = Ok s' ∧ rest s s' ∧ res_pre_pos s' = res_pre_pos s + Z.of_nat (length cs) ∧ res_cur_pos s' = res_cur_pos s.
Proof.
  revert s. induction cs as [|c cs IH]; intros s H0 H; cbn [emit_all length] in *; [exists s; split; [done|]; split; [apply rest_refl|]; lia|].
  destruct (emit_ok c s) as (s1 & -> & Hr1 & E1 & C1); [lia|]. cbn [mbind outcome_bind]. pose proof Hr1 as [_ L1].
  destruct (IH s1) as (s2 & -> & Hr2 & E2 & C2); [lia|lia|]. exists s2. split; [done|]. split; [by eapply rest_trans|]. lia.
Qed.
Lemma move_rest n s : rest s (move n s).
Proof. split; [by destruct s|done]. Qed.
Lemma keep_ok s : 0 <= res_pre_pos s <= res_cur_pos s → res_cur_pos s < room s →
  ∃ s', keep_char s = Ok s' ∧ rest s s' ∧ res_pre_pos s' = res_pre_pos s + 1 ∧ res_cur_pos s' = res_cur_pos s + 1.
Proof.
  intros H Hc. unfold keep_char. destruct (at_ok s (res_cur_pos s)) as [c ->]; [lia|]. cbn [mbind outcome_bind].
  destruct (emit_ok c s) as (s1 & -> & Hr & Ep & Ec); [lia|]. cbn [mbind outcome_bind]. exists (drop_char s1). split; [done|]. split; [eapply rest_trans; [exact Hr|apply move_rest]|].
  split; [exact Ep|]. change (res_cur_pos (drop_char s1)) with (res_cur_pos s1 + 1). lia.
Qed.

(** A digest of [n] characters does not grow where its lists of lists are shortened:
    few lists are kept for the values that are kept, or one list more than are kept
    does not fit. *)
Definition groups_fit (opts : options) (n : Z) : Prop :=
  0 <= groups_grouping_limit opts ∧ (groups_grouping_limit opts <= 2 * grouping_limit opts + 2 ∨ n < (groups_grouping_limit opts + 1) * group_size opts).
#[export] Instance groups_fit_dec opts n : Decision (groups_fit opts n).
Proof. unfold groups_fit. apply _. Defined.
Section Safe.
Context (opts : options) (t : stage_1_st) (de : Z).
(** Where a stage can be: the text that is kept is not longer than what was read. *)
Definition inside (s : shared_st) : Prop := 0 <= res_pre_pos s <= res_cur_pos s ∧ res_pre_pos s <= de + 1 ∧ res_cur_pos s <= de + 2 ∧ de + 1 < room s.
(** A turn ends further to the right. *)
Definition turned (s s' : shared_st) : Prop := rest s s' ∧ inside s' ∧ res_cur_pos s < res_cur_pos s'.

Lemma keep_turn s s0 : rest s0 s → inside s → res_cur_pos s0 <= res_cur_pos s → res_pre_pos s <= de → res_cur_pos s <= de + 1 → ∃ s', keep_char s = Ok s' ∧ turned s0 s'.
Proof.
  intros Hr (H1 & H2 & H3 & H4) Hle Hp Hc. destruct (keep_ok s) as (s' & -> & Hr' & Ep & Ec); [lia|lia|]. exists s'. split; [done|]. pose proof Hr' as [_ L].
  split; [by eapply rest_trans|]. split; [|lia]. unfold inside. rewrite L. lia.
Qed.
Lemma drop_turn s s0 : rest s0 s → inside s → res_cur_pos s0 <= res_cur_pos s → res_cur_pos s <= de + 1 → turned s0 (drop_char s).
Proof.
  intros Hr (H1 & H2 & H3 & H4) Hle Hc. split; [eapply rest_trans; [exact Hr|apply move_rest]|]. split; [|cbn; lia]. unfold inside. cbn. lia.
Qed.
Lemma before_ok n s : 0 < n → 0 <= res_cur_pos s < room s → ∃ c, before n s = Ok c.
Proof. intros Hn H. unfold before. case_test; [apply at_ok; lia|eauto]. Qed.
Lemma stage_2_step_ok s : inside s → res_cur_pos s <= de → ∃ s', stage_2_step opts s = Ok s' ∧ turned s s'.
Proof.
  intros Hin Hc. pose proof Hin as (H1 & H2 & H3 & H4). unfold stage_2_step.
  assert (∃ s', keep_char s = Ok s' ∧ turned s s') as Hkeep by (apply keep_turn; [apply rest_refl|done|lia|lia|lia]).
  assert (turned s (drop_char s)) as Hdrop by (apply drop_turn; [apply rest_refl|done|lia|lia]).
  destruct (at_ok s (res_cur_pos s)) as [c ->]; [lia|]. cbn [mbind outcome_bind]. destruct (before_ok 1 s) as [lc Elc]; [lia|lia|]. destruct (before_ok 2 s) as [llc Ellc]; [lia|lia|].
  destruct (at_ok s (res_cur_pos s + 1)) as [rc Erc]; [lia|]. rewrite !Elc, !Ellc, !Erc. cbn [mbind outcome_bind].
  destruct (c =? 32); [repeat (case_match; eauto)|]. destruct ((c =? 43) || (c =? 45)); [case_match; eauto|]. destruct (replace_number opts && is_digit_char c); [|done].
  destruct (Z.ltb_spec 0 (res_pre_pos s)) as [E|E]; cbn [mbind outcome_bind]; [|eauto]. destruct (at_ok s (res_pre_pos s - 1)) as [l ->]; [lia|]. cbn [mbind outcome_bind].
  destruct (negb (l =? 63)); cbn [mbind outcome_bind]; [|eauto]. destruct (emit_ok 63 s) as (s1 & -> & Hr & Ep & Ec); [lia|]. cbn [mbind outcome_bind]. eexists. split; [done|].
  pose proof Hr as [_ L]. split; [eapply rest_trans; [exact Hr|apply move_rest]|]. split; [|cbn; lia]. unfold inside. cbn. lia.
Qed.
Lemma stage_2_loop_ok fuel s : inside s → de + 1 - res_cur_pos s <= Z.of_nat fuel → ∃ s', stage_2_loop opts de fuel s = Ok s' ∧ rest s s' ∧ inside s'.
Proof.
  revert s. induction fuel as [|fuel IH]; intros s Hin Hf; cbn [stage_2_loop]; (destruct (Z.leb_spec (res_cur_pos s) de) as [E|E]; [|exists s; split; [done|]; split; [apply rest_refl|done]]); [lia|].
  destruct (stage_2_step_ok s Hin E) as (s1 & -> & Hr & Hin1 & Hc1). cbn [mbind outcome_bind]. destruct (IH s1 Hin1) as (s2 & -> & Hr2 & Hin2); [lia|]. exists s2. split; [done|]. split; [by eapply rest_trans|done].
Qed.

(** *** Lists of values *)
Context (limit_pos : 1 <= grouping_limit opts).
Lemma pack_ok s : 4 < res_pre_pos s → res_pre_pos s <= room s → ∃ b, pack_found s = Ok b.
Proof. intros H0 H. unfold pack_found. repeat apply and_total; apply is_at_ok; lia. Qed.
Lemma values_after_ok fuel s pos : 0 <= pos → de + 1 < room s → de - pos <= Z.of_nat fuel →
  ∃ n last, values_after de fuel s pos = Ok (n, last) ∧ pos <= n ∧ (n <= pos ∨ n <= de + 1) ∧ (last = true → n <= de ∧ pos < n).
Proof.
  intros H0 Hr. revert pos H0. induction fuel as [|fuel IH]; intros pos H0 Hf; cbn [values_after]; (destruct (Z.ltb_spec pos de) as [E|E]; [|exists pos, false; split; [done|]; split; [lia|]; split; [lia|done]]); [lia|].
  assert (∃ b, (is_at s pos 63 &&? is_at s (pos + 1) 44) = Ok b) as [b ->] by (apply and_total; apply is_at_ok; lia). cbn [mbind outcome_bind]. destruct b.
  - destruct (IH (pos + 2)) as (n & last & -> & Hn1 & Hn2 & Hl); [lia|lia|]. exists n, last. split; [done|]. split; [lia|]. split; [lia|]. intros E'. specialize (Hl E'). lia.
  - assert (∃ b, (is_at s pos 63 &&? is_at s (pos + 1) 41) = Ok b) as [b ->] by (apply and_total; apply is_at_ok; lia). cbn [mbind outcome_bind].
    destruct b; eexists _, _; (split; [done|]); (split; [lia|]); (split; [lia|]); [lia|done].
Qed.
(** Where the turn goes on after values were skipped. *)
Lemma skip_values_ok s : inside s → res_cur_pos s < de →
  ∃ s' over, skip_values t de s = Ok (s', over) ∧ rest s s' ∧ inside s' ∧ res_pre_pos s' = res_pre_pos s ∧ res_cur_pos s <= res_cur_pos s' ∧ (res_cur_pos s' <= de ∨ res_pre_pos s' < de ∧ res_cur_pos s' <= de + 1).
Proof.
  intros Hin Hc. pose proof Hin as (H1 & H2 & H3 & H4). unfold skip_values. destruct (at_ok s (res_cur_pos s)) as [c ->]; [lia|]. cbn [mbind outcome_bind].
  set (p0 := if c =? 44 then _ else _). assert (res_cur_pos s <= p0 <= res_cur_pos s + 1) as Hp0 by (unfold p0; case_test; lia).
  destruct (values_after_ok (length (res s)) s p0) as (n & last & -> & Hn1 & Hn2 & Hl); [lia|lia|lia|]. cbn [mbind outcome_bind].
  set (s1 := if (res_cur_pos s + 1 <? n) || last then _ else _).
  assert (rest s s1 ∧ inside s1 ∧ res_pre_pos s1 = res_pre_pos s ∧ res_cur_pos s <= res_cur_pos s1 ∧ (res_cur_pos s1 <= de ∨ res_pre_pos s1 < de ∧ res_cur_pos s1 <= de + 1)) as H.
  { unfold s1. destruct (Z.ltb_spec (res_cur_pos s + 1) n) as [E|E]; cbn [orb].
    - split; [apply move_rest|]. split; [unfold inside; cbn; lia|]. split; [done|]. cbn. lia.
    - destruct last; [specialize (Hl eq_refl); split; [apply move_rest|]; split; [unfold inside; cbn; lia|]; split; [done|]; cbn; lia|]. split; [apply rest_refl|]. split; [done|]. split; [done|]. lia. }
  assert (∀ over : bool, ∃ s' (over' : bool), Ok (s1, over) = Ok (s', over') ∧ rest s s' ∧ inside s' ∧ res_pre_pos s' = res_pre_pos s ∧ res_cur_pos s <= res_cur_pos s' ∧ (res_cur_pos s' <= de ∨ res_pre_pos s' < de ∧ res_cur_pos s' <= de + 1)) as Hfin by eauto.
  destruct (start_pos (literal_digit t)); [|apply Hfin]. case_test; [|apply Hfin]. destruct H as (Hr & _). pose proof Hr as [_ L]. destruct (at_ok s1 n) as [c' ->]; [lia|]. cbn [mbind outcome_bind]. apply Hfin.
Qed.
Lemma pattern_ok fuel s pos len : 0 <= pos → de + 1 < room s → de - pos <= Z.of_nat fuel →
  ∃ n k br, pattern_loop de fuel s pos len = Ok (n, len + k, br) ∧ 0 <= k ∧ n = pos + 2 * k ∧ (n <= pos ∨ n <= de + 1) ∧ (br = 2 → n < de).
Proof.
  intros H0 Hr. revert pos len H0. induction fuel as [|fuel IH]; intros pos len H0 Hf; cbn [pattern_loop];
    (destruct (Z.ltb_spec pos de) as [E|E]; [|exists pos, 0, 0; rewrite Z.add_0_r; split; [done|]; lia]); [lia|].
  assert (∃ b, (is_at s pos 63 &&? is_at s (pos + 1) 44) = Ok b) as [b ->] by (apply and_total; apply is_at_ok; lia). cbn [mbind outcome_bind]. destruct b.
  - destruct (IH (pos + 2) (len + 1)) as (n & k & br & -> & Hk & Hn & Hd & Hb); [lia|lia|]. exists n, (k + 1), br. split; [do 3 f_equal; lia|]. split; [lia|]. split; [lia|]. split; [lia|]. done.
  - destruct (is_at_ok s (pos + 1) 41) as [b ->]; [lia|]. cbn [mbind outcome_bind]. eexists pos, 0, _. rewrite Z.add_0_r. split; [done|]. destruct b; lia.
Qed.
Lemma values_length n : 0 <= n → Z.of_nat (length (values n)) = 2 * n.
Proof. intros H. unfold values. rewrite <- (Z2Nat.id n) at 2 by done. induction (Z.to_nat n) as [|k IH]; cbn [replicate concat app length] in *; lia. Qed.
(** A pattern starts with a value and a comma. *)
Lemma pattern_first fuel s pos len : pos < de → (is_at s pos 63 &&? is_at s (pos + 1) 44) = Ok true → pattern_loop de (S fuel) s pos len = pattern_loop de fuel s (pos + 2) (len + 1).
Proof. intros E H. cbn [pattern_loop]. rewrite (proj2 (Z.ltb_lt _ _) E), H. done. Qed.
Lemma shorten_ok s : inside s → res_cur_pos s + 3 <= de → (is_at s (res_cur_pos s) 63 &&? is_at s (res_cur_pos s + 1) 44) = Ok true → ∃ s', shorten opts de s = Ok s' ∧ turned s s'.
Proof using limit_pos.
  intros (H1 & H2 & H3 & H4) Hc Hmin. unfold shorten. destruct (length (res s)) as [|fuel] eqn:El; [lia|]. rewrite pattern_first by (done || lia).
  destruct (pattern_ok fuel s (res_cur_pos s + 2) (0 + 1)) as (n & k & br & -> & Hk & Hn & Hd & Hb); [lia|lia|lia|]. cbn [mbind outcome_bind]. set (len := 0 + 1 + k).
  assert (res_cur_pos s + 2 * len = n ∧ n <= de + 1 ∧ 1 <= len) as (En & Hn2 & Hl) by (unfold len; lia). clearbody len.
  assert (∀ cs e, 0 <= Z.of_nat (length cs) <= e - res_cur_pos s → res_cur_pos s < e <= de + 1 → ∃ s', (s ← emit_all cs s; Ok (move e s)) = Ok s' ∧ turned s s') as Hemit.
  { intros cs e Hcs He. destruct (emit_all_ok cs s) as (s' & -> & Hr & Ep & Ec); [lia|lia|]. cbn [mbind outcome_bind]. exists (move e s'). split; [done|]. pose proof Hr as [_ L].
    split; [eapply rest_trans; [exact Hr|apply move_rest]|]. split; [|cbn; lia]. unfold inside. cbn. lia. }
  set (f := if br =? 2 then len * 2 + 1 else len * 2). destruct (Z.leb_spec (grouping_limit opts * 2 + 3) f) as [E|E].
  - rewrite (proj2 (Z.leb_gt len _)), (proj2 (Z.leb_le 0 _)) by (unfold f in E; destruct (br =? 2); lia).
    unfold f in E. apply Hemit; [rewrite length_app, Nat2Z.inj_add, values_length by lia; cbn [length dots]|]; destruct (Z.eqb_spec br 2) as [Eb|Eb]; try specialize (Hb Eb); lia.
  - apply Hemit; [rewrite values_length by lia; lia|lia].
Qed.
Lemma stage_3_step_ok s g : inside s → res_cur_pos s <= de → (g = true → 1 <= res_cur_pos s) →
  ∃ s' g' over, stage_3_step opts t de s g = Ok (s', g', over) ∧ rest s s' ∧ inside s' ∧ (over = false → res_cur_pos s < res_cur_pos s').
Proof using limit_pos.
  intros Hin Hc Hg. pose proof Hin as (H1 & H2 & H3 & H4). unfold stage_3_step.
  assert (∃ s1 over, (if g && (4 <? res_pre_pos s) then found ← pack_found s; if found && (1 <=? de - res_cur_pos s) then skip_values t de s else Ok (s, false) else Ok (s, false)) = Ok (s1, over) ∧
    rest s s1 ∧ inside s1 ∧ res_cur_pos s <= res_cur_pos s1 ∧ (res_cur_pos s1 <= de ∨ res_pre_pos s1 < de ∧ res_cur_pos s1 <= de + 1)) as (s1 & over & -> & Hr1 & Hin1 & Hc1 & Hc2).
  { assert (rest s s ∧ inside s ∧ res_cur_pos s <= res_cur_pos s ∧ (res_cur_pos s <= de ∨ res_pre_pos s < de ∧ res_cur_pos s <= de + 1)) as H0 by (split; [apply rest_refl|]; split; [done|]; lia).
    destruct (g && (4 <? res_pre_pos s)) eqn:E; [|eauto]. zbool. destruct (pack_ok s) as [found ->]; [lia|lia|]. cbn [mbind outcome_bind]. destruct (found && (1 <=? de - res_cur_pos s)) eqn:E1; [|eauto]. zbool.
    destruct (skip_values_ok s Hin) as (s1 & over & -> & A & B & _ & C & D); [lia|]. eauto 10. }
  cbn [mbind outcome_bind]. destruct over; [eexists _, _, _; split; [done|]; split; [done|]; split; [done|done]|].
  pose proof Hr1 as [_ L1]. pose proof Hin1 as (K1 & K2 & K3 & K4).
  assert (∃ s', keep_char s1 = Ok s' ∧ turned s1 s') as Hkeep by (apply keep_turn; [apply rest_refl|done|lia|lia|lia]).
  assert (∃ s2, (if g && (res_cur_pos s1 <? de - grouping_limit opts * 2) then min ← min_pattern s1; l ← at_pos s1 (res_cur_pos s1 - 1); if negb (is_arithmetic_op l) && min then shorten opts de s1 else keep_char s1 else keep_char s1) = Ok s2 ∧
    turned s1 s2) as (s2 & -> & Hr2 & Hin2 & Hc3).
  { destruct (g && (res_cur_pos s1 <? de - grouping_limit opts * 2)) eqn:E; [|done]. zbool. subst g. specialize (Hg eq_refl).
    assert (∃ b, min_pattern s1 = Ok b ∧ (b = true → (is_at s1 (res_cur_pos s1) 63 &&? is_at s1 (res_cur_pos s1 + 1) 44) = Ok true)) as (b & -> & Hb).
    { unfold min_pattern. destruct (is_at_ok s1 (res_cur_pos s1) 63) as [b0 ->]; [lia|]. destruct (is_at_ok s1 (res_cur_pos s1 + 1) 44) as [b1 ->]; [lia|]. destruct (is_at_ok s1 (res_cur_pos s1 + 2) 63) as [b2 ->]; [lia|].
      destruct (at_ok s1 (res_cur_pos s1 + 3)) as [c3 ->]; [lia|]. cbn [mbind outcome_bind]. destruct b0, b1, b2; by eexists. }
    cbn [mbind outcome_bind]. destruct (at_ok s1 (res_cur_pos s1 - 1)) as [l ->]; [lia|]. cbn [mbind outcome_bind]. destruct (negb (is_arithmetic_op l) && b) eqn:Eb; [|done]. zbool. subst b. apply shorten_ok; [done|lia|by apply Hb]. }
  cbn [mbind outcome_bind]. pose proof Hr2 as [_ L2]. destruct (at_ok s2 (res_cur_pos s1)) as [c ->]; [lia|]. cbn [mbind outcome_bind]. eexists _, _, _. split; [done|]. split; [by eapply rest_trans|]. split; [done|]. lia.
Qed.
Lemma stage_3_loop_ok fuel s g : inside s → (g = true → 1 <= res_cur_pos s) → de + 1 - res_cur_pos s <= Z.of_nat fuel → ∃ s', stage_3_loop opts t de fuel s g = Ok s' ∧ rest s s' ∧ inside s'.
Proof using limit_pos.
  revert s g. induction fuel as [|fuel IH]; intros s g Hin Hg Hf; cbn [stage_3_loop]; (destruct (Z.leb_spec (res_cur_pos s) de) as [E|E]; [|exists s; split; [done|]; split; [apply rest_refl|done]]); [lia|].
  destruct (stage_3_step_ok s g Hin E Hg) as (s1 & g1 & over & -> & Hr & Hin1 & Hc1). cbn [mbind outcome_bind]. destruct over; [by exists s1|]. specialize (Hc1 eq_refl). pose proof Hin as (H1 & _).
  destruct (IH s1 g1 Hin1) as (s2 & -> & Hr2 & Hin2); [lia|lia|]. exists s2. split; [done|]. split; [by eapply rest_trans|done].
Qed.

(** *** Lists of lists *)
Lemma group_size_pos : 7 <= group_size opts.
Proof using limit_pos. unfold group_size. lia. Qed.
Lemma group_loop_ok n s pos i : 0 <= pos + i → pos + i + Z.of_nat n <= room s → ∃ b, group_loop opts n s pos i = Ok b.
Proof.
  revert i. induction n as [|n IH]; intros i H0 H; cbn [group_loop]; [eauto|]. destruct (is_at_ok s (pos + i) (group_char opts i)) as [b ->]; [lia|]. cbn [mbind outcome_bind]. destruct b; [apply IH; lia|eauto].
Qed.
Lemma is_group_ok s pos : 0 <= pos → pos + (group_pattern_size opts - 2) <= de → de + 1 < room s → ∃ b, is_group_pattern opts s pos = Ok b.
Proof using limit_pos. intros H0 H Hr. pose proof group_size_pos. unfold group_pattern_size in H. apply group_loop_ok; lia. Qed.
Lemma groups_after_ok fuel s pos : 0 <= pos → de + 1 < room s → de - pos <= Z.of_nat fuel → ∃ n, groups_after opts de fuel s pos = Ok n ∧ pos <= n ∧ (n <= pos ∨ n <= de + 2).
Proof using limit_pos.
  intros H0 Hr. pose proof group_size_pos as Hg. revert pos H0. induction fuel as [|fuel IH]; intros pos H0 Hf; cbn [groups_after]; unfold group_pattern_size in *;
    (destruct (Z.leb_spec (pos + (group_size opts + 1 - 2)) de) as [E|E]; [|exists pos; split; [done|]; lia]); [lia|].
  destruct (is_group_ok s pos) as [b ->]; [done|unfold group_pattern_size; lia|done|]. cbn [mbind outcome_bind]. destruct b; [|exists pos; split; [done|]; lia].
  set (n' := if _ =? de then _ else _). assert (pos < n' <= de + 2) as Hn' by (unfold n'; case_test; lia). destruct (IH n') as (n & -> & Hn1 & Hn2); [lia|lia|]. exists n. split; [done|]. lia.
Qed.
(** Every list takes its size without the comma, and one that ends the digest has no
    place for it. *)
Lemma groups_loop_ok fuel s pos found : 0 <= pos → de + 1 < room s → de + 1 - pos <= Z.of_nat fuel →
  ∃ n k, groups_loop opts de fuel s pos found = Ok (n, found + k) ∧ 0 <= k ∧ pos + k * group_size opts <= n ∧ (n <= pos ∨ n <= de + 1 ∨ n = de + 2 ∧ pos + k * group_size opts < n).
Proof using limit_pos.
  intros H0 Hr. pose proof group_size_pos as Hg. revert pos found H0. induction fuel as [|fuel IH]; intros pos found H0 Hf; cbn [groups_loop]; unfold group_pattern_size in *;
    (destruct (Z.leb_spec (pos + (group_size opts + 1 - 2)) de) as [E|E]; [|exists pos, 0; rewrite Z.add_0_r; split; [done|]; lia]); [lia|].
  destruct (is_group_ok s pos) as [b ->]; [done|unfold group_pattern_size; lia|done|]. cbn [mbind outcome_bind]. destruct b; [|exists pos, 0; rewrite Z.add_0_r; split; [done|]; lia].
  destruct (is_at_ok s (pos + (group_size opts + 1) - 1) 44) as [comma ->]; [lia|]. cbn [mbind outcome_bind].
  set (n' := if comma then _ else _). assert (n' = pos + group_size opts ∨ n' = pos + group_size opts + 1) as Hn' by (unfold n'; destruct comma; lia).
  destruct (IH n' (found + 1)) as (n & k & -> & Hk & Hn1 & Hn2); [lia|lia|]. exists n, (k + 1). split; [do 2 f_equal; lia|]. split; [lia|]. split; [lia|]. lia.
Qed.
Context (groups_small : 0 < groups_grouping_limit opts ∧ groups_fit opts (de + 1)).
Lemma shorten_groups_ok s : inside s → res_cur_pos s <= de → ∃ s', shorten_groups opts de s = Ok s' ∧ rest s s' ∧ inside s' ∧ res_cur_pos s <= res_cur_pos s'.
Proof using limit_pos groups_small.
  intros Hin Hc. pose proof Hin as (H1 & H2 & H3 & H4). pose proof group_size_pos as Hg. unfold shorten_groups.
  destruct (groups_loop_ok (length (res s)) s (res_cur_pos s) 0) as (n & k & -> & Hk & Hn1 & Hn2); [lia|lia|lia|]. cbn [mbind outcome_bind].
  destruct (Z.ltb_spec (groups_grouping_limit opts) (0 + k)) as [E|E]; [|exists s; split; [done|]; split; [apply rest_refl|]; split; [done|lia]].
  assert ((groups_grouping_limit opts + 1) * group_size opts <= k * group_size opts) as Hmany by (apply Z.mul_le_mono_nonneg_r; lia). destruct groups_small as [Hpos [_ Hfit]].
  assert (0 <= groups_kept opts ∧ groups_kept opts + 3 <= k * group_size opts) as [Hk0 Hk3].
  { unfold groups_kept, group_pattern_size. split; [nia|]. destruct Hfit as [Hfit|Hfit]; [|lia]. unfold group_size in *. lia. }
  clear Hmany Hfit.
  set (m := groups_kept opts) in *. clearbody m. set (kg := k * group_size opts) in *. clearbody kg.
  rewrite slice_ok by lia. cbn [mbind outcome_bind]. set (src := take _ _). assert (Z.of_nat (length src) = m) as Lsrc by (unfold src; rewrite length_take, length_drop; lia).
  rewrite blit_ok by lia. cbn [mbind outcome_bind]. set (b := take _ _ ++ _). assert (length b = length (res s)) as Lb by (unfold b; rewrite !length_app, length_take, length_drop; lia).
  destruct (emit_all_ok dots (moved s b (res_cur_pos s) (res_pre_pos s + m))) as (s' & E' & Hr & Ep & Ec); [cbn; lia|cbn; lia|].
  assert (moved s b (res_cur_pos s) (res_pre_pos s + m) = (s <| res := b |>) <| res_pre_pos := res_pre_pos s + m |>) as Em by (by destruct s). rewrite <- Em, E'. cbn [mbind outcome_bind].
  pose proof Hr as [_ L]. change (length (res (moved _ b _ _))) with (length b) in L. change (res_pre_pos (moved _ _ _ _)) with (res_pre_pos s + m) in Ep. change (Z.of_nat (length dots)) with 3 in Ep.
  exists (move n s'). split; [done|]. split; [eapply rest_trans; [apply rest_moved; exact Lb|]; eapply rest_trans; [exact Hr|apply move_rest]|]. split; [|cbn; lia]. unfold inside. cbn. lia.
Qed.
Lemma stage_4_step_ok s : inside s → res_cur_pos s <= de → ∃ s' over, stage_4_step opts de s = Ok (s', over) ∧ rest s s' ∧ inside s' ∧ (over = false → res_cur_pos s < res_cur_pos s').
Proof using limit_pos groups_small.
  intros Hin Hc. pose proof Hin as (H1 & H2 & H3 & H4). pose proof group_size_pos as Hg. unfold stage_4_step.
  assert (∃ s1 tn, (if 5 <? res_pre_pos s then found ← pack_found s &&? is_at s (res_pre_pos s - 5) 41; if (found : bool) then skip_groups opts de s else Ok (s, Go) else Ok (s, Go)) = Ok (s1, tn) ∧
    rest s s1 ∧ inside s1 ∧ match tn with Continue => res_cur_pos s < res_cur_pos s1 | Break => True | Go => s1 = s end) as (s1 & tn & -> & Hr1 & Hin1 & Ht).
  { assert (∀ tn, tn ≠ Continue → ∃ s1 tn', Ok (s, tn) = Ok (s1, tn') ∧ rest s s1 ∧ inside s1 ∧ match tn' with Continue => res_cur_pos s < res_cur_pos s1 | Break => True | Go => s1 = s end) as Hsame.
    { intros tn Htn. exists s, tn. split; [done|]. split; [apply rest_refl|]. split; [done|]. by destruct tn. }
    destruct (Z.ltb_spec 5 (res_pre_pos s)) as [E|E]; [|by apply Hsame].
    assert (∃ b, (pack_found s &&? is_at s (res_pre_pos s - 5) 41) = Ok b) as [b ->] by (apply and_total; [apply pack_ok; lia|apply is_at_ok; lia]). cbn [mbind outcome_bind]. destruct b; [|by apply Hsame].
    unfold skip_groups. destruct (at_ok s (res_cur_pos s)) as [c ->]; [lia|]. cbn [mbind outcome_bind]. set (p0 := if _ || _ then _ else _). assert (res_cur_pos s <= p0 <= res_cur_pos s + 1) as Hp0 by (unfold p0; case_match; lia).
    destruct (groups_after_ok (length (res s)) s p0) as (n & -> & Hn1 & Hn2); [lia|lia|lia|]. cbn [mbind outcome_bind]. destruct (Z.ltb_spec (res_cur_pos s + 1) n) as [E1|E1].
    - eexists _, _. split; [done|]. split; [apply move_rest|]. split; [unfold inside; cbn; lia|]. cbn. lia.
    - case_match; by apply Hsame. }
  cbn [mbind outcome_bind]. destruct tn; [eexists _, _; split; [done|]; split; [done|]; split; [done|]; lia|eexists _, _; split; [done|]; split; [done|]; split; [done|done]|]. subst s1.
  assert (∃ b, (Ok (res_cur_pos s <=? de - group_pattern_size opts * (groups_grouping_limit opts + 1) + 2) &&? is_at s (res_cur_pos s) 40 &&? is_at s (res_cur_pos s + 1) 63 &&? is_at s (res_cur_pos s + 2) 44) = Ok b) as [b Eb].
  { destruct (and_ok (Ok (res_cur_pos s <=? de - group_pattern_size opts * (groups_grouping_limit opts + 1) + 2)) (is_at s (res_cur_pos s) 40 &&? is_at s (res_cur_pos s + 1) 63 &&? is_at s (res_cur_pos s + 2) 44) _ eq_refl) as (b & -> & _); [|eauto].
    intros E. zbool. assert (4 <= group_pattern_size opts * (groups_grouping_limit opts + 1)) by (unfold group_pattern_size; nia). repeat apply and_total; apply is_at_ok; lia. }
  cbn [mbind outcome_bind] in Eb |- *. rewrite Eb. cbn [mbind outcome_bind].
  assert (∃ s2, (if b then shorten_groups opts de s else Ok s) = Ok s2 ∧ rest s s2 ∧ inside s2 ∧ res_cur_pos s <= res_cur_pos s2) as (s2 & -> & Hr2 & Hin2 & Hc2).
  { destruct b; [by apply shorten_groups_ok|]. exists s. split; [done|]. split; [done|]. split; [done|]. lia. }
  cbn [mbind outcome_bind]. destruct (Z.ltb_spec de (res_cur_pos s2)) as [E|E]; [eexists _, _; split; [done|]; split; [done|]; split; [done|done]|].
  destruct (keep_turn s2 s Hr2 Hin2 Hc2) as (s3 & -> & Hr3 & Hin3 & Hc3); [pose proof Hin2 as (K1 & K2 & _); lia|lia|]. cbn [mbind outcome_bind]. eexists _, _. split; [done|]. split; [done|]. split; [done|]. done.
Qed.
Lemma stage_4_loop_ok fuel s : inside s → de + 1 - res_cur_pos s <= Z.of_nat fuel → ∃ s', stage_4_loop opts de fuel s = Ok s' ∧ rest s s' ∧ inside s'.
Proof using limit_pos groups_small.
  revert s. induction fuel as [|fuel IH]; intros s Hin Hf; cbn [stage_4_loop]; (destruct (Z.leb_spec (res_cur_pos s) de) as [E|E]; [|exists s; split; [done|]; split; [apply rest_refl|done]]); [lia|].
  destruct (stage_4_step_ok s Hin E) as (s1 & over & -> & Hr & Hin1 & Hc1). cbn [mbind outcome_bind]. destruct over; [by exists s1|]. specialize (Hc1 eq_refl).
  destruct (IH s1 Hin1) as (s2 & -> & Hr2 & Hin2); [lia|]. exists s2. split; [done|]. split; [by eapply rest_trans|done].
Qed.
End Safe.

(** *** Between the stages *)
(** The query is read; a number at its end is marked, so that the stages stop before
    it. *)
Definition ready (n : Z) (s : shared_st) (t : stage_1_st) : Prop :=
  n + 1 <= room s ∧ 0 <= res_cur_pos s <= n ∧ n <= q_cur_pos s ∧ res_it_init_pos s = 0 ∧
  match st s with
  | st_literal_number => ∃ p, start_pos (literal_digit t) = Some p ∧ 0 <= p < res_cur_pos s ∧ new_end_pos t = Some (res_cur_pos s)
  | _ => start_pos (literal_digit t) = None ∧ new_end_pos t = None
  end.
Lemma ready_end n s t : ready n s t → -1 <= get_stage_digest_end s t < res_cur_pos s.
Proof.
  intros (_ & H & _ & _ & Hst). unfold get_stage_digest_end. destruct (st s); try lia. destruct Hst as (p & -> & Hp & _). lia.
Qed.
Lemma start_inside n s t next : ready n s t → let s' := set_stage_next_start_pos (get_stage_digest_end s t) next s in
  rest s s' ∧ inside (get_stage_digest_end s t) s' ∧ res_cur_pos s' = 0.
Proof.
  intros H. pose proof (ready_end n s t H). destruct H as (Hr & Hc & _ & Hi & _). unfold set_stage_next_start_pos. rewrite Hi. cbn [negb Z.eqb andb].
  assert ((match next with Some n0 => 0 | None => 0 end) = 0) as -> by (by destruct next). cbn. split; [by split; destruct s|]. split; [unfold inside; cbn; lia|done].
Qed.
Lemma move_digits_ok k f s : 0 <= res_pre_pos s <= f → f + Z.of_nat k <= room s → ∃ s', move_digits k f s = Ok s' ∧ rest s s' ∧ res_pre_pos s' = res_pre_pos s + Z.of_nat k.
Proof.
  revert f s. induction k as [|k IH]; intros f s Hp Hf; cbn [move_digits]; [exists s; split; [done|]; split; [apply rest_refl|lia]|].
  destruct (at_ok s f) as [c ->]; [lia|]. cbn [mbind outcome_bind]. destruct (emit_ok c s) as (s1 & -> & Hr & Ep & _); [lia|]. cbn [mbind outcome_bind]. pose proof Hr as [_ L].
  destruct (IH (f + 1) (drop_char s1)) as (s2 & -> & Hr2 & Ep2); [cbn; lia|cbn; lia|]. exists s2. split; [done|]. split; [eapply rest_trans; [exact Hr|]; eapply rest_trans; [apply move_rest|exact Hr2]|].
  change (res_pre_pos (drop_char s1)) with (res_pre_pos s1) in Ep2. lia.
Qed.
Lemma terminate_ok s : 0 <= res_pre_pos s < room s → ∃ s', terminate s = Ok s' ∧ rest s s' ∧ res_pre_pos s' = res_pre_pos s.
Proof.
  intros H. unfold terminate. destruct (write_in (res s) (res_pre_pos s) 0 H) as (b & -> & L). cbn [mbind outcome_bind]. exists (moved s b (res_cur_pos s) (res_pre_pos s)).
  split; [f_equal; by destruct s|]. split; [by apply rest_moved|done].
Qed.
Lemma end_stage_ok n s0 s t : ready n s0 t → rest s0 s → inside (get_stage_digest_end s0 t) s →
  ∃ s' t' c, end_stage (get_stage_digest_end s0 t) s t = Ok (s', t', c) ∧ ready n s' t' ∧ cmnt t' = cmnt t ∧ pre_it_pos t' = pre_it_pos t.
Proof.
  intros Hready Hrest (H1 & H2 & H3 & H4). destruct Hready as (Hr & Hc & Hq & Hi & Hst). unfold end_stage, end_compression_stage_it.
  destruct (rest_fields _ _ Hrest) as (Fs & Fi & Fq). pose proof Hrest as [_ L].
  assert (∀ t' pos c, res_pre_pos s <= n → start_pos (literal_digit t') = None → new_end_pos t' = None → st s0 ≠ st_literal_number →
    ∃ s' t'' c', ('(s, t, pos) ← (s ← terminate s; Ok (s, t', pos)); Ok (move (res_pre_pos s) s, t, mk_compress pos c)) = Ok (s', t'', c') ∧ ready n s' t'' ∧ t'' = t') as Hplain.
  { intros t' pos c Hp E1 E2 E3. destruct (terminate_ok s) as (s1 & -> & Hr1 & Ep1); [lia|]. cbn [mbind outcome_bind]. eexists _, _, _. split; [done|]. split; [|done].
    destruct (rest_fields _ _ Hr1) as (Gs & Gi & Gq). pose proof Hr1 as [_ L1]. split; [cbn; lia|]. split; [cbn; lia|]. split; [cbn; lia|]. split; [cbn; lia|].
    change (st (move _ s1)) with (st s1). rewrite Gs, Fs. by destruct (st s0). }
  destruct (decide (st s0 = st_literal_number)) as [En|En].
  - rewrite En in Hst. destruct Hst as (p & Ep & Hp & Ee). rewrite Ep, Ee. assert (get_stage_digest_end s0 t = p - 1) as Ed by (unfold get_stage_digest_end; by rewrite En, Ep). rewrite Ed, Z.eqb_refl in *.
    destruct (move_digits_ok (Z.to_nat (res_cur_pos s0 - p)) p s) as (s1 & -> & Hr1 & Ep1); [lia|lia|]. cbn [mbind outcome_bind]. pose proof Hr1 as [_ L1].
    destruct (terminate_ok s1) as (s2 & -> & Hr2 & Ep2); [lia|]. cbn [mbind outcome_bind]. pose proof Hr2 as [_ L2]. eexists _, _, _. split; [done|]. split; [|done].
    destruct (rest_fields _ _ Hr1) as (Gs & Gi & Gq). destruct (rest_fields _ _ Hr2) as (Ks & Ki & Kq). split; [cbn; lia|]. split; [cbn; lia|]. split; [cbn; lia|]. split; [cbn; lia|].
    change (st (move _ s2)) with (st s2). rewrite Ks, Gs, Fs, En. exists (res_pre_pos s). split; [done|]. cbn. split; [lia|done].
  - assert (start_pos (literal_digit t) = None ∧ new_end_pos t = None) as [E1 E2] by (by destruct (st s0)). rewrite E1.
    assert (get_stage_digest_end s0 t = res_cur_pos s0 - 1) as Ed by (unfold get_stage_digest_end; rewrite E1; by destruct (st s0)). rewrite Ed in *.
    set (pos := Some (res_pre_pos s)). set (c := if 0 <? _ then _ else _). destruct (Hplain t pos c) as (s' & t' & c' & E & Hrd & ->); [lia|done|done|done|]. exists s', t, c'. split; [exact E|done].
Qed.
Lemma groups_fit_end opts n s t : 1 <= grouping_limit opts → groups_fit opts n → groups_grouping_limit opts ≠ 0 → ready n s t →
  0 < groups_grouping_limit opts ∧ groups_fit opts (get_stage_digest_end s t + 1).
Proof. intros Hg [H0 H] Hne Hr. pose proof (ready_end n s t Hr). destruct Hr as (_ & ? & _). split; [lia|]. split; [done|]. destruct H; [by left|right; lia]. Qed.
(** Each stage, then the end. *)
Lemma stage_2_ok opts n s t c : ready n s t → ∃ s' t' c', stage_2_parsing opts s t c = Ok (s', t', c') ∧ ready n s' t' ∧ cmnt t' = cmnt t ∧ pre_it_pos t' = pre_it_pos t.
Proof.
  intros H. unfold stage_2_parsing. set (next := option_map _ _). destruct (start_inside n s t next H) as (Hr & Hin & E0). set (s1 := set_stage_next_start_pos _ _ _) in *. pose proof Hr as [_ L].
  destruct (stage_2_loop_ok opts _ (length (res s)) s1 Hin) as (s2 & -> & Hr2 & Hin2); [destruct Hin as (_ & _ & _ & ?); lia|]. cbn [mbind outcome_bind].
  apply (end_stage_ok n s s2 t H); [by eapply rest_trans|done].
Qed.
Lemma stage_3_ok opts n s t c : 1 <= grouping_limit opts → ready n s t → ∃ s' t' c', stage_3_parsing opts s t c = Ok (s', t', c') ∧ ready n s' t' ∧ cmnt t' = cmnt t ∧ pre_it_pos t' = pre_it_pos t.
Proof.
  intros Hg H. unfold stage_3_parsing. rewrite (proj2 (Z.eqb_neq _ 0)) by lia. set (next := option_map _ _). destruct (start_inside n s t next H) as (Hr & Hin & E0). set (s1 := set_stage_next_start_pos _ _ _) in *. pose proof Hr as [_ L].
  destruct (stage_3_loop_ok opts t _ Hg (length (res s)) s1 false Hin) as (s2 & -> & Hr2 & Hin2); [done|destruct Hin as (_ & _ & _ & ?); lia|]. cbn [mbind outcome_bind].
  apply (end_stage_ok n s s2 t H); [by eapply rest_trans|done].
Qed.
Lemma stage_4_ok opts n s t c : 1 <= grouping_limit opts → groups_fit opts n → ready n s t →
  ∃ s' t' c', stage_4_parsing opts s t c = Ok (s', t', c') ∧ ready n s' t' ∧ cmnt t' = cmnt t ∧ pre_it_pos t' = pre_it_pos t.
Proof.
  intros Hg Hgg H. unfold stage_4_parsing. destruct (Z.eqb_spec (groups_grouping_limit opts) 0) as [E|E]; [by exists s, t, c|]. rewrite (proj2 (Z.eqb_neq _ 0)) by lia. cbn [orb].
  set (next := option_map _ _). destruct (start_inside n s t next H) as (Hr & Hin & E0). set (s1 := set_stage_next_start_pos _ _ _) in *. pose proof Hr as [_ L].
  destruct (stage_4_loop_ok opts _ Hg (groups_fit_end opts n s t Hg Hgg E H) (length (res s)) s1 Hin) as (s2 & -> & Hr2 & Hin2); [destruct Hin as (_ & _ & _ & ?); lia|]. cbn [mbind outcome_bind].
  apply (end_stage_ok n s s2 t H); [by eapply rest_trans|done].
Qed.
Lemma trim_ok k b f : -1 <= f < Z.of_nat (length b) → ∃ f', trim k b f = Ok f' ∧ -1 <= f' <= f.
Proof.
  revert f. induction k as [|k IH]; intros f H; cbn [trim]; [exists f; split; [done|lia]|]. destruct (Z.ltb_spec 0 f) as [E|E]; [|exists f; split; [done|lia]].
  destruct (read_in b f) as [c ->]; [lia|]. cbn [mbind outcome_bind]. case_match; [|exists f; split; [done|lia]]. destruct (IH (f - 1)) as (f' & -> & Hf); [lia|]. exists f'. split; [done|lia].
Qed.
Lemma final_ok n s t : ready n s t → ∃ s' i, final_stage n s t = Ok s' ∧ length (res s') = length (res s) ∧ 0 <= i <= n ∧ res s' !! Z.to_nat i = Some 0.
Proof.
  intros (Hr & Hc & Hq & Hi & Hst). unfold final_stage.
  assert (∃ b, match start_pos (literal_digit t), st s with
      | Some p, st_literal_number => if n <=? res_cur_pos s then c ← at_pos s p; if is_digit_char c then b ← write_at (res s) p 63; write_at b (p + 1) 0 else Ok (res s) else Ok (res s)
      | _, _ => Ok (res s) end = Ok b ∧ length b = length (res s)) as (b & -> & Lb).
  { destruct (start_pos (literal_digit t)) as [p|]; [|by exists (res s)]. destruct (st s); try by exists (res s). destruct Hst as (p' & [= <-] & Hp & _). case_match; [|by exists (res s)].
    destruct (at_ok s p) as [c ->]; [lia|]. cbn [mbind outcome_bind]. case_match; [|by exists (res s)]. destruct (write_in (res s) p 63) as (b1 & -> & L1); [lia|]. cbn [mbind outcome_bind].
    destruct (write_in b1 (p + 1) 0) as (b2 & -> & L2); [lia|]. exists b2. split; [done|congruence]. }
  cbn [mbind outcome_bind]. destruct (trim_ok (length b) b (res_cur_pos s - 1)) as (f & -> & Hf); [lia|]. cbn [mbind outcome_bind]. rewrite write_at_ok by lia. cbn [mbind outcome_bind].
  eexists _, (f + 1). split; [done|]. split; [cbn; by rewrite length_insert|]. split; [lia|]. cbn. apply list_lookup_insert_eq. lia.
Qed.
Lemma c_text_short (b : list Z) i : b !! i = Some 0 → (length (c_text b) <= i)%nat.
Proof.
  unfold c_text. revert i. induction b as [|c b IH]; intros i H; [done|]. destruct i as [|i]; cbn [span].
  - injection H as ->. cbn. lia.
  - destruct (negb (c =? 0)); [|cbn; lia]. destruct (span _ b) as [x y] eqn:E. cbn in *. specialize (IH i H). lia.
Qed.

(** C19: The digest is computed in bounds.  For a query that is not longer than the
    limit, in a buffer with room for it and a terminator, nothing is read or written
    outside the query and the buffers, every loop ends, one pass is enough, and the
    text that is left is terminated and not longer than the query.  The first comment
    is not kept in the digest, at least one value of a list is kept, and either at
    most 2n + 2 lists are kept for n kept values, or the query is too short for more
    lists than are kept: with the defaults, of 3 values and 10 lists, it has fewer than
    121 characters.  [digest_overflows] is a query of 131. *)
Theorem digest_safe opts q malloc max buf cmd fuel : (∀ n, 0 <= n → Z.of_nat (length (malloc n)) = n) → keep_comment opts = false →
  1 <= grouping_limit opts → groups_fit opts (Z.of_nat (length q)) → Z.of_nat (length q) <= max →
  match buf with Some b => Z.of_nat (length q) + 1 <= Z.of_nat (length b) | None => True end → Z.of_nat (length cmd) = FIRST_COMMENT_MAX_LENGTH →
  ∃ b c, mysql_query_digest_and_first_comment_2 opts q malloc max (S fuel) buf cmd = Ok (b, c) ∧ (length (c_text b) <= length q)%nat ∧
    match c with Some c => Z.of_nat (length c) = FIRST_COMMENT_MAX_LENGTH | None => True end.
Proof.
  intros Hm Hk Hg Hgg Hmax Hb Hc. unfold mysql_query_digest_and_first_comment_2, get_digest_max_len. rewrite (proj2 (Z.ltb_ge _ _)) by lia.
  set (r := match buf with Some b => b | None => _ end). assert (Z.of_nat (length q) + 1 <= Z.of_nat (length r)) as Hr by (unfold r; destruct buf; [done|rewrite Hm; lia]). clearbody r.
  cbn [digest_loop]. destruct (stage_1_safe opts q malloc Hm Hk r cmd Hr Hc) as (s1 & t1 & -> & (H1 & H2 & H3 & H4 & H5 & H6 & H7 & H8)). cbn [mbind outcome_bind].
  assert (ready (Z.of_nat (length q)) s1 t1) as R1 by done.
  destruct (stage_2_ok opts _ s1 t1 init_compress_st R1) as (s2 & t2 & c2 & -> & R2 & E2 & _). cbn [mbind outcome_bind].
  destruct (stage_3_ok opts _ s2 t2 init_compress_st Hg R2) as (s3 & t3 & c3 & -> & R3 & E3 & _). cbn [mbind outcome_bind].
  destruct (stage_4_ok opts _ s3 t3 init_compress_st Hg Hgg R3) as (s4 & t4 & c4 & -> & R4 & E4 & _). cbn [mbind outcome_bind].
  set (s5 := s4 <| gl_c_offset := _ |>). assert (ready (Z.of_nat (length q)) s5 t4) as R5 by done. rewrite (proj2 (Z.leb_le _ _)) by (destruct R5 as (_ & _ & ? & _); done). cbn [orb mbind outcome_bind].
  destruct (final_ok _ s5 t4 R5) as (s6 & i & -> & L6 & Hi & E6). cbn [mbind outcome_bind]. eexists _, _. split; [done|]. split; [apply c_text_short in E6; lia|].
  rewrite E4, E3, E2. destruct H7 as (_ & _ & _ & H7). by destruct (fst_cmnt (cmnt t1)).
Qed.

Definition zeros (n : Z) : list Z := replicate (Z.to_nat n) 0.
Definition default_options : options := get_options false false false false 3 10.
Lemma digest_safe_witness : let q := str "select a,'x' , 12.5 from t where b in (1,2,3,4,5)" in
  ∃ b c, mysql_query_digest_and_first_comment_2 (get_options true false false false 3 10) q zeros 65000 1 None (zeros 1024) = Ok (b, c) ∧ (length (c_text b) <= length q)%nat ∧
    match c with Some c => Z.of_nat (length c) = FIRST_COMMENT_MAX_LENGTH | None => True end.
Proof.
  intros q. apply (digest_safe (get_options true false false false 3 10) q zeros 65000 None (zeros 1024) 0).
  - intros n Hn. unfold zeros. rewrite length_replicate. lia.
  - done.
  - vm_compute. done.
  - by apply (bool_decide_unpack _).
  - vm_compute. done.
  - done.
  - done.
Defined.
(** Eleven lists that are not separated are longer than what the comma is counted for:
    with the default limits the digest of these 131 characters has 133, and is
    written past the end of the 132 bytes that were allocated. *)
Definition eleven_lists : list Z := concat (replicate 11 (str "(1,2,3,4,5)")) ++ str "abcdefghij".
Lemma digest_overflows :
  length eleven_lists = 131%nat ∧
  mysql_query_digest_and_first_comment_2 default_options eleven_lists zeros 65000 1 None (zeros 1024) = Fault OutOfBounds ∧
  (λ r, length (c_text r.1)) <$> mysql_query_digest_and_first_comment_2 default_options eleven_lists zeros 65000 1 (Some (replicate 200 1)) (zeros 1024) = Ok 133%nat.
Proof. vm_compute. done. Qed.

(** ** Other corner cases *)
Definition digest (q : string) : outcome (list Z) :=
  (λ r, c_text r.1) <$> mysql_query_digest_and_first_comment_2 default_options (str q) zeros 65000 1 None (zeros 1024).
(** Comments of four characters or two are taken for the query, and statistics of
    queries that differ only there are kept apart. *)
Example short_comments_kept : digest "select 1 -- abcd" = Ok (str "select ? abcd") ∧ digest "select 1 -- abcde" = Ok (str "select ?") ∧ digest "select 1 #ab" = Ok (str "select ? ab").
Proof. vm_compute. done. Qed.
(** A name that starts with a digit is a value when it ends the query, one that is
    the last of a list is dropped with the values. *)
Example names_taken_for_values : digest "select * from 2a" = Ok (str "select * from ?") ∧ digest "select * from 2a where b=1" = Ok (str "select * from 2a where b=?") ∧
  digest "select 1 in (1,2,3,4,a)" = Ok (str "select ? in (?,?,?,...)").
Proof. vm_compute. done. Qed.
(** The limits are read as one byte: 256 turns the shortening off. *)
Example limits_truncated : grouping_limit (get_options false false false false 256 10) = 0 ∧ grouping_limit (get_options false false false false 200 10) = -56.
Proof. done. Qed.
