(* ===== verification/DigestText.v ===== *)
(** * What the first stage of the digest does with a query

    A query as a sequence of pieces, with the text of each piece and what the
    first stage makes of it: a value becomes a question mark, blanks become one
    space, everything else stays.  [first_stage_normal] says so for the
    automaton of [Digest]. *)
From S2P Require Import Prelude StringUtils Digest DigestStages.

(** The program's own entry to the first stage (for its tests). *)
Definition mysql_query_digest_first_stage (opts : options) (q : list Z) (malloc : Z → list Z) (max_query_length : Z) (buf : option (list Z)) (cmd : list Z)
  : outcome (list Z * option (list Z)) :=
  let d_max_len := get_digest_max_len max_query_length (Z.of_nat (length q)) in
  let r := match buf with Some b => b | None => malloc (d_max_len + 1) end in
  '(s, t) ← stage_1_parsing opts q d_max_len malloc (init_shared_st r) (init_stage_1_st cmd);
  s ← final_stage d_max_len s t;
  Ok (res s, fst_cmnt (cmnt t)).

(** ** Pieces *)
Inductive piece :=
  | Plain (c : Z)                        (* part of a word, or a sign *)
  | Blank (cs : list Z)
  | Text (delim : Z) (body : list Z)
  | Digits (ds : list Z).
Definition render (p : piece) : list Z :=
  match p with Plain c => [c] | Blank cs => cs | Text d body => d :: body ++ [d] | Digits ds => ds end.
Definition text (ps : list piece) : list Z := concat (render <$> ps).
(** What is left of the pieces after [out]. *)
Definition small_case (opts : options) (c : Z) : Z := if lowercase opts then lower c else c.
Fixpoint normal (opts : options) (out : list Z) (ps : list piece) : list Z :=
  match ps with
  | [] => out
  | p :: ps' => normal opts (out ++ match p with Plain c => [small_case opts c] | Blank _ => if bool_decide (out = []) then [] else [32] | _ => [63] end) ps'
  end.
Definition starts_comment (s : list Z) : bool :=
  match s with
  | 47 :: 42 :: _ => true
  | 45 :: 45 :: c :: _ => is_space_char c
  | _ => false
  end.
(** The characters between the quotes [d] of a literal: a backslash is followed by the
    character it escapes, and the quote itself is doubled. *)
Fixpoint quoted (d : Z) (body : list Z) : bool :=
  match body with
  | [] => true
  | c :: body1 =>
      if c =? 92 then match body1 with [] => false | _ :: body2 => quoted d body2 end
      else if c =? d then match body1 with [] => false | c' :: body2 => (c' =? d) && quoted d body2 end
      else quoted d body1
  end.
(** The pieces are the ones that the text is read as, after the character [prev]. *)
Fixpoint proper (prev : Z) (ps : list piece) : Prop :=
  match ps with
  | [] => True
  | Plain c :: ps' =>
      is_space_char c = false ∧ (c ∉ [39; 34; 35]) ∧ starts_comment (c :: text ps') = false ∧ (is_digit_char c = true → is_token_char prev = false) ∧ proper c ps'
  | Blank cs :: ps' => cs ≠ [] ∧ Forall (λ c, is_space_char c = true) cs ∧ is_space_char prev = false ∧ proper 32 ps'
  | Text d body :: ps' => (d = 39 ∨ d = 34) ∧ quoted d body = true ∧ head (text ps') ≠ Some d ∧ proper 0 ps'
  | Digits ds :: ps' =>
      ds ≠ [] ∧ Forall (λ c, is_digit_char c = true) ds ∧ is_token_char prev = true ∧
      match head (text ps') with Some c => is_token_char c = true ∧ c ≠ 46 | None => True end ∧ proper 63 ps'
  end.
(** Whether the last piece is a number. *)
Fixpoint ends_number (ps : list piece) : bool :=
  match ps with [] => false | [Digits _] => true | _ :: ps' => ends_number ps' end.
#[export] Instance proper_dec prev ps : Decision (proper prev ps).
Proof. revert prev. induction ps as [|[c|cs|d body|ds] ps IH]; intros prev; cbn [proper]; try apply _. destruct (head (text ps)); apply _. Defined.
(** Spaces and semicolons at the end, up to the first character. *)
Fixpoint drop_end (r : list Z) : list Z :=
  match r with
  | c :: ((_ :: _) as r') => if (c =? 32) || (c =? 59) then drop_end r' else r
  | _ => r
  end.
Definition trimmed (l : list Z) : list Z := rev (drop_end (rev l)).

Section Normal.
Context (opts : options) (q : list Z) (malloc : Z → list Z).
Context (malloc_size : ∀ n, 0 <= n → Z.of_nat (length (malloc n)) = n) (no_keep : keep_comment opts = false) (no_null : replace_null opts = false).
Abbreviation q_len := (Z.of_nat (length q)).
Abbreviation step := (stage_1_step opts q q_len malloc).
Abbreviation loop := (stage_1_loop opts q q_len malloc).

(** ** Runs of the automaton *)
Definition config : Type := p_st * shared_st * stage_1_st.
Definition run (x : config) (fuel : nat) : outcome config := loop fuel x.1.1 x.1.2 x.2.
Definition runs (x y : config) : Prop := ∃ n, ∀ f, run x (n + f) = run y f.
Lemma runs_refl x : runs x x.
Proof. by exists 0%nat. Qed.
Lemma runs_trans x y z : runs x y → runs y z → runs x z.
Proof. intros [n Hn] [m Hm]. exists (n + m)%nat. intros f. by rewrite <- Nat.add_assoc, Hn, Hm. Qed.
Lemma runs_step cur s t y : res_cur_pos s <= q_len - 1 → q_cur_pos s < q_len → step cur s t = Ok y → runs (cur, s, t) y.
Proof.
  intros H1 H2 E. exists 1%nat. intros f. unfold run. cbn [Nat.add stage_1_loop fst snd]. rewrite (proj2 (Z.leb_le _ _)), (proj2 (Z.ltb_lt _ _)) by lia. cbn [andb]. rewrite E. cbn [mbind outcome_bind]. by destruct y as [[? ?] ?].
Qed.
(** More fuel does not change the result. *)
Lemma loop_mono f k cur s t r : loop f cur s t = Ok r → loop (f + k) cur s t = Ok r.
Proof.
  revert cur s t. induction f as [|f IH]; intros cur s t; cbn [stage_1_loop Nat.add].
  - destruct (_ && _) eqn:E; [done|]. intros H. destruct k; cbn [stage_1_loop]; by rewrite E.
  - destruct (_ && _); [|done]. destruct (step cur s t) as [[[cur' s'] t']|]; cbn [mbind outcome_bind]; [|done]. apply IH.
Qed.
Lemma runs_result x y f r : runs x y → q_len <= q_cur_pos y.1.2 → run x f = Ok r → r = y.
Proof.
  intros [n Hn] Hq Hr. assert (run y f = Ok y) as Hy by (unfold run; destruct y as [[cur s] t]; cbn in *; destruct f; cbn [stage_1_loop]; rewrite (proj2 (Z.ltb_ge _ _)), andb_false_r by lia; done).
  specialize (Hn f). rewrite Hy in Hn. pose proof (loop_mono f n _ _ _ r Hr) as Hm. unfold run in Hn. rewrite Nat.add_comm in Hn. congruence.
Qed.

(** ** Between two pieces *)
Definition like (prev c : Z) : Prop := is_token_char c = is_token_char prev ∧ (is_space_char prev = false → is_space_char c = false).
Record at_piece (out : list Z) (rest : list Z) (prev : Z) (s : shared_st) (t : stage_1_st) : Prop := {
  ap_res : ∃ g, res s = out ++ g; ap_room : q_len + 1 <= Z.of_nat (length (res s)); ap_cur : res_cur_pos s = Z.of_nat (length out);
  ap_rest : drop (Z.to_nat (q_cur_pos s)) q = rest; ap_pos : 0 <= q_cur_pos s <= q_len; ap_le : res_cur_pos s <= q_cur_pos s;
  ap_prev : like prev (prev_char s); ap_keep : keep_prev_char s = false; ap_str : delim_num (literal_str t) = false; ap_digit : literal_digit t = mk_literal_digit true None
}.
Lemma rest_at s k l c : drop (Z.to_nat (q_cur_pos s)) q = l → 0 <= q_cur_pos s → l !! k = Some c → q_at q s (Z.of_nat k) = Ok c.
Proof. intros <- H0 H. rewrite lookup_drop in H. unfold q_at. apply read_at_Some. split; [lia|]. by rewrite Z2Nat.inj_add, Nat2Z.id by lia. Qed.
Lemma rest_len s l : drop (Z.to_nat (q_cur_pos s)) q = l → 0 <= q_cur_pos s <= q_len → q_len = q_cur_pos s + Z.of_nat (length l).
Proof. intros <- H. rewrite length_drop. lia. Qed.
Lemma drop_next (p : Z) c l : drop (Z.to_nat p) q = c :: l → 0 <= p → drop (Z.to_nat (p + 1)) q = l.
Proof. intros H H0. rewrite Z2Nat.inj_add, <- drop_drop, H by lia. done. Qed.

(** No value and no comment starts here. *)
Lemma next_no_mark s c l : drop (Z.to_nat (q_cur_pos s)) q = c :: l → 0 <= q_cur_pos s <= q_len → starts_comment (c :: l) = false → c ∉ [39; 34; 35] →
  (is_digit_char c = true → is_token_char (prev_char s) = false) → get_next_st opts q q_len s = Ok st_no_mark_found.
Proof using no_null.
  intros Hd H0 Hc Hm Hdig. pose proof (rest_len s _ Hd H0) as Hlen. cbn [length] in Hlen.
  pose proof (rest_at s 0 _ c Hd (proj1 H0) eq_refl) as E0. change (Z.of_nat 0) with 0 in E0.
  assert (∀ k c', l !! k = Some c' → q_at q s (Z.of_nat (S k)) = Ok c') as Hk by (intros k c' H; by apply (rest_at s (S k) _ c' Hd (proj1 H0))).
  assert (c ≠ 39 ∧ c ≠ 34 ∧ c ≠ 35) as (M1 & M2 & M3) by (rewrite !elem_of_cons in Hm; naive_solver).
  assert ((Ok (q_cur_pos s <? q_len - 1) &&? q_is q s 0 (Z.eqb 47) &&? q_is q s 1 (Z.eqb 42)) = Ok false) as A.
  { unfold q_is. rewrite E0. cbn [mbind outcome_bind]. destruct (Z.ltb_spec (q_cur_pos s) (q_len - 1)) as [E|E]; [|done]. destruct (Z.eqb_spec 47 c); [subst c|done]. destruct l as [|c1 l]; [cbn in *; lia|].
    pose proof (Hk 0%nat c1 eq_refl) as E1. change (Z.of_nat 1) with 1 in E1. rewrite E1. cbn [mbind outcome_bind]. destruct (Z.eqb_spec 42 c1); [subst c1; done|done]. }
  assert ((Ok ((q_cur_pos s <? q_len - 2) && (c =? 45)) &&? q_is q s 1 (Z.eqb 45) &&? q_is q s 2 is_space_char) = Ok false) as B.
  { unfold q_is. cbn [mbind outcome_bind]. destruct (Z.ltb_spec (q_cur_pos s) (q_len - 2)) as [E|E]; [|done]. destruct (Z.eqb_spec c 45); [subst c|done]. cbn [andb]. destruct l as [|c1 [|c2 l]]; [cbn in *; lia..|].
    pose proof (Hk 0%nat c1 eq_refl) as E1. pose proof (Hk 1%nat c2 eq_refl) as E2. change (Z.of_nat 1) with 1 in E1. change (Z.of_nat 2) with 2 in E2. rewrite E1. cbn [mbind outcome_bind].
    destruct (Z.eqb_spec 45 c1); [subst c1|done]. rewrite E2. cbn [mbind outcome_bind]. cbn in Hc. by rewrite Hc. }
  unfold get_next_st. rewrite A. cbn [mbind outcome_bind] in B |- *. rewrite E0. cbn [mbind outcome_bind]. rewrite (proj2 (Z.eqb_neq c 35)) by done. rewrite B. cbn [mbind outcome_bind].
  rewrite (proj2 (Z.eqb_neq c 39)), (proj2 (Z.eqb_neq c 34)) by done. cbn [orb].
  destruct (is_digit_char c); [rewrite Hdig by done|rewrite andb_false_r]; rewrite ?no_null, ?andb_false_r; done.
Qed.

(** *** Words, signs and blanks *)
Definition copied (c : Z) : Z := if is_space_char c then 32 else small_case opts c.
Lemma like_refl c : like c c.
Proof. done. Qed.
Lemma piece_len out l prev s t : at_piece out l prev s t → q_len = q_cur_pos s + Z.of_nat (length l).
Proof. intros [_ _ _ <- Hp _ _ _ _ _]. rewrite length_drop. lia. Qed.
Lemma piece_char out c l prev s t : at_piece out (c :: l) prev s t → q_at q s 0 = Ok c ∧ q_cur_pos s < q_len.
Proof. intros H. pose proof (piece_len _ _ _ _ _ H). destruct H as [_ _ _ Hr Hp _ _ _ _ _]. cbn [length] in *. split; [exact (rest_at s 0 _ c Hr (proj1 Hp) eq_refl)|lia]. Qed.
(** Writing at the end of what is written. *)
Lemma put_at out c s : (∃ g, res s = out ++ g) → res_cur_pos s = Z.of_nat (length out) → Z.of_nat (length out) < Z.of_nat (length (res s)) →
  ∃ g, put c s = Ok ((s <| res := (out ++ [c]) ++ g |>) <| res_cur_pos := Z.of_nat (length (out ++ [c])) |>) ∧ Z.of_nat (length ((out ++ [c]) ++ g)) = Z.of_nat (length (res s)).
Proof.
  intros [g Hg] Hc Hlt. unfold put. rewrite Hc. destruct g as [|x g]; [rewrite Hg, app_nil_r in Hlt; lia|]. rewrite Hg, write_next. cbn [mbind outcome_bind].
  exists g. rewrite <- length_snoc. split; [done|]. rewrite !length_app. cbn [length]. lia.
Qed.
Lemma copy_piece out c l prev s t : at_piece out (c :: l) prev s t → ∃ s', copy_next_char opts q s = Ok s' ∧ at_piece (out ++ [copied c]) l c s' t ∧ prev_char s' = c.
Proof.
  intros H. destruct (piece_char _ _ _ _ _ _ H) as [E0 Hq]. destruct H as [Hg Hroom Hc Hr Hp Hle Hprev Hk Hs Hd]. unfold copy_next_char. rewrite E0. cbn [mbind outcome_bind].
  replace (if negb (lowercase opts) then to_space c else if is_space_char c then 32 else lower c) with (copied c) by (unfold copied, to_space, small_case; by destruct (lowercase opts), (is_space_char c)).
  destruct (put_at out (copied c) s Hg Hc) as (g & -> & L); [lia|]. cbn [mbind outcome_bind]. unfold inc_proc_pos.
  change (q_at q ((s <| res := (out ++ [copied c]) ++ g |>) <| res_cur_pos := Z.of_nat (length (out ++ [copied c])) |>) 0) with (q_at q s 0). rewrite E0. cbn [mbind outcome_bind].
  change (keep_prev_char ((s <| res := _ |>) <| res_cur_pos := _ |>)) with (keep_prev_char s). rewrite Hk. cbn [negb]. eexists. split; [done|].
  pose proof (drop_next _ _ _ Hr (proj1 Hp)) as Hr'. split; [|done]. split; cbn; [by exists g|lia|done|exact Hr'|lia|rewrite length_app; cbn [length]; lia|done|done|done|done].
Qed.
Lemma at_pre out l prev s t n : at_piece out l prev s t → at_piece out l prev (s <| res_pre_pos := n |>) t.
Proof. intros [? ? ? ? ? ? ? ? ? ?]. by split. Qed.
Lemma piece_step out c l prev s t y : at_piece out (c :: l) prev s t → step st_no_mark_found s t = Ok y → runs (st_no_mark_found, s, t) y.
Proof. intros H. destruct (piece_char _ _ _ _ _ _ H) as [_ Hq]. destruct H as [_ _ _ _ _ Hle _ _ _ _]. apply runs_step; lia. Qed.
(** One character that is copied. *)
Lemma run_copy out c l prev s t : at_piece out (c :: l) prev s t → starts_comment (c :: l) = false → (c ∉ [39; 34; 35]) → (is_digit_char c = true → is_token_char prev = false) →
  (out = [] → is_space_char c = false) → (is_space_char c = true → is_space_char prev = false) →
  ∃ s', runs (st_no_mark_found, s, t) (st_no_mark_found, s', t) ∧ at_piece (out ++ [copied c]) l c s' t ∧ prev_char s' = c.
Proof using no_null.
  intros H Hc Hm Hd Hout Hsp. pose proof (at_pre _ _ _ _ _ (res_cur_pos s) H) as H0. destruct (copy_piece _ _ _ _ _ _ H0) as (s' & E & H' & Ep). exists s'. split; [|done].
  apply (piece_step _ _ _ _ _ _ _ H). unfold stage_1_step, no_mark. set (s0 := s <| res_pre_pos := res_cur_pos s |>) in *. pose proof (piece_char _ _ _ _ _ _ H0) as [E0 Hq].
  destruct H0 as [Hg Hroom Hcur Hr Hp Hle [Hp1 Hp2] Hk Hs Hdig].
  rewrite (next_no_mark s0 c l) by (done || rewrite Hp1; done). cbn [mbind outcome_bind]. rewrite E0. cbn [mbind outcome_bind].
  assert ((res_cur_pos s0 =? 0) && is_space_char c = false) as ->.
  { destruct (Z.eqb_spec (res_cur_pos s0) 0) as [E1|]; [|done]. cbn [andb]. apply Hout. destruct out; [done|]. rewrite Hcur in E1. cbn in E1. lia. }
  assert (is_space_char (prev_char s0) && is_space_char c = false) as -> by (destruct (is_space_char c); [rewrite Hp2 by auto; done|by rewrite andb_false_r]).
  by rewrite E.
Qed.
Lemma space_facts c : is_space_char c = true → (c ∉ [39; 34; 35]) ∧ (∀ l, starts_comment (c :: l) = false) ∧ is_digit_char c = false ∧ is_token_char c = true.
Proof.
  unfold is_space_char. rewrite !orb_true_iff, !Z.eqb_eq. intros [[[->| ->]| ->]| ->]; (split; [by rewrite !elem_of_cons, elem_of_nil; naive_solver|done]).
Qed.
(** The blanks before the query are skipped, *)
Lemma run_leading cs l prev s t : Forall (λ c, is_space_char c = true) cs → at_piece [] (cs ++ l) prev s t → ∃ s', runs (st_no_mark_found, s, t) (st_no_mark_found, s', t) ∧ at_piece [] l prev s' t.
Proof using no_null.
  intros Hcs. revert s. induction Hcs as [|c cs Hc Hcs IH]; intros s H; [exists s; split; [apply runs_refl|done]|]. cbn [app] in H. destruct (space_facts c Hc) as (Hm & Hcm & Hdg & _).
  pose proof (at_pre _ _ _ _ _ (res_cur_pos s) H) as H0. set (s0 := s <| res_pre_pos := res_cur_pos s |>) in *. pose proof (piece_char _ _ _ _ _ _ H0) as [E0 Hq].
  assert (step st_no_mark_found s t = Ok (st_no_mark_found, skip 1 s0, t)) as E.
  { unfold stage_1_step, no_mark. fold s0. destruct H0 as [Hg Hroom Hcur Hr Hp Hle _ Hk Hs Hdig]. rewrite (next_no_mark s0 c (cs ++ l)) by (done || rewrite Hdg; done). cbn [mbind outcome_bind]. rewrite E0. cbn [mbind outcome_bind].
    change (Z.of_nat (length (@nil Z))) with 0 in Hcur. rewrite Hcur, Hc. done. }
  destruct (IH (skip 1 s0)) as (s' & Hrun & H').
  - destruct H0 as [Hg Hroom Hcur Hr Hp Hle Hpr Hk Hs Hdig]. subst s0. pose proof (drop_next _ _ _ Hr (proj1 Hp)). cbn in *. split; cbn; done || lia.
  - exists s'. split; [|done]. eapply runs_trans; [|exact Hrun]. by apply (piece_step _ _ _ _ _ _ _ H).
Qed.
(** and those after a first one change nothing. *)
Lemma run_more cs out l prev s t : Forall (λ c, is_space_char c = true) cs → at_piece (out ++ [32]) (cs ++ l) prev s t → is_space_char (prev_char s) = true → is_token_char prev = true → is_space_char prev = true →
  ∃ s', runs (st_no_mark_found, s, t) (st_no_mark_found, s', t) ∧ at_piece (out ++ [32]) l 32 s' t.
Proof using no_null.
  intros Hcs. revert s prev. induction Hcs as [|c cs Hc Hcs IH]; intros s prev H Hp Ht Hps.
  { exists s. split; [apply runs_refl|]. destruct H as [? ? ? ? ? ? [E _] ? ? ?]. split; try done. split; [by rewrite E, Ht|done]. }
  cbn [app] in H. destruct (space_facts c Hc) as (Hm & Hcm & Hdg & _). pose proof (at_pre _ _ _ _ _ (res_cur_pos s) H) as H0. set (s0 := s <| res_pre_pos := res_cur_pos s |>) in *. pose proof (piece_char _ _ _ _ _ _ H0) as [E0 Hq].
  destruct H0 as [[g Hg] Hroom Hcur Hr Hpos Hle _ Hk Hs Hdig]. rewrite length_app in Hcur. cbn [length] in Hcur.
  destruct g as [|x g]; [rewrite Hg, app_nil_r, length_app in Hroom; cbn [length] in Hroom; lia|].
  set (s1 := skip 1 ((s0 <| prev_char := 32 |>) <| res := ((out ++ [32]) ++ [32]) ++ g |>)).
  assert (step st_no_mark_found s t = Ok (st_no_mark_found, s1, t)) as E.
  { unfold stage_1_step, no_mark. fold s0. rewrite (next_no_mark s0 c (cs ++ l)) by (done || rewrite Hdg; done). cbn [mbind outcome_bind]. rewrite E0. cbn [mbind outcome_bind].
    rewrite (proj2 (Z.eqb_neq (res_cur_pos s0) 0)) by lia. cbn [andb]. change (prev_char s0) with (prev_char s). rewrite Hp, Hc. cbn [andb].
    assert (read_at (res s0) (res_cur_pos s0 - 1) = Ok 32) as ->.
    { apply read_at_Some. split; [lia|]. rewrite Hg, Hcur, <- app_assoc, lookup_app_r by lia. by replace (Z.to_nat (Z.of_nat (length out + 1) - 1) - length out)%nat with 0%nat by lia. }
    cbn [mbind outcome_bind]. cbn [negb is_space_char Z.eqb orb]. change (negb (is_space_char 32)) with false. cbn iota.
    assert (write_at (res s0) (res_cur_pos s0) 32 = Ok (((out ++ [32]) ++ [32]) ++ g)) as ->; [|done].
    rewrite Hg, Hcur. replace (Z.of_nat (length out + 1)) with (Z.of_nat (length (out ++ [32]))) by (rewrite length_app; cbn; lia). apply write_next. }
  destruct (IH s1 32) as (s' & Hrun & H'); [|done|done|done|exists s'; split; [|done]; eapply runs_trans; [by apply (piece_step _ _ _ _ _ _ _ H)|exact Hrun]].
  split; cbn; try done.
  - exists (32 :: g). by rewrite <- (app_assoc (out ++ [32])).
  - rewrite Hg in Hroom. rewrite !length_app in *. cbn [length] in *. lia.
  - rewrite length_app. cbn [length]. exact Hcur.
  - exact (drop_next _ _ _ Hr (proj1 Hpos)).
  - subst s0. cbn in *. lia.
  - subst s0. cbn in *. lia.
Qed.

(** *** The end of the query *)
Record finished (out : list Z) (number : bool) (cur : p_st) (s : shared_st) (t : stage_1_st) : Prop := {
  fi_res : ∃ g, res s = out ++ g; fi_room : q_len + 1 <= Z.of_nat (length (res s)); fi_cur : res_cur_pos s = Z.of_nat (length out); fi_le : Z.of_nat (length out) <= q_len; fi_pos : q_len <= q_cur_pos s;
  fi_number : cur = st_literal_number ↔ number = true; fi_start : if number then ∃ o, out = o ++ [63] ∧ start_pos (literal_digit t) = Some (Z.of_nat (length o)) else start_pos (literal_digit t) = None
}.
Lemma piece_finished out prev s t : at_piece out [] prev s t → finished out false st_no_mark_found s t.
Proof. intros H. pose proof (piece_len _ _ _ _ _ H). destruct H as [? ? ? ? ? ? ? ? ? Hd]. cbn [length] in *. split; try done; [lia|lia|by rewrite Hd]. Qed.
(** Goes back to the end of [out] and writes the mark. *)
Lemma mark_at out s : (∃ g, res s = out ++ g) → Z.of_nat (length out) < Z.of_nat (length (res s)) →
  ∃ g, place_mark (Z.of_nat (length out)) s = Ok (((s <| res := (out ++ [63]) ++ g |>) <| res_cur_pos := Z.of_nat (length (out ++ [63])) |>) <| prev_char := 63 |>) ∧
    Z.of_nat (length ((out ++ [63]) ++ g)) = Z.of_nat (length (res s)).
Proof.
  intros Hg Hlt. unfold place_mark. destruct (put_at out 63 (s <| res_cur_pos := Z.of_nat (length out) |>)) as (g & -> & L); [exact Hg|done|exact Hlt|]. cbn [mbind outcome_bind]. by exists g.
Qed.

(** *** String literals

    [escape] is the character before, when it is a backslash that is not escaped or
    the first of two quotes. *)
Record in_string (out : list Z) (d : Z) (escape : option Z) (rest : list Z) (s : shared_st) (t : stage_1_st) : Prop := {
  is_res : ∃ g, res s = out ++ g; is_room : q_len + 1 <= Z.of_nat (length (res s)); is_cur : res_cur_pos s = Z.of_nat (length out); is_pre : res_pre_pos s = Z.of_nat (length out);
  is_rest : drop (Z.to_nat (q_cur_pos s)) q = rest; is_pos : 0 <= q_cur_pos s <= q_len; is_le : res_cur_pos s < q_cur_pos s; is_keep : keep_prev_char s = false;
  is_str : delim_num (literal_str t) = true ∧ delim_char (literal_str t) = d ∧ q_start_pos (literal_str t) < q_cur_pos s ∧
    match escape with Some p => q_start_pos (literal_str t) + 1 < q_cur_pos s ∧ prev_char s = p | None => q_start_pos (literal_str t) + 1 < q_cur_pos s → prev_char s ≠ d ∧ prev_char s ≠ 92 end;
  is_digit : literal_digit t = mk_literal_digit true None
}.
Lemma next_string s d l : drop (Z.to_nat (q_cur_pos s)) q = d :: l → 0 <= q_cur_pos s → d = 39 ∨ d = 34 → get_next_st opts q q_len s = Ok st_literal_string.
Proof.
  intros Hd H0 Hq. pose proof (rest_at s 0 _ d Hd H0 eq_refl) as E0. change (Z.of_nat 0) with 0 in E0. unfold get_next_st, q_is. rewrite !E0. cbn [mbind outcome_bind].
  assert (∀ b : bool, (if b then if 47 =? d then c ← q_at q s 1; Ok (42 =? c) else Ok false else Ok false) = Ok false) as -> by (intros []; destruct Hq; subst; done).
  cbn [mbind outcome_bind]. destruct Hq; subst d; destruct (q_cur_pos s <? q_len - 2); reflexivity.
Qed.
Lemma inc_string s c : q_at q s 0 = Ok c → keep_prev_char s = false → inc_proc_pos q s = Ok (skip 1 (s <| prev_char := c |>)).
Proof. intros E Hk. unfold inc_proc_pos. rewrite E, Hk. done. Qed.
Lemma string_step out d e c l s t y : in_string out d e (c :: l) s t → step st_literal_string s t = Ok y → runs (st_literal_string, s, t) y.
Proof.
  intros [_ _ _ _ Hr Hp Hle _ _ _]. pose proof (rest_len s _ Hr Hp) as H. cbn [length] in H. apply runs_step; lia.
Qed.
(** A character that does not close the literal. *)
Lemma run_char out d e c r s t : d = 39 ∨ d = 34 → match e with Some p => p = 92 ∨ p = d ∧ c = d | None => c ≠ d ∨ head r = Some d end → in_string out d e (c :: r) s t →
  ∃ s', runs (st_literal_string, s, t) (st_literal_string, s', t) ∧ in_string out d (match e with Some _ => None | None => if (c =? 92) || (c =? d) then Some c else None end) r s' t.
Proof.
  intros Hdq Hce H. pose proof H as [Hg Hroom Hcur Hpre Hr Hp Hle Hk (Hn & Hd & Hst & Hprev) Hdig]. pose proof (rest_len s _ Hr Hp) as Hlen. cbn [length] in Hlen. pose proof (drop_next _ _ _ Hr (proj1 Hp)) as Hr'.
  set (s0 := s <| will_copy := false |>). pose proof (rest_at s0 0 _ c Hr (proj1 Hp) eq_refl) as E0. change (Z.of_nat 0) with 0 in E0.
  assert ((if c =? d then if q_len =? q_cur_pos s0 + 1 then Ok true else q_is q s0 1 (λ n, negb (n =? d)) else Ok false) = Ok false ∨ c = d ∧ e ≠ None) as Hclose.
  { destruct (Z.eqb_spec c d) as [->|]; [|by left]. destruct e; [by right|]. left. destruct Hce as [|Hh]; [done|]. destruct r as [|x r]; [done|]. injection Hh as ->. cbn [length] in Hlen. change (q_cur_pos s0) with (q_cur_pos s).
    rewrite (proj2 (Z.eqb_neq q_len _)) by lia. unfold q_is. pose proof (rest_at s0 1 _ d Hr (proj1 Hp) eq_refl) as E1. change (Z.of_nat 1) with 1 in E1. rewrite E1. cbn. by rewrite Z.eqb_refl. }
  set (esc := (q_start_pos (literal_str t) + 1 <? q_cur_pos s0) && ((prev_char s0 =? 92) && (c =? 92) || (prev_char s0 =? 92) && (c =? d) || (prev_char s0 =? d) && (c =? d))).
  set (s1 := if esc then skip 1 ((s0 <| keep_prev_char := true |>) <| prev_char := 88 |> <| keep_prev_char := false |>) else skip 1 (s0 <| prev_char := c |>)).
  assert (match e with Some p => esc = bool_decide (c = 92 ∨ c = d) | None => esc = false end) as Hesc.
  { subst esc. change (prev_char s0) with (prev_char s). change (q_cur_pos s0) with (q_cur_pos s). destruct e as [p|].
    - destruct Hprev as [Hs ->]. rewrite (proj2 (Z.ltb_lt _ _)) by done. cbn [andb]. apply eq_bool_prop_intro. rewrite bool_decide_spec, Is_true_true, !orb_true_iff, !andb_true_iff, !Z.eqb_eq. naive_solver.
    - destruct (Z.ltb_spec (q_start_pos (literal_str t) + 1) (q_cur_pos s)) as [E|E]; [|done]. destruct (Hprev E) as [P1 P2]. rewrite (proj2 (Z.eqb_neq (prev_char s) 92)), (proj2 (Z.eqb_neq (prev_char s) d)) by done. done. }
  assert (step st_literal_string s t = Ok (st_literal_string, s1, t)) as E.
  { unfold stage_1_step, process_literal_string. fold s0. rewrite E0. cbn [mbind outcome_bind]. rewrite Hn, Hd. cbn [negb]. fold esc. subst s1. destruct esc eqn:Ee.
    - cbn [mbind outcome_bind]. unfold next_or, consume. cbn [will_copy]. unfold inc_proc_pos. change (q_at q (_ <| prev_char := 88 |>) 0) with (q_at q s0 0). rewrite E0. cbn. by destruct t.
    - assert ((if c =? d then if q_len =? q_cur_pos s0 + 1 then Ok true else q_is q s0 1 (λ n, negb (n =? d)) else Ok false) = Ok false) as ->.
      { destruct Hclose as [Hc|[-> He]]; [done|]. destruct e; [|done]. symmetry in Hesc. apply bool_decide_eq_false in Hesc. naive_solver. }
      cbn [mbind outcome_bind]. unfold next_or, consume. change (will_copy s0) with false. cbn iota. rewrite (inc_string s0 c E0 Hk). cbn [mbind outcome_bind]. by destruct t. }
  exists s1. split; [by apply (string_step _ _ _ _ _ _ _ _ H)|].
  assert (q_cur_pos s1 = q_cur_pos s + 1 ∧ res s1 = res s ∧ res_cur_pos s1 = res_cur_pos s ∧ res_pre_pos s1 = res_pre_pos s ∧ keep_prev_char s1 = false ∧ prev_char s1 = if esc then 88 else c) as (F1 & F2 & F3 & F4 & F5 & F6) by (subst s1; by destruct esc).
  split; rewrite ?F1, ?F2, ?F3, ?F4, ?F5, ?F6; try done || lia. split; [done|]. split; [done|]. split; [lia|]. destruct e as [p|].
  - rewrite Hesc. case_bool_decide as Ec; [destruct Hdq; subst d; done|]. intros _. naive_solver.
  - rewrite Hesc. destruct (Z.eqb_spec c 92), (Z.eqb_spec c d); cbn [orb]; done || split; done || lia.
Qed.
Lemma run_body d : d = 39 ∨ d = 34 → ∀ n body, (length body <= n)%nat → quoted d body = true → ∀ out r s t, in_string out d None (body ++ r) s t →
  ∃ s', runs (st_literal_string, s, t) (st_literal_string, s', t) ∧ in_string out d None r s' t.
Proof.
  intros Hdq. assert (d ≠ 92) as Hd92 by (destruct Hdq; subst; done).
  induction n as [|n IH]; intros [|c body] Hn Hb out r s t H; cbn [length] in Hn; [exists s; split; [apply runs_refl|done]|lia|exists s; split; [apply runs_refl|done]|]. cbn [app quoted] in *.
  assert (∀ c' body', body = c' :: body' → c = 92 ∨ c = d ∧ c' = d → quoted d body' = true → ∃ s', runs (st_literal_string, s, t) (st_literal_string, s', t) ∧ in_string out d None r s' t) as Htwo.
  { intros c' body' -> Hcc Hb'. cbn [app length] in *. destruct (run_char out d None c (c' :: body' ++ r) s t Hdq) as (s1 & R1 & H1); [destruct Hcc as [->|[-> ->]]; [by left; auto|by right]|done|].
    assert ((c =? 92) || (c =? d) = true) as Ec by (rewrite orb_true_iff, !Z.eqb_eq; naive_solver). rewrite Ec in H1. destruct (run_char out d (Some c) c' (body' ++ r) s1 t Hdq) as (s2 & R2 & H2); [done|done|].
    destruct (IH body' ltac:(lia) Hb' out r s2 t H2) as (s3 & R3 & H3). exists s3. split; [|done]. eapply runs_trans; [exact R1|]. by eapply runs_trans. }
  destruct (Z.eqb_spec c 92) as [->|Hc]; [destruct body as [|c' body]; [done|]; by eapply Htwo; auto|]. destruct (Z.eqb_spec c d) as [->|Hcd].
  - destruct body as [|c' body]; [done|]. apply andb_true_iff in Hb as [Hc' Hb]. apply Z.eqb_eq in Hc'. by eapply Htwo; auto.
  - destruct (run_char out d None c (body ++ r) s t Hdq) as (s1 & R1 & H1); [by left|done|]. rewrite (proj2 (Z.eqb_neq c 92)), (proj2 (Z.eqb_neq c d)) in H1 by done.
    destruct (IH body ltac:(lia) Hb out r s1 t H1) as (s2 & R2 & H2). exists s2. split; [|done]. by eapply runs_trans.
Qed.
Lemma run_close out d l s t : d = 39 ∨ d = 34 → head l ≠ Some d → in_string out d None (d :: l) s t →
  if bool_decide (l = []) then ∃ s', runs (st_literal_string, s, t) (st_literal_string, s', t) ∧ finished (out ++ [63]) false st_literal_string s' t
  else ∃ s' t', runs (st_literal_string, s, t) (st_no_mark_found, s', t') ∧ at_piece (out ++ [63]) l 0 s' t'.
Proof.
  intros Hdq Hl H. pose proof H as [Hg Hroom Hcur Hpre Hr Hp Hle Hk (Hn & Hd & _ & Hprev) Hdig]. pose proof (rest_len s _ Hr Hp) as Hlen. cbn [length] in Hlen. pose proof (drop_next _ _ _ Hr (proj1 Hp)) as Hr'.
  set (s0 := s <| will_copy := false |>). pose proof (rest_at s0 0 _ d Hr (proj1 Hp) eq_refl) as E0. change (Z.of_nat 0) with 0 in E0.
  assert (d ≠ 92) as Hd92 by (destruct Hdq; subst; done).
  destruct (mark_at out s0 Hg) as (g & Em & Lg); [change (res s0) with (res s); lia|]. set (s1 := _ <| prev_char := 63 |>) in Em.
  assert ((q_start_pos (literal_str t) + 1 <? q_cur_pos s0) && ((prev_char s0 =? 92) && (d =? 92) || (prev_char s0 =? 92) && (d =? delim_char (literal_str t)) || (prev_char s0 =? delim_char (literal_str t)) && (d =? delim_char (literal_str t))) = false) as Hesc.
  { destruct (Z.ltb_spec (q_start_pos (literal_str t) + 1) (q_cur_pos s0)) as [E|E]; [|done]. cbn [andb]. rewrite Hd. destruct (Hprev E) as [P1 P2]. change (prev_char s0) with (prev_char s).
    rewrite (proj2 (Z.eqb_neq (prev_char s) 92)), (proj2 (Z.eqb_neq (prev_char s) d)) by done. done. }
  destruct l as [|n l].
  - rewrite bool_decide_true by done. cbn [length] in Hlen. set (s2 := s1 <| will_copy := false |>). pose proof E0 as E2. change (q_at q s0 0) with (q_at q s2 0) in E2.
    exists (skip 1 (s2 <| prev_char := d |>)). split.
    + apply (string_step _ _ _ _ _ _ _ _ H). unfold stage_1_step, process_literal_string. fold s0. rewrite E0. cbn [mbind outcome_bind]. rewrite Hesc, Hn. cbn [negb]. rewrite Hd, Z.eqb_refl.
      change (q_cur_pos s0) with (q_cur_pos s). rewrite (proj2 (Z.eqb_eq q_len _)) by lia. change (res_pre_pos s0) with (res_pre_pos s). rewrite Hpre, Em. cbn [mbind outcome_bind]. unfold next_or, consume. fold s2. change (will_copy s2) with false. cbn iota.
      rewrite (inc_string s2 d E2 Hk). cbn [mbind outcome_bind]. by destruct t.
    + split; cbn; [by exists g|cbn in Lg; lia|done|rewrite length_app; cbn [length]; lia|lia|done|by rewrite Hdig].
  - rewrite bool_decide_false by done. exists ((skip 1 (s1 <| prev_char := 0 |>)) <| will_copy := true |>), (t <| literal_str := mk_literal_string false 0 0 |>). split.
    + apply (string_step _ _ _ _ _ _ _ _ H). unfold stage_1_step, process_literal_string. fold s0. rewrite E0. cbn [mbind outcome_bind]. rewrite Hesc, Hn. cbn [negb]. rewrite Hd, Z.eqb_refl.
      change (q_cur_pos s0) with (q_cur_pos s). rewrite (proj2 (Z.eqb_neq q_len _)) by (cbn [length] in Hlen; lia). unfold q_is. pose proof (rest_at s0 1 _ n Hr (proj1 Hp) eq_refl) as E1. change (Z.of_nat 1) with 1 in E1. rewrite E1. cbn [mbind outcome_bind].
      rewrite (proj2 (Z.eqb_neq n d)) by (intros ->; done). cbn [negb]. change (res_pre_pos s0) with (res_pre_pos s). rewrite Hpre, Em. done.
    + split; cbn; [by exists g|cbn in Lg; lia|done|exact Hr'|lia|rewrite length_app; cbn [length]; lia|done|done|done|done].
Qed.
(** A whole literal. *)
Lemma run_text out d body l prev s t : d = 39 ∨ d = 34 → quoted d body = true → head l ≠ Some d → at_piece out ((d :: body ++ [d]) ++ l) prev s t →
  if bool_decide (l = []) then ∃ cur s' t', runs (st_no_mark_found, s, t) (cur, s', t') ∧ finished (out ++ [63]) false cur s' t'
  else ∃ s' t', runs (st_no_mark_found, s, t) (st_no_mark_found, s', t') ∧ at_piece (out ++ [63]) l 0 s' t'.
Proof.
  intros Hdq Hb Hl H. cbn [app] in H. rewrite <- app_assoc in H. cbn [app] in H. set (s0 := s <| res_pre_pos := res_cur_pos s |>). pose proof (piece_char _ _ _ _ _ _ H) as [_ Hq].
  assert (runs (st_no_mark_found, s, t) (st_literal_string, s0, t)) as R1.
  { apply (piece_step _ _ _ _ _ _ _ H). unfold stage_1_step, no_mark. fold s0. destruct H as [_ _ _ Hr Hp _ _ _ _ _]. by rewrite (next_string s0 d _ Hr (proj1 Hp) Hdq). }
  set (s1 := skip 1 ((s0 <| will_copy := false |>) <| prev_char := d |>)). set (t1 := t <| literal_str := mk_literal_string true d (q_cur_pos s) |>).
  destruct H as [Hg Hroom Hcur Hr Hp Hle Hpr Hk Hs Hdig]. pose proof (drop_next _ _ _ Hr (proj1 Hp)) as Hr'.
  assert (runs (st_literal_string, s0, t) (st_literal_string, s1, t1)) as R2.
  { apply runs_step; [cbn; lia|cbn; lia|]. unfold stage_1_step, process_literal_string. set (sw := s0 <| will_copy := false |>). pose proof (rest_at sw 0 _ d Hr (proj1 Hp) eq_refl) as E0. change (Z.of_nat 0) with 0 in E0. rewrite E0. cbn [mbind outcome_bind].
    rewrite Hs. cbn [negb mbind outcome_bind]. unfold next_or, consume. change (will_copy sw) with false. cbn iota. by rewrite (inc_string sw d E0 Hk). }
  destruct (run_body d Hdq _ body (le_n _) Hb out (d :: l) s1 t1) as (s2 & R3 & H2).
  { split; cbn; done || lia. }
  pose proof (runs_trans _ _ _ R1 (runs_trans _ _ _ R2 R3)) as R. pose proof (run_close out d l s2 t1 Hdq Hl H2) as Hc. case_bool_decide.
  - destruct Hc as (s' & Rc & Hf). exists st_literal_string, s', t1. split; [by eapply runs_trans|done].
  - destruct Hc as (s' & t' & Rc & Hf). exists s', t'. split; [by eapply runs_trans|done].
Qed.

(** *** Numbers *)
Record in_number (out read_ : list Z) (rest : list Z) (s : shared_st) (t : stage_1_st) : Prop := {
  in_res : ∃ g, res s = (out ++ read_) ++ g; in_room : q_len + 1 <= Z.of_nat (length (res s)); in_cur : res_cur_pos s = Z.of_nat (length (out ++ read_));
  in_rest : drop (Z.to_nat (q_cur_pos s)) q = rest; in_pos : 0 <= q_cur_pos s <= q_len; in_le : res_cur_pos s <= q_cur_pos s; in_keep : keep_prev_char s = false;
  in_str : delim_num (literal_str t) = false; in_digit : literal_digit t = mk_literal_digit false (Some (Z.of_nat (length out)));
  in_prev : is_digit_char (prev_char s) = true
}.
Lemma digit_range c : is_digit_char c = true ↔ 48 <= c <= 57.
Proof. unfold is_digit_char. rewrite andb_true_iff, !Z.leb_le. done. Qed.
Lemma digit_not_e c : is_digit_char c = true → (lower c =? 101) = false.
Proof. rewrite digit_range. intros H. unfold lower. rewrite (proj2 (Z.leb_gt 65 c)) by lia. cbn [andb]. apply Z.eqb_neq. lia. Qed.
Lemma all_digits_loop ds : Forall (λ c, is_digit_char c = true) ds → ∀ pre g i, digit_string_loop (length ds) (pre ++ ds ++ g) (Z.of_nat (length pre)) i false = Ok true.
Proof.
  intros Hds. induction Hds as [|c ds Hc Hds IH]; intros pre g i; cbn [length digit_string_loop app]; [done|].
  assert (read_at (pre ++ c :: ds ++ g) (Z.of_nat (length pre)) = Ok c) as -> by (apply read_at_Some; split; [lia|]; rewrite Nat2Z.id, lookup_app_r, Nat.sub_diag by lia; done). cbn [mbind outcome_bind].
  assert (∃ p, (if 0 <? Z.of_nat (length pre) then read_at (pre ++ c :: ds ++ g) (Z.of_nat (length pre) - 1) else Ok 0) = Ok p) as (p & ->).
  { case_test; [apply read_in; rewrite length_app; cbn [length]; lia|eauto]. }
  cbn [mbind outcome_bind]. rewrite Hc. pose proof (proj1 (digit_range c) Hc) as Hr. rewrite (proj2 (Z.eqb_neq c 120)), (proj2 (Z.eqb_neq c 88)), andb_false_r by lia. cbn [negb andb].
  specialize (IH (pre ++ [c]) g (i + 1)). rewrite length_app in IH. cbn [length] in IH. rewrite <- app_assoc in IH. cbn [app] in IH. replace (Z.of_nat (length pre) + 1) with (Z.of_nat (length pre + 1)) by lia. exact IH.
Qed.
Lemma all_digits out ds g : ds ≠ [] → Forall (λ c, is_digit_char c = true) ds → is_digit_string_2 ((out ++ ds) ++ g) (Z.of_nat (length out)) (Z.of_nat (length (out ++ ds))) = Ok true.
Proof.
  intros Hne Hds. unfold is_digit_string_2. rewrite length_app. assert (0 < length ds)%nat by (destruct ds; [done|cbn; lia]).
  rewrite (proj2 (Z.eqb_neq _ _)), (proj2 (Z.ltb_ge _ _)) by lia. replace (Z.to_nat (Z.of_nat (length out + length ds) - Z.of_nat (length out))) with (length ds) by lia. rewrite <- app_assoc. by apply all_digits_loop.
Qed.
Lemma number_step out ds c l s t y : in_number out ds (c :: l) s t → step st_literal_number s t = Ok y → runs (st_literal_number, s, t) y.
Proof. intros [_ _ _ Hr Hp Hle _ _ _ _]. pose proof (rest_len s _ Hr Hp) as H. cbn [length] in H. apply runs_step; lia. Qed.
(** What the state does with a character that ends the number, or is the last one. *)
Lemma number_ends out ds c l s t : ds ≠ [] → Forall (λ c, is_digit_char c = true) ds → is_digit_char c = true ∧ l = [] ∨ is_token_char c = true ∧ c ≠ 46 → in_number out ds (c :: l) s t →
  if is_token_char c then ∃ s' t', runs (st_literal_number, s, t) (st_no_mark_found, s', t') ∧ at_piece (out ++ [63]) (c :: l) 63 s' t'
  else ∃ s' t', runs (st_literal_number, s, t) (st_literal_number, s', t') ∧ finished (out ++ [63]) true st_literal_number s' t'.
Proof.
  intros Hne Hds Hc H. pose proof H as [[g Hg] Hroom Hcur Hr Hp Hle Hk Hs Hdig Hpv]. set (s0 := s <| will_copy := true |>). pose proof (rest_at s0 0 _ c Hr (proj1 Hp) eq_refl) as E0. change (Z.of_nat 0) with 0 in E0.
  pose proof (rest_len s _ Hr Hp) as Hlen. cbn [length] in Hlen.
  set (float := (c =? 46) || (lower (prev_char s0) =? 101) && ((c =? 45) || (c =? 43))).
  assert (is_token_char c && negb float || (q_len =? q_cur_pos s0 + 1) = true) as Hend.
  { destruct Hc as [[_ ->]|[Ht Hn]]; [apply orb_true_iff; right; apply Z.eqb_eq; cbn in *; lia|]. rewrite Ht. unfold float. rewrite (proj2 (Z.eqb_neq c 46)) by done. change (prev_char s0) with (prev_char s). by rewrite digit_not_e. }
  assert (length out < length (out ++ ds))%nat as Hlo by (rewrite length_app; destruct ds; [done|cbn; lia]).
  destruct (mark_at out s0) as (g2 & Em & Lg); [exists (ds ++ g); change (res s0) with (res s); by rewrite app_assoc|change (res s0) with (res s); lia|]. set (s1 := _ <| prev_char := 63 |>) in Em.
  assert (step st_literal_number s t = next_or opts q (if is_token_char c then st_no_mark_found else st_literal_number, if is_token_char c then s1 else s1 <| will_copy := false |>)
    (t <| literal_digit := if is_token_char c then mk_literal_digit true None else literal_digit t |>)) as E.
  { unfold stage_1_step, process_literal_digit. fold s0. rewrite E0. cbn [mbind outcome_bind]. rewrite Hdig. cbn [first_digit andb mbind outcome_bind]. fold float. rewrite Hend. cbn [start_pos].
    change (res s0) with (res s). change (res_cur_pos s0) with (res_cur_pos s). rewrite Hg, Hcur, all_digits by done. cbn [mbind outcome_bind]. rewrite Em. cbn [mbind outcome_bind andb].
    destruct (is_token_char c) eqn:Et; cbn [negb andb mbind outcome_bind]; [done|]. destruct Hc as [[_ ->]|[Ht _]]; [|done]. rewrite (proj2 (Z.eqb_eq q_len _)) by (cbn in *; lia). done. }
  destruct (is_token_char c) eqn:Et.
  - exists (s1 <| will_copy := true |>), (t <| literal_digit := mk_literal_digit true None |>). split; [apply (number_step _ _ _ _ _ _ _ H); rewrite E; done|].
    split; cbn; [by exists g2|cbn in Lg; lia|done|done|done|rewrite !length_app in *; cbn [length]; lia|done|done|done|done].
  - set (s2 := s1 <| will_copy := false |>) in *. destruct Hc as [[Hd ->]|[Ht _]]; [|congruence]. exists (skip 1 (s2 <| prev_char := c |>)), (t <| literal_digit := literal_digit t |>). split.
    + apply (number_step _ _ _ _ _ _ _ H). rewrite E. unfold next_or, consume. change (will_copy s2) with false. cbn iota. pose proof E0 as E2. change (q_at q s0 0) with (q_at q s2 0) in E2. by rewrite (inc_string s2 c E2 Hk).
    + split; cbn; [by exists g2|cbn in Lg; lia|done|rewrite length_app; cbn [length]; cbn in *; lia|cbn in *; lia|done|]. rewrite Hdig. by exists out.
Qed.
(** Digits are copied. *)
Lemma copy_digit pre c s : (∃ g, res s = pre ++ g) → res_cur_pos s = Z.of_nat (length pre) → Z.of_nat (length pre) < Z.of_nat (length (res s)) → q_at q s 0 = Ok c → is_digit_char c = true → keep_prev_char s = false →
  ∃ g, copy_next_char opts q s = Ok (skip 1 (((s <| res := (pre ++ [c]) ++ g |>) <| res_cur_pos := Z.of_nat (length (pre ++ [c])) |>) <| prev_char := c |>)) ∧ Z.of_nat (length ((pre ++ [c]) ++ g)) = Z.of_nat (length (res s)).
Proof.
  intros Hg Hc Hlt E0 Hd Hk. unfold copy_next_char. rewrite E0. cbn [mbind outcome_bind]. pose proof (proj1 (digit_range c) Hd) as Hr.
  assert (is_space_char c = false) as Es by (unfold is_space_char; rewrite !(proj2 (Z.eqb_neq _ _)) by lia; done).
  assert ((if negb (lowercase opts) then to_space c else if is_space_char c then 32 else lower c) = c) as ->.
  { unfold to_space, lower. rewrite Es, (proj2 (Z.leb_gt 65 c)) by lia. by destruct (lowercase opts). }
  destruct (put_at pre c s Hg Hc Hlt) as (g & -> & L). cbn [mbind outcome_bind]. exists g. split; [|done]. set (s1 := _ <| res_cur_pos := _ |>).
  pose proof E0 as E1. change (q_at q s 0) with (q_at q s1 0) in E1. by rewrite (inc_string s1 c E1 Hk).
Qed.
Lemma run_digits ds2 : Forall (λ c, is_digit_char c = true) ds2 → ∀ out ds l s t, l ≠ [] → in_number out ds (ds2 ++ l) s t →
  ∃ s' t', runs (st_literal_number, s, t) (st_literal_number, s', t') ∧ in_number out (ds ++ ds2) l s' t'.
Proof.
  intros Hds2 out. induction Hds2 as [|c ds2 Hc Hds2 IH]; intros ds l s t Hl H; [exists s, t; rewrite app_nil_r; split; [apply runs_refl|done]|]. cbn [app] in H.
  pose proof H as [Hg Hroom Hcur Hr Hp Hle Hk Hs Hdig Hpv]. set (s0 := s <| will_copy := true |>). pose proof (rest_at s0 0 _ c Hr (proj1 Hp) eq_refl) as E0. change (Z.of_nat 0) with 0 in E0.
  pose proof (rest_len s _ Hr Hp) as Hlen. cbn [length] in Hlen. rewrite length_app in Hlen. assert (0 < length l)%nat as Hl0 by (destruct l; [done|cbn; lia]).
  destruct (copy_digit (out ++ ds) c s0 Hg Hcur) as (g & Ec & Lg); [change (res s0) with (res s); lia|done|done|exact Hk|]. set (s1 := skip 1 _) in Ec. pose proof (drop_next _ _ _ Hr (proj1 Hp)) as Hr'.
  assert (step st_literal_number s t = Ok (st_literal_number, s1, t <| literal_digit := literal_digit t |>)) as E.
  { unfold stage_1_step, process_literal_digit. fold s0. rewrite E0. cbn [mbind outcome_bind]. rewrite Hdig. cbn [first_digit andb mbind outcome_bind]. rewrite (digit_is_not_token c Hc). cbn [andb orb].
    change (q_cur_pos s0) with (q_cur_pos s). rewrite (proj2 (Z.eqb_neq q_len _)) by lia. cbn [mbind outcome_bind]. unfold next_or, consume. change (will_copy s0) with true. cbn iota. by rewrite Ec. }
  destruct (IH (ds ++ [c]) l s1 (t <| literal_digit := literal_digit t |>) Hl) as (s' & t' & Hrun & H').
  - assert (out ++ ds ++ [c] = (out ++ ds) ++ [c]) as Eo by by rewrite app_assoc. change (Z.of_nat (length (res s0))) with (Z.of_nat (length (res s))) in Lg.
    split; cbn; rewrite ?Eo; [by exists g|lia|done|exact Hr'|lia|rewrite !length_app in *; cbn [length]; lia|done|done|done|done].
  - exists s', t'. rewrite <- app_assoc in H'. split; [|exact H']. eapply runs_trans; [|exact Hrun]. by apply (number_step _ _ _ _ _ _ _ H).
Qed.
(** The first digit. *)
Lemma next_number s c l : drop (Z.to_nat (q_cur_pos s)) q = c :: l → 0 <= q_cur_pos s → is_digit_char c = true → is_token_char (prev_char s) = true → get_next_st opts q q_len s = Ok st_literal_number.
Proof.
  intros Hd H0 Hc Hp. pose proof (rest_at s 0 _ c Hd H0 eq_refl) as E0. change (Z.of_nat 0) with 0 in E0. pose proof (proj1 (digit_range c) Hc) as Hr. unfold get_next_st, q_is. rewrite !E0. cbn [mbind outcome_bind].
  rewrite (proj2 (Z.eqb_neq 47 c)), (proj2 (Z.eqb_neq c 35)), (proj2 (Z.eqb_neq c 45)), (proj2 (Z.eqb_neq c 39)), (proj2 (Z.eqb_neq c 34)), andb_false_r, Hp, Hc by lia.
  by destruct (q_cur_pos s <? q_len - 1).
Qed.
Lemma run_first out c l prev s t : is_digit_char c = true → is_token_char prev = true → at_piece out (c :: l) prev s t →
  if bool_decide (l = []) then ∃ s' t', runs (st_no_mark_found, s, t) (st_literal_number, s', t') ∧ finished (out ++ [63]) true st_literal_number s' t'
  else ∃ s' t', runs (st_no_mark_found, s, t) (st_literal_number, s', t') ∧ in_number out [c] l s' t'.
Proof.
  intros Hc Hpt H. set (s0 := s <| res_pre_pos := res_cur_pos s |>). destruct (piece_char _ _ _ _ _ _ H) as [_ Hq]. pose proof (piece_len _ _ _ _ _ H) as Hlen. cbn [length] in Hlen.
  pose proof H as [[g0 Hg] Hroom Hcur Hr Hp Hle [Hp1 _] Hk Hs Hdig]. rewrite Hpt in Hp1.
  assert (runs (st_no_mark_found, s, t) (st_literal_number, s0, t)) as R1.
  { apply (piece_step _ _ _ _ _ _ _ H). unfold stage_1_step, no_mark. fold s0. by rewrite (next_number s0 c l Hr (proj1 Hp) Hc Hp1). }
  destruct g0 as [|x g0]; [rewrite Hg, app_nil_r in Hroom; lia|]. set (b := (out ++ [c]) ++ g0). set (s1 := (s0 <| will_copy := true |>) <| res := b |>). set (dg := mk_literal_digit false (Some (Z.of_nat (length out)))).
  pose proof (drop_next _ _ _ Hr (proj1 Hp)) as Hr'. assert (Z.of_nat (length b) = Z.of_nat (length (res s))) as Lb by (unfold b; rewrite Hg, !length_app; cbn [length]; lia).
  pose proof (rest_at s1 0 _ c Hr (proj1 Hp) eq_refl) as E1. change (Z.of_nat 0) with 0 in E1.
  assert (∀ y, (if is_token_char c && negb ((c =? 46) || (lower (prev_char s) =? 101) && ((c =? 45) || (c =? 43))) || (q_len =? q_cur_pos s + 1) then
      number ← is_digit_string_2 b (Z.of_nat (length out)) (res_cur_pos s); s ← (if (number : bool) then place_mark (Z.of_nat (length out)) s1 else Ok s1);
      if number && negb (is_token_char c) && (q_len =? q_cur_pos s1 + 1) then Ok (st_literal_number, s <| will_copy := false |>, dg) else Ok (st_no_mark_found, s, mk_literal_digit false None)
      else Ok (st_literal_number, s1, dg)) = Ok (st_literal_number, y, dg) →
    step st_literal_number s0 t = next_or opts q (st_literal_number, y) (t <| literal_digit := dg |>)) as Hstep.
  { intros y Ey. unfold stage_1_step, process_literal_digit. set (sw := s0 <| will_copy := true |>). change (q_at q sw 0) with (q_at q s1 0). rewrite E1. cbn [mbind outcome_bind]. rewrite Hdig. cbn [first_digit andb].
    change (prev_char sw) with (prev_char s). rewrite Hp1, Hc. cbn [andb]. change (res sw) with (res s). change (res_cur_pos sw) with (res_cur_pos s). rewrite Hg, Hcur, write_next. cbn [mbind outcome_bind]. fold b.
    change (sw <| res := b |>) with s1. change (res_pre_pos sw) with (res_cur_pos s). rewrite Hcur. fold dg. change (prev_char s1) with (prev_char s). change (q_cur_pos s1) with (q_cur_pos s) in *. cbn [start_pos dg]. change (res s1) with b. change (res_cur_pos s1) with (res_cur_pos s).
    rewrite Hcur in Ey. rewrite Hcur. fold dg in Ey |- *. by rewrite Ey. }
  rewrite (digit_is_not_token c Hc) in Hstep. cbn [andb orb negb] in Hstep. case_bool_decide as El.
  - rewrite El in Hlen. cbn [length] in Hlen. rewrite (proj2 (Z.eqb_eq q_len (q_cur_pos s + 1))) in Hstep by lia.
    destruct (mark_at out s1) as (g & Em & Lg); [exists ([c] ++ g0); change (res s1) with b; unfold b; by rewrite <- app_assoc|change (res s1) with b; lia|]. set (s2 := _ <| prev_char := 63 |>) in Em. set (s3 := s2 <| will_copy := false |>).
    pose proof E1 as E3. change (q_at q s1 0) with (q_at q s3 0) in E3.
    exists (skip 1 (s3 <| prev_char := c |>)), (t <| literal_digit := dg |>). split.
    + eapply runs_trans; [exact R1|]. apply runs_step; [cbn; lia|cbn; lia|]. rewrite (Hstep s3).
      * unfold next_or, consume. change (will_copy s3) with false. cbn iota. by rewrite (inc_string s3 c E3 Hk).
      * assert (is_digit_string_2 b (Z.of_nat (length out)) (res_cur_pos s) = Ok true) as ->.
        { unfold is_digit_string_2. rewrite Hcur, Z.eqb_refl. assert (read_at b (Z.of_nat (length out)) = Ok c) as ->; [|cbn; by rewrite Hc].
          apply read_at_Some. split; [lia|]. unfold b. rewrite Nat2Z.id, <- app_assoc, lookup_app_r, Nat.sub_diag by lia. done. }
        cbn [mbind outcome_bind]. rewrite Em. cbn [mbind outcome_bind andb]. change (q_cur_pos s1) with (q_cur_pos s). by rewrite (proj2 (Z.eqb_eq q_len (q_cur_pos s + 1))) by lia.
    + split; cbn; [by exists g|change (Z.of_nat (length (res s1))) with (Z.of_nat (length b)) in Lg; lia|done|rewrite length_app; cbn [length]; lia|lia|done|by exists out].
  - assert (0 < length l)%nat by (destruct l; [done|cbn; lia]). rewrite (proj2 (Z.eqb_neq q_len (q_cur_pos s + 1))) in Hstep by lia.
    destruct (copy_digit out c s1) as (g & Ec & Lg); [exists ([c] ++ g0); change (res s1) with b; unfold b; by rewrite <- app_assoc|exact Hcur|change (res s1) with b; lia|done|done|exact Hk|]. set (s2 := skip 1 _) in Ec.
    exists s2, (t <| literal_digit := dg |>). split.
    + eapply runs_trans; [exact R1|]. apply runs_step; [cbn; lia|cbn; lia|]. rewrite (Hstep s1) by done. unfold next_or, consume. change (will_copy s1) with true. cbn iota. by rewrite Ec.
    + change (Z.of_nat (length (res s1))) with (Z.of_nat (length b)) in Lg. split; cbn; [by exists g|lia|done|exact Hr'|lia|rewrite length_app; cbn [length]; lia|done|done|done|done].
Qed.

(** *** All pieces *)
Lemma text_cons p ps : text (p :: ps) = render p ++ text ps.
Proof. done. Qed.
Lemma proper_nil prev ps : proper prev ps → text ps = [] → ps = [].
Proof.
  destruct ps as [|[c|cs|d body|ds] ps]; [done|..]; rewrite text_cons; cbn [render]; intros H E; [done| |done|]; (apply app_eq_nil in E as [E _]; by destruct H).
Qed.
Lemma run_number out ds ps prev s t : ds ≠ [] → Forall (λ c, is_digit_char c = true) ds → is_token_char prev = true → match head (text ps) with Some c => is_token_char c = true ∧ c ≠ 46 | None => True end →
  at_piece out (ds ++ text ps) prev s t →
  if bool_decide (text ps = []) then ∃ cur s' t', runs (st_no_mark_found, s, t) (cur, s', t') ∧ finished (out ++ [63]) true cur s' t'
  else ∃ s' t', runs (st_no_mark_found, s, t) (st_no_mark_found, s', t') ∧ at_piece (out ++ [63]) (text ps) 63 s' t'.
Proof using no_null.
  intros Hne Hds Hprev Hnext H. destruct ds as [|c ds]; [done|]. pose proof (Forall_inv Hds) as Hc. pose proof (Forall_inv_tail Hds) as Hds2. cbn [app] in H.
  pose proof (run_first out c _ prev s t Hc Hprev H) as R. case_bool_decide as E; case_bool_decide as El.
  - destruct R as (s' & t' & R & F). by exists st_literal_number, s', t'.
  - by apply app_eq_nil in E as [_ E].
  - destruct R as (s1 & t1 & R1 & N1). rewrite El, app_nil_r in E, N1. destruct (exists_last E) as (ds3 & d & ->). apply Forall_app in Hds2 as [Hd3 Hd]. pose proof (Forall_inv Hd) as Hd'.
    destruct (run_digits ds3 Hd3 out [c] [d] s1 t1) as (s2 & t2 & R2 & N2); [done|done|].
    pose proof (number_ends out ([c] ++ ds3) d [] s2 t2) as Hend. rewrite (digit_is_not_token d Hd') in Hend. destruct Hend as (s3 & t3 & R3 & F); [done|by constructor|by left|done|].
    exists st_literal_number, s3, t3. split; [|done]. eapply runs_trans; [exact R1|]. by eapply runs_trans.
  - destruct R as (s1 & t1 & R1 & N1). destruct (run_digits ds Hds2 out [c] (text ps) s1 t1) as (s2 & t2 & R2 & N2); [done|done|].
    destruct (text ps) as [|h l]; [done|]. destruct Hnext as [Hh1 Hh2]. pose proof (number_ends out ([c] ++ ds) h l s2 t2) as Hend. rewrite Hh1 in Hend. destruct Hend as (s3 & t3 & R3 & F); [done|done|right; by split|done|].
    exists s3, t3. split; [|done]. eapply runs_trans; [exact R1|]. by eapply runs_trans.
Qed.
Lemma run_blank out cs l prev s t : cs ≠ [] → Forall (λ c, is_space_char c = true) cs → is_space_char prev = false → (out = [] → is_token_char prev = true) → at_piece out (cs ++ l) prev s t →
  ∃ s', runs (st_no_mark_found, s, t) (st_no_mark_found, s', t) ∧ at_piece (out ++ (if bool_decide (out = []) then [] else [32])) l 32 s' t.
Proof using no_null.
  intros Hne Hcs Hprev Hout H. case_bool_decide as Eo.
  - subst out. destruct (run_leading cs l prev s t Hcs H) as (s' & R & [? ? ? ? ? ? [E1 E2] ? ? ?]). exists s'. split; [done|]. split; try done. split; [by rewrite E1, Hout|done].
  - destruct cs as [|c cs]; [done|]. pose proof (Forall_inv Hcs) as Hc. destruct (space_facts c Hc) as (Hm & Hcm & Hdg & Htk). cbn [app] in H.
    destruct (run_copy out c (cs ++ l) prev s t H) as (s1 & R1 & H1 & Ep); [done|done|by rewrite Hdg|done|done|]. replace (copied c) with 32 in H1 by (unfold copied; by rewrite Hc).
    destruct (run_more cs out l c s1 t (Forall_inv_tail Hcs) H1) as (s2 & R2 & H2); [by rewrite Ep|done|done|]. exists s2. split; [|done]. by eapply runs_trans.
Qed.
Lemma run_pieces ps : ∀ out prev s t, proper prev ps → (out = [] → is_token_char prev = true) → at_piece out (text ps) prev s t →
  ∃ cur s' t', runs (st_no_mark_found, s, t) (cur, s', t') ∧ finished (normal opts out ps) (ends_number ps) cur s' t'.
Proof using no_null.
  induction ps as [|p ps IH]; intros out prev s t Hp Hout H; [exists st_no_mark_found, s, t; split; [apply runs_refl|exact (piece_finished _ _ _ _ H)]|].
  rewrite text_cons in H. assert (∀ x : Z, out ++ [x] ≠ []) as Hsnoc by (intros x E; by apply app_eq_nil in E as [_ E]).
  assert (∀ cur1 s1 t1 cur2 s2 t2 o e, runs (cur1, s1, t1) (st_no_mark_found, s2, t2) → (∃ cur s' t', runs (st_no_mark_found, s2, t2) (cur, s', t') ∧ finished o e cur s' t') →
    cur2 = cur1 → ∃ cur s' t', runs (cur2, s1, t1) (cur, s', t') ∧ finished o e cur s' t') as Hgo.
  { intros cur1 s1 t1 cur2 s2 t2 o e R (cur & s' & t' & R' & F) ->. exists cur, s', t'. split; [by eapply runs_trans|done]. }
  destruct p as [c|cs|d body|ds]; cbn [proper render normal] in *.
  - destruct Hp as (Hc & Hm & Hcm & Hd & Hp). destruct (run_copy out c (text ps) prev s t H) as (s1 & R1 & H1 & _); [done|done|done|done|by rewrite Hc|].
    replace (copied c) with (small_case opts c) in H1 by (unfold copied; by rewrite Hc). eapply Hgo; [exact R1| |done]. apply (IH _ c); [done|intros E; by destruct (Hsnoc _ E)|done].
  - destruct Hp as (Hne & Hcs & Hprev & Hp). destruct (run_blank out cs (text ps) prev s t Hne Hcs Hprev Hout H) as (s1 & R1 & H1). eapply Hgo; [exact R1| |done]. by apply (IH _ 32).
  - destruct Hp as (Hd & Hb & Hn & Hp). pose proof (run_text out d body (text ps) prev s t Hd Hb Hn H) as R. case_bool_decide as E; [by rewrite (proper_nil _ _ Hp E)|]. destruct R as (s1 & t1 & R1 & H1).
    eapply Hgo; [exact R1| |done]. by apply (IH _ 0).
  - destruct Hp as (Hne & Hds & Hprev & Hn & Hp). pose proof (run_number out ds ps prev s t Hne Hds Hprev Hn H) as R. case_bool_decide as E; [by rewrite (proper_nil _ _ Hp E)|]. destruct R as (s1 & t1 & R1 & H1).
    destruct ps as [|p' ps]; [done|]. eapply Hgo; [exact R1| |done]. by apply (IH _ 63).
Qed.
End Normal.

(** ** The end is trimmed *)
Lemma trimmed_snoc l c : trimmed (l ++ [c]) = if negb (bool_decide (l = [])) && ((c =? 32) || (c =? 59)) then trimmed l else l ++ [c].
Proof.
  unfold trimmed. rewrite rev_app_distr. cbn [rev app drop_end]. destruct l as [|x l _] using rev_ind; [done|]. rewrite rev_app_distr. cbn [rev app].
  rewrite bool_decide_false by (by destruct l). cbn [negb andb]. destruct ((c =? 32) || (c =? 59)); [done|]. cbn [rev]. by rewrite rev_involutive.
Qed.
Lemma trimmed_prefix l : ∃ e, l = trimmed l ++ e.
Proof.
  induction l as [|c l [e IH]] using rev_ind; [by exists []|]. rewrite trimmed_snoc. case_match; [|exists []; by rewrite app_nil_r]. exists (e ++ [c]). by rewrite app_assoc, <- IH.
Qed.
Lemma trim_at out : ∀ g k, (length out <= k)%nat → trim k (out ++ g) (Z.of_nat (length out) - 1) = Ok (Z.of_nat (length (trimmed out)) - 1).
Proof.
  induction out as [|c out IH] using rev_ind; intros g k Hk; [by destruct k|]. rewrite length_app in *. cbn [length] in *. destruct k as [|k]; [lia|]. cbn [trim]. rewrite trimmed_snoc.
  destruct (Z.ltb_spec 0 (Z.of_nat (length out + 1) - 1)) as [E|E].
  - assert (read_at ((out ++ [c]) ++ g) (Z.of_nat (length out + 1) - 1) = Ok c) as ->.
    { apply read_at_Some. split; [lia|]. rewrite <- app_assoc, lookup_app_r by lia. by replace (Z.to_nat (Z.of_nat (length out + 1) - 1) - length out)%nat with 0%nat by lia. }
    cbn [mbind outcome_bind]. rewrite bool_decide_false by (by intros ->). cbn [negb andb]. destruct ((c =? 32) || (c =? 59)); [|by rewrite length_app].
    rewrite <- app_assoc. replace (Z.of_nat (length out + 1) - 1 - 1) with (Z.of_nat (length out) - 1) by lia. apply IH. lia.
  - destruct out; [|cbn in E; lia]. done.
Qed.
Lemma c_text_app l b : (0 ∉ l) → c_text (l ++ 0 :: b) = l.
Proof.
  unfold c_text. induction l as [|c l IH]; intros H; [done|]. apply not_elem_of_cons in H as [Hc H]. cbn [app span]. rewrite (proj2 (Z.eqb_neq c 0)) by done. cbn [negb]. specialize (IH H). by destruct (span _ (l ++ 0 :: b)) as [x y]; cbn in *; subst.
Qed.
Lemma normal_nonzero opts ps : ∀ out, (0 ∉ out) → (0 ∉ text ps) → 0 ∉ normal opts out ps.
Proof.
  induction ps as [|p ps IH]; intros out Ho Hp; [done|]. rewrite text_cons, not_elem_of_app in Hp. destruct Hp as [Hp1 Hp]. cbn [normal]. apply IH; [|done]. rewrite not_elem_of_app. split; [done|]. destruct p as [c| | |]; [|case_match; set_solver..|set_solver|set_solver].
  cbn [render] in Hp1. apply not_elem_of_cons in Hp1 as [Hc _]. rewrite list_elem_of_singleton. unfold small_case, lower. repeat case_match; zbool; lia.
Qed.

Lemma final_at n s t out g : res s = out ++ 0 :: g → res_cur_pos s = Z.of_nat (length out) → (0 ∉ out) →
  match start_pos (literal_digit t) with Some p => 0 <= p < Z.of_nat (length out) ∧ out !! Z.to_nat p = Some 63 | None => True end →
  ∃ s', final_stage n s t = Ok s' ∧ c_text (res s') = trimmed out.
Proof.
  intros Hr Hc H0 Hp. unfold final_stage.
  assert (match start_pos (literal_digit t), st s with
      | Some p, st_literal_number => if n <=? res_cur_pos s then c ← at_pos s p; if is_digit_char c then b ← write_at (res s) p 63; write_at b (p + 1) 0 else Ok (res s) else Ok (res s)
      | _, _ => Ok (res s) end = Ok (res s)) as ->.
  { destruct (start_pos (literal_digit t)) as [p|]; [|done]. destruct (st s); try done. case_match; [|done]. destruct Hp as [Hp Ep]. unfold at_pos.
    assert (read_at (res s) p = Ok 63) as ->; [|done]. apply read_at_Some. split; [lia|]. rewrite Hr. by apply lookup_app_l_Some. }
  cbn [mbind outcome_bind]. rewrite Hr, Hc, trim_at by (rewrite length_app; lia). cbn [mbind outcome_bind]. destruct (trimmed_prefix out) as [e He].
  assert (∃ g', write_at (out ++ 0 :: g) (Z.of_nat (length (trimmed out)) - 1 + 1) 0 = Ok (trimmed out ++ 0 :: g')) as [g' ->].
  { replace (Z.of_nat (length (trimmed out)) - 1 + 1) with (Z.of_nat (length (trimmed out))) by lia. replace (out ++ 0 :: g) with (trimmed out ++ e ++ 0 :: g) by (by rewrite app_assoc, <- He). clear He. destruct e as [|x e]; cbn [app]; rewrite write_next, <- app_assoc; by eexists. }
  cbn [mbind outcome_bind]. eexists. split; [done|]. cbn. apply c_text_app. intros Hin. apply H0. rewrite He. apply elem_of_app. by left.
Qed.

(** What the first stage leaves. *)
Record stage_1_left (opts : options) (ps : list piece) (s : shared_st) (t : stage_1_st) : Prop := {
  left_res : ∃ g, res s = normal opts [] ps ++ 0 :: g; left_cur : res_cur_pos s = Z.of_nat (length (normal opts [] ps)); left_pos : Z.of_nat (length (text ps)) <= q_cur_pos s; left_it : res_it_init_pos s = 0;
  left_number : st s = st_literal_number ↔ ends_number ps = true;
  left_start : if ends_number ps then ∃ o, normal opts [] ps = o ++ [63] ∧ start_pos (literal_digit t) = Some (Z.of_nat (length o)) else start_pos (literal_digit t) = None;
  left_new : new_end_pos t = if ends_number ps then Some (res_cur_pos s) else None; left_le : (length (normal opts [] ps) <= length (text ps))%nat
}.
Lemma stage_1_pieces opts malloc r cmd ps : (∀ n, 0 <= n → Z.of_nat (length (malloc n)) = n) → keep_comment opts = false → replace_null opts = false →
  proper 0 ps → Z.of_nat (length (text ps)) + 1 <= Z.of_nat (length r) → Z.of_nat (length cmd) = FIRST_COMMENT_MAX_LENGTH →
  ∃ s t, stage_1_parsing opts (text ps) (Z.of_nat (length (text ps))) malloc (init_shared_st r) (init_stage_1_st cmd) = Ok (s, t) ∧ stage_1_left opts ps s t.
Proof.
  intros Hm Hk Hn Hp Hr Hc. set (q := text ps) in *.
  destruct (run_pieces opts q malloc Hn ps [] 0 (init_shared_st r) (init_stage_1_st cmd)) as (cur & s & t & R & [[g Hg] Hroom Hcur Hle Hq Hnum Hst]); [done|done|split; cbn; done || lia || by exists r|].
  destruct (loop_ok opts q malloc Hm Hk (stage_1_fuel q) st_no_mark_found (init_shared_st r) (init_stage_1_st cmd)) as (cur' & s' & t' & E & ((_ & _ & _ & _ & Hit) & _) & _).
  { split; [split; [exact Hr|]; split; [cbn; lia|]; split; [cbn; lia|]; cbn; lia|]. split; [|by split]. split; [exact Hc|]. by cbn. }
  { unfold measure, stage_1_fuel. cbn. lia. }
  pose proof (runs_result _ _ _ _ _ _ _ R Hq E) as [= -> -> ->].
  unfold stage_1_parsing. cbn [new_end_pos init_stage_1_st init_shared_st res_it_init_pos Z.eqb negb mbind outcome_bind st]. fold (init_shared_st r). change (mk_stage_1 _ _ _ None None) with (init_stage_1_st cmd). rewrite E. cbn [mbind outcome_bind].
  destruct g as [|x g]; [rewrite Hg, app_nil_r in Hroom; lia|]. rewrite Hg, Hcur, write_next. cbn [mbind outcome_bind].
  eexists _, _. split; [done|]. split; cbn; [exists g; by rewrite <- app_assoc|done|done|done|done|done| |fold q; lia].
  destruct (ends_number ps); destruct cur; try done; naive_solver.
Qed.
(** C20: What the first stage makes of a query of words, signs, blanks, literals in
    quotes (with escaped characters and doubled quotes) and whole numbers: every literal
    and every number is a question mark, every run of blanks one space, the blanks before
    the query and the spaces and semicolons after it are dropped, the letters are small
    when the options ask for it, and every other character stays.  The query has no
    comment, no other number and no zero byte and is not longer than the limit, the
    first comment is not kept and nulls are not replaced. *)
Theorem first_stage_normal opts malloc max buf cmd ps : (∀ n, 0 <= n → Z.of_nat (length (malloc n)) = n) → keep_comment opts = false → replace_null opts = false →
  proper 0 ps → (0 ∉ text ps) → Z.of_nat (length (text ps)) <= max → match buf with Some b => Z.of_nat (length (text ps)) + 1 <= Z.of_nat (length b) | None => True end → Z.of_nat (length cmd) = FIRST_COMMENT_MAX_LENGTH →
  ∃ b c, mysql_query_digest_first_stage opts (text ps) malloc max buf cmd = Ok (b, c) ∧ c_text b = trimmed (normal opts [] ps).
Proof.
  intros Hm Hk Hn Hp H0 Hmax Hb Hc. unfold mysql_query_digest_first_stage, get_digest_max_len. rewrite (proj2 (Z.ltb_ge _ _)) by lia.
  set (r := match buf with Some b => b | None => _ end). assert (Z.of_nat (length (text ps)) + 1 <= Z.of_nat (length r)) as Hr by (unfold r; destruct buf; [done|rewrite Hm; lia]). clearbody r.
  destruct (stage_1_pieces opts malloc r cmd ps Hm Hk Hn Hp Hr Hc) as (s & t & -> & [[g Hg] Hcur _ _ _ Hst _ _]). cbn [mbind outcome_bind].
  destruct (final_at (Z.of_nat (length (text ps))) s t _ g Hg Hcur) as (s2 & -> & E2); [apply normal_nonzero; [apply not_elem_of_nil|done]| |].
  - destruct (ends_number ps); [|by rewrite Hst]. destruct Hst as (o & -> & ->). rewrite length_app. cbn [length]. split; [lia|]. by rewrite Nat2Z.id, lookup_app_r, Nat.sub_diag by lia.
  - cbn [mbind outcome_bind]. by eexists _, _.
Qed.
Lemma first_stage_normal_witness : let ps := Plain <$> str "select" in
  let q := (Blank (str " ") :: (Plain <$> str "Sum") ++ [Plain 40; Digits (str "12"); Plain 41; Blank [32; 10]; Plain 44; Text 39 (str "it''s \'"); Plain 59; Blank (str " ")]) in
  ∃ b c, mysql_query_digest_first_stage (get_options true false false false 3 10) (text (ps ++ q)) zeros 65000 None (zeros 1024) = Ok (b, c) ∧ c_text b = str "select sum(?) ,?".
Proof.
  intros ps q. change (str "select sum(?) ,?") with (trimmed (normal (get_options true false false false 3 10) [] (ps ++ q))).
  apply (first_stage_normal (get_options true false false false 3 10) zeros 65000 None (zeros 1024) (ps ++ q)).
  - intros n Hn. unfold zeros. rewrite length_replicate. lia.
  - done.
  - done.
  - by apply (bool_decide_unpack _).
  - by apply (bool_decide_unpack _).
  - vm_compute. done.
  - done.
  - done.
Defined.

(** ** Queries that differ in their values *)
Definition same_but_value (p p' : piece) : Prop :=
  match p, p' with Plain c, Plain c' => c = c' | Blank _, Blank _ | (Text _ _ | Digits _), (Text _ _ | Digits _) => True | _, _ => False end.
Lemma normal_same opts ps ps' : Forall2 same_but_value ps ps' → ∀ out, normal opts out ps = normal opts out ps'.
Proof. induction 1 as [|p p' ps ps' Hp _ IH]; intros out; [done|]. cbn [normal]. destruct p, p'; cbn in Hp; try done; subst; apply IH. Qed.
