(* ===== verification/DigestSame.v ===== *)
(** * Queries that differ in their values have one digest

    The stages that compress the digest read nothing behind its terminator and
    write nothing behind the text they keep, so that what they make of the result
    of the first stage depends on its text only.  With [DigestText], queries of
    the same pieces have the same digest. *)
From S2P Require Import Prelude StringUtils Digest DigestStages DigestText.

(** ** What does not matter

    A computation and the same one in a longer buffer: whatever the first gives, the
    second gives with the rest of the buffer, and [Q] holds of it. *)
Definition sim {A} (f : A → A) (Q : A → Prop) (m0 m : outcome A) : Prop := ∀ x, m0 = Ok x → m = Ok (f x) ∧ Q x.
Abbreviation anything := (λ _, True).
Abbreviation same := (λ x, x).
Lemma sim_ret {A} (f : A → A) (Q : A → Prop) x y : y = f x → Q x → sim f Q (Ok x) (Ok y).
Proof. by intros -> H z [= <-]. Qed.
Lemma sim_fault {A} (f : A → A) (Q : A → Prop) e m : sim f Q (Fault e) m.
Proof. done. Qed.
Lemma sim_bind {A B} (f : A → A) (P : A → Prop) (h : B → B) (Q : B → Prop) m0 m k0 k :
  sim f P m0 m → (∀ x, P x → sim h Q (k0 x) (k (f x))) → sim h Q (m0 ≫= k0) (m ≫= k).
Proof. intros Hm Hk z E. destruct m0 as [x|]; [|done]. destruct (Hm x eq_refl) as [-> HP]. by apply Hk. Qed.
Lemma sim_if {A} (f : A → A) (Q : A → Prop) (b : bool) m0 m n0 n : sim f Q m0 m → sim f Q n0 n → sim f Q (if b then m0 else n0) (if b then m else n).
Proof. by destruct b. Qed.
Lemma read_more {A} (l g : list A) i x : read_at l i = Ok x → read_at (l ++ g) i = Ok x.
Proof. rewrite !read_at_Some. intros [H E]. split; [done|]. by apply lookup_app_l_Some. Qed.
Lemma write_more {A} (l g : list A) i x l' : write_at l i x = Ok l' → write_at (l ++ g) i x = Ok (l' ++ g) ∧ length l' = length l ∧ ∀ j : nat, i ≠ Z.of_nat j → l' !! j = l !! j.
Proof.
  unfold write_at. destruct ((i <? 0) || (Z.of_nat (length l) <=? i)) eqn:E; [done|]. zbool. intros [= <-]. rewrite length_app, (proj2 (Z.ltb_ge _ _)), (proj2 (Z.leb_gt _ _)) by lia. cbn [orb].
  rewrite insert_app_l by lia. split; [done|]. rewrite length_insert. split; [done|]. intros j Hj. apply list_lookup_insert_ne. lia.
Qed.

Create HintDb dsim.
Section Same.
(** The rest of the buffer, and the state of the other query. *)
Context (g : list Z) (other : p_st) (w : shared_st) (other_st : other ≠ st_literal_number).
Definition grow (s : shared_st) : shared_st :=
  mk_shared (gl_c_offset w) (q_cur_pos w) (res s ++ g) (res_it_init_pos s) (res_cur_pos s) (res_pre_pos s)
    (if decide (st s = st_literal_number) then st_literal_number else other) (prev_char w) (keep_prev_char w) (will_copy w).
Context (s0 : shared_st).
(** Nothing behind the text that is kept has changed since [s0]. *)
Definition above (s : shared_st) : Prop := 0 <= res_pre_pos s ∧ st s = st s0 ∧ ∀ j : nat, res_pre_pos s <= Z.of_nat j → res s !! j = res s0 !! j.

Lemma at_sim s p : sim same anything (at_pos s p) (at_pos (grow s) p).
Proof. intros x E. split; [|done]. by apply read_more. Qed.
Lemma is_at_sim s p c : sim same anything (is_at s p c) (is_at (grow s) p c).
Proof. eapply sim_bind; [apply at_sim|]. intros x _. by apply sim_ret. Qed.
Lemma and_sim (m0 m n0 n : outcome bool) : sim same anything m0 m → sim same anything n0 n → sim same anything (m0 &&? n0) (m &&? n).
Proof. intros Hm Hn. eapply sim_bind; [exact Hm|]. intros [] _; [exact Hn|by apply sim_ret]. Qed.
Lemma emit_sim c s : above s → sim grow above (emit c s) (emit c (grow s)).
Proof.
  intros (H0 & Hs & H) x E. unfold emit in *. destruct (write_at (res s) (res_pre_pos s) c) as [b|] eqn:Eb; [|done]. injection E as <-. destruct (write_more _ g _ _ _ Eb) as (E & _ & Hb).
  change (res (grow s)) with (res s ++ g). change (res_pre_pos (grow s)) with (res_pre_pos s). rewrite E. split; [done|]. split; [cbn; lia|]. split; [done|]. intros j Hj. cbn in *. rewrite Hb by lia. apply H. lia.
Qed.
Lemma emit_all_sim cs s : above s → sim grow above (emit_all cs s) (emit_all cs (grow s)).
Proof.
  revert s. induction cs as [|c cs IH]; intros s H; [by apply sim_ret|]. eapply sim_bind; [by apply emit_sim|]. exact IH.
Qed.
Lemma above_move n s : above s → above (move n s).
Proof. done. Qed.
Lemma keep_sim s : above s → sim grow above (keep_char s) (keep_char (grow s)).
Proof.
  intros H. eapply sim_bind; [apply at_sim|]. intros c _. eapply sim_bind; [by apply emit_sim|]. intros s1 H1. by apply sim_ret.
Qed.
Lemma above_drop s : above s → above (drop_char s).
Proof. done. Qed.
#[local] Hint Resolve at_sim is_at_sim emit_sim emit_all_sim keep_sim above_move above_drop : dsim.
(** With a value. *)
Definition grow1 {A} (x : shared_st * A) : shared_st * A := (grow x.1, x.2).
Definition grow2 {A B} (x : shared_st * A * B) : shared_st * A * B := (grow x.1.1, x.1.2, x.2).
Abbreviation above1 := (λ x, above x.1).
Abbreviation above2 := (λ x, above x.1.1).
Lemma cur_grow s : res_cur_pos (grow s) = res_cur_pos s.
Proof. done. Qed.
Lemma pre_grow s : res_pre_pos (grow s) = res_pre_pos s.
Proof. done. Qed.
Lemma grow_len s : (length (res s) <= length (res (grow s)))%nat.
Proof. cbn. rewrite length_app. lia. Qed.
#[local] Hint Resolve grow_len : dsim.
(** Follows the structure of a computation. *)
Ltac sim_step :=
  cbn [grow1 grow2 fst snd]; rewrite ?cur_grow, ?pre_grow; lazymatch goal with
  | |- sim _ _ (Ok _) (Ok _) => apply sim_ret; [done|try done]
  | |- sim _ _ (Fault _) _ => apply sim_fault
  | |- sim _ _ (mbind (λ b : bool, if b then _ else Ok false) _) _ => apply and_sim
  | |- sim _ _ (mbind _ _) (mbind _ _) => eapply sim_bind; [|let x := fresh in intros x ?; repeat match goal with y : (_ * _)%type |- _ => destruct y end]
  | |- sim _ _ (match ?x with _ => _ end) _ => match type of x with bool => apply sim_if | _ => destruct x eqn:? end
  | |- sim _ _ _ _ => solve [auto with dsim]
  | |- above _ => solve [auto with dsim]
  | |- (_ <= _)%nat => solve [auto with dsim]
  end.
Ltac sims := repeat sim_step.
Section Stages.
Context (opts : options) (t : stage_1_st) (de : Z).
Lemma before_sim n s : sim same anything (before n s) (before n (grow s)).
Proof. unfold before. sims. Qed.
#[local] Hint Resolve before_sim : dsim.
Lemma stage_2_step_sim s : above s → sim grow above (stage_2_step opts s) (stage_2_step opts (grow s)).
Proof. intros H. unfold stage_2_step. sims. Qed.
#[local] Hint Resolve stage_2_step_sim : dsim.
Lemma stage_2_loop_sim k : ∀ k' s, above s → (k <= k')%nat → sim grow above (stage_2_loop opts de k s) (stage_2_loop opts de k' (grow s)).
Proof.
  induction k as [|k IH]; intros [|k'] s H Hk; cbn [stage_2_loop]; try lia; sims. apply IH; [done|lia].
Qed.

(** *** Lists of values *)
Lemma pack_sim s : sim same anything (pack_found s) (pack_found (grow s)).
Proof. unfold pack_found. sims. Qed.
Lemma values_after_sim k : ∀ k' s p, (k <= k')%nat → sim same anything (values_after de k s p) (values_after de k' (grow s) p).
Proof.
  induction k as [|k IH]; intros [|k'] s p Hk; cbn [values_after]; try lia; sims. apply IH. lia.
Qed.
#[local] Hint Resolve pack_sim values_after_sim : dsim.
Lemma skip_values_sim s : above s → sim grow1 above1 (skip_values t de s) (skip_values t de (grow s)).
Proof.
  intros H. unfold skip_values. eapply sim_bind; [apply at_sim|intros c _]. eapply sim_bind; [apply values_after_sim, grow_len|intros [n is_last] _]. cbn beta iota zeta. rewrite cur_grow.
  destruct ((res_cur_pos s + 1 <? n) || is_last); sims.
Qed.
Lemma pattern_sim k : ∀ k' s p n, (k <= k')%nat → sim same anything (pattern_loop de k s p n) (pattern_loop de k' (grow s) p n).
Proof.
  induction k as [|k IH]; intros [|k'] s p n Hk; cbn [pattern_loop]; try lia; sims. apply IH. lia.
Qed.
#[local] Hint Resolve skip_values_sim pattern_sim : dsim.
Lemma shorten_sim s : above s → sim grow above (shorten opts de s) (shorten opts de (grow s)).
Proof. intros H. unfold shorten. sims. Qed.
Lemma min_sim s : sim same anything (min_pattern s) (min_pattern (grow s)).
Proof. unfold min_pattern. cbv zeta. sims. Qed.
#[local] Hint Resolve shorten_sim min_sim : dsim.
Lemma stage_3_step_sim s b : above s → sim grow2 above2 (stage_3_step opts t de s b) (stage_3_step opts t de (grow s) b).
Proof. intros H. unfold stage_3_step. sims. Qed.
#[local] Hint Resolve stage_3_step_sim : dsim.
Lemma stage_3_loop_sim k : ∀ k' s b, above s → (k <= k')%nat → sim grow above (stage_3_loop opts t de k s b) (stage_3_loop opts t de k' (grow s) b).
Proof.
  induction k as [|k IH]; intros [|k'] s b H Hk; cbn [stage_3_loop]; try lia; sims. apply IH; [done|lia].
Qed.

(** *** Lists of lists *)
Lemma slice_more l n k x : slice l n k = Ok x → slice (l ++ g) n k = Ok x ∧ Z.of_nat (length x) = k.
Proof.
  unfold slice. destruct ((n <? 0) || (k <? 0) || (Z.of_nat (length l) <? n + k)) eqn:E; [done|]. zbool. intros [= <-].
  rewrite length_app, !(proj2 (Z.ltb_ge _ _)) by lia. cbn [orb]. rewrite drop_app_le, take_app_le by (rewrite ?length_drop; lia). split; [done|]. rewrite length_take, length_drop. lia.
Qed.
Lemma blit_more l n x l' : blit l n x = Ok l' → blit (l ++ g) n x = Ok (l' ++ g) ∧ ∀ j : nat, n + Z.of_nat (length x) <= Z.of_nat j → l' !! j = l !! j.
Proof.
  unfold blit. destruct ((n <? 0) || (Z.of_nat (length l) <? n + Z.of_nat (length x))) eqn:E; [done|]. zbool. intros [= <-]. rewrite length_app, !(proj2 (Z.ltb_ge _ _)) by lia. cbn [orb].
  rewrite take_app_le, drop_app_le by lia. split; [by rewrite <- !app_assoc|]. intros j Hj. rewrite !lookup_app_r by (rewrite ?length_app, ?length_take; lia). rewrite lookup_drop. f_equal. rewrite length_take. lia.
Qed.
Lemma group_sim n : ∀ s p i, sim same anything (group_loop opts n s p i) (group_loop opts n (grow s) p i).
Proof. induction n as [|n IH]; intros s p i; cbn [group_loop]; sims. Qed.
Lemma is_group_sim s p : sim same anything (is_group_pattern opts s p) (is_group_pattern opts (grow s) p).
Proof. apply group_sim. Qed.
#[local] Hint Resolve is_group_sim : dsim.
Lemma groups_after_sim k : ∀ k' s p, (k <= k')%nat → sim same anything (groups_after opts de k s p) (groups_after opts de k' (grow s) p).
Proof.
  induction k as [|k IH]; intros [|k'] s p Hk; cbn [groups_after]; try lia; sims. apply IH. lia.
Qed.
Lemma groups_sim k : ∀ k' s p n, (k <= k')%nat → sim same anything (groups_loop opts de k s p n) (groups_loop opts de k' (grow s) p n).
Proof.
  induction k as [|k IH]; intros [|k'] s p n Hk; cbn [groups_loop]; try lia; sims. apply IH. lia.
Qed.
#[local] Hint Resolve groups_after_sim groups_sim : dsim.
Lemma shorten_groups_sim s : above s → sim grow above (shorten_groups opts de s) (shorten_groups opts de (grow s)).
Proof.
  intros H. unfold shorten_groups. eapply sim_bind; [apply groups_sim, grow_len|intros [p n] _]. cbn beta iota zeta. destruct (groups_grouping_limit opts <? n); [|by apply sim_ret].
  rewrite cur_grow, pre_grow. intros x E. destruct (slice (res s) _ _) as [src|] eqn:Es; [|done]. cbn [mbind outcome_bind] in E. destruct (slice_more _ _ _ _ Es) as [Es' Hsrc].
  destruct (blit (res s) _ _) as [b|] eqn:Eb; [|done]. cbn [mbind outcome_bind] in E. destruct (blit_more _ _ _ _ Eb) as [Eb' Hb]. change (res (grow s)) with (res s ++ g). rewrite Es'. cbn [mbind outcome_bind]. rewrite Eb'. cbn [mbind outcome_bind].
  set (s1 := _ <| res_pre_pos := _ |>) in E. assert (above s1) as H1.
  { destruct H as (H0 & Hs & H). subst s1. cbn in *. split; [cbn; lia|]. split; [done|]. cbn. intros j Hj. rewrite Hb by lia. apply H. lia. }
  revert x E. change (sim grow above (s ← emit_all dots s1; Ok (move p s)) (s ← emit_all dots (grow s1); Ok (move p s))). sims.
Qed.
Lemma skip_groups_sim s : above s → sim grow1 above1 (skip_groups opts de s) (skip_groups opts de (grow s)).
Proof.
  intros H. unfold skip_groups. eapply sim_bind; [apply at_sim|intros c _]. eapply sim_bind; [apply groups_after_sim, grow_len|intros p _]. cbn beta. rewrite cur_grow. repeat case_match; by apply sim_ret.
Qed.
#[local] Hint Resolve shorten_groups_sim skip_groups_sim : dsim.
Lemma stage_4_step_sim s : above s → sim grow1 above1 (stage_4_step opts de s) (stage_4_step opts de (grow s)).
Proof. intros H. unfold stage_4_step. sims. Qed.
#[local] Hint Resolve stage_4_step_sim : dsim.
Lemma stage_4_loop_sim k : ∀ k' s, above s → (k <= k')%nat → sim grow above (stage_4_loop opts de k s) (stage_4_loop opts de k' (grow s)).
Proof.
  induction k as [|k IH]; intros [|k'] s H Hk; cbn [stage_4_loop]; try lia; sims. apply IH; [done|lia].
Qed.
End Stages.

(** *** The end of a stage *)
Context (u : stage_1_st).
Definition growt (t : stage_1_st) : stage_1_st :=
  mk_stage_1 (cmnt u) (literal_str u) (mk_literal_digit (first_digit (literal_digit u)) (start_pos (literal_digit t))) (pre_it_pos u) (new_end_pos t).
Definition grow_all {C} (x : shared_st * stage_1_st * C) : shared_st * stage_1_st * C := (grow x.1.1, growt x.1.2, x.2).
Lemma terminate_sim s : sim grow anything (terminate s) (terminate (grow s)).
Proof.
  intros x E. unfold terminate in *. destruct (write_at (res s) (res_pre_pos s) 0) as [b|] eqn:Eb; [|done]. injection E as <-. destruct (write_more _ g _ _ _ Eb) as (E & _).
  change (res (grow s)) with (res s ++ g). change (res_pre_pos (grow s)) with (res_pre_pos s). by rewrite E.
Qed.
Lemma move_digits_sim n : ∀ f s, above s → sim grow above (move_digits n f s) (move_digits n f (grow s)).
Proof. induction n as [|n IH]; intros f s H; cbn [move_digits]; sims. Qed.
Lemma end_sim de s t : above s → sim grow_all anything (end_stage de s t) (end_stage de (grow s) (growt t)).
Proof.
  intros H. unfold end_stage. rewrite pre_grow. eapply (sim_bind grow_all anything); [|by intros [[s1 t1] c] _; apply sim_ret].
  unfold end_compression_stage_it. cbn [growt literal_digit start_pos new_end_pos]. rewrite pre_grow.
  assert (∀ c : option Z, sim grow_all anything (s ← terminate s; Ok (s, t, c)) (s ← terminate (grow s); Ok (s, growt t, c))) as Hplain.
  { intros c. eapply sim_bind; [apply terminate_sim|]. intros s1 _. by apply sim_ret. }
  destruct (start_pos (literal_digit t)) as [p|]; [|apply Hplain]. destruct (new_end_pos t) as [e|]; [|apply Hplain]. destruct (de =? p - 1); [|apply Hplain].
  eapply sim_bind; [by apply move_digits_sim|]. intros s1 H1. cbn beta. eapply sim_bind; [apply terminate_sim|]. intros s2 _. by apply sim_ret.
Qed.
Lemma end_grow s t : get_stage_digest_end (grow s) (growt t) = get_stage_digest_end s t.
Proof using other_st.
  unfold get_stage_digest_end, grow, growt. cbn. destruct (decide (st s = st_literal_number)) as [->|E]; [done|]. destruct (st s); try done; by destruct other.
Qed.
End Same.

(** ** The stages of two queries *)
Lemma above_start de s : above (set_stage_next_start_pos de None s) (set_stage_next_start_pos de None s).
Proof. done. Qed.
Section Two.
Context (g : list Z) (other : p_st) (w : shared_st) (u : stage_1_st) (other_st : other ≠ st_literal_number).
Abbreviation grows := (grow g other w).
Abbreviation growst := (growt u).
Lemma stage_2_sim opts s t : sim (grow_all g other w u) anything (stage_2_parsing opts s t init_compress_st) (stage_2_parsing opts (grows s) (growst t) init_compress_st).
Proof using other_st.
  unfold stage_2_parsing. rewrite end_grow by done. cbn [it_pos init_compress_st option_map]. set (de := get_stage_digest_end s t). set (s1 := set_stage_next_start_pos de None s).
  change (set_stage_next_start_pos de None (grows s)) with (grows s1). eapply sim_bind; [apply (stage_2_loop_sim _ _ _ s1 _ _ _ _ _ (above_start de s)), grow_len|]. intros s2 H2. by apply (end_sim _ _ _ s1).
Qed.
Lemma stage_3_sim opts s t : sim (grow_all g other w u) anything (stage_3_parsing opts s t init_compress_st) (stage_3_parsing opts (grows s) (growst t) init_compress_st).
Proof using other_st.
  unfold stage_3_parsing. rewrite end_grow by done. cbn [it_pos init_compress_st option_map]. set (de := get_stage_digest_end s t). set (s1 := set_stage_next_start_pos de None s).
  change (set_stage_next_start_pos de None (grows s)) with (grows s1). destruct (grouping_limit opts =? 0); [by apply sim_ret|].
  eapply sim_bind; [exact (stage_3_loop_sim g other w s1 opts t de _ _ s1 false (above_start de s) (grow_len _ _ _ _))|]. intros s2 H2. by apply (end_sim _ _ _ s1).
Qed.
Lemma stage_4_sim opts s t : sim (grow_all g other w u) anything (stage_4_parsing opts s t init_compress_st) (stage_4_parsing opts (grows s) (growst t) init_compress_st).
Proof using other_st.
  unfold stage_4_parsing. rewrite end_grow by done. cbn [it_pos init_compress_st option_map]. set (de := get_stage_digest_end s t). set (s1 := set_stage_next_start_pos de None s).
  change (set_stage_next_start_pos de None (grows s)) with (grows s1). destruct ((groups_grouping_limit opts =? 0) || (grouping_limit opts =? 0)); [by apply sim_ret|].
  eapply sim_bind; [apply (stage_4_loop_sim _ _ _ s1 _ _ _ _ _ (above_start de s)), grow_len|]. intros s2 H2. by apply (end_sim _ _ _ s1).
Qed.
End Two.

(** ** A number at the end stays marked *)
Definition marked (s : shared_st) (t : stage_1_st) : Prop :=
  res s !! Z.to_nat (res_cur_pos s) = Some 0 ∧
  match start_pos (literal_digit t) with Some p => 0 <= p ∧ res_cur_pos s = p + 1 ∧ res s !! Z.to_nat p = Some 63 | None => True end.
Lemma terminate_spec s : 0 <= res_pre_pos s < Z.of_nat (length (res s)) → terminate s = Ok (s <| res := <[Z.to_nat (res_pre_pos s) := 0]> (res s) |>).
Proof. intros H. unfold terminate. by rewrite write_at_ok by done. Qed.
Lemma end_marked n de0 s0 s t x : ready n s0 t → marked s0 t → above (set_stage_next_start_pos de0 None s0) s → length (res s) = length (res s0) → inside (get_stage_digest_end s0 t) s →
  end_stage (get_stage_digest_end s0 t) s t = Ok x → marked x.1.1 x.1.2.
Proof.
  intros (Hroom & Hcur & _ & _ & Hst) [_ Hm] (H0 & _ & H) Hlen (Hi1 & Hi2 & _ & Hi4). unfold end_stage, end_compression_stage_it.
  destruct (decide (st s0 = st_literal_number)) as [En|En].
  - rewrite En in Hst. destruct Hst as (p & Ep & Hp & Ee). rewrite Ep in Hm. destruct Hm as (_ & Hc & Hm). assert (get_stage_digest_end s0 t = p - 1) as Ed by (unfold get_stage_digest_end; by rewrite En, Ep). rewrite Ed in *.
    rewrite Ep, Ee, Z.eqb_refl, Hc. replace (Z.to_nat (p + 1 - p)) with 1%nat by lia. cbn [move_digits].
    assert (at_pos s p = Ok 63) as ->. { apply read_at_Some. split; [lia|]. rewrite H by lia. exact Hm. }
    cbn [mbind outcome_bind]. unfold emit. rewrite write_at_ok by lia. cbn [mbind outcome_bind]. rewrite terminate_spec by (cbn; rewrite length_insert; lia). cbn [mbind outcome_bind]. intros [= <-].
    unfold marked. cbn. rewrite list_lookup_insert_eq by (rewrite length_insert; lia). rewrite list_lookup_insert_ne by lia. by rewrite list_lookup_insert_eq by lia.
  - assert (start_pos (literal_digit t) = None ∧ new_end_pos t = None) as [E1 _] by (by destruct (st s0)). rewrite E1, terminate_spec by lia. cbn [mbind outcome_bind]. intros [= <-]. unfold marked. cbn. split; [|by rewrite E1]. apply list_lookup_insert_eq. lia.
Qed.
Lemma no_more {A} (f : A → A) (Q : A → Prop) m0 m x : sim f Q m0 m → m0 = Ok x → Q x.
Proof. intros H E. by apply H. Qed.
Lemma stage_2_marked opts n s t x : ready n s t → marked s t → stage_2_parsing opts s t init_compress_st = Ok x → marked x.1.1 x.1.2.
Proof.
  intros Hr Hm. unfold stage_2_parsing. cbn [it_pos init_compress_st option_map]. destruct (start_inside n s t None Hr) as (_ & Hin & E0). set (de := get_stage_digest_end s t) in *. set (s1 := set_stage_next_start_pos de None s) in *.
  destruct (stage_2_loop_ok opts de (length (res s)) s1 Hin) as (s2 & E & Hr2 & Hin2); [destruct Hin as (_ & _ & _ & Hl); change (res s1) with (res s) in Hl; lia|].
  rewrite E. apply (end_marked n de s s2 t x Hr Hm); [|by destruct Hr2|done]. exact (no_more _ _ _ _ _ (stage_2_loop_sim [] (st s) s s1 opts de _ _ s1 (above_start de s) (le_n _)) E).
Qed.
Lemma stage_3_marked opts n s t x : 1 <= grouping_limit opts → ready n s t → marked s t → stage_3_parsing opts s t init_compress_st = Ok x → marked x.1.1 x.1.2.
Proof.
  intros Hg Hr Hm. unfold stage_3_parsing. rewrite (proj2 (Z.eqb_neq _ 0)) by lia. cbn [it_pos init_compress_st option_map]. destruct (start_inside n s t None Hr) as (_ & Hin & E0). set (de := get_stage_digest_end s t) in *. set (s1 := set_stage_next_start_pos de None s) in *.
  destruct (stage_3_loop_ok opts t de Hg (length (res s)) s1 false Hin) as (s2 & E & Hr2 & Hin2); [done|destruct Hin as (_ & _ & _ & Hl); change (res s1) with (res s) in Hl; lia|].
  rewrite E. apply (end_marked n de s s2 t x Hr Hm); [|by destruct Hr2|done]. exact (no_more _ _ _ _ _ (stage_3_loop_sim [] (st s) s s1 opts t de _ _ s1 false (above_start de s) (le_n _)) E).
Qed.
Lemma stage_4_marked opts n s t x : 1 <= grouping_limit opts → groups_fit opts n → ready n s t → marked s t → stage_4_parsing opts s t init_compress_st = Ok x → marked x.1.1 x.1.2.
Proof.
  intros Hg Hgg Hr Hm. unfold stage_4_parsing. destruct (Z.eqb_spec (groups_grouping_limit opts) 0) as [E|E]; [by intros [= <-]|]. rewrite (proj2 (Z.eqb_neq _ 0)) by lia. cbn [orb it_pos init_compress_st option_map].
  destruct (start_inside n s t None Hr) as (_ & Hin & E0). set (de := get_stage_digest_end s t) in *. set (s1 := set_stage_next_start_pos de None s) in *.
  destruct (stage_4_loop_ok opts de Hg (groups_fit_end opts n s t Hg Hgg E Hr) (length (res s)) s1 Hin) as (s2 & E2 & Hr2 & Hin2); [destruct Hin as (_ & _ & _ & Hl); change (res s1) with (res s) in Hl; lia|].
  rewrite E2. apply (end_marked n de s s2 t x Hr Hm); [|by destruct Hr2|done]. exact (no_more _ _ _ _ _ (stage_4_loop_sim [] (st s) s s1 opts de _ _ s1 (above_start de s) (le_n _)) E2).
Qed.

(** ** The end *)
Lemma trim_more k : ∀ k' b g f x, (Z.to_nat f <= k <= k')%nat → trim k b f = Ok x → trim k' (b ++ g) f = Ok x.
Proof.
  induction k as [|k IH]; intros k' b g f x Hk; cbn [trim].
  - intros [= <-]. destruct k'; cbn [trim]; [done|]. by rewrite (proj2 (Z.ltb_ge 0 f)) by lia.
  - destruct k' as [|k']; [lia|]. cbn [trim]. destruct (Z.ltb_spec 0 f) as [E|E]; [|done]. destruct (read_at b f) as [c|] eqn:Ec; [|done]. rewrite (read_more _ _ _ _ Ec). cbn [mbind outcome_bind].
    destruct ((c =? 32) || (c =? 59)); [|done]. apply IH. lia.
Qed.
Lemma final_marked n s t : marked s t → final_stage n s t = (f ← trim (length (res s)) (res s) (res_cur_pos s - 1); b ← write_at (res s) (f + 1) 0; Ok (move (f + 1) (s <| res := b |>))).
Proof.
  intros [_ Hm]. unfold final_stage. destruct (start_pos (literal_digit t)) as [p|]; [|done]. destruct Hm as (H0 & _ & Hp). destruct (st s); try done. destruct (n <=? res_cur_pos s); [|done].
  assert (at_pos s p = Ok 63) as ->; [|done]. by apply read_at_Some.
Qed.
Lemma marked_grow g other w u s t : 0 <= res_cur_pos s → marked s t → marked (grow g other w s) (growt u t).
Proof.
  intros H0 [H1 H2]. split; [cbn; by apply lookup_app_l_Some|]. cbn. destruct (start_pos (literal_digit t)) as [p|]; [|done]. destruct H2 as (? & ? & H). split; [done|]. split; [done|]. by apply lookup_app_l_Some.
Qed.
Lemma final_sim n n' g other w u s t x : 0 <= res_cur_pos s < Z.of_nat (length (res s)) → marked s t → final_stage n s t = Ok x → final_stage n' (grow g other w s) (growt u t) = Ok (grow g other w x).
Proof.
  intros Hc Hm. rewrite (final_marked _ _ _ Hm), (final_marked _ _ _ (marked_grow g other w u s t (proj1 Hc) Hm)). cbn [grow res res_cur_pos].
  destruct (trim (length (res s)) (res s) _) as [f|] eqn:Ef; [|done]. rewrite (trim_more (length (res s)) (length (res s ++ g)) (res s) g _ f) by (done || rewrite length_app; lia). cbn [mbind outcome_bind].
  destruct (write_at (res s) (f + 1) 0) as [b|] eqn:Eb; [|done]. destruct (write_more _ g _ _ _ Eb) as (-> & _). cbn [mbind outcome_bind]. by intros [= <-].
Qed.
Lemma c_text_more b g i : b !! i = Some 0 → c_text (b ++ g) = c_text b.
Proof.
  unfold c_text. revert i. induction b as [|c b IH]; intros i H; [done|]. cbn [app span]. destruct (negb (c =? 0)) eqn:E; [|done]. destruct i as [|i]; [injection H as ->; done|]. specialize (IH i H).
  destruct (span _ (b ++ g)), (span _ b). cbn in *. by subst.
Qed.

(** ** The digest of the pieces *)
Lemma digest_grown opts k s t : 1 <= grouping_limit opts → groups_fit opts k → ready k s t → marked s t →
  ∃ d, ∀ q malloc max fuel buf cmd g other w u s1 t1, Z.of_nat (length q) <= max → other ≠ st_literal_number → Z.of_nat (length q) <= q_cur_pos w →
    stage_1_parsing opts q (Z.of_nat (length q)) malloc (init_shared_st (match buf with Some b => b | None => malloc (Z.of_nat (length q) + 1) end)) (init_stage_1_st cmd) = Ok (s1, t1) →
    s1 <| res_pre_pos := 0 |> = grow g other w s → t1 = growt u t →
    (λ r, c_text r.1) <$> mysql_query_digest_and_first_comment_2 opts q malloc max (S fuel) buf cmd = Ok d.
Proof.
  intros Hg Hgg R1 M1. destruct (stage_2_ok opts k s t init_compress_st R1) as (s2 & t2 & c2 & E2 & R2 & _). pose proof (stage_2_marked _ _ _ _ _ R1 M1 E2) as M2.
  destruct (stage_3_ok opts k s2 t2 init_compress_st Hg R2) as (s3 & t3 & c3 & E3 & R3 & _). pose proof (stage_3_marked _ _ _ _ _ Hg R2 M2 E3) as M3.
  destruct (stage_4_ok opts k s3 t3 init_compress_st Hg Hgg R3) as (s4 & t4 & c4 & E4 & R4 & _). pose proof (stage_4_marked _ _ _ _ _ Hg Hgg R3 M3 E4) as M4.
  destruct (final_ok k s4 t4 R4) as (s5 & i & E5 & _ & _ & Hz). exists (c_text (res s5)). intros q malloc max fuel buf cmd g other w u s1 t1 Hmax Ho Hq E1 Es ->.
  unfold mysql_query_digest_and_first_comment_2, get_digest_max_len. rewrite (proj2 (Z.ltb_ge _ _)) by lia. cbn [digest_loop]. rewrite E1. cbn [mbind outcome_bind].
  change (stage_2_parsing opts s1) with (stage_2_parsing opts (s1 <| res_pre_pos := 0 |>)). rewrite Es. destruct (stage_2_sim g other w u Ho opts s t _ E2) as [-> _]. cbn [grow_all fst snd mbind outcome_bind].
  destruct (stage_3_sim g other w u Ho opts s2 t2 _ E3) as [-> _]. cbn [grow_all fst snd mbind outcome_bind]. destruct (stage_4_sim g other w u Ho opts s3 t3 _ E4) as [-> _]. cbn [grow_all fst snd mbind outcome_bind].
  set (off := _ - _). change (q_cur_pos (_ <| gl_c_offset := off |>)) with (q_cur_pos w). rewrite (proj2 (Z.leb_le _ _)) by done. cbn [orb mbind outcome_bind].
  assert (∀ s' t' n, final_stage n (s' <| gl_c_offset := off |>) t' = (s'' ← final_stage n s' t'; Ok (s'' <| gl_c_offset := off |>))) as Hoff.
  { intros s' t' n. unfold final_stage. cbn. change (at_pos (s' <| gl_c_offset := off |>)) with (at_pos s'). destruct (match start_pos (literal_digit t') with Some _ => _ | None => _ end) as [b|]; [|done]. cbn [mbind outcome_bind].
    destruct (trim _ _ _) as [f|]; [|done]. cbn [mbind outcome_bind]. by destruct (write_at b (f + 1) 0). }
  rewrite Hoff, (final_sim k _ g other w u s4 t4 s5); [|destruct R4 as (? & ? & _); lia|done|done]. cbn. f_equal. by apply (c_text_more _ _ (Z.to_nat i)).
Qed.
(** What the first stage leaves, without the rest of the buffer. *)
Definition left_st (out : list Z) (number : bool) : shared_st :=
  mk_shared 0 (Z.of_nat (length out)) (out ++ [0]) 0 (Z.of_nat (length out)) 0 (if number then st_literal_number else st_no_mark_found) 0 false false.
Definition left_t (out : list Z) (number : bool) : stage_1_st :=
  mk_stage_1 (mk_cmnt false 0 false 0 [] None) (mk_literal_string false 0 0) (mk_literal_digit true (if number then Some (Z.of_nat (length out) - 1) else None)) None (if number then Some (Z.of_nat (length out)) else None).
Lemma left_ready out number : (number = true → ∃ o, out = o ++ [63]) → ready (Z.of_nat (length out)) (left_st out number) (left_t out number) ∧ marked (left_st out number) (left_t out number).
Proof.
  intros Ho. split.
  - split; [cbn; rewrite length_app; cbn [length]; lia|]. split; [cbn; lia|]. split; [done|]. split; [done|]. destruct number; cbn; [|done]. destruct (Ho eq_refl) as [o ->]. rewrite length_app. cbn [length]. eexists. split; [done|]. split; [lia|done].
  - split; [cbn; by rewrite Nat2Z.id, lookup_app_r, Nat.sub_diag by lia|]. destruct number; [|done]. cbn. destruct (Ho eq_refl) as [o ->]. rewrite length_app. cbn [length]. split; [lia|]. split; [lia|].
    replace (Z.to_nat (Z.of_nat (length o + 1) - 1)) with (length o) by lia. rewrite <- app_assoc, lookup_app_r, Nat.sub_diag by lia. done.
Qed.
Lemma left_grows opts ps s t : stage_1_left opts ps s t → let out := normal opts [] ps in let b := ends_number ps in
  ∃ g other, other ≠ st_literal_number ∧ s <| res_pre_pos := 0 |> = grow g other s (left_st out b) ∧ t = growt t (left_t out b).
Proof.
  intros [[g Hg] Hc _ Hit Hn Hs Hnew _] out b. exists g, (if decide (st s = st_literal_number) then st_no_mark_found else st s). fold out b in Hg, Hc, Hn, Hs, Hnew. split; [by case_decide|]. split.
  - destruct s as [gl qc r it cur pre st0 pc kp wc]. cbn in Hg, Hc, Hit, Hn. subst r it cur. unfold grow, left_st. cbn [gl_c_offset q_cur_pos res res_it_init_pos res_cur_pos res_pre_pos st prev_char keep_prev_char will_copy].
    rewrite <- app_assoc. change (mk_shared gl qc (out ++ 0 :: g) 0 (Z.of_nat (length out)) 0 st0 pc kp wc = mk_shared gl qc (out ++ [0] ++ g) 0 (Z.of_nat (length out)) 0
      (if decide ((if b then st_literal_number else st_no_mark_found) = st_literal_number) then st_literal_number else if decide (st0 = st_literal_number) then st_no_mark_found else st0) pc kp wc).
    f_equal. destruct b; [by apply Hn|]. rewrite (decide_False (P := st_no_mark_found = _)) by done. rewrite decide_False; [done|]. intros E. by apply Hn in E.
  - destruct t as [c l [fd sp] pre new]. unfold growt, left_t. cbn in *. f_equal; [f_equal|].
    + destruct b; [|done]. destruct Hs as (o & -> & ->). rewrite length_app. cbn [length]. f_equal. lia.
    + rewrite Hnew. destruct b; [by rewrite Hc|done].
Qed.
(** Queries of the same pieces have the same digest. *)
Lemma digest_pieces opts ps : 1 <= grouping_limit opts → groups_fit opts (Z.of_nat (length (normal opts [] ps))) → keep_comment opts = false → replace_null opts = false →
  (ends_number ps = true → ∃ o, normal opts [] ps = o ++ [63]) →
  ∃ d, ∀ ps' malloc max fuel buf cmd, (∀ n, 0 <= n → Z.of_nat (length (malloc n)) = n) → normal opts [] ps' = normal opts [] ps → ends_number ps' = ends_number ps → proper 0 ps' → Z.of_nat (length (text ps')) <= max →
    match buf with Some b => Z.of_nat (length (text ps')) + 1 <= Z.of_nat (length b) | None => True end → Z.of_nat (length cmd) = FIRST_COMMENT_MAX_LENGTH →
    (λ r, c_text r.1) <$> mysql_query_digest_and_first_comment_2 opts (text ps') malloc max (S fuel) buf cmd = Ok d.
Proof.
  intros Hg Hgg Hk Hn Ho. destruct (left_ready (normal opts [] ps) (ends_number ps) Ho) as [Hr Hm]. destruct (digest_grown opts _ _ _ Hg Hgg Hr Hm) as (d & Hd). exists d.
  intros ps' malloc max fuel buf cmd Hmal En Ee Hp Hmax Hb Hc. set (r := match buf with Some b => b | None => malloc (Z.of_nat (length (text ps')) + 1) end).
  assert (Z.of_nat (length (text ps')) + 1 <= Z.of_nat (length r)) as Hlr by (unfold r; destruct buf; [done|rewrite Hmal; lia]).
  destruct (stage_1_pieces opts malloc r cmd ps' Hmal Hk Hn Hp Hlr Hc) as (s & t & E & Hl). pose proof Hl as [_ _ Hq _ _ _ _ _]. destruct (left_grows opts ps' s t Hl) as (g & other & H1 & H2 & H3). rewrite En, Ee in H2, H3.
  by apply (Hd (text ps') malloc max fuel buf cmd g other s t s t).
Qed.
(** C18: Queries of the same words, signs and runs of blanks, which differ only in what
    the runs consist of and in their values, which are literals (with escaped characters
    and doubled quotes) and whole numbers, and of which both or neither end with a number,
    have the same digest, whatever the buffers they are read in hold.  The queries have no comment and no other number and are not longer
    than the limit, the first comment is not kept, nulls are not replaced, at least one
    value of a list is kept, and either at most 2n + 2 lists are kept for n kept values
    or the text with the question marks is too short for more lists than are kept (with
    the defaults, shorter than 121 characters). *)
Theorem values_ignored opts malloc max fuel buf buf' cmd cmd' ps ps' : (∀ n, 0 <= n → Z.of_nat (length (malloc n)) = n) →
  1 <= grouping_limit opts → groups_fit opts (Z.of_nat (length (normal opts [] ps))) → keep_comment opts = false → replace_null opts = false →
  Forall2 same_but_value ps ps' → ends_number ps = ends_number ps' → proper 0 ps → proper 0 ps' → Z.of_nat (length (text ps)) <= max → Z.of_nat (length (text ps')) <= max →
  match buf with Some b => Z.of_nat (length (text ps)) + 1 <= Z.of_nat (length b) | None => True end → match buf' with Some b => Z.of_nat (length (text ps')) + 1 <= Z.of_nat (length b) | None => True end →
  Z.of_nat (length cmd) = FIRST_COMMENT_MAX_LENGTH → Z.of_nat (length cmd') = FIRST_COMMENT_MAX_LENGTH →
  ∃ d, (λ r, c_text r.1) <$> mysql_query_digest_and_first_comment_2 opts (text ps) malloc max (S fuel) buf cmd = Ok d ∧
    (λ r, c_text r.1) <$> mysql_query_digest_and_first_comment_2 opts (text ps') malloc max (S fuel) buf' cmd' = Ok d.
Proof.
  intros Hm Hg Hgg Hk Hn Hs He Hp Hp' Hl Hl' Hb Hb' Hc Hc'.
  assert (ends_number ps = true → ∃ o, normal opts [] ps = o ++ [63]) as Ho.
  { intros E. destruct (stage_1_pieces opts malloc (malloc (Z.of_nat (length (text ps)) + 1)) cmd ps Hm Hk Hn Hp) as (s & t & _ & [_ _ _ _ _ H _ _]); [rewrite Hm; lia|done|]. rewrite E in H. destruct H as (o & -> & _). by exists o. }
  destruct (digest_pieces opts ps Hg Hgg Hk Hn Ho) as (d & Hd). exists d. split; apply Hd; try done. by rewrite (normal_same opts ps ps' Hs).
Qed.
Lemma values_ignored_witness : let ps v := Plain 97 :: Blank (str " ") :: (Plain <$> str "in(") ++ v ++ [Blank (str " "); Plain 41] in
  ∃ d, (λ r, c_text r.1) <$> mysql_query_digest_and_first_comment_2 default_options (text (ps [Digits (str "12")])) zeros 100 1 None (zeros 1024) = Ok d ∧
    (λ r, c_text r.1) <$> mysql_query_digest_and_first_comment_2 default_options (text (ps [Text 39 (str "x\' y")])) zeros 100 1 (Some (zeros 50)) (replicate (Z.to_nat 1024) 7) = Ok d.
Proof.
  intros ps. apply (values_ignored default_options zeros 100 0 None (Some (zeros 50)) (zeros 1024) (replicate (Z.to_nat 1024) 7) (ps [Digits (str "12")]) (ps [Text 39 (str "x\' y")])).
  1: intros n Hn; unfold zeros; rewrite length_replicate; lia.
  1: by vm_compute.
  1: by apply (bool_decide_unpack _).
  all: try done; try by repeat constructor.
  all: by apply (bool_decide_unpack _).
Defined.
