(* ===== verification/QPComment.v ===== *)
(** * Settings in the first comment of a query
    (lib/Query_Processor.cpp: query_parser_first_comment, is_valid_gtid;
    include/query_processor.h: Query_Processor_Output)

    A comment such as [/*+ hostgroup=2; max_lag_ms=500 */] overrides what the
    query rules decided.  The clock is an argument. *)
From S2P Require Import Prelude StringUtils Tokenizer.

(** What the query processor decides about a query; the memory block that
    [ptr] and [size] describe is not part of it. *)
Record Query_Processor_Output := mk_output {
  o_destination_hostgroup : Z;
  o_mirror_hostgroup : Z;
  o_mirror_flagOUT : Z;
  o_next_query_flagIN : Z;
  o_cache_ttl : Z;
  o_cache_empty_result : Z;
  o_cache_timeout : Z;
  o_reconnect : Z;
  o_timeout : Z;
  o_retries : Z;
  o_delay : Z;
  o_error_msg : option (list Z);
  o_OK_msg : option (list Z);
  o_sticky_conn : Z;
  o_multiplex : Z;
  o_gtid_from_hostgroup : Z;
  o_max_lag_ms : Z;
  o_log : Z;
  o_firewall_whitelist_mode : Z;
  o_min_gtid : option (list Z);
  o_create_new_conn : bool;
  o_new_query : option (list Z)
}.
#[export] Instance Query_Processor_Output_eta : Eta Query_Processor_Output := λ o,
  mk_output (o_destination_hostgroup o) (o_mirror_hostgroup o) (o_mirror_flagOUT o) (o_next_query_flagIN o) (o_cache_ttl o)
    (o_cache_empty_result o) (o_cache_timeout o) (o_reconnect o) (o_timeout o) (o_retries o) (o_delay o) (o_error_msg o) (o_OK_msg o)
    (o_sticky_conn o) (o_multiplex o) (o_gtid_from_hostgroup o) (o_max_lag_ms o) (o_log o) (o_firewall_whitelist_mode o)
    (o_min_gtid o) (o_create_new_conn o) (o_new_query o).

Definition WUS_NOT_FOUND : Z := 0.
Definition WUS_OFF : Z := 1.
Definition WUS_DETECTING : Z := 2.
Definition WUS_PROTECTING : Z := 3.

(** [Query_Processor_Output::init] *)
Definition init_output : Query_Processor_Output :=
  mk_output (-1) (-1) (-1) (-1) (-1) (-1) (-1) (-1) (-1) (-1) (-1) None None (-1) (-1) (-1) (-1) (-1) WUS_NOT_FOUND None false None.

(** A GTID needs a colon that is neither first nor last. *)
Definition is_valid_gtid (gtid : list Z) : bool :=
  let gtid_len := Z.of_nat (length gtid) in
  if gtid_len <? 3 then false
  else
    let '(uuid, rest) := span (λ c, negb (c =? 58)) gtid in
    match rest with
    | [] => false
    | _ => let uuid_len := Z.of_nat (length uuid) in if uuid_len <? 1 then false else negb (gtid_len <? uuid_len + 2)
    end.

(** The value is copied into a block of [l + 1] bytes, [block], which is
    terminated at position [l + 1]. *)
Definition copy_gtid (block value : list Z) : outcome (list Z) :=
  let l := Z.of_nat (length value) in
  buf ← write_at (value ++ drop (length value) block) (l + 1) 0;
  Ok (cstr buf).

Definition clean (s : list Z) : outcome (list Z) := '(buf, _) ← Spaces.remove_spaces (s ++ [0]); Ok (cstr buf).

(** Millisecond limits on the age of the data that are not larger than ten minutes. *)
Definition lag_ok (t : Z) : bool := (0 <=? t) && (t <=? 600000).

Definition when (b : bool) (f : Query_Processor_Output → Query_Processor_Output) (o : Query_Processor_Output) : Query_Processor_Output :=
  if b then f o else o.

(** [key=value], with [now_us] the clock; [block] is the memory that malloc returns for a GTID. *)
Definition comment_setting (now_us : Z) (block key value : list Z) (o : Query_Processor_Output) : outcome Query_Processor_Output :=
  let digit := match value with c :: _ => isdigit c | [] => false end in
  let key_is name := strcasecmp_eq key (str name) in
  let t := atoi value in
  let o := when (key_is "cache_ttl" && digit) (λ o, o <| o_cache_ttl := t |>) o in
  let o := when (key_is "query_delay" && digit) (λ o, o <| o_delay := t |>) o in
  let o := when (key_is "query_retries" && digit) (λ o, o <| o_retries := t |>) o in
  let o := when (key_is "query_timeout" && digit) (λ o, o <| o_timeout := t |>) o in
  let o := when (key_is "hostgroup" && digit) (λ o, o <| o_destination_hostgroup := t |>) o in
  let o := when (key_is "mirror" && digit) (λ o, o <| o_mirror_hostgroup := t |>) o in
  let o := when (key_is "max_lag_ms" && digit && lag_ok t) (λ o, o <| o_max_lag_ms := t |>) o in
  let diff := i64 (i64 (u64 now_us / 1000) - atoll value) in
  let o := when (key_is "min_epoch_ms" && digit && lag_ok diff) (λ o, o <| o_max_lag_ms := diff |>) o in
  o ← (if key_is "min_gtid" && is_valid_gtid value then gtid ← copy_gtid block value; Ok (o <| o_min_gtid := Some gtid |>) else Ok o);
  Ok (when (key_is "create_new_connection" && (t =? 1)) (λ o, o <| o_create_new_conn := true |>) o).

Definition comment_token (now_us : Z) (block token : list Z) (o : Query_Processor_Output) : outcome Query_Processor_Output :=
  '(key, value) ← c_split_2 token (str "=");
  key ← clean key;
  value ← clean value;
  if bool_decide (key = []) then Ok o else comment_setting now_us block key value o.

Fixpoint comment_tokens (now_us : Z) (block : list Z) (ts : list (list Z)) (o : Query_Processor_Output) : outcome Query_Processor_Output :=
  match ts with
  | [] => Ok o
  | t :: ts' => o ← comment_token now_us block t o; comment_tokens now_us block ts' o
  end.
Definition query_parser_first_comment (now_us : Z) (block fc : list Z) (o : Query_Processor_Output) : outcome Query_Processor_Output :=
  ts ← tokens (str ";") fc; comment_tokens now_us block ts o.

(** ** What a comment means *)
Definition norm (s : list Z) : list Z := join [32] (Spaces.words s).

Lemma clean_norm s : no_nul s → clean s = Ok (norm s).
Proof.
  intros H. unfold clean. destruct (Spaces.remove_spaces_spec s [] H) as (buf & -> & E). cbn [mbind outcome_bind]. by rewrite E.
Qed.

(** The text of a setting. *)
Definition plain (d : list Z) (s : list Z) : Prop := no_nul s ∧ Forall (λ c, is_delim d c = false) s.
Definition setting_text (i : list Z * list Z) : list Z := i.1 ++ str "=" ++ i.2.
Definition setting_ok (i : list Z * list Z) : Prop := i.1 ≠ [] ∧ plain (str "=;") i.1 ∧ plain (str "=;") i.2.

Lemma plain_sub d d' s : (∀ c, is_delim d c = true → is_delim d' c = true) → Forall (λ c, is_delim d' c = false) s →
  Forall (λ c, is_delim d c = false) s.
Proof.
  intros Hd Hs. eapply Forall_impl; [exact Hs|]. cbn. intros c Hc. destruct (is_delim d c) eqn:E; [|done]. by rewrite Hd in Hc.
Qed.
Lemma delim_eq c : is_delim (str "=") c = true → is_delim (str "=;") c = true.
Proof. unfold is_delim. rewrite !bool_decide_eq_true. intros ->%list_elem_of_singleton. left. Qed.
Lemma delim_semi c : is_delim (str ";") c = true → is_delim (str "=;") c = true.
Proof. unfold is_delim. rewrite !bool_decide_eq_true. intros ->%list_elem_of_singleton. right. left. Qed.

Lemma split_setting i : setting_ok i → c_split_2 (setting_text i) (str "=") = Ok i.
Proof.
  destruct i as [k v]. intros (Hk & [_ Hk'] & [_ Hv]). unfold c_split_2, setting_text. rewrite tokens_spec. cbn [mbind outcome_bind fst snd] in *.
  apply (plain_sub (str "=")) in Hk'; [|apply delim_eq]. apply (plain_sub (str "=")) in Hv; [|apply delim_eq].
  change (str "=" ++ v) with (61 :: v). rewrite fields_word; [|done|done|right; by exists 61, v]. cbn [lookup list_lookup default]. rewrite fields_delim by done.
  destruct v as [|c v]; [done|]. rewrite <- (app_nil_r (c :: v)) at 1. rewrite fields_word; [|done|done|by left]. done.
Qed.

Lemma setting_field i : setting_ok i → setting_text i ≠ [] ∧ Forall (λ c, is_delim (str ";") c = false) (setting_text i).
Proof.
  destruct i as [k v]. intros (Hk & [_ Hk'] & [_ Hv]). cbn [fst snd] in *. split; [by destruct k|].
  unfold setting_text. cbn [fst snd]. rewrite !Forall_app. split; [by apply (plain_sub _ (str "=;")); [apply delim_semi|]|].
  split; [repeat constructor | by apply (plain_sub _ (str "=;")); [apply delim_semi|]].
Qed.

(** The last setting of that name, as far as it counts. *)
Definition last_setting (name : string) (f : list Z → option Z) (items : list (list Z * list Z)) : option Z :=
  last (omap (λ i, if strcasecmp_eq (norm i.1) (str name) then f (norm i.2) else None) items).
Definition number (v : list Z) : option Z :=
  match v with c :: _ => if isdigit c then Some (atoi v) else None | [] => None end.
Definition comment_text (items : list (list Z * list Z)) : list Z := join (str ";") (setting_text <$> items).

(** Both settings that limit the age of the data. *)
Definition lag_setting (now_us : Z) (i : list Z * list Z) : option Z :=
  let limited t := if lag_ok t then Some t else None in
  if strcasecmp_eq (norm i.1) (str "min_epoch_ms")
  then number (norm i.2) ≫= λ _, limited (i64 (i64 (u64 now_us / 1000) - atoll (norm i.2)))
  else if strcasecmp_eq (norm i.1) (str "max_lag_ms") then number (norm i.2) ≫= limited else None.
Definition asks_new_connection (i : list Z * list Z) : bool :=
  strcasecmp_eq (norm i.1) (str "create_new_connection") && (atoi (norm i.2) =? 1).

Definition with_settings (now_us : Z) (items : list (list Z * list Z)) (o : Query_Processor_Output) : Query_Processor_Output :=
  o <| o_cache_ttl := default (o_cache_ttl o) (last_setting "cache_ttl" number items) |>
    <| o_delay := default (o_delay o) (last_setting "query_delay" number items) |>
    <| o_retries := default (o_retries o) (last_setting "query_retries" number items) |>
    <| o_timeout := default (o_timeout o) (last_setting "query_timeout" number items) |>
    <| o_destination_hostgroup := default (o_destination_hostgroup o) (last_setting "hostgroup" number items) |>
    <| o_mirror_hostgroup := default (o_mirror_hostgroup o) (last_setting "mirror" number items) |>
    <| o_max_lag_ms := default (o_max_lag_ms o) (last (omap (lag_setting now_us) items)) |>
    <| o_create_new_conn := existsb asks_new_connection items || o_create_new_conn o |>.

Lemma number_digit v : number v = if match v with c :: _ => isdigit c | [] => false end then Some (atoi v) else None.
Proof. by destruct v. Qed.

Lemma default_last {A B} (f : A → option B) a x (l : list A) :
  default a (last (omap f (x :: l))) = default (match f x with Some b => b | None => a end) (last (omap f l)).
Proof. cbn. destruct (f x) as [b|]; [|done]. rewrite last_cons. by destruct (last _). Qed.

Lemma with_settings_cons now i items o : with_settings now (i :: items) o = with_settings now items (with_settings now [i] o).
Proof.
  unfold with_settings, last_setting. rewrite !default_last. cbn [existsb].
  destruct (asks_new_connection i), (existsb asks_new_connection items); reflexivity.
Qed.

(** Different keys cannot both be given. *)
Lemma key_exclusive k a b : lower <$> str a ≠ lower <$> str b → strcasecmp_eq k (str a) = true → strcasecmp_eq k (str b) = false.
Proof.
  unfold strcasecmp_eq. intros H Ha%bool_decide_eq_true. apply bool_decide_eq_false. congruence.
Qed.

(** A conditional update is the update with a conditional value. *)
Lemma when_ttl b t o : when b (λ o, o <| o_cache_ttl := t |>) o = o <| o_cache_ttl := if b then t else o_cache_ttl o |>.
Proof. by destruct b, o. Qed.
Lemma when_delay b t o : when b (λ o, o <| o_delay := t |>) o = o <| o_delay := if b then t else o_delay o |>.
Proof. by destruct b, o. Qed.
Lemma when_retries b t o : when b (λ o, o <| o_retries := t |>) o = o <| o_retries := if b then t else o_retries o |>.
Proof. by destruct b, o. Qed.
Lemma when_timeout b t o : when b (λ o, o <| o_timeout := t |>) o = o <| o_timeout := if b then t else o_timeout o |>.
Proof. by destruct b, o. Qed.
Lemma when_hostgroup b t o :
  when b (λ o, o <| o_destination_hostgroup := t |>) o = o <| o_destination_hostgroup := if b then t else o_destination_hostgroup o |>.
Proof. by destruct b, o. Qed.
Lemma when_mirror b t o : when b (λ o, o <| o_mirror_hostgroup := t |>) o = o <| o_mirror_hostgroup := if b then t else o_mirror_hostgroup o |>.
Proof. by destruct b, o. Qed.
Lemma when_lag b t o : when b (λ o, o <| o_max_lag_ms := t |>) o = o <| o_max_lag_ms := if b then t else o_max_lag_ms o |>.
Proof. by destruct b, o. Qed.
Lemma when_new b o : when b (λ o, o <| o_create_new_conn := true |>) o = o <| o_create_new_conn := b || o_create_new_conn o |>.
Proof. by destruct b, o. Qed.

Lemma comment_setting_spec now block k v o :
  strcasecmp_eq (norm k) (str "min_gtid") && is_valid_gtid (norm v) = false →
  comment_setting now block (norm k) (norm v) o = Ok (with_settings now [(k, v)] o).
Proof.
  intros Hg. unfold comment_setting. rewrite Hg. clear Hg. cbn zeta. cbn [mbind outcome_bind]. f_equal.
  unfold with_settings, last_setting. cbn [omap list_omap existsb fst snd].
  unfold lag_setting, asks_new_connection. cbn [fst snd]. rewrite !number_digit.
  pose proof (key_exclusive (norm k) "min_epoch_ms" "max_lag_ms" ltac:(done)) as Hx. set (epoch := i64 (i64 (u64 now / 1000) - _)).
  generalize dependent epoch. revert Hx.
  generalize (atoi (norm v)) (strcasecmp_eq (norm k) (str "cache_ttl")) (strcasecmp_eq (norm k) (str "query_delay")) (strcasecmp_eq (norm k) (str "query_retries"))
    (strcasecmp_eq (norm k) (str "query_timeout")) (strcasecmp_eq (norm k) (str "hostgroup")) (strcasecmp_eq (norm k) (str "mirror"))
    (match norm v with c :: _ => isdigit c | [] => false end)
    (strcasecmp_eq (norm k) (str "create_new_connection") && (atoi (norm v) =? 1))
    (strcasecmp_eq (norm k) (str "min_epoch_ms")) (strcasecmp_eq (norm k) (str "max_lag_ms")).
  intros t b1 b2 b3 b4 b5 b6 d b0 b7 b8 Hx epoch. destruct o as [h0 mh mf nf ct ce cto rc tmo rt dl em om sc mx gt lag lg fw mg cn nq].
  rewrite when_ttl, when_delay, when_retries, when_timeout, when_hostgroup, when_mirror, !when_lag, when_new.
  cbv [upd Query_Processor_Output_eta o_destination_hostgroup o_mirror_hostgroup o_mirror_flagOUT o_next_query_flagIN o_cache_ttl
    o_cache_empty_result o_cache_timeout o_reconnect o_timeout o_retries o_delay o_error_msg o_OK_msg o_sticky_conn o_multiplex
    o_gtid_from_hostgroup o_max_lag_ms o_log o_firewall_whitelist_mode o_min_gtid o_create_new_conn o_new_query].
  f_equal; try (by destruct b1, d); try (by destruct b2, d); try (by destruct b3, d); try (by destruct b4, d); try (by destruct b5, d);
    try (by destruct b6, d).
  - destruct b7; [rewrite Hx by done|]; destruct d; cbn [andb mbind option_bind]; try destruct b8; cbn [andb mbind option_bind];
      try destruct (lag_ok _); reflexivity.
  - by rewrite orb_false_r.
Qed.

Lemma comment_token_spec now block i o :
  setting_ok i → strcasecmp_eq (norm i.1) (str "min_gtid") && is_valid_gtid (norm i.2) = false →
  comment_token now block (setting_text i) o = Ok (with_settings now [i] o).
Proof.
  intros Hi Hg. unfold comment_token. rewrite split_setting by done. destruct i as [k v]. destruct Hi as (_ & [Hk _] & [Hv _]). cbn [mbind outcome_bind fst snd] in *.
  rewrite !clean_norm by done. cbn [mbind outcome_bind]. case_bool_decide as E; [|by apply comment_setting_spec].
  unfold with_settings, last_setting. cbn [omap list_omap existsb fst snd]. unfold lag_setting, asks_new_connection. cbn [fst snd]. rewrite E. by destruct o.
Qed.

(** C27: A comment sets what it says and nothing else.  Whatever spaces and
    letter cases it is written with, each setting takes the value of its last
    mention that is a number, limits on the age of the data only from zero to ten
    minutes; everything else that the query rules decided stays.  Comments with a
    valid [min_gtid] are excluded: its copy is written past the end of its block
    ([min_gtid_overflows]). *)
Theorem comment_applied now block items o :
  Forall setting_ok items → (∀ i, i ∈ items → strcasecmp_eq (norm i.1) (str "min_gtid") && is_valid_gtid (norm i.2) = false) →
  query_parser_first_comment now block (comment_text items) o = Ok (with_settings now items o).
Proof.
  intros Hi Hg. unfold query_parser_first_comment, comment_text. rewrite tokens_spec. cbn [mbind outcome_bind].
  change (str ";") with [59]. rewrite fields_join; [|done|].
  2: { rewrite Forall_fmap. eapply Forall_impl; [exact Hi|]. intros i H. by apply setting_field. }
  revert o. induction items as [|i items IH]; intros o.
  - cbn. by destruct o.
  - inversion Hi; subst. cbn [fmap list_fmap comment_tokens]. rewrite comment_token_spec by (try done; apply Hg; left). cbn [mbind outcome_bind].
    rewrite IH, <- with_settings_cons; [done|done|]. intros j Hj. apply Hg. by right.
Qed.

(** A valid [min_gtid] writes past its block: the copy of a value of [l]
    bytes is terminated at position [l + 1] of a block of [l + 1] bytes. *)
Theorem min_gtid_overflows now block k v o :
  setting_ok (k, v) → strcasecmp_eq (norm k) (str "min_gtid") = true → is_valid_gtid (norm v) = true →
  length block = S (length (norm v)) →
  query_parser_first_comment now block (setting_text (k, v)) o = Fault OutOfBounds.
Proof.
  intros Hi Hk Hv Hb. unfold query_parser_first_comment. rewrite tokens_spec. cbn [mbind outcome_bind].
  destruct (setting_field _ Hi) as [Hne Hf]. rewrite <- (app_nil_r (setting_text (k, v))).
  rewrite fields_word; [|done|done|by left]. cbn [comment_tokens]. unfold comment_token. rewrite split_setting by done.
  destruct Hi as (_ & [Hk0 _] & [Hv0 _]). cbn [mbind outcome_bind fst snd] in *. rewrite !clean_norm by done. cbn [mbind outcome_bind].
  case_bool_decide as E; [by rewrite E in Hk|]. unfold comment_setting. rewrite Hk, Hv. cbn [andb]. unfold copy_gtid, write_at.
  rewrite length_app, length_drop, Hb. rewrite (proj2 (Z.leb_le _ _)) by lia. by rewrite orb_true_r.
Qed.

Lemma comment_applied_witness :
  query_parser_first_comment 0 [] (str "hostgroup=2; max_lag_ms = 500") init_output =
  Ok (init_output <| o_destination_hostgroup := 2 |> <| o_max_lag_ms := 500 |>).
Proof.
  apply (comment_applied 0 [] [(str "hostgroup", str "2"); (str " max_lag_ms ", str " 500")] init_output).
  - repeat constructor; try done; intros E; vm_compute in E; lia.
  - intros i [->|[->|H]%elem_of_cons]%elem_of_cons; [reflexivity | reflexivity | by apply elem_of_nil in H].
Defined.

Lemma min_gtid_overflows_witness :
  query_parser_first_comment 0 (repeat 0 11) (str "min_gtid=abc-1:1234") init_output = Fault OutOfBounds.
Proof.
  apply (min_gtid_overflows 0 (repeat 0 11) (str "min_gtid") (str "abc-1:1234") init_output); [|reflexivity|reflexivity|reflexivity].
  repeat constructor; done.
Defined.
