(* ===== verification/QPTables.v ===== *)
(** * Fast routing and the firewall white list
    (lib/Query_Processor.cpp: create_fast_routing_hashmap, the copy that every
    thread makes of it, search_rules_fast_routing_dest_hg,
    load_mysql_firewall_users, load_mysql_firewall_rules and their searches)

    Both are hash maps from strings glued together with a random delimiter.
    Strings are without their terminating zero unless they are in a buffer; the
    hash maps of the libraries are finite maps; memory accounting is left out. *)
From S2P Require Import Prelude StringUtils CNumbers QPComment.

(** ** Strings in a buffer *)

(** The C string at position [i]: reading on without a zero is out of bounds. *)
Definition c_string (buf : list Z) (i : nat) : outcome (list Z) :=
  let '(s, rest) := span (λ c, negb (c =? 0)) (drop i buf) in
  match rest with [] => Fault OutOfBounds | _ => Ok s end.
Definition copy_to (buf : list Z) (i : nat) (bytes : list Z) : outcome (list Z) :=
  if (length buf <? i + length bytes)%nat then Fault OutOfBounds
  else Ok (take i buf ++ bytes ++ drop (i + length bytes) buf).

(** [---], eight random letters or digits, [---] *)
Definition delimiter (random : list Z) : list Z := str "---" ++ random ++ str "---".

Section Tables.
Context (rand_del : list Z).

(** ** Fast routing *)
Record fast_row := mk_fast_row { f_username : list Z; f_schemaname : list Z; f_flagIN : list Z; f_hostgroup : list Z }.

Definition fast_key (user schema flag : list Z) : list Z := user ++ rand_del ++ schema ++ str "---" ++ flag.
Definition row_length (r : fast_row) : nat :=
  length (f_username r) + length (f_schemaname r) + length (f_flagIN r) + length (f_hostgroup r) + 2 + 3 + length rand_del.
Abbreviation routes := (gmap (list Z) Z).

(** One row: the key and the hostgroup go to [ptr], each with its zero. *)
Definition add_fast_row (r : fast_row) (st : routes * list Z * nat) : outcome (routes * list Z * nat) :=
  let '(m, buf, ptr) := st in
  let key := fast_key (f_username r) (f_schemaname r) (f_flagIN r) in
  buf ← copy_to buf ptr (key ++ [0]);
  key ← c_string buf ptr;
  let m := <[key := atoi (f_hostgroup r)]> m in
  let ptr := (ptr + length key + 1)%nat in
  buf ← copy_to buf ptr (f_hostgroup r ++ [0]);
  Ok (m, buf, (ptr + length (f_hostgroup r) + 1)%nat).
Fixpoint add_fast_rows (rs : list fast_row) (st : routes * list Z * nat) : outcome (routes * list Z * nat) :=
  match rs with [] => Ok st | r :: rs' => st ← add_fast_row r st; add_fast_rows rs' st end.

(** [garbage]: what malloc returns. *)
Definition create_fast_routing_hashmap (garbage : nat → list Z) (rs : list fast_row) : outcome (option routes * list Z) :=
  match rs with
  | [] => Ok (None, [])
  | _ => '(m, buf, _) ← add_fast_rows rs (∅, garbage (sum_list (row_length <$> rs)), 0%nat); Ok (Some m, buf)
  end.

(** A thread builds its own map from a copy of the buffer. *)
Fixpoint scan_keys_values (fuel : nat) (buf : list Z) (ptr : nat) (m : routes) : outcome routes :=
  if (ptr <? length buf)%nat then
    match fuel with
    | O => Fault Diverges
    | S fuel' =>
        key ← c_string buf ptr;
        let ptr2 := (ptr + length key + 1)%nat in
        hg ← c_string buf ptr2;
        scan_keys_values fuel' buf (ptr2 + length hg + 1)%nat (<[key := atoi hg]> m)
    end
  else Ok m.
Definition thread_fast_routing (keys_values : list Z) : outcome (option routes) :=
  match keys_values with [] => Ok None | _ => Some <$> scan_keys_values (length keys_values) keys_values 0 ∅ end.

(** The key is printed into a block of 256 bytes or, when it may be longer, of [keylen]. *)
Definition search_rules_fast_routing_dest_hg (m : routes) (u s : list Z) (flagIN : Z) : outcome Z :=
  let u_len := length u in
  let keylen := (u_len + length rand_del + length s + 30)%nat in
  let block := repeat 0 (if (256 <=? keylen)%nat then keylen else 256) in
  keybuf ← copy_to block 0 (fast_key u s (sdec flagIN) ++ [0]);
  k ← c_string keybuf 0;
  k2 ← c_string keybuf u_len;
  Ok (match m !! k with Some hg => hg | None => match m !! k2 with Some hg => hg | None => -1 end end).

(** ** The firewall *)

(** *** Users *)
Record user_row := mk_user_row { u_active : list Z; u_username : list Z; u_client : list Z; u_mode : list Z }.
Definition user_key (user client : list Z) : list Z := user ++ rand_del ++ client.
Definition mode_of (mode : list Z) : option Z :=
  if bool_decide (mode = str "DETECTING") then Some WUS_DETECTING
  else if bool_decide (mode = str "PROTECTING") then Some WUS_PROTECTING
  else if bool_decide (mode = str "OFF") then Some WUS_OFF
  else None.
Definition load_user (m : gmap (list Z) Z) (r : user_row) : gmap (list Z) Z :=
  if atoi (u_active r) =? 0 then m
  else
    let s := user_key (u_username r) (u_client r) in
    match m !! s with
    | Some old => <[s := default old (mode_of (u_mode r))]> m
    | None => <[s := if bool_decide (u_mode r = str "DETECTING") then WUS_DETECTING
                     else if bool_decide (u_mode r = str "PROTECTING") then WUS_PROTECTING else WUS_OFF]> m
    end.
(** Every entry is marked, the rows are loaded, entries still marked go away. *)
Definition load_mysql_firewall_users (rs : list user_row) (m : gmap (list Z) Z) : gmap (list Z) Z :=
  filter (λ e, e.2 ≠ WUS_NOT_FOUND) (foldl load_user ((λ _, WUS_NOT_FOUND) <$> m) rs).
Definition find_firewall_whitelist_user (m : gmap (list Z) Z) (user client : list Z) : Z :=
  default WUS_NOT_FOUND (m !! user_key user client).

(** *** Rules *)
Record rule_row := mk_rule_row { w_active : list Z; w_username : list Z; w_client : list Z; w_schema : list Z; w_flagIN : list Z; w_digest : list Z }.
Definition rule_key (user client schema flag : list Z) : list Z := user ++ rand_del ++ client ++ rand_del ++ schema ++ rand_del ++ flag.
Definition load_rule (m : gmap (list Z) (list Z)) (r : rule_row) : gmap (list Z) (list Z) :=
  if atoi (w_active r) =? 0 then m
  else
    let s := rule_key (w_username r) (w_client r) (w_schema r) (w_flagIN r) in
    <[s := default [] (m !! s) ++ [strtoull (w_digest r)]]> m.
(** The arrays are emptied, filled and sorted; empty ones go away. *)
Definition load_mysql_firewall_rules (rs : list rule_row) (m : gmap (list Z) (list Z)) : gmap (list Z) (list Z) :=
  match rs with
  | [] => ∅
  | _ => merge_sort Z.le <$> filter (λ e, e.2 ≠ []) (foldl load_rule ((λ _, []) <$> m) rs)
  end.

(** [bsearch]: [n] elements from position [lo]. *)
Fixpoint bsearch (fuel : nat) (key : Z) (l : list Z) (lo n : nat) : bool :=
  match fuel with
  | O => false
  | S fuel' =>
      if (n =? 0)%nat then false
      else
        let mid := (lo + n / 2)%nat in
        match l !! mid with
        | None => false
        | Some x =>
            if key <? x then bsearch fuel' key l lo (n / 2)
            else if x <? key then bsearch fuel' key l (S mid) (n - n / 2 - 1)
            else true
        end
  end.
Definition find_firewall_whitelist_rule (m : gmap (list Z) (list Z)) (user client schema : list Z) (flagIN digest : Z) : bool :=
  match m !! rule_key user client schema (sdec flagIN) with
  | Some digests => bsearch (S (length digests)) digest digests 0 (length digests)
  | None => false
  end.
End Tables.

(** ** Keys can be told apart *)
Definition without (random a : list Z) : Prop := ∀ p q, a ≠ p ++ random ++ q.

Section Keys.
Context (random : list Z) (Hlen : (2 ≤ length random)%nat) (Hdash : 45 ∉ random).
#[local] Set Default Proof Using "All".
Abbreviation D := (delimiter random).

Lemma delimiter_lookup i (y : list Z) : (i < 3)%nat → (D ++ y) !! i = Some 45.
Proof. intros Hi. unfold delimiter. change (str "---") with [45; 45; 45]. destruct i as [|[|[|i]]]; [done..|lia]. Qed.
Lemma delimiter_random i (y : list Z) c : (3 ≤ i < 3 + length random)%nat → (D ++ y) !! i = Some c → c ≠ 45.
Proof.
  intros Hi Hc ->. apply Hdash. unfold delimiter in Hc. rewrite <- !app_assoc in Hc. change (str "---") with [45; 45; 45] in Hc.
  rewrite (lookup_app_r [45; 45; 45]) in Hc by (cbn; lia). rewrite lookup_app_l in Hc by (cbn [length]; lia). by eapply list_elem_of_lookup_2.
Qed.

(** The delimiter does not start later in a string that continues with it. *)
Lemma delimiter_first k x y : k ++ D ++ x = D ++ y → k = [] ∨ ∃ q, k = str "---" ++ random ++ q.
Proof.
  intros E. destruct (decide (length k = 0)%nat) as [H0|H0]; [left; by apply nil_length_inv|right].
  assert (Hk : ∀ i, (i < 3)%nat → (D ++ y) !! (length k + i)%nat = Some 45).
  { intros i Hi. rewrite <- E, lookup_app_r by lia. replace (length k + i - length k)%nat with i by lia. by apply delimiter_lookup. }
  destruct (decide (length k < 3 + length random)%nat) as [Hs|Hs].
  - exfalso. destruct (decide (3 ≤ length k)%nat).
    + apply (delimiter_random (length k + 0) y 45); [lia|apply Hk; lia|done].
    + apply (delimiter_random (length k + (3 - length k)) y 45); [lia|apply Hk; lia|done].
  - exists (drop (3 + length random) k). unfold delimiter in E. rewrite <- !app_assoc in E.
    assert (take (3 + length random) (k ++ str "---" ++ random ++ str "---" ++ x) = str "---" ++ random) as Et.
    { rewrite E. rewrite app_assoc. apply take_app_length'. by rewrite length_app. }
    rewrite take_app_le in Et by lia. rewrite app_assoc, <- Et. symmetry. apply take_drop.
Qed.

Lemma delimiter_inj a b x y : without random a → without random b → a ++ D ++ x = b ++ D ++ y → a = b ∧ x = y.
Proof.
  assert (∀ a b x y, without random a → a ++ D ++ x = b ++ D ++ y → (length b ≤ length a)%nat → a = b) as H.
  { clear a b x y. intros a b x y Ha E Hl. apply app_eq_inv in E as [(k & -> & E)|(k & -> & E)].
    - symmetry in E. apply delimiter_first in E as [->|(q & ->)]; [by rewrite app_nil_r|]. exfalso.
      apply (Ha (b ++ str "---") q). by rewrite <- !app_assoc.
    - rewrite length_app in Hl. assert (k = []) as -> by (apply nil_length_inv; lia). by rewrite app_nil_r. }
  intros Ha Hb E. assert (a = b) as ->.
  { destruct (decide (length b ≤ length a)%nat) as [Hl|Hl]; [by eapply H|]. symmetry. eapply H; [done|by symmetry|lia]. }
  split; [done|]. by do 2 apply app_inv_head in E.
Qed.
Lemma without_nil : without random [].
Proof.
  intros p q E. symmetry in E. apply app_eq_nil in E as [_ E]. apply app_eq_nil in E as [E _]. rewrite E in Hlen. cbn in Hlen. lia.
Qed.
End Keys.

Lemma digits_end_inj a b d e : Forall (λ c, isdigit c = true) d → Forall (λ c, isdigit c = true) e →
  a ++ 45 :: d = b ++ 45 :: e → a = b ∧ d = e.
Proof.
  intros Hd He E. apply (f_equal reverse) in E. rewrite !reverse_app, !reverse_cons, <- !app_assoc in E.
  assert (∀ l r, Forall (λ c, isdigit c = true) l → span isdigit (reverse l ++ 45 :: r) = (reverse l, 45 :: r)) as Hs.
  { intros l r Hl. apply span_app; [by apply Forall_reverse | by intros c [= <-]]. }
  apply (f_equal (span isdigit)) in E. cbn [app] in E. rewrite !Hs in E by done. injection E as E1 E2.
  apply (f_equal reverse) in E1, E2. rewrite !reverse_involutive in E1, E2. done.
Qed.

Lemma dec_inj m n : 0 <= m < 10 ^ 20 → 0 <= n < 10 ^ 20 → dec m = dec n → m = n.
Proof. intros Hm Hn E. rewrite <- (digits_value_dec m), <- (digits_value_dec n) by done. by rewrite E. Qed.
Lemma digits_length fuel n acc : (length (digits fuel n acc) ≤ fuel + length acc)%nat.
Proof.
  revert n acc. induction fuel as [|fuel IH]; intros n acc; cbn [digits]; [lia|]. cbn zeta. destruct (n <? 10); [cbn; lia|].
  rewrite IH. cbn. lia.
Qed.

(** ** Buffers *)
Lemma c_string_at (pre s rest : list Z) : no_nul s → c_string (pre ++ s ++ 0 :: rest) (length pre) = Ok s.
Proof.
  intros Hs. unfold c_string. rewrite drop_app_length. rewrite span_app; [done| |by intros c [= <-]].
  eapply Forall_impl; [exact Hs|]. cbn. intros c Hc. by apply negb_true_iff, Z.eqb_neq.
Qed.
Lemma copy_to_at (pre bytes rest : list Z) : (length bytes ≤ length rest)%nat →
  copy_to (pre ++ rest) (length pre) bytes = Ok (pre ++ bytes ++ drop (length bytes) rest).
Proof.
  intros Hl. unfold copy_to. rewrite length_app, (proj2 (Nat.ltb_ge _ _)) by lia. rewrite take_app_length.
  rewrite drop_app_ge by lia. by replace (_ + _ - _)%nat with (length bytes) by lia.
Qed.

Section Routing.
Context (random : list Z) (Hlen : (2 ≤ length random)%nat) (Hdash : 45 ∉ random) (Hzero : no_nul random).
#[local] Set Default Proof Using "All".
Abbreviation D := (delimiter random).

(** A row of the table: strings of SQL, a number that is not negative. *)
Definition fast_row_ok (r : fast_row) : Prop :=
  no_nul (f_username r) ∧ no_nul (f_schemaname r) ∧ no_nul (f_hostgroup r) ∧ without random (f_username r) ∧
  ∃ n, 0 <= n < 2 ^ 31 ∧ f_flagIN r = dec n.
Definition row_key (r : fast_row) : list Z := fast_key D (f_username r) (f_schemaname r) (f_flagIN r).
Definition encoded (r : fast_row) : list Z := row_key r ++ 0 :: f_hostgroup r ++ [0].
Definition add_route (m : gmap (list Z) Z) (r : fast_row) : gmap (list Z) Z := <[row_key r := atoi (f_hostgroup r)]> m.

Lemma delimiter_no_nul : no_nul D.
Proof. unfold delimiter, no_nul. rewrite !Forall_app. split; [repeat constructor; done|]. split; [done | repeat constructor; done]. Qed.
Lemma digits_no_nul d : Forall (λ c, isdigit c = true) d → no_nul d.
Proof. intros H. eapply Forall_impl; [exact H|]. cbn. intros c Hc%isdigit_range. lia. Qed.
Lemma fast_key_no_nul u s f : no_nul u → no_nul s → no_nul f → no_nul (fast_key D u s f).
Proof.
  intros Hu Hs Hf. unfold fast_key, no_nul. rewrite !Forall_app. split_and!; try done; [apply delimiter_no_nul | repeat constructor; done].
Qed.
Lemma row_key_no_nul r : fast_row_ok r → no_nul (row_key r).
Proof.
  intros (Hu & Hs & _ & _ & n & _ & E). apply fast_key_no_nul; [done|done|]. rewrite E. apply digits_no_nul, dec_isdigit.
Qed.
Lemma encoded_length r : length (encoded r) = row_length D r.
Proof. unfold encoded, row_length, row_key, fast_key. rewrite !length_app. cbn. rewrite !length_app. cbn. lia. Qed.

Lemma add_fast_row_spec r m pre rest : fast_row_ok r → (row_length D r ≤ length rest)%nat →
  add_fast_row D r (m, pre ++ rest, length pre) =
  Ok (add_route m r, (pre ++ encoded r) ++ drop (row_length D r) rest, length (pre ++ encoded r)).
Proof.
  intros Ho Hl. pose proof (row_key_no_nul r Ho) as Hk. pose proof (encoded_length r) as El. unfold encoded in El. rewrite length_app in El.
  cbn [length] in El. rewrite length_app in El. cbn [length] in El. unfold add_fast_row.
  change (fast_key D (f_username r) (f_schemaname r) (f_flagIN r)) with (row_key r).
  rewrite copy_to_at by (rewrite length_app; cbn [length]; lia). cbn [mbind outcome_bind].
  set (rest1 := drop (length (row_key r ++ [0])) rest).
  assert (pre ++ (row_key r ++ [0]) ++ rest1 = pre ++ row_key r ++ 0 :: rest1) as -> by (by rewrite <- app_assoc).
  rewrite c_string_at by done. cbn [mbind outcome_bind].
  assert (pre ++ row_key r ++ 0 :: rest1 = (pre ++ row_key r ++ [0]) ++ rest1) as -> by (by rewrite <- !app_assoc).
  assert ((length pre + length (row_key r) + 1)%nat = length (pre ++ row_key r ++ [0])) as -> by (rewrite !length_app; cbn; lia).
  rewrite copy_to_at. 2: { unfold rest1. rewrite length_drop, !length_app. cbn [length]. lia. }
  cbn [mbind outcome_bind]. unfold rest1. rewrite drop_drop. 
  assert ((length (row_key r ++ [0%Z]) + length (f_hostgroup r ++ [0%Z]))%nat = row_length D r) as -> by (rewrite !length_app; cbn [length]; lia).
  assert ((length (pre ++ row_key r ++ [0%Z]) + length (f_hostgroup r) + 1)%nat = length (pre ++ encoded r)) as ->
    by (unfold encoded; rewrite !length_app; cbn [length]; rewrite length_app; cbn [length]; lia).
  unfold encoded. rewrite <- !app_assoc. cbn [app]. by rewrite <- !app_assoc.
Qed.

Lemma add_fast_rows_spec rs m pre rest : Forall fast_row_ok rs → length rest = sum_list (row_length D <$> rs) →
  add_fast_rows D rs (m, pre ++ rest, length pre) =
  Ok (foldl add_route m rs, pre ++ concat (encoded <$> rs), length (pre ++ concat (encoded <$> rs))).
Proof.
  revert m pre rest. induction rs as [|r rs IH]; intros m pre rest Hr Hl.
  { cbn in Hl |- *. apply nil_length_inv in Hl as ->. by rewrite !app_nil_r. }
  inversion Hr as [|? ? Ho Hr']; subst.
  assert (length rest = (row_length D r + sum_list (row_length D <$> rs))%nat) as Hl' by exact Hl. cbn [add_fast_rows].
  rewrite add_fast_row_spec by (done || lia). cbn [mbind outcome_bind]. rewrite IH by (done || (rewrite length_drop; lia)).
  cbn [foldl fmap list_fmap concat]. by rewrite <- !app_assoc.
Qed.

(** The thread reads the same rows back. *)
Lemma scan_spec rs m pre fuel : Forall fast_row_ok rs → (length rs ≤ fuel)%nat →
  scan_keys_values fuel (pre ++ concat (encoded <$> rs)) (length pre) m = Ok (foldl add_route m rs).
Proof.
  revert m pre fuel. induction rs as [|r rs IH]; intros m pre fuel Hr Hf.
  { cbn [fmap list_fmap concat]. rewrite app_nil_r. destruct fuel; cbn [scan_keys_values]; by rewrite Nat.ltb_irrefl. }
  inversion Hr as [|? ? Ho Hr']; subst. destruct fuel as [|fuel]; [cbn in Hf; lia|]. cbn [fmap list_fmap concat scan_keys_values].
  pose proof Ho as (_ & _ & Hh & _). pose proof (row_key_no_nul r Ho) as Hk.
  rewrite (proj2 (Nat.ltb_lt _ _)). 2: { rewrite !length_app. unfold encoded. rewrite length_app. cbn [length]. lia. }
  set (rest := concat (encoded <$> rs)).
  assert (pre ++ encoded r ++ rest = pre ++ row_key r ++ 0 :: (f_hostgroup r ++ [0]) ++ rest) as E1 by (unfold encoded; by rewrite <- app_assoc).
  assert (pre ++ encoded r ++ rest = (pre ++ row_key r ++ [0]) ++ f_hostgroup r ++ 0 :: rest) as E2
    by (rewrite E1, <- !app_assoc; done).
  rewrite E1 at 1. rewrite c_string_at by done. cbn [mbind outcome_bind]. rewrite E2 at 1.
  assert ((length pre + length (row_key r) + 1)%nat = length (pre ++ row_key r ++ [0%Z])) as -> by (rewrite !length_app; cbn; lia).
  rewrite c_string_at by done. cbn [mbind outcome_bind]. rewrite app_assoc.
  assert ((length (pre ++ row_key r ++ [0%Z]) + length (f_hostgroup r) + 1)%nat = length (pre ++ encoded r)) as ->
    by (unfold encoded; rewrite !length_app; cbn [length]; rewrite length_app; cbn [length]; lia).
  rewrite IH by (done || (cbn in Hf; lia)). done.
Qed.

(** ** What the routes are *)
Definition route_of (rs : list fast_row) (u s : list Z) (n : Z) : option Z :=
  last (omap (λ r, if bool_decide (f_username r = u ∧ f_schemaname r = s ∧ f_flagIN r = dec n)
                   then Some (atoi (f_hostgroup r)) else None) rs).

Lemma fast_key_inj u s n r : 0 <= n < 2 ^ 31 → without random u → fast_row_ok r →
  row_key r = fast_key D u s (dec n) ↔ f_username r = u ∧ f_schemaname r = s ∧ f_flagIN r = dec n.
Proof.
  intros Hn Hu (_ & _ & _ & Hw & n' & Hn' & Ef). split; [|by intros (<- & <- & <-)].
  intros E. unfold row_key, fast_key in E. apply delimiter_inj in E as [-> E]; [|done..].
  change (str "---") with ([45; 45] ++ [45]) in E. rewrite <- !app_assoc in E. cbn [app] in E.
  assert (∀ a f, a ++ 45 :: 45 :: 45 :: f = (a ++ [45; 45]) ++ 45 :: f) as Hsplit by (intros a f; by rewrite <- app_assoc).
  rewrite !Hsplit, Ef in E. apply digits_end_inj in E as [E <-]; [|apply dec_isdigit..]. by apply app_inv_tail in E.
Qed.

Lemma routes_lookup rs u s n : 0 <= n < 2 ^ 31 → without random u → Forall fast_row_ok rs →
  foldl add_route ∅ rs !! fast_key D u s (dec n) = route_of rs u s n.
Proof.
  intros Hn Hu Hr. unfold route_of. induction rs as [|r rs IH] using rev_ind; [done|].
  apply Forall_app in Hr as [Hr Ho]. inversion Ho as [|? ? Ho' _]; subst. clear Ho. rename Ho' into Ho. rewrite foldl_snoc, omap_app. cbn [omap list_omap].
  unfold add_route at 1. pose proof (fast_key_inj u s n r Hn Hu Ho) as Hk.
  destruct (decide (row_key r = fast_key D u s (dec n))) as [E|E].
  - rewrite E, lookup_insert_eq, (bool_decide_true _ (proj1 Hk E)). by rewrite last_snoc.
  - rewrite lookup_insert_ne by done. rewrite (bool_decide_false (_ ∧ _)) by (by rewrite <- Hk). rewrite app_nil_r. by apply IH.
Qed.

Lemma search_spec m u s n : 0 <= n < 2 ^ 31 → no_nul u → no_nul s →
  search_rules_fast_routing_dest_hg D m u s n =
  Ok (match m !! fast_key D u s (dec n) with Some hg => hg | None => default (-1) (m !! fast_key D [] s (dec n)) end).
Proof.
  intros Hn Hu Hs. unfold search_rules_fast_routing_dest_hg. cbn zeta. unfold sdec. rewrite (proj2 (Z.ltb_ge n 0)) by lia.
  set (block := repeat 0 _). pose proof (dec_isdigit n) as Hd.
  assert (no_nul (fast_key D u s (dec n))) as Hk by (apply fast_key_no_nul; [done|done|by apply digits_no_nul]).
  assert (length (fast_key D u s (dec n) ++ [0%Z]) ≤ length block)%nat as Hb.
  { unfold block. rewrite repeat_length. unfold fast_key. rewrite !length_app. cbn [length].
    assert (length (dec n) ≤ 20)%nat by (unfold dec; rewrite digits_length; cbn; lia). change (length (str "---")) with 3%nat.
    destruct (Nat.leb_spec 256 (length u + length D + length s + 30)); lia. }
  pose proof (copy_to_at [] _ _ Hb) as Ec. cbn [app length] in Ec. rewrite Ec. cbn [mbind outcome_bind].
  rewrite <- app_assoc. cbn [app]. set (tail := drop _ _).
  pose proof (c_string_at [] _ tail Hk) as E1. cbn [app length] in E1. rewrite E1. cbn [mbind outcome_bind].
  assert (fast_key D u s (dec n) = u ++ fast_key D [] s (dec n)) as -> by done. rewrite <- app_assoc.
  rewrite c_string_at. 2: { unfold fast_key in Hk. apply Forall_app in Hk as [_ Hk]. exact Hk. }
  cbn [mbind outcome_bind]. by destruct (m !! (u ++ _)), (m !! fast_key D [] s (dec n)).
Qed.

(** The hostgroup of a query in the configured rows, -1 without one. *)
Definition fast_route (rs : list fast_row) (u s : list Z) (n : Z) : Z :=
  match route_of rs u s n with Some hg => hg | None => default (-1) (route_of rs [] s n) end.

Lemma create_fast_spec garbage rs : (∀ k, length (garbage k) = k) → rs ≠ [] → Forall fast_row_ok rs →
  create_fast_routing_hashmap D garbage rs = Ok (Some (foldl add_route ∅ rs), concat (encoded <$> rs)).
Proof.
  intros Hg Hne Hr. unfold create_fast_routing_hashmap. destruct rs as [|r rs]; [done|].
  pose proof (add_fast_rows_spec (r :: rs) ∅ [] _ Hr (Hg (sum_list (row_length D <$> r :: rs)))) as E. cbn [app length] in E. by rewrite E.
Qed.
Lemma fast_route_found garbage rs m buf u s n : (∀ k, length (garbage k) = k) → rs ≠ [] → Forall fast_row_ok rs →
  create_fast_routing_hashmap D garbage rs = Ok (Some m, buf) → 0 <= n < 2 ^ 31 → no_nul u → no_nul s → without random u →
  search_rules_fast_routing_dest_hg D m u s n = Ok (fast_route rs u s n).
Proof.
  intros Hg Hne Hr E Hn Hu Hs Hw. rewrite create_fast_spec in E by done. injection E as <- _. rewrite search_spec by done.
  pose proof (without_nil random Hlen Hdash). by rewrite !routes_lookup.
Qed.

(** Fast routing is an exact table lookup. From any rows whose strings hold
    no zero byte and whose user names do not hold the random part of the
    delimiter, the buffer that is allocated is filled exactly, whatever malloc
    returns, and the map that a thread builds from its copy of the buffer is the
    map that was built with it. A search then gives the hostgroup of the last
    row with this user, schema and flag, without one that of the last row with
    no user, and without one -1: no two triples collide and the key never
    leaves its buffer. *)
Theorem fast_routing_exact garbage rs u s n :
  (∀ k, length (garbage k) = k) → rs ≠ [] → Forall fast_row_ok rs →
  0 <= n < 2 ^ 31 → no_nul u → no_nul s → without random u →
  ∃ m buf, create_fast_routing_hashmap D garbage rs = Ok (Some m, buf) ∧
    length buf = sum_list (row_length D <$> rs) ∧
    thread_fast_routing buf = Ok (Some m) ∧
    search_rules_fast_routing_dest_hg D m u s n =
      Ok (match route_of rs u s n with Some hg => hg | None => default (-1) (route_of rs [] s n) end).
Proof.
  intros Hg Hne Hr Hn Hu Hs Hw. exists (foldl add_route ∅ rs), (concat (encoded <$> rs)).
  assert (Forall (λ r, 0 < length (encoded r))%nat rs) as Hpos.
  { apply Forall_forall. intros r _. unfold encoded. rewrite length_app. cbn [length]. lia. }
  pose proof (without_nil random Hlen Hdash) as Hw0.
  split; [by apply create_fast_spec|].
  assert (length (concat (encoded <$> rs)) = sum_list (row_length D <$> rs)) as El.
  { clear -Hlen Hdash Hzero. induction rs as [|r rs IH]; [done|].
    change (concat (encoded <$> r :: rs)) with (encoded r ++ concat (encoded <$> rs)). by rewrite length_app, encoded_length, IH. }
  split; [done|]. split.
  - unfold thread_fast_routing. destruct (concat (encoded <$> rs)) as [|b buf] eqn:Eb.
    { destruct rs as [|r rs]; [done|]. cbn in Eb. apply app_eq_nil in Eb as [Eb _]. inversion Hpos as [|? ? Hp _]; subst. rewrite Eb in Hp. cbn in Hp. lia. }
    pose proof (scan_spec rs ∅ [] (length (b :: buf)) Hr) as E. cbn [app length] in E. rewrite Eb in E. change (length []) with 0%nat in E. change (length (b :: buf)) with (S (length buf)). rewrite E; [done|].
    change (S (length buf)) with (length (b :: buf)). rewrite El.
    clear -Hpos Hlen Hdash Hzero. induction Hpos as [|r rs Hp Hpos IH]; [done|]. rewrite encoded_length in Hp.
    change (length (r :: rs)) with (S (length rs)).
    change (sum_list (row_length D <$> r :: rs)) with (row_length D r + sum_list (row_length D <$> rs))%nat. lia.
  - rewrite search_spec by done. by rewrite !routes_lookup.
Qed.
End Routing.

(** ** The firewall's answers *)
(** [bsearch] finds what is there, in an array in order. *)
Lemma bsearch_spec fuel key l lo n :
  (∀ i j x y, (i ≤ j)%nat → l !! i = Some x → l !! j = Some y → x ≤ y) → (lo + n ≤ length l)%nat → (n < fuel)%nat →
  bsearch fuel key l lo n = true ↔ ∃ i, (lo ≤ i < lo + n)%nat ∧ l !! i = Some key.
Proof.
  intros Hs. revert lo n. induction fuel as [|fuel IH]; intros lo n Hl Hf; [lia|]. cbn [bsearch].
  destruct (Nat.eqb_spec n 0) as [->|Hn]. { split; [done|]. intros (i & Hi & _). lia. }
  pose proof (Nat.div_mod_eq n 2). pose proof (Nat.mod_upper_bound n 2 ltac:(lia)). cbn zeta.
  destruct (lookup_lt_is_Some_2 l (lo + n / 2)) as [x Ex]; [lia|]. rewrite Ex.
  destruct (Z.ltb_spec key x); [|destruct (Z.ltb_spec x key)].
  - rewrite IH by lia. split; intros (i & Hi & Ei); exists i; (split; [|done]); [lia|].
    destruct (decide (lo + n / 2 ≤ i)%nat) as [Hi'|]; [|lia]. pose proof (Hs _ _ _ _ Hi' Ex Ei). lia.
  - rewrite IH by lia. split; intros (i & Hi & Ei); exists i; (split; [|done]); [lia|].
    destruct (decide (i ≤ lo + n / 2)%nat) as [Hi'|]; [|lia]. pose proof (Hs _ _ _ _ Hi' Ei Ex). lia.
  - split; [|done]. intros _. exists (lo + n / 2)%nat. split; [lia|]. rewrite Ex. f_equal. lia.
Qed.

Lemma bsearch_sorted key l : bsearch (S (length l)) key (merge_sort Z.le l) 0 (length l) = bool_decide (key ∈ l).
Proof.
  apply eq_true_iff_eq. rewrite bool_decide_eq_true. pose proof (merge_sort_Permutation Z.le l) as Hp. rewrite bsearch_spec.
  - rewrite <- (Hp : _ ≡ₚ l), list_elem_of_lookup. split; [intros (i & _ & E); by exists i|].
    intros [i E]. exists i. split; [|done]. apply lookup_lt_Some in E. rewrite Hp in E. lia.
  - pose proof (StronglySorted_merge_sort Z.le l) as Hs. generalize dependent (merge_sort Z.le l). clear. intros sorted Hp Hs. clear Hp.
    induction Hs as [|a sorted Hs IH Ha]; intros i j x y Hij Hi Hj; [done|]. destruct i as [|i], j as [|j]; [simplify_eq/=; lia| |lia|].
    + cbn in Hi, Hj. injection Hi as <-. eapply Forall_lookup in Ha; [exact Ha|exact Hj].
    + eapply (IH i j); [lia|done|done].
  - rewrite Hp. lia.
  - lia.
Qed.

Section Firewall.
Context (random : list Z) (Hlen : (2 ≤ length random)%nat) (Hdash : 45 ∉ random).
#[local] Set Default Proof Using "All".
Abbreviation D := (delimiter random).

Definition user_row_ok (r : user_row) : Prop :=
  atoi (u_active r) = 0 ∨ (without random (u_username r) ∧ is_Some (mode_of (u_mode r))).
Definition rule_row_ok (r : rule_row) : Prop :=
  without random (w_username r) ∧ without random (w_client r) ∧ without random (w_schema r).
(** The mode of the last active row of a user. *)
Definition user_mode_of (rs : list user_row) (u c : list Z) : option Z :=
  last (omap (λ r, if bool_decide (atoi (u_active r) ≠ 0 ∧ u_username r = u ∧ u_client r = c) then mode_of (u_mode r) else None) rs).
(** An active row allows the digest. *)
Definition allows (u c s : list Z) (n d : Z) (r : rule_row) : Prop :=
  atoi (w_active r) ≠ 0 ∧ w_username r = u ∧ w_client r = c ∧ w_schema r = s ∧ w_flagIN r = sdec n ∧ strtoull (w_digest r) = d.

Lemma mode_of_found mode v : mode_of mode = Some v → v ≠ WUS_NOT_FOUND.
Proof. unfold mode_of. intros H. repeat case_bool_decide; by simplify_eq. Qed.

Lemma load_user_lookup m r u c : user_row_ok r → without random u →
  load_user D m r !! user_key D u c =
  if bool_decide (atoi (u_active r) ≠ 0 ∧ u_username r = u ∧ u_client r = c) then mode_of (u_mode r) else m !! user_key D u c.
Proof.
  intros Hr Hu. unfold load_user. destruct (Z.eqb_spec (atoi (u_active r)) 0) as [E0|E0].
  { by rewrite bool_decide_false by tauto. }
  destruct Hr as [?|(Hw & v & Ev)]; [done|]. rewrite Ev. cbn zeta.
  assert (user_key D (u_username r) (u_client r) = user_key D u c ↔ u_username r = u ∧ u_client r = c) as Hk.
  { split; [|by intros (<- & <-)]. intros E. by apply delimiter_inj in E. }
  set (k := user_key D (u_username r) (u_client r)) in *.
  assert (∀ w, Some w = Some v → (<[k := w]> m : gmap _ _) !! user_key D u c =
    if bool_decide (atoi (u_active r) ≠ 0 ∧ u_username r = u ∧ u_client r = c) then Some v else m !! user_key D u c) as Hi.
  { intros w [= ->]. case_bool_decide as Hb.
    - rewrite (proj2 Hk) by tauto. apply lookup_insert_eq.
    - apply lookup_insert_ne. rewrite Hk. tauto. }
  destruct (m !! k); apply Hi; [done|]. unfold mode_of in Ev. repeat case_bool_decide; by simplify_eq.
Qed.

Lemma load_users_lookup rs m u c : Forall user_row_ok rs → without random u →
  foldl (load_user D) m rs !! user_key D u c = match user_mode_of rs u c with Some v => Some v | None => m !! user_key D u c end.
Proof.
  intros Hr Hu. unfold user_mode_of. induction rs as [|r rs IH] using rev_ind; [done|].
  apply Forall_app in Hr as [Hr Ho]. inversion Ho as [|? ? Ho' _]; subst. rewrite foldl_snoc, load_user_lookup, omap_app by done.
  cbn [omap list_omap]. case_bool_decide as Hb; [|by rewrite app_nil_r; apply IH].
  destruct Ho' as [?|(_ & v & ->)]; [tauto|]. by rewrite last_snoc.
Qed.

Lemma load_rules_lookup rs m k :
  default [] (foldl (load_rule D) m rs !! k) = default [] (m !! k) ++
  omap (λ r, if bool_decide (atoi (w_active r) ≠ 0 ∧ rule_key D (w_username r) (w_client r) (w_schema r) (w_flagIN r) = k)
             then Some (strtoull (w_digest r)) else None) rs.
Proof.
  induction rs as [|r rs IH] using rev_ind; [by rewrite app_nil_r|]. rewrite foldl_snoc, omap_app, app_assoc, <- IH.
  cbn [omap list_omap]. unfold load_rule at 1. destruct (Z.eqb_spec (atoi (w_active r)) 0) as [E0|E0].
  { rewrite bool_decide_false by tauto. by rewrite app_nil_r. }
  cbn zeta. case_bool_decide as Hb.
  - destruct Hb as [_ Hb]. by rewrite Hb, lookup_insert_eq.
  - rewrite lookup_insert_ne by tauto. by rewrite app_nil_r.
Qed.

Lemma rule_key_inj r u c s n : rule_row_ok r → without random u → without random c → without random s →
  rule_key D (w_username r) (w_client r) (w_schema r) (w_flagIN r) = rule_key D u c s (sdec n) ↔
  w_username r = u ∧ w_client r = c ∧ w_schema r = s ∧ w_flagIN r = sdec n.
Proof.
  intros (H1 & H2 & H3) Hu Hc Hs. split; [|by intros (<- & <- & <- & <-)]. unfold rule_key. intros E.
  apply delimiter_inj in E as [-> E]; [|done..]. apply delimiter_inj in E as [-> E]; [|done..].
  by apply delimiter_inj in E as [-> E].
Qed.

Lemma rules_found rs m u c s n d : Forall rule_row_ok rs → without random u → without random c → without random s →
  find_firewall_whitelist_rule D (load_mysql_firewall_rules D rs m) u c s n d = true ↔ Exists (allows u c s n d) rs.
Proof.
  intros Hr Hu Hc Hs. unfold load_mysql_firewall_rules. destruct rs as [|r rs]; [by rewrite Exists_nil|].
  remember (r :: rs) as rows eqn:Erows. clear Erows r rs. unfold find_firewall_whitelist_rule. set (k := rule_key D u c s (sdec n)).
  set (raw := foldl (load_rule D) ((λ _ : list Z, []) <$> m) rows).
  assert (match (merge_sort Z.le <$> filter (λ e : list Z * list Z, e.2 ≠ []) raw) !! k with
          | Some digests => bsearch (S (length digests)) d digests 0 (length digests) | None => false end
          = bool_decide (d ∈ default [] (raw !! k))) as ->.
  { rewrite lookup_fmap. destruct (raw !! k) as [l|] eqn:El.
    - destruct (decide (l = [])) as [->|Hl].
      + rewrite (proj2 (map_lookup_filter_None _ _ _)). { done. } right. intros l' E' Hn. by simplify_eq.
      + rewrite (proj2 (map_lookup_filter_Some _ _ _ l)) by done. cbn [fmap option_fmap option_map default].
        rewrite (Permutation_length (merge_sort_Permutation Z.le l)). apply bsearch_sorted.
    - rewrite (proj2 (map_lookup_filter_None _ _ _)) by (by left). done. }
  rewrite bool_decide_eq_true. unfold raw. rewrite load_rules_lookup, lookup_fmap.
  assert (default [] ((λ _ : list Z, []) <$> m !! k) = @nil Z) as -> by (by destruct (m !! k)). cbn [app].
  rewrite list_elem_of_omap, Exists_exists. split.
  - intros (r & Hin & E). exists r. split; [done|]. case_bool_decide as Hb; [|done]. injection E as E.
    rewrite Forall_forall in Hr. destruct Hb as [Ha Hk]. apply rule_key_inj in Hk; [|by apply Hr|done..]. unfold allows. tauto.
  - intros (r & Hin & Ha & H1 & H2 & H3 & H4 & E). exists r. split; [done|]. rewrite Forall_forall in Hr.
    rewrite bool_decide_true; [by rewrite E|]. split; [done|]. apply rule_key_inj; [by apply Hr|tauto..].
Qed.

Lemma users_found users old_users u c : Forall user_row_ok users → without random u →
  find_firewall_whitelist_user D (load_mysql_firewall_users D users old_users) u c = default WUS_NOT_FOUND (user_mode_of users u c).
Proof.
  intros Hur Hu. unfold find_firewall_whitelist_user, load_mysql_firewall_users.
  set (m := foldl _ _ _). assert (m !! user_key D u c = match user_mode_of users u c with
    | Some v => Some v | None => (λ _ : Z, WUS_NOT_FOUND) <$> (old_users !! user_key D u c) end) as Em.
  { unfold m. rewrite load_users_lookup by done. by rewrite lookup_fmap. }
  destruct (user_mode_of users u c) as [v|] eqn:Ev.
  - rewrite (proj2 (map_lookup_filter_Some _ _ _ v)); [done|]. split; [done|]. unfold user_mode_of in Ev.
    apply last_Some_elem_of, list_elem_of_omap in Ev as (r & _ & Er). case_bool_decide; [|done]. by apply mode_of_found in Er.
  - rewrite (proj2 (map_lookup_filter_None _ _ _)); [done|]. destruct (m !! user_key D u c) as [v|] eqn:Em'; [right|by left].
    intros v' Hv Hne. cbn in Hne. destruct (old_users !! user_key D u c); by simplify_eq/=.
Qed.
Lemma user_mode_found users u c v : user_mode_of users u c = Some v → v ≠ WUS_NOT_FOUND.
Proof.
  unfold user_mode_of. intros Ev. apply last_Some_elem_of, list_elem_of_omap in Ev as (r & _ & Er). case_bool_decide; [|done]. by apply mode_of_found in Er.
Qed.

(** The firewall's white list holds what its tables say, whatever was loaded
    before: a user from an address has the mode of the last active row with that
    user and address, or is not found, and a digest is allowed, found by binary
    search in the sorted array of its key, exactly when some active row has that
    user, address, schema, flag and digest. *)
Theorem firewall_exact users rules old_users old_rules u c s n d :
  Forall user_row_ok users → Forall rule_row_ok rules → without random u → without random c → without random s →
  find_firewall_whitelist_user D (load_mysql_firewall_users D users old_users) u c = default WUS_NOT_FOUND (user_mode_of users u c) ∧
  (find_firewall_whitelist_rule D (load_mysql_firewall_rules D rules old_rules) u c s n d = true ↔ Exists (allows u c s n d) rules).
Proof.
  intros Hur Hrr Hu Hc Hs. split; [by apply users_found|by apply rules_found].
Qed.
End Firewall.

(** ** Witnesses *)
Definition example_random : list Z := str "aB3dE5gH".
Lemma without_check random a : forallb (λ i, negb (bool_decide (take (length random) (drop i a) = random))) (seq 0 (S (length a))) = true → without random a.
Proof.
  intros H p q ->. assert (Is_true (forallb (λ i, negb (bool_decide (take (length random) (drop i (p ++ random ++ q)) = random))) (seq 0 (S (length (p ++ random ++ q)))))) as Hf by (by rewrite H).
  apply Is_true_true, forallb_forall with (x := length p) in Hf. 2: { apply in_seq. rewrite length_app. lia. }
  rewrite drop_app_length, take_app_length in Hf. by rewrite bool_decide_true in Hf.
Qed.

Lemma fast_routing_exact_witness :
  let rs := [mk_fast_row (str "app") (str "shop") (str "0") (str "4"); mk_fast_row [] (str "shop") (str "0") (str "7");
             mk_fast_row (str "app") (str "shop") (str "0") (str "5")] in
  ∃ m buf, create_fast_routing_hashmap (delimiter example_random) (λ n, repeat 1 n) rs = Ok (Some m, buf) ∧
    length buf = sum_list (row_length (delimiter example_random) <$> rs) ∧
    thread_fast_routing buf = Ok (Some m) ∧
    search_rules_fast_routing_dest_hg (delimiter example_random) m (str "app") (str "shop") 0 = Ok 5.
Proof.
  cbv zeta. set (rs := [_; _; _]).
  refine (fast_routing_exact example_random _ _ _ (λ n, repeat 1 n) rs (str "app") (str "shop") 0 _ _ _ _ _ _ _).
  - apply (bool_decide_unpack _). vm_compute. exact I.
  - apply (bool_decide_unpack _). vm_compute. exact I.
  - repeat (constructor; [done|]). constructor.
  - intros k. apply repeat_length.
  - discriminate.
  - assert (∀ u h, no_nul u → no_nul h → without example_random u → fast_row_ok example_random (mk_fast_row u (str "shop") (str "0") h)) as H.
    { intros u h Hu Hh Hw. split; [exact Hu|]. split; [repeat (constructor; [done|]); constructor|]. split; [exact Hh|]. split; [exact Hw|].
      exists 0. split; [lia|reflexivity]. }
    repeat (constructor; [apply H; [repeat (constructor; [done|]); constructor..|apply without_check; vm_compute; reflexivity]|]). constructor.
  - lia.
  - repeat (constructor; [done|]). constructor.
  - repeat (constructor; [done|]). constructor.
  - apply without_check. vm_compute. reflexivity.
Defined.

Lemma firewall_exact_witness :
  let users := [mk_user_row (str "1") (str "app") (str "10.0.0.1") (str "DETECTING"); mk_user_row (str "0") (str "app") (str "10.0.0.1") (str "OFF")] in
  let rules := [mk_rule_row (str "1") (str "app") (str "10.0.0.1") (str "shop") (str "0") (str "0xFF");
                mk_rule_row (str "1") (str "app") (str "10.0.0.1") (str "shop") (str "0") (str "0x0A")] in
  let D := delimiter example_random in
  find_firewall_whitelist_user D (load_mysql_firewall_users D users {[user_key D (str "old") [] := WUS_PROTECTING]}) (str "app") (str "10.0.0.1") = WUS_DETECTING ∧
  (find_firewall_whitelist_rule D (load_mysql_firewall_rules D rules ∅) (str "app") (str "10.0.0.1") (str "shop") 0 255 = true ↔
   Exists (allows (str "app") (str "10.0.0.1") (str "shop") 0 255) rules) ∧
  Exists (allows (str "app") (str "10.0.0.1") (str "shop") 0 255) rules.
Proof.
  cbv zeta. assert (∀ a, forallb (λ i, negb (bool_decide (take (length example_random) (drop i a) = example_random))) (seq 0 (S (length a))) = true → without example_random a) as Hw.
  { intros a. apply without_check. }
  set (users := [_; _]). set (rules := [mk_rule_row _ _ _ _ _ _; _]).
  assert (Exists (allows (str "app") (str "10.0.0.1") (str "shop") 0 255) rules) as He.
  { left. split; [vm_compute; discriminate|]. repeat (split; [reflexivity|]). vm_compute. reflexivity. }
  destruct (firewall_exact example_random ltac:(apply (bool_decide_unpack _); vm_compute; exact I) ltac:(apply (bool_decide_unpack _); vm_compute; exact I)
    users rules {[user_key (delimiter example_random) (str "old") [] := WUS_PROTECTING]} ∅ (str "app") (str "10.0.0.1") (str "shop") 0 255) as [Hu Hr].
  - constructor; [right; split; [apply Hw; vm_compute; reflexivity|by eexists]|]. constructor; [by left|constructor].
  - repeat (constructor; [split; [apply Hw; vm_compute; reflexivity|]; split; apply Hw; vm_compute; reflexivity|]). constructor.
  - apply Hw. vm_compute. reflexivity.
  - apply Hw. vm_compute. reflexivity.
  - apply Hw. vm_compute. reflexivity.
  - split; [|split; [exact Hr|exact He]]. rewrite Hu. vm_compute. reflexivity.
Defined.
