(* ===== verification/QPRules.v ===== *)
(** * Query rules: the table and the copies of the threads
    (lib/Query_Processor.cpp: new_query_rule, compile_query_rule, insert, sort,
    commit, reset_all, __reset_rules, the refresh at the start of
    process_mysql_query, load_fast_routing, update_query_processor_stats;
    lib/ProxySQL_Admin.cpp: load_mysql_query_rules_to_runtime)

    The table holds pointers to rules.  Every thread works on its own copy of
    the active rules, made from the text of each rule when the version of the
    table has moved on, and adds the hits it counted to the rules of the table
    through a pointer to the parent.  The rules of the table live in an explicit
    heap, so that a stale parent is a fault.  Compiled regular expressions are
    their source and options; the JSON library is a parameter; the memory
    accounting and the tables that only report are left out. *)
From S2P Require Import Prelude StringUtils Tokenizer CNumbers LionRouter QPComment QPTables.

(** ** Rules *)

(** The fields that [new_query_rule] copies as they are. *)
Record rule_conf := mk_conf {
  rule_id : Z; active : bool; username : option (list Z); schemaname : option (list Z); flagIN : Z;
  client_addr : option (list Z); proxy_addr : option (list Z); proxy_port : Z;
  match_digest : option (list Z); match_pattern : option (list Z); negate_match_pattern : bool;
  flagOUT : Z; replace_pattern : option (list Z); destination_hostgroup : Z;
  cache_ttl : Z; cache_empty_result : Z; cache_timeout : Z; reconnect : Z; timeout : Z; retries : Z; delay : Z;
  next_query_flagIN : Z; mirror_flagOUT : Z; mirror_hostgroup : Z; error_msg : option (list Z); OK_msg : option (list Z);
  sticky_conn : Z; multiplex : Z; gtid_from_hostgroup : Z; log : Z; apply : bool;
  attributes : option (list Z); comment : option (list Z)
}.

(** [re2_t]: [re2] tells the library. *)
Record re2_t := mk_re2 { re2 : bool; caseless : bool; pattern : list Z }.

(** [flagOUT_ids] and [flagOUT_weights] are [NULL] together. *)
Record QP_rule_t := mk_rule {
  conf :> rule_conf;
  client_addr_wildcard_position : Z;
  digest : Z;
  re_modifiers : Z;
  flagOUTs : option (list Z * list Z);
  flagOUT_weights_total : Z;
  regex_engine1 : option re2_t;
  regex_engine2 : option re2_t;
  hits : Z;
  parent : option Z
}.
#[export] Instance QP_rule_t_eta : Eta QP_rule_t := λ r,
  mk_rule (conf r) (client_addr_wildcard_position r) (digest r) (re_modifiers r) (flagOUTs r) (flagOUT_weights_total r)
    (regex_engine1 r) (regex_engine2 r) (hits r) (parent r).

Definition QP_RE_MOD_CASELESS : Z := 1.
Definition QP_RE_MOD_GLOBAL : Z := 2.

(** Kinds of JSON values. *)
Class JsonKinds (J : Type) := {
  json_is_array : J → bool;
  json_is_unsigned : J → bool
}.

(** The flags of [re_modifiers]: a token counts by how it starts. *)
Definition modifier (m : Z) (token : list Z) : Z :=
  let m := if prefix_ci (str "CASELESS") token then Z.lor m QP_RE_MOD_CASELESS else m in
  if prefix_ci (str "GLOBAL") token then Z.lor m QP_RE_MOD_GLOBAL else m.
Definition parse_modifiers (text : option (list Z)) : outcome Z :=
  ts ← tokens (str ",") (default [] text); Ok (foldl modifier 0 ts).

(** Where the percent sign of an address is, -1 without one. *)
Definition wildcard_position (addr : option (list Z)) : Z :=
  match addr with
  | None => -1
  | Some a => match span (λ c, negb (c =? 37)) a with (p, _ :: _) => Z.of_nat (length p) | (_, []) => -1 end
  end.

(** A digest that cannot be read is none. *)
Definition parse_digest (text : option (list Z)) : Z :=
  match text with
  | None => 0
  | Some t => let num := strtoull t in if negb (num =? ULLONG_MAX) && negb (num =? 0) then num else 0
  end.

(** A row of the table of the admin interface. *)
Abbreviation row := (list (option (list Z))).

Section Rules.
Context {J : Type} `{HJ : Json J} `{HK : JsonKinds J}.

(** *** The weighted flags in the attributes *)
Definition parse_flagOUT (acc : list Z * list Z * Z) (j : J) : outcome (list Z * list Z * Z) :=
  match json_find j (str "id"), json_find j (str "weight") with
  | Some _, Some _ =>
      id ← json_at_key j (str "id");
      weight ← json_at_key j (str "weight");
      if json_is_unsigned id && json_is_unsigned weight then
        id ← json_get_int id;
        weight ← json_get_int weight;
        Ok (acc.1.1 ++ [id], acc.1.2 ++ [weight], i32 (acc.2 + weight))
      else Ok acc
  | _, _ => Ok acc
  end.
Fixpoint parse_flagOUTs (js : list J) (acc : list Z * list Z * Z) : outcome (list Z * list Z * Z) :=
  match js with [] => Ok acc | j :: js' => acc ← parse_flagOUT acc j; parse_flagOUTs js' acc end.
Definition parse_attributes (attributes : option (list Z)) : outcome (option (list Z * list Z) * Z) :=
  match attributes with
  | None | Some [] => Ok (None, 0)
  | Some text =>
      j_attributes ← json_parse (J := J) text;
      match json_find j_attributes (str "flagOUTs") with
      | None => Ok (None, 0)
      | Some _ =>
          flagOUTs ← json_member j_attributes (str "flagOUTs");
          if json_is_array flagOUTs then
            '(ids, weights, total) ← parse_flagOUTs (json_values flagOUTs) ([], [], 0);
            Ok (Some (ids, weights), total)
          else Ok (Some ([], []), 0)
      end
  end.

(** The parameters, in the order of the source. *)
Definition new_query_rule
    (rule_id : Z) (active : bool) (username schemaname : option (list Z)) (flagIN : Z)
    (client_addr proxy_addr : option (list Z)) (proxy_port : Z)
    (digest match_digest match_pattern : option (list Z)) (negate_match_pattern : bool)
    (re_modifiers : option (list Z)) (flagOUT : Z) (replace_pattern : option (list Z))
    (destination_hostgroup cache_ttl cache_empty_result cache_timeout reconnect timeout retries delay next_query_flagIN mirror_flagOUT mirror_hostgroup : Z)
    (error_msg OK_msg : option (list Z)) (sticky_conn multiplex gtid_from_hostgroup log : Z) (apply : bool)
    (attributes comment : option (list Z)) : outcome QP_rule_t :=
  re_modifiers ← parse_modifiers re_modifiers;
  '(flagOUTs, total) ← parse_attributes attributes;
  Ok (mk_rule
    (mk_conf rule_id active username schemaname flagIN client_addr proxy_addr proxy_port match_digest match_pattern
      negate_match_pattern flagOUT replace_pattern destination_hostgroup cache_ttl cache_empty_result
      cache_timeout reconnect timeout retries delay next_query_flagIN mirror_flagOUT mirror_hostgroup
      error_msg OK_msg sticky_conn multiplex gtid_from_hostgroup log apply attributes comment)
    (wildcard_position client_addr) (parse_digest digest) re_modifiers flagOUTs total None None 0 None).

(** *** Copies for the threads *)
Definition has (modifiers flag : Z) : bool := Z.land modifiers flag =? flag.
Definition compile_query_rule (mysql_thread___query_processor_regex : Z) (qr : QP_rule_t) (pattern : list Z) : re2_t :=
  mk_re2 (mysql_thread___query_processor_regex =? 2) (has (re_modifiers qr) QP_RE_MOD_CASELESS) pattern.
Definition re_mod (modifiers : Z) : list Z :=
  let m := if has modifiers QP_RE_MOD_CASELESS then str "CASELESS" else [] in
  if has modifiers QP_RE_MOD_GLOBAL then (if bool_decide (m = []) then m else m ++ str ",") ++ str "GLOBAL" else m.

Definition copy_rule (regex : Z) (addr : Z) (qr1 : QP_rule_t) : outcome QP_rule_t :=
  qr2 ← new_query_rule
    (rule_id qr1) (active qr1) (username qr1) (schemaname qr1) (flagIN qr1) (client_addr qr1)
    (proxy_addr qr1) (proxy_port qr1) (if digest qr1 =? 0 then None else Some (hex16 (digest qr1)))
    (match_digest qr1) (match_pattern qr1) (negate_match_pattern qr1) (Some (re_mod (re_modifiers qr1)))
    (flagOUT qr1) (replace_pattern qr1) (destination_hostgroup qr1) (cache_ttl qr1) (cache_empty_result qr1)
    (cache_timeout qr1) (reconnect qr1) (timeout qr1) (retries qr1) (delay qr1) (next_query_flagIN qr1)
    (mirror_flagOUT qr1) (mirror_hostgroup qr1) (error_msg qr1) (OK_msg qr1) (sticky_conn qr1)
    (multiplex qr1) (gtid_from_hostgroup qr1) (log qr1) (apply qr1) (attributes qr1) (comment qr1);
  let qr2 := qr2 <| parent := Some addr |> in
  let qr2 := qr2 <| regex_engine1 := compile_query_rule regex qr2 <$> match_digest qr2 |> in
  Ok (qr2 <| regex_engine2 := compile_query_rule regex qr2 <$> match_pattern qr2 |>).

(** ** The table *)
Record Query_Processor := mk_qp {
  rules : list Z;
  objects : gmap Z QP_rule_t;
  next_address : Z;
  version : Z;
  rules_fast_routing : option (gmap (list Z) Z);
  rules_fast_routing___keys_values : list Z
}.
#[export] Instance Query_Processor_eta : Eta Query_Processor := λ q,
  mk_qp (rules q) (objects q) (next_address q) (version q) (rules_fast_routing q) (rules_fast_routing___keys_values q).
Record qp_thread := mk_thread {
  _thr_SQP_version : Z;
  _thr_SQP_rules : list QP_rule_t;
  _thr_SQP_rules_fast_routing : option (gmap (list Z) Z)
}.
Definition init_qp : Query_Processor := mk_qp [] ∅ 0 0 None [].
Definition init_thread : qp_thread := mk_thread 0 [] None.

Definition get_rule (q : Query_Processor) (a : Z) : outcome QP_rule_t :=
  match objects q !! a with Some r => Ok r | None => Fault OutOfBounds end.

(** [new_query_rule] and [insert] *)
Definition insert_rule (r : QP_rule_t) (q : Query_Processor) : Query_Processor :=
  q <| rules := rules q ++ [next_address q] |> <| objects := <[next_address q := r]> (objects q) |> <| next_address := next_address q + 1 |>.

(** Rule ids are distinct, so that the order [std::sort] gives is determined. *)
Definition id_at (q : Query_Processor) (a : Z) : Z := default 0 ((λ r : QP_rule_t, rule_id r) <$> objects q !! a).
Definition id_le (q : Query_Processor) (a b : Z) : Prop := id_at q a <= id_at q b.
#[export] Instance id_le_dec q a b : Decision (id_le q a b).
Proof. unfold id_le. apply _. Defined.
Definition sort (q : Query_Processor) : Query_Processor := q <| rules := merge_sort (id_le q) (rules q) |>.
Definition commit (q : Query_Processor) : Query_Processor := q <| version := u32 (version q + 1) |>.

(** The rules of the table go to the caller. *)
Definition reset_all (q : Query_Processor) : list Z * Query_Processor :=
  (rules q, q <| rules := [] |> <| rules_fast_routing := None |> <| rules_fast_routing___keys_values := [] |>).
Fixpoint __reset_rules (qrs : list Z) (q : Query_Processor) : outcome Query_Processor :=
  match qrs with
  | [] => Ok q
  | a :: qrs' => _ ← get_rule q a; __reset_rules qrs' (q <| objects := delete a (objects q) |>)
  end.
Definition load_fast_routing (m : option (gmap (list Z) Z)) (keys_values : list Z) (q : Query_Processor) : Query_Processor :=
  match m with
  | Some _ => q <| rules_fast_routing___keys_values := keys_values |> <| rules_fast_routing := m |>
  | None => q
  end.

(** *** LOAD MYSQL QUERY RULES TO RUNTIME *)
Definition field (r : row) (i : nat) : outcome (option (list Z)) :=
  match r !! i with Some f => Ok f | None => Fault OutOfBounds end.
Definition int_field (r : row) (i : nat) : outcome Z :=
  f ← field r i; match f with Some t => Ok (atoi t) | None => Fault NullPointer end.
(** An absent number is -1; [atol] gives a long, the parameter is an int. *)
Definition opt_int_field (r : row) (i : nat) : outcome Z :=
  f ← field r i; Ok (match f with Some t => i32 (atoll t) | None => -1 end).

Definition INET6_ADDRSTRLEN : nat := 46.
(** A wildcard must be the last character of a client address. *)
Definition client_addr_ok (addr : option (list Z)) : bool :=
  match addr with
  | None => true
  | Some a => (length a <? INET6_ADDRSTRLEN)%nat &&
              match span (λ c, negb (c =? 37)) a with (_, []) => true | (_, pct) => (length pct =? 1)%nat end
  end.

Definition rule_of_row (r : row) : outcome QP_rule_t :=
  rule_id ← int_field r 0;
  username ← field r 1; schemaname ← field r 2; flagIN ← int_field r 3;
  client_addr ← field r 4; proxy_addr ← field r 5; proxy_port ← opt_int_field r 6;
  digest ← field r 7; match_digest ← field r 8; match_pattern ← field r 9; negate ← int_field r 10;
  re_modifiers ← field r 11; flagOUT ← opt_int_field r 12; replace_pattern ← field r 13;
  destination_hostgroup ← opt_int_field r 14; cache_ttl ← opt_int_field r 15; cache_empty_result ← opt_int_field r 16;
  cache_timeout ← opt_int_field r 17; reconnect ← opt_int_field r 18; timeout ← opt_int_field r 19; retries ← opt_int_field r 20;
  delay ← opt_int_field r 21; next_query_flagIN ← opt_int_field r 22; mirror_flagOUT ← opt_int_field r 23;
  mirror_hostgroup ← opt_int_field r 24; error_msg ← field r 25; OK_msg ← field r 26; sticky_conn ← opt_int_field r 27;
  multiplex ← opt_int_field r 28; gtid_from_hostgroup ← opt_int_field r 29; log ← opt_int_field r 30; apply ← int_field r 31;
  attributes ← field r 32; comment ← field r 33;
  new_query_rule
    rule_id true username schemaname flagIN client_addr proxy_addr proxy_port digest match_digest
    match_pattern (negate =? 1) re_modifiers flagOUT replace_pattern destination_hostgroup cache_ttl
    cache_empty_result cache_timeout reconnect timeout retries delay next_query_flagIN mirror_flagOUT
    mirror_hostgroup error_msg OK_msg sticky_conn multiplex gtid_from_hostgroup log (apply =? 1) attributes
    comment.

Fixpoint insert_rows (rs : list row) (q : Query_Processor) : outcome Query_Processor :=
  match rs with
  | [] => Ok q
  | r :: rs' =>
      addr ← field r 4;
      if client_addr_ok addr then qr ← rule_of_row r; insert_rows rs' (insert_rule qr q) else insert_rows rs' q
  end.

(** The part under the lock; the old rules are deleted after it. *)
Definition load_mysql_query_rules (rs : list row) (m : option (gmap (list Z) Z)) (keys_values : list Z) (q : Query_Processor)
  : outcome (list Z * Query_Processor) :=
  let '(old, q) := reset_all q in
  q ← insert_rows rs q;
  Ok (old, commit (load_fast_routing m keys_values (sort q))).

(** *** A thread notices the new version *)
Fixpoint copy_rules (regex : Z) (q : Query_Processor) (l : list Z) : outcome (list QP_rule_t) :=
  match l with
  | [] => Ok []
  | a :: l' =>
      get_rule q a ≫= λ qr1 : QP_rule_t,
        if active qr1 then qr2 ← copy_rule regex a qr1; rest ← copy_rules regex q l'; Ok (qr2 :: rest)
        else copy_rules regex q l'
  end.
Definition refresh (regex algorithm : Z) (q : Query_Processor) (t : qp_thread) : outcome qp_thread :=
  if _thr_SQP_version t <? version q then
    rs ← copy_rules regex q (rules q);
    fast ← (if algorithm =? 1 then thread_fast_routing (rules_fast_routing___keys_values q) else Ok None);
    Ok (mk_thread (version q) rs fast)
  else Ok t.

(** *** Hits *)
Fixpoint push_hits (rs : list QP_rule_t) (q : Query_Processor) : outcome (list QP_rule_t * Query_Processor) :=
  match rs with
  | [] => Ok ([], q)
  | r :: rs' =>
      '(r, q) ← (if active r && negb (hits r =? 0) then
                   match parent r with
                   | None => Fault NullPointer
                   | Some a => p ← get_rule q a;
                               Ok (r <| hits := 0 |>, q <| objects := <[a := p <| hits := u64 (hits p + hits r) |>]> (objects q) |>)
                   end
                 else Ok (r, q));
      '(rest, q) ← push_hits rs' q;
      Ok (r :: rest, q)
  end.
Definition update_query_processor_stats (q : Query_Processor) (t : qp_thread) : outcome (Query_Processor * qp_thread) :=
  if version q =? _thr_SQP_version t then
    '(rs, q) ← push_hits (_thr_SQP_rules t) q;
    Ok (q, mk_thread (_thr_SQP_version t) rs (_thr_SQP_rules_fast_routing t))
  else Ok (q, t).
End Rules.

(** ** Copies are exact *)
Lemma modifier_range m token : 0 <= m < 4 → 0 <= modifier m token < 4.
Proof.
  intros Hm. assert (m = 0 ∨ m = 1 ∨ m = 2 ∨ m = 3) as Hc by lia. unfold modifier.
  destruct Hc as [-> | [-> | [-> | ->]]], (prefix_ci (str "CASELESS") token), (prefix_ci (str "GLOBAL") token); cbv; split; done.
Qed.
Lemma modifiers_range ts m : 0 <= m < 4 → 0 <= foldl modifier m ts < 4.
Proof. revert m. induction ts as [|t ts IH]; intros m Hm; [done|]. cbn. by apply IH, modifier_range. Qed.
Lemma parse_modifiers_range text m : parse_modifiers text = Ok m → 0 <= m < 4.
Proof. unfold parse_modifiers. rewrite tokens_spec. cbn [mbind outcome_bind]. intros [= <-]. apply modifiers_range. lia. Qed.
Lemma re_mod_roundtrip text m : parse_modifiers text = Ok m → parse_modifiers (Some (re_mod m)) = Ok m.
Proof.
  intros Hm%parse_modifiers_range. assert (m = 0 ∨ m = 1 ∨ m = 2 ∨ m = 3) as Hc by lia. destruct Hc as [-> | [-> | [-> | ->]]]; vm_compute; reflexivity.
Qed.

Lemma digest_roundtrip text : parse_digest (if parse_digest text =? 0 then None else Some (hex16 (parse_digest text))) = parse_digest text.
Proof.
  unfold parse_digest at 2 3 4. destruct text as [t|]; [|done]. cbn zeta. pose proof (strtoull_range t) as Hr. unfold ULLONG_MAX in *.
  destruct (Z.eqb_spec (strtoull t) (2 ^ 64 - 1)) as [E|E]; [done|]. destruct (Z.eqb_spec (strtoull t) 0) as [E0|E0]; [done|]. cbn [negb andb].
  rewrite (proj2 (Z.eqb_neq _ _)) by done. unfold parse_digest. rewrite strtoull_hex16 by lia. unfold ULLONG_MAX. cbn zeta.
  rewrite (proj2 (Z.eqb_neq _ _)), (proj2 (Z.eqb_neq _ _)) by done. done.
Qed.

Section Copies.
Context {J : Type} `{HJ : Json J} `{HK : JsonKinds J}.
Implicit Types (r : QP_rule_t) (q : Query_Processor).

(** A rule as [new_query_rule] makes them, with any hits. *)
Definition built r : Prop :=
  (∃ m, parse_modifiers m = Ok (re_modifiers r)) ∧ parse_attributes (attributes r) = Ok (flagOUTs r, flagOUT_weights_total r) ∧ (∃ d, digest r = parse_digest d) ∧
  client_addr_wildcard_position r = wildcard_position (client_addr r) ∧ regex_engine1 r = None ∧ regex_engine2 r = None ∧ parent r = None.
Lemma new_query_rule_built
    rule_id active username schemaname flagIN client_addr proxy_addr proxy_port digest match_digest
    match_pattern negate_match_pattern re_modifiers flagOUT replace_pattern destination_hostgroup cache_ttl
    cache_empty_result cache_timeout reconnect timeout retries delay next_query_flagIN mirror_flagOUT
    mirror_hostgroup error_msg OK_msg sticky_conn multiplex gtid_from_hostgroup log apply attributes comment r :
  new_query_rule rule_id active username schemaname flagIN client_addr proxy_addr proxy_port digest match_digest
    match_pattern negate_match_pattern re_modifiers flagOUT replace_pattern destination_hostgroup cache_ttl
    cache_empty_result cache_timeout reconnect timeout retries delay next_query_flagIN mirror_flagOUT
    mirror_hostgroup error_msg OK_msg sticky_conn multiplex gtid_from_hostgroup log apply attributes comment = Ok r →
  built r ∧ QPRules.active r = active ∧ hits r = 0.
Proof.
  unfold new_query_rule. destruct (parse_modifiers _) as [mods|] eqn:Em; [|done]. cbn [mbind outcome_bind]. destruct (parse_attributes _) as [[outs total]|] eqn:Ea; [|done]. cbn [mbind outcome_bind].
  intros [= <-]. split; [|done]. split; [by eexists|]. split; [exact Ea|]. split; [by eexists|done].
Qed.
(** What a thread makes of it. *)
Definition compiled (regex : Z) (r : QP_rule_t) : QP_rule_t :=
  r <| hits := 0 |> <| regex_engine1 := compile_query_rule regex r <$> match_digest r |>
    <| regex_engine2 := compile_query_rule regex r <$> match_pattern r |>.

Lemma copy_rule_spec regex a r : built r → copy_rule regex a r = Ok (compiled regex r <| parent := Some a |>).
Proof.
  intros ((m & Em) & Ea & (d & Ed) & Ew & E1 & E2 & Ep). destruct r as [c wp dg rm fo tot e1 e2 h p]. cbn in Em, Ea, Ed, Ew, E1, E2, Ep. subst.
  unfold copy_rule, new_query_rule. cbn [conf digest re_modifiers]. rewrite (re_mod_roundtrip m rm Em). cbn [mbind outcome_bind]. rewrite Ea. cbn [mbind outcome_bind].
  rewrite digest_roundtrip. by destruct c.
Qed.

(** Every address of the table is a rule. *)
Definition table (q : Query_Processor) (l : list Z) (rs : list QP_rule_t) : Prop :=
  Forall2 (λ a r, objects q !! a = Some r ∧ built r ∧ active r = true) l rs.

Lemma copy_rules_spec regex q l rs : table q l rs →
  copy_rules regex q l = Ok (zip_with (λ a r, compiled regex r <| parent := Some a |>) l rs).
Proof.
  induction 1 as [|a r l rs (Ea & Hb & Hact) _ IH]; [done|]. cbn [copy_rules zip_with]. unfold get_rule. rewrite Ea. cbn [mbind outcome_bind].
  rewrite Hact, copy_rule_spec by done. cbn [mbind outcome_bind]. by rewrite IH.
Qed.

Lemma insert_rule_table q l rs r : table q l rs → Forall (λ a, a < next_address q) l → built r → active r = true →
  table (insert_rule r q) (l ++ [next_address q]) (rs ++ [r]).
Proof.
  intros Ht Hl Hb Ha. apply Forall2_app.
  - unfold table. cbn. assert (∀ a, a ∈ l → a ≠ next_address q) as Hne by (intros a Hin; rewrite Forall_forall in Hl; specialize (Hl a Hin); lia).
    clear Hl. induction Ht as [|a r' l rs H Ht IH]; [constructor|]. constructor; [rewrite lookup_insert_ne; [done|]|apply IH].
    + intros E. apply (Hne a); [left|done].
    + intros a' Hin. apply Hne. by right.
  - constructor; [|constructor]. cbn. by rewrite lookup_insert_eq.
Qed.

Definition row_accepted (r : row) : Prop := ∃ addr, r !! 4%nat = Some addr ∧ client_addr_ok addr = true.
#[export] Instance row_accepted_dec (r : row) : Decision (row_accepted r).
Proof.
  destruct (r !! 4%nat) as [addr|] eqn:E.
  - destruct (client_addr_ok addr) eqn:Ec; [left; by exists addr|right; intros (a & Ea & Hc); congruence].
  - right. intros (a & Ea & _). congruence.
Defined.

Lemma rule_of_row_built row r : rule_of_row row = Ok r → built r ∧ active r = true.
Proof.
  unfold rule_of_row. intros H. repeat match type of H with
    | mbind _ ?m = Ok _ => destruct m; [cbn [mbind outcome_bind] in H | discriminate H] end.
  by apply new_query_rule_built in H as (? & ? & _).
Qed.

(** The table grows by the accepted rows. *)
Lemma insert_rows_spec rows new q l rs :
  Forall (λ r : row, (5 ≤ length r)%nat) rows → mapM rule_of_row (filter row_accepted rows) = Ok new →
  rules q = l → table q l rs → Forall (λ a, a < next_address q) l → map_Forall (λ a _, a < next_address q) (objects q) →
  ∃ q', insert_rows rows q = Ok q' ∧ table q' (rules q') (rs ++ new) ∧ Forall (λ a, a < next_address q') (rules q') ∧
    map_Forall (λ a _, a < next_address q') (objects q') ∧ objects q ⊆ objects q' ∧ version q' = version q ∧
    rules_fast_routing q' = rules_fast_routing q ∧ rules_fast_routing___keys_values q' = rules_fast_routing___keys_values q.
Proof.
  revert new q l rs. induction rows as [|row rows IH]; intros new q l rs Hlen Hm <- Ht Hl Ho.
  { cbn in Hm. injection Hm as <-. exists q. rewrite app_nil_r. by split_and!. }
  inversion Hlen as [|? ? Hlen1 Hlen2]; subst. destruct (lookup_lt_is_Some_2 row 4) as [addr Ead]; [lia|].
  cbn [insert_rows]. unfold field at 1. rewrite Ead. cbn [mbind outcome_bind]. destruct (client_addr_ok addr) eqn:Ec.
  - rewrite filter_cons_True in Hm by (by exists addr). cbn [mapM] in Hm. destruct (rule_of_row row) as [r|] eqn:Er; [|done]. cbn [mbind outcome_bind] in Hm |- *.
    destruct (mapM rule_of_row (filter row_accepted rows)) as [new'|] eqn:Em; [|done]. cbn in Hm. injection Hm as <-.
    destruct (rule_of_row_built _ _ Er) as [Hb Ha].
    destruct (IH new' (insert_rule r q) _ (rs ++ [r]) Hlen2 eq_refl eq_refl) as (q' & E1 & E2 & E3 & E4 & E5 & E6).
    + by apply insert_rule_table.
    + cbn. apply Forall_app. split; [eapply Forall_impl; [exact Hl|]; cbn; lia|]. constructor; [lia|constructor].
    + cbn. apply map_Forall_insert_2; [lia|]. eapply map_Forall_impl; [exact Ho|]. cbn. lia.
    + exists q'. rewrite <- app_assoc in E2. split; [done|]. split; [done|]. split; [done|]. split; [done|]. split; [|done].
      transitivity (objects (insert_rule r q)); [|done]. cbn. apply insert_subseteq. destruct (objects q !! next_address q) eqn:E; [|done].
      apply (Ho _ _) in E. lia.
  - rewrite filter_cons_False in Hm by (intros (a & Ea & Hc); congruence). by apply (IH new q (rules q) rs).
Qed.

(** The invariant of the table. *)
Definition qp_ok (q : Query_Processor) : Prop :=
  Forall (λ a, is_Some (objects q !! a)) (rules q) ∧ map_Forall (λ a _, a < next_address q) (objects q) ∧ 0 <= version q.

#[export] Instance id_le_total q : Total (id_le q).
Proof. intros a b. unfold id_le. lia. Qed.
#[export] Instance id_le_trans q : Transitive (id_le q).
Proof. intros a b c. unfold id_le. lia. Qed.
Lemma Forall2_permute_table q l l' rs : l' ≡ₚ l → table q l rs → ∃ rs', rs' ≡ₚ rs ∧ table q l' rs'.
Proof.
  intros Hp Ht. destruct (Permutation_Forall2 (symmetry Hp) Ht) as (rs' & Hrs & Ht'). exists rs'. by split.
Qed.
Lemma table_objects q q' l rs : objects q' = objects q → table q l rs → table q' l rs.
Proof. intros E. unfold table. by rewrite E. Qed.

Lemma load_spec rows new m kv q :
  qp_ok q → version q + 1 < 2 ^ 32 → Forall (λ r : row, (5 ≤ length r)%nat) rows → mapM rule_of_row (filter row_accepted rows) = Ok new →
  ∃ q' new', load_mysql_query_rules rows m kv q = Ok (rules q, q') ∧ new' ≡ₚ new ∧ table q' (rules q') new' ∧
    StronglySorted (λ r1 r2 : QP_rule_t, rule_id r1 <= rule_id r2) new' ∧ qp_ok q' ∧ objects q ⊆ objects q' ∧ version q' = version q + 1 ∧
    (rules_fast_routing q', rules_fast_routing___keys_values q') = (m, match m with Some _ => kv | None => [] end).
Proof.
  intros (Hr & Ho & Hv) Hv1 Hlen Hm. unfold load_mysql_query_rules. cbn [reset_all].
  destruct (insert_rows_spec rows new (reset_all q).2 [] [] Hlen Hm eq_refl) as (q1 & E1 & Ht & Hl & Ho1 & Hsub & Hver & Hf & Hkv);
    [constructor|constructor|done|]. cbn in E1. rewrite E1. cbn [mbind outcome_bind]. cbn [app] in Ht.
  set (q2 := commit _). assert (objects q2 = objects q1 ∧ next_address q2 = next_address q1 ∧ rules q2 = merge_sort (id_le q1) (rules q1)) as (Eo & En & El).
  { unfold q2, commit, load_fast_routing. by destruct m. }
  assert (version q2 = version q + 1) as Ev.
  { unfold q2, commit, load_fast_routing. rewrite <- (u32_small (version q + 1)) by lia. cbn in Hver. by destruct m; cbn; rewrite Hver. }
  pose proof (merge_sort_Permutation (id_le q1) (rules q1)) as Hp. rewrite <- El in Hp.
  assert (StronglySorted (id_le q1) (rules q2)) as Hs.
  { rewrite El. apply StronglySorted_merge_sort; apply _. }
  destruct (Forall2_permute_table q1 (rules q1) (rules q2) new) as (new' & Hn & Ht'); [done|done|].
  exists q2, new'. split; [done|]. split; [done|]. split; [by apply (table_objects q1)|].
  split.
  { clear -Ht' Hs. induction Ht' as [|a r l rs (Ea & _) Ht' IH]; [constructor|]. apply StronglySorted_cons in Hs as [Ha Hs].
    constructor; [by apply IH|]. clear IH Hs. induction Ht' as [|b r' l rs (Eb & _) Ht' IH]; [constructor|].
    apply Forall_cons in Ha as [Hab Ha]. constructor; [|by apply IH]. unfold id_le, id_at in Hab. by rewrite Ea, Eb in Hab. }
  split.
  { split; [|split; [by rewrite Eo, En|lia]]. rewrite Eo. clear -Ht'. induction Ht' as [|a r l rs (Ea & _) Ht' IH]; constructor; [by eexists|done]. }
  split; [by rewrite Eo|]. split; [done|]. unfold q2, commit, load_fast_routing. cbn in Hf, Hkv. destruct m; cbn; [done|]. by rewrite Hf, Hkv.
Qed.

(** The addresses of a load are new. *)
Lemma insert_rows_fresh rows q q' : insert_rows rows q = Ok q' →
  ∃ ks, rules q' = rules q ++ ks ∧ Forall (λ a, next_address q <= a < next_address q') ks ∧ NoDup ks ∧ next_address q <= next_address q'.
Proof.
  revert q. induction rows as [|row rows IH]; intros q E.
  { injection E as <-. exists []. rewrite app_nil_r. split_and!; [done|constructor|constructor|lia]. }
  cbn [insert_rows] in E. destruct (field row 4) as [addr|]; [|done]. cbn [mbind outcome_bind] in E. destruct (client_addr_ok addr); [|by apply IH].
  destruct (rule_of_row row) as [r|]; [|done]. cbn [mbind outcome_bind] in E. destruct (IH _ E) as (ks & -> & Hf & Hn & Hle). cbn in Hf, Hle |- *.
  exists (next_address q :: ks). rewrite <- app_assoc. split; [done|]. split; [|split; [|lia]].
  - constructor; [lia|]. eapply Forall_impl; [exact Hf|]. cbn. lia.
  - constructor; [|done]. intros Hin. rewrite Forall_forall in Hf. specialize (Hf _ Hin). cbn in Hf. lia.
Qed.
Lemma load_fresh rows m kv q old q' : load_mysql_query_rules rows m kv q = Ok (old, q') →
  NoDup (rules q') ∧ Forall (λ a, next_address q <= a) (rules q').
Proof.
  unfold load_mysql_query_rules. cbn [reset_all]. destruct (insert_rows rows _) as [q1|] eqn:E; [|done]. cbn [mbind outcome_bind]. intros [= _ <-].
  apply insert_rows_fresh in E as (ks & Er & Hf & Hn & _). cbn in Er, Hf.
  assert (rules (commit (load_fast_routing m kv (sort q1))) ≡ₚ ks) as Hp.
  { rewrite <- Er, <- (merge_sort_Permutation (id_le q1) (rules q1)). by destruct m. }
  split; [by rewrite Hp|]. rewrite Hp. eapply Forall_impl; [exact Hf|]. cbn. lia.
Qed.
Lemma rule_of_row_hits row r : rule_of_row row = Ok r → hits r = 0.
Proof.
  unfold rule_of_row. intros H. repeat match type of H with
    | mbind _ ?m = Ok _ => destruct m; [cbn [mbind outcome_bind] in H | discriminate H] end.
  by apply new_query_rule_built in H as (_ & _ & ?).
Qed.
Lemma mapM_rows rows new : mapM rule_of_row rows = Ok new → length new = length rows ∧ Forall (λ r : QP_rule_t, hits r = 0) new.
Proof.
  revert new. induction rows as [|row rows IH]; intros new E; cbn in E; [by injection E as <-|].
  destruct (rule_of_row row) as [r|] eqn:Er; [|done]. cbn [mbind outcome_bind] in E. destruct (mapM rule_of_row rows) as [new'|] eqn:Em; [|done].
  cbn in E. injection E as <-. destruct (IH new' eq_refl) as [Hl Hh]. split; [cbn; by rewrite Hl|]. constructor; [by apply (rule_of_row_hits row)|done].
Qed.

(** C22: The configured rules reach every thread.  Loading puts the rules of the
    accepted rows in the table, in the order of their ids, under a new version;
    whatever a thread worked with before, its next query makes it copy each of
    them exactly, through the text of its digest and of its modifiers, with its
    regular expressions compiled, no hits and a pointer to the rule it copies.
    The rules that were in the table are handed back and still exist. *)
Theorem rules_reach_threads regex algorithm rows new m kv q t fast :
  qp_ok q → version q + 1 < 2 ^ 32 → _thr_SQP_version t <= version q →
  Forall (λ r : row, (5 ≤ length r)%nat) rows → mapM rule_of_row (filter row_accepted rows) = Ok new →
  (if algorithm =? 1 then thread_fast_routing (match m with Some _ => kv | None => [] end) else Ok None) = Ok fast →
  ∃ q' new', load_mysql_query_rules rows m kv q = Ok (rules q, q') ∧
    new' ≡ₚ new ∧ StronglySorted (λ r1 r2 : QP_rule_t, rule_id r1 <= rule_id r2) new' ∧
    Forall2 (λ a r, objects q' !! a = Some r) (rules q') new' ∧ objects q ⊆ objects q' ∧
    refresh regex algorithm q' t =
      Ok (mk_thread (version q + 1) (zip_with (λ a r, compiled regex r <| parent := Some a |>) (rules q') new') fast).
Proof.
  intros Hq Hv Ht Hlen Hm Hf. destruct (load_spec rows new m kv q Hq Hv Hlen Hm) as (q' & new' & E & Hp & Htab & Hs & _ & Hsub & Ev & Efast).
  exists q', new'. split; [done|]. split; [done|]. split; [done|].
  split. { eapply Forall2_impl; [exact Htab|]. by intros a r (? & _). }
  split; [done|]. unfold refresh. rewrite Ev, (proj2 (Z.ltb_lt _ _)) by lia. rewrite (copy_rules_spec regex q' _ new') by done. cbn [mbind outcome_bind].
  injection Efast as _ ->. by rewrite Hf.
Qed.
End Copies.

(** ** Witness *)
Module Example.
Import LionRouter.Example.
#[global] Instance doc_kinds : JsonKinds doc := {|
  json_is_array v := match v with Arr _ => true | _ => false end;
  json_is_unsigned v := match v with Num n => 0 <=? n | _ => false end
|}.
(** A row with an id, a client address, a digest, a pattern, its modifiers and a hostgroup. *)
Definition example_row (id addr digest pattern mods hg : string) : row :=
  [Some (str id); None; None; Some (str "0"); Some (str addr); None; None; Some (str digest); None; Some (str pattern); Some (str "0");
   Some (str mods); None; None; Some (str hg); None; None; None; None; None; None; None; None; None; None; None; None; None; None; None; None;
   Some (str "1"); None; None].
Definition example_rows : list row :=
  [example_row "20" "10.0.0.%" "0x00000000000000FF" "^SELECT" "caseless" "2"; example_row "15" "10.%.1" "" "" "" "9";
   example_row "10" "%" "" "FOR UPDATE$" "GLOBAL,CASELESS" "1"].
End Example.

Lemma rules_reach_threads_witness :
  ∃ q' r10 r20, load_mysql_query_rules (J := LionRouter.Example.doc) Example.example_rows None [] init_qp = Ok ([], q') ∧
    refresh (J := LionRouter.Example.doc) 2 1 q' init_thread = Ok (mk_thread 1 [r10; r20] None) ∧
    (rule_id r10, re_modifiers r10, destination_hostgroup r10) = (10, 3, 1) ∧
    (rule_id r20, digest r20, client_addr_wildcard_position r20) = (20, 255, 7).
Proof.
  assert (qp_ok init_qp) as Hq by (split; [constructor|split; [intros ? ? H; done|cbn; lia]]).
  destruct (mapM (rule_of_row (J := LionRouter.Example.doc)) (filter row_accepted Example.example_rows)) as [new|] eqn:Em.
  2: { vm_compute in Em. discriminate Em. }
  destruct (rules_reach_threads (J := LionRouter.Example.doc) 2 1 Example.example_rows new None [] init_qp init_thread None Hq
    ltac:(cbn; lia) ltac:(cbn; lia) ltac:(repeat (constructor; [cbn; lia|]); constructor) Em eq_refl) as (q' & new' & E & _ & _ & _ & _ & Er).
  destruct (load_mysql_query_rules (J := LionRouter.Example.doc) Example.example_rows None [] init_qp) as [[old q1]|] eqn:El.
  2: { discriminate E. }
  injection E as -> ->. exists q'. vm_compute in El. injection El as <-.
  eexists _, _. split; [reflexivity|]. split; [vm_compute; reflexivity|]. split; reflexivity.
Defined.
