(* ===== verification/QPChain.v ===== *)
(** * The chain of query rules (lib/Query_Processor.cpp, process_mysql_query)

    A query goes through the rules of its thread: each rule that matches adds to
    the decision, may rewrite the query, may change the flag that later rules
    look at and start the chain again, or end it.  Then fast routing or the
    LionRouter choose a hostgroup, the comment of the query is applied, and the
    firewall has the last word.  Matching and replacing by regular expressions
    is a parameter; random numbers are arguments. *)
From S2P Require Import Prelude StringUtils Tokenizer CNumbers LionRouter QPComment QPTables QPRules.

(** What is looked at in the session. *)
Record session := mk_session {
  s_username : list Z; s_schemaname : list Z; s_addr : option (list Z); s_proxy_addr : option (list Z); s_proxy_port : Z;
  s_next_query_flagIN : Z; s_mirror : bool; s_mirror_hostgroup : Z; s_mirror_flagOUT : Z
}.
(** What the parser found out about the query. *)
Record SQP_par_t := mk_par { qp_digest : Z; qp_digest_text : option (list Z); qp_first_comment : option (list Z) }.

Definition nonempty (s : option (list Z)) : option (list Z) := match s with Some (c :: w) => Some (c :: w) | _ => None end.

(** ** Matching *)
Definition name_matches (wanted : option (list Z)) (name : list Z) : bool :=
  match nonempty wanted with Some w => bool_decide (w = name) | None => true end.
Definition client_matches (r : QP_rule_t) (addr : option (list Z)) : bool :=
  match nonempty (client_addr r), addr with
  | Some w, Some a =>
      let p := client_addr_wildcard_position r in
      if p =? -1 then bool_decide (w = a)
      else if p =? 0 then true
      else bool_decide (take (Z.to_nat p) w = take (Z.to_nat p) a)
  | _, _ => true
  end.
Definition proxy_matches (r : QP_rule_t) (addr : option (list Z)) (port : Z) : bool :=
  match nonempty (proxy_addr r), addr with Some w, Some a => bool_decide (w = a) | _, _ => true end &&
  (negb (0 <=? proxy_port r) || (proxy_port r =? port)).
Definition digest_matches (r : QP_rule_t) (qp : option SQP_par_t) : bool :=
  match qp with
  | Some p => (qp_digest p =? 0) || (digest r =? 0) || (digest r =? qp_digest p)
  | None => true
  end.

(** The weighted flags: [rnd] is below the sum of the weights. *)
Fixpoint pick_flag (rnd : Z) (ids weights : list Z) : outcome (option Z) :=
  match weights with
  | [] => Ok None
  | w :: weights' =>
      if rnd <? w then match ids with id :: _ => Ok (Some id) | [] => Fault Exception end
      else pick_flag (rnd - w) (tail ids) weights'
  end.
Definition weighted_flag (r : QP_rule_t) (random : Z) : outcome (option Z) :=
  if 0 <? flagOUT_weights_total r then
    match flagOUTs r with
    | Some (ids, weights) => pick_flag (Z.rem random (flagOUT_weights_total r)) ids weights
    | None => Fault NullPointer
    end
  else Ok None.

(** ** What a matching rule sets *)
Definition set_output (r : QP_rule_t) (o : Query_Processor_Output) : Query_Processor_Output :=
  let o := when (0 <=? reconnect r) (λ o, o <| o_reconnect := reconnect r |>) o in
  let o := when (0 <=? timeout r) (λ o, o <| o_timeout := timeout r |>) o in
  let o := when (0 <=? retries r) (λ o, o <| o_retries := retries r |>) o in
  let o := when (0 <=? delay r) (λ o, o <| o_delay := delay r |>) o in
  let o := when (0 <=? next_query_flagIN r) (λ o, o <| o_next_query_flagIN := next_query_flagIN r |>) o in
  let o := when (0 <=? mirror_flagOUT r) (λ o, o <| o_mirror_flagOUT := mirror_flagOUT r |>) o in
  let o := when (0 <=? mirror_hostgroup r) (λ o, o <| o_mirror_hostgroup := mirror_hostgroup r |>) o in
  let o := when (bool_decide (is_Some (error_msg r))) (λ o, o <| o_error_msg := error_msg r |>) o in
  let o := when (bool_decide (is_Some (OK_msg r))) (λ o, o <| o_OK_msg := OK_msg r |>) o in
  let o := when (0 <=? cache_ttl r) (λ o, o <| o_cache_ttl := cache_ttl r |>) o in
  let o := when (0 <=? cache_empty_result r) (λ o, o <| o_cache_empty_result := cache_empty_result r |>) o in
  let o := when (0 <=? cache_timeout r) (λ o, o <| o_cache_timeout := cache_timeout r |>) o in
  let o := when (0 <=? sticky_conn r) (λ o, o <| o_sticky_conn := sticky_conn r |>) o in
  let o := when (0 <=? multiplex r) (λ o, o <| o_multiplex := multiplex r |>) o in
  let o := when (0 <=? gtid_from_hostgroup r) (λ o, o <| o_gtid_from_hostgroup := gtid_from_hostgroup r |>) o in
  let o := when (0 <=? log r) (λ o, o <| o_log := log r |>) o in
  when (0 <=? destination_hostgroup r) (λ o, o <| o_destination_hostgroup := destination_hostgroup r |>) o.

(** The state of the loop; [matched] are the positions of the rules whose
    counters of hits go up, which nothing in the loop reads. *)
Record chain := mk_chain {
  c_out : Query_Processor_Output;
  c_flagIN : Z;
  c_last : option QP_rule_t;
  c_randoms : list Z;
  c_matched : list nat
}.
#[export] Instance chain_eta : Eta chain := λ s, mk_chain (c_out s) (c_flagIN s) (c_last s) (c_randoms s) (c_matched s).

(** How the loop goes on after a rule. *)
Inductive control := Continue | Exit | Restart.

Section Chain.
Context (partial_match : re2_t → list Z → bool) (replace : re2_t → bool → list Z → list Z → list Z).

(** [pattern] is the text of the expression that [engine] was compiled from. *)
Definition pattern_matches (engine : option re2_t) (pattern : option (list Z)) (negate : bool) (subject : list Z) : outcome bool :=
  match pattern with
  | None => Ok true
  | Some _ => match engine with None => Fault NullPointer | Some e => Ok (xorb (partial_match e subject) negate) end
  end.
Definition rule_matches (sess : session) (qp : option SQP_par_t) (query : list Z) (r : QP_rule_t) (st : chain) : outcome bool :=
  if negb (flagIN r =? c_flagIN st) then Ok false
  else if negb (name_matches (username r) (s_username sess)) then Ok false
  else if negb (name_matches (schemaname r) (s_schemaname sess)) then Ok false
  else if negb (client_matches r (s_addr sess)) then Ok false
  else if negb (proxy_matches r (s_proxy_addr sess) (s_proxy_port sess)) then Ok false
  else if negb (digest_matches r qp) then Ok false
  else
    b ← match qp ≫= qp_digest_text with
        | Some text => pattern_matches (regex_engine1 r) (match_digest r) (negate_match_pattern r) text
        | None => Ok true
        end;
    if negb b then Ok false
    else pattern_matches (regex_engine2 r) (match_pattern r) (negate_match_pattern r) (default query (o_new_query (c_out st))).

(** RE2 replaces through a static function that compiles the pattern again,
    without options; PCRE uses the compiled one.  [ptr] is whether this is not
    the execution of a prepared statement. *)
Definition rewrite (ptr : bool) (query : list Z) (r : QP_rule_t) (o : Query_Processor_Output) : outcome Query_Processor_Output :=
  match ptr, replace_pattern r with
  | true, Some rep =>
      let text := default query (o_new_query o) in
      match regex_engine2 r with
      | None => Fault NullPointer
      | Some e =>
          let e := if re2 e then mk_re2 true false (default [] (match_pattern r)) else e in
          Ok (o <| o_new_query := Some (replace e (has (re_modifiers r) QP_RE_MOD_GLOBAL) rep text) |>)
      end
  | _, _ => Ok o
  end.

(** A rule matched.  [reiterate] is whether the chain may start again. *)
Definition apply_rule (ptr reiterate : bool) (query : list Z) (i : nat) (r : QP_rule_t) (st : chain) : outcome (control * chain) :=
  let '(random, randoms) := if 0 <? flagOUT_weights_total r then (hd 0 (c_randoms st), tail (c_randoms st)) else (0, c_randoms st) in
  weighted ← weighted_flag r random;
  let flag := default (c_flagIN st) weighted in
  let set_flagOUT := bool_decide (is_Some weighted) in
  let '(flag, set_flagOUT) := if 0 <=? flagOUT r then (flagOUT r, true) else (flag, set_flagOUT) in
  out ← rewrite ptr query r (set_output r (c_out st));
  let st := mk_chain out flag (c_last st) randoms (c_matched st ++ [i]) in
  Ok (if apply r then Exit else if set_flagOUT && reiterate then Restart else Continue, st).

(** One pass over the rules from position [i]. *)
Fixpoint pass (sess : session) (qp : option SQP_par_t) (ptr reiterate : bool) (query : list Z) (i : nat) (rs : list QP_rule_t) (st : chain)
  : outcome (control * chain) :=
  match rs with
  | [] => Ok (Continue, st)
  | r :: rs' =>
      let st := st <| c_last := Some r |> in
      rule_matches sess qp query r st ≫= λ b : bool,
        if b then
          '(c, st) ← apply_rule ptr reiterate query i r st;
          match c with Continue => pass sess qp ptr reiterate query (S i) rs' st | _ => Ok (c, st) end
        else pass sess qp ptr reiterate query (S i) rs' st
  end.
Fixpoint run_chain (reiterate : nat) (sess : session) (qp : option SQP_par_t) (ptr : bool) (query : list Z) (rs : list QP_rule_t) (st : chain)
  : outcome chain :=
  '(c, st) ← pass sess qp ptr (0 <? reiterate)%nat query 0 rs st;
  match c, reiterate with
  | Restart, S n => run_chain n sess qp ptr query rs st
  | _, _ => Ok st
  end.

(** A mirror session without a flag of its own does not enter the chain. *)
Definition start (sess : session) (randoms : list Z) : bool * chain :=
  let flag := if 0 <=? s_next_query_flagIN sess then s_next_query_flagIN sess else 0 in
  let out := init_output in
  if s_mirror sess then
    let out := out <| o_destination_hostgroup := s_mirror_hostgroup sess |> in
    if negb (s_mirror_flagOUT sess =? -1) then (true, mk_chain out (s_mirror_flagOUT sess) None randoms [])
    else (false, mk_chain out flag None randoms [])
  else (true, mk_chain out flag None randoms []).

(** ** After the chain *)
Context (enumerate : list Z → list Z) (rand_del : list Z).

(** The rule examined last, whether it matched or not, decides if the hostgroup
    is looked up. *)
Definition route (t : qp_thread) (q : Query_Processor) (lion_random : Z) (locked : bool) (sess : session) (query : list Z) (st : chain)
  (router : LionRouter) : outcome (LionRouter * Query_Processor_Output) :=
  if match c_last st with None => true | Some r => negb (apply r) end then
    '(router, dst_hg) ←
      match _thr_SQP_rules_fast_routing t with
      | Some m => hg ← search_rules_fast_routing_dest_hg rand_del m (s_username sess) (s_schemaname sess) (c_flagIN st); Ok (router, hg)
      | None =>
          match rules_fast_routing q with
          | Some m => hg ← search_rules_fast_routing_dest_hg rand_del m (s_username sess) (s_schemaname sess) (c_flagIN st); Ok (router, hg)
          | None => match lion_hostgroup enumerate query lion_random locked router with
                    | (router, Ok hg) => Ok (router, hg)
                    | (_, Fault f) => Fault f
                    end
          end
      end;
    Ok (router, when (negb (dst_hg =? -1)) (λ o, o <| o_destination_hostgroup := dst_hg |>) (c_out st))
  else Ok (router, c_out st).

Record firewall := mk_firewall { fw_enabled : bool; fw_errormsg : list Z; fw_users : gmap (list Z) Z; fw_rules : gmap (list Z) (list Z) }.
Definition check_firewall (fw : firewall) (sess : session) (qp : option SQP_par_t) (flag : Z) (o : Query_Processor_Output)
  : outcome Query_Processor_Output :=
  if fw_enabled fw then
    match s_addr sess with
    | None => Fault AssertFail
    | Some addr =>
        let find := find_firewall_whitelist_user rand_del (fw_users fw) (s_username sess) in
        let '(client, wus) := if find addr =? WUS_NOT_FOUND then ([], find []) else (addr, find addr) in
        let wus := if wus =? WUS_NOT_FOUND then WUS_PROTECTING else wus in
        let o := o <| o_firewall_whitelist_mode := wus |> in
        if (wus =? WUS_DETECTING) || (wus =? WUS_PROTECTING) then
          let allowed := match qp with
                         | Some p => negb (qp_digest p =? 0) &&
                             find_firewall_whitelist_rule rand_del (fw_rules fw) (s_username sess) client (s_schemaname sess) flag (qp_digest p)
                         | None => false
                         end in
          if allowed then Ok (o <| o_firewall_whitelist_mode := WUS_OFF |>)
          else Ok (when ((wus =? WUS_PROTECTING) && bool_decide (o_error_msg o = None)) (λ o, o <| o_error_msg := Some (fw_errormsg fw) |>) o)
        else Ok o
    end
  else Ok (o <| o_firewall_whitelist_mode := WUS_NOT_FOUND |>).

Definition add_hits (rs : list QP_rule_t) (matched : list nat) : list QP_rule_t :=
  foldl (λ rs i, alter (λ r, r <| hits := u64 (hits r + 1) |>) i rs) rs matched.

(** The variables of the thread and what it takes from outside. *)
Record environment := mk_env {
  e_regex : Z; e_algorithm : Z; e_iterations : nat; e_randoms : list Z; e_lion_random : Z; e_locked : bool; e_now_us : Z; e_block : list Z
}.

Context {J : Type} `{HJ : Json J} `{HK : JsonKinds J}.
(** [query] is the text of the query as a C string. *)
Definition process_mysql_query (env : environment) (fw : firewall) (sess : session) (qp : option SQP_par_t) (ptr : bool) (query : list Z)
  (q : Query_Processor) (t : qp_thread) (router : LionRouter) : outcome (Query_Processor_Output * qp_thread * LionRouter) :=
  t ← refresh (J := J) (e_regex env) (e_algorithm env) q t;
  let '(enter, st) := start sess (e_randoms env) in
  st ← (if enter then run_chain (e_iterations env) sess qp ptr query (_thr_SQP_rules t) st else Ok st);
  let t := mk_thread (_thr_SQP_version t) (add_hits (_thr_SQP_rules t) (c_matched st)) (_thr_SQP_rules_fast_routing t) in
  '(router, out) ← route t q (e_lion_random env) (e_locked env) sess query st router;
  out ← (match s_mirror sess, qp ≫= qp_first_comment with
         | false, Some comment => query_parser_first_comment (e_now_us env) (e_block env) comment out
         | _, _ => Ok out
         end);
  out ← check_firewall fw sess qp (c_flagIN st) out;
  Ok (out, t, router).
End Chain.

(** ** The last matching rule decides *)
(** The last value that is not negative, the last text that is there. *)
Definition chosen (f : QP_rule_t → Z) (d : Z) (ms : list QP_rule_t) : Z :=
  default d (last (omap (λ r, if 0 <=? f r then Some (f r) else None) ms)).
Definition chosen_text (f : QP_rule_t → option (list Z)) (d : option (list Z)) (ms : list QP_rule_t) : option (list Z) :=
  match last (omap f ms) with Some t => Some t | None => d end.
Definition decided (o : Query_Processor_Output) (ms : list QP_rule_t) (new_query : option (list Z)) : Query_Processor_Output :=
  mk_output (chosen (λ r, destination_hostgroup r) (o_destination_hostgroup o) ms) (chosen (λ r, mirror_hostgroup r) (o_mirror_hostgroup o) ms)
    (chosen (λ r, mirror_flagOUT r) (o_mirror_flagOUT o) ms) (chosen (λ r, next_query_flagIN r) (o_next_query_flagIN o) ms)
    (chosen (λ r, cache_ttl r) (o_cache_ttl o) ms) (chosen (λ r, cache_empty_result r) (o_cache_empty_result o) ms)
    (chosen (λ r, cache_timeout r) (o_cache_timeout o) ms) (chosen (λ r, reconnect r) (o_reconnect o) ms)
    (chosen (λ r, timeout r) (o_timeout o) ms) (chosen (λ r, retries r) (o_retries o) ms) (chosen (λ r, delay r) (o_delay o) ms)
    (chosen_text (λ r, error_msg r) (o_error_msg o) ms) (chosen_text (λ r, OK_msg r) (o_OK_msg o) ms)
    (chosen (λ r, sticky_conn r) (o_sticky_conn o) ms) (chosen (λ r, multiplex r) (o_multiplex o) ms)
    (chosen (λ r, gtid_from_hostgroup r) (o_gtid_from_hostgroup o) ms) (o_max_lag_ms o) (chosen (λ r, log r) (o_log o) ms)
    (o_firewall_whitelist_mode o) (o_min_gtid o) (o_create_new_conn o) new_query.

Lemma chosen_app f d ms ns : chosen f d (ms ++ ns) = chosen f (chosen f d ms) ns.
Proof. unfold chosen. rewrite omap_app, last_app. by destruct (last (omap _ ns)). Qed.
Lemma chosen_text_app f d ms ns : chosen_text f d (ms ++ ns) = chosen_text f (chosen_text f d ms) ns.
Proof. unfold chosen_text. rewrite omap_app, last_app. by destruct (last (omap f ns)). Qed.
Lemma decided_app o ms ns q q' : decided (decided o ms q) ns q' = decided o (ms ++ ns) q'.
Proof. unfold decided. cbn. by rewrite !chosen_app, !chosen_text_app. Qed.
Lemma decided_nil o : decided o [] (o_new_query o) = o.
Proof. by destruct o. Qed.

(** A conditional update updates conditionally. *)
Lemma keep_reconnect b t o : when b (λ o, o <| o_reconnect := t |>) o = upd (proj := o_reconnect) (λ x, if b then t else x) o.
Proof. by destruct b, o. Qed.
Lemma keep_timeout b t o : when b (λ o, o <| o_timeout := t |>) o = upd (proj := o_timeout) (λ x, if b then t else x) o.
Proof. by destruct b, o. Qed.
Lemma keep_retries b t o : when b (λ o, o <| o_retries := t |>) o = upd (proj := o_retries) (λ x, if b then t else x) o.
Proof. by destruct b, o. Qed.
Lemma keep_delay b t o : when b (λ o, o <| o_delay := t |>) o = upd (proj := o_delay) (λ x, if b then t else x) o.
Proof. by destruct b, o. Qed.
Lemma keep_next_query_flagIN b t o : when b (λ o, o <| o_next_query_flagIN := t |>) o = upd (proj := o_next_query_flagIN) (λ x, if b then t else x) o.
Proof. by destruct b, o. Qed.
Lemma keep_mirror_flagOUT b t o : when b (λ o, o <| o_mirror_flagOUT := t |>) o = upd (proj := o_mirror_flagOUT) (λ x, if b then t else x) o.
Proof. by destruct b, o. Qed.
Lemma keep_mirror_hostgroup b t o : when b (λ o, o <| o_mirror_hostgroup := t |>) o = upd (proj := o_mirror_hostgroup) (λ x, if b then t else x) o.
Proof. by destruct b, o. Qed.
Lemma keep_error_msg b t o : when b (λ o, o <| o_error_msg := t |>) o = upd (proj := o_error_msg) (λ x, if b then t else x) o.
Proof. by destruct b, o. Qed.
Lemma keep_OK_msg b t o : when b (λ o, o <| o_OK_msg := t |>) o = upd (proj := o_OK_msg) (λ x, if b then t else x) o.
Proof. by destruct b, o. Qed.
Lemma keep_cache_ttl b t o : when b (λ o, o <| o_cache_ttl := t |>) o = upd (proj := o_cache_ttl) (λ x, if b then t else x) o.
Proof. by destruct b, o. Qed.
Lemma keep_cache_empty_result b t o : when b (λ o, o <| o_cache_empty_result := t |>) o = upd (proj := o_cache_empty_result) (λ x, if b then t else x) o.
Proof. by destruct b, o. Qed.
Lemma keep_cache_timeout b t o : when b (λ o, o <| o_cache_timeout := t |>) o = upd (proj := o_cache_timeout) (λ x, if b then t else x) o.
Proof. by destruct b, o. Qed.
Lemma keep_sticky_conn b t o : when b (λ o, o <| o_sticky_conn := t |>) o = upd (proj := o_sticky_conn) (λ x, if b then t else x) o.
Proof. by destruct b, o. Qed.
Lemma keep_multiplex b t o : when b (λ o, o <| o_multiplex := t |>) o = upd (proj := o_multiplex) (λ x, if b then t else x) o.
Proof. by destruct b, o. Qed.
Lemma keep_gtid_from_hostgroup b t o : when b (λ o, o <| o_gtid_from_hostgroup := t |>) o = upd (proj := o_gtid_from_hostgroup) (λ x, if b then t else x) o.
Proof. by destruct b, o. Qed.
Lemma keep_log b t o : when b (λ o, o <| o_log := t |>) o = upd (proj := o_log) (λ x, if b then t else x) o.
Proof. by destruct b, o. Qed.
Lemma keep_destination_hostgroup b t o : when b (λ o, o <| o_destination_hostgroup := t |>) o = upd (proj := o_destination_hostgroup) (λ x, if b then t else x) o.
Proof. by destruct b, o. Qed.

Lemma set_output_decided r o : set_output r o = decided o [r] (o_new_query o).
Proof.
  unfold set_output. cbn zeta.
  rewrite keep_reconnect, keep_timeout, keep_retries, keep_delay, keep_next_query_flagIN, keep_mirror_flagOUT, keep_mirror_hostgroup, keep_error_msg, keep_OK_msg, keep_cache_ttl, keep_cache_empty_result, keep_cache_timeout, keep_sticky_conn, keep_multiplex, keep_gtid_from_hostgroup, keep_log, keep_destination_hostgroup.
  destruct o as [h0 mh mf nf ct ce cto rc tmo rt dl em om sc mx gt lag lg fw mg cn nq].
  unfold decided, chosen, chosen_text. cbn [omap list_omap].
  cbv [upd Query_Processor_Output_eta o_destination_hostgroup o_mirror_hostgroup o_mirror_flagOUT o_next_query_flagIN o_cache_ttl
    o_cache_empty_result o_cache_timeout o_reconnect o_timeout o_retries o_delay o_error_msg o_OK_msg o_sticky_conn o_multiplex
    o_gtid_from_hostgroup o_max_lag_ms o_log o_firewall_whitelist_mode o_min_gtid o_create_new_conn o_new_query].
  f_equal; try (match goal with |- context [0 <=? ?x] => by destruct (0 <=? x) end); [by destruct (error_msg r)|by destruct (OK_msg r)].
Qed.

(** ** The chain always returns *)
(** A rule of a thread that can be examined and applied. *)
Definition ready (r : QP_rule_t) : Prop :=
  (is_Some (match_digest r) → is_Some (regex_engine1 r)) ∧ (is_Some (match_pattern r) → is_Some (regex_engine2 r)) ∧
  (is_Some (replace_pattern r) → is_Some (match_pattern r)) ∧
  (0 < flagOUT_weights_total r → ∃ ids weights, flagOUTs r = Some (ids, weights) ∧ length ids = length weights).

Lemma pick_flag_total rnd ids weights : length ids = length weights → ∃ o, pick_flag rnd ids weights = Ok o.
Proof.
  revert rnd ids. induction weights as [|w weights IH]; intros rnd ids Hl; [by exists None|]. destruct ids as [|id ids]; [done|].
  cbn. destruct (rnd <? w); [by eexists|]. apply IH. by injection Hl.
Qed.
Lemma weighted_flag_total r random : ready r → ∃ o, weighted_flag r random = Ok o.
Proof.
  intros (_ & _ & _ & H). unfold weighted_flag. destruct (Z.ltb_spec 0 (flagOUT_weights_total r)) as [Hw|]; [|by exists None].
  destruct (H Hw) as (ids & weights & -> & Hl). by apply pick_flag_total.
Qed.

Section ChainSpec.
Context (partial_match : re2_t → list Z → bool) (replace : re2_t → bool → list Z → list Z → list Z).
#[local] Abbreviation rule_matches := (rule_matches partial_match).
#[local] Abbreviation rewrite := (rewrite replace).
#[local] Abbreviation apply_rule := (apply_rule replace).
#[local] Abbreviation pass := (pass partial_match replace).
#[local] Abbreviation run_chain := (run_chain partial_match replace).

Lemma pattern_matches_total engine pat negate subject : (is_Some pat → is_Some engine) →
  ∃ b, pattern_matches partial_match engine pat negate subject = Ok b.
Proof. intros H. destruct pat as [p|]; [|by exists true]. destruct H as [e ->]; [by exists p|]. by eexists. Qed.
Lemma rule_matches_total sess qp query r st : ready r → ∃ b, rule_matches sess qp query r st = Ok b.
Proof.
  intros (H1 & H2 & _). unfold QPChain.rule_matches. do 6 (case_match; [by eexists|]).
  destruct (qp ≫= qp_digest_text) as [text|]; cbn [mbind outcome_bind].
  - destruct (pattern_matches_total (regex_engine1 r) (match_digest r) (negate_match_pattern r) text H1) as [b ->]. cbn [mbind outcome_bind].
    destruct b; [|by eexists]. by apply pattern_matches_total.
  - by apply pattern_matches_total.
Qed.
Lemma rewrite_total ptr query r o : ready r → ∃ nq, rewrite ptr query r o = Ok (o <| o_new_query := nq |>).
Proof.
  intros (_ & H2 & H3 & _). unfold QPChain.rewrite. assert (∃ nq, Ok o = Ok (o <| o_new_query := nq |>)) as Hsame by (exists (o_new_query o); by destruct o).
  destruct ptr; [|done]. destruct (replace_pattern r) as [rep|]; [|done]. destruct H2 as [e ->]; [apply H3; by eexists|]. cbn zeta. by eexists.
Qed.

Lemma decided_rewritten o r nq : (set_output r o) <| o_new_query := nq |> = decided o [r] nq.
Proof. by rewrite set_output_decided. Qed.

Lemma apply_rule_spec ptr reiterate query i r st : ready r →
  ∃ c st', apply_rule ptr reiterate query i r st = Ok (c, st') ∧ c_matched st' = c_matched st ++ [i] ∧ c_last st' = c_last st ∧
    c_out st' = decided (c_out st) [r] (o_new_query (c_out st')) ∧ (c = Restart → reiterate = true) ∧ (c = Exit ↔ apply r = true).
Proof.
  intros Hr. unfold QPChain.apply_rule.
  set (draw := if _ <? _ then _ else _). destruct draw as [random randoms]. cbn zeta.
  destruct (weighted_flag_total r random Hr) as [w ->]. cbn [mbind outcome_bind].
  set (fl := if 0 <=? flagOUT r then _ else _). destruct fl as [flag set_flag].
  destruct (rewrite_total ptr query r (set_output r (c_out st)) Hr) as [nq ->]. cbn [mbind outcome_bind].
  eexists _, _. split; [reflexivity|]. cbn [c_matched c_last c_out]. split; [done|]. split; [done|]. rewrite decided_rewritten. split; [done|].
  destruct (apply r); [done|]. destruct set_flag, reiterate; done.
Qed.

Lemma omap_shift {A} (x : A) (l : list A) (ps : list nat) : omap ((x :: l) !!.) (S <$> ps) = omap (l !!.) ps.
Proof. induction ps as [|p ps IH]; [done|]. change (omap ((x :: l) !!.) (S <$> p :: ps)) with (match l !! p with Some y => y :: omap ((x :: l) !!.) (S <$> ps) | None => omap ((x :: l) !!.) (S <$> ps) end). by rewrite IH. Qed.
Lemma pass_spec sess qp ptr reiterate query i rs st : Forall ready rs →
  ∃ c st' ps, pass sess qp ptr reiterate query i rs st = Ok (c, st') ∧ c_matched st' = c_matched st ++ (Nat.add i <$> ps) ∧
    (length ps ≤ length rs)%nat ∧ c_out st' = decided (c_out st) (omap (rs !!.) ps) (o_new_query (c_out st')) ∧
    Forall (λ p, is_Some (rs !! p)) ps ∧ (c = Restart → reiterate = true).
Proof.
  revert i st. induction rs as [|r rs IH]; intros i st Hr.
  { exists Continue, st, []. cbn. rewrite app_nil_r, decided_nil. by split_and!. }
  inversion Hr as [|? ? Hr1 Hr2]; subst. cbn [QPChain.pass]. set (st1 := st <| c_last := Some r |>).
  assert (∀ ps : list nat, (Nat.add i <$> (S <$> ps)) = (Nat.add (S i) <$> ps)) as Hps.
  { intros ps. rewrite <- list_fmap_compose. apply list_fmap_ext. cbn. lia. }
  assert (∀ ps : list nat, omap ((r :: rs) !!.) (S <$> ps) = omap (rs !!.) ps) as Hom.
  { intros ps. apply omap_shift. }
  assert (∀ ps : list nat, Forall (λ p, is_Some (rs !! p)) ps → Forall (λ p, is_Some ((r :: rs) !! p)) (S <$> ps)) as Hfa.
  { intros ps H. apply Forall_fmap. eapply Forall_impl; [exact H|]. done. }
  destruct (rule_matches_total sess qp query r st1 Hr1) as [b ->]. cbn [mbind outcome_bind]. destruct b.
  - destruct (apply_rule_spec ptr reiterate query i r st1 Hr1) as (c & st2 & -> & Em & El & Eo & Hc & _). cbn [mbind outcome_bind].
    destruct c.
    + destruct (IH (S i) st2 Hr2) as (c & st' & ps & -> & Em' & Hl & Eo' & Hf & Hc'). exists c, st', (0%nat :: (S <$> ps)).
      split; [done|]. split; [rewrite Em', Em; cbn [fmap list_fmap]; change (list_fmap nat nat) with (@fmap list _ nat nat); rewrite Hps, <- app_assoc; by rewrite Nat.add_0_r|].
      split; [cbn; rewrite length_fmap; lia|].
      split; [|split; [constructor; [by eexists|by apply Hfa]|done]].
      cbn [omap list_omap lookup list_lookup]. change (list_omap _) with (omap ((r :: rs) !!.)). rewrite Hom. rewrite Eo', Eo at 1. rewrite decided_app. done.
    + exists Exit, st2, [0%nat]. split; [done|]. rewrite Em. cbn. rewrite Nat.add_0_r. split_and!; [done|lia|done| |done]. constructor; [by eexists|constructor].
    + exists Restart, st2, [0%nat]. split; [done|]. rewrite Em. cbn. rewrite Nat.add_0_r. split_and!; [done|lia|done| |done]. constructor; [by eexists|constructor].
  - destruct (IH (S i) st1 Hr2) as (c & st' & ps & -> & Em' & Hl & Eo' & Hf & Hc'). exists c, st', (S <$> ps).
    rewrite Hps, Hom, length_fmap. split_and!; [done|done|cbn; lia|done|by apply Hfa|done].
Qed.

(** C17: The chain of rules always ends with a decision.  If the expressions of
    the rules are compiled, every rule with a replace pattern has a match pattern,
    and every weighted flag its weight ([ready]; all but the second hold of rules
    that were loaded, [compiled_ready]), then however flags jump and queries are rewritten the
    chain faults nowhere, matches at most as many rules as the number of passes
    allows, and every setting of the result is that of the last rule that matched
    and has one, or the initial one; nothing else of the result changes but the
    query. *)
Theorem chain_decides n sess qp ptr query rs st : Forall ready rs →
  ∃ st' ps, run_chain n sess qp ptr query rs st = Ok st' ∧ c_matched st' = c_matched st ++ ps ∧
    (length ps ≤ S n * length rs)%nat ∧ Forall (λ p, is_Some (rs !! p)) ps ∧
    c_out st' = decided (c_out st) (omap (rs !!.) ps) (o_new_query (c_out st')).
Proof.
  revert st. induction n as [|n IH]; intros st Hr; cbn [QPChain.run_chain].
  - destruct (pass_spec sess qp ptr (0 <? 0)%nat query 0 rs st Hr) as (c & st' & ps & -> & Em & Hl & Eo & Hf & Hc). cbn [mbind outcome_bind].
    assert (Nat.add 0 <$> ps = ps) as E0 by apply list_fmap_id. rewrite E0 in Em.
    exists st', ps. split; [by destruct c|]. split_and!; [done|lia|done|done].
  - destruct (pass_spec sess qp ptr (0 <? S n)%nat query 0 rs st Hr) as (c & st' & ps & -> & Em & Hl & Eo & Hf & Hc). cbn [mbind outcome_bind].
    assert (Nat.add 0 <$> ps = ps) as E0 by apply list_fmap_id. rewrite E0 in Em.
    assert (Ok st' = Ok st' → ∃ st'' ps', Ok st' = Ok st'' ∧ c_matched st'' = c_matched st ++ ps' ∧ (length ps' ≤ S (S n) * length rs)%nat ∧
      Forall (λ p, is_Some (rs !! p)) ps' ∧ c_out st'' = decided (c_out st) (omap (rs !!.) ps') (o_new_query (c_out st''))) as Hstop.
    { intros _. exists st', ps. split_and!; [done|done|lia|done|done]. }
    destruct c; [by apply Hstop|by apply Hstop|]. clear Hstop.
    destruct (IH st' Hr) as (st2 & ps2 & -> & Em2 & Hl2 & Hf2 & Eo2). exists st2, (ps ++ ps2). split; [done|].
    split; [by rewrite Em2, Em, app_assoc|]. split; [rewrite length_app; lia|]. split; [by apply Forall_app|].
    rewrite omap_app. rewrite Eo2 at 1. rewrite Eo. by rewrite decided_app.
Qed.

(** ** Rules without jumps *)
(** Rules that neither change the flag nor rewrite the query. *)
Definition plain (r : QP_rule_t) : Prop := flagOUT r < 0 ∧ flagOUT_weights_total r <= 0 ∧ replace_pattern r = None.
Definition accepts (sess : session) (qp : option SQP_par_t) (query : list Z) (flag : Z) (r : QP_rule_t) : bool :=
  match rule_matches sess qp query r (mk_chain init_output flag None [] []) with Ok b => b | Fault _ => false end.
Fixpoint through_apply (ms : list QP_rule_t) : list QP_rule_t :=
  match ms with [] => [] | r :: ms' => if apply r then [r] else r :: through_apply ms' end.
(** The rules that decide: those that match, up to the first that applies. *)
Definition deciding (sess : session) (qp : option SQP_par_t) (query : list Z) (flag : Z) (rs : list QP_rule_t) : list QP_rule_t :=
  through_apply (filter (λ r, accepts sess qp query flag r = true) rs).
(** The rule that is examined last. *)
Definition examined_last (ms rs : list QP_rule_t) : option QP_rule_t :=
  match last ms with Some r => if apply r then Some r else last rs | None => last rs end.

Lemma accepts_matches sess qp query r st : o_new_query (c_out st) = None → ready r →
  rule_matches sess qp query r st = Ok (accepts sess qp query (c_flagIN st) r).
Proof.
  intros Hq Hr. destruct (rule_matches_total sess qp query r st Hr) as [b E]. rewrite E. unfold accepts. f_equal. revert E.
  unfold QPChain.rule_matches. cbn [c_flagIN c_out init_output o_new_query]. rewrite Hq. intros E. change (o_new_query init_output) with (@None (list Z)).
  by rewrite E.
Qed.

Lemma plain_apply ptr reiterate query i r st : plain r → ∃ st', apply_rule ptr reiterate query i r st = Ok (if apply r then Exit else Continue, st') ∧
  c_out st' = decided (c_out st) [r] (o_new_query (c_out st)) ∧ c_flagIN st' = c_flagIN st ∧ c_last st' = c_last st ∧ c_matched st' = c_matched st ++ [i].
Proof.
  intros (Hf & Hw & Hrep). unfold QPChain.apply_rule, weighted_flag, QPChain.rewrite. rewrite (proj2 (Z.ltb_ge _ _)), (proj2 (Z.leb_gt _ _)), Hrep by done.
  cbn [mbind outcome_bind]. assert (∀ o, (if ptr then Ok o else Ok o) = @Ok Query_Processor_Output o) as E by (by destruct ptr). 
  cbn zeta. eexists. split; [destruct ptr; cbn; reflexivity|]. cbn [c_out c_flagIN c_last c_matched default]. by rewrite set_output_decided.
Qed.

Lemma examined_skip (r : QP_rule_t) ms rs d :
  match examined_last ms rs with Some x => Some x | None => Some r end = match examined_last ms (r :: rs) with Some x => Some x | None => d end.
Proof.
  unfold examined_last. rewrite last_cons. destruct (last ms) as [x|]; [destruct (apply x); [done|]|]; by destruct (last rs).
Qed.
Lemma examined_more (r : QP_rule_t) ms rs : apply r = false → examined_last (r :: ms) rs = examined_last ms rs.
Proof. intros Ha. unfold examined_last. rewrite last_cons. destruct (last ms); [done|]. by rewrite Ha. Qed.

Lemma plain_pass sess qp ptr reiterate query i rs st :
  Forall ready rs → Forall plain rs → o_new_query (c_out st) = None →
  let ms := deciding sess qp query (c_flagIN st) rs in
  ∃ c st', pass sess qp ptr reiterate query i rs st = Ok (c, st') ∧ c ≠ Restart ∧ c_out st' = decided (c_out st) ms None ∧
    c_flagIN st' = c_flagIN st ∧ c_last st' = match examined_last ms rs with Some r => Some r | None => c_last st end.
Proof.
  intros Hr Hp Hq. cbn zeta. revert i st Hq. induction rs as [|r rs IH]; intros i st Hq.
  { exists Continue, st. split; [done|]. split; [done|]. split; [|done]. rewrite <- Hq. symmetry. apply decided_nil. }
  inversion Hr as [|? ? Hr1 Hr2]; inversion Hp as [|? ? Hp1 Hp2]; subst. specialize (IH Hr2 Hp2). cbn [QPChain.pass].
  set (st1 := st <| c_last := Some r |>). rewrite (accepts_matches sess qp query r st1 Hq Hr1). cbn [mbind outcome_bind].
  change (c_flagIN st1) with (c_flagIN st). unfold deciding. destruct (accepts sess qp query (c_flagIN st) r) eqn:Ea.
  - rewrite filter_cons_True by done. cbn [through_apply].
    destruct (plain_apply ptr reiterate query i r st1 Hp1) as (st2 & -> & Eo & Ef & El & _). cbn [mbind outcome_bind].
    change (c_out st1) with (c_out st) in Eo. rewrite Hq in Eo. change (c_flagIN st1) with (c_flagIN st) in Ef. change (c_last st1) with (Some r) in El.
    destruct (apply r) eqn:Eap.
    + exists Exit, st2. split; [done|]. split; [done|]. rewrite Eo, Ef, El. split; [done|]. split; [done|].
      unfold examined_last. cbn. by rewrite Eap.
    + destruct (IH (S i) st2) as (c & st' & -> & Hc & Eo' & Ef' & El'); [by rewrite Eo|]. exists c, st'. split; [done|]. split; [done|].
      rewrite Eo', Ef', El', Eo, Ef, El, decided_app. split; [done|]. split; [done|]. rewrite examined_more by done.
      apply examined_skip.
  - rewrite filter_cons_False by (by rewrite Ea). destruct (IH (S i) st1 Hq) as (c & st' & -> & Hc & Eo' & Ef' & El'). exists c, st'.
    split; [done|]. split; [done|]. rewrite Eo', Ef', El'. split; [done|]. split; [done|]. change (c_last st1) with (Some r).
    change (c_flagIN st1) with (c_flagIN st). apply examined_skip.
Qed.
End ChainSpec.

(** ** Decisions *)
Lemma process_without_comment partial_match replace enumerate rand_del {J : Type} `{HJ : Json J} `{HK : JsonKinds J}
  env fw sess qp ptr query q t router t1 st :
  refresh (J := J) (e_regex env) (e_algorithm env) q t = Ok t1 → s_mirror sess = false → qp ≫= qp_first_comment = None → fw_enabled fw = false →
  run_chain partial_match replace (e_iterations env) sess qp ptr query (_thr_SQP_rules t1) (start sess (e_randoms env)).2 = Ok st →
  process_mysql_query partial_match replace enumerate rand_del (J := J) env fw sess qp ptr query q t router =
  '(router, out) ← route enumerate rand_del t1 q (e_lion_random env) (e_locked env) sess query st router;
  Ok (out <| o_firewall_whitelist_mode := WUS_NOT_FOUND |>,
      mk_thread (_thr_SQP_version t1) (add_hits (_thr_SQP_rules t1) (c_matched st)) (_thr_SQP_rules_fast_routing t1), router).
Proof.
  intros Ht Hm Hc Hf Er. unfold process_mysql_query. rewrite Ht. cbn [mbind outcome_bind].
  assert (start sess (e_randoms env) = (true, (start sess (e_randoms env)).2)) as -> by (unfold start; by rewrite Hm).
  rewrite Er. cbn [mbind outcome_bind].
  assert (∀ rs, route enumerate rand_del (mk_thread (_thr_SQP_version t1) rs (_thr_SQP_rules_fast_routing t1)) q (e_lion_random env) (e_locked env) sess query st router
    = route enumerate rand_del t1 q (e_lion_random env) (e_locked env) sess query st router) as -> by done.
  destruct (route _ _ _ _ _ _ _ _ _ _) as [[router' out]|]; [|done]. cbn [mbind outcome_bind]. rewrite Hm, Hc. cbn [mbind outcome_bind].
  unfold check_firewall. by rewrite Hf.
Qed.

(** The flag a query starts with. *)
Definition first_flag (sess : session) : Z := if 0 <=? s_next_query_flagIN sess then s_next_query_flagIN sess else 0.

Lemma plain_run partial_match replace n sess qp ptr query rs randoms :
  Forall ready rs → Forall plain rs → s_mirror sess = false →
  let ms := deciding partial_match sess qp query (first_flag sess) rs in
  ∃ st, run_chain partial_match replace n sess qp ptr query rs (start sess randoms).2 = Ok st ∧ c_out st = decided init_output ms None ∧
    c_flagIN st = first_flag sess ∧ c_last st = examined_last ms rs.
Proof.
  intros Hr Hp Hm. cbn zeta. assert ((start sess randoms).2 = mk_chain init_output (first_flag sess) None randoms []) as -> by (unfold start; by rewrite Hm).
  assert (∀ reiterate, ∃ c st, pass partial_match replace sess qp ptr reiterate query 0 rs (mk_chain init_output (first_flag sess) None randoms []) = Ok (c, st) ∧
    c ≠ Restart ∧ c_out st = decided init_output (deciding partial_match sess qp query (first_flag sess) rs) None ∧ c_flagIN st = first_flag sess ∧
    c_last st = examined_last (deciding partial_match sess qp query (first_flag sess) rs) rs) as H.
  { intros b. destruct (plain_pass partial_match replace sess qp ptr b query 0 rs (mk_chain init_output (first_flag sess) None randoms []) Hr Hp eq_refl)
      as (c & st & E & Hc & Eo & Ef & El). exists c, st. split; [done|]. split; [done|]. split; [done|]. split; [done|]. rewrite El. cbn [c_flagIN c_last].
    by destruct (examined_last _ _). }
  destruct n as [|n]; cbn [run_chain].
  - destruct (H (0 <? 0)%nat) as (c & st & -> & Hc & H'). exists st. split; [by destruct c|done].
  - destruct (H (0 <? S n)%nat) as (c & st & -> & Hc & H'). exists st. split; [by destruct c|done].
Qed.

Section Decision.
Context (partial_match : re2_t → list Z → bool) (replace : re2_t → bool → list Z → list Z → list Z) (enumerate : list Z → list Z).
Context (random : list Z) (Hlen : (2 ≤ length random)%nat) (Hdash : 45 ∉ random) (Hzero : no_nul random).
Context {J : Type} `{HJ : Json J} `{HK : JsonKinds J}.
#[local] Set Default Proof Using "Hlen Hdash Hzero".

(** C16: The rules and fast routing together decide where a query goes.  When no
    rule jumps or rewrites, the settings are those of the matching rules up to
    the first that applies, later ones overriding earlier ones; the hostgroup is
    the one configured for the user, the schema and the flag, or for the schema
    and the flag, except that the rules keep the last word when there is none,
    and when the rule examined last has its apply flag set: the one that applied,
    or, even if it did not match, the last rule of the table. *)
Theorem query_decided env fw sess (qp : option SQP_par_t) ptr query q t router t1 garbage frs m buf :
  refresh (J := J) (e_regex env) (e_algorithm env) q t = Ok t1 →
  Forall ready (_thr_SQP_rules t1) → Forall plain (_thr_SQP_rules t1) →
  s_mirror sess = false → qp ≫= qp_first_comment = None → fw_enabled fw = false →
  (∀ k, length (garbage k) = k) → frs ≠ [] → Forall (fast_row_ok random) frs →
  create_fast_routing_hashmap (delimiter random) garbage frs = Ok (Some m, buf) →
  match _thr_SQP_rules_fast_routing t1 with Some m' => Some m' | None => rules_fast_routing q end = Some m →
  0 <= first_flag sess < 2 ^ 31 → no_nul (s_username sess) → no_nul (s_schemaname sess) → without random (s_username sess) →
  let rs := _thr_SQP_rules t1 in
  let ms := deciding partial_match sess qp query (first_flag sess) rs in
  let hg := fast_route frs (s_username sess) (s_schemaname sess) (first_flag sess) in
  let kept := match examined_last ms rs with Some r => apply r | None => false end in
  ∃ t', process_mysql_query partial_match replace enumerate (delimiter random) (J := J) env fw sess qp ptr query q t router =
    Ok ((decided init_output ms None) <| o_destination_hostgroup :=
          if kept || (hg =? -1) then chosen (λ r, destination_hostgroup r) (-1) ms else hg |>, t', router).
Proof.
  intros Ht Hr Hp Hm Hc Hf Hg Hne Hrows Em Efast Hn Hu Hs Hw rs ms hg kept.
  destruct (plain_run partial_match replace (e_iterations env) sess qp ptr query rs (e_randoms env) Hr Hp Hm) as (st & Er & Eo & Ef & El).
  rewrite (process_without_comment _ _ _ _ _ _ _ _ _ _ _ _ _ t1 st) by done. eexists. unfold route. rewrite El, Ef, Eo. fold ms.
  assert (search_rules_fast_routing_dest_hg (delimiter random) m (s_username sess) (s_schemaname sess) (first_flag sess) = Ok hg) as Eh
    by (by eapply fast_route_found).
  assert (match examined_last ms rs with Some r => negb (apply r) | None => true end = negb kept) as -> by (unfold kept; by destruct (examined_last ms rs)).
  destruct kept; cbn [negb orb mbind outcome_bind]; [done|].
  assert (∀ x, (match _thr_SQP_rules_fast_routing t1 with
    | Some m => hg ← search_rules_fast_routing_dest_hg (delimiter random) m (s_username sess) (s_schemaname sess) (first_flag sess); Ok (router, hg)
    | None => match rules_fast_routing q with
      | Some m => hg ← search_rules_fast_routing_dest_hg (delimiter random) m (s_username sess) (s_schemaname sess) (first_flag sess); Ok (router, hg)
      | None => x end end) = Ok (router, hg)) as H.
  { intros x. destruct (_thr_SQP_rules_fast_routing t1) as [m'|]; [injection Efast as ->; by rewrite Eh|]. rewrite Efast, Eh. done. }
  rewrite H. cbn [mbind outcome_bind]. destruct (hg =? -1); done.
Qed.
End Decision.

(** ** Rules of the table are ready *)
Section Ready.
Context {J : Type} `{HJ : Json J} `{HK : JsonKinds J}.

Lemma parse_flagOUTs_lengths (js : list J) acc ids weights total :
  length acc.1.1 = length acc.1.2 → parse_flagOUTs js acc = Ok (ids, weights, total) → length ids = length weights.
Proof.
  revert acc. induction js as [|j js IH]; intros acc Hl E; [by injection E as ->|]. cbn [parse_flagOUTs] in E.
  destruct (parse_flagOUT acc j) as [acc'|] eqn:Ea; [|done]. cbn [mbind outcome_bind] in E. apply (IH acc'); [|done].
  unfold parse_flagOUT in Ea. repeat (case_match; try discriminate Ea; [|by injection Ea as <-]).
  destruct (json_at_key j (str "id")) as [jid|]; [|done]. cbn [mbind outcome_bind] in Ea. destruct (json_at_key j (str "weight")) as [jw|]; [|done].
  cbn [mbind outcome_bind] in Ea. destruct (json_is_unsigned jid && json_is_unsigned jw); [|by injection Ea as <-].
  destruct (json_get_int jid); [|done]. cbn [mbind outcome_bind] in Ea. destruct (json_get_int jw); [|done]. cbn [mbind outcome_bind] in Ea.
  injection Ea as <-. cbn. rewrite !length_app. cbn. lia.
Qed.
Lemma parse_attributes_weights a outs total : parse_attributes (J := J) a = Ok (outs, total) → 0 < total →
  ∃ ids weights, outs = Some (ids, weights) ∧ length ids = length weights.
Proof.
  unfold parse_attributes. destruct a as [[|c a]|]; [by intros [= <- <-]; lia| |by intros [= <- <-]; lia].
  destruct (json_parse (c :: a)) as [j|]; [|done]. cbn [mbind outcome_bind]. destruct (json_find j (str "flagOUTs")); [|by intros [= <- <-]; lia].
  destruct (json_member j (str "flagOUTs")) as [v|]; [|done]. cbn [mbind outcome_bind]. destruct (json_is_array v); [|by intros [= <- <-]; lia].
  destruct (parse_flagOUTs (json_values v) _) as [[[ids weights] total']|] eqn:E; [|done]. cbn [mbind outcome_bind]. intros [= <- <-] _.
  exists ids, weights. split; [done|]. by eapply parse_flagOUTs_lengths; [|exact E].
Qed.

(** A rule of the table that replaces only what it matches is ready once it is compiled. *)
Lemma compiled_ready regex p (r : QP_rule_t) : built r → (is_Some (replace_pattern r) → is_Some (match_pattern r)) →
  ready (compiled regex r <| parent := p |>).
Proof.
  intros (_ & Ea & _) Hrep. split; [|split; [|split; [done|]]].
  - intros H. cbn. by apply fmap_is_Some.
  - intros H. cbn. by apply fmap_is_Some.
  - by eapply parse_attributes_weights.
Qed.
End Ready.

(** ** Defects *)
(** An apply flag on the last rule of the table keeps fast routing and the
    LionRouter from being asked even if that rule does not match. *)
Lemma unmatched_apply_skips_routing partial_match replace enumerate rand_del n sess qp ptr query rs (r : QP_rule_t) randoms t q lion locked router :
  Forall ready (rs ++ [r]) → Forall plain (rs ++ [r]) → s_mirror sess = false → apply r = true →
  (∀ r' : QP_rule_t, r' ∈ deciding partial_match sess qp query (first_flag sess) (rs ++ [r]) → apply r' = false) →
  ∃ st, run_chain partial_match replace n sess qp ptr query (rs ++ [r]) (start sess randoms).2 = Ok st ∧
    route enumerate rand_del t q lion locked sess query st router =
      Ok (router, decided init_output (deciding partial_match sess qp query (first_flag sess) (rs ++ [r])) None).
Proof.
  intros Hr Hp Hm Ha Hd. destruct (plain_run partial_match replace n sess qp ptr query (rs ++ [r]) randoms Hr Hp Hm) as (st & Er & Eo & _ & El).
  exists st. split; [done|]. unfold route. rewrite El, <- Eo. unfold examined_last. rewrite last_snoc.
  destruct (last (deciding _ _ _ _ _ _)) as [x|] eqn:Ex; [|by rewrite Ha]. rewrite (Hd x) by (by apply last_Some_elem_of). by rewrite Ha.
Qed.

(** The hostgroup of a mirror session does not survive fast routing. *)
Lemma mirror_hostgroup_overridden enumerate rand_del sess randoms t q lion locked query router m hg :
  s_mirror sess = true → s_mirror_flagOUT sess = -1 → _thr_SQP_rules_fast_routing t = Some m → hg ≠ -1 →
  search_rules_fast_routing_dest_hg rand_del m (s_username sess) (s_schemaname sess) (first_flag sess) = Ok hg →
  let '(enter, st) := start sess randoms in
  enter = false ∧ o_destination_hostgroup (c_out st) = s_mirror_hostgroup sess ∧
  ∃ o, route enumerate rand_del t q lion locked sess query st router = Ok (router, o) ∧ o_destination_hostgroup o = hg.
Proof.
  intros Hm Hf Ht Hne Hs. unfold start. rewrite Hm, Hf. cbn. split; [done|]. split; [done|]. unfold route. cbn. fold (first_flag sess).
  rewrite Ht, Hs. cbn. eexists. split; [done|]. by rewrite (proj2 (Z.eqb_neq _ _)).
Qed.

(** ** Witnesses *)
Module Example.
(** Finding a text instead of an expression, and replacing the whole query. *)
Definition contains (e : re2_t) (s : list Z) : bool := strcasestr s (pattern e).
Definition replaced (e : re2_t) (global : bool) (rep s : list Z) : list Z := rep.
Definition rule (id flag : Z) (user : option (list Z)) (pat : string) (rep : option (list Z)) (flag_out hg tmo : Z) (app : bool) : QP_rule_t :=
  mk_rule (mk_conf id true user None flag None None (-1) None (Some (str pat)) false flag_out rep hg (-1) (-1) (-1) (-1) tmo (-1) (-1) (-1) (-1) (-1)
    None None (-1) (-1) (-1) (-1) app None None) (-1) 0 0 None 0 None (Some (mk_re2 true false (str pat))) 0 None.
Definition app_session : session := mk_session (str "app") (str "shop") (Some (str "10.0.0.7")) None 0 (-1) false (-1) (-1).
Definition rows : list fast_row := [mk_fast_row (str "app") (str "shop") (str "0") (str "4")].
Definition thread (rs : list QP_rule_t) : qp_thread :=
  mk_thread 0 rs (Some (foldl (add_route example_random) ∅ rows)).
End Example.
Import Example.

Lemma example_ready id flag user pat rep flag_out hg tmo app : ready (rule id flag user pat rep flag_out hg tmo app).
Proof. split; [by intros [? ?]|]. split; [by eexists|]. split; [by eexists|]. cbn. lia. Qed.

Lemma example_rows_ok : Forall (fast_row_ok example_random) rows.
Proof.
  constructor; [|constructor]. split; [repeat (constructor; [done|]); constructor|]. split; [repeat (constructor; [done|]); constructor|].
  split; [repeat (constructor; [done|]); constructor|]. split; [apply without_check; vm_compute; reflexivity|]. exists 0. split; [lia|reflexivity].
Qed.

Lemma chain_decides_witness :
  let rs := [rule 1 0 None "SELECT" (Some (str "SELECT 2")) 7 3 100 false; rule 2 7 None "2" None (-1) 5 (-1) true] in
  ∃ st, run_chain contains replaced 1 app_session None true (str "SELECT 1") rs (start app_session []).2 = Ok st ∧
    ∃ ps, c_matched st = [] ++ ps ∧ (length ps ≤ 4)%nat ∧
    (o_destination_hostgroup (c_out st), o_timeout (c_out st), o_new_query (c_out st)) = (5, 100, Some (str "SELECT 2")).
Proof.
  intros rs. assert (Forall ready rs) as Hr by (repeat (constructor; [apply example_ready|]); constructor).
  destruct (chain_decides contains replaced 1 app_session None true (str "SELECT 1") rs (start app_session []).2 Hr) as (st & ps & E & Em & Hl & _ & _).
  exists st. split; [exact E|]. exists ps. split; [exact Em|]. split; [exact Hl|]. vm_compute in E. injection E as <-. reflexivity.
Defined.

Lemma query_decided_witness :
  let rs := [rule 1 0 None "SELECT" None (-1) 3 100 false; rule 2 0 (Some (str "root")) "SELECT" None (-1) 9 5 false] in
  let env := mk_env 2 1 0 [] 0 true 0 [] in
  ∃ t' o, process_mysql_query contains replaced (λ l, l) (delimiter example_random) (J := LionRouter.Example.doc) env (mk_firewall false [] ∅ ∅)
      app_session None true (str "SELECT 1") init_qp (thread rs) new_router = Ok (o, t', new_router) ∧
    (o_destination_hostgroup o, o_timeout o) = (4, 100).
Proof.
  intros rs env.
  destruct (query_decided contains replaced (λ l, l) example_random
    ltac:(apply (bool_decide_unpack _); vm_compute; exact I) ltac:(apply (bool_decide_unpack _); vm_compute; exact I) ltac:(repeat (constructor; [done|]); constructor)
    (J := LionRouter.Example.doc) env (mk_firewall false [] ∅ ∅) app_session None true (str "SELECT 1") init_qp (thread rs) new_router (thread rs)
    (λ n, repeat 1 n) rows (foldl (add_route example_random) ∅ rows) (concat (encoded example_random <$> rows))) as (t' & E).
  - reflexivity.
  - repeat (constructor; [apply example_ready|]). constructor.
  - repeat (constructor; [split; [reflexivity|split; [discriminate|reflexivity]]|]). constructor.
  - reflexivity.
  - reflexivity.
  - reflexivity.
  - intros k. apply repeat_length.
  - discriminate.
  - apply example_rows_ok.
  - apply create_fast_spec.
    + apply (bool_decide_unpack _). vm_compute. exact I.
    + apply (bool_decide_unpack _). vm_compute. exact I.
    + repeat (constructor; [done|]). constructor.
    + intros k. apply repeat_length.
    + discriminate.
    + apply example_rows_ok.
  - reflexivity.
  - cbn. lia.
  - repeat (constructor; [done|]). constructor.
  - repeat (constructor; [done|]). constructor.
  - apply without_check. vm_compute. reflexivity.
  - eexists t', _. split; [exact E|]. vm_compute. reflexivity.
Defined.
