(* ===== verification/QPStats.v ===== *)
(** * Threads and the table of rules together (lib/Query_Processor.cpp)

    Threads process queries on their copies of the rules while the table is
    loaded again and the old rules are deleted; every now and then a thread adds
    the hits it counted to the table.  The history of such steps is compared
    with a table whose rules are counted where they match.  The last part puts
    the firewall together with its tables. *)
From S2P Require Import Prelude StringUtils CNumbers LionRouter QPComment QPTables QPRules QPChain.

(** ** Histories *)
(** The table, the threads, and the sets of old rules that are not deleted yet. *)
Record system := mk_system { table_of : Query_Processor; threads : gmap nat qp_thread; old_rules : list (list Z) }.
#[export] Instance system_eta : Eta system := λ s, mk_system (table_of s) (threads s) (old_rules s).

(** A query that matches the rules at some positions of the thread's copy, a
    thread that adds its hits to the table, a load, and the deletion after it. *)
Inductive step :=
  | Query (thread : nat) (regex algorithm : Z) (matched : list nat)
  | Update (thread : nat)
  | Load (rows : list row)
  | Delete.

Section System.
Context {J : Type} `{HJ : Json J} `{HK : JsonKinds J}.

Definition get_thread (s : system) (i : nat) : qp_thread := default init_thread (threads s !! i).
Definition exec (s : system) (e : step) : outcome system :=
  match e with
  | Query i regex algorithm matched =>
      t ← refresh (J := J) regex algorithm (table_of s) (get_thread s i);
      let t := mk_thread (_thr_SQP_version t) (add_hits (_thr_SQP_rules t) matched) (_thr_SQP_rules_fast_routing t) in
      Ok (s <| threads := <[i := t]> (threads s) |>)
  | Update i =>
      '(q, t) ← update_query_processor_stats (table_of s) (get_thread s i);
      Ok (s <| table_of := q |> <| threads := <[i := t]> (threads s) |>)
  | Load rows =>
      '(old, q) ← load_mysql_query_rules (J := J) rows None [] (table_of s);
      Ok (s <| table_of := q |> <| old_rules := old_rules s ++ [old] |>)
  | Delete =>
      match old_rules s with
      | [] => Ok s
      | l :: ls => q ← __reset_rules l (table_of s); Ok (s <| table_of := q |> <| old_rules := ls |>)
      end
  end.
Fixpoint exec_all (s : system) (es : list step) : outcome system :=
  match es with [] => Ok s | e :: es' => s ← exec s e; exec_all s es' end.
Definition init_system : system := mk_system init_qp ∅ [].

(** ** Hits that are not lost *)
(** The hits of the rule at position [p] that a thread has not added yet. *)
Definition hits_at (rs : list QP_rule_t) (p : nat) : Z := match rs !! p with Some r => hits r | None => 0 end.
Definition pending (v : Z) (p : nat) (t : qp_thread) : Z := if _thr_SQP_version t =? v then hits_at (_thr_SQP_rules t) p else 0.
(** The hits of the rule at position [p] of the table, wherever they are. *)
Definition table_hits (q : Query_Processor) (p : nat) : Z :=
  match rules q !! p ≫= λ a, objects q !! a with Some r => hits r | None => 0 end.
Definition total_hits (s : system) (p : nat) : Z :=
  table_hits (table_of s) p + map_total (pending (version (table_of s)) p) (threads s).

(** A table that counts every match at once, and starts again at every load. *)
Definition tally (counts : list Z) (e : step) : list Z :=
  match e with
  | Query _ _ _ matched => foldl (λ counts p, alter Z.succ p counts) counts matched
  | Load rows => replicate (length (filter row_accepted rows)) 0
  | _ => counts
  end.

(** ** The invariant *)
Definition parents (q : Query_Processor) (rs : list QP_rule_t) : Prop :=
  Forall2 (λ (r : QP_rule_t) a, parent r = Some a ∧ active r = true) rs (rules q).
Definition thread_ok (q : Query_Processor) (t : qp_thread) : Prop :=
  _thr_SQP_version t <= version q ∧ (_thr_SQP_version t = version q → parents q (_thr_SQP_rules t)).
Definition inv (s : system) : Prop :=
  let q := table_of s in
  qp_ok q ∧ (∃ rs, table (J := J) q (rules q) rs) ∧ NoDup (rules q ++ concat (old_rules s)) ∧
  Forall (λ a, is_Some (objects q !! a)) (concat (old_rules s)) ∧ map_Forall (λ _ t, thread_ok q t) (threads s) ∧
  (version q = 0 → rules q = []) ∧ rules_fast_routing___keys_values q = [].

Lemma system_inv_init : inv init_system.
Proof.
  split; [split; [constructor|split; [by intros ? ? H|cbn; lia]]|]. split; [exists []; constructor|]. split; [constructor|]. split; [constructor|].
  by split; [intros ? ? H|].
Qed.
Lemma inv_thread s i : inv s → thread_ok (table_of s) (get_thread s i).
Proof.
  intros (Hq & _ & _ & _ & Ht & H0 & _). unfold get_thread. destruct (threads s !! i) as [t|] eqn:E; [by apply (Ht i)|]. cbn.
  destruct Hq as (_ & _ & Hv). split; [done|]. cbn. intros Hv0. unfold parents. cbn. rewrite H0 by done. constructor.
Qed.

(** Replacing a thread by one with other pending hits. *)
Lemma map_total_thread (f : qp_thread → Z) (m : gmap nat qp_thread) i t : f init_thread = 0 →
  map_total f (<[i := t]> m) = map_total f m - f (default init_thread (m !! i)) + f t.
Proof.
  intros H0. destruct (m !! i) as [t0|] eqn:E; cbn; [by apply map_total_update|]. rewrite map_total_insert_new by done. lia.
Qed.
Lemma pending_init v p : pending v p init_thread = 0.
Proof. unfold pending. by destruct (_ =? v). Qed.

(** *** Queries *)
Lemma add_hits_at rs matched p : (p < length rs)%nat →
  u64 (hits_at (add_hits rs matched) p) = u64 (hits_at rs p + Z.of_nat (length (filter (eq p) matched))).
Proof.
  revert rs. induction matched as [|m matched IH]; intros rs Hp; [cbn; by rewrite Z.add_0_r|]. cbn [add_hits foldl].
  change (foldl _ (alter _ m rs) matched) with (add_hits (alter (λ r : QP_rule_t, r <| hits := u64 (hits r + 1) |>) m rs) matched).
  rewrite IH by (by rewrite length_alter). unfold hits_at. destruct (decide (p = m)) as [<-|Hne].
  - rewrite list_lookup_alter_eq, filter_cons_True by done. destruct (lookup_lt_is_Some_2 rs p Hp) as [r Er]. rewrite Er. cbn. 
    rewrite u64_add_idemp. f_equal. lia.
  - rewrite list_lookup_alter_ne by done. by rewrite filter_cons_False.
Qed.
Lemma tally_at (counts : list Z) (matched : list nat) (p : nat) (n : Z) : counts !! p = Some n →
  foldl (λ counts p, alter Z.succ p counts) counts matched !! p = Some (n + Z.of_nat (length (filter (eq p) matched))).
Proof.
  revert counts n. induction matched as [|m matched IH]; intros counts n Hn; [cbn; by rewrite Z.add_0_r|]. cbn [foldl].
  destruct (decide (p = m)) as [<-|Hne].
  - rewrite filter_cons_True by done. rewrite (IH _ (n + 1)); [cbn [length]; f_equal; lia|]. by rewrite list_lookup_alter_eq, Hn.
  - rewrite filter_cons_False by done. apply IH. by rewrite list_lookup_alter_ne.
Qed.
Lemma tally_length counts matched : length (foldl (λ (counts : list Z) p, alter Z.succ p counts) counts matched) = length counts.
Proof. revert counts. induction matched as [|m matched IH]; intros counts; [done|]. cbn. by rewrite IH, length_alter. Qed.
Lemma add_hits_parents q rs matched : parents q rs → parents q (add_hits rs matched).
Proof.
  revert rs. induction matched as [|m matched IH]; intros rs H; [done|]. cbn [add_hits foldl]. apply IH. clear IH.
  unfold parents in *. revert m. induction H as [|r a rs l Hr H IH]; intros m; [constructor|]. destruct m as [|m]; cbn; constructor; [done..|done|by apply IH].
Qed.

Lemma refresh_keeps_pending regex algorithm q t rs : table (J := J) q (rules q) rs → thread_ok q t →
  rules_fast_routing___keys_values q = [] →
  ∃ t', refresh (J := J) regex algorithm q t = Ok t' ∧ _thr_SQP_version t' = version q ∧ parents q (_thr_SQP_rules t') ∧
    ∀ p, pending (version q) p t' = pending (version q) p t.
Proof.
  intros Ht [Hv Hp] Hf. unfold refresh. destruct (Z.ltb_spec (_thr_SQP_version t) (version q)) as [Hlt|Hge].
  - rewrite (copy_rules_spec regex q _ rs) by done. cbn [mbind outcome_bind].
    assert (∃ m, (if algorithm =? 1 then thread_fast_routing (rules_fast_routing___keys_values q) else Ok None) = Ok m) as [m ->].
    { rewrite Hf. exists None. by destruct (algorithm =? 1). }
    cbn [mbind outcome_bind]. eexists. split; [done|]. cbn. split; [done|]. split.
    + unfold parents. clear -Ht. induction Ht as [|a r l rs (_ & _ & Ha) Ht IH]; constructor; [done|apply IH].
    + intros p. unfold pending. cbn. rewrite Z.eqb_refl, (proj2 (Z.eqb_neq _ _)) by lia. unfold hits_at. rewrite lookup_zip_with.
      destruct (rules q !! p); [|done]. cbn. by destruct (rs !! p).
  - exists t. split; [done|]. assert (_thr_SQP_version t = version q) as E by lia. split; [done|]. split; [by apply Hp|done].
Qed.

(** *** Updates *)
(** What one thread's hits do to the rules of the table. *)
Definition added (h : Z) (o o' : QP_rule_t) : Prop := o' = o <| hits := hits o' |> ∧ u64 (hits o') = u64 (hits o + h).

Lemma push_one (r : QP_rule_t) a o (q : Query_Processor) : parent r = Some a → active r = true → objects q !! a = Some o →
  ∃ o' q', (if active r && negb (hits r =? 0) then
              match parent r with
              | None => Fault NullPointer
              | Some a => p ← get_rule q a; Ok (r <| hits := 0 |>, q <| objects := <[a := p <| hits := u64 (hits p + hits r) |>]> (objects q) |>)
              end
            else Ok (r, q)) = Ok (r <| hits := 0 |>, q') ∧
    q' = q <| objects := <[a := o']> (objects q) |> ∧ added (hits r) o o'.
Proof.
  intros Hp Ha Ho. rewrite Ha, Hp. unfold get_rule. rewrite Ho. cbn [andb mbind outcome_bind]. destruct (Z.eqb_spec (hits r) 0) as [E|E]; cbn [negb].
  - exists o, q. rewrite insert_id by done. split; [do 2 f_equal; destruct r; cbn in E; by subst|]. split; [by destruct q|]. split; [by destruct o|].
    f_equal. lia.
  - eexists _, _. split; [reflexivity|]. split; [reflexivity|]. split; [done|]. cbn. by rewrite u64_u64.
Qed.

Lemma push_hits_spec rs l (q : Query_Processor) :
  Forall2 (λ (r : QP_rule_t) a, parent r = Some a ∧ active r = true) rs l → NoDup l → Forall (λ a, is_Some (objects q !! a)) l →
  ∃ objs, push_hits rs q = Ok ((λ r, r <| hits := 0 |>) <$> rs, q <| objects := objs |>) ∧
    (∀ a, a ∉ l → objs !! a = objects q !! a) ∧
    (∀ p r a, rs !! p = Some r → l !! p = Some a → ∃ o o', objects q !! a = Some o ∧ objs !! a = Some o' ∧ added (hits r) o o').
Proof.
  intros Hp. revert q. induction Hp as [|r a rs l [Hpa Hact] Hp IH]; intros q Hn Ho.
  { exists (objects q). split; [by destruct q|]. by split. }
  apply NoDup_cons in Hn as [Hal Hn]. apply Forall_cons in Ho as [[o Eo] Ho]. cbn [push_hits].
  destruct (push_one r a o q Hpa Hact Eo) as (o' & q1 & -> & -> & Hadd). cbn [mbind outcome_bind].
  destruct (IH (q <| objects := <[a := o']> (objects q) |>) Hn) as (objs & -> & Hsame & Hall).
  { eapply Forall_impl; [exact Ho|]. cbn. intros b [ob Eb]. destruct (decide (b = a)) as [->|Hne]; [rewrite lookup_insert_eq; by eexists|].
    rewrite lookup_insert_ne by done. by eexists. }
  cbn [mbind outcome_bind]. exists objs. split; [done|]. cbn in Hsame, Hall. split.
  - intros b Hb. apply not_elem_of_cons in Hb as [Hne Hb]. rewrite Hsame by done. by apply lookup_insert_ne.
  - intros p r' a' Hr' Ha'. destruct p as [|p]; cbn in Hr', Ha'.
    + simplify_eq. exists o, o'. split; [done|]. split; [|done]. rewrite Hsame by done. apply lookup_insert_eq.
    + destruct (Hall p r' a' Hr' Ha') as (o1 & o2 & E1 & E2 & Hadd'). exists o1, o2. split; [|done].
      rewrite lookup_insert_ne in E1; [done|]. intros <-. apply Hal. by eapply list_elem_of_lookup_2.
Qed.

Lemma added_built h o o' : added h o o' → built (J := J) o → built (J := J) o'.
Proof. by intros [-> _]. Qed.
Lemma added_active h (o o' : QP_rule_t) : added h o o' → active o' = active o.
Proof. intros [-> _]. done. Qed.

(** *** Deletions *)
Lemma reset_rules_spec l (q : Query_Processor) : NoDup l → Forall (λ a, is_Some (objects q !! a)) l →
  ∃ objs, __reset_rules l q = Ok (q <| objects := objs |>) ∧ (∀ a, a ∉ l → objs !! a = objects q !! a) ∧ objs ⊆ objects q.
Proof.
  revert q. induction l as [|a l IH]; intros q Hn Ho; [exists (objects q); split; [by destruct q|]; by split|].
  apply NoDup_cons in Hn as [Hal Hn]. apply Forall_cons in Ho as [[o Eo] Ho]. cbn [__reset_rules]. unfold get_rule. rewrite Eo. cbn [mbind outcome_bind].
  destruct (IH (q <| objects := delete a (objects q) |>) Hn) as (objs & -> & Hsame & Hsub).
  { rewrite Forall_forall in Ho |- *. intros b Hb. cbn. rewrite lookup_delete_ne; [by apply Ho|]. by intros <-. }
  exists objs. split; [done|]. cbn in Hsame, Hsub. split.
  - intros b Hb. apply not_elem_of_cons in Hb as [Hne Hb]. rewrite Hsame by done. by apply lookup_delete_ne.
  - transitivity (delete a (objects q)); [done|]. apply delete_subseteq.
Qed.

(** *** Steps *)
Definition counted (s : system) (counts : list Z) : Prop :=
  length counts = length (rules (table_of s)) ∧ ∀ p n, counts !! p = Some n → u64 (total_hits s p) = u64 n.
Definition load_ok (e : step) : Prop :=
  match e with
  | Load rows => Forall (λ r : row, (5 ≤ length r)%nat) rows ∧ ∃ new, mapM (rule_of_row (J := J)) (filter row_accepted rows) = Ok new
  | _ => True
  end.

Lemma u64_exchange t x y k n : u64 y = u64 (x + k) → u64 t = u64 n → u64 (t - x + y) = u64 (n + k).
Proof.
  unfold u64. intros Hy Ht. replace (t - x + y) with (t + (y - x)) by lia. rewrite Zplus_mod, Ht. rewrite <- Zplus_mod.
  rewrite (Zplus_mod n (y - x)), (Zplus_mod n k). do 2 f_equal. rewrite Zminus_mod, Hy, <- Zminus_mod. f_equal. lia.
Qed.

Lemma query_step s counts i regex algorithm matched : inv s → counted s counts →
  ∃ s', exec s (Query i regex algorithm matched) = Ok s' ∧ inv s' ∧ counted s' (tally counts (Query i regex algorithm matched)) ∧
    version (table_of s') = version (table_of s).
Proof.
  intros Hi [Hl Hc]. pose proof (inv_thread s i Hi) as Hti. destruct Hi as (Hq & [rs Ht] & Hn & Ho & Hth & H0 & Hkv).
  destruct (refresh_keeps_pending regex algorithm (table_of s) (get_thread s i) rs Ht Hti Hkv) as (t & E & Ev & Hp & Hpend).
  cbn [exec]. rewrite E. cbn [mbind outcome_bind]. eexists. split; [done|]. split.
  { split; [done|]. split; [by exists rs|]. split; [done|]. split; [done|]. split; [|done]. cbn. apply map_Forall_insert_2; [|done].
    split; cbn; [lia|]. intros _. by apply add_hits_parents. }
  split; [|done]. split; [cbn [tally]; by rewrite tally_length|]. intros p n Hpn. cbn [tally] in Hpn.
  destruct (lookup_lt_is_Some_2 counts p) as [n0 Hn0]. { apply lookup_lt_Some in Hpn. by rewrite tally_length in Hpn. }
  rewrite (tally_at _ _ _ _ Hn0) in Hpn. injection Hpn as <-. unfold total_hits. cbn.
  rewrite map_total_thread by apply pending_init. fold (get_thread s i).
  set (a := table_hits (table_of s) p). set (b := map_total _ _). rewrite <- Hpend.
  replace (a + (b - pending (version (table_of s)) p t + pending (version (table_of s)) p (mk_thread (_thr_SQP_version t) (add_hits (_thr_SQP_rules t) matched) (_thr_SQP_rules_fast_routing t))))
    with (a + b - pending (version (table_of s)) p t + pending (version (table_of s)) p (mk_thread (_thr_SQP_version t) (add_hits (_thr_SQP_rules t) matched) (_thr_SQP_rules_fast_routing t))) by lia.
  apply u64_exchange; [|by apply Hc]. unfold pending. cbn. rewrite Ev, Z.eqb_refl. apply add_hits_at.
  apply Forall2_length in Hp. rewrite Hp, <- Hl. by eapply lookup_lt_Some.
Qed.

(** The table with hits added to its rules is a table. *)
Lemma table_added q objs l rs : table (J := J) q l rs → (∀ a o, objects q !! a = Some o → ∃ h o', objs !! a = Some o' ∧ added h o o') →
  ∃ rs', table (J := J) (q <| objects := objs |>) l rs'.
Proof.
  intros Ht Hobj. induction Ht as [|a r l rs (Ea & Hb & Hact) _ [rs2 IH]]; [exists []; constructor|].
  destruct (Hobj a r Ea) as (h & o' & E' & Hadd). exists (o' :: rs2). constructor; [|done]. split; [done|]. split; [by eapply added_built|].
  by rewrite (added_active h r o').
Qed.
Lemma inv_added s objs i t : inv s → thread_ok (table_of s) t →
  (∀ a o, objects (table_of s) !! a = Some o → ∃ h o', objs !! a = Some o' ∧ added h o o') →
  (∀ a, is_Some (objs !! a) → is_Some (objects (table_of s) !! a)) →
  inv (s <| table_of := (table_of s) <| objects := objs |> |> <| threads := <[i := t]> (threads s) |>).
Proof.
  intros ((Hq1 & Hq2 & Hq3) & [rs Ht] & Hn & Ho & Hth & H0 & Hkv) Hti Hobj Hdom.
  assert (∀ a, is_Some (objects (table_of s) !! a) → is_Some (objs !! a)) as Hsome.
  { intros a [o Ea]. destruct (Hobj a o Ea) as (h & o' & E' & _). by exists o'. }
  split; [split; [|split; [|done]]|].
  - eapply Forall_impl; [exact Hq1|]. cbn. apply Hsome.
  - cbn. intros a o' Ea. destruct (Hdom a) as [o Eo]; [by eexists|]. by apply (Hq2 a o).
  - split.
    { eapply table_added; [exact Ht|exact Hobj]. }
    split; [done|]. split; [eapply Forall_impl; [exact Ho|]; cbn; apply Hsome|]. split; [|done]. cbn. by apply map_Forall_insert_2.
Qed.

Lemma update_keeps_counts s counts i : inv s → counted s counts →
  ∃ s', exec s (Update i) = Ok s' ∧ inv s' ∧ counted s' counts ∧ version (table_of s') = version (table_of s).
Proof.
  intros Hi [Hl Hc]. pose proof (inv_thread s i Hi) as Hti.
  cbn [exec]. unfold update_query_processor_stats. set (t := get_thread s i) in *. set (q := table_of s) in *.
  destruct (Z.eqb_spec (version q) (_thr_SQP_version t)) as [E|E].
  2: { cbn [mbind outcome_bind]. eexists. split; [done|]. split.
    { pose proof (inv_added s (objects q) i t Hi Hti) as H. unfold q in H. assert (q <| objects := objects q |> = q) as Eq by (by destruct q). fold q in H. rewrite Eq in H.
      apply H; [|done]. intros a o Ea. exists 0, o. split; [done|]. split; [by destruct o|]. f_equal. lia. }
    split; [|done]. split; [done|]. intros p n Hp. unfold total_hits. cbn. fold q. rewrite map_total_thread by apply pending_init.
    fold (get_thread s i). fold t. rewrite <- (Hc p n Hp). f_equal. unfold total_hits. fold q. lia. }
  destruct Hti as [Hle Hp]. specialize (Hp (eq_sym E)). pose proof Hi as ((Hq1 & _) & _ & Hn & _).
  destruct (push_hits_spec _ _ q Hp) as (objs & -> & Hsame & Hall); [by apply NoDup_app in Hn as [? _]|done|].
  cbn [mbind outcome_bind]. eexists. split; [done|]. assert (Hlen := Forall2_length _ _ _ Hp). split.
  { apply inv_added; [done| | |].
    - split; cbn; [done|]. intros _. apply Forall2_fmap_l. eapply Forall2_impl; [exact Hp|]. done.
    - intros a o Ea. fold q in Ea. destruct (decide (a ∈ rules q)) as [[p Hpa]%list_elem_of_lookup_1|Hna].
      + destruct (lookup_lt_is_Some_2 (_thr_SQP_rules t) p) as [r Hr]; [rewrite Hlen; by eapply lookup_lt_Some|].
        destruct (Hall p r a Hr Hpa) as (o1 & o2 & E1 & E2 & Hadd). simplify_eq. by exists (hits r), o2.
      + exists 0, o. rewrite Hsame by done. split; [done|]. split; [by destruct o|]. f_equal. lia.
    - intros a Ha. destruct (decide (a ∈ rules q)) as [Hin|Hna]; [by apply (proj1 (Forall_forall _ _) Hq1)|]. by rewrite Hsame in Ha. }
  split; [|done]. split; [done|]. intros p n Hpn. rewrite <- (Hc p n Hpn). unfold total_hits. cbn. fold q.
  rewrite map_total_thread by apply pending_init. fold (get_thread s i). fold t.
  set (b := map_total _ _). unfold pending. cbn. rewrite <- E, Z.eqb_refl. unfold table_hits, hits_at. cbn.
  destruct (lookup_lt_is_Some_2 (rules q) p) as [a Ha]; [rewrite <- Hl; by eapply lookup_lt_Some|].
  destruct (lookup_lt_is_Some_2 (_thr_SQP_rules t) p) as [r Hr]; [rewrite Hlen; by eapply lookup_lt_Some|].
  destruct (Hall p r a Hr Ha) as (o & o' & E1 & E2 & _ & Hadd). rewrite Ha, list_lookup_fmap, Hr. cbn. rewrite E1, E2.
  replace (hits o' + (b - hits r + 0)) with (b - hits r + hits o') by lia.
  replace (hits o + b) with (b - hits r + (hits o + hits r)) by lia.
  unfold u64 in *. by rewrite (Zplus_mod _ (hits o')), Hadd, <- Zplus_mod.
Qed.

Lemma load_step s counts rows : inv s → load_ok (Load rows) → version (table_of s) + 1 < 2 ^ 32 →
  ∃ s', exec s (Load rows) = Ok s' ∧ inv s' ∧ counted s' (tally counts (Load rows)) ∧ version (table_of s') = version (table_of s) + 1.
Proof.
  intros (Hq & _ & Hn & Ho & Hth & _) (Hrows & new & Hm) Hv.
  destruct (load_spec rows new None [] (table_of s) Hq Hv Hrows Hm) as (q' & new' & E & Hp & Ht & _ & Hq' & Hsub & Ev & Efast).
  destruct (load_fresh _ _ _ _ _ _ E) as [Hfn Hfresh]. cbn [exec]. rewrite E. cbn [mbind outcome_bind]. eexists. split; [done|].
  pose proof (mapM_rows _ _ Hm) as [Hnl Hh0]. rewrite <- Hp in Hh0. assert (Hlen := Forall2_length _ _ _ Ht).
  assert (∀ a, a ∈ rules (table_of s) ++ concat (old_rules s) → is_Some (objects (table_of s) !! a)) as Hold.
  { destruct Hq as (Hq1 & _). intros a [Ha|Ha]%elem_of_app; [by apply (proj1 (Forall_forall _ _) Hq1)|by apply (proj1 (Forall_forall _ _) Ho)]. }
  split.
  { split; [done|]. split; [by exists new'|]. cbn [old_rules upd table_of]. cbn. rewrite concat_app. cbn. rewrite app_nil_r.
    split; [|split; [|split; [|split; [destruct Hq as (_ & _ & Hq3); intros H; exfalso; cbn in H; lia|]]]].
    - rewrite (Permutation_app_comm (concat _)). apply NoDup_app. split; [done|]. split; [|done]. intros a Ha Hin.
      destruct (Hold a Hin) as [o Eo]. destruct Hq as (_ & Hq2 & _). apply Hq2 in Eo. rewrite Forall_forall in Hfresh. specialize (Hfresh a Ha). cbn in *. lia.
    - rewrite Forall_forall. intros a Hin. destruct (Hold a) as [o Eo]; [by rewrite Permutation_app_comm|].
      exists o. by eapply lookup_weaken.
    - intros j t Hj. destruct (Hth j t Hj) as [Hle _]. split; [lia|]. lia.
    - by injection Efast. }
  split; [|done]. cbn [tally]. split; [cbn; by rewrite length_replicate, Hlen, Hp, Hnl|]. intros p n Hpn. apply lookup_replicate in Hpn as [-> _]. f_equal.
  unfold total_hits. cbn. rewrite (map_total_ext _ (λ _, 0)).
  2: { intros j t Hj. destruct (Hth j t Hj) as [Hle _]. unfold pending. by rewrite (proj2 (Z.eqb_neq _ _)) by lia. }
  assert (map_total (λ _ : qp_thread, 0) (threads s) = 0) as ->.
  { generalize (threads s). intros m. induction m as [|j t m Hj IH] using map_ind; [done|]. rewrite map_total_insert_new by done. lia. }
  unfold table_hits. destruct (rules q' !! p) as [a|] eqn:Ea; [|done]. cbn. destruct (Forall2_lookup_l _ _ _ _ _ Ht Ea) as (r & Er & -> & _).
  rewrite Z.add_0_r. by eapply (Forall_lookup_1 _ _ _ _ Hh0).
Qed.

Lemma delete_step s counts : inv s → counted s counts →
  ∃ s', exec s Delete = Ok s' ∧ inv s' ∧ counted s' counts ∧ version (table_of s') = version (table_of s).
Proof.
  intros Hi [Hl Hc]. cbn [exec]. destruct (old_rules s) as [|l ls] eqn:El; [by exists s|].
  destruct Hi as ((Hq1 & Hq2 & Hq3) & [rs Ht] & Hn & Ho & Hth & H0 & Hkv). rewrite El in Hn, Ho. cbn [concat] in Hn, Ho.
  apply Forall_app in Ho as [Ho1 Ho2]. apply NoDup_app in Hn as (Hn1 & Hd & Hn2). apply NoDup_app in Hn2 as (Hn2 & Hd2 & Hn3).
  destruct (reset_rules_spec l (table_of s) Hn2 Ho1) as (objs & -> & Hsame & Hsub). cbn [mbind outcome_bind]. eexists. split; [done|].
  assert (∀ a, a ∈ rules (table_of s) → objs !! a = objects (table_of s) !! a) as Hrules.
  { intros a Ha. apply Hsame. intros Hin. apply (Hd a Ha). apply elem_of_app. by left. }
  split.
  { split; [split; [|split; [|done]]|].
    - cbn. rewrite Forall_forall in Hq1 |- *. intros a Ha. rewrite Hrules by done. by apply Hq1.
    - cbn. intros a o Ha. apply (Hq2 a o). by eapply lookup_weaken.
    - split.
      { exists rs. unfold table in *. cbn. apply Forall2_same_length_lookup in Ht as [Hlen Ht]. apply Forall2_same_length_lookup. split; [done|].
        intros p a r Ha Hr. rewrite Hrules by (by eapply list_elem_of_lookup_2). by apply (Ht p). }
      split; [|split; [|by split]].
      + cbn. apply NoDup_app. split; [done|]. split; [|done]. intros a Ha Hin. apply (Hd a Ha), elem_of_app. by right.
      + cbn. rewrite Forall_forall in Ho2 |- *. intros a Ha. rewrite Hsame; [by apply Ho2|]. intros Hin. by apply (Hd2 a). }
  split; [|done]. split; [done|]. intros p n Hp. rewrite <- (Hc p n Hp). unfold total_hits, table_hits. cbn.
  destruct (rules (table_of s) !! p) as [a|] eqn:Ea; [|done]. cbn. rewrite Hrules; [done|]. by eapply list_elem_of_lookup_2.
Qed.

(** A step keeps the invariant and counts what it should. *)
Lemma exec_step s counts e : inv s → counted s counts → load_ok e → version (table_of s) + 1 < 2 ^ 32 →
  ∃ s', exec s e = Ok s' ∧ inv s' ∧ counted s' (tally counts e) ∧ version (table_of s) <= version (table_of s') <= version (table_of s) + 1.
Proof.
  intros Hi Hc He Hv. destruct e as [i regex algorithm matched|i|rows|].
  - destruct (query_step s counts i regex algorithm matched Hi Hc) as (s' & E & Hi' & Hc' & Ev). exists s'. split_and!; [done..|lia|lia].
  - destruct (update_keeps_counts s counts i Hi Hc) as (s' & E & Hi' & Hc' & Ev). exists s'. split_and!; [done..|lia|lia].
  - destruct (load_step s counts rows Hi He Hv) as (s' & E & Hi' & Hc' & Ev). exists s'. split_and!; [done..|lia|lia].
  - destruct (delete_step s counts Hi Hc) as (s' & E & Hi' & Hc' & Ev). exists s'. split_and!; [done..|lia|lia].
Qed.
Lemma exec_history es s counts : inv s → counted s counts → Forall load_ok es → version (table_of s) + Z.of_nat (length es) < 2 ^ 32 →
  ∃ s', exec_all s es = Ok s' ∧ inv s' ∧ counted s' (foldl tally counts es).
Proof.
  revert s counts. induction es as [|e es IH]; intros s counts Hi Hc He Hv; [by exists s|]. inversion He as [|? ? He1 He2]; subst. cbn [length] in Hv.
  destruct (exec_step s counts e Hi Hc He1) as (s1 & E & Hi1 & Hc1 & Hv1); [lia|]. cbn [exec_all]. rewrite E. cbn [mbind outcome_bind].
  apply IH; [done..|lia].
Qed.

(** C21: Hits are neither lost nor counted twice.  Over any history of queries,
    of threads adding their hits, of loads and of the deletions that follow them,
    no thread ever follows a pointer to a deleted rule, and the hits of the rule
    at any position of the table, those already added and those that threads
    still hold, are together the number of its matches since the table was
    loaded. *)
Theorem hits_conserved es :
  Forall load_ok es → Z.of_nat (length es) < 2 ^ 32 →
  ∃ s, exec_all init_system es = Ok s ∧ length (foldl tally [] es) = length (rules (table_of s)) ∧
    ∀ p n, foldl tally [] es !! p = Some n → u64 (total_hits s p) = u64 n.
Proof.
  intros He Hl. destruct (exec_history es init_system [] system_inv_init) as (s & E & _ & Hlen & Hc); [by split|done|cbn; lia|].
  exists s. by split_and!.
Qed.
End System.

(** ** The firewall on its tables *)
Section Firewall.
Context (random : list Z) (Hlen : (2 ≤ length random)%nat) (Hdash : 45 ∉ random).
#[local] Set Default Proof Using "All".
Abbreviation D := (delimiter random).

(** The entry for a user: for the address, or else for any address; a user
    without one is protected. *)
Definition firewall_entry (users : list user_row) (u addr : list Z) : list Z * Z :=
  match user_mode_of users u addr with
  | Some m => (addr, m)
  | None => ([], default WUS_PROTECTING (user_mode_of users u []))
  end.
Definition allowed_in (rules : list rule_row) (u client s : list Z) (flag : Z) (qp : option SQP_par_t) : Prop :=
  ∃ p, qp = Some p ∧ qp_digest p ≠ 0 ∧ Exists (allows u client s flag (qp_digest p)) rules.

Lemma mode_values users u c v : user_mode_of users u c = Some v → v = WUS_OFF ∨ v = WUS_DETECTING ∨ v = WUS_PROTECTING.
Proof.
  unfold user_mode_of. intros Ev. apply last_Some_elem_of, list_elem_of_omap in Ev as (r & _ & Er). case_bool_decide; [|done]. unfold mode_of in Er.
  repeat case_bool_decide; simplify_eq; auto.
Qed.
Lemma entry_mode users u addr : let m := (firewall_entry users u addr).2 in m = WUS_OFF ∨ m = WUS_DETECTING ∨ m = WUS_PROTECTING.
Proof.
  unfold firewall_entry. destruct (user_mode_of users u addr) as [m|] eqn:E; [by eapply mode_values|]. cbn.
  destruct (user_mode_of users u []) as [m|] eqn:E2; [by eapply mode_values|auto].
Qed.
Lemma entry_found users old u addr : Forall (user_row_ok random) users → without random u →
  let find := find_firewall_whitelist_user D (load_mysql_firewall_users D users old) u in
  let '(client, wus) := if find addr =? WUS_NOT_FOUND then ([], find []) else (addr, find addr) in
  (client, if wus =? WUS_NOT_FOUND then WUS_PROTECTING else wus) = firewall_entry users u addr.
Proof.
  intros Hr Hu. cbn zeta. rewrite !users_found by done. unfold firewall_entry. destruct (user_mode_of users u addr) as [m|] eqn:E; cbn [default].
  - apply mode_values in E. by destruct E as [-> | [-> | ->]].
  - cbn. destruct (user_mode_of users u []) as [m|] eqn:E2; [|done]. apply mode_values in E2. by destruct E2 as [-> | [-> | ->]].
Qed.

(** C23: The firewall blocks what is not on its list.  A query passes when its
    user is switched off, or when an active row allows its digest for the user,
    the address of the entry that applies, the schema and the final flag; any
    other query of a user that is being protected gets an error message, the one
    of a query rule if there is one, users without an entry included; queries of
    a user that is only watched pass with their mode reported. *)
Theorem firewall_decides msg users rules old_users old_rules sess qp flag o addr :
  Forall (user_row_ok random) users → Forall (rule_row_ok random) rules → s_addr sess = Some addr →
  without random (s_username sess) → without random addr → without random (s_schemaname sess) →
  let fw := mk_firewall true msg (load_mysql_firewall_users D users old_users) (load_mysql_firewall_rules D rules old_rules) in
  let '(client, mode) := firewall_entry users (s_username sess) addr in
  ∃ allowed : bool, (allowed = true ↔ allowed_in rules (s_username sess) client (s_schemaname sess) flag qp) ∧
    check_firewall D fw sess qp flag o = Ok (
      if (mode =? WUS_OFF) || allowed then o <| o_firewall_whitelist_mode := WUS_OFF |>
      else o <| o_firewall_whitelist_mode := mode |>
             <| o_error_msg := if mode =? WUS_PROTECTING then Some (default msg (o_error_msg o)) else o_error_msg o |>).
Proof.
  intros Hur Hrr Ha Hu Had Hs. cbn zeta. pose proof (entry_found users old_users (s_username sess) addr Hur Hu) as He. cbn zeta in He.
  unfold check_firewall. cbn [fw_enabled fw_users fw_rules fw_errormsg]. rewrite Ha. cbn zeta.
  set (find := find_firewall_whitelist_user _ _ _) in *. destruct (if find addr =? WUS_NOT_FOUND then _ else _) as [client wus] eqn:Ef.
  rewrite <- He. set (mode := if wus =? WUS_NOT_FOUND then _ else _) in *.
  assert (without random client) as Hcl by (destruct (find addr =? WUS_NOT_FOUND); injection Ef as <- _; [by apply without_nil|done]).
  exists (match qp with Some p => negb (qp_digest p =? 0) &&
    find_firewall_whitelist_rule D (load_mysql_firewall_rules D rules old_rules) (s_username sess) client (s_schemaname sess) flag (qp_digest p) | None => false end).
  split.
  { unfold allowed_in. destruct qp as [p|]; [|split; [done|by intros (? & [=] & _)]]. rewrite andb_true_iff, negb_true_iff, Z.eqb_neq, rules_found by done.
    split; [intros [? ?]; by exists p|by intros (? & [= <-] & ? & ?)]. }
  set (allowed := match qp with Some _ => _ | None => _ end). clearbody allowed.
  assert (mode = WUS_OFF ∨ mode = WUS_DETECTING ∨ mode = WUS_PROTECTING) as Hm.
  { pose proof (entry_mode users (s_username sess) addr) as Hm. by rewrite <- He in Hm. }
  clearbody mode. clear He. destruct Hm as [-> | [-> | ->]]; [done|by destruct allowed, o|]. destruct allowed; [done|].
  cbn. destruct o as [h0 mh mf nf ct ce cto rc tmo rt dl em om sc mx gt lag lg fwm mg cn nq]. by destruct em.
Qed.
End Firewall.

(** ** Witnesses *)
Lemma hits_conserved_witness :
  let es := [Load QPRules.Example.example_rows; Query 0 2 1 [0%nat; 1%nat; 0%nat]; Query 1 2 1 [1%nat]; Update 0; Load QPRules.Example.example_rows;
             Query 1 2 1 [1%nat]; Delete; Update 1] in
  ∃ s, exec_all (J := LionRouter.Example.doc) init_system es = Ok s ∧ u64 (total_hits s 0) = 0 ∧ u64 (total_hits s 1) = 1.
Proof.
  intros es. assert (load_ok (J := LionRouter.Example.doc) (Load QPRules.Example.example_rows)) as Hload.
  { split; [repeat (constructor; [cbn; lia|]); constructor|].
    destruct (mapM (rule_of_row (J := LionRouter.Example.doc)) (filter row_accepted QPRules.Example.example_rows)) as [new|] eqn:Em; [by exists new|].
    vm_compute in Em. discriminate Em. }
  destruct (hits_conserved (J := LionRouter.Example.doc) es) as (s & E & _ & Hc).
  - constructor; [exact Hload|]. do 3 (constructor; [exact I|]). constructor; [exact Hload|]. do 3 (constructor; [exact I|]). constructor.
  - cbn. lia.
  - exists s. split; [exact E|]. split; [apply (Hc 0%nat 0)|apply (Hc 1%nat 1)]; vm_compute; reflexivity.
Defined.

Lemma firewall_decides_witness :
  let users := [mk_user_row (str "1") (str "app") (str "") (str "PROTECTING")] in
  let rules := [mk_rule_row (str "1") (str "app") (str "") (str "shop") (str "0") (str "0xFF")] in
  let D := delimiter example_random in
  let fw := mk_firewall true (str "blocked") (load_mysql_firewall_users D users ∅) (load_mysql_firewall_rules D rules ∅) in
  ∃ o, check_firewall D fw QPChain.Example.app_session (Some (mk_par 12 None None)) 0 init_output = Ok o ∧ o_error_msg o = Some (str "blocked").
Proof.
  intros users rules D fw.
  destruct (firewall_decides example_random ltac:(apply (bool_decide_unpack _); vm_compute; exact I) ltac:(apply (bool_decide_unpack _); vm_compute; exact I)
    (str "blocked") users rules ∅ ∅ QPChain.Example.app_session (Some (mk_par 12 None None)) 0 init_output (str "10.0.0.7")) as (allowed & Ha & E).
  - constructor; [right; split; [apply without_check; vm_compute; reflexivity|by eexists]|constructor].
  - constructor; [split; [apply without_check; vm_compute; reflexivity|split; apply without_check; vm_compute; reflexivity]|constructor].
  - reflexivity.
  - apply without_check. vm_compute. reflexivity.
  - apply without_check. vm_compute. reflexivity.
  - apply without_check. vm_compute. reflexivity.
  - eexists. split; [exact E|]. destruct allowed; [|reflexivity]. exfalso. destruct (proj1 Ha eq_refl) as (p & [= <-] & _ & Hex).
    inversion Hex as [? ? (_ & _ & _ & _ & _ & Hd)|? ? Hnil]; [vm_compute in Hd; discriminate Hd|inversion Hnil].
Defined.
