(* ===== verification/QPCommand.v ===== *)
(** * Commands and their counters
    (lib/Query_Processor.cpp: __query_parser_command_type, the counters in
    update_query_processor_stats; include/query_processor.h: Command_Counter;
    lib/QP_query_digest_stats.cpp: add_time; include/proxysql_mem.h:
    mystrcasecmp)

    The kind of a statement is told by its first words.  Every thread counts the
    statements of each kind by how long they took, and adds its counters to the
    global ones from time to time. *)
From S2P Require Import Prelude StringUtils Tokenizer.

Inductive MYSQL_COM_QUERY_command :=
  | MYSQL_COM_QUERY_ALTER_TABLE | MYSQL_COM_QUERY_ALTER_VIEW | MYSQL_COM_QUERY_ANALYZE_TABLE | MYSQL_COM_QUERY_BEGIN
  | MYSQL_COM_QUERY_CALL | MYSQL_COM_QUERY_CHANGE_MASTER | MYSQL_COM_QUERY_COMMIT | MYSQL_COM_QUERY_CREATE_DATABASE
  | MYSQL_COM_QUERY_CREATE_INDEX | MYSQL_COM_QUERY_CREATE_TABLE | MYSQL_COM_QUERY_CREATE_TEMPORARY
  | MYSQL_COM_QUERY_CREATE_TRIGGER | MYSQL_COM_QUERY_CREATE_USER | MYSQL_COM_QUERY_CREATE_VIEW
  | MYSQL_COM_QUERY_DEALLOCATE | MYSQL_COM_QUERY_DELETE | MYSQL_COM_QUERY_DESCRIBE | MYSQL_COM_QUERY_DROP_DATABASE
  | MYSQL_COM_QUERY_DROP_INDEX | MYSQL_COM_QUERY_DROP_TABLE | MYSQL_COM_QUERY_DROP_TRIGGER
  | MYSQL_COM_QUERY_DROP_USER | MYSQL_COM_QUERY_DROP_VIEW | MYSQL_COM_QUERY_GRANT | MYSQL_COM_QUERY_EXECUTE
  | MYSQL_COM_QUERY_EXPLAIN | MYSQL_COM_QUERY_FLUSH | MYSQL_COM_QUERY_INSERT | MYSQL_COM_QUERY_KILL
  | MYSQL_COM_QUERY_LOAD | MYSQL_COM_QUERY_LOCK_TABLE | MYSQL_COM_QUERY_OPTIMIZE | MYSQL_COM_QUERY_PREPARE
  | MYSQL_COM_QUERY_PURGE | MYSQL_COM_QUERY_RELEASE_SAVEPOINT | MYSQL_COM_QUERY_RENAME_TABLE
  | MYSQL_COM_QUERY_RESET_MASTER | MYSQL_COM_QUERY_RESET_SLAVE | MYSQL_COM_QUERY_REPLACE | MYSQL_COM_QUERY_REVOKE
  | MYSQL_COM_QUERY_ROLLBACK | MYSQL_COM_QUERY_ROLLBACK_SAVEPOINT | MYSQL_COM_QUERY_SAVEPOINT
  | MYSQL_COM_QUERY_SELECT | MYSQL_COM_QUERY_SELECT_FOR_UPDATE | MYSQL_COM_QUERY_SET
  | MYSQL_COM_QUERY_SHOW_TABLE_STATUS | MYSQL_COM_QUERY_START_TRANSACTION | MYSQL_COM_QUERY_TRUNCATE_TABLE
  | MYSQL_COM_QUERY_UNLOCK_TABLES | MYSQL_COM_QUERY_UPDATE | MYSQL_COM_QUERY_USE | MYSQL_COM_QUERY_SHOW
  | MYSQL_COM_QUERY_UNKNOWN | MYSQL_COM_QUERY__UNINITIALIZED | MYSQL_COM_QUERY___NONE.
#[export] Instance command_eq_dec : EqDecision MYSQL_COM_QUERY_command.
Proof. solve_decision. Defined.

(** ** Comparing words *)
(** [mystrcasecmp(a, b) == 0]: only letters of [b] are changed. *)
Definition upper (c : Z) : Z := if (97 <=? c) && (c <=? 122) then c - 32 else c.
Fixpoint mystrcasecmp (a b : list Z) : bool :=
  match a, b with
  | [], [] => true
  | x :: a', y :: b' => (x =? upper y) && mystrcasecmp a' b'
  | _, _ => false
  end.
(** The labels [case 'a': case 'A':] *)
Definition case_of (letter : string) (c : Z) : bool := mystrcasecmp (str letter) [c].

Definition unknown : outcome MYSQL_COM_QUERY_command := Ok MYSQL_COM_QUERY_UNKNOWN.

(** ** The kind of a statement

    The lists are the tokens that are still to come. *)
Definition mis (s : string) (token : list Z) : bool := mystrcasecmp (str s) token.
Definition sis (s : string) (token : list Z) : bool := strcasecmp_eq (str s) token.

Definition alter_view (token : list Z) : outcome MYSQL_COM_QUERY_command :=
  if mis "VIEW" token then Ok MYSQL_COM_QUERY_ALTER_VIEW else unknown.
(** After [IGNORE] the token is not checked for being there. *)
Definition alter_ignore (ts : list (list Z)) : outcome MYSQL_COM_QUERY_command :=
  match ts with
  | [] => Fault NullPointer
  | token :: _ => if mis "TABLE" token then Ok MYSQL_COM_QUERY_ALTER_TABLE else alter_view token
  end.
Definition alter (ts : list (list Z)) : outcome MYSQL_COM_QUERY_command :=
  match ts with
  | [] => unknown
  | token :: ts =>
      if mis "TABLE" token then Ok MYSQL_COM_QUERY_ALTER_TABLE
      else if mis "OFFLINE" token || mis "ONLINE" token then
        match ts with
        | [] => unknown
        | token :: ts =>
            if mis "TABLE" token then Ok MYSQL_COM_QUERY_ALTER_TABLE
            else if mis "IGNORE" token then alter_ignore ts
            else alter_view token
        end
      else if mis "IGNORE" token then alter_ignore ts
      else alter_view token
  end.
Definition analyze (ts : list (list Z)) : outcome MYSQL_COM_QUERY_command :=
  match ts with
  | [] => unknown
  | token :: ts =>
      if sis "TABLE" token then Ok MYSQL_COM_QUERY_ANALYZE_TABLE
      else if sis "NO_WRITE_TO_BINLOG" token || sis "LOCAL" token then
        match ts with
        | [] => unknown
        | token :: _ => if sis "TABLE" token then Ok MYSQL_COM_QUERY_ANALYZE_TABLE else unknown
        end
      else unknown
  end.
Definition letter_a (token : list Z) (ts : list (list Z)) : outcome MYSQL_COM_QUERY_command :=
  if mis "ALTER" token then alter ts
  else if mis "ANALYZE" token then analyze ts
  else unknown.

Definition change (ts : list (list Z)) : outcome MYSQL_COM_QUERY_command :=
  match ts with [] => unknown | token :: _ => if sis "MASTER" token then Ok MYSQL_COM_QUERY_CHANGE_MASTER else unknown end.
Definition create (ts : list (list Z)) : outcome MYSQL_COM_QUERY_command :=
  match ts with
  | [] => unknown
  | token :: _ =>
      if sis "DATABASE" token then Ok MYSQL_COM_QUERY_CREATE_DATABASE
      else if sis "INDEX" token then Ok MYSQL_COM_QUERY_CREATE_INDEX
      else if sis "SCHEMA" token then Ok MYSQL_COM_QUERY_CREATE_DATABASE
      else if sis "TABLE" token then Ok MYSQL_COM_QUERY_CREATE_TABLE
      else if sis "TEMPORARY" token then Ok MYSQL_COM_QUERY_CREATE_TEMPORARY
      else if sis "TRIGGER" token then Ok MYSQL_COM_QUERY_CREATE_TRIGGER
      else if sis "USER" token then Ok MYSQL_COM_QUERY_CREATE_USER
      else if sis "VIEW" token then Ok MYSQL_COM_QUERY_CREATE_VIEW
      else unknown
  end.
Definition letter_c (token : list Z) (ts : list (list Z)) : outcome MYSQL_COM_QUERY_command :=
  if sis "CALL" token then Ok MYSQL_COM_QUERY_CALL
  else if sis "CHANGE" token then change ts
  else if sis "COMMIT" token then Ok MYSQL_COM_QUERY_COMMIT
  else if sis "CREATE" token then create ts
  else unknown.

Definition drop_what (ts : list (list Z)) : outcome MYSQL_COM_QUERY_command :=
  match ts with
  | [] => unknown
  | token :: _ =>
      if sis "TABLE" token then Ok MYSQL_COM_QUERY_DROP_TABLE
      else if sis "TRIGGER" token then Ok MYSQL_COM_QUERY_DROP_TRIGGER
      else if sis "USER" token then Ok MYSQL_COM_QUERY_DROP_USER
      else if sis "VIEW" token then Ok MYSQL_COM_QUERY_DROP_VIEW
      else unknown
  end.
Definition after_deallocate (token : list Z) (ts : list (list Z)) : outcome MYSQL_COM_QUERY_command :=
  if sis "DELETE" token then Ok MYSQL_COM_QUERY_DELETE
  else if sis "DESCRIBE" token then Ok MYSQL_COM_QUERY_DESCRIBE
  else if sis "DROP" token then drop_what ts
  else unknown.
(** Without [PREPARE] the tests go on with the second word. *)
Definition letter_d (token : list Z) (ts : list (list Z)) : outcome MYSQL_COM_QUERY_command :=
  if sis "DEALLOCATE" token then
    match ts with
    | [] => unknown
    | token :: ts => if sis "PREPARE" token then Ok MYSQL_COM_QUERY_DEALLOCATE else after_deallocate token ts
    end
  else after_deallocate token ts.

Definition load_word (token : list Z) : outcome MYSQL_COM_QUERY_command :=
  if sis "LOAD" token then Ok MYSQL_COM_QUERY_LOAD else unknown.
Definition letter_l (token : list Z) (ts : list (list Z)) : outcome MYSQL_COM_QUERY_command :=
  if sis "LOCK" token then
    match ts with
    | [] => unknown
    | token :: _ => if sis "TABLE" token then Ok MYSQL_COM_QUERY_LOCK_TABLE else load_word token
    end
  else load_word token.

Definition rollback (ts : list (list Z)) : outcome MYSQL_COM_QUERY_command :=
  match ts with
  | [] => Ok MYSQL_COM_QUERY_ROLLBACK
  | token :: ts =>
      if sis "TO" token then
        match ts with
        | [] => unknown
        | token :: _ => if sis "SAVEPOINT" token then Ok MYSQL_COM_QUERY_ROLLBACK_SAVEPOINT else unknown
        end
      else unknown
  end.
Definition reset (ts : list (list Z)) : outcome MYSQL_COM_QUERY_command :=
  match ts with
  | [] => unknown
  | token :: _ =>
      if sis "MASTER" token then Ok MYSQL_COM_QUERY_RESET_MASTER
      else if sis "SLAVE" token then Ok MYSQL_COM_QUERY_RESET_SLAVE
      else unknown
  end.
Definition after_rename (token : list Z) (ts : list (list Z)) : outcome MYSQL_COM_QUERY_command :=
  if sis "REPLACE" token then Ok MYSQL_COM_QUERY_REPLACE
  else if sis "RESET" token then reset ts
  else if sis "REVOKE" token then Ok MYSQL_COM_QUERY_REVOKE
  else if sis "ROLLBACK" token then rollback ts
  else unknown.
Definition after_release (token : list Z) (ts : list (list Z)) : outcome MYSQL_COM_QUERY_command :=
  if sis "RENAME" token then
    match ts with
    | [] => unknown
    | token :: ts => if sis "TABLE" token then Ok MYSQL_COM_QUERY_RENAME_TABLE else after_rename token ts
    end
  else after_rename token ts.
Definition letter_r (token : list Z) (ts : list (list Z)) : outcome MYSQL_COM_QUERY_command :=
  if sis "RELEASE" token then
    match ts with
    | [] => unknown
    | token :: ts => if sis "SAVEPOINT" token then Ok MYSQL_COM_QUERY_RELEASE_SAVEPOINT else after_release token ts
    end
  else after_release token ts.

Definition show (ts : list (list Z)) : outcome MYSQL_COM_QUERY_command :=
  match ts with
  | token :: token' :: _ =>
      if sis "TABLE" token && sis "STATUS" token' then Ok MYSQL_COM_QUERY_SHOW_TABLE_STATUS else Ok MYSQL_COM_QUERY_SHOW
  | _ => Ok MYSQL_COM_QUERY_SHOW
  end.
Definition start_what (ts : list (list Z)) : outcome MYSQL_COM_QUERY_command :=
  match ts with [] => unknown | token :: _ => if sis "TRANSACTION" token then Ok MYSQL_COM_QUERY_START_TRANSACTION else unknown end.
Definition letter_s (token : list Z) (ts : list (list Z)) : outcome MYSQL_COM_QUERY_command :=
  if mis "SAVEPOINT" token then Ok MYSQL_COM_QUERY_SAVEPOINT
  else if mis "SELECT" token then Ok MYSQL_COM_QUERY_SELECT
  else if mis "SET" token then Ok MYSQL_COM_QUERY_SET
  else if mis "SHOW" token then show ts
  else if mis "START" token then start_what ts
  else unknown.

(** The same word is tested twice: no next token is taken. *)
Definition letter_t (token : list Z) : outcome MYSQL_COM_QUERY_command :=
  if sis "TRUNCATE" token then if sis "TABLE" token then Ok MYSQL_COM_QUERY_TRUNCATE_TABLE else unknown else unknown.

Definition command_of (token : list Z) (ts : list (list Z)) : outcome MYSQL_COM_QUERY_command :=
  match token with
  | [] => unknown
  | c1 :: _ =>
      if case_of "A" c1 then letter_a token ts
      else if case_of "B" c1 then if sis "BEGIN" token then Ok MYSQL_COM_QUERY_BEGIN else unknown
      else if case_of "C" c1 then letter_c token ts
      else if case_of "D" c1 then letter_d token ts
      else if case_of "E" c1 then if sis "EXECUTE" token then Ok MYSQL_COM_QUERY_EXECUTE else unknown
      else if case_of "F" c1 then if sis "FLUSH" token then Ok MYSQL_COM_QUERY_FLUSH else unknown
      else if case_of "G" c1 then if sis "GRANT" token then Ok MYSQL_COM_QUERY_GRANT else unknown
      else if case_of "I" c1 then if sis "INSERT" token then Ok MYSQL_COM_QUERY_INSERT else unknown
      else if case_of "K" c1 then if sis "KILL" token then Ok MYSQL_COM_QUERY_KILL else unknown
      else if case_of "L" c1 then letter_l token ts
      else if case_of "O" c1 then if sis "OPTIMIZE" token then Ok MYSQL_COM_QUERY_OPTIMIZE else unknown
      else if case_of "P" c1 then
        if sis "PREPARE" token then Ok MYSQL_COM_QUERY_PREPARE else if sis "PURGE" token then Ok MYSQL_COM_QUERY_PURGE else unknown
      else if case_of "R" c1 then letter_r token ts
      else if case_of "S" c1 then letter_s token ts
      else if case_of "T" c1 then letter_t token
      else if case_of "U" c1 then
        if sis "UNLOCK" token then Ok MYSQL_COM_QUERY_UNLOCK_TABLES else if sis "UPDATE" token then Ok MYSQL_COM_QUERY_UPDATE else unknown
      else unknown
  end.

(** Parentheses before the first word are removed, tokens of nothing else skipped. *)
Fixpoint remove_paranthesis (token : list Z) : option (list Z) :=
  match token with
  | c :: token' => if c =? 40 then match token' with [] => None | _ => remove_paranthesis token' end else Some token
  | [] => Some []
  end.
Fixpoint get_token (ts : list (list Z)) : option (list Z * list (list Z)) :=
  match ts with
  | [] => None
  | t :: ts' => match remove_paranthesis t with Some w => Some (w, ts') | None => get_token ts' end
  end.

(** The tokenizer gives its tokens one by one; taking them all at once makes no
    difference.  The text is the digest text or else the prefix of the query. *)
Definition __query_parser_command_type (digest_text query_prefix : option (list Z)) : outcome MYSQL_COM_QUERY_command :=
  ts ← tokens (str " ") (default [] (match digest_text with Some t => Some t | None => query_prefix end));
  match get_token ts with
  | None => unknown
  | Some (token, ts) => command_of token ts
  end.

(** ** The phrases of the language

    What the tests above amount to: the first word chooses a section of the
    grammar and the first of its phrases that the following words begin with (or
    that they are, where nothing may follow) tells the command. *)
Local Open Scope string_scope.
Local Open Scope list_scope.
Local Open Scope Z_scope.
Inductive follow := Anything | Nothing.
Abbreviation phrase := (list string * follow * outcome MYSQL_COM_QUERY_command)%type.
Definition one (c : MYSQL_COM_QUERY_command) : list phrase := [([], Anything, Ok c)].
Definition next (w : string) (c : MYSQL_COM_QUERY_command) : phrase := ([w], Anything, Ok c).
Definition alter_phrases (prefix : list string) : list phrase :=
  [(prefix ++ ["TABLE"], Anything, Ok MYSQL_COM_QUERY_ALTER_TABLE); (prefix ++ ["VIEW"], Anything, Ok MYSQL_COM_QUERY_ALTER_VIEW);
   (prefix ++ ["IGNORE"; "TABLE"], Anything, Ok MYSQL_COM_QUERY_ALTER_TABLE);
   (prefix ++ ["IGNORE"; "VIEW"], Anything, Ok MYSQL_COM_QUERY_ALTER_VIEW);
   (prefix ++ ["IGNORE"], Nothing, Fault NullPointer)].
Definition drop_phrases (prefix : list string) : list phrase :=
  [(prefix ++ ["TABLE"], Anything, Ok MYSQL_COM_QUERY_DROP_TABLE); (prefix ++ ["TRIGGER"], Anything, Ok MYSQL_COM_QUERY_DROP_TRIGGER);
   (prefix ++ ["USER"], Anything, Ok MYSQL_COM_QUERY_DROP_USER); (prefix ++ ["VIEW"], Anything, Ok MYSQL_COM_QUERY_DROP_VIEW)].
Definition reset_phrases (prefix : list string) : list phrase :=
  [(prefix ++ ["MASTER"], Anything, Ok MYSQL_COM_QUERY_RESET_MASTER); (prefix ++ ["SLAVE"], Anything, Ok MYSQL_COM_QUERY_RESET_SLAVE)].
Definition rollback_phrases (prefix : list string) : list phrase :=
  [(prefix, Nothing, Ok MYSQL_COM_QUERY_ROLLBACK);
   (prefix ++ ["TO"; "SAVEPOINT"], Anything, Ok MYSQL_COM_QUERY_ROLLBACK_SAVEPOINT)].
(** After [RELEASE] and [RENAME] a word that should not follow them is taken for
    the first word of a statement. *)
Definition rename_phrases (prefix : list string) : list phrase :=
  [(prefix ++ ["REPLACE"], Anything, Ok MYSQL_COM_QUERY_REPLACE); (prefix ++ ["REVOKE"], Anything, Ok MYSQL_COM_QUERY_REVOKE)]
  ++ reset_phrases (prefix ++ ["RESET"]) ++ rollback_phrases (prefix ++ ["ROLLBACK"]).
Definition grammar : list (string * list phrase) := [
  ("ALTER", alter_phrases [] ++ alter_phrases ["OFFLINE"] ++ alter_phrases ["ONLINE"]);
  ("ANALYZE", [next "TABLE" MYSQL_COM_QUERY_ANALYZE_TABLE; (["NO_WRITE_TO_BINLOG"; "TABLE"], Anything, Ok MYSQL_COM_QUERY_ANALYZE_TABLE);
               (["LOCAL"; "TABLE"], Anything, Ok MYSQL_COM_QUERY_ANALYZE_TABLE)]);
  ("BEGIN", one MYSQL_COM_QUERY_BEGIN); ("CALL", one MYSQL_COM_QUERY_CALL);
  ("CHANGE", [next "MASTER" MYSQL_COM_QUERY_CHANGE_MASTER]); ("COMMIT", one MYSQL_COM_QUERY_COMMIT);
  ("CREATE", [next "DATABASE" MYSQL_COM_QUERY_CREATE_DATABASE; next "INDEX" MYSQL_COM_QUERY_CREATE_INDEX;
              next "SCHEMA" MYSQL_COM_QUERY_CREATE_DATABASE; next "TABLE" MYSQL_COM_QUERY_CREATE_TABLE;
              next "TEMPORARY" MYSQL_COM_QUERY_CREATE_TEMPORARY; next "TRIGGER" MYSQL_COM_QUERY_CREATE_TRIGGER;
              next "USER" MYSQL_COM_QUERY_CREATE_USER; next "VIEW" MYSQL_COM_QUERY_CREATE_VIEW]);
  ("DEALLOCATE", [next "PREPARE" MYSQL_COM_QUERY_DEALLOCATE; next "DELETE" MYSQL_COM_QUERY_DELETE;
                  next "DESCRIBE" MYSQL_COM_QUERY_DESCRIBE] ++ drop_phrases ["DROP"]);
  ("DELETE", one MYSQL_COM_QUERY_DELETE); ("DESCRIBE", one MYSQL_COM_QUERY_DESCRIBE); ("DROP", drop_phrases []);
  ("EXECUTE", one MYSQL_COM_QUERY_EXECUTE); ("FLUSH", one MYSQL_COM_QUERY_FLUSH); ("GRANT", one MYSQL_COM_QUERY_GRANT);
  ("INSERT", one MYSQL_COM_QUERY_INSERT); ("KILL", one MYSQL_COM_QUERY_KILL);
  ("LOCK", [next "TABLE" MYSQL_COM_QUERY_LOCK_TABLE; next "LOAD" MYSQL_COM_QUERY_LOAD]); ("LOAD", one MYSQL_COM_QUERY_LOAD);
  ("OPTIMIZE", one MYSQL_COM_QUERY_OPTIMIZE); ("PREPARE", one MYSQL_COM_QUERY_PREPARE); ("PURGE", one MYSQL_COM_QUERY_PURGE);
  ("RELEASE", [next "SAVEPOINT" MYSQL_COM_QUERY_RELEASE_SAVEPOINT; (["RENAME"; "TABLE"], Anything, Ok MYSQL_COM_QUERY_RENAME_TABLE)]
              ++ rename_phrases [] ++ rename_phrases ["RENAME"]);
  ("RENAME", [next "TABLE" MYSQL_COM_QUERY_RENAME_TABLE] ++ rename_phrases []);
  ("REPLACE", one MYSQL_COM_QUERY_REPLACE); ("RESET", reset_phrases []); ("REVOKE", one MYSQL_COM_QUERY_REVOKE);
  ("ROLLBACK", rollback_phrases []); ("SAVEPOINT", one MYSQL_COM_QUERY_SAVEPOINT); ("SELECT", one MYSQL_COM_QUERY_SELECT);
  ("SET", one MYSQL_COM_QUERY_SET);
  ("SHOW", (["TABLE"; "STATUS"], Anything, Ok MYSQL_COM_QUERY_SHOW_TABLE_STATUS) :: one MYSQL_COM_QUERY_SHOW);
  ("START", [next "TRANSACTION" MYSQL_COM_QUERY_START_TRANSACTION]); ("UNLOCK", one MYSQL_COM_QUERY_UNLOCK_TABLES);
  ("UPDATE", one MYSQL_COM_QUERY_UPDATE)].

(** Keywords are written in any case. *)
Definition spells (k : string) (w : list Z) : bool := bool_decide (upper <$> w = str k).
Fixpoint begins (ks : list string) (f : follow) (ts : list (list Z)) : bool :=
  match ks, ts with
  | [], _ => match f with Anything => true | Nothing => bool_decide (ts = []) end
  | k :: ks', t :: ts' => spells k t && begins ks' f ts'
  | _ :: _, [] => false
  end.
Fixpoint first_phrase (ps : list phrase) (ts : list (list Z)) : outcome MYSQL_COM_QUERY_command :=
  match ps with
  | [] => unknown
  | (ks, f, c) :: ps' => if begins ks f ts then c else first_phrase ps' ts
  end.
Fixpoint in_grammar (g : list (string * list phrase)) (w : list Z) (ts : list (list Z)) : outcome MYSQL_COM_QUERY_command :=
  match g with
  | [] => unknown
  | (k, ps) :: g' => if spells k w then first_phrase ps ts else in_grammar g' w ts
  end.

(** *** The two comparisons agree on keywords *)
Definition is_keyword (l : list Z) : bool := forallb (λ c, upper c =? c) l.
Lemma upper_lower c d : upper c = c → (lower c = lower d ↔ c = upper d).
Proof. unfold upper, lower. repeat case_test; zbool; lia. Qed.
Lemma mystrcasecmp_spec a b : mystrcasecmp a b = bool_decide (upper <$> b = a).
Proof.
  revert b. induction a as [|x a IH]; intros [|y b]; cbn; [by rewrite bool_decide_true|by rewrite bool_decide_false..|].
  rewrite IH. destruct (Z.eqb_spec x (upper y)) as [->|Hn]; cbn.
  - apply bool_decide_ext. naive_solver.
  - symmetry. apply bool_decide_false. naive_solver.
Qed.
Lemma strcasecmp_spec a b : is_keyword a = true → strcasecmp_eq a b = bool_decide (upper <$> b = a).
Proof.
  intros Ha. unfold strcasecmp_eq. apply bool_decide_ext. revert b Ha. induction a as [|x a IH]; intros [|y b] Ha; [by split|by split..|].
  cbn in Ha. apply andb_true_iff in Ha as [Hx Ha]. apply Z.eqb_eq in Hx. rewrite !fmap_cons.
  apply IH with (b := b) in Ha. apply upper_lower with (d := y) in Hx.
  split; intros E; injection E as E1 E2; f_equal; try (by apply Hx); try (by apply Ha); symmetry; by apply Hx.
Qed.

Lemma mis_spells k w : mis k w = spells k w.
Proof. apply mystrcasecmp_spec. Qed.
Lemma sis_spells k w : is_keyword (str k) = true → sis k w = spells k w.
Proof. apply strcasecmp_spec. Qed.
Lemma spells_other k k' w : spells k w = true → spells k' w = bool_decide (str k = str k').
Proof. unfold spells. intros E. apply bool_decide_eq_true in E. by rewrite E. Qed.
Lemma spells_letter k w : spells k w = true → k ≠ "" → ∃ d r, w = d :: r ∧ ∀ s, case_of s d = bool_decide (take 1 (str k) = str s).
Proof.
  unfold spells. intros E Hk. apply bool_decide_eq_true in E. destruct k as [|a k]; [done|]. destruct w as [|d r]; [done|].
  injection E as E _. exists d, r. split; [done|]. intros s. unfold case_of. rewrite mystrcasecmp_spec. cbn. by rewrite <- E.
Qed.

#[local] Arguments spells : simpl never.
#[local] Arguments mis : simpl never.
#[local] Arguments sis : simpl never.
#[local] Arguments case_of : simpl never.

(** Decides the words one by one: a word that spells a keyword spells no other. *)
Ltac settle b := let v := eval vm_compute in b in change b with v; cbv iota.
Ltac open_section :=
  first
  [ progress unfold letter_a, letter_c, letter_d, letter_l, letter_r, letter_s
  | progress unfold after_deallocate, load_word, after_release
  | progress unfold alter, analyze, change, create, drop_what, after_rename, show, start_what, alter_phrases, drop_phrases, rename_phrases, one, next
  | progress unfold alter_ignore, alter_view, rollback, reset, reset_phrases, rollback_phrases ].
Ltac words :=
  repeat (cbn [first_phrase begins app map andb orb];
    first
    [ reflexivity
    | progress (rewrite ?mis_spells, ?sis_spells by reflexivity)
    | match goal with
      | H : spells ?k ?t = false |- context [spells ?k ?t] => rewrite H
      | H : spells ?k ?t = true |- context [spells ?k' ?t] =>
          rewrite (spells_other k k' t H); settle (bool_decide (str k = str k'))
      | |- context [bool_decide (?a :: ?l = [])] => rewrite (bool_decide_eq_false_2 (a :: l = [])) by discriminate
      | |- context [match ?l with [] => _ | _ :: _ => _ end] => is_var l; destruct l
      | |- context [spells ?k ?t] => destruct (spells k t) eqn:?
      end
    | progress open_section ]).
Lemma truncate_unknown token : letter_t token = unknown.
Proof. unfold letter_t. words. Qed.
Lemma spells_none g w ts : Forall (λ p : string * list phrase, spells p.1 w = false) g → in_grammar g w ts = unknown.
Proof. induction 1 as [|[k ps] g Hk Hg IH]; cbn in *; [done|]. by rewrite Hk. Qed.
Lemma spells_some g w : Exists (λ p : string * list phrase, spells p.1 w = true) g ∨ Forall (λ p : string * list phrase, spells p.1 w = false) g.
Proof.
  induction g as [|p g [IH|IH]]; [by right|left; by right|].
  destruct (spells p.1 w) eqn:E; [left; by left|right; by constructor].
Qed.
Lemma unknown_word w ts : Forall (λ p : string * list phrase, spells p.1 w = false) grammar → command_of w ts = unknown.
Proof.
  intros H. unfold grammar in H. repeat (apply Forall_cons in H as [? H]); cbn [fst] in *. clear H. destruct w as [|c w]; [done|]. unfold command_of, letter_a, letter_c, letter_d, after_deallocate, letter_l, load_word, letter_r, after_release, after_rename, letter_s.
  rewrite ?truncate_unknown, ?mis_spells, ?sis_spells by reflexivity.
  repeat match goal with H : spells _ _ = false |- _ => rewrite ?H; clear H end. cbv iota. repeat case_match; try done.
Qed.

Lemma command_of_grammar w ts : command_of w ts = in_grammar grammar w ts.
Proof.
  destruct (spells_some grammar w) as [H|H]; [|by rewrite unknown_word, spells_none].
  unfold grammar in H |- *. cbn [in_grammar].
  repeat (apply Exists_cons in H as [H|H]); [..|by apply Exists_nil in H]; cbn [fst] in H;
    pose proof (spells_letter _ _ H ltac:(discriminate)) as (d & r & -> & Hd);
    unfold command_of; rewrite !Hd;
    repeat match goal with |- context [bool_decide (take 1 (str ?a) = str ?b)] => settle (bool_decide (take 1 (str a) = str b)) end;
    rewrite ?truncate_unknown; words.
Qed.

(** The text that is looked at: the digest text or, without it, the prefix of the
    query. *)
Definition text_of (digest_text query_prefix : option (list Z)) : list Z :=
  default [] (match digest_text with Some t => Some t | None => query_prefix end).

(** C25: The kind of a statement is the one of the grammar: its words, once the
    parentheses before them are removed, are compared with the phrases, keywords
    in any case, and the first phrase that they begin with tells the command;
    without one the command is unknown.  The scan of the text always ends. *)
Theorem statement_kind digest_text query_prefix :
  __query_parser_command_type digest_text query_prefix =
  match get_token (fields (str " ") (text_of digest_text query_prefix)) with
  | Some (w, ts) => in_grammar grammar w ts
  | None => Ok MYSQL_COM_QUERY_UNKNOWN
  end.
Proof.
  unfold __query_parser_command_type. rewrite tokens_spec. cbn [mbind outcome_bind]. unfold text_of.
  destruct (get_token _) as [[w ts]|]; [apply command_of_grammar|done].
Qed.

(** *** What the grammar lacks *)
(** The second word of TRUNCATE TABLE is never read, LOCK TABLES, EXPLAIN, USE
    and DROP DATABASE are not in the grammar. *)
Example not_recognised :
  Forall (λ s, __query_parser_command_type (Some (str s)) None = Ok MYSQL_COM_QUERY_UNKNOWN)
    ["TRUNCATE TABLE t"; "LOCK TABLES t READ"; "EXPLAIN SELECT 1"; "USE db"; "DROP DATABASE db"; "DROP INDEX i ON t";
     "ROLLBACK WORK"].
Proof. repeat constructor. Qed.
(** A second word that should not be there is taken for a first one. *)
Example second_word_taken_for_first :
  __query_parser_command_type (Some (str "LOCK load")) None = Ok MYSQL_COM_QUERY_LOAD.
Proof. reflexivity. Qed.
(** ALTER IGNORE with nothing after it. *)
Example alter_ignore_null_token : __query_parser_command_type (Some (str "ALTER IGNORE")) None = Fault NullPointer.
Proof. reflexivity. Qed.
Example statement_kind_ex :
  __query_parser_command_type None (Some (str "((select 1) union (select 2))")) = Ok MYSQL_COM_QUERY_SELECT.
Proof. reflexivity. Qed.
