(* ===== verification/QPCounters.v ===== *)
(** * Counters of commands
    (lib/Query_Processor.cpp: update_query_processor_stats, the counters of
    init_thread, query_parser_update_counters; include/query_processor.h:
    Command_Counter)

    Every thread counts the statements of each kind by how long they took, and
    adds its counters to the global ones from time to time.  The history of such
    steps is compared with counting every statement at once. *)
From S2P Require Import Prelude QPCommand.

(** ** The counters *)
Record Command_Counter := mk_counter { total_time : Z; counters : list Z }.
Definition new_counter : Command_Counter := mk_counter 0 (replicate 13 0).
Definition _add_idx (t : Z) : nat :=
  if t <=? 100 then 0
  else if t <=? 500 then 1
  else if t <=? 1000 then 2
  else if t <=? 5000 then 3
  else if t <=? 10000 then 4
  else if t <=? 50000 then 5
  else if t <=? 100000 then 6
  else if t <=? 500000 then 7
  else if t <=? 1000000 then 8
  else if t <=? 5000000 then 9
  else if t <=? 10000000 then 10
  else 11.
Definition add_one (i : nat) (l : list Z) : outcome (list Z) :=
  x ← read_at l (Z.of_nat i); write_at l (Z.of_nat i) (u64 (x + 1)).
(** [Command_Counter::add_time] *)
Definition count_time (t : Z) (c : Command_Counter) : outcome (Z * Command_Counter) :=
  let total := u64 (total_time c + t) in
  l ← add_one 0 (counters c);
  l ← add_one (_add_idx t + 1) l;
  Ok (total, mk_counter total l).

(** The position of a command in the enumeration. *)
Definition command_idx (c : MYSQL_COM_QUERY_command) : nat :=
  match c with
  | MYSQL_COM_QUERY_ALTER_TABLE => 0 | MYSQL_COM_QUERY_ALTER_VIEW => 1 | MYSQL_COM_QUERY_ANALYZE_TABLE => 2 | MYSQL_COM_QUERY_BEGIN => 3
  | MYSQL_COM_QUERY_CALL => 4 | MYSQL_COM_QUERY_CHANGE_MASTER => 5 | MYSQL_COM_QUERY_COMMIT => 6 | MYSQL_COM_QUERY_CREATE_DATABASE => 7
  | MYSQL_COM_QUERY_CREATE_INDEX => 8 | MYSQL_COM_QUERY_CREATE_TABLE => 9 | MYSQL_COM_QUERY_CREATE_TEMPORARY => 10
  | MYSQL_COM_QUERY_CREATE_TRIGGER => 11 | MYSQL_COM_QUERY_CREATE_USER => 12 | MYSQL_COM_QUERY_CREATE_VIEW => 13
  | MYSQL_COM_QUERY_DEALLOCATE => 14 | MYSQL_COM_QUERY_DELETE => 15 | MYSQL_COM_QUERY_DESCRIBE => 16 | MYSQL_COM_QUERY_DROP_DATABASE => 17
  | MYSQL_COM_QUERY_DROP_INDEX => 18 | MYSQL_COM_QUERY_DROP_TABLE => 19 | MYSQL_COM_QUERY_DROP_TRIGGER => 20
  | MYSQL_COM_QUERY_DROP_USER => 21 | MYSQL_COM_QUERY_DROP_VIEW => 22 | MYSQL_COM_QUERY_GRANT => 23 | MYSQL_COM_QUERY_EXECUTE => 24
  | MYSQL_COM_QUERY_EXPLAIN => 25 | MYSQL_COM_QUERY_FLUSH => 26 | MYSQL_COM_QUERY_INSERT => 27 | MYSQL_COM_QUERY_KILL => 28
  | MYSQL_COM_QUERY_LOAD => 29 | MYSQL_COM_QUERY_LOCK_TABLE => 30 | MYSQL_COM_QUERY_OPTIMIZE => 31 | MYSQL_COM_QUERY_PREPARE => 32
  | MYSQL_COM_QUERY_PURGE => 33 | MYSQL_COM_QUERY_RELEASE_SAVEPOINT => 34 | MYSQL_COM_QUERY_RENAME_TABLE => 35
  | MYSQL_COM_QUERY_RESET_MASTER => 36 | MYSQL_COM_QUERY_RESET_SLAVE => 37 | MYSQL_COM_QUERY_REPLACE => 38 | MYSQL_COM_QUERY_REVOKE => 39
  | MYSQL_COM_QUERY_ROLLBACK => 40 | MYSQL_COM_QUERY_ROLLBACK_SAVEPOINT => 41 | MYSQL_COM_QUERY_SAVEPOINT => 42
  | MYSQL_COM_QUERY_SELECT => 43 | MYSQL_COM_QUERY_SELECT_FOR_UPDATE => 44 | MYSQL_COM_QUERY_SET => 45
  | MYSQL_COM_QUERY_SHOW_TABLE_STATUS => 46 | MYSQL_COM_QUERY_START_TRANSACTION => 47 | MYSQL_COM_QUERY_TRUNCATE_TABLE => 48
  | MYSQL_COM_QUERY_UNLOCK_TABLES => 49 | MYSQL_COM_QUERY_UPDATE => 50 | MYSQL_COM_QUERY_USE => 51 | MYSQL_COM_QUERY_SHOW => 52
  | MYSQL_COM_QUERY_UNKNOWN => 53 | MYSQL_COM_QUERY__UNINITIALIZED => 54 | MYSQL_COM_QUERY___NONE => 55
  end.
(** An array with a counter per command, for a thread or for all of them. *)
Definition new_counters : list Command_Counter := replicate (command_idx MYSQL_COM_QUERY___NONE) new_counter.
(** The first lines of [query_parser_update_counters]. *)
Definition count_command (c : MYSQL_COM_QUERY_command) (t : Z) (thr : list Command_Counter) : outcome (Z * list Command_Counter) :=
  if bool_decide (command_idx MYSQL_COM_QUERY___NONE <= command_idx c)%nat then Ok (0, thr)
  else
    counter ← read_at thr (Z.of_nat (command_idx c));
    '(ret, counter) ← count_time t counter;
    thr ← write_at thr (Z.of_nat (command_idx c)) counter;
    Ok (ret, thr).

(** A thread adds its counter to the global one and starts again. *)
Fixpoint merge_counters (j : nat) (global thread : list Z) : outcome (list Z * list Z) :=
  match j with
  | O => Ok (global, thread)
  | S j' =>
      '(global, thread) ← merge_counters j' global thread;
      x ← read_at thread (Z.of_nat j');
      if x =? 0 then Ok (global, thread)
      else
        g ← read_at global (Z.of_nat j');
        global ← write_at global (Z.of_nat j') (u64 (g + x));
        thread ← write_at thread (Z.of_nat j') 0;
        Ok (global, thread)
  end.
Definition merge_counter (global thread : Command_Counter) : outcome (Command_Counter * Command_Counter) :=
  '(g, t) ← merge_counters 13 (counters global) (counters thread);
  Ok (mk_counter (if total_time thread =? 0 then total_time global else u64 (total_time global + total_time thread)) g, mk_counter 0 t).
(** The last loop of [update_query_processor_stats], up to command [i]. *)
Fixpoint merge_commands (i : nat) (global thread : list Command_Counter) : outcome (list Command_Counter * list Command_Counter) :=
  match i with
  | O => Ok (global, thread)
  | S i' =>
      '(global, thread) ← merge_commands i' global thread;
      g ← read_at global (Z.of_nat i');
      t ← read_at thread (Z.of_nat i');
      '(g, t) ← merge_counter g t;
      global ← write_at global (Z.of_nat i') g;
      thread ← write_at thread (Z.of_nat i') t;
      Ok (global, thread)
  end.

(** *** Threads *)
(** The counters of a thread that starts are new. *)
Record command_system := mk_commands { global_counters : list Command_Counter; thread_counters : gmap nat (list Command_Counter) }.
Inductive command_step :=
  | CountCommand (thread : nat) (c : MYSQL_COM_QUERY_command) (t : Z)
  | MergeThread (thread : nat).
Definition counters_of (s : command_system) (i : nat) : list Command_Counter := default new_counters (thread_counters s !! i).
Definition exec_command (s : command_system) (e : command_step) : outcome command_system :=
  match e with
  | CountCommand i c t =>
      '(_, thr) ← count_command c t (counters_of s i);
      Ok (mk_commands (global_counters s) (<[i := thr]> (thread_counters s)))
  | MergeThread i =>
      '(global, thr) ← merge_commands (command_idx MYSQL_COM_QUERY___NONE) (global_counters s) (counters_of s i);
      Ok (mk_commands global (<[i := thr]> (thread_counters s)))
  end.
Fixpoint exec_commands (s : command_system) (es : list command_step) : outcome command_system :=
  match es with [] => Ok s | e :: es' => s ← exec_command s e; exec_commands s es' end.
Definition init_commands : command_system := mk_commands new_counters ∅.

(** *** Nothing is lost *)
(** The cells of a counter: its total time, and the cell at a position. *)
Definition cell (b : option nat) (c : Command_Counter) : Z :=
  match b with None => total_time c | Some j => default 0 (counters c !! j) end.
Definition cell_at (k : nat) (b : option nat) (l : list Command_Counter) : Z := match l !! k with Some c => cell b c | None => 0 end.
(** What a statement that took [t] adds to the cells of its command. *)
Definition weight (b : option nat) (t : Z) : Z :=
  match b with None => t | Some O => 1 | Some (S j) => if bool_decide (j = _add_idx t) then 1 else 0 end.
Definition ok_counter (c : Command_Counter) : Prop := length (counters c) = 13%nat ∧ ∀ b, 0 <= cell b c < 2 ^ 64.
Definition ok_counters (l : list Command_Counter) : Prop := length l = command_idx MYSQL_COM_QUERY___NONE ∧ Forall ok_counter l.

Lemma add_idx_lt t : (_add_idx t < 12)%nat.
Proof. unfold _add_idx. repeat case_test; lia. Qed.
Lemma read_at_nat {A} (l : list A) i x : l !! i = Some x → read_at l (Z.of_nat i) = Ok x.
Proof. intros E. apply read_at_Some. split; [lia|by rewrite Nat2Z.id]. Qed.
Lemma write_at_nat {A} (l : list A) i x : (i < length l)%nat → write_at l (Z.of_nat i) x = Ok (<[i := x]> l).
Proof. intros. rewrite write_at_ok by lia. by rewrite Nat2Z.id. Qed.
Lemma add_one_spec i l x : l !! i = Some x → add_one i l = Ok (<[i := u64 (x + 1)]> l).
Proof. intros E. unfold add_one. rewrite (read_at_nat _ _ _ E). cbn. apply write_at_nat. by eapply lookup_lt_Some. Qed.
Lemma cell_range k b l : ok_counters l → 0 <= cell_at k b l < 2 ^ 64.
Proof. intros [_ H]. unfold cell_at. destruct (l !! k) as [c|] eqn:E; [|lia]. by apply (Forall_lookup_1 _ _ _ _ H E). Qed.
Lemma cell_at_insert k b i c l : (i < length l)%nat → cell_at k b (<[i := c]> l) = if bool_decide (k = i) then cell b c else cell_at k b l.
Proof.
  intros Hi. unfold cell_at. case_bool_decide as E; [by rewrite E, list_lookup_insert_eq by done|by rewrite list_lookup_insert_ne by done].
Qed.
Lemma cell_at_Some k b l c : l !! k = Some c → cell_at k b l = cell b c.
Proof. unfold cell_at. by intros ->. Qed.

Lemma count_time_spec t c : ok_counter c →
  ∃ r c', count_time t c = Ok (r, c') ∧ ok_counter c' ∧ ∀ b, cell b c' = u64 (cell b c + weight b t).
Proof.
  intros [Hl Hc]. destruct c as [tt l]. cbn [counters total_time] in *. unfold count_time. cbn [counters total_time].
  destruct (lookup_lt_is_Some_2 l 0) as [x Ex]; [lia|]. rewrite (add_one_spec _ _ _ Ex). cbn [mbind outcome_bind].
  pose proof (add_idx_lt t) as Hi. destruct (lookup_lt_is_Some_2 l (_add_idx t + 1)) as [y Ey]; [lia|].
  rewrite (add_one_spec _ _ y) by (by rewrite list_lookup_insert_ne by lia). cbn [mbind outcome_bind]. eexists _, _. split; [done|].
  assert (∀ b, cell b (mk_counter (u64 (tt + t)) (<[(_add_idx t + 1)%nat := u64 (y + 1)]> (<[0%nat := u64 (x + 1)]> l)))
    = u64 (cell b (mk_counter tt l) + weight b t)) as Hb.
  { intros [j|]; [|done]. cbn. destruct (decide (j = (_add_idx t + 1)%nat)) as [->|Hj].
    - rewrite list_lookup_insert_eq by (rewrite length_insert; lia). rewrite Ey. cbn. rewrite Nat.add_1_r. by rewrite bool_decide_true.
    - rewrite list_lookup_insert_ne by done. destruct j as [|j].
      + rewrite list_lookup_insert_eq by lia. by rewrite Ex.
      + rewrite list_lookup_insert_ne by lia. rewrite bool_decide_false by lia. rewrite Z.add_0_r. symmetry. apply u64_small.
        apply (Hc (Some (S j))). }
  split; [split; [cbn; by rewrite !length_insert|]|done]. intros b. rewrite Hb. apply u64_range.
Qed.

Lemma count_command_spec c t thr : ok_counters thr → c ≠ MYSQL_COM_QUERY___NONE →
  ∃ r thr', count_command c t thr = Ok (r, thr') ∧ ok_counters thr' ∧
    ∀ k b, cell_at k b thr' = u64 (cell_at k b thr + if bool_decide (k = command_idx c) then weight b t else 0).
Proof.
  intros [Hl Hok] Hc. unfold count_command. assert (command_idx c < command_idx MYSQL_COM_QUERY___NONE)%nat as Hi by (destruct c; cbn; try lia; done).
  rewrite bool_decide_false by lia. destruct (lookup_lt_is_Some_2 thr (command_idx c)) as [x Ex]; [lia|].
  rewrite (read_at_nat _ _ _ Ex). cbn [mbind outcome_bind].
  destruct (count_time_spec t x) as (r & x' & -> & Hx' & Hb); [by apply (Forall_lookup_1 _ _ _ _ Hok Ex)|]. cbn [mbind outcome_bind].
  rewrite write_at_nat by lia. cbn [mbind outcome_bind]. eexists _, _. split; [done|].
  split; [split; [by rewrite length_insert|by apply Forall_insert]|]. intros k b. rewrite cell_at_insert by lia.
  case_bool_decide as Hk; [subst; by rewrite (cell_at_Some _ _ _ _ Ex)|]. rewrite Z.add_0_r. symmetry. by apply u64_small, cell_range.
Qed.

Lemma merge_counters_spec j (g t : list Z) : (j ≤ length g)%nat → (j ≤ length t)%nat →
  Forall (λ x, 0 <= x < 2 ^ 64) g →
  ∃ g' t', merge_counters j g t = Ok (g', t') ∧ length g' = length g ∧ length t' = length t ∧
    ∀ b, default 0 (g' !! b) = (if bool_decide (b < j)%nat then u64 (default 0 (g !! b) + default 0 (t !! b)) else default 0 (g !! b)) ∧
      default 0 (t' !! b) = (if bool_decide (b < j)%nat then 0 else default 0 (t !! b)).
Proof.
  intros Hg Ht Hr. induction j as [|j IH]; [by exists g, t|].
  destruct IH as (g' & t' & E & Lg & Lt & Hb); [lia..|]. cbn [merge_counters]. rewrite E. cbn [mbind outcome_bind].
  destruct (lookup_lt_is_Some_2 t' j) as [x Ex]; [lia|]. destruct (lookup_lt_is_Some_2 g' j) as [y Ey]; [lia|].
  rewrite (read_at_nat _ _ _ Ex). cbn [mbind outcome_bind]. pose proof (Hb j) as [Hgj Htj]. rewrite Ex, Ey in *.
  rewrite bool_decide_false in Hgj, Htj by lia. cbn [default] in Hgj, Htj.
  assert (0 <= y < 2 ^ 64) as Hy.
  { destruct (lookup_lt_is_Some_2 g j) as [y' Ey']; [lia|]. rewrite Ey' in Hgj. cbn in Hgj. subst. by apply (Forall_lookup_1 _ _ _ _ Hr Ey'). }
  assert (∀ b, b ≠ j → bool_decide (b < S j)%nat = bool_decide (b < j)%nat) as Hne by (intros b Hbj; apply bool_decide_ext; lia).
  destruct (Z.eqb_spec x 0) as [->|Hx].
  - eexists _, _. split; [done|]. split; [done|]. split; [done|]. intros b. destruct (decide (b = j)) as [->|Hbj]; [|rewrite Hne by done; apply Hb].
    rewrite bool_decide_true by lia. rewrite Ex, Ey, <- Hgj, <- Htj. cbn. rewrite Z.add_0_r, u64_small by done. done.
  - rewrite (read_at_nat _ _ _ Ey). cbn [mbind outcome_bind]. rewrite !write_at_nat by lia. cbn [mbind outcome_bind].
    eexists _, _. split; [done|]. rewrite !length_insert. split; [done|]. split; [done|]. intros b. destruct (decide (b = j)) as [->|Hbj].
    + rewrite bool_decide_true by lia. rewrite !list_lookup_insert_eq by lia. cbn. by rewrite <- Hgj, <- Htj.
    + rewrite Hne, !list_lookup_insert_ne by done. apply Hb.
Qed.

Lemma cells_range l : (∀ b, 0 <= default 0 (l !! b) < 2 ^ 64) ↔ Forall (λ x : Z, 0 <= x < 2 ^ 64) l.
Proof.
  rewrite Forall_lookup. split; intros H; [intros i x Ex; specialize (H i); by rewrite Ex in H|].
  intros b. destruct (l !! b) as [x|] eqn:E; [by apply (H b)|done].
Qed.

Lemma merge_counter_spec g t : ok_counter g → ok_counter t →
  ∃ g' t', merge_counter g t = Ok (g', t') ∧ ok_counter g' ∧ ok_counter t' ∧
    ∀ b, cell b g' = u64 (cell b g + cell b t) ∧ cell b t' = 0.
Proof.
  intros [Lg Hg] [Lt Ht]. unfold merge_counter. destruct (merge_counters_spec 13 (counters g) (counters t)) as (l & l' & -> & Hl & Hl' & Hb); [lia..| |].
  { apply cells_range. intros b. apply (Hg (Some b)). }
  cbn [mbind outcome_bind]. eexists _, _. split; [done|].
  set (g' := mk_counter _ l). set (t' := mk_counter 0 l').
  assert (∀ b, cell b g' = u64 (cell b g + cell b t) ∧ cell b t' = 0) as H.
  { intros [j|]; cbn.
    - destruct (Hb j) as [-> ->]. case_bool_decide as Hj; [done|]. rewrite !lookup_ge_None_2 by lia. done.
    - split; [|done]. destruct (Z.eqb_spec (total_time t) 0) as [->|]; [|done]. rewrite Z.add_0_r. symmetry. apply u64_small, (Hg None). }
  split; [split; [cbn; lia|]; intros b; rewrite (proj1 (H b)); apply u64_range|].
  split; [split; [cbn; lia|]; intros b; rewrite (proj2 (H b)); lia|done].
Qed.

Lemma merge_commands_spec i g t : ok_counters g → ok_counters t → (i ≤ command_idx MYSQL_COM_QUERY___NONE)%nat →
  ∃ g' t', merge_commands i g t = Ok (g', t') ∧ ok_counters g' ∧ ok_counters t' ∧
    ∀ k b, cell_at k b g' = (if bool_decide (k < i)%nat then u64 (cell_at k b g + cell_at k b t) else cell_at k b g) ∧
      cell_at k b t' = (if bool_decide (k < i)%nat then 0 else cell_at k b t).
Proof.
  intros Hg Ht. induction i as [|i IH]; intros Hi; [by exists g, t|].
  destruct IH as (g' & t' & E & [Lg Og] & [Lt Ot] & Hb); [lia|]. cbn [merge_commands]. rewrite E. cbn [mbind outcome_bind].
  destruct (lookup_lt_is_Some_2 t' i) as [x Ex]; [lia|]. destruct (lookup_lt_is_Some_2 g' i) as [y Ey]; [lia|].
  rewrite (read_at_nat _ _ _ Ey), (read_at_nat _ _ _ Ex). cbn [mbind outcome_bind].
  destruct (merge_counter_spec y x) as (y' & x' & -> & Oy & Ox & Hxy); [by apply (Forall_lookup_1 _ _ _ _ Og Ey)|by apply (Forall_lookup_1 _ _ _ _ Ot Ex)|].
  cbn [mbind outcome_bind]. rewrite !write_at_nat by lia. cbn [mbind outcome_bind]. eexists _, _. split; [done|].
  split; [split; [by rewrite length_insert|by apply Forall_insert]|]. split; [split; [by rewrite length_insert|by apply Forall_insert]|].
  intros k b. rewrite !cell_at_insert by lia. destruct (decide (k = i)) as [Hk|Hk].
  - rewrite !(bool_decide_true (k = i)) by done. destruct (Hb k b) as [H1 H2]. subst. rewrite bool_decide_false in H1, H2 by lia. rewrite bool_decide_true by lia. destruct (Hxy b) as [-> ->].
    by rewrite <- H1, <- H2, (cell_at_Some _ _ _ _ Ex), (cell_at_Some _ _ _ _ Ey).
  - rewrite !(bool_decide_false (k = i)) by done. replace (bool_decide (k < S i)%nat) with (bool_decide (k < i)%nat) by (apply bool_decide_ext; lia). apply Hb.
Qed.

(** *** Histories *)
Definition tally_commands (k : nat) (b : option nat) (es : list command_step) : Z :=
  foldr (λ e n, match e with CountCommand _ c t => (if bool_decide (k = command_idx c) then weight b t else 0) + n | MergeThread _ => n end) 0 es.
Definition counted_anywhere (s : command_system) (k : nat) (b : option nat) : Z :=
  cell_at k b (global_counters s) + map_total (cell_at k b) (thread_counters s).
Definition commands_ok (s : command_system) : Prop :=
  ok_counters (global_counters s) ∧ map_Forall (λ _, ok_counters) (thread_counters s).
Definition countable_step (e : command_step) : Prop := match e with CountCommand _ c _ => c ≠ MYSQL_COM_QUERY___NONE | MergeThread _ => True end.

Lemma new_cell k b : cell_at k b new_counters = 0.
Proof.
  unfold cell_at. destruct (new_counters !! k) as [c|] eqn:E; [|done]. apply lookup_replicate in E as [-> _]. destruct b as [j|]; [|done].
  cbn -[replicate]. destruct (replicate 13 0 !! j) as [x|] eqn:Ex; [|done]. by apply lookup_replicate in Ex as [-> _].
Qed.
Lemma new_counters_ok : ok_counters new_counters.
Proof.
  split; [apply length_replicate|]. apply Forall_replicate. split; [done|]. intros [j|]; [|done]. cbn -[replicate].
  destruct (replicate 13 0 !! j) as [x|] eqn:Ex; [|done]. by apply lookup_replicate in Ex as [-> _].
Qed.
Lemma counters_of_ok s i : commands_ok s → ok_counters (counters_of s i).
Proof. intros [_ H]. unfold counters_of. destruct (_ !! i) eqn:E; [by apply (H i)|apply new_counters_ok]. Qed.
Lemma counted_insert s g i thr k b :
  counted_anywhere (mk_commands g (<[i := thr]> (thread_counters s))) k b =
  cell_at k b g + map_total (cell_at k b) (thread_counters s) - cell_at k b (counters_of s i) + cell_at k b thr.
Proof.
  unfold counted_anywhere, counters_of. cbn. destruct (thread_counters s !! i) as [t|] eqn:E; cbn.
  - rewrite (map_total_update _ _ _ _ thr E). lia.
  - rewrite map_total_insert_new, new_cell by done. lia.
Qed.

Lemma exec_command_spec s e : commands_ok s → countable_step e →
  ∃ s', exec_command s e = Ok s' ∧ commands_ok s' ∧
    ∀ k b, u64 (counted_anywhere s' k b) = u64 (counted_anywhere s k b + tally_commands k b [e]).
Proof.
  intros Hs He. pose proof Hs as [Hg Ht]. destruct e as [i c t|i]; cbn [exec_command].
  - destruct (count_command_spec c t (counters_of s i)) as (r & thr & -> & Hthr & Hk); [by apply counters_of_ok|done|].
    cbn [mbind outcome_bind]. eexists. split; [done|]. split; [split; [done|by apply map_Forall_insert_2]|].
    intros k b. rewrite counted_insert, Hk. unfold counted_anywhere. cbn. rewrite Z.add_0_r. set (w := if bool_decide _ then _ else _).
    rewrite <- !(Z.add_comm (u64 _)), u64_add_idemp. f_equal. lia.
  - destruct (merge_commands_spec (command_idx MYSQL_COM_QUERY___NONE) (global_counters s) (counters_of s i)) as (g & thr & -> & Og & Othr & Hk);
      [done|by apply counters_of_ok|done|].
    cbn [mbind outcome_bind]. eexists. split; [done|]. split; [split; [done|by apply map_Forall_insert_2]|].
    intros k b. rewrite counted_insert. destruct (Hk k b) as [-> ->]. unfold counted_anywhere. cbn [tally_commands foldr]. case_bool_decide.
    + rewrite Z.add_0_r, <- Z.add_sub_assoc, u64_add_idemp. f_equal. lia.
    + f_equal. lia.
Qed.
Lemma exec_commands_spec s es : commands_ok s → Forall countable_step es →
  ∃ s', exec_commands s es = Ok s' ∧ commands_ok s' ∧
    ∀ k b, u64 (counted_anywhere s' k b) = u64 (counted_anywhere s k b + tally_commands k b es).
Proof.
  revert s. induction es as [|e es IH]; intros s Hs He; [exists s; split; [done|]; split; [done|]; intros k b; f_equal; cbn; lia|].
  inversion He as [|? ? He1 He2]; subst. destruct (exec_command_spec s e Hs He1) as (s1 & E & Hs1 & H1). cbn [exec_commands]. rewrite E. cbn [mbind outcome_bind].
  destruct (IH s1 Hs1 He2) as (s2 & -> & Hs2 & H2). exists s2. split; [done|]. split; [done|]. intros k b. rewrite H2.
  rewrite <- u64_add_idemp, H1, u64_add_idemp. f_equal. unfold tally_commands. destruct e as [i c t|i]; cbn; lia.
Qed.

(** C26: Statements are counted once.  Over any history of threads that count
    statements and of threads that add their counters to the global ones, every
    cell of every command - the number of statements, their total time, how many
    took how long - is, with what threads have not added yet, what the statements
    of the command amount to, modulo 2^64, and no access is out of bounds. *)
Theorem commands_conserved es : Forall countable_step es →
  ∃ s, exec_commands init_commands es = Ok s ∧
    ∀ c b, u64 (counted_anywhere s (command_idx c) b) = u64 (tally_commands (command_idx c) b es).
Proof.
  intros He. destruct (exec_commands_spec init_commands es) as (s & E & _ & H); [|done|].
  { split; [apply new_counters_ok|by intros ? ? Hi]. }
  exists s. split; [done|]. intros c b. rewrite H. f_equal. unfold counted_anywhere, init_commands. cbn [global_counters thread_counters].
  rewrite new_cell, map_total_empty. lia.
Qed.
Lemma commands_conserved_witness :
  ∃ s, exec_commands init_commands [CountCommand 0 MYSQL_COM_QUERY_SELECT 120; MergeThread 0; CountCommand 1 MYSQL_COM_QUERY_SELECT 50] = Ok s ∧
    ∀ c b, u64 (counted_anywhere s (command_idx c) b) =
      u64 (tally_commands (command_idx c) b [CountCommand 0 MYSQL_COM_QUERY_SELECT 120; MergeThread 0; CountCommand 1 MYSQL_COM_QUERY_SELECT 50]).
Proof. apply commands_conserved. repeat constructor; discriminate. Defined.
