(* ===== verification/QPDigest.v ===== *)
(** * Statistics of digests
    (lib/QP_query_digest_stats.cpp; lib/Query_Processor.cpp:
    query_parser_update_counters, update_query_digest, get_query_digests_v2,
    get_query_digests_reset_v2, purge_query_digests_async)

    All threads share the maps with the statistics of the digests.  To list the
    statistics the maps are taken away, read without a lock, and merged with what
    was counted meanwhile, in two steps so that the lock is held for short times
    only; the histories below interleave the steps of any number of listings with
    the threads. *)
From S2P Require Import Prelude StringUtils CNumbers.

(** ** Statistics *)
(** The buffers for short names are left out. *)
Record QP_query_digest_stats := mk_stats {
  digest : Z; digest_text : option (list Z); username : list Z; schemaname : list Z; client_address : list Z;
  first_seen : Z; last_seen : Z; count_star : Z; sum_time : Z; min_time : Z; max_time : Z; rows_affected : Z; rows_sent : Z;
  hid : Z
}.
Definition new_stats (u s : list Z) (d : Z) (dt : option (list Z)) (h : Z) (ca : list Z) (max_digest_length : Z) : QP_query_digest_stats :=
  mk_stats d (take (Z.to_nat max_digest_length) <$> dt) u s ca 0 0 0 0 0 0 0 0 h.
Definition add_time (t n ra rs cnt : Z) (q : QP_query_digest_stats) : QP_query_digest_stats :=
  mk_stats (digest q) (digest_text q) (username q) (schemaname q) (client_address q)
    (if first_seen q =? 0 then i64 n else first_seen q) (i64 n)
    (u32 (count_star q + cnt)) (u64 (sum_time q + t))
    (if ((t <? min_time q) || (min_time q =? 0)) && negb (t =? 0) then t else min_time q)
    (if max_time q <? t then t else max_time q)
    (u64 (rows_affected q + ra)) (u64 (rows_sent q + rs)) (hid q).

(** The loop of [my_itoa], digits in reverse order, and the digits put right. *)
Fixpoint my_itoa_loop (fuel : nat) (n : Z) : list Z :=
  let c := n mod 10 + 48 in
  if 0 <? n / 10 then match fuel with O => [c] | S fuel' => c :: my_itoa_loop fuel' (n / 10) end else [c].
Definition my_itoa (n : Z) : list Z := reverse (my_itoa_loop 19 (u64 n)).

Abbreviation umap_query_digest := (gmap Z QP_query_digest_stats).
Abbreviation umap_query_digest_text := (gmap Z (list Z)).
Definition get_digest_text (texts : umap_query_digest_text) (q : QP_query_digest_stats) : outcome (list Z) :=
  match digest_text q with
  | Some dt => Ok dt
  | None => match texts !! digest q with Some dt => Ok dt | None => Fault AssertFail end
  end.
(** [now] is the time of day in seconds, [curtime] the monotonic time in
    microseconds. *)
Definition seen_time (now curtime seen : Z) : Z := u64 (now - curtime / 1000000 + Z.quot seen 1000000).
Definition get_row (now curtime : Z) (texts : umap_query_digest_text) (q : QP_query_digest_stats) : outcome (list (list Z)) :=
  dt ← get_digest_text texts q;
  Ok [schemaname q; username q; client_address q; hex16 (digest q); dt; my_itoa (count_star q);
      my_itoa (seen_time now curtime (first_seen q)); my_itoa (seen_time now curtime (last_seen q));
      my_itoa (sum_time q); my_itoa (min_time q); my_itoa (max_time q); sdec (hid q);
      my_itoa (rows_affected q); my_itoa (rows_sent q)].

(** ** The maps *)
Record digests := mk_digests { digest_umap : umap_query_digest; digest_text_umap : umap_query_digest_text }.
Definition no_digests : digests := mk_digests ∅ ∅.

(** The variables, and a statement that ended: what the parser found, the prepared
    statement if it is one, the session and its current query. *)
Record variables := mk_vars { normalize_digest_text : bool; track_hostname : bool; max_digest_length : Z }.
Record query_end := mk_query {
  e_digest : Z; e_digest_text : option (list Z); e_stmt_info : option (Z * option (list Z));
  e_username : list Z; e_schemaname : list Z; e_addr : option (list Z); e_hid : Z;
  e_time : Z; e_curtime : Z; e_affected_rows : Z; e_rows_sent : Z
}.
Definition client_address_of (v : variables) (e : query_end) : list Z := if track_hostname v then default [] (e_addr e) else [].

(** [dig] and [text] are the ones of the parser or of the prepared statement. *)
Definition update_query_digest (v : variables) (digest_total : Z) (dig : Z) (text : option (list Z)) (e : query_end) (d : digests) : outcome digests :=
  match digest_umap d !! digest_total with
  | Some qds =>
      Ok (mk_digests (<[digest_total := add_time (e_time e) (e_curtime e) (e_affected_rows e) (e_rows_sent e) 1 qds]> (digest_umap d))
            (digest_text_umap d))
  | None =>
      let dt := if normalize_digest_text v then None else text in
      let qds := new_stats (e_username e) (e_schemaname e) dig dt (e_hid e) (client_address_of v e) (max_digest_length v) in
      let umap := <[digest_total := add_time (e_time e) (e_curtime e) (e_affected_rows e) (e_rows_sent e) 1 qds]> (digest_umap d) in
      if normalize_digest_text v then
        match digest_text_umap d !! dig with
        | Some _ => Ok (mk_digests umap (digest_text_umap d))
        | None => match text with Some s => Ok (mk_digests umap (<[dig := s]> (digest_text_umap d))) | None => Fault NullPointer end
        end
      else Ok (mk_digests umap (digest_text_umap d))
  end.

Section Digests.
(** [Spooky s1 s2 us]: [Init(s1,s2)], an [Update] per element of [us], the first
    word of [Final]. *)
Context (Spooky : Z → Z → list (list Z) → Z).

Definition digest_total (v : variables) (dig : Z) (e : query_end) : Z :=
  Spooky 19 3 [e_username e; le_bytes 8 dig; e_schemaname e; le_bytes 4 (e_hid e); client_address_of v e].
Definition query_parser_update_counters (v : variables) (e : query_end) (d : digests) : outcome digests :=
  d ← match e_stmt_info e, e_digest_text e with
      | None, Some text => update_query_digest v (digest_total v (e_digest e) e) (e_digest e) (Some text) e d
      | _, _ => Ok d
      end;
  match e_stmt_info e with
  | Some (dig, Some text) => update_query_digest v (digest_total v dig e) dig (Some text) e d
  | _ => Ok d
  end.

(** *** Merging *)
Definition merge_stats (old new : QP_query_digest_stats) : QP_query_digest_stats :=
  add_time (min_time new) (last_seen new) (rows_affected new) (rows_sent new) (count_star new) old.
Definition merge_element (k : Z) (new : QP_query_digest_stats) (m : umap_query_digest) : umap_query_digest :=
  match m !! k with
  | Some old => <[k := merge_stats old new]> m
  | None => <[k := new]> m
  end.
Definition merge_umaps (into from : umap_query_digest) : umap_query_digest := map_fold merge_element into from.

(** *** Listings *)
(** The rows, one per element of the map. *)
Fixpoint get_rows (now curtime : Z) (texts : umap_query_digest_text) (qs : list QP_query_digest_stats) : outcome (list (list (list Z))) :=
  match qs with
  | [] => Ok []
  | q :: qs' => r ← get_row now curtime texts q; rs ← get_rows now curtime texts qs'; Ok (r :: rs)
  end.
Definition list_digests (now curtime : Z) (d : digests) : outcome (list (list (list Z))) :=
  get_rows now curtime (digest_text_umap d) (snd <$> map_to_list (digest_umap d)).

(** The auxiliary maps of a call of [get_query_digests_v2]: while it reads them,
    and after the second group was merged into them. *)
Inductive listing := Reading (aux : digests) | Merged (aux : digests).
(** The maps, the calls of [get_query_digests_v2] that have not returned, and the
    maps that were taken by a reset or a purge. *)
Record digest_system := mk_system { maps : digests; listings : gmap nat listing; taken : list digests }.
Inductive digest_step :=
  | Execute (v : variables) (e : query_end)
  | ListStart (call : nat) (now curtime : Z)
  | ListSwap (call : nat)
  | ListEnd (call : nat)
  | Reset (now curtime : Z)
  | Purge.
(** A call that is not at the point of the step leaves everything as it is. *)
Definition exec (s : digest_system) (e : digest_step) : outcome digest_system :=
  match e with
  | Execute v q => d ← query_parser_update_counters v q (maps s); Ok (mk_system d (listings s) (taken s))
  | ListStart i now curtime =>
      match listings s !! i with
      | Some _ => Ok s
      | None => _ ← list_digests now curtime (maps s); Ok (mk_system no_digests (<[i := Reading (maps s)]> (listings s)) (taken s))
      end
  | ListSwap i =>
      match listings s !! i with
      | Some (Reading aux) =>
          let aux := mk_digests (merge_umaps (digest_umap aux) (digest_umap (maps s))) (digest_text_umap aux ∪ digest_text_umap (maps s)) in
          Ok (mk_system no_digests (<[i := Merged aux]> (listings s)) (taken s))
      | _ => Ok s
      end
  | ListEnd i =>
      match listings s !! i with
      | Some (Merged aux) =>
          let d := mk_digests (merge_umaps (digest_umap aux) (digest_umap (maps s))) (digest_text_umap (maps s) ∪ digest_text_umap aux) in
          Ok (mk_system d (delete i (listings s)) (taken s))
      | _ => Ok s
      end
  | Reset now curtime => _ ← list_digests now curtime (maps s); Ok (mk_system no_digests (listings s) (maps s :: taken s))
  | Purge => Ok (mk_system no_digests (listings s) (maps s :: taken s))
  end.
Fixpoint exec_all (s : digest_system) (es : list digest_step) : outcome digest_system :=
  match es with [] => Ok s | e :: es' => s ← exec s e; exec_all s es' end.
Definition init_digests : digest_system := mk_system no_digests ∅ [].
End Digests.

(** ** Nothing is lost *)
Inductive tally := Executions | RowsAffected | RowsSent.
Definition amount (k : tally) (q : QP_query_digest_stats) : Z :=
  match k with Executions => count_star q | RowsAffected => rows_affected q | RowsSent => rows_sent q end.
Definition wrap (k : tally) : Z → Z := match k with Executions => u32 | _ => u64 end.
Definition adds (k : tally) (e : query_end) : Z := match k with Executions => 1 | RowsAffected => e_affected_rows e | RowsSent => e_rows_sent e end.
Definition part (k : tally) (key : Z) (m : umap_query_digest) : Z := match m !! key with Some q => amount k q | None => 0 end.
(** Every statistic has its text, its own one or one of the map. *)
Definition texts_known (d : digests) : Prop :=
  map_Forall (λ _ q, is_Some (digest_text q) ∨ is_Some (digest_text_umap d !! digest q)) (digest_umap d).

Lemma wrap_add k x y : wrap k (wrap k x + y) = wrap k (x + y).
Proof. destruct k; [apply u32_add_idemp|apply u64_add_idemp..]. Qed.
Lemma wrap_wrap k x : wrap k (wrap k x) = wrap k x.
Proof. pose proof (wrap_add k x 0) as H. by rewrite !Z.add_0_r in H. Qed.
Lemma amount_add_time k t n ra rs cnt q :
  amount k (add_time t n ra rs cnt q) = wrap k (amount k q + match k with Executions => cnt | RowsAffected => ra | RowsSent => rs end).
Proof. by destruct k. Qed.

(** The merge, an element at a time, is the merge of the maps. *)
Lemma merge_umaps_lookup into from key :
  merge_umaps into from !! key =
  match from !! key with
  | Some new => Some (match into !! key with Some old => merge_stats old new | None => new end)
  | None => into !! key
  end.
Proof.
  unfold merge_umaps. revert key. apply (map_fold_weak_ind (λ r (m : umap_query_digest), ∀ key, r !! key =
    match m !! key with Some new => Some (match into !! key with Some old => merge_stats old new | None => new end) | None => into !! key end)); [done|].
  intros i new m r Hi IH key. unfold merge_element. pose proof (IH i) as Ei. rewrite Hi in Ei. rewrite Ei.
  destruct (decide (key = i)) as [->|Hne].
  - rewrite lookup_insert_eq. by destruct (into !! i); rewrite lookup_insert_eq.
  - rewrite lookup_insert_ne by done. by destruct (into !! i); rewrite lookup_insert_ne by done.
Qed.
Lemma part_merge k key into from :
  wrap k (part k key (merge_umaps into from)) = wrap k (part k key into + part k key from).
Proof.
  unfold part. rewrite merge_umaps_lookup. destruct (from !! key) as [new|]; [|by rewrite Z.add_0_r].
  destruct (into !! key) as [old|]; [|done]. unfold merge_stats. rewrite amount_add_time.
  rewrite wrap_wrap. by destruct k.
Qed.
Lemma merge_texts_known into from texts texts' into_texts :
  texts_known (mk_digests into into_texts) → texts_known (mk_digests from texts) →
  (∀ d, is_Some (into_texts !! d) → is_Some (texts' !! d)) → (∀ d, is_Some (texts !! d) → is_Some (texts' !! d)) →
  texts_known (mk_digests (merge_umaps into from) texts').
Proof.
  unfold texts_known. cbn. intros Hi Hf H1 H2 key q. rewrite merge_umaps_lookup. destruct (from !! key) as [new|] eqn:Ef.
  - destruct (into !! key) as [old|] eqn:Ei; intros [= <-]; [destruct (Hi key old Ei)|destruct (Hf key new Ef)]; cbn; auto.
  - intros Ei. destruct (Hi key q Ei); auto.
Qed.
Lemma union_is_Some_l (a b : umap_query_digest_text) d : is_Some (a !! d) → is_Some ((a ∪ b) !! d).
Proof. intros [x Hx]. exists x. by apply lookup_union_Some_l. Qed.
Lemma union_is_Some_r (a b : umap_query_digest_text) d : is_Some (b !! d) → is_Some ((a ∪ b) !! d).
Proof. intros [x Hx]. destruct (a !! d) as [y|] eqn:E; [exists y; by apply lookup_union_Some_l|exists x; by rewrite lookup_union_r]. Qed.

Lemma same_key (total key : Z) : bool_decide (key = total) = bool_decide (Some total = Some key).
Proof. apply bool_decide_ext. naive_solver. Qed.

Section Histories.
Context (Spooky : Z → Z → list (list Z) → Z).

Lemma update_spec v total dig s e d : texts_known d →
  ∃ d', update_query_digest v total dig (Some s) e d = Ok d' ∧ texts_known d' ∧
    ∀ k key, wrap k (part k key (digest_umap d')) = wrap k (part k key (digest_umap d) + if bool_decide (key = total) then adds k e else 0).
Proof.
  intros Hd.
  set (q := match digest_umap d !! total with Some q => q | None => new_stats (e_username e) (e_schemaname e) dig
    (if normalize_digest_text v then None else Some s) (e_hid e) (client_address_of v e) (max_digest_length v) end).
  set (q' := add_time (e_time e) (e_curtime e) (e_affected_rows e) (e_rows_sent e) 1 q).
  assert (∀ k, amount k q = part k total (digest_umap d)) as Hq.
  { intros k. unfold part, q. destruct (digest_umap d !! total); [done|by destruct k]. }
  assert (∀ k key, wrap k (part k key (<[total := q']> (digest_umap d))) =
    wrap k (part k key (digest_umap d) + if bool_decide (key = total) then adds k e else 0)) as Hpart.
  { intros k key. case_bool_decide as E.
    - subst key. unfold part at 1. rewrite lookup_insert_eq. unfold q'. rewrite amount_add_time, Hq.
      rewrite wrap_wrap. by destruct k.
    - unfold part. rewrite lookup_insert_ne by done. by rewrite Z.add_0_r. }
  assert (∀ texts, (∀ x, is_Some (digest_text_umap d !! x) → is_Some (texts !! x)) →
    is_Some (digest_text q) ∨ is_Some (texts !! digest q) → texts_known (mk_digests (<[total := q']> (digest_umap d)) texts)) as Hknown.
  { intros texts Ht Hq'. apply map_Forall_insert_2; [done|]. intros key x Hx. destruct (Hd key x Hx); auto. }
  unfold update_query_digest. fold q'. unfold q in *. destruct (digest_umap d !! total) as [q0|] eqn:E.
  { eexists. split; [done|]. split; [|done]. apply Hknown; [done|]. by apply (Hd total). }
  destruct (normalize_digest_text v).
  - destruct (digest_text_umap d !! dig) as [s0|] eqn:Et; (eexists; split; [done|]; split; [|done]); apply Hknown; cbn.
    + done.
    + right. by exists s0.
    + intros x Hx. destruct (decide (x = dig)) as [->|]; [by rewrite lookup_insert_eq|by rewrite lookup_insert_ne].
    + right. by rewrite lookup_insert_eq.
  - eexists. split; [done|]. split; [|done]. apply Hknown; [done|]. left. by eexists.
Qed.

(** The key that a statement is counted under. *)
Definition key_of (v : variables) (e : query_end) : option Z :=
  match e_stmt_info e, e_digest_text e with
  | Some (dig, Some _), _ => Some (digest_total Spooky v dig e)
  | None, Some _ => Some (digest_total Spooky v (e_digest e) e)
  | _, _ => None
  end.
Lemma update_counters_spec v e d : texts_known d →
  ∃ d', query_parser_update_counters Spooky v e d = Ok d' ∧ texts_known d' ∧
    ∀ k key, wrap k (part k key (digest_umap d')) = wrap k (part k key (digest_umap d) + if bool_decide (key_of v e = Some key) then adds k e else 0).
Proof.
  intros Hd. unfold query_parser_update_counters, key_of. destruct (e_stmt_info e) as [[dig [s|]]|], (e_digest_text e) as [s'|]; cbn [mbind outcome_bind];
    try (exists d; split; [done|]; split; [done|]; intros k key; rewrite bool_decide_false by done; by rewrite Z.add_0_r).
  - destruct (update_spec v (digest_total Spooky v dig e) dig s e d Hd) as (d' & -> & ? & H). exists d'. split; [done|]. split; [done|].
    intros k key. by rewrite H, same_key.
  - destruct (update_spec v (digest_total Spooky v dig e) dig s e d Hd) as (d' & -> & ? & H). exists d'. split; [done|]. split; [done|].
    intros k key. by rewrite H, same_key.
  - destruct (update_spec v (digest_total Spooky v (e_digest e) e) (e_digest e) s' e d Hd) as (d' & -> & ? & H). exists d'. split; [done|]. split; [done|].
    intros k key. by rewrite H, same_key.
Qed.
Lemma list_digests_ok now curtime d : texts_known d → ∃ rows, list_digests now curtime d = Ok rows.
Proof.
  intros Hd. unfold list_digests.
  assert (Forall (λ q, is_Some (digest_text q) ∨ is_Some (digest_text_umap d !! digest q)) (snd <$> map_to_list (digest_umap d))) as H.
  { rewrite Forall_fmap, Forall_forall. intros [key q] Hin. apply elem_of_map_to_list in Hin. by apply (Hd key). }
  revert H. generalize (snd <$> map_to_list (digest_umap d)). intros qs. induction 1 as [|q qs Hq H IH]; [by eexists|]. cbn [get_rows].
  destruct IH as [rows IH]. unfold get_row, get_digest_text. destruct Hq as [[t ->]|[t Ht]]; [|destruct (digest_text q); rewrite ?Ht];
    cbn [mbind outcome_bind]; rewrite IH; by eexists.
Qed.

Definition aux_of (l : listing) : digests := match l with Reading d | Merged d => d end.
Definition part_of (k : tally) (key : Z) (d : digests) : Z := part k key (digest_umap d).
Definition counted_anywhere (k : tally) (key : Z) (s : digest_system) : Z :=
  part_of k key (maps s) + map_total (λ l, part_of k key (aux_of l)) (listings s) + foldr Z.add 0 (part_of k key <$> taken s).
(** What the statements under a key amount to. *)
Definition executed (k : tally) (key : Z) (es : list digest_step) : Z :=
  foldr (λ e n, match e with Execute v q => (if bool_decide (key_of v q = Some key) then adds k q else 0) + n | _ => n end) 0 es.
Definition system_ok (s : digest_system) : Prop :=
  texts_known (maps s) ∧ map_Forall (λ _ l, texts_known (aux_of l)) (listings s).

Lemma exec_digest_spec s e : system_ok s →
  ∃ s', exec Spooky s e = Ok s' ∧ system_ok s' ∧
    ∀ k key, wrap k (counted_anywhere k key s') = wrap k (counted_anywhere k key s + executed k key [e]).
Proof.
  intros [Hm Hl]. assert (∀ k key, part_of k key no_digests = 0) as H0 by done. assert (texts_known no_digests) as Hn by (intros ? ? E; done).
  assert (∃ s', Ok s = Ok s' ∧ system_ok s' ∧ ∀ k key, wrap k (counted_anywhere k key s') = wrap k (counted_anywhere k key s + 0)) as Hsame.
  { exists s. split; [done|]. split; [done|]. intros k key. by rewrite Z.add_0_r. }
  destruct e as [v q|i now curtime|i|i|now curtime|]; cbn [exec executed foldr].
  - destruct (update_counters_spec v q (maps s) Hm) as (d' & -> & Hd & H). cbn [mbind outcome_bind]. eexists. split; [done|]. split; [done|].
    intros k key. unfold counted_anywhere. cbn [maps listings taken]. rewrite <- !Z.add_assoc, <- wrap_add. unfold part_of at 1. rewrite H, wrap_add.
    f_equal. unfold part_of. lia.
  - destruct (listings s !! i) as [l|] eqn:E; [done|]. destruct (list_digests_ok now curtime (maps s) Hm) as [rows ->]. cbn [mbind outcome_bind].
    eexists. split; [done|]. split; [split; [done|by apply map_Forall_insert_2]|]. intros k key. unfold counted_anywhere. cbn [maps listings taken].
    rewrite map_total_insert_new, H0 by done. f_equal. cbn. lia.
  - destruct (listings s !! i) as [[aux|aux]|] eqn:E; [|done..]. eexists. split; [done|]. pose proof (Hl i _ E) as Ha. cbn in Ha. split; [split; [done|]|].
    + apply map_Forall_insert_2; [|done]. cbn. destruct aux as [u t], (maps s) as [u' t']. cbn in *.
      apply (merge_texts_known _ _ t' _ t); [done|done|apply union_is_Some_l|apply union_is_Some_r].
    + intros k key. unfold counted_anywhere. cbn [maps listings taken]. rewrite (map_total_update _ _ _ _ _ E), H0. cbn [aux_of].
      set (R := map_total _ _). set (T := foldr _ _ _).
      transitivity (wrap k (part k key (merge_umaps (digest_umap aux) (digest_umap (maps s))) + (R - part_of k key aux + T))); [f_equal; unfold part_of; cbn; lia|].
      rewrite <- wrap_add, part_merge, wrap_add. f_equal. unfold part_of. lia.
  - destruct (listings s !! i) as [[aux|aux]|] eqn:E; [done| |done]. eexists. split; [done|]. pose proof (Hl i _ E) as Ha. cbn in Ha. split; [split|].
    + cbn. destruct aux as [u t], (maps s) as [u' t']. cbn in *.
      apply (merge_texts_known _ _ t' _ t); [done|done|apply union_is_Some_r|apply union_is_Some_l].
    + by apply map_Forall_delete.
    + intros k key. unfold counted_anywhere. cbn [maps listings taken]. rewrite (map_total_delete _ _ _ _ E). cbn [aux_of].
      set (R := map_total _ _). set (T := foldr _ _ _).
      transitivity (wrap k (part k key (merge_umaps (digest_umap aux) (digest_umap (maps s))) + (R - part_of k key aux + T))); [f_equal; unfold part_of; cbn; lia|].
      rewrite <- wrap_add, part_merge, wrap_add. f_equal. unfold part_of. lia.
  - destruct (list_digests_ok now curtime (maps s) Hm) as [rows ->]. cbn [mbind outcome_bind]. eexists. split; [done|]. split; [done|].
    intros k key. unfold counted_anywhere. cbn. rewrite H0. f_equal. lia.
  - eexists. split; [done|]. split; [done|]. intros k key. unfold counted_anywhere. cbn. rewrite H0. f_equal. lia.
Qed.
Lemma exec_digests_spec s es : system_ok s →
  ∃ s', exec_all Spooky s es = Ok s' ∧ system_ok s' ∧
    ∀ k key, wrap k (counted_anywhere k key s') = wrap k (counted_anywhere k key s + executed k key es).
Proof.
  revert s. induction es as [|e es IH]; intros s Hs; [exists s; split; [done|]; split; [done|]; intros k key; f_equal; cbn; lia|].
  destruct (exec_digest_spec s e Hs) as (s1 & E & Hs1 & H1). cbn [exec_all]. rewrite E. cbn [mbind outcome_bind].
  destruct (IH s1 Hs1) as (s2 & -> & Hs2 & H2). exists s2. split; [done|]. split; [done|]. intros k key.
  rewrite H2, <- wrap_add, H1, wrap_add. f_equal. unfold executed. destruct e; cbn; lia.
Qed.

(** C24: Listing the digests loses no statement.  Over any history of statements
    that end, of listings that take the maps and merge them back in two steps,
    of resets and of purges, interleaved in any way, the executions, the affected
    and the sent rows under every key - in the maps, in the listings under way
    and in what was taken - are together what the statements amount to, modulo
    the width of the counters; and a listing always finds the text of a digest,
    whatever the variables were when it was counted. *)
Theorem executions_conserved es :
  ∃ s, exec_all Spooky init_digests es = Ok s ∧
    ∀ k key, wrap k (counted_anywhere k key s) = wrap k (executed k key es).
Proof.
  destruct (exec_digests_spec init_digests es) as (s & E & _ & H); [by split; intros ? ? Hi|]. exists s. split; [done|].
  intros k key. rewrite H. f_equal.
Qed.
End Histories.

(** *** Times that are lost *)
(** The merge adds the shortest time of what was counted meanwhile and not the
    sum: of three statements of 10, 20 and 30 microseconds, the last two executed
    while the digests are listed, the sum of the times becomes 30, the longest
    time 20. *)
Example listing_loses_times :
  let v := mk_vars false false 2048 in
  let q t := mk_query 7 (Some (str "SELECT ?")) None (str "u") (str "s") None 0 t 1000000 0 1 in
  let times s := (λ q, (count_star q, sum_time q, min_time q, max_time q)) <$> digest_umap (maps s) !! 5 in
  times <$> exec_all (λ _ _ _, 5) init_digests [Execute v (q 10); ListStart 0 0 0; Execute v (q 20); Execute v (q 30); ListSwap 0; ListEnd 0]
    = Ok (Some (3, 30, 10, 20)) ∧
  times <$> exec_all (λ _ _ _, 5) init_digests [Execute v (q 10); Execute v (q 20); Execute v (q 30)] = Ok (Some (3, 60, 10, 30)).
Proof. by vm_compute. Qed.

(** *** Numbers in the rows *)
Lemma my_itoa_loop_spec fuel n acc : 0 <= n → digits (S fuel) n acc = reverse (my_itoa_loop fuel n) ++ acc.
Proof.
  revert n acc. induction fuel as [|fuel IH]; intros n acc Hn.
  - cbn. rewrite (Z.add_comm 48). by destruct (n <? 10), (0 <? n / 10).
  - cbn [digits my_itoa_loop]. rewrite (Z.add_comm 48). destruct (Z.ltb_spec n 10) as [Hlt|Hge], (Z.ltb_spec 0 (n / 10)) as [Hd|Hd].
    + rewrite Z.div_small in Hd by lia. lia.
    + done.
    + specialize (IH (n / 10) (n mod 10 + 48 :: acc)). cbn [digits] in IH. rewrite IH by lia. by rewrite reverse_cons, <- app_assoc.
    + pose proof (Z.div_le_lower_bound n 10 1). lia.
Qed.
(** [my_itoa] writes the decimal digits of a 64-bit number. *)
Lemma my_itoa_dec n : 0 <= n < 2 ^ 64 → my_itoa n = dec n.
Proof. intros Hn. unfold my_itoa, dec. rewrite u64_small, my_itoa_loop_spec by lia. by rewrite app_nil_r. Qed.
